(* ===== verification/_CoqProject ===== *)
-Q . S2P
Prelude.v
Bytes.v
VectorClock.v
Messages.v
VersionMgr.v
RequestMgr.v
PushMgr.v
Context.v
Num.v
DenseRow.v
SparseRow.v
SortedRow.v
OpLog.v
OpLogWire.v
OpLogMsgs.v
RowWire.v
ServerRow.v
Snapshot.v
Server.v
ServerPush.v
ServerThreads.v
ServerClocks.v
ServerFrames.v
ServerFresh.v
ClockLRU.v
ProcessStorage.v
OpLogMgr.v
BgWorkers.v
BgRows.v
BgProps.v
ThreadTable.v
Consistency.v
AdditiveRow.v
ThreadProps.v
ThreadEquiv.v
ControllerProps.v
PushReads.v
TableGroup.v
TableGroupProps.v
NameNode.v
StartUp.v
StartUpProps.v
LocalStore.v
LocalClocks.v
LocalProps.v
LocalThreads.v
MsgTracker.v
StradsPart.v
StradsCmd.v
StradsFloat.v
StradsCorr.v
StradsSched.v
StradsSample.v
StradsPhase.v
StradsStart.v
StradsLoop.v
StradsLoopProps.v
StradsShard.v
StradsShardProps.v
StradsLoad.v
StradsLoadProps.v
StradsLoading.v
StradsCas.v
StradsLasso.v
StradsLassoProps.v
Dnn.v
DnnProps.v
MfLoader.v
MfSolver.v
MfProps.v
LdaDoc.v
LdaSampler.v
LdaSamplerProps.v
LdaEngine.v
LdaEngineProps.v
LdaStream.v
LdaStreamPlan.v
LdaStreamSteps.v
LdaStreamReads.v
LdaStreamProps.v
