(* ===== verification/Prelude.v ===== *)
(** * A verification library for the Petuum parameter server (C++)

    The repository holds a distributed parameter server ([src/src]), machine
    learning programs that use it ([src/apps]) and STRADS, a system that
    schedules updates of a model ([src/strads]).  This library models the
    parameter server and proves what makes it correct under stale synchronous
    parallelism (SSP): a thread reads rows that miss at most the updates of
    the last [staleness] clocks of others and none of its own.  It also models
    how STRADS chooses the variables that are updated together and how its
    machines exchange them.

    ** The program

    A client is a process.  Its application threads read and update rows of
    tables; their updates are coalesced in the table's oplog (and, in a thread
    cache, before that), and rows they read are kept in the process cache.
    When all threads have ended a clock, the background threads of the client
    send the oplogs of their partition of the rows to the servers that hold
    the rows.  A server applies the oplogs, keeps a vector clock per client
    and answers a row request when all background threads of all clients have
    ended the requested clock; under SSPPush it also sends changed rows
    unasked.  A row that comes back lacks the updates its client has sent
    since; the background thread knows from version numbers which those are
    and adds them before it puts the row into the cache.  The name node
    creates the tables on all servers.

    ** Parts of the library and of the code

    Paths are below [src/src]; [common] stands for [petuum_ps_common] and [ps]
    for [petuum_ps].

    - foundations: [Prelude] (outcomes, wrap-around, lists), [Bytes] (buffers
      and the integers in them), [Num] (value types, the row interface of
      [common/include/abstract_row.hpp] as a class);
    - identifiers and messages: [Context] ([ps/thread/context.hpp],
      [common/comm_bus/zmq_util.cpp]), [Messages] ([ps/thread/ps_msgs.hpp]);
    - clocks and versions: [VectorClock] ([common/util/vector_clock.cpp]),
      [VersionMgr] ([ps/thread/server_version_mgr.cpp]);
    - rows: [DenseRow], [SparseRow], [SortedRow] ([common/storage/]);
      [AdditiveRow], the class of rows whose updates add up;
    - oplogs: [OpLog] ([common/oplog], [ps/oplog]), [OpLogWire]
      ([ps/oplog/serialized_oplog_reader.hpp], [ps/thread/bg_oplog.hpp]),
      [OpLogMsgs] ([BgWorkers::CreateOpLogMsgs] in [ps/thread/bg_workers.cpp]);
    - the server: [RowWire] ([common/util/record_buff.hpp] and its reader),
      [ServerRow] and [Snapshot] ([ps/server/server_row.hpp],
      [server_table.cpp]), [Server] and [ServerPush] ([ps/server/server.cpp]),
      [ServerThreads] ([ps/server/server_threads.cpp]); [ServerClocks],
      [ServerFrames] and [ServerFresh] prove properties of them; [NameNode]
      ([ps/server/name_node_thread.cpp]);
    - the process cache: [ClockLRU] ([common/storage/clock_lru.cpp] and the
      queue and locks it uses), [ProcessStorage]
      ([common/storage/process_storage.cpp], [common/client/client_row.hpp]);
    - the background threads: [RequestMgr] and [PushMgr], the two managers of
      requests and saved oplogs ([ps/thread/row_request_oplog_mgr.cpp],
      [ssp_push_row_request_oplog_mgr.cpp]), [OpLogMgr], the interface the
      worker knows of them, [BgWorkers] ([ps/thread/bg_workers.cpp]), with its
      properties in [BgRows] and [BgProps];
    - the application threads: [ThreadTable] ([ps/client/thread_table.cpp]),
      [Consistency] ([ps/consistency/]), [TableGroup]
      ([ps/client/table_group.cpp], [client_table.cpp]), with their properties
      in [ThreadProps], [ThreadEquiv], [ControllerProps], [PushReads],
      [TableGroupProps];
    - the server of a single process ([petuum_ps_sn]): [LocalStore] models its
      controllers, thread caches and clocks, [LocalClocks], [LocalProps] and
      [LocalThreads] are about them;
    - the whole: [StartUp] composes the name node, the servers, the background
      threads' handshake and creation of tables and the application threads,
      with the messages on their way; [StartUpProps] is about it;
    - [MsgTracker] ([ps/thread/msg_tracker.hpp], [.cpp]), the numbering of
      messages, which nothing uses and whose first call is undefined;
    - STRADS (below [src/strads]): [StradsPart] (partitions and roles,
      [include/common.hpp], [ds/dshard.cpp]), [StradsCmd] (commands and their
      acknowledgements, [include/common.hpp]), [StradsFloat] (doubles as a
      class with laws), [StradsCorr] (sparse columns and their correlation,
      [ds/spmat.hpp], [scheduler/getcorr.cpp]), [StradsSched] (a scheduler
      thread, [scheduler/scheduler.hpp], [scheduler.cpp]) with [StradsSample]
      and [StradsPhase] about it, [StradsStart] (how the coordinator starts
      the schedulers, [coordinator/coordinator.cpp]), [StradsLoop] (the loops
      of the coordinator and of the scheduler machines with their threads, a
      step relation) with [StradsLoopProps] about it;
      [StradsShard] (matrices, the shard of a machine and its file,
      [ds/spmat.hpp], [ds/dshard.hpp], [ds/binaryio.cpp]), [StradsLoad] (how
      the coordinator distributes the inputs and what the machines do with its
      commands, [coordinator/coordinator.cpp], [src/common.cpp]) with
      [StradsShardProps], [StradsLoadProps] and [StradsLoading] about them;
      [StradsCas] (arrays of atomic doubles, [include/cas_array.hpp]) and
      [StradsLasso] (the lasso application, [app/dlasso/vuserfuncs.hpp], and
      the main loop of a worker, [worker/worker_atomic.cpp]) with
      [StradsLassoProps] about it;
    - matrix factorization (below [src/apps/matrixfact/src]): [MfLoader] (the
      loaders behind their interface, [matrixloader.hpp]) and [MfSolver] (a
      worker thread, [matrixfact.cpp]) with [MfProps];
    - the neural network (below [src/apps/dnn/src/dnn]): [Dnn] (propagation,
      mini batches and the training of a worker thread, [dnn.cpp],
      [util.cpp]) with [DnnProps];
    - the LDA application (below [src/apps/lda/src]): [LdaDoc] (documents,
      the loaders that divide the corpus and the work units,
      [lda_doc.hpp], [abstract_doc_loader.cpp], [in_memory_doc_loader.cpp],
      [workload_manager.hpp]), [LdaSampler] (Gibbs sampling of a document's
      topics in three buckets, [fast_doc_sampler.cpp]) with [LdaSamplerProps]
      about it, [LdaEngine] (the log-likelihood, [lda_stats.cpp], [utils.cpp],
      and what a worker thread does, [lda_engine.cpp]) with [LdaEngineProps]
      about it, and [LdaStream] (the
      reader thread and the loaders that stream the corpus from disk,
      [disk_stream_reader.cpp], [disk_stream_doc_loader.cpp],
      [ldb_comparator.hpp]) with [LdaStreamPlan], [LdaStreamSteps],
      [LdaStreamReads] and [LdaStreamProps] about it.

    A component's state is a [Record] with the fields of the class, an
    operation is a [Definition] with its name, and a property is about the
    operations composed as the code composes them.  The interfaces are type
    classes with laws: [Num]/[NumOk] (value types), [AbstractRow]/
    [AbstractRowOk] (row classes), [RowRequestOpLogMgr] (managers), [HashOrder]
    (iteration orders), [LevelDB]/[LevelDBOk] (the snapshot store) with
    [LevelDBKV] and [IntDB] (the database of documents), [MatrixLoader]/
    [MatrixLoaderOk] (the loaders of matrix factorization), [RowStore] (where a
    local controller keeps its rows), [Float] with [FloatOk], [ExactFloat] and
    [RealLaws] (floating-point numbers), [ExpLog] and [RealCalculus]
    (exponentials, logarithms and the rules of differentiation; the instance
    is the functions of a real variable).

    ** What the theorems show

    - Updates reach the servers: every update of a client's oplogs is in
      exactly the message of the server that holds its row, and the server
      applies each row of a message once ([OpLogMsgs], [Server]); the oplog
      coalesces without loss ([OpLog]); encodings round-trip ([Messages],
      [SortedRow], [Snapshot]).
    - Freshness: a server answers a request exactly once, with a row no older
      than asked, as soon as it can ([ServerFresh]); a read returns a row of
      bounded staleness after at most one request, a read that waits
      completes with the first reply, the barrier outlasts the staleness
      ([ControllerProps], [TableGroupProps]).
    - Read-my-writes: a row a background thread caches is the server's row
      with exactly the updates the server lacked, each once, for both
      managers ([BgRows], [BgProps]); a row in the thread cache is the
      process cache's row with the thread's unflushed updates, and updating
      through the cache and flushing is equivalent to updating directly
      ([ThreadEquiv]).
    - The managers keep every oplog a future reply may need and drop it once
      none does ([RequestMgr], [PushMgr], over the unbounded versions of
      [VersionMgr]).
    - Clocks: both vector clocks cache their minimum and report it when it
      moves, in every interleaving ([VectorClock]); a process announces a
      clock when its last thread ends it and its indexes hold every row with
      pending updates ([TableGroupProps]).
    - The process cache keeps referenced rows, its capacity and its
      replacement slots; an insertion ends if not all rows are referenced
      ([ClockLRU], [ProcessStorage]).
    - Start-up: a table is created once on every server and everybody is told
      when all exist ([NameNode]); the name node, the servers, the head
      background threads and the applications that create the tables, composed
      in [StartUp], never read a message they do not wait for and cannot get
      stuck ([StartUpProps]).
    - In a single process a read waits exactly while a thread is too far
      behind ([LocalClocks]), and rows moved between the cache and the
      database are, for reads and updates, one table ([LocalProps]).
    - Rows compute what their updates say ([DenseRow], [SparseRow],
      [SortedRow]).
    - STRADS: every variable is scheduled by one thread ([StradsPart]); the
      threads get exactly the weights of their variables ([StradsStart]);
      they draw the variables random points fall on ([StradsSample]) and send
      a maximal part of them without a conflict ([StradsPhase]), where the
      conflict is the correlation of the entries two columns share
      ([StradsCorr]); a command is done when all have acknowledged it
      ([StradsCmd]).  In every interleaving each thread has one phase, update
      or command on its way and nobody reads a message it does not wait for
      ([StradsLoopProps]).  The shards the machines load are a partition of
      the input ([StradsLoadProps]), and the loading ends ([StradsLoading]).
      Concurrent compare-and-swap loops are linearizable ([StradsCas]), and
      with exact arithmetic the distributed lasso computes block coordinate
      descent on the whole input ([StradsLassoProps]).
    - Matrix factorization: in every iteration all workers together send one
      step for each entry, and a single worker computes stochastic gradient
      descent ([MfProps]); both loaders keep the promises of the interface
      ([MfLoader]).
    - Neural network: forward and backward propagation compute what their
      formulas say, and what a mini batch sends to the tables is the step size
      times the derivative of the loss the code computes ([DnnProps]).
    - LDA: the sums the sampler updates when a word changes its topic are
      what it would compute anew, and the updates it sends to the tables are
      the changes of the counts ([LdaSamplerProps]); all a worker thread sends
      adds up to the counts of its final documents, and it samples and clocks
      as often as the flags say ([LdaEngineProps]); workers that stream the
      corpus from disk see and change one corpus as if it were in memory, in
      every interleaving with the reader ([LdaStreamProps]).

    Some theorems state behaviour the code does not mean to have (a lost
    update, a request dropped, an abort): they carry the word in their name
    ([unlocked_update_missing_from_row], [held_back_request_may_be_lost],
    [redundant_reply_aborts], [push_iteration_stops_at_wrap],
    [push_get_behind_prefetches], [local_flush_drops_uncached],
    [local_thread_get_misses_own_updates], [new_tracker_unusable],
    [ceil_of_floats_too_large], [ceil_of_floats_too_small],
    [objective_mixes_two_models], [whole_batches_undefined],
    [too_many_workers_undefined], [initial_column_sum]).

    ** Conventions

    - [outcome] distinguishes a return, an abort ([CHECK], [LOG(FATAL)],
      [assert], an exception nobody catches) and undefined behaviour.
    - Machine integers are [Z] with [i32], [u32], [u64] where the code may
      wrap; pointers and sizes that cannot overflow on the machine are [Z].
      The overflow of a signed integer is undefined; where [i32] stands for
      its result the theorems have bounds that exclude it, and a loop bound or
      a size that may overflow is [Undef] ([GlobalBarrier], [int_mul]).
    - A [float] that becomes an integer is rounded to 24 bits as the type
      does ([LdaDoc]).
    - [std::map], [unordered_map], the cuckoo and the boost maps are [gmap];
      an ordered iteration is [sorted_entries], an unordered one takes its
      order from [HashOrder].  Queues, vectors and buffers are lists.
    - An operation that runs under a mutex is one step.  Where the code takes
      several locks in turn the model has several steps or names the
      interleaving: [VectorClockMT], the cache a reading thread finds after
      each reply, the update that races with a reply.
    - A message is a constructor of the receiver's event type and of the
      sender's output type with the fields its reader uses; its bytes are in
      [Messages].  Payloads stay byte lists.
    - What an uninitialised variable, a fresh allocation or an omitted write
      holds is a parameter.
    - Using memory after its release is [Undef], with two exceptions the code
      runs into in normal operation and goes on after: the write to a list
      node just removed ([ServerAcknowledgeVersion], a flag in the result) and
      the read of a map entry just erased ([check_cmddone], the list
      [pm_erased_reads] in the state).  The model records them and goes on as
      if the memory were intact; the theorems about them say so.
    - Loops over containers are folds; [while] loops are structural on what
      they consume or have fuel, and without fuel they are [Undef].  The fuel
      is a bound the code's own state gives: the number of bytes of the message
      for the rows the server applies, the tables left for the oplog reader,
      the distance of two versions for the oplogs a reply needs and for their
      removal, the updates left for an iteration over a row oplog, two turns of
      the ring for an eviction ([evict_fuel]).  The theorems show that the
      loops return with it.

    ** Not modelled

    - Creating, joining and pinning threads, pthread barriers, ZeroMQ sockets,
      host files, flags, statistics, timers: system calls and measurement.
      The transport is assumed only where a theorem says so.
    - Memory: allocation succeeds and destructors have no counterpart, except
      where a use after release matters (findings of the manifest).
    - Floating-point values in rows: the laws of [NumOk] do not hold for them;
      theorems without [NumOk] apply to them.  For STRADS doubles are a class
      ([FloatOk]) whose laws hold in IEEE 754.  Theorems that compare a
      result with a mathematical reference, those of the applications,
      are for exact arithmetic ([ExactFloat], [RealLaws], [RealCalculus]):
      they show which sums the code forms, not how it rounds.  The theorem on
      the neural network is for values that are not clamped to [1e-10], which
      leaves out tables that are all zero.
    - Data races on variables that carry no control: the static generator the
      loaders of LDA share ([RandomInitTopics] takes its numbers as an
      argument), the buffers an accessor refers to where no theorem names the
      interleaving.
    - Rows and columns of a factorized matrix beyond [int], to which
      [sgd_element] narrows the [int64_t]s of the loaders.
    - The set-up and output of the applications of Petuum; the second
      application and the transport of STRADS; the Java port. *)
From Stdlib Require Export ZArith Lia Bool List.
From stdpp Require Export base option gmap sets list sorting.
#[export] Set Default Goal Selector "!".
Open Scope Z_scope.

(** ** Outcomes of C++ code

    [Ret] is a normal return; [CheckFail] is a process abort through
    [CHECK], [LOG(FATAL)] or [assert]; [Undef] is undefined behaviour
    (dereferencing an end iterator or a null pointer, an index outside a
    vector, a read of freed memory). *)
Inductive outcome (A : Type) : Type :=
  | Ret (a : A)
  | CheckFail
  | Undef.
Arguments Ret {A} a.
Arguments CheckFail {A}.
Arguments Undef {A}.

#[export] Instance outcome_ret : MRet outcome := fun A a => Ret a.
#[export] Instance outcome_bind : MBind outcome := fun A B f o =>
  match o with Ret a => f a | CheckFail => CheckFail | Undef => Undef end.
#[export] Instance outcome_fmap : FMap outcome := fun A B f o =>
  match o with Ret a => Ret (f a) | CheckFail => CheckFail | Undef => Undef end.

(** [CHECK(b)] *)
Definition CHECK (b : bool) : outcome unit := if b then Ret tt else CheckFail.

(** Dereferencing what a lookup returned without testing it. *)
Definition deref {A} (o : option A) : outcome A :=
  match o with Some a => Ret a | None => Undef end.

(** [CHECK(iter != end())] followed by the dereference. *)
Definition checked {A} (o : option A) : outcome A :=
  match o with Some a => Ret a | None => CheckFail end.

Definition outcome_to_option {A} (o : outcome A) : option A :=
  match o with Ret a => Some a | _ => None end.

(** A loop over a list that threads a state through fallible steps. *)
Fixpoint foldM {A S} (f : S -> A -> outcome S) (l : list A) (s : S) : outcome S :=
  match l with
  | [] => Ret s
  | x :: l' => s' ← f s x; foldM f l' s'
  end.

Lemma bind_Ret_inv {A B} (o : outcome A) (f : A -> outcome B) (b : B) :
  (o ≫= f) = Ret b -> exists a, o = Ret a /\ f a = Ret b.
Proof. destruct o; simpl; [eauto | done | done]. Qed.

Lemma CHECK_Ret b u : CHECK b = Ret u -> b = true.
Proof. by destruct b. Qed.

Lemma foldM_app {A S} (f : S -> A -> outcome S) l1 l2 s :
  foldM f (l1 ++ l2) s = (s' ← foldM f l1 s; foldM f l2 s').
Proof.
  revert s; induction l1 as [|x l1 IH]; intros s; [done|]. simpl.
  destruct (f s x); simpl; [apply IH | done | done].
Qed.

(** Split every successful bind and check found in the context. *)
Ltac inv_outcome :=
  repeat match goal with
  | H : Ret _ = Ret _ |- _ => injection H; clear H; intros; subst
  | H : CheckFail = Ret _ |- _ => discriminate H
  | H : Undef = Ret _ |- _ => discriminate H
  | H : mbind _ _ = Ret _ |- _ =>
      apply bind_Ret_inv in H;
      let a := fresh "a" in let E := fresh "E" in destruct H as (a & E & H)
  | H : CHECK _ = Ret _ |- _ => apply CHECK_Ret in H
  end.

(** [v[i]] on a vector: undefined behaviour outside it. *)
Definition vec_at {A} (l : list A) (i : Z) : outcome A :=
  if bool_decide (0 <= i) then deref (l !! Z.to_nat i) else Undef.

(** [v[i] = x] on a vector. *)
Definition vec_set {A} (l : list A) (i : Z) (x : A) : outcome (list A) :=
  if bool_decide (0 <= i < Z.of_nat (length l)) then Ret (<[Z.to_nat i := x]> l) else Undef.

Lemma vec_at_Ret {A} (l : list A) i x :
  vec_at l i = Ret x <-> 0 <= i /\ l !! Z.to_nat i = Some x.
Proof.
  unfold vec_at, deref. case_bool_decide; [|naive_solver].
  destruct (l !! Z.to_nat i); naive_solver.
Qed.
Lemma vec_at_nat {A} (l : list A) i x : l !! i = Some x -> vec_at l (Z.of_nat i) = Ret x.
Proof. intros Hx. apply vec_at_Ret. rewrite Nat2Z.id. split; [lia|done]. Qed.
Lemma vec_set_nat {A} (l : list A) i x : (i < length l)%nat -> vec_set l (Z.of_nat i) x = Ret (<[i := x]> l).
Proof. intros Hi. unfold vec_set. rewrite bool_decide_true by lia. by rewrite Nat2Z.id. Qed.
Lemma vec_set_in {A} (l : list A) i x : 0 <= i < Z.of_nat (length l) -> vec_set l i x = Ret (<[Z.to_nat i := x]> l).
Proof. intros Hi. unfold vec_set. by rewrite bool_decide_true. Qed.

(** ** Loops that return *)
Lemma mapM_Ret {A B} (f : A -> outcome B) l k : mapM f l = Ret k -> Forall2 (fun x y => f x = Ret y) l k.
Proof.
  revert k. induction l as [|x l IH]; intros k E; cbn in E; [injection E as <-; constructor|].
  apply bind_Ret_inv in E as (y & Ey & E). apply bind_Ret_inv in E as (k' & Ek & [= <-]). constructor; [done|by apply IH].
Qed.

Lemma mapM_seqZ {B} (f : Z -> outcome B) n k : mapM f (seqZ 0 n) = Ret k -> length k = Z.to_nat n /\
  forall i y, k !! i = Some y -> f (Z.of_nat i) = Ret y.
Proof.
  intros E%mapM_Ret. pose proof (Forall2_length _ _ _ E) as Hl. rewrite length_seqZ in Hl. split; [done|]. intros i y Hy.
  destruct (Forall2_lookup_r _ _ _ _ _ E Hy) as (x & Hx%lookup_seqZ & Hf). destruct Hx as [-> _]. by rewrite Z.add_0_l in Hf.
Qed.

Lemma mapM_total {A B} (f : A -> outcome B) l k : Forall2 (fun x y => f x = Ret y) l k -> mapM f l = Ret k.
Proof. induction 1 as [|x y l k E _ IH]; [done|]. change (mapM f (x :: l)) with (y ← f x; k ← mapM f l; Ret (y :: k)). rewrite E. cbn. by rewrite IH. Qed.

Lemma mapM_pure {A B} (f : A -> outcome B) g l : (forall x, x ∈ l -> f x = Ret (g x)) -> mapM f l = Ret (map g l).
Proof. intros Hf. apply mapM_total. change (map g l) with (g <$> l). apply Forall2_fmap_r, Forall_Forall2_diag, Forall_forall. exact Hf. Qed.

Lemma foldM_pure {A S} (f : S -> A -> outcome S) g l s : (forall s x, x ∈ l -> f s x = Ret (g s x)) -> foldM f l s = Ret (foldl g s l).
Proof.
  revert s. induction l as [|x l IH]; intros s Hf; [done|]. cbn. rewrite Hf by (by left). cbn. apply IH. intros s' y Hy. apply Hf. by right.
Qed.

(** A [for] loop with an invariant over its counter. *)
Lemma foldM_seqZ_inv {S} (f : S -> Z -> outcome S) (P : nat -> S -> Prop) n s : P 0%nat s ->
  (forall k s, (k < n)%nat -> P k s -> exists s', f s (Z.of_nat k) = Ret s' /\ P (Datatypes.S k) s') ->
  exists s', foldM f (seqZ 0 (Z.of_nat n)) s = Ret s' /\ P n s'.
Proof.
  intros Hs Hf. induction n as [|n IH]; [by exists s|]. destruct IH as (s1 & E & H1); [intros k s1 Hk; apply Hf; lia|].
  destruct (Hf n s1 ltac:(lia) H1) as (s2 & E2 & H2). exists s2. split; [|done].
  rewrite seqZ_S, foldM_app, E, Z.add_0_l. cbn. by rewrite E2.
Qed.

(** ** Lists *)

Lemma filter_all {A} (P : A -> Prop) `{!forall x, Decision (P x)} (l : list A) :
  (forall x, x ∈ l -> P x) -> filter P l = l.
Proof.
  induction l as [|x l IH]; intros Hl; [done|].
  rewrite filter_cons, decide_True by (apply Hl; by left). f_equal.
  apply IH. intros y Hy. apply Hl. by right.
Qed.

Lemma filter_none {A} (P : A -> Prop) `{!forall x, Decision (P x)} (l : list A) :
  (forall x, x ∈ l -> ~ P x) -> filter P l = [].
Proof.
  induction l as [|x l IH]; intros Hl; [done|].
  rewrite filter_cons, decide_False by (apply Hl; by left).
  apply IH. intros y Hy. apply Hl. by right.
Qed.

(** Choice over a list. *)
Lemma list_choice {A B} `{EqDecision A} `{!Inhabited B} (l : list A) (P : A -> B -> Prop) :
  (forall a, a ∈ l -> exists b, P a b) -> exists f, forall a, a ∈ l -> P a (f a).
Proof.
  induction l as [|a l IH]; intros Hl.
  - exists (fun _ => inhabitant). by intros a ?%elem_of_nil.
  - destruct (Hl a ltac:(by left)) as [b Hb].
    destruct IH as [f Hf]; [intros x Hx; apply Hl; by right|].
    exists (fun x => if decide (x = a) then b else f x).
    intros x [->|Hx]%elem_of_cons; [by rewrite decide_True|].
    destruct (decide (x = a)) as [->|]; auto.
Qed.

Lemma elem_of_rev {A} (x : A) l : x ∈ rev l <-> x ∈ l.
Proof. by rewrite !list_elem_of_In, <- in_rev. Qed.

Lemma StronglySorted_app_iff {A} (R : A -> A -> Prop) (l1 l2 : list A) :
  StronglySorted R (l1 ++ l2) <->
  StronglySorted R l1 /\ StronglySorted R l2 /\ (forall a b, a ∈ l1 -> b ∈ l2 -> R a b).
Proof.
  induction l1 as [|a l1 IH]; simpl.
  - split; [intros H; split_and!; [constructor|done|] | tauto]. by intros a b ?%elem_of_nil.
  - split.
    + intros [H1 H2]%StronglySorted_inv. apply IH in H1 as (Ha & Hb & Hc).
      rewrite Forall_app, !Forall_forall in H2. destruct H2 as [H2 H3].
      split_and!; [constructor; [done|by apply Forall_forall]|done|].
      intros x y [->|Hx]%elem_of_cons Hy; auto.
    + intros (H1 & H2 & H3). apply StronglySorted_inv in H1 as [H1 H4].
      constructor.
      * apply IH. split_and!; [done..|]. intros x y Hx Hy. apply H3; [by right|done].
      * apply Forall_app; split; [done|]. apply Forall_forall. intros y Hy.
        apply H3; [by left|done].
Qed.

Lemma StronglySorted_filter {A} (R : A -> A -> Prop) (P : A -> Prop)
    `{!forall x, Decision (P x)} (l : list A) :
  StronglySorted R l -> StronglySorted R (filter P l).
Proof.
  induction 1 as [|x l Hs IH Hx]; [constructor|]. rewrite filter_cons.
  destruct (decide (P x)); [|done]. constructor; [done|].
  rewrite Forall_forall in Hx |- *. intros y [_ Hy]%list_elem_of_filter. auto.
Qed.

(** ** Machine integers

    A [w]-bit C++ integer is a [Z].  [u32]/[u64] reduce to the unsigned
    range; [i32] reduces to the two's complement range. *)
Definition u8 (z : Z) : Z := z mod 2 ^ 8.
Definition u32 (z : Z) : Z := z mod 2 ^ 32.
Definition u64 (z : Z) : Z := z mod 2 ^ 64.
Definition i32 (z : Z) : Z := (z + 2 ^ 31) mod 2 ^ 32 - 2 ^ 31.

Definition in_i32 (z : Z) : Prop := - 2 ^ 31 <= z < 2 ^ 31.
Definition in_u32 (z : Z) : Prop := 0 <= z < 2 ^ 32.
Definition in_u64 (z : Z) : Prop := 0 <= z < 2 ^ 64.

#[export] Instance in_i32_dec z : Decision (in_i32 z).
Proof. unfold in_i32; apply _. Defined.
#[export] Instance in_u32_dec z : Decision (in_u32 z).
Proof. unfold in_u32; apply _. Defined.
#[export] Instance in_u64_dec z : Decision (in_u64 z).
Proof. unfold in_u64; apply _. Defined.

(** [lia] with the constants of the three widths unfolded and Euclidean
    division translated. *)
Ltac int_lia :=
  unfold in_i32, in_u32, in_u64, i32, u8, u32, u64 in *;
  change (2 ^ 8) with 256 in *;
  change (2 ^ 31) with 2147483648 in *;
  change (2 ^ 32) with 4294967296 in *;
  change (2 ^ 64) with 18446744073709551616 in *;
  Z.div_mod_to_equations; lia.

Lemma i32_id z : in_i32 z -> i32 z = z.
Proof. intros; int_lia. Qed.
Lemma u32_id z : in_u32 z -> u32 z = z.
Proof. intros; int_lia. Qed.
Lemma u64_id z : in_u64 z -> u64 z = z.
Proof. intros; int_lia. Qed.
Lemma in_i32_i32 z : in_i32 (i32 z).
Proof. int_lia. Qed.
Lemma in_u32_u32 z : in_u32 (u32 z).
Proof. int_lia. Qed.
Lemma in_u64_u64 z : in_u64 (u64 z).
Proof. int_lia. Qed.
Lemma i32_u32 z : in_i32 z -> i32 (u32 z) = z.
Proof. intros; int_lia. Qed.
Lemma u32_i32 z : in_u32 z -> u32 (i32 z) = z.
Proof. intros; int_lia. Qed.

(** Automation databases: [wint] for machine-integer side conditions. *)
Create HintDb wint.
Create Rewrite HintDb wint.
#[export] Hint Resolve in_i32_i32 in_u32_u32 in_u64_u64 : wint.
#[export] Hint Rewrite @i32_u32 @u32_i32 @i32_id @u32_id @u64_id using (by auto with wint) : wint.

(** ** Random permutations *)

(** [std::random_shuffle], which draws [rands k], [rands (k + 1)] and so on
    and takes the remainder. *)
Definition shuffle_step (rands : Z -> Z) (k : Z) (l : list Z) (i : Z) : outcome (list Z) :=
  let j := rands (k + i - 1) mod (i + 1) in
  if bool_decide (i = j) then Ret l else x ← vec_at l i; y ← vec_at l j; l' ← vec_set l i y; vec_set l' j x.
Definition random_shuffle (rands : Z -> Z) (k : Z) (l : list Z) : outcome (list Z) :=
  foldM (shuffle_step rands k) (seqZ 1 (Z.of_nat (length l) - 1)) l.

Lemma shuffle_step_spec rands k l i : (forall n, 0 <= rands n) -> 0 <= i < Z.of_nat (length l) ->
  exists l', shuffle_step rands k l i = Ret l' /\ l' ≡ₚ l.
Proof.
  intros Hr Hi. unfold shuffle_step. set (j := rands _ mod _). assert (Hj : 0 <= j < i + 1) by (apply Z.mod_pos_bound; lia).
  case_bool_decide; [by exists l|]. destruct (lookup_lt_is_Some_2 l (Z.to_nat i)) as (x & Hx); [lia|].
  destruct (lookup_lt_is_Some_2 l (Z.to_nat j)) as (y & Hy); [lia|].
  rewrite (proj2 (vec_at_Ret l i x)) by (split; [lia|done]). rewrite (proj2 (vec_at_Ret l j y)) by (split; [lia|done]). cbn [mbind outcome_bind].
  unfold vec_set. rewrite bool_decide_true by lia. cbn [mbind outcome_bind]. rewrite length_insert, bool_decide_true by lia. eexists. split; [done|].
  by apply Permutation_insert_swap.
Qed.

Lemma random_shuffle_spec rands k l : (forall n, 0 <= rands n) -> exists l', random_shuffle rands k l = Ret l' /\ l' ≡ₚ l.
Proof.
  intros Hr. unfold random_shuffle. assert (Hin : forall i, i ∈ seqZ 1 (Z.of_nat (length l) - 1) -> 0 <= i < Z.of_nat (length l)).
  { intros i Hi%elem_of_seqZ. lia. }
  revert Hin. generalize (seqZ 1 (Z.of_nat (length l) - 1)) as idx. intros idx. revert l. induction idx as [|i idx IH]; intros l Hin; [by exists l|].
  cbn [foldM]. destruct (shuffle_step_spec rands k l i Hr (Hin i ltac:(by left))) as (l1 & -> & Hp). cbn [mbind outcome_bind].
  destruct (IH l1) as (l' & E & Hp'). { intros i' Hi'. rewrite Hp. apply Hin. by right. }
  exists l'. split; [done|]. by rewrite Hp'.
Qed.
