(* ===== verification/Bytes.v ===== *)
(** * Byte buffers and machine-integer fields

    The program builds its messages and serialized rows by casting offsets
    of a [uint8_t] buffer.  A buffer is a list of bytes ([Z] in [0, 256));
    reads and writes outside it are undefined behaviour; integers are
    little-endian, as on the x86-64 machines the code targets. *)
From S2P Require Import Prelude.
Open Scope Z_scope.

(** ** Little-endian integers *)

Fixpoint le_split (n : nat) (z : Z) : list Z :=
  match n with
  | O => []
  | S n' => z mod 256 :: le_split n' (z / 256)
  end.

Fixpoint le_combine (bs : list Z) : Z :=
  match bs with
  | [] => 0
  | b :: bs' => b + 256 * le_combine bs'
  end.

Lemma length_le_split n z : length (le_split n z) = n.
Proof. revert z; induction n; intros; simpl; auto. Qed.

Lemma le_combine_split n z : le_combine (le_split n z) = z mod 256 ^ Z.of_nat n.
Proof.
  revert z; induction n as [|n IH]; intros z.
  { simpl. by rewrite Z.mod_1_r. }
  cbn [le_split le_combine]. rewrite IH.
  replace (256 ^ Z.of_nat (S n)) with (256 * 256 ^ Z.of_nat n).
  - rewrite Z.rem_mul_r by (try apply Z.pow_nonzero; lia). lia.
  - rewrite Nat2Z.inj_succ, Z.pow_succ_r by lia. done.
Qed.

(** ** Reads and writes of a buffer *)

Definition blen {A} (l : list A) : Z := Z.of_nat (length l).
Lemma blen_nat {A} (l : list A) : Z.to_nat (blen l) = length l.
Proof. unfold blen. lia. Qed.

Definition mem_read (off n : Z) (mem : list Z) : outcome (list Z) :=
  if bool_decide (0 <= off /\ 0 <= n /\ off + n <= blen mem)
  then Ret (take (Z.to_nat n) (drop (Z.to_nat off) mem)) else Undef.

Definition mem_write (off : Z) (bs mem : list Z) : outcome (list Z) :=
  if bool_decide (0 <= off /\ off + blen bs <= blen mem)
  then Ret (take (Z.to_nat off) mem ++ bs ++ drop (Z.to_nat off + length bs) mem)
  else Undef.

Lemma mem_write_Ret off bs mem mem' :
  mem_write off bs mem = Ret mem' ->
  0 <= off /\ off + blen bs <= blen mem /\ blen mem' = blen mem.
Proof.
  unfold mem_write, blen. case_bool_decide as H; [|done]. intros [= <-].
  rewrite !length_app, length_take, length_drop. lia.
Qed.

Lemma mem_write_ok off bs mem :
  0 <= off -> off + blen bs <= blen mem -> exists mem', mem_write off bs mem = Ret mem'.
Proof. intros. unfold mem_write. rewrite bool_decide_true by done. eauto. Qed.

Lemma mem_write_lookup off bs mem mem' i :
  mem_write off bs mem = Ret mem' ->
  mem' !! i = if bool_decide (off <= Z.of_nat i < off + blen bs)
              then bs !! (i - Z.to_nat off)%nat else mem !! i.
Proof.
  unfold mem_write, blen. case_bool_decide as H; [|done]. intros [= <-].
  case_bool_decide as Hi.
  - rewrite lookup_app_r by (rewrite length_take; lia).
    rewrite length_take, lookup_app_l by lia. f_equal; lia.
  - destruct (decide (Z.of_nat i < off)).
    + rewrite lookup_app_l by (rewrite length_take; lia). apply lookup_take_lt; lia.
    + rewrite lookup_app_r by (rewrite length_take; lia).
      rewrite lookup_app_r by (rewrite length_take; lia).
      rewrite lookup_drop, length_take. f_equal; lia.
Qed.

Lemma mem_read_ext off n mem mem' :
  blen mem' = blen mem ->
  (forall i : nat, off <= Z.of_nat i < off + n -> mem' !! i = mem !! i) ->
  mem_read off n mem' = mem_read off n mem.
Proof.
  intros Hl Hi. unfold mem_read. rewrite Hl. case_bool_decide as H; [|done].
  f_equal. apply list_eq. intros i. destruct (decide (i < Z.to_nat n)%nat).
  - rewrite !lookup_take_lt, !lookup_drop by lia. apply Hi; lia.
  - by rewrite !lookup_take_ge by lia.
Qed.

Lemma mem_read_write_same off bs mem mem' :
  mem_write off bs mem = Ret mem' -> mem_read off (blen bs) mem' = Ret bs.
Proof.
  intros H. pose proof (mem_write_Ret _ _ _ _ H) as (? & ? & Hl).
  unfold mem_read. rewrite bool_decide_true by (unfold blen in *; lia).
  f_equal. apply list_eq. intros i. unfold blen. destruct (decide (i < length bs)%nat).
  - rewrite lookup_take_lt, lookup_drop, (mem_write_lookup _ _ _ _ _ H) by lia.
    rewrite bool_decide_true by (unfold blen; lia). f_equal; lia.
  - rewrite lookup_take_ge by lia. symmetry; apply lookup_ge_None; lia.
Qed.

Lemma mem_read_write_disjoint off bs mem mem' off' n :
  mem_write off bs mem = Ret mem' ->
  off' + n <= off \/ off + blen bs <= off' ->
  mem_read off' n mem' = mem_read off' n mem.
Proof.
  intros H Hd. pose proof (mem_write_Ret _ _ _ _ H) as (? & ? & Hl).
  apply mem_read_ext; [done|]. intros i Hi. rewrite (mem_write_lookup _ _ _ _ _ H).
  rewrite bool_decide_false by lia. done.
Qed.

(** ** Typed fields at an offset *)

Inductive ctype := I32 | U32 | U64 | CBool | CEnum.

Definition csize (ty : ctype) : Z :=
  match ty with I32 | U32 | CEnum => 4 | U64 => 8 | CBool => 1 end.

Definition in_ctype (ty : ctype) (v : Z) : Prop :=
  match ty with
  | I32 => in_i32 v
  | U32 | CEnum => in_u32 v
  | U64 => in_u64 v
  | CBool => v = 0 \/ v = 1
  end.

#[export] Instance in_ctype_dec ty v : Decision (in_ctype ty v).
Proof. destruct ty; apply _. Defined.

Definition cencode (ty : ctype) (v : Z) : list Z := le_split (Z.to_nat (csize ty)) v.

Definition cdecode (ty : ctype) (bs : list Z) : Z :=
  match ty with
  | I32 => i32 (le_combine bs)
  | _ => le_combine bs
  end.

Lemma blen_cencode ty v : blen (cencode ty v) = csize ty.
Proof. unfold blen, cencode. rewrite length_le_split. by destruct ty. Qed.

Lemma cdecode_cencode ty v : in_ctype ty v -> cdecode ty (cencode ty v) = v.
Proof.
  unfold cencode. intros H.
  destruct ty; simpl in H; cbn [cdecode csize];
    rewrite le_combine_split; try (change (256 ^ Z.of_nat (Z.to_nat 4)) with (2 ^ 32));
    try (change (256 ^ Z.of_nat (Z.to_nat 8)) with (2 ^ 64)).
  - change (v mod 2 ^ 32) with (u32 v). by apply i32_u32.
  - by apply u32_id.
  - by apply u64_id.
  - by destruct H as [-> | ->].
  - by apply u32_id.
Qed.

#[global] Arguments cencode : simpl never.
#[global] Arguments cdecode : simpl never.

Record field := Field { f_off : Z; f_ty : ctype }.

(** The accessors of the message structs return a reference: reading
    through it is [get_field], assigning is [set_field]. *)
Definition get_field (f : field) (mem : list Z) : outcome Z :=
  bs ← mem_read (f_off f) (csize (f_ty f)) mem; Ret (cdecode (f_ty f) bs).

Definition set_field (f : field) (v : Z) (mem : list Z) : outcome (list Z) :=
  mem_write (f_off f) (cencode (f_ty f) v) mem.

Definition field_end (f : field) : Z := f_off f + csize (f_ty f).

Definition fields_disjoint (f g : field) : Prop :=
  field_end f <= f_off g \/ field_end g <= f_off f.

#[export] Instance fields_disjoint_dec f g : Decision (fields_disjoint f g).
Proof. unfold fields_disjoint; apply _. Defined.

Definition field_within (n : Z) (f : field) : Prop := 0 <= f_off f /\ field_end f <= n.

#[export] Instance field_within_dec n f : Decision (field_within n f).
Proof. unfold field_within; apply _. Defined.

Lemma set_field_ok f v mem :
  field_within (blen mem) f -> exists mem', set_field f v mem = Ret mem'.
Proof. intros [? ?]. apply mem_write_ok; [done|]. by rewrite blen_cencode. Qed.

Lemma set_field_length f v mem mem' : set_field f v mem = Ret mem' -> blen mem' = blen mem.
Proof. intros H. by apply mem_write_Ret in H as (_ & _ & ?). Qed.

Lemma get_set_same f v mem mem' :
  in_ctype (f_ty f) v -> set_field f v mem = Ret mem' -> get_field f mem' = Ret v.
Proof.
  intros Hv H. unfold get_field. pose proof (mem_read_write_same _ _ _ _ H) as Hr.
  rewrite blen_cencode in Hr. rewrite Hr. simpl. by rewrite cdecode_cencode.
Qed.

Lemma get_set_other f g v mem mem' :
  fields_disjoint f g -> set_field f v mem = Ret mem' -> get_field g mem' = get_field g mem.
Proof.
  intros Hd H. unfold get_field. rewrite (mem_read_write_disjoint _ _ _ _ _ _ H); [done|].
  rewrite blen_cencode. destruct Hd; unfold field_end in *; [right|left]; done.
Qed.

(** ** Writing and reading a list of fields *)

Fixpoint pairwise_disjoint (fs : list field) : Prop :=
  match fs with
  | [] => True
  | f :: fs' => Forall (fields_disjoint f) fs' /\ pairwise_disjoint fs'
  end.

#[export] Instance pairwise_disjoint_dec fs : Decision (pairwise_disjoint fs).
Proof. induction fs; simpl; apply _. Defined.

Definition set_fields (fvs : list (field * Z)) (mem : list Z) : outcome (list Z) :=
  foldM (fun m fv => set_field fv.1 fv.2 m) fvs mem.

Fixpoint get_fields (fs : list field) (mem : list Z) : outcome (list Z) :=
  match fs with
  | [] => Ret []
  | f :: fs' => v ← get_field f mem; vs ← get_fields fs' mem; Ret (v :: vs)
  end.

Lemma set_fields_ok fvs mem :
  Forall (field_within (blen mem)) fvs.*1 ->
  exists mem', set_fields fvs mem = Ret mem' /\ blen mem' = blen mem.
Proof.
  unfold set_fields. revert mem; induction fvs as [|[f v] fvs IH]; intros mem Hw; simpl.
  { eauto. }
  apply Forall_cons in Hw as [Hf Hw].
  destruct (set_field_ok f v mem Hf) as [m1 H1]. rewrite H1. simpl.
  pose proof (set_field_length _ _ _ _ H1) as Hl.
  destruct (IH m1) as (m2 & H2 & ?); [by rewrite Hl|]. exists m2. split; [done|congruence].
Qed.

Lemma set_fields_frame fvs mem mem' g :
  Forall (fun f => fields_disjoint f g) fvs.*1 ->
  set_fields fvs mem = Ret mem' -> get_field g mem' = get_field g mem.
Proof.
  unfold set_fields. revert mem; induction fvs as [|[f v] fvs IH]; intros mem Hd H; simpl in *.
  { by inv_outcome. }
  apply Forall_cons in Hd as [Hf Hd]. inv_outcome.
  rewrite (IH _ Hd H). by apply (get_set_other f g v).
Qed.

Lemma get_set_fields fvs mem mem' :
  pairwise_disjoint fvs.*1 -> Forall (fun fv => in_ctype (f_ty fv.1) fv.2) fvs ->
  set_fields fvs mem = Ret mem' -> get_fields fvs.*1 mem' = Ret fvs.*2.
Proof.
  unfold set_fields. revert mem; induction fvs as [|[f v] fvs IH]; intros mem Hd Hv H; simpl in *.
  { done. }
  destruct Hd as [Hf Hd]. apply Forall_cons in Hv as [Hv1 Hv]. inv_outcome.
  assert (get_field f mem' = Ret v) as ->.
  { rewrite (set_fields_frame fvs a mem' f); [by apply (get_set_same f v mem a)| |done].
    eapply Forall_impl; [exact Hf|]. intros g [?|?]; [by right|by left]. }
  simpl. pose proof (IH _ Hd Hv H) as Hr. unfold fmap in Hr. by rewrite Hr.
Qed.

(** The range side conditions of field values. *)
#[export] Hint Resolve set_field_ok : wint.

(** ** Prefixes *)

Lemma mem_read_prefix n mem p off k :
  mem_read 0 n mem = Ret p -> 0 <= off -> 0 <= k -> off + k <= n ->
  mem_read off k p = mem_read off k mem.
Proof.
  unfold mem_read at 1. case_bool_decide as H; [|done]. intros [= <-] ???.
  unfold mem_read, blen in *.
  rewrite !bool_decide_true by (rewrite ?length_take, ?length_drop; lia).
  f_equal. rewrite drop_0, skipn_firstn_comm, take_take. f_equal; lia.
Qed.

Lemma mem_read_ok off n mem :
  0 <= off -> 0 <= n -> off + n <= blen mem ->
  exists bs, mem_read off n mem = Ret bs /\ blen bs = n.
Proof.
  intros. unfold mem_read. rewrite bool_decide_true by done. eexists; split; [done|].
  unfold blen in *. rewrite length_take, length_drop. lia.
Qed.

Lemma csize_pos ty : 0 < csize ty.
Proof. by destruct ty. Qed.

Lemma get_field_prefix n mem p f :
  mem_read 0 n mem = Ret p -> field_within n f -> get_field f p = get_field f mem.
Proof.
  intros H [? ?]. unfold get_field. pose proof (csize_pos (f_ty f)).
  rewrite (mem_read_prefix _ _ _ _ _ H) by (unfold field_end in *; lia). done.
Qed.

Lemma get_fields_ext fs mem mem' :
  Forall (fun f => get_field f mem' = get_field f mem) fs ->
  get_fields fs mem' = get_fields fs mem.
Proof.
  induction fs as [|f fs IH]; intros H; [done|]. apply Forall_cons in H as [Hf H].
  simpl. by rewrite Hf, (IH H).
Qed.

Lemma get_field_write_disjoint off bs mem mem' f :
  mem_write off bs mem = Ret mem' -> field_end f <= off \/ off + blen bs <= f_off f ->
  get_field f mem' = get_field f mem.
Proof.
  intros H Hd. unfold get_field. by rewrite (mem_read_write_disjoint _ _ _ _ _ _ H).
Qed.

(** ** Segments

    A buffer split where it is read or written. *)

Lemma blen_app {A} (l1 l2 : list A) : blen (l1 ++ l2) = blen l1 + blen l2.
Proof. unfold blen. rewrite length_app. lia. Qed.

Lemma mem_write_seg p x r bs : blen x = blen bs ->
  mem_write (blen p) bs (p ++ x ++ r) = Ret (p ++ bs ++ r).
Proof.
  intros Hx. unfold mem_write, blen in *. rewrite !length_app.
  rewrite bool_decide_true by lia. f_equal. rewrite Nat2Z.id, take_app_length. do 2 f_equal.
  rewrite drop_app_ge by lia. rewrite drop_app_ge by lia.
  replace (_ - _ - _)%nat with O by lia. done.
Qed.

Lemma mem_read_seg p x r : mem_read (blen p) (blen x) (p ++ x ++ r) = Ret x.
Proof.
  unfold mem_read, blen. rewrite !length_app. rewrite bool_decide_true by lia.
  by rewrite !Nat2Z.id, drop_app_length, take_app_length.
Qed.

Lemma mem_read_seg' p x r off n : off = blen p -> n = blen x ->
  mem_read off n (p ++ x ++ r) = Ret x.
Proof. intros -> ->. apply mem_read_seg. Qed.

Lemma mem_write_seg' p x r bs off : off = blen p -> blen x = blen bs ->
  mem_write off bs (p ++ x ++ r) = Ret (p ++ bs ++ r).
Proof. intros ->. apply mem_write_seg. Qed.

(** A region of size [a + b] is one of size [a] and one of size [b]. *)
Lemma split_region (x : list Z) a b : 0 <= a -> 0 <= b -> blen x = a + b ->
  exists x1 x2, x = x1 ++ x2 /\ blen x1 = a /\ blen x2 = b.
Proof.
  intros Ha Hb Hx. exists (take (Z.to_nat a) x), (drop (Z.to_nat a) x).
  unfold blen in *. rewrite take_drop, length_take, length_drop. split_and!; [done|lia..].
Qed.

(** Reading a typed value from a segment. *)
Definition load (ty : ctype) (off : Z) (mem : list Z) : outcome Z :=
  bs ← mem_read off (csize ty) mem; Ret (cdecode ty bs).

(** Assigning a typed value. *)
Definition store (ty : ctype) (off v : Z) (mem : list Z) : outcome (list Z) :=
  mem_write off (cencode ty v) mem.

Lemma load_seg ty v p r off : in_ctype ty v -> off = blen p ->
  load ty off (p ++ cencode ty v ++ r) = Ret v.
Proof.
  intros Hv ->. unfold load. rewrite (mem_read_seg' p (cencode ty v) r) by
    (done || by rewrite blen_cencode). simpl. by rewrite cdecode_cencode.
Qed.

Lemma store_seg ty v p x r off : off = blen p -> blen x = csize ty ->
  store ty off v (p ++ x ++ r) = Ret (p ++ cencode ty v ++ r).
Proof. intros -> Hx. unfold store. apply mem_write_seg. by rewrite blen_cencode. Qed.

(** At the start of the memory. *)
Lemma load_head ty v r : in_ctype ty v -> load ty 0 (cencode ty v ++ r) = Ret v.
Proof. intros Hv. by apply (load_seg ty v []). Qed.

Lemma load_whole ty v : in_ctype ty v -> load ty 0 (cencode ty v) = Ret v.
Proof. intros Hv. rewrite <- (app_nil_r (cencode ty v)). by apply load_head. Qed.
