(* ===== verification/VectorClock.v ===== *)
(** * Vector clocks

    [petuum_ps_common/util/vector_clock.cpp] and [vector_clock_mt.cpp]: a
    map from ids to clocks together with the cached minimum.  The
    specification is the minimum of the map; the operations keep the
    cached [min_clock] equal to it without recomputing it. *)
From S2P Require Import Prelude.
Open Scope Z_scope.

(** ** Data and operations *)

Record VectorClock := mkVectorClock {
  vec_clock : gmap Z Z;
  min_clock : Z
}.

(** [VectorClock::VectorClock()]. *)
Definition VectorClock_default : VectorClock := mkVectorClock ∅ (-1).

(** [VectorClock::VectorClock(ids)]. *)
Definition VectorClock_init (ids : list Z) : VectorClock :=
  mkVectorClock (foldl (fun m id => <[id := 0]> m) ∅ ids) 0.

Definition AddClock (id clock : Z) (vc : VectorClock) : VectorClock :=
  let m := <[id := clock]> (vec_clock vc) in
  mkVectorClock m
    (if bool_decide (min_clock vc = -1 \/ clock < min_clock vc)
     then clock else min_clock vc).

(** [vec_clock_[id]]: [operator[]] inserts 0 for an absent key. *)
Definition vec_clock_at (id : Z) (m : gmap Z Z) : Z * gmap Z Z :=
  match m !! id with
  | Some c => (c, m)
  | None => (0, <[id := 0]> m)
  end.

(** The counting loop of [IsUniqueMin], over the values in iteration
    order, with its early return. *)
Fixpoint unique_min_loop (min num_min : Z) (values : list Z) : bool :=
  match values with
  | [] => true
  | c :: rest =>
      let num_min' := if bool_decide (c = min) then num_min + 1 else num_min in
      if bool_decide (num_min' > 1) then false
      else unique_min_loop min num_min' rest
  end.

Definition IsUniqueMin (id : Z) (vc : VectorClock) : bool * VectorClock :=
  let '(c, m) := vec_clock_at id (vec_clock vc) in
  let vc' := mkVectorClock m (min_clock vc) in
  if bool_decide (c <> min_clock vc) then (false, vc')
  else (unique_min_loop (min_clock vc) 0 (snd <$> map_to_list m), vc').

(** [++vec_clock_[id]]. *)
Definition incr_clock (id : Z) (m : gmap Z Z) : gmap Z Z :=
  let '(c, m') := vec_clock_at id m in <[id := i32 (c + 1)]> m'.

Definition Tick (id : Z) (vc : VectorClock) : Z * VectorClock :=
  let '(is_unique, vc1) := IsUniqueMin id vc in
  let m := incr_clock id (vec_clock vc1) in
  if is_unique : bool then
    let mn := i32 (min_clock vc1 + 1) in (mn, mkVectorClock m mn)
  else (0, mkVectorClock m (min_clock vc1)).

Definition get_clock (id : Z) (vc : VectorClock) : outcome Z :=
  checked (vec_clock vc !! id).

Definition get_min_clock (vc : VectorClock) : Z := min_clock vc.

(** ** The thread-safe variant

    [VectorClockMT] runs each [VectorClock] operation inside its mutex:
    concurrent calls are one sequence of atomic operations. *)
Inductive vc_op := OpAddClock (id clock : Z) | OpTick (id : Z).

Definition VectorClockMT_step (op : vc_op) (vc : VectorClock) : Z * VectorClock :=
  match op with
  | OpAddClock id clock => (0, AddClock id clock vc)
  | OpTick id => Tick id vc
  end.

(** The values returned by a history of operations, and the final state. *)
Fixpoint VectorClockMT_run (ops : list vc_op) (vc : VectorClock) : list Z * VectorClock :=
  match ops with
  | [] => ([], vc)
  | op :: ops' =>
      let '(r, vc1) := VectorClockMT_step op vc in
      let '(rs, vc2) := VectorClockMT_run ops' vc1 in (r :: rs, vc2)
  end.

(** ** Specification: the minimum of a map *)

Definition is_min (m : gmap Z Z) (v : Z) : Prop :=
  (exists id, m !! id = Some v) /\ (forall id c, m !! id = Some c -> v <= c).

Definition vc_ok (vc : VectorClock) : Prop := is_min (vec_clock vc) (min_clock vc).

Lemma is_min_unique m v w : is_min m v -> is_min m w -> v = w.
Proof.
  intros [[i Hi] Hv] [[j Hj] Hw].
  specialize (Hv _ _ Hj); specialize (Hw _ _ Hi). lia.
Qed.

(** [id] is the only key at clock [mn]. *)
Definition sole_holder (m : gmap Z Z) (id mn : Z) : Prop :=
  m !! id = Some mn /\ forall id', m !! id' = Some mn -> id' = id.

Definition occurrences (mn : Z) (l : list Z) : Z :=
  Z.of_nat (length (filter (fun c => c = mn) l)).

Lemma occurrences_cons mn c l :
  occurrences mn (c :: l) = (if bool_decide (c = mn) then 1 else 0) + occurrences mn l.
Proof.
  unfold occurrences. rewrite filter_cons.
  case_bool_decide; case_decide; try done; simpl; lia.
Qed.

Lemma occurrences_nonneg mn l : 0 <= occurrences mn l.
Proof. unfold occurrences; lia. Qed.

Lemma unique_min_loop_true mn n l : n <= 1 ->
  unique_min_loop mn n l = true <-> n + occurrences mn l <= 1.
Proof.
  revert n; induction l as [|c l IH]; intros n Hn.
  { split; [intros _; unfold occurrences; simpl; lia | done]. }
  rewrite occurrences_cons. pose proof (occurrences_nonneg mn l). simpl.
  repeat case_bool_decide; try (rewrite IH by lia); split; intros; try done; lia.
Qed.

Lemma occurrences_zero mn (l : list Z) :
  occurrences mn l = 0 <-> forall c, c ∈ l -> c <> mn.
Proof.
  induction l as [|c l IH].
  - split; [|done]. intros _ c Hc. by apply elem_of_nil in Hc.
  - rewrite occurrences_cons. pose proof (occurrences_nonneg mn l).
    case_bool_decide.
    + split; [lia|]. intros Hn. exfalso; apply (Hn c); [left|done].
    + split.
      * intros H1 d [->|Hd]%elem_of_cons; [done|]. apply IH; [lia|done].
      * intros H1. assert (occurrences mn l = 0) by (apply IH; intros; apply H1; by right).
        lia.
Qed.

Lemma IsUniqueMin_state id vc c :
  vec_clock vc !! id = Some c -> (IsUniqueMin id vc).2 = vc.
Proof.
  intros H. unfold IsUniqueMin, vec_clock_at. rewrite H.
  destruct vc; simpl. by case_bool_decide.
Qed.

Lemma IsUniqueMin_true id vc c :
  vec_clock vc !! id = Some c ->
  (IsUniqueMin id vc).1 = true <-> sole_holder (vec_clock vc) id (min_clock vc).
Proof.
  intros H. unfold IsUniqueMin, vec_clock_at, sole_holder. rewrite H.
  case_bool_decide as Hc; simpl.
  { split; [done|]. intros [? _]; congruence. }
  subst c. rewrite unique_min_loop_true by lia.
  assert (occurrences (min_clock vc) (map_to_list (vec_clock vc)).*2
          = 1 + occurrences (min_clock vc) (map_to_list (delete id (vec_clock vc))).*2) as ->.
  { unfold occurrences at 1.
    rewrite <- (map_to_list_delete (vec_clock vc) id (min_clock vc)) by done.
    rewrite fmap_cons. simpl. fold (occurrences (min_clock vc)
      (min_clock vc :: (map_to_list (delete id (vec_clock vc))).*2)).
    rewrite occurrences_cons. by rewrite bool_decide_true by done. }
  pose proof (occurrences_nonneg (min_clock vc)
                (map_to_list (delete id (vec_clock vc))).*2).
  transitivity (occurrences (min_clock vc) (map_to_list (delete id (vec_clock vc))).*2 = 0);
    [lia|].
  rewrite occurrences_zero. split.
  - intros H1; split; [done|]. intros id' Hid'.
    destruct (decide (id' = id)); [done|]. exfalso. apply (H1 (min_clock vc)); [|done].
    apply list_elem_of_fmap. exists (id', min_clock vc). split; [done|].
    apply elem_of_map_to_list. by rewrite lookup_delete_ne.
  - intros [_ H1] d ([id' d'] & -> & Hd)%list_elem_of_fmap. simpl in *.
    apply elem_of_map_to_list, lookup_delete_Some in Hd as [Hne Hd].
    intros ->. by apply Hne, eq_sym, H1.
Qed.

(** ** Correctness *)

Lemma is_min_tick_sole m id mn :
  is_min m mn -> sole_holder m id mn -> is_min (<[id := mn + 1]> m) (mn + 1).
Proof.
  intros [_ Hle] [Hid Hsole]. split.
  - exists id. apply lookup_insert_eq.
  - intros id' c' [[-> <-]|[Hne Hc']]%lookup_insert_Some; [lia|].
    pose proof (Hle _ _ Hc'). destruct (decide (c' = mn)) as [->|]; [|lia].
    by apply Hsole in Hc'; subst.
Qed.

Lemma is_min_tick_other m id c mn :
  is_min m mn -> m !! id = Some c -> ~ sole_holder m id mn ->
  is_min (<[id := c + 1]> m) mn.
Proof.
  intros [[j Hj] Hle] Hid Hns. split.
  - destruct (decide (j = id)) as [->|]; [|exists j; by rewrite lookup_insert_ne].
    rewrite Hid in Hj; injection Hj as ->.
    destruct (decide (map_Exists (fun k v => k <> id /\ v = mn) m)) as [(k&v&Hk&Hne&->)|Hno].
    + exists k. by rewrite lookup_insert_ne.
    + exfalso. apply Hns. split; [done|]. intros id' H'.
      destruct (decide (id' = id)); [done|]. exfalso. apply Hno. by exists id', mn.
  - intros id' c' [[-> <-]|[Hne Hc']]%lookup_insert_Some; [|by eapply Hle].
    pose proof (Hle _ _ Hid). lia.
Qed.

(** What one tick does, as long as the clock does not overflow. *)
Lemma Tick_cases id vc c :
  vc_ok vc -> vec_clock vc !! id = Some c -> in_i32 c -> in_i32 (c + 1) ->
  let m' := <[id := c + 1]> (vec_clock vc) in
  (sole_holder (vec_clock vc) id (min_clock vc) /\ c = min_clock vc /\
   Tick id vc = (c + 1, mkVectorClock m' (c + 1)) /\ is_min m' (c + 1)) \/
  (Tick id vc = (0, mkVectorClock m' (min_clock vc)) /\ is_min m' (min_clock vc)).
Proof.
  intros Hok Hid Hc Hc1. simpl. unfold Tick.
  pose proof (IsUniqueMin_state _ _ _ Hid) as Hst.
  pose proof (IsUniqueMin_true _ _ _ Hid) as Htr.
  destruct (IsUniqueMin id vc) as [b vc1]. simpl in *. subst vc1.
  unfold incr_clock, vec_clock_at. rewrite Hid, (i32_id (c + 1)) by done. destruct b.
  - left. destruct Htr as [Hs _]. specialize (Hs eq_refl).
    assert (c = min_clock vc) as -> by (destruct Hs; congruence).
    rewrite i32_id by done. split_and!; [done..|]. by apply is_min_tick_sole.
  - right. split; [done|]. apply is_min_tick_other; [done..|].
    intros Hs. by apply Htr in Hs.
Qed.

(** [Tick] on a registered id increments exactly that clock, keeps
    [min_clock] equal to the minimum of all clocks, and returns the new
    minimum exactly when the minimum moved (0 otherwise). *)
Lemma Tick_correct id vc c :
  vc_ok vc -> 0 <= min_clock vc ->
  vec_clock vc !! id = Some c -> in_i32 (c + 1) ->
  let '(r, vc') := Tick id vc in
  vec_clock vc' = <[id := c + 1]> (vec_clock vc) /\
  is_min (vec_clock vc') (min_clock vc') /\
  (min_clock vc' = min_clock vc \/ min_clock vc' = min_clock vc + 1) /\
  r = (if bool_decide (min_clock vc' = min_clock vc) then 0 else min_clock vc').
Proof.
  intros Hok H0 Hid Hb.
  assert (in_i32 c) by (pose proof (proj2 Hok _ _ Hid); int_lia).
  destruct (Tick_cases id vc c Hok Hid ltac:(done) Hb) as [(_ & -> & -> & Hm)|[-> Hm]]; simpl.
  - split_and!; [done|done|lia|]. rewrite bool_decide_false by lia. done.
  - split_and!; [done|done|lia|]. by rewrite bool_decide_true by lia.
Qed.

(** How often [id] ticks in a history. *)
Definition ticks_of (id : Z) (ids : list Z) : Z := occurrences id ids.

Lemma run_ticks ids vc :
  vc_ok vc -> 0 <= min_clock vc ->
  (forall id, id ∈ ids -> is_Some (vec_clock vc !! id)) ->
  (forall id c, vec_clock vc !! id = Some c -> in_i32 (c + Z.of_nat (length ids))) ->
  let '(rs, vc') := VectorClockMT_run (OpTick <$> ids) vc in
  vc_ok vc' /\ min_clock vc <= min_clock vc' /\
  filter (fun r => r <> 0) rs = seqZ (min_clock vc + 1) (min_clock vc' - min_clock vc) /\
  (forall id, vec_clock vc' !! id = (fun c => c + ticks_of id ids) <$> vec_clock vc !! id).
Proof.
  revert vc; induction ids as [|id ids IH]; intros vc Hok H0 Hdom Hb.
  { simpl. rewrite Z.sub_diag. split_and!; [done|lia|done|]. intros id.
    destruct (vec_clock vc !! id); simpl; [|done]. f_equal. unfold ticks_of, occurrences.
    simpl; lia. }
  destruct (Hdom id) as [c Hc]; [left|]. pose proof (proj2 Hok _ _ Hc) as Hle.
  assert (in_i32 c /\ in_i32 (c + 1)) as [Hc0 Hc1].
  { specialize (Hb _ _ Hc). simpl length in Hb. int_lia. }
  cbn [VectorClockMT_run fmap list_fmap VectorClockMT_step].
  assert (forall mn', min_clock vc <= mn' ->
    let vc1 := mkVectorClock (<[id := c + 1]> (vec_clock vc)) mn' in vc_ok vc1 ->
    let '(rs, vc') := VectorClockMT_run (OpTick <$> ids) vc1 in
    vc_ok vc' /\ mn' <= min_clock vc' /\
    filter (fun r => r <> 0) rs = seqZ (mn' + 1) (min_clock vc' - mn') /\
    (forall j, vec_clock vc' !! j = (fun c => c + ticks_of j (id :: ids)) <$> vec_clock vc !! j))
    as Hnext.
  { intros mn' Hmn' vc1 Hok1. specialize (IH vc1 Hok1 ltac:(simpl; lia)).
    destruct (VectorClockMT_run _ vc1) as [rs vc'].
    destruct IH as (? & ? & ? & Hl); [..|split_and!; [done..|]].
    - intros j Hj. simpl. destruct (decide (j = id)) as [->|];
        [rewrite lookup_insert_eq; eauto|rewrite lookup_insert_ne by done].
      apply Hdom; by right.
    - simpl. intros j d [[-> <-]|[_ Hd]]%lookup_insert_Some;
        [specialize (Hb _ _ Hc)
        |specialize (Hb _ _ Hd); pose proof (proj2 Hok _ _ Hd)]; simpl length in Hb; int_lia.
    - intros j. rewrite Hl. simpl. unfold ticks_of. rewrite occurrences_cons.
      destruct (decide (j = id)) as [->|].
      + rewrite lookup_insert_eq, Hc, bool_decide_true by done. simpl. f_equal; lia.
      + rewrite lookup_insert_ne, bool_decide_false by done. done. }
  destruct (Tick_cases id vc c Hok Hc Hc0 Hc1) as [(_ & -> & -> & Hm)|[-> Hm]].
  - specialize (Hnext (min_clock vc + 1) ltac:(lia) Hm).
    destruct (VectorClockMT_run _ _) as [rs vc']. destruct Hnext as (? & ? & Hrs & ?).
    split_and!; [done|lia| |done].
    rewrite filter_cons, decide_True by lia. rewrite Hrs.
    rewrite (seqZ_cons (min_clock vc + 1)) by lia. f_equal. f_equal; lia.
  - specialize (Hnext (min_clock vc) ltac:(lia) Hm).
    destruct (VectorClockMT_run _ _) as [rs vc']. destruct Hnext as (? & ? & Hrs & ?).
    split_and!; [done..| |done]. rewrite filter_cons, decide_False by lia. done.
Qed.

(** C17: along any interleaving of ticks by registered ids, the nonzero
    return values are exactly the successive values of the minimum, each
    announced once and in increasing order, and every clock counts the
    ticks of its id. *)
Theorem VectorClockMT_announces_each_minimum_once ids vc :
  vc_ok vc -> 0 <= min_clock vc ->
  (forall id, id ∈ ids -> is_Some (vec_clock vc !! id)) ->
  (forall id c, vec_clock vc !! id = Some c -> in_i32 (c + Z.of_nat (length ids))) ->
  let '(rs, vc') := VectorClockMT_run (OpTick <$> ids) vc in
  filter (fun r => r <> 0) rs = seqZ (min_clock vc + 1) (min_clock vc' - min_clock vc) /\
  is_min (vec_clock vc') (min_clock vc') /\
  (forall id, vec_clock vc' !! id = (fun c => c + ticks_of id ids) <$> vec_clock vc !! id).
Proof.
  intros Hok H0 Hdom Hb. pose proof (run_ticks ids vc Hok H0 Hdom Hb) as H.
  destruct (VectorClockMT_run _ vc) as [rs vc']. tauto.
Qed.

Lemma AddClock_fresh id clock vc :
  vc_ok vc -> 0 <= min_clock vc -> vec_clock vc !! id = None ->
  vc_ok (AddClock id clock vc).
Proof.
  intros [[j Hj] Hle] H0 Hid. unfold AddClock, vc_ok. simpl.
  assert (j <> id) by congruence.
  case_bool_decide as Hc; split.
  - exists id. apply lookup_insert_eq.
  - intros i c [[-> <-]|[Hne Hi]]%lookup_insert_Some; [lia|].
    specialize (Hle _ _ Hi). lia.
  - exists j. by rewrite lookup_insert_ne.
  - intros i c [[-> <-]|[Hne Hi]]%lookup_insert_Some; [lia|]. by apply Hle in Hi.
Qed.

Lemma AddClock_first id clock : vc_ok (AddClock id clock VectorClock_default).
Proof.
  unfold AddClock, vc_ok. simpl. split.
  - exists id. apply lookup_insert_eq.
  - intros i c [[-> <-]|[_ Hi]]%lookup_insert_Some; [lia|by rewrite lookup_empty in Hi].
Qed.

Lemma AddClock_fold regs vc :
  vc_ok vc -> 0 <= min_clock vc ->
  (forall id, id ∈ regs.*1 -> vec_clock vc !! id = None) ->
  NoDup regs.*1 -> Forall (fun p => 0 <= p.2) regs ->
  vc_ok (foldl (fun vc p => AddClock p.1 p.2 vc) vc regs).
Proof.
  revert vc; induction regs as [|[id c] regs IH]; intros vc Hok H0 Hf Hnd Hpos; [done|].
  apply NoDup_cons in Hnd as [Hni Hnd]. apply Forall_cons in Hpos as [Hc Hpos].
  simpl in *. apply IH; [|unfold AddClock; simpl; case_bool_decide; lia| |done..].
  - apply AddClock_fresh; [done..|]. apply Hf; left.
  - intros j Hj. simpl. rewrite lookup_insert_ne; [apply Hf; by right|by intros ->].
Qed.

Lemma VectorClock_init_lookup ids (m : gmap Z Z) id c :
  foldl (fun m id => <[id := 0]> m) m ids !! id = Some c -> c = 0 \/ m !! id = Some c.
Proof.
  revert m; induction ids as [|i ids IH]; intros m; simpl; [by right|].
  intros [?|[[_ <-]|[_ ?]]%lookup_insert_Some]%IH; auto.
Qed.

Lemma VectorClock_init_dom ids (m : gmap Z Z) id :
  is_Some (m !! id) \/ id ∈ ids ->
  is_Some (foldl (fun m id => <[id := 0]> m) m ids !! id).
Proof.
  revert m; induction ids as [|i ids IH]; intros m; simpl.
  - intros [?|H]; [done|by apply elem_of_nil in H].
  - intros H. apply IH. destruct (decide (i = id)) as [->|Hne].
    + left. rewrite lookup_insert_eq; eauto.
    + rewrite lookup_insert_ne by done.
      destruct H as [?|[->|?]%elem_of_cons]; [by left|done|by right].
Qed.

(** Registering distinct ids with non-negative clocks on a fresh vector
    clock establishes the minimum invariant, whatever their order; so does
    the constructor from a non-empty id list. *)
Lemma AddClock_establishes_minimum id c regs ids i :
  NoDup (id :: regs.*1) -> 0 <= c -> Forall (fun p => 0 <= p.2) regs ->
  vc_ok (foldl (fun vc p => AddClock p.1 p.2 vc) VectorClock_default ((id, c) :: regs)) /\
  vc_ok (VectorClock_init (i :: ids)).
Proof.
  intros [Hni Hnd]%NoDup_cons Hc Hpos. split.
  - simpl. apply AddClock_fold; [apply AddClock_first|done| |done..].
    intros j Hj. simpl. rewrite lookup_insert_ne; [done|by intros ->].
  - split.
    + destruct (VectorClock_init_dom (i :: ids) ∅ i) as [d Hd]; [right; left|].
      exists i. destruct (VectorClock_init_lookup _ _ _ _ Hd) as [->|He]; [exact Hd|].
      by rewrite lookup_empty in He.
    + intros j d Hd. destruct (VectorClock_init_lookup _ _ _ _ Hd) as [->|Hj]; [done|].
      by rewrite lookup_empty in Hj.
Qed.

(** ** Witnesses *)

Definition two_clocks : VectorClock := VectorClock_init [7; 8].

Lemma two_clocks_lookup id c :
  vec_clock two_clocks !! id = Some c -> (id = 7 \/ id = 8) /\ c = 0.
Proof.
  unfold two_clocks, VectorClock_init. simpl. intros H.
  apply lookup_insert_Some in H as [[<- <-]|[_ H]]; [auto|].
  apply lookup_insert_Some in H as [[<- <-]|[_ H]]; [auto|by rewrite lookup_empty in H].
Qed.

Lemma two_clocks_ok : vc_ok two_clocks.
Proof.
  split; [by exists 7|]. intros id c H. apply two_clocks_lookup in H as [_ ->]. done.
Qed.

Lemma VectorClockMT_announces_each_minimum_once_witness :
  (VectorClockMT_run (OpTick <$> [7; 7; 8]) two_clocks).1 = [0; 0; 1] /\
  filter (fun r => r <> 0) (VectorClockMT_run (OpTick <$> [7; 7; 8]) two_clocks).1 = [1].
Proof.
  pose proof (VectorClockMT_announces_each_minimum_once [7; 7; 8] two_clocks
    two_clocks_ok ltac:(vm_compute; discriminate)) as H.
  split; [by vm_compute|].
  destruct (VectorClockMT_run (OpTick <$> [7; 7; 8]) two_clocks) as [rs vc'] eqn:E.
  destruct H as [H _].
  - intros id Hid. repeat (apply elem_of_cons in Hid as [->|Hid]; [by eexists; vm_compute|]).
    by apply elem_of_nil in Hid.
  - intros id c Hc. apply two_clocks_lookup in Hc as [_ ->]. by vm_compute.
  - simpl. rewrite H. vm_compute in E. injection E as <- <-. by vm_compute.
Defined.

