(* ===== verification/Messages.v ===== *)
(** * Messages

    [petuum_ps_common/thread/msg_base.hpp] and
    [petuum_ps/thread/ps_msgs.hpp]: every message is a byte buffer whose
    fields are references at offsets computed from the parent type's size.
    Each message struct is a [msg_struct]: its [get_size] (or, for
    [ArbitrarySizedMsg]s, [get_header_size]), its type tag and its field
    accessors, transcribed from the offset expressions of the source. *)
From S2P Require Import Prelude Bytes.
From stdpp Require Import strings.
Open Scope Z_scope.

Definition PETUUM_MSG_STACK_BUFF_SIZE : Z := 32.

Definition sizeof_bool : Z := csize CBool.
Definition sizeof_int32 : Z := csize I32.
Definition sizeof_uint32 : Z := csize U32.
Definition sizeof_size_t : Z := csize U64.
Definition sizeof_MsgType : Z := csize CEnum.
Definition sizeof_ptr : Z := 8.

Inductive MsgType :=
  | kClientConnect | kServerConnect | kAppConnect | kBgCreateTable | kCreateTable
  | kCreateTableReply | kCreatedAllTables | kRowRequest | kRowRequestReply
  | kServerRowRequestReply | kBgClock | kBgSendOpLog | kClientSendOpLog
  | kConnectServer | kClientStart | kAppThreadDereg | kClientShutDown
  | kServerShutDownAck | kServerPushRow | kMemTransfer.

#[export] Instance MsgType_eq_dec : EqDecision MsgType.
Proof. solve_decision. Defined.

Definition msg_type_code (t : MsgType) : Z :=
  match t with
  | kClientConnect => 0 | kServerConnect => 1 | kAppConnect => 2
  | kBgCreateTable => 3 | kCreateTable => 4 | kCreateTableReply => 5
  | kCreatedAllTables => 6 | kRowRequest => 7 | kRowRequestReply => 8
  | kServerRowRequestReply => 9 | kBgClock => 10 | kBgSendOpLog => 11
  | kClientSendOpLog => 12 | kConnectServer => 13 | kClientStart => 14
  | kAppThreadDereg => 15 | kClientShutDown => 16 | kServerShutDownAck => 17
  | kServerPushRow => 18 | kMemTransfer => 50
  end.

(** ** Base structs *)

Definition MsgBase_get_size : Z := sizeof_MsgType.
Definition get_msg_type : field := Field 0 CEnum.

Definition NumberedMsg_get_seq_num : field := Field MsgBase_get_size U32.
Definition NumberedMsg_get_ack_num : field := Field (MsgBase_get_size + sizeof_uint32) U32.
Definition NumberedMsg_get_size : Z := MsgBase_get_size + sizeof_uint32 + sizeof_uint32.

Definition ArbitrarySizedMsg_get_avai_size : field := Field NumberedMsg_get_size U64.
Definition ArbitrarySizedMsg_get_header_size : Z := NumberedMsg_get_size + sizeof_size_t.

(** [ms_size] is [get_size()] of a fixed-size message and
    [get_header_size()] of an arbitrary-sized one. *)
Record msg_struct := MsgStruct {
  ms_type : MsgType;
  ms_arbitrary : bool;
  ms_size : Z;
  ms_fields : list field
}.

Definition base_fields (s : msg_struct) : list field :=
  get_msg_type :: NumberedMsg_get_seq_num :: NumberedMsg_get_ack_num ::
  (if ms_arbitrary s then [ArbitrarySizedMsg_get_avai_size] else []).

Definition all_fields (s : msg_struct) : list field := base_fields s ++ ms_fields s.

(** ** The message structs *)

Definition ClientConnectMsg : msg_struct :=
  let get_client_id := Field NumberedMsg_get_size I32 in
  MsgStruct kClientConnect false (NumberedMsg_get_size + sizeof_int32) [get_client_id].

Definition ServerConnectMsg : msg_struct :=
  MsgStruct kServerConnect false NumberedMsg_get_size [].

Definition AppConnectMsg : msg_struct :=
  MsgStruct kAppConnect false NumberedMsg_get_size [].

Definition BgCreateTableMsg : msg_struct :=
  let get_table_id := Field NumberedMsg_get_size I32 in
  let get_staleness := Field (NumberedMsg_get_size + sizeof_int32) I32 in
  let get_row_type := Field (NumberedMsg_get_size + sizeof_int32 + sizeof_int32) I32 in
  let get_row_capacity :=
    Field (NumberedMsg_get_size + sizeof_int32 + sizeof_int32 + sizeof_int32) I32 in
  let get_process_cache_capacity :=
    Field (NumberedMsg_get_size + sizeof_int32 + sizeof_int32 + sizeof_int32
           + sizeof_int32) I32 in
  let get_thread_cache_capacity :=
    Field (NumberedMsg_get_size + sizeof_int32 + sizeof_int32 + sizeof_int32
           + sizeof_int32 + sizeof_int32) I32 in
  let get_oplog_capacity :=
    Field (NumberedMsg_get_size + sizeof_int32 + sizeof_int32 + sizeof_int32
           + sizeof_int32 + sizeof_int32 + sizeof_int32) I32 in
  MsgStruct kBgCreateTable false
    (NumberedMsg_get_size + sizeof_int32 + sizeof_int32 + sizeof_int32 + sizeof_int32
     + sizeof_size_t + sizeof_int32 + sizeof_int32 + sizeof_int32)
    [get_table_id; get_staleness; get_row_type; get_row_capacity;
     get_process_cache_capacity; get_thread_cache_capacity; get_oplog_capacity].

Definition CreateTableMsg : msg_struct :=
  let get_table_id := Field NumberedMsg_get_size I32 in
  let get_staleness := Field (NumberedMsg_get_size + sizeof_int32) I32 in
  let get_row_type := Field (NumberedMsg_get_size + sizeof_int32 + sizeof_int32) I32 in
  let get_row_capacity :=
    Field (NumberedMsg_get_size + sizeof_int32 + sizeof_int32 + sizeof_int32) I32 in
  MsgStruct kCreateTable false
    (NumberedMsg_get_size + sizeof_int32 + sizeof_int32 + sizeof_int32 + sizeof_int32
     + sizeof_int32 + sizeof_int32)
    [get_table_id; get_staleness; get_row_type; get_row_capacity].

Definition CreateTableReplyMsg : msg_struct :=
  let get_table_id := Field NumberedMsg_get_size I32 in
  MsgStruct kCreateTableReply false (NumberedMsg_get_size + sizeof_int32) [get_table_id].

Definition RowRequestMsg : msg_struct :=
  let get_table_id := Field NumberedMsg_get_size I32 in
  let get_row_id := Field (NumberedMsg_get_size + sizeof_int32) I32 in
  let get_clock := Field (NumberedMsg_get_size + sizeof_int32 + sizeof_int32) I32 in
  MsgStruct kRowRequest false
    (NumberedMsg_get_size + sizeof_int32 + sizeof_int32 + sizeof_int32)
    [get_table_id; get_row_id; get_clock].

Definition RowRequestReplyMsg : msg_struct :=
  MsgStruct kRowRequestReply false NumberedMsg_get_size [].

Definition CreatedAllTablesMsg : msg_struct :=
  MsgStruct kCreatedAllTables false NumberedMsg_get_size [].

Definition ConnectServerMsg : msg_struct :=
  MsgStruct kConnectServer false NumberedMsg_get_size [].

Definition ClientStartMsg : msg_struct :=
  MsgStruct kClientStart false NumberedMsg_get_size [].

Definition AppThreadDeregMsg : msg_struct :=
  MsgStruct kAppThreadDereg false NumberedMsg_get_size [].

Definition ClientShutDownMsg : msg_struct :=
  MsgStruct kClientShutDown false NumberedMsg_get_size [].

Definition ServerShutDownAckMsg : msg_struct :=
  MsgStruct kServerShutDownAck false NumberedMsg_get_size [].

Definition BgClockMsg : msg_struct :=
  MsgStruct kBgClock false NumberedMsg_get_size [].

Definition BgSendOpLogMsg : msg_struct :=
  MsgStruct kBgSendOpLog false NumberedMsg_get_size [].

Definition MemTransferMsg : msg_struct :=
  let get_mem_ptr := Field NumberedMsg_get_size U64 in
  MsgStruct kMemTransfer false (NumberedMsg_get_size + sizeof_ptr) [get_mem_ptr].

Definition ServerRowRequestReplyMsg : msg_struct :=
  let h := ArbitrarySizedMsg_get_header_size in
  let get_table_id := Field h I32 in
  let get_row_id := Field (h + sizeof_int32) I32 in
  let get_clock := Field (h + sizeof_int32 + sizeof_int32) I32 in
  let get_version := Field (h + sizeof_int32 + sizeof_int32 + sizeof_int32) U32 in
  let get_row_size :=
    Field (h + sizeof_int32 + sizeof_int32 + sizeof_int32 + sizeof_uint32) U64 in
  MsgStruct kServerRowRequestReply true
    (h + sizeof_int32 + sizeof_int32 + sizeof_int32 + sizeof_uint32 + sizeof_size_t)
    [get_table_id; get_row_id; get_clock; get_version; get_row_size].

Definition ClientSendOpLogMsg : msg_struct :=
  let h := ArbitrarySizedMsg_get_header_size in
  let get_is_clock := Field h CBool in
  let get_client_id := Field (h + sizeof_bool) I32 in
  let get_version := Field (h + sizeof_bool + sizeof_int32) U32 in
  MsgStruct kClientSendOpLog true (h + sizeof_bool + sizeof_int32 + sizeof_uint32)
    [get_is_clock; get_client_id; get_version].

Definition ServerPushRowMsg : msg_struct :=
  let h := ArbitrarySizedMsg_get_header_size in
  let get_clock := Field h I32 in
  let get_version := Field (h + sizeof_int32) U32 in
  let get_is_clock := Field (h + sizeof_int32 + sizeof_uint32) CBool in
  MsgStruct kServerPushRow true (h + sizeof_int32 + sizeof_uint32 + sizeof_bool)
    [get_clock; get_version; get_is_clock].

Definition all_structs : list msg_struct :=
  [ClientConnectMsg; ServerConnectMsg; AppConnectMsg; BgCreateTableMsg; CreateTableMsg;
   CreateTableReplyMsg; RowRequestMsg; RowRequestReplyMsg; CreatedAllTablesMsg;
   ConnectServerMsg; ClientStartMsg; AppThreadDeregMsg; ClientShutDownMsg;
   ServerShutDownAckMsg; BgClockMsg; BgSendOpLogMsg; MemTransferMsg;
   ServerRowRequestReplyMsg; ClientSendOpLogMsg; ServerPushRowMsg].

(** ** Construction

    A message object owns its memory (a heap block of [MemBlock::MemAlloc])
    or points to its own 32-byte stack buffer. *)
Record MsgObj := mkMsgObj {
  mo_mem : list Z;
  own_mem : bool;
  use_stack_buff : bool
}.

(** [new uint8_t[n]] and the stack buffer are uninitialised: [junk] gives
    their contents. *)
Definition fresh_mem (junk : nat -> Z) (n : Z) : list Z := junk <$> seq 0 (Z.to_nat n).

(** The default constructor of a fixed-size message and its [InitMsg]. *)
Definition fixed_ctor (s : msg_struct) (junk : nat -> Z) : outcome MsgObj :=
  let '(mem, own, stack) :=
    if bool_decide (ms_size s > PETUUM_MSG_STACK_BUFF_SIZE)
    then (fresh_mem junk (ms_size s), true, false)
    else (fresh_mem junk PETUUM_MSG_STACK_BUFF_SIZE, false, true) in
  mem' ← set_field get_msg_type (msg_type_code (ms_type s)) mem;
  Ret (mkMsgObj mem' own stack).

(** The [avai_size] constructor of an arbitrary-sized message and its
    [InitMsg]. *)
Definition arbitrary_ctor (s : msg_struct) (avai_size : Z) (junk : nat -> Z) : outcome MsgObj :=
  let mem := fresh_mem junk (ms_size s + avai_size) in
  mem1 ← set_field ArbitrarySizedMsg_get_avai_size avai_size mem;
  mem2 ← set_field get_msg_type (msg_type_code (ms_type s)) mem1;
  Ret (mkMsgObj mem2 true false).

Definition msg_ctor (s : msg_struct) (avai_size : Z) (junk : nat -> Z) : outcome MsgObj :=
  if ms_arbitrary s then arbitrary_ctor s avai_size junk else fixed_ctor s junk.

(** [get_size()]: what is handed to the communication bus. *)
Definition get_size (s : msg_struct) (mem : list Z) : outcome Z :=
  if ms_arbitrary s then
    a ← get_field ArbitrarySizedMsg_get_avai_size mem; Ret (ms_size s + a)
  else Ret (ms_size s).

(** A sender constructs the message, assigns its fields, copies a payload
    behind the header, and sends [get_size()] bytes. *)
Definition send_msg (s : msg_struct) (junk : nat -> Z) (vals payload : list Z)
    : outcome (list Z) :=
  obj ← msg_ctor s (blen payload) junk;
  mem1 ← set_fields (zip (ms_fields s) vals) (mo_mem obj);
  mem2 ← mem_write (ms_size s) payload mem1;
  n ← get_size s mem2;
  mem_read 0 n mem2.

(** A receiver wraps the bytes and reads the fields; [get_row_data] and
    [get_data] point behind the header. *)
Definition recv_vals (s : msg_struct) (bytes : list Z) : outcome (list Z) :=
  get_fields (ms_fields s) bytes.

Definition recv_payload (s : msg_struct) (bytes : list Z) : outcome (list Z) :=
  a ← get_field ArbitrarySizedMsg_get_avai_size bytes;
  mem_read (ms_size s) a bytes.

(** ** Layout correctness *)

Definition layout_ok (s : msg_struct) : Prop :=
  Forall (field_within (ms_size s)) (all_fields s) /\ pairwise_disjoint (all_fields s).

#[export] Instance layout_ok_dec s : Decision (layout_ok s).
Proof. unfold layout_ok; apply _. Defined.

Lemma all_layouts_ok s : s ∈ all_structs -> layout_ok s.
Proof.
  revert s. apply Forall_forall. apply (bool_decide_unpack _). by vm_compute.
Qed.

Lemma blen_fresh_mem junk n : 0 <= n -> blen (fresh_mem junk n) = n.
Proof. intros. unfold blen, fresh_mem. rewrite length_fmap, length_seq. lia. Qed.

Lemma layout_size_pos s : s ∈ all_structs -> 4 <= ms_size s /\ ms_size s <= 64.
Proof.
  revert s. apply Forall_forall. apply (bool_decide_unpack _). by vm_compute.
Qed.

Lemma pairwise_disjoint_elem fs f g :
  pairwise_disjoint fs -> f ∈ fs -> g ∈ fs -> f <> g -> fields_disjoint f g.
Proof.
  induction fs as [|h fs IH]; intros Hd Hf Hg Hne; [by apply elem_of_nil in Hf|].
  destruct Hd as [Hh Hd]. rewrite Forall_forall in Hh.
  apply elem_of_cons in Hf as [->|Hf], Hg as [->|Hg]; [done| | |by apply IH].
  - by apply Hh.
  - destruct (Hh f Hf); [by right|by left].
Qed.

Lemma get_msg_type_in s : get_msg_type ∈ all_fields s.
Proof. by left. Qed.

(** The constructor allocates room for every field and tags the message. *)
Lemma msg_ctor_spec s avai junk :
  s ∈ all_structs -> 0 <= avai -> in_u64 avai ->
  exists obj, msg_ctor s avai junk = Ret obj /\
    (if ms_arbitrary s then blen (mo_mem obj) = ms_size s + avai
     else ms_size s <= blen (mo_mem obj)) /\
    get_field get_msg_type (mo_mem obj) = Ret (msg_type_code (ms_type s)) /\
    (ms_arbitrary s = true ->
       get_field ArbitrarySizedMsg_get_avai_size (mo_mem obj) = Ret avai) /\
    (use_stack_buff obj = true <->
       ms_arbitrary s = false /\ ms_size s <= PETUUM_MSG_STACK_BUFF_SIZE) /\
    own_mem obj = negb (use_stack_buff obj).
Proof.
  intros Hs Ha0 Ha. pose proof (layout_size_pos s Hs) as [Hsz _].
  destruct (all_layouts_ok s Hs) as [Hw Hdis]. rewrite Forall_forall in Hw.
  assert (in_ctype CEnum (msg_type_code (ms_type s))) as Hcode by (by destruct (ms_type s)).
  unfold msg_ctor. destruct (ms_arbitrary s) eqn:Harb.
  - assert (ArbitrarySizedMsg_get_avai_size ∈ all_fields s) as Hin.
    { unfold all_fields, base_fields. rewrite Harb. simpl. do 3 right. by left. }
    assert (forall f, f ∈ all_fields s ->
      field_within (blen (fresh_mem junk (ms_size s + avai))) f) as Hw'.
    { intros f Hf. destruct (Hw f Hf). rewrite blen_fresh_mem by lia. split; lia. }
    unfold arbitrary_ctor.
    destruct (set_field_ok ArbitrarySizedMsg_get_avai_size avai _ (Hw' _ Hin)) as [m1 H1].
    rewrite H1. simpl. pose proof (set_field_length _ _ _ _ H1) as Hl1.
    destruct (set_field_ok get_msg_type (msg_type_code (ms_type s)) m1) as [m2 H2].
    { rewrite Hl1. apply Hw', get_msg_type_in. }
    rewrite H2. simpl. pose proof (set_field_length _ _ _ _ H2) as Hl2.
    eexists; split; [done|]. simpl. split_and!.
    + rewrite Hl2, Hl1. apply blen_fresh_mem; lia.
    + by apply (get_set_same get_msg_type _ m1).
    + intros _. rewrite (get_set_other get_msg_type ArbitrarySizedMsg_get_avai_size _ _ _
        ltac:(left; done) H2).
      by apply (get_set_same ArbitrarySizedMsg_get_avai_size _ _ m1 Ha H1).
    + split; [done|]. by intros [? _].
    + done.
  - unfold fixed_ctor. case_bool_decide as Hst.
    + destruct (set_field_ok get_msg_type (msg_type_code (ms_type s))
        (fresh_mem junk (ms_size s))) as [m1 H1].
      { rewrite blen_fresh_mem by lia. apply Hw, get_msg_type_in. }
      rewrite H1. simpl. pose proof (set_field_length _ _ _ _ H1) as Hl1.
      eexists; split; [done|]. simpl. rewrite Hl1, blen_fresh_mem by lia. split_and!; try done.
      * by apply (get_set_same get_msg_type _ _ m1 Hcode H1).
      * split; [done|]. intros [_ ?]; lia.
    + destruct (set_field_ok get_msg_type (msg_type_code (ms_type s))
        (fresh_mem junk PETUUM_MSG_STACK_BUFF_SIZE)) as [m1 H1].
      { rewrite blen_fresh_mem by done. by split. }
      rewrite H1. simpl. pose proof (set_field_length _ _ _ _ H1) as Hl1.
      eexists; split; [done|]. simpl. rewrite Hl1, blen_fresh_mem by done.
      split_and!; [lia| |done| |done].
      * by apply (get_set_same get_msg_type _ _ m1 Hcode H1).
      * split; [|done]. intros _; split; [done|lia].
Qed.

(** In every message struct of the protocol, the constructor tags the
    buffer and gives room for every accessor; assigning through one accessor
    is read back through it and leaves every other field, those of the
    parent structs included, unchanged.  The stack buffer is used exactly
    for the fixed-size messages of at most 32 bytes. *)
Lemma message_fields_independent s avai junk f v :
  s ∈ all_structs -> 0 <= avai -> in_u64 avai ->
  f ∈ all_fields s -> in_ctype (f_ty f) v ->
  exists obj mem',
    msg_ctor s avai junk = Ret obj /\
    get_field get_msg_type (mo_mem obj) = Ret (msg_type_code (ms_type s)) /\
    (use_stack_buff obj = true <->
       ms_arbitrary s = false /\ ms_size s <= PETUUM_MSG_STACK_BUFF_SIZE) /\
    set_field f v (mo_mem obj) = Ret mem' /\
    get_field f mem' = Ret v /\
    (forall g, g ∈ all_fields s -> g <> f ->
       get_field g mem' = get_field g (mo_mem obj)).
Proof.
  intros Hs Ha0 Ha Hf Hv. destruct (all_layouts_ok s Hs) as [Hw Hd].
  rewrite Forall_forall in Hw.
  destruct (msg_ctor_spec s avai junk Hs Ha0 Ha) as (obj & Hc & Hlen & Htag & _ & Hst & _).
  destruct (set_field_ok f v (mo_mem obj)) as [mem' Hset].
  { destruct (Hw f Hf). split; [done|]. destruct (ms_arbitrary s); lia. }
  exists obj, mem'. split_and!; [done..| |].
  - by apply (get_set_same f v (mo_mem obj)).
  - intros g Hg Hne. apply (get_set_other f g v); [|done].
    by eapply pairwise_disjoint_elem.
Qed.

(** The values a sender assigns are in range for their fields. *)
Definition vals_ok (s : msg_struct) (vals : list Z) : Prop :=
  Forall2 (fun f v => in_ctype (f_ty f) v) (ms_fields s) vals.

#[export] Instance vals_ok_dec s vals : Decision (vals_ok s vals).
Proof. unfold vals_ok; apply _. Defined.

Lemma all_fields_split s :
  s ∈ all_structs ->
  pairwise_disjoint (ms_fields s) /\
  (forall f g, f ∈ base_fields s -> g ∈ ms_fields s -> fields_disjoint g f).
Proof.
  intros Hs. destruct (all_layouts_ok s Hs) as [_ Hd]. unfold all_fields in Hd.
  assert (forall l1 l2, pairwise_disjoint (l1 ++ l2) -> pairwise_disjoint l2 /\
    (forall f g, f ∈ l1 -> g ∈ l2 -> fields_disjoint g f)) as H; [|by apply H].
  clear. intros l1 l2. induction l1 as [|h l1 IH]; simpl.
  - intros ?; split; [done|]. intros f g Hf. by apply elem_of_nil in Hf.
  - intros [Hh Hd]. destruct (IH Hd) as [? Hx]. split; [done|].
    intros f g [->|Hf]%elem_of_cons Hg; [|by apply Hx].
    rewrite Forall_forall in Hh. destruct (Hh g); [|by right|by left].
    apply elem_of_app; by right.
Qed.

Lemma zip_fields s vals : vals_ok s vals ->
  (zip (ms_fields s) vals).*1 = ms_fields s /\ (zip (ms_fields s) vals).*2 = vals /\
  Forall (fun fv => in_ctype (f_ty fv.1) fv.2) (zip (ms_fields s) vals).
Proof.
  unfold vals_ok. intros H. pose proof (Forall2_length _ _ _ H) as Hl. split_and!.
  - apply fst_zip. lia.
  - apply snd_zip. lia.
  - generalize (ms_fields s), vals, H. clear. intros l k H.
    induction H; simpl; constructor; done.
Qed.

Lemma set_vals_ok s vals mem :
  s ∈ all_structs -> vals_ok s vals -> ms_size s <= blen mem ->
  exists m1, set_fields (zip (ms_fields s) vals) mem = Ret m1 /\ blen m1 = blen mem /\
    get_fields (ms_fields s) m1 = Ret vals /\
    (forall f, f ∈ base_fields s -> get_field f m1 = get_field f mem).
Proof.
  intros Hs Hv Hl. destruct (all_layouts_ok s Hs) as [Hw _].
  destruct (all_fields_split s Hs) as [Hd Hbd].
  destruct (zip_fields s vals Hv) as (H1 & H2 & H3).
  destruct (set_fields_ok (zip (ms_fields s) vals) mem) as (m1 & Hm1 & Hl1).
  { rewrite H1. unfold all_fields in Hw. apply Forall_app in Hw as [_ Hw].
    eapply Forall_impl; [exact Hw|]. intros f [? ?]. split; [done|lia]. }
  exists m1. split_and!; [done..| |].
  - pose proof (get_set_fields _ mem m1 ltac:(by rewrite H1) H3 Hm1) as Hg.
    by rewrite H1, H2 in Hg.
  - intros f Hf. refine (set_fields_frame _ _ _ f _ Hm1).
    rewrite H1. apply Forall_forall. intros g Hg. by apply Hbd.
Qed.

(** What a sent message is, byte for byte enough to read it back. *)
Lemma send_msg_spec s junk vals payload :
  s ∈ all_structs -> vals_ok s vals ->
  (ms_arbitrary s = false -> payload = []) -> in_u64 (blen payload) ->
  exists bytes, send_msg s junk vals payload = Ret bytes /\
    blen bytes = ms_size s + blen payload /\
    get_field get_msg_type bytes = Ret (msg_type_code (ms_type s)) /\
    recv_vals s bytes = Ret vals /\
    (ms_arbitrary s = true -> recv_payload s bytes = Ret payload).
Proof.
  intros Hs Hv Hp Hpl. pose proof (layout_size_pos s Hs) as [Hsz _].
  assert (0 <= blen payload) as Hp0 by (unfold blen; lia).
  destruct (msg_ctor_spec s (blen payload) junk Hs Hp0 Hpl)
    as (obj & Hc & Hlen & Htag & Havai & _ & _).
  assert (ms_size s + blen payload <= blen (mo_mem obj)) as Hroom.
  { destruct (ms_arbitrary s); [lia|]. rewrite Hp by done. unfold blen at 1; simpl; lia. }
  destruct (set_vals_ok s vals (mo_mem obj) Hs Hv) as (m1 & Hm1 & Hl1 & Hg1 & Hb1); [lia|].
  destruct (mem_write_ok (ms_size s) payload m1) as [m2 Hm2]; [lia|lia|].
  pose proof (mem_write_Ret _ _ _ _ Hm2) as (_ & _ & Hl2).
  destruct (all_layouts_ok s Hs) as [Hw _]. rewrite Forall_forall in Hw.
  assert (forall f, f ∈ all_fields s -> get_field f m2 = get_field f m1) as Hfr.
  { intros f Hf. apply (get_field_write_disjoint _ _ _ _ _ Hm2). left. by destruct (Hw f Hf). }
  destruct (mem_read_ok 0 (ms_size s + blen payload) m2) as (p & Hread & Hpl2); [lia..|].
  assert (forall f, f ∈ all_fields s -> get_field f p = get_field f m1) as Hpf.
  { intros f Hf. rewrite (get_field_prefix _ _ _ _ Hread), (Hfr f Hf); [done|].
    destruct (Hw f Hf). split; lia. }
  assert (ms_arbitrary s = true -> ArbitrarySizedMsg_get_avai_size ∈ base_fields s) as Hav.
  { unfold base_fields. intros ->. do 3 right. by left. }
  assert (get_size s m2 = Ret (ms_size s + blen payload)) as Hgs.
  { unfold get_size. destruct (ms_arbitrary s) eqn:Harb.
    - rewrite Hfr, Hb1, Havai by
        (try done; try (by apply Hav); unfold all_fields; apply elem_of_app; left; by apply Hav).
      done.
    - rewrite Hp by done. unfold blen; simpl. f_equal; lia. }
  exists p. unfold send_msg. rewrite Hc. simpl. rewrite Hm1. simpl. rewrite Hm2. simpl.
  rewrite Hgs. simpl. split_and!; [done|done| | |].
  - rewrite Hpf by apply get_msg_type_in. rewrite Hb1 by (by left). done.
  - unfold recv_vals. rewrite <- Hg1. apply get_fields_ext, Forall_forall.
    intros f Hf. apply Hpf. apply elem_of_app; by right.
  - intros Harb. unfold recv_payload.
    rewrite Hpf by (apply elem_of_app; left; by apply Hav).
    rewrite Hb1, Havai by (try done; by apply Hav). simpl.
    rewrite (mem_read_prefix _ _ _ _ _ Hread) by lia.
    by apply (mem_read_write_same _ _ m1).
Qed.

(** Every message of the protocol survives the wire: whatever the
    uninitialised bytes of the buffer, sending the field values and the
    payload succeeds, the bytes sent have the declared size, and the
    receiver reads the type tag, the same field values and the same
    payload. *)
Lemma message_round_trip s junk vals payload :
  s ∈ all_structs -> vals_ok s vals ->
  (ms_arbitrary s = false -> payload = []) -> in_u64 (blen payload) ->
  exists bytes, send_msg s junk vals payload = Ret bytes /\
    blen bytes = ms_size s + blen payload /\
    get_field get_msg_type bytes = Ret (msg_type_code (ms_type s)) /\
    recv_vals s bytes = Ret vals /\
    (ms_arbitrary s = true -> recv_payload s bytes = Ret payload).
Proof. apply send_msg_spec. Qed.

