(* ===== verification/VersionMgr.v ===== *)
(** * Server versions

    [petuum_ps/thread/server_version_mgr.cpp]: a background worker numbers
    the oplog messages it sends with a 32-bit version that wraps around, and
    remembers for each server the last version that server has applied.
    [ServerVersionMgr] maintains the oldest of them.

    The specification counts versions with unbounded integers; the theorems
    show that the 32-bit code tracks it as long as no server lags 2^32 or
    more versions behind. *)
From S2P Require Import Prelude VectorClock.
Open Scope Z_scope.

Record ServerVersionMgr := mkServerVersionMgr {
  version_map : gmap Z Z;
  version_upper_bound : Z;
  min_version : Z
}.

(** [ServerVersionMgr(server_ids)]: every member starts at [(uint32_t) -1]. *)
Definition ServerVersionMgr_init (server_ids : list Z) : ServerVersionMgr :=
  mkServerVersionMgr (foldl (fun m id => <[id := u32 (-1)]> m) ∅ server_ids)
    (u32 (-1)) (u32 (-1)).

Definition IncVersionUpperBound (mgr : ServerVersionMgr) : ServerVersionMgr :=
  mkServerVersionMgr (version_map mgr) (u32 (version_upper_bound mgr + 1)) (min_version mgr).

Definition GetMinVersion (mgr : ServerVersionMgr) : Z := min_version mgr.
Definition GetVersionUpperBound (mgr : ServerVersionMgr) : Z := version_upper_bound mgr.

(** [ServerVersionMgr::IsUniqueMin], once [version_map_[server_id]] exists;
    its counting loop is that of [VectorClock::IsUniqueMin]. *)
Definition ServerVersionMgr_IsUniqueMin (server_id : Z) (mgr : ServerVersionMgr) : bool :=
  if bool_decide (version_map mgr !! server_id <> Some (min_version mgr)) then false
  else unique_min_loop (min_version mgr) 0 (snd <$> map_to_list (version_map mgr)).

(** The two loops that recompute the minimum. *)
Definition min_loop_plain (values : list Z) (version : Z) : Z :=
  foldl (fun mn v => if bool_decide (v < mn) then v else mn) version values.

(** The condition of the loop for a minimum at or past the upper bound:
    versions greater than the bound were sent before the wrap. *)
Definition older_version (ub v mn : Z) : Prop :=
  (mn > ub /\ (v > ub /\ v < mn)) \/
  (mn <= ub /\ (v > ub \/ (v <= ub /\ v < mn))).

#[export] Instance older_version_dec ub : RelDecision (older_version ub).
Proof. unfold older_version. intros ??. apply _. Defined.

Definition min_loop_wrapped (ub : Z) (values : list Z) (version : Z) : Z :=
  foldl (fun mn v => if bool_decide (older_version ub v mn) then v else mn) version values.

Definition SetServerVersion (server_id version : Z) (mgr : ServerVersionMgr)
    : outcome (bool * ServerVersionMgr) :=
  let '(cur, m) := vec_clock_at server_id (version_map mgr) in
  let mgr0 := mkServerVersionMgr m (version_upper_bound mgr) (min_version mgr) in
  if bool_decide (cur = version) then Ret (false, mgr0)
  else
    let m' := <[server_id := version]> m in
    let ub := version_upper_bound mgr in
    if negb (ServerVersionMgr_IsUniqueMin server_id mgr0)
    then Ret (false, mkServerVersionMgr m' ub (min_version mgr))
    else
      let values := snd <$> map_to_list m' in
      if bool_decide (min_version mgr < ub) then
        _ ← CHECK (bool_decide (version <= ub));
        Ret (true, mkServerVersionMgr m' ub (min_loop_plain values version))
      else
        Ret (true, mkServerVersionMgr m' ub (min_loop_wrapped ub values version)).

(** ** Specification with unbounded version numbers *)

Record AckSpec := mkAckSpec { acked : gmap Z Z; sent : Z }.

(** No server is 2^32 or more versions behind, none is ahead. *)
Definition in_window (s : AckSpec) : Prop :=
  forall id a, acked s !! id = Some a -> 0 <= sent s - a < 2 ^ 32.

Definition acks_refine (mgr : ServerVersionMgr) (s : AckSpec) (mn : Z) : Prop :=
  version_map mgr = u32 <$> acked s /\
  version_upper_bound mgr = u32 (sent s) /\
  min_version mgr = u32 mn /\
  is_min (acked s) mn /\ in_window s.

(** Comparisons of 32-bit versions in the order of the sender. *)
Section WINDOW.
Context (top : Z).
Implicit Types a b : Z.

Definition windowed (a : Z) : Prop := 0 <= top - a < 2 ^ 32.

Lemma u32_window_inj a b : windowed a -> windowed b -> u32 a = u32 b -> a = b.
Proof. unfold windowed; intros; int_lia. Qed.

Lemma wrapped_lt_spec a b : windowed a -> windowed b ->
  older_version (u32 top) (u32 a) (u32 b) <-> a < b.
Proof. unfold windowed, older_version; intros; int_lia. Qed.

(** Below the wrap the plain comparison is enough. *)
Lemma plain_lt_spec a b mn : windowed a -> windowed b -> windowed mn ->
  u32 mn < u32 top -> mn <= a -> mn <= b -> (u32 a < u32 b <-> a < b) /\ u32 a <= u32 top.
Proof. unfold windowed; intros; int_lia. Qed.
End WINDOW.

(** ** The minimum loops *)

Definition list_min (v : Z) (l : list Z) : Z := foldl (fun mn a => if bool_decide (a < mn) then a else mn) v l.

Lemma list_min_spec v l :
  list_min v l ∈ v :: l /\ (forall a, a ∈ v :: l -> list_min v l <= a).
Proof.
  unfold list_min. revert v; induction l as [|b l IH]; intros v; simpl.
  { split; [left|]. by intros a [->|H%elem_of_nil]%elem_of_cons. }
  destruct (IH (if bool_decide (b < v) then b else v)) as [Hin Hle]. split.
  - apply elem_of_cons in Hin as [->|Hin]; [|by do 2 right].
    case_bool_decide; [by right; left|left].
  - intros a Ha. destruct (decide (a = v \/ a = b)) as [Hab|Hab].
    + specialize (Hle (if bool_decide (b < v) then b else v) ltac:(left)).
      case_bool_decide; destruct Hab; subst; lia.
    + apply Hle. apply elem_of_cons in Ha as [->|Ha]; [tauto|].
      apply elem_of_cons in Ha as [->|Ha]; [tauto|]. by right.
Qed.

Lemma fold_min_u32 (test : Z -> Z -> Prop) `{!RelDecision test} (P : Z -> Prop) v l :
  (forall a b, P a -> P b -> test (u32 a) (u32 b) <-> a < b) ->
  P v -> Forall P l ->
  foldl (fun mn w => if bool_decide (test w mn) then w else mn) (u32 v) (u32 <$> l)
  = u32 (list_min v l).
Proof.
  intros Ht. unfold list_min. revert v; induction l as [|b l IH]; intros v Hv Hl; [done|].
  apply Forall_cons in Hl as [Hb Hl]. simpl.
  rewrite (bool_decide_ext (test (u32 b) (u32 v)) (b < v)) by (by apply Ht).
  case_bool_decide; by apply IH.
Qed.

Lemma list_min_is_min (m : gmap Z Z) id v :
  m !! id = Some v -> is_min m (list_min v (snd <$> map_to_list m)).
Proof.
  intros Hid. destruct (list_min_spec v (snd <$> map_to_list m)) as [Hin Hle]. split.
  - apply elem_of_cons in Hin as [->|Hin]; [eauto|].
    apply list_elem_of_fmap in Hin as ([j w] & -> & Hj%elem_of_map_to_list). by exists j.
  - intros j w Hj. apply Hle. right. apply list_elem_of_fmap. exists (j, w).
    split; [done|]. by apply elem_of_map_to_list.
Qed.

Lemma values_u32 (m : gmap Z Z) :
  snd <$> map_to_list (u32 <$> m) = u32 <$> (snd <$> map_to_list m).
Proof. rewrite map_to_list_fmap, <- !list_fmap_compose. done. Qed.

Lemma is_min_raise m id a b mn :
  is_min m mn -> m !! id = Some a -> a <= b ->
  (~ sole_holder m id mn \/ a = b -> is_min (<[id := b]> m) mn) /\
  (sole_holder m id mn -> a < b ->
     forall mn', is_min (<[id := b]> m) mn' -> mn < mn').
Proof.
  intros [[j Hj] Hle] Hid Hab. split.
  - intros Hns. split.
    + destruct (decide (j = id)) as [->|]; [|exists j; by rewrite lookup_insert_ne].
      rewrite Hid in Hj; injection Hj as ->.
      destruct (decide (map_Exists (fun k v => k <> id /\ v = mn) m))
        as [(k&v&Hk&Hne&->)|Hno].
      * exists k. by rewrite lookup_insert_ne.
      * destruct Hns as [Hns| ->]; [|exists id; apply lookup_insert_eq].
        exfalso. apply Hns. split; [done|]. intros id' H'.
        destruct (decide (id' = id)); [done|]. exfalso. apply Hno. by exists id', mn.
    + intros id' c' [[-> <-]|[Hne Hc']]%lookup_insert_Some; [|by eapply Hle].
      pose proof (Hle _ _ Hid). lia.
  - intros [Hm Hs] Hlt mn' [[k Hk] _].
    apply lookup_insert_Some in Hk as [[-> <-]|[Hne Hk]]; [congruence|].
    pose proof (Hle _ _ Hk). destruct (decide (mn' = mn)) as [->|]; [|lia].
    by apply Hs in Hk.
Qed.

Lemma unique_min_iff (m : gmap Z Z) id c mn :
  m !! id = Some c ->
  (if bool_decide (m !! id <> Some mn) then false
   else unique_min_loop mn 0 (snd <$> map_to_list m)) = true <-> sole_holder m id mn.
Proof.
  intros H. rewrite <- (IsUniqueMin_true id (mkVectorClock m mn) c H).
  unfold IsUniqueMin, vec_clock_at. simpl. rewrite H.
  rewrite (bool_decide_ext (Some c <> Some mn) (c <> mn)) by (split; intros ??; congruence).
  by case_bool_decide.
Qed.

Lemma sole_holder_u32 s id mn :
  in_window s -> is_min (acked s) mn ->
  sole_holder (u32 <$> acked s) id (u32 mn) <-> sole_holder (acked s) id mn.
Proof.
  intros Hw [[j Hj] Hle].
  assert (forall i, (u32 <$> acked s) !! i = Some (u32 mn) <-> acked s !! i = Some mn) as Hiff.
  { intros i. rewrite lookup_fmap. destruct (acked s !! i) as [a|] eqn:Ha; simpl; [|done].
    split; [|by intros [= ->]]. intros [= Heq]. f_equal.
    apply (u32_window_inj (sent s)); [by eapply Hw|by eapply Hw|done]. }
  unfold sole_holder. rewrite Hiff. setoid_rewrite Hiff. done.
Qed.

(** ** Correctness *)

Lemma min_loop_wrapped_spec s v :
  in_window s -> (exists id, acked s !! id = Some v) ->
  min_loop_wrapped (u32 (sent s)) (snd <$> map_to_list (u32 <$> acked s)) (u32 v)
  = u32 (list_min v (snd <$> map_to_list (acked s))).
Proof.
  intros Hw [id Hid]. unfold min_loop_wrapped. rewrite values_u32.
  apply (fold_min_u32 (older_version (u32 (sent s))) (windowed (sent s))).
  - intros a b Ha Hb. by apply wrapped_lt_spec.
  - by eapply Hw.
  - apply Forall_forall. intros a Ha.
    apply list_elem_of_fmap in Ha as ([j w] & -> & Hj%elem_of_map_to_list). by eapply Hw.
Qed.

Lemma min_loop_plain_spec s v mn :
  in_window s -> windowed (sent s) mn -> u32 mn < u32 (sent s) ->
  (forall id a, acked s !! id = Some a -> mn <= a) -> (exists id, acked s !! id = Some v) ->
  min_loop_plain (snd <$> map_to_list (u32 <$> acked s)) (u32 v)
  = u32 (list_min v (snd <$> map_to_list (acked s))) /\ u32 v <= u32 (sent s).
Proof.
  intros Hw Hmn Hlt Hle [id Hid]. unfold min_loop_plain. rewrite values_u32. split.
  - apply (fold_min_u32 Z.lt (fun a => windowed (sent s) a /\ mn <= a)).
    + intros a b [??] [??]. by apply (plain_lt_spec (sent s) a b mn).
    + split; [by eapply Hw|by eapply Hle].
    + apply Forall_forall. intros a Ha.
      apply list_elem_of_fmap in Ha as ([j w] & -> & Hj%elem_of_map_to_list).
      split; [by eapply Hw|by eapply Hle].
  - apply (plain_lt_spec (sent s) v v mn); try done; by eapply Hw || by eapply Hle.
Qed.

Lemma SetServerVersion_refines mgr s mn id a b :
  acks_refine mgr s mn -> acked s !! id = Some a -> a <= b <= sent s ->
  let s' := mkAckSpec (<[id := b]> (acked s)) (sent s) in
  exists r mgr' mn',
    SetServerVersion id (u32 b) mgr = Ret (r, mgr') /\
    acks_refine mgr' s' mn' /\ (r = true <-> mn < mn') /\ (r = false -> mn' = mn).
Proof.
  intros (Hm & Hub & Hmin & Hmn & Hw) Hid Hb s'.
  assert (in_window s') as Hw'.
  { intros i c. simpl. intros [[-> <-]|[_ Hi]]%lookup_insert_Some; [|by eapply Hw].
    pose proof (Hw _ _ Hid). lia. }
  destruct (is_min_raise (acked s) id a b mn Hmn Hid ltac:(lia)) as [Hkeep Hraise].
  assert (windowed (sent s) mn) as Hwmn by (destruct Hmn as [[j Hj] _]; by eapply Hw).
  assert (windowed (sent s) b) as Hwb by (pose proof (Hw _ _ Hid); unfold windowed; lia).
  unfold SetServerVersion, vec_clock_at. rewrite Hm, lookup_fmap, Hid. cbn [option_fmap fmap option_map].
  case_bool_decide as Heq.
  { apply (u32_window_inj (sent s)) in Heq as ->; [|by eapply Hw|done].
    exists false, (mkServerVersionMgr (u32 <$> acked s) (version_upper_bound mgr) (min_version mgr)), mn.
    split_and!; [done| |lia|done]. split_and!; try done; simpl.
    - by rewrite fmap_insert, insert_id by (by rewrite lookup_fmap, Hid).
    - apply Hkeep. by right. }
  assert (a < b) as Hlt by (destruct (decide (a = b)) as [->|]; [done|lia]).
  assert (<[id:=u32 b]> (u32 <$> acked s) = u32 <$> acked s') as Hm'
    by (simpl; by rewrite fmap_insert).
  assert (ServerVersionMgr_IsUniqueMin id
    (mkServerVersionMgr (u32 <$> acked s) (version_upper_bound mgr) (min_version mgr)) = true
    <-> sole_holder (acked s) id mn) as Huniq.
  { unfold ServerVersionMgr_IsUniqueMin. simpl. rewrite Hmin.
    rewrite (unique_min_iff _ id (u32 a)) by (by rewrite lookup_fmap, Hid).
    by apply sole_holder_u32. }
  destruct (ServerVersionMgr_IsUniqueMin id _) eqn:Hu; simpl.
  - destruct Huniq as [Hs _]. specialize (Hs eq_refl).
    assert (is_min (acked s') (list_min b (snd <$> map_to_list (acked s')))) as Hmin'
      by (eapply list_min_is_min, lookup_insert_eq).
    pose proof (Hraise Hs Hlt _ Hmin') as Hgt.
    assert (exists i, acked s' !! i = Some b) as Hex by (exists id; apply lookup_insert_eq).
    rewrite Hm', Hub, Hmin. case_bool_decide as Hc.
    + destruct (min_loop_plain_spec s' b mn Hw' Hwmn Hc) as [Hl Hle]; [|done|].
      { intros i c Hi. pose proof (proj2 Hmin' _ _ Hi). lia. }
      simpl in Hle. rewrite bool_decide_true by done. simpl.
      eexists _, _, _. split_and!; [done| |by split|done].
      split_and!; [done|done|exact Hl|done|done].
    + eexists _, _, _. split_and!; [done| |by split|done].
      split_and!; [done|done|exact (min_loop_wrapped_spec s' b Hw' Hex)|done|done].
  - assert (is_min (acked s') mn) as Hk.
    { apply Hkeep. left. intros Hs. by apply Huniq in Hs. }
    rewrite Hm'. eexists _, _, mn. split_and!; [done| |lia|done].
    by split_and!.
Qed.

Lemma IncVersionUpperBound_refines mgr s mn :
  acks_refine mgr s mn -> sent s + 1 - mn < 2 ^ 32 ->
  acks_refine (IncVersionUpperBound mgr) (mkAckSpec (acked s) (sent s + 1)) mn.
Proof.
  intros (Hm & Hub & Hmin & Hmn & Hw) Hlag. split_and!; try done.
  - simpl. rewrite Hub. int_lia.
  - intros id a Ha. simpl. pose proof (Hw _ _ Ha). pose proof (proj2 Hmn _ _ Ha). lia.
Qed.

Definition init_acks (ids : list Z) : gmap Z Z := foldl (fun m i => <[i := -1]> m) ∅ ids.

Lemma ServerVersionMgr_init_refines id ids :
  acks_refine (ServerVersionMgr_init (id :: ids))
    (mkAckSpec (init_acks (id :: ids)) (-1)) (-1).
Proof.
  assert (forall l (m : gmap Z Z), foldl (fun m i => <[i := u32 (-1)]> m) (u32 <$> m) l
    = u32 <$> foldl (fun m i => <[i := -1]> m) m l) as Hf.
  { induction l as [|i l IH]; intros m; simpl; [done|].
    rewrite <- IH. by rewrite fmap_insert. }
  assert (forall l (m : gmap Z Z) i a, foldl (fun m i => <[i := -1]> m) m l !! i = Some a ->
    a = -1 \/ m !! i = Some a) as Hl.
  { induction l as [|j l IH]; intros m i a; simpl; [auto|].
    intros [->|[[_ <-]|[_ ?]]%lookup_insert_Some]%IH; auto. }
  assert (forall l (m : gmap Z Z) i, is_Some (m !! i) ->
    is_Some (foldl (fun m i => <[i := -1]> m) m l !! i)) as Hs.
  { induction l as [|j l IH]; intros m i Hi; simpl; [done|]. apply IH.
    destruct (decide (j = i)) as [->|]; [rewrite lookup_insert_eq; eauto|].
    by rewrite lookup_insert_ne. }
  assert (forall i a, init_acks (id :: ids) !! i = Some a -> a = -1) as Hall.
  { intros i a [?|H]%Hl; [done|by rewrite lookup_empty in H]. }
  split_and!; simpl.
  - unfold init_acks. simpl. rewrite <- Hf. rewrite fmap_insert, fmap_empty. done.
  - done.
  - done.
  - split; [|intros i a Hi; by rewrite (Hall _ _ Hi)].
    destruct (Hs ids (<[id := -1]> ∅) id) as [a Ha]; [rewrite lookup_insert_eq; eauto|].
    exists id. by rewrite <- (Hall _ _ Ha).
  - intros i a Hi. simpl. rewrite (Hall _ _ Hi). lia.
Qed.

(** One event at a background worker: a new version is sent, or server
    [id] acknowledges version [b]. *)
Inductive version_step : ServerVersionMgr * AckSpec -> ServerVersionMgr * AckSpec -> Prop :=
  | step_sent mgr s :
      (forall id a, acked s !! id = Some a -> sent s + 1 - a < 2 ^ 32) ->
      version_step (mgr, s) (IncVersionUpperBound mgr, mkAckSpec (acked s) (sent s + 1))
  | step_ack mgr s id a b r mgr' :
      acked s !! id = Some a -> a <= b <= sent s ->
      SetServerVersion id (u32 b) mgr = Ret (r, mgr') ->
      version_step (mgr, s) (mgr', mkAckSpec (<[id := b]> (acked s)) (sent s)).

(** C16: acknowledging a newer version never fails a check, records it for
    that server only, and returns [true] exactly when the oldest version
    acknowledged by all servers moved; [min_version_] is then that oldest
    version modulo 2^32, across the wrap of the counters. *)
Theorem SetServerVersion_correct mgr s mn id a b :
  acks_refine mgr s mn -> acked s !! id = Some a -> a <= b <= sent s ->
  exists r mgr' mn',
    SetServerVersion id (u32 b) mgr = Ret (r, mgr') /\
    version_map mgr' = u32 <$> <[id := b]> (acked s) /\
    GetMinVersion mgr' = u32 mn' /\
    is_min (<[id := b]> (acked s)) mn' /\
    (r = true <-> mn < mn').
Proof.
  intros H Hid Hb.
  destruct (SetServerVersion_refines mgr s mn id a b H Hid Hb) as (r & mgr' & mn' & H1 & H2 & H3 & _).
  destruct H2 as (Hm & _ & Hmin & Hmn & _). exists r, mgr', mn'. by split_and!.
Qed.

(** From the constructor on, along every sequence of sends and
    acknowledgements in which no server falls 2^32 versions behind,
    [min_version_] is the oldest acknowledged version and the upper bound
    the last sent one (modulo 2^32). *)
Lemma version_mgr_tracks_oldest id ids mgr s :
  rtc version_step (ServerVersionMgr_init (id :: ids),
      mkAckSpec (init_acks (id :: ids)) (-1)) (mgr, s) ->
  exists mn, is_min (acked s) mn /\ GetMinVersion mgr = u32 mn /\
    GetVersionUpperBound mgr = u32 (sent s) /\ version_map mgr = u32 <$> acked s.
Proof.
  intros H. assert (exists mn, acks_refine mgr s mn) as (mn & Hm & Hub & Hmin & Hmn & _);
    [|exists mn; by split_and!].
  change mgr with (mgr, s).1. change s with (mgr, s).2 at 2.
  revert H. generalize (mgr, s) as q. clear mgr s. intros q H.
  remember (ServerVersionMgr_init (id :: ids),
      mkAckSpec (init_acks (id :: ids)) (-1)) as p eqn:Hp.
  assert (exists mn, acks_refine p.1 p.2 mn) as Hp'.
  { rewrite Hp. eexists. apply ServerVersionMgr_init_refines. }
  clear Hp. induction H as [p|p q r Hstep _ IH]; [done|]. apply IH. clear IH.
  destruct Hp' as [mn Hr]. destruct Hstep as [mgr s Hlag|mgr s i a b res mgr' Hi Hb Hset]; simpl in *.
  - exists mn. apply IncVersionUpperBound_refines; [done|].
    destruct Hr as (_ & _ & _ & [[j Hj] _] & _). by apply Hlag in Hj.
  - destruct (SetServerVersion_refines _ _ _ _ _ _ Hr Hi Hb) as (r' & m' & mn' & H1 & H2 & _).
    rewrite Hset in H1. injection H1 as -> ->. by exists mn'.
Qed.

(** ** Witnesses: two servers, one of them before the wrap *)

Definition wrap_spec : AckSpec :=
  mkAckSpec {[1 := 4294967294; 2 := 4294967296]} 4294967297.
Definition wrap_mgr : ServerVersionMgr :=
  mkServerVersionMgr {[1 := 4294967294; 2 := 0]} 1 4294967294.

Lemma wrap_refine : acks_refine wrap_mgr wrap_spec 4294967294.
Proof.
  assert (forall id a, acked wrap_spec !! id = Some a -> a = 4294967294 \/ a = 4294967296) as Hall.
  { intros id a. unfold wrap_spec; simpl. intros [[_ <-]|[_ H]]%lookup_insert_Some; [auto|].
    apply lookup_singleton_Some in H as [_ <-]. auto. }
  split_and!; [by vm_compute|by vm_compute|by vm_compute| |].
  - split; [by exists 1|]. intros id a Ha. destruct (Hall _ _ Ha); lia.
  - intros id a Ha. simpl. destruct (Hall _ _ Ha); lia.
Qed.

Lemma SetServerVersion_correct_witness :
  exists mgr', SetServerVersion 1 1 wrap_mgr = Ret (true, mgr') /\ GetMinVersion mgr' = 0.
Proof.
  destruct (SetServerVersion_correct wrap_mgr wrap_spec 4294967294 1 4294967294 4294967297
              wrap_refine ltac:(by vm_compute) ltac:(simpl; lia))
    as (r & mgr' & mn' & H1 & _ & _).
  exists mgr'. change (u32 4294967297) with 1 in H1. vm_compute in H1.
  injection H1 as <- <-. split; by vm_compute.
Defined.

