(* ===== verification/RequestMgr.v ===== *)
(** * Row requests and saved oplogs of a background worker (SSP)

    [petuum_ps/thread/row_request_oplog_mgr.{hpp,cpp}].  The manager queues
    the row requests that wait for a server reply, in increasing clock
    order per row, counts them by version, and keeps the oplogs that were
    sent after the oldest waiting request, because the reply to it does not
    contain them yet. *)
From S2P Require Import Prelude VectorClock.
Open Scope Z_scope.

(** ** Requests

    The copy constructor and the assignment of [RowRequestInfo] do not copy
    [sent]: in the copy that [std::list::insert] makes, [sent] is
    indeterminate, [None] here. *)
Record RowRequestInfo := mkRequest {
  app_thread_id : Z;
  req_clock : Z;
  req_version : Z;
  req_sent : option bool
}.

Definition copy_request (r : RowRequestInfo) : RowRequestInfo :=
  mkRequest (app_thread_id r) (req_clock r) (req_version r) None.

(** Reading [request.sent]: [indet] is what an indeterminate flag holds. *)
Definition read_sent (indet : bool) (r : RowRequestInfo) : bool :=
  default indet (req_sent r).

(** The backward loop of [AddRowRequest], over the reversed list; [None]
    when it reaches the beginning without inserting. *)
Fixpoint insert_backward (r : RowRequestInfo) (rl : list RowRequestInfo)
    : option (list RowRequestInfo) :=
  match rl with
  | [] => None
  | p :: rl' =>
      if bool_decide (req_clock r >= req_clock p) then Some (copy_request r :: rl)
      else cons p <$> insert_backward r rl'
  end.

(** The queue insertion shared by both managers: the new list and
    [request.sent]. *)
Definition insert_request (r : RowRequestInfo) (l : list RowRequestInfo)
    : list RowRequestInfo * bool :=
  match insert_backward r (rev l) with
  | Some rl => (rev rl, false)
  | None => (copy_request r :: l, true)
  end.

Section SSP.
(** [BgOpLog*]: the manager stores and frees oplogs without reading them. *)
Context {OpLog : Type}.

Record SSPRowRequestOpLogMgr := mkSSPMgr {
  pending_row_requests : gmap (Z * Z) (list RowRequestInfo);
  version_oplog_map : gmap Z OpLog;
  version_request_cnt_map : gmap Z Z;
  oplog_iter_version_next : Z;
  oplog_iter_version_end : Z
}.

Definition SSPMgr_init : SSPRowRequestOpLogMgr := mkSSPMgr ∅ ∅ ∅ 0 0.

(** [version_request_cnt_map_[v] += d], [operator[]] starting from 0. *)
Definition cnt_add (v d : Z) (cnt : gmap Z Z) : gmap Z Z :=
  <[v := default 0 (cnt !! v) + d]> cnt.

Definition AddRowRequest (request : RowRequestInfo) (table_id row_id : Z)
    (mgr : SSPRowRequestOpLogMgr) : bool * SSPRowRequestOpLogMgr :=
  let l := default [] (pending_row_requests mgr !! (table_id, row_id)) in
  let '(l', sent) := insert_request request l in
  (sent, mkSSPMgr (<[(table_id, row_id) := l']> (pending_row_requests mgr))
    (version_oplog_map mgr)
    (cnt_add (req_version request) 1 (version_request_cnt_map mgr))
    (oplog_iter_version_next mgr) (oplog_iter_version_end mgr)).

(** The do-while loop of [CleanVersionOpLogs]; [None] if [fuel] iterations
    are not enough.  [delete version_oplog_map_[v]] on an absent key frees a
    null pointer. *)
Fixpoint clean_loop (fuel : nat) (version_to_remove curr_version : Z)
    (cnt : gmap Z Z) (oplogs : gmap Z OpLog) : option (gmap Z OpLog) :=
  let next := u32 (version_to_remove + 1) in
  let oplogs' := delete next oplogs in
  if bool_decide (cnt !! next = None) && bool_decide (next <> curr_version) then
    match fuel with
    | O => None
    | S fuel' => clean_loop fuel' next curr_version cnt oplogs'
    end
  else Some oplogs'.

Definition CleanVersionOpLogs (request_version curr_version : Z)
    (cnt : gmap Z Z) (oplogs : gmap Z OpLog) : outcome (gmap Z OpLog) :=
  if bool_decide (u32 (request_version + 1) = curr_version) then Ret oplogs
  else if bool_decide (is_Some (oplogs !! request_version)) then Ret oplogs
  else deref (clean_loop (Z.to_nat (u32 (curr_version - 1 - request_version)))
                request_version curr_version cnt oplogs).

(** [if (cnt[v] == 0) { cnt.erase(v); CleanVersionOpLogs(v, curr); }] *)
Definition erase_if_zero (v curr_version : Z) (cnt : gmap Z Z) (oplogs : gmap Z OpLog)
    : outcome (gmap Z Z * gmap Z OpLog) :=
  if bool_decide (default 0 (cnt !! v) = 0) then
    let cnt' := delete v cnt in
    oplogs' ← CleanVersionOpLogs v curr_version cnt' oplogs;
    Ret (cnt', oplogs')
  else Ret (cnt, oplogs).

(** What the loop of [InformReply] works on. *)
Record reply_state := mkReply {
  rs_clock_to_request : Z;
  rs_list : list RowRequestInfo;
  rs_apps : list Z;
  rs_cnt : gmap Z Z;
  rs_oplogs : gmap Z OpLog
}.

Fixpoint inform_loop (indet : bool) (clock curr_version : Z) (l : list RowRequestInfo)
    (apps : list Z) (cnt : gmap Z Z) (oplogs : gmap Z OpLog) : outcome reply_state :=
  match l with
  | [] => Ret (mkReply (-1) [] apps cnt oplogs)
  | request :: rest =>
      let v := req_version request in
      if bool_decide (req_clock request <= clock) then
        let cnt1 := cnt_add v (-1) cnt in
        _ ← CHECK (bool_decide (0 <= default 0 (cnt1 !! v)));
        '(cnt2, oplogs2) ← erase_if_zero v curr_version cnt1 oplogs;
        inform_loop indet clock curr_version rest (apps ++ [app_thread_id request])
          cnt2 oplogs2
      else if read_sent indet request then Ret (mkReply (-1) l apps cnt oplogs)
      else
        let new_version := u32 (curr_version - 1) in
        let request' :=
          mkRequest (app_thread_id request) (req_clock request) new_version (Some true) in
        let cnt1 := cnt_add new_version 1 (cnt_add v (-1) cnt) in
        '(cnt2, oplogs2) ← erase_if_zero v curr_version cnt1 oplogs;
        Ret (mkReply (req_clock request) (request' :: rest) apps cnt2 oplogs2)
  end.

(** Returns the clock to request again (-1 for none) and the application
    threads to answer. *)
Definition InformReply (indet : bool) (table_id row_id clock curr_version : Z)
    (mgr : SSPRowRequestOpLogMgr) : outcome (Z * list Z * SSPRowRequestOpLogMgr) :=
  let key := (table_id, row_id) in
  let l := default [] (pending_row_requests mgr !! key) in
  r ← inform_loop indet clock curr_version l [] (version_request_cnt_map mgr)
        (version_oplog_map mgr);
  let pending' :=
    match rs_list r with
    | [] => delete key (pending_row_requests mgr)
    | l' => <[key := l']> (pending_row_requests mgr)
    end in
  Ret (rs_clock_to_request r, rs_apps r,
       mkSSPMgr pending' (rs_oplogs r) (rs_cnt r)
         (oplog_iter_version_next mgr) (oplog_iter_version_end mgr)).

(** Returns whether the manager took the oplog. *)
Definition AddOpLog (version : Z) (oplog : OpLog) (mgr : SSPRowRequestOpLogMgr)
    : outcome (bool * SSPRowRequestOpLogMgr) :=
  _ ← CHECK (bool_decide (version_oplog_map mgr !! version = None));
  if bool_decide (version_request_cnt_map mgr <> ∅) then
    Ret (true, mkSSPMgr (pending_row_requests mgr)
      (<[version := oplog]> (version_oplog_map mgr)) (version_request_cnt_map mgr)
      (oplog_iter_version_next mgr) (oplog_iter_version_end mgr))
  else Ret (false, mgr).

Definition GetOpLog (version : Z) (mgr : SSPRowRequestOpLogMgr) : outcome OpLog :=
  checked (version_oplog_map mgr !! version).

Definition OpLogIterInit (start_version end_version : Z) (mgr : SSPRowRequestOpLogMgr)
    : outcome (OpLog * SSPRowRequestOpLogMgr) :=
  let mgr' := mkSSPMgr (pending_row_requests mgr) (version_oplog_map mgr)
    (version_request_cnt_map mgr) (u32 (start_version + 1)) end_version in
  o ← GetOpLog start_version mgr'; Ret (o, mgr').

(** [None] is the null pointer that ends the iteration. *)
Definition OpLogIterNext (mgr : SSPRowRequestOpLogMgr)
    : outcome (option (Z * OpLog) * SSPRowRequestOpLogMgr) :=
  if bool_decide (oplog_iter_version_next mgr > oplog_iter_version_end mgr)
  then Ret (None, mgr)
  else
    let version := oplog_iter_version_next mgr in
    let mgr' := mkSSPMgr (pending_row_requests mgr) (version_oplog_map mgr)
      (version_request_cnt_map mgr) (u32 (version + 1)) (oplog_iter_version_end mgr) in
    o ← GetOpLog version mgr'; Ret (Some (version, o), mgr').
End SSP.
Arguments SSPRowRequestOpLogMgr : clear implicits.
Arguments reply_state : clear implicits.

(** ** Counting versions *)

Lemma occurrences_perm v (l1 l2 : list Z) : l1 ≡ₚ l2 -> occurrences v l1 = occurrences v l2.
Proof.
  intros Hp. induction Hp as [|x l1 l2 _ IH|x y l|l1 l2 l3 _ IH1 _ IH2].
  - done.
  - rewrite !occurrences_cons. lia.
  - rewrite !occurrences_cons. lia.
  - congruence.
Qed.

Lemma occurrences_elem v (l : list Z) : occurrences v l <> 0 <-> v ∈ l.
Proof.
  rewrite occurrences_zero. split.
  - intros H. destruct (decide (v ∈ l)) as [|Hn]; [done|].
    exfalso. apply H. intros c Hc ->. done.
  - intros Hin H. by apply (H v).
Qed.

(** [cnt] counts the requests of each version and has no zero entry. *)
Definition cnt_ok (cnt : gmap Z Z) (vs : list Z) : Prop :=
  forall v, cnt !! v = if bool_decide (occurrences v vs = 0) then None
                       else Some (occurrences v vs).

Lemma cnt_ok_perm cnt vs1 vs2 : vs1 ≡ₚ vs2 -> cnt_ok cnt vs1 -> cnt_ok cnt vs2.
Proof. intros Hp H v. rewrite H. by rewrite (occurrences_perm v _ _ Hp). Qed.

Lemma cnt_ok_None cnt vs v : cnt_ok cnt vs -> cnt !! v = None <-> v ∉ vs.
Proof.
  intros H. rewrite H, <- occurrences_elem. case_bool_decide; naive_solver lia.
Qed.

Lemma cnt_ok_default cnt vs v : cnt_ok cnt vs -> default 0 (cnt !! v) = occurrences v vs.
Proof. intros H. rewrite H. by case_bool_decide. Qed.

Lemma cnt_ok_add cnt vs v : cnt_ok cnt vs -> cnt_ok (cnt_add v 1 cnt) (v :: vs).
Proof.
  intros H w. unfold cnt_add. rewrite (cnt_ok_default _ _ _ H), occurrences_cons.
  pose proof (occurrences_nonneg v vs). destruct (decide (w = v)) as [->|Hne].
  - rewrite lookup_insert_eq, (bool_decide_true (v = v)) by done.
    rewrite bool_decide_false by lia. f_equal; lia.
  - rewrite lookup_insert_ne by done. rewrite (bool_decide_false (v = w)) by congruence.
    rewrite H. done.
Qed.

Lemma cnt_add_comm v d w e cnt : cnt_add v d (cnt_add w e cnt) = cnt_add w e (cnt_add v d cnt).
Proof.
  unfold cnt_add. apply map_eq. intros k. destruct (decide (v = w)) as [->|Hne].
  - rewrite !lookup_insert_eq. simpl.
    destruct (decide (k = w)) as [->|]; [rewrite !lookup_insert_eq; f_equal; lia|].
    by rewrite !lookup_insert_ne by done.
  - rewrite !(lookup_insert_ne cnt) by done.
    by rewrite insert_insert_ne by done.
Qed.

(** Dropping one request of version [v]. *)
Lemma cnt_ok_sub cnt vs v : cnt_ok cnt (v :: vs) ->
  default 0 (cnt_add v (-1) cnt !! v) = occurrences v vs /\
  (occurrences v vs <> 0 -> cnt_ok (cnt_add v (-1) cnt) vs) /\
  (occurrences v vs = 0 -> cnt_ok (delete v (cnt_add v (-1) cnt)) vs).
Proof.
  intros H. pose proof (occurrences_nonneg v vs).
  assert (Hd : default 0 (cnt !! v) = 1 + occurrences v vs).
  { rewrite (cnt_ok_default _ _ _ H), occurrences_cons. by rewrite bool_decide_true. }
  assert (Hw : forall w, w <> v -> cnt !! w = if bool_decide (occurrences w vs = 0) then None
                                 else Some (occurrences w vs)).
  { intros w Hne. rewrite H, occurrences_cons.
    by rewrite (bool_decide_false (v = w)) by congruence. }
  unfold cnt_add. rewrite Hd, lookup_insert_eq. split_and!; [simpl; lia| |].
  - intros Hz w. destruct (decide (w = v)) as [->|].
    + rewrite lookup_insert_eq, bool_decide_false by done. f_equal; lia.
    + rewrite lookup_insert_ne by done. auto.
  - intros Hz w. destruct (decide (w = v)) as [->|].
    + by rewrite lookup_delete_eq, bool_decide_true.
    + rewrite lookup_delete_ne, lookup_insert_ne by done. auto.
Qed.

(** ** Ages and the oplogs that are kept *)

(** How many versions [v] is behind the last version sent, [cur - 1]. *)
Definition age (cur v : Z) : Z := u32 (cur - 1 - v).

Lemma age_range cur v : 0 <= age cur v < 2 ^ 32.
Proof. unfold age; int_lia. Qed.

Lemma age_inj cur v w : in_u32 v -> in_u32 w -> age cur v = age cur w -> v = w.
Proof. unfold age; intros; int_lia. Qed.

Lemma age_next cur v : in_u32 v -> 0 < age cur v -> age cur (u32 (v + 1)) = age cur v - 1.
Proof. unfold age; intros; int_lia. Qed.

Lemma age_zero cur v : in_u32 cur -> in_u32 v -> age cur v = 0 <-> u32 (v + 1) = cur.
Proof. unfold age; intros; int_lia. Qed.

Lemma age_cur cur : age cur cur = 2 ^ 32 - 1.
Proof. unfold age; int_lia. Qed.

Lemma age_fresh cur : age (u32 (cur + 1)) cur = 0.
Proof. unfold age; int_lia. Qed.

Lemma age_inc cur v : in_u32 cur -> in_u32 v -> v <> cur ->
  age (u32 (cur + 1)) v = age cur v + 1 /\ age cur v < 2 ^ 32 - 1.
Proof. unfold age; intros; int_lia. Qed.

Section OPS.
Context {OpLog : Type}.
Implicit Types (ops : gmap Z OpLog) (vs : list Z).

(** Exactly the oplogs sent after a request with a version in [vs] are kept. *)
Definition ops_ok (cur : Z) (vs : list Z) ops : Prop :=
  forall v, is_Some (ops !! v) <-> in_u32 v /\ exists r, r ∈ vs /\ age cur v < age cur r.

Definition vs_ok (vs : list Z) : Prop := forall v, v ∈ vs -> in_u32 v.

Lemma ops_ok_perm cur vs1 vs2 ops : vs1 ≡ₚ vs2 -> ops_ok cur vs1 ops -> ops_ok cur vs2 ops.
Proof.
  intros Hp H v. rewrite (H v). split; intros [? (r & ? & ?)]; (split; [done|]);
    exists r; (split; [|done]); [by rewrite <- Hp | by rewrite Hp].
Qed.

(** A request of the version just sent needs no oplog. *)
Lemma ops_ok_fresh cur vs ops : in_u32 cur ->
  ops_ok cur vs ops <-> ops_ok cur (u32 (cur - 1) :: vs) ops.
Proof.
  intros Hc. assert (Ha : age cur (u32 (cur - 1)) = 0) by (unfold age; int_lia).
  split; intros H v; rewrite (H v).
  - split; intros [? (r & Hr & ?)]; (split; [done|]).
    + exists r. split; [by right|done].
    + apply elem_of_cons in Hr as [->|]; [|eauto].
      pose proof (age_range cur v); lia.
  - split; intros [? (r & Hr & ?)]; (split; [done|]).
    + apply elem_of_cons in Hr as [->|]; [|eauto].
      pose proof (age_range cur v); lia.
    + exists r. split; [by right|done].
Qed.

(** A request whose version another request also has. *)
Lemma ops_ok_dup cur v vs ops : v ∈ vs -> ops_ok cur (v :: vs) ops -> ops_ok cur vs ops.
Proof.
  intros Hv H w. rewrite (H w). split; intros [? (r & Hr & ?)]; (split; [done|]).
  - apply elem_of_cons in Hr as [->|]; eauto.
  - exists r. split; [by right|done].
Qed.

(** Removing the oplog of the next version, when the loop stops there. *)
Lemma clean_stop cur vs v ops :
  in_u32 cur -> vs_ok vs -> in_u32 v ->
  (forall r, r ∈ vs -> age cur r < age cur v) ->
  (forall w, is_Some (ops !! w) <-> in_u32 w /\ age cur w < age cur v) ->
  u32 (v + 1) ∈ vs \/ u32 (v + 1) = cur -> ops_ok cur vs (delete (u32 (v + 1)) ops).
Proof.
  intros Hc Hvs Hv Hr Hops Hstop w. set (next := u32 (v + 1)) in *.
  destruct Hstop as [Hin|Hcur].
  - pose proof (Hr _ Hin) as Hlt. pose proof (age_range cur next).
    assert (age cur next = age cur v - 1) as Ha by (apply age_next; [done|lia]).
    split.
    + intros [o Hw]. rewrite lookup_delete_Some in Hw. destruct Hw as [Hne Hw].
      destruct (proj1 (Hops w) (mk_is_Some _ _ Hw)) as [Hw32 Hage].
      split; [done|]. exists next. split; [done|].
      destruct (decide (age cur w = age cur next)) as [Heq|]; [|lia].
      apply age_inj in Heq; [congruence|done|by apply Hvs].
    + intros [Hw32 (r & Hrin & Hage)]. specialize (Hr r Hrin).
      rewrite lookup_delete_ne; [apply Hops; split; [done|lia] | intros <-; lia].
  - assert (age cur v = 0) as Ha by (by apply age_zero). split.
    + intros [o Hw]. rewrite lookup_delete_Some in Hw. destruct Hw as [_ Hw].
      destruct (proj1 (Hops w) (mk_is_Some _ _ Hw)). pose proof (age_range cur w). lia.
    + intros [_ (r & Hin & _)]. specialize (Hr r Hin). pose proof (age_range cur r). lia.
Qed.

(** ... and when it goes on. *)
Lemma clean_continue cur v ops :
  in_u32 cur -> in_u32 v -> u32 (v + 1) <> cur ->
  (forall w, is_Some (ops !! w) <-> in_u32 w /\ age cur w < age cur v) ->
  forall w, is_Some (delete (u32 (v + 1)) ops !! w) <->
            in_u32 w /\ age cur w < age cur (u32 (v + 1)).
Proof.
  intros Hc Hv Hne Hops w. set (next := u32 (v + 1)) in *.
  assert (Hpos : age cur v <> 0) by (by rewrite age_zero). pose proof (age_range cur v).
  assert (Ha : age cur next = age cur v - 1) by (apply age_next; [done|lia]).
  destruct (decide (w = next)) as [->|Hw].
  - rewrite lookup_delete_eq. split; [by intros []|lia].
  - rewrite lookup_delete_ne, Hops by done. split; intros [? ?]; (split; [done|]); [|lia].
    destruct (decide (age cur w = age cur next)) as [Heq|]; [|lia].
    apply age_inj in Heq; [done..|unfold next; auto with wint].
Qed.

Lemma clean_loop_spec cur vs cnt fuel v ops :
  in_u32 cur -> cnt_ok cnt vs -> vs_ok vs -> in_u32 v ->
  (Z.to_nat (age cur v) <= fuel)%nat ->
  (forall r, r ∈ vs -> age cur r < age cur v) ->
  (forall w, is_Some (ops !! w) <-> in_u32 w /\ age cur w < age cur v) ->
  exists ops', clean_loop fuel v cur cnt ops = Some ops' /\ ops_ok cur vs ops'.
Proof.
  intros Hc Hcnt Hvs. revert v ops. induction fuel as [|fuel IH]; intros v ops Hv Hf Hr Hops.
  all: assert (Hn : in_u32 (u32 (v + 1))) by auto with wint.
  all: pose proof (age_range cur v); simpl.
  - assert (u32 (v + 1) = cur) as He by (apply age_zero; [done..|lia]).
    rewrite (bool_decide_false (u32 (v + 1) <> cur)) by tauto. rewrite andb_false_r.
    eexists; split; [done|]. apply clean_stop; auto.
  - case_bool_decide as H1; simpl.
    + case_bool_decide as H2.
      * assert (age cur v <> 0) by (by rewrite age_zero).
        pose proof (age_next cur v Hv ltac:(lia)) as Ha.
        apply IH; [done|lia| |by apply clean_continue].
        intros r Hin. specialize (Hr r Hin).
        destruct (decide (age cur r = age cur (u32 (v + 1)))) as [Heq|]; [|lia].
        apply age_inj in Heq; [|by apply Hvs|done]. subst r.
        by apply (cnt_ok_None _ _ _ Hcnt) in H1.
      * eexists; split; [done|]. apply clean_stop; auto.
    + eexists; split; [done|]. apply clean_stop; auto. left.
      destruct (decide (u32 (v + 1) ∈ vs)) as [|Hnin]; [done|]. exfalso.
      apply H1. by apply (cnt_ok_None _ _ _ Hcnt).
Qed.

Lemma CleanVersionOpLogs_spec cur vs cnt v ops :
  in_u32 cur -> in_u32 v -> cnt_ok cnt vs -> vs_ok vs -> v ∉ vs ->
  ops_ok cur (v :: vs) ops ->
  exists ops', CleanVersionOpLogs v cur cnt ops = Ret ops' /\ ops_ok cur vs ops'.
Proof.
  intros Hc Hv Hcnt Hvs Hnin Hops. unfold CleanVersionOpLogs. case_bool_decide as H1.
  { eexists; split; [done|]. intros w. rewrite (Hops w).
    apply age_zero in H1; [|done..].
    split; intros [? (r & Hr & ?)]; (split; [done|]); [|exists r; split; [by right|done]].
    apply elem_of_cons in Hr as [->|]; [|eauto]. pose proof (age_range cur w); lia. }
  case_bool_decide as H2.
  { eexists; split; [done|]. intros w. rewrite (Hops w).
    apply Hops in H2 as [_ (r' & Hr' & Hlt)].
    assert (r' ∈ vs) by (apply elem_of_cons in Hr' as [->|]; [lia|done]).
    split; intros [? (r & Hr & ?)]; (split; [done|]); [|exists r; split; [by right|done]].
    apply elem_of_cons in Hr as [->|]; [exists r'; split; [done|lia]|eauto]. }
  assert (Hle : forall r, r ∈ vs -> age cur r < age cur v).
  { intros r Hr. destruct (decide (age cur v < age cur r)).
    - exfalso. apply H2, Hops. split; [done|]. exists r; split; [by right|done].
    - destruct (decide (age cur r = age cur v)) as [Heq|]; [|lia].
      apply age_inj in Heq; [congruence|by apply Hvs|done]. }
  destruct (clean_loop_spec cur vs cnt (Z.to_nat (u32 (cur - 1 - v))) v ops)
    as (ops' & -> & Hok); [done..| |eauto].
  intros w. rewrite (Hops w). split; intros [? Hw]; (split; [done|]).
  - destruct Hw as (r & Hr & ?). apply elem_of_cons in Hr as [->|Hr]; [done|].
    specialize (Hle r Hr). lia.
  - exists v; split; [by left|done].
Qed.

(** [--cnt[v]; if (cnt[v] == 0) {erase; clean}] drops one request. *)
Lemma release_spec cur vs cnt v ops :
  in_u32 cur -> in_u32 v -> vs_ok vs -> cnt_ok cnt (v :: vs) -> ops_ok cur (v :: vs) ops ->
  0 <= default 0 (cnt_add v (-1) cnt !! v) /\
  exists cnt' ops', erase_if_zero v cur (cnt_add v (-1) cnt) ops = Ret (cnt', ops') /\
    cnt_ok cnt' vs /\ ops_ok cur vs ops'.
Proof.
  intros Hc Hv Hvs Hcnt Hops. destruct (cnt_ok_sub _ _ _ Hcnt) as (Hd & Hnz & Hz).
  pose proof (occurrences_nonneg v vs). unfold erase_if_zero. rewrite Hd. split; [done|].
  case_bool_decide as H0.
  - destruct (CleanVersionOpLogs_spec cur vs (delete v (cnt_add v (-1) cnt)) v ops)
      as (ops' & -> & Hok); auto.
    { intros Hin. by apply occurrences_elem in Hin. }
    simpl. eauto 6.
  - do 2 eexists; split; [done|]. split; [auto|]. eapply ops_ok_dup; [|done].
    by apply occurrences_elem.
Qed.
End OPS.

(** ** The queues *)

Definition all_pending (m : gmap (Z * Z) (list RowRequestInfo)) : list RowRequestInfo :=
  concat (snd <$> map_to_list m).

Definition versions (l : list RowRequestInfo) : list Z := req_version <$> l.

Definition waiting (m : gmap (Z * Z) (list RowRequestInfo)) (k : Z * Z) : list RowRequestInfo :=
  default [] (m !! k).

Lemma all_pending_split m k : all_pending m ≡ₚ waiting m k ++ all_pending (delete k m).
Proof.
  unfold waiting, all_pending. destruct (m !! k) as [l|] eqn:E; simpl.
  - by rewrite <- (map_to_list_delete m k l E).
  - by rewrite delete_id.
Qed.

Lemma all_pending_insert m k l : all_pending (<[k:=l]> m) ≡ₚ l ++ all_pending (delete k m).
Proof.
  rewrite (all_pending_split _ k). unfold waiting. rewrite lookup_insert_eq. simpl.
  by rewrite delete_insert_eq.
Qed.

Definition clock_le (r1 r2 : RowRequestInfo) : Prop := req_clock r1 <= req_clock r2.

(** A queue is sorted by clock and not empty. *)
Definition queue_ok (l : list RowRequestInfo) : Prop := l <> [] /\ StronglySorted clock_le l.

Lemma insert_backward_spec r rl :
  match insert_backward r rl with
  | Some rl' => exists r1 r2, rl = r1 ++ r2 /\ rl' = r1 ++ copy_request r :: r2 /\
      Forall (fun p => req_clock r < req_clock p) r1 /\
      (exists p, head r2 = Some p /\ req_clock p <= req_clock r)
  | None => Forall (fun p => req_clock r < req_clock p) rl
  end.
Proof.
  induction rl as [|p rl IH]; simpl; [constructor|]. case_bool_decide as H.
  - exists [], (p :: rl). split_and!; [done..|constructor|]. exists p; split; [done|lia].
  - destruct (insert_backward r rl) as [rl'|]; simpl.
    + destruct IH as (r1 & r2 & -> & -> & H1 & H2). exists (p :: r1), r2.
      split_and!; [done..| |done]. constructor; [lia|done].
    + constructor; [lia|done].
Qed.

Lemma insert_request_perm r l : fst (insert_request r l) ≡ₚ copy_request r :: l.
Proof.
  unfold insert_request. pose proof (insert_backward_spec r (rev l)) as H.
  destruct (insert_backward r (rev l)) as [rl|]; simpl; [|done].
  destruct H as (r1 & r2 & Hl & -> & _). rewrite <- (rev_involutive l), Hl.
  rewrite !rev_app_distr. simpl. rewrite <- (app_assoc (rev r2)). simpl.
  by rewrite Permutation_middle.
Qed.

(** Insertion keeps the queue sorted, after the requests of the same clock;
    the request is to be sent only if all waiting ones have a larger clock. *)
Lemma insert_request_spec r l :
  StronglySorted clock_le l ->
  let '(l', sent) := insert_request r l in
  StronglySorted clock_le l' /\
  l' = filter (fun p => req_clock p <= req_clock r) l ++
       copy_request r :: filter (fun p => ~ (req_clock p <= req_clock r)) l /\
  (sent = true <-> forall p, p ∈ l -> req_clock r < req_clock p).
Proof.
  intros Hs. unfold insert_request. pose proof (insert_backward_spec r (rev l)) as H.
  destruct (insert_backward r (rev l)) as [rl|].
  - destruct H as (r1 & r2 & Hl & -> & H1 & p & Hp & Hpr).
    destruct r2 as [|p' r2]; [done|]. injection Hp as ->.
    assert (l = rev (p :: r2) ++ rev r1) as ->
      by (rewrite <- rev_app_distr, <- Hl; by rewrite rev_involutive).
    rewrite rev_app_distr. change (rev (copy_request r :: p :: r2))
      with (rev (p :: r2) ++ [copy_request r]).
    apply StronglySorted_app_iff in Hs as (Hs2 & Hs1 & Hs12).
    rewrite Forall_forall in H1.
    assert (H2 : forall x, x ∈ rev (p :: r2) -> req_clock x <= req_clock r).
    { intros x Hx. change (rev (p :: r2)) with (rev r2 ++ [p]) in Hs2, Hx.
      apply StronglySorted_app_iff in Hs2 as (_ & _ & Hlast).
      apply elem_of_app in Hx as [Hx| ->%list_elem_of_singleton]; [|done].
      specialize (Hlast x p Hx ltac:(by left)). unfold clock_le in Hlast. lia. }
    split_and!.
    + rewrite <- app_assoc. apply StronglySorted_app_iff. split_and!; [done| |].
      * simpl. constructor; [done|]. apply Forall_forall. intros x Hx. rewrite elem_of_rev in Hx.
        specialize (H1 x Hx). unfold clock_le; simpl; lia.
      * intros a b Ha [->|Hb]%elem_of_cons; [by apply H2|by apply Hs12].
    + rewrite !filter_app, (filter_all _ (rev (p :: r2))) by done.
      rewrite (filter_none _ (rev (p :: r2))) by (intros x Hx Hn; by apply Hn, H2).
      rewrite filter_none by (intros x Hx; rewrite elem_of_rev in Hx; specialize (H1 x Hx); lia).
      rewrite filter_all by (intros x Hx; rewrite elem_of_rev in Hx; specialize (H1 x Hx); lia).
      by rewrite app_nil_r, <- app_assoc.
    + split; [done|]. intros Hlt. exfalso. apply (Z.lt_irrefl (req_clock p)).
      eapply Z.le_lt_trans; [apply Hpr|]. apply Hlt. rewrite elem_of_app, elem_of_rev. left; by left.
  - rewrite Forall_forall in H. setoid_rewrite elem_of_rev in H.
    rewrite filter_none, filter_all by (intros x Hx; specialize (H x Hx); lia).
    split_and!; [|done|done]. constructor; [done|]. apply Forall_forall. intros x Hx.
    specialize (H x Hx). unfold clock_le; simpl; lia.
Qed.

(** ** The manager's invariant *)

Section SSP_MANAGER.
Context {OpLog : Type}.
Implicit Types mgr : SSPRowRequestOpLogMgr OpLog.

Definition pending_versions mgr : list Z := versions (all_pending (pending_row_requests mgr)).

(** [cur] is the version the next oplog will be sent with. *)
Record mgr_ok (cur : Z) mgr : Prop := {
  mgr_cur : in_u32 cur;
  mgr_versions : vs_ok (pending_versions mgr);
  mgr_cnt : cnt_ok (version_request_cnt_map mgr) (pending_versions mgr);
  mgr_ops : ops_ok cur (pending_versions mgr) (version_oplog_map mgr);
  mgr_queues : map_Forall (fun _ l => queue_ok l) (pending_row_requests mgr)
}.

Lemma mgr_ok_init cur : in_u32 cur -> mgr_ok cur SSPMgr_init.
Proof.
  intros H. constructor; [done|by intros v ?%elem_of_nil|done| |apply map_Forall_empty].
  intros v. unfold SSPMgr_init; simpl. split; [by intros [? ?]|].
  by intros [_ (r & ?%elem_of_nil & _)].
Qed.

Lemma waiting_sorted cur mgr k : mgr_ok cur mgr ->
  StronglySorted clock_le (waiting (pending_row_requests mgr) k).
Proof.
  intros H. unfold waiting. destruct (_ !! k) as [l|] eqn:E; simpl; [|constructor].
  by destruct (mgr_queues _ _ H k l E).
Qed.

(** The versions after the queue of [k] is replaced by [l]. *)
Lemma versions_update mgr k l :
  versions (all_pending (<[k:=l]> (pending_row_requests mgr))) ≡ₚ
  versions l ++ versions (all_pending (delete k (pending_row_requests mgr))).
Proof. unfold versions. by rewrite all_pending_insert, fmap_app. Qed.

Lemma versions_split mgr k :
  pending_versions mgr ≡ₚ versions (waiting (pending_row_requests mgr) k) ++
                          versions (all_pending (delete k (pending_row_requests mgr))).
Proof. unfold pending_versions, versions. by rewrite (all_pending_split _ k), fmap_app. Qed.

Lemma vs_ok_perm vs1 vs2 : vs1 ≡ₚ vs2 -> vs_ok vs1 -> vs_ok vs2.
Proof. intros Hp H v. rewrite <- Hp. apply H. Qed.

Lemma AddRowRequest_ok cur mgr app clock t r :
  mgr_ok cur mgr ->
  mgr_ok cur (snd (AddRowRequest (mkRequest app clock (u32 (cur - 1)) None) t r mgr)).
Proof.
  intros H. pose proof H as [Hc Hv Hcnt Hops Hq].
  unfold AddRowRequest. fold (waiting (pending_row_requests mgr) (t, r)).
  set (req := mkRequest app clock (u32 (cur - 1)) None).
  set (l := waiting (pending_row_requests mgr) (t, r)).
  pose proof (insert_request_perm req l) as Hp.
  pose proof (insert_request_spec req l (waiting_sorted _ _ _ H)) as Hsp.
  destruct (insert_request req l) as [l' sent]. simpl in Hp |- *. destruct Hsp as (Hs & _).
  assert (Hpv : versions (all_pending (<[(t, r):=l']> (pending_row_requests mgr))) ≡ₚ
                u32 (cur - 1) :: pending_versions mgr).
  { rewrite versions_update. unfold versions at 1. rewrite Hp. simpl.
    by rewrite (versions_split mgr (t, r)). }
  constructor; simpl; unfold pending_versions; simpl; [done|..].
  - eapply vs_ok_perm; [by symmetry|]. intros v [->|?]%elem_of_cons; auto with wint.
  - eapply cnt_ok_perm; [by symmetry|]. by apply cnt_ok_add.
  - eapply ops_ok_perm; [by symmetry|]. by apply (proj1 (ops_ok_fresh _ _ _ Hc)).
  - apply map_Forall_insert_2; [|done]. split; [|done]. intros ->.
    by apply Permutation_nil in Hp.
Qed.

(** The oplog of the current version is sent and the version advances. *)
Lemma AddOpLog_ok cur mgr o :
  mgr_ok cur mgr -> cur ∉ pending_versions mgr ->
  exists tracked mgr', AddOpLog cur o mgr = Ret (tracked, mgr') /\
    mgr_ok (u32 (cur + 1)) mgr' /\ pending_row_requests mgr' = pending_row_requests mgr /\
    (tracked = true <-> pending_row_requests mgr <> ∅) /\
    version_oplog_map mgr' =
      if tracked then <[cur := o]> (version_oplog_map mgr) else version_oplog_map mgr.
Proof.
  intros [Hc Hv Hcnt Hops Hq] Hcur. unfold AddOpLog.
  assert (Hnone : version_oplog_map mgr !! cur = None).
  { apply eq_None_not_Some. intros [_ (r & Hr & Hlt)]%Hops. rewrite age_cur in Hlt.
    pose proof (age_range cur r). lia. }
  rewrite (bool_decide_true _ Hnone). simpl.
  assert (Hage : forall r, r ∈ pending_versions mgr ->
    age (u32 (cur + 1)) r = age cur r + 1 /\ age cur r < 2 ^ 32 - 1).
  { intros r Hr. apply age_inc; auto. congruence. }
  assert (Hne : version_request_cnt_map mgr <> ∅ <-> pending_row_requests mgr <> ∅).
  { split; intros Hn He; apply Hn.
    - apply map_eq. intros v. rewrite Hcnt. unfold pending_versions, all_pending.
      by rewrite He, map_to_list_empty.
    - apply map_empty. intros k. destruct (_ !! k) as [l|] eqn:E; [|done]. exfalso.
      destruct (Hq k l E) as [Hl _]. destruct l as [|r l]; [done|].
      assert (req_version r ∈ pending_versions mgr) as Hin.
      { rewrite (versions_split mgr k). unfold waiting. rewrite E. by left. }
      apply (cnt_ok_None _ _ (req_version r)) in Hcnt. rewrite He in Hcnt. by apply Hcnt. }
  case_bool_decide as Hb.
  - do 2 eexists; split; [done|]. simpl. split_and!; [|done| |done].
    2: { split; [intros _; by apply Hne|done]. }
    constructor; unfold pending_versions in *; simpl; [auto with wint|done|done| |done].
    intros w. destruct (decide (w = cur)) as [->|Hw].
    + rewrite lookup_insert_eq. split; [intros _|by eauto]. split; [done|].
      destruct (pending_versions mgr) as [|r vs] eqn:E.
      { exfalso. apply Hb, map_eq. intros v. rewrite Hcnt. unfold pending_versions in E.
        by rewrite E. }
      unfold pending_versions in E. rewrite E in *.
      exists r. split; [by left|]. rewrite age_fresh. destruct (Hage r ltac:(by left)) as [-> _].
      pose proof (age_range cur r); lia.
    + rewrite lookup_insert_ne, (Hops w) by done.
      split; intros [Hw32 (r & Hr & Hlt)]; (split; [done|]); exists r; (split; [done|]);
        destruct (age_inc cur w) as [Hi ?]; auto; destruct (Hage r Hr); lia.
  - do 2 eexists; split; [done|]. split_and!; [|done| |done].
    2: { split; [done|]. intros Hn. exfalso. by apply Hne in Hn. }
    assert (He : pending_versions mgr = []).
    { destruct (pending_versions mgr) as [|r vs] eqn:E; [done|]. exfalso.
      specialize (Hcnt r). rewrite Hb, occurrences_cons in Hcnt.
      rewrite (bool_decide_true (r = r)) in Hcnt by done.
      pose proof (occurrences_nonneg r vs). rewrite bool_decide_false in Hcnt by lia.
      rewrite lookup_empty in Hcnt. done. }
    constructor; rewrite ?He in *; [auto with wint|done|done| |done].
    intros w. rewrite (Hops w). by split; intros [? (r & ?%elem_of_nil & _)].
Qed.

(** The request at the head of the queue that the reply does not answer: if
    it has not been sent yet it is re-dated to the last version sent. *)
Definition resend (indet : bool) (cur : Z) (l : list RowRequestInfo)
    : Z * list RowRequestInfo :=
  match l with
  | [] => (-1, [])
  | r :: rest =>
      if read_sent indet r then (-1, l)
      else (req_clock r,
            mkRequest (app_thread_id r) (req_clock r) (u32 (cur - 1)) (Some true) :: rest)
  end.

Lemma resend_clocks indet cur l :
  (app_thread_id <$> snd (resend indet cur l)) = (app_thread_id <$> l) /\
  (req_clock <$> snd (resend indet cur l)) = (req_clock <$> l).
Proof. destruct l as [|r l]; simpl; [done|]. by destruct (read_sent indet r). Qed.

Lemma sorted_clocks (l1 l2 : list RowRequestInfo) :
  (req_clock <$> l1) = (req_clock <$> l2) -> StronglySorted clock_le l1 ->
  StronglySorted clock_le l2.
Proof.
  revert l2; induction l1 as [|a l1 IH]; intros [|b l2] Heq Hs; [constructor|done..|].
  injection Heq as Hab Heq.
  apply StronglySorted_inv in Hs as [Hs Ha]. constructor; [by apply IH|].
  apply Forall_forall. intros x Hx. apply (list_elem_of_fmap_2 req_clock) in Hx.
  change ((req_clock <$> l1) = (req_clock <$> l2)) in Heq.
  rewrite <- Heq in Hx. apply list_elem_of_fmap in Hx as (y & Hxy & Hy).
  rewrite Forall_forall in Ha. specialize (Ha y Hy). unfold clock_le in *. congruence.
Qed.

Lemma inform_loop_spec indet clock cur others l apps cnt (ops : gmap Z OpLog) :
  in_u32 cur -> StronglySorted clock_le l ->
  vs_ok (versions l ++ others) -> cnt_ok cnt (versions l ++ others) ->
  ops_ok cur (versions l ++ others) ops ->
  let rest := filter (fun r => ~ (req_clock r <= clock)) l in
  exists cnt' ops',
    inform_loop indet clock cur l apps cnt ops =
      Ret (mkReply (fst (resend indet cur rest)) (snd (resend indet cur rest))
             (apps ++ (app_thread_id <$> filter (fun r => req_clock r <= clock) l)) cnt' ops') /\
    let vs := versions (snd (resend indet cur rest)) ++ others in
    vs_ok vs /\ cnt_ok cnt' vs /\ ops_ok cur vs ops'.
Proof.
  intros Hc. revert apps cnt ops. induction l as [|r l IH]; intros apps cnt ops Hs Hv Hcnt Hops rest.
  { do 2 eexists. split; [|done]. simpl. by rewrite app_nil_r. }
  assert (Hv' : vs_ok (versions l ++ others)) by (intros v ?; apply Hv; by right).
  assert (Hr : in_u32 (req_version r)) by (apply Hv; by left).
  apply StronglySorted_inv in Hs as [Hs Hle].
  unfold rest. rewrite !filter_cons. cbn [inform_loop]. case_bool_decide as Hclk.
  - rewrite decide_False, decide_True by tauto.
    destruct (release_spec cur _ cnt (req_version r) ops Hc Hr Hv' Hcnt Hops)
      as (Hpos & cnt' & ops' & He & Hcnt' & Hops').
    rewrite bool_decide_true by done. rewrite He. simpl.
    destruct (IH (apps ++ [app_thread_id r]) cnt' ops') as (cnt2 & ops2 & -> & H2); [done..|].
    do 2 eexists. split; [|done]. by rewrite <- app_assoc.
  - rewrite decide_True, decide_False by tauto.
    rewrite (filter_none (fun q => req_clock q <= clock) l),
      (filter_all (fun q => ~ (req_clock q <= clock)) l), app_nil_r by
      (intros x Hx; rewrite Forall_forall in Hle; specialize (Hle x Hx);
       unfold clock_le in Hle; lia).
    cbn [resend]. destruct (read_sent indet r) eqn:Es; cbn [fst snd].
    { do 2 eexists. split; [done|]. split_and!; done. }
    set (nv := u32 (cur - 1)).
    assert (Hswap : req_version r :: nv :: versions l ++ others ≡ₚ
                    nv :: versions (r :: l) ++ others) by (simpl; constructor).
    rewrite cnt_add_comm.
    destruct (release_spec cur (nv :: versions l ++ others) (cnt_add nv 1 cnt)
                (req_version r) ops) as (_ & cnt' & ops' & -> & Hcnt' & Hops').
    + done.
    + done.
    + intros v [->|?]%elem_of_cons; [unfold nv; auto with wint|auto].
    + eapply cnt_ok_perm; [by symmetry|]. by apply cnt_ok_add.
    + eapply ops_ok_perm; [by symmetry|]. by apply (proj1 (ops_ok_fresh _ _ _ Hc)).
    + simpl. do 2 eexists. split; [done|]. split_and!; [|done..].
      intros v [->|?]%elem_of_cons; [apply in_u32_u32|auto].
Qed.

(** [InformReply] answers exactly the requests the reply satisfies, in clock
    order, and keeps the invariant. *)
Lemma InformReply_spec indet t r clock cur mgr :
  mgr_ok cur mgr ->
  let l := waiting (pending_row_requests mgr) (t, r) in
  let rest := filter (fun q => ~ (req_clock q <= clock)) l in
  exists mgr',
    InformReply indet t r clock cur mgr =
      Ret (fst (resend indet cur rest),
           app_thread_id <$> filter (fun q => req_clock q <= clock) l, mgr') /\
    mgr_ok cur mgr' /\
    waiting (pending_row_requests mgr') (t, r) = snd (resend indet cur rest) /\
    (forall k, k <> (t, r) ->
       pending_row_requests mgr' !! k = pending_row_requests mgr !! k).
Proof.
  intros H l rest. pose proof H as [Hc Hv Hcnt Hops Hq].
  pose proof (versions_split mgr (t, r)) as Hsplit. fold l in Hsplit.
  destruct (inform_loop_spec indet clock cur
              (versions (all_pending (delete (t, r) (pending_row_requests mgr))))
              l [] (version_request_cnt_map mgr) (version_oplog_map mgr))
    as (cnt' & ops' & He & Hv' & Hcnt' & Hops'); [done|by eapply waiting_sorted|..].
  { by eapply vs_ok_perm. }
  { by eapply cnt_ok_perm. }
  { by eapply ops_ok_perm. }
  unfold InformReply. fold (waiting (pending_row_requests mgr) (t, r)). fold l. rewrite He.
  cbn [mbind outcome_bind rs_list rs_clock_to_request rs_apps rs_cnt rs_oplogs].
  fold rest in He, Hv', Hcnt', Hops' |- *.
  eexists. split; [done|].
  destruct (resend_clocks indet cur rest) as [_ Hclk].
  assert (Hs : StronglySorted clock_le rest).
  { apply StronglySorted_filter. by eapply waiting_sorted. }
  symmetry in Hclk. pose proof (sorted_clocks _ _ Hclk Hs) as Hs'.
  set (l' := snd (resend indet cur rest)) in *. clearbody l'.
  set (pend := match l' with [] => _ | _ => _ end).
  assert (Hw : waiting pend (t, r) = l' /\ delete (t, r) pend = delete (t, r) (pending_row_requests mgr)
     /\ map_Forall (fun _ l => queue_ok l) pend
     /\ forall k, k <> (t, r) -> pend !! k = pending_row_requests mgr !! k).
  { unfold pend, waiting. destruct l' as [|q l2].
    - rewrite lookup_delete_eq, delete_delete_eq. split_and!; [done..| |].
      + by apply map_Forall_delete.
      + intros k Hk. by rewrite lookup_delete_ne.
    - rewrite lookup_insert_eq, delete_insert_eq. split_and!; [done..| |].
      + by apply map_Forall_insert_2.
      + intros k Hk. by rewrite lookup_insert_ne. }
  destruct Hw as (Hw1 & Hw2 & Hw3 & Hw4).
  assert (Hp : versions l' ++ versions (all_pending (delete (t, r) (pending_row_requests mgr)))
               ≡ₚ versions (all_pending pend)).
  { unfold versions. by rewrite (all_pending_split pend (t, r)), Hw1, Hw2, fmap_app. }
  split_and!; [|done..].
  constructor; [done|by eapply vs_ok_perm|by eapply cnt_ok_perm|by eapply ops_ok_perm|done].
Qed.
End SSP_MANAGER.

(** ** The background worker's use of the manager

    [bg_workers.cpp] adds a request with the version before the current one,
    gives every oplog the current version and advances it, and passes the
    current version with every reply. *)
Section SSP_RUN.
Context {OpLog : Type}.
Implicit Types (mgr : SSPRowRequestOpLogMgr OpLog) (hist : gmap Z OpLog).

(** [hist] records the oplog last sent with each version.  A version is not
    reused while a request of the same 32-bit version waits. *)
Inductive ssp_reachable : gmap Z OpLog -> Z -> SSPRowRequestOpLogMgr OpLog -> Prop :=
  | ssp_start cur : in_u32 cur -> ssp_reachable ∅ cur SSPMgr_init
  | ssp_request hist cur mgr app clock t r :
      ssp_reachable hist cur mgr ->
      ssp_reachable hist cur
        (snd (AddRowRequest (mkRequest app clock (u32 (cur - 1)) None) t r mgr))
  | ssp_oplog hist cur mgr o tracked mgr' :
      ssp_reachable hist cur mgr -> cur ∉ pending_versions mgr ->
      AddOpLog cur o mgr = Ret (tracked, mgr') ->
      ssp_reachable (<[cur := o]> hist) (u32 (cur + 1)) mgr'
  | ssp_reply hist cur mgr indet t r clock c apps mgr' :
      ssp_reachable hist cur mgr ->
      InformReply indet t r clock cur mgr = Ret (c, apps, mgr') ->
      ssp_reachable hist cur mgr'.

Lemma clean_loop_subset fuel v cur cnt (ops ops' : gmap Z OpLog) :
  clean_loop fuel v cur cnt ops = Some ops' -> ops' ⊆ ops.
Proof.
  revert v ops; induction fuel as [|fuel IH]; intros v ops; simpl.
  all: destruct (_ && _).
  - done.
  - intros [= <-]. apply delete_subseteq.
  - intros H%IH. etrans; [done|apply delete_subseteq].
  - intros [= <-]. apply delete_subseteq.
Qed.

Lemma erase_if_zero_subset v cur cnt (ops : gmap Z OpLog) cnt' ops' :
  erase_if_zero v cur cnt ops = Ret (cnt', ops') -> ops' ⊆ ops.
Proof.
  unfold erase_if_zero, CleanVersionOpLogs. intros H. repeat case_bool_decide.
  all: try (inv_outcome; done).
  destruct (clean_loop _ _ _ _ _) as [o|] eqn:E; [|done]. simpl in H. inv_outcome.
  by apply clean_loop_subset in E.
Qed.

Lemma inform_loop_subset indet clock cur l apps cnt (ops : gmap Z OpLog) rs :
  inform_loop indet clock cur l apps cnt ops = Ret rs -> rs_oplogs rs ⊆ ops.
Proof.
  revert apps cnt ops; induction l as [|r l IH]; intros apps cnt ops H; cbn [inform_loop] in H.
  { by inv_outcome. }
  case_bool_decide.
  - inv_outcome. destruct a0 as [cnt2 ops2]. apply IH in H. apply erase_if_zero_subset in E0.
    by etrans.
  - destruct (read_sent indet r); inv_outcome; [done|]. destruct a as [cnt2 ops2]. inv_outcome.
    by apply erase_if_zero_subset in E.
Qed.

Lemma ssp_reachable_ok hist cur mgr : ssp_reachable hist cur mgr ->
  mgr_ok cur mgr /\ version_oplog_map mgr ⊆ hist.
Proof.
  induction 1 as [cur Hc|hist cur mgr app clock t r _ [IH Hsub]
    |hist cur mgr o tracked mgr' _ [IH Hsub] Hcur E
    |hist cur mgr indet t r clock c apps mgr' _ [IH Hsub] E].
  - split; [by apply mgr_ok_init|done].
  - split; [by apply AddRowRequest_ok|]. unfold AddRowRequest.
    by destruct (insert_request _ _).
  - destruct (AddOpLog_ok cur mgr o IH Hcur) as (tr & mgr2 & E2 & Hok & _ & _ & Hops).
    rewrite E2 in E. injection E as -> ->. split; [done|]. rewrite Hops. destruct tracked.
    + by apply insert_mono.
    + apply insert_subseteq_r; [|done]. apply eq_None_not_Some.
      intros [_ (q & Hq & Hlt)]%(mgr_ops _ _ IH). rewrite age_cur in Hlt.
      pose proof (age_range cur q). lia.
  - destruct (InformReply_spec indet t r clock cur mgr IH) as (mgr2 & E2 & Hok & _).
    rewrite E2 in E. injection E as _ _ ->. split; [done|].
    unfold InformReply in E2. inv_outcome. apply inform_loop_subset in E. simpl. by etrans.
Qed.
End SSP_RUN.

(** C12: in every state the background worker can bring the SSP manager to, no
    check of the three operations fails, the manager holds exactly the oplogs
    of the versions sent after the oldest waiting request, so that every
    oplog a reply to a waiting request may lack is still available, and each
    stored oplog is the one last sent with its version. *)
Theorem ssp_oplogs_kept_while_needed {OpLog} (hist : gmap Z OpLog) cur mgr :
  ssp_reachable hist cur mgr ->
  (forall v, is_Some (version_oplog_map mgr !! v) <->
     in_u32 v /\ exists q, q ∈ all_pending (pending_row_requests mgr) /\
                           age cur v < age cur (req_version q)) /\
  (forall q v, q ∈ all_pending (pending_row_requests mgr) -> in_u32 v ->
     age cur v < age cur (req_version q) ->
     exists o, GetOpLog v mgr = Ret o /\ hist !! v = Some o) /\
  (forall indet t r clock, exists c apps mgr', InformReply indet t r clock cur mgr = Ret (c, apps, mgr')) /\
  (forall o, cur ∉ pending_versions mgr -> exists b mgr', AddOpLog cur o mgr = Ret (b, mgr')).
Proof.
  intros H. apply ssp_reachable_ok in H as [Hok Hsub].
  assert (Hin : forall P : Z -> Prop, (exists r, r ∈ pending_versions mgr /\ P r) <->
    exists q, q ∈ all_pending (pending_row_requests mgr) /\ P (req_version q)).
  { intros P. unfold pending_versions, versions. split.
    - intros (r & (q & -> & Hq)%list_elem_of_fmap & HP). eauto.
    - intros (q & Hq & HP). exists (req_version q). split; [|done]. by apply list_elem_of_fmap_2. }
  assert (Hops : forall v, is_Some (version_oplog_map mgr !! v) <->
     in_u32 v /\ exists q, q ∈ all_pending (pending_row_requests mgr) /\
                           age cur v < age cur (req_version q)).
  { intros v. rewrite (mgr_ops _ _ Hok v). by rewrite (Hin (fun r => age cur v < age cur r)). }
  split_and!; [done| | |].
  - intros q v Hq Hv Hlt. destruct (proj2 (Hops v)) as [o Ho]; [eauto|].
    exists o. unfold GetOpLog. rewrite Ho. split; [done|]. by eapply lookup_weaken.
  - intros indet t r clock.
    destruct (InformReply_spec indet t r clock cur mgr Hok) as (mgr' & E & _). eauto.
  - intros o Hc. destruct (AddOpLog_ok cur mgr o Hok Hc) as (b & mgr' & E & _). eauto.
Qed.

(** A new request takes its place in the queue of its row after all waiting
    requests of a clock not larger than its own, which stays sorted, and is
    sent to the server right away exactly if there is no such request; the
    queues of other rows do not change. *)
Lemma AddRowRequest_correct {OpLog} (mgr : SSPRowRequestOpLogMgr OpLog) cur q t r sent mgr' :
  mgr_ok cur mgr -> AddRowRequest q t r mgr = (sent, mgr') ->
  let l := waiting (pending_row_requests mgr) (t, r) in
  let l' := waiting (pending_row_requests mgr') (t, r) in
  StronglySorted clock_le l' /\
  l' = filter (fun p => req_clock p <= req_clock q) l ++
       copy_request q :: filter (fun p => ~ (req_clock p <= req_clock q)) l /\
  (sent = true <-> forall p, p ∈ l -> req_clock q < req_clock p) /\
  (forall k, k <> (t, r) -> pending_row_requests mgr' !! k = pending_row_requests mgr !! k).
Proof.
  intros Hok E l l'. pose proof (insert_request_spec q l (waiting_sorted _ _ _ Hok)) as H.
  unfold AddRowRequest in E. fold (waiting (pending_row_requests mgr) (t, r)) in E.
  fold l in E. destruct (insert_request q l) as [l2 s]. injection E as <- <-.
  unfold l', waiting; simpl. rewrite lookup_insert_eq. simpl. destruct H as (H1 & H2 & H3).
  split_and!; [done..|]. intros k Hk. by rewrite lookup_insert_ne.
Qed.

(** A reply of clock [clock] answers exactly the waiting requests for the row
    of at most that clock, in queue order; of the others the first one is sent
    again with its own clock unless its [sent] flag reads true; the queues of
    other rows do not change. *)
Lemma InformReply_correct {OpLog} (mgr : SSPRowRequestOpLogMgr OpLog) indet t r clock cur :
  mgr_ok cur mgr ->
  let l := waiting (pending_row_requests mgr) (t, r) in
  let rest := filter (fun q => ~ (req_clock q <= clock)) l in
  exists c mgr',
    InformReply indet t r clock cur mgr =
      Ret (c, app_thread_id <$> filter (fun q => req_clock q <= clock) l, mgr') /\
    mgr_ok cur mgr' /\
    (app_thread_id <$> waiting (pending_row_requests mgr') (t, r)) = (app_thread_id <$> rest) /\
    (req_clock <$> waiting (pending_row_requests mgr') (t, r)) = (req_clock <$> rest) /\
    c = match rest with
        | [] => -1
        | q :: _ => if read_sent indet q then -1 else req_clock q
        end /\
    (forall k, k <> (t, r) -> pending_row_requests mgr' !! k = pending_row_requests mgr !! k).
Proof.
  intros H l rest. destruct (InformReply_spec indet t r clock cur mgr H)
    as (mgr' & E & Hok & Hw & Hk). fold l rest in E, Hw.
  destruct (resend_clocks indet cur rest) as [Ha Hc].
  do 2 eexists. split; [exact E|]. split_and!; [done|by rewrite Hw..| |done].
  destruct rest as [|q rest']; [done|]. simpl. by destruct (read_sent indet q).
Qed.

(** A request that is held back behind one of a smaller clock is sent when the
    reply to the first arrives only if the flag that its copy in the queue
    leaves indeterminate happens to read false; otherwise it keeps waiting and
    is never sent. *)
Lemma held_back_request_may_be_lost {OpLog} (indet : bool) app1 app2 c1 c2 t r clock cur :
  in_u32 cur -> c1 <= clock < c2 ->
  let mgr1 := AddRowRequest (mkRequest app1 c1 (u32 (cur - 1)) None) t r (@SSPMgr_init OpLog) in
  let mgr2 := AddRowRequest (mkRequest app2 c2 (u32 (cur - 1)) None) t r (snd mgr1) in
  fst mgr1 = true /\ fst mgr2 = false /\
  exists q mgr3,
    InformReply indet t r clock cur (snd mgr2) =
      Ret (if indet then -1 else c2, [app1], mgr3) /\
    waiting (pending_row_requests mgr3) (t, r) = [q] /\ app_thread_id q = app2 /\
    (indet = true -> q = mkRequest app2 c2 (u32 (cur - 1)) None).
Proof.
  intros Hcur Hc mgr1 mgr2.
  assert (E1 : mgr1 = (true, snd mgr1)) by done.
  assert (Hw1 : waiting (pending_row_requests (snd mgr1)) (t, r)
                = [mkRequest app1 c1 (u32 (cur - 1)) None]).
  { unfold waiting, mgr1, AddRowRequest. simpl. rewrite lookup_empty. simpl. by rewrite lookup_insert_eq. }
  assert (E2 : insert_request (mkRequest app2 c2 (u32 (cur - 1)) None)
                 (waiting (pending_row_requests (snd mgr1)) (t, r))
    = ([mkRequest app1 c1 (u32 (cur - 1)) None; mkRequest app2 c2 (u32 (cur - 1)) None], false)).
  { rewrite Hw1. unfold insert_request. simpl. by rewrite bool_decide_true by lia. }
  assert (Hok : mgr_ok cur (snd mgr2)) by (by do 2 apply AddRowRequest_ok; apply mgr_ok_init).
  assert (Hw2 : fst mgr2 = false /\ waiting (pending_row_requests (snd mgr2)) (t, r) =
    [mkRequest app1 c1 (u32 (cur - 1)) None; mkRequest app2 c2 (u32 (cur - 1)) None]).
  { unfold mgr2, AddRowRequest. fold (waiting (pending_row_requests (snd mgr1)) (t, r)).
    rewrite E2. unfold waiting at 1. simpl. by rewrite lookup_insert_eq. }
  destruct Hw2 as [Hsent Hw2]. split; [done|]. split; [done|].
  destruct (InformReply_spec indet t r clock cur _ Hok) as (mgr3 & E & _ & Hw3 & _).
  rewrite Hw2 in E, Hw3. set (q1 := mkRequest app1 _ _ _) in *. set (q2 := mkRequest app2 _ _ _) in *.
  assert (F1 : filter (fun q => req_clock q <= clock) [q1; q2] = [q1])
    by (rewrite !filter_cons, decide_True, decide_False by (simpl; lia); done).
  assert (F2 : filter (fun q => ~ (req_clock q <= clock)) [q1; q2] = [q2])
    by (rewrite !filter_cons, decide_False, decide_True by (simpl; lia); done).
  rewrite F1, F2 in E. rewrite F2 in Hw3.
  destruct indet; do 2 eexists; (split; [exact E|]); (split; [exact Hw3|]); done.
Qed.

(** *** Witnesses *)

Example ssp_demo : ssp_reachable {[5 := true]} 6
  (snd (default (false, SSPMgr_init) (outcome_to_option
    (AddOpLog 5 true (snd (AddRowRequest (mkRequest 0 3 (u32 (5 - 1)) None) 1 2 SSPMgr_init)))))).
Proof.
  apply (ssp_oplog ∅ 5 (snd (AddRowRequest (mkRequest 0 3 (u32 (5 - 1)) None) 1 2 SSPMgr_init)) true true);
    [apply ssp_request, ssp_start; int_lia| |vm_compute; reflexivity].
  vm_compute. intros H. inversion H as [|? ? ? H2]; inversion H2.
Qed.

Lemma ssp_oplogs_kept_while_needed_witness :
  let mgr := snd (default (false, SSPMgr_init) (outcome_to_option
    (AddOpLog 5 true (snd (AddRowRequest (mkRequest 0 3 (u32 (5 - 1)) None) 1 2 SSPMgr_init))))) in
  is_Some (version_oplog_map mgr !! 5) <->
     in_u32 5 /\ exists q, q ∈ all_pending (pending_row_requests mgr) /\
                           age 6 5 < age 6 (req_version q).
Proof. intros mgr. apply (ssp_oplogs_kept_while_needed {[5 := true]} 6 mgr), ssp_demo. Defined.

Lemma demo_mgr_ok : mgr_ok 6 (snd (default (false, SSPMgr_init) (outcome_to_option
    (AddOpLog 5 true (snd (AddRowRequest (mkRequest 0 3 (u32 (5 - 1)) None) 1 2 SSPMgr_init)))))).
Proof. by destruct (ssp_reachable_ok _ _ _ ssp_demo). Qed.

