(* ===== verification/PushMgr.v ===== *)
(** * Row requests and saved oplogs of a background worker (SSPPush)

    [petuum_ps/thread/ssp_push_row_request_oplog_mgr.{hpp,cpp}].  In push mode
    the manager keeps every oplog until all servers have acknowledged its
    version, so that the rows they push can be corrected with the updates
    they do not contain yet. *)
From S2P Require Import Prelude VectorClock VersionMgr RequestMgr.
Open Scope Z_scope.

Section PUSH.
Context {OpLog : Type}.

(** [oplog_iter_] is the position in the list; [push_pending] is
    [pending_row_requests_]. *)
Record SSPPushRowRequestOpLogMgr := mkPushMgr {
  push_pending : gmap (Z * Z) (list RowRequestInfo);
  version_oplog_list : list (Z * OpLog);
  push_iter : nat;
  push_iter_version_next : Z;
  push_iter_version_end : Z;
  server_version_mgr : ServerVersionMgr
}.

Definition PushMgr_init (server_ids : list Z) : SSPPushRowRequestOpLogMgr :=
  mkPushMgr ∅ [] 0 0 0 (ServerVersionMgr_init server_ids).

Definition with_pending p (m : SSPPushRowRequestOpLogMgr) :=
  mkPushMgr p (version_oplog_list m) (push_iter m) (push_iter_version_next m)
    (push_iter_version_end m) (server_version_mgr m).

Definition with_oplogs l s (m : SSPPushRowRequestOpLogMgr) :=
  mkPushMgr (push_pending m) l (push_iter m) (push_iter_version_next m)
    (push_iter_version_end m) s.

Definition PushAddRowRequest (request : RowRequestInfo) (table_id row_id : Z)
    (m : SSPPushRowRequestOpLogMgr) : bool * SSPPushRowRequestOpLogMgr :=
  let l := default [] (push_pending m !! (table_id, row_id)) in
  let '(l', sent) := insert_request request l in
  (sent, with_pending (<[(table_id, row_id) := l']> (push_pending m)) m).

(** The loop of [InformReply]: clock to request, remaining queue, answered
    application threads. *)
Fixpoint push_inform_loop (indet : bool) (clock : Z) (l : list RowRequestInfo)
    (apps : list Z) : Z * list RowRequestInfo * list Z :=
  match l with
  | [] => (-1, [], apps)
  | request :: rest =>
      if bool_decide (req_clock request <= clock) then
        push_inform_loop indet clock rest (apps ++ [app_thread_id request])
      else if read_sent indet request then (-1, l, apps)
      else (req_clock request,
            mkRequest (app_thread_id request) (req_clock request)
              (req_version request) (Some true) :: rest, apps)
  end.

Definition PushInformReply (indet : bool) (table_id row_id clock curr_version : Z)
    (m : SSPPushRowRequestOpLogMgr) : Z * list Z * SSPPushRowRequestOpLogMgr :=
  let key := (table_id, row_id) in
  let '(c, l', apps) := push_inform_loop indet clock (default [] (push_pending m !! key)) [] in
  let pending' := match l' with
                  | [] => delete key (push_pending m)
                  | _ => <[key := l']> (push_pending m)
                  end in
  (c, apps, with_pending pending' m).

Definition PushAddOpLog (version : Z) (oplog : OpLog) (m : SSPPushRowRequestOpLogMgr)
    : bool * SSPPushRowRequestOpLogMgr :=
  (true, with_oplogs (version_oplog_list m ++ [(version, oplog)]) (server_version_mgr m) m).

(** The search loops: the position of the first entry of a version. *)
Fixpoint find_version (version : Z) (l : list (Z * OpLog)) : option (nat * OpLog) :=
  match l with
  | [] => None
  | (v, o) :: l' =>
      if bool_decide (v = version) then Some (0%nat, o)
      else prod_map S id <$> find_version version l'
  end.

Definition PushGetOpLog (version : Z) (m : SSPPushRowRequestOpLogMgr) : outcome OpLog :=
  snd <$> checked (find_version version (version_oplog_list m)).

Definition InformVersionInc (m : SSPPushRowRequestOpLogMgr) : SSPPushRowRequestOpLogMgr :=
  with_oplogs (version_oplog_list m) (IncVersionUpperBound (server_version_mgr m)) m.

(** The test of the removal loop on the front entry. *)
Definition ack_removes (version_to_remove version_upper_bound first : Z) : bool :=
  if bool_decide (version_to_remove > version_upper_bound) then
    bool_decide (first > version_upper_bound /\ first <= version_to_remove)
  else if bool_decide (first > version_upper_bound) then true
  else bool_decide (first <= version_to_remove).

(** The removal loop.  After an entry has been popped and others remain, the
    loop assigns the new front through the reference to the popped entry; the
    flag records that write to freed memory. *)
Fixpoint ack_loop (version_to_remove version_upper_bound : Z) (l : list (Z * OpLog))
    (dangling_write : bool) : list (Z * OpLog) * bool :=
  match l with
  | [] => ([], dangling_write)
  | (first, _) :: l' =>
      if ack_removes version_to_remove version_upper_bound first then
        ack_loop version_to_remove version_upper_bound l'
          (dangling_write || negb (bool_decide (l' = [])))
      else (l, dangling_write)
  end.

Definition ServerAcknowledgeVersion (server_id version : Z) (m : SSPPushRowRequestOpLogMgr)
    : outcome (bool * SSPPushRowRequestOpLogMgr) :=
  '(changed, svm) ← SetServerVersion server_id version (server_version_mgr m);
  if negb changed then Ret (false, with_oplogs (version_oplog_list m) svm m)
  else
    let '(l', dangling) := ack_loop (GetMinVersion svm) (GetVersionUpperBound svm)
                             (version_oplog_list m) false in
    Ret (dangling, with_oplogs l' svm m).

Definition PushOpLogIterInit (start_version end_version : Z) (m : SSPPushRowRequestOpLogMgr)
    : outcome (OpLog * SSPPushRowRequestOpLogMgr) :=
  '(pos, o) ← checked (find_version start_version (version_oplog_list m));
  Ret (o, mkPushMgr (push_pending m) (version_oplog_list m) pos (u32 (start_version + 1))
            end_version (server_version_mgr m)).

Definition PushOpLogIterNext (m : SSPPushRowRequestOpLogMgr)
    : outcome (option (Z * OpLog) * SSPPushRowRequestOpLogMgr) :=
  if bool_decide (push_iter_version_next m > push_iter_version_end m) then Ret (None, m)
  else
    let pos := S (push_iter m) in
    '(v, o) ← checked (version_oplog_list m !! pos);
    _ ← CHECK (bool_decide (v = push_iter_version_next m));
    Ret (Some (v, o), mkPushMgr (push_pending m) (version_oplog_list m) pos
                        (u32 (push_iter_version_next m + 1)) (push_iter_version_end m)
                        (server_version_mgr m)).

(** The client's iteration ([BgWorkers::ApplyOldOpLogsToRowData]): the entries
    after the first one, until [OpLogIterNext] returns null; [Undef] when the
    fuel runs out. *)
Fixpoint push_iter_rest (fuel : nat) (m : SSPPushRowRequestOpLogMgr) : outcome (list OpLog) :=
  match fuel with
  | O => Undef
  | S fuel' =>
      '(r, m') ← PushOpLogIterNext m;
      match r with
      | None => Ret []
      | Some (_, o) => rest ← push_iter_rest fuel' m'; Ret (o :: rest)
      end
  end.

Definition push_iter_all (start_version end_version : Z) (m : SSPPushRowRequestOpLogMgr)
    : outcome (list OpLog) :=
  '(o, m') ← PushOpLogIterInit start_version end_version m;
  rest ← push_iter_rest (S (length (version_oplog_list m))) m';
  Ret (o :: rest).

(** ** The list of unacknowledged oplogs *)

(** The entries of versions [mn + 1 .. sent], [hist] giving their oplogs. *)
Definition unacked (hist : Z -> OpLog) (mn sent : Z) : list (Z * OpLog) :=
  (fun a => (u32 a, hist a)) <$> seqZ (mn + 1) (sent - mn).

Definition push_ok (hist : Z -> OpLog) (m : SSPPushRowRequestOpLogMgr) (s : AckSpec) (mn : Z) : Prop :=
  acks_refine (server_version_mgr m) s mn /\
  version_oplog_list m = unacked hist mn (sent s).

Lemma unacked_cons hist mn top : mn < top ->
  unacked hist mn top = (u32 (mn + 1), hist (mn + 1)) :: unacked hist (mn + 1) top.
Proof.
  intros H. unfold unacked. rewrite (seqZ_cons (mn + 1)) by lia. simpl.
  do 2 f_equal. f_equal; lia.
Qed.

Lemma unacked_nil hist mn top : top <= mn -> unacked hist mn top = [].
Proof. intros H. unfold unacked. by rewrite seqZ_nil by lia. Qed.

Lemma ack_removes_spec mn a top : mn <= top -> a <= top -> top - mn < 2 ^ 32 -> top - a < 2 ^ 32 ->
  ack_removes (u32 mn) (u32 top) (u32 a) = bool_decide (a <= mn).
Proof.
  intros. unfold ack_removes. repeat case_bool_decide; try done; exfalso; int_lia.
Qed.

(** The loop removes exactly the acknowledged versions. *)
Lemma ack_loop_spec hist n mn mn' top d :
  Z.of_nat n = mn' - mn -> mn' <= top -> top - mn < 2 ^ 32 + 1 -> top - mn' < 2 ^ 32 ->
  ack_loop (u32 mn') (u32 top) (unacked hist mn top) d =
    (unacked hist mn' top, d || (bool_decide (mn < mn') && bool_decide (mn' < top)) || 
       bool_decide (mn + 1 < mn')).
Proof.
  revert mn d. induction n as [|n IH]; intros mn d Hn Htop Hlag Hlag'.
  - assert (mn = mn') as -> by lia. rewrite (bool_decide_false (mn' < mn')) by lia.
    rewrite (bool_decide_false (mn' + 1 < mn')) by lia. simpl. rewrite !orb_false_r.
    destruct (decide (mn' < top)).
    + rewrite unacked_cons by done. simpl. rewrite ack_removes_spec by lia.
      by rewrite bool_decide_false by lia.
    + by rewrite unacked_nil by lia.
  - rewrite unacked_cons by lia. simpl. rewrite ack_removes_spec by lia.
    rewrite bool_decide_true by lia. rewrite IH by lia. f_equal.
    assert (bool_decide (unacked hist (mn + 1) top = []) = bool_decide (top <= mn + 1)) as ->.
    { apply bool_decide_ext. split; [|apply unacked_nil]. intros He.
      destruct (decide (mn + 1 < top)); [|lia]. by rewrite unacked_cons in He by done. }
    destruct d; simpl; [done|]. repeat case_bool_decide; simpl; try done; exfalso; lia.
Qed.
End PUSH.
Arguments SSPPushRowRequestOpLogMgr : clear implicits.

Section PUSH_THEORY.
Context {OpLog : Type}.
Implicit Types (hist : Z -> OpLog) (m : SSPPushRowRequestOpLogMgr OpLog).

Lemma ServerAcknowledgeVersion_refines hist m s mn id a b :
  push_ok hist m s mn -> acked s !! id = Some a -> a <= b <= sent s ->
  let s' := mkAckSpec (<[id := b]> (acked s)) (sent s) in
  exists d m' mn', ServerAcknowledgeVersion id (u32 b) m = Ret (d, m') /\
    push_ok hist m' s' mn' /\
    (d = true <-> mn < mn' /\ (mn' < sent s \/ mn + 1 < mn')) /\
    push_pending m' = push_pending m.
Proof.
  intros [Href Hl] Hid Hb s'.
  destruct (SetServerVersion_refines _ s mn id a b Href Hid Hb)
    as (r & svm & mn' & E & Href' & Hr & Hr').
  unfold ServerAcknowledgeVersion. rewrite E. simpl. destruct r; simpl.
  - pose proof Href as (_ & _ & _ & [[j Hj] _] & Hw).
    pose proof Href' as (_ & Hub & Hmin & [[j' Hj'] _] & Hw').
    specialize (Hw _ _ Hj). specialize (Hw' _ _ Hj'). simpl in Hw'.
    assert (mn < mn') by tauto.
    unfold GetMinVersion, GetVersionUpperBound. rewrite Hub, Hmin, Hl. simpl.
    rewrite (ack_loop_spec hist (Z.to_nat (mn' - mn))) by lia.
    do 3 eexists. split; [done|]. split; [by split|]. split; [|done]. simpl.
    repeat case_bool_decide; simpl; split; try done; lia.
  - rewrite (Hr' eq_refl) in *. do 3 eexists. split; [done|]. split; [by split|].
    split; [|done]. split; [done|]. lia.
Qed.

Lemma push_send_ok hist m s mn :
  push_ok hist m s mn -> sent s + 1 - mn < 2 ^ 32 ->
  push_ok hist (InformVersionInc (snd (PushAddOpLog (u32 (sent s + 1)) (hist (sent s + 1)) m)))
    (mkAckSpec (acked s) (sent s + 1)) mn.
Proof.
  intros [Href Hl] Hlag. split; simpl; [by apply IncVersionUpperBound_refines|].
  rewrite Hl. unfold unacked.
  assert (0 <= sent s - mn).
  { destruct Href as (_ & _ & _ & [[j Hj] _] & Hw). specialize (Hw _ _ Hj). lia. }
  replace (sent s + 1 - mn) with (sent s - mn + 1) by lia.
  rewrite (seqZ_app (mn + 1)) by lia. rewrite fmap_app. f_equal.
  replace (mn + 1 + (sent s - mn)) with (sent s + 1) by lia.
  by rewrite (seqZ_cons (sent s + 1)), seqZ_nil by lia.
Qed.

(** The events at a background worker in push mode; [hist a] is the oplog of
    version [a]. *)
Inductive push_step hist :
    SSPPushRowRequestOpLogMgr OpLog * AckSpec -> SSPPushRowRequestOpLogMgr OpLog * AckSpec -> Prop :=
  | push_send m s :
      (forall id a, acked s !! id = Some a -> sent s + 1 - a < 2 ^ 32) ->
      push_step hist (m, s)
        (InformVersionInc (snd (PushAddOpLog (u32 (sent s + 1)) (hist (sent s + 1)) m)),
         mkAckSpec (acked s) (sent s + 1))
  | push_ack m s id a b d m' :
      acked s !! id = Some a -> a <= b <= sent s ->
      ServerAcknowledgeVersion id (u32 b) m = Ret (d, m') ->
      push_step hist (m, s) (m', mkAckSpec (<[id := b]> (acked s)) (sent s))
  | push_request m s q t r :
      push_step hist (m, s) (snd (PushAddRowRequest q t r m), s)
  | push_reply m s indet t r clock cur :
      push_step hist (m, s) (snd (PushInformReply indet t r clock cur m), s).

Lemma push_ok_pending hist m s mn p : push_ok hist m s mn -> push_ok hist (with_pending p m) s mn.
Proof. done. Qed.

Lemma push_step_ok hist p q mn :
  push_step hist p q -> push_ok hist p.1 p.2 mn -> exists mn', push_ok hist q.1 q.2 mn'.
Proof.
  destruct 1 as [m s Hlag|m s id a b d m' Hid Hb E|m s r t w|m s indet t r clock cur]; simpl; intros Hok.
  - exists mn. apply push_send_ok; [done|].
    destruct Hok as [(_ & _ & _ & [[j Hj] _] & _) _]. by apply (Hlag j).
  - destruct (ServerAcknowledgeVersion_refines _ _ _ _ _ _ _ Hok Hid Hb)
      as (d' & m2 & mn' & E2 & Hok' & _).
    rewrite E in E2. injection E2 as -> ->. eauto.
  - exists mn. unfold PushAddRowRequest. destruct (insert_request _ _). by apply push_ok_pending.
  - exists mn. unfold PushInformReply. destruct (push_inform_loop _ _ _ _) as [[? ?] ?].
    by apply push_ok_pending.
Qed.

Lemma PushMgr_init_ok hist id ids :
  push_ok hist (PushMgr_init (id :: ids)) (mkAckSpec (init_acks (id :: ids)) (-1)) (-1).
Proof. split; [apply ServerVersionMgr_init_refines|done]. Qed.

(** The iteration. *)
Lemma find_version_unacked hist n mn top s0 :
  s0 = mn + 1 + Z.of_nat n -> s0 <= top -> top - mn < 2 ^ 32 ->
  find_version (u32 s0) (unacked hist mn top) = Some (n, hist s0).
Proof.
  revert mn; induction n as [|n IH]; intros mn Hs Htop Hlag; rewrite unacked_cons by lia; simpl.
  - rewrite bool_decide_true by (f_equal; lia). do 3 f_equal. lia.
  - rewrite bool_decide_false by int_lia. by rewrite (IH (mn + 1)) by lia.
Qed.

Lemma unacked_lookup hist mn top n : mn + 1 + Z.of_nat n <= top ->
  unacked hist mn top !! n = Some (u32 (mn + 1 + Z.of_nat n), hist (mn + 1 + Z.of_nat n)).
Proof.
  intros H. unfold unacked. rewrite list_lookup_fmap, lookup_seqZ_lt by lia. done.
Qed.

Lemma push_iter_rest_spec hist k fuel m mn top e0 cur :
  version_oplog_list m = unacked hist mn top ->
  mn < cur -> Z.of_nat k = e0 - cur -> e0 <= top ->
  cur = mn + 1 + Z.of_nat (push_iter m) ->
  push_iter_version_end m = u32 e0 -> push_iter_version_next m = u32 (cur + 1) ->
  u32 cur <= u32 e0 < 2 ^ 32 - 1 -> (k < fuel)%nat -> top - mn < 2 ^ 32 ->
  push_iter_rest fuel m = Ret (hist <$> seqZ (cur + 1) (e0 - cur)).
Proof.
  revert fuel m cur. induction k as [|k IH]; intros fuel m cur Hl Hcur Hk He Hpos Hend Hnext Hw Hf Hlag.
  all: destruct fuel as [|fuel]; [lia|]; cbn [push_iter_rest]; unfold PushOpLogIterNext;
    rewrite Hend, Hnext.
  - assert (cur = e0) as -> by lia. rewrite bool_decide_true by int_lia. simpl.
    by rewrite Z.sub_diag, seqZ_nil.
  - rewrite bool_decide_false by int_lia. rewrite Hl.
    rewrite unacked_lookup by lia.
    replace (mn + 1 + Z.of_nat (S (push_iter m))) with (cur + 1) by lia.
    simpl. rewrite bool_decide_true by done. simpl.
    erewrite (IH fuel _ (cur + 1)); [|simpl..]; try done; try lia; try int_lia.
    simpl. rewrite (seqZ_cons (cur + 1)) by lia. simpl.
    by replace (Z.pred (e0 - cur)) with (e0 - (cur + 1)) by lia.
Qed.

Lemma push_iter_rest_S fuel m :
  push_iter_rest (S fuel) m =
    ('(r, m') ← PushOpLogIterNext m;
     match r with
     | None => Ret []
     | Some (_, o) => rest ← push_iter_rest fuel m'; Ret (o :: rest)
     end).
Proof. done. Qed.

#[local] Arguments push_iter_rest : simpl never.

Lemma push_iter_all_spec hist m mn top s0 e0 :
  version_oplog_list m = unacked hist mn top ->
  mn < s0 <= e0 -> e0 <= top -> top - mn < 2 ^ 32 -> u32 s0 <= u32 e0 < 2 ^ 32 - 1 ->
  push_iter_all (u32 s0) (u32 e0) m = Ret (hist <$> seqZ s0 (e0 - s0 + 1)).
Proof.
  intros Hl Hs He Hlag Hw. unfold push_iter_all, PushOpLogIterInit. rewrite Hl.
  rewrite (find_version_unacked hist (Z.to_nat (s0 - mn - 1)) mn top s0) by lia. simpl.
  rewrite (push_iter_rest_spec hist (Z.to_nat (e0 - s0)) _ _ mn top e0 s0);
    try done; simpl; try lia; try int_lia.
  - simpl. rewrite (seqZ_cons s0) by lia. simpl.
    replace (Z.pred (e0 - s0 + 1)) with (e0 - s0) by lia.
    by replace (Z.succ s0) with (s0 + 1) by lia.
  - unfold unacked. rewrite length_fmap, length_seqZ. lia.
Qed.
End PUSH_THEORY.

#[local] Arguments push_iter_rest : simpl never.

(** C14: from the constructor on, in every sequence of requests, replies, sends
    and acknowledgements in which no server falls 2^32 versions behind, the
    manager holds exactly the oplogs of the versions that some server has not
    acknowledged, in the order they were sent, and no acknowledgement fails a
    check. *)
Theorem push_mgr_holds_unacknowledged {OpLog} (hist : Z -> OpLog) id ids m s :
  rtc (push_step hist)
    (PushMgr_init (id :: ids), mkAckSpec (init_acks (id :: ids)) (-1)) (m, s) ->
  exists mn, is_min (acked s) mn /\
    version_oplog_list m = unacked hist mn (sent s) /\
    (forall j a b, acked s !! j = Some a -> a <= b <= sent s ->
       exists d m', ServerAcknowledgeVersion j (u32 b) m = Ret (d, m')).
Proof.
  intros H. assert (exists mn, push_ok hist m s mn) as [mn Hok].
  { change m with (m, s).1. change s with (m, s).2 at 2.
    revert H. generalize (m, s) as q. clear m s. intros q H.
    remember (PushMgr_init (id :: ids), mkAckSpec (init_acks (id :: ids)) (-1)) as p eqn:Hp.
    assert (exists mn, push_ok hist p.1 p.2 mn) as Hp' by (rewrite Hp; eexists; apply PushMgr_init_ok).
    clear Hp. induction H as [p|p q r Hstep _ IH]; [done|]. apply IH. destruct Hp' as [mn Hr].
    by eapply push_step_ok. }
  exists mn. pose proof Hok as [(_ & _ & _ & Hmn & _) Hl]. split_and!; [done..|].
  intros j a b Hj Hb.
  destruct (ServerAcknowledgeVersion_refines _ _ _ _ _ _ _ Hok Hj Hb) as (d & m' & mn' & E & _).
  eauto.
Qed.

(** An acknowledgement drops the oplogs up to the new oldest acknowledged
    version and no other; it writes through the reference to a freed list
    node exactly when, having dropped one, it goes on to look at another. *)
Lemma ServerAcknowledgeVersion_correct {OpLog} (hist : Z -> OpLog) m s mn id a b :
  push_ok hist m s mn -> acked s !! id = Some a -> a <= b <= sent s ->
  exists d m' mn', ServerAcknowledgeVersion id (u32 b) m = Ret (d, m') /\
    is_min (<[id := b]> (acked s)) mn' /\
    version_oplog_list m' = unacked hist mn' (sent s) /\
    (d = true <-> mn < mn' /\ (mn' < sent s \/ mn + 1 < mn')) /\
    push_pending m' = push_pending m.
Proof.
  intros Hok Hid Hb.
  destruct (ServerAcknowledgeVersion_refines _ _ _ _ _ _ _ Hok Hid Hb)
    as (d & m' & mn' & E & [(_ & _ & _ & Hmn & _) Hl] & Hd & Hp).
  exists d, m', mn'. by split_and!.
Qed.

(** Iterating from version [s0] to [e0] over the saved oplogs gives each of
    them in order and then ends, if the 32-bit versions do not wrap in
    between; if they do, the iteration ends after the first oplog and leaves
    out all others. *)
Lemma push_iteration_stops_at_wrap {OpLog} (hist : Z -> OpLog) m mn top s0 e0 :
  version_oplog_list m = unacked hist mn top ->
  mn < s0 < e0 -> e0 <= top -> top - mn < 2 ^ 32 - 1 -> u32 e0 < 2 ^ 32 - 1 ->
  push_iter_all (u32 s0) (u32 e0) m =
    if bool_decide (u32 s0 <= u32 e0) then Ret (hist <$> seqZ s0 (e0 - s0 + 1))
    else if bool_decide (u32 s0 = 2 ^ 32 - 1) then Ret (hist <$> seqZ s0 (e0 - s0 + 1))
    else Ret [hist s0].
Proof.
  intros Hl Hs He Hlag Hw. case_bool_decide as H1.
  { eapply push_iter_all_spec; [done|lia..]. }
  unfold push_iter_all, PushOpLogIterInit. rewrite Hl.
  rewrite (find_version_unacked hist (Z.to_nat (s0 - mn - 1)) mn top s0) by lia. simpl.
  rewrite push_iter_rest_S. unfold PushOpLogIterNext.
  cbn [push_iter_version_next push_iter_version_end push_iter version_oplog_list].
  case_bool_decide as H2.
  - by rewrite bool_decide_false by int_lia.
  - rewrite bool_decide_true by int_lia. rewrite unacked_lookup by lia.
    replace (mn + 1 + Z.of_nat (S (Z.to_nat (s0 - mn - 1)))) with (s0 + 1) by lia. simpl.
    rewrite bool_decide_true by int_lia. simpl.
    rewrite (push_iter_rest_spec hist (Z.to_nat (e0 - (s0 + 1))) _ _ mn top e0 (s0 + 1));
      try done; simpl; try lia; try int_lia.
    + simpl. rewrite (seqZ_cons s0), (seqZ_cons (Z.succ s0)) by lia. simpl.
      replace (Z.succ s0) with (s0 + 1) by lia.
      replace (Z.pred (Z.pred (e0 - s0 + 1))) with (e0 - (s0 + 1)) by lia.
      by replace (Z.succ (s0 + 1)) with (s0 + 1 + 1) by lia.
    + unfold unacked. rewrite length_fmap, length_seqZ. lia.
Qed.

(** *** Witnesses *)

Definition push_demo_hist (a : Z) : Z := 100 + a.

Definition push_demo : SSPPushRowRequestOpLogMgr Z :=
  mkPushMgr ∅ (unacked push_demo_hist 4294967294 4294967297) 0 0 0 wrap_mgr.

Lemma push_demo_ok : push_ok push_demo_hist push_demo wrap_spec 4294967294.
Proof. split; [apply wrap_refine|done]. Qed.

Lemma push_mgr_holds_unacknowledged_witness :
  exists m s mn, rtc (push_step push_demo_hist)
    (PushMgr_init [5], mkAckSpec (init_acks [5]) (-1)) (m, s) /\
    version_oplog_list m = [(0, 100)] /\ is_min (acked s) mn.
Proof.
  assert (rtc (push_step push_demo_hist) (PushMgr_init [5], mkAckSpec (init_acks [5]) (-1))
    (InformVersionInc (snd (PushAddOpLog (u32 (-1 + 1)) (push_demo_hist (-1 + 1)) (PushMgr_init [5]))),
     mkAckSpec (init_acks [5]) (-1 + 1))) as H.
  { apply rtc_once. apply (push_send push_demo_hist _ (mkAckSpec (init_acks [5]) (-1))).
    intros id a Ha. simpl in *. unfold init_acks in Ha. simpl in Ha.
    apply lookup_insert_Some in Ha as [[_ <-]|[_ Ha]]; [lia|by rewrite lookup_empty in Ha]. }
  destruct (push_mgr_holds_unacknowledged push_demo_hist 5 [] _ _ H) as (mn & H1 & _).
  eexists _, _, mn. split_and!; [exact H|done|exact H1].
Defined.

