(* ===== verification/Context.v ===== *)
(** * Identifiers and partitions

    [petuum_ps/thread/context.hpp] (thread and client ids, the server and the
    background thread that own a row, the size of a lock pool) and the
    identifiers of [petuum_ps_common/comm_bus] ([zmq_util.cpp],
    [comm_bus.cpp]). *)
From stdpp Require Import strings.
From S2P Require Import Prelude.
Open Scope Z_scope.

(** ** [ThreadContext] *)
Record ThreadInfo := mkThreadInfo { entity_id : Z; thr_clock : Z }.

Definition RegisterThread (thread_id : Z) : ThreadInfo := mkThreadInfo thread_id 0.
Definition ThreadClock (t : ThreadInfo) : ThreadInfo :=
  mkThreadInfo (entity_id t) (i32 (thr_clock t + 1)).

(** ** [GlobalContext] *)

Definition kMaxNumThreadsPerClient : Z := 1000.
Definition kBgThreadIDStartOffset : Z := 100.
Definition kInitThreadIDOffset : Z := 200.

Inductive ConsistencyModel := SSP | SSPPush | SSPValue | LocalOOC.
#[export] Instance ConsistencyModel_eq_dec : EqDecision ConsistencyModel.
Proof. solve_decision. Defined.

(** What [Init] stores. *)
Record GlobalContext := mkGlobalContext {
  num_servers : Z;
  num_local_server_threads : Z;
  num_app_threads : Z;
  num_table_threads : Z;
  num_bg_threads : Z;
  num_total_bg_threads : Z;
  num_tables : Z;
  num_clients : Z;
  server_ids : list Z;
  client_id : Z;
  server_ring_size : Z;
  consistency_model : ConsistencyModel;
  aggressive_cpu : bool;
  snapshot_clock : Z;
  snapshot_dir : string;
  resume_clock : Z;
  resume_dir : string
}.

Definition get_thread_id_min (client : Z) : Z := i32 (client * kMaxNumThreadsPerClient).
Definition get_thread_id_max (client : Z) : Z :=
  i32 ((client + 1) * kMaxNumThreadsPerClient - 1).
Definition get_name_node_id : Z := 0.
Definition get_name_node_client_id : Z := 0.
Definition am_i_name_node_client (g : GlobalContext) : bool :=
  bool_decide (client_id g = get_name_node_client_id).
Definition get_head_bg_id (client : Z) : Z :=
  i32 (get_thread_id_min client + kBgThreadIDStartOffset).
Definition thread_id_to_client_id (thread_id : Z) : Z :=
  Z.quot thread_id kMaxNumThreadsPerClient.
Definition get_serialized_table_separator : Z := -1.
Definition get_serialized_table_end : Z := -2.
Definition get_local_id_min (g : GlobalContext) : Z := get_thread_id_min (client_id g).

(** [%] truncates towards zero; a zero divisor is undefined. *)
Definition c_rem (a b : Z) : outcome Z := if bool_decide (b = 0) then Undef else Ret (Z.rem a b).

Definition GetBgPartitionNum (g : GlobalContext) (row_id : Z) : outcome Z :=
  c_rem row_id (num_bg_threads g).

Definition GetRowPartitionServerID (g : GlobalContext) (table_id row_id : Z) : outcome Z :=
  idx ← c_rem row_id (num_servers g);
  vec_at (server_ids g) idx.

Definition GetLockPoolSize (g : GlobalContext) : Z :=
  i32 ((num_app_threads g + num_bg_threads g) * 20).

Definition GetLockPoolSize_capacity (table_capacity : Z) : Z :=
  i32 (if bool_decide (table_capacity <= 2 * 20) then table_capacity
       else Z.quot table_capacity 20).

(** ** Communication bus identifiers *)

Definition EntityID2ZmqID (entity : Z) : Z := i32 (Z.lor (Z.shiftl entity 4) 1).
Definition ZmqID2EntityID (zmq_id : Z) : Z := Z.shiftr zmq_id 4.

Definition IsLocalEntity (e_st e_end entity : Z) : bool :=
  bool_decide (e_st <= entity) && bool_decide (entity <= e_end).

(** ** Theorems *)

(** A configuration of at least one server and one background thread, every
    server listed once. *)
Record context_ok (g : GlobalContext) : Prop := {
  ctx_servers : 0 < num_servers g;
  ctx_server_ids : Z.of_nat (length (server_ids g)) = num_servers g;
  ctx_server_nodup : NoDup (server_ids g);
  ctx_bg : 0 < num_bg_threads g
}.

Lemma GetRowPartitionServerID_Ret g t r s : context_ok g -> 0 <= r ->
  GetRowPartitionServerID g t r = Ret s <->
  server_ids g !! Z.to_nat (r mod num_servers g) = Some s.
Proof.
  intros [Hs Hl _ _] Hr. unfold GetRowPartitionServerID, c_rem.
  rewrite bool_decide_false by lia. simpl. rewrite vec_at_Ret.
  rewrite Z.rem_mod_nonneg by lia. pose proof (Z.mod_pos_bound r (num_servers g)).
  naive_solver lia.
Qed.

Lemma GetBgPartitionNum_Ret g r : context_ok g -> 0 <= r ->
  GetBgPartitionNum g r = Ret (r mod num_bg_threads g).
Proof.
  intros [_ _ _ Hb] Hr. unfold GetBgPartitionNum, c_rem.
  rewrite bool_decide_false by lia. by rewrite Z.rem_mod_nonneg by lia.
Qed.

Lemma GetRowPartitionServerID_total g t r : context_ok g -> 0 <= r ->
  exists s, GetRowPartitionServerID g t r = Ret s /\ s ∈ server_ids g.
Proof.
  intros H Hr. pose proof H as [Hs Hl _ _].
  pose proof (Z.mod_pos_bound r (num_servers g) Hs).
  destruct (lookup_lt_is_Some_2 (server_ids g) (Z.to_nat (r mod num_servers g))) as [s E]; [lia|].
  exists s. rewrite GetRowPartitionServerID_Ret by done. split; [done|].
  by eapply list_elem_of_lookup_2.
Qed.

(** Every nonnegative row has exactly one server of the list and exactly one
    background thread, two rows share a server exactly if they are congruent
    modulo the number of servers; a negative row that is not a multiple of it
    is looked up outside the server list. *)
Lemma row_partition_correct g t r r' :
  context_ok g -> 0 <= r -> 0 <= r' ->
  (exists s, GetRowPartitionServerID g t r = Ret s /\ s ∈ server_ids g) /\
  (exists b, GetBgPartitionNum g r = Ret b /\ 0 <= b < num_bg_threads g) /\
  (GetRowPartitionServerID g t r = GetRowPartitionServerID g t r' <->
     r mod num_servers g = r' mod num_servers g) /\
  (forall q, q < 0 -> Z.rem q (num_servers g) <> 0 -> GetRowPartitionServerID g t q = Undef).
Proof.
  intros H Hr Hr'. pose proof H as [Hs Hl Hnd Hb]. split_and!.
  - by apply GetRowPartitionServerID_total.
  - exists (r mod num_bg_threads g). rewrite GetBgPartitionNum_Ret by done.
    split; [done|]. by apply Z.mod_pos_bound.
  - destruct (GetRowPartitionServerID_total g t r H Hr) as (s & E & _).
    destruct (GetRowPartitionServerID_total g t r' H Hr') as (s' & E' & _).
    rewrite E, E'. rewrite GetRowPartitionServerID_Ret in E, E' by done.
    pose proof (Z.mod_pos_bound r (num_servers g) Hs).
    pose proof (Z.mod_pos_bound r' (num_servers g) Hs). split.
    + intros [= ->]. pose proof (NoDup_lookup _ _ _ _ Hnd E E'). lia.
    + intros Heq. rewrite Heq in E. congruence.
  - intros q Hq Hne. unfold GetRowPartitionServerID, c_rem, vec_at.
    rewrite bool_decide_false by lia. simpl.
    rewrite bool_decide_false; [done|]. pose proof (Z.rem_nonpos q (num_servers g)). lia.
Qed.

(** The thread id ranges of clients are disjoint and cover the nonnegative
    ids: a thread is in a client's range exactly if the client is the one
    computed from its id; the head background thread of a client is in its
    range. *)
Lemma thread_ids_partition c t :
  0 <= c < 2147483 -> in_i32 t -> 0 <= t ->
  (get_thread_id_min c <= t <= get_thread_id_max c <-> thread_id_to_client_id t = c) /\
  thread_id_to_client_id (get_head_bg_id c) = c.
Proof.
  intros Hc Ht H0.
  unfold get_thread_id_min, get_thread_id_max, thread_id_to_client_id, get_head_bg_id,
    get_thread_id_min, kMaxNumThreadsPerClient, kBgThreadIDStartOffset.
  rewrite !i32_id by int_lia. rewrite !Z.quot_div_nonneg by lia. split; int_lia.
Qed.

(** A ZMQ identifier gives back the entity it was made from, for entity ids
    of 28 bits, so that distinct entities have distinct identifiers, all odd
    (ZMQ reserves identifiers that start with a zero byte). *)
Lemma zmq_id_round_trip e :
  - 2 ^ 27 <= e < 2 ^ 27 ->
  ZmqID2EntityID (EntityID2ZmqID e) = e /\ Z.odd (EntityID2ZmqID e) = true.
Proof.
  intros He. unfold ZmqID2EntityID, EntityID2ZmqID.
  assert (Z.lor (Z.shiftl e 4) 1 = 16 * e + 1) as ->.
  { rewrite Z.shiftl_mul_pow2 by lia. rewrite <- Z.add_nocarry_lor; [lia|].
    apply Z.bits_inj'. intros n Hn. rewrite Z.land_spec, Z.bits_0.
    destruct (decide (n = 0)) as [->|].
    - rewrite Z.mul_pow2_bits_low by lia. done.
    - rewrite (Z.bits_above_log2 1); [apply andb_false_r|lia|simpl; lia]. }
  rewrite i32_id by int_lia. split.
  - rewrite Z.shiftr_div_pow2 by lia. change (2 ^ 4) with 16. Z.div_mod_to_equations. lia.
  - by rewrite Z.odd_add, Z.odd_mul.
Qed.

(** The striped lock pool of a table of positive capacity has at least one
    lock and at most as many as the table has rows. *)
Lemma lock_pool_size_bounds cap :
  0 < cap < 2 ^ 31 -> 0 < GetLockPoolSize_capacity cap <= cap.
Proof.
  intros Hc. unfold GetLockPoolSize_capacity. case_bool_decide.
  - rewrite i32_id by int_lia. lia.
  - rewrite Z.quot_div_nonneg by lia. rewrite i32_id by int_lia. int_lia.
Qed.

Definition demo_context : GlobalContext :=
  mkGlobalContext 2 1 2 2 3 6 1 2 [1; 1000] 0 1 SSP false (-1) "snap" (-1) "snap".

Lemma demo_context_ok : context_ok demo_context.
Proof.
  constructor; [done..| |done]. apply (bool_decide_unpack _). by vm_compute.
Qed.

