(* ===== verification/Num.v ===== *)
(** * Arithmetic value types and the row interface

    The rows of a table are templates over a plain arithmetic type [V] that
    is both the value and the update type.  [Num] is what the templates use
    of it, [NumOk] its algebraic laws, which the machine integers satisfy
    ([int32], with two's complement wrap-around) and floating point does
    not.  [AbstractRow] is the interface of
    [petuum_ps_common/include/abstract_row.hpp]; [AbstractRowOk] states what
    the server and the client rely on of every row type. *)
From Stdlib Require Import Eqdep_dec.
From S2P Require Import Prelude Bytes.
Open Scope Z_scope.

Class Num (V : Type) := {
  num_eq_dec :: EqDecision V;
  v_zero : V;
  v_one : V;
  v_add : V -> V -> V;
  v_sub : V -> V -> V;
  v_mul : V -> V -> V;
  v_lt : V -> V -> Prop;
  v_lt_dec :: RelDecision v_lt;
  v_size : Z;                       (* sizeof(V) *)
  v_bytes : V -> list Z;            (* object representation *)
  v_of_bytes : list Z -> V
}.

Class NumOk (V : Type) `{Num V} := {
  v_add_comm a b : v_add a b = v_add b a;
  v_add_assoc a b c : v_add a (v_add b c) = v_add (v_add a b) c;
  v_add_zero a : v_add v_zero a = a;
  v_add_sub a b : v_sub (v_add a b) b = a;
  v_mul_comm a b : v_mul a b = v_mul b a;
  v_mul_assoc a b c : v_mul a (v_mul b c) = v_mul (v_mul a b) c;
  v_mul_one a : v_mul v_one a = a;
  v_mul_zero a : v_mul v_zero a = v_zero;
  v_lt_irrefl a : ~ v_lt a a;
  v_lt_trans a b c : v_lt a b -> v_lt b c -> v_lt a c;
  v_lt_total a b : v_lt a b \/ a = b \/ v_lt b a;
  v_size_pos : 0 < v_size;
  v_bytes_length a : blen (v_bytes a) = v_size;
  v_bytes_round_trip a : v_of_bytes (v_bytes a) = a
}.

(** [a <= b] of an arithmetic type without unordered values. *)
Definition v_le `{Num V} (a b : V) : Prop := v_lt a b \/ a = b.
#[export] Instance v_le_dec `{Num V} : RelDecision v_le.
Proof. intros a b. unfold v_le. apply _. Defined.

Section NUM_LAWS.
Context `{NumOk V}.

Lemma v_add_zero_r a : v_add a v_zero = a.
Proof. by rewrite v_add_comm, v_add_zero. Qed.

Lemma v_not_lt_le a b : ~ v_lt a b <-> v_le b a.
Proof.
  unfold v_le. split.
  - destruct (v_lt_total a b) as [?|[->|?]]; auto. done.
  - intros [Hlt| ->] Hlt'; [|by apply v_lt_irrefl in Hlt'].
    apply (v_lt_irrefl a). by eapply v_lt_trans.
Qed.

Lemma v_le_trans a b c : v_le a b -> v_le b c -> v_le a c.
Proof. intros [H1| ->] [H2| ->]; [left; by eapply v_lt_trans|by left|by left|by right]. Qed.

Lemma v_le_refl a : v_le a a.
Proof. by right. Qed.

Lemma v_le_total a b : v_le a b \/ v_le b a.
Proof. unfold v_le. destruct (v_lt_total a b) as [?|[->|?]]; auto. Qed.
End NUM_LAWS.

(** ** [int32_t] *)

Record int32 := mkInt32 { int_val : Z; int_val_ok : bool_decide (in_i32 int_val) = true }.

Lemma int32_eq (a b : int32) : int_val a = int_val b -> a = b.
Proof.
  destruct a as [a Ha], b as [b Hb]; simpl; intros ->. f_equal.
  apply UIP_dec, bool_dec.
Qed.

Lemma int32_range (a : int32) : in_i32 (int_val a).
Proof. destruct a as [a Ha]; simpl. by apply bool_decide_eq_true in Ha. Qed.

Definition to_int32 (z : Z) : int32 :=
  mkInt32 (i32 z) (bool_decide_eq_true_2 _ (in_i32_i32 z)).

Lemma int_val_to_int32 z : int_val (to_int32 z) = i32 z.
Proof. done. Qed.

Lemma to_int32_val a : to_int32 (int_val a) = a.
Proof. apply int32_eq. simpl. apply i32_id, int32_range. Qed.

#[export] Instance int32_eq_dec : EqDecision int32.
Proof.
  intros a b. destruct (decide (int_val a = int_val b)) as [He|Hn].
  - left. by apply int32_eq.
  - right. by intros ->.
Defined.

#[export] Instance int32_lt_dec : RelDecision (fun a b => int_val a < int_val b).
Proof. intros a b. apply _. Defined.

#[export] Program Instance int32_num : Num int32 := {|
  v_zero := to_int32 0;
  v_one := to_int32 1;
  v_add a b := to_int32 (int_val a + int_val b);
  v_sub a b := to_int32 (int_val a - int_val b);
  v_mul a b := to_int32 (int_val a * int_val b);
  v_lt a b := int_val a < int_val b;
  v_size := 4;
  v_bytes a := cencode I32 (int_val a);
  v_of_bytes bs := to_int32 (cdecode I32 bs)
|}.

Lemma i32_mod_eq a b : (a - b) mod 2 ^ 32 = 0 -> i32 a = i32 b.
Proof. intros. int_lia. Qed.

Lemma i32_sub_mod a : (i32 a - a) mod 2 ^ 32 = 0.
Proof. int_lia. Qed.

Lemma i32_mul_l a b : i32 (i32 a * b) = i32 (a * b).
Proof.
  apply i32_mod_eq. rewrite <- Z.mul_sub_distr_r.
  rewrite Z.mul_mod, i32_sub_mod by lia. done.
Qed.

#[export] Instance int32_num_ok : NumOk int32.
Proof.
  constructor; simpl.
  - intros a b. by rewrite Z.add_comm.
  - intros a b c. apply int32_eq; simpl. int_lia.
  - intros a. apply int32_eq; simpl. pose proof (int32_range a). int_lia.
  - intros a b. apply int32_eq; simpl. pose proof (int32_range a). int_lia.
  - intros a b. by rewrite Z.mul_comm.
  - intros a b c. apply int32_eq; simpl.
    by rewrite i32_mul_l, (Z.mul_comm _ (i32 _)), i32_mul_l, (Z.mul_comm _ (int_val a)), Z.mul_assoc.
  - intros a. apply int32_eq; simpl. change (i32 1) with 1. rewrite Z.mul_1_l.
    apply i32_id, int32_range.
  - intros a. by apply int32_eq.
  - intros a. lia.
  - intros a b c. lia.
  - intros a b. destruct (Z.lt_total (int_val a) (int_val b)) as [?|[?|?]]; auto.
    right; left. by apply int32_eq.
  - done.
  - intros a. apply blen_cencode.
  - intros a. apply int32_eq.
    change (i32 (cdecode I32 (cencode I32 (int_val a))) = int_val a).
    rewrite cdecode_cencode by apply int32_range. apply i32_id, int32_range.
Qed.

(** ** Arrays of values *)

Section ARRAY.
Context `{NumOk V}.

Definition v_array_bytes (l : list V) : list Z := concat (v_bytes <$> l).

(** The [n] values stored in a buffer. *)
Fixpoint v_array_of_bytes (n : nat) (bs : list Z) : list V :=
  match n with
  | O => []
  | S n' => v_of_bytes (take (Z.to_nat v_size) bs)
              :: v_array_of_bytes n' (drop (Z.to_nat v_size) bs)
  end.

Lemma v_array_bytes_length l : blen (v_array_bytes l) = v_size * Z.of_nat (length l).
Proof.
  unfold v_array_bytes. induction l as [|a l IH]; [by rewrite Z.mul_0_r|].
  rewrite fmap_cons. cbn [concat length]. unfold blen in *. rewrite length_app.
  pose proof (v_bytes_length a) as Hb. unfold blen in Hb. rewrite Nat2Z.inj_add, Hb, IH. lia.
Qed.

Lemma take_v_bytes (a : V) bs : take (Z.to_nat v_size) (v_bytes a ++ bs) = v_bytes a.
Proof.
  pose proof (v_bytes_length a) as Hb. unfold blen in Hb.
  rewrite take_app_le by lia. rewrite take_ge; [done|lia].
Qed.

Lemma drop_v_bytes (a : V) bs : drop (Z.to_nat v_size) (v_bytes a ++ bs) = bs.
Proof.
  pose proof (v_bytes_length a) as Hb. unfold blen in Hb.
  rewrite drop_app_ge by lia. replace (_ - _)%nat with O by lia. done.
Qed.

Lemma v_array_round_trip l bs : v_array_of_bytes (length l) (v_array_bytes l ++ bs) = l.
Proof.
  unfold v_array_bytes. induction l as [|a l IH]; [done|]. simpl.
  rewrite <- app_assoc, take_v_bytes, drop_v_bytes, v_bytes_round_trip. by f_equal.
Qed.
End ARRAY.

(** ** The row interface

    [R] is a row class over values [V].  [row_ok] is its representation
    invariant. *)
Class AbstractRow (R V : Type) := {
  row_init : Z -> outcome R;
  row_serialize : R -> list Z;
  row_serialized_size : R -> Z;
  row_deserialize : list Z -> outcome R;
  row_apply_inc : Z -> V -> R -> outcome R;
  row_apply_batch_inc : list (Z * V) -> R -> outcome R;
  row_add_updates : V -> V -> V;
  row_subtract_updates : V -> V -> V;
  row_init_update : V;
  row_get : R -> Z -> outcome V
}.

Class AbstractRowOk (R V : Type) `{AbstractRow R V} := {
  row_ok : R -> Prop;
  row_eqv : relation R;             (* same contents *)
  row_eqv_equiv :: Equivalence row_eqv;
  row_eqv_get r1 r2 c : row_eqv r1 r2 -> row_get r1 c = row_get r2 c;
  row_eqv_serialize r1 r2 : row_eqv r1 r2 -> row_serialize r1 = row_serialize r2;
  row_serialize_size r : row_ok r -> blen (row_serialize r) < 2 ^ 31 ->
    blen (row_serialize r) = row_serialized_size r;
  row_round_trip r : row_ok r -> blen (row_serialize r) < 2 ^ 31 ->
    exists r', row_deserialize (row_serialize r) = Ret r' /\ row_ok r' /\ row_eqv r' r;
  row_inc_ok c u r r' : row_ok r -> in_i32 c -> row_apply_inc c u r = Ret r' -> row_ok r'
}.

(** The sum of the updates of column [c]. *)
Definition column_sum `{Num V} (us : list (Z * V)) (c : Z) : V :=
  foldr (fun cu s => if bool_decide (cu.1 = c) then v_add cu.2 s else s) v_zero us.

(** Updates one after the other. *)
Definition row_apply_all `{AbstractRow R V} (us : list (Z * V)) (r : R) : outcome R :=
  foldM (fun r '(c, u) => row_apply_inc c u r) us r.

Lemma row_apply_all_app `{AbstractRow R V} us1 us2 (r : R) :
  row_apply_all (us1 ++ us2) r = (r' ← row_apply_all us1 r; row_apply_all us2 r').
Proof. apply foldM_app. Qed.

Lemma row_apply_all_ok `{AbstractRowOk R V} us (r r' : R) :
  Forall (fun cu : Z * V => in_i32 cu.1) us ->
  row_ok r -> row_apply_all us r = Ret r' -> row_ok r'.
Proof.
  unfold row_apply_all. intros Hc. revert r. induction Hc as [|[c u] us Hi _ IH]; intros r Hr E.
  - simpl in E. by inv_outcome.
  - simpl in E. inv_outcome. eapply IH; [|done]. by eapply row_inc_ok.
Qed.
