(* ===== verification/DenseRow.v ===== *)
(** * Dense rows

    [petuum_ps_common/storage/dense_row.hpp] and
    [multiplicative_dense_row.hpp]: a row of fixed capacity stored as a
    vector.  The second multiplies where the first adds. *)
From S2P Require Import Prelude Bytes Num.
Open Scope Z_scope.

Record DenseRow (V : Type) := mkDenseRow { dense_data : list V; dense_capacity : Z }.
Arguments mkDenseRow {V} _ _.
Arguments dense_data {V} _.
Arguments dense_capacity {V} _.

Record MultiplicativeDenseRow (V : Type) := mkMultRow { mult_data : list V; mult_capacity : Z }.
Arguments mkMultRow {V} _ _.
Arguments mult_data {V} _.
Arguments mult_capacity {V} _.

Section DENSE.
Context `{NumOk V}.
Implicit Types (data : list V) (us : list (Z * V)).

(** [data_.resize(n)]; a negative [n] throws [std::length_error]. *)
Definition vec_resize (n : Z) data : outcome (list V) :=
  if bool_decide (n < 0) then CheckFail
  else Ret (take (Z.to_nat n) data ++ replicate (Z.to_nat n - length data) v_zero).

(** [data_[column] op= update]. *)
Definition vec_update (op : V -> V -> V) (column : Z) (u : V) data : outcome (list V) :=
  v ← vec_at data column; vec_set data column (op v u).

(** [memcpy(data_.data(), data, num_bytes)] into the resized vector. *)
Definition vec_memcpy (n : Z) (bytes : list Z) : outcome (list V) :=
  if bool_decide (n < 0) then CheckFail
  else if bool_decide (blen bytes <= v_size * n)
  then Ret (v_array_of_bytes (Z.to_nat n) bytes)
  else Undef.

(** ** [DenseRow] *)

Definition DenseRow_Init (capacity : Z) : outcome (DenseRow V) :=
  data ← vec_resize capacity [];
  Ret (mkDenseRow (replicate (length data) v_zero) capacity).

Definition DenseRow_Clone (r : DenseRow V) : outcome (DenseRow V) :=
  new_row ← DenseRow_Init (dense_capacity r);
  if bool_decide (dense_capacity r <= Z.of_nat (length (dense_data r)))
  then Ret (mkDenseRow (take (Z.to_nat (dense_capacity r)) (dense_data r)) (dense_capacity new_row))
  else Undef.

Definition DenseRow_SerializedSize (r : DenseRow V) : Z :=
  u64 (Z.of_nat (length (dense_data r)) * v_size).

Definition DenseRow_Serialize (r : DenseRow V) : list Z := v_array_bytes (dense_data r).

Definition DenseRow_Deserialize (bytes : list Z) : outcome (DenseRow V) :=
  let vec_size := i32 (blen bytes / v_size) in
  data ← vec_memcpy vec_size bytes;
  Ret (mkDenseRow data vec_size).

Definition DenseRow_ApplyIncUnsafe (column_id : Z) (u : V) (r : DenseRow V)
    : outcome (DenseRow V) :=
  _ ← CHECK (bool_decide (column_id < i32 (Z.of_nat (length (dense_data r)))));
  data ← vec_update v_add column_id u (dense_data r);
  Ret (mkDenseRow data (dense_capacity r)).

(** Under the row's mutex. *)
Definition DenseRow_ApplyInc := DenseRow_ApplyIncUnsafe.

Definition DenseRow_ApplyBatchIncUnsafe us (r : DenseRow V) : outcome (DenseRow V) :=
  data ← foldM (fun data '(c, u) => vec_update v_add c u data) us (dense_data r);
  Ret (mkDenseRow data (dense_capacity r)).

Definition DenseRow_ApplyBatchInc := DenseRow_ApplyBatchIncUnsafe.

Definition DenseRow_AddUpdates (u1 u2 : V) : V := v_add u1 u2.
Definition DenseRow_SubtractUpdates (u1 u2 : V) : V := v_sub u1 u2.
Definition DenseRow_InitUpdate : V := v_zero.

Definition DenseRow_at (r : DenseRow V) (column_id : Z) : outcome V :=
  vec_at (dense_data r) column_id.

Definition DenseRow_CopyToVector (r : DenseRow V) : list V := dense_data r.

(** ** [MultiplicativeDenseRow] *)

Definition MultRow_Init (capacity : Z) : outcome (MultiplicativeDenseRow V) :=
  data ← vec_resize capacity [];
  Ret (mkMultRow (replicate (length data) v_zero) capacity).

Definition MultRow_Clone (r : MultiplicativeDenseRow V) : outcome (MultiplicativeDenseRow V) :=
  new_row ← MultRow_Init (mult_capacity r);
  if bool_decide (mult_capacity r <= Z.of_nat (length (mult_data r)))
  then Ret (mkMultRow (take (Z.to_nat (mult_capacity r)) (mult_data r)) (mult_capacity new_row))
  else Undef.

Definition MultRow_SerializedSize (r : MultiplicativeDenseRow V) : Z :=
  u64 (Z.of_nat (length (mult_data r)) * v_size).

Definition MultRow_Serialize (r : MultiplicativeDenseRow V) : list Z :=
  v_array_bytes (mult_data r).

Definition MultRow_Deserialize (bytes : list Z) : outcome (MultiplicativeDenseRow V) :=
  let vec_size := i32 (blen bytes / v_size) in
  data ← vec_memcpy vec_size bytes;
  Ret (mkMultRow data vec_size).

Definition MultRow_ApplyIncUnsafe (column_id : Z) (u : V) (r : MultiplicativeDenseRow V)
    : outcome (MultiplicativeDenseRow V) :=
  _ ← CHECK (bool_decide (column_id < i32 (Z.of_nat (length (mult_data r)))));
  data ← vec_update v_mul column_id u (mult_data r);
  Ret (mkMultRow data (mult_capacity r)).

Definition MultRow_ApplyInc := MultRow_ApplyIncUnsafe.

Definition MultRow_ApplyBatchIncUnsafe us (r : MultiplicativeDenseRow V)
    : outcome (MultiplicativeDenseRow V) :=
  data ← foldM (fun data '(c, u) => vec_update v_mul c u data) us (mult_data r);
  Ret (mkMultRow data (mult_capacity r)).

Definition MultRow_ApplyBatchInc := MultRow_ApplyBatchIncUnsafe.

Definition MultRow_AddUpdates (u1 u2 : V) : V := v_add u1 u2.
Definition MultRow_SubtractUpdates (u1 u2 : V) : V := v_sub u1 u2.
Definition MultRow_InitUpdate : V := v_one.

Definition MultRow_at (r : MultiplicativeDenseRow V) (column_id : Z) : outcome V :=
  vec_at (mult_data r) column_id.

#[export] Instance DenseRow_row : AbstractRow (DenseRow V) V := {|
  row_init := DenseRow_Init;
  row_serialize := DenseRow_Serialize;
  row_serialized_size := DenseRow_SerializedSize;
  row_deserialize := DenseRow_Deserialize;
  row_apply_inc := DenseRow_ApplyIncUnsafe;
  row_apply_batch_inc := DenseRow_ApplyBatchIncUnsafe;
  row_add_updates := DenseRow_AddUpdates;
  row_subtract_updates := DenseRow_SubtractUpdates;
  row_init_update := DenseRow_InitUpdate;
  row_get := DenseRow_at
|}.

#[export] Instance MultRow_row : AbstractRow (MultiplicativeDenseRow V) V := {|
  row_init := MultRow_Init;
  row_serialize := MultRow_Serialize;
  row_serialized_size := MultRow_SerializedSize;
  row_deserialize := MultRow_Deserialize;
  row_apply_inc := MultRow_ApplyIncUnsafe;
  row_apply_batch_inc := MultRow_ApplyBatchIncUnsafe;
  row_add_updates := MultRow_AddUpdates;
  row_subtract_updates := MultRow_SubtractUpdates;
  row_init_update := MultRow_InitUpdate;
  row_get := MultRow_at
|}.

(** ** Vectors *)

Lemma vec_update_Ret op c u data data' :
  vec_update op c u data = Ret data' <->
  exists v, 0 <= c /\ data !! Z.to_nat c = Some v /\ data' = <[Z.to_nat c := op v u]> data.
Proof.
  unfold vec_update. split.
  - intros E. inv_outcome. apply vec_at_Ret in E0 as [Hc Hv]. exists a.
    unfold vec_set in E. case_bool_decide; by inv_outcome.
  - intros (v & Hc & Hv & ->). rewrite (proj2 (vec_at_Ret data c v)) by done. simpl.
    apply lookup_lt_Some in Hv. unfold vec_set. by rewrite bool_decide_true by lia.
Qed.

Lemma vec_update_length op c u data data' :
  vec_update op c u data = Ret data' -> length data' = length data.
Proof. intros (v & _ & _ & ->)%vec_update_Ret. apply length_insert. Qed.

(** What the updates of column [c] make of [v]. *)
Definition column_fold (op : V -> V -> V) us (c : Z) (v : V) : V :=
  foldl (fun v cu => if bool_decide (cu.1 = c) then op v cu.2 else v) v us.

Lemma vec_updates_spec op us data :
  Forall (fun cu => 0 <= cu.1 < Z.of_nat (length data)) us ->
  exists data', foldM (fun data '(c, u) => vec_update op c u data) us data = Ret data' /\
    length data' = length data /\
    forall c v, 0 <= c -> data !! Z.to_nat c = Some v ->
      data' !! Z.to_nat c = Some (column_fold op us c v).
Proof.
  intros Hc. revert data Hc. induction us as [|[c u] us IH]; intros data Hc.
  { exists data. by split_and!. }
  apply Forall_cons in Hc as [Hc Hus]. simpl in Hc.
  destruct (lookup_lt_is_Some_2 data (Z.to_nat c)) as [v Hv]; [lia|].
  simpl. rewrite (proj2 (vec_update_Ret op c u data (<[Z.to_nat c := op v u]> data)))
    by (exists v; split_and!; [lia|done..]).
  simpl. destruct (IH (<[Z.to_nat c := op v u]> data)) as (data' & -> & Hl & Hget).
  { by rewrite length_insert. }
  exists data'. rewrite length_insert in Hl. split_and!; [done..|].
  intros c' w Hc' Hw. destruct (decide (c = c')) as [->|Hne].
  - rewrite bool_decide_true by done. assert (v = w) as -> by congruence.
    apply Hget; [done|]. apply list_lookup_insert_eq. lia.
  - rewrite bool_decide_false by done. apply Hget; [done|].
    rewrite list_lookup_insert_ne by lia. done.
Qed.

Lemma vec_memcpy_round_trip data :
  Z.of_nat (length data) * v_size < 2 ^ 31 ->
  vec_memcpy (i32 (blen (v_array_bytes data) / v_size)) (v_array_bytes data) = Ret data /\
  i32 (blen (v_array_bytes data) / v_size) = Z.of_nat (length data).
Proof.
  intros Hs. pose proof v_size_pos as Hp. rewrite v_array_bytes_length.
  rewrite Z.mul_comm, Z.div_mul by lia.
  assert (Z.of_nat (length data) < 2 ^ 31) by nia.
  rewrite i32_id by (unfold in_i32; lia). split; [|done].
  unfold vec_memcpy. rewrite bool_decide_false by lia.
  rewrite bool_decide_true by (rewrite v_array_bytes_length; lia).
  rewrite Nat2Z.id. f_equal. rewrite <- (app_nil_r (v_array_bytes data)).
  apply v_array_round_trip.
Qed.

Lemma vec_resize_nil n : 0 <= n -> vec_resize n [] = Ret (replicate (Z.to_nat n) v_zero).
Proof.
  intros Hn. unfold vec_resize. rewrite bool_decide_false by lia.
  by rewrite take_nil, Nat.sub_0_r.
Qed.

(** A row whose bytes fit a 31-bit size. *)
Definition DenseRow_ok (r : DenseRow V) : Prop :=
  dense_capacity r = Z.of_nat (length (dense_data r)) /\ dense_capacity r * v_size < 2 ^ 31.
Definition MultRow_ok (r : MultiplicativeDenseRow V) : Prop :=
  mult_capacity r = Z.of_nat (length (mult_data r)) /\ mult_capacity r * v_size < 2 ^ 31.

#[export] Program Instance DenseRow_row_ok : AbstractRowOk (DenseRow V) V := {|
  row_ok := DenseRow_ok;
  row_eqv := eq
|}.
Next Obligation. by intros r1 r2 c ->. Qed.
Next Obligation. by intros r1 r2 ->. Qed.
Next Obligation.
  intros r [Hc Hs] _. simpl. unfold DenseRow_Serialize, DenseRow_SerializedSize.
  rewrite v_array_bytes_length, u64_id; [lia|]. pose proof v_size_pos. unfold in_u64. nia.
Qed.
Next Obligation.
  intros [data cap] [Hc Hs] _; simpl in *. unfold DenseRow_Deserialize, DenseRow_Serialize. simpl.
  destruct (vec_memcpy_round_trip data) as [-> ->]; [lia|]. simpl. rewrite <- Hc. by eexists.
Qed.
Next Obligation.
  intros c u r r' [Hc Hs] _ E. simpl in E. unfold DenseRow_ApplyIncUnsafe in E.
  apply bind_Ret_inv in E as (? & _ & E). apply bind_Ret_inv in E as (data & E & [= <-]).
  apply vec_update_length in E. unfold DenseRow_ok; simpl. lia.
Qed.

#[export] Program Instance MultRow_row_ok : AbstractRowOk (MultiplicativeDenseRow V) V := {|
  row_ok := MultRow_ok;
  row_eqv := eq
|}.
Next Obligation. by intros r1 r2 c ->. Qed.
Next Obligation. by intros r1 r2 ->. Qed.
Next Obligation.
  intros r [Hc Hs] _. simpl. unfold MultRow_Serialize, MultRow_SerializedSize.
  rewrite v_array_bytes_length, u64_id; [lia|]. pose proof v_size_pos. unfold in_u64. nia.
Qed.
Next Obligation.
  intros [data cap] [Hc Hs] _; simpl in *. unfold MultRow_Deserialize, MultRow_Serialize. simpl.
  destruct (vec_memcpy_round_trip data) as [-> ->]; [lia|]. simpl. rewrite <- Hc. by eexists.
Qed.
Next Obligation.
  intros c u r r' [Hc Hs] _ E. simpl in E. unfold MultRow_ApplyIncUnsafe in E.
  apply bind_Ret_inv in E as (? & _ & E). apply bind_Ret_inv in E as (data & E & [= <-]).
  apply vec_update_length in E. unfold MultRow_ok; simpl. lia.
Qed.

(** Updates one by one are the batch, except for the assertion. *)
Lemma dense_apply_all_batch us r :
  DenseRow_ok r -> Forall (fun cu => 0 <= cu.1 < dense_capacity r) us ->
  row_apply_all us r = DenseRow_ApplyBatchIncUnsafe us r.
Proof.
  unfold DenseRow_ApplyBatchIncUnsafe. intros Hok Hus. revert r Hok Hus.
  induction us as [|[c u] us IH]; intros [data cap] [Hcap Hs] Hus; [done|]. simpl in Hcap, Hs.
  apply Forall_cons in Hus as [Hc Hus]. simpl in Hc. unfold row_apply_all. simpl.
  unfold DenseRow_ApplyIncUnsafe. simpl. pose proof v_size_pos.
  rewrite i32_id by (unfold in_i32; nia).
  rewrite bool_decide_true by lia. simpl.
  destruct (vec_update v_add c u data) as [data'| |] eqn:E; [|done|done]. simpl.
  apply vec_update_length in E.
  apply (IH (mkDenseRow data' cap)); [by split; simpl; lia|done].
Qed.

Lemma mult_apply_all_batch us r :
  MultRow_ok r -> Forall (fun cu => 0 <= cu.1 < mult_capacity r) us ->
  row_apply_all us r = MultRow_ApplyBatchIncUnsafe us r.
Proof.
  unfold MultRow_ApplyBatchIncUnsafe. intros Hok Hus. revert r Hok Hus.
  induction us as [|[c u] us IH]; intros [data cap] [Hcap Hs] Hus; [done|]. simpl in Hcap, Hs.
  apply Forall_cons in Hus as [Hc Hus]. simpl in Hc. unfold row_apply_all. simpl.
  unfold MultRow_ApplyIncUnsafe. simpl. pose proof v_size_pos.
  rewrite i32_id by (unfold in_i32; nia).
  rewrite bool_decide_true by lia. simpl.
  destruct (vec_update v_mul c u data) as [data'| |] eqn:E; [|done|done]. simpl.
  apply vec_update_length in E.
  apply (IH (mkMultRow data' cap)); [by split; simpl; lia|done].
Qed.
End DENSE.

Lemma dense_accumulates {V} `{NumOk V} (us : list (Z * V)) (r : DenseRow V) :
  DenseRow_ok r -> Forall (fun cu => 0 <= cu.1 < dense_capacity r) us ->
  exists r', row_apply_all us r = Ret r' /\ row_apply_batch_inc us r = Ret r' /\
    dense_capacity r' = dense_capacity r /\ DenseRow_ok r' /\
    (forall c v, 0 <= c -> row_get r c = Ret v ->
       row_get r' c = Ret (v_add v (column_sum us c))).
Proof.
  intros Hok Hus. rewrite dense_apply_all_batch by done. simpl.
  unfold DenseRow_ApplyBatchIncUnsafe. destruct Hok as [Hcap Hs].
  destruct (vec_updates_spec v_add us (dense_data r)) as (data & -> & Hl & Hget).
  { by rewrite <- Hcap. }
  simpl. eexists. split_and!; [done|done|done|split; simpl; congruence|]. simpl. unfold DenseRow_at. simpl.
  intros c v Hc [_ Hv]%vec_at_Ret. apply vec_at_Ret. split; [done|].
  rewrite (Hget c v Hc Hv). f_equal. clear -H0. unfold column_fold, column_sum.
  revert v; induction us as [|[c' u] us IH]; intros v; simpl; [by rewrite v_add_zero_r|].
  case_bool_decide; rewrite IH; [|done]. by rewrite v_add_assoc.
Qed.

(** Applying updates to columns of a dense row, one by one or as a batch,
    succeeds, gives the same row, adds to every column the sum of its updates
    and changes no other column or the capacity. *)
Lemma dense_row_accumulates {V} `{NumOk V} (us : list (Z * V)) (r : DenseRow V) :
  DenseRow_ok r -> Forall (fun cu => 0 <= cu.1 < dense_capacity r) us ->
  exists r', row_apply_all us r = Ret r' /\ row_apply_batch_inc us r = Ret r' /\
    dense_capacity r' = dense_capacity r /\
    (forall c v, 0 <= c -> row_get r c = Ret v ->
       row_get r' c = Ret (v_add v (column_sum us c))).
Proof.
  intros Hok Hus. destruct (dense_accumulates us r Hok Hus) as (r' & E & E' & Hc & _ & Hget). by exists r'.
Qed.

(** A multiplicative row starts with zeros, so every sequence of updates
    leaves all its columns zero; and where two updates of a column multiply
    by [u1] and then by [u2], the update that coalesces them ([AddUpdates])
    multiplies by their sum. *)
Lemma multiplicative_row_stays_zero {V} `{NumOk V} (us : list (Z * V)) cap :
  0 <= cap -> cap * v_size < 2 ^ 31 -> Forall (fun cu => 0 <= cu.1 < cap) us ->
  (exists r r', MultRow_Init (V := V) cap = Ret r /\ row_apply_all us r = Ret r' /\
     forall c, 0 <= c < cap -> row_get r' c = Ret v_zero) /\
  (forall (r : MultiplicativeDenseRow V) c v u1 u2, MultRow_ok r -> 0 <= c < mult_capacity r ->
     row_get r c = Ret v ->
     (row_apply_all [(c, u1); (c, u2)] r ≫= fun r' => row_get r' c) = Ret (v_mul (v_mul v u1) u2) /\
     (row_apply_inc c (row_add_updates (R := MultiplicativeDenseRow V) u1 u2) r
        ≫= fun r' => row_get r' c) = Ret (v_mul v (v_add u1 u2))).
Proof.
  intros Hcap Hs Hus. split.
  - unfold MultRow_Init. rewrite vec_resize_nil by done. simpl. rewrite length_replicate.
    set (r := mkMultRow (replicate (Z.to_nat cap) v_zero) cap : MultiplicativeDenseRow V).
    assert (Hok : MultRow_ok r) by (split; simpl; [rewrite length_replicate; lia|done]).
    exists r. rewrite mult_apply_all_batch by done. unfold MultRow_ApplyBatchIncUnsafe.
    destruct (vec_updates_spec v_mul us (mult_data r)) as (data & -> & Hl & Hget).
    { simpl. rewrite length_replicate. eapply Forall_impl; [done|]. simpl; lia. }
    eexists. split_and!; [done..|]. intros c Hc. simpl. unfold MultRow_at. simpl.
    apply vec_at_Ret. split; [lia|]. rewrite (Hget c v_zero); [|lia|].
    + f_equal. clear -H0. unfold column_fold. induction us as [|cu us IH]; [done|]. simpl.
      case_bool_decide; [by rewrite v_mul_zero|done].
    + simpl. apply lookup_replicate_2. lia.
  - intros r c v u1 u2 Hok Hc Hv. apply vec_at_Ret in Hv as [_ Hv].
    assert (Hu : forall us, Forall (fun cu : Z * V => cu.1 = c) us ->
      (row_apply_all us r ≫= fun r' => row_get r' c) = Ret (column_fold v_mul us c v)).
    { intros us' Hus'. rewrite mult_apply_all_batch; [|done|].
      2: { eapply Forall_impl; [done|]. intros [? ?]; simpl; intros ->; done. }
      unfold MultRow_ApplyBatchIncUnsafe.
      destruct (vec_updates_spec v_mul us' (mult_data r)) as (data & -> & Hl & Hget).
      { destruct Hok as [<- _]. eapply Forall_impl; [done|]. intros [? ?]; simpl; intros ->; done. }
      simpl. apply vec_at_Ret. split; [lia|]. apply Hget; [lia|done]. }
    split.
    + rewrite Hu by (repeat constructor). unfold column_fold. simpl.
      by rewrite bool_decide_true by done.
    + assert (E : forall u, row_apply_inc c u r = row_apply_all [(c, u)] r).
      { intros u. unfold row_apply_all. simpl. by destruct (MultRow_ApplyIncUnsafe c u r). }
      rewrite E, Hu by (repeat constructor). unfold column_fold. simpl.
      by rewrite bool_decide_true by done.
Qed.

Definition demo_int (z : Z) : int32 := to_int32 z.

