(* ===== verification/SparseRow.v ===== *)
(** * Sparse rows

    [petuum_ps_common/storage/sparse_row.hpp]: a row of unboundedly many
    columns, stored as a map from column to non-zero value. *)
From S2P Require Import Prelude Bytes Num.
Open Scope Z_scope.

(** ** Ordered maps

    A [std::map] is traversed in key order. *)
Section ENTRIES.
Context {V : Type}.

Definition key_le (p q : Z * V) : Prop := p.1 <= q.1.
#[export] Instance key_le_dec : RelDecision key_le.
Proof. intros p q. unfold key_le. apply _. Defined.

Definition sorted_entries (m : gmap Z V) : list (Z * V) := merge_sort key_le (map_to_list m).

Lemma sorted_entries_perm m : sorted_entries m ≡ₚ map_to_list m.
Proof. apply merge_sort_Permutation. Qed.

Lemma sorted_entries_lookup m c v : (c, v) ∈ sorted_entries m <-> m !! c = Some v.
Proof. by rewrite sorted_entries_perm, elem_of_map_to_list. Qed.

Lemma sorted_entries_sorted m : StronglySorted key_le (sorted_entries m).
Proof.
  apply Sorted_StronglySorted; [intros ???; unfold key_le; lia|].
  apply Sorted_merge_sort. intros p q. unfold key_le. lia.
Qed.

Lemma sorted_entries_map m : list_to_map (sorted_entries m) = m.
Proof.
  rewrite <- (list_to_map_to_list m) at 2. apply list_to_map_proper; [|apply sorted_entries_perm].
  rewrite sorted_entries_perm. apply NoDup_fst_map_to_list.
Qed.

Lemma sorted_entries_NoDup m : NoDup (sorted_entries m).*1.
Proof. rewrite sorted_entries_perm. apply NoDup_fst_map_to_list. Qed.

Lemma sorted_entries_length m : length (sorted_entries m) = size m.
Proof. by rewrite sorted_entries_perm, length_map_to_list. Qed.
End ENTRIES.

Section SPARSE.
Context `{NumOk V}.
Implicit Types us : list (Z * V).

(** [row_data_]. *)
Record SparseRow := mkSparseRow { row_data : gmap Z V }.

Definition SparseRow_at (r : SparseRow) (col_id : Z) : V := default v_zero (row_data r !! col_id).

Definition SparseRow_num_entries (r : SparseRow) : Z := i32 (Z.of_nat (size (row_data r))).

Definition SparseRow_Init (capacity : Z) (r : SparseRow) : SparseRow := r.

Definition SparseRow_Clone (r : SparseRow) : SparseRow := mkSparseRow (row_data r).

Definition sparse_entry_size : Z := 4 + v_size.

Definition SparseRow_SerializedSize (r : SparseRow) : Z :=
  u64 (Z.of_nat (size (row_data r)) * sparse_entry_size).

Definition entry_bytes (e : Z * V) : list Z := cencode I32 e.1 ++ v_bytes e.2.

Definition SparseRow_Serialize (r : SparseRow) : list Z :=
  concat (entry_bytes <$> sorted_entries (row_data r)).

(** The loop of [Deserialize] over the remaining bytes. *)
Fixpoint sparse_read_loop (n : nat) (bytes : list Z) (m : gmap Z V) : gmap Z V :=
  match n with
  | O => m
  | S n' =>
      let col_id := cdecode I32 (take 4 bytes) in
      let val := v_of_bytes (take (Z.to_nat v_size) (drop 4 bytes)) in
      sparse_read_loop n' (drop (Z.to_nat v_size) (drop 4 bytes)) (<[col_id := val]> m)
  end.

Definition SparseRow_Deserialize (bytes : list Z) : outcome SparseRow :=
  _ ← CHECK (bool_decide (blen bytes mod sparse_entry_size = 0));
  let num_entries := i32 (blen bytes / sparse_entry_size) in
  Ret (mkSparseRow (sparse_read_loop (Z.to_nat num_entries) bytes ∅)).

(** [row_data_[c] += u], then the entry is erased if it is zero. *)
Definition SparseRow_ApplyIncUnsafe (column_id : Z) (u : V) (r : SparseRow) : SparseRow :=
  let v := v_add (default v_zero (row_data r !! column_id)) u in
  mkSparseRow (if bool_decide (v = v_zero) then delete column_id (<[column_id := v]> (row_data r))
               else <[column_id := v]> (row_data r)).

(** Under the row's mutex. *)
Definition SparseRow_ApplyInc := SparseRow_ApplyIncUnsafe.

Fixpoint SparseRow_ApplyBatchIncUnsafe us (r : SparseRow) : SparseRow :=
  match us with
  | [] => r
  | (col_id, u) :: us' =>
      let v := v_add (default v_zero (row_data r !! col_id)) u in
      let m := <[col_id := v]> (row_data r) in
      SparseRow_ApplyBatchIncUnsafe us'
        (mkSparseRow (if bool_decide (v = v_zero) then delete col_id m else m))
  end.

Definition SparseRow_ApplyBatchInc := SparseRow_ApplyBatchIncUnsafe.

Definition SparseRow_AddUpdates (u1 u2 : V) : V := v_add u1 u2.
Definition SparseRow_SubtractUpdates (u1 u2 : V) : V := v_sub u1 u2.
Definition SparseRow_InitUpdate : V := v_zero.

(** *** [const_iterator]: a position in the map. *)
Record sparse_iterator := mkSparseIter { it_entries : list (Z * V); it_pos : Z }.

Definition sparse_cbegin (r : SparseRow) : sparse_iterator :=
  mkSparseIter (sorted_entries (row_data r)) 0.
Definition sparse_cend (r : SparseRow) : sparse_iterator :=
  let l := sorted_entries (row_data r) in mkSparseIter l (Z.of_nat (length l)).
Definition sparse_is_begin (i : sparse_iterator) : bool := bool_decide (it_pos i = 0).
Definition sparse_is_end (i : sparse_iterator) : bool :=
  bool_decide (it_pos i = Z.of_nat (length (it_entries i))).

Definition sparse_arrow (i : sparse_iterator) : outcome (Z * V) :=
  _ ← CHECK (negb (sparse_is_end i)); vec_at (it_entries i) (it_pos i).
Definition sparse_deref (i : sparse_iterator) : outcome V := snd <$> sparse_arrow i.
Definition sparse_next (i : sparse_iterator) : outcome sparse_iterator :=
  _ ← CHECK (negb (sparse_is_end i)); Ret (mkSparseIter (it_entries i) (it_pos i + 1)).
Definition sparse_prev (i : sparse_iterator) : outcome sparse_iterator :=
  _ ← CHECK (negb (sparse_is_begin i)); Ret (mkSparseIter (it_entries i) (it_pos i - 1)).

(** [for (it = row.cbegin(); !it.is_end(); ++it)]; [Undef] without fuel. *)
Fixpoint sparse_walk (fuel : nat) (i : sparse_iterator) : outcome (list (Z * V)) :=
  if sparse_is_end i then Ret []
  else match fuel with
       | O => Undef
       | S fuel' => e ← sparse_arrow i; i' ← sparse_next i;
                    rest ← sparse_walk fuel' i'; Ret (e :: rest)
       end.

#[export] Instance SparseRow_row : AbstractRow SparseRow V := {|
  row_init := fun _ => Ret (mkSparseRow ∅);
  row_serialize := SparseRow_Serialize;
  row_serialized_size := SparseRow_SerializedSize;
  row_deserialize := SparseRow_Deserialize;
  row_apply_inc := fun c u r => Ret (SparseRow_ApplyIncUnsafe c u r);
  row_apply_batch_inc := fun us r => Ret (SparseRow_ApplyBatchIncUnsafe us r);
  row_add_updates := SparseRow_AddUpdates;
  row_subtract_updates := SparseRow_SubtractUpdates;
  row_init_update := SparseRow_InitUpdate;
  row_get := fun r c => Ret (SparseRow_at r c)
|}.

(** Columns are 32-bit and no stored value is zero. *)
Definition SparseRow_ok (r : SparseRow) : Prop :=
  forall c v, row_data r !! c = Some v -> in_i32 c /\ v <> v_zero.

Lemma entry_bytes_length e : blen (entry_bytes e) = sparse_entry_size.
Proof.
  unfold entry_bytes, sparse_entry_size, blen. rewrite length_app.
  pose proof (blen_cencode I32 e.1) as H1. pose proof (v_bytes_length e.2) as H2.
  unfold blen in *. simpl csize in *. lia.
Qed.

Lemma entries_bytes_length (l : list (Z * V)) :
  blen (concat (entry_bytes <$> l)) = Z.of_nat (length l) * sparse_entry_size.
Proof.
  induction l as [|e l IH]; [done|]. rewrite fmap_cons. cbn [concat length].
  pose proof (entry_bytes_length e). unfold blen in *. rewrite length_app. lia.
Qed.

Lemma sparse_read_loop_entries (l : list (Z * V)) m :
  Forall (fun e => in_i32 e.1) l ->
  sparse_read_loop (length l) (concat (entry_bytes <$> l)) m
  = foldl (fun m e => <[e.1 := e.2]> m) m l.
Proof.
  intros Hl. revert m. induction Hl as [|[c v] l Hc _ IH]; intros m; [done|].
  rewrite fmap_cons. cbn [concat length sparse_read_loop foldl].
  change (entry_bytes (c, v)) with (cencode I32 c ++ v_bytes v). simpl fst. simpl snd.
  rewrite <- !app_assoc.
  assert (H4 : length (cencode I32 c) = 4%nat) by apply length_le_split.
  rewrite (take_app_length' (cencode I32 c)), (drop_app_length' (cencode I32 c)) by done.
  rewrite take_v_bytes, drop_v_bytes, v_bytes_round_trip, cdecode_cencode by done. apply IH.
Qed.

Lemma foldl_insert_list_to_map (l : list (Z * V)) (m : gmap Z V) :
  NoDup l.*1 ->
  foldl (fun m e => <[e.1 := e.2]> m) m l = (list_to_map l : gmap Z V) ∪ m.
Proof.
  revert m. induction l as [|[c v] l IH]; intros m Hnd; simpl; [by rewrite map_empty_union|].
  apply NoDup_cons in Hnd as [Hc Hnd]. rewrite IH by done. simpl.
  rewrite <- insert_union_r by (by apply not_elem_of_list_to_map_1). by rewrite insert_union_l.
Qed.

#[export] Program Instance SparseRow_row_ok : AbstractRowOk SparseRow V := {|
  row_ok := SparseRow_ok;
  row_eqv := eq
|}.
Next Obligation. by intros r1 r2 c ->. Qed.
Next Obligation. by intros r1 r2 ->. Qed.
Next Obligation.
  intros r Hok Hs. simpl in *. unfold SparseRow_Serialize, SparseRow_SerializedSize in *.
  rewrite entries_bytes_length, sorted_entries_length in *. rewrite u64_id; [done|].
  pose proof v_size_pos. unfold sparse_entry_size, in_u64 in *. nia.
Qed.
Next Obligation.
  intros [m] Hok Hs. simpl in *. unfold SparseRow_Deserialize, SparseRow_Serialize in *. simpl in *.
  rewrite entries_bytes_length in *. pose proof v_size_pos.
  assert (0 < sparse_entry_size) by (unfold sparse_entry_size; lia).
  rewrite bool_decide_true by (by apply Z.mod_mul; lia). simpl.
  rewrite Z.div_mul, i32_id by (unfold in_i32; nia). rewrite Nat2Z.id.
  eexists. split; [done|]. rewrite sparse_read_loop_entries.
  - rewrite foldl_insert_list_to_map by apply sorted_entries_NoDup.
    by rewrite sorted_entries_map, map_union_empty.
  - apply Forall_forall. intros [c v] Hc%sorted_entries_lookup. by apply (Hok c v).
Qed.
Next Obligation.
  intros c u r r' Hok Hc [= <-] c' v. unfold SparseRow_ApplyIncUnsafe. simpl.
  case_bool_decide as Hz.
  - rewrite delete_insert_eq. intros [_ Hv]%lookup_delete_Some. by apply (Hok c').
  - intros [[<- <-]|[_ Hv]]%lookup_insert_Some; [done|]. by apply (Hok c').
Qed.

Lemma sparse_inc_at c u r c' :
  SparseRow_at (SparseRow_ApplyIncUnsafe c u r) c' =
    if bool_decide (c = c') then v_add (SparseRow_at r c') u else SparseRow_at r c'.
Proof.
  unfold SparseRow_ApplyIncUnsafe, SparseRow_at. simpl.
  repeat case_bool_decide; subst.
  - by rewrite lookup_delete_eq.
  - by rewrite lookup_delete_ne, lookup_insert_ne by done.
  - by rewrite lookup_insert_eq.
  - by rewrite lookup_insert_ne by done.
Qed.

Lemma sparse_batch_all us r : row_apply_all us r = Ret (SparseRow_ApplyBatchIncUnsafe us r).
Proof.
  revert r. induction us as [|[c u] us IH]; intros r; [done|]. unfold row_apply_all. simpl.
  apply IH.
Qed.

Lemma sparse_walk_spec l1 l2 :
  sparse_walk (length l2) (mkSparseIter (l1 ++ l2) (Z.of_nat (length l1))) = Ret l2.
Proof.
  revert l1. induction l2 as [|e l2 IH]; intros l1; simpl.
  - unfold sparse_is_end. simpl. rewrite bool_decide_true; [done|]. by rewrite app_nil_r.
  - unfold sparse_is_end. simpl. rewrite bool_decide_false by (rewrite length_app; simpl; lia).
    unfold sparse_arrow, sparse_next, sparse_is_end. simpl.
    rewrite bool_decide_false by (rewrite length_app; simpl; lia). simpl.
    rewrite (proj2 (vec_at_Ret (l1 ++ e :: l2) (Z.of_nat (length l1)) e)).
    + simpl. replace (Z.of_nat (length l1) + 1) with (Z.of_nat (length (l1 ++ [e])))
        by (rewrite length_app; simpl; lia).
      replace (l1 ++ e :: l2) with ((l1 ++ [e]) ++ l2) by (by rewrite <- app_assoc).
      by rewrite IH.
    + split; [lia|]. rewrite Nat2Z.id. by rewrite list_lookup_middle.
Qed.
End SPARSE.
Arguments SparseRow : clear implicits.

Definition demo_sparse : SparseRow int32 :=
  mkSparseRow {[ 9 := to_int32 4; -2 := to_int32 1; 3 := to_int32 (-7) ]}.

Lemma sparse_accumulates {V} `{NumOk V} (us : list (Z * V)) (r : SparseRow V) :
  SparseRow_ok r -> Forall (fun cu => in_i32 cu.1) us ->
  SparseRow_ok (SparseRow_ApplyBatchIncUnsafe us r) /\
  (forall c, SparseRow_at (SparseRow_ApplyBatchIncUnsafe us r) c = v_add (SparseRow_at r c) (column_sum us c)).
Proof.
  intros Hok Hus. split; [exact (row_apply_all_ok us r _ Hus Hok (sparse_batch_all us r))|].
  intros c. clear Hok Hus. revert r. induction us as [|[c' u] us IH]; intros r.
  - simpl. by rewrite v_add_zero_r.
  - change (SparseRow_ApplyBatchIncUnsafe ((c', u) :: us) r)
      with (SparseRow_ApplyBatchIncUnsafe us (SparseRow_ApplyIncUnsafe c' u r)).
    rewrite IH, sparse_inc_at. simpl. case_bool_decide; [|done]. by rewrite v_add_assoc.
Qed.

(** Updates of a sparse row, one by one or as a batch, give the same row; the
    value of every column is its former value (0 when absent) plus the sum of
    its updates, and no zero is ever stored. *)
Lemma sparse_row_accumulates {V} `{NumOk V} (us : list (Z * V)) (r : SparseRow V) :
  SparseRow_ok r -> Forall (fun cu => in_i32 cu.1) us ->
  exists r', row_apply_all us r = Ret r' /\ row_apply_batch_inc us r = Ret r' /\
    SparseRow_ok r' /\
    (forall c, SparseRow_at r' c = v_add (SparseRow_at r c) (column_sum us c)) /\
    (forall c, is_Some (row_data r' !! c) <->
               v_add (SparseRow_at r c) (column_sum us c) <> v_zero).
Proof.
  intros Hok Hus. exists (SparseRow_ApplyBatchIncUnsafe us r). rewrite sparse_batch_all.
  destruct (sparse_accumulates us r Hok Hus) as [Hok' Hat]. split_and!; [done..|].
  intros c. rewrite <- Hat. unfold SparseRow_at. split.
  - intros [v Hv]. rewrite Hv. simpl. by destruct (Hok' c v Hv).
  - destruct (_ !! c); [eauto|done].
Qed.

(** The iterator of a sparse row visits its entries once each, in increasing
    column order, and moving or reading past the last one aborts. *)
Lemma sparse_iterator_in_order {V} `{NumOk V} (r : SparseRow V) :
  sparse_walk (size (row_data r)) (sparse_cbegin r) = Ret (sorted_entries (row_data r)) /\
  StronglySorted (fun p q : Z * V => p.1 <= q.1) (sorted_entries (row_data r)) /\
  NoDup (sorted_entries (row_data r)).*1 /\
  (forall c v, (c, v) ∈ sorted_entries (row_data r) <-> row_data r !! c = Some v) /\
  sparse_next (sparse_cend r) = CheckFail /\ sparse_deref (sparse_cend r) = CheckFail /\
  sparse_prev (sparse_cbegin r) = CheckFail.
Proof.
  split_and!.
  - rewrite <- (sorted_entries_length (row_data r)). apply (sparse_walk_spec []).
  - apply sorted_entries_sorted.
  - apply sorted_entries_NoDup.
  - apply sorted_entries_lookup.
  - unfold sparse_next, sparse_is_end, sparse_cend. simpl. by rewrite bool_decide_true.
  - unfold sparse_deref, sparse_arrow, sparse_is_end, sparse_cend. simpl. by rewrite bool_decide_true.
  - done.
Qed.

