(* ===== verification/SortedRow.v ===== *)
(** * Rows sorted by value

    [petuum_ps_common/storage/sorted_vector_map_row.hpp]: a row of (column,
    value) entries kept in descending order of value in an array that grows
    and shrinks in blocks. *)
From S2P Require Import Prelude Bytes Num DenseRow SparseRow.
Open Scope Z_scope.

Section SORTED.
Context `{NumOk V}.
Implicit Types (l : list (Z * V)) (us : list (Z * V)).

(** [sv_entries] is the used part of the array: its length is
    [num_entries_]. *)
Record SortedVectorMapRow := mkSortedRow { sv_entries : list (Z * V); sv_capacity : Z }.

Definition K_BLOCK_SIZE_ : Z := 10.
Definition sv_num_entries (r : SortedVectorMapRow) : Z := Z.of_nat (length (sv_entries r)).

(** *** Private methods *)

Fixpoint find_index (column_id i : Z) l : Z :=
  match l with
  | [] => -1
  | e :: l' => if bool_decide (e.1 = column_id) then i else find_index column_id (i + 1) l'
  end.

Definition FindIndex (column_id : Z) (r : SortedVectorMapRow) : Z :=
  find_index column_id 0 (sv_entries r).

(** How far the loops of [OneSidedBubbleSort] get. *)
Fixpoint scan_while (test : V -> bool) l : nat :=
  match l with
  | [] => 0
  | e :: l' => if test e.2 then S (scan_while test l') else 0
  end.

(** The [memmove]s: entry [idx] goes [n] places forward or backward. *)
Definition move_forward (idx n : nat) l : list (Z * V) :=
  match l !! idx with
  | Some tmp => take idx l ++ take n (drop (S idx) l) ++ tmp :: drop (S idx + n) l
  | None => l
  end.
Definition move_backward (idx n : nat) l : list (Z * V) :=
  match l !! idx with
  | Some tmp => take (idx - n) l ++ tmp :: take n (drop (idx - n) l) ++ drop (S idx) l
  | None => l
  end.

Definition OneSidedBubbleSort (vector_idx : nat) (forward : bool) l : list (Z * V) :=
  match l !! vector_idx with
  | None => l
  | Some (_, val) =>
      if forward then
        let n := scan_while (fun w => bool_decide (v_lt val w)) (drop (S vector_idx) l) in
        if bool_decide (0 < n)%nat then move_forward vector_idx n l else l
      else
        let n := scan_while (fun w => bool_decide (v_lt w val)) (rev (take vector_idx l)) in
        if bool_decide (0 < n)%nat then move_backward vector_idx n l else l
  end.

(** The new capacity. *)
Definition ResetCapacity (new_capacity num_entries : Z) : outcome Z :=
  _ ← CHECK (bool_decide (num_entries <= new_capacity));
  let remainder := Z.rem new_capacity K_BLOCK_SIZE_ in
  Ret (if bool_decide (remainder <> 0) then i32 (new_capacity + (K_BLOCK_SIZE_ - remainder))
       else new_capacity).

Definition RemoveOneEntryAndCompact (vector_idx : nat) (r : SortedVectorMapRow)
    : outcome SortedVectorMapRow :=
  let entries := take vector_idx (sv_entries r) ++ drop (S vector_idx) (sv_entries r) in
  let num_entries := sv_num_entries r - 1 in
  if bool_decide (sv_capacity r - num_entries >= 2 * K_BLOCK_SIZE_) then
    capacity ← ResetCapacity num_entries num_entries;
    Ret (mkSortedRow entries capacity)
  else Ret (mkSortedRow entries (sv_capacity r)).

(** *** [AbstractRow] *)

(** [new Entry<V>[n]] throws for a negative [n]. *)
Definition SortedRow_Init (capacity : Z) : outcome SortedVectorMapRow :=
  if bool_decide (capacity < 0) then CheckFail else Ret (mkSortedRow [] capacity).

Definition SortedRow_at (r : SortedVectorMapRow) (column_id : Z) : outcome V :=
  let vector_idx := FindIndex column_id r in
  if bool_decide (vector_idx = -1) then Ret v_zero
  else snd <$> vec_at (sv_entries r) vector_idx.

Definition SortedRow_Clone (r : SortedVectorMapRow) : outcome SortedVectorMapRow :=
  new_row ← SortedRow_Init (sv_capacity r);
  if bool_decide (sv_num_entries r <= sv_capacity new_row)
  then Ret (mkSortedRow (sv_entries r) (sv_capacity r)) else Undef.

(** [Entry<V>]: the second member is aligned to its size, of at least 4; the
    padding bytes are indeterminate and written as 0 here. *)
Definition entry_align : Z := Z.max 4 v_size.
Definition sv_entry_size : Z := 2 * entry_align.
Definition sv_entry_bytes (e : Z * V) : list Z :=
  cencode I32 e.1 ++ replicate (Z.to_nat (entry_align - 4)) 0
    ++ v_bytes e.2 ++ replicate (Z.to_nat (entry_align - v_size)) 0.
Definition sv_entry_of_bytes (bs : list Z) : Z * V :=
  (cdecode I32 (take 4 bs),
   v_of_bytes (take (Z.to_nat v_size) (drop (Z.to_nat entry_align) bs))).

Definition SortedRow_SerializedSize (r : SortedVectorMapRow) : Z :=
  u64 (sv_num_entries r * sv_entry_size).

Definition SortedRow_Serialize (r : SortedVectorMapRow) : list Z :=
  concat (sv_entry_bytes <$> sv_entries r).

Fixpoint sv_entries_of_bytes (n : nat) (bs : list Z) : list (Z * V) :=
  match n with
  | O => []
  | S n' => sv_entry_of_bytes (take (Z.to_nat sv_entry_size) bs)
              :: sv_entries_of_bytes n' (drop (Z.to_nat sv_entry_size) bs)
  end.

Definition SortedRow_Deserialize (bytes : list Z) : outcome SortedVectorMapRow :=
  _ ← CHECK (bool_decide (blen bytes mod sv_entry_size = 0));
  let num_entries := i32 (blen bytes / sv_entry_size) in
  r ← SortedRow_Init num_entries;
  Ret (mkSortedRow (sv_entries_of_bytes (Z.to_nat num_entries) bytes) (sv_capacity r)).

(** Appends an entry, growing the array if it is full. *)
Definition add_new_entry (column_id : Z) (u : V) (r : SortedVectorMapRow)
    : outcome SortedVectorMapRow :=
  capacity ← (if bool_decide (sv_num_entries r = sv_capacity r)
              then ResetCapacity (i32 (sv_capacity r + K_BLOCK_SIZE_)) (sv_num_entries r)
              else Ret (sv_capacity r));
  if bool_decide (sv_num_entries r < capacity)
  then Ret (mkSortedRow (sv_entries r ++ [(column_id, u)]) capacity) else Undef.

Definition SortedRow_ApplyIncUnsafe (column_id : Z) (u : V) (r : SortedVectorMapRow)
    : outcome SortedVectorMapRow :=
  let vector_idx := FindIndex column_id r in
  if bool_decide (vector_idx <> -1) then
    '(c, v) ← vec_at (sv_entries r) vector_idx;
    let idx := Z.to_nat vector_idx in
    let r1 := mkSortedRow (<[idx := (c, v_add v u)]> (sv_entries r)) (sv_capacity r) in
    if bool_decide (v_add v u = v_zero) then RemoveOneEntryAndCompact idx r1
    else
      let forward := bool_decide (v_le u v_zero) in
      Ret (mkSortedRow (OneSidedBubbleSort idx forward (sv_entries r1)) (sv_capacity r))
  else
    r1 ← add_new_entry column_id u r;
    Ret (mkSortedRow
      (OneSidedBubbleSort (length (sv_entries r1) - 1) false (sv_entries r1)) (sv_capacity r1)).

(** Under the row's mutex. *)
Definition SortedRow_ApplyInc := SortedRow_ApplyIncUnsafe.

(** One iteration of the loop of [ApplyBatchIncUnsafe]. *)
Definition batch_step (r : SortedVectorMapRow) (cu : Z * V) : outcome SortedVectorMapRow :=
  let vector_idx := FindIndex cu.1 r in
  if bool_decide (vector_idx <> -1) then
    '(c, v) ← vec_at (sv_entries r) vector_idx;
    let idx := Z.to_nat vector_idx in
    let r1 := mkSortedRow (<[idx := (c, v_add v cu.2)]> (sv_entries r)) (sv_capacity r) in
    if bool_decide (v_add v cu.2 = v_zero) then RemoveOneEntryAndCompact idx r1 else Ret r1
  else add_new_entry cu.1 cu.2 r.

(** The order of [std::sort], which leaves the order of equal values open. *)
Definition value_ge (p q : Z * V) : Prop := v_le q.2 p.2.
#[export] Instance value_ge_dec : RelDecision value_ge.
Proof. intros p q. unfold value_ge. apply _. Defined.

Definition SortedRow_ApplyBatchIncUnsafe us (r : SortedVectorMapRow)
    : outcome SortedVectorMapRow :=
  r' ← foldM batch_step us r;
  Ret (mkSortedRow (merge_sort value_ge (sv_entries r')) (sv_capacity r')).

Definition SortedRow_ApplyBatchInc := SortedRow_ApplyBatchIncUnsafe.

Definition SortedRow_AddUpdates (u1 u2 : V) : V := v_add u1 u2.
Definition SortedRow_SubtractUpdates (u1 u2 : V) : V := v_sub u1 u2.
Definition SortedRow_InitUpdate : V := v_zero.

(** *** [const_iterator] *)
Record sv_iterator := mkSvIter { svi_entries : list (Z * V); svi_curr : Z }.

Definition sv_cbegin (r : SortedVectorMapRow) : sv_iterator := mkSvIter (sv_entries r) 0.
Definition sv_cend (r : SortedVectorMapRow) : sv_iterator :=
  mkSvIter (sv_entries r) (sv_num_entries r).
Definition svi_is_begin (i : sv_iterator) : bool := bool_decide (svi_curr i = 0).
Definition svi_is_end (i : sv_iterator) : bool :=
  bool_decide (svi_curr i = Z.of_nat (length (svi_entries i))).
Definition svi_arrow (i : sv_iterator) : outcome (Z * V) :=
  _ ← CHECK (negb (svi_is_end i)); vec_at (svi_entries i) (svi_curr i).
Definition svi_next (i : sv_iterator) : outcome sv_iterator :=
  _ ← CHECK (negb (svi_is_end i)); Ret (mkSvIter (svi_entries i) (svi_curr i + 1)).
Definition svi_prev (i : sv_iterator) : outcome sv_iterator :=
  _ ← CHECK (negb (svi_is_begin i)); Ret (mkSvIter (svi_entries i) (svi_curr i - 1)).

#[export] Instance SortedRow_row : AbstractRow SortedVectorMapRow V := {|
  row_init := SortedRow_Init;
  row_serialize := SortedRow_Serialize;
  row_serialized_size := SortedRow_SerializedSize;
  row_deserialize := SortedRow_Deserialize;
  row_apply_inc := SortedRow_ApplyIncUnsafe;
  row_apply_batch_inc := SortedRow_ApplyBatchIncUnsafe;
  row_add_updates := SortedRow_AddUpdates;
  row_subtract_updates := SortedRow_SubtractUpdates;
  row_init_update := SortedRow_InitUpdate;
  row_get := SortedRow_at
|}.
End SORTED.
Arguments SortedVectorMapRow : clear implicits.

(** ** Moving an entry *)

Section SORTED_THEORY.
Context `{NumOk V}.
Implicit Types (l : list (Z * V)) (us : list (Z * V)).

Lemma scan_while_spec test l :
  exists l1 l2, l = l1 ++ l2 /\ scan_while test l = length l1 /\
    (forall e, e ∈ l1 -> test e.2 = true) /\ (forall e, head l2 = Some e -> test e.2 = false).
Proof.
  induction l as [|e l IH]; simpl.
  - exists [], []. split_and!; [done..|by intros e ?%elem_of_nil|done].
  - destruct (test e.2) eqn:E.
    + destruct IH as (l1 & l2 & -> & -> & H1 & H2). exists (e :: l1), l2.
      split_and!; [done..| |done]. intros e' [->|?]%elem_of_cons; auto.
    + exists [], (e :: l). split_and!; [done..|by intros e' ?%elem_of_nil|].
      by intros e' [= <-].
Qed.

Lemma bubble_forward pre x post :
  exists post1 post2, post = post1 ++ post2 /\
    OneSidedBubbleSort (length pre) true (pre ++ x :: post) = pre ++ post1 ++ x :: post2 /\
    (forall e, e ∈ post1 -> v_lt x.2 e.2) /\ (forall e, head post2 = Some e -> v_le e.2 x.2).
Proof.
  destruct x as [c v]. unfold OneSidedBubbleSort. rewrite list_lookup_middle by done.
  assert (Hd : drop (S (length pre)) (pre ++ (c, v) :: post) = post).
  { rewrite drop_app_ge by lia. by replace (S (length pre) - length pre)%nat with 1%nat by lia. }
  rewrite Hd. destruct (scan_while_spec (fun w => bool_decide (v_lt v w)) post)
    as (l1 & l2 & -> & -> & H1 & H2).
  exists l1, l2. split; [done|]. split; [|split].
  - assert (E : move_forward (length pre) (length l1) (pre ++ (c, v) :: l1 ++ l2)
                = pre ++ l1 ++ (c, v) :: l2).
    { unfold move_forward. rewrite list_lookup_middle by done. rewrite Hd, take_app_length.
      f_equal. rewrite take_app_length. do 2 f_equal. rewrite drop_app_ge by lia.
      replace (S (length pre) + length l1 - length pre)%nat with (S (length l1)) by lia.
      simpl. by rewrite drop_app_length. }
    rewrite E. case_bool_decide; [done|]. by destruct l1; [|simpl in *; lia].
  - intros e He. specialize (H1 e He). by apply bool_decide_eq_true in H1.
  - intros e He. specialize (H2 e He). apply bool_decide_eq_false in H2. by apply v_not_lt_le.
Qed.

Lemma bubble_backward pre x post :
  exists pre1 pre2, pre = pre1 ++ pre2 /\
    OneSidedBubbleSort (length pre) false (pre ++ x :: post) = pre1 ++ x :: pre2 ++ post /\
    (forall e, e ∈ pre2 -> v_lt e.2 x.2) /\ (forall e, last pre1 = Some e -> v_le x.2 e.2).
Proof.
  destruct x as [c v]. unfold OneSidedBubbleSort. rewrite list_lookup_middle by done.
  rewrite take_app_length.
  destruct (scan_while_spec (fun w => bool_decide (v_lt w v)) (rev pre))
    as (l1 & l2 & Hl & -> & H1 & H2).
  assert (Hp : pre = rev l2 ++ rev l1) by (by rewrite <- rev_app_distr, <- Hl, rev_involutive).
  exists (rev l2), (rev l1). split; [done|]. split; [|split].
  - assert (E : move_backward (length pre) (length l1) (pre ++ (c, v) :: post)
                = rev l2 ++ (c, v) :: rev l1 ++ post).
    { unfold move_backward. rewrite list_lookup_middle by done.
      replace (length pre - length l1)%nat with (length (rev l2))
        by (rewrite Hp, length_app, !length_rev; lia).
      assert (length pre = (length (rev l2) + length (rev l1))%nat) as ->
        by (rewrite Hp, length_app; lia).
      rewrite Hp, <- !app_assoc. rewrite take_app_length, drop_app_length. f_equal. f_equal.
      replace (length l1) with (length (rev l1)) by apply length_rev.
      rewrite take_app_length. f_equal. rewrite (app_assoc (rev l2)), drop_app_ge
        by (rewrite length_app; lia). rewrite length_app.
      by replace (S (length (rev l2) + length (rev l1)) - (length (rev l2) + length (rev l1)))%nat
        with 1%nat by lia. }
    rewrite E. case_bool_decide; [done|]. assert (l1 = []) as -> by (destruct l1; [done|simpl in *; lia]).
    rewrite Hp. simpl. by rewrite app_nil_r.
  - intros e He. rewrite elem_of_rev in He. specialize (H1 e He). by apply bool_decide_eq_true in H1.
  - intros e He. assert (He' : head l2 = Some e).
    { destruct l2 as [|a l2]; [done|]. simpl in He. by rewrite last_snoc in He. }
    specialize (H2 e He'). apply bool_decide_eq_false in H2. by apply v_not_lt_le.
Qed.

Lemma bubble_perm idx fwd l : OneSidedBubbleSort idx fwd l ≡ₚ l.
Proof.
  destruct (l !! idx) as [x|] eqn:E.
  - apply list_elem_of_split_length in E as (pre & post & -> & ->). destruct fwd.
    + destruct (bubble_forward pre x post) as (p1 & p2 & -> & -> & _).
      by rewrite (Permutation_middle p1).
    + destruct (bubble_backward pre x post) as (p1 & p2 & -> & -> & _).
      rewrite <- app_assoc. apply Permutation_app_head, Permutation_middle.
  - unfold OneSidedBubbleSort. by rewrite E.
Qed.

Lemma value_ge_trans (p q r : Z * V) : value_ge p q -> value_ge q r -> value_ge p r.
Proof. unfold value_ge. intros. by eapply v_le_trans. Qed.

(** A sorted list below which [x] fits. *)
Lemma sorted_insert_forward pre x post1 post2 :
  StronglySorted value_ge (pre ++ post1 ++ post2) ->
  (forall e, e ∈ pre -> value_ge e x) -> (forall e, e ∈ post1 -> v_lt x.2 e.2) ->
  (forall e, head post2 = Some e -> v_le e.2 x.2) ->
  StronglySorted value_ge (pre ++ post1 ++ x :: post2).
Proof.
  intros Hs Hpre H1 H2. rewrite !app_assoc in *. apply StronglySorted_app_iff in Hs as (Ha & Hb & Hab).
  apply StronglySorted_app_iff.
  assert (Hx : forall e, e ∈ post2 -> value_ge x e).
  { destruct post2 as [|b post2]; [by intros e ?%elem_of_nil|].
    specialize (H2 b eq_refl). apply StronglySorted_inv in Hb as [_ Hb].
    rewrite Forall_forall in Hb. intros e [->|He]%elem_of_cons; [done|].
    eapply value_ge_trans; [|by apply Hb]. done. }
  split_and!; [done| |].
  - constructor; [done|]. by apply Forall_forall.
  - intros a b Ha' [->|Hb']%elem_of_cons; [|by apply Hab].
    apply elem_of_app in Ha' as [?|Hp1]; [auto|]. left. auto.
Qed.

Lemma sorted_insert_backward pre1 x pre2 post :
  StronglySorted value_ge (pre1 ++ pre2 ++ post) ->
  (forall e, e ∈ post -> value_ge x e) -> (forall e, e ∈ pre2 -> v_lt e.2 x.2) ->
  (forall e, last pre1 = Some e -> v_le x.2 e.2) ->
  StronglySorted value_ge (pre1 ++ x :: pre2 ++ post).
Proof.
  intros Hs Hpost H1 H2. apply StronglySorted_app_iff in Hs as (Ha & Hb & Hab).
  apply StronglySorted_app_iff.
  assert (Hx : forall e, e ∈ pre1 -> value_ge e x).
  { destruct (last pre1) as [b|] eqn:E; [|apply last_None in E as ->; by intros e ?%elem_of_nil].
    specialize (H2 b eq_refl). apply last_Some in E as [pre ->].
    apply StronglySorted_app_iff in Ha as (_ & _ & Ha).
    intros e [He| ->%list_elem_of_singleton]%elem_of_app; [|done].
    eapply value_ge_trans; [apply Ha; [done|by left]|]. done. }
  split_and!; [done| |].
  - constructor; [done|]. apply Forall_forall. intros e [He|He]%elem_of_app; [|auto].
    left. auto.
  - intros a b Ha' [->|Hb']%elem_of_cons; auto.
Qed.

(** ** The map a row stores *)

Definition sv_map (r : SortedVectorMapRow V) : gmap Z V := list_to_map (sv_entries r).

(** Distinct 32-bit columns in an array that holds them. *)
Record sv_wf (r : SortedVectorMapRow V) : Prop := {
  sv_nodup : NoDup (sv_entries r).*1;
  sv_columns : Forall (fun e => in_i32 e.1) (sv_entries r);
  sv_fits : sv_num_entries r <= sv_capacity r < 2 ^ 31
}.

Definition SortedRow_ok (r : SortedVectorMapRow V) : Prop :=
  sv_wf r /\ StronglySorted value_ge (sv_entries r).

Lemma sv_wf_perm r l : sv_wf r -> l ≡ₚ sv_entries r ->
  sv_wf (mkSortedRow l (sv_capacity r)) /\ sv_map (mkSortedRow l (sv_capacity r)) = sv_map r.
Proof.
  intros [Hn Hc Hf] Hp. assert (Hn' : NoDup l.*1) by (by rewrite Hp).
  split; [constructor; simpl|].
  - done.
  - by rewrite Hp.
  - unfold sv_num_entries in *. simpl. by rewrite Hp.
  - unfold sv_map. simpl. by apply list_to_map_proper.
Qed.

Lemma find_index_None c i l : 0 <= i -> find_index c i l = -1 <-> c ∉ l.*1.
Proof.
  revert i. induction l as [|[c' v] l IH]; intros i Hi; simpl; [split; [intros _; apply not_elem_of_nil|done]|].
  case_bool_decide as Hc; simpl in Hc; subst.
  - split; [lia|]. intros Hn. exfalso. apply Hn. by left.
  - rewrite IH, not_elem_of_cons by lia. simpl. split; [intros; by split; [congruence|]|tauto].
Qed.

Lemma find_index_Some c i (pre : list (Z * V)) v post : c ∉ pre.*1 ->
  find_index c i (pre ++ (c, v) :: post) = i + Z.of_nat (length pre).
Proof.
  revert i. induction pre as [|[c' w] pre IH]; intros i Hc; simpl.
  - rewrite bool_decide_true by done. lia.
  - rewrite fmap_cons, not_elem_of_cons in Hc. destruct Hc as [Hne Hc]. simpl in Hne.
    rewrite bool_decide_false by (simpl; congruence). rewrite IH by done. lia.
Qed.

Lemma split_at_column c l : c ∈ l.*1 ->
  exists pre v post, l = pre ++ (c, v) :: post /\ c ∉ pre.*1.
Proof.
  induction l as [|[c' v] l IH]; intros Hin; [by apply not_elem_of_nil in Hin|].
  destruct (decide (c' = c)) as [->|Hne].
  - exists [], v, l. split; [done|]. apply not_elem_of_nil.
  - apply elem_of_cons in Hin as [Heq|Hin]; [simpl in Heq; congruence|].
    destruct (IH Hin) as (pre & w & post & -> & Hn). exists ((c', v) :: pre), w, post.
    split; [done|]. rewrite fmap_cons, not_elem_of_cons. simpl. split; [congruence|done].
Qed.

Lemma split_map (pre post : list (Z * V)) c v :
  NoDup (pre ++ (c, v) :: post).*1 ->
  let m := list_to_map (pre ++ (c, v) :: post) : gmap Z V in
  m !! c = Some v /\ list_to_map (pre ++ post) = delete c m /\
  (forall w, list_to_map (pre ++ (c, w) :: post) = <[c := w]> m) /\ c ∉ (pre ++ post).*1.
Proof.
  intros Hnd m.
  assert (Hp : forall w, pre ++ (c, w) :: post ≡ₚ (c, w) :: pre ++ post)
    by (intros w; by rewrite Permutation_middle).
  assert (Hn' : forall w, NoDup (pre ++ (c, w) :: post).*1).
  { intros w. rewrite fmap_app, fmap_cons in *. done. }
  assert (Hm : forall w, list_to_map (pre ++ (c, w) :: post)
                         = <[c := w]> (list_to_map (pre ++ post) : gmap Z V)).
  { intros w. by rewrite (list_to_map_proper _ _ (Hn' w) (Hp w)). }
  assert (Hc : c ∉ (pre ++ post).*1).
  { specialize (Hn' v). rewrite (Hp v) in Hn'. by apply NoDup_cons in Hn' as [? _]. }
  unfold m. rewrite Hm. split_and!.
  - by rewrite lookup_insert_eq.
  - rewrite delete_insert_id; [done|]. by apply not_elem_of_list_to_map_1.
  - intros w. by rewrite Hm, insert_insert_eq.
  - done.
Qed.

Lemma SortedRow_at_map r c : sv_wf r -> SortedRow_at r c = Ret (default v_zero (sv_map r !! c)).
Proof.
  intros [Hn _ _]. unfold SortedRow_at, FindIndex. destruct (decide (c ∈ (sv_entries r).*1)) as [Hin|Hin].
  - destruct (split_at_column _ _ Hin) as (pre & v & post & E & Hpre). unfold sv_map. rewrite E in *.
    rewrite find_index_Some by done. rewrite bool_decide_false by lia.
    destruct (split_map _ _ _ _ Hn) as (-> & _).
    rewrite (proj2 (vec_at_Ret _ _ (c, v))); [done|]. split; [lia|].
    rewrite Z.add_0_l, Nat2Z.id. by apply list_lookup_middle.
  - rewrite (proj2 (find_index_None c 0 (sv_entries r) ltac:(lia))) by done.
    rewrite bool_decide_true by done. unfold sv_map.
    by rewrite (proj1 (not_elem_of_list_to_map _ _) Hin).
Qed.

Lemma ResetCapacity_spec n num : 0 <= num <= n -> n < 2 ^ 31 - 10 ->
  exists cap, ResetCapacity n num = Ret cap /\ n <= cap < n + 10 /\ Z.rem cap 10 = 0.
Proof.
  intros Hn Hs. unfold ResetCapacity, K_BLOCK_SIZE_. rewrite (bool_decide_true (num <= n)) by lia. simpl.
  eexists. split; [done|]. rewrite Z.rem_mod_nonneg by lia.
  pose proof (Z.mod_pos_bound n 10). case_bool_decide.
  - rewrite i32_id by int_lia. split; [lia|]. rewrite Z.rem_mod_nonneg by lia. int_lia.
  - split; [lia|]. rewrite Z.rem_mod_nonneg by lia. lia.
Qed.

(** What an update does to the map; a first update is stored even if zero. *)
Definition inc_map (c : Z) (u : V) (m : gmap Z V) : gmap Z V :=
  match m !! c with
  | Some v => if bool_decide (v_add v u = v_zero) then delete c m else <[c := v_add v u]> m
  | None => <[c := u]> m
  end.

Lemma remove_entry_spec pre c v post cap :
  let r := mkSortedRow (pre ++ (c, v) :: post) cap in
  sv_wf r ->
  exists cap', RemoveOneEntryAndCompact (length pre) r = Ret (mkSortedRow (pre ++ post) cap') /\
    sv_wf (mkSortedRow (pre ++ post) cap') /\ cap' <= cap /\
    sv_map (mkSortedRow (pre ++ post) cap') = delete c (sv_map r).
Proof.
  intros r [Hn Hc Hf]. unfold RemoveOneEntryAndCompact, sv_num_entries in *. simpl in *.
  destruct (split_map _ _ _ _ Hn) as (_ & Hm & _ & _).
  assert (Hl : Z.of_nat (length (pre ++ (c, v) :: post)) = Z.of_nat (length (pre ++ post)) + 1)
    by (rewrite !length_app; simpl; lia).
  assert (Hwf : forall cap', Z.of_nat (length (pre ++ post)) <= cap' <= cap ->
                sv_wf (mkSortedRow (pre ++ post) cap')).
  { intros cap' Hcap. constructor; unfold sv_num_entries; simpl; [|..|lia].
    - rewrite fmap_app, fmap_cons in Hn. rewrite fmap_app.
      apply NoDup_app in Hn as (H1 & H2 & H3). apply NoDup_cons in H3 as [_ H3].
      apply NoDup_app. split_and!; [done| |done]. intros x Hx Hx'. apply (H2 x Hx). by right.
    - apply Forall_app in Hc as [H1 H2]. apply Forall_cons in H2 as [_ H2]. by apply Forall_app. }
  rewrite take_app_length. rewrite drop_app_ge by lia.
  replace (S (length pre) - length pre)%nat with 1%nat by lia. simpl.
  rewrite Hl. replace (Z.of_nat (length (pre ++ post)) + 1 - 1)
    with (Z.of_nat (length (pre ++ post))) by lia.
  case_bool_decide as Hcompact.
  - unfold K_BLOCK_SIZE_ in Hcompact.
    destruct (ResetCapacity_spec (Z.of_nat (length (pre ++ post))) (Z.of_nat (length (pre ++ post))))
      as (cap' & -> & Hcap & _); [lia|lia|]. simpl.
    exists cap'. split_and!; [done|apply Hwf; lia|lia|done].
  - exists cap. split_and!; [done|apply Hwf; lia|lia|done].
Qed.

Lemma add_new_entry_spec c u r :
  sv_wf r -> in_i32 c -> c ∉ (sv_entries r).*1 -> sv_capacity r < 2 ^ 31 - 30 ->
  exists cap, add_new_entry c u r = Ret (mkSortedRow (sv_entries r ++ [(c, u)]) cap) /\
    sv_wf (mkSortedRow (sv_entries r ++ [(c, u)]) cap) /\ cap <= sv_capacity r + 20 /\
    sv_map (mkSortedRow (sv_entries r ++ [(c, u)]) cap) = <[c := u]> (sv_map r).
Proof.
  intros [Hn Hc Hf] Hi Hnin Hcap. unfold add_new_entry, K_BLOCK_SIZE_.
  assert (Hnum : 0 <= sv_num_entries r) by (unfold sv_num_entries; lia).
  assert (Hwf : forall cap, sv_num_entries r < cap < 2 ^ 31 ->
                sv_wf (mkSortedRow (sv_entries r ++ [(c, u)]) cap)).
  { intros cap Hb. constructor; unfold sv_num_entries in *; simpl.
    - rewrite fmap_app. apply NoDup_app. split_and!; [done| |apply NoDup_singleton].
      intros x Hx ->%list_elem_of_singleton. done.
    - apply Forall_app. split; [done|]. by constructor.
    - rewrite length_app. simpl. lia. }
  assert (Hm : forall cap, sv_map (mkSortedRow (sv_entries r ++ [(c, u)]) cap) = <[c := u]> (sv_map r)).
  { intros cap. unfold sv_map. simpl. rewrite list_to_map_app. simpl.
    rewrite <- insert_union_r, map_union_empty; [done|].
    by apply not_elem_of_list_to_map_1. }
  case_bool_decide as Hfull.
  - rewrite i32_id by int_lia.
    destruct (ResetCapacity_spec (sv_capacity r + 10) (sv_num_entries r)) as (cap & -> & Hb & _);
      [lia|lia|]. simpl. rewrite bool_decide_true by lia.
    exists cap. split_and!; [done|apply Hwf; lia|lia|done].
  - simpl. rewrite bool_decide_true by lia. exists (sv_capacity r).
    split_and!; [done|apply Hwf; lia|lia|done].
Qed.

Lemma sv_wf_set pre c v w post cap :
  sv_wf (mkSortedRow (pre ++ (c, v) :: post) cap) ->
  sv_wf (mkSortedRow (pre ++ (c, w) :: post) cap) /\
  sv_map (mkSortedRow (pre ++ (c, w) :: post) cap)
    = <[c := w]> (sv_map (mkSortedRow (pre ++ (c, v) :: post) cap)).
Proof.
  intros [Hn Hc Hf]. simpl in *. destruct (split_map _ _ _ _ Hn) as (_ & _ & Hm & _).
  split; [|apply Hm]. constructor; unfold sv_num_entries in *; simpl in *.
  - rewrite fmap_app, fmap_cons in *. done.
  - apply Forall_app in Hc as [H1 H2]. apply Forall_cons in H2 as [? H2].
    apply Forall_app. split; [done|]. by constructor.
  - rewrite length_app in Hf |- *. simpl in Hf |- *. lia.
Qed.

Lemma found_entry c (pre : list (Z * V)) v post cap : c ∉ pre.*1 ->
  let r := mkSortedRow (pre ++ (c, v) :: post) cap in
  FindIndex c r = Z.of_nat (length pre) /\
  vec_at (sv_entries r) (Z.of_nat (length pre)) = Ret (c, v) /\
  (forall w, <[length pre := (c, w)]> (sv_entries r) = pre ++ (c, w) :: post).
Proof.
  intros Hpre r. unfold FindIndex, r; simpl. rewrite find_index_Some by done.
  split; [lia|]. split.
  - apply vec_at_Ret. split; [lia|]. rewrite Nat2Z.id. by apply list_lookup_middle.
  - intros w. by rewrite insert_app_r_alt, Nat.sub_diag by lia.
Qed.

Lemma batch_step_spec r c u :
  sv_wf r -> in_i32 c -> sv_capacity r < 2 ^ 31 - 30 ->
  exists r', batch_step r (c, u) = Ret r' /\ sv_wf r' /\
    sv_capacity r' <= sv_capacity r + 20 /\ sv_map r' = inc_map c u (sv_map r).
Proof.
  intros Hwf Hi Hcap. unfold batch_step, inc_map. simpl.
  destruct (decide (c ∈ (sv_entries r).*1)) as [Hin|Hin].
  - destruct (split_at_column _ _ Hin) as (pre & v & post & E & Hpre).
    destruct r as [l cap]. simpl in E, Hcap. subst l.
    destruct (found_entry c pre v post cap Hpre) as (-> & -> & Hset).
    rewrite bool_decide_true by lia. simpl. rewrite Nat2Z.id. simpl in Hset. rewrite Hset.
    destruct (sv_wf_set pre c v (v_add v u) post cap Hwf) as [Hwf' Hm'].
    destruct Hwf as [Hn Hc Hf]. simpl in Hn.
    destruct (split_map _ _ _ _ Hn) as (Hv & _). unfold sv_map at 2. simpl. rewrite Hv.
    case_bool_decide as Hz.
    + destruct (remove_entry_spec pre c (v_add v u) post cap Hwf') as (cap' & -> & H1 & H2 & H3).
      eexists. split; [done|]. split_and!; [done|simpl; lia|].
      rewrite H3, Hm'. by rewrite delete_insert_eq.
    + eexists. split; [done|]. split_and!; [done|simpl; lia|done].
  - unfold FindIndex. rewrite (proj2 (find_index_None c 0 (sv_entries r) ltac:(lia))) by done.
    rewrite bool_decide_false by (intros Hx; by apply Hx).
    destruct (add_new_entry_spec c u r Hwf Hi Hin Hcap) as (cap & -> & H1 & H2 & H3).
    eexists. split; [done|]. split_and!; [done|done|]. rewrite H3.
    unfold sv_map. by rewrite (proj1 (not_elem_of_list_to_map _ _) Hin).
Qed.

(** No wrap-around: adding [u] to [v] moves it in the direction of its sign. *)
Definition add_in_range (v u : V) : Prop :=
  (v_le u v_zero -> v_le (v_add v u) v) /\ (~ v_le u v_zero -> v_le v (v_add v u)).

Lemma sorted_remove pre x post :
  StronglySorted value_ge (pre ++ x :: post) ->
  StronglySorted value_ge (pre ++ post) /\ (forall e, e ∈ pre -> value_ge e x) /\
  (forall e, e ∈ post -> value_ge x e).
Proof.
  intros (H1 & H2 & H3)%StronglySorted_app_iff. apply StronglySorted_inv in H2 as [H2 H4].
  rewrite Forall_forall in H4. split_and!; [|by intros; apply H3; [|left]|auto].
  apply StronglySorted_app_iff. split_and!; [done..|]. intros a b Ha Hb. apply H3; [done|by right].
Qed.

Lemma ApplyInc_spec r c u :
  SortedRow_ok r -> in_i32 c -> sv_capacity r < 2 ^ 31 - 30 ->
  (forall v, sv_map r !! c = Some v -> add_in_range v u) ->
  exists r', SortedRow_ApplyIncUnsafe c u r = Ret r' /\ SortedRow_ok r' /\
    sv_capacity r' <= sv_capacity r + 20 /\ sv_map r' = inc_map c u (sv_map r).
Proof.
  intros [Hwf Hs] Hi Hcap Hrange. unfold SortedRow_ApplyIncUnsafe, inc_map. simpl.
  destruct (decide (c ∈ (sv_entries r).*1)) as [Hin|Hin].
  - destruct (split_at_column _ _ Hin) as (pre & v & post & E & Hpre).
    destruct r as [l cap]. simpl in E, Hcap, Hs. subst l.
    destruct (found_entry c pre v post cap Hpre) as (-> & -> & Hset).
    rewrite bool_decide_true by lia. cbn [mbind outcome_bind]. rewrite Nat2Z.id.
    cbn [sv_entries sv_capacity] in Hset |- *. rewrite Hset.
    destruct (sv_wf_set pre c v (v_add v u) post cap Hwf) as [Hwf' Hm'].
    pose proof Hwf as [Hn Hc Hf]. simpl in Hn.
    destruct (split_map _ _ _ _ Hn) as (Hv & _). unfold sv_map in Hrange |- * at 2.
    cbn [sv_entries] in Hrange |- *. rewrite Hv.
    destruct (Hrange v Hv) as [Hdown Hup]. destruct (sorted_remove _ _ _ Hs) as (Hs1 & Hs2 & Hs3).
    case_bool_decide as Hz.
    + destruct (remove_entry_spec pre c (v_add v u) post cap Hwf') as (cap' & -> & H1 & H2 & H3).
      eexists. split; [done|]. split_and!; [by split|simpl; lia|].
      rewrite H3, Hm'. by rewrite delete_insert_eq.
    + eexists. split; [done|].
      destruct (sv_wf_perm _ _ Hwf' (bubble_perm (length pre) (bool_decide (v_le u v_zero))
                                       (pre ++ (c, v_add v u) :: post))) as [Hwf2 Hm2].
      cbn [sv_capacity] in Hwf2, Hm2. split_and!; [split; [done|]|simpl; lia|by rewrite Hm2].
      cbn [sv_entries]. case_bool_decide as Hneg.
      * destruct (bubble_forward pre (c, v_add v u) post) as (p1 & p2 & -> & -> & H1 & H2).
        apply sorted_insert_forward; [done| |done|done].
        intros e He. eapply value_ge_trans; [by apply Hs2|]. unfold value_ge; simpl. auto.
      * destruct (bubble_backward pre (c, v_add v u) post) as (p1 & p2 & -> & -> & H1 & H2).
        apply sorted_insert_backward; [by rewrite app_assoc| |done|done].
        intros e He. eapply value_ge_trans; [|by apply Hs3]. unfold value_ge; simpl. auto.
  - unfold FindIndex. rewrite (proj2 (find_index_None c 0 (sv_entries r) ltac:(lia))) by done.
    rewrite bool_decide_false by (intros Hx; by apply Hx).
    destruct (add_new_entry_spec c u r Hwf Hi Hin Hcap) as (cap & -> & H1 & H2 & H3).
    cbn [mbind outcome_bind sv_entries sv_capacity]. eexists. split; [done|].
    destruct (sv_wf_perm _ _ H1 (bubble_perm (length (sv_entries r ++ [(c, u)]) - 1) false
                                   (sv_entries r ++ [(c, u)]))) as [Hwf2 Hm2].
    cbn [sv_capacity] in Hwf2, Hm2. split_and!; [split; [done|]|done|].
    + cbn [sv_entries]. rewrite length_app. simpl length.
      replace (length (sv_entries r) + 1 - 1)%nat with (length (sv_entries r)) by lia.
      destruct (bubble_backward (sv_entries r) (c, u) []) as (p1 & p2 & E & -> & H4 & H5).
      apply sorted_insert_backward; [by rewrite app_nil_r, <- E| |done|done].
      by intros e ?%elem_of_nil.
    + rewrite Hm2, H3. unfold sv_map. by rewrite (proj1 (not_elem_of_list_to_map _ _) Hin).
Qed.

(** ** The row interface *)

Lemma ResetCapacity_range n num cap : in_i32 n ->
  ResetCapacity n num = Ret cap -> in_i32 cap.
Proof.
  intros Hn E. unfold ResetCapacity in E. apply bind_Ret_inv in E as (? & _ & [= <-]).
  case_bool_decide; [apply in_i32_i32|done].
Qed.

Lemma add_new_entry_wf c u r r' :
  sv_wf r -> in_i32 c -> c ∉ (sv_entries r).*1 -> add_new_entry c u r = Ret r' -> sv_wf r'.
Proof.
  intros [Hn Hc Hf] Hi Hnin E. unfold add_new_entry in E.
  apply bind_Ret_inv in E as (cap & Ecap & E). case_bool_decide as Hlt; [|done]. inv_outcome.
  assert (cap < 2 ^ 31).
  { case_bool_decide; [|inv_outcome; lia].
    apply ResetCapacity_range in Ecap; [unfold in_i32 in Ecap; lia|auto with wint]. }
  constructor; unfold sv_num_entries in *; simpl.
  - rewrite fmap_app. apply NoDup_app. split_and!; [done| |apply NoDup_singleton].
    intros x Hx ->%list_elem_of_singleton. done.
  - apply Forall_app. split; [done|]. by constructor.
  - rewrite length_app. simpl. lia.
Qed.

Lemma ApplyInc_wf c u r r' :
  sv_wf r -> in_i32 c -> SortedRow_ApplyIncUnsafe c u r = Ret r' -> sv_wf r'.
Proof.
  intros Hwf Hi. unfold SortedRow_ApplyIncUnsafe.
  destruct (decide (c ∈ (sv_entries r).*1)) as [Hin|Hin].
  - destruct (split_at_column _ _ Hin) as (pre & v & post & E & Hpre).
    destruct r as [l cap]. simpl in E. subst l.
    destruct (found_entry c pre v post cap Hpre) as (-> & -> & Hset).
    rewrite bool_decide_true by lia. cbn [mbind outcome_bind]. rewrite Nat2Z.id.
    cbn [sv_entries sv_capacity] in Hset |- *. rewrite Hset.
    destruct (sv_wf_set pre c v (v_add v u) post cap Hwf) as [Hwf' _].
    case_bool_decide as Hz.
    + destruct (remove_entry_spec pre c (v_add v u) post cap Hwf') as (cap' & -> & H1 & _).
      by intros [= <-].
    + intros [= <-]. by apply (sv_wf_perm _ _ Hwf' (bubble_perm _ _ _)).
  - unfold FindIndex. rewrite (proj2 (find_index_None c 0 (sv_entries r) ltac:(lia))) by done.
    rewrite bool_decide_false by (intros Hx; by apply Hx).
    intros (r1 & E & [= <-])%bind_Ret_inv.
    apply add_new_entry_wf in E; [|done..].
    by apply (sv_wf_perm _ _ E (bubble_perm _ _ _)).
Qed.

Lemma sv_entry_bytes_length (e : Z * V) : blen (sv_entry_bytes e) = sv_entry_size.
Proof.
  unfold sv_entry_bytes, sv_entry_size, entry_align, blen.
  rewrite !length_app, !length_replicate.
  pose proof (blen_cencode I32 e.1) as H1. pose proof (v_bytes_length e.2) as H2.
  unfold blen in *. simpl csize in *. lia.
Qed.

Lemma sv_entry_round_trip (e : Z * V) : in_i32 e.1 -> sv_entry_of_bytes (sv_entry_bytes e) = e.
Proof.
  destruct e as [c v]. intros Hc. simpl in Hc. unfold sv_entry_of_bytes, sv_entry_bytes. simpl fst. simpl snd.
  assert (H4 : length (cencode I32 c) = 4%nat) by apply length_le_split.
  assert (Ha : 4 <= entry_align) by (unfold entry_align; lia).
  rewrite take_app_length' by done. rewrite cdecode_cencode by done. f_equal.
  rewrite app_assoc, drop_app_length'.
  - by rewrite take_v_bytes, v_bytes_round_trip.
  - rewrite length_app, length_replicate. lia.
Qed.

Lemma sv_bytes_length l : blen (concat (sv_entry_bytes <$> l)) = Z.of_nat (length l) * sv_entry_size.
Proof.
  induction l as [|e l IH]; [done|]. rewrite fmap_cons. cbn [concat length].
  pose proof (sv_entry_bytes_length e). unfold blen in *. rewrite length_app. lia.
Qed.

Lemma sv_entries_round_trip l : Forall (fun e => in_i32 e.1) l ->
  sv_entries_of_bytes (length l) (concat (sv_entry_bytes <$> l)) = l.
Proof.
  induction 1 as [|e l He _ IH]; [done|]. rewrite fmap_cons. cbn [concat length sv_entries_of_bytes].
  pose proof (sv_entry_bytes_length e) as Hl. unfold blen in Hl.
  rewrite take_app_length', drop_app_length' by lia. by rewrite sv_entry_round_trip, IH.
Qed.

#[export] Program Instance SortedRow_row_ok : AbstractRowOk (SortedVectorMapRow V) V := {|
  row_ok := sv_wf;
  row_eqv r1 r2 := sv_entries r1 = sv_entries r2
|}.
Next Obligation. split; [by intros r|by intros r1 r2|intros r1 r2 r3; congruence]. Qed.
Next Obligation.
  intros r1 r2 c E. unfold row_get; simpl. unfold SortedRow_at, FindIndex. by rewrite E.
Qed.
Next Obligation. intros r1 r2 E. simpl. unfold SortedRow_Serialize. by rewrite E. Qed.
Next Obligation.
  intros r Hok Hs. simpl in *. unfold SortedRow_Serialize, SortedRow_SerializedSize in *.
  rewrite sv_bytes_length in *. unfold sv_num_entries. rewrite u64_id; [done|].
  pose proof v_size_pos. unfold sv_entry_size, entry_align, in_u64 in *. nia.
Qed.
Next Obligation.
  intros r [Hn Hc Hf] Hs. simpl in *. unfold SortedRow_Deserialize, SortedRow_Serialize in *.
  rewrite sv_bytes_length in *.
  assert (8 <= sv_entry_size) by (unfold sv_entry_size, entry_align; lia).
  rewrite bool_decide_true by (by apply Z.mod_mul; lia). simpl.
  rewrite Z.div_mul, i32_id by (unfold in_i32; nia).
  unfold SortedRow_Init. rewrite bool_decide_false by lia. simpl.
  rewrite Nat2Z.id, sv_entries_round_trip by done.
  eexists. split; [done|]. split; [|done]. constructor; simpl; [done..|].
  unfold sv_num_entries; simpl. nia.
Qed.
Next Obligation. intros c u r r' Hok Hc E. exact (ApplyInc_wf c u r r' Hok Hc E). Qed.

(** The sum form of the updates of a column; a running sum that reaches zero
    leaves no entry, an absent column counts as zero. *)
Lemma inc_map_value c u m c' :
  default v_zero (inc_map c u m !! c') =
    if bool_decide (c = c') then v_add (default v_zero (m !! c')) u else default v_zero (m !! c').
Proof.
  unfold inc_map. case_bool_decide; subst.
  - destruct (m !! c') as [v|] eqn:E; simpl; [|by rewrite lookup_insert_eq, v_add_zero].
    case_bool_decide as Hz; [by rewrite lookup_delete_eq, Hz|by rewrite lookup_insert_eq].
  - destruct (m !! c) as [v|] eqn:E; [case_bool_decide|];
      by rewrite ?lookup_delete_ne, ?lookup_insert_ne by done.
Qed.

Lemma batch_steps_spec us r :
  sv_wf r -> Forall (fun cu => in_i32 cu.1) us ->
  sv_capacity r + 20 * Z.of_nat (length us) < 2 ^ 31 - 30 ->
  exists r', foldM batch_step us r = Ret r' /\ sv_wf r' /\
    sv_map r' = foldl (fun m cu => inc_map cu.1 cu.2 m) (sv_map r) us.
Proof.
  intros Hwf Hus. revert r Hwf. induction Hus as [|[c u] us Hc _ IH]; intros r Hwf Hcap.
  - by exists r.
  - cbn [length] in Hcap. destruct (batch_step_spec r c u Hwf Hc ltac:(lia)) as (r1 & E & Hwf1 & Hc1 & Hm1).
    cbn [foldM]. rewrite E. cbn [mbind outcome_bind].
    destruct (IH r1 Hwf1 ltac:(lia)) as (r' & -> & Hwf' & Hm'). exists r'. split_and!; [done..|].
    simpl. by rewrite <- Hm1.
Qed.

Lemma fold_inc_map_value us m c :
  default v_zero (foldl (fun m cu => inc_map cu.1 cu.2 m) m us !! c)
  = v_add (default v_zero (m !! c)) (column_sum us c).
Proof.
  revert m. induction us as [|[c' u] us IH]; intros m; simpl; [by rewrite v_add_zero_r|].
  rewrite IH, inc_map_value. case_bool_decide; [by rewrite v_add_assoc|done].
Qed.

(** [std::sort] leaves a sorted permutation. *)
Lemma sort_sorted l : StronglySorted value_ge (merge_sort value_ge l).
Proof.
  apply Sorted_StronglySorted; [intros ???; apply value_ge_trans|].
  apply Sorted_merge_sort. intros p q. unfold value_ge. apply v_le_total.
Qed.
End SORTED_THEORY.

(** A single update of a sorted row whose addition does not wrap around
    keeps the entries in descending order of value, with distinct columns,
    within the array; the column's value grows by the update, other columns
    keep theirs; the entry disappears when its value becomes zero, but a
    first update of zero stays as a zero entry. *)
Lemma sorted_row_inc_correct {V} `{NumOk V} (r : SortedVectorMapRow V) c u :
  SortedRow_ok r -> in_i32 c -> sv_capacity r < 2 ^ 31 - 30 ->
  (forall v, sv_map r !! c = Some v -> add_in_range v u) ->
  exists r', row_apply_inc c u r = Ret r' /\
    StronglySorted value_ge (sv_entries r') /\ NoDup (sv_entries r').*1 /\
    sv_num_entries r' <= sv_capacity r' /\
    (forall c' v, row_get r c' = Ret v ->
       row_get r' c' = Ret (if bool_decide (c = c') then v_add v u else v)) /\
    (c ∈ (sv_entries r').*1 <-> v_add (default v_zero (sv_map r !! c)) u <> v_zero \/
                                c ∉ (sv_entries r).*1).
Proof.
  intros Hok Hc Hcap Hr. destruct (ApplyInc_spec r c u Hok Hc Hcap Hr)
    as (r' & E & [Hwf' Hs'] & Hc' & Hm'). pose proof Hok as [Hwf Hs].
  exists r'. pose proof Hwf' as [Hn' _ Hf']. split_and!; [done..|lia| |].
  - intros c' v. simpl. rewrite !SortedRow_at_map by done. intros [= <-].
    by rewrite Hm', inc_map_value.
  - assert (Hin : forall (r : SortedVectorMapRow V) c,
              c ∈ (sv_entries r).*1 <-> is_Some (sv_map r !! c)).
    { intros r0 c0. unfold sv_map. split.
      - intros Hin. apply not_eq_None_Some. intros Hno%not_elem_of_list_to_map. done.
      - intros Hso. destruct (decide (c0 ∈ (sv_entries r0).*1)) as [|Hno]; [done|].
        apply not_elem_of_list_to_map_1 in Hno. rewrite Hno in Hso. by destruct Hso. }
    rewrite !Hin, Hm'. unfold inc_map. destruct (sv_map r !! c) as [v|] eqn:E'; simpl.
    + case_bool_decide as Hz; rewrite ?lookup_delete_eq, ?lookup_insert_eq.
      * split; [by intros []|]. intros [?|Hno]; [done|]. exfalso. apply Hno. eauto.
      * split; [by left|by eauto].
    + rewrite lookup_insert_eq. split; [|by eauto]. intros _. right. by intros [].
Qed.

(** A batch of updates of a sorted row succeeds (while the capacity fits 32
    bits), leaves the entries sorted with distinct columns, and adds to the
    value of every column the sum of its updates. *)
Lemma sorted_row_batch_correct {V} `{NumOk V} (r : SortedVectorMapRow V) us :
  sv_wf r -> Forall (fun cu => in_i32 cu.1) us ->
  sv_capacity r + 20 * Z.of_nat (length us) < 2 ^ 31 - 30 ->
  exists r', row_apply_batch_inc us r = Ret r' /\ SortedRow_ok r' /\
    (forall c v, row_get r c = Ret v -> row_get r' c = Ret (v_add v (column_sum us c))).
Proof.
  intros Hwf Hus Hcap. destruct (batch_steps_spec us r Hwf Hus Hcap) as (r1 & E & Hwf1 & Hm1).
  destruct (sv_wf_perm r1 _ Hwf1 (merge_sort_Permutation value_ge (sv_entries r1))) as [Hwf' Hm'].
  eexists. split; [|split; [split; [exact Hwf'|]|]].
  - simpl. unfold SortedRow_ApplyBatchIncUnsafe. by rewrite E.
  - apply sort_sorted.
  - intros c v. simpl. rewrite !SortedRow_at_map by done. intros [= <-].
    by rewrite Hm', Hm1, fold_inc_map_value.
Qed.

(** A row of each sparse or sorted kind that fits a 31-bit size comes back
    from its serialized bytes with the same contents, and the bytes are as
    many as announced; so do the dense rows. *)
Lemma row_serialization_round_trip {V} `{NumOk V} (d : DenseRow V)
    (m : MultiplicativeDenseRow V) (s : SparseRow V) (v : SortedVectorMapRow V) :
  row_ok d -> row_ok m -> row_ok s -> row_ok v ->
  blen (row_serialize d) < 2 ^ 31 -> blen (row_serialize m) < 2 ^ 31 ->
  blen (row_serialize s) < 2 ^ 31 -> blen (row_serialize v) < 2 ^ 31 ->
  (row_deserialize (row_serialize d) = Ret d /\ blen (row_serialize d) = row_serialized_size d) /\
  (row_deserialize (row_serialize m) = Ret m /\ blen (row_serialize m) = row_serialized_size m) /\
  (row_deserialize (row_serialize s) = Ret s /\ blen (row_serialize s) = row_serialized_size s) /\
  (exists v', row_deserialize (row_serialize v) = Ret v' /\ sv_entries v' = sv_entries v /\
              blen (row_serialize v) = row_serialized_size v).
Proof.
  intros Hd Hm Hs Hv Bd Bm Bs Bv.
  destruct (row_round_trip d Hd Bd) as (d' & Ed & _ & <-).
  destruct (row_round_trip m Hm Bm) as (m' & Em & _ & <-).
  destruct (row_round_trip s Hs Bs) as (s' & Es & _ & <-).
  destruct (row_round_trip v Hv Bv) as (v' & Ev & _ & Heq).
  split_and!; try (by apply row_serialize_size); try done.
  exists v'. split_and!; [done|done|]. by apply row_serialize_size.
Qed.

Lemma sorted_demo_ok : SortedRow_ok (mkSortedRow [(3, to_int32 9); (1, to_int32 4)] 10).
Proof.
  split; [constructor|].
  - apply (bool_decide_unpack _). by vm_compute.
  - apply (bool_decide_unpack _). by vm_compute.
  - by split.
  - repeat constructor.
Qed.

