(* ===== verification/OpLog.v ===== *)
(** * Update logs

    [petuum_ps_common/oplog/row_oplog.hpp] and [petuum_ps/oplog]: the updates
    an application thread makes are coalesced per row and column in the table's
    oplog, partitioned by the background thread that will send them;
    [oplog_index] remembers which rows have one. *)
From S2P Require Import Prelude Bytes Num SparseRow Context.
Open Scope Z_scope.

Section OPLOG.
(** [R] is the table's row class ([sample_row_]), [V] its update type. *)
Context {R V : Type} `{Num V} `{AbstractRow R V}.

(** ** [RowOpLog]

    [iter_]/[const_iter_] is the column the iterator is at, [None] at the end. *)
Record RowOpLog := mkRowOpLog { oplogs : gmap Z V; ol_iter : option Z }.

Definition RowOpLog_new : RowOpLog := mkRowOpLog ∅ None.

Definition RowOpLog_Find (col_id : Z) (l : RowOpLog) : option V := oplogs l !! col_id.
Definition RowOpLog_FindConst := RowOpLog_Find.

(** Returns the update the pointer points to. *)
Definition RowOpLog_FindCreate (col_id : Z) (l : RowOpLog) : V * RowOpLog :=
  match oplogs l !! col_id with
  | Some u => (u, l)
  | None => let u := row_init_update (R := R) in
            (u, mkRowOpLog (<[col_id := u]> (oplogs l)) (ol_iter l))
  end.

(** Writing through the pointer. *)
Definition RowOpLog_store (col_id : Z) (u : V) (l : RowOpLog) : RowOpLog :=
  mkRowOpLog (<[col_id := u]> (oplogs l)) (ol_iter l).

(** The first entry of a column greater than [col]. *)
Definition next_entry (col : Z) (m : gmap Z V) : option (Z * V) :=
  head (filter (fun e => col < e.1) (sorted_entries m)).

Definition RowOpLog_BeginIterate (l : RowOpLog) : option (Z * V) * RowOpLog :=
  let e := head (sorted_entries (oplogs l)) in
  (e, mkRowOpLog (oplogs l) (fst <$> e)).
Definition RowOpLog_BeginIterateConst := RowOpLog_BeginIterate.

Definition RowOpLog_Next (l : RowOpLog) : outcome (option (Z * V) * RowOpLog) :=
  col ← deref (ol_iter l);
  let e := next_entry col (oplogs l) in
  Ret (e, mkRowOpLog (oplogs l) (fst <$> e)).
Definition RowOpLog_NextConst := RowOpLog_Next.

Definition RowOpLog_GetSize (l : RowOpLog) : Z := i32 (Z.of_nat (size (oplogs l))).

(** The client's loop [update = BeginIterateConst(&c); while (update != 0) {
    ...; update = NextConst(&c); }]. *)
Fixpoint iterate_rest (fuel : nat) (e : option (Z * V)) (l : RowOpLog) : outcome (list (Z * V)) :=
  match e with
  | None => Ret []
  | Some cu =>
      match fuel with
      | O => Undef
      | S fuel' =>
          '(e', l') ← RowOpLog_NextConst l;
          rest ← iterate_rest fuel' e' l'; Ret (cu :: rest)
      end
  end.

Definition RowOpLog_iterate (l : RowOpLog) : outcome (list (Z * V)) :=
  let '(e, l') := RowOpLog_BeginIterateConst l in iterate_rest (size (oplogs l)) e l'.

(** ** [OpLogPartition]

    The operations of one row exclude each other by the row's striped lock. *)
#[local] Abbreviation OpLogPartition := (gmap Z RowOpLog).

Definition CreateRowOpLog : RowOpLog := RowOpLog_new.

(** [FindCreate] followed by [AddUpdates] on the update found. *)
Definition inc_row_oplog (l : RowOpLog) (cu : Z * V) : RowOpLog :=
  let '(u, l') := RowOpLog_FindCreate cu.1 l in
  RowOpLog_store cu.1 (row_add_updates (R := R) u cu.2) l'.

Definition find_or_create (row_id : Z) (p : OpLogPartition) : RowOpLog :=
  default CreateRowOpLog (p !! row_id).

Definition OpLogPartition_Inc (row_id column_id : Z) (delta : V) (p : OpLogPartition)
    : OpLogPartition :=
  <[row_id := inc_row_oplog (find_or_create row_id p) (column_id, delta)]> p.

Definition OpLogPartition_BatchInc (row_id : Z) (us : list (Z * V)) (p : OpLogPartition)
    : OpLogPartition :=
  <[row_id := foldl inc_row_oplog (find_or_create row_id p) us]> p.

Definition OpLogPartition_FindOpLog (row_id : Z) (p : OpLogPartition) : option RowOpLog :=
  p !! row_id.

Definition OpLogPartition_FindInsertOpLog (row_id : Z) (p : OpLogPartition)
    : RowOpLog * OpLogPartition :=
  match p !! row_id with
  | Some l => (l, p)
  | None => (CreateRowOpLog, <[row_id := CreateRowOpLog]> p)
  end.

Definition OpLogPartition_GetEraseOpLog (row_id : Z) (p : OpLogPartition)
    : option RowOpLog * OpLogPartition :=
  match p !! row_id with
  | Some l => (Some l, delete row_id p)
  | None => (None, p)
  end.

(** [None]: not found; [Some None]: found but the test says keep it. *)
Definition OpLogPartition_GetEraseOpLogIf (row_id : Z) (test : RowOpLog -> bool)
    (p : OpLogPartition) : option (option RowOpLog) * OpLogPartition :=
  match p !! row_id with
  | Some l => if test l then (Some (Some l), delete row_id p) else (Some None, p)
  | None => (None, p)
  end.

(** ** [TableOpLog]: one partition per background thread. *)
#[local] Abbreviation TableOpLog := (list OpLogPartition).

Definition TableOpLog_new (g : GlobalContext) : TableOpLog :=
  replicate (Z.to_nat (num_bg_threads g)) ∅.

(** Runs an operation on the partition of [row_id]. *)
Definition on_partition {A} (g : GlobalContext) (row_id : Z)
    (f : OpLogPartition -> A * OpLogPartition) (t : TableOpLog) : outcome (A * TableOpLog) :=
  partition_num ← GetBgPartitionNum g row_id;
  p ← vec_at t partition_num;
  let '(a, p') := f p in
  t' ← vec_set t partition_num p';
  Ret (a, t').

Definition TableOpLog_Inc (g : GlobalContext) (row_id column_id : Z) (delta : V) (t : TableOpLog)
    : outcome TableOpLog :=
  snd <$> on_partition g row_id (fun p => (tt, OpLogPartition_Inc row_id column_id delta p)) t.

Definition TableOpLog_BatchInc (g : GlobalContext) (row_id : Z) (us : list (Z * V)) (t : TableOpLog)
    : outcome TableOpLog :=
  snd <$> on_partition g row_id (fun p => (tt, OpLogPartition_BatchInc row_id us p)) t.

Definition TableOpLog_FindOpLog (g : GlobalContext) (row_id : Z) (t : TableOpLog)
    : outcome (option RowOpLog) :=
  fst <$> on_partition g row_id (fun p => (OpLogPartition_FindOpLog row_id p, p)) t.

Definition TableOpLog_FindInsertOpLog (g : GlobalContext) (row_id : Z) (t : TableOpLog)
    : outcome (RowOpLog * TableOpLog) :=
  on_partition g row_id (OpLogPartition_FindInsertOpLog row_id) t.

Definition TableOpLog_GetEraseOpLog (g : GlobalContext) (row_id : Z) (t : TableOpLog)
    : outcome (option RowOpLog * TableOpLog) :=
  on_partition g row_id (OpLogPartition_GetEraseOpLog row_id) t.

Definition TableOpLog_GetEraseOpLogIf (g : GlobalContext) (row_id : Z) (test : RowOpLog -> bool)
    (t : TableOpLog) : outcome (option (option RowOpLog) * TableOpLog) :=
  on_partition g row_id (OpLogPartition_GetEraseOpLogIf row_id test) t.

(** ** [oplog_index] *)

(** [PartitionOpLogIndex]: the rows with an oplog since the last reset. *)
Definition PartitionOpLogIndex : Type := gset Z.
Definition PartitionOpLogIndex_AddIndex (oplog_index : list Z) (i : PartitionOpLogIndex)
    : PartitionOpLogIndex := foldl (fun i row_id => {[row_id]} ∪ i) i oplog_index.
Definition PartitionOpLogIndex_Reset (i : PartitionOpLogIndex)
    : PartitionOpLogIndex * PartitionOpLogIndex := (i, ∅).

Definition TableOpLogIndex : Type := list PartitionOpLogIndex.
Definition TableOpLogIndex_new (g : GlobalContext) : TableOpLogIndex :=
  replicate (Z.to_nat (num_bg_threads g)) ∅.
Definition TableOpLogIndex_AddIndex (partition_num : Z) (oplog_index : list Z)
    (t : TableOpLogIndex) : outcome TableOpLogIndex :=
  i ← vec_at t partition_num;
  vec_set t partition_num (PartitionOpLogIndex_AddIndex oplog_index i).
Definition TableOpLogIndex_ResetPartition (partition_num : Z) (t : TableOpLogIndex)
    : outcome (PartitionOpLogIndex * TableOpLogIndex) :=
  i ← vec_at t partition_num;
  let '(old, i') := PartitionOpLogIndex_Reset i in
  t' ← vec_set t partition_num i'; Ret (old, t').
End OPLOG.
Arguments RowOpLog : clear implicits.
Abbreviation OpLogPartition V := (gmap Z (RowOpLog V)).
Abbreviation TableOpLog V := (list (OpLogPartition V)).

(** ** Iteration *)

Section ITERATE.
Context {V : Type}.

Lemma filter_above_head col (l : list (Z * V)) : StronglySorted key_le l -> NoDup l.*1 ->
  forall l1 u l2, l = l1 ++ (col, u) :: l2 -> filter (fun e => col < e.1) l = l2.
Proof.
  intros Hs Hn l1 u l2 ->. rewrite filter_app, filter_cons_False by (simpl; lia).
  apply StronglySorted_app_iff in Hs as (_ & Hs2 & Hs12).
  rewrite fmap_app, fmap_cons in Hn. apply NoDup_app in Hn as (_ & _ & Hn2).
  apply NoDup_cons in Hn2 as [Hnin _]. rewrite filter_none, filter_all; [done|..].
  - intros e He. apply StronglySorted_inv in Hs2 as [_ Hle]. rewrite Forall_forall in Hle.
    specialize (Hle e He). unfold key_le in Hle; simpl in *.
    destruct (decide (e.1 = col)) as [Heq|]; [|lia]. exfalso. apply Hnin.
    simpl. rewrite <- Heq. by apply list_elem_of_fmap_2.
  - intros e He. specialize (Hs12 e (col, u) He ltac:(by left)). unfold key_le in Hs12; simpl in *. lia.
Qed.

Lemma iterate_rest_spec (m : gmap Z V) l1 l2 fuel :
  sorted_entries m = l1 ++ l2 -> (length l2 <= fuel)%nat ->
  iterate_rest fuel (head l2) (mkRowOpLog m (fst <$> head l2)) = Ret l2.
Proof.
  revert l1 fuel. induction l2 as [|[c u] l2 IH]; intros l1 fuel Hl Hf.
  { by destruct fuel. }
  destruct fuel as [|fuel]; [simpl in Hf; lia|]. simpl. unfold next_entry.
  rewrite (filter_above_head c _ (sorted_entries_sorted m) (sorted_entries_NoDup m) l1 u l2 Hl).
  rewrite (IH (l1 ++ [(c, u)])); [done| |simpl in Hf; lia].
  by rewrite <- app_assoc.
Qed.

(** Iterating a row's oplog visits its columns in increasing order. *)
Lemma RowOpLog_iterate_spec (l : RowOpLog V) :
  RowOpLog_iterate l = Ret (sorted_entries (oplogs l)).
Proof.
  unfold RowOpLog_iterate. apply (iterate_rest_spec _ []); [done|].
  by rewrite sorted_entries_length.
Qed.
End ITERATE.

(** ** Coalescing *)

Section COALESCE.
Context {R V : Type} `{NumOk V} `{AbstractRow R V}.

(** The coalesced update of a column. *)
Definition coalesced (us : list (Z * V)) (c : Z) (u : V) : V :=
  foldl (fun u cu => if bool_decide (cu.1 = c) then row_add_updates (R := R) u cu.2 else u) u us.

Lemma inc_row_oplog_lookup (l : RowOpLog V) c u c' :
  oplogs (inc_row_oplog (R := R) l (c, u)) !! c' =
    if bool_decide (c = c')
    then Some (row_add_updates (R := R) (default (row_init_update (R := R)) (oplogs l !! c)) u)
    else oplogs l !! c'.
Proof.
  unfold inc_row_oplog, RowOpLog_FindCreate. simpl.
  destruct (oplogs l !! c) as [w|] eqn:E; simpl; case_bool_decide; subst;
    rewrite ?lookup_insert_eq, ?lookup_insert_ne by done; done.
Qed.

Lemma inc_all_lookup (us : list (Z * V)) (l : RowOpLog V) c :
  oplogs (foldl (inc_row_oplog (R := R)) l us) !! c =
    if bool_decide (c ∈ us.*1) then Some (coalesced us c (default (row_init_update (R := R)) (oplogs l !! c)))
    else oplogs l !! c.
Proof.
  revert l. induction us as [|[c' u] us IH]; intros l.
  { done. }
  cbn [foldl]. rewrite fmap_cons, IH, inc_row_oplog_lookup.
  unfold coalesced. cbn [foldl fst snd].
  destruct (decide (c' = c)) as [->|Hne].
  - rewrite !(bool_decide_true (c = c)), (bool_decide_true (c ∈ c :: _)) by (done || by left).
    case_bool_decide as Hin; [done|]. f_equal.
    clear IH. generalize (row_add_updates (R := R) (default row_init_update (oplogs l !! c)) u).
    induction us as [|[c' w] us IH]; intros v; [done|]. simpl.
    rewrite fmap_cons, not_elem_of_cons in Hin. destruct Hin as [Hne Hin]. simpl in Hne.
    rewrite bool_decide_false by congruence. by apply IH.
  - rewrite !(bool_decide_false (c' = c)) by done.
    rewrite (bool_decide_ext (c ∈ c' :: us.*1) (c ∈ us.*1)); [done|].
    rewrite elem_of_cons. split; [intros [?|?]; [congruence|done]|by right].
Qed.

Lemma on_partition_spec {A} g row_id (f : OpLogPartition V -> A * OpLogPartition V) t :
  context_ok g -> 0 <= row_id -> Z.of_nat (length t) = num_bg_threads g ->
  exists i p, (0 <= i < num_bg_threads g) /\ i = row_id mod num_bg_threads g /\
    t !! Z.to_nat i = Some p /\
    on_partition g row_id f t = Ret ((f p).1, <[Z.to_nat i := (f p).2]> t).
Proof.
  intros Hg Hr Hl. unfold on_partition. rewrite GetBgPartitionNum_Ret by done. simpl.
  pose proof (Z.mod_pos_bound row_id (num_bg_threads g) (ctx_bg g Hg)) as Hb.
  destruct (lookup_lt_is_Some_2 t (Z.to_nat (row_id mod num_bg_threads g))) as [p Hp]; [lia|].
  exists (row_id mod num_bg_threads g), p. split_and!; [lia|lia|done|done|].
  rewrite (proj2 (vec_at_Ret t _ p)) by (split; [lia|done]). simpl.
  destruct (f p) as [a p']. unfold vec_set. rewrite bool_decide_true by lia. done.
Qed.
End COALESCE.

(** The oplog of a row, wherever it is stored. *)
Definition table_row_oplog {V} (g : GlobalContext) (t : TableOpLog V) (row_id : Z) : option (RowOpLog V) :=
  p ← t !! Z.to_nat (row_id mod num_bg_threads g); p !! row_id.

Lemma GetEraseOpLog_spec {V} g row_id (t : TableOpLog V) :
  context_ok g -> 0 <= row_id -> Z.of_nat (length t) = num_bg_threads g ->
  exists t', TableOpLog_GetEraseOpLog g row_id t = Ret (table_row_oplog g t row_id, t') /\
    length t' = length t /\
    (forall r, 0 <= r -> table_row_oplog g t' r = if decide (r = row_id) then None else table_row_oplog g t r).
Proof.
  intros Hg Hr Hl.
  destruct (on_partition_spec g row_id (OpLogPartition_GetEraseOpLog row_id) t Hg Hr Hl)
    as (i & p & Hi & Him & Hp & E).
  unfold TableOpLog_GetEraseOpLog. rewrite E. unfold table_row_oplog at 1. rewrite <- Him, Hp.
  cbn [mbind option_bind]. exists (<[Z.to_nat i:=delete row_id p]> t).
  assert (Hdel : (OpLogPartition_GetEraseOpLog row_id p).2 = delete row_id p).
  { unfold OpLogPartition_GetEraseOpLog. destruct (p !! row_id) eqn:E'; [done|].
    simpl. by rewrite delete_id. }
  rewrite Hdel. split_and!.
  - unfold OpLogPartition_GetEraseOpLog. by destruct (p !! row_id).
  - apply length_insert.
  - intros r Hr0. unfold table_row_oplog. pose proof (Z.mod_pos_bound r (num_bg_threads g) (ctx_bg g Hg)).
    destruct (decide (r mod num_bg_threads g = i)) as [Heq|Hne].
    + rewrite Heq, list_lookup_insert_eq by lia. rewrite Hp. cbn [mbind option_bind].
      destruct (decide (r = row_id)) as [->|]; [apply lookup_delete_eq|by apply lookup_delete_ne].
    + rewrite list_lookup_insert_ne by lia.
      destruct (decide (r = row_id)) as [->|]; [congruence|done].
Qed.

(** A batch of increments to a row changes that row's oplog only: every
    column's pending update is the former one (the zero update if none)
    combined with the increments of the column in order; taking the row's
    oplog away ([GetEraseOpLog]) returns it and leaves none. *)
Lemma table_oplog_coalesces {R V} `{NumOk V} `{AbstractRow R V} g row_id us (t : TableOpLog V) :
  context_ok g -> 0 <= row_id -> Z.of_nat (length t) = num_bg_threads g ->
  exists t', TableOpLog_BatchInc (R := R) g row_id us t = Ret t' /\ length t' = length t /\
    (forall r, 0 <= r -> r <> row_id -> table_row_oplog g t' r = table_row_oplog g t r) /\
    (exists l, TableOpLog_FindOpLog g row_id t' = Ret (Some l) /\
       (forall c, oplogs l !! c =
          let old := table_row_oplog g t row_id ≫= fun l0 => oplogs l0 !! c in
          if bool_decide (c ∈ us.*1)
          then Some (coalesced (R := R) us c (default (row_init_update (R := R)) old)) else old) /\
       exists t'', TableOpLog_GetEraseOpLog g row_id t' = Ret (Some l, t'') /\
         TableOpLog_FindOpLog g row_id t'' = Ret None).
Proof.
  intros Hg Hr Hl.
  destruct (on_partition_spec g row_id (fun p => (tt, OpLogPartition_BatchInc (R := R) row_id us p)) t Hg Hr Hl)
    as (i & p & Hi & Him & Hp & E).
  set (l := foldl (inc_row_oplog (R := R)) (find_or_create row_id p) us).
  set (p' := <[row_id := l]> p : OpLogPartition V).
  set (t' := <[Z.to_nat i := p']> t).
  assert (Hl' : Z.of_nat (length t') = num_bg_threads g) by (rewrite <- Hl; f_equal; apply length_insert).
  assert (Hp' : t' !! Z.to_nat i = Some p') by (apply list_lookup_insert_eq; lia).
  assert (Hfind : forall (t0 : TableOpLog V) p0, Z.of_nat (length t0) = num_bg_threads g -> t0 !! Z.to_nat i = Some p0 ->
     TableOpLog_FindOpLog g row_id t0 = Ret (p0 !! row_id)).
  { intros t0 p0 Hl0 Hp0.
    destruct (on_partition_spec g row_id (fun p : OpLogPartition V => (OpLogPartition_FindOpLog row_id p, p)) t0 Hg Hr Hl0)
      as (i0 & p1 & _ & -> & Hp1 & E0).
    unfold TableOpLog_FindOpLog. rewrite E0. rewrite <- Him, Hp0 in Hp1. by injection Hp1 as <-. }
  exists t'. split_and!.
  - unfold TableOpLog_BatchInc. by rewrite E.
  - unfold t'. apply length_insert.
  - intros r Hr0 Hne. unfold table_row_oplog, t'.
    destruct (decide (r mod num_bg_threads g = i)) as [Heq|Hneq].
    + rewrite Heq, list_lookup_insert_eq by lia. rewrite Hp. simpl. unfold p'.
      by rewrite lookup_insert_ne by done.
    + pose proof (Z.mod_pos_bound r (num_bg_threads g) (ctx_bg g Hg)).
      by rewrite list_lookup_insert_ne by lia.
  - exists l. split; [|split].
    + rewrite (Hfind t' p' Hl' Hp'). unfold p'. by rewrite lookup_insert_eq.
    + intros c. unfold l. rewrite inc_all_lookup. unfold table_row_oplog, find_or_create.
      rewrite <- Him, Hp. simpl. destruct (p !! row_id) as [l0|]; simpl; [done|].
      by rewrite lookup_empty.
    + destruct (on_partition_spec g row_id (OpLogPartition_GetEraseOpLog row_id) t' Hg Hr Hl')
        as (i1 & p1 & _ & -> & Hp1 & E1).
      rewrite <- Him, Hp' in Hp1. injection Hp1 as <-.
      unfold TableOpLog_GetEraseOpLog. rewrite E1. unfold OpLogPartition_GetEraseOpLog, p'.
      rewrite lookup_insert_eq. simpl. eexists. split; [done|].
      erewrite Hfind; [| |rewrite <- Him; apply list_lookup_insert_eq; lia].
      * by rewrite lookup_delete_eq.
      * rewrite <- Hl'. f_equal. apply length_insert.
Qed.

(** Iterating the oplog of a row visits every column exactly once, in
    increasing order, and ends. *)
Lemma row_oplog_iteration {V} (l : RowOpLog V) :
  exists es, RowOpLog_iterate l = Ret es /\ StronglySorted (fun p q : Z * V => p.1 <= q.1) es /\
    NoDup es.*1 /\ (forall c u, (c, u) ∈ es <-> oplogs l !! c = Some u).
Proof.
  exists (sorted_entries (oplogs l)). split_and!.
  - apply RowOpLog_iterate_spec.
  - apply sorted_entries_sorted.
  - apply sorted_entries_NoDup.
  - apply sorted_entries_lookup.
Qed.

