(* ===== verification/OpLogWire.v ===== *)
(** * The oplog message body

    A background thread collects the oplogs of its rows
    ([petuum_ps/thread/bg_oplog_partition.cpp], [bg_oplog.hpp]), lays out one
    message per server ([OpLogSerializer] of
    [petuum_ps/oplog/serialized_oplog_reader.hpp], [BgWorkers::CreateOpLogMsgs])
    and writes every row to the message of the server that holds it; the
    server reads the rows back one at a time ([SerializedOpLogReader]). *)
From S2P Require Import Prelude Bytes Num SparseRow Context OpLog.
Open Scope Z_scope.

Section WIRE.
Context {V : Type} `{NumOk V}.

(** ** [BgOpLogPartition] and [BgOpLog] *)

Record BgOpLogPartition := mkBgOpLogPartition {
  bop_map : gmap Z (RowOpLog V);
  bop_table_id : Z;
  bop_update_size : Z
}.

Definition BgOpLogPartition_new (table_id update_size : Z) : BgOpLogPartition :=
  mkBgOpLogPartition ∅ table_id update_size.
Definition BgOpLogPartition_FindOpLog (row_id : Z) (p : BgOpLogPartition) : option (RowOpLog V) :=
  bop_map p !! row_id.
Definition BgOpLogPartition_InsertOpLog (row_id : Z) (l : RowOpLog V) (p : BgOpLogPartition)
    : BgOpLogPartition :=
  mkBgOpLogPartition (<[row_id := l]> (bop_map p)) (bop_table_id p) (bop_update_size p).

(** [table_oplog_map_]. *)
#[local] Abbreviation BgOpLog := (gmap Z BgOpLogPartition).
Definition BgOpLog_Add (table_id : Z) (p : BgOpLogPartition) (b : BgOpLog) : BgOpLog :=
  <[table_id := p]> b.
(** [at] throws for an unknown table. *)
Definition BgOpLog_Get (table_id : Z) (b : BgOpLog) : outcome BgOpLogPartition :=
  checked (b !! table_id).

(** ** Writing

    [mems] is the message memory of every server; [bytes_by_server] gives the
    offset in it of the table's rows. *)
Definition server_write (server_id off : Z) (bs : list Z) (mems : gmap Z (list Z))
    : outcome (gmap Z (list Z)) :=
  mem ← deref (mems !! server_id);
  mem' ← mem_write off bs mem;
  Ret (<[server_id := mem']> mems).

(** The loop over the updates of a row: column ids go to [mem], updates to
    [mem_updates]. *)
Fixpoint write_updates (es : list (Z * V)) (mem_off mem_updates : Z) (mem : list Z)
    : outcome (list Z) :=
  match es with
  | [] => Ret mem
  | (column_id, update) :: es' =>
      mem1 ← store I32 mem_off column_id mem;
      mem2 ← mem_write mem_updates (v_bytes update) mem1;
      write_updates es' (mem_off + 4) (mem_updates + v_size) mem2
  end.

(** One row at offset [off] of its server's memory. *)
Definition write_row (off row_id : Z) (l : RowOpLog V) (mem : list Z) : outcome (list Z) :=
  mem1 ← store I32 off row_id mem;
  mem2 ← store I32 (off + 4) (RowOpLog_GetSize l) mem1;
  es ← RowOpLog_iterate l;
  write_updates es (off + 8) (off + 8 + 4 * RowOpLog_GetSize l) mem2.

(** [offset_by_server[id] += ...] and the count of rows. *)
Definition serialize_row (g : GlobalContext) (table_id update_size : Z)
    (bytes_by_server : gmap Z Z) (row : Z * RowOpLog V)
    (s : gmap Z Z * gmap Z (list Z)) : outcome (gmap Z Z * gmap Z (list Z)) :=
  let '(offset_by_server, mems) := s in
  let '(row_id, l) := row in
  server_id ← GetRowPartitionServerID g table_id row_id;
  base ← deref (bytes_by_server !! server_id);
  let offset := default 0 (offset_by_server !! server_id) in
  mem ← deref (mems !! server_id);
  mem1 ← write_row (base + offset) row_id l mem;
  let num_updates := RowOpLog_GetSize l in
  let offset' := i32 (offset + (4 + 4 + (4 + update_size) * num_updates)) in
  num_rows ← load I32 base mem1;
  mem2 ← store I32 base (i32 (num_rows + 1)) mem1;
  Ret (<[server_id := offset']> offset_by_server, <[server_id := mem2]> mems).

(** The loop that starts every server's part of the table. *)
Definition init_server (bytes_by_server : gmap Z Z) (server_id : Z)
    (s : gmap Z Z * gmap Z (list Z)) : outcome (gmap Z Z * gmap Z (list Z)) :=
  let '(offset_by_server, mems) := s in
  base ← deref (bytes_by_server !! server_id);
  mems' ← server_write server_id base (cencode I32 0) mems;
  Ret (<[server_id := 4]> offset_by_server, mems').

(** [rows] is [oplog_map_] in the hash map's iteration order. *)
Definition SerializeByServer (g : GlobalContext) (rows : list (Z * RowOpLog V))
    (p : BgOpLogPartition) (bytes_by_server : gmap Z Z) (mems : gmap Z (list Z))
    : outcome (gmap Z (list Z)) :=
  s ← foldM (fun s server_id => init_server bytes_by_server server_id s)
        (server_ids g) (∅, mems);
  s' ← foldM (fun s row => serialize_row g (bop_table_id p) (bop_update_size p)
                             bytes_by_server row s) rows s;
  Ret (snd s').

(** *** [OpLogSerializer] *)

Record OpLogSerializer := mkOpLogSerializer { offset_map : gmap Z Z; os_num_tables : Z }.

(** Returns the total size; [tables] is the size map in key order. *)
Definition OpLogSerializer_Init (tables : list (Z * Z)) : Z * OpLogSerializer :=
  let '(total, offsets) :=
    foldl (fun '(total, offsets) ts =>
             (u64 (total + (ts.2 + 4 + 8)), <[ts.1 := total]> offsets))
          (4, ∅) tables in
  (total, mkOpLogSerializer offsets (i32 (Z.of_nat (length tables)))).

Definition OpLogSerializer_AssignMem (s : OpLogSerializer) (mem : list Z) : outcome (list Z) :=
  store I32 0 (os_num_tables s) mem.

(** [offset_map_[table_id]] is 0 for an unknown table. *)
Definition OpLogSerializer_GetTablePtr (table_id : Z) (s : OpLogSerializer) : Z :=
  default 0 (offset_map s !! table_id).

(** ** Reading *)

Record SerializedOpLogReader := mkReader {
  rd_mem : list Z;
  rd_update_size : Z;
  rd_offset : Z;
  rd_num_tables_left : Z;
  rd_current_table_id : Z;
  rd_rows_left : Z
}.

Definition Reader_new (mem : list Z) : SerializedOpLogReader := mkReader mem 0 0 0 0 0.

Definition StartNewTable (r : SerializedOpLogReader) : outcome SerializedOpLogReader :=
  table_id ← load I32 (rd_offset r) (rd_mem r);
  update_size ← load U64 (i32 (rd_offset r + 4)) (rd_mem r);
  rows ← load I32 (i32 (i32 (rd_offset r + 4) + 8)) (rd_mem r);
  Ret (mkReader (rd_mem r) update_size (i32 (i32 (i32 (rd_offset r + 4) + 8) + 4))
         (rd_num_tables_left r) table_id rows).

Definition Reader_Restart (r : SerializedOpLogReader) : outcome (bool * SerializedOpLogReader) :=
  n ← load I32 0 (rd_mem r);
  let r1 := mkReader (rd_mem r) (rd_update_size r) 4 n (rd_current_table_id r) (rd_rows_left r) in
  if bool_decide (n = 0) then Ret (false, r1)
  else r2 ← StartNewTable r1; Ret (true, r2).

(** What [Next] returns: the table, the row, the column ids and the bytes of
    the updates it points to, and whether a new table was started. *)
Record oplog_entry := mkEntry {
  oe_table_id : Z; oe_row_id : Z; oe_column_ids : list Z; oe_updates : list Z; oe_new_table : bool
}.

(** [column_ids[0 .. n-1]]. *)
Fixpoint load_ints (n : nat) (off : Z) (mem : list Z) : outcome (list Z) :=
  match n with
  | O => Ret []
  | S n' => v ← load I32 off mem; vs ← load_ints n' (off + 4) mem; Ret (v :: vs)
  end.

(** The [while (1)] of [Next]; every turn without a row ends a table, so
    [num_tables_left] turns are enough; [Undef] without fuel. *)
Fixpoint reader_next_loop (fuel : nat) (started_new_table : bool) (r : SerializedOpLogReader)
    : outcome (option oplog_entry * SerializedOpLogReader) :=
  if bool_decide (0 < rd_rows_left r) then
    row_id ← load I32 (rd_offset r) (rd_mem r);
    num_updates ← load I32 (rd_offset r + 4) (rd_mem r);
    let off := rd_offset r + 8 in
    column_ids ← load_ints (Z.to_nat num_updates) off (rd_mem r);
    updates ← mem_read (off + 4 * num_updates) (num_updates * rd_update_size r) (rd_mem r);
    Ret (Some (mkEntry (rd_current_table_id r) row_id column_ids updates started_new_table),
         mkReader (rd_mem r) (rd_update_size r)
           (i32 (off + num_updates * (4 + rd_update_size r)))
           (rd_num_tables_left r) (rd_current_table_id r) (rd_rows_left r - 1))
  else
    let left := rd_num_tables_left r - 1 in
    let r1 := mkReader (rd_mem r) (rd_update_size r) (rd_offset r) left
                (rd_current_table_id r) (rd_rows_left r) in
    if bool_decide (0 < left) then
      match fuel with
      | O => Undef
      | S fuel' => r2 ← StartNewTable r1; reader_next_loop fuel' true r2
      end
    else Ret (None, r1).

Definition Reader_Next (r : SerializedOpLogReader)
    : outcome (option oplog_entry * SerializedOpLogReader) :=
  if bool_decide (rd_num_tables_left r = 0) then Ret (None, r)
  else reader_next_loop (Z.to_nat (rd_num_tables_left r)) false r.

(** The server's loop: read until [Next] returns null. *)
Fixpoint reader_rest (fuel : nat) (r : SerializedOpLogReader) : outcome (list oplog_entry) :=
  match fuel with
  | O => Undef
  | S fuel' =>
      '(e, r') ← Reader_Next r;
      match e with
      | None => Ret []
      | Some e => es ← reader_rest fuel' r'; Ret (e :: es)
      end
  end.

Definition reader_all (fuel : nat) (mem : list Z) : outcome (list oplog_entry) :=
  '(nonempty, r) ← Reader_Restart (Reader_new mem);
  if (nonempty : bool) then reader_rest fuel r else Ret [].

(** ** The layout *)

Definition row_bytes (row_id : Z) (es : list (Z * V)) : list Z :=
  cencode I32 row_id ++ cencode I32 (Z.of_nat (length es))
    ++ concat (cencode I32 <$> es.*1) ++ v_array_bytes es.*2.

Definition table_rows_bytes (rows : list (Z * list (Z * V))) : list Z :=
  cencode I32 (Z.of_nat (length rows)) ++ concat ((fun r => row_bytes r.1 r.2) <$> rows).

(** A table: its id and its rows. *)
Definition table_bytes (t : Z * list (Z * list (Z * V))) : list Z :=
  cencode I32 t.1 ++ cencode U64 v_size ++ table_rows_bytes t.2.

Definition message_bytes (tables : list (Z * list (Z * list (Z * V)))) : list Z :=
  cencode I32 (Z.of_nat (length tables)) ++ concat (table_bytes <$> tables).

Lemma blen_ints (l : list Z) : blen (concat (cencode I32 <$> l)) = 4 * Z.of_nat (length l).
Proof.
  induction l as [|c l IH]; [done|]. rewrite fmap_cons. cbn [concat length].
  rewrite blen_app, blen_cencode, IH. simpl csize. lia.
Qed.

Lemma blen_row_bytes row_id es :
  blen (row_bytes row_id es) = 8 + (4 + v_size) * Z.of_nat (length es).
Proof.
  unfold row_bytes. rewrite !blen_app, !blen_cencode, blen_ints, v_array_bytes_length.
  rewrite !length_fmap. simpl csize. lia.
Qed.
Lemma blen_rows_ge (rows : list (Z * list (Z * V))) :
  Z.of_nat (length rows) <= blen (concat ((fun r => row_bytes r.1 r.2) <$> rows)).
Proof.
  induction rows as [|x rows IH]; [done|]. rewrite fmap_cons. cbn [concat length].
  rewrite blen_app, blen_row_bytes. pose proof v_size_pos. nia.
Qed.

Lemma blen_tables_ge (tables : list (Z * list (Z * list (Z * V)))) :
  Z.of_nat (length tables) <= blen (concat (table_bytes <$> tables)).
Proof.
  induction tables as [|t tables IH]; [done|]. rewrite fmap_cons. cbn [concat length].
  unfold table_bytes at 1. rewrite !blen_app, !blen_cencode. simpl csize. unfold blen in *. lia.
Qed.

(** ** What the reader returns *)

Definition row_entry (flag : bool) (table_id : Z) (row : Z * list (Z * V)) : oplog_entry :=
  mkEntry table_id row.1 row.2.*1 (v_array_bytes row.2.*2) flag.

(** Only the first row of a table other than the first starts a new one. *)
Definition table_entries (flag : bool) (table_id : Z) (rows : list (Z * list (Z * V)))
    : list oplog_entry :=
  match rows with
  | [] => []
  | row :: rows' => row_entry flag table_id row :: (row_entry false table_id <$> rows')
  end.

Definition remaining_entries (flag : bool) (table_id : Z) (rows : list (Z * list (Z * V)))
    (tables : list (Z * list (Z * list (Z * V)))) : list oplog_entry :=
  table_entries flag table_id rows ++ concat ((fun t => table_entries true t.1 t.2) <$> tables).

Definition message_entries (tables : list (Z * list (Z * list (Z * V)))) : list oplog_entry :=
  match tables with
  | [] => []
  | t :: ts => remaining_entries false t.1 t.2 ts
  end.

Definition row_ids_ok (row : Z * list (Z * V)) : Prop :=
  in_i32 row.1 /\ Forall (fun e => in_i32 e.1) row.2.
Definition table_ids_ok (t : Z * list (Z * list (Z * V))) : Prop :=
  in_i32 t.1 /\ Forall row_ids_ok t.2.

Lemma load_ints_seg (l : list Z) p r off : Forall in_i32 l -> off = blen p ->
  load_ints (length l) off (p ++ concat (cencode I32 <$> l) ++ r) = Ret l.
Proof.
  intros Hl. revert p off. induction Hl as [|c l Hc _ IH]; intros p off Hoff; [done|].
  rewrite fmap_cons. cbn [concat length load_ints]. rewrite <- app_assoc.
  rewrite (load_seg I32 c p) by done. cbn [mbind outcome_bind].
  rewrite (app_assoc p), IH; [done|]. rewrite blen_app, blen_cencode. simpl csize. lia.
Qed.

Lemma load_row p row_id es r off :
  in_i32 row_id -> Forall (fun e => in_i32 e.1) es -> Z.of_nat (length es) < 2 ^ 31 -> off = blen p ->
  let mem := p ++ row_bytes row_id es ++ r in
  load I32 off mem = Ret row_id /\
  load I32 (off + 4) mem = Ret (Z.of_nat (length es)) /\
  load_ints (length es) (off + 8) mem = Ret es.*1 /\
  mem_read (off + 8 + 4 * Z.of_nat (length es)) (Z.of_nat (length es) * v_size) mem
    = Ret (v_array_bytes es.*2).
Proof.
  intros Hr Hes Hn -> mem. unfold mem, row_bytes. rewrite <- !app_assoc. split_and!.
  - by apply load_seg.
  - rewrite app_assoc. apply load_seg; [simpl; unfold in_i32; lia|]. by rewrite blen_app, blen_cencode.
  - rewrite (app_assoc (cencode I32 row_id)), (app_assoc p). rewrite <- (length_fmap fst es).
    apply load_ints_seg; [by apply Forall_fmap|]. rewrite !blen_app, !blen_cencode. simpl csize. lia.
  - rewrite (app_assoc (cencode I32 _)), (app_assoc (cencode I32 row_id ++ _)), (app_assoc p).
    apply mem_read_seg'.
    + rewrite !blen_app, !blen_cencode, blen_ints, length_fmap. simpl csize. lia.
    + rewrite v_array_bytes_length, length_fmap. lia.
Qed.

(** The reader is at the rows [rows] of table [table_id], before [tables]. *)
Record reader_at (r : SerializedOpLogReader) (table_id : Z) (rows : list (Z * list (Z * V)))
    (tables : list (Z * list (Z * list (Z * V)))) : Prop := {
  ra_mem : exists p rest, rd_mem r = p ++ concat ((fun x => row_bytes x.1 x.2) <$> rows)
                                       ++ concat (table_bytes <$> tables) ++ rest /\ rd_offset r = blen p;
  ra_size : rd_update_size r = v_size;
  ra_table : rd_current_table_id r = table_id;
  ra_rows : rd_rows_left r = Z.of_nat (length rows);
  ra_tables : rd_num_tables_left r = 1 + Z.of_nat (length tables);
  ra_bound : blen (rd_mem r) < 2 ^ 31;
  ra_row_ids : Forall row_ids_ok rows;
  ra_table_ids : Forall table_ids_ok tables
}.

Lemma StartNewTable_spec mem us off left cur rl t tables p rest :
  mem = p ++ table_bytes t ++ concat (table_bytes <$> tables) ++ rest -> off = blen p ->
  left = 1 + Z.of_nat (length tables) -> blen mem < 2 ^ 31 -> v_size < 2 ^ 31 ->
  table_ids_ok t -> Forall table_ids_ok tables ->
  exists r', StartNewTable (mkReader mem us off left cur rl) = Ret r' /\ reader_at r' t.1 t.2 tables.
Proof.
  intros Hm Hoff Hleft Hb Hv [Ht Hrows] Htables. destruct t as [tid rows]. cbn [fst snd] in *.
  pose proof v_size_pos as Hvp.
  assert (Hn : Z.of_nat (length rows) < 2 ^ 31 /\ blen p + 16 < 2 ^ 31).
  { rewrite Hm in Hb. unfold table_bytes, table_rows_bytes in Hb. cbn [fst snd] in Hb.
    rewrite !blen_app, !blen_cencode in Hb. simpl csize in Hb.
    pose proof (blen_rows_ge rows).
    unfold blen in *. lia. }
  destruct Hn as [Hn Hp]. assert (0 <= blen p) by (unfold blen; lia).
  unfold StartNewTable.
  cbn [rd_mem rd_update_size rd_offset rd_num_tables_left rd_current_table_id rd_rows_left].
  rewrite (i32_id (off + 4)) by (unfold in_i32; lia).
  rewrite (i32_id (off + 4 + 8)), (i32_id (off + 4 + 8 + 4)) by (unfold in_i32; lia).
  assert (E1 : load I32 off mem = Ret tid).
  { rewrite Hm. unfold table_bytes. rewrite <- !app_assoc. by apply load_seg. }
  assert (E2 : load U64 (off + 4) mem = Ret v_size).
  { rewrite Hm. unfold table_bytes. rewrite <- !app_assoc. cbn [fst]. rewrite app_assoc.
    apply load_seg; [simpl; unfold in_u64; lia|]. rewrite blen_app, blen_cencode, Hoff. done. }
  assert (E3 : load I32 (off + 4 + 8) mem = Ret (Z.of_nat (length rows))).
  { rewrite Hm. unfold table_bytes, table_rows_bytes. rewrite <- !app_assoc. cbn [fst snd].
    rewrite (app_assoc (cencode I32 tid)), app_assoc.
    apply load_seg; [simpl; unfold in_i32; lia|]. rewrite !blen_app, !blen_cencode, Hoff. simpl csize. lia. }
  rewrite E1. cbn [mbind outcome_bind]. rewrite E2. cbn [mbind outcome_bind]. rewrite E3.
  cbn [mbind outcome_bind]. eexists. split; [done|].
  constructor; cbn [rd_mem rd_update_size rd_offset rd_num_tables_left rd_current_table_id rd_rows_left];
    try done.
  exists (p ++ cencode I32 tid ++ cencode U64 v_size ++ cencode I32 (Z.of_nat (length rows))), rest.
  split.
  - rewrite Hm. unfold table_bytes, table_rows_bytes. cbn [fst snd]. by rewrite <- !app_assoc.
  - rewrite !blen_app, !blen_cencode. simpl csize. lia.
Qed.

(** [Next] in the middle of a table. *)
Lemma reader_next_row fuel flag r table_id row rows tables :
  reader_at r table_id (row :: rows) tables -> v_size < 2 ^ 31 ->
  exists r', reader_next_loop fuel flag r = Ret (Some (row_entry flag table_id row), r') /\
             reader_at r' table_id rows tables.
Proof.
  intros [(p & rest & Hm & Hoff) Hs Ht Hr Htab Hb Hids Htids] Hv.
  destruct row as [row_id es]. apply Forall_cons in Hids as [[Hrow Hes] Hids].
  simpl in Hrow, Hes. pose proof v_size_pos as Hvp. assert (Hp0 : 0 <= blen p) by (unfold blen; lia).
  rewrite fmap_cons in Hm. cbn [concat fst snd] in Hm. rewrite <- !app_assoc in Hm.
  assert (Hlen : blen p + (8 + (4 + v_size) * Z.of_nat (length es)) < 2 ^ 31).
  { rewrite Hm, !blen_app, blen_row_bytes in Hb. unfold blen in *. lia. }
  destruct (load_row p row_id es
    (concat ((fun x => row_bytes x.1 x.2) <$> rows) ++ concat (table_bytes <$> tables) ++ rest)
    (rd_offset r) Hrow Hes ltac:(nia) Hoff) as (E1 & E2 & E3 & E4).
  cbv zeta in E1, E2, E3, E4. rewrite <- Hm in E1, E2, E3, E4.
  eexists. split.
  - destruct fuel; cbn [reader_next_loop]; rewrite bool_decide_true by (rewrite Hr; simpl length; lia).
    all: rewrite E1; cbn [mbind outcome_bind]; rewrite E2; cbn [mbind outcome_bind];
      rewrite Nat2Z.id, E3; cbn [mbind outcome_bind]; rewrite Hs, E4; cbn [mbind outcome_bind].
    all: rewrite Ht; reflexivity.
  - constructor; cbn [rd_mem rd_update_size rd_offset rd_num_tables_left rd_current_table_id rd_rows_left];
      try done; [|rewrite Hr; simpl length; lia].
    exists (p ++ row_bytes row_id es), rest. split; [rewrite Hm; by rewrite <- !app_assoc|].
    rewrite blen_app, blen_row_bytes, i32_id by (unfold in_i32; lia). lia.
Qed.

Lemma reader_next_loop_spec fuel flag r table_id rows tables :
  reader_at r table_id rows tables -> v_size < 2 ^ 31 -> (length tables <= fuel)%nat ->
  match remaining_entries flag table_id rows tables with
  | [] => exists r', reader_next_loop fuel flag r = Ret (None, r')
  | e :: es => exists r' tid' rows' tables',
      reader_next_loop fuel flag r = Ret (Some e, r') /\
      reader_at r' tid' rows' tables' /\ remaining_entries false tid' rows' tables' = es
  end.
Proof.
  intros Hat Hv. revert fuel flag r table_id rows Hat. induction tables as [|t tables IH];
    intros fuel flag r table_id rows Hat Hf.
  all: destruct rows as [|row rows]; [|
    destruct (reader_next_row fuel flag r table_id row rows _ Hat Hv) as (r' & E & Hat');
    cbn [remaining_entries table_entries app]; do 4 eexists; split; [exact E|]; split; [exact Hat'|];
    unfold remaining_entries; f_equal; by destruct rows].
  all: destruct Hat as [(p & rest & Hm & Hoff) Hs Ht Hr Htab Hb Hids Htids].
  - destruct fuel; cbn [reader_next_loop]; rewrite bool_decide_false by (rewrite Hr; simpl; lia);
      rewrite Htab; rewrite bool_decide_false by (simpl; lia); eexists; reflexivity.
  - destruct fuel as [|fuel]; [simpl in Hf; lia|]. cbn [reader_next_loop].
    rewrite bool_decide_false by (rewrite Hr; simpl; lia). rewrite Htab.
    rewrite bool_decide_true by (simpl length; lia). rewrite fmap_nil in Hm. cbn [concat app] in Hm.
    rewrite fmap_cons in Hm. cbn [concat] in Hm. rewrite <- app_assoc in Hm.
    apply Forall_cons in Htids as [Ht1 Ht2].
    destruct (StartNewTable_spec (rd_mem r) (rd_update_size r) (rd_offset r)
      (1 + Z.of_nat (length (t :: tables)) - 1) (rd_current_table_id r) (rd_rows_left r) t tables p rest)
      as (r2 & -> & Hat2); try done; [simpl length; lia|]. cbn [mbind outcome_bind].
    specialize (IH fuel true r2 t.1 t.2 Hat2 ltac:(simpl in Hf; lia)). exact IH.
Qed.

Lemma reader_rest_spec fuel r table_id rows tables :
  reader_at r table_id rows tables -> v_size < 2 ^ 31 ->
  (length (remaining_entries false table_id rows tables) < fuel)%nat ->
  reader_rest fuel r = Ret (remaining_entries false table_id rows tables).
Proof.
  intros Hat Hv. revert r table_id rows tables Hat. induction fuel as [|fuel IH]; intros r tid rows tables Hat Hf; [lia|].
  pose proof (reader_next_loop_spec (Z.to_nat (rd_num_tables_left r)) false r tid rows tables Hat Hv) as H1.
  destruct Hat as [_ _ _ _ Htab _ _ _]. specialize (H1 ltac:(rewrite Htab; lia)).
  cbn [reader_rest]. unfold Reader_Next. rewrite bool_decide_false by lia.
  destruct (remaining_entries false tid rows tables) as [|e es].
  - destruct H1 as [r' ->]. done.
  - destruct H1 as (r' & tid' & rows' & tables' & -> & Hat' & Hes). cbn [mbind outcome_bind].
    rewrite (IH r' tid' rows' tables' Hat'); [by rewrite Hes|]. rewrite Hes. simpl in Hf. lia.
Qed.

(** The reader gives back the rows of a message, in order. *)
Lemma reader_all_spec tables fuel :
  Forall table_ids_ok tables -> blen (message_bytes tables) < 2 ^ 31 -> v_size < 2 ^ 31 ->
  (length (message_entries tables) < fuel)%nat ->
  reader_all fuel (message_bytes tables) = Ret (message_entries tables).
Proof.
  intros Hids Hb Hv Hf. unfold reader_all, Reader_Restart. simpl rd_mem.
  assert (Hlen : Z.of_nat (length tables) < 2 ^ 31).
  { unfold message_bytes in Hb. rewrite blen_app, blen_cencode in Hb. simpl csize in Hb.
    pose proof (blen_tables_ge tables).
    lia. }
  assert (E : load I32 0 (message_bytes tables) = Ret (Z.of_nat (length tables))).
  { apply (load_seg I32 _ []); [simpl; unfold in_i32; lia|done]. }
  rewrite E. cbn [mbind outcome_bind]. destruct tables as [|t tables].
  { by rewrite bool_decide_true. }
  rewrite bool_decide_false by (simpl length; lia).
  apply Forall_cons in Hids as [Ht Hids].
  destruct (StartNewTable_spec (message_bytes (t :: tables)) 0 4 (Z.of_nat (length (t :: tables))) 0 0 t tables
    (cencode I32 (Z.of_nat (length (t :: tables)))) []) as (r & Er & Hat); try done.
  { unfold message_bytes. rewrite fmap_cons. cbn [concat]. by rewrite app_nil_r. }
  { simpl length. lia. }
  simpl rd_update_size. simpl rd_current_table_id. simpl rd_rows_left. rewrite Er.
  cbn [mbind outcome_bind]. by apply (reader_rest_spec fuel r).
Qed.

(** ** What [SerializeByServer] writes *)

Lemma write_updates_seg es p xc q xv r mem_off upd_off :
  blen xc = 4 * Z.of_nat (length es) -> blen xv = v_size * Z.of_nat (length es) ->
  mem_off = blen p -> upd_off = blen p + blen xc + blen q ->
  write_updates es mem_off upd_off (p ++ xc ++ q ++ xv ++ r) =
    Ret (p ++ concat (cencode I32 <$> es.*1) ++ q ++ v_array_bytes es.*2 ++ r).
Proof.
  revert p xc q xv mem_off upd_off. induction es as [|[c u] es IH]; intros p xc q xv mo uo Hc Hv -> ->.
  { rewrite Z.mul_0_r in *. destruct xc, xv; done. }
  cbn [length] in Hc, Hv. pose proof v_size_pos.
  destruct (split_region xc 4 (4 * Z.of_nat (length es))) as (c1 & xc' & -> & Hc1 & Hc2); [lia..|].
  destruct (split_region xv v_size (v_size * Z.of_nat (length es))) as (u1 & xv' & -> & Hu1 & Hu2); [nia..|].
  cbn [write_updates]. rewrite <- !app_assoc, (store_seg I32 c p c1) by done.
  cbn [mbind outcome_bind].
  replace (p ++ cencode I32 c ++ xc' ++ q ++ u1 ++ xv' ++ r)
    with ((p ++ cencode I32 c ++ xc' ++ q) ++ u1 ++ (xv' ++ r)) by (by rewrite <- !app_assoc).
  rewrite mem_write_seg'; [|rewrite !blen_app, blen_cencode; simpl csize; lia
                           |by rewrite v_bytes_length].
  cbn [mbind outcome_bind].
  replace ((p ++ cencode I32 c ++ xc' ++ q) ++ v_bytes u ++ xv' ++ r)
    with ((p ++ cencode I32 c) ++ xc' ++ (q ++ v_bytes u) ++ xv' ++ r) by (by rewrite <- !app_assoc).
  rewrite IH; [|done|done|rewrite blen_app, blen_cencode; done|].
  - unfold v_array_bytes. rewrite !fmap_cons. cbn [concat]. by rewrite <- !app_assoc.
  - rewrite !blen_app, blen_cencode, v_bytes_length. simpl csize. lia.
Qed.

Definition row_entries (row : Z * RowOpLog V) : Z * list (Z * V) :=
  (row.1, sorted_entries (oplogs row.2)).

Definition row_size (row : Z * RowOpLog V) : Z := 8 + (4 + v_size) * Z.of_nat (size (oplogs row.2)).

Lemma blen_row_entries row : blen (row_bytes (row_entries row).1 (row_entries row).2) = row_size row.
Proof. rewrite blen_row_bytes. unfold row_size. simpl. by rewrite sorted_entries_length. Qed.

Lemma write_row_seg p x r row off :
  blen x = row_size row -> off = blen p -> row_size row < 2 ^ 31 ->
  write_row off row.1 row.2 (p ++ x ++ r) =
    Ret (p ++ row_bytes (row_entries row).1 (row_entries row).2 ++ r).
Proof.
  destruct row as [row_id l]. unfold row_entries, row_size. cbn [fst snd]. intros Hx -> Hb.
  pose proof v_size_pos. set (n := size (oplogs l)) in *.
  destruct (split_region x 4 (4 + (4 + v_size) * Z.of_nat n)) as (x1 & x' & -> & Hx1 & Hx'); [lia..|].
  destruct (split_region x' 4 ((4 + v_size) * Z.of_nat n)) as (x2 & x'' & -> & Hx2 & Hx''); [lia..|].
  destruct (split_region x'' (4 * Z.of_nat n) (v_size * Z.of_nat n)) as (xc & xv & -> & Hc & Hv); [lia..|].
  unfold write_row, RowOpLog_GetSize. rewrite i32_id by (unfold in_i32; fold n; nia). fold n.
  rewrite <- !app_assoc, (store_seg I32 row_id p x1) by done. cbn [mbind outcome_bind].
  rewrite (app_assoc p). rewrite (store_seg I32 (Z.of_nat n) (p ++ cencode I32 row_id) x2)
    by (done || rewrite blen_app, blen_cencode; done).
  cbn [mbind outcome_bind]. rewrite RowOpLog_iterate_spec. cbn [mbind outcome_bind].
  rewrite (app_assoc (p ++ _)). rewrite <- (app_nil_l (xv ++ r)).
  rewrite write_updates_seg.
  - unfold row_bytes. rewrite sorted_entries_length. fold n. by rewrite <- !app_assoc.
  - by rewrite sorted_entries_length.
  - by rewrite sorted_entries_length.
  - rewrite !blen_app, !blen_cencode. simpl csize. lia.
  - rewrite !blen_app, !blen_cencode. change (blen []) with 0. simpl csize. lia.
Qed.

Section SERIALIZE.
Context (g : GlobalContext) (p : BgOpLogPartition) (bytes_by_server : gmap Z Z).
Context (pre post : Z -> list Z).

(** The rows of a server. *)
Definition rows_of (s : Z) (rows : list (Z * RowOpLog V)) : list (Z * RowOpLog V) :=
  filter (fun row => server_ids g !! Z.to_nat (row.1 mod num_servers g) = Some s) rows.

Definition server_rows_bytes (s : Z) (rows : list (Z * RowOpLog V)) : list Z :=
  table_rows_bytes (row_entries <$> rows_of s rows).

Definition rows_size (rows : list (Z * RowOpLog V)) : Z :=
  foldr (fun row n => row_size row + n) 0 rows.

Lemma row_size_pos row : 8 <= row_size row.
Proof. unfold row_size. pose proof v_size_pos. nia. Qed.

Lemma rows_size_nonneg rows : 0 <= rows_size rows.
Proof. induction rows as [|row rows IH]; simpl; [done|]. pose proof (row_size_pos row). lia. Qed.

Lemma blen_table_rows rows :
  blen (table_rows_bytes (row_entries <$> rows)) = 4 + rows_size rows.
Proof.
  unfold table_rows_bytes. rewrite blen_app, blen_cencode. simpl csize. f_equal.
  induction rows as [|row rows IH]; [done|]. rewrite !fmap_cons. cbn [concat].
  rewrite blen_app, blen_row_entries, IH. done.
Qed.

(** After [done], with [todo] to come. *)
Definition ser_inv (done todo : list (Z * RowOpLog V)) (st : gmap Z Z * gmap Z (list Z)) : Prop :=
  forall s, s ∈ server_ids g -> exists junk,
    st.2 !! s = Some (pre s ++ server_rows_bytes s done ++ junk ++ post s) /\
    st.1 !! s = Some (4 + rows_size (rows_of s done)) /\
    blen junk = rows_size (rows_of s todo) /\
    4 + rows_size (rows_of s done) + blen junk < 2 ^ 31 /\
    Z.of_nat (length (rows_of s done)) <= rows_size (rows_of s done).

Lemma rows_of_app s l1 l2 : rows_of s (l1 ++ l2) = rows_of s l1 ++ rows_of s l2.
Proof. apply filter_app. Qed.

Lemma rows_size_app l1 l2 : rows_size (l1 ++ l2) = rows_size l1 + rows_size l2.
Proof. induction l1 as [|row l1 IH]; simpl; [done|]. lia. Qed.

Lemma rows_of_single s row :
  rows_of s [row] = if decide (server_ids g !! Z.to_nat (row.1 mod num_servers g) = Some s)
                    then [row] else [].
Proof. unfold rows_of. rewrite filter_cons. by destruct (decide _). Qed.

Lemma serialize_row_spec done row todo st :
  context_ok g -> 0 <= row.1 -> bop_update_size p = v_size ->
  (forall s, s ∈ server_ids g -> bytes_by_server !! s = Some (blen (pre s))) ->
  ser_inv done (row :: todo) st ->
  exists st', serialize_row g (bop_table_id p) (bop_update_size p) bytes_by_server row st = Ret st' /\
    ser_inv (done ++ [row]) todo st'.
Proof.
  intros Hg Hrow Hus Hbase Hinv.
  destruct (GetRowPartitionServerID_total g (bop_table_id p) row.1 Hg Hrow) as (s0 & E0 & Hs0).
  pose proof E0 as Elook. rewrite GetRowPartitionServerID_Ret in Elook by done.
  destruct (Hinv s0 Hs0) as (junk & Hmem & Hoff & Hjunk & Hbnd & Hcnt).
  assert (Hof : rows_of s0 (row :: todo) = row :: rows_of s0 todo).
  { unfold rows_of. rewrite filter_cons. by rewrite decide_True. }
  rewrite Hof in Hjunk. cbn [rows_size foldr] in Hjunk. fold (rows_size (rows_of s0 todo)) in Hjunk.
  pose proof (rows_size_nonneg (rows_of s0 todo)). pose proof (row_size_pos row).
  pose proof (rows_size_nonneg (rows_of s0 done)).
  destruct (split_region junk (row_size row) (rows_size (rows_of s0 todo))) as (x & junk' & -> & Hx & Hj);
    [lia..|].
  rewrite blen_app in Hbnd.
  destruct row as [row_id l]. destruct st as [offs mems]. cbn [fst snd] in *.
  unfold serialize_row. rewrite E0. cbn [mbind outcome_bind]. rewrite (Hbase s0 Hs0). cbn [deref mbind outcome_bind].
  rewrite Hoff, Hmem. cbn [deref mbind outcome_bind default from_option id].
  rewrite <- (app_assoc x). rewrite (app_assoc (pre s0)).
  rewrite (write_row_seg (pre s0 ++ server_rows_bytes s0 done) x (junk' ++ post s0) (row_id, l));
    [|done|by rewrite blen_app; unfold server_rows_bytes; rewrite blen_table_rows|lia].
  cbn [mbind outcome_bind]. set (rb := row_bytes _ _).
  set (cnt := Z.of_nat (length (rows_of s0 done))) in *.
  assert (Hcnt0 : 0 <= cnt) by (unfold cnt; lia).
  set (blocks := concat ((fun r => row_bytes r.1 r.2) <$> (row_entries <$> rows_of s0 done))).
  assert (Hsb : server_rows_bytes s0 done = cencode I32 cnt ++ blocks).
  { unfold server_rows_bytes, table_rows_bytes. by rewrite length_fmap. }
  rewrite Hsb, <- !app_assoc, load_seg by (done || (simpl; unfold in_i32; lia)).
  cbn [mbind outcome_bind]. rewrite store_seg by (done || by rewrite blen_cencode).
  cbn [mbind outcome_bind]. rewrite (i32_id (cnt + 1)) by (unfold in_i32; lia).
  eexists. split; [done|].
  assert (Hnew : server_rows_bytes s0 (done ++ [(row_id, l)]) = cencode I32 (cnt + 1) ++ blocks ++ rb).
  { unfold server_rows_bytes. rewrite rows_of_app, rows_of_single, decide_True by done.
    unfold table_rows_bytes. rewrite length_fmap, length_app. simpl length.
    rewrite !fmap_app, concat_app. f_equal; [f_equal; lia|]. f_equal. cbn. by rewrite app_nil_r. }
  assert (Hsz : rows_size (rows_of s0 (done ++ [(row_id, l)])) = rows_size (rows_of s0 done) + row_size (row_id, l)).
  { rewrite rows_of_app, rows_of_single, decide_True, rows_size_app by done. simpl. lia. }
  intros s Hs. destruct (decide (s = s0)) as [->|Hne].
  - exists junk'. cbn [fst snd]. rewrite !lookup_insert_eq. split_and!.
    + rewrite Hnew. by rewrite <- !app_assoc.
    + f_equal. rewrite Hsz. unfold RowOpLog_GetSize. rewrite Hus.
      unfold row_size in *. cbn [fst snd] in *.
      assert (Z.of_nat (size (oplogs l)) < 2 ^ 31) by (pose proof v_size_pos; nia).
      rewrite (i32_id (Z.of_nat _)) by (unfold in_i32; lia).
      rewrite i32_id by (unfold in_i32; pose proof v_size_pos; nia). lia.
    + done.
    + lia.
    + rewrite Hsz, rows_of_app, rows_of_single, decide_True, length_app by done. simpl length. lia.
  - destruct (Hinv s Hs) as (jk & H1' & H2' & H3' & H4' & H5'). exists jk. cbn [fst snd] in *.
    assert (Hnot : ~ server_ids g !! Z.to_nat (row_id mod num_servers g) = Some s) by congruence.
    assert (Hsame : rows_of s (done ++ [(row_id, l)]) = rows_of s done).
    { rewrite rows_of_app, rows_of_single, decide_False by done. by rewrite app_nil_r. }
    assert (Htodo : rows_of s ((row_id, l) :: todo) = rows_of s todo).
    { unfold rows_of. by rewrite filter_cons, decide_False. }
    unfold server_rows_bytes in *. rewrite Hsame, !lookup_insert_ne by done. rewrite <- Htodo.
    split_and!; done.
Qed.

(** Every server's part starts with a count of zero. *)
Lemma init_servers_spec (x : Z -> list Z) L st :
  NoDup L ->
  (forall s, s ∈ L -> bytes_by_server !! s = Some (blen (pre s)) /\
     st.2 !! s = Some (pre s ++ x s ++ post s) /\ 4 <= blen (x s)) ->
  exists st', foldM (fun st s => init_server bytes_by_server s st) L st = Ret st' /\
    (forall s, s ∈ L -> st'.2 !! s = Some (pre s ++ cencode I32 0 ++ drop 4 (x s) ++ post s) /\
                        st'.1 !! s = Some 4) /\
    (forall s, s ∉ L -> st'.2 !! s = st.2 !! s /\ st'.1 !! s = st.1 !! s).
Proof.
  revert st. induction L as [|s0 L IH]; intros st Hnd Hs.
  { exists st. split; [done|]. split; [by intros s ?%elem_of_nil|done]. }
  apply NoDup_cons in Hnd as [Hs0 Hnd]. destruct st as [offs mems].
  destruct (Hs s0 ltac:(by left)) as (Hb & Hm & Hx). cbn [fst snd] in Hm.
  assert (Hsplit : x s0 = take 4 (x s0) ++ drop 4 (x s0)) by (by rewrite take_drop).
  assert (E : init_server bytes_by_server s0 (offs, mems) =
    Ret (<[s0:=4]> offs, <[s0:=pre s0 ++ cencode I32 0 ++ drop 4 (x s0) ++ post s0]> mems)).
  { unfold init_server, server_write. rewrite Hb. cbn [deref mbind outcome_bind].
    rewrite Hm. cbn [deref mbind outcome_bind].
    rewrite Hsplit at 1. rewrite <- (app_assoc (take 4 (x s0))).
    by rewrite mem_write_seg by
      (rewrite blen_cencode; unfold blen in *; rewrite length_take; simpl csize; lia). }
  cbn [foldM]. rewrite E. cbn [mbind outcome_bind].
  destruct (IH (<[s0:=4]> offs, <[s0:=pre s0 ++ cencode I32 0 ++ drop 4 (x s0) ++ post s0]> mems) Hnd)
    as (st' & -> & Hin & Hout).
  { intros s Hin. destruct (Hs s ltac:(by right)) as (H1' & H2' & H3').
    cbn [fst snd] in *. rewrite lookup_insert_ne by congruence. done. }
  exists st'. split; [done|]. split.
  - intros s [->|Hin']%elem_of_cons; [|by apply Hin].
    destruct (Hout s0 Hs0) as [-> ->]. cbn [fst snd]. by rewrite !lookup_insert_eq.
  - intros s [Hne Hnin]%not_elem_of_cons. destruct (Hout s Hnin) as [-> ->]. cbn [fst snd].
    by rewrite !lookup_insert_ne by done.
Qed.

Lemma serialize_rows_spec done todo st :
  context_ok g -> Forall (fun row => 0 <= row.1) todo -> bop_update_size p = v_size ->
  (forall s, s ∈ server_ids g -> bytes_by_server !! s = Some (blen (pre s))) ->
  ser_inv done todo st ->
  exists st', foldM (fun s row => serialize_row g (bop_table_id p) (bop_update_size p)
                                    bytes_by_server row s) todo st = Ret st' /\
    ser_inv (done ++ todo) [] st'.
Proof.
  intros Hg Hids Hus Hbase. revert done st. induction Hids as [|row todo Hrow _ IH]; intros done st Hinv.
  { exists st. by rewrite app_nil_r. }
  destruct (serialize_row_spec done row todo st Hg Hrow Hus Hbase Hinv) as (st1 & E & Hinv1).
  cbn [foldM]. rewrite E. cbn [mbind outcome_bind].
  destruct (IH (done ++ [row]) st1 Hinv1) as (st' & -> & Hinv'). exists st'. split; [done|].
  by rewrite <- app_assoc in Hinv'.
Qed.

(** Every server's memory gets the rows that belong to it. *)
Lemma SerializeByServer_spec (x : Z -> list Z) rows mems :
  context_ok g -> Forall (fun row => 0 <= row.1) rows -> bop_update_size p = v_size ->
  (forall s, s ∈ server_ids g -> bytes_by_server !! s = Some (blen (pre s)) /\
     mems !! s = Some (pre s ++ x s ++ post s) /\
     blen (x s) = 4 + rows_size (rows_of s rows) /\ blen (x s) < 2 ^ 31) ->
  exists mems', SerializeByServer g rows p bytes_by_server mems = Ret mems' /\
    (forall s, s ∈ server_ids g -> mems' !! s = Some (pre s ++ server_rows_bytes s rows ++ post s)).
Proof.
  intros Hg Hids Hus Hs. unfold SerializeByServer.
  destruct (init_servers_spec x (server_ids g) (∅, mems)) as (st & -> & Hin & _).
  { apply Hg. }
  { intros s Hin. destruct (Hs s Hin) as (H1' & H2' & H3' & _). split_and!; [done..|].
    pose proof (rows_size_nonneg (rows_of s rows)). lia. }
  cbn [mbind outcome_bind].
  destruct (serialize_rows_spec [] rows st Hg Hids Hus) as (st' & -> & Hinv).
  { intros s Hin'. by apply Hs. }
  { intros s Hin'. destruct (Hin s Hin') as [Hm Ho]. destruct (Hs s Hin') as (_ & _ & Hx & Hxb).
    exists (drop 4 (x s)). rewrite Hm, Ho. change (rows_of s []) with (@nil (Z * RowOpLog V)).
    assert (Hd : blen (drop 4 (x s)) = rows_size (rows_of s rows)).
    { pose proof (rows_size_nonneg (rows_of s rows)). unfold blen in *. rewrite length_drop. lia. }
    rewrite Hd. split_and!; try done. cbn [rows_size foldr]. lia. }
  cbn [mbind outcome_bind]. eexists. split; [done|]. intros s Hin'.
  destruct (Hinv s Hin') as (junk & Hm & _ & Hj & _). change (rows_size (rows_of s [])) with 0 in Hj.
  assert (junk = []) as -> by (apply nil_length_inv; unfold blen in Hj; lia).
  done.
Qed.
End SERIALIZE.
End WIRE.
Arguments BgOpLogPartition : clear implicits.
Abbreviation BgOpLog V := (gmap Z (BgOpLogPartition V)).
