(* ===== verification/OpLogMsgs.v ===== *)
(** * From the oplogs of the tables to the servers' messages

    [BgWorkers::GetOpLogAndIndex] and [BgWorkers::CreateOpLogMsgs]
    ([petuum_ps/thread/bg_workers.cpp]): at the end of a clock a background
    thread takes the oplogs of its rows out of every table, computes the size
    of each server's message and writes the messages.  The main theorem
    follows the updates to what the servers read. *)
From S2P Require Import Prelude Bytes Num SparseRow Context OpLog OpLogWire.
Open Scope Z_scope.

Section MSGS.
Context {V : Type} `{NumOk V}.

(** What the background thread uses of a client table: its id, its oplog, and
    the rows of the thread's oplog index, in the index's iteration order. *)
Record bg_table := mkBgTable {
  bt_id : Z;
  bt_oplog : TableOpLog V;
  bt_index : list Z
}.

(** The loop body over the index: [table_num_bytes_by_server] and the new
    partition grow; rows without an oplog are skipped. *)
Definition collect_row (g : GlobalContext) (table_id : Z)
    (st : TableOpLog V * BgOpLogPartition V * gmap Z Z) (row_id : Z)
    : outcome (TableOpLog V * BgOpLogPartition V * gmap Z Z) :=
  let '(t, p, bytes) := st in
  '(found, t') ← TableOpLog_GetEraseOpLog g row_id t;
  match found with
  | None => Ret (t', p, bytes)
  | Some l =>
      server_id ← GetRowPartitionServerID g table_id row_id;
      let num_updates := RowOpLog_GetSize l in
      let n := u64 (default 0 (bytes !! server_id)
                    + (4 + 4 + 4 * num_updates + v_size * num_updates)) in
      Ret (t', BgOpLogPartition_InsertOpLog row_id l p, <[server_id := n]> bytes)
  end.

(** One table: its emptied oplog, the partition and the sizes by server. *)
Definition get_table_oplog (g : GlobalContext) (t : bg_table)
    : outcome (TableOpLog V * BgOpLogPartition V * gmap Z Z) :=
  foldM (collect_row g (bt_id t)) (bt_index t)
    (bt_oplog t, BgOpLogPartition_new (bt_id t) v_size,
     foldl (fun bytes s => <[s := 4]> bytes) ∅ (server_ids g)).

(** [server_table_oplog_size_map] is kept per table here: a list in the order
    of [tables_], whose ids it has as keys. *)
Definition GetOpLogAndIndex (g : GlobalContext) (tables : list bg_table)
    : outcome (list bg_table * BgOpLog V * list (Z * gmap Z Z)) :=
  foldM (fun '(tables', bg_oplog, sizes) t =>
           '(oplog', p, bytes) ← get_table_oplog g t;
           Ret (tables' ++ [mkBgTable (bt_id t) oplog' []],
                BgOpLog_Add (bt_id t) p bg_oplog, sizes ++ [(bt_id t, bytes)]))
    tables ([], ∅, []).

Definition server_sizes (sizes : list (Z * gmap Z Z)) (server_id : Z) : list (Z * Z) :=
  (fun ts => (ts.1, default 0 (ts.2 !! server_id))) <$> sizes.

(** Table id, update size, and the pointer to its rows. *)
Definition write_table_header (s : OpLogSerializer)
    (st : list Z * list (Z * Z)) (table_id : Z) : outcome (list Z * list (Z * Z)) :=
  let '(mem, ptrs) := st in
  let table_ptr := OpLogSerializer_GetTablePtr table_id s in
  mem1 ← store I32 table_ptr table_id mem;
  mem2 ← store U64 (table_ptr + 4) v_size mem1;
  Ret (mem2, ptrs ++ [(table_id, table_ptr + 4 + 8)]).

(** The message of one server; [alloc] is the content of fresh memory. *)
Definition create_server_msg (alloc : Z -> list Z) (tables : list Z) (sizes : list (Z * Z))
    : outcome (list Z * list (Z * Z)) :=
  let '(total, s) := OpLogSerializer_Init sizes in
  mem ← OpLogSerializer_AssignMem s (alloc total);
  foldM (write_table_header s) tables (mem, []).

(** [table_server_mem_map[table_id][server_id] = pointer]. *)
Definition add_ptr (server_id : Z) (ptrs : gmap Z (gmap Z Z)) (tp : Z * Z) : gmap Z (gmap Z Z) :=
  <[tp.1 := <[server_id := tp.2]> (default ∅ (ptrs !! tp.1))]> ptrs.

Definition create_msg_step (alloc : Z -> list Z) (tables : list Z) (sizes : list (Z * gmap Z Z))
    (st : gmap Z (list Z) * gmap Z (gmap Z Z)) (server_id : Z)
    : outcome (gmap Z (list Z) * gmap Z (gmap Z Z)) :=
  '(mem, tptrs) ← create_server_msg alloc tables (server_sizes sizes server_id);
  Ret (<[server_id := mem]> (fst st), foldl (add_ptr server_id) (snd st) tptrs).

(** The loop over the servers: every server's message memory, and
    [table_server_mem_map]. *)
Definition create_msgs (g : GlobalContext) (alloc : Z -> list Z) (tables : list Z)
    (sizes : list (Z * gmap Z Z)) : outcome (gmap Z (list Z) * gmap Z (gmap Z Z)) :=
  foldM (create_msg_step alloc tables sizes) (server_ids g) (∅, ∅).

(** [order] is the iteration order of a partition's hash map. *)
Definition CreateOpLogMsgs (g : GlobalContext) (alloc : Z -> list Z)
    (order : BgOpLogPartition V -> list (Z * RowOpLog V)) (tables : list Z)
    (bg_oplog : BgOpLog V) (sizes : list (Z * gmap Z Z)) : outcome (gmap Z (list Z)) :=
  '(mems, ptrs) ← create_msgs g alloc tables sizes;
  foldM (fun mems table_id =>
           p ← BgOpLog_Get table_id bg_oplog;
           SerializeByServer g (order p) p (default ∅ (ptrs !! table_id)) mems)
    tables mems.

(** ** Laying out a message *)

Definition layout_size (l : list (Z * Z)) : Z := foldr (fun ts n => ts.2 + 12 + n) 0 l.

Lemma layout_size_nonneg l : Forall (fun ts : Z * Z => 0 <= ts.2) l -> 0 <= layout_size l.
Proof. induction 1; simpl; lia. Qed.

Lemma layout_size_app l1 l2 : layout_size (l1 ++ l2) = layout_size l1 + layout_size l2.
Proof. induction l1; simpl; lia. Qed.

Lemma serializer_offsets (l : list (Z * Z)) total (offs : gmap Z Z) :
  0 <= total -> Forall (fun ts : Z * Z => 0 <= ts.2) l -> total + layout_size l < 2 ^ 64 -> NoDup l.*1 ->
  exists offs' : gmap Z Z, foldl (fun '(total, offsets) ts =>
             (u64 (total + (ts.2 + 4 + 8)), <[ts.1 := total]> offsets)) (total, offs) l
    = (total + layout_size l, offs') /\
    (forall l1 ts l2, l = l1 ++ ts :: l2 -> offs' !! ts.1 = Some (total + layout_size l1)) /\
    (forall t, t ∉ l.*1 -> offs' !! t = offs !! t).
Proof.
  intros Ht Hl. revert total offs Ht. induction Hl as [|[t sz] l Hsz Hl IH]; intros total offs Ht Hb Hnd.
  { exists offs. simpl. rewrite Z.add_0_r. split; [done|]. split; [|done]. by intros [] ? ? ?. }
  rewrite fmap_cons in Hnd. apply NoDup_cons in Hnd as [Hnin Hnd]. cbn [fst snd layout_size foldr] in *.
  fold (layout_size l) in *. pose proof (layout_size_nonneg l Hl).
  cbn [foldl]. cbn [fst snd]. rewrite u64_id by (unfold in_u64; lia).
  destruct (IH (total + (sz + 4 + 8)) (<[t := total]> offs)) as (offs' & -> & H1' & H2'); [lia|lia|done|].
  exists offs'. split; [f_equal; lia|]. split.
  - intros [|ts' l1] ts l2 Heq; injection Heq as <- Heq.
    + rewrite H2' by done. rewrite lookup_insert_eq. simpl. f_equal; lia.
    + rewrite (H1' l1 ts l2 Heq). simpl. f_equal. unfold layout_size. lia.
  - intros t' [Hne Hnin']%not_elem_of_cons. rewrite H2' by done.
    by rewrite lookup_insert_ne by (intros ->; by apply Hne).
Qed.

Definition header_bytes (table_id : Z) : list Z := cencode I32 table_id ++ cencode U64 v_size.

Lemma blen_header t : blen (header_bytes t) = 12.
Proof. unfold header_bytes. by rewrite blen_app, !blen_cencode. Qed.

(** Headers and free space for the rows of each table. *)
Definition laid_out (xs : list (Z * list Z)) : list Z :=
  concat ((fun tx => header_bytes tx.1 ++ tx.2) <$> xs).

(** The pointers to the rows of each table. *)
Fixpoint table_ptrs (base : Z) (sizes : list (Z * Z)) : list (Z * Z) :=
  match sizes with
  | [] => []
  | (t, sz) :: sizes' => (t, base + 12) :: table_ptrs (base + 12 + sz) sizes'
  end.

Lemma write_headers_spec s sizes p rest ptrs :
  Forall (fun ts : Z * Z => 0 <= ts.2) sizes -> blen rest = layout_size sizes ->
  (forall l1 ts l2, sizes = l1 ++ ts :: l2 ->
     OpLogSerializer_GetTablePtr ts.1 s = blen p + layout_size l1) ->
  exists xs, foldM (write_table_header s) sizes.*1 (p ++ rest, ptrs) =
      Ret (p ++ laid_out xs,
           ptrs ++ table_ptrs (blen p) sizes) /\
    ((fun tx => (tx.1, blen tx.2)) <$> xs) = sizes.
Proof.
  intros Hsz. revert p rest ptrs. induction Hsz as [|[t sz] sizes Ht Hsz IH]; intros p rest ptrs Hr Hptr.
  { exists []. cbn [foldM fmap list_fmap layout_size foldr] in *. split; [|done].
    assert (rest = []) as -> by (apply nil_length_inv; unfold blen in Hr; lia).
    by rewrite !app_nil_r. }
  cbn [fst snd layout_size foldr] in Ht, Hr. fold (layout_size sizes) in Hr.
  pose proof (layout_size_nonneg sizes Hsz).
  destruct (split_region rest 4 (8 + (sz + layout_size sizes))) as (r1 & r' & -> & H1' & Hr'); [lia..|].
  destruct (split_region r' 8 (sz + layout_size sizes)) as (r2 & r'' & -> & H2' & Hr''); [lia..|].
  destruct (split_region r'' sz (layout_size sizes)) as (x & rest' & -> & Hx & Hrest'); [lia..|].
  pose proof (Hptr [] (t, sz) sizes eq_refl) as Hp0. cbn [fst layout_size foldr] in Hp0.
  rewrite Z.add_0_r in Hp0.
  assert (Eh : write_table_header s (p ++ r1 ++ r2 ++ x ++ rest', ptrs) t =
    Ret ((p ++ header_bytes t ++ x) ++ rest', ptrs ++ [(t, blen p + 4 + 8)])).
  { unfold write_table_header, header_bytes. rewrite Hp0.
    rewrite (store_seg I32 t p r1) by done. cbn [mbind outcome_bind].
    rewrite (app_assoc p), (store_seg U64 v_size (p ++ cencode I32 t) r2)
      by (done || by rewrite blen_app, blen_cencode).
    cbn [mbind outcome_bind]. by rewrite <- !app_assoc. }
  rewrite fmap_cons. cbn [foldM fst]. rewrite Eh. cbn [mbind outcome_bind].
  destruct (IH (p ++ header_bytes t ++ x) rest' (ptrs ++ [(t, blen p + 4 + 8)]) Hrest') as (xs & E & Hxs).
  { intros l1 ts l2 Heq. rewrite (Hptr ((t, sz) :: l1) ts l2) by (by rewrite Heq).
    cbn [layout_size foldr snd]. rewrite !blen_app, blen_header, Hx. unfold layout_size. lia. }
  exists ((t, x) :: xs). split.
  - rewrite E. f_equal. f_equal.
    + unfold laid_out. rewrite fmap_cons. cbn [concat fst snd]. by rewrite <- !app_assoc.
    + rewrite <- app_assoc. f_equal. cbn [table_ptrs app]. rewrite !blen_app, blen_header, Hx.
      rewrite <- !Z.add_assoc. done.
  - rewrite fmap_cons. cbn [fst snd]. by rewrite Hx, Hxs.
Qed.

Lemma create_server_msg_spec alloc sizes :
  (forall n, 0 <= n -> blen (alloc n) = n) ->
  Forall (fun ts : Z * Z => 0 <= ts.2) sizes -> NoDup sizes.*1 -> 4 + layout_size sizes < 2 ^ 31 ->
  exists xs, create_server_msg alloc sizes.*1 sizes =
      Ret (cencode I32 (Z.of_nat (length sizes)) ++ laid_out xs, table_ptrs 4 sizes) /\
    ((fun tx => (tx.1, blen tx.2)) <$> xs) = sizes.
Proof.
  intros Halloc Hsz Hnd Hb. pose proof (layout_size_nonneg sizes Hsz).
  unfold create_server_msg, OpLogSerializer_Init.
  destruct (serializer_offsets sizes 4 ∅) as (offs & -> & Hoffs & _); [lia|done|lia|done|].
  assert (Hlen : Z.of_nat (length sizes) <= layout_size sizes).
  { clear -Hsz. induction Hsz; simpl length; [done|]. cbn [layout_size foldr] in *.
    unfold layout_size in *. lia. }
  unfold OpLogSerializer_AssignMem. cbn [os_num_tables]. rewrite i32_id by (unfold in_i32; lia).
  destruct (split_region (alloc (4 + layout_size sizes)) 4 (layout_size sizes))
    as (r1 & rest & -> & H1' & H2'); [lia|lia|rewrite Halloc; lia|].
  rewrite (store_seg I32 _ [] r1 rest) by done. cbn [mbind outcome_bind app].
  destruct (write_headers_spec (mkOpLogSerializer offs (Z.of_nat (length sizes))) sizes
    (cencode I32 (Z.of_nat (length sizes))) rest [] Hsz H2') as (xs & E & Hxs).
  - intros l1 ts l2 Heq. unfold OpLogSerializer_GetTablePtr. cbn [offset_map].
    rewrite (Hoffs l1 ts l2 Heq). rewrite blen_cencode. done.
  - exists xs. rewrite E. split; [|done]. by rewrite blen_cencode.
Qed.

(** *** The pointers of all servers *)

Definition ptr_of (ptrs : gmap Z (gmap Z Z)) (t s : Z) : option Z := default ∅ (ptrs !! t) !! s.

Lemma add_ptr_lookup s0 ptrs tp t s :
  ptr_of (add_ptr s0 ptrs tp) t s =
    if bool_decide (tp.1 = t /\ s0 = s) then Some tp.2 else ptr_of ptrs t s.
Proof.
  unfold ptr_of, add_ptr. destruct (decide (tp.1 = t)) as [<-|Hne].
  - rewrite lookup_insert_eq. cbn [default from_option id]. case_bool_decide as Hb.
    + destruct Hb as [_ ->]. by rewrite lookup_insert_eq.
    + rewrite lookup_insert_ne by tauto. done.
  - rewrite lookup_insert_ne by done. by rewrite bool_decide_false by tauto.
Qed.

Lemma add_ptrs_lookup s0 ptrs tptrs t s : NoDup tptrs.*1 ->
  (s <> s0 -> ptr_of (foldl (add_ptr s0) ptrs tptrs) t s = ptr_of ptrs t s) /\
  (forall off, (t, off) ∈ tptrs -> ptr_of (foldl (add_ptr s0) ptrs tptrs) t s0 = Some off) /\
  (t ∉ tptrs.*1 -> ptr_of (foldl (add_ptr s0) ptrs tptrs) t s0 = ptr_of ptrs t s0).
Proof.
  revert ptrs. induction tptrs as [|[t' off'] tptrs IH]; intros ptrs Hnd.
  { split_and!; [done| |done]. by intros off ?%elem_of_nil. }
  rewrite fmap_cons in Hnd |- *. apply NoDup_cons in Hnd as [Hnin Hnd].
  destruct (IH (add_ptr s0 ptrs (t', off')) Hnd) as (H1' & H2' & H3'). cbn [foldl fst] in *. split_and!.
  - intros Hne. rewrite H1', add_ptr_lookup by done. rewrite bool_decide_false; [done|]. intros [_ ?]. congruence.
  - intros off [Heq|Hin]%elem_of_cons; [|by apply H2'].
    injection Heq as -> ->. rewrite H3', add_ptr_lookup by done. by rewrite bool_decide_true.
  - intros [Hne Hni]%not_elem_of_cons. rewrite H3', add_ptr_lookup by done.
    rewrite bool_decide_false; [done|]. cbn [fst]. intros [-> _]. done.
Qed.

Lemma table_ptrs_keys base sizes : (table_ptrs base sizes).*1 = sizes.*1.
Proof.
  revert base. induction sizes as [|[t sz] sizes IH]; intros base; [done|].
  cbn [table_ptrs]. rewrite !fmap_cons. by rewrite IH.
Qed.

Lemma server_sizes_keys sizes s : (server_sizes sizes s).*1 = sizes.*1.
Proof. unfold server_sizes. rewrite <- list_fmap_compose. by apply list_fmap_ext. Qed.

Lemma create_msgs_loop_spec alloc sizes L st :
  (forall n, 0 <= n -> blen (alloc n) = n) -> NoDup L -> NoDup sizes.*1 ->
  (forall s, s ∈ L -> Forall (fun ts : Z * Z => 0 <= ts.2) (server_sizes sizes s) /\
                      4 + layout_size (server_sizes sizes s) < 2 ^ 31) ->
  exists st', foldM (create_msg_step alloc sizes.*1 sizes) L st = Ret st' /\
    (forall s, s ∈ L -> exists xs,
       st'.1 !! s = Some (cencode I32 (Z.of_nat (length sizes)) ++ laid_out xs) /\
       ((fun tx => (tx.1, blen tx.2)) <$> xs) = server_sizes sizes s /\
       (forall t off, (t, off) ∈ table_ptrs 4 (server_sizes sizes s) -> ptr_of st'.2 t s = Some off)) /\
    (forall s t, s ∉ L -> st'.1 !! s = st.1 !! s /\ ptr_of st'.2 t s = ptr_of st.2 t s).
Proof.
  intros Halloc Hnd Hids. revert st. induction L as [|s0 L IH]; intros st Hs.
  { exists st. split; [done|]. split; [by intros s ?%elem_of_nil|done]. }
  apply NoDup_cons in Hnd as [Hnin Hnd]. destruct (Hs s0 ltac:(by left)) as [Hsz Hb].
  destruct (create_server_msg_spec alloc (server_sizes sizes s0) Halloc Hsz) as (xs & E & Hxs);
    [by rewrite server_sizes_keys|done|].
  rewrite server_sizes_keys in E.
  set (mems1 := <[s0 := cencode I32 (Z.of_nat (length (server_sizes sizes s0))) ++ laid_out xs]> st.1).
  set (ptrs1 := foldl (add_ptr s0) st.2 (table_ptrs 4 (server_sizes sizes s0))).
  assert (E1 : create_msg_step alloc sizes.*1 sizes st s0 = Ret (mems1, ptrs1))
    by (unfold create_msg_step; by rewrite E).
  cbn [foldM]. rewrite E1. cbn [mbind outcome_bind].
  assert (Hkeys : NoDup (table_ptrs 4 (server_sizes sizes s0)).*1)
    by (by rewrite table_ptrs_keys, server_sizes_keys).
  destruct (IH Hnd (mems1, ptrs1)) as (st' & E' & Hin & Hout); [intros; apply Hs; by right|].
  exists st'. split; [exact E'|]. split.
  - intros s [->|Hin']%elem_of_cons; [|by apply Hin].
    exists xs. destruct (Hout s0 0 Hnin) as [-> _]. split_and!; [|done|].
    + cbn [fst]. unfold mems1. rewrite lookup_insert_eq. unfold server_sizes. by rewrite length_fmap.
    + intros t off Hoff. destruct (Hout s0 t Hnin) as [_ ->].
      by apply (add_ptrs_lookup s0 st.2 _ t s0 Hkeys).
  - intros s t [Hne Hn]%not_elem_of_cons. destruct (Hout s t Hn) as [-> ->]. split.
    + cbn [fst]. unfold mems1. by rewrite lookup_insert_ne by done.
    + by apply (add_ptrs_lookup s0 st.2 _ t s Hkeys).
Qed.

(** ** Taking the oplogs *)

(** The rows of the index that have an oplog. *)
Definition collected_rows (g : GlobalContext) (t : TableOpLog V) (idx : list Z)
    : list (Z * RowOpLog V) :=
  omap (fun r => pair r <$> table_row_oplog g t r) idx.

Lemma collected_rows_ext g t t' idx :
  (forall r, r ∈ idx -> table_row_oplog g t' r = table_row_oplog g t r) ->
  collected_rows g t' idx = collected_rows g t idx.
Proof.
  intros Hext. unfold collected_rows. induction idx as [|r idx IH]; [done|]. cbn [omap list_omap].
  rewrite Hext by (by left). rewrite IH; [done|]. intros r' Hr'. apply Hext. by right.
Qed.

Lemma collected_rows_keys g t idx :
  Forall (fun row => row.1 ∈ idx) (collected_rows g t idx) /\
  (NoDup idx -> NoDup (collected_rows g t idx).*1).
Proof.
  induction idx as [|r idx [IH1 IH2]]; [split; [constructor|intros _; apply NoDup_nil_2]|].
  assert (Hw : Forall (fun row => row.1 ∈ r :: idx) (collected_rows g t idx))
    by (eapply Forall_impl; [done|]; intros; by right).
  unfold collected_rows in *. cbn [omap list_omap].
  destruct (table_row_oplog g t r) as [l|]; cbn [fmap option_fmap option_map].
  - split; [constructor; [by left|done]|]. intros [Hr Hnd]%NoDup_cons. rewrite fmap_cons.
    apply NoDup_cons. split; [|auto]. intros Hin. apply list_elem_of_fmap in Hin as (row & Heq & Hin).
    rewrite Forall_forall in IH1. apply IH1 in Hin. cbn [fst] in Heq. congruence.
  - split; [done|]. intros [_ Hnd]%NoDup_cons. auto.
Qed.

Lemma collect_row_spec g table_id t p bytes row_id :
  context_ok g -> 0 <= row_id -> Z.of_nat (length t) = num_bg_threads g ->
  (forall l s, table_row_oplog g t row_id = Some l -> s ∈ server_ids g ->
     exists b, bytes !! s = Some b /\ 0 <= b /\ b + rows_size (rows_of g s [(row_id, l)]) < 2 ^ 31) ->
  exists t' p' bytes', collect_row g table_id (t, p, bytes) row_id = Ret (t', p', bytes') /\
    length t' = length t /\
    (forall r, 0 <= r -> table_row_oplog g t' r = if decide (r = row_id) then None else table_row_oplog g t r) /\
    bop_map p' = foldl (fun m row => <[row.1 := row.2]> m) (bop_map p) (collected_rows g t [row_id]) /\
    bop_table_id p' = bop_table_id p /\ bop_update_size p' = bop_update_size p /\
    (forall s b, s ∈ server_ids g -> bytes !! s = Some b ->
       bytes' !! s = Some (b + rows_size (rows_of g s (collected_rows g t [row_id])))).
Proof.
  intros Hg Hr Hl Hbnd. destruct (GetEraseOpLog_spec g row_id t Hg Hr Hl) as (t' & E & Hl' & Hrow).
  unfold collect_row. rewrite E. cbn [mbind outcome_bind]. unfold collected_rows. cbn [omap list_omap].
  destruct (table_row_oplog g t row_id) as [l|] eqn:El; cbn [fmap option_fmap option_map].
  - destruct (GetRowPartitionServerID_total g table_id row_id Hg Hr) as (s0 & Es & Hs0).
    pose proof Es as Elook. rewrite GetRowPartitionServerID_Ret in Elook by done.
    destruct (Hbnd l s0 eq_refl Hs0) as (b & Hb & Hb0 & Hlt).
    rewrite Es. cbn [mbind outcome_bind]. rewrite Hb. cbn [default from_option id].
    rewrite rows_of_single, decide_True in Hlt by done. cbn [rows_size foldr] in Hlt.
    unfold row_size in Hlt. cbn [fst snd] in Hlt. pose proof v_size_pos.
    unfold RowOpLog_GetSize. rewrite i32_id by (unfold in_i32; nia).
    do 3 eexists. split; [done|]. split_and!; [done|done|done|done|done|].
    intros s b' Hs Hb'. rewrite rows_of_single. cbn [fst]. destruct (decide _) as [Hd|Hd].
    + assert (s = s0) as -> by congruence. assert (b' = b) as -> by congruence.
      rewrite lookup_insert_eq. f_equal. cbn [rows_size foldr]. unfold row_size. cbn [snd].
      rewrite u64_id by (unfold in_u64; nia). lia.
    + rewrite lookup_insert_ne by congruence. rewrite Hb'. f_equal. cbn [rows_size foldr]. lia.
  - do 3 eexists. split; [done|]. split_and!; [done..|]. intros s b _ ->. f_equal. cbn. lia.
Qed.

Lemma collect_rows_spec g table_id idx t p bytes :
  context_ok g -> Forall (fun r => 0 <= r) idx -> NoDup idx -> Z.of_nat (length t) = num_bg_threads g ->
  (forall s, s ∈ server_ids g -> exists b, bytes !! s = Some b /\ 0 <= b /\
     b + rows_size (rows_of g s (collected_rows g t idx)) < 2 ^ 31) ->
  exists t' p' bytes', foldM (collect_row g table_id) idx (t, p, bytes) = Ret (t', p', bytes') /\
    length t' = length t /\
    (forall r, 0 <= r -> table_row_oplog g t' r = if decide (r ∈ idx) then None else table_row_oplog g t r) /\
    bop_map p' = foldl (fun m row => <[row.1 := row.2]> m) (bop_map p) (collected_rows g t idx) /\
    bop_table_id p' = bop_table_id p /\ bop_update_size p' = bop_update_size p /\
    (forall s b, s ∈ server_ids g -> bytes !! s = Some b ->
       bytes' !! s = Some (b + rows_size (rows_of g s (collected_rows g t idx)))).
Proof.
  intros Hg Hids Hnd. revert t p bytes. induction Hids as [|r idx Hr Hids0 IH]; intros t p bytes Hl Hb.
  { exists t, p, bytes. split_and!; try done. intros s b _ ->. f_equal. cbn. lia. }
  apply NoDup_cons in Hnd as [Hnin Hnd].
  assert (Hsplit : collected_rows g t (r :: idx) = collected_rows g t [r] ++ collected_rows g t idx).
  { unfold collected_rows. cbn [omap list_omap]. by destruct (table_row_oplog g t r). }
  destruct (collect_row_spec g table_id t p bytes r Hg Hr Hl) as
    (t1 & p1 & bytes1 & E1 & Hl1 & Hrow1 & Hm1 & Ht1 & Hu1 & Hb1).
  { intros l s El Hs. destruct (Hb s Hs) as (b & Hbs & Hb0 & Hlt). exists b. split_and!; [done..|].
    rewrite Hsplit, rows_of_app, rows_size_app in Hlt. unfold collected_rows in Hlt at 1.
    cbn [omap list_omap] in Hlt. rewrite El in Hlt. cbn [fmap option_fmap option_map] in Hlt.
    pose proof (rows_size_nonneg (rows_of g s (collected_rows g t idx))). lia. }
  assert (Hext : collected_rows g t1 idx = collected_rows g t idx).
  { apply collected_rows_ext. intros r' Hr'. destruct (decide (0 <= r')) as [H0'|].
    - rewrite Hrow1 by done. rewrite decide_False; [done|]. by intros ->.
    - rewrite Forall_forall in Hids0. by apply Hids0 in Hr'. }
  cbn [foldM]. rewrite E1. cbn [mbind outcome_bind].
  destruct (IH Hnd t1 p1 bytes1) as (t' & p' & bytes' & E & Hl' & Hrow & Hm & Ht & Hu & Hbs).
  { by rewrite Hl1. }
  { intros s Hs. destruct (Hb s Hs) as (b & Hbs & Hb0 & Hlt).
    exists (b + rows_size (rows_of g s (collected_rows g t [r]))). rewrite (Hb1 s b Hs Hbs), Hext.
    rewrite Hsplit, rows_of_app, rows_size_app in Hlt.
    pose proof (rows_size_nonneg (rows_of g s (collected_rows g t [r]))). split_and!; [done|lia|lia]. }
  exists t', p', bytes'. split; [exact E|]. split_and!; [by rewrite Hl'| | |by rewrite Ht|by rewrite Hu|].
  - intros r' Hr'. rewrite Hrow, Hrow1 by done. destruct (decide (r' ∈ idx)) as [Hin|Hin].
    + by rewrite decide_True by (by right).
    + destruct (decide (r' = r)) as [->|Hne].
      * by rewrite decide_True by (by left).
      * rewrite decide_False; [done|]. intros [?|?]%elem_of_cons; done.
  - rewrite Hm, Hm1, Hext, Hsplit, foldl_app. done.
  - intros s b Hs Hbb. rewrite (Hbs s _ Hs (Hb1 s b Hs Hbb)), Hext, Hsplit, rows_of_app, rows_size_app.
    f_equal. lia.
Qed.

(** ** All tables *)

Definition table_rows (g : GlobalContext) (t : bg_table) : list (Z * RowOpLog V) :=
  collected_rows g (bt_oplog t) (bt_index t).

Record bg_table_ok (g : GlobalContext) (t : bg_table) : Prop := {
  bt_partitions : Z.of_nat (length (bt_oplog t)) = num_bg_threads g;
  bt_index_ids : Forall (fun r => 0 <= r < 2 ^ 31) (bt_index t);
  bt_index_nodup : NoDup (bt_index t)
}.

Lemma init_bytes_lookup L (m : gmap Z Z) s :
  foldl (fun bytes s => <[s := 4]> bytes) m L !! s = if decide (s ∈ L) then Some 4 else m !! s.
Proof.
  revert m. induction L as [|s0 L IH]; intros m; [done|]. cbn [foldl]. rewrite IH.
  destruct (decide (s ∈ L)) as [Hin|Hin].
  - by rewrite decide_True by (by right).
  - destruct (decide (s = s0)) as [->|Hne].
    + by rewrite lookup_insert_eq, decide_True by (by left).
    + rewrite lookup_insert_ne by done. rewrite decide_False; [done|]. by intros [?|?]%elem_of_cons.
Qed.

Lemma get_table_oplog_spec g t :
  context_ok g -> bg_table_ok g t ->
  (forall s, s ∈ server_ids g -> 4 + rows_size (rows_of g s (table_rows g t)) < 2 ^ 31) ->
  exists t' p bytes, get_table_oplog g t = Ret (t', p, bytes) /\
    (forall r, r ∈ bt_index t -> table_row_oplog g t' r = None) /\
    bop_map p = list_to_map (table_rows g t) /\ bop_update_size p = v_size /\
    (forall s, s ∈ server_ids g -> bytes !! s = Some (4 + rows_size (rows_of g s (table_rows g t)))).
Proof.
  intros Hg [Hl Hids Hnd] Hb. unfold get_table_oplog.
  destruct (collect_rows_spec g (bt_id t) (bt_index t) (bt_oplog t)
    (BgOpLogPartition_new (bt_id t) v_size) (foldl (fun bytes s => <[s := 4]> bytes) ∅ (server_ids g)))
    as (t' & p & bytes & E & _ & Hrow & Hm & _ & Hu & Hbs); [done| |done|done| |].
  { eapply Forall_impl; [done|]. simpl; lia. }
  { intros s Hs. exists 4. rewrite init_bytes_lookup, decide_True by done. split_and!; [done|lia|].
    by apply Hb. }
  exists t', p, bytes. split; [exact E|]. rewrite Forall_forall in Hids. split_and!.
  - intros r Hr. specialize (Hids r Hr). rewrite Hrow by lia. by rewrite decide_True.
  - rewrite Hm. cbn [BgOpLogPartition_new bop_map].
    rewrite foldl_insert_list_to_map by (by apply collected_rows_keys). apply map_union_empty.
  - by rewrite Hu.
  - intros s Hs. apply (Hbs s 4 Hs). by rewrite init_bytes_lookup, decide_True.
Qed.

(** What [GetOpLogAndIndex] yields for one table. *)
Definition taken (g : GlobalContext) (t t' : bg_table) : Prop :=
  bt_id t' = bt_id t /\ (forall r, r ∈ bt_index t -> table_row_oplog g (bt_oplog t') r = None).

Definition sizes_of (g : GlobalContext) (tables : list bg_table) (s : Z) : list (Z * Z) :=
  (fun t => (bt_id t, 4 + rows_size (rows_of g s (table_rows g t)))) <$> tables.

Lemma GetOpLogAndIndex_loop g tables acc :
  context_ok g -> Forall (bg_table_ok g) tables -> NoDup (bt_id <$> tables) ->
  (forall t, t ∈ tables -> acc.1.2 !! bt_id t = None) ->
  (forall s t, s ∈ server_ids g -> t ∈ tables -> 4 + rows_size (rows_of g s (table_rows g t)) < 2 ^ 31) ->
  exists tables' bg sizes,
    foldM (fun '(tables', bg_oplog, sizes) t =>
           '(oplog', p, bytes) ← get_table_oplog g t;
           Ret (tables' ++ [mkBgTable (bt_id t) oplog' []],
                BgOpLog_Add (bt_id t) p bg_oplog, sizes ++ [(bt_id t, bytes)])) tables acc
      = Ret (acc.1.1 ++ tables', bg, acc.2 ++ sizes) /\
    Forall2 (taken g) tables tables' /\
    (forall t, t ∈ tables -> exists p, bg !! bt_id t = Some p /\
       bop_map p = list_to_map (table_rows g t) /\ bop_update_size p = v_size) /\
    (forall i, i ∉ bt_id <$> tables -> bg !! i = acc.1.2 !! i) /\
    sizes.*1 = bt_id <$> tables /\
    (forall s, s ∈ server_ids g -> server_sizes sizes s = sizes_of g tables s).
Proof.
  intros Hg Hok. revert acc. induction Hok as [|t tables Ht Hok IH]; intros [[tables0 bg0] sizes0] Hnd Hfresh Hb.
  { exists [], bg0, []. cbn [fst snd foldM]. rewrite !app_nil_r. split_and!; try done.
    by intros t ?%elem_of_nil. }
  rewrite fmap_cons in Hnd. apply NoDup_cons in Hnd as [Hnin Hnd]. cbn [fst snd] in *.
  destruct (get_table_oplog_spec g t Hg Ht) as (t' & p & bytes & E & Hrow & Hm & Hu & Hbytes).
  { intros s Hs. apply Hb; [done|by left]. }
  cbn [foldM]. rewrite E. cbn [mbind outcome_bind].
  destruct (IH (tables0 ++ [mkBgTable (bt_id t) t' []], BgOpLog_Add (bt_id t) p bg0,
                sizes0 ++ [(bt_id t, bytes)]) Hnd) as (tables' & bg & sizes & E' & H2 & Hp & Hout & Hk & Hs).
  { intros t2 Ht2. cbn [fst snd]. unfold BgOpLog_Add. rewrite lookup_insert_ne; [apply Hfresh; by right|].
    intros Heq. apply Hnin. rewrite Heq. by apply list_elem_of_fmap_2. }
  { intros s t2 Hs' Ht2. apply Hb; [done|by right]. }
  exists (mkBgTable (bt_id t) t' [] :: tables'), bg, ((bt_id t, bytes) :: sizes).
  cbn [fst snd] in E', Hout. split; [by rewrite E', <- !app_assoc|]. split_and!.
  - by constructor.
  - intros t2 [->|Ht2]%elem_of_cons; [|by apply Hp]. exists p. rewrite Hout by done.
    unfold BgOpLog_Add. by rewrite lookup_insert_eq.
  - intros i [Hne Hni]%not_elem_of_cons. rewrite Hout by done. unfold BgOpLog_Add.
    by rewrite lookup_insert_ne.
  - rewrite !fmap_cons. by rewrite Hk.
  - intros s Hs'. unfold server_sizes, sizes_of in *. rewrite !fmap_cons. cbn [fst snd].
    by rewrite (Hbytes s Hs'), (Hs s Hs').
Qed.

(** What the message of server [s] holds. *)
Definition server_view (g : GlobalContext) (order : BgOpLogPartition V -> list (Z * RowOpLog V))
    (bg : BgOpLog V) (ids : list Z) (s : Z) : list (Z * list (Z * list (Z * V))) :=
  (fun i => (i, row_entries <$> rows_of g s (default [] (order <$> bg !! i)))) <$> ids.

Definition view_sizes (g : GlobalContext) (order : BgOpLogPartition V -> list (Z * RowOpLog V))
    (bg : BgOpLog V) (ids : list Z) (s : Z) : list (Z * Z) :=
  (fun i => (i, 4 + rows_size (rows_of g s (default [] (order <$> bg !! i))))) <$> ids.

Lemma serialize_tables_spec g order bg ptrs ids (pfx : Z -> list Z) mems :
  context_ok g ->
  (forall i, i ∈ ids -> exists p, bg !! i = Some p /\ bop_update_size p = v_size /\
                        Forall (fun row => 0 <= row.1) (order p)) ->
  (forall s, s ∈ server_ids g -> exists xs, mems !! s = Some (pfx s ++ laid_out xs) /\
     ((fun tx => (tx.1, blen tx.2)) <$> xs) = view_sizes g order bg ids s /\
     Forall (fun ts : Z * Z => ts.2 < 2 ^ 31) (view_sizes g order bg ids s) /\
     (forall t off, (t, off) ∈ table_ptrs (blen (pfx s)) (view_sizes g order bg ids s) ->
                    ptr_of ptrs t s = Some off)) ->
  exists mems', foldM (fun mems table_id =>
           p ← BgOpLog_Get table_id bg;
           SerializeByServer g (order p) p (default ∅ (ptrs !! table_id)) mems) ids mems = Ret mems' /\
    (forall s, s ∈ server_ids g ->
       mems' !! s = Some (pfx s ++ concat (table_bytes <$> server_view g order bg ids s))).
Proof.
  intros Hg. revert pfx mems. induction ids as [|i ids IH]; intros pfx mems Hp Hs.
  { exists mems. split; [done|]. intros s Hin. destruct (Hs s Hin) as (xs & Hm & Hxs & _).
    destruct xs; [|done]. exact Hm. }
  destruct (Hp i ltac:(by left)) as (p & Ep & Hu & Hids).
  destruct (list_choice (server_ids g) (fun s (xxs : list Z * list (Z * list Z)) =>
     mems !! s = Some (pfx s ++ laid_out ((i, xxs.1) :: xxs.2)) /\
     ((fun tx => (tx.1, blen tx.2)) <$> (i, xxs.1) :: xxs.2) = view_sizes g order bg (i :: ids) s))
    as [f Hf].
  { intros s Hin. destruct (Hs s Hin) as (xs & Hm & Hxs & _).
    destruct xs as [|[i' x] xs]; [done|]. exists (x, xs). cbn [fst snd].
    assert (i' = i) as -> by (unfold view_sizes in Hxs; rewrite !fmap_cons in Hxs; by injection Hxs).
    done. }
  assert (Hx : forall s, s ∈ server_ids g ->
    blen (f s).1 = 4 + rows_size (rows_of g s (order p)) /\
    ((fun tx => (tx.1, blen tx.2)) <$> (f s).2) = view_sizes g order bg ids s).
  { intros s Hin. destruct (Hf s Hin) as [_ Hxs]. unfold view_sizes in Hxs.
    rewrite !fmap_cons in Hxs. rewrite Ep in Hxs. injection Hxs as H1' H2'. by split. }
  destruct (SerializeByServer_spec g p (default ∅ (ptrs !! i))
    (fun s => pfx s ++ header_bytes i) (fun s => laid_out (f s).2) (fun s => (f s).1) (order p) mems)
    as (mems1 & E1 & Hm1); [done|done|done| |].
  { intros s Hin. destruct (Hf s Hin) as [Hm Hxs]. destruct (Hx s Hin) as [Hlen _].
    destruct (Hs s Hin) as (xs & _ & _ & Hbnd & Hptr). split_and!.
    - apply (Hptr i). unfold view_sizes. rewrite fmap_cons. cbn [table_ptrs].
      rewrite blen_app, blen_header. by left.
    - rewrite Hm. unfold laid_out at 1. rewrite fmap_cons. cbn [concat fst snd].
      by rewrite <- !app_assoc.
    - done.
    - unfold view_sizes in Hbnd. rewrite fmap_cons in Hbnd. apply Forall_cons in Hbnd as [Hbnd _].
      cbn [snd] in Hbnd. rewrite Ep in Hbnd. by rewrite Hlen. }
  assert (Es : (p0 ← BgOpLog_Get i bg;
     SerializeByServer g (order p0) p0 (default ∅ (ptrs !! i)) mems) = Ret mems1)
    by (unfold BgOpLog_Get; rewrite Ep; exact E1).
  cbn [foldM]. rewrite Es. cbn [mbind outcome_bind].
  set (row_part := fun s => (i, row_entries <$> rows_of g s (order p))).
  destruct (IH (fun s => pfx s ++ table_bytes (row_part s)) mems1) as (mems' & E' & Hm').
  { intros j Hj. apply Hp. by right. }
  { intros s Hin. destruct (Hx s Hin) as [Hlen Hrest]. destruct (Hs s Hin) as (xs & _ & _ & Hbnd & Hptr).
    assert (Hhdr : pfx s ++ table_bytes (row_part s) = (pfx s ++ header_bytes i) ++ server_rows_bytes g s (order p)).
    { unfold table_bytes, row_part, header_bytes, server_rows_bytes. cbn [fst snd]. by rewrite <- !app_assoc. }
    exists (f s).2. rewrite (Hm1 s Hin). split_and!; [|done| |].
    - by rewrite Hhdr, <- !app_assoc.
    - unfold view_sizes in *. rewrite fmap_cons in Hbnd. by apply Forall_cons in Hbnd as [_ Hbnd].
    - intros t off Hin'. apply Hptr. unfold view_sizes. rewrite fmap_cons. cbn [table_ptrs]. right.
      rewrite Ep. cbn [default fmap option_fmap option_map from_option id].
      rewrite Hhdr, !blen_app, blen_header in Hin'. unfold server_rows_bytes in Hin'.
      rewrite blen_table_rows in Hin'. rewrite <- Z.add_assoc in Hin' |- *. done. }
  exists mems'. split; [exact E'|]. intros s Hin. rewrite (Hm' s Hin). unfold server_view.
  rewrite !fmap_cons, Ep. cbn [concat]. rewrite <- app_assoc. done.
Qed.
End MSGS.

(** ** What the servers read *)

Section DELIVERY.
Context {V : Type} `{NumOk V}.
Implicit Types (t : bg_table (V := V)).

Lemma rows_size_perm (l1 l2 : list (Z * RowOpLog V)) : l1 ≡ₚ l2 -> rows_size l1 = rows_size l2.
Proof.
  intros Hp. induction Hp as [|x l1 l2 _ IH|x y l|l1 l2 l3 _ IH1 _ IH2]; simpl; lia.
Qed.

Lemma rows_of_perm g s (l1 l2 : list (Z * RowOpLog V)) : l1 ≡ₚ l2 -> rows_of g s l1 ≡ₚ rows_of g s l2.
Proof. intros Hp. unfold rows_of. by rewrite Hp. Qed.

Lemma blen_message_bytes g order bg ids s :
  blen (message_bytes (server_view g order bg ids s)) = 4 + layout_size (view_sizes (V := V) g order bg ids s).
Proof.
  unfold message_bytes, server_view, view_sizes. rewrite blen_app, blen_cencode. f_equal.
  induction ids as [|i ids IH]; [done|]. rewrite !fmap_cons. cbn [concat layout_size foldr snd].
  rewrite blen_app, IH. unfold layout_size. unfold table_bytes at 1. cbn [fst snd].
  rewrite !blen_app, !blen_cencode, blen_table_rows. simpl csize. lia.
Qed.

Record delivery_ok (g : GlobalContext) (alloc : Z -> list Z)
    (order : BgOpLogPartition V -> list (Z * RowOpLog V)) (tables : list (bg_table (V := V))) : Prop := {
  dl_context : context_ok g;
  dl_tables : Forall (bg_table_ok g) tables;
  dl_nodup : NoDup (bt_id <$> tables);
  dl_ids : Forall (fun t => in_i32 (bt_id t)) tables;
  dl_columns : forall t row c u, t ∈ tables -> row ∈ table_rows g t -> oplogs row.2 !! c = Some u -> in_i32 c;
  dl_alloc : forall n, 0 <= n -> blen (alloc n) = n;
  dl_order : forall p, order p ≡ₚ map_to_list (bop_map p);
  dl_update_size : v_size < 2 ^ 31;
  dl_sizes : forall s, s ∈ server_ids g -> 4 + layout_size (sizes_of g tables s) < 2 ^ 31
}.

Lemma table_size_bound g tables s t :
  t ∈ tables -> 4 + layout_size (sizes_of g tables s) < 2 ^ 31 ->
  4 + rows_size (rows_of g s (table_rows g t)) < 2 ^ 31.
Proof.
  assert (Hn : forall l : list (bg_table (V := V)), 0 <= layout_size (sizes_of g l s)).
  { intros l. apply layout_size_nonneg. unfold sizes_of. apply Forall_fmap, Forall_true.
    intros t0. simpl. pose proof (rows_size_nonneg (rows_of g s (table_rows g t0))). lia. }
  intros Hin. induction tables as [|t0 tables IH]; [by apply not_elem_of_nil in Hin|].
  unfold sizes_of. rewrite fmap_cons. cbn [layout_size foldr snd].
  fold (sizes_of g tables s). fold (layout_size (sizes_of g tables s)).
  pose proof (Hn tables). pose proof (rows_size_nonneg (rows_of g s (table_rows g t0))).
  apply elem_of_cons in Hin as [->|Hin]; [lia|]. intros Hb. apply IH; [done|lia].
Qed.

Lemma order_rows g order t (p : BgOpLogPartition V) :
  (forall p, order p ≡ₚ map_to_list (bop_map p)) -> bg_table_ok g t ->
  bop_map p = list_to_map (table_rows g t) -> order p ≡ₚ table_rows g t.
Proof.
  intros Ho [_ _ Hnd] Hm. rewrite Ho, Hm. apply map_to_list_to_map. by apply collected_rows_keys.
Qed.

Lemma table_rows_ids g t : bg_table_ok g t -> Forall (fun row => 0 <= row.1 < 2 ^ 31) (table_rows g t).
Proof.
  intros [_ Hids _]. destruct (collected_rows_keys g (bt_oplog t) (bt_index t)) as [Hk _].
  apply Forall_forall. intros row Hr. rewrite Forall_forall in Hk. rewrite Forall_forall in Hids. by apply Hids, Hk.
Qed.

Lemma delivery_view g alloc order tables bg s :
  delivery_ok g alloc order tables -> s ∈ server_ids g ->
  (forall t, t ∈ tables -> exists p, bg !! bt_id t = Some p /\
       bop_map p = list_to_map (table_rows g t) /\ bop_update_size p = v_size) ->
  let view := server_view g order bg (bt_id <$> tables) s in
  view_sizes g order bg (bt_id <$> tables) s = sizes_of g tables s /\
  view.*1 = bt_id <$> tables /\
  Forall2 (fun t v => v.2 ≡ₚ row_entries <$> rows_of g s (table_rows g t)) tables view /\
  Forall table_ids_ok view.
Proof.
  intros [_ Hok _ Hids Hcol _ Hord _ _] Hs Hbg view. unfold view, server_view, view_sizes, sizes_of.
  clear view. induction tables as [|t tables IH]; [by split_and!|].
  apply Forall_cons in Hok as [Ht Hok]. apply Forall_cons in Hids as [Hi Hids].
  destruct IH as (IH1 & IH2 & IH3 & IH4); [done|done|..].
  { intros t' row c u Ht'. apply Hcol. by right. }
  { intros t' Ht'. apply Hbg. by right. }
  destruct (Hbg t ltac:(by left)) as (p & Ep & Hm & _).
  pose proof (order_rows g order t p Hord Ht Hm) as Hp.
  rewrite !fmap_cons. cbn [fst snd]. rewrite Ep. cbn [default fmap option_fmap option_map from_option id].
  split_and!.
  - rewrite (rows_size_perm _ _ (rows_of_perm g s _ _ Hp)). by f_equal.
  - by f_equal.
  - constructor; [|done]. cbn [snd]. by rewrite (rows_of_perm g s _ _ Hp).
  - constructor; [|done]. split; [done|]. cbn [snd]. apply Forall_forall.
    intros re Hre. apply list_elem_of_fmap in Hre as (row & -> & Hrow).
    rewrite (rows_of_perm g s _ _ Hp) in Hrow. apply list_elem_of_filter in Hrow as [_ Hrow].
    pose proof (table_rows_ids g t Ht) as Hrid. rewrite Forall_forall in Hrid.
    specialize (Hrid row Hrow). unfold row_entries. split; cbn [fst snd].
    + unfold in_i32. lia.
    + apply Forall_forall. intros [c u] Hcu%sorted_entries_lookup.
      by apply (Hcol t row c u ltac:(by left)).
Qed.

Lemma GetOpLogAndIndex_spec g alloc order tables :
  delivery_ok g alloc order tables ->
  exists tables' bg sizes, GetOpLogAndIndex g tables = Ret (tables', bg, sizes) /\
    Forall2 (taken g) tables tables' /\
    (forall t, t ∈ tables -> exists p, bg !! bt_id t = Some p /\
       bop_map p = list_to_map (table_rows g t) /\ bop_update_size p = v_size) /\
    sizes.*1 = bt_id <$> tables /\
    (forall s, s ∈ server_ids g -> server_sizes sizes s = sizes_of g tables s).
Proof.
  intros [Hg Hok Hnd _ _ _ _ _ Hsz].
  destruct (GetOpLogAndIndex_loop g tables ([], ∅, []) Hg Hok Hnd) as (tables' & bg & sizes & E & H1 & H2 & _ & H3 & H4).
  - intros t _. apply lookup_empty.
  - intros s t Hs Ht. by apply (table_size_bound g tables s t Ht), Hsz.
  - exists tables', bg, sizes. unfold GetOpLogAndIndex. by rewrite E.
Qed.

Lemma CreateOpLogMsgs_spec g alloc order tables bg sizes :
  delivery_ok g alloc order tables ->
  (forall t, t ∈ tables -> exists p, bg !! bt_id t = Some p /\
       bop_map p = list_to_map (table_rows g t) /\ bop_update_size p = v_size) ->
  sizes.*1 = bt_id <$> tables ->
  (forall s, s ∈ server_ids g -> server_sizes sizes s = sizes_of g tables s) ->
  exists mems, CreateOpLogMsgs g alloc order (bt_id <$> tables) bg sizes = Ret mems /\
    (forall s, s ∈ server_ids g ->
       mems !! s = Some (message_bytes (server_view g order bg (bt_id <$> tables) s))).
Proof.
  intros Hd Hbg Hk Hss. pose proof Hd as [Hg Hok Hnd _ _ Halloc Hord _ Hsz].
  assert (Hnonneg : forall s, Forall (fun ts : Z * Z => 0 <= ts.2) (sizes_of g tables s)).
  { intros s. apply Forall_fmap, Forall_true. intros t. simpl.
    pose proof (rows_size_nonneg (rows_of g s (table_rows g t))). lia. }
  unfold CreateOpLogMsgs, create_msgs.
  destruct (create_msgs_loop_spec alloc sizes (server_ids g) (∅, ∅) Halloc) as (st & E & Hin & _).
  { apply Hg. }
  { by rewrite Hk. }
  { intros s Hs. rewrite Hss by done. split; [done|by apply Hsz]. }
  rewrite Hk in E. rewrite E. destruct st as [mems ptrs]. cbn [mbind outcome_bind fst snd] in *.
  assert (Hlen : length sizes = length (bt_id <$> tables)) by (by rewrite <- Hk, length_fmap).
  destruct (serialize_tables_spec g order bg ptrs (bt_id <$> tables)
    (fun _ => cencode I32 (Z.of_nat (length sizes))) mems Hg) as (mems' & E' & Hm).
  - intros i Hi. apply list_elem_of_fmap in Hi as (t & -> & Ht). destruct (Hbg t Ht) as (p & Ep & Hm & Hu).
    exists p. split_and!; [done|done|]. rewrite Forall_forall in Hok. specialize (Hok t Ht).
    rewrite (order_rows g order t p Hord Hok Hm). eapply Forall_impl; [by apply table_rows_ids|]. simpl; lia.
  - intros s Hs. destruct (Hin s Hs) as (xs & Hm & Hxs & Hptr).
    destruct (delivery_view g alloc order tables bg s Hd Hs Hbg) as (Hvs & _).
    rewrite (Hss s Hs) in Hxs, Hptr. exists xs. rewrite Hvs. split_and!; [done|done| |].
    + apply Forall_forall. intros ts Hts. apply list_elem_of_fmap in Hts as (t & -> & Ht). cbn [snd].
      apply (table_size_bound g tables s t Ht). by apply Hsz.
    + intros t off Hoff. apply Hptr. by rewrite blen_cencode in Hoff.
  - exists mems'. split; [exact E'|]. intros s Hs. rewrite (Hm s Hs). unfold message_bytes.
    unfold server_view at 2. by rewrite length_fmap, Hlen.
Qed.
End DELIVERY.

(** C1: at the end of a clock the background thread takes the oplog of every
    indexed row out of its tables and writes one message per server, of
    exactly the allocated size; the server that reads its message to the end
    gets, table by table, exactly the rows partitioned to it with all their
    columns and updates, and no others. *)
Theorem oplogs_reach_their_servers {V} `{NumOk V} g alloc order (tables : list (bg_table (V := V))) :
  delivery_ok g alloc order tables ->
  exists tables' bg sizes mems,
    GetOpLogAndIndex g tables = Ret (tables', bg, sizes) /\
    CreateOpLogMsgs g alloc order (bt_id <$> tables) bg sizes = Ret mems /\
    Forall2 (taken g) tables tables' /\
    (forall s, s ∈ server_ids g -> exists mem view,
       mems !! s = Some mem /\ view.*1 = bt_id <$> tables /\
       Forall2 (fun t v => v.2 ≡ₚ row_entries <$> rows_of g s (table_rows g t)) tables view /\
       (forall fuel, (length (message_entries view) < fuel)%nat ->
          reader_all fuel mem = Ret (message_entries view))).
Proof.
  intros Hd. destruct (GetOpLogAndIndex_spec g alloc order tables Hd)
    as (tables' & bg & sizes & E & Htaken & Hbg & Hk & Hss).
  destruct (CreateOpLogMsgs_spec g alloc order tables bg sizes Hd Hbg Hk Hss) as (mems & E' & Hm).
  exists tables', bg, sizes, mems. split_and!; [done..|]. intros s Hs.
  destruct (delivery_view g alloc order tables bg s Hd Hs Hbg) as (Hvs & Hids & Hrows & Hok).
  exists (message_bytes (server_view g order bg (bt_id <$> tables) s)),
    (server_view g order bg (bt_id <$> tables) s).
  split_and!; [by apply Hm|done|done|]. intros fuel Hf. apply reader_all_spec; [done| |apply Hd|done].
  rewrite blen_message_bytes, Hvs. by apply Hd.
Qed.

(** *** Witness: one table, two servers, two rows *)

Definition demo_row_oplog (u : Z) : RowOpLog int32 := mkRowOpLog {[7 := to_int32 u]} None.

Definition demo_bg_table : bg_table (V := int32) :=
  mkBgTable 9 [{[3 := demo_row_oplog 5]}; {[4 := demo_row_oplog 6]}; ∅] [3; 4; 5].

Lemma demo_delivery_ok :
  delivery_ok demo_context (fun n => replicate (Z.to_nat n) 170) (fun p => map_to_list (bop_map p))
    [demo_bg_table].
Proof.
  constructor.
  - apply demo_context_ok.
  - constructor; [|constructor]. constructor; [done| |].
    + repeat constructor; lia.
    + apply (bool_decide_unpack _). by vm_compute.
  - apply NoDup_singleton.
  - repeat constructor; simpl; lia.
  - intros t row c u ->%list_elem_of_singleton Hrow Hc.
    assert (Hrows : forall row, row ∈ table_rows demo_context demo_bg_table ->
              row.2 = demo_row_oplog 5 \/ row.2 = demo_row_oplog 6).
    { assert (E : table_rows demo_context demo_bg_table = [(3, demo_row_oplog 5); (4, demo_row_oplog 6)])
        by (vm_compute; reflexivity).
      rewrite E. intros r [->|[->|?%elem_of_nil]%elem_of_cons]%elem_of_cons; simpl; tauto. }
    destruct (Hrows row Hrow) as [Er|Er]; rewrite Er in Hc;
      unfold demo_row_oplog in Hc; cbn [oplogs] in Hc;
      apply lookup_singleton_Some in Hc as [<- _]; int_lia.
  - intros n Hn. unfold blen. rewrite length_replicate. lia.
  - done.
  - by vm_compute.
  - intros s Hs. apply elem_of_cons in Hs as [->|Hs]; [by vm_compute|].
    apply list_elem_of_singleton in Hs as ->. by vm_compute.
Qed.

Lemma oplogs_reach_their_servers_witness :
  exists tables' bg sizes, GetOpLogAndIndex demo_context [demo_bg_table] = Ret (tables', bg, sizes).
Proof.
  destruct (oplogs_reach_their_servers demo_context (fun n => replicate (Z.to_nat n) 170)
    (fun p => map_to_list (bop_map p)) [demo_bg_table] demo_delivery_ok)
    as (tables' & bg & sizes & mems & E & _).
  exists tables', bg, sizes. exact E.
Defined.
