(* ===== verification/RowWire.v ===== *)
(** * The pushed-rows message body

    [RecordBuff] ([petuum_ps_common/util/record_buff.hpp]), the buffer the
    server appends rows to, and [SerializedRowReader]
    ([petuum_ps/client/serialized_row_reader.hpp]), with which a background
    thread reads them back. *)
From S2P Require Import Prelude Bytes Context.
Open Scope Z_scope.

(** ** [RecordBuff]

    The buffer owns the bytes [mem_] points to; no other component writes
    them while it is in use. *)
Record RecordBuff := mkRecordBuff { rb_mem : list Z; rb_mem_size : Z; rb_offset : Z }.

Definition RecordBuff_new (mem : list Z) (size : Z) : RecordBuff := mkRecordBuff mem size 0.
(** Returns the old memory. *)
Definition RecordBuff_ResetMem (mem : list Z) (size : Z) (b : RecordBuff) : list Z * RecordBuff :=
  (rb_mem b, mkRecordBuff mem size 0).
Definition RecordBuff_ResetOffset (b : RecordBuff) : RecordBuff :=
  mkRecordBuff (rb_mem b) (rb_mem_size b) 0.
Definition RecordBuff_GetMemUsedSize (b : RecordBuff) : Z := rb_offset b.

Definition RecordBuff_Append (record_id : Z) (record : list Z) (record_size : Z) (b : RecordBuff)
    : outcome (bool * RecordBuff) :=
  if bool_decide (rb_mem_size b < u64 (rb_offset b + 4 + record_size + 8)) then Ret (false, b)
  else
    mem1 ← store I32 (rb_offset b) record_id (rb_mem b);
    mem2 ← store U64 (u64 (rb_offset b + 4)) record_size mem1;
    bytes ← mem_read 0 record_size record;
    mem3 ← mem_write (u64 (rb_offset b + 4 + 8)) bytes mem2;
    Ret (true, mkRecordBuff mem3 (rb_mem_size b) (u64 (rb_offset b + 4 + 8 + record_size))).

(** The pointer is an offset; [None] is null. *)
Definition RecordBuff_GetMemPtrInt32 (b : RecordBuff) : option Z * RecordBuff :=
  if bool_decide (rb_mem_size b < u64 (rb_offset b + 4)) then (None, b)
  else (Some (rb_offset b), mkRecordBuff (rb_mem b) (rb_mem_size b) (u64 (rb_offset b + 4))).

(** [*ptr = v] through a pointer [GetMemPtrInt32] returned. *)
Definition RecordBuff_store (ptr : option Z) (v : Z) (b : RecordBuff) : outcome RecordBuff :=
  off ← deref ptr;
  mem ← store I32 off v (rb_mem b);
  Ret (mkRecordBuff mem (rb_mem_size b) (rb_offset b)).

(** [memset(mem, 0, size)]. *)
Definition RecordBuff_clear (b : RecordBuff) : RecordBuff :=
  mkRecordBuff (replicate (Z.to_nat (rb_mem_size b)) 0 ++ drop (Z.to_nat (rb_mem_size b)) (rb_mem b))
    (rb_mem_size b) (rb_offset b).

(** ** [SerializedRowReader] *)

Record SerializedRowReader := mkRowReader {
  rr_mem : list Z; rr_mem_size : Z; rr_offset : Z; rr_current_table_id : Z
}.

Definition RowReader_new (mem : list Z) (mem_size : Z) : SerializedRowReader :=
  mkRowReader mem mem_size 0 0.

Definition RowReader_Restart (r : SerializedRowReader) : outcome (bool * SerializedRowReader) :=
  t ← load I32 0 (rr_mem r);
  Ret (negb (bool_decide (t = get_serialized_table_end)),
       mkRowReader (rr_mem r) (rr_mem_size r) 4 t).

(** A row: table id, row id and the [row_size] bytes at the returned
    pointer. *)
Record row_record := mkRowRecord { rc_table_id : Z; rc_row_id : Z; rc_data : list Z }.

(** [offset_ + sizeof(int32_t) > mem_size_]. *)
Definition at_boundary (mem_size offset : Z) : bool := bool_decide (mem_size < u64 (offset + 4)).

(** The [do ... while (1)] of [Next] with [*row_id = row_id]; every turn
    without a result reads eight bytes; [Undef] without fuel. *)
Fixpoint row_reader_loop (fuel : nat) (row_id : Z) (r : SerializedRowReader)
    : outcome (option row_record * SerializedRowReader) :=
  if bool_decide (row_id = get_serialized_table_separator) then
    if at_boundary (rr_mem_size r) (rr_offset r) then Ret (None, r)
    else
      t ← load I32 (rr_offset r) (rr_mem r);
      let r1 := mkRowReader (rr_mem r) (rr_mem_size r) (u64 (rr_offset r + 4)) t in
      if at_boundary (rr_mem_size r) (rr_offset r1) then Ret (None, r1)
      else
        row_id' ← load I32 (rr_offset r1) (rr_mem r);
        match fuel with
        | O => Undef
        | S fuel' =>
            row_reader_loop fuel' row_id'
              (mkRowReader (rr_mem r) (rr_mem_size r) (u64 (rr_offset r1 + 4)) t)
        end
  else if bool_decide (row_id = get_serialized_table_end) then Ret (None, r)
  else
    row_size ← load U64 (rr_offset r) (rr_mem r);
    let off := u64 (rr_offset r + 8) in
    data ← mem_read off row_size (rr_mem r);
    Ret (Some (mkRowRecord (rr_current_table_id r) row_id data),
         mkRowReader (rr_mem r) (rr_mem_size r) (u64 (off + row_size)) (rr_current_table_id r)).

Definition RowReader_Next (r : SerializedRowReader)
    : outcome (option row_record * SerializedRowReader) :=
  if at_boundary (rr_mem_size r) (rr_offset r) then Ret (None, r)
  else
    row_id ← load I32 (rr_offset r) (rr_mem r);
    row_reader_loop (length (rr_mem r)) row_id
      (mkRowReader (rr_mem r) (rr_mem_size r) (u64 (rr_offset r + 4)) (rr_current_table_id r)).

(** The reading loop of [BgWorkers::ApplyServerPushedRow]. *)
Fixpoint row_reader_rest (fuel : nat) (r : SerializedRowReader) : outcome (list row_record) :=
  '(e, r') ← RowReader_Next r;
  match e with
  | None => Ret []
  | Some e =>
      match fuel with
      | O => Undef
      | S fuel' => es ← row_reader_rest fuel' r'; Ret (e :: es)
      end
  end.

Definition row_reader_all (mem : list Z) (mem_size : Z) : outcome (list row_record) :=
  '(not_empty, r) ← RowReader_Restart (RowReader_new mem mem_size);
  if (not_empty : bool) then row_reader_rest (length mem) r else Ret [].

(** ** The contents of a buffer

    A buffer holds a sequence of items; between separators there is a table
    id and then rows. *)
Inductive item := ITable (t : Z) | IRow (row_id : Z) (data : list Z) | ISep.

Definition item_bytes (i : item) : list Z :=
  match i with
  | ITable t => cencode I32 t
  | IRow row_id data => cencode I32 row_id ++ cencode U64 (blen data) ++ data
  | ISep => cencode I32 get_serialized_table_separator
  end.
Definition items_bytes (l : list item) : list Z := concat (item_bytes <$> l).

Definition item_ok (i : item) : Prop :=
  match i with
  | ITable t => in_i32 t /\ 0 <= t
  | IRow row_id data => in_i32 row_id /\ 0 <= row_id
  | ISep => True
  end.

(** [Some t]: inside table [t]; [None]: a table id comes next. *)
Definition item_next (st : option Z) (i : item) : option (option Z) :=
  match i, st with
  | ITable t, None => Some (Some t)
  | IRow _ _, Some t => Some (Some t)
  | ISep, Some t => Some None
  | _, _ => None
  end.

Fixpoint items_run (st : option Z) (l : list item) : option (option Z) :=
  match l with
  | [] => Some st
  | i :: l' => st' ← item_next st i; items_run st' l'
  end.

(** The rows of the items. *)
Fixpoint item_rows (st : option Z) (l : list item) : list row_record :=
  match l with
  | [] => []
  | ITable t :: l' => item_rows (Some t) l'
  | IRow row_id data :: l' => mkRowRecord (default 0 st) row_id data :: item_rows st l'
  | ISep :: l' => item_rows None l'
  end.

Lemma items_bytes_app l1 l2 : items_bytes (l1 ++ l2) = items_bytes l1 ++ items_bytes l2.
Proof. unfold items_bytes. by rewrite fmap_app, concat_app. Qed.

Lemma items_bytes_cons i l : items_bytes (i :: l) = item_bytes i ++ items_bytes l.
Proof. done. Qed.

Lemma items_run_app st l1 l2 :
  items_run st (l1 ++ l2) = (st' ← items_run st l1; items_run st' l2).
Proof.
  revert st. induction l1 as [|i l1 IH]; intros st; [done|]. simpl.
  destruct (item_next st i); simpl; [apply IH|done].
Qed.

Lemma item_rows_app st l1 l2 st' : items_run st l1 = Some st' ->
  item_rows st (l1 ++ l2) = item_rows st l1 ++ item_rows st' l2.
Proof.
  revert st. induction l1 as [|i l1 IH]; intros st E; [by injection E as ->|].
  simpl in E. destruct i, st as [t'|]; try discriminate E; simpl in *; f_equal; by apply IH.
Qed.

Lemma blen_item_bytes i : 4 <= blen (item_bytes i).
Proof.
  destruct i; cbn [item_bytes]; rewrite ?blen_app, !blen_cencode; simpl csize; unfold blen; lia.
Qed.

(** ** Reading a buffer back *)

(** After the items comes the end mark, or no room for a further one. *)
Definition items_closed (avai : Z) (n : Z) (st : option Z) (tail : list Z) : Prop :=
  (exists t rest, st = Some t /\ tail = cencode I32 get_serialized_table_end ++ rest /\ n + 4 <= avai)
  \/ n <= avai < n + 4.

Record row_reader_at (r : SerializedRowReader) (t : Z) (l : list item) (st : option Z)
    (tail : list Z) : Prop := {
  rra_mem : exists p, rr_mem r = p ++ items_bytes l ++ tail /\ rr_offset r = blen p;
  rra_avai : items_closed (rr_mem_size r) (rr_offset r + blen (items_bytes l)) st tail;
  rra_table : rr_current_table_id r = t;
  rra_ok : Forall item_ok l;
  rra_run : items_run (Some t) l = Some st;
  rra_bound : blen (rr_mem r) < 2 ^ 63
}.

(** [Next] with the loop's fuel explicit. *)
Definition row_next (fuel : nat) (r : SerializedRowReader)
    : outcome (option row_record * SerializedRowReader) :=
  if at_boundary (rr_mem_size r) (rr_offset r) then Ret (None, r)
  else
    row_id ← load I32 (rr_offset r) (rr_mem r);
    row_reader_loop fuel row_id
      (mkRowReader (rr_mem r) (rr_mem_size r) (u64 (rr_offset r + 4)) (rr_current_table_id r)).

Lemma at_boundary_spec avai off : 0 <= off < 2 ^ 63 + 8 ->
  at_boundary avai off = bool_decide (avai < off + 4).
Proof. intros H. unfold at_boundary. by rewrite u64_id by int_lia. Qed.

Lemma row_reader_at_offset r t l st tail : row_reader_at r t l st tail ->
  0 <= rr_offset r /\ rr_offset r + blen (items_bytes l) <= blen (rr_mem r).
Proof.
  intros [(p & Hm & ->) _ _ _ _ _]. rewrite Hm, !blen_app. unfold blen. lia.
Qed.

(** At a row. *)
Lemma row_next_row fuel r t row_id data l st tail :
  row_reader_at r t (IRow row_id data :: l) st tail ->
  exists r', row_next fuel r = Ret (Some (mkRowRecord t row_id data), r') /\
    row_reader_at r' t l st tail.
Proof.
  intros Hat. pose proof (row_reader_at_offset _ _ _ _ _ Hat) as [Ho Hbo].
  destruct Hat as [(p & Hm & Hoff) Hcl Ht Hok Hrun Hb].
  rewrite items_bytes_cons in *. cbn [item_bytes] in *.
  apply Forall_cons in Hok as [[Hr Hr0] Hok]. simpl in Hrun.
  assert (Hlen : blen ((cencode I32 row_id ++ cencode U64 (blen data) ++ data) ++ items_bytes l)
                 = 12 + blen data + blen (items_bytes l)).
  { rewrite !blen_app, !blen_cencode. simpl csize. lia. }
  rewrite Hlen in *. assert (0 <= blen data) by (unfold blen; lia).
  assert (0 <= blen (items_bytes l)) by (unfold blen; lia).
  unfold row_next. rewrite at_boundary_spec by lia.
  rewrite bool_decide_false by (destruct Hcl as [(?&?&?&?&?)|?]; lia).
  rewrite Hm, <- !app_assoc, (load_seg I32 row_id p) by (done || by rewrite Hoff).
  cbn [mbind outcome_bind].
  replace (u64 (rr_offset r + 4)) with (rr_offset r + 4) by (rewrite u64_id; int_lia).
  assert (E : row_reader_loop fuel row_id (mkRowReader (rr_mem r) (rr_mem_size r) (rr_offset r + 4) (rr_current_table_id r))
    = Ret (Some (mkRowRecord t row_id data),
           mkRowReader (rr_mem r) (rr_mem_size r) (rr_offset r + 12 + blen data) t)).
  { unfold get_serialized_table_separator in *.
    destruct fuel; cbn [row_reader_loop rr_mem rr_mem_size rr_offset rr_current_table_id];
      rewrite bool_decide_false by (unfold get_serialized_table_separator; lia);
      rewrite bool_decide_false by (unfold get_serialized_table_end; lia);
      rewrite Hm, <- !app_assoc, (app_assoc p);
      rewrite load_seg by (first [simpl; unfold in_u64; lia | rewrite blen_app, blen_cencode; simpl csize; lia]);
      cbn [mbind outcome_bind];
      (replace (u64 (rr_offset r + 4 + 8)) with (rr_offset r + 12) by (rewrite u64_id; int_lia));
      rewrite (app_assoc (p ++ _));
      rewrite mem_read_seg' by (rewrite ?blen_app, ?blen_cencode; simpl csize; lia);
      cbn [mbind outcome_bind]; rewrite u64_id by int_lia; by rewrite Ht. }
  rewrite Hm, <- !app_assoc in E. rewrite E. eexists. split; [done|].
  constructor; cbn [rr_mem rr_mem_size rr_offset rr_current_table_id]; try done.
  - exists (p ++ cencode I32 row_id ++ cencode U64 (blen data) ++ data). rewrite <- !app_assoc.
    split; [done|]. rewrite !blen_app, !blen_cencode. simpl csize. lia.
  - replace (rr_offset r + 12 + blen data + blen (items_bytes l))
      with (rr_offset r + (12 + blen data + blen (items_bytes l))) by lia. done.
  - by rewrite Hm, <- !app_assoc in Hb.
Qed.

(** After the last item. *)
Lemma row_next_end fuel r t st tail :
  row_reader_at r t [] st tail -> exists r', row_next fuel r = Ret (None, r').
Proof.
  intros Hat. pose proof (row_reader_at_offset _ _ _ _ _ Hat) as [Ho Hbo].
  destruct Hat as [(p & Hm & Hoff) Hcl Ht _ _ Hb]. change (blen (items_bytes [])) with 0 in *.
  change (items_bytes []) with (@nil Z) in Hm. cbn [app] in Hm.
  unfold row_next. rewrite at_boundary_spec by lia. case_bool_decide as Hbd; [by eexists|].
  destruct Hcl as [(t' & rest & _ & -> & _)|?]; [|lia].
  rewrite Hm, (load_seg I32 _ p) by done. cbn [mbind outcome_bind].
  destruct fuel; cbn [row_reader_loop]; rewrite bool_decide_false by done;
    rewrite bool_decide_true by done; by eexists.
Qed.

(** At a separator: what follows is read as at the start of the next table. *)
Lemma row_next_sep fuel r t t' l st tail :
  row_reader_at r t (ISep :: ITable t' :: l) st tail ->
  exists r', row_reader_at r' t' l st tail /\ row_next (S fuel) r = row_next fuel r'.
Proof.
  intros Hat. pose proof (row_reader_at_offset _ _ _ _ _ Hat) as [Ho Hbo].
  destruct Hat as [(p & Hm & Hoff) Hcl Ht Hok Hrun Hb].
  rewrite !items_bytes_cons in *. cbn [item_bytes] in *.
  apply Forall_cons in Hok as [_ Hok]. apply Forall_cons in Hok as [[Hi Hi0] Hok].
  assert (0 <= blen (items_bytes l)) by (unfold blen; lia).
  rewrite !blen_app, !blen_cencode in *. simpl csize in *.
  set (r' := mkRowReader (rr_mem r) (rr_mem_size r) (rr_offset r + 8) t').
  exists r'. split.
  - constructor; unfold r'; cbn [rr_mem rr_mem_size rr_offset rr_current_table_id]; try done.
    + exists (p ++ cencode I32 get_serialized_table_separator ++ cencode I32 t').
      rewrite Hm, <- !app_assoc. split; [done|]. rewrite !blen_app, !blen_cencode. simpl csize. lia.
    + by replace (rr_offset r + 8 + blen (items_bytes l))
        with (rr_offset r + (4 + (4 + blen (items_bytes l)))) by lia.
  - assert (Hav : rr_offset r + 8 <= rr_mem_size r) by (destruct Hcl as [(?&?&?&?&?)|?]; lia).
    unfold row_next at 1. rewrite at_boundary_spec by lia. rewrite bool_decide_false by lia.
    rewrite Hm, <- !app_assoc, (load_seg I32 _ p) by done. cbn [mbind outcome_bind].
    rewrite (u64_id (rr_offset r + 4)) by int_lia.
    cbn [row_reader_loop rr_mem rr_mem_size rr_offset rr_current_table_id].
    rewrite bool_decide_true by done. rewrite at_boundary_spec by lia.
    rewrite bool_decide_false by lia. rewrite (app_assoc p).
    rewrite (load_seg I32 t' _ _ (rr_offset r + 4))
      by (done || (rewrite blen_app, blen_cencode; simpl csize; lia)).
    cbn [mbind outcome_bind]. rewrite (u64_id (rr_offset r + 4 + 4)) by int_lia.
    replace (rr_offset r + 4 + 4) with (rr_offset r + 8) by lia.
    unfold row_next, r'. cbn [rr_mem rr_mem_size rr_offset rr_current_table_id].
    by rewrite Hm, <- !app_assoc.
Qed.

(** A trailing separator. *)
Lemma row_next_trailing fuel r t st tail :
  row_reader_at r t [ISep] st tail -> exists r', row_next fuel r = Ret (None, r').
Proof.
  intros Hat. pose proof (row_reader_at_offset _ _ _ _ _ Hat) as [Ho Hbo].
  destruct Hat as [(p & Hm & Hoff) Hcl Ht _ Hrun Hb]. rewrite items_bytes_cons in *.
  change (items_bytes []) with (@nil Z) in *. rewrite app_nil_r in *. cbn [item_bytes] in *.
  rewrite blen_cencode in *. simpl csize in *. injection Hrun as <-.
  destruct Hcl as [(?&?&?&?)|Hcl]; [done|].
  unfold row_next. rewrite at_boundary_spec by lia. rewrite bool_decide_false by lia.
  rewrite Hm, (load_seg I32 _ p) by done. cbn [mbind outcome_bind].
  rewrite (u64_id (rr_offset r + 4)) by int_lia.
  destruct fuel; cbn [row_reader_loop rr_mem rr_mem_size rr_offset rr_current_table_id];
    rewrite bool_decide_true by done; rewrite at_boundary_spec by lia;
    rewrite bool_decide_true by lia; by eexists.
Qed.

Lemma row_next_spec fuel r t l st tail :
  (length l <= fuel)%nat -> row_reader_at r t l st tail ->
  (exists r', row_next fuel r = Ret (None, r') /\ item_rows (Some t) l = []) \/
  (exists e r' t' l', row_next fuel r = Ret (Some e, r') /\ row_reader_at r' t' l' st tail /\
     item_rows (Some t) l = e :: item_rows (Some t') l' /\ (length l' < length l)%nat).
Proof.
  revert r t l. induction fuel as [fuel IH] using lt_wf_ind. intros r t l Hf Hat.
  destruct l as [|[t1|row_id data|] l].
  - left. destruct (row_next_end fuel _ _ _ _ Hat) as [r' E]. by exists r'.
  - pose proof (rra_run _ _ _ _ _ Hat) as Hrun. done.
  - right. destruct (row_next_row fuel _ _ _ _ _ _ _ Hat) as (r' & E & Hat').
    exists (mkRowRecord t row_id data), r', t, l. split_and!; [done..|]. simpl. lia.
  - destruct l as [|[t1|row_id data|] l].
    + left. destruct (row_next_trailing fuel _ _ _ _ Hat) as [r' E]. by exists r'.
    + destruct fuel as [|fuel]; [simpl in Hf; lia|].
      destruct (row_next_sep fuel _ _ _ _ _ _ Hat) as (r' & Hat' & ->).
      simpl in Hf. destruct (IH fuel ltac:(lia) r' t1 l ltac:(lia) Hat')
        as [(r2 & E & Hrows)|(e & r2 & t' & l' & E & Hat2 & Hrows & Hlen)].
      * left. by exists r2.
      * right. exists e, r2, t', l'. split_and!; [done..|]. simpl. lia.
    + pose proof (rra_run _ _ _ _ _ Hat) as Hrun. done.
    + pose proof (rra_run _ _ _ _ _ Hat) as Hrun. done.
Qed.

Lemma length_items_bytes l : (length l <= length (items_bytes l))%nat.
Proof.
  induction l as [|i l IH]; [done|]. rewrite items_bytes_cons, length_app.
  pose proof (blen_item_bytes i). unfold blen in *. simpl. lia.
Qed.

Lemma row_reader_rest_spec fuel r t l st tail :
  (length l <= fuel)%nat -> row_reader_at r t l st tail ->
  row_reader_rest fuel r = Ret (item_rows (Some t) l).
Proof.
  revert r t l. induction fuel as [fuel IH] using lt_wf_ind. intros r t l Hf Hat.
  assert (Hlen : (length l <= length (rr_mem r))%nat).
  { destruct Hat as [(p & -> & _) _ _ _ _ _]. rewrite !length_app.
    pose proof (length_items_bytes l). lia. }
  destruct (row_next_spec _ _ _ _ _ _ Hlen Hat)
    as [(r' & E & Hrows)|(e & r' & t' & l' & E & Hat' & Hrows & Hl)];
    change (row_next (length (rr_mem r)) r) with (RowReader_Next r) in E.
  - rewrite Hrows. destruct fuel; cbn [row_reader_rest]; by rewrite E.
  - rewrite Hrows. destruct fuel as [|fuel]; [lia|]. cbn [row_reader_rest]. rewrite E.
    cbn [mbind outcome_bind]. by rewrite (IH fuel ltac:(lia) r' t' l' ltac:(lia) Hat').
Qed.

(** A buffer is read back item by item. *)
Lemma row_reader_all_spec mem avai l st tail :
  mem = items_bytes l ++ tail -> items_run None l = Some st -> Forall item_ok l ->
  blen mem < 2 ^ 63 ->
  (l = [] /\ (exists rest, tail = cencode I32 get_serialized_table_end ++ rest)) \/
  (l <> [] /\ items_closed avai (blen (items_bytes l)) st tail) ->
  row_reader_all mem avai = Ret (item_rows None l).
Proof.
  intros -> Hrun Hok Hb [[-> (rest & ->)]|[Hne Hcl]]; unfold row_reader_all, RowReader_Restart.
  - cbn [RowReader_new rr_mem]. change (items_bytes []) with (@nil Z).
    cbn [app]. by rewrite (load_head I32 get_serialized_table_end).
  - destruct l as [|[t|?|] l]; [done| |done|done].
    rewrite items_bytes_cons in *. cbn [item_bytes] in *. apply Forall_cons in Hok as [[Hi Hi0] Hok].
    cbn [RowReader_new rr_mem rr_mem_size]. rewrite <- app_assoc.
    rewrite (load_head I32 t) by done.
    cbn [mbind outcome_bind]. rewrite bool_decide_false by (unfold get_serialized_table_end; lia).
    cbn [negb item_rows].
    apply (row_reader_rest_spec _ _ t l st tail).
    + rewrite !length_app. pose proof (length_items_bytes l). lia.
    + constructor; cbn [rr_mem rr_mem_size rr_offset rr_current_table_id]; try done.
      * exists (cencode I32 t). split; [done|]. by rewrite blen_cencode.
      * rewrite blen_app, blen_cencode in Hcl. exact Hcl.
Qed.

(** ** Filling a buffer *)

Record buff_holds (size : Z) (b : RecordBuff) (l : list item) (st : option Z) : Prop := {
  bh_mem : exists rest, rb_mem b = items_bytes l ++ rest;
  bh_size : rb_mem_size b = size;
  bh_blen : blen (rb_mem b) = size;
  bh_bound : 4 <= size < 2 ^ 62;
  bh_offset : rb_offset b = blen (items_bytes l);
  bh_ok : Forall item_ok l;
  bh_run : items_run None l = Some st
}.

Lemma buff_holds_new size mem : blen mem = size -> 4 <= size < 2 ^ 62 ->
  buff_holds size (RecordBuff_new mem size) [] None.
Proof. intros Hm Hs. constructor; try done. by exists mem. Qed.

Lemma buff_holds_reset size b l st : buff_holds size b l st ->
  buff_holds size (RecordBuff_ResetOffset (RecordBuff_clear b)) [] None.
Proof.
  intros [_ Hs Hb Hbd _ _ _]. constructor; try done; cbn.
  - by eexists.
  - unfold blen in *. rewrite length_app, length_replicate, length_drop. lia.
Qed.

Lemma buff_holds_offset size b l st : buff_holds size b l st ->
  0 <= rb_offset b <= size.
Proof.
  intros [[rest Hm] _ Hb _ -> _ _]. rewrite <- Hb, Hm, blen_app. unfold blen. lia.
Qed.

(** An item of [n] bytes is written at the offset. *)
Lemma buff_holds_room size b l st n : buff_holds size b l st -> 0 <= n -> rb_offset b + n <= size ->
  exists x rest, rb_mem b = items_bytes l ++ x ++ rest /\ blen x = n.
Proof.
  intros Hb Hn Hr. pose proof (buff_holds_offset _ _ _ _ Hb) as Ho.
  destruct Hb as [[rest Hm] _ Hs _ Hoff _ _]. rewrite Hm, blen_app in Hs.
  destruct (split_region rest n (blen rest - n)) as (x & rest' & -> & Hx & _); [lia..|].
  by exists x, rest'.
Qed.

Lemma Append_spec size b l t row_id data rest : buff_holds size b l (Some t) ->
  in_i32 row_id -> 0 <= row_id -> blen data < 2 ^ 62 ->
  if bool_decide (rb_offset b + 12 + blen data <= size)
  then exists b', RecordBuff_Append row_id (data ++ rest) (blen data) b = Ret (true, b') /\
         buff_holds size b' (l ++ [IRow row_id data]) (Some t)
  else RecordBuff_Append row_id (data ++ rest) (blen data) b = Ret (false, b).
Proof.
  intros Hb Hi H0 Hd. pose proof (buff_holds_offset _ _ _ _ Hb) as Ho.
  assert (0 <= blen data) by (unfold blen; lia). pose proof (bh_bound _ _ _ _ Hb) as Hbd.
  unfold RecordBuff_Append. rewrite (bh_size _ _ _ _ Hb), u64_id by int_lia.
  case_bool_decide as Hfit; [|rewrite bool_decide_true by lia; done].
  rewrite bool_decide_false by lia.
  destruct (buff_holds_room _ _ _ _ (12 + blen data) Hb) as (x & r & Hm & Hx); [lia..|].
  destruct (split_region x 4 (8 + blen data)) as (x1 & x' & -> & Hx1 & Hx'); [lia..|].
  destruct (split_region x' 8 (blen data)) as (x2 & x3 & -> & Hx2 & Hx3); [lia..|].
  destruct Hb as [_ Hs Hbl _ Hoff Hok Hrun].
  rewrite Hm, <- !app_assoc, (store_seg I32 row_id (items_bytes l) x1) by done.
  cbn [mbind outcome_bind]. rewrite !u64_id by int_lia. rewrite (app_assoc (items_bytes l)).
  rewrite (store_seg U64 (blen data) _ x2)
    by (done || (rewrite blen_app, blen_cencode; simpl csize; lia)).
  cbn [mbind outcome_bind].
  assert (E : mem_read 0 (blen data) (data ++ rest) = Ret data) by (by apply (mem_read_seg' [])).
  rewrite E. cbn [mbind outcome_bind]. rewrite (app_assoc (items_bytes l ++ _)).
  rewrite mem_write_seg' by (done || (rewrite !blen_app, !blen_cencode; simpl csize; lia)).
  cbn [mbind outcome_bind]. eexists. split; [done|].
  assert (Hnew : items_bytes (l ++ [IRow row_id data]) =
                 items_bytes l ++ cencode I32 row_id ++ cencode U64 (blen data) ++ data).
  { rewrite items_bytes_app, items_bytes_cons. change (items_bytes []) with (@nil Z).
    by rewrite app_nil_r. }
  constructor; cbn [rb_mem rb_mem_size rb_offset]; try done.
  - exists r. rewrite Hnew. by rewrite <- !app_assoc.
  - rewrite <- Hbl, Hm. rewrite !blen_app, !blen_cencode. simpl csize. lia.
  - rewrite Hnew, !blen_app, !blen_cencode. simpl csize. lia.
  - apply Forall_app. split; [done|]. by constructor.
  - rewrite items_run_app, Hrun. done.
Qed.

Lemma GetMemPtr_spec size b l st : buff_holds size b l st ->
  if bool_decide (rb_offset b + 4 <= size)
  then RecordBuff_GetMemPtrInt32 b =
         (Some (rb_offset b), mkRecordBuff (rb_mem b) (rb_mem_size b) (rb_offset b + 4))
  else RecordBuff_GetMemPtrInt32 b = (None, b).
Proof.
  intros Hb. pose proof (buff_holds_offset _ _ _ _ Hb) as Ho.
  pose proof (bh_bound _ _ _ _ Hb) as Hbd. unfold RecordBuff_GetMemPtrInt32.
  rewrite (bh_size _ _ _ _ Hb), u64_id by int_lia.
  case_bool_decide; [by rewrite bool_decide_false by lia|by rewrite bool_decide_true by lia].
Qed.

Lemma put_int32_spec size b l st v : buff_holds size b l st -> rb_offset b + 4 <= size ->
  exists b', RecordBuff_store (Some (rb_offset b)) v
      (mkRecordBuff (rb_mem b) (rb_mem_size b) (rb_offset b + 4)) = Ret b' /\
    (exists rest, rb_mem b' = items_bytes l ++ cencode I32 v ++ rest) /\
    rb_mem_size b' = size /\ blen (rb_mem b') = size /\
    rb_offset b' = blen (items_bytes l) + 4.
Proof.
  intros Hb Hr. destruct (buff_holds_room _ _ _ _ 4 Hb) as (x & r & Hm & Hx); [lia..|].
  destruct Hb as [_ Hs Hbl _ Hoff _ _].
  unfold RecordBuff_store. cbn [deref mbind outcome_bind rb_mem rb_mem_size rb_offset].
  rewrite Hm, (store_seg I32 v (items_bytes l) x) by done. cbn [mbind outcome_bind].
  eexists. split; [done|]. cbn [rb_mem rb_mem_size rb_offset]. split_and!; [by eexists|done| |lia].
  rewrite <- Hbl, Hm, !blen_app, blen_cencode. simpl csize. lia.
Qed.

Lemma put_item_spec size b l st st' i v : buff_holds size b l st -> rb_offset b + 4 <= size ->
  item_bytes i = cencode I32 v -> item_ok i -> item_next st i = Some st' ->
  exists b', RecordBuff_store (Some (rb_offset b)) v
      (mkRecordBuff (rb_mem b) (rb_mem_size b) (rb_offset b + 4)) = Ret b' /\
    buff_holds size b' (l ++ [i]) st'.
Proof.
  intros Hb Hr Hi Hok Hnext.
  destruct (put_int32_spec _ _ _ _ v Hb Hr) as (b' & E & (rest & Hm) & Hs & Hbl & Hoff).
  exists b'. split; [done|].
  assert (Hnew : items_bytes (l ++ [i]) = items_bytes l ++ cencode I32 v).
  { rewrite items_bytes_app, items_bytes_cons, Hi. change (items_bytes []) with (@nil Z).
    by rewrite app_nil_r. }
  constructor; try done.
  - exists rest. by rewrite Hnew, <- app_assoc.
  - apply Hb.
  - rewrite Hnew, blen_app, blen_cencode, Hoff. done.
  - apply Forall_app. split; [apply Hb|by constructor].
  - rewrite items_run_app, (bh_run _ _ _ _ Hb). cbn [mbind option_bind items_run].
    by rewrite Hnext.
Qed.
