(* ===== verification/ServerRow.v ===== *)
(** * Rows and tables of a server

    [CallBackSubs] ([petuum_ps/server/callback_subs.hpp]), [ServerRow]
    ([server_row.hpp]), [ServerTable] ([server_table.hpp],
    [server_table.cpp]) and the registry of row classes
    ([petuum_ps_common/util/class_register.hpp]). *)
From stdpp Require Import strings pretty.
From S2P Require Import Prelude Bytes Num Context RowWire.
Open Scope Z_scope.

(** ** The containers and libraries the server uses *)

(** The iteration order of [boost::unordered_map]. *)
Class HashOrder := hash_order : forall A : Type, gmap Z A -> list (Z * A).
Arguments hash_order {_ A} _.
Class HashOrderOk `{HashOrder} :=
  hash_order_perm : forall A (m : gmap Z A), hash_order m ≡ₚ map_to_list m.

(** LevelDB: databases by name; [ldb_put] opens (creating it if missing) and
    stores, [ldb_entries] is what an iterator visits. *)
Class LevelDB := {
  ldb : Type;
  ldb_put : string -> list Z -> list Z -> ldb -> ldb;
  ldb_entries : string -> ldb -> list (list Z * list Z)
}.
Class LevelDBOk `{LevelDB} := {
  ldb_keys_nodup name d : NoDup (ldb_entries name d).*1;
  ldb_put_same name k v d k' v' :
    (k', v') ∈ ldb_entries name (ldb_put name k v d) <->
    (k' = k /\ v' = v) \/ (k' <> k /\ (k', v') ∈ ldb_entries name d);
  ldb_put_other name name' k v d : name' <> name ->
    ldb_entries name' (ldb_put name k v d) = ldb_entries name' d
}.

(** ** [ClassRegistry] *)
Record ClassRegistry (C : Type) := mkClassRegistry {
  default_creator : option C;
  creator_map : gmap Z C
}.
Arguments mkClassRegistry {C}.
Arguments default_creator {C}.
Arguments creator_map {C}.

Definition ClassRegistry_new {C} : ClassRegistry C := mkClassRegistry None ∅.
Definition SetDefaultCreator {C} (c : C) (r : ClassRegistry C) : ClassRegistry C :=
  mkClassRegistry (Some c) (creator_map r).
Definition AddCreator {C} (key : Z) (c : C) (r : ClassRegistry C) : ClassRegistry C :=
  mkClassRegistry (default_creator r) (<[key := c]> (creator_map r)).
(** [None] is the null pointer. *)
Definition CreateObject {C} (key : Z) (r : ClassRegistry C) : option C :=
  match creator_map r !! key with
  | Some c => Some c
  | None => default_creator r
  end.

(** What a row class does with a new object: [Init] and [Deserialize]. *)
Record RowClass (R : Type) := mkRowClass {
  rc_init : Z -> outcome R;
  rc_deserialize : list Z -> outcome R
}.
Arguments mkRowClass {R}.
Arguments rc_init {R}.
Arguments rc_deserialize {R}.

(** ** [CallBackSubs] *)
Definition PETUUM_MAX_NUM_CLIENTS : Z := 8.

(** The bits of [std::bitset]; [test], [set] and [reset] throw outside it. *)
Definition CallBackSubs : Type := Z.

Definition bitset_pos (client_id : Z) : outcome unit :=
  CHECK (bool_decide (0 <= client_id < PETUUM_MAX_NUM_CLIENTS)).

Definition CallBackSubs_test (client_id : Z) (s : CallBackSubs) : outcome bool :=
  _ ← bitset_pos client_id; Ret (Z.testbit s client_id).

Definition CallBackSubs_Subscribe (client_id : Z) (s : CallBackSubs)
    : outcome (bool * CallBackSubs) :=
  b ← CallBackSubs_test client_id s;
  if (b : bool) then Ret (false, s) else Ret (true, Z.setbit s client_id).

Definition CallBackSubs_Unsubscribe (client_id : Z) (s : CallBackSubs)
    : outcome (bool * CallBackSubs) :=
  b ← CallBackSubs_test client_id s;
  if (b : bool) then Ret (true, Z.clearbit s client_id) else Ret (false, s).

(** The buffer of every background thread. *)
Abbreviation Buffs := (gmap Z RecordBuff).

(** Where appending failed: the background thread and its client. *)
Record append_failure := mkFailure { failed_bg_id : Z; failed_client_id : Z }.

(** The loop over the clients; a missing buffer is default-constructed,
    which aborts. *)
Fixpoint append_to_clients (g : GlobalContext) (clients : list Z) (s : CallBackSubs)
    (row_data : list Z) (row_size row_id : Z) (buffs : Buffs)
    : outcome (option append_failure * Buffs) :=
  match clients with
  | [] => Ret (None, buffs)
  | client_id :: clients' =>
      subscribed ← CallBackSubs_test client_id s;
      if (subscribed : bool) then
        part ← GetBgPartitionNum g row_id;
        let bg_id := i32 (get_head_bg_id client_id + part) in
        b ← checked (buffs !! bg_id);
        '(suc, b') ← RecordBuff_Append row_id row_data row_size b;
        if (suc : bool)
        then append_to_clients g clients' s row_data row_size row_id (<[bg_id := b']> buffs)
        else Ret (Some (mkFailure bg_id client_id), <[bg_id := b']> buffs)
      else append_to_clients g clients' s row_data row_size row_id buffs
  end.

(** [client_id_st .. num_clients - 1]. *)
Definition clients_from (g : GlobalContext) (client_id_st : Z) : list Z :=
  seqZ client_id_st (num_clients g - client_id_st).

Definition CallBackSubs_AppendRowToBuffs (g : GlobalContext) (client_id_st : Z) (s : CallBackSubs)
    (row_data : list Z) (row_size row_id : Z) (buffs : Buffs)
    : outcome (option append_failure * Buffs) :=
  append_to_clients g (clients_from g client_id_st) s row_data row_size row_id buffs.

Section TABLE.
Context {R V : Type} `{!Num V} `{!AbstractRow R V} `{!HashOrder} `{!LevelDB}.

(** ** [ServerRow]

    A row moved into a table: [row_data_] is not null. *)
Record ServerRow := mkServerRow {
  callback_subs : CallBackSubs;
  row_data : R;
  num_clients_subscribed : Z;
  dirty : bool
}.

Definition ServerRow_new (r : R) : ServerRow := mkServerRow 0 r 0 false.

(** [updates] are the bytes of [num_updates] values. *)
Definition ServerRow_ApplyBatchInc (column_ids : list Z) (updates : list Z) (num_updates : Z)
    (r : ServerRow) : outcome ServerRow :=
  d ← row_apply_batch_inc
        (zip column_ids (v_array_of_bytes (Z.to_nat num_updates) updates)) (row_data r);
  Ret (mkServerRow (callback_subs r) d (num_clients_subscribed r) true).

Definition ServerRow_SerializedSize (r : ServerRow) : Z := row_serialized_size (row_data r).
Definition ServerRow_Serialize (r : ServerRow) : list Z := row_serialize (row_data r).

Definition ServerRow_Subscribe (client_id : Z) (r : ServerRow) : outcome ServerRow :=
  '(changed, s) ← CallBackSubs_Subscribe client_id (callback_subs r);
  Ret (mkServerRow s (row_data r)
         (if (changed : bool) then u64 (num_clients_subscribed r + 1) else num_clients_subscribed r)
         (dirty r)).

Definition ServerRow_Unsubscribe (client_id : Z) (r : ServerRow) : outcome ServerRow :=
  '(changed, s) ← CallBackSubs_Unsubscribe client_id (callback_subs r);
  Ret (mkServerRow s (row_data r)
         (if (changed : bool) then u64 (num_clients_subscribed r - 1) else num_clients_subscribed r)
         (dirty r)).

Definition NoClientSubscribed (r : ServerRow) : bool := bool_decide (num_clients_subscribed r = 0).
Definition IsDirty (r : ServerRow) : bool := dirty r.
Definition ResetDirty (r : ServerRow) : ServerRow :=
  mkServerRow (callback_subs r) (row_data r) (num_clients_subscribed r) false.

Definition ServerRow_AppendRowToBuffs (g : GlobalContext) (client_id_st : Z) (r : ServerRow)
    (data : list Z) (row_size row_id : Z) (buffs : Buffs) : outcome (option append_failure * Buffs) :=
  CallBackSubs_AppendRowToBuffs g client_id_st (callback_subs r) data row_size row_id buffs.

(** ** [ServerTable] *)
Record TableInfo := mkTableInfo { table_staleness : Z; row_type : Z; row_capacity : Z }.

Definition kTmpRowBuffSizeInit : Z := 512.

(** [row_iter] is what the iterator [row_iter_] has not reached yet. *)
Record ServerTable := mkServerTable {
  table_info : TableInfo;
  storage : gmap Z ServerRow;
  row_iter : list Z;
  tmp_row_buff : list Z;
  tmp_row_buff_size : Z;
  curr_row_size : Z
}.

Definition ServerTable_new (info : TableInfo) : ServerTable :=
  mkServerTable info ∅ [] [] kTmpRowBuffSizeInit 0.

Definition with_storage (st : gmap Z ServerRow) (t : ServerTable) : ServerTable :=
  mkServerTable (table_info t) st (row_iter t) (tmp_row_buff t) (tmp_row_buff_size t)
    (curr_row_size t).

Definition FindRow (row_id : Z) (t : ServerTable) : option ServerRow := storage t !! row_id.

(** [storage_.insert] does not replace a row. *)
Definition storage_insert (row_id : Z) (r : R) (st : gmap Z ServerRow) : gmap Z ServerRow :=
  match st !! row_id with Some _ => st | None => <[row_id := ServerRow_new r]> st end.

(** A call on the null pointer is undefined. *)
Definition CreateRow (reg : ClassRegistry (RowClass R)) (row_id : Z) (t : ServerTable)
    : outcome ServerTable :=
  c ← deref (CreateObject (row_type (table_info t)) reg);
  r ← rc_init c (row_capacity (table_info t));
  Ret (with_storage (storage_insert row_id r (storage t)) t).

Definition ApplyRowOpLog (row_id : Z) (column_ids updates : list Z) (num_updates : Z)
    (t : ServerTable) : outcome (bool * ServerTable) :=
  match storage t !! row_id with
  | None => Ret (false, t)
  | Some r =>
      r' ← ServerRow_ApplyBatchInc column_ids updates num_updates r;
      Ret (true, with_storage (<[row_id := r']> (storage t)) t)
  end.

(** *** Appending a table to the buffers

    [alloc] is the content of fresh memory. *)
Context (alloc : Z -> list Z).

Definition InitAppendTableToBuffs (t : ServerTable) : ServerTable :=
  mkServerTable (table_info t) (storage t) (hash_order (storage t)).*1
    (alloc (tmp_row_buff_size t)) (tmp_row_buff_size t) (curr_row_size t).

(** Serializing the row at the iterator into the temporary buffer. *)
Definition serialize_current (r : ServerRow) (row_id : Z) (t : ServerTable) : outcome ServerTable :=
  let size := ServerRow_SerializedSize r in
  let '(buff, buff_size) :=
    if bool_decide (tmp_row_buff_size t < size) then (alloc size, size)
    else (tmp_row_buff t, tmp_row_buff_size t) in
  let bytes := ServerRow_Serialize r in
  buff' ← mem_write 0 bytes buff;
  Ret (mkServerTable (table_info t) (<[row_id := ResetDirty r]> (storage t)) (row_iter t)
         buff' buff_size (u64 (blen bytes))).

Definition append_current (g : GlobalContext) (client_id_st row_id : Z) (t : ServerTable)
    (buffs : Buffs) : outcome (option append_failure * Buffs) :=
  r ← deref (storage t !! row_id);
  ServerRow_AppendRowToBuffs g client_id_st r (tmp_row_buff t) (curr_row_size t) row_id buffs.

Definition set_row_iter (l : list Z) (t : ServerTable) : ServerTable :=
  mkServerTable (table_info t) (storage t) l (tmp_row_buff t) (tmp_row_buff_size t)
    (curr_row_size t).

Definition free_tmp_buff (t : ServerTable) : ServerTable :=
  mkServerTable (table_info t) (storage t) (row_iter t) [] (tmp_row_buff_size t)
    (curr_row_size t).

(** The [for] loop over the rows that are left. *)
Fixpoint append_rows (g : GlobalContext) (client_id_st : Z) (rows : list Z) (t : ServerTable)
    (buffs : Buffs) : outcome (option append_failure * ServerTable * Buffs) :=
  match rows with
  | [] => Ret (None, free_tmp_buff (set_row_iter [] t), buffs)
  | row_id :: rows' =>
      r ← deref (storage t !! row_id);
      if NoClientSubscribed r then append_rows g client_id_st rows' t buffs
      else if negb (IsDirty r) then append_rows g client_id_st rows' t buffs
      else
        t1 ← serialize_current r row_id (set_row_iter (row_id :: rows') t);
        '(failed, buffs') ← append_current g client_id_st row_id t1 buffs;
        match failed with
        | Some f => Ret (Some f, t1, buffs')
        | None => append_rows g client_id_st rows' t1 buffs'
        end
  end.

Definition AppendTableToBuffs (g : GlobalContext) (client_id_st : Z) (resume : bool)
    (t : ServerTable) (buffs : Buffs) : outcome (option append_failure * ServerTable * Buffs) :=
  if resume then
    row_id ← deref (head (row_iter t));
    '(failed, buffs') ← append_current g client_id_st row_id t buffs;
    match failed with
    | Some f => Ret (Some f, t, buffs')
    | None => append_rows g 0 (tail (row_iter t)) (set_row_iter (tail (row_iter t)) t) buffs'
    end
  else append_rows g client_id_st (row_iter t) t buffs.

(** *** Snapshots *)

Definition MakeSnapShotFileName (snapshot_dir : string) (server_id table_id clock : Z) : string :=
  snapshot_dir +:+ "/server_table" +:+ ".server-" +:+ pretty server_id
    +:+ ".table-" +:+ pretty table_id +:+ ".clock-" +:+ pretty clock +:+ ".db".

(** The loop body: [mem_buff] and [buff_size] thread through. *)
Definition snapshot_row (db_name : string) (st : list Z * Z * ldb) (row : Z * ServerRow)
    : outcome (list Z * Z * ldb) :=
  let '(mem_buff, buff_size, db) := st in
  let serialized_size := i32 (ServerRow_SerializedSize row.2) in
  let '(mem_buff, buff_size) :=
    if bool_decide (buff_size < serialized_size) then (alloc serialized_size, serialized_size)
    else (mem_buff, buff_size) in
  mem_buff' ← mem_write 0 (ServerRow_Serialize row.2) mem_buff;
  value ← mem_read 0 serialized_size mem_buff';
  Ret (mem_buff', buff_size, ldb_put db_name (cencode I32 row.1) value db).

Definition TakeSnapShot (dir : string) (server_id table_id clock : Z) (t : ServerTable) (db : ldb)
    : outcome ldb :=
  let db_name := MakeSnapShotFileName dir server_id table_id clock in
  '(_, _, db') ← foldM (snapshot_row db_name) (hash_order (storage t)) (alloc 512, 512, db);
  Ret db'.

Definition read_snapshot_row (reg : ClassRegistry (RowClass R)) (t : ServerTable)
    (kv : list Z * list Z) : outcome ServerTable :=
  row_id ← load I32 0 kv.1;
  c ← deref (CreateObject (row_type (table_info t)) reg);
  r ← rc_deserialize c kv.2;
  Ret (with_storage (storage_insert row_id r (storage t)) t).

Definition ReadSnapShot (reg : ClassRegistry (RowClass R)) (dir : string)
    (server_id table_id clock : Z) (db : ldb) (t : ServerTable) : outcome ServerTable :=
  foldM (read_snapshot_row reg) (ldb_entries (MakeSnapShotFileName dir server_id table_id clock) db) t.
End TABLE.
Arguments ServerRow : clear implicits.
Arguments ServerTable : clear implicits.
