(* ===== verification/Snapshot.v ===== *)
(** * Snapshots of a server table

    What [ServerTable::TakeSnapShot] stores, [ServerTable::ReadSnapShot]
    ([petuum_ps/server/server_table.cpp]) restores. *)
From stdpp Require Import strings pretty.
From S2P Require Import Prelude Bytes Num DenseRow Context RowWire ServerRow.
Open Scope Z_scope.

Section SNAPSHOT.
Context {R V : Type} `{!Num V} `{!AbstractRow R V} `{!AbstractRowOk R V}.
Context `{!HashOrder, !HashOrderOk} `{!LevelDB, !LevelDBOk}.
Context (alloc : Z -> list Z) (Halloc : forall n, 0 <= n -> blen (alloc n) = n).

Lemma cencode_i32_inj a b : in_i32 a -> in_i32 b -> cencode I32 a = cencode I32 b -> a = b.
Proof. intros Ha Hb E. by rewrite <- (cdecode_cencode I32 a Ha), E, cdecode_cencode. Qed.

(** A row that serializes within the 31-bit sizes of the code. *)
Definition row_fits (row : Z * ServerRow R) : Prop :=
  in_i32 row.1 /\ row_ok (row_data row.2) /\ blen (row_serialize (row_data row.2)) < 2 ^ 31.

Definition snap_entry (row : Z * ServerRow R) : list Z * list Z :=
  (cencode I32 row.1, row_serialize (row_data row.2)).

Lemma mem_write_read_0 x buff : blen x <= blen buff ->
  exists buff', mem_write 0 x buff = Ret buff' /\ blen buff' = blen buff /\
    mem_read 0 (blen x) buff' = Ret x.
Proof.
  intros Hx. destruct (split_region buff (blen x) (blen buff - blen x)) as (b1 & b2 & -> & Hb1 & Hb2);
    [unfold blen; lia|lia|lia|].
  exists (x ++ b2). split_and!.
  - by apply (mem_write_seg' [] b1).
  - rewrite !blen_app. lia.
  - by apply (mem_read_seg' []).
Qed.

Lemma snapshot_row_spec name buff size row db : row_fits row -> blen buff = size -> 0 <= size ->
  exists buff' size', snapshot_row alloc name (buff, size, db) row =
      Ret (buff', size', ldb_put name (snap_entry row).1 (snap_entry row).2 db) /\
    blen buff' = size' /\ 0 <= size'.
Proof.
  intros (Hid & Hok & Hb) Hs Hge. unfold snapshot_row, ServerRow_SerializedSize, ServerRow_Serialize.
  rewrite <- (row_serialize_size _ Hok Hb). set (x := row_serialize _) in *.
  assert (Hx0 : 0 <= blen x) by (unfold blen; lia). rewrite i32_id by int_lia.
  case_bool_decide as Hc.
  - destruct (mem_write_read_0 x (alloc (blen x))) as (b' & -> & Hl & E); [rewrite Halloc; lia|].
    cbn [mbind outcome_bind]. rewrite E. cbn [mbind outcome_bind]. rewrite Halloc in Hl by done.
    by exists b', (blen x).
  - destruct (mem_write_read_0 x buff) as (b' & -> & Hl & E); [lia|].
    cbn [mbind outcome_bind]. rewrite E. cbn [mbind outcome_bind]. exists b', size.
    by rewrite Hl, Hs.
Qed.

(** The database after the loop over [rows]. *)
Lemma snapshot_loop_spec name rows buff size db :
  Forall row_fits rows -> NoDup rows.*1 -> blen buff = size -> 0 <= size ->
  exists buff' size' db', foldM (snapshot_row alloc name) rows (buff, size, db) =
      Ret (buff', size', db') /\
    (forall k v, (k, v) ∈ ldb_entries name db' <->
       ((k, v) ∈ (snap_entry <$> rows)) \/ ((k ∉ (snap_entry <$> rows).*1) /\ ((k, v) ∈ ldb_entries name db))).
Proof.
  intros Hf. revert buff size db. induction Hf as [|row rows Hrow Hf IH]; intros buff size db Hnd Hs Hge.
  { exists buff, size, db. split; [done|]. intros k v. simpl. rewrite !elem_of_nil. tauto. }
  rewrite fmap_cons in Hnd. apply NoDup_cons in Hnd as [Hnin Hnd].
  destruct (snapshot_row_spec name buff size row db Hrow Hs Hge) as (b1 & s1 & E1 & Hs1 & Hge1).
  cbn [foldM]. rewrite E1. cbn [mbind outcome_bind].
  destruct (IH b1 s1 (ldb_put name (snap_entry row).1 (snap_entry row).2 db) Hnd Hs1 Hge1)
    as (b' & s' & db' & -> & Hdb).
  exists b', s', db'. split; [done|]. intros k v. rewrite Hdb, ldb_put_same, !fmap_cons, !elem_of_cons.
  assert (Hkey : (snap_entry row).1 ∉ (snap_entry <$> rows).*1).
  { intros (e & He & (row' & -> & Hin)%list_elem_of_fmap)%list_elem_of_fmap.
    apply Hnin. apply list_elem_of_fmap. exists row'. split; [|done].
    apply cencode_i32_inj; [apply Hrow| |exact He].
    rewrite Forall_forall in Hf. by apply (Hf row' Hin). }
  split.
  - intros [Hin|(Hn & [[-> ->]|[Hne Hin]])].
    + by left; right.
    + left; left. by destruct (snap_entry row).
    + right. split; [|done]. intros [->|?]; done.
  - intros [[E|Hin]|(Hn & Hin)]; [|by left|].
    + right. rewrite <- E in Hkey |- *. split; [exact Hkey|]. by left.
    + right. split; [naive_solver|]. right. split; [naive_solver|done].
Qed.

(** Reading entries that are rows of [m] into a table. *)
Lemma read_snapshot_spec reg c (m : gmap Z (ServerRow R)) es t :
  CreateObject (row_type (table_info t)) reg = Some c -> rc_deserialize c = row_deserialize ->
  (forall i r, m !! i = Some r -> row_fits (i, r)) ->
  NoDup es.*1 ->
  (forall e, e ∈ es -> exists i r, e = snap_entry (i, r) /\ m !! i = Some r /\ storage t !! i = None) ->
  exists t', foldM (read_snapshot_row reg) es t = Ret t' /\ table_info t' = table_info t /\
    (forall i, (exists r, m !! i = Some r /\ snap_entry (i, r) ∈ es /\
                 exists r', storage t' !! i = Some r' /\ row_eqv (row_data r') (row_data r)) \/
               ((forall r, m !! i = Some r -> snap_entry (i, r) ∉ es) /\ storage t' !! i = storage t !! i)).
Proof.
  intros Hc Hdes Hm. revert t Hc. induction es as [|e es IH]; intros t Hc Hnd Hes.
  { exists t. split; [done|]. split; [done|]. intros i. right. split; [|done].
    intros r _ ?%elem_of_nil. done. }
  rewrite fmap_cons in Hnd. apply NoDup_cons in Hnd as [Hnin Hnd].
  destruct (Hes e ltac:(by left)) as (i & r & -> & Hi & Hn).
  destruct (Hm i r Hi) as (Hid & Hok & Hb). cbn [fst snd] in *.
  destruct (row_round_trip _ Hok Hb) as (d & Ed & Hd1 & Hd2).
  set (t1 := with_storage (<[i := ServerRow_new d]> (storage t)) t).
  assert (E : read_snapshot_row reg t (snap_entry (i, r)) = Ret t1).
  { unfold read_snapshot_row, snap_entry. cbn [fst snd].
    rewrite load_whole by done. cbn [mbind outcome_bind].
    rewrite Hc. cbn [deref mbind outcome_bind]. rewrite Hdes, Ed. cbn [mbind outcome_bind].
    unfold storage_insert. by rewrite Hn. }
  cbn [foldM]. rewrite E. cbn [mbind outcome_bind].
  destruct (IH t1 Hc Hnd) as (t' & -> & Hinfo & Ht').
  { intros e He. destruct (Hes e ltac:(by right)) as (j & s & -> & Hj & Hnj).
    exists j, s. split_and!; [done..|]. unfold t1. simpl. rewrite lookup_insert_ne; [done|].
    intros <-. apply Hnin. apply list_elem_of_fmap. by exists (snap_entry (i, s)). }
  exists t'. split; [done|]. split; [done|]. intros j.
  destruct (Ht' j) as [(s & Hj & Hin & Hr)|[Hnone Hst]].
  { left. exists s. split_and!; [done|by right|done]. }
  unfold t1 in Hst. simpl in Hst. destruct (decide (j = i)) as [->|Hne].
  - left. exists r. split_and!; [done|by left|]. rewrite lookup_insert_eq in Hst.
    by exists (ServerRow_new d).
  - right. rewrite lookup_insert_ne in Hst by done. split; [|done].
    intros s Hs [Heq|Hin]%elem_of_cons; [|by apply (Hnone s)].
    apply Hne. apply (f_equal fst) in Heq. apply cencode_i32_inj; [|done|exact Heq].
    by apply (Hm j s Hs).
Qed.
End SNAPSHOT.

(** C18: reading a snapshot into a new table of the same row type gives back
    exactly the rows the table had when the snapshot was taken, with the same
    contents, provided no other snapshot was kept under the name. *)
Theorem snapshot_round_trip {R V} `{!Num V} `{!AbstractRow R V} `{!AbstractRowOk R V}
    `{!HashOrder, !HashOrderOk} `{!LevelDB, !LevelDBOk}
    (alloc : Z -> list Z) reg c dir server_id table_id clock (t : ServerTable R) db :
  (forall n, 0 <= n -> blen (alloc n) = n) ->
  (forall i r, storage t !! i = Some r -> row_fits (i, r)) ->
  CreateObject (row_type (table_info t)) reg = Some c -> rc_deserialize c = row_deserialize ->
  ldb_entries (MakeSnapShotFileName dir server_id table_id clock) db = [] ->
  exists db' t', TakeSnapShot alloc dir server_id table_id clock t db = Ret db' /\
    ReadSnapShot reg dir server_id table_id clock db' (ServerTable_new (table_info t)) = Ret t' /\
    dom (storage t') = dom (storage t) /\
    (forall i r r', storage t !! i = Some r -> storage t' !! i = Some r' ->
       row_eqv (row_data r') (row_data r)).
Proof.
  intros Ha Hfit Hc Hdes Hempty. unfold TakeSnapShot, ReadSnapShot.
  set (name := MakeSnapShotFileName _ _ _ _) in *.
  pose proof (hash_order_perm _ (storage t)) as Hperm.
  assert (Hin : forall i r, (i, r) ∈ hash_order (storage t) <-> storage t !! i = Some r).
  { intros i r. rewrite Hperm. apply elem_of_map_to_list. }
  destruct (snapshot_loop_spec alloc Ha name (hash_order (storage t)) (alloc 512) 512 db)
    as (b' & s' & db' & -> & Hdb).
  { apply Forall_forall. intros [i r] Hr. apply Hfit. by apply Hin. }
  { rewrite Hperm. apply NoDup_fst_map_to_list. }
  { by apply Ha. }
  { done. }
  exists db'. cbn [mbind outcome_bind].
  destruct (read_snapshot_spec reg c (storage t) (ldb_entries name db')
              (ServerTable_new (table_info t)) Hc Hdes Hfit (ldb_keys_nodup name db'))
    as (t' & -> & _ & Ht').
  { intros [k v] Hkv. apply Hdb in Hkv as [Hkv|[_ Hkv]]; [|by rewrite Hempty, elem_of_nil in Hkv].
    apply list_elem_of_fmap in Hkv as ([i r] & E & Hkv). exists i, r.
    split_and!; [done|by apply Hin|]. apply lookup_empty. }
  assert (Hall : forall i r, storage t !! i = Some r -> snap_entry (i, r) ∈ ldb_entries name db').
  { intros i r Hi. destruct (snap_entry (i, r)) as [k v] eqn:E. apply Hdb. left.
    rewrite <- E. apply list_elem_of_fmap_2. by apply Hin. }
  exists t'. split_and!; [done..| |].
  - apply set_eq. intros i. rewrite !elem_of_dom. destruct (Ht' i) as [(r & Hi & _ & r' & E & _)|[Hn E]].
    + by rewrite Hi, E.
    + rewrite E. simpl. rewrite lookup_empty. split; [by intros [? ?]|].
      intros [r Hr]. exfalso. by apply (Hn r Hr), Hall.
  - intros i r r' Hi Hi'. destruct (Ht' i) as [(s & Hs & _ & r1 & E & Heq)|[Hn _]].
    + congruence.
    + exfalso. by apply (Hn r Hi), Hall.
Qed.

(** *** Witness: LevelDB as a map of maps *)
#[export] Instance order_map_to_list : HashOrder := fun A m => map_to_list m.
#[export] Instance order_map_to_list_ok : HashOrderOk.
Proof. intros A m. done. Qed.

#[export] Instance demo_leveldb : LevelDB := {
  ldb := gmap string (gmap (list Z) (list Z));
  ldb_put name k v d := <[name := <[k := v]> (default ∅ (d !! name))]> d;
  ldb_entries name d := map_to_list (default ∅ (d !! name))
}.

#[export] Instance demo_leveldb_ok : LevelDBOk.
Proof.
  constructor.
  - intros. apply NoDup_fst_map_to_list.
  - intros name k v d k' v'. simpl. rewrite lookup_insert_eq. simpl.
    rewrite !elem_of_map_to_list, lookup_insert_Some. naive_solver.
  - intros name name' k v d Hne. simpl. by rewrite lookup_insert_ne.
Qed.

Definition demo_info : TableInfo := mkTableInfo 1 0 3.
Definition demo_registry : ClassRegistry (RowClass (DenseRow int32)) :=
  AddCreator 0 (mkRowClass row_init row_deserialize) ClassRegistry_new.
Definition demo_row : DenseRow int32 := mkDenseRow [to_int32 4; to_int32 5; to_int32 6] 3.
Definition demo_server_table : ServerTable (DenseRow int32) :=
  with_storage {[8 := ServerRow_new demo_row]} (ServerTable_new demo_info).

Lemma demo_row_fits i r : storage demo_server_table !! i = Some r -> row_fits (i, r).
Proof.
  unfold demo_server_table. cbn [storage with_storage].
  intros [<- <-]%lookup_singleton_Some. split_and!; [done|by split|by vm_compute].
Qed.

Lemma snapshot_round_trip_witness :
  exists db' t', TakeSnapShot (fun n => replicate (Z.to_nat n) 0) "snap" 1 0 3 demo_server_table ∅ = Ret db' /\
    ReadSnapShot demo_registry "snap" 1 0 3 db' (ServerTable_new demo_info) = Ret t' /\
    dom (storage t') = {[8]}.
Proof.
  destruct (snapshot_round_trip (fun n => replicate (Z.to_nat n) 0) demo_registry
    (mkRowClass row_init row_deserialize) "snap" 1 0 3 demo_server_table ∅) as (db' & t' & E & E' & Hd & _).
  - intros n Hn. unfold blen. rewrite length_replicate. lia.
  - exact demo_row_fits.
  - done.
  - done.
  - by vm_compute.
  - exists db', t'. split_and!; [exact E|exact E'|]. rewrite Hd. by vm_compute.
Defined.
