(* ===== verification/Server.v ===== *)
(** * The server

    [Server] ([petuum_ps/server/server.hpp], [server.cpp]): the tables, the
    vector clocks of the clients and their background threads, the requests
    that wait for a clock, and the version of every background thread's last
    oplog. *)
From stdpp Require Import strings.
From S2P Require Import Prelude Bytes Num DenseRow VectorClock Context OpLogWire RowWire ServerRow.
Open Scope Z_scope.

Record ServerRowRequest := mkServerRowRequest {
  rq_bg_id : Z; rq_table_id : Z; rq_row_id : Z; rq_clock : Z
}.
#[export] Instance ServerRowRequest_eq_dec : EqDecision ServerRowRequest.
Proof. solve_decision. Defined.

Definition kPushRowMsgSizeInit : Z := 4 * 1024 * 1024.

Section SERVER.
Context {R V : Type} `{!Num V} `{!AbstractRow R V} `{!HashOrder} `{!LevelDB}.

Record Server := mkServer {
  client_clocks : VectorClock;
  client_vector_clock_map : gmap Z VectorClock;
  client_bg_map : gmap Z (list Z);
  tables : gmap Z (ServerTable R);
  clock_bg_row_requests : gmap Z (gmap Z (list ServerRowRequest));
  client_ids : list Z;
  bg_version_map : gmap Z Z;
  push_row_msg_data_size : Z;
  server_id : Z
}.

(** [push_row_msg_data_size_] and [server_id_] are set by [Init]. *)
Definition Server_new : Server := mkServer VectorClock_default ∅ ∅ ∅ ∅ [] ∅ 0 0.

(** Updates of single members. *)
Definition set_clocks (cc : VectorClock) (cv : gmap Z VectorClock) (s : Server) : Server :=
  mkServer cc cv (client_bg_map s) (tables s) (clock_bg_row_requests s) (client_ids s)
    (bg_version_map s) (push_row_msg_data_size s) (server_id s).
Definition set_tables (ts : gmap Z (ServerTable R)) (s : Server) : Server :=
  mkServer (client_clocks s) (client_vector_clock_map s) (client_bg_map s) ts
    (clock_bg_row_requests s) (client_ids s) (bg_version_map s) (push_row_msg_data_size s)
    (server_id s).
Definition set_requests (q : gmap Z (gmap Z (list ServerRowRequest))) (s : Server) : Server :=
  mkServer (client_clocks s) (client_vector_clock_map s) (client_bg_map s) (tables s) q
    (client_ids s) (bg_version_map s) (push_row_msg_data_size s) (server_id s).
Definition set_versions (v : gmap Z Z) (s : Server) : Server :=
  mkServer (client_clocks s) (client_vector_clock_map s) (client_bg_map s) (tables s)
    (clock_bg_row_requests s) (client_ids s) v (push_row_msg_data_size s) (server_id s).

Definition AddClientBgPair (client bg_id : Z) (s : Server) : Server :=
  mkServer (AddClock client 0 (client_clocks s)) (client_vector_clock_map s)
    (<[client := default [] (client_bg_map s !! client) ++ [bg_id]]> (client_bg_map s))
    (tables s) (clock_bg_row_requests s) (client_ids s ++ [client]) (bg_version_map s)
    (push_row_msg_data_size s) (server_id s).

(** The loop body over [client_bg_map_]; [-1] is stored as [uint32_t]. *)
Definition init_client (s : Server) (client : Z) (bgs : list Z) : Server :=
  set_versions (foldl (fun m bg => <[bg := u32 (-1)]> m) (bg_version_map s) bgs)
    (set_clocks (client_clocks s)
       (<[client := VectorClock_init bgs]> (client_vector_clock_map s)) s).

Definition Server_Init (id : Z) (s : Server) : Server :=
  let s' := foldl (fun s '(client, bgs) => init_client s client bgs) s
              (map_to_list (client_bg_map s)) in
  mkServer (client_clocks s') (client_vector_clock_map s') (client_bg_map s') (tables s')
    (clock_bg_row_requests s') (client_ids s') (bg_version_map s') kPushRowMsgSizeInit id.

Context (g : GlobalContext) (reg : ClassRegistry (RowClass R)) (alloc : Z -> list Z).

Definition CreateTable (table_id : Z) (info : TableInfo) (db : ldb) (s : Server) : outcome Server :=
  match tables s !! table_id with
  | Some _ => CheckFail
  | None =>
      let t := ServerTable_new info in
      if bool_decide (0 < resume_clock g) then
        t' ← ReadSnapShot reg (resume_dir g) (server_id s) table_id (resume_clock g) db t;
        Ret (set_tables (<[table_id := t']> (tables s)) s)
      else Ret (set_tables (<[table_id := t]> (tables s)) s)
  end.

(** The row is found or created; the result holds it in its table. *)
Definition FindCreateRow (table_id row_id : Z) (s : Server) : outcome (ServerRow R * Server) :=
  t ← checked (tables s !! table_id);
  match FindRow row_id t with
  | Some r => Ret (r, s)
  | None =>
      t' ← CreateRow reg row_id t;
      r ← deref (FindRow row_id t');
      Ret (r, set_tables (<[table_id := t']> (tables s)) s)
  end.

(** [client_vector_clock_map_[client_id]] default-constructs a missing
    clock. *)
Definition take_snapshots (clock : Z) (s : Server) (db : ldb) : outcome ldb :=
  foldM (fun db '(table_id, t) => TakeSnapShot alloc (snapshot_dir g) (server_id s) table_id clock t db)
    (hash_order (tables s)) db.

Definition Clock (client bg_id : Z) (s : Server) (db : ldb) : outcome (bool * Server * ldb) :=
  let vc := default VectorClock_default (client_vector_clock_map s !! client) in
  let '(new_clock, vc') := Tick bg_id vc in
  let s1 := set_clocks (client_clocks s) (<[client := vc']> (client_vector_clock_map s)) s in
  if bool_decide (new_clock = 0) then Ret (false, s1, db)
  else
    let '(new_clock, cc) := Tick client (client_clocks s1) in
    let s2 := set_clocks cc (client_vector_clock_map s1) s1 in
    if bool_decide (new_clock = 0) then Ret (false, s2, db)
    else if bool_decide (snapshot_clock g <= 0)
            || negb (bool_decide (Z.rem new_clock (snapshot_clock g) = 0)) then Ret (true, s2, db)
    else db' ← take_snapshots new_clock s2 db; Ret (true, s2, db').

Definition AddRowRequest (bg_id table_id row_id clock : Z) (s : Server) : Server :=
  let q := clock_bg_row_requests s in
  let m := default ∅ (q !! clock) in
  let l := default [] (m !! bg_id) in
  set_requests
    (<[clock := <[bg_id := l ++ [mkServerRowRequest bg_id table_id row_id clock]]> m]> q) s.

Definition GetFulfilledRowRequests (s : Server) : list ServerRowRequest * Server :=
  let clock := get_min_clock (client_clocks s) in
  match clock_bg_row_requests s !! clock with
  | None => ([], s)
  | Some bg_row_requests =>
      (concat (hash_order bg_row_requests).*2,
       set_requests (delete clock (clock_bg_row_requests s)) s)
  end.

(** One row of the oplog: the row is created if it is missing. *)
Definition apply_row (table_id row_id : Z) (column_ids updates : list Z) (s : Server)
    : outcome Server :=
  t ← deref (tables s !! table_id);
  let num_updates := Z.of_nat (length column_ids) in
  '(found, t1) ← ApplyRowOpLog row_id column_ids updates num_updates t;
  if (found : bool) then Ret (set_tables (<[table_id := t1]> (tables s)) s)
  else
    t2 ← CreateRow reg row_id t1;
    '(_, t3) ← ApplyRowOpLog row_id column_ids updates num_updates t2;
    Ret (set_tables (<[table_id := t3]> (tables s)) s).

(** The [while (updates != 0)] loop; [cur] is the table [server_table] points
    to, looked up again only when a new table is started. *)
Fixpoint apply_oplog_loop (fuel : nat) (cur : Z) (e : oplog_entry) (rd : SerializedOpLogReader)
    (s : Server) : outcome Server :=
  s' ← apply_row cur (oe_row_id e) (oe_column_ids e) (oe_updates e) s;
  '(next, rd') ← Reader_Next rd;
  match next with
  | None => Ret s'
  | Some e' =>
      match fuel with
      | O => Undef
      | S fuel' =>
          apply_oplog_loop fuel' (if oe_new_table e' then oe_table_id e' else cur) e' rd' s'
      end
  end.

(** Every row takes at least eight bytes of [oplog], so its length is enough
    fuel. *)
Definition ApplyOpLog (oplog : list Z) (bg_thread_id version : Z) (s : Server) : outcome Server :=
  _ ← CHECK (bool_decide (u32 (default 0 (bg_version_map s !! bg_thread_id) + 1) = version));
  let s1 := set_versions (<[bg_thread_id := version]> (bg_version_map s)) s in
  '(to_read, rd) ← Reader_Restart (Reader_new oplog);
  if (to_read : bool) then
    '(first, rd') ← Reader_Next rd;
    match first with
    | None => Ret s1
    | Some e => apply_oplog_loop (length oplog) (oe_table_id e) e rd' s1
    end
  else Ret s1.

Definition GetMinClock (s : Server) : Z := get_min_clock (client_clocks s).
(** [operator[]] inserts 0 for an unknown thread; the result is [int32_t]. *)
Definition GetBgVersion (bg_thread_id : Z) (s : Server) : Z * Server :=
  match bg_version_map s !! bg_thread_id with
  | Some v => (i32 v, s)
  | None => (0, set_versions (<[bg_thread_id := 0]> (bg_version_map s)) s)
  end.

(** ** Oplog application

    What applying a message means: the rows one after the other, each found
    or created, its updates applied as one batch. *)
Definition row_oplog_effect (row : Z * (Z * list (Z * V))) (s : Server) : outcome Server :=
  let '(table_id, (row_id, us)) := row in
  t ← deref (tables s !! table_id);
  r ← match storage t !! row_id with
      | Some r => Ret r
      | None => c ← deref (CreateObject (row_type (table_info t)) reg);
                d ← rc_init c (row_capacity (table_info t)); Ret (ServerRow_new d)
      end;
  d ← row_apply_batch_inc us (row_data r);
  Ret (set_tables (<[table_id := with_storage
         (<[row_id := mkServerRow (callback_subs r) d (num_clients_subscribed r) true]> (storage t)) t]>
         (tables s)) s).

Definition message_rows (ts : list (Z * list (Z * list (Z * V)))) : list (Z * (Z * list (Z * V))) :=
  concat ((fun t : Z * list (Z * list (Z * V)) => pair t.1 <$> t.2) <$> ts).

Context `{!NumOk V}.

Lemma batch_of_entry (us : list (Z * V)) :
  zip us.*1 (v_array_of_bytes (Z.to_nat (Z.of_nat (length us.*1))) (v_array_bytes us.*2)) = us.
Proof.
  rewrite Nat2Z.id, length_fmap, <- (length_fmap snd us), <- (app_nil_r (v_array_bytes _)),
    v_array_round_trip. apply zip_fst_snd.
Qed.

Lemma ApplyRowOpLog_found row_id us (t : ServerTable R) r : storage t !! row_id = Some r ->
  ApplyRowOpLog row_id us.*1 (v_array_bytes us.*2) (Z.of_nat (length us.*1)) t =
    (d ← row_apply_batch_inc us (row_data r);
     Ret (true, with_storage
       (<[row_id := mkServerRow (callback_subs r) d (num_clients_subscribed r) true]> (storage t)) t)).
Proof.
  intros E. unfold ApplyRowOpLog, ServerRow_ApplyBatchInc. rewrite E, batch_of_entry.
  by destruct (row_apply_batch_inc us (row_data r)).
Qed.

Lemma ApplyRowOpLog_missing row_id cols ups n (t : ServerTable R) : storage t !! row_id = None ->
  ApplyRowOpLog row_id cols ups n t = Ret (false, t).
Proof. intros E. unfold ApplyRowOpLog. by rewrite E. Qed.

Lemma apply_row_effect table_id row s :
  apply_row table_id row.1 row.2.*1 (v_array_bytes row.2.*2) s = row_oplog_effect (table_id, row) s.
Proof.
  destruct row as [row_id us]. cbn [fst snd]. unfold apply_row, row_oplog_effect.
  destruct (tables s !! table_id) as [t|]; [|done]. cbn [deref mbind outcome_bind].
  destruct (storage t !! row_id) as [r|] eqn:Er.
  - rewrite (ApplyRowOpLog_found _ _ _ r) by done. cbn [mbind outcome_bind].
    by destruct (row_apply_batch_inc us (row_data r)).
  - rewrite ApplyRowOpLog_missing by done. cbn [mbind outcome_bind]. unfold CreateRow.
    destruct (CreateObject (row_type (table_info t)) reg) as [c|]; [|done].
    cbn [deref mbind outcome_bind]. destruct (rc_init c (row_capacity (table_info t))) as [d| |]; [|done..].
    cbn [mbind outcome_bind]. unfold storage_insert. rewrite Er.
    rewrite (ApplyRowOpLog_found _ _ _ (ServerRow_new d)) by (simpl; by rewrite lookup_insert_eq).
    destruct (row_apply_batch_inc us (row_data (ServerRow_new d))); [|done..].
    cbn [mbind outcome_bind with_storage storage]. unfold with_storage.
    cbn [table_info storage row_iter tmp_row_buff tmp_row_buff_size curr_row_size].
    by rewrite insert_insert_eq.
Qed.

(** The entries the reader returns, applied with the loop's table pointer. *)
Fixpoint apply_entries (cur : Z) (es : list oplog_entry) (s : Server) : outcome Server :=
  match es with
  | [] => Ret s
  | e :: es' =>
      let cur' := if oe_new_table e then oe_table_id e else cur in
      s' ← apply_row cur' (oe_row_id e) (oe_column_ids e) (oe_updates e) s;
      apply_entries cur' es' s'
  end.

Lemma apply_oplog_loop_entries fuel n cur e rd es s :
  reader_rest fuel rd = Ret es -> (length es <= n)%nat ->
  apply_oplog_loop n cur e rd s =
    (s' ← apply_row cur (oe_row_id e) (oe_column_ids e) (oe_updates e) s; apply_entries cur es s').
Proof.
  revert n cur e rd es s. induction fuel as [|fuel IH]; intros n cur e rd es s E Hn; [done|].
  cbn [reader_rest] in E. apply bind_Ret_inv in E as ([next rd'] & Enext & E).
  destruct next as [e'|].
  - apply bind_Ret_inv in E as (es' & E' & [= <-]). destruct n as [|n]; [simpl in Hn; lia|].
    cbn [apply_oplog_loop]. destruct (apply_row cur _ _ _ s) as [s'| |]; [|done..].
    cbn [mbind outcome_bind]. rewrite Enext. cbn [mbind outcome_bind].
    rewrite (IH n _ e' rd' es' s' E' ltac:(simpl in Hn; lia)). done.
  - injection E as <-. destruct n; cbn [apply_oplog_loop];
      (destruct (apply_row cur _ _ _ s) as [s'| |]; [|done..]);
      cbn [mbind outcome_bind]; by rewrite Enext.
Qed.

Lemma apply_entries_rows cur rows es s :
  apply_entries cur ((row_entry false cur <$> rows) ++ es) s =
    (s' ← foldM (fun s r => row_oplog_effect r s) (pair cur <$> rows) s; apply_entries cur es s').
Proof.
  revert s. induction rows as [|row rows IH]; intros s; [done|].
  cbn [fmap list_fmap app apply_entries row_entry oe_new_table oe_row_id oe_column_ids oe_updates foldM].
  rewrite apply_row_effect. destruct (row_oplog_effect (cur, row) s) as [s'| |]; [|done..].
  cbn [mbind outcome_bind]. apply IH.
Qed.

(** The table pointer is right whenever a table is started. *)
Lemma apply_entries_tables cur flag tid rows ts s :
  (flag = false -> cur = tid) ->
  apply_entries cur (remaining_entries flag tid rows ts) s =
    foldM (fun s r => row_oplog_effect r s) ((pair tid <$> rows) ++ message_rows ts) s.
Proof.
  revert cur flag tid rows s. induction ts as [|t ts IH]; intros cur flag tid rows s Hcur.
  all: unfold remaining_entries, table_entries; destruct rows as [|row rows].
  - done.
  - cbn [app]. rewrite !app_nil_r. rewrite <- (app_nil_r (_ <$> rows)).
    cbn [fmap list_fmap apply_entries row_entry oe_new_table oe_table_id oe_row_id oe_column_ids oe_updates foldM].
    replace (if flag then tid else cur) with tid by (destruct flag; [done|by rewrite Hcur]).
    rewrite apply_row_effect. destruct (row_oplog_effect (tid, row) s) as [s'| |]; [|done..].
    cbn [mbind outcome_bind]. rewrite apply_entries_rows. cbn [apply_entries].
    by destruct (foldM _ _ s').
  - cbn [app fmap list_fmap]. apply (IH cur true t.1 t.2 s). done.
  - cbn [app].
    cbn [fmap list_fmap apply_entries row_entry oe_new_table oe_table_id oe_row_id oe_column_ids oe_updates foldM app].
    replace (if flag then tid else cur) with tid by (destruct flag; [done|by rewrite Hcur]).
    rewrite apply_row_effect. destruct (row_oplog_effect (tid, row) s) as [s'| |]; [|done..].
    cbn [mbind outcome_bind]. rewrite apply_entries_rows, foldM_app.
    destruct (foldM _ (pair tid <$> rows) s') as [s''| |]; [|done..]. cbn [mbind outcome_bind].
    apply (IH tid true t.1 t.2 s''). done.
Qed.

Lemma length_table_entries flag tid (rows : list (Z * list (Z * V))) :
  length (table_entries flag tid rows) = length rows.
Proof. destruct rows; simpl; by rewrite ?length_fmap. Qed.

Lemma length_message_entries ts :
  Z.of_nat (length (message_entries ts)) <= blen (message_bytes ts).
Proof.
  assert (Hall : forall ts, Z.of_nat (length (concat ((fun t => table_entries true t.1 t.2) <$> ts)))
                 <= blen (concat (table_bytes <$> ts))).
  { clear ts. induction ts as [|t ts IH]; [done|]. rewrite !fmap_cons. cbn [concat].
    rewrite length_app, blen_app, length_table_entries. unfold table_bytes at 1, table_rows_bytes.
    rewrite !blen_app. pose proof (blen_rows_ge t.2). unfold blen in *. lia. }
  unfold message_bytes. destruct ts as [|t ts]; [done|]. rewrite blen_app. cbn [message_entries].
  unfold remaining_entries. rewrite length_app, length_table_entries.
  specialize (Hall (t :: ts)). rewrite fmap_cons in Hall. cbn [concat] in Hall.
  rewrite length_app, length_table_entries in Hall. unfold blen in *. lia.
Qed.

(** A row that does not start a table is in the reader's current one. *)
Lemma first_entry_table tid rows ts e es :
  remaining_entries false tid rows ts = e :: es ->
  (if oe_new_table e then oe_table_id e else tid) = oe_table_id e.
Proof.
  unfold remaining_entries. destruct rows as [|row rows].
  - cbn [table_entries app]. induction ts as [|t ts IH]; [done|]. rewrite fmap_cons.
    cbn [concat]. destruct t.2; [done|]. cbn [table_entries app]. intros Heq.
    injection Heq as <- _. done.
  - cbn [table_entries app]. intros Heq. injection Heq as <- _. done.
Qed.

Lemma ApplyOpLog_spec ts bg version s :
  Forall table_ids_ok ts -> blen (message_bytes ts) < 2 ^ 31 -> v_size < 2 ^ 31 ->
  u32 (default 0 (bg_version_map s !! bg) + 1) = version ->
  ApplyOpLog (message_bytes ts) bg version s =
    foldM (fun s r => row_oplog_effect r s) (message_rows ts)
      (set_versions (<[bg := version]> (bg_version_map s)) s).
Proof.
  intros Hids Hb Hv Hver. unfold ApplyOpLog. rewrite bool_decide_true by done.
  cbn [CHECK mbind outcome_bind]. set (s1 := set_versions _ s).
  pose proof (reader_all_spec ts (S (length (message_entries ts))) Hids Hb Hv ltac:(lia)) as Hall.
  pose proof (length_message_entries ts) as Hlen.
  unfold reader_all in Hall. apply bind_Ret_inv in Hall as ([ne rd] & Er & Hall).
  rewrite Er. cbn [mbind outcome_bind]. destruct ts as [|t ts].
  { assert (E : load I32 0 (message_bytes []) = Ret 0) by (by apply load_head).
    unfold Reader_Restart in Er. cbn [Reader_new rd_mem] in Er. rewrite E in Er.
    cbn [mbind outcome_bind] in Er. rewrite bool_decide_true in Er by done. by injection Er as <- <-. }
  assert (Hrows : foldM (fun s r => row_oplog_effect r s) (message_rows (t :: ts)) s1 =
    apply_entries t.1 (message_entries (t :: ts)) s1).
  { symmetry. cbn [message_entries]. by apply (apply_entries_tables t.1 false t.1 t.2 ts). }
  rewrite Hrows. destruct ne.
  - cbn [reader_rest] in Hall. apply bind_Ret_inv in Hall as ([next rd'] & En & Hall).
    rewrite En. cbn [mbind outcome_bind]. destruct next as [e|].
    + apply bind_Ret_inv in Hall as (es & Hes & Heq). injection Heq as Heq.
      cbn [message_entries] in *. rewrite <- Heq in Hlen |- *.
      rewrite (apply_oplog_loop_entries _ _ _ e rd' es s1 Hes)
        by (unfold blen in Hlen; rewrite length_cons in Hlen; lia).
      cbn [apply_entries]. by rewrite (first_entry_table _ _ _ _ _ (eq_sym Heq)).
    + injection Hall as Hall. cbn [message_entries]. by rewrite <- Hall.
  - injection Hall as Hall. cbn [message_entries]. by rewrite <- Hall.
Qed.

(** *** Row by row *)

Definition row_at (table_id row_id : Z) (s : Server) : option (ServerRow R) :=
  tables s !! table_id ≫= fun t => storage t !! row_id.

(** The row updates start from: the stored one, or a new one. *)
Definition base_row (table_id row_id : Z) (s : Server) (r : ServerRow R) : Prop :=
  row_at table_id row_id s = Some r \/
  (row_at table_id row_id s = None /\ exists t c d, tables s !! table_id = Some t /\
     CreateObject (row_type (table_info t)) reg = Some c /\
     rc_init c (row_capacity (table_info t)) = Ret d /\ r = ServerRow_new d).

Definition batch_row (r : ServerRow R) (d : R) : ServerRow R :=
  mkServerRow (callback_subs r) d (num_clients_subscribed r) true.

Lemma row_oplog_effect_Ret table_id row_id us s s' :
  row_oplog_effect (table_id, (row_id, us)) s = Ret s' ->
  (exists r d, base_row table_id row_id s r /\ row_apply_batch_inc us (row_data r) = Ret d /\
     row_at table_id row_id s' = Some (batch_row r d)) /\
  (forall t' r', (t', r') <> (table_id, row_id) -> row_at t' r' s' = row_at t' r' s) /\
  table_info <$> tables s' = table_info <$> tables s /\
  s' = set_tables (tables s') s.
Proof.
  unfold row_oplog_effect. intros E. apply bind_Ret_inv in E as (t & Et & E).
  destruct (tables s !! table_id) as [t0|] eqn:Htab; [injection Et as ->|done].
  apply bind_Ret_inv in E as (r & Er & E). apply bind_Ret_inv in E as (d & Ed & [= <-]).
  split_and!; [| | |by destruct s].
  - exists r, d. split_and!; [|done|].
    + unfold base_row, row_at. rewrite Htab. cbn [mbind option_bind].
      destruct (storage t !! row_id) as [r0|] eqn:E0; [injection Er as ->; by left|].
      apply bind_Ret_inv in Er as (c & Ec & Er). apply bind_Ret_inv in Er as (d0 & Ed0 & [= <-]).
      right. split; [done|]. exists t, c, d0. split_and!; try done.
      destruct (CreateObject _ _); [by injection Ec as ->|done].
    + unfold row_at. cbn [tables set_tables]. rewrite lookup_insert_eq. cbn.
      by rewrite lookup_insert_eq.
  - intros t' r' Hne. unfold row_at. cbn [tables set_tables].
    destruct (decide (t' = table_id)) as [->|Ht]; [|by rewrite lookup_insert_ne].
    rewrite lookup_insert_eq, Htab. cbn. rewrite lookup_insert_ne; congruence.
  - cbn [tables set_tables]. rewrite fmap_insert. cbn.
    apply insert_id. by rewrite lookup_fmap, Htab.
Qed.

Definition row_key (row : Z * (Z * list (Z * V))) : Z * Z := (row.1, row.2.1).

Lemma table_info_lookup (m m' : gmap Z (ServerTable R)) i t : table_info <$> m' = table_info <$> m ->
  m' !! i = Some t -> exists t', m !! i = Some t' /\ table_info t' = table_info t.
Proof.
  intros E Hi. assert (E' : (table_info <$> m') !! i = (table_info <$> m) !! i) by (by rewrite E).
  rewrite !lookup_fmap, Hi in E'. destruct (m !! i) as [t'|]; [|done].
  injection E' as E'. by exists t'.
Qed.

Lemma row_oplogs_effect rows s s' : NoDup (row_key <$> rows) ->
  foldM (fun s r => row_oplog_effect r s) rows s = Ret s' ->
  (forall row, row ∈ rows -> exists r d, base_row row.1 row.2.1 s r /\
     row_apply_batch_inc row.2.2 (row_data r) = Ret d /\
     row_at row.1 row.2.1 s' = Some (batch_row r d)) /\
  (forall t' r', (t', r') ∉ row_key <$> rows -> row_at t' r' s' = row_at t' r' s) /\
  table_info <$> tables s' = table_info <$> tables s /\
  s' = set_tables (tables s') s.
Proof.
  revert s. induction rows as [|[tid [rid us]] rows IH]; intros s Hnd E.
  { injection E as <-. split_and!; [by intros ? ?%elem_of_nil|done|done|by destruct s]. }
  rewrite fmap_cons in Hnd. apply NoDup_cons in Hnd as [Hnin Hnd].
  cbn [foldM] in E. apply bind_Ret_inv in E as (s1 & E1 & E).
  apply row_oplog_effect_Ret in E1 as ((r & d & Hbase & Ed & Hrow) & Hoth & Hinfo & Heq).
  destruct (IH s1 Hnd E) as (Hin & Hout & Hinfo' & Heq'). split_and!.
  - intros row [->|Hrow']%elem_of_cons.
    + exists r, d. split_and!; [done..|]. cbn [fst snd]. by rewrite Hout.
    + destruct (Hin row Hrow') as (r' & d' & Hb & Ed' & Hr'). exists r', d'. split_and!; [|done..].
      assert (Hne : (row.1, row.2.1) <> (tid, rid)).
      { intros Hk. apply Hnin. apply list_elem_of_fmap. by exists row. }
      destruct Hb as [Hb|(Hb & t & c & d0 & Ht & Hc & Hd & ->)].
      * left. by rewrite <- (Hoth _ _ Hne).
      * right. split; [by rewrite <- (Hoth _ _ Hne)|].
        destruct (table_info_lookup _ _ _ _ Hinfo Ht) as (t' & Ht' & Hi).
        exists t', c, d0. by rewrite Hi.
  - intros t' r' Hn. rewrite fmap_cons in Hn. apply not_elem_of_cons in Hn as [Hne Hn].
    rewrite Hout by done. by apply Hoth.
  - by rewrite Hinfo'.
  - rewrite Heq' at 1. rewrite Heq at 1. by destruct s.
Qed.

(** What applying the rows needs: their tables, of registered row classes,
    and batches that the rows accept. *)
Definition rows_applicable (rows : list (Z * (Z * list (Z * V)))) (s : Server) : Prop :=
  forall row, row ∈ rows ->
    (exists t c d, tables s !! row.1 = Some t /\ CreateObject (row_type (table_info t)) reg = Some c /\
       rc_init c (row_capacity (table_info t)) = Ret d) /\
    (forall r, base_row row.1 row.2.1 s r -> exists d, row_apply_batch_inc row.2.2 (row_data r) = Ret d).

Lemma row_oplogs_total rows s : NoDup (row_key <$> rows) -> rows_applicable rows s ->
  exists s', foldM (fun s r => row_oplog_effect r s) rows s = Ret s'.
Proof.
  revert s. induction rows as [|[tid [rid us]] rows IH]; intros s Hnd Happ; [by eexists|].
  rewrite fmap_cons in Hnd. apply NoDup_cons in Hnd as [Hnin Hnd].
  destruct (Happ (tid, (rid, us)) ltac:(by left)) as [(t & c & d & Ht & Hc & Hd) Hbatch].
  cbn [fst snd] in *.
  assert (E : exists s1, row_oplog_effect (tid, (rid, us)) s = Ret s1).
  { unfold row_oplog_effect. rewrite Ht. cbn [deref mbind outcome_bind].
    destruct (storage t !! rid) as [r|] eqn:Er.
    - destruct (Hbatch r) as [d' E]; [left; unfold row_at; by rewrite Ht|].
      cbn [mbind outcome_bind]. rewrite E. by eexists.
    - destruct (Hbatch (ServerRow_new d)) as [d' E].
      { right. split; [unfold row_at; by rewrite Ht|]. by exists t, c, d. }
      rewrite Hc. cbn [deref mbind outcome_bind]. rewrite Hd. cbn [mbind outcome_bind].
      rewrite E. by eexists. }
  destruct E as [s1 E1]. cbn [foldM]. rewrite E1. cbn [mbind outcome_bind]. apply IH; [done|].
  apply row_oplog_effect_Ret in E1 as (_ & Hoth & Hinfo & _).
  intros row Hrow. destruct (Happ row ltac:(by right)) as [(t1 & c1 & d1 & Ht1 & Hc1 & Hd1) Hb1].
  assert (Hne : (row.1, row.2.1) <> (tid, rid)).
  { intros Hk. apply Hnin. apply list_elem_of_fmap. by exists row. }
  split.
  - destruct (table_info_lookup _ _ _ _ (eq_sym Hinfo) Ht1) as (t2 & Ht2 & Hi2).
    exists t2, c1, d1. by rewrite Hi2.
  - intros r Hr. apply Hb1. destruct Hr as [Hr|(Hr & t2 & c2 & d2 & Ht2 & Hc2 & Hd2 & ->)].
    + left. by rewrite <- (Hoth _ _ Hne).
    + right. split; [by rewrite <- (Hoth _ _ Hne)|].
      destruct (table_info_lookup _ _ _ _ Hinfo Ht2) as (t3 & Ht3 & Hi3).
      exists t3, c2, d2. by rewrite Hi3.
Qed.
End SERVER.
Arguments Server : clear implicits.

(** C11: when the server applies an oplog message with the sender's next
    version, every row in it (each once) takes its updates as one batch, from
    its stored contents or from a newly created row, and is marked dirty; no
    other row, no clock and no pending request changes.  A message out of
    version order aborts. *)
Theorem server_applies_each_row_once {R V} `{!Num V} `{!AbstractRow R V} `{!NumOk V}
    (reg : ClassRegistry (RowClass R)) (ts : list (Z * list (Z * list (Z * V)))) bg version
    (s : Server R) :
  Forall table_ids_ok ts -> blen (message_bytes ts) < 2 ^ 31 -> v_size < 2 ^ 31 ->
  NoDup (row_key <$> message_rows ts) ->
  (u32 (default 0 (bg_version_map s !! bg) + 1) <> version ->
     ApplyOpLog reg (message_bytes ts) bg version s = CheckFail) /\
  (u32 (default 0 (bg_version_map s !! bg) + 1) = version -> rows_applicable reg (message_rows ts) s ->
     exists s', ApplyOpLog reg (message_bytes ts) bg version s = Ret s') /\
  (forall s', ApplyOpLog reg (message_bytes ts) bg version s = Ret s' ->
     (forall t row_id us, (t, (row_id, us)) ∈ message_rows ts -> exists r d,
        base_row reg t row_id s r /\ row_apply_batch_inc us (row_data r) = Ret d /\
        row_at t row_id s' = Some (batch_row r d)) /\
     (forall t row_id, (t, row_id) ∉ row_key <$> message_rows ts ->
        row_at t row_id s' = row_at t row_id s) /\
     s' = set_versions (<[bg := version]> (bg_version_map s)) (set_tables (tables s') s)).
Proof.
  intros Hids Hb Hv Hnd. split_and!.
  - intros Hver. unfold ApplyOpLog. by rewrite bool_decide_false.
  - intros Hver Happ. rewrite ApplyOpLog_spec by done. by apply row_oplogs_total.
  - intros s' E. destruct (decide (u32 (default 0 (bg_version_map s !! bg) + 1) = version)) as [Hver|Hver].
    + rewrite ApplyOpLog_spec in E by done.
      destruct (row_oplogs_effect reg _ _ s' Hnd E) as (Hin & Hout & _ & Heq). split_and!.
      * intros t row_id us Hin'. exact (Hin _ Hin').
      * intros t row_id Hn. by rewrite Hout.
      * rewrite Heq at 1. by destruct s.
    + unfold ApplyOpLog in E. by rewrite bool_decide_false in E.
Qed.

(** *** Witness: a row of three columns, two of them updated *)
Definition demo_server : Server (DenseRow int32) :=
  set_versions {[100 := u32 (-1)]} (set_tables {[4 := with_storage
    {[8 := ServerRow_new (mkDenseRow [to_int32 4; to_int32 5; to_int32 6] 3)]}
    (ServerTable_new (mkTableInfo 1 0 3))]} Server_new).
Definition demo_reg : ClassRegistry (RowClass (DenseRow int32)) :=
  AddCreator 0 (mkRowClass row_init row_deserialize) ClassRegistry_new.

Lemma demo_applicable :
  rows_applicable demo_reg (message_rows [(4, [(8, [(0, to_int32 1); (2, to_int32 (-6))])])]) demo_server.
Proof.
  intros row ->%list_elem_of_singleton. cbn [fst snd]. split.
  - eexists _, _, _. split_and!; [reflexivity|reflexivity|reflexivity].
  - intros r [Hr|[Hr _]]; [|done]. injection Hr as <-. by eexists.
Qed.

Lemma server_applies_each_row_once_witness :
  exists s', ApplyOpLog demo_reg (message_bytes [(4, [(8, [(0, to_int32 1); (2, to_int32 (-6))])])]) 100 0
               demo_server = Ret s' /\
    row_at 4 9 s' = None.
Proof.
  destruct (server_applies_each_row_once demo_reg
    [(4, [(8, [(0, to_int32 1); (2, to_int32 (-6))])])] 100 0 demo_server) as (_ & Htot & Hall).
  - repeat constructor; simpl; int_lia.
  - by vm_compute.
  - done.
  - apply (bool_decide_unpack _). by vm_compute.
  - destruct (Htot ltac:(by vm_compute) demo_applicable) as [s' E]. exists s'. split; [exact E|].
    destruct (Hall s' E) as (_ & Hout & _). rewrite Hout; [done|].
    apply (bool_decide_unpack _). by vm_compute.
Defined.
