(* ===== verification/ServerPush.v ===== *)
(** * Pushing rows to the clients

    [Server::CreateSendServerPushRowMsgs] ([petuum_ps/server/server.cpp]):
    under the push consistency model the server sends, after every clock,
    the rows that changed to the background threads of the clients that
    subscribed to them. *)
From S2P Require Import Prelude Bytes Num Context RowWire ServerRow Server.
Open Scope Z_scope.

(** A call of [PushMsgSend]: the message's data, its [avai_size] and whether
    it is the thread's last one of the clock. *)
Record push_send := mkPushSend { ps_bg_id : Z; ps_data : list Z; ps_avai_size : Z; ps_last : bool }.

(** [buffs] with the memory of the messages in [msg_map], the messages'
    [avai_size], and what has been sent. *)
Record push_state := mkPush {
  pu_buffs : Buffs; pu_avai : gmap Z Z; pu_sends : list push_send
}.

(** The loops over the clients and their background threads. *)
Definition all_bg_ids (g : GlobalContext) : list Z :=
  concat ((fun client => (fun i => i32 (get_head_bg_id client + i)) <$> seqZ 0 (num_bg_threads g))
            <$> seqZ 0 (num_clients g)).

Definition set_buff (bg_id : Z) (b : RecordBuff) (st : push_state) : push_state :=
  mkPush (<[bg_id := b]> (pu_buffs st)) (pu_avai st) (pu_sends st).

(** [buffs[bg_id]] default-constructs a missing buffer, which aborts. *)
Definition get_buff (bg_id : Z) (st : push_state) : outcome RecordBuff :=
  checked (pu_buffs st !! bg_id).

Definition PushMsgSend (bg_id : Z) (last : bool) (st : push_state) : outcome push_state :=
  b ← get_buff bg_id st;
  avai ← deref (pu_avai st !! bg_id);
  Ret (mkPush (pu_buffs st) (pu_avai st) (pu_sends st ++ [mkPushSend bg_id (rb_mem b) avai last])).

(** Send, clear the memory, start over. *)
Definition send_and_reset (bg_id : Z) (st : push_state) : outcome push_state :=
  st1 ← PushMsgSend bg_id false st;
  b ← get_buff bg_id st1;
  Ret (set_buff bg_id (RecordBuff_ResetOffset (RecordBuff_clear b)) st1).

(** [GetMemPtrInt32] on the thread's buffer, and a write through it. *)
Definition buff_ptr (bg_id : Z) (st : push_state) : outcome (option Z * push_state) :=
  b ← get_buff bg_id st;
  let '(ptr, b') := RecordBuff_GetMemPtrInt32 b in Ret (ptr, set_buff bg_id b' st).

Definition buff_write (bg_id : Z) (ptr : option Z) (v : Z) (st : push_state) : outcome push_state :=
  b ← get_buff bg_id st; b' ← RecordBuff_store ptr v b; Ret (set_buff bg_id b' st).

Section PUSH.
Context {R V : Type} `{!Num V} `{!AbstractRow R V} `{!HashOrder}.
Context (g : GlobalContext) (alloc : Z -> list Z).

(** A message and a buffer for every background thread. *)
Definition create_push_msgs (size : Z) : push_state :=
  foldl (fun st bg_id =>
           mkPush (match pu_buffs st !! bg_id with
                   | Some _ => pu_buffs st
                   | None => <[bg_id := RecordBuff_new (alloc size) size]> (pu_buffs st)
                   end)
             (<[bg_id := size]> (pu_avai st)) (pu_sends st))
    (mkPush ∅ ∅ []) (all_bg_ids g).

Definition set_table_id (table_id : Z) (st : push_state) (bg_id : Z) : outcome push_state :=
  '(ptr, st1) ← buff_ptr bg_id st;
  match ptr with
  | Some _ => buff_write bg_id ptr table_id st1
  | None =>
      st2 ← send_and_reset bg_id st1;
      '(ptr', st3) ← buff_ptr bg_id st2;
      buff_write bg_id ptr' table_id st3
  end.

(** Making room after a failure: end mark if it fits, send, table id. *)
Definition flush_buff (table_id bg_id : Z) (st : push_state) : outcome push_state :=
  '(ptr, st1) ← buff_ptr bg_id st;
  st2 ← (match ptr with
         | Some _ => buff_write bg_id ptr get_serialized_table_end st1
         | None => Ret st1
         end : outcome push_state);
  st3 ← send_and_reset bg_id st2;
  '(ptr', st4) ← buff_ptr bg_id st3;
  buff_write bg_id ptr' table_id st4.

(** The first attempt and the [while (!pack_suc)] loop. *)
Fixpoint pack_table (fuel : nat) (table_id client_id_st : Z) (resume : bool) (t : ServerTable R)
    (st : push_state) : outcome (ServerTable R * push_state) :=
  '(failed, t', buffs') ← AppendTableToBuffs alloc g client_id_st resume t (pu_buffs st);
  let st1 := mkPush buffs' (pu_avai st) (pu_sends st) in
  match failed with
  | None => Ret (t', st1)
  | Some f =>
      st2 ← flush_buff table_id (failed_bg_id f) st1;
      match fuel with
      | O => Undef
      | S fuel' => pack_table fuel' table_id (failed_client_id f) true t' st2
      end
  end.

(** Every row fails at most once for every client. *)
Definition pack_fuel (t : ServerTable R) : nat := size (storage t) * Z.to_nat (num_clients g).

Definition set_separator (st : push_state) (bg_id : Z) : outcome push_state :=
  '(ptr, st1) ← buff_ptr bg_id st;
  match ptr with
  | None => send_and_reset bg_id st1
  | Some _ => buff_write bg_id ptr get_serialized_table_separator st1
  end.

(** One table: its id to every buffer, then its rows. *)
Definition push_table (table_id : Z) (t : ServerTable R) (st : push_state)
    : outcome (ServerTable R * push_state) :=
  st1 ← foldM (set_table_id table_id) (all_bg_ids g) st;
  pack_table (pack_fuel t) table_id 0 false (InitAppendTableToBuffs alloc t) st1.

(** The loop over the tables, which breaks after [num_tables_left] of them. *)
Fixpoint push_tables (ts : list (Z * ServerTable R)) (num_tables_left : Z)
    (tabs : gmap Z (ServerTable R)) (st : push_state)
    : outcome (gmap Z (ServerTable R) * push_state) :=
  match ts with
  | [] => Ret (tabs, st)
  | (table_id, t) :: ts' =>
      '(t', st1) ← push_table table_id t st;
      let tabs' := <[table_id := t']> tabs in
      let left := num_tables_left - 1 in
      if bool_decide (0 < left) then
        st2 ← foldM set_separator (all_bg_ids g) st1;
        push_tables ts' left tabs' st2
      else Ret (tabs', st1)
  end.

Definition send_last (st : push_state) (bg_id : Z) : outcome push_state :=
  '(ptr, st1) ← buff_ptr bg_id st;
  match ptr with
  | None => PushMsgSend bg_id true st1
  | Some _ =>
      st2 ← buff_write bg_id ptr get_serialized_table_end st1;
      b ← get_buff bg_id st2;
      PushMsgSend bg_id true
        (mkPush (pu_buffs st2) (<[bg_id := RecordBuff_GetMemUsedSize b]> (pu_avai st2)) (pu_sends st2))
  end.

(** The sends, in order, and the server with its rows no longer dirty. *)
Definition CreateSendServerPushRowMsgs (s : Server R) : outcome (list push_send * Server R) :=
  '(tabs, st) ← push_tables (hash_order (tables s)) (num_tables g) (tables s)
                  (create_push_msgs (push_row_msg_data_size s));
  st' ← foldM send_last (all_bg_ids g) st;
  Ret (pu_sends st', set_tables tabs s).
End PUSH.
