(* ===== verification/ServerThreads.v ===== *)
(** * Server threads

    The message handlers of [petuum_ps/server/server_threads.cpp]: a server
    thread waits for all background threads to connect, then handles one
    message after the other.  The messages that arrive are events, the
    messages that are sent are outputs; the bytes of both are in
    [Messages.v]. *)
From S2P Require Import Prelude Bytes Num VectorClock Context OpLogWire RowWire ServerRow Server ServerPush.
Open Scope Z_scope.

(** Messages sent by a server thread, with their receiver.  A push message
    carries a clock if it is the last of a clock ([get_is_clock]). *)
Inductive server_out :=
  | OutClientStart (bg_id : Z)
  | OutShutDownAck (bg_id : Z)
  | OutCreateTableReply (receiver table_id : Z)
  | OutRowReply (bg_id table_id row_id clock version : Z) (data : list Z)
  | OutPushRow (bg_id version : Z) (clock : option Z) (data : list Z) (avai_size : Z).

(** Messages received by a server thread, with their sender. *)
Inductive server_event :=
  | EvShutDown (sender : Z)
  | EvCreateTable (sender table_id : Z) (info : TableInfo)
  | EvRowRequest (sender table_id row_id clock : Z)
  | EvOpLog (sender client : Z) (is_clock : bool) (version : Z) (data : list Z).

(** Messages received before [Init]. *)
Inductive connect_msg := ClientConnect (client : Z) | ServerConnect | OtherMsg.

Definition GetConnection (msg : connect_msg) : outcome (option Z) :=
  match msg with
  | ClientConnect client => Ret (Some client)
  | ServerConnect => Ret None
  | OtherMsg => CheckFail
  end.

Section THREADS.
Context {R V : Type} `{!Num V} `{!AbstractRow R V} `{!HashOrder} `{!LevelDB}.
Context (g : GlobalContext) (reg : ClassRegistry (RowClass R)) (alloc : Z -> list Z).

Record ServerContext := mkServerContext {
  bg_thread_ids : list Z;
  server_obj : Server R;
  num_shutdown_bgs : Z
}.

Definition with_server (s : Server R) (c : ServerContext) : ServerContext :=
  mkServerContext (bg_thread_ids c) s (num_shutdown_bgs c).

Definition SetUpServerContext : ServerContext :=
  mkServerContext (replicate (Z.to_nat (num_total_bg_threads g)) 0) Server_new 0.

(** [bg_thread_ids_[i]] for [i < num_total_bg_threads]. *)
Definition SendToAllBgThreads (msg : Z -> server_out) (c : ServerContext) : outcome (list server_out) :=
  foldM (fun outs i => bg_id ← vec_at (bg_thread_ids c) i; Ret (outs ++ [msg bg_id]))
    (seqZ 0 (num_total_bg_threads g)) [].

(** [conns] are the messages received, with their senders. *)
Fixpoint accept_connections (num_bgs : Z) (conns : list (connect_msg * Z)) (c : ServerContext)
    : outcome ServerContext :=
  match conns with
  | [] => Ret c
  | (msg, bg_id) :: conns' =>
      client ← GetConnection msg;
      client_id ← checked client;
      ids ← vec_set (bg_thread_ids c) num_bgs bg_id;
      accept_connections (num_bgs + 1) conns'
        (mkServerContext ids (AddClientBgPair client_id bg_id (server_obj c)) (num_shutdown_bgs c))
  end.

Definition InitServer (id : Z) (conns : list (connect_msg * Z)) (c : ServerContext)
    : outcome (ServerContext * list server_out) :=
  c1 ← accept_connections 0 (take (Z.to_nat (num_total_bg_threads g)) conns) c;
  let c2 := with_server (Server_Init id (server_obj c1)) c1 in
  outs ← SendToAllBgThreads OutClientStart c2;
  Ret (c2, outs).

(** [ServerThreads::Init] chooses what subscribing and pushing do. *)
Definition RowSubscribe (table_id row_id client : Z) (r : ServerRow R) (s : Server R)
    : outcome (ServerRow R * Server R) :=
  match consistency_model g with
  | SSP => Ret (r, s)
  | SSPPush =>
      r' ← ServerRow_Subscribe client r;
      t ← deref (tables s !! table_id);
      Ret (r', set_tables (<[table_id := with_storage (<[row_id := r']> (storage t)) t]> (tables s)) s)
  | _ => CheckFail
  end.

(** The reply has room for [SerializedSize] bytes. *)
Definition ReplyRowRequest (bg_id : Z) (r : ServerRow R) (table_id row_id server_clock version : Z)
    : outcome server_out :=
  let row_size := ServerRow_SerializedSize r in
  let bytes := ServerRow_Serialize r in
  if bool_decide (blen bytes <= row_size)
  then Ret (OutRowReply bg_id table_id row_id server_clock version bytes)
  else Undef.

(** What both handlers do for a request that is fresh enough. *)
Definition answer_request (bg_id table_id row_id : Z) (s : Server R) : outcome (Server R * server_out) :=
  let '(version, s1) := GetBgVersion bg_id s in
  '(r, s2) ← FindCreateRow reg table_id row_id s1;
  '(r', s3) ← RowSubscribe table_id row_id (thread_id_to_client_id bg_id) r s2;
  out ← ReplyRowRequest bg_id r' table_id row_id (GetMinClock s3) (u32 version);
  Ret (s3, out).

Definition HandleRowRequest (sender table_id row_id clock : Z) (s : Server R)
    : outcome (Server R * list server_out) :=
  let server_clock := GetMinClock s in
  if bool_decide (server_clock < clock)
  then Ret (AddRowRequest sender table_id row_id clock s, [])
  else '(s', out) ← answer_request sender table_id row_id s; Ret (s', [out]).

Definition SendServerPushRowMsg (p : push_send) (s : Server R) : server_out * Server R :=
  let '(version, s') := GetBgVersion (ps_bg_id p) s in
  (OutPushRow (ps_bg_id p) (u32 version) (if ps_last p then Some (GetMinClock s) else None)
     (ps_data p) (ps_avai_size p), s').

Definition push_out_step (st : Server R * list server_out) (p : push_send)
    : Server R * list server_out :=
  let '(o, s') := SendServerPushRowMsg p (fst st) in (s', snd st ++ [o]).

Definition ServerPushRow (s : Server R) : outcome (Server R * list server_out) :=
  match consistency_model g with
  | SSP => Ret (s, [])
  | SSPPush =>
      '(sends, s') ← CreateSendServerPushRowMsgs g alloc s;
      Ret (foldl push_out_step (s', []) sends)
  | _ => CheckFail
  end.

Definition reply_step (st : Server R * list server_out) (rq : ServerRowRequest)
    : outcome (Server R * list server_out) :=
  '(s', out) ← answer_request (rq_bg_id rq) (rq_table_id rq) (rq_row_id rq) (fst st);
  Ret (s', snd st ++ [out]).

Definition HandleOpLogMsg (sender client : Z) (is_clock : bool) (version : Z) (data : list Z)
    (s : Server R) (db : ldb) : outcome (Server R * ldb * list server_out) :=
  s1 ← ApplyOpLog reg data sender version s;
  if is_clock then
    '(clock_changed, s2, db') ← Clock g alloc client sender s1 db;
    if (clock_changed : bool) then
      let '(requests, s3) := GetFulfilledRowRequests s2 in
      '(s4, outs) ← foldM reply_step requests (s3, []);
      '(s5, pushed) ← ServerPushRow s4;
      Ret (s5, db', outs ++ pushed)
    else Ret (s2, db', [])
  else Ret (s1, db, []).

Definition HandleShutDownMsg (c : ServerContext) : outcome (bool * ServerContext * list server_out) :=
  let n := i32 (num_shutdown_bgs c + 1) in
  let c' := mkServerContext (bg_thread_ids c) (server_obj c) n in
  if bool_decide (n = num_total_bg_threads g)
  then outs ← SendToAllBgThreads OutShutDownAck c'; Ret (true, c', outs)
  else Ret (false, c', []).

Definition HandleCreateTable (sender table_id : Z) (info : TableInfo) (db : ldb) (s : Server R)
    : outcome (Server R * list server_out) :=
  s' ← CreateTable g reg table_id info db s;
  Ret (s', [OutCreateTableReply sender table_id]).

(** One turn of the loop of [ServerThreadMain]; [true] ends the thread. *)
Definition server_step (c : ServerContext) (db : ldb) (ev : server_event)
    : outcome (bool * ServerContext * ldb * list server_out) :=
  match ev with
  | EvShutDown _ =>
      '(fin, c', outs) ← HandleShutDownMsg c; Ret (fin, c', db, outs)
  | EvCreateTable sender table_id info =>
      '(s, outs) ← HandleCreateTable sender table_id info db (server_obj c);
      Ret (false, with_server s c, db, outs)
  | EvRowRequest sender table_id row_id clock =>
      '(s, outs) ← HandleRowRequest sender table_id row_id clock (server_obj c);
      Ret (false, with_server s c, db, outs)
  | EvOpLog sender client is_clock version data =>
      '(s, db', outs) ← HandleOpLogMsg sender client is_clock version data (server_obj c) db;
      Ret (false, with_server s c, db', outs)
  end.

(** The loop over the messages that arrive, until the thread ends. *)
Fixpoint server_run (c : ServerContext) (db : ldb) (evs : list server_event)
    : outcome (ServerContext * ldb * list server_out) :=
  match evs with
  | [] => Ret (c, db, [])
  | ev :: evs' =>
      '(fin, c', db', outs) ← server_step c db ev;
      if (fin : bool) then Ret (c', db', outs)
      else
        '(c'', db'', outs') ← server_run c' db' evs';
        Ret (c'', db'', outs ++ outs')
  end.
End THREADS.
Arguments ServerContext : clear implicits.
