(* ===== verification/ServerClocks.v ===== *)
(** * Clocks and pending requests of the server

    What [Server]'s two levels of vector clocks count, and what happens to
    the requests that wait for a clock ([petuum_ps/server/server.cpp]). *)
From S2P Require Import Prelude Bytes Num VectorClock Context OpLogWire RowWire ServerRow Server.
Open Scope Z_scope.

(** ** The clocks

    [conns] lists every background thread with its client; [h] counts the
    clock messages of each. *)
Definition global_min (conns : list (Z * Z)) (h : Z -> Z) (m : Z) : Prop :=
  (exists c b, (c, b) ∈ conns /\ h b = m) /\ (forall c b, (c, b) ∈ conns -> m <= h b).

Definition tick_at (b : Z) (h : Z -> Z) : Z -> Z :=
  fun b' => if bool_decide (b' = b) then h b' + 1 else h b'.

Lemma tick_at_same b h : tick_at b h b = h b + 1.
Proof. unfold tick_at. by rewrite bool_decide_true. Qed.
Lemma tick_at_other b h b' : b' <> b -> tick_at b h b' = h b'.
Proof. intros. unfold tick_at. by rewrite bool_decide_false. Qed.

Section CLOCKS.
Context {R V : Type} `{!Num V} `{!AbstractRow R V} `{!HashOrder} `{!LevelDB}.
Context (conns : list (Z * Z)).

(** The vector clock of client [c]. *)
Record client_clock_ok (h : Z -> Z) (c : Z) (vc : VectorClock) : Prop := {
  cc_min : vc_ok vc;
  cc_in : forall b, (c, b) ∈ conns -> vec_clock vc !! b = Some (h b);
  cc_out : forall b x, vec_clock vc !! b = Some x -> (c, b) ∈ conns
}.

Record clocks_inv (h : Z -> Z) (s : Server R) : Prop := {
  ci_min : vc_ok (client_clocks s);
  ci_clients : forall c x, vec_clock (client_clocks s) !! c = Some x -> c ∈ conns.*1;
  ci_client : forall c, c ∈ conns.*1 -> exists vc, client_vector_clock_map s !! c = Some vc /\
    client_clock_ok h c vc /\ vec_clock (client_clocks s) !! c = Some (min_clock vc)
}.

(** The server's clock is the minimum over all background threads. *)
Lemma clocks_inv_min h s : clocks_inv h s -> global_min conns h (GetMinClock s).
Proof.
  intros [[[c Hc] Hle] Hcl Hci]. unfold GetMinClock, get_min_clock. split.
  - destruct (Hci c (Hcl _ _ Hc)) as (vc & _ & Hok & E). rewrite Hc in E. injection E as E.
    destruct (cc_min _ _ _ Hok) as [[b Hb] _]. exists c, b.
    pose proof (cc_out _ _ _ Hok _ _ Hb) as Hin. split; [done|].
    rewrite (cc_in _ _ _ Hok _ Hin) in Hb. injection Hb as Hb. congruence.
  - intros c' b Hin. assert (Hc' : c' ∈ conns.*1) by (apply list_elem_of_fmap; by exists (c', b)).
    destruct (Hci c' Hc') as (vc & _ & Hok & E).
    pose proof (Hle _ _ E). pose proof (cc_in _ _ _ Hok _ Hin) as Hb.
    pose proof (proj2 (cc_min _ _ _ Hok) _ _ Hb). lia.
Qed.

Lemma client_clock_tick h c b vc m : NoDup conns.*2 -> (c, b) ∈ conns -> client_clock_ok h c vc ->
  is_min (<[b := h b + 1]> (vec_clock vc)) m ->
  client_clock_ok (tick_at b h) c (mkVectorClock (<[b := h b + 1]> (vec_clock vc)) m).
Proof.
  intros Hnd Hin [Hmin Hi Ho] Hm. constructor; [exact Hm| |].
  - intros b' Hb'. cbn [vec_clock]. destruct (decide (b' = b)) as [->|Hne].
    + by rewrite lookup_insert_eq, tick_at_same.
    + rewrite lookup_insert_ne, tick_at_other by done. by apply Hi.
  - intros b' x. cbn [vec_clock]. intros [[<- _]|[_ Hb]]%lookup_insert_Some; [done|by eapply Ho].
Qed.

Lemma other_client_tick h c c' b vc : NoDup conns.*2 -> (c, b) ∈ conns -> c' <> c ->
  client_clock_ok h c' vc -> client_clock_ok (tick_at b h) c' vc.
Proof.
  intros Hnd Hin Hne [Hmin Hi Ho]. constructor; [done| |done].
  intros b' Hb'. rewrite tick_at_other; [by apply Hi|]. intros ->. apply Hne.
  apply list_elem_of_lookup_1 in Hin as [i Hi1]. apply list_elem_of_lookup_1 in Hb' as [j Hj].
  assert (i = j) as ->.
  { eapply (NoDup_lookup _ i j b Hnd); by rewrite list_lookup_fmap, ?Hi1, ?Hj. }
  congruence.
Qed.

Context (g : GlobalContext) (alloc : Z -> list Z).

(** [Clock]: the clock of the thread counts, the return value tells whether
    the server's clock moved. *)
Lemma Clock_spec h s c b db changed s' db' : NoDup conns.*2 -> (c, b) ∈ conns ->
  clocks_inv h s -> (forall b', 0 <= h b') -> in_i32 (h b + 1) ->
  Clock g alloc c b s db = Ret (changed, s', db') ->
  clocks_inv (tick_at b h) s' /\
  GetMinClock s' = GetMinClock s + (if (changed : bool) then 1 else 0) /\
  s' = set_clocks (client_clocks s') (client_vector_clock_map s') s.
Proof.
  intros Hnd Hin Hinv Hpos Hb E. pose proof (clocks_inv_min h s Hinv) as [_ Hgm].
  pose proof Hinv as [Hmin Hcl Hci].
  assert (Hc : c ∈ conns.*1) by (apply list_elem_of_fmap; by exists (c, b)).
  destruct (Hci c Hc) as (vc & Evc & Hok & Ecc).
  pose proof (cc_in _ _ _ Hok _ Hin) as Hvb.
  assert (Hhb : in_i32 (h b)) by (specialize (Hpos b); int_lia).
  unfold Clock in E. rewrite Evc in E. cbn [default from_option id] in E.
  destruct (Tick_cases b vc (h b) (cc_min _ _ _ Hok) Hvb Hhb Hb) as [(Hsole & Hmn & Et & Hm)|(Et & Hm)];
    rewrite Et in E.
  - (* the client's clock moves *)
    rewrite bool_decide_false in E by (specialize (Hpos b); lia).
    cbn [client_clocks set_clocks client_vector_clock_map] in E.
    set (vc' := mkVectorClock (<[b := h b + 1]> (vec_clock vc)) (h b + 1)) in *.
    pose proof (client_clock_tick h c b vc (h b + 1) Hnd Hin Hok Hm) as Hok'. fold vc' in Hok'.
    assert (Hcc : vec_clock (client_clocks s) !! c = Some (h b)) by congruence.
    assert (Hinv' : forall mn, is_min (<[c := h b + 1]> (vec_clock (client_clocks s))) mn ->
      forall s', client_clocks s' = mkVectorClock (<[c := h b + 1]> (vec_clock (client_clocks s))) mn ->
      client_vector_clock_map s' = <[c := vc']> (client_vector_clock_map s) ->
      clocks_inv (tick_at b h) s').
    { intros mn Hmn' s1 E1 E2. constructor; rewrite E1; cbn [vec_clock min_clock].
      - exact Hmn'.
      - intros c' x [[<- _]|[_ Hx]]%lookup_insert_Some; [done|by eapply Hcl].
      - intros c' Hc'. destruct (decide (c' = c)) as [->|Hne].
        + exists vc'. rewrite E2, !lookup_insert_eq. by split_and!.
        + destruct (Hci c' Hc') as (vc1 & Ev1 & Hok1 & Ec1). exists vc1.
          rewrite E2, !lookup_insert_ne by done. split_and!; [done| |done].
          by eapply other_client_tick. }
    destruct (Tick_cases c (client_clocks s) (h b) Hmin Hcc Hhb Hb)
      as [(_ & Hmn2 & Et2 & Hm2)|(Et2 & Hm2)]; rewrite Et2 in E.
    + rewrite bool_decide_false in E by (specialize (Hpos b); lia).
      assert (Hres : forall ch s1 db1, Ret (ch, s1, db1) = Ret (changed, s', db') ->
                ch = true -> s1 = set_clocks (mkVectorClock (<[c:=h b + 1]> (vec_clock (client_clocks s))) (h b + 1))
                       (<[c:=vc']> (client_vector_clock_map s)) s ->
                clocks_inv (tick_at b h) s' /\ GetMinClock s' = GetMinClock s + (if changed then 1 else 0) /\
                s' = set_clocks (client_clocks s') (client_vector_clock_map s') s).
      { intros ch s1 db1 Heq Hch Hs1. injection Heq as <- <- _. subst ch s1. split_and!.
        - by eapply Hinv'.
        - unfold GetMinClock, get_min_clock. simpl. lia.
        - done. }
      match type of E with (if ?x then _ else _) = _ => destruct x end; [exact (Hres _ _ _ E eq_refl eq_refl)|].
      apply bind_Ret_inv in E as (db1 & _ & E). exact (Hres _ _ _ E eq_refl eq_refl).
    + rewrite bool_decide_true in E by done. injection E as <- <- _. split_and!.
      * by eapply Hinv'.
      * unfold GetMinClock, get_min_clock. simpl. lia.
      * done.
  - rewrite bool_decide_true in E by done. injection E as <- <- _.
    pose proof (client_clock_tick h c b vc (min_clock vc) Hnd Hin Hok Hm) as Hok'.
    set (vc' := mkVectorClock _ _) in *. split_and!.
    + constructor; cbn [client_clocks set_clocks client_vector_clock_map]; [done|done|].
      intros c' Hc'. destruct (decide (c' = c)) as [->|Hne].
      * exists vc'. rewrite lookup_insert_eq. by split_and!.
      * destruct (Hci c' Hc') as (vc1 & Ev1 & Hok1 & Ec1). exists vc1.
        rewrite !lookup_insert_ne by done. split_and!; [done| |done].
        by eapply other_client_tick.
    + unfold GetMinClock, get_min_clock. simpl. lia.
    + done.
Qed.
End CLOCKS.

(** ** Pending requests *)

(** The contents of a map of collections. *)
Definition map_flat {A B} (f : A -> list B) (m : gmap Z A) : list B :=
  concat ((fun kv => f kv.2) <$> map_to_list m).

#[export] Instance concat_perm {A} : Proper ((≡ₚ) ==> (≡ₚ)) (@concat A).
Proof.
  intros l1 l2 Hp. induction Hp; simpl; [done| | |by etrans].
  - by rewrite IHHp.
  - rewrite !app_assoc. by rewrite (Permutation_app_comm y x).
Qed.

Lemma map_flat_lookup {A B} (f : A -> list B) k b m : m !! k = Some b ->
  map_flat f m ≡ₚ f b ++ map_flat f (delete k m).
Proof. intros E. unfold map_flat. by rewrite <- (map_to_list_delete m k b E). Qed.

Lemma map_flat_insert {A B} (f : A -> list B) k b m :
  map_flat f (<[k := b]> m) ≡ₚ f b ++ map_flat f (delete k m).
Proof.
  rewrite (map_flat_lookup f k b) by apply lookup_insert_eq. by rewrite delete_insert_eq.
Qed.

Lemma map_flat_default {A B} (f : A -> list B) k m d : f d = [] ->
  map_flat f m ≡ₚ f (default d (m !! k)) ++ map_flat f (delete k m).
Proof.
  intros Hd. destruct (m !! k) as [b|] eqn:E; [by apply map_flat_lookup|].
  cbn [default from_option id]. by rewrite Hd, delete_id.
Qed.

Lemma elem_of_map_flat {A B} (f : A -> list B) (m : gmap Z A) x :
  x ∈ map_flat f m <-> exists k a, m !! k = Some a /\ x ∈ f a.
Proof.
  unfold map_flat. rewrite list_elem_of_In, in_concat. split.
  - intros (l & Hl & Hx). apply list_elem_of_In in Hl, Hx.
    apply list_elem_of_fmap in Hl as ([k a] & -> & Hka). exists k, a.
    split; [by apply elem_of_map_to_list|done].
  - intros (k & a & Hk & Hx). exists (f a). rewrite <- !list_elem_of_In. split; [|done].
    apply list_elem_of_fmap. exists (k, a). split; [done|by apply elem_of_map_to_list].
Qed.

Section REQUESTS.
Context {R V : Type} `{!Num V} `{!AbstractRow R V} `{!HashOrder} `{!LevelDB}.

Definition pending (s : Server R) : list ServerRowRequest :=
  map_flat (map_flat id) (clock_bg_row_requests s).

(** Requests wait under their clock, which has not come. *)
Definition pending_ok (s : Server R) : Prop :=
  forall k m, clock_bg_row_requests s !! k = Some m ->
    GetMinClock s < k /\ (forall rq, rq ∈ map_flat id m -> rq_clock rq = k).

Lemma pending_later s rq : pending_ok s -> rq ∈ pending s -> GetMinClock s < rq_clock rq.
Proof.
  intros Hok (k & m & Hk & Hrq)%elem_of_map_flat. destruct (Hok k m Hk) as [Hlt Heq].
  by rewrite (Heq rq Hrq).
Qed.

Lemma AddRowRequest_pending bg t r k s :
  pending (AddRowRequest bg t r k s) ≡ₚ pending s ++ [mkServerRowRequest bg t r k].
Proof.
  unfold pending, AddRowRequest. cbn [clock_bg_row_requests set_requests].
  set (q := clock_bg_row_requests s). set (rq := mkServerRowRequest _ _ _ _).
  rewrite map_flat_insert, map_flat_insert.
  rewrite (map_flat_default (map_flat id) k q ∅) by done.
  rewrite (map_flat_default id bg (default ∅ (q !! k)) []) by done.
  unfold id. rewrite <- !app_assoc. apply Permutation_app_head.
  rewrite (app_assoc _ _ [rq]). apply Permutation_app_comm.
Qed.

Lemma AddRowRequest_keeps_pending_ok bg t r k s : pending_ok s -> GetMinClock s < k ->
  pending_ok (AddRowRequest bg t r k s).
Proof.
  intros Hok Hk k' m. unfold AddRowRequest. cbn [clock_bg_row_requests set_requests].
  intros [[<- <-]|[Hne Hm]]%lookup_insert_Some; [|by apply Hok]. split; [exact Hk|].
  intros rq. rewrite (map_flat_insert id). rewrite elem_of_app. intros [Hin|Hin].
  - unfold id in Hin. apply elem_of_app in Hin as [Hin|Hin].
    + destruct (clock_bg_row_requests s !! k) as [m0|] eqn:E;
        cbn [default from_option] in Hin; [|by rewrite lookup_empty in Hin; apply elem_of_nil in Hin].
      destruct (Hok k m0 E) as [_ Hall]. apply Hall. apply elem_of_map_flat.
      unfold id in Hin. destruct (m0 !! bg) as [l|] eqn:El; [by exists bg, l|by apply elem_of_nil in Hin].
    + by apply list_elem_of_singleton in Hin as ->.
  - destruct (clock_bg_row_requests s !! k) as [m0|] eqn:E; unfold id in Hin; cbn [default from_option] in Hin.
    + destruct (Hok k m0 E) as [_ Hall]. apply Hall.
      apply elem_of_map_flat in Hin as (b' & l & Hl & Hin).
      apply elem_of_map_flat. exists b', l. apply lookup_delete_Some in Hl as [_ Hl]. done.
    + apply elem_of_map_flat in Hin as (b' & l & Hl & Hin).
      apply lookup_delete_Some in Hl as [_ Hl]. by rewrite lookup_empty in Hl.
Qed.

Context `{!HashOrderOk}.

(** After the clock moved by one, the requests for the new clock are taken
    out and the others stay. *)
Lemma GetFulfilled_spec s k rqs s' : GetMinClock s = k ->
  (forall k' m, clock_bg_row_requests s !! k' = Some m ->
     k <= k' /\ (forall rq, rq ∈ map_flat id m -> rq_clock rq = k')) ->
  GetFulfilledRowRequests s = (rqs, s') ->
  pending s ≡ₚ rqs ++ pending s' /\ (forall rq, rq ∈ rqs -> rq_clock rq = k) /\
  pending_ok s' /\ s' = set_requests (clock_bg_row_requests s') s.
Proof.
  intros Hk Hall E. unfold GetFulfilledRowRequests in E. unfold GetMinClock in Hk. rewrite Hk in E.
  destruct (clock_bg_row_requests s !! k) as [m|] eqn:Em; injection E as <- <-.
  - assert (Hp : concat (hash_order m).*2 ≡ₚ map_flat id m).
    { unfold map_flat, id. rewrite (hash_order_perm _ m). done. }
    split_and!.
    + unfold pending. rewrite (map_flat_lookup _ k m) by done. by rewrite <- Hp.
    + intros rq Hrq. apply (proj2 (Hall k m Em)). by rewrite <- Hp.
    + intros k' m'. cbn [clock_bg_row_requests set_requests]. intros [Hne Hm]%lookup_delete_Some.
      destruct (Hall k' m' Hm) as [Hle Hc]. split; [|done].
      unfold GetMinClock. cbn [client_clocks set_requests]. rewrite Hk. lia.
    + done.
  - split_and!; [done|by intros rq ?%elem_of_nil| |by destruct s].
    intros k' m' Hm. destruct (Hall k' m' Hm) as [Hle Hc]. split; [|done].
    unfold GetMinClock. rewrite Hk. assert (k' <> k) by congruence. lia.
Qed.
End REQUESTS.
