(* ===== verification/ServerFrames.v ===== *)
(** * What the parts of a server step leave alone

    Applying oplogs, answering requests, subscribing and pushing rows keep
    the clocks and the pending requests; answering and pushing keep the
    contents of every row. *)
From S2P Require Import Prelude Bytes Num VectorClock Context OpLogWire RowWire ServerRow Server ServerPush ServerThreads ServerClocks.
Open Scope Z_scope.

Section FRAMES.
Context {R V : Type} `{!Num V} `{!AbstractRow R V} `{!HashOrder, !HashOrderOk} `{!LevelDB}.
Context (g : GlobalContext) (reg : ClassRegistry (RowClass R)).

(** Same clocks and requests. *)
Record control_same (s s' : Server R) : Prop := {
  cs_clocks : client_clocks s' = client_clocks s;
  cs_clients : client_vector_clock_map s' = client_vector_clock_map s;
  cs_requests : clock_bg_row_requests s' = clock_bg_row_requests s
}.
#[export] Instance control_same_preorder : PreOrder control_same.
Proof. split; [done|]. intros s1 s2 s3 [] []. constructor; congruence. Qed.

Lemma control_set_tables ts s : control_same s (set_tables ts s).
Proof. done. Qed.
Lemma control_set_versions v s : control_same s (set_versions v s).
Proof. done. Qed.

Lemma control_clocks_inv conns h s s' : control_same s s' -> clocks_inv conns h s -> clocks_inv conns h s'.
Proof. intros [E1 E2 _] []. constructor; rewrite ?E1, ?E2; done. Qed.
Lemma control_pending s s' : control_same s s' -> pending s' = pending s.
Proof. intros [_ _ E]. unfold pending. by rewrite E. Qed.
Lemma control_min s s' : control_same s s' -> GetMinClock s' = GetMinClock s.
Proof. intros [E _ _]. unfold GetMinClock. by rewrite E. Qed.
Lemma control_pending_ok s s' : control_same s s' -> pending_ok s -> pending_ok s'.
Proof.
  intros Hc Hok k m. rewrite (cs_requests _ _ Hc), (control_min _ _ Hc). apply Hok.
Qed.

(** Every row keeps its contents; rows may be added. *)
Definition rows_le (st st' : gmap Z (ServerRow R)) : Prop :=
  forall r row, st !! r = Some row -> exists row', st' !! r = Some row' /\ row_data row' = row_data row.
#[export] Instance rows_le_preorder : PreOrder rows_le.
Proof.
  split; [intros st r row E; by exists row|]. intros st1 st2 st3 H12 H23 r row E.
  destruct (H12 r row E) as (row2 & E2 & D2). destruct (H23 r row2 E2) as (row3 & E3 & D3).
  exists row3. split; [done|congruence].
Qed.

Definition tables_le (ts ts' : gmap Z (ServerTable R)) : Prop :=
  forall i t, ts !! i = Some t -> exists t', ts' !! i = Some t' /\ rows_le (storage t) (storage t').
#[export] Instance tables_le_preorder : PreOrder tables_le.
Proof.
  split; [intros ts i t E; by exists t|]. intros ts1 ts2 ts3 H12 H23 i t E.
  destruct (H12 i t E) as (t2 & E2 & D2). destruct (H23 i t2 E2) as (t3 & E3 & D3).
  exists t3. split; [done|by etrans].
Qed.

Lemma rows_le_insert st r row row' : st !! r = Some row -> row_data row' = row_data row ->
  rows_le st (<[r := row']> st).
Proof.
  intros E D r1 row1 E1. destruct (decide (r1 = r)) as [->|Hne].
  - exists row'. rewrite lookup_insert_eq. split; [done|]. congruence.
  - exists row1. by rewrite lookup_insert_ne.
Qed.

Lemma rows_le_storage_insert r d st : rows_le st (storage_insert r d st).
Proof.
  intros r1 row1 E1. unfold storage_insert. destruct (st !! r) eqn:E; [by exists row1|].
  exists row1. rewrite lookup_insert_ne; [done|congruence].
Qed.

Lemma tables_le_insert ts i t t' : ts !! i = Some t -> rows_le (storage t) (storage t') ->
  tables_le ts (<[i := t']> ts).
Proof.
  intros E D i1 t1 E1. destruct (decide (i1 = i)) as [->|Hne].
  - exists t'. rewrite lookup_insert_eq. split; [done|]. by assert (t1 = t) as -> by congruence.
  - exists t1. by rewrite lookup_insert_ne.
Qed.

Lemma tables_le_row t r row s s' : tables_le (tables s) (tables s') -> row_at t r s = Some row ->
  exists row', row_at t r s' = Some row' /\ row_data row' = row_data row.
Proof.
  intros Hle Hrow. unfold row_at in *. destruct (tables s !! t) as [tb|] eqn:Et; [|done].
  destruct (Hle t tb Et) as (tb' & -> & Hr). cbn in *. by apply Hr.
Qed.

(** ** Oplogs *)

Lemma apply_row_control t r cols ups s s' : apply_row reg t r cols ups s = Ret s' -> control_same s s'.
Proof.
  intros E. unfold apply_row in E. apply bind_Ret_inv in E as (tb & _ & E).
  apply bind_Ret_inv in E as ([found t1] & _ & E). destruct found; [by injection E as <-|].
  apply bind_Ret_inv in E as (t2 & _ & E). apply bind_Ret_inv in E as ([f2 t3] & _ & E).
  by injection E as <-.
Qed.

Lemma apply_oplog_loop_control fuel cur e rd s s' :
  apply_oplog_loop reg fuel cur e rd s = Ret s' -> control_same s s' /\ bg_version_map s' = bg_version_map s.
Proof.
  revert cur e rd s. induction fuel as [|fuel IH]; intros cur e rd s E; cbn [apply_oplog_loop] in E;
    apply bind_Ret_inv in E as (s1 & E1 & E); apply bind_Ret_inv in E as ([next rd'] & _ & E).
  all: pose proof (apply_row_control _ _ _ _ _ _ E1) as Hc.
  all: assert (Hv : bg_version_map s1 = bg_version_map s).
  all: try (unfold apply_row in E1; apply bind_Ret_inv in E1 as (tb & _ & E1);
       apply bind_Ret_inv in E1 as ([found t1] & _ & E1); destruct found; [by injection E1 as <-|];
       apply bind_Ret_inv in E1 as (t2 & _ & E1); apply bind_Ret_inv in E1 as ([f2 t3] & _ & E1);
       by injection E1 as <-).
  - destruct next; [done|by injection E as <-].
  - destruct next as [e'|]; [|by injection E as <-].
    apply IH in E as [Hc' Hv']. split; [by etrans|congruence].
Qed.

Lemma ApplyOpLog_control data bg v s s' : ApplyOpLog reg data bg v s = Ret s' ->
  control_same s s' /\ bg_version_map s' = <[bg := v]> (bg_version_map s) /\ in_u32 v.
Proof.
  intros E. unfold ApplyOpLog in E. apply bind_Ret_inv in E as ([] & Hv & E).
  apply CHECK_Ret, bool_decide_eq_true in Hv.
  assert (Hu : in_u32 v) by (rewrite <- Hv; apply in_u32_u32).
  apply bind_Ret_inv in E as ([to_read rd] & _ & E). destruct to_read; [|by injection E as <-].
  apply bind_Ret_inv in E as ([first rd'] & _ & E). destruct first as [e|]; [|by injection E as <-].
  apply apply_oplog_loop_control in E as [Hc Hvm]. split_and!; [|done|done].
  etrans; [apply control_set_versions|exact Hc].
Qed.

(** ** Answers *)

Definition versions_ok (s : Server R) : Prop :=
  forall b v, bg_version_map s !! b = Some v -> in_u32 v.
(** The version of the last oplog applied. *)
Definition bg_version (b : Z) (s : Server R) : Z := default 0 (bg_version_map s !! b).

Record keeps (s s' : Server R) : Prop := {
  kp_control : control_same s s';
  kp_tables : tables_le (tables s) (tables s');
  kp_versions : forall b, bg_version b s' = bg_version b s;
  kp_versions_ok : versions_ok s -> versions_ok s'
}.
#[export] Instance keeps_preorder : PreOrder keeps.
Proof.
  split; [done|]. intros s1 s2 s3 [] []. constructor; [by etrans..| |tauto].
  intros b. congruence.
Qed.

Lemma GetBgVersion_spec bg s : versions_ok s ->
  u32 (GetBgVersion bg s).1 = bg_version bg s /\ keeps s (GetBgVersion bg s).2.
Proof.
  intros Hok. unfold GetBgVersion, bg_version. destruct (bg_version_map s !! bg) as [v|] eqn:E; cbn [fst snd default from_option id].
  - split; [|done]. apply u32_i32. by eapply Hok.
  - split; [done|]. constructor; [done|done| |].
    + intros b. unfold bg_version. cbn [bg_version_map set_versions].
      destruct (decide (b = bg)) as [->|Hne]; [by rewrite lookup_insert_eq, E|by rewrite lookup_insert_ne].
    + intros _ b v. cbn [bg_version_map set_versions].
      intros [[<- <-]|[_ Hv]]%lookup_insert_Some; [int_lia|by eapply Hok].
Qed.

Lemma keeps_tables ts s : tables_le (tables s) ts -> keeps s (set_tables ts s).
Proof. intros Hle. constructor; done. Qed.

Lemma FindCreateRow_spec t r s row s' : FindCreateRow reg t r s = Ret (row, s') ->
  keeps s s' /\ row_at t r s' = Some row /\ base_row reg t r s row.
Proof.
  intros E. unfold FindCreateRow in E. apply bind_Ret_inv in E as (tb & Et & E).
  destruct (tables s !! t) as [tb0|] eqn:Htab; [injection Et as ->|done]. unfold FindRow in E.
  destruct (storage tb !! r) as [row0|] eqn:Er.
  - injection E as <- <-. assert (Hrow : row_at t r s = Some row0) by (unfold row_at; by rewrite Htab).
    split_and!; [done|done|by left].
  - apply bind_Ret_inv in E as (tb' & Ec & E). apply bind_Ret_inv in E as (row0 & Er' & E).
    injection E as <- <-. unfold CreateRow in Ec. apply bind_Ret_inv in Ec as (c & Ec & E).
    apply bind_Ret_inv in E as (d & Ed & [= <-]). cbn [storage with_storage] in Er'.
    assert (Hrow0 : storage_insert r d (storage tb) !! r = Some (ServerRow_new d)).
    { unfold storage_insert. by rewrite Er, lookup_insert_eq. }
    rewrite Hrow0 in Er'. injection Er' as <-. split_and!.
    + apply keeps_tables. apply (tables_le_insert _ _ tb); [done|].
      cbn [storage with_storage]. apply rows_le_storage_insert.
    + unfold row_at. cbn [tables set_tables]. rewrite lookup_insert_eq. exact Hrow0.
    + right. split; [unfold row_at; by rewrite Htab|]. exists tb, c, d. split_and!; [done| |done|done].
      destruct (CreateObject _ reg); [by injection Ec as ->|done].
Qed.

Lemma RowSubscribe_spec t r client row s row' s' : row_at t r s = Some row ->
  RowSubscribe g t r client row s = Ret (row', s') ->
  keeps s s' /\ row_at t r s' = Some row' /\ row_data row' = row_data row.
Proof.
  intros Hrow E. unfold RowSubscribe in E. destruct (consistency_model g); [| |done|done].
  - by injection E as <- <-.
  - apply bind_Ret_inv in E as (row1 & Es & E). apply bind_Ret_inv in E as (tb & Et & E).
    injection E as <- <-. unfold ServerRow_Subscribe in Es. apply bind_Ret_inv in Es as ([ch sb] & _ & Es).
    injection Es as <-. unfold row_at in Hrow.
    destruct (tables s !! t) as [tb0|] eqn:Htab; [injection Et as ->|done]. cbn in Hrow.
    split_and!; [|unfold row_at; cbn [tables set_tables]; rewrite lookup_insert_eq; cbn; by rewrite lookup_insert_eq|done].
    apply keeps_tables. apply (tables_le_insert _ _ tb); [done|]. cbn [storage with_storage].
    by apply (rows_le_insert _ _ row).
Qed.

(** A request is answered with the row's contents, the server's clock and
    the version of the requester's last applied oplog. *)
Lemma answer_request_spec bg t r s s' out : versions_ok s ->
  answer_request g reg bg t r s = Ret (s', out) ->
  keeps s s' /\ exists row, row_at t r s' = Some row /\
    out = OutRowReply bg t r (GetMinClock s) (bg_version bg s) (row_serialize (row_data row)).
Proof.
  intros Hok E. unfold answer_request in E. pose proof (GetBgVersion_spec bg s Hok) as [Hv K1].
  destruct (GetBgVersion bg s) as [v s1]. cbn [fst snd] in *.
  apply bind_Ret_inv in E as ([row s2] & E2 & E). apply FindCreateRow_spec in E2 as (K2 & Hrow & _).
  apply bind_Ret_inv in E as ([row' s3] & E3 & E).
  apply (RowSubscribe_spec _ _ _ _ _ _ _ Hrow) in E3 as (K3 & Hrow' & Hd).
  apply bind_Ret_inv in E as (o & Eo & E). injection E as <- <-.
  assert (K : keeps s s3) by (do 2 (etrans; [eassumption|]); done).
  split; [done|]. exists row'. split; [done|]. unfold ReplyRowRequest in Eo.
  case_bool_decide; [|done]. injection Eo as <-. rewrite Hv.
  by rewrite (control_min _ _ (kp_control _ _ K)).
Qed.

(** Answering a list of requests, and the rows of the answers. *)
Definition answers (k : Z) (s : Server R) (rq : ServerRowRequest) (o : server_out) : Prop :=
  exists row, row_at (rq_table_id rq) (rq_row_id rq) s = Some row /\
    o = OutRowReply (rq_bg_id rq) (rq_table_id rq) (rq_row_id rq) k (bg_version (rq_bg_id rq) s)
          (row_serialize (row_data row)).

Lemma answers_keeps k s s' rq o : keeps s s' -> answers k s rq o -> answers k s' rq o.
Proof.
  intros K (row & Hrow & ->). destruct (tables_le_row _ _ _ _ _ (kp_tables _ _ K) Hrow) as (row' & Hrow' & Hd).
  exists row'. split; [done|]. by rewrite (kp_versions _ _ K), Hd.
Qed.

Lemma reply_steps_spec rqs s outs0 s' outs : versions_ok s ->
  foldM (reply_step g reg) rqs (s, outs0) = Ret (s', outs) ->
  keeps s s' /\ exists outs1, outs = outs0 ++ outs1 /\ Forall2 (answers (GetMinClock s) s') rqs outs1.
Proof.
  revert s outs0. induction rqs as [|rq rqs IH]; intros s outs0 Hok E.
  { injection E as <- <-. split; [done|]. exists []. by rewrite app_nil_r. }
  cbn [foldM] in E. apply bind_Ret_inv in E as ([s1 o1] & E1 & E). unfold reply_step in E1. cbn [fst snd] in E1.
  apply bind_Ret_inv in E1 as ([s2 o] & E1 & [= -> <-]).
  apply answer_request_spec in E1 as (K & row & Hrow & Ho); [|done].
  apply IH in E as (K' & outs1 & -> & Hall); [|by apply (kp_versions_ok _ _ K)].
  split; [by etrans|]. exists (o :: outs1). split; [by rewrite <- app_assoc|].
  rewrite (control_min _ _ (kp_control _ _ K)) in Hall. constructor; [|done].
  apply (answers_keeps _ s1); [done|]. exists row. split; [done|].
  by rewrite Ho, (kp_versions _ _ K).
Qed.
(** ** Pushing rows *)

Context (alloc : Z -> list Z).

Lemma append_rows_keeps c rows t buffs failed t' buffs' :
  append_rows alloc g c rows t buffs = Ret (failed, t', buffs') -> rows_le (storage t) (storage t').
Proof.
  revert t buffs. induction rows as [|r rows IH]; intros t buffs E; cbn [append_rows] in E.
  { by injection E as _ <- _. }
  apply bind_Ret_inv in E as (row & Er & E).
  destruct (storage t !! r) as [row0|] eqn:Hr; [injection Er as ->|done].
  destruct (NoClientSubscribed row); [by eapply IH|]. destruct (negb (IsDirty row)); [by eapply IH|].
  apply bind_Ret_inv in E as (t1 & Es & E). apply bind_Ret_inv in E as ([f b1] & _ & E).
  assert (Hle1 : rows_le (storage t) (storage t1)).
  { unfold serialize_current in Es. destruct (if bool_decide _ then _ else _) as [bf bs].
    apply bind_Ret_inv in Es as (bf' & _ & [= <-]). cbn [storage set_row_iter].
    by apply (rows_le_insert _ _ row). }
  destruct f; [by injection E as _ <- _|]. etrans; [exact Hle1|]. by eapply IH.
Qed.

Lemma AppendTableToBuffs_keeps c resume t buffs failed t' buffs' :
  AppendTableToBuffs alloc g c resume t buffs = Ret (failed, t', buffs') -> rows_le (storage t) (storage t').
Proof.
  intros E. unfold AppendTableToBuffs in E. destruct resume; [|by eapply append_rows_keeps].
  apply bind_Ret_inv in E as (r & _ & E). apply bind_Ret_inv in E as ([f b1] & _ & E).
  destruct f; [by injection E as _ <- _|]. by apply append_rows_keeps in E.
Qed.

Lemma pack_table_keeps fuel tid c resume t st t' st' :
  pack_table g alloc fuel tid c resume t st = Ret (t', st') -> rows_le (storage t) (storage t').
Proof.
  revert c resume t st. induction fuel as [|fuel IH]; intros c resume t st E; cbn [pack_table] in E;
    apply bind_Ret_inv in E as ([[failed t1] b1] & E1 & E); apply AppendTableToBuffs_keeps in E1;
    (destruct failed as [f|]; [|by injection E as <- _]); apply bind_Ret_inv in E as (st2 & _ & E).
  - done.
  - etrans; [exact E1|]. by eapply IH.
Qed.

Lemma push_tables_keeps ts left tabs st tabs' st' :
  NoDup ts.*1 -> (forall i t, (i, t) ∈ ts -> tabs !! i = Some t) ->
  push_tables g alloc ts left tabs st = Ret (tabs', st') -> tables_le tabs tabs'.
Proof.
  revert left tabs st. induction ts as [|[i t] ts IH]; intros left tabs st Hnd Hin E; cbn [push_tables] in E.
  { by injection E as <- _. }
  rewrite fmap_cons in Hnd. apply NoDup_cons in Hnd as [Hni Hnd].
  apply bind_Ret_inv in E as ([t' st1] & E1 & E). unfold push_table in E1.
  apply bind_Ret_inv in E1 as (st0 & _ & E1). apply pack_table_keeps in E1.
  assert (Hle : tables_le tabs (<[i := t']> tabs)).
  { apply (tables_le_insert _ _ t); [by apply Hin, list_elem_of_here|exact E1]. }
  case_bool_decide; [|by injection E as <- _].
  apply bind_Ret_inv in E as (st2 & _ & E). etrans; [exact Hle|]. eapply IH; [done| |exact E].
  intros j t1 Hj. rewrite lookup_insert_ne; [by apply Hin, list_elem_of_further|].
  intros <-. apply Hni. apply list_elem_of_fmap. by exists (i, t1).
Qed.

Definition is_push (o : server_out) : Prop := match o with OutPushRow _ _ _ _ _ => True | _ => False end.

Lemma send_pushes_keeps sends s outs : versions_ok s -> Forall is_push outs ->
  let st := foldl push_out_step (s, outs) sends in
  keeps s st.1 /\ Forall is_push st.2.
Proof.
  revert s outs. induction sends as [|p sends IH]; intros s outs Hok Hp; [done|]. cbn [foldl].
  pose proof (GetBgVersion_spec (ps_bg_id p) s Hok) as [_ K].
  destruct (GetBgVersion (ps_bg_id p) s) as [v s1] eqn:E. cbn [snd] in K.
  assert (Es : exists o, push_out_step (s, outs) p = (s1, outs ++ [o]) /\ is_push o).
  { eexists. unfold push_out_step, SendServerPushRowMsg. cbn [fst snd]. by rewrite E. }
  destruct Es as (o & -> & Ho). destruct (IH s1 (outs ++ [o])) as [K' Hp'].
  { by apply (kp_versions_ok _ _ K). }
  { apply Forall_app. split; [done|]. by constructor. }
  split; [|exact Hp']. etrans; [exact K|exact K'].
Qed.

Lemma ServerPushRow_spec s s' outs : versions_ok s -> ServerPushRow g alloc s = Ret (s', outs) ->
  keeps s s' /\ Forall is_push outs.
Proof.
  intros Hok E. unfold ServerPushRow in E. destruct (consistency_model g); [| |done|done].
  - by injection E as <- <-.
  - apply bind_Ret_inv in E as ([sends s1] & E1 & E). unfold CreateSendServerPushRowMsgs in E1.
    apply bind_Ret_inv in E1 as ([tabs st] & Et & E1). apply bind_Ret_inv in E1 as (st' & _ & [= <- <-]).
    assert (K : keeps s (set_tables tabs s)).
    { apply keeps_tables. apply push_tables_keeps in Et; [done| |].
      - rewrite (hash_order_perm _ (tables s)). apply NoDup_fst_map_to_list.
      - intros i t. rewrite (hash_order_perm _ (tables s)). apply elem_of_map_to_list. }
    destruct (send_pushes_keeps (pu_sends st') (set_tables tabs s) []) as [K' Hp].
    { by apply (kp_versions_ok _ _ K). }
    { done. }
    injection E as E. rewrite E in K', Hp. split; [etrans; [exact K|exact K']|exact Hp].
Qed.

End FRAMES.
