(* ===== verification/ServerFresh.v ===== *)
(** * Freshness of the server's answers

    The server thread as a transition system over the messages it handles
    ([petuum_ps/server/server_threads.cpp]).  The theorems are the promise of
    stale synchronous parallelism: a row is answered only when every
    background thread has finished the requested clock, and every request is
    answered exactly once, as soon as that is so. *)
From stdpp Require Import strings.
From S2P Require Import Prelude Bytes Num DenseRow VectorClock Context OpLogWire RowWire ServerRow Snapshot Server ServerPush ServerThreads ServerClocks ServerFrames.
Open Scope Z_scope.

(** ** Start *)

Definition bgs_of (c : Z) (conns : list (Z * Z)) : list Z := (filter (fun cb => cb.1 = c) conns).*2.

Lemma elem_of_bgs_of c b conns : b ∈ bgs_of c conns <-> (c, b) ∈ conns.
Proof.
  unfold bgs_of. rewrite list_elem_of_fmap. split.
  - intros ([c' b'] & -> & [Heq Hin]%list_elem_of_filter). by simpl in Heq; subst c'.
  - intros Hin. exists (c, b). split; [done|]. by apply list_elem_of_filter.
Qed.

Lemma zeros_lookup ids (m : gmap Z Z) b :
  foldl (fun m id => <[id := 0]> m) m ids !! b = if decide (b ∈ ids) then Some 0 else m !! b.
Proof.
  revert m. induction ids as [|i ids IH]; intros m; cbn [foldl].
  { rewrite decide_False; [done|]. by intros ?%elem_of_nil. }
  rewrite IH. destruct (decide (b ∈ ids)) as [Hin|Hnin].
  - by rewrite decide_True by by right.
  - destruct (decide (b = i)) as [->|Hne].
    + rewrite lookup_insert_eq, decide_True; [done|left].
    + rewrite lookup_insert_ne, decide_False; [done| |done]. by intros [?|?]%elem_of_cons.
Qed.

Lemma VectorClock_init_ok h c conns : (forall b, h b = 0) -> c ∈ conns.*1 ->
  client_clock_ok conns h c (VectorClock_init (bgs_of c conns)).
Proof.
  intros Hh Hc. apply list_elem_of_fmap in Hc as ([c' b] & -> & Hin). cbn [fst].
  constructor.
  - split.
    + exists b. simpl. rewrite zeros_lookup, decide_True; [done|]. by apply elem_of_bgs_of.
    + intros b' x. simpl. rewrite zeros_lookup. case_decide; [by intros [= <-]|by rewrite lookup_empty].
  - intros b' Hb'. simpl. rewrite zeros_lookup, decide_True, Hh; [done|]. by apply elem_of_bgs_of.
  - intros b' x. simpl. rewrite zeros_lookup. case_decide as Hd; [|by rewrite lookup_empty].
    intros _. by apply elem_of_bgs_of.
Qed.

Section FRESH.
Context {R V : Type} `{!Num V} `{!AbstractRow R V} `{!HashOrder, !HashOrderOk} `{!LevelDB}.
Context (g : GlobalContext) (reg : ClassRegistry (RowClass R)) (alloc : Z -> list Z).

Definition add_pairs (l : list (Z * Z)) (s : Server R) : Server R :=
  foldl (fun s cb => AddClientBgPair cb.1 cb.2 s) s l.

Lemma add_pairs_spec l :
  let s := add_pairs l Server_new in
  (forall c, vec_clock (client_clocks s) !! c = if decide (c ∈ l.*1) then Some 0 else None) /\
  (l <> [] -> min_clock (client_clocks s) = 0) /\ (l = [] -> min_clock (client_clocks s) = -1) /\
  (forall c, client_bg_map s !! c = if decide (c ∈ l.*1) then Some (bgs_of c l) else None) /\
  clock_bg_row_requests s = ∅ /\ bg_version_map s = ∅ /\ client_vector_clock_map s = ∅.
Proof.
  induction l as [|[c b] l IH] using rev_ind.
  { split_and!; try done; intros c; rewrite decide_False; try apply lookup_empty; by intros ?%elem_of_nil. }
  unfold add_pairs in *. rewrite foldl_app. cbn [foldl fst snd].
  set (s := foldl _ Server_new l) in *. destruct IH as (Hv & Hm & Hm0 & Hb & Hq & Hver & Hcv).
  unfold AddClientBgPair, AddClock.
  cbn [client_clocks vec_clock min_clock client_bg_map clock_bg_row_requests bg_version_map client_vector_clock_map].
  assert (Hin : forall c', c' ∈ (l ++ [(c, b)]).*1 <-> c' ∈ l.*1 \/ c' = c).
  { intros c'. rewrite fmap_app, elem_of_app. simpl. by rewrite list_elem_of_singleton. }
  split_and!; try done.
  - intros c'. destruct (decide (c' = c)) as [->|Hne].
    + rewrite lookup_insert_eq, decide_True; [done|]. apply Hin. by right.
    + rewrite lookup_insert_ne, Hv by done. apply decide_ext. rewrite Hin. tauto || (split; [tauto|intros [?|?]; [done|congruence]]).
  - intros _. case_bool_decide as Hc; [done|]. destruct l as [|p l']; [by rewrite Hm0 in Hc by done; lia|].
    by apply Hm.
  - by destruct l.
  - intros c'. destruct (decide (c' = c)) as [->|Hne].
    + rewrite lookup_insert_eq, decide_True by (apply Hin; by right). f_equal.
      rewrite Hb. unfold bgs_of. rewrite filter_app, fmap_app. f_equal.
      * case_decide as Hd; [done|]. cbn. rewrite filter_none; [done|]. intros [c1 b1] Hin1 Heq.
        apply Hd. apply list_elem_of_fmap. exists (c1, b1). by simpl in Heq; subst.
      * by rewrite filter_cons_True.
    + rewrite lookup_insert_ne, Hb by done.
      assert (Hbg : bgs_of c' (l ++ [(c, b)]) = bgs_of c' l).
      { unfold bgs_of. rewrite filter_app, (filter_cons_False _ (c, b) []) by (simpl; congruence).
        by rewrite app_nil_r. }
      rewrite Hbg. apply decide_ext. rewrite Hin. tauto || (split; [tauto|intros [?|?]; [done|congruence]]).
Qed.

Lemma init_clients_spec L (s : Server R) : NoDup L.*1 ->
  let s' := foldl (fun s '(client, bgs) => init_client s client bgs) s L in
  (forall c bgs, (c, bgs) ∈ L -> client_vector_clock_map s' !! c = Some (VectorClock_init bgs)) /\
  (forall c, c ∉ L.*1 -> client_vector_clock_map s' !! c = client_vector_clock_map s !! c) /\
  client_clocks s' = client_clocks s /\ clock_bg_row_requests s' = clock_bg_row_requests s /\
  (versions_ok s -> versions_ok s').
Proof.
  revert s. induction L as [|[c bgs] L IH]; intros s Hnd; cbn [foldl].
  { split_and!; try done. by intros c bgs ?%elem_of_nil. }
  rewrite fmap_cons in Hnd. apply NoDup_cons in Hnd as [Hni Hnd].
  destruct (IH (init_client s c bgs) Hnd) as (Hin & Hout & Hcc & Hq & Hv). split_and!.
  - intros c' bgs' [[= -> ->]|Hc']%elem_of_cons; [|by apply Hin].
    rewrite Hout by done. simpl. by rewrite lookup_insert_eq.
  - intros c' Hc'. rewrite fmap_cons in Hc'. apply not_elem_of_cons in Hc' as [Hne Hc'].
    rewrite Hout by done. simpl. by rewrite lookup_insert_ne.
  - by rewrite Hcc.
  - by rewrite Hq.
  - intros Hok. apply Hv. unfold versions_ok, init_client. cbn [bg_version_map set_versions].
    assert (Hall : forall l (m : gmap Z Z), (forall b v, m !! b = Some v -> in_u32 v) ->
      forall b v, foldl (fun m bg => <[bg := u32 (-1)]> m) m l !! b = Some v -> in_u32 v).
    { induction l as [|x l IHl]; intros m Hm; simpl; [done|]. apply IHl.
      intros b v [[_ <-]|[_ Hb]]%lookup_insert_Some; [apply in_u32_u32|by eapply Hm]. }
    apply Hall. exact Hok.
Qed.

(** The messages of the background threads that connect. *)
Definition connects (conns : list (Z * Z)) : list (connect_msg * Z) :=
  (fun cb => (ClientConnect cb.1, cb.2)) <$> conns.

Lemma accept_connections_server n conns (c c' : ServerContext R) :
  accept_connections n (connects conns) c = Ret c' ->
  server_obj c' = add_pairs conns (server_obj c).
Proof.
  revert n c. induction conns as [|[cl b] conns IH]; intros n c E; [by injection E as <-|].
  cbn in E. apply bind_Ret_inv in E as (ids & _ & E). by apply IH in E.
Qed.

Lemma SendToAll_outs (msg : Z -> server_out) (c : ServerContext R) outs :
  SendToAllBgThreads g msg c = Ret outs -> forall o, o ∈ outs -> exists b, o = msg b.
Proof.
  unfold SendToAllBgThreads. generalize (seqZ 0 (num_total_bg_threads g)). intros l.
  assert (Hall : forall l o0 o1,
      foldM (fun outs i => bg_id ← vec_at (bg_thread_ids c) i; Ret (outs ++ [msg bg_id])) l o0 = Ret o1 ->
      (forall o, o ∈ o0 -> exists b, o = msg b) -> forall o, o ∈ o1 -> exists b, o = msg b).
  { clear. induction l as [|i l IH]; intros o0 o1 E; cbn [foldM] in E; [by injection E as <-|].
    apply bind_Ret_inv in E as (o2 & E2 & E). apply bind_Ret_inv in E2 as (b & _ & [= <-]).
    intros Ho0. apply (IH _ _ E). intros o [Ho|Ho%list_elem_of_singleton]%elem_of_app; [by apply Ho0|by exists b]. }
  intros E. apply (Hall _ _ _ E). by intros o ?%elem_of_nil.
Qed.

Lemma InitServer_spec id conns (c : ServerContext R) outs : conns <> [] ->
  Z.of_nat (length conns) = num_total_bg_threads g ->
  InitServer g id (connects conns) (SetUpServerContext g) = Ret (c, outs) ->
  clocks_inv conns (fun _ => 0) (server_obj c) /\ versions_ok (server_obj c) /\
  clock_bg_row_requests (server_obj c) = ∅ /\
  (forall o : server_out, o ∈ outs -> exists b, o = OutClientStart b).
Proof.
  intros Hne Hlen E. unfold InitServer in E.
  rewrite take_ge in E by (unfold connects; rewrite length_fmap; lia).
  apply bind_Ret_inv in E as (c1 & E1 & E). apply bind_Ret_inv in E as (outs' & Eo & E).
  injection E as <- <-. apply accept_connections_server in E1. cbn [server_obj SetUpServerContext] in E1.
  destruct (add_pairs_spec conns) as (Hv & Hm & _ & Hb & Hq & Hver & Hcv). rewrite <- E1 in *.
  cbn [server_obj with_server]. unfold Server_Init.
  destruct (init_clients_spec (map_to_list (client_bg_map (server_obj c1))) (server_obj c1))
    as (Hin & _ & Hcc & Hq' & Hv'); [apply NoDup_fst_map_to_list|].
  set (s' := foldl _ (server_obj c1) _) in *.
  assert (Hmin : min_clock (client_clocks (server_obj c1)) = 0) by auto.
  split_and!.
  - constructor; cbn [client_clocks client_vector_clock_map].
    + rewrite Hcc. split; rewrite Hmin.
      * destruct conns as [|[cl b] conns']; [done|]. exists cl. rewrite Hv, decide_True; [done|]. left.
      * intros c' x. rewrite Hv. case_decide; by intros [= <-].
    + intros c' x. rewrite Hcc, Hv. by case_decide.
    + intros c' Hc'. exists (VectorClock_init (bgs_of c' conns)).
      assert (Hbg : client_bg_map (server_obj c1) !! c' = Some (bgs_of c' conns)) by (by rewrite Hb, decide_True).
      split_and!.
      * apply Hin. by apply elem_of_map_to_list.
      * by apply VectorClock_init_ok.
      * rewrite Hcc, Hv, decide_True by done. done.
  - cbn. apply Hv'. intros b v. by rewrite Hver, lookup_empty.
  - cbn. by rewrite Hq'.
  - exact (SendToAll_outs OutClientStart _ _ Eo).
Qed.

(** ** Reachable states

    [evs] is what the thread has handled, [outs] what it has sent. *)
Definition event_ok (conns : list (Z * Z)) (ev : server_event) : Prop :=
  match ev with EvOpLog sender client _ _ _ => (client, sender) ∈ conns | _ => True end.

Inductive server_reach (id : Z) (conns : list (Z * Z))
    : list server_event -> ServerContext R -> ldb -> list server_out -> Prop :=
  | reach_start db c outs :
      InitServer g id (connects conns) (SetUpServerContext g) = Ret (c, outs) ->
      server_reach id conns [] c db outs
  | reach_step evs ev c db outs c' db' outs' :
      server_reach id conns evs c db outs -> event_ok conns ev ->
      server_step g reg alloc c db ev = Ret (false, c', db', outs') ->
      server_reach id conns (evs ++ [ev]) c' db' (outs ++ outs').

(** The clock messages of thread [b]. *)
Definition is_clock_of (b : Z) (ev : server_event) : Prop :=
  match ev with EvOpLog sender _ true _ _ => sender = b | _ => False end.
#[export] Instance is_clock_of_dec b ev : Decision (is_clock_of b ev).
Proof. destruct ev as [| | |? ? []]; simpl; apply _. Defined.

Definition clock_count (evs : list server_event) (b : Z) : Z :=
  Z.of_nat (length (filter (is_clock_of b) evs)).

(** The requests received and the answers sent. *)
Definition request_of (ev : server_event) : list ServerRowRequest :=
  match ev with EvRowRequest b t r k => [mkServerRowRequest b t r k] | _ => [] end.
Definition requests_of (evs : list server_event) : list ServerRowRequest := concat (request_of <$> evs).

Definition rq_key (rq : ServerRowRequest) : Z * Z * Z := (rq_bg_id rq, rq_table_id rq, rq_row_id rq).
Definition reply_key (o : server_out) : list (Z * Z * Z) :=
  match o with OutRowReply b t r _ _ _ => [(b, t, r)] | _ => [] end.
Definition reply_keys (outs : list server_out) : list (Z * Z * Z) := concat (reply_key <$> outs).

Lemma reply_keys_app o1 o2 : reply_keys (o1 ++ o2) = reply_keys o1 ++ reply_keys o2.
Proof. unfold reply_keys. by rewrite fmap_app, concat_app. Qed.
Lemma requests_of_app e1 e2 : requests_of (e1 ++ e2) = requests_of e1 ++ requests_of e2.
Proof. unfold requests_of. by rewrite fmap_app, concat_app. Qed.

Lemma clock_count_app evs ev b : clock_count (evs ++ [ev]) b =
  if bool_decide (is_clock_of b ev) then clock_count evs b + 1 else clock_count evs b.
Proof.
  unfold clock_count. rewrite filter_app, length_app. case_bool_decide as Hc.
  - rewrite filter_cons_True by done. simpl. lia.
  - rewrite filter_cons_False by done. simpl. lia.
Qed.

Lemma clock_count_bounds evs b : 0 <= clock_count evs b <= Z.of_nat (length evs).
Proof. unfold clock_count. pose proof (length_filter (is_clock_of b) evs). lia. Qed.

Lemma reply_keys_push outs : Forall is_push outs -> reply_keys outs = [].
Proof. induction 1 as [|o outs Ho _ IH]; [done|]. unfold reply_keys in *. by destruct o. Qed.

(** What is kept about the messages handled so far. *)
Record server_inv (conns : list (Z * Z)) (evs : list server_event) (s : Server R)
    (outs : list server_out) : Prop := {
  si_clocks : clocks_inv conns (clock_count evs) s;
  si_versions : versions_ok s;
  si_pending : pending_ok s;
  si_ledger : exists answered, requests_of evs ≡ₚ answered ++ pending s /\
     rq_key <$> answered ≡ₚ reply_keys outs
}.

Lemma clocks_inv_ext conns h h' (s : Server R) : (forall b, h b = h' b) ->
  clocks_inv conns h s -> clocks_inv conns h' s.
Proof.
  intros Hh [H1' H2' H3']. constructor; [done..|]. intros c Hc.
  destruct (H3' c Hc) as (vc & E1 & [Hm Hi Ho] & E2). exists vc. split_and!; [done| |done].
  constructor; [done| |done]. intros b Hb. rewrite <- Hh. by apply Hi.
Qed.

(** What a step's answers carry. *)
Definition replies_fresh (evs : list server_event) (s : Server R) (outs : list server_out) : Prop :=
  forall b t r k v data, OutRowReply b t r k v data ∈ outs ->
    k = GetMinClock s /\ v = bg_version b s /\
    (exists rq, rq ∈ requests_of evs /\ rq_key rq = (b, t, r) /\ rq_clock rq <= k) /\
    (exists row, row_at t r s = Some row /\ data = row_serialize (row_data row)).

Lemma row_request_inv conns evs s outs sender t r k s' outs' : server_inv conns evs s outs ->
  HandleRowRequest g reg sender t r k s = Ret (s', outs') ->
  server_inv conns (evs ++ [EvRowRequest sender t r k]) s' (outs ++ outs') /\
  replies_fresh (evs ++ [EvRowRequest sender t r k]) s' outs'.
Proof.
  intros [Hc Hv Hp (answered & Hperm & Hkeys)] E. unfold HandleRowRequest in E.
  set (rq := mkServerRowRequest sender t r k).
  assert (Hcnt : forall s1 : Server R, clocks_inv conns (clock_count evs) s1 ->
            clocks_inv conns (clock_count (evs ++ [EvRowRequest sender t r k])) s1).
  { intros s1. apply clocks_inv_ext. intros b. rewrite clock_count_app.
    rewrite bool_decide_false; [done|]. by intros []. }
  case_bool_decide as Hk.
  - injection E as <- <-. split; [|by intros ? ? ? ? ? ? ?%elem_of_nil]. constructor.
    + apply Hcnt. by destruct Hc.
    + exact Hv.
    + by apply AddRowRequest_keeps_pending_ok.
    + exists answered. rewrite requests_of_app, app_nil_r. split; [|done].
      rewrite AddRowRequest_pending, Hperm. cbn. by rewrite <- app_assoc.
  - apply bind_Ret_inv in E as ([s1 o] & E & [= <- <-]).
    apply answer_request_spec in E as (K & row & Hrow & ->); [|done].
    pose proof (kp_control _ _ K) as Kc. split.
    + constructor.
      * apply Hcnt. by eapply control_clocks_inv.
      * by apply (kp_versions_ok _ _ K).
      * by eapply control_pending_ok.
      * exists (answered ++ [rq]). rewrite requests_of_app, (control_pending _ _ Kc), Hperm.
        rewrite reply_keys_app, fmap_app, Hkeys. split; [|done].
        rewrite <- !app_assoc. apply Permutation_app_head. cbn. rewrite Permutation_app_comm. done.
    + intros b t' r' k' v data [= -> -> -> -> -> ->]%list_elem_of_singleton.
      rewrite (control_min _ _ Kc), (kp_versions _ _ K). split_and!; [done|done| |by exists row].
      exists rq. split_and!; [|done|simpl; lia]. rewrite requests_of_app, elem_of_app. right. by left.
Qed.

Lemma versions_ok_insert (s s' : Server R) b v : versions_ok s -> in_u32 v ->
  bg_version_map s' = <[b := v]> (bg_version_map s) -> versions_ok s'.
Proof.
  intros Hok Hv E b' v'. rewrite E. intros [[_ <-]|[_ Hb]]%lookup_insert_Some; [done|by eapply Hok].
Qed.

(** A message without requests. *)
Lemma ledger_same conns evs ev (s s' : Server R) outs : requests_of [ev] = [] ->
  pending s' ≡ₚ pending s -> server_inv conns evs s outs ->
  exists answered, requests_of (evs ++ [ev]) ≡ₚ answered ++ pending s' /\
    rq_key <$> answered ≡ₚ reply_keys (outs ++ []).
Proof.
  intros Hev Hp [_ _ _ (answered & Hperm & Hkeys)]. exists answered.
  by rewrite requests_of_app, Hev, !app_nil_r, Hperm, Hp.
Qed.

Lemma answers_keys k (s : Server R) rqs outs : Forall2 (answers k s) rqs outs -> reply_keys outs = rq_key <$> rqs.
Proof.
  induction 1 as [|rq o rqs outs (row & _ & ->) _ IH]; [done|]. unfold reply_keys in *. cbn. by rewrite IH.
Qed.

(** The requests the new clock fulfils are answered, then rows are pushed. *)
Lemma fulfil_inv conns evs ev (s2 s3 : Server R) rqs s4 outs1 s5 pushed outs : requests_of [ev] = [] ->
  (exists answered, requests_of evs ≡ₚ answered ++ pending s2 /\ rq_key <$> answered ≡ₚ reply_keys outs) ->
  clocks_inv conns (clock_count (evs ++ [ev])) s2 -> versions_ok s2 ->
  (forall k' m, clock_bg_row_requests s2 !! k' = Some m ->
     GetMinClock s2 <= k' /\ (forall rq, rq ∈ map_flat id m -> rq_clock rq = k')) ->
  GetFulfilledRowRequests s2 = (rqs, s3) ->
  foldM (reply_step g reg) rqs (s3, []) = Ret (s4, outs1) ->
  ServerPushRow g alloc s4 = Ret (s5, pushed) ->
  server_inv conns (evs ++ [ev]) s5 (outs ++ outs1 ++ pushed) /\
  replies_fresh (evs ++ [ev]) s5 (outs1 ++ pushed).
Proof.
  intros Hev (answered & Hperm & Hkeys) Hc Hv Hq Ef Er Epush.
  destruct (GetFulfilled_spec s2 _ rqs s3 eq_refl Hq Ef) as (Hpend & Hrk & Hp3 & E3).
  assert (Hv3 : versions_ok s3) by (rewrite E3; exact Hv).
  assert (Hm3 : GetMinClock s3 = GetMinClock s2) by (by rewrite E3).
  apply reply_steps_spec in Er as (K4 & o1 & -> & Hans); [|done]. cbn [app] in *.
  destruct (ServerPushRow_spec g alloc _ _ _ (kp_versions_ok _ _ K4 Hv3) Epush) as [K5 Hpush].
  assert (K : keeps s3 s5) by (by etrans).
  assert (Hans5 : Forall2 (answers (GetMinClock s2) s5) rqs o1).
  { rewrite <- Hm3. eapply Forall2_impl; [exact Hans|]. intros rq o. by apply answers_keeps. }
  assert (Hm5 : GetMinClock s5 = GetMinClock s2) by (by rewrite (control_min _ _ (kp_control _ _ K))).
  split.
  - constructor.
    + eapply control_clocks_inv; [exact (kp_control _ _ K)|]. rewrite E3. by destruct Hc.
    + by apply (kp_versions_ok _ _ K).
    + eapply control_pending_ok; [exact (kp_control _ _ K)|done].
    + exists (answered ++ rqs). rewrite requests_of_app, Hev, app_nil_r, (control_pending _ _ (kp_control _ _ K)).
      rewrite !reply_keys_app, (reply_keys_push pushed), app_nil_r, (answers_keys _ _ _ _ Hans5), fmap_app, Hkeys by done.
      split; [|done]. by rewrite Hperm, Hpend, app_assoc.
  - intros b t r k v data [Ho|Ho]%elem_of_app.
    + apply list_elem_of_lookup_1 in Ho as [i Hi].
      destruct (Forall2_lookup_r _ _ _ _ _ Hans5 Hi) as (rq & Hrq & row & Hrow & Heq).
      injection Heq as -> -> -> -> -> ->. apply list_elem_of_lookup_2 in Hrq.
      split_and!; [done|done| |by exists row]. exists rq. split_and!; [|done|by rewrite (Hrk rq Hrq)].
      rewrite requests_of_app, Hev, app_nil_r, Hperm, Hpend. rewrite !elem_of_app. tauto.
    + rewrite Forall_forall in Hpush. by apply Hpush in Ho.
Qed.

Lemma oplog_inv conns evs s outs sender client is_clock version data db s' db' outs' :
  NoDup conns.*2 -> Z.of_nat (length evs) < 2 ^ 31 - 1 -> (client, sender) ∈ conns ->
  server_inv conns evs s outs ->
  HandleOpLogMsg g reg alloc sender client is_clock version data s db = Ret (s', db', outs') ->
  server_inv conns (evs ++ [EvOpLog sender client is_clock version data]) s' (outs ++ outs') /\
  replies_fresh (evs ++ [EvOpLog sender client is_clock version data]) s' outs'.
Proof.
  intros Hnd Hlen Hin Hinv E. pose proof Hinv as [Hc Hv Hp Hledger]. unfold HandleOpLogMsg in E.
  set (ev := EvOpLog _ _ _ _ _). apply bind_Ret_inv in E as (s1 & E1 & E).
  apply ApplyOpLog_control in E1 as (C1 & Ev & Hver).
  pose proof (versions_ok_insert _ _ _ _ Hv Hver Ev) as Hv1.
  pose proof (control_clocks_inv _ _ _ _ C1 Hc) as Hc1.
  pose proof (control_pending_ok _ _ C1 Hp) as Hp1.
  assert (Hev : requests_of [ev] = []) by done.
  assert (Hnil : forall s1 : Server R, replies_fresh (evs ++ [ev]) s1 []) by (by intros s0 b t r k v d ?%elem_of_nil).
  destruct is_clock.
  - assert (Hcnt : forall b, tick_at sender (clock_count evs) b = clock_count (evs ++ [ev]) b).
    { intros b. rewrite clock_count_app. unfold tick_at. by rewrite (bool_decide_ext (b = sender) (is_clock_of b ev)). }
    apply bind_Ret_inv in E as ([[changed s2] db1] & E2 & E).
    pose proof (clock_count_bounds evs) as Hb.
    apply (Clock_spec conns g alloc (clock_count evs)) in E2 as (Hc2 & Hmin & Es2);
      [|done|done|done|apply Hb|specialize (Hb sender); int_lia].
    apply (clocks_inv_ext _ _ _ _ Hcnt) in Hc2.
    assert (Hv2 : versions_ok s2) by (rewrite Es2; exact Hv1).
    assert (Hq2 : clock_bg_row_requests s2 = clock_bg_row_requests s1) by (by rewrite Es2).
    assert (Hpend2 : pending s2 = pending s).
    { unfold pending. rewrite Hq2. apply (control_pending _ _ C1). }
    destruct changed.
    + destruct (GetFulfilledRowRequests s2) as [rqs s3] eqn:Ef.
      apply bind_Ret_inv in E as ([s4 outs1] & Er & E). apply bind_Ret_inv in E as ([s5 pushed] & Epush & E).
      injection E as <- _ <-. rewrite <- Hpend2 in Hledger.
      apply (fulfil_inv conns evs ev s2 s3 rqs s4 outs1 s5 pushed outs); try done.
      intros k' m Hk'. rewrite Hq2 in Hk'. destruct (Hp1 k' m Hk') as [Hlt Hall]. split; [lia|done].
    + injection E as <- _ <-. split; [|done]. constructor; [done|done| |].
      * intros k' m Hk'. rewrite Hq2 in Hk'. destruct (Hp1 k' m Hk') as [Hlt Hall]. split; [lia|done].
      * apply (ledger_same conns evs ev s); [done|by rewrite Hpend2|done].
  - injection E as <- _ <-. split; [|done]. constructor; [|done|done|].
    + eapply clocks_inv_ext; [|exact Hc1]. intros b. rewrite clock_count_app.
      rewrite bool_decide_false; [done|]. by intros [].
    + apply (ledger_same conns evs ev s); [done|by rewrite (control_pending _ _ C1)|done].
Qed.

(** A step that only changes tables. *)
Lemma other_inv conns evs ev s outs s' outs' : request_of ev = [] ->
  (forall b, ~ is_clock_of b ev) -> reply_keys outs' = [] ->
  control_same s s' -> bg_version_map s' = bg_version_map s ->
  server_inv conns evs s outs -> server_inv conns (evs ++ [ev]) s' (outs ++ outs').
Proof.
  intros Hr Hcl Hk C Ev Hinv. pose proof Hinv as [Hc Hv Hp Hledger]. constructor.
  - eapply control_clocks_inv; [exact C|]. eapply clocks_inv_ext; [|exact Hc].
    intros b. rewrite clock_count_app. by rewrite bool_decide_false.
  - intros b v. rewrite Ev. apply Hv.
  - by eapply control_pending_ok.
  - destruct (ledger_same conns evs ev s s' outs) as (answered & Hp1 & Hp2).
    { unfold requests_of. cbn. by rewrite Hr. }
    { by rewrite (control_pending _ _ C). }
    { done. }
    exists answered. split; [done|]. by rewrite reply_keys_app, Hk in *.
Qed.

Lemma CreateTable_control table_id info db s s' : CreateTable g reg table_id info db s = Ret s' ->
  control_same s s' /\ bg_version_map s' = bg_version_map s.
Proof.
  intros E. unfold CreateTable in E. destruct (tables s !! table_id); [done|].
  case_bool_decide; [apply bind_Ret_inv in E as (t & _ & E)|]; by injection E as <-.
Qed.

Lemma step_inv conns evs c outs ev db fin c' db' outs' :
  NoDup conns.*2 -> Z.of_nat (length evs) < 2 ^ 31 - 1 -> event_ok conns ev ->
  server_inv conns evs (server_obj c) outs ->
  server_step g reg alloc c db ev = Ret (fin, c', db', outs') ->
  server_inv conns (evs ++ [ev]) (server_obj c') (outs ++ outs') /\
  replies_fresh (evs ++ [ev]) (server_obj c') outs'.
Proof.
  intros Hnd Hlen Hev Hinv E. destruct ev as [sender|sender tid info|sender t r k|sender client ic version data];
    cbn [server_step] in E.
  - apply bind_Ret_inv in E as ([[fin' c1] o1] & E1 & E). injection E as <- <- _ <-.
    unfold HandleShutDownMsg in E1.
    assert (Hc1 : server_obj c1 = server_obj c /\ forall o, o ∈ o1 -> exists b, o = OutShutDownAck b).
    { case_bool_decide; [|injection E1 as <- <- <-; split; [done|by intros ? ?%elem_of_nil]].
      apply bind_Ret_inv in E1 as (o2 & Eo & E1). injection E1 as <- <- <-. split; [done|].
      exact (SendToAll_outs OutShutDownAck _ _ Eo). }
    destruct Hc1 as [-> Ho]. split.
    + apply (other_inv conns evs (EvShutDown sender) (server_obj c)); try done; [by intros b []|].
      unfold reply_keys. clear -Ho. induction o1 as [|o o1 IH]; [done|]. rewrite fmap_cons. cbn [concat].
      rewrite IH by (intros x Hx; apply Ho; by right). by destruct (Ho o) as [b ->]; [left|].
    + intros b t r k v data Hin. by destruct (Ho _ Hin).
  - apply bind_Ret_inv in E as ([s1 o1] & E1 & E). injection E as _ <- _ <-.
    unfold HandleCreateTable in E1. apply bind_Ret_inv in E1 as (s2 & E2 & [= <- <-]).
    apply CreateTable_control in E2 as [C Ev]. split.
    + by apply (other_inv conns evs (EvCreateTable sender tid info) (server_obj c)); [|by intros b []|..].
    + by intros b t r k v data ?%list_elem_of_singleton.
  - apply bind_Ret_inv in E as ([s1 o1] & E1 & E). injection E as _ <- _ <-. by eapply row_request_inv.
  - apply bind_Ret_inv in E as ([[s1 db1] o1] & E1 & E). injection E as _ <- _ <-. by eapply oplog_inv.
Qed.

Lemma reach_inv id conns evs c db outs : conns <> [] -> NoDup conns.*2 ->
  Z.of_nat (length conns) = num_total_bg_threads g -> Z.of_nat (length evs) < 2 ^ 31 ->
  server_reach id conns evs c db outs -> server_inv conns evs (server_obj c) outs.
Proof.
  intros Hne Hnd Hlen Hb Hr. induction Hr as [db c outs E|evs ev c db outs c' db' outs' Hr IH Hev E].
  - apply InitServer_spec in E as (Hc & Hv & Hq & Ho); [|done|done]. constructor.
    + by eapply clocks_inv_ext; [|exact Hc].
    + done.
    + intros k m. by rewrite Hq, lookup_empty.
    + exists []. unfold pending. rewrite Hq. split; [done|]. unfold reply_keys.
      clear -Ho. induction outs as [|o outs IH]; [done|]. rewrite fmap_cons. cbn [concat fmap list_fmap].
      rewrite <- IH by (intros x Hx; apply Ho; by right). by destruct (Ho o) as [b ->]; [left|].
  - rewrite length_app in Hb. simpl in Hb. specialize (IH ltac:(lia)).
    by apply (step_inv conns evs c outs ev db false c' db' outs' Hnd ltac:(lia) Hev IH E).
Qed.

(** The thread's loop reaches what it runs to. *)
Lemma reach_run id conns evs0 c db outs evs c' db' outs' :
  server_reach id conns evs0 c db outs ->
  Forall (fun ev => event_ok conns ev /\ match ev with EvShutDown _ => False | _ => True end) evs ->
  server_run g reg alloc c db evs = Ret (c', db', outs') ->
  server_reach id conns (evs0 ++ evs) c' db' (outs ++ outs').
Proof.
  intros Hr Hevs. revert evs0 c db outs outs' Hr. induction Hevs as [|ev evs [Hok Hns] _ IH];
    intros evs0 c db outs outs' Hr E; cbn [server_run] in E.
  { injection E as <- <- <-. by rewrite !app_nil_r. }
  apply bind_Ret_inv in E as ([[[fin c1] db1] o1] & E1 & E).
  assert (fin = false) as ->.
  { destruct ev; [done|..]; cbn [server_step] in E1; apply bind_Ret_inv in E1 as ([] & _ & E1);
      try (destruct p); by injection E1. }
  apply bind_Ret_inv in E as ([[c2 db2] o2] & E2 & E). injection E as <- <- <-.
  rewrite (app_assoc outs). replace (evs0 ++ ev :: evs) with ((evs0 ++ [ev]) ++ evs) by (by rewrite <- app_assoc).
  apply (IH _ c1 db1); [|exact E2]. by eapply reach_step.
Qed.
End FRESH.

(** C4: a server thread that has connected to every background thread answers
    a row request only with its current clock, which is the number of clock
    messages every background thread has at least sent and is not below the
    clock of a request for that row; the answer carries the row's contents
    at that moment and the version of the requester's last applied oplog. *)
Theorem ssp_replies_are_fresh {R V} `{!Num V} `{!AbstractRow R V} `{!HashOrder, !HashOrderOk} `{!LevelDB}
    g (reg : ClassRegistry (RowClass R)) alloc id conns evs c db outs ev fin c' db' outs' :
  conns <> [] -> NoDup conns.*2 -> Z.of_nat (length conns) = num_total_bg_threads g ->
  Z.of_nat (length evs) < 2 ^ 31 - 1 ->
  server_reach g reg alloc id conns evs c db outs -> event_ok conns ev ->
  server_step g reg alloc c db ev = Ret (fin, c', db', outs') ->
  forall b t r k v data, OutRowReply b t r k v data ∈ outs' ->
    global_min conns (clock_count (evs ++ [ev])) k /\
    v = bg_version b (server_obj c') /\
    (exists rq, rq ∈ requests_of (evs ++ [ev]) /\ rq_key rq = (b, t, r) /\ rq_clock rq <= k) /\
    (exists row, row_at t r (server_obj c') = Some row /\ data = row_serialize (row_data row)).
Proof.
  intros Hne Hnd Hlen Hb Hr Hev E b t r k v data Hin.
  pose proof (reach_inv g reg alloc id conns evs c db outs Hne Hnd Hlen ltac:(lia) Hr) as Hinv.
  destruct (step_inv g reg alloc conns evs c outs ev db fin c' db' outs' Hnd Hb Hev Hinv E) as [Hinv' Hf].
  destruct (Hf _ _ _ _ _ _ Hin) as (-> & -> & Hrq & Hrow). split_and!; [|done..].
  apply clocks_inv_min. exact (si_clocks _ _ _ _ Hinv').
Qed.

(** C10: every row request is answered exactly once, in no other order than
    that the server's clock, the minimum over all background threads, has to
    reach the requested one: the requests received are those answered and
    those pending, and every pending one asks for a later clock. *)
Theorem requests_answered_exactly_once {R V} `{!Num V} `{!AbstractRow R V} `{!HashOrder, !HashOrderOk}
    `{!LevelDB} g (reg : ClassRegistry (RowClass R)) alloc id conns evs c db outs :
  conns <> [] -> NoDup conns.*2 -> Z.of_nat (length conns) = num_total_bg_threads g ->
  Z.of_nat (length evs) < 2 ^ 31 ->
  server_reach g reg alloc id conns evs c db outs ->
  exists answered, requests_of evs ≡ₚ answered ++ pending (server_obj c) /\
    rq_key <$> answered ≡ₚ reply_keys outs /\
    global_min conns (clock_count evs) (GetMinClock (server_obj c)) /\
    (forall rq, rq ∈ pending (server_obj c) -> GetMinClock (server_obj c) < rq_clock rq).
Proof.
  intros Hne Hnd Hlen Hb Hr.
  destruct (reach_inv g reg alloc id conns evs c db outs Hne Hnd Hlen Hb Hr)
    as [Hc Hv Hp (answered & Hperm & Hkeys)].
  exists answered. split_and!; [done|done|by apply clocks_inv_min|].
  intros rq Hrq. by apply pending_later.
Qed.

(** *** Witness: two clients with a background thread each *)
Definition two_clients : GlobalContext :=
  mkGlobalContext 1 1 1 1 1 2 1 2 [1] 0 1 SSP false (-1) "snap" (-1) "snap".
Definition two_conns : list (Z * Z) := [(0, 100); (1, 1100)].
Definition zero_alloc (n : Z) : list Z := replicate (Z.to_nat n) 0.

(** A table is created, thread 100 asks for a row of clock 1 and both threads
    finish their first clock. *)
Definition demo_oplog (u : Z) : list Z := message_bytes [(4, [(8, [(0, to_int32 u)])])].
Definition demo_events : list server_event :=
  [EvCreateTable 0 4 (mkTableInfo 1 0 3); EvRowRequest 100 4 8 1; EvOpLog 100 0 true 0 (demo_oplog 5)].
Definition last_event : server_event := EvOpLog 1100 1 true 0 (demo_oplog 6).

Definition demo_start : outcome (ServerContext (DenseRow int32) * list server_out) :=
  InitServer two_clients 1 (connects two_conns) (SetUpServerContext two_clients).
Definition demo_reached : outcome (ServerContext (DenseRow int32) * ldb * list server_out) :=
  '(c, outs) ← demo_start; server_run two_clients demo_reg zero_alloc c ∅ demo_events.

(** What the three messages lead to. *)
Lemma demo_reach : exists c db outs, demo_reached = Ret (c, db, outs) /\
  exists outs0, server_reach two_clients demo_reg zero_alloc 1 two_conns demo_events c db (outs0 ++ outs).
Proof.
  destruct demo_start as [[c0 outs0]| |] eqn:E0; [|by vm_compute in E0..].
  assert (E : demo_reached = server_run two_clients demo_reg zero_alloc c0 ∅ demo_events)
    by (unfold demo_reached; by rewrite E0).
  destruct (server_run two_clients demo_reg zero_alloc c0 ∅ demo_events) as [[[c db] outs]| |] eqn:E1;
    [|by vm_compute in E..].
  exists c, db, outs. split; [exact E|]. exists outs0.
  apply (reach_run two_clients demo_reg zero_alloc 1 two_conns [] c0 ∅ outs0 demo_events); [by constructor| |done].
  repeat constructor.
Qed.

Lemma ssp_replies_are_fresh_witness :
  exists c db outs c' db', server_step two_clients demo_reg zero_alloc c db last_event =
      Ret (false, c', db', outs) /\
    exists data, OutRowReply 100 4 8 1 0 data ∈ outs /\ global_min two_conns (clock_count (demo_events ++ [last_event])) 1.
Proof.
  destruct demo_reach as (c & db & outs & E & outs0 & Hr).
  assert (E' : exists c' db' data, server_step two_clients demo_reg zero_alloc c db last_event =
                Ret (false, c', db', [OutRowReply 100 4 8 1 0 data])).
  { vm_compute in E. injection E as <- <- _. vm_compute. by eexists _, _, _. }
  destruct E' as (c' & db' & data & E'). exists c, db, [OutRowReply 100 4 8 1 0 data], c', db'.
  split; [exact E'|]. exists data. split; [by left|].
  apply (ssp_replies_are_fresh two_clients demo_reg zero_alloc 1 two_conns demo_events c db (outs0 ++ outs)
           last_event false c' db' [OutRowReply 100 4 8 1 0 data]) with (b := 100) (t := 4) (r := 8) (v := 0) (data := data).
  - done.
  - apply (bool_decide_unpack _). by vm_compute.
  - done.
  - done.
  - exact Hr.
  - by right; left.
  - exact E'.
  - by left.
Defined.

Lemma requests_answered_exactly_once_witness :
  exists c db outs, server_reach two_clients demo_reg zero_alloc 1 two_conns demo_events c db outs /\
    exists answered, requests_of demo_events ≡ₚ answered ++ pending (server_obj c).
Proof.
  destruct demo_reach as (c & db & outs & _ & outs0 & Hr). exists c, db, (outs0 ++ outs). split; [exact Hr|].
  destruct (requests_answered_exactly_once two_clients demo_reg zero_alloc 1 two_conns demo_events c db (outs0 ++ outs))
    as (answered & Hp & _).
  - done.
  - apply (bool_decide_unpack _). by vm_compute.
  - done.
  - done.
  - exact Hr.
  - exists answered. exact Hp.
Defined.
