(* ===== verification/ClockLRU.v ===== *)
(** * CLOCK replacement

    [MTQueue] ([petuum_ps_common/util/mt_queue.hpp]), the slot locks
    ([striped_lock.hpp], [lock.hpp]) and [ClockLRU]
    ([petuum_ps_common/storage/clock_lru.hpp], [clock_lru.cpp]).  Every
    operation is one step of the thread that runs it; a slot lock that
    [FindOneToEvict] takes stays held until [Evict] or [NoEvict]. *)
From S2P Require Import Prelude Context.
Open Scope Z_scope.

(** ** [MTQueue] *)
Definition MTQueue (T : Type) : Type := list T.
(** [None] is the return value 0. *)
Definition MTQueue_pop {T} (q : MTQueue T) : option T * MTQueue T :=
  match q with [] => (None, []) | x :: q' => (Some x, q') end.
Definition MTQueue_push {T} (x : T) (q : MTQueue T) : MTQueue T := q ++ [x].

(** ** [StripedLock]: the locks of the pool that are held

    [std::hash<int32_t>] converts to [size_t]. *)
Record StripedLock := mkStripedLock { lock_pool_size : Z; held : gset Z }.

Definition lock_idx (idx : Z) (l : StripedLock) : outcome Z :=
  i ← c_rem (u64 idx) (u64 (lock_pool_size l)); Ret (i32 i).

Definition TryLock (idx : Z) (l : StripedLock) : outcome (bool * StripedLock) :=
  i ← lock_idx idx l;
  if bool_decide (i ∈ held l) then Ret (false, l)
  else Ret (true, mkStripedLock (lock_pool_size l) ({[i]} ∪ held l)).

(** A thread that locks what it holds waits for itself: [Undef]. *)
Definition Lock (idx : Z) (l : StripedLock) : outcome StripedLock :=
  '(ok, l') ← TryLock idx l; if (ok : bool) then Ret l' else Undef.

Definition Unlock (idx : Z) (l : StripedLock) : outcome StripedLock :=
  i ← lock_idx idx l; Ret (mkStripedLock (lock_pool_size l) (held l ∖ {[i]})).

(** ** [ClockLRU] *)
Definition MAX_NUM_ROUNDS : Z := 3.

Record ClockLRU := mkClockLRU {
  lru_capacity : Z;
  evict_hand : Z;
  insert_hand : Z;
  empty_slots : MTQueue Z;
  slot_locks : StripedLock;
  stale : list bool;
  row_ids : list Z
}.

Definition ClockLRU_new (capacity pool_size : Z) : ClockLRU :=
  mkClockLRU capacity 0 0 [] (mkStripedLock pool_size ∅)
    (replicate (Z.to_nat capacity) true) (replicate (Z.to_nat capacity) (-1)).

Definition set_hand (h : Z) (c : ClockLRU) : ClockLRU :=
  mkClockLRU (lru_capacity c) h (insert_hand c) (empty_slots c) (slot_locks c) (stale c) (row_ids c).
Definition set_stale (s : list bool) (c : ClockLRU) : ClockLRU :=
  mkClockLRU (lru_capacity c) (evict_hand c) (insert_hand c) (empty_slots c) (slot_locks c) s (row_ids c).
Definition set_locks (l : StripedLock) (c : ClockLRU) : ClockLRU :=
  mkClockLRU (lru_capacity c) (evict_hand c) (insert_hand c) (empty_slots c) l (stale c) (row_ids c).
Definition set_row_ids (r : list Z) (c : ClockLRU) : ClockLRU :=
  mkClockLRU (lru_capacity c) (evict_hand c) (insert_hand c) (empty_slots c) (slot_locks c) (stale c) r.
Definition set_empty (q : MTQueue Z) (h : Z) (c : ClockLRU) : ClockLRU :=
  mkClockLRU (lru_capacity c) (evict_hand c) h q (slot_locks c) (stale c) (row_ids c).

(** [test_and_set]: the old flag. *)
Definition test_and_set (slot : Z) (c : ClockLRU) : outcome (bool * ClockLRU) :=
  old ← vec_at (stale c) slot;
  s ← vec_set (stale c) slot true;
  Ret (old, set_stale s c).

Definition Reference (slot : Z) (c : ClockLRU) : outcome ClockLRU :=
  s ← vec_set (stale c) slot false; Ret (set_stale s c).

(** The loop of [FindOneToEvict], [n] turns left; the row found and its slot,
    whose lock is kept.  Without a result the program aborts. *)
Fixpoint find_evict_loop (n : nat) (c : ClockLRU) : outcome (Z * Z * ClockLRU) :=
  match n with
  | O => CheckFail
  | S n' =>
      slot ← c_rem (evict_hand c) (lru_capacity c);
      let c1 := set_hand (i32 (evict_hand c + 1)) c in
      '(was_stale, c2) ← test_and_set slot c1;
      if negb was_stale then find_evict_loop n' c2
      else
        '(locked, l) ← TryLock slot (slot_locks c2);
        if negb locked then find_evict_loop n' c2
        else
          row_id ← vec_at (row_ids c2) slot;
          if bool_decide (row_id = -1) then find_evict_loop n' c2
          else Ret (row_id, slot, set_locks l c2)
  end.

Definition FindOneToEvict (c : ClockLRU) : outcome (Z * Z * ClockLRU) :=
  find_evict_loop (Z.to_nat (i32 (MAX_NUM_ROUNDS * lru_capacity c))) c.

Definition Evict (slot : Z) (c : ClockLRU) : outcome ClockLRU :=
  r ← vec_set (row_ids c) slot (-1);
  l ← Unlock slot (slot_locks c);
  Ret (set_locks l (set_empty (MTQueue_push slot (empty_slots c)) (insert_hand c) (set_row_ids r c))).

Definition NoEvict (slot : Z) (c : ClockLRU) : outcome ClockLRU :=
  l ← Unlock slot (slot_locks c); Ret (set_locks l c).

(** The slot is returned locked. *)
Definition FindEmptySlot (c : ClockLRU) : outcome (Z * ClockLRU) :=
  let '(popped, q) := MTQueue_pop (empty_slots c) in
  match popped with
  | Some slot =>
      l ← Lock slot (slot_locks c);
      r ← vec_at (row_ids c) slot;
      _ ← CHECK (bool_decide (-1 = r));
      Ret (slot, set_locks l (set_empty q (insert_hand c) c))
  | None =>
      let h := insert_hand c in
      _ ← CHECK (bool_decide (h < lru_capacity c));
      slot ← c_rem h (lru_capacity c);
      l ← Lock slot (slot_locks c);
      r ← vec_at (row_ids c) slot;
      _ ← CHECK (bool_decide (-1 = r));
      Ret (slot, set_locks l (set_empty q (i32 (h + 1)) c))
  end.

(** The unlocker releases the slot at the end. *)
Definition ClockLRU_Insert (row_id : Z) (c : ClockLRU) : outcome (Z * ClockLRU) :=
  '(slot, c1) ← FindEmptySlot c;
  c2 ← Reference slot c1;
  r ← vec_set (row_ids c2) slot row_id;
  l ← Unlock slot (slot_locks c2);
  Ret (slot, set_locks l (set_row_ids r c2)).

Definition HasRow (row_id slot : Z) (c : ClockLRU) : outcome bool :=
  r ← vec_at (row_ids c) slot; Ret (bool_decide (r = row_id)).

(** ** The hand finds a stale slot

    [occupied]: no slot is empty and no slot is locked, as in a full storage
    between two operations. *)
Definition slot_at (c : ClockLRU) (k : Z) : Z := (evict_hand c + k) mod lru_capacity c.

Record lru_wf (c : ClockLRU) : Prop := {
  lw_cap : 0 < lru_capacity c < 2 ^ 29;
  lw_stale : Z.of_nat (length (stale c)) = lru_capacity c;
  lw_rows : Z.of_nat (length (row_ids c)) = lru_capacity c;
  lw_pool : 0 < lock_pool_size (slot_locks c) < 2 ^ 31;
  lw_held : held (slot_locks c) = ∅;
  lw_hand : 0 <= evict_hand c
}.

Definition is_stale (c : ClockLRU) (slot : Z) : bool := default false (stale c !! Z.to_nat slot).
Definition row_of_slot (c : ClockLRU) (slot : Z) : Z := default (-1) (row_ids c !! Z.to_nat slot).

(** The same storage apart from the hand, the flags and the locks. *)
Record lru_same (c c' : ClockLRU) : Prop := {
  ls_cap : lru_capacity c' = lru_capacity c;
  ls_insert : insert_hand c' = insert_hand c;
  ls_empty : empty_slots c' = empty_slots c;
  ls_rows : row_ids c' = row_ids c;
  ls_pool : lock_pool_size (slot_locks c') = lock_pool_size (slot_locks c)
}.

Lemma lock_idx_ok idx l : 0 <= idx < 2 ^ 31 -> 0 < lock_pool_size l < 2 ^ 31 ->
  lock_idx idx l = Ret (idx mod lock_pool_size l).
Proof.
  intros Hi Hp. unfold lock_idx, c_rem. rewrite !u64_id by int_lia.
  rewrite bool_decide_false by lia. cbn [mbind outcome_bind].
  rewrite Z.rem_mod_nonneg by lia. pose proof (Z.mod_pos_bound idx (lock_pool_size l)).
  by rewrite i32_id by int_lia.
Qed.

Lemma slot_in_range c k : lru_wf c -> 0 <= slot_at c k < lru_capacity c.
Proof. intros H. apply Z.mod_pos_bound, H. Qed.

Lemma vec_at_slot {A} (l : list A) slot d : 0 <= slot < Z.of_nat (length l) ->
  vec_at l slot = Ret (default d (l !! Z.to_nat slot)).
Proof.
  intros Hs. apply vec_at_Ret. split; [lia|].
  destruct (lookup_lt_is_Some_2 l (Z.to_nat slot)) as [x E]; [lia|]. by rewrite E.
Qed.

Lemma vec_set_slot {A} (l : list A) slot x : 0 <= slot < Z.of_nat (length l) ->
  vec_set l slot x = Ret (<[Z.to_nat slot := x]> l).
Proof. intros Hs. unfold vec_set. by rewrite bool_decide_true. Qed.

(** One turn over slot [slot_at c 0], with its flag set. *)
Definition turn (c : ClockLRU) : ClockLRU :=
  set_stale (<[Z.to_nat (slot_at c 0) := true]> (stale c)) (set_hand (evict_hand c + 1) c).

Lemma turn_wf c : lru_wf c -> lru_wf (turn c).
Proof.
  intros [H1 H2 H3 H4 H5 H6]. constructor; cbn; try done; [by rewrite length_insert|lia].
Qed.

Lemma turn_slot c k : slot_at (turn c) k = slot_at c (k + 1).
Proof. unfold slot_at, turn. cbn. f_equal. lia. Qed.

Lemma turn_stale c slot : lru_wf c -> 0 <= slot < lru_capacity c ->
  is_stale (turn c) slot = is_stale c slot || bool_decide (slot = slot_at c 0).
Proof.
  intros Hw Hs. pose proof (slot_in_range c 0 Hw) as H0. unfold is_stale, turn. cbn [stale set_stale].
  case_bool_decide as Heq.
  - subst slot. rewrite list_lookup_insert_eq by (pose proof (lw_stale _ Hw); lia). by rewrite orb_true_r.
  - rewrite list_lookup_insert_ne by lia. by rewrite orb_false_r.
Qed.

Lemma find_evict_step n c : lru_wf c -> evict_hand c + 1 < 2 ^ 31 ->
  (forall slot, 0 <= slot < lru_capacity c -> row_of_slot c slot <> -1) ->
  find_evict_loop (S n) c =
    if is_stale c (slot_at c 0)
    then Ret (row_of_slot c (slot_at c 0), slot_at c 0,
              set_locks (mkStripedLock (lock_pool_size (slot_locks c))
                           {[slot_at c 0 mod lock_pool_size (slot_locks c)]}) (turn c))
    else find_evict_loop n (turn c).
Proof.
  intros Hw Hh Hocc. pose proof (slot_in_range c 0 Hw) as Hs. pose proof Hw as [Hcap Hst Hrw Hpool Hheld H0].
  cbn [find_evict_loop]. unfold c_rem. rewrite bool_decide_false by lia. cbn [mbind outcome_bind].
  rewrite Z.rem_mod_nonneg by lia.
  replace (evict_hand c mod lru_capacity c) with (slot_at c 0) by (unfold slot_at; f_equal; lia).
  rewrite i32_id by int_lia. unfold test_and_set. cbn [stale set_hand].
  rewrite (vec_at_slot _ _ false) by lia. cbn [mbind outcome_bind].
  rewrite vec_set_slot by lia. cbn [mbind outcome_bind].
  change (default false (stale c !! Z.to_nat (slot_at c 0))) with (is_stale c (slot_at c 0)).
  change (set_stale _ (set_hand (evict_hand c + 1) c)) with (turn c).
  destruct (is_stale c (slot_at c 0)); cbn [negb]; [|done].
  unfold TryLock. cbn [slot_locks turn set_stale set_hand].
  rewrite lock_idx_ok by (done || int_lia). cbn [mbind outcome_bind].
  rewrite Hheld, bool_decide_false by apply not_elem_of_empty. cbn [mbind outcome_bind negb row_ids turn set_stale set_hand].
  rewrite (vec_at_slot _ _ (-1)) by lia. cbn [mbind outcome_bind].
  change (default (-1) (row_ids c !! Z.to_nat (slot_at c 0))) with (row_of_slot c (slot_at c 0)).
  rewrite bool_decide_false by (by apply Hocc). by rewrite union_empty_r_L.
Qed.

(** The search visits the slots from the hand on, sets their flags, and stops
    at the first one whose flag was set. *)
Record found_at (c : ClockLRU) (k : Z) (r : Z * Z * ClockLRU) : Prop := {
  fa_slot : r.1.2 = slot_at c k;
  fa_row : r.1.1 = row_of_slot c (slot_at c k);
  fa_same : lru_same c r.2;
  fa_hand : evict_hand r.2 = evict_hand c + k + 1;
  fa_lock : held (slot_locks r.2) = {[slot_at c k mod lock_pool_size (slot_locks c)]};
  fa_length : length (stale r.2) = length (stale c);
  fa_stale : forall slot, 0 <= slot < lru_capacity c ->
    is_stale r.2 slot = true <-> is_stale c slot = true \/ exists j, 0 <= j <= k /\ slot = slot_at c j
}.

Lemma slot_at_wrap c k : lru_wf c -> slot_at c (k + lru_capacity c) = slot_at c k.
Proof.
  intros Hw. pose proof (lw_cap _ Hw). unfold slot_at.
  replace (evict_hand c + (k + lru_capacity c)) with (evict_hand c + k + 1 * lru_capacity c) by lia.
  by rewrite Z.mod_add by lia.
Qed.

Lemma turn_first_stale c : lru_wf c -> is_stale (turn c) (slot_at (turn c) (lru_capacity c - 1)) = true.
Proof.
  intros Hw. rewrite turn_slot. replace (lru_capacity c - 1 + 1) with (0 + lru_capacity c) by lia.
  rewrite slot_at_wrap, turn_stale by (done || by apply slot_in_range).
  by rewrite bool_decide_true, orb_true_r.
Qed.

Lemma find_evict_spec n c : lru_wf c -> evict_hand c + Z.of_nat n < 2 ^ 31 ->
  (forall slot, 0 <= slot < lru_capacity c -> row_of_slot c slot <> -1) ->
  (exists k, 0 <= k < Z.of_nat n /\ is_stale c (slot_at c k) = true) \/ lru_capacity c < Z.of_nat n ->
  exists k r, find_evict_loop n c = Ret r /\ found_at c k r /\ 0 <= k <= lru_capacity c /\
    k < Z.of_nat n /\ (forall j, 0 <= j < k -> is_stale c (slot_at c j) = false).
Proof.
  revert c. induction n as [|n IH]; intros c Hw Hh Hocc Hex.
  { exfalso. pose proof (lw_cap _ Hw). destruct Hex as [(k & Hk & _)|?]; lia. }
  rewrite find_evict_step by (done || lia). pose proof (slot_in_range c 0 Hw) as Hs0.
  pose proof (lw_cap _ Hw) as Hcap. destruct (is_stale c (slot_at c 0)) eqn:E0.
  - exists 0. eexists. split; [done|]. split_and!; [|lia|lia|lia|intros j Hj; lia].
    constructor; cbn [fst snd]; try done.
    + cbn. lia.
    + cbn. by rewrite length_insert.
    + intros slot Hslot. unfold is_stale at 1. cbn [stale set_locks].
      change (default false (stale (turn c) !! Z.to_nat slot)) with (is_stale (turn c) slot).
      rewrite turn_stale, orb_true_iff, bool_decide_eq_true by done. split.
      * intros [?| ->]; [by left|]. right. exists 0. split; [lia|done].
      * intros [?|(j & Hj & ->)]; [by left|]. right. f_equal. lia.
  - destruct (IH (turn c)) as (k & r & E & [F1 F2 F3 F4 F5 F6 F7] & Hk & Hkn & Hns).
    + by apply turn_wf.
    + cbn. lia.
    + exact Hocc.
    + destruct Hex as [(k & Hk & Hst)|Hc].
      * left. exists (k - 1). assert (k <> 0) by (intros ->; congruence). split; [lia|].
        rewrite turn_slot. replace (k - 1 + 1) with k by lia.
        rewrite turn_stale by (done || by apply slot_in_range). by rewrite Hst.
      * left. exists (lru_capacity c - 1). split; [lia|]. by apply turn_first_stale.
    + assert (Hkc : k < lru_capacity c).
      { destruct (decide (k < lru_capacity c)); [done|].
        pose proof (turn_first_stale c Hw). rewrite Hns in *; [done|lia]. }
      exists (k + 1), r. split; [exact E|]. change (lru_capacity (turn c)) with (lru_capacity c) in *.
      rewrite turn_slot in F1, F2, F5. split_and!; [|lia|lia|lia|].
      * constructor; try done.
        -- by destruct F3.
        -- rewrite F4. cbn. lia.
        -- rewrite F6. cbn. by rewrite length_insert.
        -- intros slot Hslot. rewrite F7, turn_stale, orb_true_iff, bool_decide_eq_true by done. split.
           ++ intros [[?| ->]|(j & Hj & ->)]; [by left| |].
              ** right. exists 0. split; [lia|done].
              ** right. exists (j + 1). split; [lia|]. by rewrite turn_slot.
           ++ intros [?|(j & Hj & ->)]; [by left; left|].
              destruct (decide (j = 0)) as [->|]; [by left; right|]. right. exists (j - 1).
              split; [lia|]. rewrite turn_slot. f_equal. lia.
      * intros j Hj. destruct (decide (j = 0)) as [->|]; [done|].
        specialize (Hns (j - 1) ltac:(lia)). rewrite turn_slot in Hns.
        replace (j - 1 + 1) with j in Hns by lia.
        rewrite turn_stale in Hns by (done || by apply slot_in_range).
        by apply orb_false_iff in Hns as [? _].
Qed.

(** How many slots the hand passes, at most, before it stops at slot [z]. *)
Definition slot_dist (c : ClockLRU) (z : Z) : Z := (z - evict_hand c) mod lru_capacity c.
Definition slot_potential (c : ClockLRU) (z : Z) : Z :=
  if is_stale c z then slot_dist c z else slot_dist c z + lru_capacity c.

Lemma slot_at_dist c z : lru_wf c -> 0 <= z < lru_capacity c -> slot_at c (slot_dist c z) = z.
Proof.
  intros Hw Hz. unfold slot_at, slot_dist. rewrite Z.add_mod_idemp_r by lia.
  replace (evict_hand c + (z - evict_hand c)) with z by lia. by apply Z.mod_small.
Qed.

Lemma slot_potential_range c z : lru_wf c -> 0 <= slot_potential c z < 2 * lru_capacity c.
Proof.
  intros Hw. pose proof (lw_cap _ Hw). unfold slot_potential.
  pose proof (Z.mod_pos_bound (z - evict_hand c) (lru_capacity c)). unfold slot_dist.
  destruct (is_stale c z); lia.
Qed.

Lemma slot_potential_decreases c k r z : lru_wf c -> found_at c k r -> 0 <= k <= lru_capacity c ->
  (forall j, 0 <= j < k -> is_stale c (slot_at c j) = false) ->
  0 <= z < lru_capacity c -> slot_at c k <> z -> slot_potential r.2 z + (k + 1) <= slot_potential c z.
Proof.
  intros Hw [_ _ [Hcap _ _ _ _] Hh _ _ Hst] Hk Hns Hz Hne.
  pose proof (lw_cap _ Hw) as Hc. pose proof (slot_at_dist c z Hw Hz) as Hd.
  assert (Hdr : 0 <= slot_dist c z < lru_capacity c) by (apply Z.mod_pos_bound; lia).
  assert (Hd' : slot_dist r.2 z = (slot_dist c z - (k + 1)) mod lru_capacity c).
  { unfold slot_dist. rewrite Hcap, Hh, Zminus_mod_idemp_l. f_equal. lia. }
  assert (Hkd : k <> slot_dist c z) by (intros ->; done).
  unfold slot_potential. rewrite Hcap, Hd'.
  destruct (decide (k < slot_dist c z)) as [Hlt|Hge].
  - rewrite Z.mod_small by lia. destruct (is_stale c z) eqn:Ez.
    + replace (is_stale r.2 z) with true by (symmetry; apply Hst; [done|by left]). lia.
    + destruct (is_stale r.2 z); lia.
  - assert (is_stale c z = false) as Ez by (rewrite <- Hd; apply Hns; lia).
    replace (is_stale r.2 z) with true
      by (symmetry; apply Hst; [done|]; right; exists (slot_dist c z); split; [lia|done]).
    assert (k < slot_dist c z + lru_capacity c).
    { destruct (decide (k = slot_dist c z + lru_capacity c)) as [Hw'|]; [|lia].
      by rewrite Hw', slot_at_wrap in Hne. }
    rewrite Ez. rewrite <- (Z.mod_unique (slot_dist c z - (k + 1)) (lru_capacity c) (-1)
      (slot_dist c z - (k + 1) + lru_capacity c)); lia.
Qed.

(** ** Leaving [FindOneToEvict], and inserting *)

(** The state after the lock on a found slot is given back. *)
Definition released (c : ClockLRU) : ClockLRU :=
  set_locks (mkStripedLock (lock_pool_size (slot_locks c)) ∅) c.

Lemma FindOneToEvict_spec c : lru_wf c -> evict_hand c + 3 * lru_capacity c < 2 ^ 31 ->
  (forall slot, 0 <= slot < lru_capacity c -> row_of_slot c slot <> -1) ->
  exists k r, FindOneToEvict c = Ret r /\ found_at c k r /\ 0 <= k <= lru_capacity c /\
    (forall j, 0 <= j < k -> is_stale c (slot_at c j) = false).
Proof.
  intros Hw Hh Hocc. pose proof (lw_cap _ Hw). pose proof (lw_hand _ Hw). unfold FindOneToEvict.
  rewrite i32_id by (unfold MAX_NUM_ROUNDS; int_lia).
  destruct (find_evict_spec (Z.to_nat (MAX_NUM_ROUNDS * lru_capacity c)) c Hw) as (k & r & E & F & Hk & _ & Hns).
  - unfold MAX_NUM_ROUNDS. lia.
  - done.
  - right. unfold MAX_NUM_ROUNDS. lia.
  - eauto 10.
Qed.

Lemma found_released c k r : lru_wf c -> found_at c k r -> 0 <= k -> lru_wf (released r.2).
Proof.
  intros [H1 H2 H3 H4 H5 H6] [_ _ [S1 S2 S3 S4 S5] Hh _ Hl _] Hk.
  constructor; cbn; rewrite ?S1, ?S4, ?S5, ?Hl; [done..|lia].
Qed.

Lemma found_unlock c k r : lru_wf c -> found_at c k r ->
  Unlock (slot_at c k) (slot_locks r.2) = Ret (mkStripedLock (lock_pool_size (slot_locks r.2)) ∅).
Proof.
  intros Hw [_ _ [_ _ _ _ S5] _ Hl _ _]. pose proof (slot_in_range c k Hw). pose proof (lw_cap _ Hw).
  unfold Unlock. rewrite lock_idx_ok by (rewrite ?S5; int_lia || apply Hw). cbn [mbind outcome_bind].
  rewrite Hl, S5. by rewrite difference_diag_L.
Qed.

Lemma found_NoEvict c k r : lru_wf c -> found_at c k r ->
  NoEvict (slot_at c k) r.2 = Ret (released r.2).
Proof. intros Hw Hf. unfold NoEvict. by rewrite (found_unlock c k r). Qed.

Lemma found_Evict c k r : lru_wf c -> found_at c k r ->
  Evict (slot_at c k) r.2 = Ret (set_empty (empty_slots c ++ [slot_at c k]) (insert_hand c)
    (set_row_ids (<[Z.to_nat (slot_at c k) := -1]> (row_ids c)) (released r.2))).
Proof.
  intros Hw Hf. unfold Evict. rewrite (found_unlock c k r) by done.
  destruct Hf as [_ _ [S1 S2 S3 S4 S5] _ _ _ _]. pose proof (slot_in_range c k Hw).
  rewrite S4, vec_set_slot by (pose proof (lw_rows _ Hw); lia). cbn [mbind outcome_bind].
  unfold MTQueue_push, released, set_empty, set_locks, set_row_ids. cbn. by rewrite S2, S3.
Qed.

Lemma lru_wf_rows f c : lru_wf c -> Z.of_nat (length f) = lru_capacity c -> lru_wf (set_row_ids f c).
Proof. by intros [] ?. Qed.

Lemma lru_wf_empty q h c : lru_wf c -> lru_wf (set_empty q h c).
Proof. by intros []. Qed.

Lemma Reference_spec slot c : lru_wf c -> 0 <= slot < lru_capacity c ->
  Reference slot c = Ret (set_stale (<[Z.to_nat slot := false]> (stale c)) c) /\
  lru_wf (set_stale (<[Z.to_nat slot := false]> (stale c)) c).
Proof.
  intros Hw Hs. pose proof (lw_stale _ Hw). unfold Reference. rewrite vec_set_slot by lia.
  split; [done|]. destruct Hw. constructor; cbn; rewrite ?length_insert; done.
Qed.

(** A row is put into slot [slot], taken from the queue or from the slots that
    were never used. *)
Definition lru_put (row_id slot : Z) (q : MTQueue Z) (h : Z) (c : ClockLRU) : ClockLRU :=
  set_row_ids (<[Z.to_nat slot := row_id]> (row_ids c))
    (set_stale (<[Z.to_nat slot := false]> (stale c)) (set_empty q h c)).

Lemma lru_put_wf row_id slot q h c : lru_wf c -> lru_wf (lru_put row_id slot q h c).
Proof. intros []. constructor; cbn; rewrite ?length_insert; done. Qed.

Lemma with_slot_locked row_id slot q h c : lru_wf c -> 0 <= slot < lru_capacity c ->
  row_of_slot c slot = -1 ->
  (l ← Lock slot (slot_locks c);
   r ← vec_at (row_ids c) slot;
   _ ← CHECK (bool_decide (-1 = r));
   Ret (slot, set_locks l (set_empty q h c))) ≫= (fun '(slot, c1) =>
  c2 ← Reference slot c1;
  r ← vec_set (row_ids c2) slot row_id;
  l ← Unlock slot (slot_locks c2);
  Ret (slot, set_locks l (set_row_ids r c2)))
  = Ret (slot, lru_put row_id slot q h c).
Proof.
  intros Hw Hs Hempty. pose proof Hw as [Hcap Hst Hrw Hpool Hheld _].
  unfold Lock, TryLock. rewrite lock_idx_ok by (done || int_lia). cbn [mbind outcome_bind].
  rewrite Hheld, bool_decide_false by apply not_elem_of_empty. cbn [mbind outcome_bind].
  rewrite (vec_at_slot _ _ (-1)) by lia. cbn [mbind outcome_bind].
  change (default (-1) (row_ids c !! Z.to_nat slot)) with (row_of_slot c slot).
  rewrite Hempty. cbn [mbind outcome_bind CHECK]. rewrite bool_decide_true by done. cbn.
  unfold Reference. cbn [stale set_locks set_empty]. rewrite vec_set_slot by lia. cbn [mbind outcome_bind].
  cbn [row_ids set_stale set_locks set_empty slot_locks]. rewrite vec_set_slot by lia. cbn [mbind outcome_bind].
  unfold Unlock. rewrite lock_idx_ok by (done || int_lia). cbn.
  unfold lru_put, set_locks, set_row_ids, set_stale, set_empty. cbn.
  rewrite union_empty_r_L, difference_diag_L. destruct (slot_locks c) as [n h']. cbn in *. by subst h'.
Qed.

Lemma ClockLRU_Insert_queue row_id slot q c : lru_wf c -> empty_slots c = slot :: q ->
  0 <= slot < lru_capacity c -> row_of_slot c slot = -1 ->
  ClockLRU_Insert row_id c = Ret (slot, lru_put row_id slot q (insert_hand c) c).
Proof.
  intros Hw Hq Hs He. unfold ClockLRU_Insert, FindEmptySlot, MTQueue_pop. rewrite Hq.
  by apply with_slot_locked.
Qed.

Lemma ClockLRU_Insert_fresh row_id c : lru_wf c -> empty_slots c = [] ->
  0 <= insert_hand c < lru_capacity c -> row_of_slot c (insert_hand c) = -1 ->
  ClockLRU_Insert row_id c
    = Ret (insert_hand c, lru_put row_id (insert_hand c) [] (insert_hand c + 1) c).
Proof.
  intros Hw Hq Hs He. pose proof (lw_cap _ Hw). unfold ClockLRU_Insert, FindEmptySlot, MTQueue_pop. rewrite Hq.
  rewrite (bool_decide_true (insert_hand c < _)) by lia. cbn [CHECK mbind outcome_bind].
  unfold c_rem. rewrite bool_decide_false by lia. cbn [mbind outcome_bind].
  rewrite Z.rem_small, (i32_id (insert_hand c + 1)) by int_lia. by apply with_slot_locked.
Qed.

(** The hand is an [int32_t] that only grows: once it has overflowed, its slot
    is negative and the flag read is outside the array. *)
Lemma FindOneToEvict_negative_hand c : 0 < lru_capacity c < 2 ^ 29 -> evict_hand c = - 2 ^ 31 ->
  Z.rem (2 ^ 31) (lru_capacity c) <> 0 -> FindOneToEvict c = Undef.
Proof.
  intros Hc Hh Hrem. unfold FindOneToEvict. rewrite i32_id by (unfold MAX_NUM_ROUNDS; int_lia).
  destruct (Z.to_nat (MAX_NUM_ROUNDS * lru_capacity c)) eqn:En; [unfold MAX_NUM_ROUNDS in En; lia|].
  cbn [find_evict_loop]. rewrite Hh. unfold c_rem. rewrite bool_decide_false by lia. cbn [mbind outcome_bind].
  unfold test_and_set, vec_at. rewrite Z.rem_opp_l by lia.
  rewrite bool_decide_false; [done|]. pose proof (Z.rem_bound_pos (2 ^ 31) (lru_capacity c)). lia.
Qed.
