(* ===== verification/ProcessStorage.v ===== *)
(** * The process cache

    [ClientRow] ([petuum_ps_common/client/client_row.hpp]), [SSPClientRow]
    ([petuum_ps/client/ssp_client_row.hpp]), [RowAccessor]
    ([petuum_ps_common/include/row_access.hpp]) and [ProcessStorage]
    ([petuum_ps_common/storage/process_storage.hpp], [process_storage.cpp]).

    An operation is one step; the row locks it takes it releases before it
    ends.  A client row is reached through the map only, so the map holds
    it; a row with references is never freed. *)
From S2P Require Import Prelude Context ClockLRU.
Open Scope Z_scope.

Section STORAGE.
Context {R : Type}.

(** [cr_clock] is [Some] for an [SSPClientRow]. *)
Record ClientRow := mkClientRow { num_refs : Z; cr_data : R; cr_clock : option Z }.

(** [CreateClientRow] and [CreateSSPClientRow] of the background threads. *)
Definition ClientRow_new (clock : Z) (r : R) : ClientRow := mkClientRow 0 r None.
Definition SSPClientRow_new (clock : Z) (r : R) : ClientRow := mkClientRow 0 r (Some clock).

Definition GetClock (c : ClientRow) : Z := default (-1) (cr_clock c).
Definition SetClock (clock : Z) (c : ClientRow) : ClientRow :=
  match cr_clock c with
  | Some _ => mkClientRow (num_refs c) (cr_data c) (Some clock)
  | None => c
  end.

(** An [SSPClientRow] takes the clock of another one; the cast of a plain
    [ClientRow] is null. *)
Definition SwapAndDestroy (other c : ClientRow) : outcome ClientRow :=
  match cr_clock c with
  | None => Ret (mkClientRow (num_refs c) (cr_data other) None)
  | Some _ => k ← deref (cr_clock other); Ret (mkClientRow (num_refs c) (cr_data other) (Some k))
  end.

Definition HasZeroRef (c : ClientRow) : bool := bool_decide (num_refs c = 0).
Definition IncRef (c : ClientRow) : ClientRow :=
  mkClientRow (i32 (num_refs c + 1)) (cr_data c) (cr_clock c).
Definition DecRef (c : ClientRow) : ClientRow :=
  mkClientRow (i32 (num_refs c - 1)) (cr_data c) (cr_clock c).

Record ProcessStorage := mkProcessStorage {
  ps_capacity : Z;
  num_rows : Z;
  storage_map : gmap Z (ClientRow * Z);
  clock_lru : ClockLRU
}.

Definition ProcessStorage_new (capacity lock_pool_size : Z) : ProcessStorage :=
  mkProcessStorage capacity 0 ∅ (ClockLRU_new capacity lock_pool_size).

Definition with_map (m : gmap Z (ClientRow * Z)) (c : ClockLRU) (ps : ProcessStorage) : ProcessStorage :=
  mkProcessStorage (ps_capacity ps) (num_rows ps) m c.
Definition with_num (n : Z) (ps : ProcessStorage) : ProcessStorage :=
  mkProcessStorage (ps_capacity ps) n (storage_map ps) (clock_lru ps).

(** [Find] with an accessor: the row the accessor then refers to. *)
Definition Find (row_id : Z) (ps : ProcessStorage) : outcome (option ClientRow * ProcessStorage) :=
  match storage_map ps !! row_id with
  | None => Ret (None, ps)
  | Some (row, slot) =>
      let row' := IncRef row in
      c ← Reference slot (clock_lru ps);
      Ret (Some row', with_map (<[row_id := (row', slot)]> (storage_map ps)) c ps)
  end.

Definition Find_exists (row_id : Z) (ps : ProcessStorage) : bool :=
  bool_decide (is_Some (storage_map ps !! row_id)).

(** The destructor of an accessor to the row. *)
Definition ReleaseAccessor (row_id : Z) (ps : ProcessStorage) : outcome ProcessStorage :=
  '(row, slot) ← deref (storage_map ps !! row_id);
  Ret (with_map (<[row_id := (DecRef row, slot)]> (storage_map ps)) (clock_lru ps) ps).

(** [SetClientRow] if an accessor was passed. *)
Definition access (acc : bool) (row : ClientRow) : ClientRow := if acc then IncRef row else row.

Definition FindAndUpdate (acc : bool) (row_id : Z) (client_row : ClientRow) (ps : ProcessStorage)
    : outcome (option ProcessStorage) :=
  match storage_map ps !! row_id with
  | None => Ret None
  | Some (row, slot) =>
      row' ← SwapAndDestroy client_row row;
      c ← Reference slot (clock_lru ps);
      Ret (Some (with_map (<[row_id := (access acc row', slot)]> (storage_map ps)) c ps))
  end.

(** The [while (true)] loop that evicts one row; it ends as soon as a
    candidate has no references, [Undef] without fuel. *)
Fixpoint evict_loop (fuel : nat) (ps : ProcessStorage) : outcome (Z * ClientRow * ProcessStorage) :=
  '(candidate, _, c) ← FindOneToEvict (clock_lru ps);
  '(row, slot) ← checked (storage_map ps !! candidate);
  if HasZeroRef row then
    c' ← Evict slot c;
    Ret (candidate, row, with_map (delete candidate (storage_map ps)) c' ps)
  else
    c' ← NoEvict slot c;
    match fuel with
    | O => Undef
    | S fuel' => evict_loop fuel' (with_map (storage_map ps) c' ps)
    end.

(** In two rounds of the hand every row is a candidate. *)
Definition evict_fuel (ps : ProcessStorage) : nat := Z.to_nat (2 * ps_capacity ps).

(** [Insert]: whether the row is new, the row evicted for it, the storage.
    [acc] tells whether an accessor is passed. *)
Definition Insert (acc : bool) (row_id : Z) (client_row : ClientRow) (ps : ProcessStorage)
    : outcome (bool * option (Z * ClientRow) * ProcessStorage) :=
  updated ← FindAndUpdate acc row_id client_row ps;
  match updated with
  | Some ps' => Ret (false, None, ps')
  | None =>
      let ps1 := with_num (i32 (num_rows ps + 1)) ps in
      '(evicted, ps2) ←
        (if bool_decide (i32 (ps_capacity ps1 - num_rows ps1) < 0) then
           let ps1' := with_num (i32 (num_rows ps1 - 1)) ps1 in
           '(id, row, ps') ← evict_loop (evict_fuel ps1') ps1'; Ret (Some (id, row), ps')
         else Ret (None, ps1));
      updated' ← FindAndUpdate acc row_id client_row ps2;
      match updated' with
      | Some ps' => Ret (false, evicted, with_num (i32 (num_rows ps' - 1)) ps')
      | None =>
          '(slot, c) ← ClockLRU_Insert row_id (clock_lru ps2);
          Ret (true, evicted,
               with_map (<[row_id := (access acc client_row, slot)]> (storage_map ps2)) c ps2)
      end
  end.
(** ** The storage between two operations

    Every row of the map has a slot of its own, which names it; the other
    slots are in the queue or were never used.  [extra] rows are counted but
    not in the map. *)
Record ps_shape (extra : Z) (ps : ProcessStorage) : Prop := {
  po_lru : lru_wf (clock_lru ps);
  po_cap : lru_capacity (clock_lru ps) = ps_capacity ps;
  po_num : num_rows ps = Z.of_nat (size (storage_map ps)) + extra;
  po_map : forall id row slot, storage_map ps !! id = Some (row, slot) ->
    0 <= id /\ 0 <= slot < ps_capacity ps /\ row_of_slot (clock_lru ps) slot = id;
  po_slot : forall slot, 0 <= slot < ps_capacity ps -> row_of_slot (clock_lru ps) slot <> -1 ->
    exists row, storage_map ps !! row_of_slot (clock_lru ps) slot = Some (row, slot);
  po_hand : 0 <= insert_hand (clock_lru ps) <= ps_capacity ps;
  po_fresh : forall slot, insert_hand (clock_lru ps) <= slot < ps_capacity ps ->
    row_of_slot (clock_lru ps) slot = -1;
  po_queue : forall slot, slot ∈ empty_slots (clock_lru ps) <->
    0 <= slot < insert_hand (clock_lru ps) /\ row_of_slot (clock_lru ps) slot = -1;
  po_nodup : NoDup (empty_slots (clock_lru ps));
  po_count : Z.of_nat (size (storage_map ps)) + Z.of_nat (length (empty_slots (clock_lru ps)))
             = insert_hand (clock_lru ps)
}.

Definition ps_ok (ps : ProcessStorage) : Prop := ps_shape 0 ps.

Lemma ps_shape_frame extra ps c' : ps_shape extra ps -> lru_same (clock_lru ps) c' -> lru_wf c' ->
  ps_shape extra (with_map (storage_map ps) c' ps).
Proof.
  intros [H1 H2 H3 H4 H5 H6 H7 H8 H9 H10] [S1 S2 S3 S4 S5] Hw.
  constructor; cbn; unfold row_of_slot in *; rewrite ?S1, ?S2, ?S3, ?S4; done.
Qed.

(** A row that changes in its slot. *)
Lemma ps_shape_update extra ps id row slot row' : ps_shape extra ps ->
  storage_map ps !! id = Some (row, slot) ->
  ps_shape extra (with_map (<[id := (row', slot)]> (storage_map ps)) (clock_lru ps) ps).
Proof.
  intros [H1 H2 H3 H4 H5 H6 H7 H8 H9 H10] Hid.
  assert (Hsz : size (<[id := (row', slot)]> (storage_map ps)) = size (storage_map ps))
    by (by rewrite map_size_insert, Hid).
  constructor; cbn; rewrite ?Hsz; try done.
  - intros id' r' s' [[<- [= <- <-]]|[_ Hl]]%lookup_insert_Some; [by apply (H4 _ row)|by apply (H4 _ r')].
  - intros s Hs Hr. destruct (H5 s Hs Hr) as [r' Hr'].
    destruct (decide (id = row_of_slot (clock_lru ps) s)) as [->|Hne].
    + rewrite Hid in Hr'. injection Hr' as <- <-. exists row'. by rewrite lookup_insert_eq.
    + exists r'. by rewrite lookup_insert_ne.
Qed.

(** When the storage is full every slot names a row. *)
Lemma ps_full_occupied extra ps : ps_shape extra ps ->
  Z.of_nat (size (storage_map ps)) = ps_capacity ps ->
  forall slot, 0 <= slot < ps_capacity ps -> row_of_slot (clock_lru ps) slot <> -1.
Proof.
  intros [H1 H2 H3 H4 H5 H6 H7 H8 H9 H10] Hfull slot Hslot Hr.
  assert (Hq : slot ∈ empty_slots (clock_lru ps)) by (apply H8; split; [lia|done]).
  destruct (empty_slots (clock_lru ps)); [by apply elem_of_nil in Hq|]. simpl in H10. lia.
Qed.

Lemma row_of_slot_insert c c' s id slot : lru_wf c -> 0 <= s < lru_capacity c -> 0 <= slot ->
  row_ids c' = <[Z.to_nat s := id]> (row_ids c) ->
  row_of_slot c' slot = if bool_decide (slot = s) then id else row_of_slot c slot.
Proof.
  intros Hw Hs Hslot Hr. pose proof (lw_rows _ Hw). unfold row_of_slot. rewrite Hr. case_bool_decide.
  - subst. by rewrite list_lookup_insert_eq by lia.
  - by rewrite list_lookup_insert_ne by lia.
Qed.

(** A row is evicted from a full storage. *)
Lemma ps_shape_evict ps c' id row slot : ps_shape 0 ps ->
  storage_map ps !! id = Some (row, slot) -> lru_wf c' ->
  lru_capacity c' = lru_capacity (clock_lru ps) -> insert_hand c' = insert_hand (clock_lru ps) ->
  empty_slots c' = empty_slots (clock_lru ps) ++ [slot] ->
  row_ids c' = <[Z.to_nat slot := -1]> (row_ids (clock_lru ps)) ->
  ps_shape 1 (with_map (delete id (storage_map ps)) c' ps).
Proof.
  intros [H1 H2 H3 H4 H5 H6 H7 H8 H9 H10] Hid Hw Ec Eh Ee Er.
  pose proof (H4 _ _ _ Hid) as (Hid0 & Hs & Hrs).
  assert (Hrow : forall s, 0 <= s -> row_of_slot c' s = if bool_decide (s = slot) then -1 else row_of_slot (clock_lru ps) s)
    by (intros s Hs'; apply (row_of_slot_insert (clock_lru ps)); done || lia).
  assert (Hlt : slot < insert_hand (clock_lru ps)).
  { destruct (decide (slot < insert_hand (clock_lru ps))); [done|]. rewrite H7 in Hrs by lia. lia. }
  assert (Hnq : slot ∉ empty_slots (clock_lru ps)) by (rewrite H8; lia).
  assert (Hsz : size (storage_map ps) = S (size (delete id (storage_map ps)))).
  { rewrite map_size_delete, Hid. destruct (size (storage_map ps)) eqn:E; [|done].
    apply map_size_empty_inv in E. by rewrite E, lookup_empty in Hid. }
  constructor; cbn; rewrite ?Ec, ?Eh; try done.
  - lia.
  - intros id' r' s' [Hne Hl]%lookup_delete_Some. destruct (H4 _ _ _ Hl) as (Ha & Hb & Hc).
    split_and!; [lia..|]. rewrite Hrow by lia. rewrite bool_decide_false; [done|]. intros ->. congruence.
  - intros s Hs'. rewrite Hrow by lia. case_bool_decide as Hd; [done|]. intros Hr.
    destruct (H5 s Hs' Hr) as [r' Hr']. exists r'. rewrite lookup_delete_ne; [done|].
    intros ->. rewrite Hid in Hr'. congruence.
  - intros s Hs'. rewrite Hrow by lia. case_bool_decide; [done|]. apply H7. lia.
  - intros s. rewrite Ee, elem_of_app, list_elem_of_singleton. split.
    + intros [[Ha Hb]%H8| ->]; rewrite Hrow by lia; case_bool_decide; split; try done; lia.
    + intros [Ha Hb]. rewrite Hrow in Hb by lia. case_bool_decide; [by right|]. left. by apply H8.
  - rewrite Ee. apply NoDup_app. split_and!; [done| |apply NoDup_singleton].
    intros x Hx ->%list_elem_of_singleton. done.
  - rewrite Ee, length_app. simpl. lia.
Qed.

(** A row that was counted is put into a free slot. *)
Lemma ps_shape_put ps id row slot q h : ps_shape 1 ps -> storage_map ps !! id = None -> 0 <= id ->
  0 <= slot < ps_capacity ps -> row_of_slot (clock_lru ps) slot = -1 ->
  insert_hand (clock_lru ps) <= h <= ps_capacity ps ->
  (forall s, s ∈ q \/ s = slot <-> s ∈ empty_slots (clock_lru ps) \/ insert_hand (clock_lru ps) <= s < h) ->
  NoDup (slot :: q) ->
  Z.of_nat (S (length q)) = Z.of_nat (length (empty_slots (clock_lru ps))) + (h - insert_hand (clock_lru ps)) ->
  ps_shape 0 (with_map (<[id := (row, slot)]> (storage_map ps)) (lru_put id slot q h (clock_lru ps)) ps).
Proof.
  intros [H1 H2 H3 H4 H5 H6 H7 H8 H9 H10] Hid Hid0 Hs Hemp Hh Hq Hnd Hlen.
  apply NoDup_cons in Hnd as [Hnq Hnd].
  assert (Hrow : forall s, 0 <= s -> row_of_slot (lru_put id slot q h (clock_lru ps)) s
      = if bool_decide (s = slot) then id else row_of_slot (clock_lru ps) s)
    by (intros s Hs'; apply (row_of_slot_insert (clock_lru ps)); done || lia).
  assert (Hsz : size (<[id := (row, slot)]> (storage_map ps)) = S (size (storage_map ps)))
    by (by rewrite map_size_insert, Hid).
  constructor; cbn [clock_lru with_map storage_map num_rows ps_capacity]; try done.
  - by apply lru_put_wf.
  - lia.
  - intros id' r' s' [[<- [= <- <-]]|[Hne Hl]]%lookup_insert_Some.
    + rewrite Hrow by lia. by rewrite bool_decide_true.
    + destruct (H4 _ _ _ Hl) as (Ha & Hb & Hc). rewrite Hrow by lia.
      rewrite bool_decide_false; [done|]. intros ->. lia.
  - intros s Hs'. rewrite Hrow by lia. case_bool_decide as Hd.
    + subst. intros _. exists row. by rewrite lookup_insert_eq.
    + intros Hr. destruct (H5 s Hs' Hr) as [r' Hr']. exists r'. rewrite lookup_insert_ne; [done|].
      intros ->. by rewrite Hr' in Hid.
  - cbn. lia.
  - intros s Hs'. cbn in Hs'. rewrite Hrow by lia. rewrite bool_decide_false; [apply H7; lia|].
    intros ->. destruct (Hq slot) as [Ha _]. destruct Ha as [Ha|Ha]; [by right| |lia].
    apply H8 in Ha. lia.
  - intros s. cbn. split.
    + intros Hs'. assert (s <> slot) by (by intros ->). destruct (Hq s) as [Ha _].
      destruct Ha as [[Hb Hc]%H8|Ha]; [by left| |]; rewrite Hrow, bool_decide_false by (done || lia).
      * split; [lia|done].
      * split; [lia|]. apply H7. lia.
    + intros [Ha Hb]. rewrite Hrow in Hb by lia. case_bool_decide as Hd; [lia|].
      destruct (Hq s) as [_ Hc]. destruct Hc as [Hc|Hc]; [|done|done].
      destruct (decide (s < insert_hand (clock_lru ps))); [left|right; lia]. apply H8. split; [lia|done].
  - cbn. lia.
Qed.

Lemma ClockLRU_Insert_ok ps id row : ps_shape 1 ps -> storage_map ps !! id = None -> 0 <= id ->
  Z.of_nat (size (storage_map ps)) < ps_capacity ps ->
  exists slot c, ClockLRU_Insert id (clock_lru ps) = Ret (slot, c) /\
    evict_hand c = evict_hand (clock_lru ps) /\
    ps_shape 0 (with_map (<[id := (row, slot)]> (storage_map ps)) c ps).
Proof.
  intros Hsh Hid Hid0 Hlt. pose proof Hsh as [H1 H2 H3 H4 H5 H6 H7 H8 H9 H10].
  destruct (empty_slots (clock_lru ps)) as [|slot q] eqn:Eq.
  - assert (row_of_slot (clock_lru ps) (insert_hand (clock_lru ps)) = -1) by (apply H7; simpl in *; lia).
    simpl in *. rewrite ClockLRU_Insert_fresh by (done || lia). eexists _, _. split; [done|]. split; [done|].
    apply ps_shape_put; try done; rewrite ?Eq; try lia.
    + intros s. rewrite ?Eq, ?elem_of_nil. split; [intros [[]| ->]; right; lia|intros [[]|?]; right; lia].
    + apply NoDup_singleton.
  - assert (Hs : 0 <= slot < insert_hand (clock_lru ps) /\ row_of_slot (clock_lru ps) slot = -1)
      by (apply H8; by left). destruct Hs as [Hs Hr].
    rewrite (ClockLRU_Insert_queue _ slot q) by (done || lia). eexists _, _. split; [done|]. split; [done|].
    apply ps_shape_put; try done; rewrite ?Eq; try lia.
    + intros s. rewrite elem_of_cons. split; [tauto|]. intros [?|?]; [tauto|lia].
    + simpl. lia.
Qed.

(** ** Eviction and insertion *)

(** One turn of the eviction loop over the slot [slot_at _ k]. *)
Lemma evict_loop_step fuel ps : ps_shape 0 ps -> Z.of_nat (size (storage_map ps)) = ps_capacity ps ->
  evict_hand (clock_lru ps) + 3 * ps_capacity ps < 2 ^ 31 ->
  exists k r row, found_at (clock_lru ps) k r /\ 0 <= k <= ps_capacity ps /\
    (forall j, 0 <= j < k -> is_stale (clock_lru ps) (slot_at (clock_lru ps) j) = false) /\
    storage_map ps !! r.1.1 = Some (row, slot_at (clock_lru ps) k) /\
    evict_loop fuel ps =
      if HasZeroRef row then
        c' ← Evict (slot_at (clock_lru ps) k) r.2;
        Ret (r.1.1, row, with_map (delete r.1.1 (storage_map ps)) c' ps)
      else match fuel with
           | O => Undef
           | S fuel' => evict_loop fuel' (with_map (storage_map ps) (released r.2) ps)
           end.
Proof.
  intros Hsh Hfull Hh. pose proof Hsh as [H1 H2 H3 H4 H5 H6 H7 H8 H9 H10].
  destruct (FindOneToEvict_spec (clock_lru ps) H1) as (k & r & E & F & Hk & Hns).
  - by rewrite H2.
  - rewrite H2. by apply (ps_full_occupied 0).
  - pose proof (slot_in_range (clock_lru ps) k H1) as Hs. rewrite H2 in Hs.
    destruct (H5 _ Hs) as [row Hrow].
    { by apply (ps_full_occupied 0 ps). }
    exists k, r, row. destruct r as [[id s] c]. cbn [fst snd].
    pose proof (fa_row _ _ _ F) as Hr. pose proof (fa_slot _ _ _ F) as Hsl. cbn in Hr, Hsl. subst id.
    pose proof (found_NoEvict _ _ _ H1 F) as En. cbn [snd] in En |- *.
    split; [exact F|]. split_and!; [lia|lia|done|done|]. destruct fuel; cbn [evict_loop]; rewrite E;
      cbn [mbind outcome_bind]; rewrite Hrow; cbn [checked mbind outcome_bind];
      destruct (HasZeroRef row); try done; by rewrite En.
Qed.

Record evicted_from (ps : ProcessStorage) (bound : Z) (id : Z) (row : ClientRow) (ps' : ProcessStorage) : Prop := {
  ev_row : exists slot, storage_map ps !! id = Some (row, slot);
  ev_refs : num_refs row = 0;
  ev_map : storage_map ps' = delete id (storage_map ps);
  ev_shape : ps_shape 1 ps';
  ev_cap : ps_capacity ps' = ps_capacity ps;
  ev_hand : evict_hand (clock_lru ps') <= bound
}.

(** The loop ends as soon as it reaches a slot whose row has no references. *)
Lemma evict_loop_ok fuel ps zid zrow z : ps_shape 0 ps ->
  Z.of_nat (size (storage_map ps)) = ps_capacity ps ->
  storage_map ps !! zid = Some (zrow, z) -> num_refs zrow = 0 ->
  slot_potential (clock_lru ps) z <= Z.of_nat fuel ->
  evict_hand (clock_lru ps) + slot_potential (clock_lru ps) z + 3 * ps_capacity ps < 2 ^ 31 ->
  exists id row ps', evict_loop fuel ps = Ret (id, row, ps') /\
    evicted_from ps (evict_hand (clock_lru ps) + slot_potential (clock_lru ps) z + ps_capacity ps + 1) id row ps'.
Proof.
  revert ps. induction fuel as [|fuel IH]; intros ps Hsh Hfull Hz Hzr Hpot Hh.
  all: pose proof (po_lru _ _ Hsh) as H1; pose proof (po_cap _ _ Hsh) as H2.
  all: pose proof (slot_potential_range (clock_lru ps) z H1) as Hpr.
  all: destruct (po_map _ _ Hsh _ _ _ Hz) as (_ & Hzs & Hzrow).
  all: lazymatch goal with |- context [evict_loop ?n ?p] =>
      destruct (evict_loop_step n p Hsh Hfull ltac:(lia))
        as (k & r & row & F & Hk & Hns & Hrow & E); rewrite E; clear E end.
  all: destruct (HasZeroRef row) eqn:Eref.
  1, 3: rewrite (found_Evict _ _ _ H1 F); cbn [mbind outcome_bind];
    eexists _, _, _; split; [done|]; constructor; cbn; try done;
    [by eexists|by apply bool_decide_eq_true in Eref| |rewrite (fa_hand _ _ _ F); lia];
    pose proof (fa_same _ _ _ F) as [S1 S2 S3 S4 S5]; apply (ps_shape_evict ps _ _ row (slot_at (clock_lru ps) k));
    [done|done| |done..]; apply lru_wf_empty, lru_wf_rows;
    [apply (found_released (clock_lru ps) k); done || lia
    |cbn; rewrite length_insert, S1; apply H1].
  all: assert (Hne : slot_at (clock_lru ps) k <> z) by
    (intros Heq; rewrite (fa_row _ _ _ F), Heq, Hzrow, Hz in Hrow; injection Hrow as <-;
     unfold HasZeroRef in Eref; by rewrite Hzr in Eref).
  all: pose proof (slot_potential_decreases (clock_lru ps) k r z H1 F ltac:(lia) Hns ltac:(lia) Hne) as Hdec.
  all: pose proof (found_released (clock_lru ps) k r H1 F ltac:(lia)) as Hrw.
  all: pose proof (fa_same _ _ _ F) as Hsame.
  all: assert (Hp' : slot_potential (released r.2) z = slot_potential r.2 z) by done.
  all: pose proof (slot_potential_range _ z Hrw) as Hpr'.
  - lia.
  - destruct (IH (with_map (storage_map ps) (released r.2) ps)) as (id & row' & ps' & E & [Ha Hb Hc Hd He Hf]).
    + apply ps_shape_frame; [done| |done]. by destruct Hsame.
    + done.
    + done.
    + done.
    + cbn [clock_lru with_map]. lia.
    + cbn [clock_lru with_map ps_capacity]. change (evict_hand (released r.2)) with (evict_hand r.2).
      rewrite (fa_hand _ _ _ F). lia.
    + exists id, row', ps'. split; [exact E|]. constructor; try done. etrans; [exact Hf|].
      cbn [clock_lru with_map ps_capacity]. change (evict_hand (released r.2)) with (evict_hand r.2).
      rewrite (fa_hand _ _ _ F). lia.
Qed.

(** What [FindAndUpdate] leaves of the two rows. *)
Definition updated_row (other c : ClientRow) : ClientRow :=
  mkClientRow (num_refs c) (cr_data other) (match cr_clock c with None => None | Some _ => cr_clock other end).

(** Rows of one storage come from one [CreateClientRow]. *)
Definition same_kind (other c : ClientRow) : Prop := is_Some (cr_clock c) -> is_Some (cr_clock other).

Lemma FindAndUpdate_ok acc extra ps id row slot cr : ps_shape extra ps ->
  storage_map ps !! id = Some (row, slot) -> same_kind cr row ->
  exists c, FindAndUpdate acc id cr ps =
      Ret (Some (with_map (<[id := (access acc (updated_row cr row), slot)]> (storage_map ps)) c ps)) /\
    evict_hand c = evict_hand (clock_lru ps) /\
    ps_shape extra (with_map (<[id := (access acc (updated_row cr row), slot)]> (storage_map ps)) c ps).
Proof.
  intros Hsh Hid Hk. destruct (po_map _ _ Hsh _ _ _ Hid) as (_ & Hs & _).
  destruct (Reference_spec slot (clock_lru ps) (po_lru _ _ Hsh)) as [Er Hw]; [by rewrite (po_cap _ _ Hsh)|].
  assert (Eswap : SwapAndDestroy cr row = Ret (updated_row cr row)).
  { unfold SwapAndDestroy, updated_row. destruct (cr_clock row) eqn:Ec; [|done].
    destruct Hk as [k Ek]; [by rewrite Ec|]. by rewrite Ek. }
  eexists. unfold FindAndUpdate. rewrite Hid, Eswap. cbn [mbind outcome_bind]. rewrite Er. split; [done|].
  split; [done|]. apply (ps_shape_update extra (with_map (storage_map ps) _ ps) id row slot); [|done].
  by apply ps_shape_frame.
Qed.

Lemma FindAndUpdate_absent acc ps id cr : storage_map ps !! id = None -> FindAndUpdate acc id cr ps = Ret None.
Proof. intros Hid. unfold FindAndUpdate. by rewrite Hid. Qed.

Record inserted (acc : bool) (ps : ProcessStorage) (row_id : Z) (cr : ClientRow)
    (evicted : option (Z * ClientRow)) (ps' : ProcessStorage) : Prop := {
  in_ok : ps_ok ps';
  in_cap : ps_capacity ps' = ps_capacity ps;
  in_row : exists slot, storage_map ps' !! row_id = Some (access acc
    match storage_map ps !! row_id with Some (row, _) => updated_row cr row | None => cr end, slot);
  in_evicted : forall id row, evicted = Some (id, row) ->
    id <> row_id /\ (exists slot, storage_map ps !! id = Some (row, slot)) /\ num_refs row = 0 /\
    storage_map ps' !! id = None;
  in_others : forall id, id <> row_id -> fst <$> evicted <> Some id ->
    storage_map ps' !! id = storage_map ps !! id;
  in_hand : evict_hand (clock_lru ps') <= evict_hand (clock_lru ps) + 3 * ps_capacity ps
}.

Lemma Insert_room acc ps id cr : ps_ok ps -> storage_map ps !! id = None -> 0 <= id ->
  Z.of_nat (size (storage_map ps)) < ps_capacity ps ->
  exists ps', Insert acc id cr ps = Ret (true, None, ps') /\ inserted acc ps id cr None ps'.
Proof.
  intros Hok Hid Hid0 Hlt. pose proof (po_num _ _ Hok) as Hn. pose proof (po_cap _ _ Hok) as Hc.
  pose proof (lw_cap _ (po_lru _ _ Hok)) as Hcap.
  unfold Insert. rewrite FindAndUpdate_absent by done. cbn [mbind outcome_bind].
  cbn [ps_capacity with_num num_rows]. rewrite (i32_id (num_rows ps + 1)) by int_lia.
  rewrite bool_decide_false by (rewrite i32_id by int_lia; lia). cbn [mbind outcome_bind].
  rewrite FindAndUpdate_absent by done. cbn [mbind outcome_bind].
  assert (Hsh : ps_shape 1 (with_num (num_rows ps + 1) ps)) by (destruct Hok; constructor; cbn; done || lia).
  destruct (ClockLRU_Insert_ok _ id (access acc cr) Hsh Hid Hid0 Hlt) as (slot & c & E & Eh & Hsh').
  cbn [clock_lru with_num] in E. cbn [clock_lru with_num]. rewrite E. cbn [mbind outcome_bind].
  eexists. split; [done|]. constructor; cbn; try done.
  - rewrite Hid. exists slot. by rewrite lookup_insert_eq.
  - intros id' Hne _. by rewrite lookup_insert_ne.
  - cbn in Eh. lia.
Qed.

Lemma ProcessStorage_new_ok capacity pool : 0 < capacity < 2 ^ 29 -> 0 < pool < 2 ^ 31 ->
  ps_ok (ProcessStorage_new capacity pool).
Proof.
  intros Hc Hp. assert (Hrow : forall slot, row_of_slot (ClockLRU_new capacity pool) slot = -1).
  { intros slot. unfold row_of_slot. cbn. by destruct (replicate _ _ !! _) eqn:E; [apply lookup_replicate in E as [-> _]|]. }
  constructor; cbn; try done; try lia.
  - constructor; cbn; rewrite ?length_replicate; try done; lia.
  - intros slot _ Hr. by rewrite Hrow in Hr.
  - intros slot. rewrite elem_of_nil. lia.
  - constructor.
Qed.

Lemma Insert_full acc ps id cr zid zrow z : ps_ok ps -> storage_map ps !! id = None -> 0 <= id ->
  Z.of_nat (size (storage_map ps)) = ps_capacity ps ->
  storage_map ps !! zid = Some (zrow, z) -> num_refs zrow = 0 ->
  evict_hand (clock_lru ps) + 5 * ps_capacity ps < 2 ^ 31 ->
  exists eid erow ps', Insert acc id cr ps = Ret (true, Some (eid, erow), ps') /\
    inserted acc ps id cr (Some (eid, erow)) ps'.
Proof.
  intros Hok Hid Hid0 Hfull Hz Hzr Hh. pose proof (po_num _ _ Hok) as Hn. pose proof (po_cap _ _ Hok) as Hc.
  pose proof (po_lru _ _ Hok) as Hw. pose proof (lw_cap _ Hw) as Hcap.
  pose proof (slot_potential_range _ z Hw) as Hpot. rewrite Hc in Hpot.
  unfold Insert. rewrite FindAndUpdate_absent by done. cbn [mbind outcome_bind].
  cbn [ps_capacity with_num num_rows]. rewrite (i32_id (num_rows ps + 1)) by int_lia.
  rewrite bool_decide_true by (rewrite i32_id by int_lia; lia).
  replace (num_rows ps + 1 - 1) with (num_rows ps) by lia. rewrite (i32_id (num_rows ps)) by int_lia.
  replace (with_num (num_rows ps) (with_num (num_rows ps + 1) ps)) with ps by (by destruct ps).
  destruct (evict_loop_ok (evict_fuel ps) ps zid zrow z) as (eid & erow & ps2 & E & [[es He] Her Hm Hsh Hc2 Hh2]);
    [done|done|done|done|unfold evict_fuel; lia|lia|].
  rewrite E. cbn [mbind outcome_bind].
  assert (Hne : eid <> id) by (intros ->; by rewrite Hid in He).
  assert (Hid2 : storage_map ps2 !! id = None) by (rewrite Hm, lookup_delete_ne; done).
  assert (Hsz : S (size (storage_map ps2)) = size (storage_map ps)).
  { rewrite Hm, map_size_delete, He. assert (size (storage_map ps) <> 0)%nat by lia. lia. }
  rewrite FindAndUpdate_absent by done. cbn [mbind outcome_bind].
  destruct (ClockLRU_Insert_ok ps2 id (access acc cr) Hsh Hid2 Hid0 ltac:(lia)) as (slot & c & E3 & Eh & Hsh').
  rewrite E3. cbn [mbind outcome_bind]. eexists _, _, _. split; [done|]. constructor; cbn; try done.
  - rewrite Hid. exists slot. by rewrite lookup_insert_eq.
  - intros id' row' [= <- <-]. split_and!; [done|by eexists|done|].
    rewrite lookup_insert_ne, Hm by done. by rewrite lookup_delete_eq.
  - intros id' Hne' Hne2. rewrite lookup_insert_ne, Hm by done. rewrite lookup_delete_ne; [done|]. congruence.
  - lia.
Qed.
End STORAGE.
Arguments ClientRow : clear implicits.
Arguments ProcessStorage : clear implicits.

Lemma Insert_total {R} (acc : bool) (ps : ProcessStorage R) (row_id : Z) (cr : ClientRow R) :
  ps_ok ps -> 0 <= row_id -> evict_hand (clock_lru ps) + 5 * ps_capacity ps < 2 ^ 31 ->
  (forall row slot, storage_map ps !! row_id = Some (row, slot) -> same_kind cr row) ->
  (storage_map ps !! row_id = None -> num_rows ps = ps_capacity ps ->
   exists id row slot, storage_map ps !! id = Some (row, slot) /\ HasZeroRef row = true) ->
  exists evicted ps',
    Insert acc row_id cr ps = Ret (bool_decide (storage_map ps !! row_id = None), evicted, ps') /\
    inserted acc ps row_id cr evicted ps' /\ num_rows ps' <= ps_capacity ps' /\
    (is_Some evicted <-> storage_map ps !! row_id = None /\ num_rows ps = ps_capacity ps).
Proof.
  intros Hok Hid0 Hh Hkind Hzero.
  assert (Hsz : forall ps1 : ProcessStorage R, ps_ok ps1 -> num_rows ps1 = Z.of_nat (size (storage_map ps1)) /\
    num_rows ps1 <= ps_capacity ps1) by (intros ps1 [? ? Hn ? ? Hhd ? ? ? Hct]; lia).
  destruct (storage_map ps !! row_id) as [[row slot]|] eqn:Hid.
  - destruct (FindAndUpdate_ok acc 0 ps row_id row slot cr Hok Hid) as (c & E & Eh & Hsh).
    { by apply (Hkind row slot). }
    exists None. unfold Insert. rewrite E. cbn [mbind outcome_bind]. rewrite bool_decide_false by done.
    eexists. split; [done|]. split_and!; [|by apply Hsz|].
    + constructor; cbn; try done.
      * rewrite Hid. exists slot. by rewrite lookup_insert_eq.
      * intros id Hne _. by rewrite lookup_insert_ne.
      * pose proof (lw_cap _ (po_lru _ _ Hok)). rewrite (po_cap _ _ Hok) in *. lia.
    + split; [by intros [? ?]|by intros [? _]].
  - rewrite bool_decide_true by done. destruct (decide (num_rows ps = ps_capacity ps)) as [Hfull|Hroom].
    + destruct (Hzero eq_refl Hfull) as (zid & zrow & z & Hz & Hzr%bool_decide_eq_true).
      destruct (Insert_full acc ps row_id cr zid zrow z) as (eid & erow & ps' & E & Hin);
        [done|done|done|by destruct (Hsz ps Hok); lia|done..|].
      exists (Some (eid, erow)), ps'. split_and!; [done|done|apply Hsz, Hin|]. split; [done|by eexists].
    + destruct (Insert_room acc ps row_id cr) as (ps' & E & Hin);
        [done|done|done|by destruct (Hsz ps Hok); lia|].
      exists None, ps'. split_and!; [done|done|apply Hsz, Hin|]. split; [by intros [? ?]|by intros [_ ?]].
Qed.

(** ** Accessors *)

(** A reference is taken, or given back: the row stays in its slot. *)
Record row_replaced {R} (ps : ProcessStorage R) (row_id : Z) (row : ClientRow R) (slot : Z)
    (ps' : ProcessStorage R) : Prop := {
  rr_ok : ps_ok ps';
  rr_map : storage_map ps' = <[row_id := (row, slot)]> (storage_map ps);
  rr_capacity : ps_capacity ps' = ps_capacity ps;
  rr_hand : evict_hand (clock_lru ps') = evict_hand (clock_lru ps)
}.

Lemma row_replaced_at {R} (ps : ProcessStorage R) row_id row slot ps' :
  row_replaced ps row_id row slot ps' -> storage_map ps' !! row_id = Some (row, slot).
Proof. intros [_ E _ _]. by rewrite E, lookup_insert_eq. Qed.

Lemma row_replaced_again {R} (ps ps1 ps2 : ProcessStorage R) row_id row1 row2 slot :
  row_replaced ps row_id row1 slot ps1 -> row_replaced ps1 row_id row2 slot ps2 ->
  row_replaced ps row_id row2 slot ps2.
Proof. intros [_ E1 C1 N1] [O E2 C2 N2]. constructor; [done|by rewrite E2, E1, insert_insert_eq|congruence..]. Qed.

Lemma with_row_replaced {R} (ps : ProcessStorage R) row_id row slot row' : ps_ok ps ->
  storage_map ps !! row_id = Some (row, slot) ->
  row_replaced ps row_id row' slot (with_map (<[row_id := (row', slot)]> (storage_map ps)) (clock_lru ps) ps).
Proof. intros Hok E. constructor; [by eapply ps_shape_update|done..]. Qed.

Lemma Find_found {R} row_id (ps : ProcessStorage R) row slot : ps_ok ps ->
  storage_map ps !! row_id = Some (row, slot) ->
  exists ps', Find row_id ps = Ret (Some (IncRef row), ps') /\ row_replaced ps row_id (IncRef row) slot ps'.
Proof.
  intros Hok E. unfold Find. rewrite E. destruct (po_map _ _ Hok _ _ _ E) as (_ & Hs & _).
  destruct (Reference_spec slot (clock_lru ps) (po_lru _ _ Hok)) as [Er Hw]; [by rewrite (po_cap _ _ Hok)|].
  rewrite Er. eexists. split; [done|]. constructor; [|done..].
  apply (ps_shape_update 0 (with_map (storage_map ps) _ ps) row_id row slot); [|done].
  by apply ps_shape_frame; [|constructor|].
Qed.

Lemma Release_found {R} row_id (ps : ProcessStorage R) row slot : ps_ok ps ->
  storage_map ps !! row_id = Some (row, slot) ->
  exists ps', ReleaseAccessor row_id ps = Ret ps' /\ row_replaced ps row_id (DecRef row) slot ps'.
Proof.
  intros Hok E. unfold ReleaseAccessor. rewrite E. eexists. split; [done|]. by eapply with_row_replaced.
Qed.

(** The references of a row after it was accessed. *)
Lemma refs_restored n : in_i32 n -> i32 (i32 (n + 1) - 1) = n.
Proof. intros. int_lia. Qed.

Lemma DecRef_IncRef {R} (row : ClientRow R) : in_i32 (num_refs row) -> DecRef (IncRef row) = row.
Proof. destruct row. intros Hr. unfold DecRef, IncRef. cbn. by rewrite refs_restored. Qed.

(** What an insertion needs: a row nobody references when there is no room. *)
Definition can_insert {R} (row_id : Z) (ps : ProcessStorage R) : Prop :=
  evict_hand (clock_lru ps) + 5 * ps_capacity ps < 2 ^ 31 /\
  (storage_map ps !! row_id = None -> num_rows ps = ps_capacity ps ->
   exists id row slot, storage_map ps !! id = Some (row, slot) /\ HasZeroRef row = true).

(** C15: inserting a row into the process cache always ends; it keeps the cache
    consistent and within its capacity, updates the row in place when it is
    cached, evicts exactly one row when the cache is full and the row is new,
    evicts only a row nobody references, and leaves all other rows alone. *)
Theorem process_storage_insert {R} (acc : bool) (ps : ProcessStorage R) (row_id : Z) (cr : ClientRow R) :
  ps_ok ps -> 0 <= row_id -> can_insert row_id ps ->
  (forall row slot, storage_map ps !! row_id = Some (row, slot) -> same_kind cr row) ->
  exists evicted ps',
    Insert acc row_id cr ps = Ret (bool_decide (storage_map ps !! row_id = None), evicted, ps') /\
    inserted acc ps row_id cr evicted ps' /\ num_rows ps' <= ps_capacity ps' /\
    (is_Some evicted <-> storage_map ps !! row_id = None /\ num_rows ps = ps_capacity ps).
Proof. intros Hok Hid0 [Hh Hzero] Hkind. by apply Insert_total. Qed.

(** Room for two rows, the first of them referenced. *)
Definition demo_storage : ProcessStorage Z :=
  match (p ← Insert true 5 (SSPClientRow_new 0 50) (ProcessStorage_new 2 3);
         q ← Insert false 0 (SSPClientRow_new 1 60) p.2; Ret q.2) with
  | Ret ps => ps | _ => ProcessStorage_new 2 3
  end.

Lemma demo_storage_ok : ps_ok demo_storage.
Proof.
  destruct (Insert_room true (ProcessStorage_new 2 3) 5 (SSPClientRow_new 0 50)) as (ps1 & E1 & [H1 _ _ _ _ _]);
    [by apply ProcessStorage_new_ok|done|done|done|].
  assert (Hps1 : storage_map ps1 !! 0 = None /\ size (storage_map ps1) = 1%nat /\ ps_capacity ps1 = 2).
  { vm_compute in E1. injection E1 as <-. by vm_compute. }
  destruct Hps1 as (Hn & Hs & Hc).
  destruct (Insert_room false ps1 0 (SSPClientRow_new 1 60)) as (ps2 & E2 & [H2 _ _ _ _ _]);
    [done|done|done|by rewrite Hs, Hc|].
  unfold demo_storage. rewrite E1. cbn [mbind outcome_bind snd]. rewrite E2. exact H2.
Qed.

(** A third row: row 0 is evicted, the referenced row 5 stays. *)
Lemma process_storage_insert_witness :
  exists evicted ps', Insert false 9 (SSPClientRow_new 2 70) demo_storage = Ret (true, evicted, ps') /\
    inserted false demo_storage 9 (SSPClientRow_new 2 70) evicted ps'.
Proof.
  destruct (process_storage_insert false demo_storage 9 (SSPClientRow_new 2 70)) as (e & ps' & E & H & _).
  - exact demo_storage_ok.
  - lia.
  - split; [by vm_compute|]. intros _ _. exists 0, (SSPClientRow_new 1 60), 1. by vm_compute.
  - intros row slot E. vm_compute in E. discriminate E.
  - exists e, ps'. split; [|exact H]. exact E.
Defined.

Example demo_evicts :
  match Insert false 9 (SSPClientRow_new 2 70) demo_storage with
  | Ret (isnew, Some (id, row), ps') =>
      (isnew, id, cr_data row, bool_decide (is_Some (storage_map ps' !! 5)), num_rows ps')
  | _ => (false, -1, -1, false, -1)
  end = (true, 0, 60, true, 2).
Proof. by vm_compute. Qed.
