(* ===== verification/OpLogMgr.v ===== *)
(** * The interface of the oplog managers

    [RowRequestOpLogMgr] ([petuum_ps/thread/row_request_oplog_mgr.hpp]) is
    what a background worker knows of its manager; [SSPRowRequestOpLogMgr]
    and [SSPPushRowRequestOpLogMgr] implement it.  The laws say that an
    iteration over saved oplogs visits them in order and ends. *)
From S2P Require Import Prelude VectorClock VersionMgr RequestMgr PushMgr.
Open Scope Z_scope.

(** [mgr_InformReply] takes what an indeterminate flag holds;
    [mgr_OpLogIterNext] returns [None] for the null pointer. *)
Class RowRequestOpLogMgr (M OpLog : Type) := {
  mgr_new : list Z -> M;
  mgr_AddRowRequest : RowRequestInfo -> Z -> Z -> M -> bool * M;
  mgr_InformReply : bool -> Z -> Z -> Z -> Z -> M -> outcome (Z * list Z * M);
  mgr_InformVersionInc : M -> M;
  mgr_ServerAcknowledgeVersion : Z -> Z -> M -> outcome M;
  mgr_AddOpLog : Z -> OpLog -> M -> outcome (bool * M);
  mgr_OpLogIterInit : Z -> Z -> M -> outcome (OpLog * M);
  mgr_OpLogIterNext : M -> outcome (option (Z * OpLog) * M)
}.

#[export] Instance SSP_mgr {OpLog} : RowRequestOpLogMgr (SSPRowRequestOpLogMgr OpLog) OpLog := {|
  mgr_new := fun _ => SSPMgr_init;
  mgr_AddRowRequest := AddRowRequest;
  mgr_InformReply := InformReply;
  mgr_InformVersionInc := fun m => m;
  mgr_ServerAcknowledgeVersion := fun _ _ m => Ret m;
  mgr_AddOpLog := AddOpLog;
  mgr_OpLogIterInit := OpLogIterInit;
  mgr_OpLogIterNext := OpLogIterNext
|}.

(** The write to a freed list node that [ServerAcknowledgeVersion] makes is
    taken to do nothing. *)
#[export] Instance Push_mgr {OpLog} : RowRequestOpLogMgr (SSPPushRowRequestOpLogMgr OpLog) OpLog := {|
  mgr_new := PushMgr_init;
  mgr_AddRowRequest := PushAddRowRequest;
  mgr_InformReply := fun indet t r clock cur m => Ret (PushInformReply indet t r clock cur m);
  mgr_InformVersionInc := InformVersionInc;
  mgr_ServerAcknowledgeVersion := fun id v m => snd <$> ServerAcknowledgeVersion id v m;
  mgr_AddOpLog := fun v o m => Ret (PushAddOpLog v o m);
  mgr_OpLogIterInit := PushOpLogIterInit;
  mgr_OpLogIterNext := PushOpLogIterNext
|}.

(** ** Laws

    [mgr_saved m hist lo hi]: [m] has the oplogs [hist lo .. hist hi] of the
    versions [lo .. hi], whose 32-bit numbers do not wrap.  [mgr_at m hist a
    hi]: an iteration has returned [hist a] and goes on to [hi].  [mgr_same]:
    the managers differ in their iterators only. *)
Class RowRequestOpLogMgrOk (M OpLog : Type) `{RowRequestOpLogMgr M OpLog} := {
  mgr_saved : M -> (Z -> OpLog) -> Z -> Z -> Prop;
  mgr_at : M -> (Z -> OpLog) -> Z -> Z -> Prop;
  mgr_same : relation M;
  mgr_same_pre :: PreOrder mgr_same;
  mgr_iter_init m hist lo hi : mgr_saved m hist lo hi -> lo <= hi ->
    exists m', mgr_OpLogIterInit (u32 lo) (u32 hi) m = Ret (hist lo, m') /\
      mgr_at m' hist lo hi /\ mgr_same m m';
  mgr_iter_next m hist a hi : mgr_at m hist a hi -> a < hi ->
    exists m', mgr_OpLogIterNext m = Ret (Some (u32 (a + 1), hist (a + 1)), m') /\
      mgr_at m' hist (a + 1) hi /\ mgr_same m m';
  mgr_iter_end m hist hi : mgr_at m hist hi hi -> mgr_OpLogIterNext m = Ret (None, m)
}.

(** Versions [lo .. hi] whose numbers do not wrap and stay below the last one. *)
Definition no_wrap (lo hi : Z) : Prop := u32 lo <= u32 hi < 2 ^ 32 - 1 /\ hi - lo < 2 ^ 32.

Lemma no_wrap_next lo hi : no_wrap lo hi -> lo < hi -> no_wrap (lo + 1) hi /\ u32 (lo + 1) = u32 lo + 1.
Proof. unfold no_wrap. intros. int_lia. Qed.

Lemma no_wrap_eq lo hi : no_wrap lo hi -> lo <= hi -> u32 hi = u32 lo + (hi - lo).
Proof. unfold no_wrap. intros. int_lia. Qed.

Section SSP_LAWS.
Context {OpLog : Type}.
Implicit Types (m : SSPRowRequestOpLogMgr OpLog) (hist : Z -> OpLog).

Definition ssp_saved m hist (lo hi : Z) : Prop :=
  no_wrap lo hi /\ forall a, lo <= a <= hi -> version_oplog_map m !! u32 a = Some (hist a).

Record ssp_at m hist (a hi : Z) : Prop := {
  sa_wrap : no_wrap a hi;
  sa_le : a <= hi;
  sa_map : forall b, a < b <= hi -> version_oplog_map m !! u32 b = Some (hist b);
  sa_next : oplog_iter_version_next m = u32 (a + 1);
  sa_end : oplog_iter_version_end m = u32 hi
}.

Definition ssp_same m m' : Prop :=
  pending_row_requests m' = pending_row_requests m /\ version_oplog_map m' = version_oplog_map m /\
  version_request_cnt_map m' = version_request_cnt_map m.

#[export] Program Instance SSP_mgr_ok : RowRequestOpLogMgrOk (SSPRowRequestOpLogMgr OpLog) OpLog := {|
  mgr_saved := ssp_saved; mgr_at := ssp_at; mgr_same := ssp_same
|}.
Next Obligation.
  split; [by intros m|]. intros m1 m2 m3 (A1 & A2 & A3) (B1 & B2 & B3).
  split_and!; congruence.
Qed.
Next Obligation.
  intros m hist lo hi [Hw Hs] Hle. cbn. unfold OpLogIterInit, GetOpLog. cbn.
  rewrite Hs by lia. cbn. eexists. split; [done|]. split; [|done].
  constructor; cbn; try done; [intros b Hb; apply Hs; lia|].
  unfold no_wrap in Hw. int_lia.
Qed.
Next Obligation.
  intros m hist a hi [Hw Hle Hm Hn He] Hlt. destruct (no_wrap_next a hi Hw Hlt) as [Hw' Ha].
  cbn. unfold OpLogIterNext. rewrite Hn, He. rewrite bool_decide_false by (destruct Hw'; lia).
  unfold GetOpLog. cbn. rewrite Hm by lia. cbn. eexists. split; [done|]. split; [|done].
  constructor; cbn; try done; [lia|intros b Hb; apply Hm; lia|].
  destruct (decide (a + 1 < hi)) as [Hlt'|].
  - destruct (no_wrap_next (a + 1) hi Hw' Hlt') as [_ Ha']. destruct Hw' as [Hw' _].
    rewrite Ha' in *. pose proof (in_u32_u32 hi). rewrite u32_id by int_lia. lia.
  - assert (hi = a + 1) by lia. subst hi. destruct Hw as [Hw _]. int_lia.
Qed.
Next Obligation.
  intros m hist hi [[Hw _] _ _ Hn He]. cbn. unfold OpLogIterNext. rewrite Hn, He.
  by rewrite bool_decide_true by int_lia.
Qed.
End SSP_LAWS.

Section PUSH_LAWS.
Context {OpLog : Type}.
Implicit Types (m : SSPPushRowRequestOpLogMgr OpLog) (hist : Z -> OpLog).

(** The list has the versions [mn + 1 .. top]. *)
Definition push_saved m hist (lo hi : Z) : Prop :=
  no_wrap lo hi /\ exists mn top, version_oplog_list m = unacked hist mn top /\
    mn < lo /\ hi <= top /\ top - mn < 2 ^ 32.

Definition push_at m hist (a hi : Z) : Prop :=
  no_wrap a hi /\ a <= hi /\ push_iter_version_next m = u32 (a + 1) /\ push_iter_version_end m = u32 hi /\
  exists mn top, version_oplog_list m = unacked hist mn top /\
    mn < a /\ hi <= top /\ top - mn < 2 ^ 32 /\ a = mn + 1 + Z.of_nat (push_iter m).

Definition push_same m m' : Prop :=
  push_pending m' = push_pending m /\ version_oplog_list m' = version_oplog_list m /\
  server_version_mgr m' = server_version_mgr m.

#[export] Program Instance Push_mgr_ok : RowRequestOpLogMgrOk (SSPPushRowRequestOpLogMgr OpLog) OpLog := {|
  mgr_saved := push_saved; mgr_at := push_at; mgr_same := push_same
|}.
Next Obligation.
  split; [by intros m|]. intros m1 m2 m3 (A1 & A2 & A3) (B1 & B2 & B3).
  split_and!; congruence.
Qed.
Next Obligation.
  intros m hist lo hi [Hw (mn & top & Hl & Hlo & Hhi & Hwin)] Hle. cbn. unfold PushOpLogIterInit.
  rewrite Hl, (find_version_unacked hist (Z.to_nat (lo - mn - 1)) mn top lo) by lia. cbn.
  eexists. split; [done|]. split; [|done]. split; [done|]. split; [done|]. cbn.
  split; [destruct Hw; int_lia|]. split; [done|]. exists mn, top. split_and!; [done|lia..].
Qed.
Next Obligation.
  intros m hist a hi (Hw & Hle & Hn & He & mn & top & Hl & Ha & Hhi & Hwin & Hpos) Hlt.
  destruct (no_wrap_next a hi Hw Hlt) as [Hw' Ha'].
  cbn. unfold PushOpLogIterNext. rewrite Hn, He. rewrite bool_decide_false by (destruct Hw'; lia).
  rewrite Hl, unacked_lookup by lia.
  replace (mn + 1 + Z.of_nat (S (push_iter m))) with (a + 1) by lia. cbn.
  rewrite bool_decide_true by done. cbn. eexists. split; [done|].
  split; [|done]. split; [done|]. split; [lia|]. cbn. split.
  { rewrite Ha'. destruct Hw. int_lia. }
  split; [done|]. exists mn, top. split_and!; [done|lia..].
Qed.
Next Obligation.
  intros m hist hi ([Hw _] & _ & Hn & He & _). cbn. unfold PushOpLogIterNext. rewrite Hn, He.
  by rewrite bool_decide_true by int_lia.
Qed.
End PUSH_LAWS.
