(* ===== verification/BgWorkers.v ===== *)
(** * Background workers

    The handlers of [petuum_ps/thread/bg_workers.cpp]: a background thread
    forwards row requests of the application threads to the servers, puts
    the rows that come back into the process cache together with the updates
    the server did not have, and sends the oplogs at the end of a clock.  The
    messages that arrive are events, the messages that are sent are outputs;
    the bytes of both are in [Messages.v]. *)
From S2P Require Import Prelude Bytes Num VectorClock Context SparseRow OpLog OpLogWire OpLogMsgs RowWire ServerRow RequestMgr ClockLRU ProcessStorage OpLogMgr.
Open Scope Z_scope.

(** Messages sent by a background thread. *)
Inductive bg_out :=
  | OutAppReply (app_thread_id : Z)
  | OutRowRequest (server_id table_id row_id clock : Z)
  | OutOpLog (server_id : Z) (is_clock : bool) (client version : Z) (data : list Z)
  | OutShutDown (receiver : Z).

(** Messages received by a background thread.  A push message has a clock if
    it is the last of a clock. *)
Inductive bg_event :=
  | EvAppConnect
  | EvAppThreadDereg
  | EvServerShutDownAck
  | EvAppRowRequest (app_thread_id table_id row_id clock : Z)
  | EvServerReply (server_id table_id row_id clock version : Z) (data : list Z)
  | EvBgClock
  | EvBgSendOpLog
  | EvServerPush (server_id version : Z) (clock : option Z) (data : list Z) (avai_size : Z).

Section BG.
Context {R V M : Type} `{NumOk V} `{!AbstractRow R V} `{!RowRequestOpLogMgr M (BgOpLog V)}.
Context (g : GlobalContext) (reg : ClassRegistry (RowClass R)).
(** The content of fresh memory, the iteration orders of an oplog partition and
    of an oplog index, and what indeterminate flags hold. *)
Context (alloc : Z -> list Z) (order : BgOpLogPartition V -> list (Z * RowOpLog V))
  (index_order : gset Z -> list Z) (indet : bool).

(** What the background threads use of [ClientTable]. *)
Record ClientTable := mkClientTable {
  ct_row_type : Z;
  ct_oplog : TableOpLog V;
  ct_oplog_index : TableOpLogIndex;
  ct_storage : ProcessStorage R
}.

Definition with_client_storage (ps : ProcessStorage R) (t : ClientTable) : ClientTable :=
  mkClientTable (ct_row_type t) (ct_oplog t) (ct_oplog_index t) ps.

Definition GetAndResetOpLogIndex (partition_num : Z) (t : ClientTable)
    : outcome (gset Z * ClientTable) :=
  '(i, idx) ← TableOpLogIndex_ResetPartition partition_num (ct_oplog_index t);
  Ret (i, mkClientTable (ct_row_type t) (ct_oplog t) idx (ct_storage t)).

(** The thread's [BgContext] with the counters of its main loop, and the
    shared tables and clocks. *)
Record BgState := mkBgState {
  bg_version : Z;
  bg_mgr : M;
  server_vector_clock : VectorClock;
  num_connected_app_threads : Z;
  num_deregistered_app_threads : Z;
  num_shutdown_acked_servers : Z;
  bg_tables : gmap Z ClientTable;
  bg_server_clock : VectorClock;
  system_clock : Z
}.

Definition with_version_mgr (v : Z) (m : M) (s : BgState) : BgState :=
  mkBgState v m (server_vector_clock s) (num_connected_app_threads s) (num_deregistered_app_threads s)
    (num_shutdown_acked_servers s) (bg_tables s) (bg_server_clock s) (system_clock s).
Definition with_mgr (m : M) (s : BgState) : BgState := with_version_mgr (bg_version s) m s.
Definition with_tables (ts : gmap Z ClientTable) (s : BgState) : BgState :=
  mkBgState (bg_version s) (bg_mgr s) (server_vector_clock s) (num_connected_app_threads s)
    (num_deregistered_app_threads s) (num_shutdown_acked_servers s) ts (bg_server_clock s) (system_clock s).
Definition with_counts (connected deregistered acked : Z) (s : BgState) : BgState :=
  mkBgState (bg_version s) (bg_mgr s) (server_vector_clock s) connected deregistered acked
    (bg_tables s) (bg_server_clock s) (system_clock s).
Definition with_clocks (vc bc : VectorClock) (c : Z) (s : BgState) : BgState :=
  mkBgState (bg_version s) (bg_mgr s) vc (num_connected_app_threads s) (num_deregistered_app_threads s)
    (num_shutdown_acked_servers s) (bg_tables s) bc c.
Definition with_storage_of (table_id : Z) (t : ClientTable) (ps : ProcessStorage R) (s : BgState) : BgState :=
  with_tables (<[table_id := with_client_storage ps t]> (bg_tables s)) s.

(** [InitBgContext]; the tables and the shared clocks are set up elsewhere. *)
Definition InitBgContext (ts : gmap Z ClientTable) (bc : VectorClock) : outcome BgState :=
  match consistency_model g with
  | SSP | SSPPush =>
      Ret (mkBgState 0 (mgr_new (server_ids g))
             (foldl (fun vc id => AddClock id 0 vc) VectorClock_default (server_ids g)) 0 0 0 ts bc 0)
  | _ => CheckFail
  end.

(** [MyCreateClientRow], as [Init] chooses it. *)
Definition MyCreateClientRow (clock : Z) (r : R) : outcome (ClientRow R) :=
  match consistency_model g with
  | SSP => Ret (SSPClientRow_new clock r)
  | SSPPush => Ret (ClientRow_new clock r)
  | _ => CheckFail
  end.

(** ** Row requests *)

(** The thread that [RequestRow] and [RequestRowAsync] ask for a row. *)
Definition RequestRow_bg_id (row_id : Z) : outcome Z :=
  p ← GetBgPartitionNum g row_id; Ret (i32 (p + get_head_bg_id (client_id g))).

(** Whether the process cache has the row at [clock]; the accessor is released. *)
Definition find_fresh (row_id clock : Z) (ps : ProcessStorage R) : outcome (bool * ProcessStorage R) :=
  '(found, ps1) ← Find row_id ps;
  match found with
  | None => Ret (false, ps1)
  | Some row =>
      ps2 ← ReleaseAccessor row_id ps1; Ret (bool_decide (GetClock row >= clock), ps2)
  end.

Definition CheckForwardRowRequestToServer (app_thread_id table_id row_id clock : Z) (s : BgState)
    : outcome (BgState * list bg_out) :=
  t ← checked (bg_tables s !! table_id);
  '(fresh, ps) ← find_fresh row_id clock (ct_storage t);
  let s1 := with_storage_of table_id t ps s in
  if (fresh : bool) then Ret (s1, [OutAppReply app_thread_id])
  else
    let row_request := mkRequest app_thread_id clock (u32 (bg_version s1 - 1)) None in
    let '(should_be_sent, m) := mgr_AddRowRequest row_request table_id row_id (bg_mgr s1) in
    let s2 := with_mgr m s1 in
    if (should_be_sent : bool) then
      server_id ← GetRowPartitionServerID g table_id row_id;
      Ret (s2, [OutRowRequest server_id table_id row_id clock])
    else Ret (s2, []).

(** ** Rows from the servers *)

(** The updates of one saved oplog for the row. *)
Definition apply_bg_oplog (table_id row_id : Z) (o : BgOpLog V) (r : R) : outcome R :=
  p ← BgOpLog_Get table_id o;
  match BgOpLogPartition_FindOpLog row_id p with
  | None => Ret r
  | Some l => us ← RowOpLog_iterate l; row_apply_all us r
  end.

(** The [while (bg_oplog != NULL)] loop; [Undef] without fuel. *)
Fixpoint apply_oplogs_loop (fuel : nat) (table_id row_id : Z) (bg_oplog : option (BgOpLog V)) (m : M) (r : R)
    : outcome (R * M) :=
  match bg_oplog with
  | None => Ret (r, m)
  | Some o =>
      match fuel with
      | O => Undef
      | S fuel' =>
          r' ← apply_bg_oplog table_id row_id o r;
          '(next, m') ← mgr_OpLogIterNext m;
          apply_oplogs_loop fuel' table_id row_id (snd <$> next) m' r'
      end
  end.

Definition ApplyOldOpLogsToRowData (table_id row_id version cur : Z) (r : R) (m : M) : outcome (R * M) :=
  if bool_decide (u32 (version + 1) < cur) then
    '(o, m') ← mgr_OpLogIterInit (u32 (version + 1)) (u32 (cur - 1)) m;
    apply_oplogs_loop (Z.to_nat (cur - u32 (version + 1))) table_id row_id (Some o) m' r
  else Ret (r, m).

(** The client row for the cache.  An oplog that is found stays locked until the
    row is inserted ([true]); if there is none, its lock is released at once. *)
Definition prepare_client_row (table_id row_id version : Z) (r : R) (clock : Z) (s : BgState)
    : outcome (ClientRow R * M * bool) :=
  t ← checked (bg_tables s !! table_id);
  '(r1, m) ← ApplyOldOpLogsToRowData table_id row_id version (bg_version s) r (bg_mgr s);
  found ← TableOpLog_FindOpLog g row_id (ct_oplog t);
  r2 ← match found with
       | None => Ret r1
       | Some l => us ← RowOpLog_iterate l; row_apply_all us r1
       end;
  client_row ← MyCreateClientRow clock r2;
  Ret (client_row, m, bool_decide (is_Some found)).

Definition insert_client_row (table_id row_id : Z) (client_row : ClientRow R) (s : BgState) : outcome BgState :=
  t ← checked (bg_tables s !! table_id);
  '(_, _, ps) ← Insert false row_id client_row (ct_storage t);
  Ret (with_storage_of table_id t ps s).

Definition ApplyOpLogsAndInsertRow (table_id row_id version : Z) (r : R) (clock : Z) (s : BgState)
    : outcome BgState :=
  '(client_row, m, _) ← prepare_client_row table_id row_id version r clock s;
  insert_client_row table_id row_id client_row (with_mgr m s).

(** [CreateObject(row_type)] and [Deserialize]. *)
Definition read_row (table_id : Z) (data : list Z) (s : BgState) : outcome R :=
  t ← checked (bg_tables s !! table_id);
  cls ← deref (CreateObject (ct_row_type t) reg);
  rc_deserialize cls data.

Definition HandleServerRowRequestReply (server_id table_id row_id clock version : Z) (data : list Z)
    (s : BgState) : outcome (BgState * list bg_out) :=
  r ← read_row table_id data s;
  m ← mgr_ServerAcknowledgeVersion server_id version (bg_mgr s);
  s1 ← ApplyOpLogsAndInsertRow table_id row_id version r clock (with_mgr m s);
  '(clock_to_request, apps, m2) ← mgr_InformReply indet table_id row_id clock (bg_version s1) (bg_mgr s1);
  requests ←
    (if bool_decide (clock_to_request >= 0) then
       server_id' ← GetRowPartitionServerID g table_id row_id;
       Ret [OutRowRequest server_id' table_id row_id clock_to_request]
     else Ret []);
  Ret (with_mgr m2 s1, requests ++ (OutAppReply <$> apps)).

Definition apply_pushed_row (version : Z) (s : BgState) (e : row_record) : outcome BgState :=
  r ← read_row (rc_table_id e) (rc_data e) s;
  ApplyOpLogsAndInsertRow (rc_table_id e) (rc_row_id e) version r 0 s.

Definition ApplyServerPushedRow (version : Z) (mem : list Z) (mem_size : Z) (s : BgState) : outcome BgState :=
  rows ← row_reader_all mem mem_size; foldM (apply_pushed_row version) rows s.

(** ** The end of a clock *)

(** The oplog index of the thread, in its iteration order. *)
Definition take_index (local_bg_index : Z) (e : Z * ClientTable)
    : outcome (Z * ClientTable * bg_table (V := V)) :=
  '(i, t) ← GetAndResetOpLogIndex local_bg_index e.2;
  Ret (e.1, t, mkBgTable e.1 (ct_oplog t) (index_order i)).

Definition put_oplog (ts : gmap Z ClientTable) (b : bg_table (V := V)) : gmap Z ClientTable :=
  match ts !! bt_id b with
  | Some t => <[bt_id b := mkClientTable (ct_row_type t) (bt_oplog b) (ct_oplog_index t) (ct_storage t)]> ts
  | None => ts
  end.

(** [tables_] is traversed in the order of the ids. *)
Definition collect_tables (my_id : Z) (ts : gmap Z ClientTable)
    : outcome (gmap Z ClientTable * BgOpLog V * list (Z * gmap Z Z)) :=
  let local_bg_index := i32 (my_id - get_head_bg_id (client_id g)) in
  taken ← foldM (fun acc e => x ← take_index local_bg_index e; Ret (acc ++ [x])) (sorted_entries ts) [];
  '(bts, bg_oplog, sizes) ← GetOpLogAndIndex g (snd <$> taken);
  Ret (foldl put_oplog (list_to_map (fst <$> taken)) bts, bg_oplog, sizes).

Definition HandleClockMsg (my_id : Z) (clock_advanced : bool) (s : BgState)
    : outcome (BgState * list bg_out) :=
  '(ts, bg_oplog, sizes) ← collect_tables my_id (bg_tables s);
  mems ← CreateOpLogMsgs g alloc order (sizes.*1) bg_oplog sizes;
  let outs := (fun e => OutOpLog e.1 clock_advanced (client_id g) (bg_version s) e.2) <$> sorted_entries mems in
  '(_, m) ← mgr_AddOpLog (bg_version s) bg_oplog (bg_mgr s);
  Ret (with_version_mgr (u32 (bg_version s + 1)) (mgr_InformVersionInc m) (with_tables ts s), outs).

(** ** The main loop *)

Definition HandleServerPushRow (my_id server_id version : Z) (clock : option Z) (data : list Z)
    (avai_size : Z) (s : BgState) : outcome BgState :=
  m ← mgr_ServerAcknowledgeVersion server_id version (bg_mgr s);
  s1 ← ApplyServerPushedRow version data avai_size (with_mgr m s);
  match clock with
  | None => Ret s1
  | Some server_clock =>
      c ← get_clock server_id (server_vector_clock s1);
      _ ← CHECK (bool_decide (c + 1 = server_clock));
      let '(new_clock, vc) := Tick server_id (server_vector_clock s1) in
      if bool_decide (new_clock <> 0) then
        let '(new_system_clock, bc) := Tick my_id (bg_server_clock s1) in
        Ret (with_clocks vc bc
               (if bool_decide (new_system_clock <> 0) then i32 (system_clock s1 + 1) else system_clock s1) s1)
      else Ret (with_clocks vc (bg_server_clock s1) (system_clock s1) s1)
  end.

Definition HandleAppThreadDereg (s : BgState) : outcome (BgState * list bg_out) :=
  let n := i32 (num_deregistered_app_threads s + 1) in
  let s' := with_counts (num_connected_app_threads s) n (num_shutdown_acked_servers s) s in
  if bool_decide (n = num_app_threads g) then
    outs ← foldM (fun outs i => server_id ← vec_at (server_ids g) i; Ret (outs ++ [OutShutDown server_id]))
             (seqZ 0 (num_servers g)) [OutShutDown get_name_node_id];
    Ret (s', outs)
  else Ret (s', []).

(** One turn of the loop of [SSPBgThreadMain]; [true] ends the thread. *)
Definition bg_step (my_id : Z) (s : BgState) (ev : bg_event) : outcome (bool * BgState * list bg_out) :=
  match ev with
  | EvAppConnect =>
      let n := i32 (num_connected_app_threads s + 1) in
      _ ← CHECK (bool_decide (n <= num_app_threads g));
      Ret (false, with_counts n (num_deregistered_app_threads s) (num_shutdown_acked_servers s) s, [])
  | EvAppThreadDereg => '(s', outs) ← HandleAppThreadDereg s; Ret (false, s', outs)
  | EvServerShutDownAck =>
      let n := i32 (num_shutdown_acked_servers s + 1) in
      Ret (bool_decide (n = i32 (num_servers g + 1)),
           with_counts (num_connected_app_threads s) (num_deregistered_app_threads s) n s, [])
  | EvAppRowRequest app table_id row_id clock =>
      '(s', outs) ← CheckForwardRowRequestToServer app table_id row_id clock s; Ret (false, s', outs)
  | EvServerReply server_id table_id row_id clock version data =>
      '(s', outs) ← HandleServerRowRequestReply server_id table_id row_id clock version data s;
      Ret (false, s', outs)
  | EvBgClock => '(s', outs) ← HandleClockMsg my_id true s; Ret (false, s', outs)
  | EvBgSendOpLog => '(s', outs) ← HandleClockMsg my_id false s; Ret (false, s', outs)
  | EvServerPush server_id version clock data avai_size =>
      s' ← HandleServerPushRow my_id server_id version clock data avai_size s; Ret (false, s', [])
  end.

(** The loop over the messages that arrive, until the thread ends. *)
Fixpoint bg_run (my_id : Z) (s : BgState) (evs : list bg_event) : outcome (BgState * list bg_out) :=
  match evs with
  | [] => Ret (s, [])
  | ev :: evs' =>
      '(fin, s', outs) ← bg_step my_id s ev;
      if (fin : bool) then Ret (s', outs)
      else '(s'', outs') ← bg_run my_id s' evs'; Ret (s'', outs ++ outs')
  end.
End BG.
Arguments ClientTable : clear implicits.
Arguments BgState : clear implicits.
