(* ===== verification/BgRows.v ===== *)
(** * The rows a background worker puts into the process cache

    A row from a server lacks the updates the server had not received when it
    sent the row.  The worker adds the oplogs it has sent since and the
    updates it has not sent yet; the theorems are proved for every oplog
    manager that satisfies the interface and then for the SSP manager in
    every state it can reach. *)
From S2P Require Import Prelude Bytes Num VectorClock Context SparseRow OpLog OpLogWire OpLogMsgs RowWire ServerRow RequestMgr PushMgr ClockLRU ProcessStorage OpLogMgr BgWorkers.
Open Scope Z_scope.

(** ** The updates of a row *)

(** In one sent oplog, in the oplogs of versions [lo .. hi], and in the oplog
    not sent yet. *)
Definition oplog_updates {V} (table_id row_id : Z) (o : BgOpLog V) : list (Z * V) :=
  match o !! table_id with
  | Some p => match bop_map p !! row_id with Some l => sorted_entries (oplogs l) | None => [] end
  | None => []
  end.

Definition sent_updates {V} (table_id row_id : Z) (hist : Z -> BgOpLog V) (lo hi : Z) : list (Z * V) :=
  concat ((fun a => oplog_updates table_id row_id (hist a)) <$> seqZ lo (hi - lo + 1)).

Definition unsent_updates {V} (g : GlobalContext) (t : TableOpLog V) (row_id : Z) : list (Z * V) :=
  match table_row_oplog g t row_id with Some l => sorted_entries (oplogs l) | None => [] end.

Lemma sent_updates_cons {V} table_id row_id (hist : Z -> BgOpLog V) lo hi : lo <= hi ->
  sent_updates table_id row_id hist lo hi
  = oplog_updates table_id row_id (hist lo) ++ sent_updates table_id row_id hist (lo + 1) hi.
Proof.
  intros Hle. unfold sent_updates. rewrite seqZ_cons by lia. rewrite fmap_cons. cbn [concat].
  by replace (Z.pred (hi - lo + 1)) with (hi - (lo + 1) + 1) by lia.
Qed.

Lemma sent_updates_nil {V} table_id row_id (hist : Z -> BgOpLog V) lo hi : hi < lo ->
  sent_updates table_id row_id hist lo hi = [].
Proof. intros Hlt. unfold sent_updates. by rewrite seqZ_nil by lia. Qed.

Section ROWS.
Context {R V M : Type} `{NumOk V} `{!AbstractRow R V} `{!RowRequestOpLogMgr M (BgOpLog V)}.
Context `{!RowRequestOpLogMgrOk M (BgOpLog V)}.
Implicit Types (hist : Z -> BgOpLog V) (r : R) (m : M).

Lemma apply_bg_oplog_spec table_id row_id (o : BgOpLog V) r : is_Some (o !! table_id) ->
  apply_bg_oplog table_id row_id o r = row_apply_all (oplog_updates table_id row_id o) r.
Proof.
  intros [p Hp]. unfold apply_bg_oplog, BgOpLog_Get, oplog_updates, BgOpLogPartition_FindOpLog. rewrite Hp.
  cbn [checked mbind outcome_bind]. destruct (bop_map p !! row_id) as [l|]; [|done].
  by rewrite RowOpLog_iterate_spec.
Qed.

Lemma apply_oplogs_loop_spec fuel table_id row_id hist m r r' a hi :
  mgr_at m hist a hi -> a <= hi -> hi - a < Z.of_nat fuel ->
  (forall b, a <= b <= hi -> is_Some (hist b !! table_id)) ->
  row_apply_all (sent_updates table_id row_id hist a hi) r = Ret r' ->
  exists m', apply_oplogs_loop fuel table_id row_id (Some (hist a)) m r = Ret (r', m') /\ mgr_same m m'.
Proof.
  revert m r a. induction fuel as [|fuel IH]; intros m r a Hat Hle Hf Ht Hr; [lia|].
  rewrite sent_updates_cons, row_apply_all_app in Hr by done. apply bind_Ret_inv in Hr as (r1 & E1 & Hr).
  cbn [apply_oplogs_loop]. rewrite apply_bg_oplog_spec by (apply Ht; lia). rewrite E1. cbn [mbind outcome_bind].
  destruct (decide (a = hi)) as [->|Hne].
  - rewrite (mgr_iter_end m hist hi Hat). cbn [mbind outcome_bind fmap option_fmap option_map].
    rewrite sent_updates_nil in Hr by lia. injection Hr as <-. exists m. by destruct fuel.
  - destruct (mgr_iter_next m hist a hi Hat) as (m1 & E2 & Hat1 & Hs1); [lia|].
    rewrite E2. cbn [mbind outcome_bind fmap option_fmap option_map snd].
    destruct (IH m1 r1 (a + 1) Hat1) as (m2 & E3 & Hs2); [lia|lia|intros b Hb; apply Ht; lia|done|].
    exists m2. split; [exact E3|]. by etrans.
Qed.

(** [v] and [cur] are the versions without wrap-around. *)
Lemma ApplyOldOpLogs_spec table_id row_id hist v cur r r' m :
  v < cur -> cur - v <= 2 ^ 32 -> u32 (v + 1) <= u32 cur ->
  (v + 1 < cur -> mgr_saved m hist (v + 1) (cur - 1)) ->
  (forall b, v < b < cur -> is_Some (hist b !! table_id)) ->
  row_apply_all (sent_updates table_id row_id hist (v + 1) (cur - 1)) r = Ret r' ->
  exists m', ApplyOldOpLogsToRowData table_id row_id (u32 v) (u32 cur) r m = Ret (r', m') /\ mgr_same m m'.
Proof.
  intros Hv Hwin Hw Hsaved Ht Hr. unfold ApplyOldOpLogsToRowData.
  assert (Ev : u32 (u32 v + 1) = u32 (v + 1)) by int_lia. rewrite Ev.
  destruct (decide (v + 1 = cur)) as [Heq|Hne].
  - rewrite bool_decide_false by (rewrite Heq; lia). rewrite sent_updates_nil in Hr by lia.
    injection Hr as <-. by exists m.
  - assert (Hlt : u32 (v + 1) < u32 cur) by int_lia. rewrite bool_decide_true by done.
    assert (Ec : u32 (u32 cur - 1) = u32 (cur - 1)) by int_lia. rewrite Ec.
    destruct (mgr_iter_init m hist (v + 1) (cur - 1)) as (m1 & E & Hat & Hs); [apply Hsaved; lia|lia|].
    rewrite E. cbn [mbind outcome_bind].
    destruct (apply_oplogs_loop_spec (Z.to_nat (u32 cur - u32 (v + 1))) table_id row_id hist m1 r r'
      (v + 1) (cur - 1) Hat) as (m2 & E2 & Hs2); [lia|int_lia|intros b Hb; apply Ht; lia|done|].
    exists m2. split; [exact E2|]. by etrans.
Qed.

(** A version that is ahead of the current one modulo [2^32] hides every saved
    oplog. *)
Lemma ApplyOldOpLogs_wrap table_id row_id v cur r m : u32 cur <= u32 (v + 1) ->
  ApplyOldOpLogsToRowData table_id row_id v (u32 cur) r m = Ret (r, m).
Proof. intros Hw. unfold ApplyOldOpLogsToRowData. by rewrite bool_decide_false by lia. Qed.

Lemma FindOpLog_spec (g : GlobalContext) row_id (t : TableOpLog V) :
  context_ok g -> 0 <= row_id -> Z.of_nat (length t) = num_bg_threads g ->
  TableOpLog_FindOpLog g row_id t = Ret (table_row_oplog g t row_id).
Proof.
  intros Hg Hr Hl. unfold TableOpLog_FindOpLog.
  destruct (on_partition_spec g row_id (fun p => (OpLogPartition_FindOpLog row_id p, p)) t Hg Hr Hl)
    as (i & p & Hi & Him & Hp & E).
  rewrite E. unfold table_row_oplog. by rewrite <- Him, Hp.
Qed.

Record client_table_ok (g : GlobalContext) (t : ClientTable R V) : Prop := {
  cto_oplog : Z.of_nat (length (ct_oplog t)) = num_bg_threads g;
  cto_storage : ps_ok (ct_storage t);
  cto_kind : forall id row slot, storage_map (ct_storage t) !! id = Some (row, slot) ->
    is_Some (cr_clock row) <-> consistency_model g = SSP;
  cto_refs : forall id row slot, storage_map (ct_storage t) !! id = Some (row, slot) -> in_i32 (num_refs row)
}.

(** The clock of the cached row. *)
Definition cached_clock (g : GlobalContext) (clock : Z) : option Z :=
  match consistency_model g with SSP => Some clock | _ => None end.

Definition mode_ok (g : GlobalContext) : Prop := consistency_model g = SSP \/ consistency_model g = SSPPush.

Lemma MyCreateClientRow_spec g clock r : mode_ok g ->
  MyCreateClientRow g clock r = Ret (mkClientRow 0 r (cached_clock g clock)).
Proof. unfold MyCreateClientRow, cached_clock. by intros [-> | ->]. Qed.

(** What [ApplyOpLogsAndInsertRow] does to a table. *)
Record row_cached (g : GlobalContext) (t : ClientTable R V) (row_id clock : Z) (r : R) (ps' : ProcessStorage R) : Prop := {
  rc_ok : ps_ok ps';
  rc_row : exists refs slot, storage_map ps' !! row_id = Some (mkClientRow refs r (cached_clock g clock), slot) /\
    in_i32 refs;
  rc_kind : forall id row slot, storage_map ps' !! id = Some (row, slot) ->
    is_Some (cr_clock row) <-> consistency_model g = SSP;
  rc_others : forall id row slot, id <> row_id -> storage_map ps' !! id = Some (row, slot) ->
    storage_map (ct_storage t) !! id = Some (row, slot)
}.

Lemma inserted_row_cached g t row_id clock r e ps' : mode_ok g -> client_table_ok g t ->
  inserted false (ct_storage t) row_id (mkClientRow 0 r (cached_clock g clock)) e ps' ->
  row_cached g t row_id clock r ps'.
Proof.
  intros Hm [Hol Hps Hk Href] [Hok Hcap [slot Hrow] Hev Hoth _].
  assert (Hrow' : exists refs, storage_map ps' !! row_id = Some (mkClientRow refs r (cached_clock g clock), slot) /\
    in_i32 refs).
  { rewrite Hrow. cbn [access]. destruct (storage_map (ct_storage t) !! row_id) as [[row s]|] eqn:E.
    - exists (num_refs row). split; [|by eapply Href]. unfold updated_row. cbn. do 2 f_equal. specialize (Hk _ _ _ E).
      unfold cached_clock in *. destruct Hm as [Hm|Hm]; rewrite Hm in *; destruct (cr_clock row); try done;
        first [by destruct (proj2 Hk eq_refl)|by discriminate (proj1 Hk ltac:(by eexists))].
    - by exists 0. }
  assert (Hothers : forall id row slot, id <> row_id -> storage_map ps' !! id = Some (row, slot) ->
    storage_map (ct_storage t) !! id = Some (row, slot)).
  { intros id row s Hne Hl. destruct e as [[eid erow]|].
    - destruct (Hev eid erow eq_refl) as (_ & _ & _ & Hnone). rewrite Hoth in Hl; [done|done|].
      cbn. intros [= ->]. congruence.
    - by rewrite Hoth in Hl. }
  destruct Hrow' as [refs [Hrow' Hrefs]]. constructor; [done|by eauto| |done].
  intros id row s Hl. destruct (decide (id = row_id)) as [->|Hne]; [|by eapply Hk, Hothers].
  rewrite Hrow' in Hl. injection Hl as <- <-. cbn. unfold cached_clock.
  destruct Hm as [Hm|Hm]; rewrite Hm; split; intros Hx; first [done | by eexists | by destruct Hx].
Qed.

(** The row the worker prepares; whether its oplog stays locked. *)
Lemma prepare_client_row_spec g table_id row_id hist v cur r r' clock (s : BgState R V M) t :
  mode_ok g -> context_ok g -> 0 <= row_id ->
  bg_tables s !! table_id = Some t -> client_table_ok g t ->
  bg_version s = u32 cur -> v < cur -> cur - v <= 2 ^ 32 -> u32 (v + 1) <= u32 cur ->
  (v + 1 < cur -> mgr_saved (bg_mgr s) hist (v + 1) (cur - 1)) ->
  (forall b, v < b < cur -> is_Some (hist b !! table_id)) ->
  row_apply_all (sent_updates table_id row_id hist (v + 1) (cur - 1)
                 ++ unsent_updates g (ct_oplog t) row_id) r = Ret r' ->
  exists m', prepare_client_row g table_id row_id (u32 v) r clock s
      = Ret (mkClientRow 0 r' (cached_clock g clock), m',
             bool_decide (is_Some (table_row_oplog g (ct_oplog t) row_id))) /\
    mgr_same (bg_mgr s) m'.
Proof.
  intros Hm Hg Hrow Ht Hto Hver Hv Hwin Hw Hsaved Hts Hr.
  rewrite row_apply_all_app in Hr. apply bind_Ret_inv in Hr as (r1 & E1 & Hr).
  destruct (ApplyOldOpLogs_spec table_id row_id hist v cur r r1 (bg_mgr s) Hv Hwin Hw Hsaved Hts E1)
    as (m' & E2 & Hsame).
  unfold prepare_client_row. rewrite Ht, Hver. cbn [checked mbind outcome_bind]. rewrite E2.
  cbn [mbind outcome_bind]. rewrite FindOpLog_spec by (done || apply Hto). cbn [mbind outcome_bind].
  replace (match table_row_oplog g (ct_oplog t) row_id with
    | Some l => us ← RowOpLog_iterate l; row_apply_all us r1 | None => Ret r1 end) with (Ret r' : outcome R).
  2:{ rewrite <- Hr. unfold unsent_updates. destruct (table_row_oplog g (ct_oplog t) row_id) as [l|]; [|done].
      by rewrite RowOpLog_iterate_spec. }
  cbn [mbind outcome_bind]. rewrite MyCreateClientRow_spec by done. by exists m'.
Qed.

Lemma insert_client_row_spec g table_id row_id clock r (s : BgState R V M) t :
  mode_ok g -> 0 <= row_id ->
  bg_tables s !! table_id = Some t -> client_table_ok g t -> can_insert row_id (ct_storage t) ->
  exists ps', insert_client_row table_id row_id (mkClientRow 0 r (cached_clock g clock)) s
      = Ret (with_storage_of table_id t ps' s) /\ row_cached g t row_id clock r ps'.
Proof.
  intros Hm Hrow Ht Hto [Hh Hz]. unfold insert_client_row. rewrite Ht. cbn [checked mbind outcome_bind].
  destruct (Insert_total false (ct_storage t) row_id (mkClientRow 0 r (cached_clock g clock)))
    as (e & ps' & E & Hin & _); [apply Hto|done|done| |done|].
  { intros row slot Hl Hs. apply (cto_kind _ _ Hto _ _ _ Hl) in Hs. unfold cached_clock. cbn. rewrite Hs. by eexists. }
  rewrite E. cbn [mbind outcome_bind]. exists ps'. split; [done|]. by apply (inserted_row_cached g t row_id clock r e).
Qed.

Lemma ApplyOpLogsAndInsertRow_spec g table_id row_id hist v cur r r' clock (s : BgState R V M) t :
  mode_ok g -> context_ok g -> 0 <= row_id ->
  bg_tables s !! table_id = Some t -> client_table_ok g t -> can_insert row_id (ct_storage t) ->
  bg_version s = u32 cur -> v < cur -> cur - v <= 2 ^ 32 -> u32 (v + 1) <= u32 cur ->
  (v + 1 < cur -> mgr_saved (bg_mgr s) hist (v + 1) (cur - 1)) ->
  (forall b, v < b < cur -> is_Some (hist b !! table_id)) ->
  row_apply_all (sent_updates table_id row_id hist (v + 1) (cur - 1)
                 ++ unsent_updates g (ct_oplog t) row_id) r = Ret r' ->
  exists m' ps',
    ApplyOpLogsAndInsertRow g table_id row_id (u32 v) r clock s
      = Ret (with_mgr m' (with_storage_of table_id t ps' s)) /\
    mgr_same (bg_mgr s) m' /\ row_cached g t row_id clock r' ps'.
Proof.
  intros Hm Hg Hrow Ht Hto Hins Hver Hv Hwin Hw Hsaved Hts Hr.
  destruct (prepare_client_row_spec g table_id row_id hist v cur r r' clock s t) as (m' & E & Hsame); [done..|].
  destruct (insert_client_row_spec g table_id row_id clock r' (with_mgr m' s) t) as (ps' & E' & Hrc); [done..|].
  unfold ApplyOpLogsAndInsertRow. rewrite E. cbn [mbind outcome_bind]. rewrite E'. by exists m', ps'.
Qed.
End ROWS.

(** ** The SSP manager in the states it reaches *)

Section SSP_ROWS.
Context {R V : Type} `{NumOk V} `{!AbstractRow R V}.
#[local] Abbreviation SSPState := (BgState R V (SSPRowRequestOpLogMgr (BgOpLog V))).

(** The manager's invariant, the oplogs it saved are those that were sent
    ([hist] by version), every sent oplog has a part for every table, and the
    tables are consistent. *)
Record ssp_bg_ok (g : GlobalContext) (hist : gmap Z (BgOpLog V)) (s : SSPState) : Prop := {
  sb_mgr : mgr_ok (bg_version s) (bg_mgr s);
  sb_hist : version_oplog_map (bg_mgr s) ⊆ hist;
  sb_parts : forall v o table_id t, hist !! v = Some o -> bg_tables s !! table_id = Some t ->
    is_Some (o !! table_id);
  sb_tables : forall table_id t, bg_tables s !! table_id = Some t -> client_table_ok g t
}.

(** The oplog sent with each version. *)
Definition sent_oplog (hist : gmap Z (BgOpLog V)) (a : Z) : BgOpLog V := default ∅ (hist !! a).

(** A request that waits was sent at version [v] or before. *)
Definition covers (s : SSPState) (v : Z) : Prop :=
  exists q, q ∈ all_pending (pending_row_requests (bg_mgr s)) /\
    age (bg_version s) v <= age (bg_version s) (req_version q).

Lemma mgr_ok_same {O} cur (m m' : SSPRowRequestOpLogMgr O) : ssp_same m m' -> mgr_ok cur m -> mgr_ok cur m'.
Proof.
  intros (H1 & H2 & H3) [A1 A2 A3 A4 A5]. constructor; unfold pending_versions in *; rewrite ?H1, ?H2, ?H3; done.
Qed.

(** The version of a reply, unwrapped: the one before version 0 is [-1]. *)
Definition unwrapped (cur v : Z) : Z := if bool_decide (v < cur) then v else v - 2 ^ 32.

Lemma unwrapped_spec cur v : in_u32 cur -> in_u32 v -> u32 (v + 1) <= cur ->
  u32 (unwrapped cur v) = v /\ -1 <= unwrapped cur v < cur.
Proof. intros. unfold unwrapped. case_bool_decide; int_lia. Qed.

Lemma covered_saved g hist (s : SSPState) v : ssp_bg_ok g hist s -> in_u32 v ->
  u32 (v + 1) <= bg_version s -> covers s v ->
  let w := unwrapped (bg_version s) v in
  (w + 1 < bg_version s -> mgr_saved (bg_mgr s) (sent_oplog hist) (w + 1) (bg_version s - 1)) /\
  (forall b table_id t, w < b < bg_version s -> bg_tables s !! table_id = Some t ->
     is_Some (sent_oplog hist b !! table_id)).
Proof.
  intros [Hm Hh Hp _] Hv Hw (q & Hq & Hage) w.
  pose proof (mgr_cur _ _ Hm) as Hc. destruct (unwrapped_spec _ v Hc Hv Hw) as [Ew Hwr]. fold w in Ew, Hwr.
  assert (Hin : req_version q ∈ pending_versions (bg_mgr s)) by (by apply list_elem_of_fmap_2).
  assert (Hmap : forall b, w < b < bg_version s ->
    exists o, version_oplog_map (bg_mgr s) !! b = Some o /\ hist !! b = Some o).
  { intros b Hb. destruct (proj2 (mgr_ops _ _ Hm b)) as [o Ho].
    - split; [unfold in_u32 in *; lia|]. exists (req_version q). split; [done|].
      eapply Z.lt_le_trans; [|exact Hage]. rewrite <- Ew. unfold age. int_lia.
    - exists o. split; [done|]. by eapply lookup_weaken. }
  split.
  - intros Hlt. split.
    + unfold no_wrap. int_lia.
    + intros a Ha. rewrite u32_id by (unfold in_u32 in *; lia). destruct (Hmap a) as (o & E & E'); [lia|].
      unfold sent_oplog. by rewrite E, E'.
  - intros b table_id t Hb Ht. destruct (Hmap b Hb) as (o & _ & E). unfold sent_oplog. rewrite E.
    by eapply Hp.
Qed.
End SSP_ROWS.

Section SSP_REPLY.
Context {R V : Type} `{NumOk V} `{!AbstractRow R V}.
#[local] Abbreviation SSPState := (BgState R V (SSPRowRequestOpLogMgr (BgOpLog V))).

(** The row a reply brings up to date: the updates of the sent oplogs the server
    had not applied, then those not sent yet. *)
Definition missing_updates (g : GlobalContext) (hist : gmap Z (BgOpLog V)) (table_id row_id v cur : Z)
    (t : ClientTable R V) : list (Z * V) :=
  sent_updates table_id row_id (sent_oplog hist) (unwrapped cur v + 1) (cur - 1)
  ++ unsent_updates g (ct_oplog t) row_id.

Lemma ssp_bg_ok_update g hist (s : SSPState) table_id t ps m r row_id clock :
  ssp_bg_ok g hist s -> bg_tables s !! table_id = Some t -> row_cached g t row_id clock r ps ->
  mgr_ok (bg_version s) m -> version_oplog_map m ⊆ hist ->
  ssp_bg_ok g hist (with_mgr m (with_storage_of table_id t ps s)).
Proof.
  intros [_ _ Hp Ht] Htab [Hok (refs & slot & Hrow & Hrefs) Hk Hoth] Hm Hh. constructor; [done|done| |].
  - intros v o table_id' t' Ho. cbn. intros [[<- <-]|[_ Hl]]%lookup_insert_Some; [by eapply Hp|by eapply Hp].
  - intros table_id' t'. cbn. intros [[<- <-]|[_ Hl]]%lookup_insert_Some; [|by eapply Ht].
    destruct (Ht _ _ Htab) as [Hol Hps _ Hrs]. constructor; [done|done|done|].
    intros id row sl Hl. destruct (decide (id = row_id)) as [->|Hne]; [|by eapply Hrs, Hoth].
    cbn in Hl. rewrite Hrow in Hl. by injection Hl as <- <-.
Qed.

Lemma InformReply_history {O} indet table_id row_id clock cur (m : SSPRowRequestOpLogMgr O) c apps m' :
  InformReply indet table_id row_id clock cur m = Ret (c, apps, m') -> version_oplog_map m' ⊆ version_oplog_map m.
Proof.
  unfold InformReply. intros E. apply bind_Ret_inv in E as (rs & E1 & E). injection E as _ _ <-.
  by apply inform_loop_subset in E1.
Qed.

Lemma ssp_insert_spec g hist table_id row_id clock version r r' (s : SSPState) t :
  consistency_model g = SSP -> context_ok g -> 0 <= row_id -> ssp_bg_ok g hist s ->
  in_u32 version -> u32 (version + 1) <= bg_version s -> covers s version ->
  bg_tables s !! table_id = Some t -> can_insert row_id (ct_storage t) ->
  row_apply_all (missing_updates g hist table_id row_id version (bg_version s) t) r = Ret r' ->
  exists m' ps', ApplyOpLogsAndInsertRow g table_id row_id version r clock s
      = Ret (with_mgr m' (with_storage_of table_id t ps' s)) /\
    ssp_same (bg_mgr s) m' /\ row_cached g t row_id clock r' ps'.
Proof.
  intros Hm Hg Hrow Hok Hv Hw Hcov Ht Hins Hr. pose proof (mgr_cur _ _ (sb_mgr _ _ _ Hok)) as Hc.
  destruct (covered_saved g hist s version Hok Hv Hw Hcov) as [Hsaved Hparts].
  destruct (unwrapped_spec _ version Hc Hv Hw) as [Ew Hwr].
  pose proof (ApplyOpLogsAndInsertRow_spec g table_id row_id (sent_oplog hist)
    (unwrapped (bg_version s) version) (bg_version s) r r' clock s t) as Hins'.
  rewrite Ew in Hins'. apply Hins'; try done; try lia; clear Hins'.
  - by left.
  - by eapply sb_tables.
  - by rewrite u32_id.
  - int_lia.
  - rewrite (u32_id (bg_version s)) by done.
    replace (u32 (unwrapped (bg_version s) version + 1)) with (u32 (version + 1)); [done|].
    clear -Ew. int_lia.
  - intros b Hb. by eapply Hparts.
Qed.
End SSP_REPLY.

Lemma ssp_reply_spec {R V} `{NumOk V} `{!AbstractRow R V} g reg indet hist
    (s : BgState R V (SSPRowRequestOpLogMgr (BgOpLog V))) server_id table_id row_id clock version data t r r' :
  consistency_model g = SSP -> context_ok g -> 0 <= row_id -> 0 <= clock -> ssp_bg_ok g hist s ->
  in_u32 version -> u32 (version + 1) <= bg_version s -> covers s version ->
  bg_tables s !! table_id = Some t -> can_insert row_id (ct_storage t) ->
  read_row reg table_id data s = Ret r ->
  row_apply_all (missing_updates g hist table_id row_id version (bg_version s) t) r = Ret r' ->
  let l := waiting (pending_row_requests (bg_mgr s)) (table_id, row_id) in
  exists s' ps' requests,
    HandleServerRowRequestReply g reg indet server_id table_id row_id clock version data s
      = Ret (s', requests ++ (OutAppReply <$> (app_thread_id <$> filter (fun q => req_clock q <= clock) l))) /\
    row_cached g t row_id clock r' ps' /\
    bg_tables s' = <[table_id := with_client_storage ps' t]> (bg_tables s) /\
    ssp_bg_ok g hist s' /\ bg_version s' = bg_version s /\
    (exists owner, GetRowPartitionServerID g table_id row_id = Ret owner /\
      requests = match filter (fun q => ~ (req_clock q <= clock)) l with
                 | [] => []
                 | q :: _ => if read_sent indet q then []
                             else [OutRowRequest owner table_id row_id (req_clock q)]
                 end).
Proof.
  intros Hm Hg Hrow Hclk Hok Hv Hw Hcov Ht Hins Hread Hr l.
  destruct (ssp_insert_spec g hist table_id row_id clock version r r' s t) as (m & ps & E & Hsame & Hrc); [done..|].
  assert (Hmok : mgr_ok (bg_version s) m) by (eapply mgr_ok_same; [exact Hsame|apply Hok]).
  destruct (InformReply_spec indet table_id row_id clock (bg_version s) m Hmok) as (m2 & E2 & Hmok2 & _ & _).
  destruct (GetRowPartitionServerID_total g table_id row_id Hg Hrow) as (owner & Eo & _).
  assert (El : waiting (pending_row_requests m) (table_id, row_id) = l) by (unfold l; by destruct Hsame as (-> & _)).
  rewrite El in E2. pose proof (InformReply_history _ _ _ _ _ _ _ _ _ E2) as Hsub.
  unfold HandleServerRowRequestReply. rewrite Hread. cbn [mbind outcome_bind mgr_ServerAcknowledgeVersion SSP_mgr].
  replace (with_mgr (bg_mgr s) s) with s by (by destruct s). rewrite E. cbn [mbind outcome_bind].
  cbn [bg_version bg_mgr with_mgr with_version_mgr with_storage_of with_tables mgr_InformReply SSP_mgr].
  rewrite E2. cbn [mbind outcome_bind]. unfold resend in *.
  assert (Hoks : ssp_bg_ok g hist (with_mgr m2 (with_mgr m (with_storage_of table_id t ps s)))).
  { apply (ssp_bg_ok_update g hist s table_id t ps m2 r' row_id clock); try done.
    etrans; [exact Hsub|]. destruct Hsame as (_ & -> & _). apply Hok. }
  destruct (filter (fun q => ~ (req_clock q <= clock)) l) as [|q rest] eqn:Ef; cbn [fst] in *.
  - eexists _, ps, []. split; [done|]. split_and!; [done..|]. by exists owner.
  - assert (Hq : clock < req_clock q).
    { assert (q ∈ filter (fun q => ~ (req_clock q <= clock)) l) as [Hq _]%list_elem_of_filter
        by (rewrite Ef; by left). lia. }
    destruct (read_sent indet q); cbn [fst].
    + eexists _, ps, []. split; [done|]. split_and!; [done..|]. by exists owner.
    + rewrite bool_decide_true by lia. rewrite Eo. cbn [mbind outcome_bind].
      eexists _, ps, [_]. split; [done|]. split_and!; [done..|]. by exists owner.
Qed.

(** C2: in SSP mode, when a row arrives from a server and a request that waits was
    sent no later than the version of the reply, the worker puts into the
    process cache the server's row with every update of its own client that the
    server had not applied, each once and in order (the oplogs sent since, then
    the updates not sent yet), with the clock of the reply; it answers exactly
    the application threads that wait for the row at that clock or less, and
    asks the server again for the first of the others unless that one's flag
    says it has; all other rows that are still cached stay as they were. *)
Theorem ssp_reply_read_my_writes {R V} `{NumOk V} `{!AbstractRow R V} g reg indet hist
    (s : BgState R V (SSPRowRequestOpLogMgr (BgOpLog V))) server_id table_id row_id clock version data t r r' :
  consistency_model g = SSP -> context_ok g -> 0 <= row_id -> 0 <= clock -> ssp_bg_ok g hist s ->
  in_u32 version -> u32 (version + 1) <= bg_version s -> covers s version ->
  bg_tables s !! table_id = Some t -> can_insert row_id (ct_storage t) ->
  read_row reg table_id data s = Ret r ->
  row_apply_all (missing_updates g hist table_id row_id version (bg_version s) t) r = Ret r' ->
  let l := waiting (pending_row_requests (bg_mgr s)) (table_id, row_id) in
  exists s' ps' requests,
    HandleServerRowRequestReply g reg indet server_id table_id row_id clock version data s
      = Ret (s', requests ++ (OutAppReply <$> (app_thread_id <$> filter (fun q => req_clock q <= clock) l))) /\
    row_cached g t row_id clock r' ps' /\
    bg_tables s' = <[table_id := with_client_storage ps' t]> (bg_tables s) /\
    ssp_bg_ok g hist s' /\ bg_version s' = bg_version s /\
    (exists owner, GetRowPartitionServerID g table_id row_id = Ret owner /\
      requests = match filter (fun q => ~ (req_clock q <= clock)) l with
                 | [] => []
                 | q :: _ => if read_sent indet q then []
                             else [OutRowRequest owner table_id row_id (req_clock q)]
                 end).
Proof. apply ssp_reply_spec. Qed.
