(* ===== verification/BgProps.v ===== *)
(** * Row requests and rows of a background worker

    What a background worker answers to the application threads, the rows the
    servers push, and a reply that finds its oplogs gone. *)
From stdpp Require Import strings.
From S2P Require Import Prelude Bytes Num VectorClock Context SparseRow OpLog OpLogWire OpLogMsgs RowWire ServerRow VersionMgr RequestMgr PushMgr ClockLRU ProcessStorage OpLogMgr BgWorkers BgRows.
Open Scope Z_scope.

Section FRESH.
Context {R : Type}.

Lemma find_fresh_spec row_id clock (ps : ProcessStorage R) : ps_ok ps ->
  (forall row slot, storage_map ps !! row_id = Some (row, slot) -> in_i32 (num_refs row)) ->
  exists ps', find_fresh row_id clock ps
      = Ret (match storage_map ps !! row_id with
             | Some (row, _) => bool_decide (GetClock row >= clock) | None => false end, ps') /\
    ps_ok ps' /\ storage_map ps' = storage_map ps.
Proof.
  intros Hok Hrefs. unfold find_fresh. destruct (storage_map ps !! row_id) as [[row slot]|] eqn:E.
  2:{ unfold Find. rewrite E. exists ps. split_and!; done. }
  destruct (Find_found row_id ps row slot Hok E) as (ps1 & E1 & A1).
  destruct (Release_found row_id ps1 (IncRef row) slot) as (ps2 & E2 & A2);
    [apply A1|by eapply row_replaced_at|].
  rewrite E1. cbn [mbind outcome_bind]. rewrite E2. exists ps2. split; [done|].
  rewrite DecRef_IncRef in A2 by by eapply Hrefs. pose proof (row_replaced_again _ _ _ _ _ _ _ A1 A2) as [Ho Em _ _].
  split; [done|]. by rewrite Em, insert_id.
Qed.
End FRESH.

Section QUEUE.
Context {R V : Type} `{NumOk V} `{!AbstractRow R V}.

(** The same rows in a process cache whose replacement state has changed. *)
Lemma ssp_bg_ok_same g hist (s : BgState R V (SSPRowRequestOpLogMgr (BgOpLog V))) table_id t ps m :
  ssp_bg_ok g hist s -> bg_tables s !! table_id = Some t -> ps_ok ps ->
  storage_map ps = storage_map (ct_storage t) ->
  mgr_ok (bg_version s) m -> version_oplog_map m ⊆ hist ->
  ssp_bg_ok g hist (with_mgr m (with_storage_of table_id t ps s)).
Proof.
  intros [_ _ Hp Ht] Htab Hps Hmap Hm Hh. constructor; [done|done| |].
  - intros v o table_id' t' Ho. cbn. intros [[<- <-]|[_ Hl]]%lookup_insert_Some; by eapply Hp.
  - intros table_id' t'. cbn. intros [[<- <-]|[_ Hl]]%lookup_insert_Some; [|by eapply Ht].
    destruct (Ht _ _ Htab). constructor; cbn; rewrite ?Hmap; done.
Qed.

Lemma AddRowRequest_queue {O} (m : SSPRowRequestOpLogMgr O) cur q t r sent m' :
  mgr_ok cur m -> AddRowRequest q t r m = (sent, m') ->
  let l := waiting (pending_row_requests m) (t, r) in
  waiting (pending_row_requests m') (t, r)
    = filter (fun p => req_clock p <= req_clock q) l ++
      copy_request q :: filter (fun p => ~ (req_clock p <= req_clock q)) l /\
  (sent = true <-> forall p, p ∈ l -> req_clock q < req_clock p) /\
  version_oplog_map m' = version_oplog_map m.
Proof.
  intros Hok E l. pose proof (insert_request_spec q l (waiting_sorted _ _ _ Hok)) as Hi.
  unfold AddRowRequest in E. fold (waiting (pending_row_requests m) (t, r)) in E. fold l in E.
  destruct (insert_request q l) as [l2 s2]. injection E as <- <-. destruct Hi as (_ & Hl & Hs).
  split_and!; [|done|done]. unfold waiting. cbn. by rewrite lookup_insert_eq.
Qed.
End QUEUE.

(** A row request of an application thread is answered at once exactly if the
    process cache has the row at the requested clock; otherwise it joins the
    requests that wait for the row, in clock order, and goes to the row's server
    exactly if all of them ask for a later clock; nothing else changes. *)
Lemma row_request_answered_or_queued {R V} `{NumOk V} `{!AbstractRow R V} g hist
    (s : BgState R V (SSPRowRequestOpLogMgr (BgOpLog V))) app table_id row_id clock t :
  context_ok g -> 0 <= row_id -> ssp_bg_ok g hist s -> bg_tables s !! table_id = Some t ->
  let l := waiting (pending_row_requests (bg_mgr s)) (table_id, row_id) in
  let q := mkRequest app clock (u32 (bg_version s - 1)) None in
  exists s' ps' owner outs,
    CheckForwardRowRequestToServer g app table_id row_id clock s = Ret (s', outs) /\
    GetRowPartitionServerID g table_id row_id = Ret owner /\
    ssp_bg_ok g hist s' /\ bg_version s' = bg_version s /\
    bg_tables s' = <[table_id := with_client_storage ps' t]> (bg_tables s) /\
    storage_map ps' = storage_map (ct_storage t) /\
    if match storage_map (ct_storage t) !! row_id with
       | Some (row, _) => bool_decide (GetClock row >= clock) | None => false end
    then outs = [OutAppReply app] /\ bg_mgr s' = bg_mgr s
    else waiting (pending_row_requests (bg_mgr s')) (table_id, row_id)
           = filter (fun p => req_clock p <= clock) l ++ q :: filter (fun p => ~ (req_clock p <= clock)) l /\
         outs = if decide (Forall (fun p => clock < req_clock p) l)
                then [OutRowRequest owner table_id row_id clock] else [].
Proof.
  intros Hg Hrow Hok Ht l q. pose proof (sb_tables _ _ _ Hok _ _ Ht) as Hto.
  destruct (find_fresh_spec row_id clock (ct_storage t)) as (ps' & E & Hps & Hmap);
    [apply Hto|by apply Hto|].
  destruct (GetRowPartitionServerID_total g table_id row_id Hg Hrow) as (owner & Eo & _).
  assert (Hok' : forall m, mgr_ok (bg_version s) m -> version_oplog_map m ⊆ hist ->
    ssp_bg_ok g hist (with_mgr m (with_storage_of table_id t ps' s))).
  { intros m Hm Hh. by apply (ssp_bg_ok_same g hist s table_id t ps' m). }
  unfold CheckForwardRowRequestToServer. rewrite Ht. cbn [checked mbind outcome_bind]. rewrite E.
  cbn [mbind outcome_bind]. destruct (match storage_map (ct_storage t) !! row_id with
    | Some (row, _) => bool_decide (GetClock row >= clock) | None => false end) eqn:Ef.
  - exists (with_storage_of table_id t ps' s), ps', owner, [OutAppReply app]. split_and!; try done.
    replace (with_storage_of table_id t ps' s) with (with_mgr (bg_mgr s) (with_storage_of table_id t ps' s))
      by done. apply Hok'; apply Hok.
  - cbn [bg_version bg_mgr with_storage_of with_tables]. fold q.
    destruct (mgr_AddRowRequest q table_id row_id (bg_mgr s)) as [sent m] eqn:Ea.
    pose proof (AddRowRequest_queue _ _ _ _ _ _ _ (sb_mgr _ _ _ Hok) Ea) as (Hw & Hsent & Hops).
    assert (Hm : mgr_ok (bg_version s) m).
    { replace m with (snd (AddRowRequest q table_id row_id (bg_mgr s))) by (cbn in Ea; by rewrite Ea).
      apply AddRowRequest_ok, Hok. }
    exists (with_mgr m (with_storage_of table_id t ps' s)), ps', owner.
    assert (Hs' : ssp_bg_ok g hist (with_mgr m (with_storage_of table_id t ps' s))).
    { apply Hok'; [done|]. rewrite Hops. apply Hok. }
    fold l in Hw, Hsent. destruct sent.
    + eexists. rewrite Eo. cbn [mbind outcome_bind]. split_and!; try done.
      rewrite decide_True; [done|]. apply Forall_forall. by apply Hsent.
    + eexists. split_and!; try done. rewrite decide_False; [done|].
      rewrite Forall_forall. intros Hall. by apply Hsent in Hall.
Qed.

(** A reply to a row request that no longer waits, because an earlier reply
    answered it too, aborts the process once an oplog was sent after the version
    of the reply: that oplog was not saved. *)
Lemma redundant_reply_aborts {R V} `{NumOk V} `{!AbstractRow R V} g reg indet
    (s : BgState R V (SSPRowRequestOpLogMgr (BgOpLog V))) server_id table_id row_id clock version data r :
  mgr_ok (bg_version s) (bg_mgr s) -> all_pending (pending_row_requests (bg_mgr s)) = [] ->
  read_row reg table_id data s = Ret r -> u32 (version + 1) < bg_version s ->
  HandleServerRowRequestReply g reg indet server_id table_id row_id clock version data s = CheckFail.
Proof.
  intros Hok Hnone Hread Hv. unfold HandleServerRowRequestReply. rewrite Hread.
  cbn [mbind outcome_bind mgr_ServerAcknowledgeVersion SSP_mgr].
  unfold ApplyOpLogsAndInsertRow, prepare_client_row. cbn [bg_tables bg_mgr bg_version with_mgr with_version_mgr].
  destruct (bg_tables s !! table_id) as [t|]; [|done]. cbn [checked mbind outcome_bind].
  unfold ApplyOldOpLogsToRowData. rewrite bool_decide_true by done.
  cbn [mgr_OpLogIterInit SSP_mgr]. unfold OpLogIterInit, GetOpLog. cbn [version_oplog_map].
  destruct (version_oplog_map (bg_mgr s) !! u32 (version + 1)) as [o|] eqn:E; [|done].
  exfalso. destruct (proj1 (mgr_ops _ _ Hok (u32 (version + 1)))) as [_ (q & Hq & _)]; [by eexists|].
  unfold pending_versions in Hq. rewrite Hnone in Hq. by apply elem_of_nil in Hq.
Qed.

(** C13: in push mode, when a server pushes a row as of version [v], the process
    cache gets that row with every update of its own client that the server had
    not applied, each once and in order: the oplogs sent since [v], then the
    updates not sent yet. *)
Theorem pushed_row_read_my_writes {R V} `{NumOk V} `{!AbstractRow R V} g reg hist spec mn
    (s : BgState R V (SSPPushRowRequestOpLogMgr (BgOpLog V))) server_id a v e t r r' :
  consistency_model g = SSPPush -> context_ok g -> 0 <= rc_row_id e ->
  push_ok hist (bg_mgr s) spec mn -> bg_version s = u32 (sent spec + 1) ->
  acked spec !! server_id = Some a -> a <= v <= sent spec -> u32 (v + 1) <= u32 (sent spec + 1) ->
  bg_tables s !! rc_table_id e = Some t -> client_table_ok g t -> can_insert (rc_row_id e) (ct_storage t) ->
  (forall b, v < b <= sent spec -> is_Some (hist b !! rc_table_id e)) ->
  read_row reg (rc_table_id e) (rc_data e) s = Ret r ->
  row_apply_all (sent_updates (rc_table_id e) (rc_row_id e) hist (v + 1) (sent spec)
                 ++ unsent_updates g (ct_oplog t) (rc_row_id e)) r = Ret r' ->
  exists m1 m2 mn' ps',
    mgr_ServerAcknowledgeVersion server_id (u32 v) (bg_mgr s) = Ret m1 /\
    apply_pushed_row g reg (u32 v) (with_mgr m1 s) e
      = Ret (with_mgr m2 (with_storage_of (rc_table_id e) t ps' s)) /\
    row_cached g t (rc_row_id e) 0 r' ps' /\
    push_ok hist m2 (mkAckSpec (<[server_id := v]> (acked spec)) (sent spec)) mn'.
Proof.
  intros Hm Hg Hrow Hpush Hver Ha Hv Hw Ht Hto Hins Hparts Hread Hr.
  destruct (ServerAcknowledgeVersion_refines _ _ _ _ _ _ _ Hpush Ha Hv) as (d & m1 & mn' & E & Hpush' & _).
  pose proof Hpush' as [(Hvm & Hub & Hmn & [Hin Hmin] & Hwin) Hl].
  assert (Hmv : mn' <= v) by (apply (Hmin server_id); cbn; by rewrite lookup_insert_eq).
  assert (Hlag : sent spec - mn' < 2 ^ 32).
  { destruct Hin as [j Hj]. specialize (Hwin j mn' Hj). cbn in Hwin. lia. }
  destruct (ApplyOpLogsAndInsertRow_spec g (rc_table_id e) (rc_row_id e) hist v (sent spec + 1) r r' 0
    (with_mgr m1 s) t) as (m2 & ps' & E2 & (S1 & S2 & S3) & Hc); try done; try lia.
  - by right.
  - intros Hlt. split; [unfold no_wrap; int_lia|]. exists mn', (sent spec). split_and!; [exact Hl|lia..].
  - intros b Hb. apply Hparts. lia.
  - by replace (sent spec + 1 - 1) with (sent spec) by lia.
  - exists m1, m2, mn', ps'. cbn [mgr_ServerAcknowledgeVersion Push_mgr]. rewrite E. split; [done|].
    unfold apply_pushed_row. change (read_row reg (rc_table_id e) (rc_data e) (with_mgr m1 s))
      with (read_row reg (rc_table_id e) (rc_data e) s). rewrite Hread. cbn [mbind outcome_bind].
    rewrite E2. split; [done|]. split; [done|]. cbn in S1, S2, S3. split.
    + by rewrite S3.
    + by rewrite S2.
Qed.

(** *** Witnesses

    Client 0 of [demo_context] with one table of sparse rows. *)
Definition bg_reg : ClassRegistry (RowClass (SparseRow int32)) :=
  AddCreator 1 (mkRowClass (fun _ => Ret (mkSparseRow ∅)) SparseRow_Deserialize) ClassRegistry_new.

(** Row 3 has an update that is not sent yet. *)
Definition demo_client_table : ClientTable (SparseRow int32) int32 :=
  mkClientTable 1 [{[3 := demo_row_oplog 1]}; ∅; ∅] [∅; ∅; ∅] (ProcessStorage_new 2 3).

Definition demo_sent : BgOpLog int32 := {[0 := mkBgOpLogPartition {[3 := demo_row_oplog 5]} 0 4]}.

Lemma demo_client_table_ok : client_table_ok demo_context demo_client_table.
Proof.
  constructor; [done|by apply ProcessStorage_new_ok| |];
    intros id row slot Hl; cbn in Hl; by rewrite lookup_empty in Hl.
Qed.

Lemma demo_can_insert row_id : can_insert row_id (ct_storage demo_client_table).
Proof. split; [by vm_compute|]. intros _ Hn. by vm_compute in Hn. Qed.

(** A request for row 3 waits; oplog 0 has been sent since. *)
Definition demo_waiting : SSPRowRequestOpLogMgr (BgOpLog int32) :=
  mkSSPMgr {[(0, 3) := [mkRequest 201 0 (2 ^ 32 - 1) None]]} {[0 := demo_sent]} {[2 ^ 32 - 1 := 1]} 0 0.

Lemma demo_waiting_reachable : ssp_reachable {[0 := demo_sent]} 1 demo_waiting.
Proof.
  apply (ssp_oplog ∅ 0 (snd (AddRowRequest (mkRequest 201 0 (u32 (0 - 1)) None) 0 3 SSPMgr_init)) demo_sent true).
  - apply ssp_request, ssp_start. by vm_compute.
  - apply (bool_decide_unpack _). by vm_compute.
  - done.
Qed.

Definition demo_bg_state : BgState (SparseRow int32) int32 (SSPRowRequestOpLogMgr (BgOpLog int32)) :=
  mkBgState 1 demo_waiting VectorClock_default 1 0 0 {[0 := demo_client_table]} VectorClock_default 0.

Lemma demo_ssp_bg_ok : ssp_bg_ok demo_context {[0 := demo_sent]} demo_bg_state.
Proof.
  destruct (ssp_reachable_ok _ _ _ demo_waiting_reachable) as [Hm Hh]. constructor; [done|done| |].
  - intros v o table_id t [<- <-]%lookup_singleton_Some Ht.
    change (({[0 := demo_client_table]} : gmap Z _) !! table_id = Some t) in Ht.
    apply lookup_singleton_Some in Ht as [<- _]. by eexists.
  - intros table_id t Ht. change (({[0 := demo_client_table]} : gmap Z _) !! table_id = Some t) in Ht.
    apply lookup_singleton_Some in Ht as [<- <-]. apply demo_client_table_ok.
Qed.

(** Column 7 of the server's row is 10; the worker adds 5 (sent) and 1. *)
Definition demo_server_row : list Z := SparseRow_Serialize (mkSparseRow {[7 := to_int32 10]}).

Lemma ssp_reply_read_my_writes_witness :
  exists s' ps' requests refs slot,
    HandleServerRowRequestReply demo_context bg_reg false 1 0 3 0 (2 ^ 32 - 1) demo_server_row demo_bg_state
      = Ret (s', requests ++ [OutAppReply 201]) /\
    storage_map ps' !! 3 = Some (mkClientRow refs (mkSparseRow {[7 := to_int32 16]}) (Some 0), slot) /\
    bg_tables s' = {[0 := with_client_storage ps' demo_client_table]}.
Proof.
  destruct (ssp_reply_read_my_writes demo_context bg_reg false {[0 := demo_sent]} demo_bg_state 1 0 3 0
    (2 ^ 32 - 1) demo_server_row demo_client_table (mkSparseRow {[7 := to_int32 10]}) (mkSparseRow {[7 := to_int32 16]}))
    as (s' & ps' & requests & E & [_ (refs & slot & Hrow & _) _ _] & Hts & _).
  - done.
  - exact demo_context_ok.
  - done.
  - done.
  - exact demo_ssp_bg_ok.
  - by vm_compute.
  - by vm_compute.
  - exists (mkRequest 201 0 (2 ^ 32 - 1) None). split; [|by vm_compute].
    assert (E : all_pending (pending_row_requests (bg_mgr demo_bg_state)) = [mkRequest 201 0 (2 ^ 32 - 1) None])
      by (by vm_compute). rewrite E. by left.
  - done.
  - apply demo_can_insert.
  - by vm_compute.
  - by vm_compute.
  - exists s', ps', requests, refs, slot. split_and!; [|exact Hrow|].
    + exact E.
    + rewrite Hts. cbn [demo_bg_state bg_tables]. by rewrite insert_singleton_eq.
Defined.

(** Two application threads of different clocks ask for one row; the reply to
    the first answers both, a clock ends, and the reply to the second aborts. *)
Definition demo_bg_start : outcome (BgState (SparseRow int32) int32 (SSPRowRequestOpLogMgr (BgOpLog int32))) :=
  InitBgContext demo_context {[0 := demo_client_table]} (VectorClock_init [100; 101; 102]).

Definition demo_bg_run (evs : list bg_event) :=
  s ← demo_bg_start;
  bg_run demo_context bg_reg (fun n => replicate (Z.to_nat n) 0) (fun p => map_to_list (bop_map p))
    (fun i => elements i) false 100 s evs.

Definition demo_crossing : list bg_event :=
  [EvBgClock; EvBgClock; EvBgClock; EvBgClock; EvAppRowRequest 201 0 3 3; EvAppRowRequest 202 0 3 2;
   EvServerReply 1000 0 3 3 3 demo_server_row; EvBgClock].

Definition demo_crossed : BgState (SparseRow int32) int32 (SSPRowRequestOpLogMgr (BgOpLog int32)) :=
  match demo_bg_run demo_crossing with Ret (s, _) => s | _ => demo_bg_state end.

Definition is_oplog (o : bg_out) : bool := match o with OutOpLog _ _ _ _ _ => true | _ => false end.

Definition demo_push_state : BgState (SparseRow int32) int32 (SSPPushRowRequestOpLogMgr (BgOpLog int32)) :=
  mkBgState 1 (InformVersionInc (snd (PushAddOpLog 0 demo_sent (PushMgr_init [1])))) VectorClock_default
    1 0 0 {[0 := demo_client_table]} VectorClock_default 0.

Definition push_context : GlobalContext :=
  mkGlobalContext 2 1 2 2 3 6 1 2 [1; 1000] 0 1 SSPPush false (-1) "snap" (-1) "snap".

Lemma pushed_row_read_my_writes_witness :
  exists m1 m2 ps' refs slot,
    apply_pushed_row push_context bg_reg (u32 (-1)) (with_mgr m1 demo_push_state) (mkRowRecord 0 3 demo_server_row)
      = Ret (with_mgr m2 (with_storage_of 0 demo_client_table ps' demo_push_state)) /\
    storage_map ps' !! 3 = Some (mkClientRow refs (mkSparseRow {[7 := to_int32 16]}) None, slot).
Proof.
  destruct (pushed_row_read_my_writes push_context bg_reg (fun _ => demo_sent)
    (mkAckSpec (init_acks [1]) 0) (-1) demo_push_state 1 (-1) (-1) (mkRowRecord 0 3 demo_server_row)
    demo_client_table (mkSparseRow {[7 := to_int32 10]}) (mkSparseRow {[7 := to_int32 16]}))
    as (m1 & m2 & mn' & ps' & _ & E & [_ (refs & slot & Hrow & _) _ _] & _).
  - done.
  - constructor; [done|done| |done]. apply (bool_decide_unpack _). by vm_compute.
  - done.
  - apply (push_send_ok (fun _ => demo_sent) (PushMgr_init [1]) (mkAckSpec (init_acks [1]) (-1)) (-1));
      [apply PushMgr_init_ok|done].
  - by vm_compute.
  - done.
  - done.
  - by vm_compute.
  - done.
  - constructor; [done|by apply ProcessStorage_new_ok| |];
      intros id row slot Hl; cbn in Hl; by rewrite lookup_empty in Hl.
  - apply demo_can_insert.
  - intros b _. by eexists.
  - by vm_compute.
  - by vm_compute.
  - exists m1, m2, ps', refs, slot. split; [exact E|exact Hrow].
Defined.
