(* ===== verification/ThreadTable.v ===== *)
(** * Thread caches

    [ThreadTable] ([petuum_ps/client/thread_table.cpp]): an application
    thread keeps copies of rows and coalesces its updates until it flushes
    them into the oplog of the table and the process cache. *)
From S2P Require Import Prelude Bytes Num Context SparseRow OpLog RowWire ServerRow ClockLRU ProcessStorage.
Open Scope Z_scope.

Section THREAD_TABLE.
Context {R V : Type} `{Num V} `{!AbstractRow R V} `{!HashOrder}.
Context (g : GlobalContext).

(** [oplog_index_], [row_storage_] and [oplog_map_]. *)
Record ThreadTable := mkThreadTable {
  tt_index : list (gset Z);
  tt_rows : gmap Z R;
  tt_oplogs : gmap Z (RowOpLog V)
}.

Definition ThreadTable_new : ThreadTable :=
  mkThreadTable (replicate (Z.to_nat (num_bg_threads g)) ∅) ∅ ∅.

Definition index_insert (row_id : Z) (idx : list (gset Z)) : outcome (list (gset Z)) :=
  partition_num ← GetBgPartitionNum g row_id;
  s ← vec_at idx partition_num;
  vec_set idx partition_num ({[row_id]} ∪ s).

Definition IndexUpdate (row_id : Z) (tt : ThreadTable) : outcome ThreadTable :=
  idx ← index_insert row_id (tt_index tt); Ret (mkThreadTable idx (tt_rows tt) (tt_oplogs tt)).

(** One turn per background thread. *)
Definition flush_index_step (st : list (gset Z) * TableOpLogIndex) (i : Z)
    : outcome (list (gset Z) * TableOpLogIndex) :=
  s ← vec_at (fst st) i;
  toi ← TableOpLogIndex_AddIndex i (elements s) (snd st);
  idx ← vec_set (fst st) i ∅;
  Ret (idx, toi).

Definition FlushOpLogIndex (toi : TableOpLogIndex) (tt : ThreadTable)
    : outcome (ThreadTable * TableOpLogIndex) :=
  '(idx, toi') ← foldM flush_index_step (seqZ 0 (num_bg_threads g)) (tt_index tt, toi);
  Ret (mkThreadTable idx (tt_rows tt) (tt_oplogs tt), toi').

Definition GetRow (row_id : Z) (tt : ThreadTable) : option R := tt_rows tt !! row_id.

(** A clone has the value of its row. *)
Definition InsertRow (row_id : Z) (to_insert : R) (tt : ThreadTable) : outcome ThreadTable :=
  row ← match tt_oplogs tt !! row_id with
        | None => Ret to_insert
        | Some l => us ← RowOpLog_iterate l; row_apply_all us to_insert
        end;
  Ret (mkThreadTable (tt_index tt) (<[row_id := row]> (tt_rows tt)) (tt_oplogs tt)).

(** The row's oplog, created if it is missing. *)
Definition thread_oplog (row_id : Z) (tt : ThreadTable) : RowOpLog V :=
  default RowOpLog_new (tt_oplogs tt !! row_id).

Definition apply_if_cached (row_id : Z) (f : R -> outcome R) (rows : gmap Z R) : outcome (gmap Z R) :=
  match rows !! row_id with
  | None => Ret rows
  | Some r => r' ← f r; Ret (<[row_id := r']> rows)
  end.

Definition ThreadTable_Inc (row_id column_id : Z) (delta : V) (tt : ThreadTable) : outcome ThreadTable :=
  let l := inc_row_oplog (R := R) (thread_oplog row_id tt) (column_id, delta) in
  rows ← apply_if_cached row_id (row_apply_inc column_id delta) (tt_rows tt);
  Ret (mkThreadTable (tt_index tt) rows (<[row_id := l]> (tt_oplogs tt))).

Definition ThreadTable_BatchInc (row_id : Z) (us : list (Z * V)) (tt : ThreadTable) : outcome ThreadTable :=
  let l := foldl (inc_row_oplog (R := R)) (thread_oplog row_id tt) us in
  rows ← apply_if_cached row_id (row_apply_batch_inc us) (tt_rows tt);
  Ret (mkThreadTable (tt_index tt) rows (<[row_id := l]> (tt_oplogs tt))).

(** ** Writing through the accessors *)

(** [FindInsertOpLog], then [FindCreate] and [AddUpdates] for each update. *)
Definition oplog_add (row_id : Z) (us : list (Z * V)) (t : TableOpLog V) : outcome (TableOpLog V) :=
  '(l, t1) ← TableOpLog_FindInsertOpLog g row_id t;
  snd <$> on_partition g row_id
            (fun p => (tt, <[row_id := foldl (inc_row_oplog (R := R)) l us]> p)) t1.

(** Changing the data of the row an accessor refers to. *)
Definition set_row_data (row_id : Z) (r : R) (ps : ProcessStorage R) : outcome (ProcessStorage R) :=
  '(row, slot) ← deref (storage_map ps !! row_id);
  Ret (with_map (<[row_id := (mkClientRow (num_refs row) r (cr_clock row), slot)]> (storage_map ps))
         (clock_lru ps) ps).

(** [Find]; if the row is there, [f] on its data; the accessor is released. *)
Definition update_found (row_id : Z) (f : R -> outcome R) (ps : ProcessStorage R) : outcome (ProcessStorage R) :=
  '(found, ps1) ← Find row_id ps;
  match found with
  | None => Ret ps1
  | Some row =>
      r ← f (cr_data row);
      ps2 ← set_row_data row_id r ps1;
      ReleaseAccessor row_id ps2
  end.

(** ** [FlushCache] *)

(** One row of [oplog_map_]: the index is written for every update. *)
Definition flush_row (st : list (gset Z) * TableOpLog V * ProcessStorage R) (e : Z * RowOpLog V)
    : outcome (list (gset Z) * TableOpLog V * ProcessStorage R) :=
  let '(idx, t, ps) := st in
  us ← RowOpLog_iterate e.2;
  t' ← oplog_add e.1 us t;
  idx' ← foldM (fun idx _ => index_insert e.1 idx) us idx;
  ps' ← update_found e.1 (row_apply_all us) ps;
  Ret (idx', t', ps').

Definition FlushCache (tt : ThreadTable) (t : TableOpLog V) (ps : ProcessStorage R)
    : outcome (ThreadTable * TableOpLog V * ProcessStorage R) :=
  '(idx, t', ps') ← foldM flush_row (hash_order (tt_oplogs tt)) (tt_index tt, t, ps);
  Ret (mkThreadTable idx ∅ ∅, t', ps').
End THREAD_TABLE.
Arguments ThreadTable : clear implicits.
