(* ===== verification/Consistency.v ===== *)
(** * Consistency controllers

    [SSPConsistencyController] ([petuum_ps/consistency/
    ssp_consistency_controller.cpp]) and [SSPPushConsistencyController]
    ([ssp_push_consistency_controller.cpp]): reads, updates and the end of a
    clock of one application thread on one table ([ClientTable]).

    While a thread waits for a reply the background threads change the
    process cache: a read takes the caches it finds after each reply as an
    argument, and runs out of them only if no reply comes ([Undef]). *)
From S2P Require Import Prelude Bytes Num Context SparseRow OpLog OpLogWire RowWire ServerRow ClockLRU ProcessStorage ThreadTable OpLogMgr BgWorkers.
Open Scope Z_scope.

Section CONTROLLERS.
Context {R V : Type} `{Num V} `{!AbstractRow R V} `{!HashOrder}.
Context (g : GlobalContext) (staleness : Z).

Abbreviation storage := (ProcessStorage R).

(** ** Updates *)

Definition with_oplog (o : TableOpLog V) (t : ClientTable R V) : ClientTable R V :=
  mkClientTable (ct_row_type t) o (ct_oplog_index t) (ct_storage t).
Definition with_cached (ps : storage) (t : ClientTable R V) : ClientTable R V :=
  mkClientTable (ct_row_type t) (ct_oplog t) (ct_oplog_index t) ps.
Definition with_index (i : TableOpLogIndex) (t : ClientTable R V) : ClientTable R V :=
  mkClientTable (ct_row_type t) (ct_oplog t) i (ct_storage t).

Definition SSP_Inc (row_id column_id : Z) (delta : V) (tt : ThreadTable R V) (t : ClientTable R V)
    : outcome (ThreadTable R V * ClientTable R V) :=
  tt' ← IndexUpdate g row_id tt;
  o ← oplog_add (R := R) g row_id [(column_id, delta)] (ct_oplog t);
  ps ← update_found row_id (row_apply_inc column_id delta) (ct_storage t);
  Ret (tt', with_cached ps (with_oplog o t)).

Definition SSP_BatchInc (row_id : Z) (us : list (Z * V)) (tt : ThreadTable R V) (t : ClientTable R V)
    : outcome (ThreadTable R V * ClientTable R V) :=
  tt' ← IndexUpdate g row_id tt;
  o ← oplog_add (R := R) g row_id us (ct_oplog t);
  ps ← update_found row_id (row_apply_batch_inc us) (ct_storage t);
  Ret (tt', with_cached ps (with_oplog o t)).

Definition SSP_ThreadInc (row_id column_id : Z) (delta : V) (tt : ThreadTable R V) : outcome (ThreadTable R V) :=
  ThreadTable_Inc row_id column_id delta tt.
Definition SSP_ThreadBatchInc (row_id : Z) (us : list (Z * V)) (tt : ThreadTable R V) : outcome (ThreadTable R V) :=
  ThreadTable_BatchInc row_id us tt.

Definition SSP_FlushThreadCache (tt : ThreadTable R V) (t : ClientTable R V)
    : outcome (ThreadTable R V * ClientTable R V) :=
  '(tt', o, ps) ← FlushCache g tt (ct_oplog t) (ct_storage t);
  Ret (tt', with_cached ps (with_oplog o t)).

(** The order is important: the flush writes the index that is then handed over. *)
Definition SSP_Clock (tt : ThreadTable R V) (t : ClientTable R V) : outcome (ThreadTable R V * ClientTable R V) :=
  '(tt1, t1) ← SSP_FlushThreadCache tt t;
  '(tt2, i) ← FlushOpLogIndex g (ct_oplog_index t1) tt1;
  Ret (tt2, with_index i t1).

(** ** Reads *)

Definition stalest_clock (clock : Z) : Z := Z.max 0 (i32 (clock - staleness)).

(** [Find] with an accessor that may hold the row already. *)
Definition Find_again (holds : bool) (row_id : Z) (ps : storage) : outcome (option (ClientRow R) * storage) :=
  match storage_map ps !! row_id with
  | None => Ret (None, ps)
  | Some _ =>
      ps1 ← (if holds then ReleaseAccessor row_id ps else Ret ps);
      Find row_id ps1
  end.

(** The [do ... while (!found)] loop over the replies. *)
Fixpoint fetch_loop (holds : bool) (row_id num_fetches : Z) (replies : list storage)
    : outcome (ClientRow R * storage) :=
  match replies with
  | [] => Undef
  | ps :: replies' =>
      '(found, ps') ← Find_again holds row_id ps;
      let n := num_fetches + 1 in
      _ ← CHECK (bool_decide (n <= 3));
      match found with
      | Some row => Ret (row, ps')
      | None => fetch_loop holds row_id n replies'
      end
  end.

(** The row the accessor refers to and the cache; the requests ask for
    [stalest_clock clock].  [ps] is the cache when [Get] starts. *)
Definition SSP_Get (clock row_id : Z) (ps : storage) (replies : list storage)
    : outcome (ClientRow R * storage) :=
  '(found, ps1) ← Find row_id ps;
  match found with
  | Some row =>
      if bool_decide (GetClock row >= stalest_clock clock) then Ret (row, ps1)
      else
        '(row', ps') ← fetch_loop true row_id 0 replies;
        _ ← CHECK (bool_decide (GetClock row' >= stalest_clock clock));
        Ret (row', ps')
  | None =>
      '(row', ps') ← fetch_loop false row_id 0 replies;
      _ ← CHECK (bool_decide (GetClock row' >= stalest_clock clock));
      Ret (row', ps')
  end.

(** The copy in the thread cache, made if there is none. *)
Definition copy_to_thread (row_id : Z) (row : ClientRow R) (ps : storage) (tt : ThreadTable R V)
    : outcome (R * ThreadTable R V * storage) :=
  tt' ← InsertRow row_id (cr_data row) tt;
  r ← checked (GetRow row_id tt');
  ps' ← ReleaseAccessor row_id ps;
  Ret (r, tt', ps').

Definition SSP_ThreadGet (clock row_id : Z) (tt : ThreadTable R V) (ps : storage) (replies : list storage)
    : outcome (R * ThreadTable R V * storage) :=
  match GetRow row_id tt with
  | Some r => Ret (r, tt, ps)
  | None =>
      '(row, ps') ← SSP_Get clock row_id ps replies;
      copy_to_thread row_id row ps' tt
  end.

(** *** Push mode *)

Definition kMaxPendingAsyncGetCnt : Z := 256.

(** What [GetAsync] does: the new count ([None] before the first use), whether
    it first waits for a reply, and whether it sends a request. *)
Definition Push_GetAsync (row_id : Z) (ps : storage) (pending : option Z) : option Z * bool * bool :=
  if Find_exists row_id ps then (pending, false, false)
  else
    let n := default 0 pending in
    let full := bool_decide (n = kMaxPendingAsyncGetCnt) in
    (Some (u64 ((if full then u64 (n - 1) else n) + 1)), full, true).

(** The replies [WaitPendingAsnycGet] waits for, and the count it leaves. *)
Definition Push_WaitPendingAsyncGet (pending : option Z) : Z * option Z :=
  match pending with None => (0, None) | Some n => (n, Some 0) end.

(** [WaitSystemClock] returns once the system clock has reached [clock]. *)
Definition wait_system_clock (clock : Z) (system_clocks : list Z) : option Z :=
  head (filter (fun c => clock <= i32 c) system_clocks).

Definition Push_Get (clock row_id : Z) (system_clocks : list Z) (ps : storage) (replies : list storage)
    : outcome (ClientRow R * storage) :=
  _ ← deref (wait_system_clock (stalest_clock clock) system_clocks);
  '(found, ps1) ← Find row_id ps;
  match found with
  | Some row => Ret (row, ps1)
  | None => fetch_loop false row_id 0 replies
  end.

Definition Push_ThreadGet (clock row_id : Z) (system_clocks : list Z) (tt : ThreadTable R V) (ps : storage)
    (replies : list storage) : outcome (R * ThreadTable R V * storage) :=
  _ ← deref (wait_system_clock (stalest_clock clock) system_clocks);
  match GetRow row_id tt with
  | Some r => Ret (r, tt, ps)
  | None =>
      '(found, ps1) ← Find row_id ps;
      '(row, ps') ← match found with
                    | Some row => Ret (row, ps1)
                    | None => fetch_loop false row_id 0 replies
                    end;
      copy_to_thread row_id row ps' tt
  end.
End CONTROLLERS.
