(* ===== verification/AdditiveRow.v ===== *)
(** * Rows whose updates add up

    The consistency controllers keep updates in three places (the thread
    cache, the oplogs, the cached rows) and coalesce them on the way.  What
    makes that right is that the row class adds updates the way it adds them
    to its values; [AdditiveRow] says so and the sparse and the dense rows
    satisfy it. *)
From S2P Require Import Prelude Bytes Num SparseRow DenseRow Context OpLog.
Open Scope Z_scope.

(** [ar_col r] are the columns [r] has. *)
Class AdditiveRow (R V : Type) `{Num V} `{!AbstractRow R V} `{!AbstractRowOk R V} := {
  ar_col : R -> Z -> Prop;
  ar_add (a b : V) : row_add_updates (R := R) a b = v_add a b;
  ar_init : row_init_update (R := R) (V := V) = v_zero;
  ar_apply us (r : R) : row_ok r -> Forall (fun cu => ar_col r cu.1) us ->
    exists r', row_apply_all us r = Ret r' /\ row_apply_batch_inc us r = Ret r' /\ row_ok r' /\
      (forall c, ar_col r' c <-> ar_col r c) /\
      (forall c, ar_col r c -> exists v, row_get r c = Ret v /\ row_get r' c = Ret (v_add v (column_sum us c)))
}.

#[export] Instance sparse_additive {V} `{NumOk V} : AdditiveRow (SparseRow V) V.
Proof.
  refine {| ar_col := fun _ c => in_i32 c |}; [done|done|].
  intros us r Hok Hus. exists (SparseRow_ApplyBatchIncUnsafe us r). rewrite sparse_batch_all.
  destruct (sparse_accumulates us r Hok Hus) as [Hok' Hat]. split_and!; [done..|].
  intros c _. exists (SparseRow_at r c). cbn. by rewrite Hat.
Defined.

#[export] Instance dense_additive {V} `{NumOk V} : AdditiveRow (DenseRow V) V.
Proof.
  refine {| ar_col := fun r c => 0 <= c < dense_capacity r |}; [done|done|].
  intros us r Hok Hus. destruct (dense_accumulates us r Hok Hus) as (r' & E & E' & Hc & Hok' & Hget).
  exists r'. split_and!; [done..|by rewrite Hc|]. intros c Hcr. pose proof Hok as [Hcap _].
  destruct (lookup_lt_is_Some_2 (dense_data r) (Z.to_nat c)) as [v Hv]; [lia|].
  assert (E0 : row_get r c = Ret v) by (cbn; unfold DenseRow_at; apply vec_at_Ret; split; [lia|done]).
  exists v. split; [done|]. apply Hget; [lia|done].
Defined.

(** ** Sums of updates *)

Section SUMS.
Context {V : Type} `{NumOk V}.

Lemma column_sum_app us1 us2 (c : Z) : column_sum (us1 ++ us2) c = v_add (column_sum us1 c) (column_sum us2 c : V).
Proof.
  unfold column_sum. induction us1 as [|[c' u] us IH]; cbn; [by rewrite v_add_zero|].
  case_bool_decide; [|done]. by rewrite IH, v_add_assoc.
Qed.

Lemma column_sum_cons c' u us (c : Z) :
  column_sum ((c', u) :: us) c = if bool_decide (c' = c) then v_add u (column_sum us c) else column_sum us c :> V.
Proof. done. Qed.

Lemma column_sum_notin (us : list (Z * V)) c : c ∉ us.*1 -> column_sum us c = v_zero.
Proof.
  induction us as [|[c' u] us IH]; [done|]. rewrite fmap_cons, not_elem_of_cons. intros [Hne Hni].
  rewrite column_sum_cons, bool_decide_false by (cbn in Hne; congruence). by apply IH.
Qed.

(** A column that occurs once. *)
Lemma column_sum_unique (us : list (Z * V)) c u : NoDup us.*1 -> (c, u) ∈ us -> column_sum us c = u.
Proof.
  induction us as [|[c' w] us IH]; [by intros _ ?%elem_of_nil|]. rewrite fmap_cons. cbn [fst].
  intros [Hni Hnd]%NoDup_cons [Heq|Hin]%elem_of_cons; rewrite column_sum_cons.
  - injection Heq as <- <-. rewrite bool_decide_true by done. rewrite column_sum_notin by done. apply v_add_zero_r.
  - rewrite bool_decide_false; [by apply IH|]. intros ->. apply Hni. change c with (c, u).1.
    by apply list_elem_of_fmap_2.
Qed.

Lemma column_sum_entries (m : gmap Z V) c : column_sum (sorted_entries m) c = default v_zero (m !! c).
Proof.
  destruct (m !! c) as [u|] eqn:E; cbn.
  - apply column_sum_unique; [apply sorted_entries_NoDup|by apply sorted_entries_lookup].
  - apply column_sum_notin. intros ([c' u] & -> & Hin%sorted_entries_lookup)%list_elem_of_fmap.
    cbn in E. by rewrite E in Hin.
Qed.

Lemma entries_columns (m : gmap Z V) c : c ∈ (sorted_entries m).*1 <-> is_Some (m !! c).
Proof.
  rewrite list_elem_of_fmap. split.
  - intros ([c' u] & -> & Hin%sorted_entries_lookup). by eexists.
  - intros [u Hu]. exists (c, u). split; [done|]. by apply sorted_entries_lookup.
Qed.
End SUMS.

Section ADDITIVE.
Context {R V : Type} `{NumOk V} `{!AbstractRow R V} `{!AbstractRowOk R V} `{!AdditiveRow R V}.

Lemma coalesced_sum (us : list (Z * V)) c u : coalesced (R := R) us c u = v_add u (column_sum us c).
Proof.
  unfold coalesced, column_sum. revert u. induction us as [|[c' w] us IH]; intros u; cbn [foldl foldr fst snd].
  - by rewrite v_add_zero_r.
  - rewrite IH. case_bool_decide; [|done]. by rewrite ar_add, v_add_assoc.
Qed.

(** The pending update of a column after [us], and one of a column [us] does not touch. *)
Lemma inc_all_sum (us : list (Z * V)) (l : RowOpLog V) c :
  oplogs (foldl (inc_row_oplog (R := R)) l us) !! c =
    if bool_decide (c ∈ us.*1) then Some (v_add (default v_zero (oplogs l !! c)) (column_sum us c))
    else oplogs l !! c.
Proof. by rewrite inc_all_lookup, coalesced_sum, ar_init. Qed.

(** Coalescing first and adding the result later is adding the updates one by one. *)
Lemma inc_coalesced (us : list (Z * V)) (l : RowOpLog V) :
  oplogs (foldl (inc_row_oplog (R := R)) l (sorted_entries (oplogs (foldl (inc_row_oplog (R := R)) RowOpLog_new us))))
  = oplogs (foldl (inc_row_oplog (R := R)) l us).
Proof.
  apply map_eq. intros c. rewrite (inc_all_sum (sorted_entries _)), (inc_all_sum us l), column_sum_entries.
  assert (E : oplogs (foldl (inc_row_oplog (R := R)) RowOpLog_new us) !! c
            = if bool_decide (c ∈ us.*1) then Some (column_sum us c) else None).
  { rewrite inc_all_sum. cbn [oplogs RowOpLog_new]. rewrite lookup_empty. cbn [default from_option].
    by rewrite v_add_zero. }
  rewrite (bool_decide_ext _ (c ∈ us.*1)); [by rewrite E; case_bool_decide|].
  rewrite entries_columns, E. case_bool_decide; split; try done; by intros [].
Qed.

Lemma coalesced_entries_sum (us : list (Z * V)) c :
  column_sum (sorted_entries (oplogs (foldl (inc_row_oplog (R := R)) RowOpLog_new us))) c = column_sum us c.
Proof.
  rewrite column_sum_entries, inc_all_sum. cbn [oplogs RowOpLog_new]. rewrite lookup_empty. case_bool_decide as Hin; cbn.
  - by rewrite v_add_zero.
  - by rewrite column_sum_notin.
Qed.

Lemma coalesced_entries_columns (us : list (Z * V)) (P : Z -> Prop) : Forall (fun cu => P cu.1) us ->
  Forall (fun cu : Z * V => P cu.1) (sorted_entries (oplogs (foldl (inc_row_oplog (R := R)) RowOpLog_new us))).
Proof.
  intros Hus. apply Forall_forall. intros [c u] Hin. apply sorted_entries_lookup in Hin.
  rewrite inc_all_sum in Hin. cbn [oplogs RowOpLog_new] in Hin. rewrite lookup_empty in Hin. case_bool_decide as Hc; [|done].
  apply list_elem_of_fmap in Hc as ([c' u'] & -> & Hc). by apply (proj1 (Forall_forall _ _) Hus _ Hc).
Qed.

(** ** Rows with the same contents as [r] after [us] *)
Record row_after (r : R) (us : list (Z * V)) (r' : R) : Prop := {
  ra_ok : row_ok r';
  ra_cols : forall c, ar_col r' c <-> ar_col r c;
  ra_get : forall c, ar_col r c -> exists v, row_get r c = Ret v /\ row_get r' c = Ret (v_add v (column_sum us c))
}.

Lemma row_after_apply us (r : R) : row_ok r -> Forall (fun cu => ar_col r cu.1) us ->
  exists r', row_apply_all us r = Ret r' /\ row_apply_batch_inc us r = Ret r' /\ row_after r us r'.
Proof. intros Hr Hus. destruct (ar_apply us r Hr Hus) as (r' & ?&?&?&?&?). by exists r'. Qed.

Lemma row_after_nil (r : R) : row_ok r -> row_after r [] r.
Proof. intros Hr. destruct (row_after_apply [] r Hr) as (r' & [= <-] & _ & ?); done. Qed.

Lemma row_after_app (r r1 r2 : R) us1 us2 :
  row_after r us1 r1 -> row_after r1 us2 r2 -> row_after r (us1 ++ us2) r2.
Proof.
  intros [H1 C1 G1] [H2 C2 G2]. constructor; [done|by intros c; rewrite C2, C1|].
  intros c Hc. destruct (G1 c Hc) as (v & E & E1). destruct (G2 c) as (v1 & E1' & E2); [by apply C1|].
  exists v. split; [done|]. rewrite E1 in E1'. injection E1' as <-. by rewrite E2, column_sum_app, v_add_assoc.
Qed.

(** Rows are compared by the values of the columns. *)
Lemma row_after_sum (r r' : R) us1 us2 : (forall c, column_sum us1 c = column_sum us2 c :> V) ->
  row_after r us1 r' -> row_after r us2 r'.
Proof. intros Hs [H1 C1 G1]. constructor; [done|done|]. intros c Hc. rewrite <- Hs. by apply G1. Qed.
End ADDITIVE.
