(* ===== verification/ThreadProps.v ===== *)
(** * Updates through the thread cache

    An application thread may update a table directly ([Inc], [BatchInc] of
    the controller) or through its thread cache, which is flushed later.
    Both add the same pending updates to the oplog of the table and the same
    values to the rows of the process cache. *)
From S2P Require Import Prelude Bytes Num Context SparseRow AdditiveRow OpLog OpLogWire ServerRow ClockLRU ProcessStorage ThreadTable OpLogMgr BgWorkers Consistency.
Open Scope Z_scope.

(** ** Batches: the updates of one call, and what a sequence of them does to a row *)

Abbreviation batch V := (Z * list (Z * V))%type.

(** [None] if no batch is for the row. *)
Fixpoint row_updates {V} (l : list (batch V)) (row_id : Z) : option (list (Z * V)) :=
  match l with
  | [] => None
  | b :: l' =>
      if bool_decide (b.1 = row_id) then Some (b.2 ++ default [] (row_updates l' row_id))
      else row_updates l' row_id
  end.

Section BATCHES.
Context {V : Type}.
Implicit Types (l : list (batch V)).

Lemma row_updates_some l row_id : is_Some (row_updates l row_id) <-> row_id ∈ l.*1.
Proof.
  induction l as [|b l IH]; cbn [row_updates]; rewrite ?fmap_nil, ?fmap_cons.
  - split; [by intros []|by intros ?%elem_of_nil].
  - rewrite elem_of_cons. case_bool_decide as Hb.
    + subst. split; [by left|by eexists].
    + rewrite IH. split; [by right|intros [->|?]; done].
Qed.

Lemma row_updates_cons b l row_id : default [] (row_updates (b :: l) row_id)
  = default [] (row_updates [b] row_id) ++ default [] (row_updates l row_id).
Proof. cbn. case_bool_decide; [|done]. cbn. by rewrite app_nil_r. Qed.

Lemma row_updates_app l1 l2 row_id : default [] (row_updates (l1 ++ l2) row_id)
  = default [] (row_updates l1 row_id) ++ default [] (row_updates l2 row_id).
Proof.
  induction l1 as [|b l1 IH]; [done|]. cbn [app]. rewrite (row_updates_cons b), (row_updates_cons b l1), IH.
  by rewrite app_assoc.
Qed.

(** Batches for distinct rows. *)
Lemma row_updates_distinct l row_id us : NoDup l.*1 -> (row_id, us) ∈ l -> row_updates l row_id = Some us.
Proof.
  induction l as [|b l IH]; [by intros _ ?%elem_of_nil|]. rewrite fmap_cons.
  intros [Hni Hnd]%NoDup_cons [<-|Hin]%elem_of_cons; cbn.
  - rewrite bool_decide_true by done. destruct (row_updates l row_id) eqn:E; cbn; [|by rewrite app_nil_r].
    destruct Hni. apply row_updates_some. by eexists.
  - rewrite bool_decide_false; [by apply IH|]. intros Heq. apply Hni. rewrite Heq.
    change row_id with (row_id, us).1. by apply list_elem_of_fmap_2.
Qed.

Definition batch_ok (b : batch V) : Prop := 0 <= b.1 /\ b.2 <> [].
End BATCHES.

(** ** The index of a thread *)

Section INDEX.
Context (g : GlobalContext) (Hg : context_ok g).

(** The rows of partition [p]. *)
Definition rows_of (p : nat) (rows : list Z) : list Z :=
  filter (fun row => Z.to_nat (row mod num_bg_threads g) = p) rows.
Definition index_after (rows : list Z) (idx idx' : list (gset Z)) : Prop :=
  forall p, idx' !! p = (fun s => list_to_set (rows_of p rows) ∪ s) <$> idx !! p.

Lemma index_after_nil idx : index_after [] idx idx.
Proof. intros p. cbn. destruct (idx !! p); cbn; [|done]. by rewrite (left_id_L ∅ (∪)). Qed.

Lemma index_after_length rows idx idx' : index_after rows idx idx' -> length idx' = length idx.
Proof.
  intros Ha. assert (Hs : forall n, (n < length idx')%nat <-> (n < length idx)%nat).
  { intros n. rewrite <- !lookup_lt_is_Some, Ha, fmap_is_Some. done. }
  pose proof (Hs (length idx)). pose proof (Hs (length idx')). lia.
Qed.

Lemma index_after_app rows1 rows2 idx1 idx2 idx3 :
  index_after rows1 idx1 idx2 -> index_after rows2 idx2 idx3 -> index_after (rows1 ++ rows2) idx1 idx3.
Proof.
  intros H1 H2 p. rewrite H2, H1. unfold rows_of. rewrite filter_app, list_to_set_app_L.
  destruct (idx1 !! p); cbn; [|done]. f_equal. by rewrite (assoc_L (∪)), (comm_L (∪) (list_to_set _)).
Qed.

Lemma index_after_ext rows1 rows2 idx idx' : (forall r, r ∈ rows1 <-> r ∈ rows2) ->
  index_after rows1 idx idx' -> index_after rows2 idx idx'.
Proof.
  intros Hr Ha p. rewrite Ha. destruct (idx !! p); cbn; [|done]. do 2 f_equal. apply set_eq. intros r.
  rewrite !elem_of_list_to_set. unfold rows_of. by rewrite !list_elem_of_filter, Hr.
Qed.

Lemma index_after_eq rows idx idx1 idx2 : index_after rows idx idx1 -> index_after rows idx idx2 -> idx1 = idx2.
Proof. intros H1 H2. apply list_eq. intros p. by rewrite H1, H2. Qed.

Lemma index_insert_spec row_id idx : 0 <= row_id -> Z.of_nat (length idx) = num_bg_threads g ->
  exists idx', index_insert g row_id idx = Ret idx' /\ index_after [row_id] idx idx'.
Proof.
  intros Hr Hl. pose proof (Z.mod_pos_bound row_id (num_bg_threads g) (ctx_bg g Hg)) as Hb.
  destruct (lookup_lt_is_Some_2 idx (Z.to_nat (row_id mod num_bg_threads g))) as [s Hs]; [lia|].
  unfold index_insert. rewrite GetBgPartitionNum_Ret by done. cbn [mbind outcome_bind].
  rewrite (proj2 (vec_at_Ret idx _ s)) by (split; [lia|done]). cbn [mbind outcome_bind].
  unfold vec_set. rewrite bool_decide_true by lia. eexists. split; [done|]. intros p. unfold rows_of.
  rewrite filter_cons. case_decide as Hp.
  - subst p. rewrite list_lookup_insert_eq by lia. rewrite Hs. cbn. by rewrite (right_id_L ∅ (∪)).
  - rewrite list_lookup_insert_ne by done. cbn. destruct (idx !! p); cbn; [|done]. by rewrite (left_id_L ∅ (∪)).
Qed.

(** [FlushCache] inserts the row once for each of its updates. *)
Lemma index_insert_all {A} (us : list A) row_id idx : us <> [] -> 0 <= row_id ->
  Z.of_nat (length idx) = num_bg_threads g ->
  exists idx', foldM (fun idx _ => index_insert g row_id idx) us idx = Ret idx' /\ index_after [row_id] idx idx'.
Proof.
  intros Hne Hr. revert idx. induction us as [|u us IH]; [done|]. intros idx Hl. cbn [foldM].
  destruct (index_insert_spec row_id idx Hr Hl) as (idx1 & E1 & Ha1). rewrite E1. cbn [mbind outcome_bind].
  destruct us as [|u' us']; [by exists idx1|].
  destruct (IH ltac:(done) idx1) as (idx2 & E2 & Ha2); [by rewrite (index_after_length _ _ _ Ha1)|].
  exists idx2. split; [done|]. eapply index_after_ext; [|by eapply index_after_app].
  intros r. rewrite elem_of_app. tauto.
Qed.
End INDEX.

(** ** Writing into the table's oplog and the process cache *)

Section ACCESSORS.
Context {R V : Type} `{NumOk V} `{!AbstractRow R V} `{!AbstractRowOk R V} `{!AdditiveRow R V}.
Context (g : GlobalContext) (Hg : context_ok g).

(** The oplog of a row after updates of the row. *)
Definition oplog_after (o : option (RowOpLog V)) (us : option (list (Z * V))) : option (RowOpLog V) :=
  match us with None => o | Some us => Some (foldl (inc_row_oplog (R := R)) (default RowOpLog_new o) us) end.

Lemma oplog_add_spec row_id us (t : TableOpLog V) : 0 <= row_id -> Z.of_nat (length t) = num_bg_threads g ->
  exists t', oplog_add (R := R) g row_id us t = Ret t' /\ length t' = length t /\
    forall r, 0 <= r -> table_row_oplog g t' r = oplog_after (table_row_oplog g t r) (row_updates [(row_id, us)] r).
Proof.
  intros Hr Hl. unfold oplog_add, TableOpLog_FindInsertOpLog.
  destruct (on_partition_spec g row_id (OpLogPartition_FindInsertOpLog row_id) t Hg Hr Hl)
    as (i & p & Hi & Him & Hp & E). rewrite E. set (fi := OpLogPartition_FindInsertOpLog row_id p).
  set (t1 := <[Z.to_nat i := fi.2]> t). assert (Hl1 : length t1 = length t) by apply length_insert.
  assert (Hl1z : Z.of_nat (length t1) = num_bg_threads g) by lia. cbn [mbind outcome_bind].
  destruct (on_partition_spec g row_id
    (fun p => (tt, <[row_id := foldl (inc_row_oplog (R := R)) fi.1 us]> p)) t1 Hg Hr Hl1z)
    as (i' & p' & _ & -> & Hp' & E'). rewrite E'. rewrite <- Him in *. cbn [fst snd fmap outcome_fmap].
  unfold t1 in Hp'. rewrite list_lookup_insert_eq in Hp' by lia. injection Hp' as <-.
  eexists. split; [done|]. split; [by rewrite length_insert, Hl1|]. intros r Hr0. unfold table_row_oplog.
  pose proof (Z.mod_pos_bound r (num_bg_threads g) (ctx_bg g Hg)) as Hb. cbn [row_updates fst snd default].
  destruct (decide (r mod num_bg_threads g = i)) as [Heq|Hne].
  - rewrite Heq, list_lookup_insert_eq by lia. rewrite Hp. cbn [mbind option_bind].
    assert (Efi : fi.2 !! r = if bool_decide (row_id = r) then Some fi.1 else p !! r).
    { unfold fi, OpLogPartition_FindInsertOpLog. destruct (p !! row_id) as [l|] eqn:El; cbn; case_bool_decide;
        subst; rewrite ?lookup_insert_eq, ?lookup_insert_ne by done; done. }
    case_bool_decide as Hrr; [subst r|by rewrite lookup_insert_ne, Efi, ?bool_decide_false by done].
    rewrite lookup_insert_eq, app_nil_r. cbn. do 2 f_equal. unfold fi, OpLogPartition_FindInsertOpLog.
    by destruct (p !! row_id).
  - rewrite list_lookup_insert_ne by lia. unfold t1. rewrite list_lookup_insert_ne by lia.
    case_bool_decide; [by subst|done].
Qed.

(** ** The rows of the cache *)

(** Between operations: no reference is lost and the rows are well formed. *)
Record storage_ok (ps : ProcessStorage R) : Prop := {
  so_ps : ps_ok ps;
  so_refs : forall id row slot, storage_map ps !! id = Some (row, slot) -> in_i32 (num_refs row);
  so_rows : forall id row slot, storage_map ps !! id = Some (row, slot) -> row_ok (cr_data row)
}.

(** A cached row after updates: the contents change, nothing else does. *)
Record entry_after (us : list (Z * V)) (e e' : ClientRow R * Z) : Prop := {
  ea_data : row_after (cr_data e.1) us (cr_data e'.1);
  ea_refs : num_refs e'.1 = num_refs e.1;
  ea_clock : cr_clock e'.1 = cr_clock e.1;
  ea_slot : e'.2 = e.2
}.

Record storage_after (ups : Z -> list (Z * V)) (ps ps' : ProcessStorage R) : Prop := {
  sa_ok : storage_ok ps';
  sa_capacity : ps_capacity ps' = ps_capacity ps;
  sa_rows : forall id, option_Forall2 (entry_after (ups id)) (storage_map ps !! id) (storage_map ps' !! id)
}.

(** The rows of the cache have the columns that are updated. *)
Definition accepts (ups : Z -> list (Z * V)) (ps : ProcessStorage R) : Prop :=
  forall id row slot, storage_map ps !! id = Some (row, slot) ->
    Forall (fun cu => ar_col (cr_data row) cu.1) (ups id).

Lemma entry_after_refl e : row_ok (cr_data e.1) -> entry_after [] e e.
Proof. intros Hr. constructor; [by apply row_after_nil|done..]. Qed.

Lemma entry_after_app us1 us2 e1 e2 e3 :
  entry_after us1 e1 e2 -> entry_after us2 e2 e3 -> entry_after (us1 ++ us2) e1 e3.
Proof. intros [] []. constructor; [by eapply row_after_app|congruence..]. Qed.

Lemma storage_after_nil ps : storage_ok ps -> storage_after (fun _ => []) ps ps.
Proof.
  intros Hok. constructor; [done..|]. intros id. destruct (storage_map ps !! id) as [[row slot]|] eqn:E;
    constructor. apply entry_after_refl. by eapply so_rows.
Qed.

Lemma storage_after_app ups1 ups2 ps1 ps2 ps3 : storage_after ups1 ps1 ps2 -> storage_after ups2 ps2 ps3 ->
  storage_after (fun id => ups1 id ++ ups2 id) ps1 ps3.
Proof.
  intros [_ C1 R1] [O2 C2 R2]. constructor; [done|congruence|]. intros id.
  pose proof (R2 id) as H2. destruct (R1 id) as [e1 e2 H12|]; inversion H2; subst; constructor. by eapply entry_after_app.
Qed.

Lemma storage_after_ext ups1 ups2 ps ps' : (forall id, ups1 id = ups2 id) ->
  storage_after ups1 ps ps' -> storage_after ups2 ps ps'.
Proof. intros He [O C Rw]. constructor; [done..|]. intros id. by rewrite <- He. Qed.

Lemma accepts_after ups1 ups2 ps ps' : storage_after ups1 ps ps' -> accepts ups2 ps -> accepts ups2 ps'.
Proof.
  intros [_ _ Rw] Ha id row slot E. pose proof (Rw id) as Hr. rewrite E in Hr. inversion Hr as [[row0 s0] ? He E0|].
  subst. destruct He as [[_ Hc _] _ _ _]. eapply Forall_impl; [by eapply Ha|]. intros cu. by apply Hc.
Qed.

(** The contents of one row change. *)
Lemma replaced_after row_id us (ps ps' : ProcessStorage R) row row' slot : storage_ok ps ->
  storage_map ps !! row_id = Some (row, slot) -> row_replaced ps row_id row' slot ps' ->
  row_after (cr_data row) us (cr_data row') -> num_refs row' = num_refs row -> cr_clock row' = cr_clock row ->
  storage_after (fun id => default [] (row_updates [(row_id, us)] id)) ps ps'.
Proof.
  intros Hok E [Hps Em Hc] Hd Hr Hk. constructor; [|done|].
  - constructor; [done|..]; intros id rw sl; rewrite Em; intros [[<- [= <- <-]]|[_ Hl]]%lookup_insert_Some.
    + rewrite Hr. by eapply so_refs.
    + by eapply so_refs.
    + apply Hd.
    + by eapply so_rows.
  - intros id. rewrite Em. cbn [row_updates fst snd default]. case_bool_decide as Hid.
    + subst id. rewrite lookup_insert_eq, E. cbn. rewrite app_nil_r. constructor. by constructor.
    + rewrite lookup_insert_ne by done. apply (sa_rows _ _ _ (storage_after_nil ps Hok)).
Qed.

Lemma update_found_spec row_id f us (ps : ProcessStorage R) : storage_ok ps ->
  (forall row slot, storage_map ps !! row_id = Some (row, slot) ->
     exists r', f (cr_data row) = Ret r' /\ row_after (cr_data row) us r') ->
  exists ps', update_found row_id f ps = Ret ps' /\
    storage_after (fun id => default [] (row_updates [(row_id, us)] id)) ps ps'.
Proof.
  intros Hok Hf. unfold update_found. destruct (storage_map ps !! row_id) as [[row slot]|] eqn:E.
  - destruct (Hf row slot eq_refl) as (r' & Ef & Hafter). pose proof (so_refs _ Hok _ _ _ E) as Hrefs.
    destruct (Find_found row_id ps row slot (so_ps _ Hok) E) as (ps1 & E1 & A1). pose proof (row_replaced_at _ _ _ _ _ A1) as L1.
    rewrite E1. cbn [mbind outcome_bind IncRef cr_data]. rewrite Ef. cbn [mbind outcome_bind].
    unfold set_row_data. rewrite L1. cbn [deref mbind outcome_bind].
    set (row1 := mkClientRow _ r' _). pose proof (with_row_replaced ps1 row_id _ slot row1 (rr_ok _ _ _ _ _ A1) L1) as A2.
    destruct (Release_found row_id _ row1 slot (rr_ok _ _ _ _ _ A2) (row_replaced_at _ _ _ _ _ A2)) as (ps3 & E3 & A3).
    rewrite E3. exists ps3. split; [done|].
    pose proof (row_replaced_again _ _ _ _ _ _ _ A1 (row_replaced_again _ _ _ _ _ _ _ A2 A3)) as A.
    apply (replaced_after row_id us ps ps3 row (DecRef row1) slot); [done|done|done|done| |done]. cbn. by apply refs_restored.
  - unfold Find. rewrite E. cbn [mbind outcome_bind]. exists ps. split; [done|]. constructor; [done..|]. intros id.
    cbn [row_updates fst snd default]. case_bool_decide as Hid; [subst id; rewrite E; constructor|].
    apply (sa_rows _ _ _ (storage_after_nil ps Hok)).
Qed.
End ACCESSORS.

(** ** Sequences of batches

    The thread's index, the oplog of the table and the process cache. *)

Section SEQUENCES.
Context {R V : Type} `{NumOk V} `{!AbstractRow R V} `{!AbstractRowOk R V} `{!AdditiveRow R V}.
Context (g : GlobalContext) (Hg : context_ok g).

Abbreviation shared := (list (gset Z) * TableOpLog V * ProcessStorage R)%type.
Implicit Types (s : shared) (l : list (batch V)).

Definition updates_for l : Z -> list (Z * V) := fun row_id => default [] (row_updates l row_id).

Record shared_ok (s : shared) : Prop := {
  sh_index : Z.of_nat (length s.1.1) = num_bg_threads g;
  sh_oplog : Z.of_nat (length s.1.2) = num_bg_threads g;
  sh_storage : storage_ok s.2
}.

Record shared_after l (s s' : shared) : Prop := {
  sf_index : index_after g (l.*1) s.1.1 s'.1.1;
  sf_length : length s'.1.2 = length s.1.2;
  sf_oplog : forall row_id, 0 <= row_id ->
    table_row_oplog g s'.1.2 row_id
    = oplog_after (R := R) (table_row_oplog g s.1.2 row_id) (row_updates l row_id);
  sf_storage : storage_after (updates_for l) s.2 s'.2
}.

Lemma shared_after_ok l s s' : shared_ok s -> shared_after l s s' -> shared_ok s'.
Proof.
  intros [] []. constructor; [by erewrite index_after_length|congruence|by eapply sa_ok].
Qed.

Lemma oplog_after_cons b l (o : option (RowOpLog V)) row_id :
  oplog_after (R := R) (oplog_after (R := R) o (row_updates [b] row_id)) (row_updates l row_id)
  = oplog_after (R := R) o (row_updates (b :: l) row_id).
Proof.
  cbn [row_updates]. case_bool_decide as Hb; [|done].
  destruct (row_updates l row_id) as [us|]; cbn; by rewrite ?app_nil_r, ?foldl_app.
Qed.

Lemma shared_after_cons b l s1 s2 s3 :
  shared_after [b] s1 s2 -> shared_after l s2 s3 -> shared_after (b :: l) s1 s3.
Proof.
  intros [I1 L1 O1 S1] [I2 L2 O2 S2]. constructor.
  - by apply (index_after_app g [b.1] _ _ _ _ I1).
  - congruence.
  - intros r Hr. by rewrite O2, O1, oplog_after_cons.
  - eapply storage_after_ext; [|by eapply storage_after_app]. intros id. unfold updates_for.
    by rewrite (row_updates_cons b l).
Qed.

(** A loop whose steps apply one batch each; what a step leaves alone stays. *)
Lemma run_batches {S B K} (view : S -> shared) (keep : S -> K) (upd : B -> batch V) (step : S -> B -> outcome S) :
  (forall st b, shared_ok (view st) -> batch_ok (upd b) -> accepts (updates_for [upd b]) (view st).2 ->
     exists st', step st b = Ret st' /\ shared_after [upd b] (view st) (view st') /\ keep st' = keep st) ->
  forall bs st, shared_ok (view st) -> Forall batch_ok (upd <$> bs) -> accepts (updates_for (upd <$> bs)) (view st).2 ->
  exists st', foldM step bs st = Ret st' /\ shared_after (upd <$> bs) (view st) (view st') /\ keep st' = keep st.
Proof.
  intros Hstep bs. induction bs as [|b bs IH]; intros st Hok Hbs Hacc.
  - exists st. split; [done|]. split; [|done].
    constructor; [apply index_after_nil|done..|apply storage_after_nil, Hok].
  - rewrite fmap_cons in *. apply Forall_cons in Hbs as [Hb Hbs].
    assert (Ha : forall id row slot, storage_map (view st).2 !! id = Some (row, slot) ->
      Forall (fun cu => ar_col (cr_data row) cu.1) (updates_for [upd b] id) /\
      Forall (fun cu => ar_col (cr_data row) cu.1) (updates_for (upd <$> bs) id)).
    { intros id row slot E. apply Forall_app. unfold updates_for. rewrite <- row_updates_cons. by eapply Hacc. }
    destruct (Hstep st b Hok Hb) as (st1 & E1 & A1 & K1); [intros id row slot E; by eapply Ha|].
    destruct (IH st1) as (st2 & E2 & A2 & K2); [by eapply shared_after_ok|done| |].
    + eapply accepts_after; [apply A1|]. intros id row slot E. by eapply Ha.
    + exists st2. cbn [foldM]. rewrite E1. cbn [mbind outcome_bind]. split; [done|].
      split; [by eapply shared_after_cons|congruence].
Qed.

(** ** The steps *)

(** Index, oplog and cached row of one batch, in whatever order. *)
Lemma shared_after_one b idx idx' t t' (ps ps' : ProcessStorage R) :
  index_after g [b.1] idx idx' -> length t' = length t ->
  (forall r, 0 <= r -> table_row_oplog g t' r = oplog_after (R := R) (table_row_oplog g t r) (row_updates [b] r)) ->
  storage_after (updates_for [b]) ps ps' -> shared_after [b] (idx, t, ps) (idx', t', ps').
Proof. done. Qed.

Lemma accepted_row b (ps : ProcessStorage R) row slot : storage_ok ps -> accepts (updates_for [b]) ps ->
  storage_map ps !! b.1 = Some (row, slot) ->
  exists r', row_apply_all b.2 (cr_data row) = Ret r' /\ row_apply_batch_inc b.2 (cr_data row) = Ret r' /\
    row_after (cr_data row) b.2 r'.
Proof.
  intros Hok Ha E. apply row_after_apply; [by eapply so_rows|]. specialize (Ha _ _ _ E). unfold updates_for in Ha.
  cbn [row_updates] in Ha. rewrite bool_decide_true in Ha by done. cbn in Ha. by rewrite app_nil_r in Ha.
Qed.

Lemma flush_row_spec s (e : Z * RowOpLog V) :
  let b := (e.1, sorted_entries (oplogs e.2)) in
  shared_ok s -> batch_ok b -> accepts (updates_for [b]) s.2 ->
  exists s', flush_row g s e = Ret s' /\ shared_after [b] s s' /\ tt = tt.
Proof.
  intros b [Hi Ho Hs] [Hr Hne] Ha. destruct s as [[idx t] ps]. cbn [fst snd] in *. unfold flush_row.
  rewrite RowOpLog_iterate_spec. cbn [mbind outcome_bind].
  destruct (oplog_add_spec (R := R) g Hg e.1 b.2 t) as (t' & E1 & Hl & Ht); [done..|].
  destruct (index_insert_all g Hg b.2 e.1 idx) as (idx' & E2 & Hidx); [done..|].
  destruct (update_found_spec e.1 (row_apply_all b.2) b.2 ps) as (ps' & E3 & Hps).
  { done. }
  { intros row slot E. destruct (accepted_row b ps row slot) as (r' & ? & _ & ?); [done..|by exists r']. }
  cbn [snd b] in E1, E2, E3. rewrite E1. cbn [mbind outcome_bind]. rewrite E2. cbn [mbind outcome_bind].
  rewrite E3. cbn [mbind outcome_bind]. by exists (idx', t', ps').
Qed.
End SEQUENCES.

(** ** Updates of an application thread *)

(** One call of [Inc] or [BatchInc] (of the controller, or of the thread
    cache), with its updates. *)
Inductive update_call (V : Type) :=
  | CallInc (row_id column_id : Z) (delta : V)
  | CallBatchInc (row_id : Z) (us : list (Z * V)).
Arguments CallInc {V}.
Arguments CallBatchInc {V}.

Definition call_batch {V} (c : update_call V) : batch V :=
  match c with CallInc row_id column_id delta => (row_id, [(column_id, delta)]) | CallBatchInc row_id us => (row_id, us) end.

Section CALLS.
Context {R V : Type} `{NumOk V} `{!AbstractRow R V} `{!AbstractRowOk R V} `{!AdditiveRow R V}.
Context (g : GlobalContext) (Hg : context_ok g).

Definition direct_call (st : ThreadTable R V * ClientTable R V) (c : update_call V)
    : outcome (ThreadTable R V * ClientTable R V) :=
  match c with
  | CallInc row_id column_id delta => SSP_Inc g row_id column_id delta st.1 st.2
  | CallBatchInc row_id us => SSP_BatchInc g row_id us st.1 st.2
  end.

Definition thread_call (tt : ThreadTable R V) (c : update_call V) : outcome (ThreadTable R V) :=
  match c with
  | CallInc row_id column_id delta => SSP_ThreadInc row_id column_id delta tt
  | CallBatchInc row_id us => SSP_ThreadBatchInc row_id us tt
  end.

Definition shared_of (st : ThreadTable R V * ClientTable R V)
    : list (gset Z) * TableOpLog V * ProcessStorage R := (tt_index st.1, ct_oplog st.2, ct_storage st.2).
(** What updates leave alone. *)
Definition unshared_of (st : ThreadTable R V * ClientTable R V) :=
  (tt_rows st.1, tt_oplogs st.1, ct_row_type st.2, ct_oplog_index st.2).

(** [SSP_Inc] and [SSP_BatchInc] differ in how a cached row takes the updates. *)
Lemma direct_update_spec (f : R -> outcome R) b st :
  (forall row slot, storage_map (ct_storage st.2) !! b.1 = Some (row, slot) ->
     exists r', f (cr_data row) = Ret r' /\ row_after (cr_data row) b.2 r') ->
  shared_ok g (shared_of st) -> batch_ok b ->
  exists st',
    (tt' ← IndexUpdate g b.1 st.1;
     o ← oplog_add (R := R) g b.1 b.2 (ct_oplog st.2);
     ps ← update_found b.1 f (ct_storage st.2);
     Ret (tt', with_cached ps (with_oplog o st.2))) = Ret st' /\
    shared_after g [b] (shared_of st) (shared_of st') /\ unshared_of st' = unshared_of st.
Proof.
  destruct st as [th t]. cbn [fst snd]. intros Hf [Hi Ho Hs] [Hr Hne]. cbn in Hi, Ho, Hs.
  destruct (index_insert_spec g Hg b.1 (tt_index th)) as (idx' & E1 & A1); [done..|].
  destruct (oplog_add_spec (R := R) g Hg b.1 b.2 (ct_oplog t)) as (o & E2 & L2 & A2); [done..|].
  destruct (update_found_spec b.1 f b.2 (ct_storage t)) as (ps & E3 & A3); [done..|].
  unfold IndexUpdate. rewrite E1. cbn [mbind outcome_bind]. rewrite E2. cbn [mbind outcome_bind].
  rewrite E3. cbn [mbind outcome_bind]. eexists. split; [done|]. split; [|done].
  destruct b as [row_id us]. by apply shared_after_one.
Qed.

Lemma direct_call_spec st c : shared_ok g (shared_of st) -> batch_ok (call_batch c) ->
  accepts (updates_for [call_batch c]) (ct_storage st.2) ->
  exists st', direct_call st c = Ret st' /\
    shared_after g [call_batch c] (shared_of st) (shared_of st') /\ unshared_of st' = unshared_of st.
Proof.
  intros Hok Hb Ha.
  assert (Hrow : forall row slot, storage_map (ct_storage st.2) !! (call_batch c).1 = Some (row, slot) ->
    exists r', row_apply_all (call_batch c).2 (cr_data row) = Ret r' /\
      row_apply_batch_inc (call_batch c).2 (cr_data row) = Ret r' /\ row_after (cr_data row) (call_batch c).2 r').
  { intros row slot E. apply (accepted_row _ (ct_storage st.2) _ slot); [apply (sh_storage _ _ Hok)|done|done]. }
  destruct c as [row_id column_id delta|row_id us]; cbn [direct_call call_batch fst snd] in *.
  - apply (direct_update_spec (row_apply_inc column_id delta) (row_id, [(column_id, delta)]) st); [|done..].
    intros row slot E. destruct (Hrow row slot E) as (r' & E1 & _ & A). exists r'. split; [|done].
    unfold row_apply_all in E1. cbn in E1. by destruct (row_apply_inc column_id delta (cr_data row)).
  - apply (direct_update_spec (row_apply_batch_inc us) (row_id, us) st); [|done..].
    intros row slot E. destruct (Hrow row slot E) as (r' & _ & E1 & A). by exists r'.
Qed.

(** ** Updates of the thread cache *)

Record thread_after (l : list (batch V)) (th th' : ThreadTable R V) : Prop := {
  tf_index : tt_index th' = tt_index th;
  tf_oplogs : forall row_id, tt_oplogs th' !! row_id
    = oplog_after (R := R) (tt_oplogs th !! row_id) (row_updates l row_id);
  tf_rows : forall row_id,
    option_Forall2 (fun r r' => row_after r (updates_for l row_id) r') (tt_rows th !! row_id) (tt_rows th' !! row_id)
}.

(** The rows the thread has cached are well formed and have the columns. *)
Definition thread_accepts (ups : Z -> list (Z * V)) (th : ThreadTable R V) : Prop :=
  forall row_id r, tt_rows th !! row_id = Some r -> row_ok r /\ Forall (fun cu => ar_col r cu.1) (ups row_id).

Lemma row_after_cons b l r1 r2 r3 row_id : row_after r1 (updates_for [b] row_id) r2 ->
  row_after r2 (updates_for l row_id) r3 -> row_after (V := V) (R := R) r1 (updates_for (b :: l) row_id) r3.
Proof. intros A1 A2. unfold updates_for. rewrite row_updates_cons. by eapply row_after_app. Qed.

Lemma thread_after_cons b l th1 th2 th3 :
  thread_after [b] th1 th2 -> thread_after l th2 th3 -> thread_after (b :: l) th1 th3.
Proof.
  intros [I1 O1 R1] [I2 O2 R2]. constructor; [congruence| |].
  - intros r. by rewrite O2, O1, oplog_after_cons.
  - intros r. specialize (R1 r). specialize (R2 r). destruct R1 as [a b' A1|]; inversion R2; subst; constructor.
    by eapply row_after_cons.
Qed.

Lemma apply_if_cached_spec row_id us f (rows : gmap Z R) :
  (forall r, rows !! row_id = Some r -> exists r', f r = Ret r' /\ row_after r us r') ->
  (forall row_id r, rows !! row_id = Some r -> row_ok r) ->
  exists rows', apply_if_cached row_id f rows = Ret rows' /\
    forall id, option_Forall2 (fun r r' => row_after r (updates_for [(row_id, us)] id) r') (rows !! id) (rows' !! id).
Proof.
  intros Hf Hok. unfold apply_if_cached.
  assert (Hsame : forall id, row_updates [(row_id, us)] id = None ->
    option_Forall2 (fun r r' => row_after r (updates_for [(row_id, us)] id) r') (rows !! id) (rows !! id)).
  { intros id E. unfold updates_for. rewrite E. destruct (rows !! id) as [r|] eqn:Er; constructor.
    apply row_after_nil. by eapply Hok. }
  destruct (rows !! row_id) as [r|] eqn:Er.
  - destruct (Hf r eq_refl) as (r' & E & A). rewrite E. eexists. split; [done|]. intros id.
    destruct (decide (id = row_id)) as [->|Hne].
    + rewrite lookup_insert_eq, Er. constructor. unfold updates_for. cbn. by rewrite bool_decide_true, app_nil_r by done.
    + rewrite lookup_insert_ne by done. apply Hsame. cbn. by rewrite bool_decide_false by done.
  - eexists. split; [done|]. intros id. destruct (decide (id = row_id)) as [->|Hne].
    + rewrite Er. constructor.
    + apply Hsame. cbn. by rewrite bool_decide_false by done.
Qed.

Lemma thread_call_spec th c : thread_accepts (updates_for [call_batch c]) th ->
  exists th', thread_call th c = Ret th' /\ thread_after [call_batch c] th th'.
Proof.
  intros Ha.
  assert (Hrow : forall r, tt_rows th !! (call_batch c).1 = Some r ->
    exists r', row_apply_all (call_batch c).2 r = Ret r' /\
      row_apply_batch_inc (call_batch c).2 r = Ret r' /\ row_after r (call_batch c).2 r').
  { intros r E. destruct (Ha _ _ E) as [Hr Hc]. apply row_after_apply; [done|]. unfold updates_for in Hc. cbn in Hc.
    rewrite bool_decide_true in Hc by done. cbn in Hc. by rewrite app_nil_r in Hc. }
  assert (Hok : forall row_id r, tt_rows th !! row_id = Some r -> row_ok r) by (intros ?? E; apply (Ha _ _ E)).
  assert (Ho : forall row_id us id, (<[row_id := foldl (inc_row_oplog (R := R)) (thread_oplog row_id th) us]> (tt_oplogs th)) !! id
    = oplog_after (R := R) (tt_oplogs th !! id) (row_updates [(row_id, us)] id)).
  { intros row_id us id. cbn. case_bool_decide as Hid; [subst|by rewrite lookup_insert_ne].
    by rewrite lookup_insert_eq, app_nil_r. }
  destruct c as [row_id column_id delta|row_id us]; cbn [thread_call call_batch fst snd] in *.
  - destruct (apply_if_cached_spec row_id [(column_id, delta)] (row_apply_inc column_id delta) (tt_rows th))
      as (rows & E & A); [|done|].
    { intros r E. destruct (Hrow r E) as (r' & E1 & _ & A). exists r'. split; [|done].
      unfold row_apply_all in E1. cbn in E1. by destruct (row_apply_inc column_id delta r). }
    unfold SSP_ThreadInc, ThreadTable_Inc. rewrite E. eexists. split; [done|].
    constructor; [done|apply (Ho row_id [(column_id, delta)])|done].
  - destruct (apply_if_cached_spec row_id us (row_apply_batch_inc us) (tt_rows th)) as (rows & E & A); [|done|].
    { intros r E. destruct (Hrow r E) as (r' & _ & E1 & A). by exists r'. }
    unfold SSP_ThreadBatchInc, ThreadTable_BatchInc. rewrite E. eexists. split; [done|].
    constructor; [done|apply (Ho row_id us)|done].
Qed.

Lemma thread_accepts_cons b l th th' : thread_accepts (updates_for (b :: l)) th ->
  thread_accepts (updates_for [b]) th /\ (thread_after [b] th th' -> thread_accepts (updates_for l) th').
Proof.
  intros Ha.
  assert (Hs : forall row_id r, tt_rows th !! row_id = Some r -> row_ok r /\
    Forall (fun cu => ar_col r cu.1) (updates_for [b] row_id) /\ Forall (fun cu => ar_col r cu.1) (updates_for l row_id)).
  { intros row_id r E. destruct (Ha _ _ E) as [Hr Hc]. split; [done|]. apply Forall_app. unfold updates_for in *.
    by rewrite <- row_updates_cons. }
  split; [intros row_id r E; destruct (Hs _ _ E) as (?&?&?); done|]. intros [_ _ Hrows] row_id r' E'.
  specialize (Hrows row_id). rewrite E' in Hrows. inversion Hrows as [r ? [Hr Hc _] E Eq|]. subst.
  destruct (Hs row_id r) as (_ & _ & Hl); [done|]. split; [done|]. eapply Forall_impl; [exact Hl|]. intros cu. apply Hc.
Qed.

Lemma thread_calls_spec cs th : thread_accepts (updates_for (call_batch <$> cs)) th ->
  exists th', foldM thread_call cs th = Ret th' /\ thread_after (call_batch <$> cs) th th'.
Proof.
  revert th. induction cs as [|c cs IH]; intros th Ha.
  - exists th. split; [done|]. constructor; [done..|]. intros r. destruct (tt_rows th !! r) as [row|] eqn:E; constructor.
    apply row_after_nil. by apply (Ha _ _ E).
  - rewrite fmap_cons in *. destruct (thread_call_spec th c) as (th1 & E1 & A1).
    { by apply (thread_accepts_cons _ _ th th Ha). }
    destruct (IH th1) as (th2 & E2 & A2); [by apply (thread_accepts_cons _ _ th th1 Ha)|].
    exists th2. cbn [foldM]. rewrite E1. cbn [mbind outcome_bind]. split; [done|]. by eapply thread_after_cons.
Qed.
End CALLS.
