(* ===== verification/ThreadEquiv.v ===== *)
(** * The thread cache, seen by its thread and after the flush *)
From S2P Require Import Prelude Bytes Num Context SparseRow DenseRow AdditiveRow OpLog OpLogWire ServerRow Snapshot ClockLRU ProcessStorage ThreadTable OpLogMgr BgWorkers Consistency ThreadProps.
Open Scope Z_scope.

Section FLUSH.
Context {R V : Type} `{NumOk V} `{!AbstractRow R V} `{!AbstractRowOk R V} `{!AdditiveRow R V}.
Context `{!HashOrder, !HashOrderOk}.
Context (g : GlobalContext) (Hg : context_ok g).
Implicit Types (m : gmap Z (RowOpLog V)).

(** What [FlushCache] writes for the oplogs of a thread. *)
Definition flushed_batch (e : Z * RowOpLog V) : batch V := (e.1, sorted_entries (oplogs e.2)).
Definition flushed_batches (m : gmap Z (RowOpLog V)) : list (batch V) := flushed_batch <$> hash_order m.

Lemma flushed_rows m : (flushed_batches m).*1 = (hash_order m).*1.
Proof. unfold flushed_batches. rewrite <- list_fmap_compose. by apply list_fmap_ext. Qed.

Lemma flushed_elem m row_id o : (row_id, o) ∈ hash_order m <-> m !! row_id = Some o.
Proof. by rewrite hash_order_perm, elem_of_map_to_list. Qed.

Lemma flushed_row m row_id : row_id ∈ (flushed_batches m).*1 <-> is_Some (m !! row_id).
Proof.
  rewrite flushed_rows, list_elem_of_fmap. split.
  - intros ([r o] & -> & Hin%flushed_elem). by eexists.
  - intros [o Ho]. exists (row_id, o). split; [done|]. by apply flushed_elem.
Qed.

Lemma flushed_updates m row_id :
  row_updates (flushed_batches m) row_id = (fun o => sorted_entries (oplogs o)) <$> m !! row_id.
Proof.
  destruct (m !! row_id) as [o|] eqn:E; cbn.
  - apply row_updates_distinct.
    + rewrite flushed_rows, hash_order_perm. apply NoDup_fst_map_to_list.
    + change (row_id, sorted_entries (oplogs o)) with (flushed_batch (row_id, o)).
      apply list_elem_of_fmap_2. by apply flushed_elem.
  - apply eq_None_not_Some. rewrite row_updates_some, flushed_row, E. by intros [].
Qed.

(** The oplogs of a thread are the coalesced updates of the batches [l]. *)
Definition holds (l : list (batch V)) (th : ThreadTable R V) : Prop :=
  forall row_id, tt_oplogs th !! row_id = oplog_after (R := R) None (row_updates l row_id).

Lemma thread_after_holds l0 l (th th' : ThreadTable R V) : holds l0 th -> thread_after l th th' -> holds (l0 ++ l) th'.
Proof.
  intros Hh [_ Ho _] row_id. rewrite Ho, Hh. clear. generalize (@None (RowOpLog V)) as o.
  induction l0 as [|b l0 IH]; intros o; [done|]. cbn [app].
  by rewrite <- (oplog_after_cons b l0), <- (oplog_after_cons b (l0 ++ l)), IH.
Qed.

Lemma holds_after l (th th' : ThreadTable R V) : tt_oplogs th = ∅ -> thread_after l th th' -> holds l th'.
Proof. intros He [_ Ho _] row_id. by rewrite Ho, He, lookup_empty. Qed.

Lemma thread_updates l (th' : ThreadTable R V) row_id : holds l th' ->
  row_updates (flushed_batches (tt_oplogs th')) row_id
  = (fun us => sorted_entries (oplogs (foldl (inc_row_oplog (R := R)) RowOpLog_new us))) <$> row_updates l row_id.
Proof. intros Ho. rewrite flushed_updates, Ho. by destruct (row_updates l row_id). Qed.

Lemma thread_updates_ok l (th' : ThreadTable R V) : holds l th' ->
  Forall batch_ok l -> Forall batch_ok (flushed_batches (tt_oplogs th')).
Proof.
  intros Ha Hl. apply Forall_forall. intros b Hb.
  pose proof Hb as ([row_id o] & -> & Hin%flushed_elem)%list_elem_of_fmap.
  pose proof (thread_updates l th' row_id Ha) as Hu. rewrite flushed_updates, Hin in Hu. cbn in Hu.
  destruct (row_updates l row_id) as [us|] eqn:Eu; [|done]. injection Hu as Hu. unfold flushed_batch, batch_ok. cbn.
  assert (Hus : exists b0, b0 ∈ l /\ b0.1 = row_id /\ forall x, x ∈ b0.2 -> x ∈ us).
  { clear -Eu. revert us Eu. induction l as [|b l IH]; [done|]. intros us. cbn. case_bool_decide as Hb.
    - intros [= <-]. exists b. split_and!; [by left|done|]. intros x Hx. apply elem_of_app. by left.
    - intros E. destruct (IH us E) as (b0 & ? & ? & ?). exists b0. split_and!; [by right|done..]. }
  destruct Hus as (b0 & Hb0 & Hr0 & Hsub). destruct (proj1 (Forall_forall _ _) Hl b0 Hb0) as [Hpos Hne].
  split; [congruence|]. destruct b0.2 as [|[c u] us0]; [done|]. intros Hnil.
  assert (Hc : c ∈ (sorted_entries (oplogs o)).*1); [|by rewrite Hnil in Hc; apply elem_of_nil in Hc].
  rewrite Hu, entries_columns, inc_all_sum. rewrite bool_decide_true; [by eexists|].
  change c with (c, u).1. apply list_elem_of_fmap_2, Hsub. by left.
Qed.

Lemma thread_updates_accepted l (th' : ThreadTable R V) (ps : ProcessStorage R) :
  holds l th' -> accepts (updates_for l) ps -> accepts (updates_for (flushed_batches (tt_oplogs th'))) ps.
Proof.
  intros Ha Hacc id row slot E. specialize (Hacc _ _ _ E). unfold updates_for in *.
  rewrite (thread_updates l th') by done. destruct (row_updates l id) as [us|]; cbn in *; [|done].
  by apply (coalesced_entries_columns us (fun c => ar_col (cr_data row) c)).
Qed.

Lemma FlushCache_spec l (th' : ThreadTable R V) (t : ClientTable R V) : holds l th' -> Forall batch_ok l ->
  shared_ok g (shared_of (th', t)) -> accepts (updates_for l) (ct_storage t) ->
  exists s', FlushCache g th' (ct_oplog t) (ct_storage t) = Ret (mkThreadTable s'.1.1 ∅ ∅, s'.1.2, s'.2) /\
    shared_after (R := R) g (flushed_batches (tt_oplogs th')) (shared_of (th', t)) s'.
Proof.
  intros Ha Hl Hok Hacc.
  destruct (run_batches (R := R) g (fun s => s) (fun _ => tt) flushed_batch (flush_row g)
    (fun st b Hst Hb Hab => flush_row_spec g Hg st b Hst Hb Hab)
    (hash_order (tt_oplogs th')) (shared_of (th', t)) Hok) as (s' & E & A & _).
  - by eapply thread_updates_ok.
  - by eapply thread_updates_accepted.
  - exists s'. split; [|done]. unfold FlushCache.
    change (tt_index th', ct_oplog t, ct_storage t) with (shared_of (th', t)). rewrite E. by destruct s' as [[??]?].
Qed.
End FLUSH.

(** The same row of the cache with the same value in every column. *)
Record same_cached {R V} `{AdditiveRow R V} (e e' : ClientRow R * Z) : Prop := {
  sc_refs : num_refs e.1 = num_refs e'.1;
  sc_clock : cr_clock e.1 = cr_clock e'.1;
  sc_slot : e.2 = e'.2;
  sc_cols : forall c, ar_col (cr_data e.1) c <-> ar_col (cr_data e'.1) c;
  sc_get : forall c, ar_col (cr_data e.1) c -> row_get (cr_data e.1) c = row_get (cr_data e'.1) c
}.

Lemma same_cached_sum {R V} `{NumOk V} `{!AbstractRow R V} `{!AbstractRowOk R V} `{!AdditiveRow R V}
    us1 us2 (e e1 e2 : ClientRow R * Z) : (forall c, column_sum us1 c = column_sum us2 c :> V) ->
  entry_after us1 e e1 -> entry_after us2 e e2 -> same_cached e1 e2.
Proof.
  intros Hs [[_ C1 G1] R1 K1 S1] [[_ C2 G2] R2 K2 S2]. constructor; [congruence..|by intros c; rewrite C1, C2|].
  intros c Hc. apply C1 in Hc. destruct (G1 c Hc) as (v & E & E1). destruct (G2 c Hc) as (v' & E' & E2).
  rewrite E in E'. injection E' as <-. by rewrite E1, E2, Hs.
Qed.

Lemma storage_after_sum {R V} `{NumOk V} `{!AbstractRow R V} `{!AbstractRowOk R V} `{!AdditiveRow R V}
    ups1 ups2 (ps ps' : ProcessStorage R) :
  (forall id c, column_sum (ups1 id) c = column_sum (ups2 id) c :> V) ->
  storage_after ups1 ps ps' -> storage_after ups2 ps ps'.
Proof.
  intros Hs [O C Rw]. constructor; [done..|]. intros id. specialize (Rw id).
  destruct Rw as [e e1 [Hd ? ? ?]|]; constructor. constructor; [|done..].
  eapply row_after_sum; [|exact Hd]. by intros c.
Qed.

Lemma same_oplog {R V} `{NumOk V} `{!AbstractRow R V} `{!AbstractRowOk R V} `{!AdditiveRow R V} us (o : RowOpLog V) :
  foldl (inc_row_oplog (R := R)) o (sorted_entries (oplogs (foldl (inc_row_oplog (R := R)) RowOpLog_new us)))
  = foldl (inc_row_oplog (R := R)) o us.
Proof.
  assert (Hi : forall (us : list (Z * V)) (o : RowOpLog V), ol_iter (foldl (inc_row_oplog (R := R)) o us) = ol_iter o).
  { clear. intros us. induction us as [|cu us IH]; intros o; [done|]. cbn. rewrite IH. unfold inc_row_oplog, RowOpLog_FindCreate.
    by destruct (oplogs o !! cu.1). }
  pose proof (inc_coalesced us o) as Hc. pose proof (Hi (sorted_entries (oplogs (foldl (inc_row_oplog (R := R)) RowOpLog_new us))) o) as Hi1.
  rewrite <- (Hi us o) in Hi1. destruct (foldl _ o (sorted_entries _)), (foldl _ o us). cbn in *. congruence.
Qed.

(** C5: updates made through the thread cache and then flushed have the effect
    of the same updates made directly: the thread's index names the same rows, the
    oplog of every row of the table is the same, and the process cache holds
    the same rows with the same values, those it had plus the sum of the
    updates of each column. *)
Theorem thread_cache_flush_equivalence {R V} `{NumOk V} `{!AbstractRow R V} `{!AbstractRowOk R V} `{!AdditiveRow R V}
    `{!HashOrder, !HashOrderOk} g (calls : list (update_call V)) (th : ThreadTable R V) (t : ClientTable R V) :
  context_ok g -> shared_ok g (shared_of (th, t)) -> tt_oplogs th = ∅ ->
  Forall batch_ok (call_batch <$> calls) ->
  thread_accepts (updates_for (call_batch <$> calls)) th ->
  accepts (updates_for (call_batch <$> calls)) (ct_storage t) ->
  exists th1 thf tf thd td,
    foldM thread_call calls th = Ret th1 /\ SSP_FlushThreadCache g th1 t = Ret (thf, tf) /\
    foldM (direct_call g) calls (th, t) = Ret (thd, td) /\
    tt_rows thf = ∅ /\ tt_oplogs thf = ∅ /\ tt_index thf = tt_index thd /\
    (forall row_id, 0 <= row_id ->
       table_row_oplog g (ct_oplog tf) row_id = table_row_oplog g (ct_oplog td) row_id) /\
    (forall id, option_Forall2 same_cached (storage_map (ct_storage tf) !! id) (storage_map (ct_storage td) !! id)) /\
    storage_after (updates_for (call_batch <$> calls)) (ct_storage t) (ct_storage tf).
Proof.
  intros Hg Hok He Hl Hth Hps.
  destruct (thread_calls_spec calls th Hth) as (th1 & E1 & A1).
  pose proof (holds_after _ th th1 He A1) as Hh.
  destruct (FlushCache_spec g Hg _ th1 t Hh Hl) as (s & Ef & Af);
    [by unfold shared_of; cbn [fst]; rewrite (tf_index _ _ _ A1)|done|].
  unfold shared_of in Af at 1. cbn [fst snd] in Af. rewrite (tf_index _ _ _ A1) in Af.
  change (tt_index th, ct_oplog t, ct_storage t) with (shared_of (th, t)) in Af.
  destruct (run_batches (R := R) g shared_of unshared_of call_batch (direct_call g)
    (fun st c Hst Hc Ha => direct_call_spec g Hg st c Hst Hc Ha) calls (th, t) Hok Hl Hps) as ([thd td] & Ed & Ad & _).
  pose proof (fun row_id => thread_updates (R := R) _ th1 row_id Hh) as Hu.
  eexists th1, _, _, thd, td. split; [exact E1|]. unfold SSP_FlushThreadCache. rewrite Ef.
  split; [done|]. split; [exact Ed|]. split; [done|]. split; [done|].
  cbn [ct_oplog ct_storage with_cached with_oplog tt_index]. split_and!.
  - eapply (index_after_eq g); [|apply Ad]. eapply (index_after_ext g); [|apply Af]. intros r.
    rewrite <- !row_updates_some, Hu. apply fmap_is_Some.
  - intros r Hr. rewrite (sf_oplog _ _ _ _ Af), (sf_oplog _ _ _ _ Ad), Hu by done.
    destruct (row_updates (call_batch <$> calls) r) as [us|]; cbn; [|done]. by rewrite same_oplog.
  - intros id. pose proof (sa_rows _ _ _ (sf_storage _ _ _ _ Af) id) as Rf.
    pose proof (sa_rows _ _ _ (sf_storage _ _ _ _ Ad) id) as Rd. destruct Rf as [e e1 Hee|]; inversion Rd; subst; constructor.
    eapply same_cached_sum; [|exact Hee|done]. intros c. unfold updates_for. rewrite Hu.
    destruct (row_updates (call_batch <$> calls) id) as [us|]; cbn; [|done]. apply coalesced_entries_sum.
  - eapply storage_after_sum; [|apply Af]. intros id c. unfold updates_for. rewrite Hu.
    destruct (row_updates (call_batch <$> calls) id) as [us|]; cbn; [|done]. apply coalesced_entries_sum.
Qed.

(** ** What a thread reads in its cache *)

Section READS.
Context {R V : Type} `{NumOk V} `{!AbstractRow R V} `{!AbstractRowOk R V} `{!AdditiveRow R V}.

(** A row put into the cache gets the updates the thread has not flushed. *)
Lemma InsertRow_spec l (th0 th : ThreadTable R V) row_id r : tt_oplogs th0 = ∅ -> thread_after l th0 th ->
  row_ok r -> Forall (fun cu => ar_col r cu.1) (updates_for l row_id) ->
  exists r', InsertRow row_id r th = Ret (mkThreadTable (tt_index th) (<[row_id := r']> (tt_rows th)) (tt_oplogs th)) /\
    row_after r (updates_for l row_id) r'.
Proof.
  intros He Ha Hr Hc. unfold InsertRow, updates_for in *. rewrite (tf_oplogs _ _ _ Ha), He, lookup_empty.
  destruct (row_updates l row_id) as [us|]; cbn [oplog_after default from_option id] in *;
    [|exists r; split; [done|by apply row_after_nil]].
  rewrite RowOpLog_iterate_spec. cbn [mbind outcome_bind].
  destruct (row_after_apply (sorted_entries (oplogs (foldl (inc_row_oplog (R := R)) RowOpLog_new us))) r)
    as (r' & E & _ & A); [done|by apply (coalesced_entries_columns us (fun c => ar_col r c))|].
  rewrite E. exists r'. split; [done|]. eapply row_after_sum; [|exact A]. intros c. apply coalesced_entries_sum.
Qed.

Lemma updates_for_app (l1 l2 : list (batch V)) row_id :
  updates_for (l1 ++ l2) row_id = updates_for l1 row_id ++ updates_for l2 row_id.
Proof. apply row_updates_app. Qed.
End READS.

(** A thread reads its own updates in its cache: a row put there shows, in
    every column, its value plus the sum of the updates the thread made since
    its last flush, those made before the row was put there and those made
    after. *)
Lemma thread_cache_reads_own_writes {R V} `{NumOk V} `{!AbstractRow R V} `{!AbstractRowOk R V} `{!AdditiveRow R V}
    (calls1 calls2 : list (update_call V)) (th : ThreadTable R V) row_id r :
  let b1 := call_batch <$> calls1 in let b2 := call_batch <$> calls2 in
  tt_rows th = ∅ -> tt_oplogs th = ∅ -> row_ok r -> Forall (fun cu => ar_col r cu.1) (updates_for (b1 ++ b2) row_id) ->
  exists th1 th2 th3 r', foldM thread_call calls1 th = Ret th1 /\ InsertRow row_id r th1 = Ret th2 /\
    foldM thread_call calls2 th2 = Ret th3 /\ GetRow row_id th3 = Some r' /\
    (forall c, ar_col r' c <-> ar_col r c) /\
    (forall c, ar_col r c -> exists v, row_get r c = Ret v /\
       row_get r' c = Ret (v_add v (column_sum (updates_for (b1 ++ b2) row_id) c))).
Proof.
  intros b1 b2 Hr0 Ho0 Hr Hc. rewrite updates_for_app in Hc. apply Forall_app in Hc as [Hc1 Hc2].
  destruct (thread_calls_spec calls1 th) as (th1 & E1 & A1).
  { intros id r0 E. by rewrite Hr0, lookup_empty in E. }
  assert (Hnone : tt_rows th1 = ∅).
  { apply map_empty. intros id. pose proof (tf_rows _ _ _ A1 id) as Hid. rewrite Hr0, lookup_empty in Hid. by inversion Hid. }
  destruct (InsertRow_spec b1 th th1 row_id r Ho0 A1 Hr Hc1) as (r1 & E2 & Ar1). rewrite Hnone in E2.
  destruct (thread_calls_spec calls2 (mkThreadTable (tt_index th1) {[row_id := r1]} (tt_oplogs th1))) as (th3 & E3 & A3).
  { intros id r0. cbn [tt_rows]. intros [<- <-]%lookup_singleton_Some. split; [apply Ar1|]. eapply Forall_impl; [exact Hc2|]. intros cu. apply Ar1. }
  pose proof (tf_rows _ _ _ A3 row_id) as Hrow. cbn [tt_rows] in Hrow. rewrite lookup_singleton_eq in Hrow.
  inversion Hrow as [? r3 Ar3 Eq1 Eq2|]. subst. pose proof (row_after_app _ _ _ _ _ Ar1 Ar3) as [_ Ac Ag].
  eexists th1, _, th3, r3. unfold GetRow. rewrite <- updates_for_app in Ag. by split_and!.
Qed.

(** *** Witnesses

    A table whose process cache holds row 3, of which column 7 is 10. *)
Definition demo_cached_storage : ProcessStorage (SparseRow int32) :=
  match Insert false 3 (SSPClientRow_new 0 (mkSparseRow {[7 := to_int32 10]})) (ProcessStorage_new 2 3) with
  | Ret p => p.2
  | _ => ProcessStorage_new 2 3
  end.

Definition demo_thread_table : ClientTable (SparseRow int32) int32 :=
  mkClientTable 1 [∅; ∅; ∅] [∅; ∅; ∅] demo_cached_storage.

Definition demo_calls : list (update_call int32) :=
  [CallInc 3 7 (to_int32 5); CallBatchInc 4 [(1, to_int32 2); (1, to_int32 3)]; CallInc 3 7 (to_int32 (-1))].

Lemma demo_cached_rows id row slot : storage_map demo_cached_storage !! id = Some (row, slot) ->
  id = 3 /\ num_refs row = 0 /\ cr_data row = mkSparseRow {[7 := to_int32 10]}.
Proof.
  assert (E : storage_map demo_cached_storage
    = {[3 := (mkClientRow 0 (mkSparseRow {[7 := to_int32 10]}) (Some 0), 0)]}) by (by vm_compute).
  rewrite E. by intros [<- [= <- _]]%lookup_singleton_Some.
Qed.

Lemma demo_cached_ok : storage_ok demo_cached_storage.
Proof.
  destruct (Insert_total false (ProcessStorage_new 2 3) 3 (SSPClientRow_new 0 (mkSparseRow {[7 := to_int32 10]})))
    as (e & ps & E & Hin & _).
  - by apply ProcessStorage_new_ok.
  - done.
  - by vm_compute.
  - intros row slot Hl. by vm_compute in Hl.
  - intros _ Hn. by vm_compute in Hn.
  - constructor.
    + unfold demo_cached_storage. rewrite E. apply Hin.
    + intros id row slot Hl. apply demo_cached_rows in Hl as (_ & -> & _). by vm_compute.
    + intros id row slot Hl. apply demo_cached_rows in Hl as (_ & _ & ->).
      intros c v. cbn. intros [<- <-]%lookup_singleton_Some. split; by vm_compute.
Qed.

Lemma demo_columns row_id :
  Forall (fun cu : Z * int32 => in_i32 cu.1) (updates_for (call_batch <$> demo_calls) row_id).
Proof. unfold updates_for. cbn. repeat case_bool_decide; repeat constructor; by vm_compute. Qed.

Lemma thread_cache_flush_equivalence_witness :
  exists th1 thf tf thd td,
    foldM thread_call demo_calls (ThreadTable_new demo_context) = Ret th1 /\
    SSP_FlushThreadCache demo_context th1 demo_thread_table = Ret (thf, tf) /\
    foldM (direct_call demo_context) demo_calls (ThreadTable_new demo_context, demo_thread_table) = Ret (thd, td) /\
    table_row_oplog demo_context (ct_oplog tf) 3 = table_row_oplog demo_context (ct_oplog td) 3.
Proof.
  destruct (thread_cache_flush_equivalence demo_context demo_calls (ThreadTable_new demo_context) demo_thread_table)
    as (th1 & thf & tf & thd & td & E1 & E2 & E3 & _ & _ & _ & Ho & _).
  - exact demo_context_ok.
  - constructor; [done|done|exact demo_cached_ok].
  - done.
  - repeat constructor; by cbn.
  - intros row_id r Hr. cbn in Hr. by rewrite lookup_empty in Hr.
  - intros id row slot _. apply demo_columns.
  - exists th1, thf, tf, thd, td. split_and!; [exact E1|exact E2|exact E3|by apply Ho].
Defined.

