(* ===== verification/ControllerProps.v ===== *)
(** * Reads of the application threads

    A read is fresh enough and bounded in its requests, and the thread that
    waits for a row gets it with all updates of its own: those its worker
    added and those of its own cache. *)
From stdpp Require Import strings.
From S2P Require Import Prelude Bytes Num VectorClock Context SparseRow DenseRow AdditiveRow OpLog OpLogWire OpLogMsgs RowWire ServerRow Snapshot VersionMgr RequestMgr ClockLRU ProcessStorage OpLogMgr BgWorkers BgRows BgProps ThreadTable Consistency ThreadProps ThreadEquiv.
Open Scope Z_scope.

Section GET.
Context {R : Type}.
Implicit Types (ps : ProcessStorage R).

(** The row as the accessor sees it. *)
Definition same_content (row row' : ClientRow R) : Prop :=
  cr_data row' = cr_data row /\ cr_clock row' = cr_clock row.

Lemma same_content_clock row row' : same_content row row' -> GetClock row' = GetClock row.
Proof. intros [_ E]. unfold GetClock. by rewrite E. Qed.

Lemma Find_again_found holds row_id ps row slot : ps_ok ps -> storage_map ps !! row_id = Some (row, slot) ->
  exists row' ps', Find_again holds row_id ps = Ret (Some row', ps') /\ same_content row row' /\
    row_replaced ps row_id row' slot ps'.
Proof.
  intros Hok E. unfold Find_again. rewrite E. destruct holds.
  - destruct (Release_found row_id ps row slot Hok E) as (ps1 & E1 & A1). rewrite E1. cbn [mbind outcome_bind].
    destruct (Find_found row_id ps1 (DecRef row) slot) as (ps2 & E2 & A2);
      [apply A1|by eapply row_replaced_at|]. rewrite E2.
    exists (IncRef (DecRef row)), ps2. split_and!; [done|done|by eapply row_replaced_again].
  - cbn [mbind outcome_bind]. destruct (Find_found row_id ps row slot Hok E) as (ps2 & E2 & A2).
    rewrite E2. by exists (IncRef row), ps2.
Qed.

Lemma fetch_loop_found holds row_id n ps rest row slot : ps_ok ps -> storage_map ps !! row_id = Some (row, slot) ->
  n + 1 <= 3 ->
  exists row' ps', fetch_loop holds row_id n (ps :: rest) = Ret (row', ps') /\ same_content row row' /\
    row_replaced ps row_id row' slot ps'.
Proof.
  intros Hok E Hn. destruct (Find_again_found holds row_id ps row slot Hok E) as (row' & ps' & E1 & Hs & A).
  exists row', ps'. cbn [fetch_loop]. rewrite E1. cbn [mbind outcome_bind]. by rewrite bool_decide_true by lia.
Qed.

Lemma fetch_loop_missing holds row_id n ps rest : storage_map ps !! row_id = None ->
  fetch_loop holds row_id n (ps :: rest)
    = if bool_decide (n + 1 <= 3) then fetch_loop holds row_id (n + 1) rest else CheckFail.
Proof.
  intros E. cbn [fetch_loop]. unfold Find_again. rewrite E. cbn [mbind outcome_bind].
  by case_bool_decide.
Qed.

(** The fourth reply is one too many. *)
Lemma fetch_loop_limit holds row_id ps rest : ps_ok ps -> fetch_loop holds row_id 3 (ps :: rest) = CheckFail.
Proof.
  intros Hok. destruct (storage_map ps !! row_id) as [[row slot]|] eqn:E; [|by rewrite fetch_loop_missing].
  destruct (Find_again_found holds row_id ps row slot Hok E) as (row' & ps' & E1 & _ & _).
  cbn [fetch_loop]. by rewrite E1.
Qed.

(** Whether the cache has the row at clock [c]. *)
Definition fresh_at (row_id c : Z) ps : bool :=
  match storage_map ps !! row_id with Some (row, _) => bool_decide (GetClock row >= c) | None => false end.

(** Replies that leave the row uncached cost a turn each; three cost the process. *)
Lemma fetch_loop_skip holds row_id n missed l : Forall (fun ps => storage_map ps !! row_id = None) missed ->
  n + Z.of_nat (length missed) <= 3 ->
  fetch_loop holds row_id n (missed ++ l) = fetch_loop holds row_id (n + Z.of_nat (length missed)) l.
Proof.
  intros Hmiss. revert n. induction Hmiss as [|p missed Hp _ IH]; intros n Hn; cbn [app length]; [by rewrite Z.add_0_r|].
  cbn [length] in Hn. rewrite fetch_loop_missing by done. rewrite bool_decide_true, IH by lia. f_equal. lia.
Qed.

Lemma fetch_loop_gives_up holds row_id missed ps rest : Forall (fun ps => storage_map ps !! row_id = None) missed -> ps_ok ps ->
  Z.of_nat (length missed) >= 3 -> fetch_loop holds row_id 0 (missed ++ ps :: rest) = CheckFail.
Proof.
  intros Hmiss Hps Hn. destruct missed as [|p1 [|p2 [|p3 l]]]; try (cbn in Hn; lia).
  repeat (apply Forall_cons in Hmiss as [? Hmiss]). cbn [app]. rewrite !fetch_loop_missing by done.
  destruct Hmiss as [|p4 l ? _]; cbn [app]; [by apply fetch_loop_limit|by rewrite fetch_loop_missing].
Qed.

Lemma SSP_Get_cached staleness clock row_id ps replies row slot : ps_ok ps ->
  storage_map ps !! row_id = Some (row, slot) -> GetClock row >= stalest_clock staleness clock ->
  exists ps', SSP_Get staleness clock row_id ps replies = Ret (IncRef row, ps') /\
    row_replaced ps row_id (IncRef row) slot ps'.
Proof.
  intros Hok E Hc. destruct (Find_found row_id ps row slot Hok E) as (ps' & E1 & A). exists ps'.
  unfold SSP_Get. rewrite E1. cbn [mbind outcome_bind]. by rewrite bool_decide_true.
Qed.

(** Without a fresh row the loop decides, and its row must be fresh. *)
Lemma SSP_Get_fetch staleness clock row_id ps replies : ps_ok ps ->
  fresh_at row_id (stalest_clock staleness clock) ps = false ->
  SSP_Get staleness clock row_id ps replies =
    ('(row', ps') ← fetch_loop (bool_decide (is_Some (storage_map ps !! row_id))) row_id 0 replies;
     _ ← CHECK (bool_decide (GetClock row' >= stalest_clock staleness clock)); Ret (row', ps')).
Proof.
  unfold fresh_at, SSP_Get. intros Hok. destruct (storage_map ps !! row_id) as [[row slot]|] eqn:E.
  - intros Hf. destruct (Find_found row_id ps row slot Hok E) as (ps' & E1 & A). rewrite E1.
    cbn [mbind outcome_bind]. change (GetClock (IncRef row)) with (GetClock row). rewrite Hf.
    by rewrite bool_decide_true by (by eexists).
  - intros _. unfold Find. rewrite E. cbn [mbind outcome_bind]. by rewrite bool_decide_false by (by intros []).
Qed.
End GET.

(** C19: [Get] in SSP mode: a cached row that is fresh enough is returned without a
    request; otherwise the first reply that left the row in the cache decides:
    its row is returned if it is fresh enough and the process aborts if it is
    not; when three replies left no row the fourth aborts the process.  Whatever is
    returned is no staler than the staleness bound allows. *)
Theorem ssp_get_bounded_staleness {R} staleness clock row_id (ps : ProcessStorage R) (missed : list (ProcessStorage R))
    (last : ProcessStorage R) rest :
  let c := stalest_clock staleness clock in
  ps_ok ps -> ps_ok last -> Forall (fun p => storage_map p !! row_id = None) missed ->
  (fresh_at row_id c ps = true -> forall replies, exists row ps', SSP_Get staleness clock row_id ps replies = Ret (row, ps') /\
     exists row0 slot, storage_map ps !! row_id = Some (row0, slot) /\ same_content row0 row) /\
  (fresh_at row_id c ps = false -> Z.of_nat (length missed) <= 2 ->
     forall row slot, storage_map last !! row_id = Some (row, slot) ->
     if bool_decide (GetClock row >= c)
     then exists row' ps', SSP_Get staleness clock row_id ps (missed ++ last :: rest) = Ret (row', ps') /\
            same_content row row' /\ row_replaced last row_id row' slot ps'
     else SSP_Get staleness clock row_id ps (missed ++ last :: rest) = CheckFail) /\
  (fresh_at row_id c ps = false -> Z.of_nat (length missed) >= 3 ->
     SSP_Get staleness clock row_id ps (missed ++ last :: rest) = CheckFail) /\
  (forall replies row ps', SSP_Get staleness clock row_id ps replies = Ret (row, ps') ->
     GetClock row >= c /\ 0 <= c).
Proof.
  intros c Hps Hlast Hmiss.
  split_and!.
  - unfold fresh_at. destruct (storage_map ps !! row_id) as [[row slot]|] eqn:E; [|by intros].
    intros Hc%bool_decide_eq_true replies.
    destruct (SSP_Get_cached staleness clock row_id ps replies row slot Hps E Hc) as (ps' & E1 & _).
    exists (IncRef row), ps'. split; [done|]. by exists row, slot.
  - intros Hf Hn row slot E. rewrite SSP_Get_fetch, fetch_loop_skip by (done || lia).
    destruct (fetch_loop_found (bool_decide (is_Some (storage_map ps !! row_id))) row_id
      (0 + Z.of_nat (length missed)) last rest row slot Hlast E) as (row' & ps' & E1 & Hs & A); [lia|].
    rewrite E1. cbn [mbind outcome_bind]. rewrite (same_content_clock _ _ Hs). fold c.
    destruct (bool_decide (GetClock row >= c)) eqn:Ec; cbn [CHECK mbind outcome_bind]; [|done]. by exists row', ps'.
  - intros Hf Hn. by rewrite SSP_Get_fetch, fetch_loop_gives_up by done.
  - intros replies row ps' E. split; [|unfold c, stalest_clock; lia].
    destruct (fresh_at row_id c ps) eqn:Ef.
    + unfold fresh_at in Ef. destruct (storage_map ps !! row_id) as [[row0 slot]|] eqn:E0; [|done].
      apply bool_decide_eq_true in Ef.
      destruct (SSP_Get_cached staleness clock row_id ps replies row0 slot Hps E0 Ef) as (ps1 & E1 & _).
      rewrite E in E1. by injection E1 as -> ->.
    + rewrite SSP_Get_fetch in E by done. apply bind_Ret_inv in E as ([row1 ps1] & _ & E).
      fold c in E. apply bind_Ret_inv in E as (? & Ec & [= <- <-]). by apply CHECK_Ret, bool_decide_eq_true in Ec.
Qed.

Section ANSWERED.
Context {R V : Type} `{NumOk V} `{!AbstractRow R V} `{!AbstractRowOk R V} `{!AdditiveRow R V}.

(** The read of a thread whose row is in the cache after the first reply. *)
Lemma SSP_ThreadGet_fetched staleness clock row_id (ps ps1 : ProcessStorage R) row slot l (th0 th : ThreadTable R V) :
  ps_ok ps -> ps_ok ps1 -> fresh_at row_id (stalest_clock staleness clock) ps = false ->
  storage_map ps1 !! row_id = Some (row, slot) -> GetClock row >= stalest_clock staleness clock ->
  tt_oplogs th0 = ∅ -> thread_after l th0 th -> GetRow row_id th = None ->
  row_ok (cr_data row) -> Forall (fun cu => ar_col (cr_data row) cu.1) (updates_for l row_id) ->
  exists rv th' ps', SSP_ThreadGet staleness clock row_id th ps [ps1] = Ret (rv, th', ps') /\
    row_after (cr_data row) (updates_for l row_id) rv /\ GetRow row_id th' = Some rv.
Proof.
  intros Hps Hps1 Hf E Hc He Ha Hnone Hr Hcols.
  destruct (fetch_loop_found (bool_decide (is_Some (storage_map ps !! row_id))) row_id 0 ps1 [] row slot Hps1 E)
    as (row' & ps2 & E1 & Hs & A); [lia|]. pose proof Hs as [Ed _].
  destruct (InsertRow_spec l th0 th row_id (cr_data row) He Ha Hr Hcols) as (rv & E2 & Ar).
  destruct (Release_found row_id ps2 row' slot) as (ps3 & E3 & _); [apply A|by eapply row_replaced_at|].
  unfold SSP_ThreadGet. rewrite Hnone, SSP_Get_fetch by done. rewrite E1. cbn [mbind outcome_bind].
  rewrite (same_content_clock _ _ Hs), bool_decide_true by done. cbn [CHECK mbind outcome_bind].
  unfold copy_to_thread. rewrite Ed, E2. cbn [mbind outcome_bind]. unfold GetRow at 1. cbn [tt_rows].
  rewrite lookup_insert_eq. cbn [checked mbind outcome_bind]. rewrite E3. cbn [mbind outcome_bind].
  eexists rv, _, ps3. split; [done|]. split; [done|]. unfold GetRow. cbn [tt_rows]. by rewrite lookup_insert_eq.
Qed.
End ANSWERED.

(** C3: in SSP mode a read that waits is served by the first reply at its clock: if
    a thread's request waits with the clock its read needs and the server's
    reply has that clock or a later one, then the worker answers the thread,
    and the read ends with the row and no further request; every column it
    shows is the server's value with all updates of the client the server
    lacked, plus the updates the thread has not flushed. *)
Theorem waiting_read_completes {R V} `{NumOk V} `{!AbstractRow R V} `{!AbstractRowOk R V} `{!AdditiveRow R V}
    g reg indet hist (s : BgState R V (SSPRowRequestOpLogMgr (BgOpLog V))) server_id table_id row_id clock version data
    t r q staleness thread_clock ps l (th0 th : ThreadTable R V) :
  consistency_model g = SSP -> context_ok g -> 0 <= row_id -> 0 <= clock -> ssp_bg_ok g hist s ->
  in_u32 version -> u32 (version + 1) <= bg_version s -> covers s version ->
  bg_tables s !! table_id = Some t -> can_insert row_id (ct_storage t) ->
  read_row reg table_id data s = Ret r -> row_ok r ->
  Forall (fun cu => ar_col r cu.1) (missing_updates g hist table_id row_id version (bg_version s) t) ->
  q ∈ waiting (pending_row_requests (bg_mgr s)) (table_id, row_id) ->
  req_clock q = stalest_clock staleness thread_clock -> req_clock q <= clock ->
  ps_ok ps -> fresh_at row_id (req_clock q) ps = false ->
  tt_oplogs th0 = ∅ -> thread_after l th0 th -> GetRow row_id th = None ->
  Forall (fun cu => ar_col r cu.1) (updates_for l row_id) ->
  exists s' outs t' rv th' ps',
    HandleServerRowRequestReply g reg indet server_id table_id row_id clock version data s = Ret (s', outs) /\
    OutAppReply (app_thread_id q) ∈ outs /\ bg_tables s' !! table_id = Some t' /\
    SSP_ThreadGet staleness thread_clock row_id th ps [ct_storage t'] = Ret (rv, th', ps') /\
    GetRow row_id th' = Some rv /\
    forall c, ar_col r c -> exists v, row_get r c = Ret v /\
      row_get rv c = Ret (v_add v (column_sum
        (missing_updates g hist table_id row_id version (bg_version s) t ++ updates_for l row_id) c)).
Proof.
  intros Hm Hg Hrow Hclk Hok Hv Hw Hcov Ht Hins Hread Hr Hcols Hq Hqc Hle Hps Hf He Ha Hnone Hlcols.
  destruct (row_after_apply _ r Hr Hcols) as (r' & Hr' & _ & A1).
  destruct (ssp_reply_spec g reg indet hist s server_id table_id row_id clock version data t r r')
    as (s' & ps1 & requests & E & [Hps1 (refs & slot & Hmap & _) _ _] & Hts & _); [done..|].
  destruct (SSP_ThreadGet_fetched staleness thread_clock row_id ps ps1
    (mkClientRow refs r' (cached_clock g clock)) slot l th0 th) as (rv & th' & ps' & E2 & A2 & E3); try done.
  - by rewrite <- Hqc.
  - unfold GetClock, cached_clock. cbn. rewrite Hm. cbn. lia.
  - apply A1.
  - eapply Forall_impl; [exact Hlcols|]. intros cu. apply A1.
  - eexists s', _, _, rv, th', ps'. split; [exact E|]. split_and!.
    + apply elem_of_app. right. apply list_elem_of_fmap_2, list_elem_of_fmap_2, list_elem_of_filter. by split.
    + rewrite Hts. apply lookup_insert_eq.
    + exact E2.
    + exact E3.
    + intros c Hc. by apply (row_after_app _ _ _ _ _ A1 A2).
Qed.

(** *** Witnesses *)

Lemma ssp_get_bounded_staleness_witness :
  exists row ps', SSP_Get 1 3 3 demo_cached_storage [ProcessStorage_new 2 3; demo_cached_storage] = CheckFail /\
    SSP_Get 1 1 3 demo_cached_storage [] = Ret (row, ps') /\ GetClock row = 0.
Proof.
  destruct (ssp_get_bounded_staleness 1 3 3 demo_cached_storage [ProcessStorage_new 2 3] demo_cached_storage [])
    as (_ & Hfetch & _ & _).
  - apply (so_ps _ demo_cached_ok).
  - apply (so_ps _ demo_cached_ok).
  - by repeat constructor.
  - specialize (Hfetch ltac:(by vm_compute) ltac:(by vm_compute)
      (mkClientRow 0 (mkSparseRow {[7 := to_int32 10]}) (Some 0)) 0 ltac:(by vm_compute)).
    eexists _, _. split_and!; [exact Hfetch|by vm_compute|by vm_compute].
Defined.

(** Thread 201 waits; it has 4 unflushed for column 7, the worker adds 6 to the
    server's 10. *)
Definition demo_thread_updated : ThreadTable (SparseRow int32) int32 :=
  match foldM thread_call demo_calls (ThreadTable_new demo_context) with Ret th => th | _ => ThreadTable_new demo_context end.

Lemma demo_thread_after :
  thread_after (call_batch <$> demo_calls) (ThreadTable_new demo_context) demo_thread_updated.
Proof.
  destruct (thread_calls_spec demo_calls (ThreadTable_new (R := SparseRow int32) demo_context)) as (th & E & A).
  - intros row_id r Hr. cbn in Hr. by rewrite lookup_empty in Hr.
  - unfold demo_thread_updated. by rewrite E.
Qed.

Lemma waiting_read_completes_witness :
  exists s' outs t' rv th' ps',
    HandleServerRowRequestReply demo_context bg_reg false 1 0 3 0 (2 ^ 32 - 1) demo_server_row demo_bg_state = Ret (s', outs) /\
    OutAppReply 201 ∈ outs /\ bg_tables s' !! 0 = Some t' /\
    SSP_ThreadGet 1 1 3 demo_thread_updated (ProcessStorage_new 2 3) [ct_storage t'] = Ret (rv, th', ps') /\
    row_get rv 7 = Ret (to_int32 20).
Proof.
  destruct (waiting_read_completes demo_context bg_reg false {[0 := demo_sent]} demo_bg_state 1 0 3 0
    (2 ^ 32 - 1) demo_server_row demo_client_table (mkSparseRow {[7 := to_int32 10]})
    (mkRequest 201 0 (2 ^ 32 - 1) None) 1 1 (ProcessStorage_new 2 3) (call_batch <$> demo_calls)
    (ThreadTable_new demo_context) demo_thread_updated)
    as (s' & outs & t' & rv & th' & ps' & E1 & E2 & E3 & E4 & _ & Hget).
  - done.
  - exact demo_context_ok.
  - done.
  - done.
  - exact demo_ssp_bg_ok.
  - by vm_compute.
  - by vm_compute.
  - exists (mkRequest 201 0 (2 ^ 32 - 1) None). split; [|by vm_compute].
    assert (E : all_pending (pending_row_requests (bg_mgr demo_bg_state)) = [mkRequest 201 0 (2 ^ 32 - 1) None])
      by (by vm_compute). rewrite E. by left.
  - done.
  - apply demo_can_insert.
  - by vm_compute.
  - intros c v. cbn. intros [<- <-]%lookup_singleton_Some. split; by vm_compute.
  - apply (bool_decide_unpack _). by vm_compute.
  - assert (E : waiting (pending_row_requests (bg_mgr demo_bg_state)) (0, 3) = [mkRequest 201 0 (2 ^ 32 - 1) None])
      by (by vm_compute). rewrite E. by left.
  - by vm_compute.
  - by vm_compute.
  - by apply ProcessStorage_new_ok.
  - by vm_compute.
  - done.
  - exact demo_thread_after.
  - by vm_compute.
  - apply demo_columns.
  - exists s', outs, t', rv, th', ps'. split_and!; [exact E1|exact E2|exact E3|exact E4|].
    destruct (Hget 7) as (v & Ev & ->); [by vm_compute|]. vm_compute in Ev. injection Ev as <-.
    by vm_compute.
Defined.

(** ** An update between the oplog and the cache

    [ApplyOpLogsAndInsertRow] runs next to the application threads.  An oplog
    it finds it keeps locked until the row is in the cache; one that is not
    there it cannot lock. *)

Lemma SSP_Inc_oplog {R V} `{NumOk V} `{!AbstractRow R V} `{!AbstractRowOk R V} `{!AdditiveRow R V} g row_id column_id
    (delta : V) (th th' : ThreadTable R V) t t' : context_ok g -> 0 <= row_id ->
  Z.of_nat (length (ct_oplog t)) = num_bg_threads g -> table_row_oplog g (ct_oplog t) row_id = None ->
  SSP_Inc g row_id column_id delta th t = Ret (th', t') ->
  unsent_updates g (ct_oplog t') row_id = [(column_id, delta)].
Proof.
  intros Hg Hr Hl Hn E. unfold SSP_Inc in E. apply bind_Ret_inv in E as (th1 & _ & E).
  destruct (oplog_add_spec (R := R) g Hg row_id [(column_id, delta)] (ct_oplog t)) as (o & E2 & _ & Ho); [done..|].
  rewrite E2 in E. cbn [mbind outcome_bind] in E. apply bind_Ret_inv in E as (ps & _ & [= _ <-]).
  unfold unsent_updates. cbn [ct_oplog with_cached with_oplog]. rewrite Ho, Hn by done. cbn [row_updates fst snd default].
  rewrite bool_decide_true by done. cbn [app oplog_after default foldl]. unfold inc_row_oplog, RowOpLog_FindCreate.
  cbn [oplogs RowOpLog_new fst snd]. rewrite lookup_empty. cbn [RowOpLog_store oplogs].
  rewrite insert_insert_eq, ar_add, ar_init, v_add_zero.
  unfold sorted_entries. by rewrite insert_empty, map_to_list_singleton.
Qed.

(** C22: when a row arrives whose oplog is empty, the worker holds no lock on it, and
    an update the application makes before the row reaches the cache is in the
    oplog but missing from the cached row, which is the row prepared before;
    with an oplog the lock is held until the row is cached. *)
Theorem unlocked_update_missing_from_row {R V M} `{NumOk V} `{!AbstractRow R V} `{!AbstractRowOk R V} `{!AdditiveRow R V}
    `{!RowRequestOpLogMgr M (BgOpLog V)} g table_id row_id version r clock
    (s : BgState R V M) t client_row m locked :
  mode_ok g -> context_ok g -> 0 <= row_id -> bg_tables s !! table_id = Some t -> client_table_ok g t ->
  prepare_client_row g table_id row_id version r clock s = Ret (client_row, m, locked) ->
  (locked = true <-> is_Some (table_row_oplog g (ct_oplog t) row_id)) /\
  (locked = false -> forall th column_id delta th' t',
     SSP_Inc g row_id column_id delta th t = Ret (th', t') ->
     client_table_ok g t' -> can_insert row_id (ct_storage t') ->
     exists ps, insert_client_row table_id row_id client_row (with_tables (<[table_id := t']> (bg_tables s)) (with_mgr m s))
         = Ret (with_storage_of table_id t' ps (with_tables (<[table_id := t']> (bg_tables s)) (with_mgr m s))) /\
       unsent_updates g (ct_oplog t') row_id = [(column_id, delta)] /\
       exists refs slot, storage_map ps !! row_id = Some (mkClientRow refs (cr_data client_row) (cr_clock client_row), slot)).
Proof.
  intros Hm Hg Hr Ht Hto E. unfold prepare_client_row in E. rewrite Ht in E. cbn [checked mbind outcome_bind] in E.
  apply bind_Ret_inv in E as ([r1 m1] & _ & E). rewrite FindOpLog_spec in E by (done || apply Hto).
  cbn [mbind outcome_bind] in E. apply bind_Ret_inv in E as (r2 & _ & E). rewrite MyCreateClientRow_spec in E by done.
  injection E as <- <- <-. split; [apply bool_decide_eq_true|].
  intros Hlock%bool_decide_eq_false th column_id delta th' t' Ei Hto' Hins.
  set (s' := with_tables _ _).
  destruct (insert_client_row_spec g table_id row_id clock r2 s' t') as (ps & E & [_ (refs & slot & Hrow & _) _ _]);
    [done|done|apply lookup_insert_eq|done..|].
  exists ps. split; [exact E|]. split; [|by exists refs, slot].
  eapply SSP_Inc_oplog; [done|done|apply Hto|by apply eq_None_not_Some|exact Ei].
Qed.

(** Row 4 has no oplog; the application adds 7 to its column 1. *)
Definition demo_prepared : ClientRow (SparseRow int32) := mkClientRow 0 (mkSparseRow {[7 := to_int32 10]}) (Some 0).

Lemma unlocked_update_missing_from_row_witness :
  exists m th' t' ps refs slot,
    prepare_client_row demo_context 0 4 (2 ^ 32 - 1) (mkSparseRow {[7 := to_int32 10]}) 0 demo_bg_state
      = Ret (demo_prepared, m, false) /\
    SSP_Inc demo_context 4 1 (to_int32 7) (ThreadTable_new demo_context) demo_client_table = Ret (th', t') /\
    unsent_updates demo_context (ct_oplog t') 4 = [(1, to_int32 7)] /\
    storage_map ps !! 4 = Some (mkClientRow refs (mkSparseRow {[7 := to_int32 10]}) (Some 0), slot).
Proof.
  destruct (prepare_client_row demo_context 0 4 (2 ^ 32 - 1) (mkSparseRow {[7 := to_int32 10]}) 0 demo_bg_state)
    as [[[row m] locked]| |] eqn:E; [|by vm_compute in E|by vm_compute in E].
  assert (Hrow : row = demo_prepared /\ locked = false) by (vm_compute in E; injection E as <- _ <-; by vm_compute).
  destruct Hrow as [-> ->].
  destruct (SSP_Inc demo_context 4 1 (to_int32 7) (ThreadTable_new demo_context) demo_client_table)
    as [[th' t']| |] eqn:Ei; [|by vm_compute in Ei|by vm_compute in Ei].
  destruct (unlocked_update_missing_from_row demo_context 0 4 (2 ^ 32 - 1) (mkSparseRow {[7 := to_int32 10]}) 0
    demo_bg_state demo_client_table demo_prepared m false) as [_ Hlost].
  - by left.
  - exact demo_context_ok.
  - done.
  - done.
  - exact demo_client_table_ok.
  - exact E.
  - destruct (Hlost eq_refl _ _ _ _ _ Ei) as (ps & _ & Hu & refs & slot & Hs).
    + assert (Et : length (ct_oplog t') = 3%nat /\ ct_storage t' = ct_storage demo_client_table)
        by (vm_compute in Ei; injection Ei as _ <-; by vm_compute).
      destruct Et as [El Es]. destruct demo_client_table_ok as [_ H1 H2 H3].
      constructor; rewrite ?El, ?Es; done.
    + assert (Es : ct_storage t' = ct_storage demo_client_table)
        by (vm_compute in Ei; injection Ei as _ <-; by vm_compute).
      rewrite Es. apply demo_can_insert.
    + exists m, th', t', ps, refs, slot. split_and!; [done|done|exact Hu|exact Hs].
Defined.
