(* ===== verification/PushReads.v ===== *)
(** * Prefetching under SSPPush

    [GetAsync] asks for rows without waiting for them and [WaitPendingAsyncGet]
    takes the replies ([SSPPushConsistencyController],
    [petuum_ps/consistency/ssp_push_consistency_controller.cpp]).  All replies
    to a thread look alike ([kRowRequestReply] carries no row), so a [Get] takes
    those of earlier [GetAsync]s for its own.  The count of pending prefetches is
    kept per thread and table; a thread here uses one table. *)
From stdpp Require Import strings.
From S2P Require Import Prelude Bytes Num VectorClock Context SparseRow OpLog ServerRow ClockLRU ProcessStorage OpLogMgr BgWorkers BgRows BgProps ThreadTable Consistency ThreadProps ThreadEquiv ControllerProps.
Open Scope Z_scope.

Section PREFETCH.
Context {R : Type}.
Implicit Types (ps last : ProcessStorage R).

(** A call of an application thread.  [GetCall] takes [num_fetches] replies,
    one for each request it sends. *)
Inductive push_call :=
  | GetAsyncCall (row_id : Z) (ps : ProcessStorage R)
  | WaitPendingCall
  | GetCall (row_id : Z) (num_fetches : nat).

(** [pending_async_get_cnt_] and the rows whose replies the thread has not
    taken, in the order the replies come. *)
Definition call_step (st : option Z * list Z) (call : push_call) : option Z * list Z :=
  let '(pending, outstanding) := st in
  match call with
  | GetAsyncCall row_id ps =>
      let '(pending', waits, sends) := Push_GetAsync row_id ps pending in
      (pending', (if (waits : bool) then tail outstanding else outstanding) ++ (if (sends : bool) then [row_id] else []))
  | WaitPendingCall =>
      let '(n, pending') := Push_WaitPendingAsyncGet pending in (pending', drop (Z.to_nat n) outstanding)
  | GetCall row_id n => (pending, drop n (outstanding ++ replicate n row_id))
  end.

Definition pending_count (st : option Z * list Z) : Z := default 0 (fst st).

Lemma call_step_bounded st call : Z.of_nat (length (snd st)) = pending_count st -> pending_count st <= kMaxPendingAsyncGetCnt ->
  Z.of_nat (length (snd (call_step st call))) = pending_count (call_step st call) /\
  pending_count (call_step st call) <= kMaxPendingAsyncGetCnt.
Proof.
  destruct st as [pending outstanding]. unfold pending_count. cbn [fst snd]. intros Hl Hb.
  destruct call as [row_id ps| |row_id n]; cbn [call_step].
  - unfold Push_GetAsync. destruct (Find_exists row_id ps); cbn [fst snd]; [by rewrite app_nil_r|].
    unfold kMaxPendingAsyncGetCnt in *. case_bool_decide as Hfull; cbn [fst snd default from_option id]; rewrite length_app; cbn [length].
    + rewrite !u64_id by int_lia. destruct outstanding as [|x l]; cbn [length tail] in *; lia.
    + rewrite u64_id by int_lia. lia.
  - unfold Push_WaitPendingAsyncGet. destruct pending as [n|]; cbn [fst snd default from_option id] in *; rewrite length_drop; unfold kMaxPendingAsyncGetCnt; lia.
  - cbn [fst snd]. rewrite length_drop, length_app, length_replicate. lia.
Qed.

(** When a thread prefetches rows of one table, its count of pending prefetches is, after any sequence of
    prefetches, waits and reads, the number of replies it has not taken; it
    never passes [kMaxPendingAsyncGetCnt] (so the 64-bit count never wraps and
    a prefetch that waits waits for a reply that will come), and waiting for
    the pending prefetches takes every reply. *)
Lemma prefetches_bounded calls :
  let st := foldl call_step (None, []) calls in
  Z.of_nat (length (snd st)) = pending_count st /\ 0 <= pending_count st <= kMaxPendingAsyncGetCnt /\
  call_step st WaitPendingCall = ((fun _ => 0) <$> fst st, []).
Proof.
  intros st.
  assert (Hst : Z.of_nat (length (snd st)) = pending_count st /\ pending_count st <= kMaxPendingAsyncGetCnt).
  { unfold st. clear st. induction calls as [|call calls IH] using rev_ind; [by vm_compute|].
    rewrite foldl_app. destruct IH as [Hl Hb]. by apply call_step_bounded. }
  destruct Hst as [Hl Hb]. split_and!; [done|lia|done|].
  destruct st as [[n|] outstanding]; unfold pending_count in Hl; cbn in Hl |- *.
  - by rewrite drop_ge by lia.
  - by destruct outstanding.
Qed.

(** A read of an uncached row returns the row exactly if fewer than three
    prefetches are pending when it starts: if the replies of the pending
    prefetches come first and leave the row uncached, the read takes them for
    its own, and with three of them it aborts the process although the
    server answers the read in turn. *)
Lemma push_get_behind_prefetches staleness clock row_id system_clocks ps (missed : list (ProcessStorage R)) last rest row slot calls :
  let pending := pending_count (foldl call_step (None, []) calls) in
  Exists (fun c => stalest_clock staleness clock <= i32 c) system_clocks ->
  storage_map ps !! row_id = None -> Forall (fun p => storage_map p !! row_id = None) missed -> Z.of_nat (length missed) = pending ->
  ps_ok last -> storage_map last !! row_id = Some (row, slot) ->
  if bool_decide (pending < 3)
  then exists row' ps', Push_Get staleness clock row_id system_clocks ps (missed ++ last :: rest) = Ret (row', ps') /\
         same_content row row' /\ row_replaced last row_id row' slot ps'
  else Push_Get staleness clock row_id system_clocks ps (missed ++ last :: rest) = CheckFail.
Proof.
  intros pending Hclock Hps Hmiss Hlen Hok E. unfold Push_Get.
  assert (Hw : exists c, wait_system_clock (stalest_clock staleness clock) system_clocks = Some c).
  { unfold wait_system_clock. apply Exists_exists in Hclock as (c & Hin & Hc).
    destruct (filter _ system_clocks) as [|c' l] eqn:Ef; [|by exists c']. exfalso. apply (not_elem_of_nil c). rewrite <- Ef.
    by apply list_elem_of_filter. }
  destruct Hw as [c ->]. unfold Find. rewrite Hps. cbn [deref mbind outcome_bind]. case_bool_decide as Hp.
  - rewrite fetch_loop_skip by (done || lia).
    destruct (fetch_loop_found false row_id (0 + Z.of_nat (length missed)) last rest row slot Hok E) as (row' & ps' & E1 & Hs & A); [lia|].
    by exists row', ps'.
  - apply fetch_loop_gives_up; (done || lia).
Qed.
End PREFETCH.
