(* ===== verification/TableGroup.v ===== *)
(** * Table groups

    [TableGroup] ([petuum_ps/client/table_group.cpp]) with the constructor of
    [ClientTable] and the calls it makes of [BgWorkers]: creation of tables,
    registration of the application threads, the clock of a thread and of the
    process, and the barrier.  Messages to the background threads are
    outputs; each goes to all of them. *)
From S2P Require Import Prelude Bytes Num VectorClock Context SparseRow OpLog OpLogWire ServerRow ClockLRU ProcessStorage ThreadTable OpLogMgr BgWorkers Consistency.
Open Scope Z_scope.

Record ClientTableConfig := mkClientTableConfig {
  tc_table_info : TableInfo;
  process_cache_capacity : Z;
  thread_cache_capacity : Z;
  oplog_capacity : Z
}.

(** [ClockAllTables], [SendOpLogsAllTables], [ThreadRegister], [ThreadDeregister]. *)
Inductive tg_out :=
  | OutClockAllTables
  | OutSendOpLogsAllTables
  | OutAppConnect
  | OutAppThreadDereg.

#[export] Instance tg_out_eq_dec : EqDecision tg_out.
Proof. solve_decision. Defined.

Section TABLE_GROUP.
Context {R V : Type} `{Num V} `{!AbstractRow R V} `{!HashOrder}.
Context (g : GlobalContext) (aggressive_clock : bool).

Definition ClientTable_new (config : ClientTableConfig) : outcome (ClientTable R V) :=
  match consistency_model g with
  | SSP | SSPPush =>
      Ret (mkClientTable (row_type (tc_table_info config)) (TableOpLog_new g) (TableOpLogIndex_new g)
             (ProcessStorage_new (process_cache_capacity config) (GetLockPoolSize g)))
  | _ => CheckFail
  end.

(** A thread: its [ThreadContext] and its cache of each table ([thread_cache_]). *)
Record AppThread := mkAppThread { at_info : ThreadInfo; at_caches : gmap Z (ThreadTable R V) }.

Record TableGroup := mkTableGroup {
  tg_tables : gmap Z (ClientTable R V);
  tg_threads : gmap Z AppThread;
  num_app_threads_registered : Z;
  max_table_staleness : Z;
  tg_vector_clock : VectorClock
}.

Definition with_thread (thread_id : Z) (a : AppThread) (tg : TableGroup) : TableGroup :=
  mkTableGroup (tg_tables tg) (<[thread_id := a]> (tg_threads tg)) (num_app_threads_registered tg)
    (max_table_staleness tg) (tg_vector_clock tg).
Definition with_table (table_id : Z) (t : ClientTable R V) (tg : TableGroup) : TableGroup :=
  mkTableGroup (<[table_id := t]> (tg_tables tg)) (tg_threads tg) (num_app_threads_registered tg)
    (max_table_staleness tg) (tg_vector_clock tg).
Definition with_vector_clock (vc : VectorClock) (tg : TableGroup) : TableGroup :=
  mkTableGroup (tg_tables tg) (tg_threads tg) (num_app_threads_registered tg) (max_table_staleness tg) vc.

(** The constructor; nothing initialises [max_table_staleness_], which holds [indet]. *)
Definition get_init_thread_id : Z := i32 (get_local_id_min g + kInitThreadIDOffset).

Definition TableGroup_new (indet : Z) (table_access : bool) : TableGroup :=
  mkTableGroup ∅ {[get_init_thread_id := mkAppThread (RegisterThread get_init_thread_id) ∅]} 1 indet
    (if table_access then AddClock get_init_thread_id 0 VectorClock_default else VectorClock_default).

(** [ClientTable::RegisterThread] *)
Definition register_cache (table_id : Z) (caches : gmap Z (ThreadTable R V)) : gmap Z (ThreadTable R V) :=
  match caches !! table_id with Some _ => caches | None => <[table_id := ThreadTable_new g]> caches end.

Definition TableGroup_CreateTable (thread_id table_id : Z) (config : ClientTableConfig) (tg : TableGroup)
    : outcome (bool * TableGroup) :=
  t ← ClientTable_new config;
  let tg1 := mkTableGroup (<[table_id := t]> (tg_tables tg)) (tg_threads tg) (num_app_threads_registered tg)
               (Z.max (max_table_staleness tg) (table_staleness (tc_table_info config))) (tg_vector_clock tg) in
  if bool_decide (num_app_threads g = num_table_threads g) then
    a ← deref (tg_threads tg1 !! thread_id);
    Ret (true, with_thread thread_id (mkAppThread (at_info a) (register_cache table_id (at_caches a))) tg1)
  else Ret (true, tg1).

Definition GetTableOrDie (table_id : Z) (tg : TableGroup) : outcome (ClientTable R V) :=
  checked (tg_tables tg !! table_id).

(** Called by a new thread; returns its id.  The barrier follows. *)
Definition TableGroup_RegisterThread (tg : TableGroup) : Z * TableGroup * list tg_out :=
  let thread_id := i32 (i32 (get_local_id_min g + kInitThreadIDOffset) + num_app_threads_registered tg) in
  let caches := foldl (fun cs table_id => register_cache table_id cs) ∅ ((sorted_entries (tg_tables tg)).*1) in
  (thread_id,
   mkTableGroup (tg_tables tg)
     (<[thread_id := mkAppThread (RegisterThread thread_id) caches]> (tg_threads tg))
     (i32 (num_app_threads_registered tg + 1)) (max_table_staleness tg)
     (AddClock thread_id 0 (tg_vector_clock tg)),
   [OutAppConnect]).

Definition TableGroup_DeregisterThread (tg : TableGroup) : TableGroup * list tg_out := (tg, [OutAppThreadDereg]).

(** [ClientTable::Clock] of one table by the thread. *)
Definition clock_table (thread_id : Z) (tg : TableGroup) (table_id : Z) : outcome TableGroup :=
  t ← deref (tg_tables tg !! table_id);
  a ← deref (tg_threads tg !! thread_id);
  cache ← deref (at_caches a !! table_id);
  '(cache', t') ← SSP_Clock g cache t;
  Ret (with_thread thread_id (mkAppThread (at_info a) (<[table_id := cache']> (at_caches a)))
         (with_table table_id t' tg)).

(** The loops of [ClockAggressive] and [ClockConservative]: [tables_] is sorted. *)
Definition clock_tables (thread_id : Z) (tg : TableGroup) : outcome TableGroup :=
  foldM (clock_table thread_id) ((sorted_entries (tg_tables tg)).*1) tg.

Definition ClockAggressive (thread_id : Z) (tg : TableGroup) : outcome (TableGroup * list tg_out) :=
  tg1 ← clock_tables thread_id tg;
  let '(clock, vc) := Tick thread_id (tg_vector_clock tg1) in
  Ret (with_vector_clock vc tg1,
       if bool_decide (clock <> 0) then [OutClockAllTables] else [OutSendOpLogsAllTables]).

Definition ClockConservative (thread_id : Z) (tg : TableGroup) : outcome (TableGroup * list tg_out) :=
  tg1 ← clock_tables thread_id tg;
  let '(clock, vc) := Tick thread_id (tg_vector_clock tg1) in
  Ret (with_vector_clock vc tg1, if bool_decide (clock <> 0) then [OutClockAllTables] else []).

(** [ClockInternal] *)
Definition ClockInternal (thread_id : Z) (tg : TableGroup) : outcome (TableGroup * list tg_out) :=
  if aggressive_clock then ClockAggressive thread_id tg else ClockConservative thread_id tg.

Definition TableGroup_Clock (thread_id : Z) (tg : TableGroup) : outcome (TableGroup * list tg_out) :=
  a ← deref (tg_threads tg !! thread_id);
  ClockInternal thread_id (with_thread thread_id (mkAppThread (ThreadClock (at_info a)) (at_caches a)) tg).

Definition clock_again (thread_id : Z) (st : TableGroup * list tg_out) (_ : Z) : outcome (TableGroup * list tg_out) :=
  '(tg', outs) ← TableGroup_Clock thread_id st.1; Ret (tg', st.2 ++ outs).

(** The overflow of the bound of the loop is undefined. *)
Definition GlobalBarrier (thread_id : Z) (tg : TableGroup) : outcome (TableGroup * list tg_out) :=
  if decide (in_i32 (max_table_staleness tg + 1)) then foldM (clock_again thread_id) (seqZ 0 (max_table_staleness tg + 1)) (tg, []) else Undef.

(** A thread works on a table through its cache and the shared state. *)
Definition on_table (thread_id table_id : Z)
    (f : ThreadTable R V -> ClientTable R V -> outcome (ThreadTable R V * ClientTable R V)) (tg : TableGroup)
    : outcome TableGroup :=
  t ← GetTableOrDie table_id tg;
  a ← deref (tg_threads tg !! thread_id);
  cache ← deref (at_caches a !! table_id);
  '(cache', t') ← f cache t;
  Ret (with_thread thread_id (mkAppThread (at_info a) (<[table_id := cache']> (at_caches a)))
         (with_table table_id t' tg)).
End TABLE_GROUP.
Arguments AppThread : clear implicits.
Arguments TableGroup : clear implicits.
