(* ===== verification/TableGroupProps.v ===== *)
(** * The clock of a process

    Along every interleaving of updates and clocks of the application
    threads: a thread's cache holds what the thread did since its last clock,
    every row with pending updates is in an index, and the background threads
    are told of a clock once all threads have ended it. *)
From S2P Require Import Prelude Bytes Num VectorClock Context SparseRow DenseRow AdditiveRow OpLog OpLogWire ServerRow Snapshot ClockLRU ProcessStorage OpLogMgr BgWorkers ThreadTable Consistency ThreadProps ThreadEquiv TableGroup.
Open Scope Z_scope.

Section READY.
Context {R V : Type} `{NumOk V} `{!AbstractRow R V} `{!AbstractRowOk R V} `{!AdditiveRow R V}.
Context `{!HashOrder, !HashOrderOk}.
Context (g : GlobalContext) (Hg : context_ok g).
(** The columns that are updated; every row that is cached has them. *)
Context (cols : Z -> Prop).

Definition has_cols (r : R) : Prop := row_ok r /\ forall c, cols c -> ar_col r c.
Definition batch_cols (b : batch V) : Prop := batch_ok b /\ Forall (fun cu => cols cu.1) b.2.

Record table_ready (t : ClientTable R V) : Prop := {
  tr_oplog : Z.of_nat (length (ct_oplog t)) = num_bg_threads g;
  tr_index : Z.of_nat (length (ct_oplog_index t)) = num_bg_threads g;
  tr_storage : storage_ok (ct_storage t);
  tr_rows : forall id row slot, storage_map (ct_storage t) !! id = Some (row, slot) -> has_cols (cr_data row)
}.

(** The cache of a thread that holds the batches [l]. *)
Record cache_ready (l : list (batch V)) (c : ThreadTable R V) : Prop := {
  cy_index : Z.of_nat (length (tt_index c)) = num_bg_threads g;
  cy_holds : holds l c;
  cy_batches : Forall batch_cols l;
  cy_rows : forall row_id r, tt_rows c !! row_id = Some r -> has_cols r
}.

Definition in_index (idx : list (gset Z)) (row_id : Z) : Prop :=
  exists s, idx !! Z.to_nat (row_id mod num_bg_threads g) = Some s /\ row_id ∈ s.
Definition pending (t : ClientTable R V) (row_id : Z) : Prop :=
  is_Some (table_row_oplog g (ct_oplog t) row_id).

Lemma updates_cols l row_id : Forall batch_cols l -> Forall (fun cu : Z * V => cols cu.1) (updates_for l row_id).
Proof.
  unfold updates_for. induction l as [|b l IH]; [done|]. intros [[_ Hb] Hl]%Forall_cons.
  rewrite row_updates_cons. apply Forall_app. split; [|by apply IH]. cbn. case_bool_decide; cbn; [|done].
  by rewrite app_nil_r.
Qed.

Lemma ready_accepts l t : table_ready t -> Forall batch_cols l -> accepts (updates_for l) (ct_storage t).
Proof.
  intros Ht Hl id row slot E. eapply Forall_impl; [by apply updates_cols|]. intros cu. by apply (tr_rows _ Ht _ _ _ E).
Qed.

Lemma ready_batches l : Forall batch_cols l -> Forall batch_ok l.
Proof. intros Hl. eapply Forall_impl; [exact Hl|]. by intros b []. Qed.

Lemma ready_after ups (t : ClientTable R V) (ps' : ProcessStorage R) : table_ready t ->
  storage_after ups (ct_storage t) ps' ->
  forall id row slot, storage_map ps' !! id = Some (row, slot) -> has_cols (cr_data row).
Proof.
  intros Ht [_ _ Hr] id row slot E. specialize (Hr id). rewrite E in Hr. inversion Hr as [[row0 s0] ? [[Ho Hc _] _ _ _] E0|].
  subst. split; [done|]. intros c Hcc. apply Hc. by apply (tr_rows _ Ht id row0 s0).
Qed.

Lemma in_index_after rows idx idx' row_id : index_after g rows idx idx' ->
  Z.of_nat (length idx) = num_bg_threads g -> in_index idx' row_id <-> in_index idx row_id \/ row_id ∈ rows.
Proof.
  intros Ha Hl. unfold in_index. rewrite Ha.
  pose proof (Z.mod_pos_bound row_id (num_bg_threads g) (ctx_bg g Hg)) as Hb.
  destruct (lookup_lt_is_Some_2 idx (Z.to_nat (row_id mod num_bg_threads g))) as [s Hs]; [lia|].
  rewrite Hs. cbn. assert (Hu : row_id ∈ (list_to_set (rows_of g (Z.to_nat (row_id mod num_bg_threads g)) rows) ∪ s : gset Z)
    <-> row_id ∈ s \/ row_id ∈ rows).
  { rewrite elem_of_union, elem_of_list_to_set. unfold rows_of. rewrite list_elem_of_filter. tauto. }
  split.
  - intros (s' & [= <-] & Hin). apply Hu in Hin as [?|?]; [left; by exists s|by right].
  - intros Hin. eexists. split; [done|]. apply Hu. destruct Hin as [(s' & [= <-] & ?)|?]; tauto.
Qed.

(** ** The operations of a thread *)

Lemma thread_call_ready l c call : cache_ready l c -> batch_cols (call_batch call) ->
  exists c', thread_call c call = Ret c' /\ cache_ready (l ++ [call_batch call]) c' /\ tt_index c' = tt_index c.
Proof.
  intros [Hi Hh Hl Hr] Hb.
  destruct (thread_call_spec c call) as (c' & E & A).
  { intros row_id r Er. split; [by apply (Hr _ _ Er)|]. eapply Forall_impl; [apply updates_cols; by constructor|].
    intros cu. by apply (Hr _ _ Er). }
  exists c'. split; [done|]. pose proof A as [Ei _ Erows]. split; [|done]. constructor.
  - by rewrite Ei.
  - by eapply thread_after_holds.
  - apply Forall_app. by split; [|constructor].
  - intros row_id r' E'. specialize (Erows row_id). rewrite E' in Erows.
    inversion Erows as [r ? [Ho Hc _] Er|]. subst. split; [done|]. intros col Hcol. apply Hc. by apply (Hr row_id r).
Qed.

Lemma direct_call_ready l c t call : cache_ready l c -> table_ready t -> batch_cols (call_batch call) ->
  exists c' t', direct_call g (c, t) call = Ret (c', t') /\ cache_ready l c' /\ table_ready t' /\
    ct_oplog_index t' = ct_oplog_index t /\
    (forall row_id, in_index (tt_index c') row_id <-> in_index (tt_index c) row_id \/ row_id ∈ [(call_batch call).1]) /\
    (forall row_id, 0 <= row_id -> pending t' row_id -> pending t row_id \/ row_id ∈ [(call_batch call).1]).
Proof.
  intros [Hi Hh Hl Hr] Ht Hb.
  destruct (direct_call_spec g Hg (c, t) call) as ([c' t'] & E & A & U).
  { constructor; [done|apply Ht|apply Ht]. }
  { apply Hb. }
  { apply (ready_accepts [call_batch call] t); [done|by constructor]. }
  injection U as U1 U2 _ U4. destruct A as [Ai Al Ao As]. cbn [shared_of fst snd] in *.
  exists c', t'. split; [done|]. split_and!.
  - constructor; [by rewrite (index_after_length _ _ _ _ Ai)|intros row_id; by rewrite U2|done|by rewrite U1].
  - constructor; [by rewrite Al, (tr_oplog _ Ht)|by rewrite U4; apply Ht|by apply As|by eapply ready_after].
  - done.
  - intros row_id. by apply in_index_after.
  - intros row_id Hr0. unfold pending. rewrite Ao by done. cbn [row_updates fst snd default]. case_bool_decide; [|by left].
    intros _. right. subst. by left.
Qed.

(** ** The end of a clock *)

Lemma AddIndex_union (s i : gset Z) : PartitionOpLogIndex_AddIndex (elements s) i = s ∪ i.
Proof.
  unfold PartitionOpLogIndex_AddIndex. apply set_eq. intros x. rewrite elem_of_union, <- (elem_of_elements s x).
  generalize (elements s) as l. intros l. revert i. induction l as [|y l IH]; intros i; cbn.
  - split; [by right|intros [Hx|?]; [by apply elem_of_nil in Hx|done]].
  - rewrite IH, elem_of_cons, elem_of_union, elem_of_singleton. tauto.
Qed.

Lemma flush_index_step_spec k (idx toi : list (gset Z)) s i : idx !! k = Some s -> toi !! k = Some i ->
  flush_index_step (idx, toi) (Z.of_nat k) = Ret (<[k := ∅]> idx, <[k := s ∪ i]> toi).
Proof.
  intros Hs Hi. apply lookup_lt_Some in Hs as Hsl. apply lookup_lt_Some in Hi as Hil.
  unfold flush_index_step. cbn [fst snd].
  rewrite (proj2 (vec_at_Ret idx _ s)) by (split; [lia|by rewrite Nat2Z.id]). cbn [mbind outcome_bind].
  unfold TableOpLogIndex_AddIndex. rewrite (proj2 (vec_at_Ret toi _ i)) by (split; [lia|by rewrite Nat2Z.id]).
  cbn [mbind outcome_bind]. unfold vec_set.
  rewrite (bool_decide_true (_ <= _ < Z.of_nat (length idx))) by lia.
  rewrite AddIndex_union, !Nat2Z.id. rewrite bool_decide_true; [done|].
  split; [lia|exact (inj_lt _ _ Hil)].
Qed.

(** The loop from partition [k] on. *)
Lemma flush_index_loop n k (idx toi : list (gset Z)) : length idx = (k + n)%nat -> length toi = (k + n)%nat ->
  foldM flush_index_step (seqZ (Z.of_nat k) (Z.of_nat n)) (idx, toi)
  = Ret (take k idx ++ replicate n ∅, take k toi ++ zip_with (∪) (drop k idx) (drop k toi)).
Proof.
  revert k idx toi. induction n as [|n IH]; intros k idx toi Hi Ht.
  { cbn. rewrite !take_ge, !drop_ge by lia. cbn. by rewrite !app_nil_r. }
  rewrite seqZ_cons by lia. cbn [foldM].
  destruct (lookup_lt_is_Some_2 idx k) as [s Hs]; [lia|]. destruct (lookup_lt_is_Some_2 toi k) as [i Hti]; [lia|].
  rewrite (flush_index_step_spec k idx toi s i Hs Hti). cbn [mbind outcome_bind].
  replace (Z.succ (Z.of_nat k)) with (Z.of_nat (S k)) by lia. replace (Z.pred (Z.of_nat (S n))) with (Z.of_nat n) by lia.
  rewrite IH by (rewrite length_insert; lia). rewrite (drop_S idx s k Hs), (drop_S toi i k Hti).
  rewrite (take_S_r (<[k := ∅]> idx) k ∅), (take_S_r (<[k := s ∪ i]> toi) k (s ∪ i)) by (apply list_lookup_insert_eq; lia).
  rewrite !take_insert_ge by lia. rewrite !drop_insert_lt by lia. cbn [replicate zip_with]. by rewrite <- !app_assoc.
Qed.

Lemma FlushOpLogIndex_spec (toi : list (gset Z)) (c : ThreadTable R V) :
  Z.of_nat (length (tt_index c)) = num_bg_threads g -> Z.of_nat (length toi) = num_bg_threads g ->
  FlushOpLogIndex g toi c = Ret (mkThreadTable (replicate (Z.to_nat (num_bg_threads g)) ∅) (tt_rows c) (tt_oplogs c),
    zip_with (∪) (tt_index c) toi).
Proof.
  intros Hi Ht. unfold FlushOpLogIndex. pose proof (ctx_bg g Hg).
  replace (num_bg_threads g) with (Z.of_nat (length (tt_index c))) by done.
  rewrite (flush_index_loop (length (tt_index c)) 0) by lia. cbn. by rewrite Nat2Z.id.
Qed.

Lemma in_index_union idx toi row_id : Z.of_nat (length idx) = num_bg_threads g ->
  Z.of_nat (length toi) = num_bg_threads g ->
  in_index (zip_with (∪) idx toi) row_id <-> in_index idx row_id \/ in_index toi row_id.
Proof.
  intros Hi Ht. unfold in_index. pose proof (Z.mod_pos_bound row_id (num_bg_threads g) (ctx_bg g Hg)) as Hb.
  destruct (lookup_lt_is_Some_2 idx (Z.to_nat (row_id mod num_bg_threads g))) as [s Hs]; [lia|].
  destruct (lookup_lt_is_Some_2 toi (Z.to_nat (row_id mod num_bg_threads g))) as [i Hti]; [lia|].
  rewrite lookup_zip_with, Hs, Hti. cbn. split.
  - intros (s' & [= <-] & [?|?]%elem_of_union); [left|right]; by eexists.
  - intros [(s' & [= <-] & ?)|(s' & [= <-] & ?)]; eexists; (split; [done|]); apply elem_of_union; tauto.
Qed.

Lemma SSP_Clock_ready l c t : cache_ready l c -> table_ready t ->
  exists c' t', SSP_Clock g c t = Ret (c', t') /\ cache_ready [] c' /\ table_ready t' /\
    tt_rows c' = ∅ /\ tt_index c' = replicate (Z.to_nat (num_bg_threads g)) ∅ /\
    (forall row_id, in_index (ct_oplog_index t') row_id
       <-> in_index (ct_oplog_index t) row_id \/ in_index (tt_index c) row_id \/ row_id ∈ l.*1) /\
    (forall row_id, 0 <= row_id -> pending t' row_id -> pending t row_id \/ row_id ∈ l.*1).
Proof.
  intros [Hi Hh Hl Hr] Ht.
  destruct (FlushCache_spec g Hg l c t Hh) as (s & E & A).
  { by apply ready_batches. }
  { constructor; [done|apply Ht|apply Ht]. }
  { by apply ready_accepts. }
  destruct A as [Ai Al Ao As]. cbn [shared_of fst snd] in *.
  assert (Hli : Z.of_nat (length s.1.1) = num_bg_threads g) by (by rewrite (index_after_length _ _ _ _ Ai)).
  assert (Hrows : forall row_id, row_id ∈ (flushed_batches (tt_oplogs c)).*1 <-> row_id ∈ l.*1).
  { intros row_id. rewrite flushed_row, Hh, <- row_updates_some. destruct (row_updates l row_id); cbn; split;
      try done; by intros []. }
  unfold SSP_Clock, SSP_FlushThreadCache. rewrite E. cbn [mbind outcome_bind ct_oplog_index with_cached with_oplog].
  rewrite FlushOpLogIndex_spec by (done || apply Ht). cbn [mbind outcome_bind tt_rows tt_oplogs tt_index].
  eexists _, _. split; [done|]. split_and!.
  - constructor; [cbn; rewrite length_replicate; pose proof (ctx_bg g Hg); lia|done|constructor|].
    intros row_id r Er. cbn in Er. by rewrite lookup_empty in Er.
  - constructor; cbn.
    + by rewrite Al, (tr_oplog _ Ht).
    + rewrite length_zip_with. pose proof (tr_index _ Ht : Z.of_nat (length (ct_oplog_index t : list (gset Z))) = _). lia.
    + apply As.
    + by eapply ready_after.
  - done.
  - done.
  - intros row_id. cbn. rewrite in_index_union by (done || apply Ht). rewrite (in_index_after _ _ _ _ Ai) by done.
    rewrite Hrows. tauto.
  - intros row_id Hr0. unfold pending. cbn. rewrite Ao by done. rewrite <- Hrows, <- row_updates_some.
    destruct (row_updates (flushed_batches (tt_oplogs c)) row_id); [by right; eexists|by left].
Qed.
End READY.

(** ** The table group *)

(** A step of the application threads. *)
Inductive tg_event (V : Type) :=
  | EvThreadCall (thread_id table_id : Z) (call : update_call V)
  | EvDirectCall (thread_id table_id : Z) (call : update_call V)
  | EvClock (thread_id : Z).
Arguments EvThreadCall {V}.
Arguments EvDirectCall {V}.
Arguments EvClock {V}.

Definition ev_thread {V} (ev : tg_event V) : Z :=
  match ev with EvThreadCall th _ _ | EvDirectCall th _ _ | EvClock th => th end.

Definition ev_clock {V} (ev : tg_event V) : option Z := match ev with EvClock th => Some th | _ => None end.

Section GROUP.
Context {R V : Type} `{NumOk V} `{!AbstractRow R V} `{!AbstractRowOk R V} `{!AdditiveRow R V}.
Context `{!HashOrder, !HashOrderOk}.
Context (g : GlobalContext) (Hg : context_ok g) (aggressive_clock : bool) (cols : Z -> Prop).

Definition tg_step (ev : tg_event V) (tg : TableGroup R V) : outcome (TableGroup R V * list tg_out) :=
  match ev with
  | EvThreadCall th id call =>
      tg' ← on_table th id (fun c t => c' ← thread_call c call; Ret (c', t)) tg; Ret (tg', [])
  | EvDirectCall th id call => tg' ← on_table th id (fun c t => direct_call g (c, t) call) tg; Ret (tg', [])
  | EvClock th => TableGroup_Clock g aggressive_clock th tg
  end.

Fixpoint tg_run (evs : list (tg_event V)) (tg : TableGroup R V) : outcome (TableGroup R V * list tg_out) :=
  match evs with
  | [] => Ret (tg, [])
  | ev :: evs' =>
      '(tg1, outs) ← tg_step ev tg;
      '(tg2, outs') ← tg_run evs' tg1; Ret (tg2, outs ++ outs')
  end.

(** The batches each thread has made on each table through its cache since its
    last clock. *)
Definition unflushed : Type := Z -> Z -> list (batch V).
Definition unflushed_step (u : unflushed) (ev : tg_event V) : unflushed :=
  match ev with
  | EvThreadCall th id call =>
      fun th' id' => if bool_decide (th' = th /\ id' = id) then u th' id' ++ [call_batch call] else u th' id'
  | EvDirectCall _ _ _ => u
  | EvClock th => fun th' id' => if bool_decide (th' = th) then [] else u th' id'
  end.
Definition unflushed_after (evs : list (tg_event V)) (u : unflushed) : unflushed := foldl unflushed_step u evs.

(** Tables and caches; a row with pending updates is in the index of its table or
    in that of a thread. *)
Record group_ready (u : unflushed) (tg : TableGroup R V) : Prop := {
  gr_table : forall id t, tg_tables tg !! id = Some t -> table_ready g cols t;
  gr_cache : forall th a id t, tg_threads tg !! th = Some a -> tg_tables tg !! id = Some t ->
    exists c, at_caches a !! id = Some c /\ cache_ready g cols (u th id) c;
  gr_index : forall id t row_id, tg_tables tg !! id = Some t -> 0 <= row_id -> pending g t row_id ->
    in_index g (ct_oplog_index t) row_id \/
    exists th a c, tg_threads tg !! th = Some a /\ at_caches a !! id = Some c /\ in_index g (tt_index c) row_id
}.

Record clocks_ok (tg : TableGroup R V) : Prop := {
  ck_min : vc_ok (tg_vector_clock tg);
  ck_pos : 0 <= min_clock (tg_vector_clock tg);
  ck_thread : forall th a, tg_threads tg !! th = Some a ->
    vec_clock (tg_vector_clock tg) !! th = Some (thr_clock (at_info a))
}.

(** Threads and tables stay, and so do the clocks unless a thread ends one. *)
Record same_group (tg tg' : TableGroup R V) : Prop := {
  sg_clock : tg_vector_clock tg' = tg_vector_clock tg;
  sg_tables : forall id, is_Some (tg_tables tg' !! id) <-> is_Some (tg_tables tg !! id);
  sg_threads : forall th, (at_info <$> tg_threads tg' !! th) = (at_info <$> tg_threads tg !! th)
}.

#[export] Instance same_group_preorder : PreOrder same_group.
Proof.
  split; [by intros tg; constructor|]. intros x y z [] []. constructor; [congruence| |].
  - intros id. by rewrite sg_tables1.
  - intros th. by rewrite sg_threads1.
Qed.

Lemma clocks_ok_same tg tg' : same_group tg tg' -> clocks_ok tg -> clocks_ok tg'.
Proof.
  intros [Hc _ Ht] [H1' H2' H3']. constructor; rewrite ?Hc; [done..|]. intros th a E. specialize (Ht th). rewrite E in Ht.
  destruct (tg_threads tg !! th) as [a0|] eqn:E0; [|done]. injection Ht as Ht. rewrite Ht. by apply H3'.
Qed.

(** What one operation on a table must do. *)
Record table_op_ok (l l' : list (batch V)) (c c' : ThreadTable R V) (t t' : ClientTable R V) : Prop := {
  top_table : table_ready g cols t';
  top_cache : cache_ready g cols l' c';
  top_pending : forall row_id, 0 <= row_id -> pending g t' row_id ->
    pending g t row_id \/ in_index g (ct_oplog_index t') row_id \/ in_index g (tt_index c') row_id;
  top_index : forall row_id, in_index g (ct_oplog_index t) row_id -> in_index g (ct_oplog_index t') row_id;
  top_cache_index : forall row_id, in_index g (tt_index c) row_id ->
    in_index g (tt_index c') row_id \/ in_index g (ct_oplog_index t') row_id
}.

Lemma on_table_ready u th id a t l' f (tg : TableGroup R V) : group_ready u tg ->
  tg_threads tg !! th = Some a -> tg_tables tg !! id = Some t ->
  (forall c, cache_ready g cols (u th id) c -> table_ready g cols t ->
     exists c' t', f c t = Ret (c', t') /\ table_op_ok (u th id) l' c c' t t') ->
  exists tg', on_table th id f tg = Ret tg' /\
    group_ready (fun th' id' => if bool_decide (th' = th /\ id' = id) then l' else u th' id') tg' /\ same_group tg tg'.
Proof.
  intros [Ht Hc Hi] Ea Et Hf. destruct (Hc _ _ _ _ Ea Et) as (c & Ec & Hcr).
  destruct (Hf c Hcr (Ht _ _ Et)) as (c' & t' & Ef & [Ht' Hc' Hp Hti Hci]).
  unfold on_table, GetTableOrDie. rewrite Et, Ea. cbn [checked deref mbind outcome_bind]. rewrite Ec.
  cbn [deref mbind outcome_bind]. rewrite Ef. cbn [mbind outcome_bind]. eexists. split; [done|]. split; constructor; cbn.
  - intros id' t0 [[<- <-]|[_ E]]%lookup_insert_Some; [done|by eapply Ht].
  - intros th' a0 id' t0 Ea0 Et0. assert (Hdom : exists t1, tg_tables tg !! id' = Some t1).
    { apply lookup_insert_Some in Et0 as [[<- _]|[_ ?]]; by eexists. }
    destruct Hdom as [t1 Et1]. apply lookup_insert_Some in Ea0 as [[<- <-]|[Hne Ea0]]; cbn [at_caches].
    + destruct (decide (id' = id)) as [->|Hid].
      * exists c'. rewrite lookup_insert_eq, bool_decide_true by done. done.
      * rewrite lookup_insert_ne, bool_decide_false by (done || by intros [_ ?]). by eapply Hc.
    + rewrite bool_decide_false by (intros [? _]; congruence). by eapply Hc.
  - intros id' t0 row_id [[<- <-]|[Hne E]]%lookup_insert_Some Hr Hpend.
    + assert (Hthis : in_index g (tt_index c') row_id -> exists th0 a0 c0,
        <[th := mkAppThread (at_info a) (<[id := c']> (at_caches a))]> (tg_threads tg) !! th0 = Some a0 /\
        at_caches a0 !! id = Some c0 /\ in_index g (tt_index c0) row_id).
      { intros Hin. exists th. eexists _, c'. rewrite lookup_insert_eq. split; [done|]. cbn. by rewrite lookup_insert_eq. }
      destruct (Hp row_id Hr Hpend) as [Hold|[?|?]]; [|by left|right; auto].
      destruct (Hi _ _ _ Et Hr Hold) as [?|(th0 & a0 & c0 & E1 & E2 & E3)]; [left; auto|].
      destruct (decide (th0 = th)) as [->|Hth].
      * rewrite Ea in E1. injection E1 as <-. rewrite Ec in E2. injection E2 as <-.
        destruct (Hci _ E3); [right; auto|by left].
      * right. exists th0, a0, c0. by rewrite lookup_insert_ne.
    + destruct (Hi _ _ _ E Hr Hpend) as [?|(th0 & a0 & c0 & E1 & E2 & E3)]; [by left|right].
      destruct (decide (th0 = th)) as [->|Hth].
      * rewrite Ea in E1. injection E1 as <-. exists th. eexists _, c0. rewrite lookup_insert_eq. split; [done|].
        cbn. by rewrite lookup_insert_ne.
      * exists th0, a0, c0. by rewrite lookup_insert_ne.
  - done.
  - intros id'. destruct (decide (id' = id)) as [->|]; [rewrite lookup_insert_eq, Et|by rewrite lookup_insert_ne].
    split; by eexists.
  - intros th'. destruct (decide (th' = th)) as [->|]; [by rewrite lookup_insert_eq, Ea|by rewrite lookup_insert_ne].
Qed.

Lemma group_ready_ext u u' tg : (forall th id, u th id = u' th id) -> group_ready u tg -> group_ready u' tg.
Proof.
  intros He [Ht Hc Hi]. constructor; [done| |done]. intros th a id t Ea Et.
  destruct (Hc _ _ _ _ Ea Et) as (c & Ec & Hcr). exists c. by rewrite <- He.
Qed.

(** ** The steps *)

Lemma thread_call_op l c t call : cache_ready g cols l c -> table_ready g cols t -> batch_cols cols (call_batch call) ->
  exists c' t', (c' ← thread_call c call; Ret (c', t)) = Ret (c', t') /\
    table_op_ok l (l ++ [call_batch call]) c c' t t'.
Proof.
  intros Hc Ht Hb. destruct (thread_call_ready g cols l c call Hc Hb) as (c' & E & Hc' & Ei).
  rewrite E. exists c', t. split; [done|]. constructor; [done|done|by left|done|]. rewrite Ei. by left.
Qed.

Lemma direct_call_op l c t call : cache_ready g cols l c -> table_ready g cols t -> batch_cols cols (call_batch call) ->
  exists c' t', direct_call g (c, t) call = Ret (c', t') /\ table_op_ok l l c c' t t'.
Proof.
  intros Hc Ht Hb. destruct (direct_call_ready g Hg cols l c t call Hc Ht Hb) as (c' & t' & E & Hc' & Ht' & Ei & Hin & Hp).
  exists c', t'. split; [done|]. constructor; [done|done| |by rewrite Ei|intros row_id Hi; left; apply Hin; by left].
  intros row_id Hr Hpend. destruct (Hp row_id Hr Hpend); [by left|]. right; right. apply Hin. by right.
Qed.

Lemma clock_op l c t : cache_ready g cols l c -> table_ready g cols t ->
  exists c' t', SSP_Clock g c t = Ret (c', t') /\ table_op_ok l [] c c' t t'.
Proof.
  intros Hc Ht. destruct (SSP_Clock_ready g Hg cols l c t Hc Ht) as (c' & t' & E & Hc' & Ht' & _ & _ & Hin & Hp).
  exists c', t'. split; [done|]. constructor; [done|done| | |].
  - intros row_id Hr Hpend. destruct (Hp row_id Hr Hpend); [by left|]. right; left. apply Hin. tauto.
  - intros row_id Hi. apply Hin. tauto.
  - intros row_id Hi. right. apply Hin. tauto.
Qed.

Lemma clock_tables_ready th ids u (tg : TableGroup R V) a : group_ready u tg -> tg_threads tg !! th = Some a ->
  (forall id, id ∈ ids -> is_Some (tg_tables tg !! id)) ->
  exists tg', foldM (clock_table g th) ids tg = Ret tg' /\
    group_ready (fun th' id' => if bool_decide (th' = th /\ id' ∈ ids) then [] else u th' id') tg' /\ same_group tg tg'.
Proof.
  revert u tg a. induction ids as [|id ids IH]; intros u tg a Hok Ea Hids.
  - exists tg. split; [done|]. split; [|done]. eapply group_ready_ext; [|exact Hok]. intros th' id'.
    rewrite bool_decide_false; [done|]. by intros [_ Hin%elem_of_nil].
  - destruct (Hids id) as [t Et]; [by left|].
    destruct (on_table_ready u th id a t [] (SSP_Clock g) tg Hok Ea Et (fun c Hc Ht => clock_op _ c t Hc Ht))
      as (tg1 & E1 & Hok1 & Hs1).
    assert (Ec : clock_table g th tg id = Ret tg1).
    { rewrite <- E1. unfold clock_table, on_table, GetTableOrDie. by rewrite Et. }
    pose proof (sg_threads _ _ Hs1 th) as Ha1. rewrite Ea in Ha1.
    destruct (tg_threads tg1 !! th) as [a1|] eqn:Ea1; [|done].
    destruct (IH _ tg1 a1 Hok1 Ea1) as (tg2 & E2 & Hok2 & Hs2).
    { intros id' Hin. apply (sg_tables _ _ Hs1). apply Hids. by right. }
    exists tg2. cbn [foldM]. rewrite Ec. cbn [mbind outcome_bind]. split; [done|]. split; [|by etrans].
    eapply group_ready_ext; [|exact Hok2]. intros th' id'. cbn beta.
    destruct (decide (th' = th)) as [->|Hth]; [|by rewrite !bool_decide_false by (intros [? _]; congruence)].
    rewrite (bool_decide_ext (th = th /\ id' ∈ id :: ids) (id' = id \/ id' ∈ ids)) by (rewrite elem_of_cons; tauto).
    repeat case_bool_decide; done || tauto.
Qed.

Lemma clock_all_tables th u (tg : TableGroup R V) a : group_ready u tg -> tg_threads tg !! th = Some a ->
  exists tg', clock_tables g th tg = Ret tg' /\
    group_ready (fun th' id' => if bool_decide (th' = th) then [] else u th' id') tg' /\ same_group tg tg'.
Proof.
  intros Hok Ea. assert (Hids : forall id, id ∈ (sorted_entries (tg_tables tg)).*1 <-> is_Some (tg_tables tg !! id)).
  { intros id. rewrite list_elem_of_fmap. split.
    - intros ([id' t] & -> & Hin%sorted_entries_lookup). by eexists.
    - intros [t Et]. exists (id, t). split; [done|]. by apply sorted_entries_lookup. }
  destruct (clock_tables_ready th (sorted_entries (tg_tables tg)).*1 u tg a Hok Ea) as (tg' & E & Hok' & Hs).
  { intros id. apply Hids. }
  exists tg'. split; [done|]. split; [|done]. destruct Hok' as [Ht Hc Hi]. constructor; [done| |done].
  intros th' a' id t Ea' Et. destruct (Hc _ _ _ _ Ea' Et) as (c & Ec & Hcr). exists c. split; [done|].
  rewrite (bool_decide_ext _ (th' = th)) in Hcr; [done|]. rewrite Hids, <- (sg_tables _ _ Hs), Et. split; [by intros []|].
  intros ->. split; [done|by eexists].
Qed.

(** The messages that announce the end of a clock. *)
Definition announced (outs : list tg_out) : Z := Z.of_nat (length (filter (fun o => o = OutClockAllTables) outs)).

Lemma announced_app outs1 outs2 : announced (outs1 ++ outs2) = announced outs1 + announced outs2.
Proof. unfold announced. rewrite filter_app, length_app. lia. Qed.

(** The clock of a thread, and how often it is ticked. *)
Definition clock_of (tg : TableGroup R V) (th : Z) : option Z := thr_clock ∘ at_info <$> tg_threads tg !! th.
Definition clocks_in (th : Z) (evs : list (tg_event V)) : Z :=
  Z.of_nat (length (filter (fun ev => ev_clock ev = Some th) evs)).

Lemma ClockInternal_spec th (tg tg1 : TableGroup R V) : clock_tables g th tg = Ret tg1 ->
  exists outs, ClockInternal g aggressive_clock th tg = Ret (with_vector_clock (Tick th (tg_vector_clock tg1)).2 tg1, outs) /\
    announced outs = (if bool_decide ((Tick th (tg_vector_clock tg1)).1 <> 0) then 1 else 0).
Proof.
  intros E. unfold ClockInternal, ClockAggressive, ClockConservative. rewrite E. cbn [mbind outcome_bind].
  destruct (Tick th (tg_vector_clock tg1)) as [clock vc]. cbn [fst snd].
  destruct aggressive_clock; (eexists; split; [done|]); by case_bool_decide.
Qed.

Lemma with_clock_ready u th a (tg : TableGroup R V) : group_ready u tg -> tg_threads tg !! th = Some a ->
  group_ready u (with_thread th (mkAppThread (ThreadClock (at_info a)) (at_caches a)) tg).
Proof.
  intros [Ht Hc Hi] Ea. constructor; cbn; [done| |].
  - intros th' a0 id t [[<- <-]|[_ Ea0]]%lookup_insert_Some Et; cbn [at_caches]; by eapply Hc.
  - intros id t row_id Et Hr Hp. destruct (Hi _ _ _ Et Hr Hp) as [?|(th0 & a0 & c0 & E1 & E2 & E3)]; [by left|right].
    destruct (decide (th0 = th)) as [->|Hne].
    + rewrite Ea in E1. injection E1 as <-. exists th. eexists _, c0. rewrite lookup_insert_eq. split; [done|]. by split.
    + exists th0, a0, c0. by rewrite lookup_insert_ne.
Qed.

Lemma clock_step u th a (tg : TableGroup R V) : group_ready u tg -> clocks_ok tg ->
  tg_threads tg !! th = Some a -> thr_clock (at_info a) + 1 < 2 ^ 31 ->
  exists tg' outs, TableGroup_Clock g aggressive_clock th tg = Ret (tg', outs) /\
    group_ready (unflushed_step u (EvClock th)) tg' /\ clocks_ok tg' /\
    announced outs = min_clock (tg_vector_clock tg') - min_clock (tg_vector_clock tg) /\
    (forall id, is_Some (tg_tables tg' !! id) <-> is_Some (tg_tables tg !! id)) /\
    (forall th', clock_of tg' th' = (fun c => if bool_decide (th' = th) then c + 1 else c) <$> clock_of tg th').
Proof.
  intros Hok [Hmin Hpos Hthr] Ea Hb. pose proof (Hthr _ _ Ea) as Hv. pose proof (proj2 Hmin _ _ Hv) as Hge.
  set (tg0 := with_thread th (mkAppThread (ThreadClock (at_info a)) (at_caches a)) tg).
  destruct (clock_all_tables th u tg0 _ (with_clock_ready u th a tg Hok Ea) (lookup_insert_eq _ _ _)) as (tg1 & E1 & Hok1 & Hs1).
  pose proof (sg_clock _ _ Hs1) as Evc. cbn in Evc.
  assert (Hinfo : forall th', at_info <$> tg_threads tg1 !! th'
    = if bool_decide (th' = th) then Some (ThreadClock (at_info a)) else at_info <$> tg_threads tg !! th').
  { intros th'. rewrite (sg_threads _ _ Hs1). unfold tg0. cbn [tg_threads with_thread].
    case_bool_decide as Hth; [by rewrite Hth, lookup_insert_eq|by rewrite lookup_insert_ne]. }
  destruct (ClockInternal_spec th tg0 tg1 E1) as (outs & E2 & Eo).
  set (c := thr_clock (at_info a)) in *.
  assert (Htick : exists mn, (Tick th (tg_vector_clock tg1)).2 = mkVectorClock (<[th := c + 1]> (vec_clock (tg_vector_clock tg))) mn /\
    vc_ok (mkVectorClock (<[th := c + 1]> (vec_clock (tg_vector_clock tg))) mn) /\ 0 <= mn /\
    (if bool_decide ((Tick th (tg_vector_clock tg1)).1 <> 0) then 1 else 0) = mn - min_clock (tg_vector_clock tg)).
  { rewrite Evc. destruct (Tick_cases th (tg_vector_clock tg) c Hmin Hv) as [(_ & Hc & -> & Hm)|[-> Hm]]; [int_lia|int_lia|..];
      cbn [fst snd]; eexists; (split; [done|]); (split; [exact Hm|]); (split; [lia|]).
    - rewrite bool_decide_true by lia. lia.
    - rewrite bool_decide_false by lia. lia. }
  destruct Htick as (mn & Et & Hm & Hmn & Ecnt). rewrite Et in E2. rewrite Ecnt in Eo. clear Ecnt.
  eexists _, outs. split; [unfold TableGroup_Clock; rewrite Ea; exact E2|]. split_and!; cbn [tg_vector_clock with_vector_clock min_clock].
  - destruct Hok1. by constructor.
  - constructor; cbn; [done|done|]. intros th' a' Ea'. specialize (Hinfo th'). cbn in Hinfo. rewrite Ea' in Hinfo. cbn in Hinfo.
    case_bool_decide as Hth.
    + subst th'. injection Hinfo as ->. rewrite lookup_insert_eq. cbn. fold c. rewrite i32_id; [done|]. int_lia.
    + rewrite lookup_insert_ne by done. destruct (tg_threads tg !! th') as [a0|] eqn:Ea0; [|done]. injection Hinfo as ->. by apply Hthr.
  - exact Eo.
  - intros id. apply (sg_tables _ _ Hs1).
  - intros th'. unfold clock_of. cbn. specialize (Hinfo th'). case_bool_decide as Hth.
    + subst th'. rewrite Ea. cbn. destruct (tg_threads tg1 !! th); [|done]. injection Hinfo as Hi. cbn. rewrite Hi. cbn. fold c.
      rewrite i32_id; [done|]. int_lia.
    + destruct (tg_threads tg1 !! th'), (tg_threads tg !! th'); cbn in *; congruence.
Qed.

(** ** Runs *)

(** The thread and the table exist, and the table has the columns. *)
Definition event_ok (tg : TableGroup R V) (ev : tg_event V) : Prop :=
  is_Some (tg_threads tg !! ev_thread ev) /\
  match ev with
  | EvThreadCall _ id call | EvDirectCall _ id call => is_Some (tg_tables tg !! id) /\ batch_cols cols (call_batch call)
  | EvClock _ => True
  end.

Lemma event_ok_same tg tg' ev : (forall id, is_Some (tg_tables tg' !! id) <-> is_Some (tg_tables tg !! id)) ->
  (forall th, is_Some (clock_of tg' th) <-> is_Some (clock_of tg th)) -> event_ok tg ev -> event_ok tg' ev.
Proof.
  intros Ht Hth [He Hr]. split; [|by destruct ev; rewrite ?Ht].
  specialize (Hth (ev_thread ev)). unfold clock_of in Hth. rewrite !fmap_is_Some in Hth. by apply Hth.
Qed.

Lemma same_group_clock tg tg' th : same_group tg tg' -> clock_of tg' th = clock_of tg th.
Proof. intros [_ _ Ht]. unfold clock_of. by rewrite !option_fmap_compose, Ht. Qed.

Lemma clocks_in_cons th ev evs : clocks_in th (ev :: evs) = (if bool_decide (ev_clock ev = Some th) then 1 else 0) + clocks_in th evs.
Proof. unfold clocks_in. rewrite filter_cons. case_decide; case_bool_decide; try done. cbn [length]. lia. Qed.

(** What one event, or a run, does. *)
Record group_step (u : unflushed) (evs : list (tg_event V)) (tg tg' : TableGroup R V) (outs : list tg_out) : Prop := {
  gs_ready : group_ready (unflushed_after evs u) tg';
  gs_clocks : clocks_ok tg';
  gs_announced : announced outs = min_clock (tg_vector_clock tg') - min_clock (tg_vector_clock tg);
  gs_tables : forall id, is_Some (tg_tables tg' !! id) <-> is_Some (tg_tables tg !! id);
  gs_threads : forall th, clock_of tg' th = (fun c => c + clocks_in th evs) <$> clock_of tg th
}.

Lemma tg_step_spec u ev (tg : TableGroup R V) : group_ready u tg -> clocks_ok tg -> event_ok tg ev ->
  (forall th c, clock_of tg th = Some c -> c + 1 < 2 ^ 31) ->
  exists tg' outs, tg_step ev tg = Ret (tg', outs) /\ group_step u [ev] tg tg' outs.
Proof.
  intros Hok Hck [[a Ea] Hev] Hb.
  assert (Hcall : forall tg', same_group tg tg' -> group_ready (unflushed_step u ev) tg' -> ev_clock ev = None ->
    group_step u [ev] tg tg' []).
  { intros tg' Hs Hok' He. constructor; [done|by eapply clocks_ok_same|rewrite (sg_clock _ _ Hs); change (announced []) with 0; lia|apply Hs|].
    intros th. rewrite (same_group_clock _ _ _ Hs), clocks_in_cons, He, bool_decide_false by done.
    destruct (clock_of tg th); cbn; [|done]. f_equal. unfold clocks_in. cbn. lia. }
  destruct ev as [th id call|th id call|th]; cbn [ev_thread tg_step] in *.
  - destruct Hev as [[t Et] Hbc].
    destruct (on_table_ready u th id a t (u th id ++ [call_batch call]) (fun c t => c' ← thread_call c call; Ret (c', t)) tg Hok Ea Et)
      as (tg' & E & Hok' & Hs); [intros c Hc Ht; by apply thread_call_op|].
    rewrite E. exists tg', []. split; [done|]. apply Hcall; [done| |done]. eapply group_ready_ext; [|exact Hok'].
    intros th' id'. cbn. case_bool_decide as Hx; [|done]. by destruct Hx as [-> ->].
  - destruct Hev as [[t Et] Hbc].
    destruct (on_table_ready u th id a t (u th id) (fun c t => direct_call g (c, t) call) tg Hok Ea Et)
      as (tg' & E & Hok' & Hs); [intros c Hc Ht; by apply direct_call_op|].
    rewrite E. exists tg', []. split; [done|]. apply Hcall; [done| |done]. eapply group_ready_ext; [|exact Hok'].
    intros th' id'. cbn. case_bool_decide as Hx; [|done]. by destruct Hx as [-> ->].
  - destruct (clock_step u th a tg Hok Hck Ea) as (tg' & outs & E & Hok' & Hck' & Ho & Ht & Hth).
    { apply (Hb th). unfold clock_of. by rewrite Ea. }
    exists tg', outs. split; [exact E|]. constructor; [done..|]. intros th'. rewrite Hth, clocks_in_cons. cbn [ev_clock].
    destruct (clock_of tg th'); cbn; [|done]. f_equal. unfold clocks_in. cbn.
    rewrite (bool_decide_ext (Some th = Some th') (th' = th)) by (split; congruence). case_bool_decide; lia.
Qed.

Lemma clocks_in_length th evs : clocks_in th evs <= Z.of_nat (length evs).
Proof. unfold clocks_in. pose proof (length_filter (fun ev => ev_clock ev = Some th) evs). lia. Qed.

Lemma tg_run_spec evs u (tg : TableGroup R V) : group_ready u tg -> clocks_ok tg -> Forall (event_ok tg) evs ->
  (forall th c, clock_of tg th = Some c -> c + Z.of_nat (length evs) < 2 ^ 31) ->
  exists tg' outs, tg_run evs tg = Ret (tg', outs) /\ group_step u evs tg tg' outs.
Proof.
  revert u tg. induction evs as [|ev evs IH]; intros u tg Hok Hck Hevs Hb.
  - exists tg, []. split; [done|]. constructor; [done|done|change (announced []) with 0; lia|done|]. intros th. destruct (clock_of tg th); cbn; [|done].
    f_equal. unfold clocks_in. cbn. lia.
  - apply Forall_cons in Hevs as [Hev Hevs].
    destruct (tg_step_spec u ev tg Hok Hck Hev) as (tg1 & outs1 & E1 & [Hok1 Hck1 Ho1 Ht1 Hth1]).
    { intros th c Hc. specialize (Hb th c Hc). cbn [length] in Hb. lia. }
    destruct (IH (unflushed_step u ev) tg1 Hok1 Hck1) as (tg2 & outs2 & E2 & [Hok2 Hck2 Ho2 Ht2 Hth2]).
    { eapply Forall_impl; [exact Hevs|]. intros ev'. apply event_ok_same; [done|]. intros th. rewrite Hth1. apply fmap_is_Some. }
    { intros th c Hc. rewrite Hth1 in Hc. destruct (clock_of tg th) as [c0|] eqn:E0; [|done]. injection Hc as <-.
      specialize (Hb th c0 E0). pose proof (clocks_in_length th [ev]). cbn [length] in *. lia. }
    exists tg2, (outs1 ++ outs2). cbn [tg_run]. rewrite E1. cbn [mbind outcome_bind]. rewrite E2. split; [done|].
    constructor; [done|done|rewrite announced_app; lia|intros id; by rewrite Ht2|].
    intros th. rewrite Hth2, Hth1, (clocks_in_cons th ev evs), (clocks_in_cons th ev []).
    change (clocks_in th []) with 0. destruct (clock_of tg th); cbn; [|done]. f_equal. lia.
Qed.
End GROUP.

(** ** Set-up *)

Section SETUP.
Context {R V : Type} `{NumOk V} `{!AbstractRow R V} `{!AbstractRowOk R V} `{!AdditiveRow R V}.
Context (g : GlobalContext) (Hg : context_ok g) (cols : Z -> Prop).

Lemma ThreadTable_new_ready : cache_ready (R := R) (V := V) g cols [] (ThreadTable_new g).
Proof.
  pose proof (ctx_bg g Hg). constructor; cbn; [rewrite length_replicate; lia| |constructor|].
  - intros row_id. cbn. by rewrite lookup_empty.
  - intros row_id r E. by rewrite lookup_empty in E.
Qed.

Lemma ClientTable_new_ready config (t : ClientTable R V) : 0 < process_cache_capacity config < 2 ^ 29 ->
  0 < GetLockPoolSize g < 2 ^ 31 -> ClientTable_new g config = Ret t ->
  table_ready g cols t /\ forall row_id, ~ pending g t row_id.
Proof.
  intros Hc Hl E. assert (Et : t = mkClientTable (row_type (tc_table_info config)) (TableOpLog_new g) (TableOpLogIndex_new g)
    (ProcessStorage_new (process_cache_capacity config) (GetLockPoolSize g))).
  { unfold ClientTable_new in E. by destruct (consistency_model g); try done; injection E as <-. }
  pose proof (ctx_bg g Hg). subst t. split; [constructor; cbn|].
  - unfold TableOpLog_new. rewrite length_replicate. lia.
  - unfold TableOpLogIndex_new. rewrite length_replicate. lia.
  - constructor; [by apply ProcessStorage_new_ok|..]; intros id row slot E'; cbn in E'; by rewrite lookup_empty in E'.
  - intros id row slot E'. by rewrite lookup_empty in E'.
  - intros row_id [o Ho]. unfold table_row_oplog, TableOpLog_new in Ho. cbn [ct_oplog] in Ho.
    apply bind_Some in Ho as (p & Hp & Ho). apply lookup_replicate in Hp as [-> _]. by rewrite lookup_empty in Ho.
Qed.

Abbreviation none := (fun _ _ : Z => [] : list (batch V)).

Lemma TableGroup_new_ready indet : group_ready g cols none (TableGroup_new (R := R) (V := V) g indet true) /\
  clocks_ok (TableGroup_new (R := R) (V := V) g indet true).
Proof.
  split; constructor; cbn; try done.
  - apply AddClock_first.
  - intros th a [<- <-]%lookup_singleton_Some. apply lookup_insert_eq.
Qed.

(** The tables are created by the only thread there is. *)
Lemma CreateTable_ready th a id config b (tg tg' : TableGroup R V) : group_ready g cols none tg ->
  tg_threads tg = {[th := a]} -> at_caches a !! id = None -> num_app_threads g = num_table_threads g ->
  0 < process_cache_capacity config < 2 ^ 29 -> 0 < GetLockPoolSize g < 2 ^ 31 ->
  TableGroup_CreateTable g th id config tg = Ret (b, tg') ->
  group_ready g cols none tg' /\ tg_vector_clock tg' = tg_vector_clock tg /\
  exists a', tg_threads tg' = {[th := a']} /\ at_info a' = at_info a.
Proof.
  intros [Ht Hc Hi] Eth Enew Hn Hcap Hl E. unfold TableGroup_CreateTable in E.
  apply bind_Ret_inv in E as (t & Et & E). destruct (ClientTable_new_ready config t Hcap Hl Et) as [Htr Hnp].
  rewrite bool_decide_true in E by done. cbn in E. rewrite Eth, lookup_singleton_eq in E.
  cbn [deref mbind outcome_bind] in E. injection E as <- <-. unfold register_cache. rewrite Enew. split; [|split].
  - constructor; cbn.
    + intros id' t' [[<- <-]|[_ El]]%lookup_insert_Some; [done|by eapply Ht].
    + intros th' a' id' t' [[<- <-]|[Hne Ea]]%lookup_insert_Some Et'; [|cbn in Ea; by rewrite ?Eth, lookup_singleton_ne in Ea].
      cbn. destruct (decide (id' = id)) as [->|Hid].
      * exists (ThreadTable_new g). rewrite lookup_insert_eq. split; [done|]. apply ThreadTable_new_ready.
      * rewrite !lookup_insert_ne in * by done. eapply (Hc th a id'); [by rewrite Eth, lookup_singleton_eq|done].
    + intros id' t' row_id [[<- <-]|[Hne El]]%lookup_insert_Some Hr Hp; [by apply Hnp in Hp|].
      destruct (Hi _ _ _ El Hr Hp) as [?|(th0 & a0 & c0 & E1 & E2 & E3)]; [by left|right].
      rewrite Eth in E1. apply lookup_singleton_Some in E1 as [<- <-]. exists th. eexists _, c0. rewrite lookup_insert_eq.
      split; [done|]. cbn. by rewrite lookup_insert_ne.
  - done.
  - eexists. cbn. rewrite ?Eth, insert_singleton_eq. by split.
Qed.

Lemma registered_caches ids (cs : gmap Z (ThreadTable R V)) id :
  (forall i c, cs !! i = Some c -> c = ThreadTable_new g) -> id ∈ ids \/ is_Some (cs !! id) ->
  foldl (fun cs table_id => register_cache g table_id cs) cs ids !! id = Some (ThreadTable_new g).
Proof.
  revert cs. induction ids as [|i ids IH]; intros cs Hcs Hid; cbn [foldl].
  - destruct Hid as [Hin%elem_of_nil|[c Hc]]; [done|]. by rewrite Hc, (Hcs _ _ Hc).
  - apply IH.
    + intros j c. unfold register_cache. destruct (cs !! i) eqn:Ei; [apply Hcs|].
      intros [[_ <-]|[_ Hj]]%lookup_insert_Some; [done|by eapply Hcs].
    + unfold register_cache. destruct (cs !! i) as [c|] eqn:Ei.
      * destruct Hid as [[->|?]%elem_of_cons|?]; [right; by eexists|by left|by right].
      * destruct (decide (id = i)) as [->|Hne]; [right; rewrite lookup_insert_eq; by eexists|].
        rewrite lookup_insert_ne by done. destruct Hid as [[->|?]%elem_of_cons|?]; [done|by left|by right].
Qed.

Lemma RegisterThread_ready (tg tg' : TableGroup R V) th outs : group_ready g cols none tg -> clocks_ok tg ->
  tg_threads tg !! th = None -> vec_clock (tg_vector_clock tg) !! th = None ->
  TableGroup_RegisterThread g tg = (th, tg', outs) ->
  group_ready g cols none tg' /\ clocks_ok tg'.
Proof.
  intros [Ht Hc Hi] [Hm Hp Hth] Hnew Hvc E. unfold TableGroup_RegisterThread in E. injection E as Eid <- <-. rewrite !Eid.
  split; constructor; cbn.
  - done.
  - intros th' a id t [[<- <-]|[Hne Ea]]%lookup_insert_Some Et; [|by eapply Hc]. exists (ThreadTable_new g). cbn. split.
    + apply registered_caches; [by intros i c E; rewrite lookup_empty in E|]. left. change id with (id, t).1.
      apply list_elem_of_fmap_2. by apply sorted_entries_lookup.
    + apply ThreadTable_new_ready.
  - intros id t row_id Et Hr Hpd. destruct (Hi _ _ _ Et Hr Hpd) as [?|(th0 & a0 & c0 & E1 & E2 & E3)]; [by left|right].
    exists th0, a0, c0. split; [|done]. rewrite lookup_insert_ne; [done|]. intros <-. congruence.
  - by apply AddClock_fresh.
  - case_bool_decide; lia.
  - intros th' a [[<- <-]|[Hne Ea]]%lookup_insert_Some; cbn; [apply lookup_insert_eq|]. rewrite lookup_insert_ne by done. by apply Hth.
Qed.
End SETUP.

(** C6: along every interleaving of updates and clocks of the application threads
    no step fails; the background threads are told of a clock exactly as often as
    the minimum of the thread clocks moves, and every thread's clock counts its
    calls of [Clock]; the caches of a thread hold exactly the updates it made
    since its last clock, and every row with pending updates in the oplog of a
    table is in the index of the table or of a thread. *)
Theorem process_clock_announced {R V} `{NumOk V} `{!AbstractRow R V} `{!AbstractRowOk R V} `{!AdditiveRow R V}
    `{!HashOrder, !HashOrderOk} g aggressive cols u (tg : TableGroup R V) (evs : list (tg_event V)) :
  context_ok g -> group_ready g cols u tg -> clocks_ok tg -> Forall (event_ok cols tg) evs ->
  (forall th c, clock_of tg th = Some c -> c + Z.of_nat (length evs) < 2 ^ 31) ->
  exists tg' outs, tg_run g aggressive evs tg = Ret (tg', outs) /\
    announced outs = min_clock (tg_vector_clock tg') - min_clock (tg_vector_clock tg) /\
    is_min (vec_clock (tg_vector_clock tg')) (min_clock (tg_vector_clock tg')) /\
    (forall th, clock_of tg' th = (fun c => c + clocks_in th evs) <$> clock_of tg th) /\
    (forall th c, clock_of tg' th = Some c -> vec_clock (tg_vector_clock tg') !! th = Some c) /\
    group_ready g cols (unflushed_after evs u) tg'.
Proof.
  intros Hg Hok Hck Hevs Hb.
  destruct (tg_run_spec g Hg aggressive cols evs u tg Hok Hck Hevs Hb) as (tg' & outs & E & [Hok' [Hm _ Hth] Ho _ Hc]).
  exists tg', outs. split_and!; [done..| |done]. intros th c Hc'. unfold clock_of in Hc'.
  destruct (tg_threads tg' !! th) as [a|] eqn:Ea; [|done]. injection Hc' as <-. by apply Hth.
Qed.

Lemma barrier_run {R V} `{NumOk V} `{!AbstractRow R V} `{!HashOrder} g aggressive th l (tg : TableGroup R V) outs :
  foldM (clock_again g aggressive th) l (tg, outs) =
  ('(tg', outs') ← tg_run g aggressive (replicate (length l) (EvClock th)) tg; Ret (tg', outs ++ outs')).
Proof.
  revert tg outs. induction l as [|x l IH]; intros tg outs; cbn [foldM length replicate tg_run].
  - cbn. by rewrite app_nil_r.
  - assert (E : clock_again g aggressive th (tg, outs) x
      = ('(tg', o) ← TableGroup_Clock g aggressive th tg; Ret (tg', outs ++ o))) by done.
    rewrite E. cbn [tg_step]. destruct (TableGroup_Clock g aggressive th tg) as [[tg1 o1]| |]; [|done|done].
    cbn [mbind outcome_bind]. rewrite IH. destruct (tg_run g aggressive _ tg1) as [[tg2 o2]| |]; [|done|done].
    cbn [mbind outcome_bind]. by rewrite app_assoc.
Qed.

(** C21: after [GlobalBarrier] a read of any table needs a row newer than the clock at
    which the thread entered the barrier, as long as the staleness of the table
    is at most the maximum the group has recorded, this maximum is not
    negative (it is never initialised) and no clock gets past [2^31]. *)
Theorem global_barrier_outlasts_staleness {R V} `{NumOk V} `{!AbstractRow R V} `{!AbstractRowOk R V} `{!AdditiveRow R V}
    `{!HashOrder, !HashOrderOk} g aggressive cols u (tg : TableGroup R V) th c :
  context_ok g -> group_ready g cols u tg -> clocks_ok tg -> clock_of tg th = Some c ->
  0 <= max_table_staleness tg ->
  (forall th' c', clock_of tg th' = Some c' -> c' + max_table_staleness tg + 1 < 2 ^ 31) ->
  exists tg' outs c', GlobalBarrier g aggressive th tg = Ret (tg', outs) /\ clock_of tg' th = Some c' /\
    group_ready g cols (fun th' id => if bool_decide (th' = th) then [] else u th' id) tg' /\
    forall staleness, 0 <= staleness <= max_table_staleness tg -> c < stalest_clock staleness c'.
Proof.
  intros Hg Hok Hck Hc Hs Hb. pose proof (Hb th c Hc). set (n := max_table_staleness tg) in *.
  assert (Hc0 : 0 <= c).
  { destruct Hck as [[_ Hm] Hp Ht]. unfold clock_of in Hc. destruct (tg_threads tg !! th) as [a|] eqn:Ea; [|done].
    injection Hc as <-. pose proof (Hm _ _ (Ht _ _ Ea)). lia. }
  set (evs := replicate (Z.to_nat (n + 1)) (EvClock th) : list (tg_event V)).
  destruct (tg_run_spec g Hg aggressive cols evs u tg Hok Hck) as (tg' & outs & E & [Hok' _ _ _ Hcl]).
  { apply Forall_replicate. split; [|done]. unfold clock_of in Hc. cbn. destruct (tg_threads tg !! th); [by eexists|done]. }
  { intros th' c' Hc'. unfold evs. rewrite length_replicate. specialize (Hb th' c' Hc'). lia. }
  assert (Hn : clocks_in th evs = n + 1).
  { unfold evs, clocks_in. assert (Hf : forall k, length (filter (fun ev : tg_event V => ev_clock ev = Some th) (replicate k (EvClock th))) = k).
    { induction k as [|k IH]; [done|]. cbn [replicate]. rewrite filter_cons, decide_True by done. cbn [length]. by rewrite IH. }
    rewrite Hf. lia. }
  exists tg', outs, (c + (n + 1)). split_and!.
  - unfold GlobalBarrier. fold n. rewrite decide_True by int_lia. rewrite barrier_run. rewrite length_seqZ. fold evs. by rewrite E.
  - by rewrite Hcl, Hc, Hn.
  - eapply group_ready_ext; [|exact Hok']. intros th' id. unfold unflushed_after, evs.
    replace (Z.to_nat (n + 1)) with (S (Z.to_nat n)) by lia. cbn [replicate foldl].
    assert (Hf : forall k (u0 : unflushed), (forall id, u0 th id = []) -> foldl (unflushed_step (V := V)) u0 (replicate k (EvClock th)) th' id = u0 th' id).
    { induction k as [|k IH]; intros u0 Hu; [done|]. cbn [replicate foldl]. rewrite IH; cbn; [|by intros; rewrite bool_decide_true].
      case_bool_decide; [subst; by rewrite Hu|done]. }
    rewrite Hf; [done|]. intros id'. cbn. by rewrite bool_decide_true.
  - intros staleness Hst. unfold stalest_clock. rewrite i32_id by int_lia. lia.
Qed.

(** *** Witnesses

    Two application threads, 200 and 201, and one table of sparse rows with
    staleness 1. *)
Definition demo_config : ClientTableConfig := mkClientTableConfig (mkTableInfo 1 1 0) 2 2 4.
Definition demo_init_group (indet : Z) : TableGroup (SparseRow int32) int32 := TableGroup_new demo_context indet true.
Definition demo_table_group (indet : Z) : TableGroup (SparseRow int32) int32 :=
  match TableGroup_CreateTable demo_context 200 0 demo_config (demo_init_group indet) with
  | Ret (_, tg) => tg | _ => demo_init_group indet
  end.
Definition demo_group (indet : Z) : TableGroup (SparseRow int32) int32 :=
  (TableGroup_RegisterThread demo_context (demo_table_group indet)).1.2.

Lemma demo_group_ready indet : group_ready demo_context in_i32 (fun _ _ => []) (demo_group indet) /\ clocks_ok (demo_group indet).
Proof.
  destruct (TableGroup_new_ready (R := SparseRow int32) (V := int32) demo_context in_i32 indet) as [Hr Hc].
  destruct (TableGroup_CreateTable demo_context 200 0 demo_config (demo_init_group indet)) as [[b tg]| |] eqn:E;
    [|by vm_compute in E|by vm_compute in E].
  destruct (CreateTable_ready demo_context demo_context_ok in_i32 200 (mkAppThread (RegisterThread 200) ∅) 0 demo_config b
    (demo_init_group indet) tg Hr) as (Hr1 & Hv & a1 & Hth & Hi); [done|done|done|done|by vm_compute|exact E|].
  assert (Hc1 : clocks_ok tg).
  { destruct Hc as [H1 H2 H3]. constructor; rewrite ?Hv; [exact H1|exact H2|]. intros th a. rewrite Hth.
    intros [<- <-]%lookup_singleton_Some. rewrite Hi. by apply (H3 200 (mkAppThread (RegisterThread 200) ∅)). }
  unfold demo_group, demo_table_group. rewrite E.
  destruct (TableGroup_RegisterThread demo_context tg) as [[th tg2] outs] eqn:E2.
  assert (Eth : th = 201).
  { unfold TableGroup_RegisterThread in E2. injection E2 as <- _ _. unfold TableGroup_CreateTable in E.
    apply bind_Ret_inv in E as (t & _ & E). by injection E as <- <-. }
  subst th. eapply (RegisterThread_ready demo_context demo_context_ok in_i32 tg tg2 201 outs); [done|done| |by rewrite Hv|done].
  by rewrite Hth.
Qed.

Lemma demo_group_clock th c : clock_of (demo_group 0) th = Some c -> c = 0.
Proof.
  assert (Hz : map_Forall (fun _ a => thr_clock (at_info a) = 0) (tg_threads (demo_group 0)))
    by (apply (bool_decide_unpack _); by vm_compute).
  unfold clock_of. destruct (tg_threads (demo_group 0) !! th) as [a|] eqn:Ea; [|done].
  intros [= <-]. by apply (Hz th a).
Qed.

Definition demo_events : list (tg_event int32) :=
  [EvThreadCall 200 0 (CallInc 3 7 (to_int32 5)); EvClock 200; EvDirectCall 201 0 (CallInc 4 1 (to_int32 2));
   EvThreadCall 200 0 (CallInc 3 7 (to_int32 1)); EvClock 201].

Lemma demo_events_ok : Forall (event_ok in_i32 (demo_group 0)) demo_events.
Proof.
  assert (Hth : forall th, th = 200 \/ th = 201 -> is_Some (tg_threads (demo_group 0) !! th)).
  { intros th [-> | ->]; apply (bool_decide_unpack _); by vm_compute. }
  assert (Ht : is_Some (tg_tables (demo_group 0) !! 0)) by (apply (bool_decide_unpack _); by vm_compute).
  assert (Hb : forall row c v, 0 <= row -> in_i32 c -> batch_cols in_i32 (call_batch (CallInc row c v : update_call int32))).
  { intros row c v Hr Hc. split; [by split|]. cbn. apply Forall_singleton. exact Hc. }
  unfold demo_events. rewrite !Forall_cons, Forall_nil. split_and!; try done; (split; [apply Hth; cbn; auto|]); try done;
    (split; [exact Ht|]); apply Hb; (lia || by vm_compute).
Qed.

Lemma process_clock_announced_witness :
  exists tg' outs, tg_run demo_context false demo_events (demo_group 0) = Ret (tg', outs) /\ announced outs = 1 /\
    group_ready demo_context in_i32 (unflushed_after demo_events (fun _ _ => [])) tg'.
Proof.
  destruct (demo_group_ready 0) as [Hr Hc].
  destruct (process_clock_announced demo_context false in_i32 (fun _ _ => []) (demo_group 0) demo_events)
    as (tg' & outs & E & Ho & _ & _ & _ & Hr').
  - exact demo_context_ok.
  - exact Hr.
  - exact Hc.
  - exact demo_events_ok.
  - intros th c ->%demo_group_clock. by vm_compute.
  - exists tg', outs. split_and!; [exact E| |exact Hr'].
    assert (Eo : (outs, min_clock (tg_vector_clock tg')) = ([OutClockAllTables], 1)).
    { vm_compute in E. injection E as <- <-. by vm_compute. }
    by injection Eo as -> _.
Defined.

(** Both threads have clock 0; the table has staleness 1. *)
Lemma global_barrier_outlasts_staleness_witness :
  exists tg' outs, GlobalBarrier demo_context false 200 (demo_group 0) = Ret (tg', outs) /\
    clock_of tg' 200 = Some 2 /\ 0 < stalest_clock 1 2.
Proof.
  destruct (demo_group_ready 0) as [Hr Hc].
  destruct (global_barrier_outlasts_staleness demo_context false in_i32 (fun _ _ => []) (demo_group 0) 200 0)
    as (tg' & outs & c' & E & Hcl & _ & Hst); [exact demo_context_ok|exact Hr|exact Hc|by vm_compute|by vm_compute| |].
  - intros th c ->%demo_group_clock. by vm_compute.
  - exists tg', outs. assert (E2 : clock_of tg' 200 = Some 2).
    { vm_compute in E. injection E as <- _. by vm_compute. }
    split_and!; [exact E|exact E2|]. rewrite Hcl in E2. injection E2 as <-. apply Hst. by vm_compute.
Defined.
