(* ===== verification/NameNode.v ===== *)
(** * The name node

    [petuum_ps/server/name_node_thread.cpp]: one thread of client 0 collects
    the connections of all background threads and servers, has every table
    created on all servers once and tells the clients when that is done, and
    ends when all background threads have. *)
From stdpp Require Import strings.
From S2P Require Import Prelude Bytes Num DenseRow VectorClock Context SparseRow ServerRow Snapshot Server ServerThreads.
Open Scope Z_scope.

(** Messages sent, with their receiver. *)
Inductive nn_out :=
  | OutConnectServer (bg_id : Z)
  | OutNNClientStart (bg_id : Z)
  | OutCreateTable (server_id table_id : Z) (info : TableInfo)
  | OutTableCreated (bg_id table_id : Z)
  | OutCreatedAllTables (bg_id : Z)
  | OutNNShutDownAck (bg_id : Z).

(** Messages received after the connections, with their sender. *)
Inductive nn_event :=
  | NNShutDown (sender : Z)
  | NNCreateTable (sender table_id : Z) (info : TableInfo)
  | NNCreateTableReply (sender table_id : Z).

Record CreateTableInfo := mkCreateTableInfo {
  num_clients_replied : Z;
  num_servers_replied : Z;
  bgs_to_reply : list Z
}.
Definition CreateTableInfo_new : CreateTableInfo := mkCreateTableInfo 0 0 [].

Section NAME_NODE.
Context {R V : Type} `{!Num V} `{!AbstractRow R V} `{!HashOrder} `{!LevelDB}.
Context (g : GlobalContext) (reg : ClassRegistry (RowClass R)) (db : ldb).

Definition ReceivedFromAllServers (i : CreateTableInfo) : bool := bool_decide (num_servers_replied i = num_servers g).
Definition RepliedToAllClients (i : CreateTableInfo) : bool := bool_decide (num_clients_replied i = num_clients g).

Record NameNodeContext := mkNameNodeContext {
  nn_bg_thread_ids : list Z;
  create_table_map : gmap Z CreateTableInfo;
  nn_server_obj : Server R;
  nn_num_shutdown_bgs : Z
}.

Definition SetUpNameNodeContext : NameNodeContext :=
  mkNameNodeContext (replicate (Z.to_nat (num_total_bg_threads g)) 0) ∅ Server_new 0.

Definition with_create_table_map (m : gmap Z CreateTableInfo) (c : NameNodeContext) : NameNodeContext :=
  mkNameNodeContext (nn_bg_thread_ids c) m (nn_server_obj c) (nn_num_shutdown_bgs c).
Definition with_server_obj (s : Server R) (c : NameNodeContext) : NameNodeContext :=
  mkNameNodeContext (nn_bg_thread_ids c) (create_table_map c) s (nn_num_shutdown_bgs c).

Definition NN_SendToAllBgThreads (msg : Z -> nn_out) (c : NameNodeContext) : outcome (list nn_out) :=
  foldM (fun outs i => bg_id ← vec_at (nn_bg_thread_ids c) i; Ret (outs ++ [msg bg_id]))
    (seqZ 0 (num_total_bg_threads g)) [].

Definition SendToAllServers (msg : Z -> nn_out) : outcome (list nn_out) :=
  foldM (fun outs i => server_id ← vec_at (server_ids g) i; Ret (outs ++ [msg server_id]))
    (seqZ 0 (num_servers g)) [].

(** The loop of [InitNameNode] over the messages received. *)
Fixpoint nn_connections (num_bgs : Z) (conns : list (connect_msg * Z)) (c : NameNodeContext)
    : outcome (Z * NameNodeContext) :=
  match conns with
  | [] => Ret (num_bgs, c)
  | (msg, sender_id) :: conns' =>
      client ← GetConnection msg;
      match client with
      | Some client_id =>
          ids ← vec_set (nn_bg_thread_ids c) num_bgs sender_id;
          nn_connections (num_bgs + 1) conns'
            (mkNameNodeContext ids (create_table_map c) (AddClientBgPair client_id sender_id (nn_server_obj c))
               (nn_num_shutdown_bgs c))
      | None => nn_connections num_bgs conns' c
      end
  end.

Definition InitNameNode (conns : list (connect_msg * Z)) (c : NameNodeContext)
    : outcome (NameNodeContext * list nn_out) :=
  '(num_bgs, c1) ← nn_connections 0 (take (Z.to_nat (num_total_bg_threads g + num_servers g)) conns) c;
  _ ← CHECK (bool_decide (num_bgs = num_total_bg_threads g));
  let c2 := with_server_obj (Server_Init 0 (nn_server_obj c1)) c1 in
  outs1 ← NN_SendToAllBgThreads OutConnectServer c2;
  outs2 ← NN_SendToAllBgThreads OutNNClientStart c2;
  Ret (c2, outs1 ++ outs2).

Definition HaveCreatedAllTables (c : NameNodeContext) : bool :=
  if bool_decide (Z.of_nat (size (create_table_map c)) < num_tables g) then false
  else forallb (fun e => RepliedToAllClients e.2) (sorted_entries (create_table_map c)).

Definition SendCreatedAllTablesMsg : list nn_out :=
  (fun client_idx => OutCreatedAllTables (get_head_bg_id client_idx)) <$> seqZ 0 (num_clients g).

Definition NN_HandleShutDownMsg (c : NameNodeContext) : outcome (bool * NameNodeContext * list nn_out) :=
  let n := i32 (nn_num_shutdown_bgs c + 1) in
  let c' := mkNameNodeContext (nn_bg_thread_ids c) (create_table_map c) (nn_server_obj c) n in
  if bool_decide (n = num_total_bg_threads g) then
    outs ← NN_SendToAllBgThreads OutNNShutDownAck c'; Ret (true, c', outs)
  else Ret (false, c', []).

(** [create_table_map[table_id]] *)
Definition table_entry (table_id : Z) (c : NameNodeContext) : CreateTableInfo :=
  default CreateTableInfo_new (create_table_map c !! table_id).
Definition set_entry (table_id : Z) (i : CreateTableInfo) (c : NameNodeContext) : NameNodeContext :=
  with_create_table_map (<[table_id := i]> (create_table_map c)) c.

Definition all_created_msg (c : NameNodeContext) : list nn_out :=
  if HaveCreatedAllTables c then SendCreatedAllTablesMsg else [].

Definition NN_HandleCreateTable (sender_id table_id : Z) (info : TableInfo) (c : NameNodeContext)
    : outcome (NameNodeContext * list nn_out) :=
  '(c1, outs1) ←
    match create_table_map c !! table_id with
    | None =>
        s ← CreateTable g reg table_id info db (nn_server_obj c);
        outs ← SendToAllServers (fun server_id => OutCreateTable server_id table_id info);
        Ret (set_entry table_id CreateTableInfo_new (with_server_obj s c), outs)
    | Some _ => Ret (c, [])
    end;
  let i := table_entry table_id c1 in
  if ReceivedFromAllServers i then
    let c2 := set_entry table_id
                (mkCreateTableInfo (i32 (num_clients_replied i + 1)) (num_servers_replied i) (bgs_to_reply i)) c1 in
    Ret (c2, outs1 ++ [OutTableCreated sender_id table_id] ++ all_created_msg c2)
  else
    Ret (set_entry table_id
           (mkCreateTableInfo (num_clients_replied i) (num_servers_replied i) (bgs_to_reply i ++ [sender_id])) c1, outs1).

(** The loop over [bgs_to_reply_]. *)
Fixpoint reply_all (table_id : Z) (bgs : list Z) (i : CreateTableInfo) : CreateTableInfo * list nn_out :=
  match bgs with
  | [] => (mkCreateTableInfo (num_clients_replied i) (num_servers_replied i) [], [])
  | bg_id :: bgs' =>
      let '(i', outs) := reply_all table_id bgs'
        (mkCreateTableInfo (i32 (num_clients_replied i + 1)) (num_servers_replied i) bgs') in
      (i', OutTableCreated bg_id table_id :: outs)
  end.

Definition NN_HandleCreateTableReply (table_id : Z) (c : NameNodeContext) : NameNodeContext * list nn_out :=
  let i := table_entry table_id c in
  let i1 := mkCreateTableInfo (num_clients_replied i) (i32 (num_servers_replied i + 1)) (bgs_to_reply i) in
  if ReceivedFromAllServers i1 then
    let '(i2, outs) := reply_all table_id (bgs_to_reply i1) i1 in
    let c2 := set_entry table_id i2 c in (c2, outs ++ all_created_msg c2)
  else (set_entry table_id i1 c, []).

(** One turn of the loop of [NameNodeThreadMain]; [true] ends the thread. *)
Definition nn_step (c : NameNodeContext) (ev : nn_event) : outcome (bool * NameNodeContext * list nn_out) :=
  match ev with
  | NNShutDown _ => NN_HandleShutDownMsg c
  | NNCreateTable sender table_id info =>
      '(c', outs) ← NN_HandleCreateTable sender table_id info c; Ret (false, c', outs)
  | NNCreateTableReply _ table_id =>
      let '(c', outs) := NN_HandleCreateTableReply table_id c in Ret (false, c', outs)
  end.

Fixpoint nn_run (c : NameNodeContext) (evs : list nn_event) : outcome (NameNodeContext * list nn_out) :=
  match evs with
  | [] => Ret (c, [])
  | ev :: evs' =>
      '(fin, c', outs) ← nn_step c ev;
      if (fin : bool) then Ret (c', outs)
      else '(c'', outs') ← nn_run c' evs'; Ret (c'', outs ++ outs')
  end.
End NAME_NODE.
Arguments NameNodeContext : clear implicits.

(** ** Histories

    What the clients and servers may send: the head background thread of a
    client asks for a table at most once, a server answers only a request it
    got, once. *)
Section HISTORY.
Context (g : GlobalContext) (tabs : list Z).

Definition creates (table_id : Z) (evs : list nn_event) : list Z :=
  omap (fun ev => match ev with
                  | NNCreateTable sender t _ => if bool_decide (t = table_id) then Some sender else None
                  | _ => None end) evs.
Definition answered_table (ev : nn_event) : option Z :=
  match ev with NNCreateTableReply _ t => Some t | _ => None end.
Definition replies (table_id : Z) (evs : list nn_event) : Z :=
  Z.of_nat (length (filter (fun ev => answered_table ev = Some table_id) evs)).

Definition head_bg_ids : list Z := get_head_bg_id <$> seqZ 0 (num_clients g).

Definition nn_allowed (evs : list nn_event) (ev : nn_event) : Prop :=
  match ev with
  | NNShutDown _ => False
  | NNCreateTable sender t _ => t ∈ tabs /\ sender ∈ head_bg_ids /\ sender ∉ creates t evs
  | NNCreateTableReply _ t => creates t evs <> [] /\ replies t evs < num_servers g
  end.

Inductive nn_history : list nn_event -> Prop :=
  | nn_none : nn_history []
  | nn_next evs ev : nn_history evs -> nn_allowed evs ev -> nn_history (evs ++ [ev]).

(** Every client has asked for every table and every server has answered. *)
Definition nn_complete (evs : list nn_event) : Prop :=
  Forall (fun t => length (creates t evs) = length head_bg_ids /\ replies t evs = num_servers g) tabs.

Lemma creates_snoc t evs ev : creates t (evs ++ [ev]) = creates t evs ++ creates t [ev].
Proof. apply omap_app. Qed.

Lemma replies_snoc t evs ev : replies t (evs ++ [ev]) = replies t evs + replies t [ev].
Proof. unfold replies. rewrite filter_app, length_app. lia. Qed.

Lemma replies_one t s t' : replies t [NNCreateTableReply s t'] = if bool_decide (t' = t) then 1 else 0.
Proof.
  unfold replies. rewrite filter_cons. cbn [answered_table]. case_decide; case_bool_decide; try done; congruence.
Qed.

(** What the history says about one table. *)
Record table_history (t : Z) (evs : list nn_event) : Prop := {
  th_nodup : NoDup (creates t evs);
  th_heads : creates t evs ⊆ head_bg_ids;
  th_tabs : creates t evs <> [] -> t ∈ tabs;
  th_replies : 0 <= replies t evs <= num_servers g;
  th_none : creates t evs = [] -> replies t evs = 0
}.

Lemma nn_history_table evs t : 0 < num_servers g -> nn_history evs -> table_history t evs.
Proof.
  intros Hs. induction 1 as [|evs ev _ [IH1 IH2 IH3 IH4 IH5] Ha].
  - constructor; try done; [apply NoDup_nil_2|apply list_subseteq_nil|change (replies t []) with 0; lia].
  - constructor; rewrite ?creates_snoc, ?replies_snoc; destruct ev as [s|s t' i|s t']; try done; cbn in Ha.
    + cbn. destruct Ha as (_ & _ & Hn). case_bool_decide; [subst|by rewrite app_nil_r].
      apply NoDup_app. split_and!; [done|by intros x Hx ->%list_elem_of_singleton|apply NoDup_singleton].
    + cbn. by rewrite app_nil_r.
    + cbn. destruct Ha as (_ & Hh & _). case_bool_decide; [|by rewrite app_nil_r].
      intros x [Hx|Hx]%elem_of_app; [by apply IH2|]. by apply list_elem_of_singleton in Hx as ->.
    + cbn. by rewrite app_nil_r.
    + cbn. destruct Ha as (Ht & _). case_bool_decide; [by subst|by rewrite app_nil_r].
    + cbn. by rewrite app_nil_r.
    + change (replies t [NNCreateTable s t' i]) with 0. lia.
    + rewrite replies_one. case_bool_decide; [subst; lia|lia].
    + cbn. case_bool_decide; [by intros []%app_eq_nil|]. rewrite app_nil_r. intros Hn. rewrite IH5 by done. done.
    + cbn. rewrite app_nil_r. intros Hn. rewrite IH5, replies_one by done. case_bool_decide; [|done]. subst. by destruct Ha.
Qed.

(** No message is left to come after the end. *)
Lemma nn_complete_last evs ev : 0 < num_servers g -> nn_history evs -> nn_allowed evs ev -> ~ nn_complete evs.
Proof.
  intros Hs Hh Ha Hc. unfold nn_complete in Hc. rewrite Forall_forall in Hc.
  destruct ev as [s|s t i|s t]; [done|..]; cbn in Ha.
  - destruct Ha as (Ht & Hin & Hn). destruct (nn_history_table evs t Hs Hh) as [Hnd Hsub _ _ _].
    apply Hn. destruct (Hc t Ht) as [Hl _].
    rewrite (submseteq_length_Permutation (creates t evs) head_bg_ids); [done|by apply NoDup_submseteq|lia].
  - destruct Ha as (Hne & Hr). destruct (nn_history_table evs t Hs Hh) as [_ _ Htab _ _].
    destruct (Hc t (Htab Hne)) as [_ Hl]. lia.
Qed.
End HISTORY.

(** ** What the name node has done after a history *)

Definition replied (table_id : Z) (outs : list nn_out) : list Z :=
  omap (fun o => match o with
                 | OutTableCreated bg t => if bool_decide (t = table_id) then Some bg else None
                 | _ => None end) outs.
Definition asked (table_id : Z) (outs : list nn_out) : list Z :=
  omap (fun o => match o with
                 | OutCreateTable server t _ => if bool_decide (t = table_id) then Some server else None
                 | _ => None end) outs.
Definition told_all (outs : list nn_out) : list Z :=
  omap (fun o => match o with OutCreatedAllTables bg => Some bg | _ => None end) outs.

Definition ev_table (ev : nn_event) : Z :=
  match ev with NNShutDown _ => -1 | NNCreateTable _ t _ | NNCreateTableReply _ t => t end.

Lemma send_to_all {B} (l : list Z) (msg : Z -> B) :
  foldM (fun outs i => x ← vec_at l i; Ret (outs ++ [msg x])) (seqZ 0 (Z.of_nat (length l))) [] = Ret (msg <$> l).
Proof.
  assert (Hs : forall l1 l2, l = l1 ++ l2 ->
    foldM (fun outs i => x ← vec_at l i; Ret (outs ++ [msg x])) (seqZ (Z.of_nat (length l1)) (Z.of_nat (length l2)))
      (msg <$> l1) = Ret (msg <$> l)); [|by apply (Hs [] l)].
  intros l1 l2. revert l1. induction l2 as [|x l2 IH]; intros l1 ->.
  { rewrite app_nil_r. done. }
  cbn [length]. rewrite seqZ_cons by lia. cbn [foldM].
  rewrite (proj2 (vec_at_Ret (l1 ++ x :: l2) _ x)) by (split; [lia|rewrite Nat2Z.id; by apply list_lookup_middle]).
  cbn [mbind outcome_bind]. rewrite <- (IH (l1 ++ [x])) by (by rewrite <- app_assoc).
  rewrite length_app, fmap_app. cbn. f_equal. f_equal; lia.
Qed.

Lemma head_bg_ids_length g : 0 < num_clients g -> Z.of_nat (length (head_bg_ids g)) = num_clients g.
Proof. intros Hc. unfold head_bg_ids. rewrite length_fmap, length_seqZ. lia. Qed.

Section NAME_NODE_PROPS.
Context {R V : Type} `{!Num V} `{!AbstractRow R V} `{!HashOrder} `{!LevelDB}.
Context (g : GlobalContext) (Hg : context_ok g) (reg : ClassRegistry (RowClass R)) (db : ldb) (tabs : list Z).
Context (Hclients : 0 < num_clients g < 2 ^ 31) (Hservers : num_servers g < 2 ^ 31) (Hresume : resume_clock g <= 0).
Context (Htabs : NoDup tabs) (Htabs_len : Z.of_nat (length tabs) = num_tables g) (Htabs_pos : 0 < num_tables g).
Implicit Types (c : NameNodeContext R).

(** The entry of a table that [cs] have asked for and [r] servers have answered. *)
Definition entry (cs : list Z) (r : Z) : CreateTableInfo :=
  if bool_decide (r = num_servers g) then mkCreateTableInfo (Z.of_nat (length cs)) r [] else mkCreateTableInfo 0 r cs.

Record nn_inv (evs : list nn_event) c (outs : list nn_out) : Prop := {
  ni_map : forall t, create_table_map c !! t
    = if bool_decide (creates t evs = []) then None else Some (entry (creates t evs) (replies t evs));
  ni_server : forall t, creates t evs = [] -> tables (nn_server_obj c) !! t = None;
  ni_replied : forall t, replied t outs = if bool_decide (replies t evs = num_servers g) then creates t evs else [];
  ni_asked : forall t, asked t outs = if bool_decide (creates t evs = []) then [] else server_ids g;
  ni_told : exists o, outs = o ++ (if bool_decide (nn_complete g tabs evs) then SendCreatedAllTablesMsg g else []) /\ told_all o = []
}.

Lemma SendToAllServers_spec msg : SendToAllServers g msg = Ret (msg <$> server_ids g).
Proof. unfold SendToAllServers. rewrite <- (ctx_server_ids g Hg). apply send_to_all. Qed.

Lemma reply_all_spec t bgs i : 0 <= num_clients_replied i -> num_clients_replied i + Z.of_nat (length bgs) < 2 ^ 31 ->
  reply_all t bgs i = (mkCreateTableInfo (num_clients_replied i + Z.of_nat (length bgs)) (num_servers_replied i) [],
                       (fun bg => OutTableCreated bg t) <$> bgs).
Proof.
  revert i. induction bgs as [|bg bgs IH]; intros i Hz Hb; cbn [reply_all length fmap list_fmap].
  - by rewrite Z.add_0_r.
  - cbn [length] in Hb. rewrite IH; cbn [num_clients_replied num_servers_replied]; rewrite i32_id by int_lia; [|lia..].
    f_equal. f_equal. lia.
Qed.

Lemma replied_app t o1 o2 : replied t (o1 ++ o2) = replied t o1 ++ replied t o2.
Proof. apply omap_app. Qed.
Lemma asked_app t o1 o2 : asked t (o1 ++ o2) = asked t o1 ++ asked t o2.
Proof. apply omap_app. Qed.
Lemma told_all_app o1 o2 : told_all (o1 ++ o2) = told_all o1 ++ told_all o2.
Proof. apply omap_app. Qed.

Lemma replied_created t t' bgs : replied t ((fun bg => OutTableCreated bg t') <$> bgs) = if bool_decide (t' = t) then bgs else [].
Proof. induction bgs as [|b bgs IH]; cbn; [by case_bool_decide|]. unfold replied in IH. rewrite IH. by case_bool_decide. Qed.
Lemma asked_created t t' i ss : asked t ((fun s => OutCreateTable s t' i) <$> ss) = if bool_decide (t' = t) then ss else [].
Proof. induction ss as [|b bgs IH]; cbn; [by case_bool_decide|]. unfold asked in IH. rewrite IH. by case_bool_decide. Qed.
Lemma omap_none {A} (f : A -> option Z) l : (forall x, x ∈ l -> f x = None) -> omap f l = [].
Proof.
  induction l as [|x l IH]; intros Hf; [done|]. cbn. rewrite Hf by (by left). apply IH. intros y Hy. apply Hf. by right.
Qed.

Ltac none_of_kind := apply omap_none; by intros o (x & -> & _)%list_elem_of_fmap.
Lemma replied_asks t t' i ss : replied t ((fun s => OutCreateTable s t' i) <$> ss) = [].
Proof. none_of_kind. Qed.
Lemma told_asks t' i ss : told_all ((fun s => OutCreateTable s t' i) <$> ss) = [].
Proof. none_of_kind. Qed.
Lemma asked_replies t t' bgs : asked t ((fun bg => OutTableCreated bg t') <$> bgs) = [].
Proof. none_of_kind. Qed.
Lemma told_replies t' bgs : told_all ((fun bg => OutTableCreated bg t') <$> bgs) = [].
Proof. none_of_kind. Qed.

(** [all_created_msg] *)
Lemma told_sent : told_all (SendCreatedAllTablesMsg g) = head_bg_ids g.
Proof.
  unfold SendCreatedAllTablesMsg, head_bg_ids. induction (seqZ 0 (num_clients g)) as [|x l IH]; [done|].
  cbn in *. by rewrite <- IH.
Qed.
Lemma replied_none t c : replied t (all_created_msg g c) = [].
Proof.
  unfold all_created_msg, SendCreatedAllTablesMsg. destruct (HaveCreatedAllTables g c); [|done].
  apply omap_none. by intros o (x & -> & _)%list_elem_of_fmap.
Qed.
Lemma asked_none t c : asked t (all_created_msg g c) = [].
Proof.
  unfold all_created_msg, SendCreatedAllTablesMsg. destruct (HaveCreatedAllTables g c); [|done].
  apply omap_none. by intros o (x & -> & _)%list_elem_of_fmap.
Qed.

Lemma HaveCreated_spec evs c : nn_history g tabs evs ->
  (forall t, create_table_map c !! t
     = if bool_decide (creates t evs = []) then None else Some (entry (creates t evs) (replies t evs))) ->
  HaveCreatedAllTables g c = bool_decide (nn_complete g tabs evs).
Proof.
  intros Hh Hmap. pose proof (ctx_servers g Hg) as Hs. pose proof (head_bg_ids_length g (proj1 Hclients)) as Hlen.
  assert (Hdom : dom (create_table_map c) ⊆ (list_to_set tabs : gset Z)).
  { intros t [i Hi]%elem_of_dom. rewrite Hmap in Hi. case_bool_decide; [done|]. apply elem_of_list_to_set.
    by apply (th_tabs g tabs t evs (nn_history_table g tabs evs t Hs Hh)). }
  assert (Hsize : size (list_to_set tabs : gset Z) = length tabs) by (by apply size_list_to_set).
  assert (Hall : forallb (fun e => RepliedToAllClients g e.2) (sorted_entries (create_table_map c)) = true
    <-> forall t i, create_table_map c !! t = Some i -> RepliedToAllClients g i = true).
  { rewrite forallb_forall. split.
    - intros Ha t i Hi. apply (Ha (t, i)), list_elem_of_In, sorted_entries_lookup, Hi.
    - intros Ha [t i] Hin%list_elem_of_In%sorted_entries_lookup. by apply (Ha t). }
  unfold HaveCreatedAllTables. rewrite <- size_dom. apply Bool.eq_iff_eq_true. rewrite bool_decide_eq_true. case_bool_decide as Hsz.
  - split; [done|]. intros Hc. exfalso. pose proof (subseteq_size (list_to_set tabs : gset Z) (dom (create_table_map c))) as Hsub.
    rewrite Hsize in Hsub. enough (length tabs <= size (dom (create_table_map c)))%nat by lia. apply Hsub.
    intros t Ht%elem_of_list_to_set. unfold nn_complete in Hc. rewrite Forall_forall in Hc. destruct (Hc t Ht) as [Hl _].
    apply elem_of_dom. rewrite Hmap, bool_decide_false; [by eexists|]. intros Hn. rewrite Hn in Hl. cbn in Hl. lia.
  - assert (Heq : dom (create_table_map c) = (list_to_set tabs : gset Z)).
    { apply set_subseteq_size_eq; [exact Hdom|]. rewrite Hsize. lia. }
    rewrite Hall. unfold nn_complete. rewrite Forall_forall. split.
    + intros Ha t Ht. assert (Hin : t ∈ dom (create_table_map c)) by (rewrite Heq; by apply elem_of_list_to_set).
      apply elem_of_dom in Hin as [i Hi]. specialize (Ha t i Hi). rewrite Hmap in Hi. case_bool_decide; [done|].
      injection Hi as <-. apply bool_decide_eq_true in Ha. unfold entry in Ha. case_bool_decide; cbn in Ha; [split; [lia|done]|lia].
    + intros Hc t i Hi. assert (Ht : t ∈ tabs).
      { apply (elem_of_list_to_set (C := gset Z)). rewrite <- Heq. apply elem_of_dom. by eexists. }
      destruct (Hc t Ht) as [Hl Hr]. rewrite Hmap in Hi. case_bool_decide; [done|]. injection Hi as <-.
      apply bool_decide_eq_true. unfold entry. rewrite Hr, bool_decide_true by done. cbn. lia.
Qed.

(** One event: the table it is about gets the entry of the longer history. *)
Lemma nn_inv_step evs ev c c' outs o : nn_history g tabs evs -> nn_allowed g tabs evs ev -> nn_inv evs c outs ->
  let evs' := evs ++ [ev] in let t := ev_table ev in
  create_table_map c' = <[t := entry (creates t evs') (replies t evs')]> (create_table_map c) ->
  (forall t', t' <> t -> tables (nn_server_obj c') !! t' = tables (nn_server_obj c) !! t') ->
  creates t evs' <> [] ->
  (forall t', t' <> t -> replied t' o = [] /\ asked t' o = []) ->
  replied t outs ++ replied t o = (if bool_decide (replies t evs' = num_servers g) then creates t evs' else []) ->
  asked t o = (if bool_decide (creates t evs = []) then server_ids g else []) ->
  (exists o1, o = o1 ++ (if bool_decide (replies t evs' = num_servers g) then all_created_msg g c' else []) /\ told_all o1 = []) ->
  nn_inv evs' c' (outs ++ o).
Proof.
  intros Hh Ha [Im Is Ir Ia It] evs' t Hmap Hserver Hne Hother Hrep Hask (o1 & Ho & Htold).
  assert (Hsame : forall t', t' <> t -> creates t' evs' = creates t' evs /\ replies t' evs' = replies t' evs).
  { intros t' Hne'. unfold evs', t in *. rewrite creates_snoc, replies_snoc. destruct ev as [s|s u i|s u]; cbn in *; [done|..].
    - rewrite bool_decide_false, app_nil_r by done. change (replies t' [NNCreateTable s u i]) with 0. split; [done|lia].
    - rewrite app_nil_r, replies_one, bool_decide_false by done. split; [done|lia]. }
  assert (Hh' : nn_history g tabs evs') by by constructor.
  assert (Hmap' : forall t', create_table_map c' !! t'
     = if bool_decide (creates t' evs' = []) then None else Some (entry (creates t' evs') (replies t' evs'))).
  { intros t'. rewrite Hmap. destruct (decide (t' = t)) as [->|Hne'].
    - by rewrite lookup_insert_eq, bool_decide_false.
    - destruct (Hsame t' Hne') as [-> ->]. by rewrite lookup_insert_ne. }
  constructor; [exact Hmap'|..].
  - intros t' Hnil. destruct (decide (t' = t)) as [->|Hne']; [done|]. destruct (Hsame t' Hne') as [E _]. rewrite E in Hnil.
    rewrite Hserver by done. by apply Is.
  - intros t'. rewrite replied_app. destruct (decide (t' = t)) as [->|Hne']; [done|].
    destruct (Hsame t' Hne') as [-> ->], (Hother t' Hne') as [-> _]. by rewrite app_nil_r.
  - intros t'. rewrite asked_app. destruct (decide (t' = t)) as [->|Hne'].
    + rewrite Ia, Hask, (bool_decide_false (creates t evs' = [])) by done.
      destruct (bool_decide (creates t evs = [])); rewrite ?app_nil_r; done.
    + destruct (Hsame t' Hne') as [-> _], (Hother t' Hne') as [_ ->]. by rewrite app_nil_r.
  - destruct It as (o0 & E0 & Ho0). rewrite bool_decide_false, app_nil_r in E0
      by by apply (nn_complete_last g tabs evs ev (ctx_servers g Hg) Hh Ha).
    exists (o0 ++ o1). rewrite told_all_app, Ho0, Htold, E0, Ho, <- app_assoc. split; [|done]. f_equal. f_equal.
    unfold all_created_msg. rewrite (HaveCreated_spec evs' c' Hh' Hmap').
    destruct (decide (replies t evs' = num_servers g)); [by rewrite (bool_decide_true (replies t evs' = num_servers g))|].
    rewrite (bool_decide_false (replies t evs' = num_servers g)), bool_decide_false; [done| |done]. unfold nn_complete. rewrite Forall_forall. intros Hc.
    destruct (Hc t (th_tabs g tabs t evs' (nn_history_table g tabs evs' t (ctx_servers g Hg) Hh') Hne)) as [_ Hr]. done.
Qed.

Lemma creates_bound evs t : nn_history g tabs evs -> Z.of_nat (length (creates t evs)) <= num_clients g.
Proof.
  intros Hh. rewrite <- (head_bg_ids_length g (proj1 Hclients)). destruct (nn_history_table g tabs evs t (ctx_servers g Hg) Hh) as [Hnd Hsub _ _ _].
  pose proof (submseteq_length _ _ (NoDup_submseteq _ _ Hnd Hsub)). lia.
Qed.

(** A request for a table. *)
Lemma create_step evs c outs s t i : nn_history g tabs evs -> nn_allowed g tabs evs (NNCreateTable s t i) -> nn_inv evs c outs ->
  exists c' o, NN_HandleCreateTable g reg db s t i c = Ret (c', o) /\ nn_inv (evs ++ [NNCreateTable s t i]) c' (outs ++ o).
Proof.
  intros Hh Ha Hi. pose proof (fun c' o => nn_inv_step evs _ c c' outs o Hh Ha Hi) as Hstep. cbn [ev_table] in Hstep.
  assert (Ec : creates t (evs ++ [NNCreateTable s t i]) = creates t evs ++ [s]).
  { rewrite creates_snoc. cbn. by rewrite bool_decide_true. }
  assert (Er : replies t (evs ++ [NNCreateTable s t i]) = replies t evs).
  { rewrite replies_snoc. change (replies t [NNCreateTable s t i]) with 0. lia. }
  rewrite Ec, Er in Hstep. pose proof (creates_bound _ t (nn_next g tabs evs _ Hh Ha)) as Hb. rewrite Ec, length_app in Hb. cbn in Hb.
  pose proof (nn_history_table g tabs evs t (ctx_servers g Hg) Hh) as [_ _ _ Hr Hz]. pose proof (ctx_servers g Hg) as Hs.
  pose proof (ni_map _ _ _ Hi t) as Em. unfold NN_HandleCreateTable. rewrite Em.
  destruct (decide (creates t evs = [])) as [En|En].
  - rewrite bool_decide_true by done. unfold CreateTable. rewrite (ni_server _ _ _ Hi t En), bool_decide_false by lia.
    cbn [mbind outcome_bind]. rewrite SendToAllServers_spec. cbn [mbind outcome_bind].
    unfold table_entry, set_entry, ReceivedFromAllServers. cbn. rewrite lookup_insert_eq. cbn.
    rewrite (Hz En) in *. rewrite bool_decide_false by lia. eexists _, _. split; [done|].
    apply Hstep; cbn; rewrite ?En, ?replied_asks, ?asked_created.
    + rewrite insert_insert_eq. f_equal. unfold entry. by rewrite bool_decide_false by lia.
    + intros t' Hne. by rewrite lookup_insert_ne.
    + done.
    + intros t' Hne. by rewrite replied_asks, asked_created, bool_decide_false.
    + by rewrite (ni_replied _ _ _ Hi), (Hz En), !bool_decide_false by lia.
    + by rewrite !bool_decide_true.
    + eexists. rewrite bool_decide_false, app_nil_r by lia. split; [done|]. apply told_asks.
  - rewrite bool_decide_false by done. cbn [mbind outcome_bind]. unfold table_entry. rewrite Em, bool_decide_false by done.
    cbn [default from_option id]. unfold ReceivedFromAllServers, entry.
    assert (Hne : creates t evs ++ [s] <> []) by by intros []%app_eq_nil.
    destruct (decide (replies t evs = num_servers g)) as [Es|Es].
    + rewrite Es, (bool_decide_true (num_servers g = num_servers g)) by done. cbn. rewrite bool_decide_true by done.
      eexists _, _. split; [done|]. change (OutTableCreated s t :: ?o) with (((fun bg => OutTableCreated bg t) <$> [s]) ++ o).
      apply Hstep; cbn [create_table_map set_entry with_create_table_map nn_server_obj];
        rewrite ?Es, ?bool_decide_true, ?replied_app, ?asked_app, ?replied_none, ?asked_none,
          ?replied_created, ?asked_replies, ?app_nil_r by done.
      * f_equal. unfold entry. rewrite bool_decide_true by done. f_equal. rewrite length_app, i32_id by int_lia. cbn. lia.
      * done.
      * done.
      * intros t' Hne'. by rewrite ?replied_app, ?asked_app, replied_none, asked_none, asked_replies, replied_created, bool_decide_false.
      * by rewrite (ni_replied _ _ _ Hi), Es, !bool_decide_true.
      * by rewrite bool_decide_false.
      * eexists. split; [done|]. apply told_replies.
    + rewrite (bool_decide_false (replies t evs = num_servers g)) by done. cbn. rewrite bool_decide_false by done.
      eexists _, _. split; [done|]. apply Hstep; cbn; rewrite ?app_nil_r.
      * f_equal. unfold entry. by rewrite bool_decide_false.
      * done.
      * done.
      * done.
      * by rewrite (ni_replied _ _ _ Hi), !bool_decide_false.
      * by rewrite bool_decide_false.
      * eexists. by rewrite bool_decide_false, app_nil_r by done.
Qed.

(** An answer of a server. *)
Lemma reply_step evs c outs s t : nn_history g tabs evs -> nn_allowed g tabs evs (NNCreateTableReply s t) -> nn_inv evs c outs ->
  let '(c', o) := NN_HandleCreateTableReply g t c in nn_inv (evs ++ [NNCreateTableReply s t]) c' (outs ++ o).
Proof.
  intros Hh Ha Hi. pose proof (fun c' o => nn_inv_step evs _ c c' outs o Hh Ha Hi) as Hstep. cbn [ev_table] in Hstep.
  assert (Ec : creates t (evs ++ [NNCreateTableReply s t]) = creates t evs).
  { rewrite creates_snoc. cbn. by rewrite app_nil_r. }
  assert (Er : replies t (evs ++ [NNCreateTableReply s t]) = replies t evs + 1).
  { by rewrite replies_snoc, replies_one, bool_decide_true. }
  rewrite Ec, Er in Hstep. pose proof (creates_bound _ t Hh) as Hb. destruct Ha as [Hne Hlt].
  pose proof (th_replies _ _ _ _ (nn_history_table g tabs evs t (ctx_servers g Hg) Hh)) as Hr.
  unfold NN_HandleCreateTableReply, table_entry. rewrite (ni_map _ _ _ Hi t), bool_decide_false by done.
  cbn [default from_option id]. unfold entry, ReceivedFromAllServers.
  rewrite (bool_decide_false (replies t evs = num_servers g)) by lia.
  cbn [num_clients_replied num_servers_replied bgs_to_reply]. rewrite i32_id by int_lia. case_bool_decide as Es.
  - rewrite reply_all_spec by (cbn; lia). cbn [num_clients_replied num_servers_replied].
    apply Hstep; cbn [create_table_map set_entry with_create_table_map nn_server_obj];
      rewrite ?Es, ?bool_decide_true, ?replied_app, ?asked_app, ?replied_none, ?asked_none,
        ?replied_created, ?asked_replies, ?app_nil_r by done.
    + f_equal. unfold entry. by rewrite bool_decide_true.
    + done.
    + done.
    + intros t' Hne'. by rewrite ?replied_app, ?asked_app, replied_none, asked_none, asked_replies, replied_created, bool_decide_false.
    + by rewrite (ni_replied _ _ _ Hi), bool_decide_false, bool_decide_true by (done || lia).
    + by rewrite bool_decide_false.
    + eexists. split; [done|]. apply told_replies.
  - apply Hstep; cbn; rewrite ?app_nil_r.
    + f_equal. unfold entry. by rewrite bool_decide_false.
    + done.
    + done.
    + done.
    + by rewrite (ni_replied _ _ _ Hi), !bool_decide_false by (done || lia).
    + by rewrite bool_decide_false.
    + by exists [].
Qed.

Lemma ni_told_all evs c outs : nn_inv evs c outs -> told_all outs = if bool_decide (nn_complete g tabs evs) then head_bg_ids g else [].
Proof.
  intros [_ _ _ _ (o & -> & Ho)]. rewrite told_all_app, Ho. case_bool_decide; [apply told_sent|done].
Qed.

Definition not_shutdown (ev : nn_event) : Prop := match ev with NNShutDown _ => False | _ => True end.

Lemma nn_history_not_shutdown evs : nn_history g tabs evs -> Forall not_shutdown evs.
Proof.
  induction 1 as [|evs ev Hh IH Ha]; [done|]. apply Forall_app. split; [done|]. apply Forall_singleton. by destruct ev.
Qed.

Lemma nn_run_snoc c evs ev c1 o1 : nn_run g reg db c evs = Ret (c1, o1) -> Forall not_shutdown evs ->
  nn_run g reg db c (evs ++ [ev]) = '(fin, c2, o2) ← nn_step g reg db c1 ev; Ret (c2, o1 ++ o2).
Proof.
  intros E Hev. revert c c1 o1 E. induction Hev as [|e evs He Hev IH]; intros c c1 o1 E.
  - injection E as <- <-. cbn. destruct (nn_step g reg db c ev) as [[[fin c2] o2]| |]; cbn; [|done..].
    destruct fin; cbn; by rewrite ?app_nil_r.
  - cbn in E |- *. apply bind_Ret_inv in E as ([[fin c2] o2] & E1 & E). rewrite E1. cbn [mbind outcome_bind].
    assert (fin = false) as ->.
    { destruct e as [s|s t i|s t]; cbn in E1, He; [done|..].
      - apply bind_Ret_inv in E1 as ([? ?] & _ & [= <- _ _]). done.
      - destruct (NN_HandleCreateTableReply g t c). by injection E1 as <- _ _. }
    apply bind_Ret_inv in E as ([c3 o3] & E2 & [= <- <-]). rewrite (IH _ _ _ E2).
    destruct (nn_step g reg db c3 ev) as [[[fin c4] o4]| |]; cbn; by rewrite ?app_assoc.
Qed.

Lemma nn_inv_start c : create_table_map c = ∅ -> tables (nn_server_obj c) = ∅ -> nn_inv [] c [].
Proof.
  intros Em Et. pose proof (ctx_servers g Hg) as Hs.
  constructor; [intros t; by rewrite Em|intros t _; by rewrite Et| |done|].
  { intros t. change (replies t []) with 0. by rewrite bool_decide_false by lia. }
  exists []. rewrite bool_decide_false; [done|]. unfold nn_complete. rewrite Forall_forall. intros Hc. destruct tabs as [|t ts]; [cbn in *; lia|].
  destruct (Hc t) as [_ Hr]; [by left|]. change (replies t []) with 0 in Hr. lia.
Qed.

(** A message the clients and servers may send is handled without failure. *)
Lemma nn_step_inv evs ev c outs : nn_history g tabs evs -> nn_allowed g tabs evs ev -> nn_inv evs c outs ->
  exists c' o, nn_step g reg db c ev = Ret (false, c', o) /\ nn_inv (evs ++ [ev]) c' (outs ++ o).
Proof.
  intros Hh Ha Hi. destruct ev as [s|s t i|s t]; [done|..]; cbn [nn_step].
  - destruct (create_step evs c outs s t i Hh Ha Hi) as (c' & o & -> & Hi'). cbn. by eexists _, _.
  - pose proof (reply_step evs c outs s t Hh Ha Hi) as Hi'. destruct (NN_HandleCreateTableReply g t c) as [c' o]. by eexists _, _.
Qed.

Lemma nn_run_inv evs c0 : create_table_map c0 = ∅ -> tables (nn_server_obj c0) = ∅ -> nn_history g tabs evs ->
  exists c outs, nn_run g reg db c0 evs = Ret (c, outs) /\ nn_inv evs c outs.
Proof.
  intros Em Et. induction 1 as [|evs ev Hh (c & outs & E & Hi) Ha].
  - exists c0, []. split; [done|]. by apply nn_inv_start.
  - destruct (nn_step_inv evs ev c outs Hh Ha Hi) as (c' & o & E' & Hi').
    rewrite (nn_run_snoc _ _ _ _ _ E) by by apply nn_history_not_shutdown. rewrite E'. cbn. by eexists _, _.
Qed.
End NAME_NODE_PROPS.

(** What [InitNameNode] leaves: no table, neither at the name node nor in its server object. *)
Section INIT.
Context {R V : Type} `{!Num V} `{!AbstractRow R V} `{!HashOrder} `{!LevelDB}.
Implicit Types (c : NameNodeContext R).

Lemma nn_connections_empty n conns c n' c' : nn_connections n conns c = Ret (n', c') ->
  create_table_map c' = create_table_map c /\ tables (nn_server_obj c') = tables (nn_server_obj c).
Proof.
  revert n c. induction conns as [|[msg sender] conns IH]; intros n c E; cbn in E; [by injection E as <- <-|].
  apply bind_Ret_inv in E as ([client|] & _ & E); [|by apply (IH n)].
  apply bind_Ret_inv in E as (ids & _ & E). by apply IH in E.
Qed.

Lemma init_clients_tables l (s : Server R) : tables (foldl (fun s '(client, bgs) => init_client s client bgs) s l) = tables s.
Proof. revert s. induction l as [|[client bgs] l IH]; intros s; [done|]. cbn. by rewrite IH. Qed.

Lemma InitNameNode_empty g conns (c : NameNodeContext R) outs : InitNameNode g conns (SetUpNameNodeContext g) = Ret (c, outs) ->
  create_table_map c = ∅ /\ tables (nn_server_obj c) = ∅.
Proof.
  intros E. unfold InitNameNode in E. apply bind_Ret_inv in E as ([n c1] & E1 & E).
  apply nn_connections_empty in E1 as [Em Et].
  apply bind_Ret_inv in E as (? & _ & E). apply bind_Ret_inv in E as (o1 & _ & E). apply bind_Ret_inv in E as (o2 & _ & E).
  injection E as <- _. split; [done|]. cbn. rewrite init_clients_tables. done.
Qed.
End INIT.

(** C8: starting from the set-up, after any history in which the head
    background thread of every client asks for each of [num_tables] tables at
    most once and every server answers each request it got at most once, the
    name node has not failed a check; each server was asked to create each
    table exactly once, as soon as the first client wanted it; a client that
    asked for a table was answered exactly once, and only when all servers
    have created it; and the head background threads of all clients have been
    told once that all tables exist if every client asked for every table and
    every server answered, and not before. *)
Theorem tables_created_once {R V : Type} `{!Num V} `{!AbstractRow R V} `{!HashOrder} `{!LevelDB}
    g (reg : ClassRegistry (RowClass R)) (db : ldb) tabs evs :
  context_ok g -> 0 < num_clients g < 2 ^ 31 -> num_servers g < 2 ^ 31 -> resume_clock g <= 0 ->
  NoDup tabs -> Z.of_nat (length tabs) = num_tables g -> 0 < num_tables g -> nn_history g tabs evs ->
  forall conns c0 outs0, InitNameNode g conns (SetUpNameNodeContext g) = Ret (c0, outs0) ->
  exists c outs, nn_run g reg db c0 evs = Ret (c, outs) /\
    (forall t, asked t outs = if bool_decide (creates t evs = []) then [] else server_ids g) /\
    (forall t, replied t outs = if bool_decide (replies t evs = num_servers g) then creates t evs else []) /\
    told_all outs = if bool_decide (nn_complete g tabs evs) then head_bg_ids g else [].
Proof.
  intros Hg Hc Hs Hr Hnd Hl Hpos Hh conns c0 outs0 E. destruct (InitNameNode_empty _ _ _ _ E) as [Em Et].
  destruct (nn_run_inv g Hg reg db tabs Hc Hs Hr Hnd Hl Hpos evs c0 Em Et Hh) as (c & outs & Erun & Hi).
  exists c, outs. split_and!; [done|apply Hi..|by apply ni_told_all with (c := c)].
Qed.

(** *** Witness: two clients, two servers and one table *)
Definition nn_conns : list (connect_msg * Z) :=
  [(ServerConnect, 1); (ClientConnect 0, 100); (ClientConnect 0, 101); (ClientConnect 1, 1100); (ClientConnect 0, 102);
   (ServerConnect, 1000); (ClientConnect 1, 1101); (ClientConnect 1, 1102)].
Definition nn_events : list nn_event :=
  [NNCreateTable 100 5 (mkTableInfo 1 0 3); NNCreateTableReply 1 5; NNCreateTableReply 1000 5; NNCreateTable 1100 5 (mkTableInfo 1 0 3)].

Lemma nn_events_history : nn_history demo_context [5] nn_events.
Proof.
  change nn_events with
    (((([] ++ [NNCreateTable 100 5 (mkTableInfo 1 0 3)]) ++ [NNCreateTableReply 1 5]) ++ [NNCreateTableReply 1000 5])
      ++ [NNCreateTable 1100 5 (mkTableInfo 1 0 3)]).
  repeat apply nn_next; [apply nn_none|..]; apply (bool_decide_unpack _); by vm_compute.
Qed.

Lemma tables_created_once_witness :
  exists conns c0 outs0 c outs, InitNameNode demo_context conns (SetUpNameNodeContext demo_context) = Ret (c0, outs0) /\
    nn_run demo_context demo_reg (∅ : ldb) c0 nn_events = Ret (c, outs) /\ told_all outs = [100; 1100].
Proof.
  destruct (InitNameNode demo_context nn_conns (SetUpNameNodeContext demo_context) (R := DenseRow int32)) as [[c0 outs0]| |] eqn:E0;
    [|by vm_compute in E0..].
  destruct (tables_created_once demo_context demo_reg (∅ : ldb) [5] nn_events demo_context_ok) with
    (conns := nn_conns) (c0 := c0) (outs0 := outs0) as (c & outs & Er & _ & _ & Et);
    [done..|repeat constructor; by intros ?%elem_of_nil|done|done|apply nn_events_history|exact E0|].
  exists nn_conns, c0, outs0, c, outs. split_and!; [exact E0|exact Er|]. rewrite Et. by vm_compute.
Defined.
