(* ===== verification/StartUp.v ===== *)
(** * Start-up of the system

    What a background thread does before its main loop ([BgServerHandshake]
    and, in the head thread of a client, [HandleCreateTables] of
    [petuum_ps/thread/bg_workers.cpp]) and what the application thread that
    creates the tables does ([CreateTable] there), composed with the name node
    and the servers: the creation of the tables as a system of threads that
    exchange messages. *)
From stdpp Require Import functions strings.
From S2P Require Import Prelude Bytes Num DenseRow VectorClock Context SparseRow OpLog ServerRow ClockLRU ProcessStorage Snapshot Server ServerThreads ThreadTable OpLogMgr BgWorkers Consistency TableGroup NameNode.
Open Scope Z_scope.

(** Messages that reach a background or an application thread before the main loop. *)
Inductive bus_msg :=
  | MConnectServer
  | MClientStart
  | MBgCreateTable (table_id : Z) (config : ClientTableConfig)
  | MCreateTableReply (table_id : Z)
  | MCreatedAllTables
  | MAppConnect.

(** What the head background thread sends while it creates tables. *)
Inductive create_out :=
  | OutNNCreateTable (table_id : Z) (info : TableInfo)
  | OutAppTableCreated (app_id table_id : Z).

(** Where [HandleCreateTables] waits. *)
Inductive create_phase :=
  | AwaitRequest (num_created_tables : Z)
  | AwaitReply (num_created_tables table_id : Z) (config : ClientTableConfig) (app_id : Z)
  | AwaitAll
  | TablesDone.

#[export] Instance TableInfo_eq_dec : EqDecision TableInfo.
Proof. solve_decision. Defined.
#[export] Instance ClientTableConfig_eq_dec : EqDecision ClientTableConfig.
Proof. solve_decision. Defined.
#[export] Instance create_phase_eq_dec : EqDecision create_phase.
Proof. solve_decision. Defined.

Section START_UP.
Context {R V : Type} `{NumOk V} `{!AbstractRow R V} `{!HashOrder}.
Context (g : GlobalContext).

(** *** The handshake with the name node and the servers *)

Fixpoint recv_client_starts (n : nat) (msgs : list (bus_msg * Z)) : outcome (list (bus_msg * Z)) :=
  match n with
  | O => Ret msgs
  | S n' =>
      match msgs with
      | [] => Undef
      | (MClientStart, _) :: msgs' => recv_client_starts n' msgs'
      | _ => CheckFail
      end
  end.

(** [msgs] are the messages in the order they are read, with their senders;
    [Undef] if the thread waits for more.  The result is whom the thread
    connected to, and the messages left. *)
Definition BgServerHandshake (msgs : list (bus_msg * Z)) : outcome (list Z * list (bus_msg * Z)) :=
  '(m, sender_id) ← deref (head msgs);
  _ ← CHECK (bool_decide (sender_id = get_name_node_id));
  _ ← CHECK (match m with MConnectServer => true | _ => false end);
  _ ← CHECK (bool_decide (num_servers g = Z.of_nat (length (server_ids g))));
  servers ← foldM (fun l i => server_id ← vec_at (server_ids g) i; Ret (l ++ [server_id]))
              (seqZ 0 (num_servers g)) [];
  rest ← recv_client_starts (Z.to_nat (num_servers g + 1)) (tail msgs);
  Ret (get_name_node_id :: servers, rest).

(** The clocks of the background threads that [Init] sets up. *)
Definition Init_bg_server_clock : VectorClock :=
  foldl (fun vc i => AddClock (i32 (get_head_bg_id (client_id g) + i)) 0 vc) VectorClock_default (seqZ 0 (num_bg_threads g)).

(** The initial application thread connects. *)
Definition RecvAppInitThreadConnection {M} (m : bus_msg) (s : BgState R V M) : outcome (BgState R V M) :=
  _ ← CHECK (match m with MAppConnect => true | _ => false end);
  let n := i32 (num_connected_app_threads s + 1) in
  _ ← CHECK (bool_decide (n <= num_app_threads g));
  Ret (with_counts n (num_deregistered_app_threads s) (num_shutdown_acked_servers s) s).

(** *** The creation of the tables *)

(** The test of the loop of [HandleCreateTables]. *)
Definition create_loop (num_created_tables : Z) : create_phase :=
  if bool_decide (num_created_tables < num_tables g) then AwaitRequest num_created_tables else AwaitAll.

(** One message that [HandleCreateTables] reads. *)
Definition HandleCreateTables (phase : create_phase) (ts : gmap Z (ClientTable R V)) (sender_id : Z) (m : bus_msg)
    : outcome (create_phase * gmap Z (ClientTable R V) * list create_out) :=
  match phase with
  | AwaitRequest n =>
      match m with
      | MBgCreateTable table_id config =>
          Ret (AwaitReply n table_id config sender_id, ts, [OutNNCreateTable table_id (tc_table_info config)])
      | _ => CheckFail
      end
  | AwaitReply n table_id config app_id =>
      match m with
      | MCreateTableReply replied_id =>
          _ ← CHECK (bool_decide (replied_id = table_id));
          t ← ClientTable_new g config;
          Ret (create_loop (n + 1), <[table_id := t]> ts, [OutAppTableCreated app_id replied_id])
      | _ => CheckFail
      end
  | AwaitAll => match m with MCreatedAllTables => Ret (TablesDone, ts, []) | _ => CheckFail end
  | TablesDone => Undef
  end.

(** [BgWorkers::CreateTable]: the message sent and the answer awaited. *)
Definition BgWorkers_CreateTable_msg (table_id : Z) (config : ClientTableConfig) : bus_msg := MBgCreateTable table_id config.
Definition BgWorkers_CreateTable_wait (m : bus_msg) : outcome bool :=
  _ ← CHECK (match m with MCreateTableReply _ => true | _ => false end); Ret true.

(** ** The system

    The application thread of a client asks for the tables of [cl_todo] one
    after the other; [from_app], [from_nn] and [to_app] hold the messages on
    their way to the head thread and back. *)
Record Client := mkClient {
  cl_todo : list (Z * ClientTableConfig);
  cl_waiting : bool;
  to_app : list bus_msg;
  cl_phase : create_phase;
  cl_tables : gmap Z (ClientTable R V);
  from_app : list bus_msg;
  from_nn : list bus_msg
}.

(** Clients go by the id of their head thread. *)
Record System := mkSystem {
  sy_nn : NameNodeContext R;
  nn_mail : list nn_event;
  sy_clients : Z -> Client;
  sy_servers : Z -> Server R;
  server_mail : Z -> list (Z * TableInfo)
}.

Definition with_client (h : Z) (c : Client) (sy : System) : System :=
  mkSystem (sy_nn sy) (nn_mail sy) (<[h := c]> (sy_clients sy)) (sy_servers sy) (server_mail sy).
Definition with_nn_mail (mail : list nn_event) (sy : System) : System :=
  mkSystem (sy_nn sy) mail (sy_clients sy) (sy_servers sy) (server_mail sy).

Definition mail_client (bg_id : Z) (m : bus_msg) (sy : System) : System :=
  let c := sy_clients sy bg_id in
  with_client bg_id (mkClient (cl_todo c) (cl_waiting c) (to_app c) (cl_phase c) (cl_tables c) (from_app c) (from_nn c ++ [m])) sy.

(** What the name node sends arrives; what it sends before and after the
    creation of the tables plays no part here. *)
Definition deliver_nn (sy : System) (o : nn_out) : System :=
  match o with
  | OutCreateTable server_id table_id info =>
      mkSystem (sy_nn sy) (nn_mail sy) (sy_clients sy) (sy_servers sy)
        (<[server_id := server_mail sy server_id ++ [(table_id, info)]]> (server_mail sy))
  | OutTableCreated bg_id table_id => mail_client bg_id (MCreateTableReply table_id) sy
  | OutCreatedAllTables bg_id => mail_client bg_id MCreatedAllTables sy
  | OutConnectServer _ | OutNNClientStart _ | OutNNShutDownAck _ => sy
  end.

(** What the head thread [h] sends arrives. *)
Definition deliver_head (h : Z) (sy : System) (o : create_out) : System :=
  match o with
  | OutNNCreateTable table_id info => with_nn_mail (nn_mail sy ++ [NNCreateTable h table_id info]) sy
  | OutAppTableCreated _ table_id =>
      let c := sy_clients sy h in
      with_client h (mkClient (cl_todo c) (cl_waiting c) (to_app c ++ [MCreateTableReply table_id]) (cl_phase c) (cl_tables c)
                       (from_app c) (from_nn c)) sy
  end.

(** The head thread [h] reads [m]; [c] is its client with [m] taken out. *)
Definition head_reads (h sender : Z) (m : bus_msg) (c : Client) (sy : System) : outcome System :=
  '(phase, ts, outs) ← HandleCreateTables (cl_phase c) (cl_tables c) sender m;
  Ret (foldl (deliver_head h)
         (with_client h (mkClient (cl_todo c) (cl_waiting c) (to_app c) phase ts (from_app c) (from_nn c)) sy) outs).

Section STEPS.
Context `{!LevelDB} (reg : ClassRegistry (RowClass R)) (db : ldb) (init_thread : Z -> Z).

(** One step of a thread, and what becomes of it.  The name node takes the
    messages of its senders in any order, a head thread those of the
    application and the name node. *)
Inductive sys_step (sy : System) : outcome System -> Prop :=
  | step_app_send h c table_id config todo :
      h ∈ head_bg_ids g -> c = sy_clients sy h -> cl_waiting c = false -> cl_todo c = (table_id, config) :: todo ->
      sys_step sy (Ret (with_client h
        (mkClient todo true (to_app c) (cl_phase c) (cl_tables c)
           (from_app c ++ [BgWorkers_CreateTable_msg table_id config]) (from_nn c)) sy))
  | step_app_recv h c m ms :
      h ∈ head_bg_ids g -> c = sy_clients sy h -> cl_waiting c = true -> to_app c = m :: ms ->
      sys_step sy (_ ← BgWorkers_CreateTable_wait m;
        Ret (with_client h (mkClient (cl_todo c) false ms (cl_phase c) (cl_tables c) (from_app c) (from_nn c)) sy))
  | step_head_app h c m ms :
      h ∈ head_bg_ids g -> c = sy_clients sy h -> cl_phase c <> TablesDone -> from_app c = m :: ms ->
      sys_step sy (head_reads h (init_thread h) m
        (mkClient (cl_todo c) (cl_waiting c) (to_app c) (cl_phase c) (cl_tables c) ms (from_nn c)) sy)
  | step_head_nn h c m ms :
      h ∈ head_bg_ids g -> c = sy_clients sy h -> cl_phase c <> TablesDone -> from_nn c = m :: ms ->
      sys_step sy (head_reads h get_name_node_id m
        (mkClient (cl_todo c) (cl_waiting c) (to_app c) (cl_phase c) (cl_tables c) (from_app c) ms) sy)
  | step_nn l1 ev l2 :
      nn_mail sy = l1 ++ ev :: l2 ->
      sys_step sy ('(_, c, outs) ← nn_step g reg db (sy_nn sy) ev;
        Ret (foldl deliver_nn (mkSystem c (l1 ++ l2) (sy_clients sy) (sy_servers sy) (server_mail sy)) outs))
  | step_server server_id table_id info mail :
      server_id ∈ server_ids g -> server_mail sy server_id = (table_id, info) :: mail ->
      sys_step sy ('(s, outs) ← HandleCreateTable g reg get_name_node_id table_id info db (sy_servers sy server_id);
        Ret (mkSystem (sy_nn sy)
               (nn_mail sy ++ omap (fun o => match o with
                  | OutCreateTableReply _ t => Some (NNCreateTableReply server_id t) | _ => None end) outs)
               (sy_clients sy) (<[server_id := s]> (sy_servers sy)) (<[server_id := mail]> (server_mail sy)))).

(** The tables each client creates, and the servers, when all have connected. *)
Context (plan : Z -> list (Z * ClientTableConfig)) (servers : Z -> Server R) (nn : NameNodeContext R).

Definition sys_start : System :=
  mkSystem nn [] (fun h => mkClient (plan h) false [] (create_loop 0) ∅ [] []) servers (fun _ => []).

Inductive sys_reach : System -> Prop :=
  | sys_reach_start : sys_reach sys_start
  | sys_reach_step sy sy' : sys_reach sy -> sys_step sy (Ret sy') -> sys_reach sy'.

(** All tables exist everywhere and everybody knows. *)
Definition sys_finished (tabs : list Z) (sy : System) : Prop :=
  nn_mail sy = [] /\
  (forall h, h ∈ head_bg_ids g -> cl_phase (sy_clients sy h) = TablesDone /\ cl_todo (sy_clients sy h) = [] /\
     cl_waiting (sy_clients sy h) = false /\ dom (cl_tables (sy_clients sy h)) = (list_to_set tabs : gset Z)) /\
  forall s t, s ∈ server_ids g -> t ∈ tabs -> is_Some (tables (sy_servers sy s) !! t).
End STEPS.
End START_UP.
