(* ===== verification/StartUpProps.v ===== *)
(** * The start-up is safe and cannot get stuck

    The threads that create the tables never fail a check of a message they
    read, in any interleaving, and as long as not all tables exist on all
    servers and in all clients some thread can take a step. *)
From stdpp Require Import functions strings.
From S2P Require Import Prelude Bytes Num DenseRow VectorClock Context SparseRow OpLog ServerRow ClockLRU ProcessStorage Snapshot Server ServerThreads ThreadTable OpLogMgr BgWorkers Consistency TableGroup NameNode StartUp.
Open Scope Z_scope.

(** ** What was sent to whom *)

Definition answers (table_id : Z) (evs : list nn_event) : list Z :=
  omap (fun ev => match ev with
                  | NNCreateTableReply s t => if bool_decide (t = table_id) then Some s else None
                  | _ => None end) evs.
Definition stream (h : Z) (outs : list nn_out) : list bus_msg :=
  omap (fun o => match o with
                 | OutTableCreated bg t => if bool_decide (bg = h) then Some (MCreateTableReply t) else None
                 | OutCreatedAllTables bg => if bool_decide (bg = h) then Some MCreatedAllTables else None
                 | _ => None end) outs.
Definition requests (s : Z) (outs : list nn_out) : list (Z * TableInfo) :=
  omap (fun o => match o with
                 | OutCreateTable server t i => if bool_decide (server = s) then Some (t, i) else None
                 | _ => None end) outs.

Lemma answers_app t e1 e2 : answers t (e1 ++ e2) = answers t e1 ++ answers t e2.
Proof. apply omap_app. Qed.
Lemma creates_app t e1 e2 : creates t (e1 ++ e2) = creates t e1 ++ creates t e2.
Proof. apply omap_app. Qed.
Lemma stream_app h o1 o2 : stream h (o1 ++ o2) = stream h o1 ++ stream h o2.
Proof. apply omap_app. Qed.
Lemma requests_app s o1 o2 : requests s (o1 ++ o2) = requests s o1 ++ requests s o2.
Proof. apply omap_app. Qed.

(** Handling a message only moves it from the mail to the history. *)
Lemma handled_perm {A} (evs l1 l2 : list A) ev : (evs ++ [ev]) ++ l1 ++ l2 ≡ₚ evs ++ l1 ++ ev :: l2.
Proof. rewrite <- app_assoc. apply Permutation_app_head. cbn. apply Permutation_middle. Qed.

Lemma replies_answers t evs : replies t evs = Z.of_nat (length (answers t evs)).
Proof.
  unfold replies. f_equal. induction evs as [|ev evs IH]; [done|]. rewrite filter_cons. destruct ev as [s|s t' i|s t']; cbn in *;
    [rewrite decide_False by done; exact IH..|].
  case_bool_decide; [rewrite decide_True by congruence; cbn; by f_equal|rewrite decide_False by congruence; exact IH].
Qed.

Lemma stream_replied h t outs : MCreateTableReply t ∈ stream h outs <-> h ∈ replied t outs.
Proof.
  unfold stream, replied. rewrite !list_elem_of_omap. split.
  - intros (o & Ho & E). exists o. split; [done|]. destruct o; try done; case_bool_decide; try done. injection E as ->. subst. by rewrite bool_decide_true.
  - intros (o & Ho & E). exists o. split; [done|]. destruct o; try done; case_bool_decide; try done. injection E as ->. subst. by rewrite bool_decide_true.
Qed.
Lemma stream_told h outs : MCreatedAllTables ∈ stream h outs <-> h ∈ told_all outs.
Proof.
  unfold stream, told_all. rewrite !list_elem_of_omap. split.
  - intros (o & Ho & E). exists o. split; [done|]. destruct o; try done; case_bool_decide; try done. by subst.
  - intros (o & Ho & E). exists o. split; [done|]. destruct o; try done. injection E as ->. by rewrite bool_decide_true.
Qed.
Lemma requests_asked s t outs : t ∈ (requests s outs).*1 <-> s ∈ asked t outs.
Proof.
  unfold requests, asked. rewrite list_elem_of_fmap. setoid_rewrite list_elem_of_omap. split.
  - intros ([t' i] & -> & o & Ho & E). exists o. split; [done|]. destruct o; try done; case_bool_decide; try done. injection E as -> ->. subst. cbn. by rewrite bool_decide_true.
  - intros (o & Ho & E). destruct o as [| |s' t' i| | |]; try done. case_bool_decide; [|done]. injection E as ->. subst.
    exists (t, i). split; [done|]. eexists. split; [done|]. cbn. by rewrite bool_decide_true.
Qed.

Lemma stream_NoDup h outs : (forall t, NoDup (replied t outs)) -> NoDup (told_all outs) -> NoDup (stream h outs).
Proof.
  induction outs as [|o outs IH]; intros Hr Ht; [apply NoDup_nil_2|].
  assert (Hr' : forall t, NoDup (replied t outs)).
  { intros t. specialize (Hr t). change (replied t (o :: outs)) with (replied t ([o] ++ outs)) in Hr. rewrite replied_app in Hr. by apply NoDup_app in Hr as (_ & _ & ?). }
  assert (Ht' : NoDup (told_all outs)).
  { change (told_all (o :: outs)) with (told_all ([o] ++ outs)) in Ht. rewrite told_all_app in Ht. by apply NoDup_app in Ht as (_ & _ & ?). }
  specialize (IH Hr' Ht'). destruct o as [| | |bg t|bg|]; try done; cbn; case_bool_decide; try done; subst; apply NoDup_cons; split; try done.
  - intros Hin. apply (stream_replied h t outs) in Hin. specialize (Hr t). cbn in Hr. rewrite bool_decide_true in Hr by done. by apply NoDup_cons in Hr as [? _].
  - intros Hin. apply (stream_told h outs) in Hin. cbn in Ht. by apply NoDup_cons in Ht as [? _].
Qed.

Lemma requests_NoDup s outs : (forall t, NoDup (asked t outs)) -> NoDup (requests s outs).*1.
Proof.
  induction outs as [|o outs IH]; intros Ha; [apply NoDup_nil_2|].
  assert (Ha' : forall t, NoDup (asked t outs)).
  { intros t. specialize (Ha t). change (asked t (o :: outs)) with (asked t ([o] ++ outs)) in Ha. rewrite asked_app in Ha. by apply NoDup_app in Ha as (_ & _ & ?). }
  specialize (IH Ha'). destruct o as [| |s' t i| | |]; try done; cbn; case_bool_decide; try done; subst; apply NoDup_cons; split; try done.
  intros Hin. apply (requests_asked s t outs) in Hin. specialize (Ha t). cbn in Ha. rewrite bool_decide_true in Ha by done. by apply NoDup_cons in Ha as [? _].
Qed.

Lemma list_or {A} (P : Prop) (Q : A -> Prop) (l : list A) : (forall x, x ∈ l -> P \/ Q x) -> P \/ forall x, x ∈ l -> Q x.
Proof.
  induction l as [|x l IH]; intros Hl; [right; by intros x ?%elem_of_nil|].
  destruct (Hl x) as [?|Hx]; [by left|by left|]. destruct IH as [?|Hr]; [intros y Hy; apply Hl; by right|by left|].
  right. intros y [->|Hy]%elem_of_cons; [done|by apply Hr].
Qed.

(** ** The invariant *)
Section PROPS.
Context {R V : Type} `{NumOk V} `{!AbstractRow R V} `{!HashOrder} `{!LevelDB}.
Context (g : GlobalContext) (Hg : context_ok g) (reg : ClassRegistry (RowClass R)) (db : ldb) (init_thread : Z -> Z).
Context (tabs : list Z) (plan : Z -> list (Z * ClientTableConfig)).
Context (Hclients : 0 < num_clients g < 2 ^ 31) (Hservers : num_servers g < 2 ^ 31) (Hresume : resume_clock g <= 0).
Context (Htabs : NoDup tabs) (Htabs_len : Z.of_nat (length tabs) = num_tables g) (Htabs_pos : 0 < num_tables g).
Context (Hheads : NoDup (head_bg_ids g)) (Hmodel : consistency_model g = SSP \/ consistency_model g = SSPPush).
Context (Hplan : forall h, h ∈ head_bg_ids g -> (plan h).*1 ≡ₚ tabs).
Implicit Types (sy : System (R := R) (V := V)) (c : Client (R := R) (V := V)).

Lemma deliver_nn_foldl outs sy :
  let sy' := foldl deliver_nn sy outs in
  sy_nn sy' = sy_nn sy /\ nn_mail sy' = nn_mail sy /\ sy_servers sy' = sy_servers sy /\
  (forall s, server_mail sy' s = server_mail sy s ++ requests s outs) /\
  forall h, let c := sy_clients sy h in
    sy_clients sy' h = mkClient (cl_todo c) (cl_waiting c) (to_app c) (cl_phase c) (cl_tables c) (from_app c) (from_nn c ++ stream h outs).
Proof.
  revert sy. induction outs as [|o outs IH]; intros sy.
  { split_and!; try done; [intros s; by rewrite app_nil_r|]. intros h. cbn. rewrite app_nil_r. by destruct (sy_clients sy h). }
  cbn [foldl]. destruct (IH (deliver_nn sy o)) as (E1 & E2 & E3 & E4 & E5). split_and!.
  - rewrite E1. by destruct o.
  - rewrite E2. by destruct o.
  - rewrite E3. by destruct o.
  - intros s. rewrite E4. change (o :: outs) with ([o] ++ outs). rewrite requests_app, app_assoc. f_equal.
    destruct o as [| |s' t i| | |]; cbn; rewrite ?app_nil_r; try done. case_bool_decide as Hs; [subst; by rewrite fn_lookup_insert|].
    by rewrite fn_lookup_insert_ne, app_nil_r.
  - intros h. rewrite E5. change (o :: outs) with ([o] ++ outs). rewrite stream_app, app_assoc.
    destruct o as [| | |bg t|bg|]; cbn; rewrite ?app_nil_r; try done;
      (case_bool_decide as Hs; [subst; by rewrite fn_lookup_insert|by rewrite fn_lookup_insert_ne, app_nil_r by done]).
Qed.

Definition ids (h : Z) : list Z := (plan h).*1.

Definition phase_at (n : nat) (told : bool) : create_phase := if told then TablesDone else create_loop g (Z.of_nat n).

(** A client that has sent [a] requests to the name node and read [n]
    answers; [told] if it has read that all tables exist. *)
Inductive client_at (h : Z) : nat -> nat -> bool -> Client (R := R) (V := V) -> Prop :=
  | at_idle n told ts q : (n <= length (plan h))%nat -> (told = true -> n = length (plan h)) ->
      dom ts = (list_to_set (take n (ids h)) : gset Z) ->
      client_at h n n told (mkClient (drop n (plan h)) false [] (phase_at n told) ts [] q)
  | at_sent n t config ts q : plan h !! n = Some (t, config) -> dom ts = (list_to_set (take n (ids h)) : gset Z) ->
      client_at h n n false (mkClient (drop (S n) (plan h)) true [] (phase_at n false) ts [MBgCreateTable t config] q)
  | at_asked n t config app ts q : plan h !! n = Some (t, config) -> dom ts = (list_to_set (take n (ids h)) : gset Z) ->
      client_at h (S n) n false (mkClient (drop (S n) (plan h)) true [] (AwaitReply (Z.of_nat n) t config app) ts [] q)
  | at_answered n t config told ts q : plan h !! n = Some (t, config) -> (told = true -> S n = length (plan h)) ->
      dom ts = (list_to_set (take (S n) (ids h)) : gset Z) ->
      client_at h (S n) (S n) told (mkClient (drop (S n) (plan h)) true [MCreateTableReply t] (phase_at (S n) told) ts [] q).

Definition client_ok (h : Z) (all : list nn_event) (outs : list nn_out) c : Prop :=
  exists a n told, client_at h a n told c /\
    stream h outs = (MCreateTableReply <$> take n (ids h)) ++ (if (told : bool) then [MCreatedAllTables] else []) ++ from_nn c /\
    forall t, h ∈ creates t all <-> t ∈ take a (ids h).

(** What has become of table [t] at server [s]. *)
Inductive server_at (created : bool) (s t : Z) (all : list nn_event) (mail : list (Z * TableInfo)) (sv : Server R) : Prop :=
  | srv_unasked : created = false -> t ∉ mail.*1 -> s ∉ answers t all -> tables sv !! t = None -> server_at created s t all mail sv
  | srv_asked : created = true -> t ∈ mail.*1 -> s ∉ answers t all -> tables sv !! t = None -> server_at created s t all mail sv
  | srv_answered : created = true -> t ∉ mail.*1 -> s ∈ answers t all -> is_Some (tables sv !! t) -> server_at created s t all mail sv.

Definition created (t : Z) (evs : list nn_event) : bool := negb (bool_decide (creates t evs = [])).

Record sys_inv (evs : list nn_event) (outs : list nn_out) sy : Prop := {
  si_hist : nn_history g tabs evs;
  si_nn : nn_inv g tabs evs (sy_nn sy) outs;
  si_mail : Forall not_shutdown (nn_mail sy);
  si_creates : forall t, NoDup (creates t (evs ++ nn_mail sy)) /\ creates t (evs ++ nn_mail sy) ⊆ head_bg_ids g;
  si_answers : forall t, NoDup (answers t (evs ++ nn_mail sy)) /\ answers t (evs ++ nn_mail sy) ⊆ server_ids g;
  si_client : forall h, h ∈ head_bg_ids g -> client_ok h (evs ++ nn_mail sy) outs (sy_clients sy h);
  si_server : forall s, s ∈ server_ids g -> NoDup (server_mail sy s).*1 /\
    forall t, server_at (created t evs) s t (evs ++ nn_mail sy) (server_mail sy s) (sy_servers sy s)
}.

Lemma ids_perm h : h ∈ head_bg_ids g -> ids h ≡ₚ tabs.
Proof. apply Hplan. Qed.
Lemma ids_NoDup h : h ∈ head_bg_ids g -> NoDup (ids h).
Proof. intros Hh. by rewrite (ids_perm h Hh). Qed.
Lemma plan_length h : h ∈ head_bg_ids g -> Z.of_nat (length (plan h)) = num_tables g.
Proof. intros Hh. rewrite <- Htabs_len, <- (ids_perm h Hh). unfold ids. by rewrite length_fmap. Qed.

(** *** Start *)
Lemma sys_inv_start servers nn : create_table_map nn = ∅ -> tables (nn_server_obj nn) = ∅ ->
  (forall s, s ∈ server_ids g -> tables (servers s) = ∅) -> sys_inv [] [] (sys_start g plan servers nn).
Proof.
  intros Em Et Hs. constructor; cbn.
  - constructor.
  - by apply nn_inv_start.
  - done.
  - intros t. split; [apply NoDup_nil_2|apply list_subseteq_nil].
  - intros t. split; [apply NoDup_nil_2|apply list_subseteq_nil].
  - intros h Hh. exists 0%nat, 0%nat, false. split_and!; [|done|].
    + apply (at_idle h 0 false ∅ []); [lia|done|by rewrite dom_empty_L].
    + intros t. split; by intros ?%elem_of_nil.
  - intros s Hin. split; [apply NoDup_nil_2|]. intros t. apply srv_unasked; [done|by intros ?%elem_of_nil..|by rewrite Hs].
Qed.

(** *** What a head thread is sent *)
Lemma stream_all h l : NoDup (get_head_bg_id <$> l) ->
  stream h ((fun i => OutCreatedAllTables (get_head_bg_id i)) <$> l)
    = if bool_decide (h ∈ get_head_bg_id <$> l) then [MCreatedAllTables] else [].
Proof.
  induction l as [|i l IH]; intros Hnd; [done|]. rewrite fmap_cons in Hnd. apply NoDup_cons in Hnd as [Hn Hnd].
  rewrite !fmap_cons. change (?x :: ?xs) with (([x]) ++ xs) at 1. rewrite stream_app, (IH Hnd). cbn.
  destruct (decide (get_head_bg_id i = h)) as [<-|Hne].
  - rewrite (bool_decide_true (get_head_bg_id i = _)) by done. rewrite (bool_decide_false (_ ∈ get_head_bg_id <$> l)) by done.
    by rewrite bool_decide_true by left.
  - rewrite bool_decide_false by done. cbn. erewrite bool_decide_ext; [done|]. rewrite elem_of_cons. split; [by right|intros [->|?]; done].
Qed.

Section SENT.
Context (evs : list nn_event) (outs : list nn_out) (nn : NameNodeContext R) (h : Z).
Context (Hh : nn_history g tabs evs) (Hi : nn_inv g tabs evs nn outs) (Hin : h ∈ head_bg_ids g).

Lemma sent_NoDup : NoDup (stream h outs).
Proof.
  apply stream_NoDup.
  - intros t. rewrite (ni_replied _ _ _ _ _ Hi). case_bool_decide; [|apply NoDup_nil_2].
    apply (th_nodup g tabs), (nn_history_table g tabs evs t (ctx_servers g Hg) Hh).
  - rewrite (ni_told_all g tabs evs nn outs Hi). case_bool_decide; [exact Hheads|apply NoDup_nil_2].
Qed.

Lemma sent_reply t : MCreateTableReply t ∈ stream h outs <-> replies t evs = num_servers g /\ h ∈ creates t evs.
Proof.
  rewrite stream_replied, (ni_replied _ _ _ _ _ Hi). case_bool_decide; [split; [done|by intros []]|]. split; [by intros ?%elem_of_nil|by intros []].
Qed.

(** That all tables exist is the last thing it is told, after all replies. *)
Lemma sent_all : MCreatedAllTables ∈ stream h outs -> exists l, stream h outs = l ++ [MCreatedAllTables] /\
  forall t, t ∈ tabs -> MCreateTableReply t ∈ l.
Proof.
  intros Hall. pose proof (proj1 (stream_told h outs) Hall) as Ht. rewrite (ni_told_all g tabs evs nn outs Hi) in Ht.
  case_bool_decide as Hc; [|by apply elem_of_nil in Ht]. destruct (ni_told _ _ _ _ _ Hi) as (o & E & Ho).
  rewrite bool_decide_true in E by done.
  assert (Es : stream h outs = stream h o ++ [MCreatedAllTables]).
  { rewrite E, stream_app. unfold SendCreatedAllTablesMsg. rewrite stream_all by exact Hheads. by rewrite bool_decide_true by exact Hin. }
  exists (stream h o). split; [done|]. intros t Htab. unfold nn_complete in Hc. rewrite Forall_forall in Hc. destruct (Hc t Htab) as [Hl Hr].
  assert (Hm : MCreateTableReply t ∈ stream h outs).
  { apply sent_reply. split; [done|]. destruct (nn_history_table g tabs evs t (ctx_servers g Hg) Hh) as [Hnd Hsub _ _ _].
    by rewrite (submseteq_length_Permutation (creates t evs) (head_bg_ids g)) by (try apply NoDup_submseteq; (done || lia)). }
  rewrite Es in Hm. apply elem_of_app in Hm as [Hm|Hm]; [done|]. by apply list_elem_of_singleton in Hm.
Qed.

Lemma sent_complete : nn_complete g tabs evs -> MCreatedAllTables ∈ stream h outs.
Proof. intros Hc. apply stream_told. rewrite (ni_told_all g tabs evs nn outs Hi). by rewrite bool_decide_true. Qed.
End SENT.

(** *** The steps of a client *)
Lemma set_client evs outs sy h c : sys_inv evs outs sy -> client_ok h (evs ++ nn_mail sy) outs c -> sys_inv evs outs (with_client h c sy).
Proof.
  intros [S1 S2 S3 S4 S5 S6 S7] Hc. constructor; cbn; try done. intros h' Hh'.
  destruct (decide (h' = h)) as [->|Hne]; [by rewrite fn_lookup_insert|]. rewrite fn_lookup_insert_ne by done. by apply S6.
Qed.

Lemma set_client_again evs outs sy h c1 c : sys_inv evs outs sy -> client_ok h (evs ++ nn_mail sy) outs c ->
  sys_inv evs outs (with_client h c (with_client h c1 sy)).
Proof.
  intros [S1 S2 S3 S4 S5 S6 S7] Hc. constructor; cbn; try done. intros h' Hh'.
  destruct (decide (h' = h)) as [->|Hne]; [by rewrite fn_lookup_insert|]. rewrite !fn_lookup_insert_ne by done. by apply S6.
Qed.

Lemma ids_lookup h n t config : plan h !! n = Some (t, config) -> ids h !! n = Some t.
Proof. intros E. unfold ids. by rewrite list_lookup_fmap, E. Qed.

Lemma app_send_ok h all outs c t config todo : client_ok h all outs c -> cl_waiting c = false -> cl_todo c = (t, config) :: todo ->
  client_ok h all outs (mkClient todo true (to_app c) (cl_phase c) (cl_tables c)
    (from_app c ++ [BgWorkers_CreateTable_msg t config]) (from_nn c)).
Proof.
  intros (a & n & told & Hat & Hs & Hc) Hw Ht. destruct Hat as [n told ts q Hn Htold Hd| | |]; try done. cbn in *.
  assert (El : plan h !! n = Some (t, config)) by (by rewrite <- (Nat.add_0_r n), <- lookup_drop, Ht).
  assert (Htodo : todo = drop (S n) (plan h)) by (by rewrite <- Nat.add_1_r, <- drop_drop, Ht). subst todo.
  destruct told; [apply lookup_lt_Some in El; specialize (Htold eq_refl); lia|].
  exists n, n, false. split_and!; [by apply (at_sent h n t config ts q)|done|done].
Qed.

Lemma app_recv_ok h all outs c m ms : client_ok h all outs c -> cl_waiting c = true -> to_app c = m :: ms ->
  BgWorkers_CreateTable_wait m = Ret true /\
  client_ok h all outs (mkClient (cl_todo c) false ms (cl_phase c) (cl_tables c) (from_app c) (from_nn c)).
Proof.
  intros (a & n & told & Hat & Hs & Hc) Hw Ht. destruct Hat as [| | |n t config told ts q El Htold Hd]; try done. cbn in *.
  injection Ht as <- <-. split; [done|]. exists (S n), (S n), told. split_and!; [|done|done].
  apply at_idle; [apply lookup_lt_Some in El; lia|done|done].
Qed.

(** *** What the head thread reads *)
Lemma phase_request h n t config : h ∈ head_bg_ids g -> plan h !! n = Some (t, config) -> phase_at n false = AwaitRequest (Z.of_nat n).
Proof.
  intros Hh El%lookup_lt_Some. pose proof (plan_length h Hh). unfold phase_at, create_loop. by rewrite bool_decide_true by lia.
Qed.

Lemma client_new config : exists t : ClientTable R V, ClientTable_new g config = Ret t.
Proof. unfold ClientTable_new. destruct Hmodel as [-> | ->]; by eexists. Qed.

Lemma take_ids h n t config : h ∈ head_bg_ids g -> plan h !! n = Some (t, config) ->
  take (S n) (ids h) = (take n (ids h) ++ [t]) /\ (t ∉ take n (ids h)) /\ t ∈ tabs.
Proof.
  intros Hh El. pose proof (ids_lookup h n t config El) as Ei. rewrite (take_S_r _ _ _ Ei). split_and!; [done| |].
  - pose proof (ids_NoDup h Hh) as Hnd. rewrite <- (take_drop_middle _ _ _ Ei) in Hnd. apply NoDup_app in Hnd as (_ & Hnd & _).
    intros Hin. apply (Hnd t Hin). by left.
  - rewrite <- (ids_perm h Hh). by eapply list_elem_of_lookup_2.
Qed.

Lemma creates_single t h t' i : creates t [NNCreateTable h t' i] = if bool_decide (t' = t) then [h] else [].
Proof. cbn. by case_bool_decide. Qed.

Lemma server_at_ext b s t all all' mail sv : answers t all' = answers t all -> server_at b s t all mail sv -> server_at b s t all' mail sv.
Proof. intros E Hat. destruct Hat; [apply srv_unasked|apply srv_asked|apply srv_answered]; rewrite ?E; done. Qed.

(** The application's request goes on to the name node. *)
Lemma head_app_step evs outs sy h c m ms : sys_inv evs outs sy -> h ∈ head_bg_ids g -> c = sy_clients sy h -> from_app c = m :: ms ->
  exists sy', head_reads g h (init_thread h) m
      (mkClient (cl_todo c) (cl_waiting c) (to_app c) (cl_phase c) (cl_tables c) ms (from_nn c)) sy = Ret sy' /\ sys_inv evs outs sy'.
Proof.
  intros Hi Hh -> Ef. pose proof Hi as [S1 S2 S3 S4 S5 S6 S7]. destruct (S6 h Hh) as (a & n & told & Hat & Hs & Hc).
  revert Ef Hs. destruct Hat as [|n t config ts q El Hd| |]; intros Ef Hs; try done. cbn [from_app cl_todo cl_waiting to_app cl_phase cl_tables from_nn] in *. injection Ef as <- <-.
  unfold head_reads. cbn [cl_phase cl_tables]. rewrite (phase_request h n t config Hh El). cbn [HandleCreateTables mbind outcome_bind].
  eexists. split; [done|]. cbn [foldl deliver_head]. set (ev := NNCreateTable h t (tc_table_info config)).
  destruct (take_ids h n t config Hh El) as (Et & Hn & Htab).
  assert (Ec : forall t', creates t' (evs ++ nn_mail sy ++ [ev]) = creates t' (evs ++ nn_mail sy) ++ if bool_decide (t = t') then [h] else []).
  { intros t'. rewrite app_assoc, creates_app. unfold ev. by rewrite creates_single. }
  assert (Ea : forall t', answers t' (evs ++ nn_mail sy ++ [ev]) = answers t' (evs ++ nn_mail sy)).
  { intros t'. rewrite app_assoc, answers_app. cbn. by rewrite app_nil_r. }
  constructor; cbn [sy_nn nn_mail sy_clients sy_servers server_mail with_nn_mail with_client]; try done.
  - apply Forall_app. split; [done|]. by apply Forall_singleton.
  - intros t'. destruct (S4 t') as [Hnd Hsub]. rewrite Ec. case_bool_decide; [subst t'|by rewrite app_nil_r]. split.
    + apply NoDup_app. split_and!; [done| |apply NoDup_singleton]. intros x Hx ->%list_elem_of_singleton. by apply Hc in Hx.
    + intros x [Hx|Hx]%elem_of_app; [by apply Hsub|]. by apply list_elem_of_singleton in Hx as ->.
  - intros t'. rewrite Ea. apply S5.
  - intros h' Hh'. destruct (decide (h' = h)) as [->|Hne].
    + rewrite fn_lookup_insert. exists (S n), n, false. split_and!; [by eapply at_asked|done|]. intros t'. rewrite Ec, elem_of_app, Et, elem_of_app, Hc.
      case_bool_decide as E; [subst; split; intros _; right; by left|]. rewrite list_elem_of_singleton. split; [intros [?|?%elem_of_nil]; [by left|done]|intros [?| ->]; [by left|done]].
    + rewrite fn_lookup_insert_ne by done. destruct (S6 h' Hh') as (a' & n' & told' & Hat' & Hs' & Hc'). exists a', n', told'. split_and!; [done..|].
      intros t'. rewrite Ec, elem_of_app, Hc'. case_bool_decide; [|split; [by intros [?|?%elem_of_nil]|intros ?; by left]].
      split; [intros [?|E]; [done|by apply list_elem_of_singleton in E]|by left].
  - intros s Hs'. destruct (S7 s Hs') as [Hnd Hat]. split; [done|]. intros t'. apply (server_at_ext _ _ _ _ _ _ _ (Ea t') (Hat t')).
Qed.

Lemma last_unique {A} (l l1 l2 : list A) x : NoDup (l ++ [x]) -> l1 ++ x :: l2 = l ++ [x] -> l1 = l /\ l2 = [].
Proof.
  intros Hnd E. destruct l2 as [|y l2 _] using rev_ind; [by apply app_inj_tail in E as [-> _]|].
  rewrite app_comm_cons, app_assoc in E. apply app_inj_tail in E as [<- ->]. exfalso.
  apply NoDup_app in Hnd as (_ & Hnd & _). apply (Hnd x); [|by left]. apply elem_of_app. right. by left.
Qed.

(** All replies the client has read before it is told that all tables exist. *)
Lemma told_after_all h n q l : h ∈ head_bg_ids g -> NoDup (l ++ [MCreatedAllTables]) ->
  (MCreateTableReply <$> take n (ids h)) ++ MCreatedAllTables :: q = l ++ [MCreatedAllTables] ->
  (forall t, t ∈ tabs -> MCreateTableReply t ∈ l) -> q = [] /\ (length (plan h) <= n)%nat.
Proof.
  intros Hh Hnd E Hall. apply last_unique in E as [<- ->]; [|done]. split; [done|].
  destruct (decide (length (plan h) <= n)%nat) as [?|Hlt]; [done|]. exfalso.
  destruct (lookup_lt_is_Some_2 (plan h) n) as [[t config] El]; [lia|]. destruct (take_ids h n t config Hh El) as (_ & Hn & Ht).
  apply Hall, list_elem_of_fmap in Ht as (t' & [= <-] & Hin). done.
Qed.

(** What the name node sends fits where the head thread waits. *)
Lemma head_nn_ok evs outs (nn : NameNodeContext R) h all c m ms app_id : nn_history g tabs evs -> nn_inv g tabs evs nn outs -> h ∈ head_bg_ids g ->
  (forall t, creates t evs ⊆ creates t all) -> client_ok h all outs c -> cl_phase c <> TablesDone -> from_nn c = m :: ms ->
  exists phase ts os, HandleCreateTables g (cl_phase c) (cl_tables c) app_id m = Ret (phase, ts, os) /\
    (os = [] \/ exists app t, os = [OutAppTableCreated app t]) /\
    client_ok h all outs (mkClient (cl_todo c) (cl_waiting c)
      (to_app c ++ omap (fun o => match o with OutAppTableCreated _ t => Some (MCreateTableReply t) | _ => None end) os)
      phase ts (from_app c) ms).
Proof.
  intros Hh Hi Hin Hsub (a & n & told & Hat & Hs & Hc) Hphase Ef.
  pose proof (sent_NoDup evs outs nn h Hh Hi) as Hnd. rewrite Ef in Hs.
  assert (told = false) as -> by (destruct told; [by inversion Hat; subst|done]). cbn [app] in Hs.
  assert (Hm : m ∈ stream h outs) by (rewrite Hs; apply elem_of_app; right; by left).
  destruct m as [| | |t| |]; try by (apply list_elem_of_omap in Hm as (o & _ & E); destruct o; try done; by case_bool_decide).
  - apply (sent_reply evs outs nn h Hi) in Hm as [_ Hm]. apply Hsub, Hc in Hm. rewrite Hs in Hnd.
    assert (Hn : t ∉ take n (ids h)).
    { intros Hn. apply NoDup_app in Hnd as (_ & Hnd & _). apply (Hnd (MCreateTableReply t)); [by apply list_elem_of_fmap_2|by left]. }
    inversion Hat as [n0 told0 ts q| |n0 t' config app0 ts q El Hd|]; subst; try done. cbn in *. destruct (take_ids h n t' config Hin El) as (Et & _ & _).
    rewrite Et in Hm. apply elem_of_app in Hm as [Hm|Hm%list_elem_of_singleton]; [done|]. subst t'. rewrite bool_decide_true by done.
    cbn [CHECK mbind outcome_bind]. destruct (client_new config) as [tbl ->]. cbn. eexists _, _, _. split; [done|]. split; [right; by eexists _, _|].
    exists (S n), (S n), false. split_and!; [|by rewrite Et, fmap_app, <- app_assoc, Hs|done]. cbn [omap list_omap app].
    replace (create_loop g (Z.of_nat n + 1)) with (phase_at (S n) false) by (unfold phase_at; f_equal; lia).
    eapply at_answered; [done|done|]. rewrite dom_insert_L, Hd, Et, list_to_set_app_L. cbn. rewrite (right_id_L ∅ (∪)). by rewrite union_comm_L.
  - destruct (sent_all evs outs nn h Hh Hi Hin Hm) as (l & El & Hall). rewrite El in Hnd, Hs. symmetry in Hs.
    destruct (told_after_all h n ms l Hin Hnd Hs Hall) as [-> Hn]. pose proof (plan_length h Hin) as Hlen.
    assert (Hp : cl_phase c = AwaitAll /\ a = n /\
      client_at h n n true (mkClient (cl_todo c) (cl_waiting c) (to_app c) TablesDone (cl_tables c) (from_app c) [])).
    { assert (Hall' : phase_at n false = AwaitAll) by (unfold phase_at, create_loop; by rewrite bool_decide_false by lia).
      destruct Hat as [n told ts q Hle _ Hd|n t config ts q Hl%lookup_lt_Some _|n t config app ts q Hl%lookup_lt_Some _|n t config told ts q El' _ Hd];
        cbn; try lia; destruct told; try done.
      - split_and!; [done|done|]. apply (at_idle h n true); [done|lia|done].
      - split_and!; [done|done|]. apply (at_answered h n t config true); [done| |done]. apply lookup_lt_Some in El'. lia. }
    destruct Hp as (Hp & -> & Hat'). rewrite Hp. cbn. eexists _, _, _. split; [done|]. split; [by left|].
    exists n, n, true. split_and!; [by rewrite app_nil_r|by rewrite El, <- Hs|done].
Qed.

Lemma head_nn_step evs outs sy h c m ms : sys_inv evs outs sy -> h ∈ head_bg_ids g -> c = sy_clients sy h ->
  cl_phase c <> TablesDone -> from_nn c = m :: ms ->
  exists sy', head_reads g h get_name_node_id m
      (mkClient (cl_todo c) (cl_waiting c) (to_app c) (cl_phase c) (cl_tables c) (from_app c) ms) sy = Ret sy' /\ sys_inv evs outs sy'.
Proof.
  intros Hi Hh -> Hp Ef. pose proof Hi as [S1 S2 S3 S4 S5 S6 S7].
  destruct (head_nn_ok evs outs (sy_nn sy) h (evs ++ nn_mail sy) (sy_clients sy h) m ms get_name_node_id S1 S2 Hh)
    with (2 := S6 h Hh) (3 := Hp) (4 := Ef) as (phase & ts & os & E & Hos & Hok); [intros t; rewrite creates_app; by apply list_subseteq_app_l|].
  unfold head_reads. cbn [cl_phase cl_tables]. rewrite E. cbn [mbind outcome_bind]. eexists. split; [done|].
  destruct Hos as [->|(ap & t & ->)]; cbn [foldl deliver_head cl_todo cl_waiting to_app from_app].
  - apply set_client; [done|]. cbn in Hok. by rewrite app_nil_r in Hok.
  - cbn [sy_clients with_client]. rewrite !fn_lookup_insert. by apply set_client_again.
Qed.

(** *** The servers *)
Lemma server_sys_step evs outs sy s t i mail : sys_inv evs outs sy -> s ∈ server_ids g -> server_mail sy s = (t, i) :: mail ->
  exists sv os, HandleCreateTable g reg get_name_node_id t i db (sy_servers sy s) = Ret (sv, os) /\
    sys_inv evs outs (mkSystem (sy_nn sy)
      (nn_mail sy ++ omap (fun o => match o with OutCreateTableReply _ t => Some (NNCreateTableReply s t) | _ => None end) os)
      (sy_clients sy) (<[s := sv]> (sy_servers sy)) (<[s := mail]> (server_mail sy))).
Proof.
  intros [S1 S2 S3 S4 S5 S6 S7] Hs Em. destruct (S7 s Hs) as [Hnd Hat]. rewrite Em in Hnd. cbn in Hnd. apply NoDup_cons in Hnd as [Hn Hnd].
  assert (Ht : created t evs = true /\ (s ∉ answers t (evs ++ nn_mail sy)) /\ tables (sy_servers sy s) !! t = None).
  { specialize (Hat t). rewrite Em in Hat. destruct Hat as [? Hx| |? Hx]; [|done|]; exfalso; apply Hx; by left. }
  destruct Ht as (Hc & Hna & Htab). unfold HandleCreateTable, CreateTable. rewrite Htab, bool_decide_false by lia.
  cbn [mbind outcome_bind]. eexists _, _. split; [done|]. cbn [omap list_omap]. set (ev := NNCreateTableReply s t).
  assert (Ea : forall t', answers t' (evs ++ nn_mail sy ++ [ev]) = answers t' (evs ++ nn_mail sy) ++ if bool_decide (t = t') then [s] else []).
  { intros t'. rewrite app_assoc, answers_app. f_equal. cbn. by case_bool_decide. }
  assert (Ec : forall t', creates t' (evs ++ nn_mail sy ++ [ev]) = creates t' (evs ++ nn_mail sy)).
  { intros t'. rewrite app_assoc, creates_app. cbn. by rewrite app_nil_r. }
  constructor; cbn [sy_nn nn_mail sy_clients sy_servers server_mail]; try done.
  - apply Forall_app. split; [done|]. by apply Forall_singleton.
  - intros t'. rewrite Ec. apply S4.
  - intros t'. destruct (S5 t') as [Hnd' Hsub]. rewrite Ea. case_bool_decide; [subst t'|by rewrite app_nil_r]. split.
    + apply NoDup_app. split_and!; [done| |apply NoDup_singleton]. by intros x Hx ->%list_elem_of_singleton.
    + intros x [Hx|Hx]%elem_of_app; [by apply Hsub|]. by apply list_elem_of_singleton in Hx as ->.
  - intros h Hh. destruct (S6 h Hh) as (a & n & told & Hcl & Hst & Hcr). exists a, n, told. split_and!; [done..|]. intros t'. by rewrite Ec.
  - intros s' Hs'. destruct (decide (s' = s)) as [->|Hne].
    + rewrite !fn_lookup_insert. split; [done|]. cbn [tables set_tables]. intros t'. specialize (Hat t'). rewrite Em in Hat. destruct (decide (t' = t)) as [->|Hne].
      * apply srv_answered; [done|done| |cbn; by rewrite lookup_insert_eq]. rewrite Ea, bool_decide_true by done. apply elem_of_app. right. by left.
      * apply (server_at_ext _ _ _ (evs ++ nn_mail sy)); [by rewrite Ea, bool_decide_false, app_nil_r by congruence|].
        destruct Hat as [? Hx|? Hx|? Hx]; [apply srv_unasked|apply srv_asked|apply srv_answered]; try done; cbn in *;
          rewrite ?lookup_insert_ne by congruence; try done; [..|intros ?; apply Hx; by right]; [intros ?; apply Hx; by right|].
        apply elem_of_cons in Hx as [?|?]; [congruence|done].
    + rewrite !fn_lookup_insert_ne by done. destruct (S7 s' Hs') as [Hnd' Hat']. split; [done|]. intros t'.
      destruct (Hat' t') as [? ? Hx|? ? Hx|? ? Hx]; [apply srv_unasked|apply srv_asked|apply srv_answered]; try done; rewrite Ea, elem_of_app;
        [intros [?|E]; [done|]..|by left]; case_bool_decide; (by apply elem_of_nil in E) || by apply list_elem_of_singleton in E.
Qed.

(** *** The name node *)
Lemma created_true t evs : created t evs = true <-> creates t evs <> [].
Proof. unfold created. case_bool_decide; naive_solver. Qed.

Lemma asked_new evs ev (nn nn' : NameNodeContext R) outs o t : nn_inv g tabs evs nn outs -> nn_inv g tabs (evs ++ [ev]) nn' (outs ++ o) ->
  asked t o = if created t evs then [] else if created t (evs ++ [ev]) then server_ids g else [].
Proof.
  intros Hi Hi'. pose proof (ni_asked _ _ _ _ _ Hi' t) as E. rewrite asked_app, (ni_asked _ _ _ _ _ Hi) in E. unfold created.
  case_bool_decide as E1; cbn in E |- *; [by case_bool_decide|]. rewrite bool_decide_false in E.
  - by apply (app_inv_head (server_ids g)); rewrite E, app_nil_r.
  - rewrite creates_snoc. by intros []%app_eq_nil.
Qed.

(** What waits in the mail is a message the name node expects. *)
Lemma mail_allowed evs outs sy l1 ev l2 : sys_inv evs outs sy -> nn_mail sy = l1 ++ ev :: l2 -> nn_allowed g tabs evs ev.
Proof.
  intros [S1 S2 S3 S4 S5 S6 S7] Em. destruct ev as [h|h t i|s t].
  - rewrite Em in S3. apply Forall_app in S3 as [_ S3]. by apply Forall_cons in S3 as [? _].
  - destruct (S4 t) as [Hnd Hsub].
    assert (Hin : h ∈ creates t (nn_mail sy)).
    { rewrite Em, creates_app. apply elem_of_app. right. cbn. rewrite bool_decide_true by done. by left. }
    assert (Hh : h ∈ head_bg_ids g) by (apply Hsub; rewrite creates_app; apply elem_of_app; by right).
    split_and!; [|done|].
    + destruct (S6 h Hh) as (a & n & told & _ & _ & Hc). rewrite <- (ids_perm h Hh). apply (subseteq_take a (ids h)).
      apply Hc. rewrite creates_app. apply elem_of_app. by right.
    + rewrite creates_app in Hnd. apply NoDup_app in Hnd as (_ & Hnd & _). intros Hx. by apply (Hnd h).
  - destruct (S5 t) as [Hnd Hsub].
    assert (Hin : s ∈ answers t (nn_mail sy)).
    { rewrite Em, answers_app. apply elem_of_app. right. cbn. rewrite bool_decide_true by done. by left. }
    assert (Hin' : s ∈ answers t (evs ++ nn_mail sy)) by (rewrite answers_app; apply elem_of_app; by right).
    split.
    + destruct (S7 s (Hsub s Hin')) as [_ Hat]. destruct (Hat t) as [? ? ?|? ? ?|E ? ?]; [done..|]. by apply created_true.
    + rewrite replies_answers, <- (ctx_server_ids g Hg). rewrite answers_app in Hnd, Hsub. apply NoDup_app in Hnd as (Hnd & Hdis & _).
      assert (Hnd' : NoDup (s :: answers t evs)) by (apply NoDup_cons; split; [intros Hx; by apply (Hdis s)|done]).
      assert (Hsub' : s :: answers t evs ⊆ server_ids g).
      { intros x [->|Hx]%elem_of_cons; apply Hsub, elem_of_app; [by right|by left]. }
      pose proof (submseteq_length _ _ (NoDup_submseteq _ _ Hnd' Hsub')) as Hlen. cbn in Hlen. lia.
Qed.

Lemma client_at_mail h a n told c q : client_at h a n told c ->
  client_at h a n told (mkClient (cl_todo c) (cl_waiting c) (to_app c) (cl_phase c) (cl_tables c) (from_app c) q).
Proof. intros Hat. destruct Hat; cbn; [by apply at_idle|by apply at_sent|by eapply at_asked|by eapply at_answered]. Qed.

(** The requests of a new table reach a server that does not have it. *)
Lemma server_at_deliver evs ev (nn nn' : NameNodeContext R) outs o s all all' mail sv t : nn_inv g tabs evs nn outs -> nn_inv g tabs (evs ++ [ev]) nn' (outs ++ o) ->
  s ∈ server_ids g -> all' ≡ₚ all -> server_at (created t evs) s t all mail sv ->
  server_at (created t (evs ++ [ev])) s t all' (mail ++ requests s o) sv.
Proof.
  intros Hi Hi' Hs Hp Hat. pose proof (asked_new evs ev nn nn' outs o t Hi Hi') as Ea.
  assert (Hans : answers t all' ≡ₚ answers t all) by (unfold answers; by rewrite Hp).
  assert (Hmono : created t evs = true -> created t (evs ++ [ev]) = true).
  { rewrite !created_true, creates_snoc. by intros ? []%app_eq_nil. }
  assert (Hreq : t ∈ (mail ++ requests s o).*1 <-> t ∈ mail.*1 \/ s ∈ asked t o).
  { by rewrite fmap_app, elem_of_app, requests_asked. }
  destruct Hat as [E Hm Ha Ht|E Hm Ha Ht|E Hm Ha Ht]; rewrite E in Ea.
  - destruct (created t (evs ++ [ev])) eqn:E'; [apply srv_asked|apply srv_unasked]; rewrite ?Hreq, ?Hans, ?Ea; try done.
    + by right.
    + by intros [?|?%elem_of_nil].
  - apply srv_asked; rewrite ?Hreq, ?Hans; [by apply Hmono|by left|done..].
  - apply srv_answered; rewrite ?Hreq, ?Hans, ?Ea; [by apply Hmono|by intros [?|?%elem_of_nil]|done..].
Qed.

Lemma nn_sys_step evs outs sy l1 ev l2 : sys_inv evs outs sy -> nn_mail sy = l1 ++ ev :: l2 ->
  exists (c : NameNodeContext R) o, nn_step g reg db (sy_nn sy) ev = Ret (false, c, o) /\
    sys_inv (evs ++ [ev]) (outs ++ o) (foldl deliver_nn (mkSystem c (l1 ++ l2) (sy_clients sy) (sy_servers sy) (server_mail sy)) o).
Proof.
  intros Hi Em. pose proof (mail_allowed evs outs sy l1 ev l2 Hi Em) as Ha. pose proof Hi as [S1 S2 S3 S4 S5 S6 S7].
  destruct (nn_step_inv g Hg reg db tabs Hclients Hservers Hresume Htabs Htabs_len evs ev (sy_nn sy) outs S1 Ha S2)
    as (c & o & E & Hn). exists c, o. split; [done|].
  destruct (deliver_nn_foldl o (mkSystem c (l1 ++ l2) (sy_clients sy) (sy_servers sy) (server_mail sy))) as (D1 & D2 & D3 & D4 & D5).
  cbn in D1, D2, D3, D4, D5. rewrite Em in S3, S4, S5, S6, S7. pose proof (handled_perm evs l1 l2 ev) as Hp.
  assert (Hc : forall t, creates t ((evs ++ [ev]) ++ l1 ++ l2) ≡ₚ creates t (evs ++ l1 ++ ev :: l2)) by (intros t; unfold creates; by rewrite Hp).
  assert (Hans : forall t, answers t ((evs ++ [ev]) ++ l1 ++ l2) ≡ₚ answers t (evs ++ l1 ++ ev :: l2)) by (intros t; unfold answers; by rewrite Hp).
  constructor; rewrite ?D1, ?D2, ?D3.
  - by constructor.
  - done.
  - apply Forall_app in S3 as [? S3]. apply Forall_cons in S3 as [_ ?]. apply Forall_app. by split.
  - intros t. rewrite Hc. apply S4.
  - intros t. rewrite Hans. apply S5.
  - intros h Hh. destruct (S6 h Hh) as (a & n & told & Hat & Hs & Hcr). exists a, n, told. rewrite D5. split_and!.
    + by apply client_at_mail.
    + cbn. by rewrite stream_app, Hs, <- !app_assoc.
    + intros t. by rewrite Hc.
  - intros s Hs. destruct (S7 s Hs) as [Hnd Hat]. rewrite D4. split.
    + rewrite fmap_app. apply NoDup_app. split_and!; [done| |].
      * intros t Ht Hr. apply (requests_asked s t o) in Hr. rewrite (asked_new evs ev (sy_nn sy) c outs o t S2 Hn) in Hr.
        destruct (Hat t) as [? Hx|Hx|? Hx]; [done| |done]. rewrite Hx in Hr. by apply elem_of_nil in Hr.
      * apply requests_NoDup. intros t. rewrite (asked_new evs ev (sy_nn sy) c outs o t S2 Hn).
        destruct (created t evs); [apply NoDup_nil_2|]. destruct (created t (evs ++ [ev])); [apply Hg|apply NoDup_nil_2].
    + intros t. by apply (server_at_deliver evs ev (sy_nn sy) c outs o s (evs ++ l1 ++ ev :: l2)).
Qed.

(** *** Every step succeeds and keeps the invariant *)
Definition step := sys_step (R := R) (V := V) g reg db init_thread.

Lemma sys_step_inv evs outs sy o : sys_inv evs outs sy -> step sy o ->
  exists sy' evs' outs', o = Ret sy' /\ sys_inv evs' outs' sy'.
Proof.
  intros Hi Hs. destruct Hs as [h c t config todo Hh -> Hw Ht|h c m ms Hh -> Hw Ht|h c m ms Hh Hc Hp Ef|h c m ms Hh Hc Hp Ef|l1 ev l2 Em|s t i mail Hs Em].
  - eexists _, evs, outs. split; [done|]. apply set_client; [done|]. by apply (app_send_ok h _ _ _ t config todo (si_client _ _ _ Hi h Hh)).
  - destruct (app_recv_ok h _ _ _ m ms (si_client _ _ _ Hi h Hh) Hw Ht) as [-> Hok]. cbn. eexists _, evs, outs. split; [done|]. by apply set_client.
  - destruct (head_app_step evs outs sy h c m ms Hi Hh Hc Ef) as (sy' & E & Hi'). by exists sy', evs, outs.
  - destruct (head_nn_step evs outs sy h c m ms Hi Hh Hc Hp Ef) as (sy' & E & Hi'). by exists sy', evs, outs.
  - destruct (nn_sys_step evs outs sy l1 ev l2 Hi Em) as (c & o & -> & Hi'). cbn. by eexists _, _, _.
  - destruct (server_sys_step evs outs sy s t i mail Hi Hs Em) as (sv & os & -> & Hi'). cbn. by eexists _, evs, outs.
Qed.

(** *** Some thread can take a step *)
Definition quiet c : Prop :=
  (cl_phase c <> TablesDone -> from_app c = [] /\ from_nn c = []) /\
  (cl_waiting c = true -> to_app c = []) /\ (cl_waiting c = false -> cl_todo c = []).

Lemma client_quiet sy h : h ∈ head_bg_ids g -> (exists o, step sy o) \/ quiet (sy_clients sy h).
Proof.
  intros Hh. destruct (cl_waiting (sy_clients sy h)) eqn:Ew.
  - destruct (to_app (sy_clients sy h)) as [|m ms] eqn:Ea; [|left; eexists; by eapply step_app_recv].
    destruct (decide (cl_phase (sy_clients sy h) = TablesDone)) as [Ep|Ep]; [right; unfold quiet; rewrite Ew; by split_and!|].
    destruct (from_app (sy_clients sy h)) eqn:Ef; [|left; eexists; by eapply step_head_app].
    destruct (from_nn (sy_clients sy h)) eqn:En; [|left; eexists; by eapply step_head_nn].
    right. unfold quiet. rewrite Ew. by split_and!.
  - destruct (cl_todo (sy_clients sy h)) as [|[t config] todo] eqn:Ea; [|left; eexists; by eapply step_app_send].
    destruct (decide (cl_phase (sy_clients sy h) = TablesDone)) as [Ep|Ep]; [right; unfold quiet; rewrite Ew; by split_and!|].
    destruct (from_app (sy_clients sy h)) eqn:Ef; [|left; eexists; by eapply step_head_app].
    destruct (from_nn (sy_clients sy h)) eqn:En; [|left; eexists; by eapply step_head_nn].
    right. unfold quiet. rewrite Ew. by split_and!.
Qed.

Section QUIET.
Context (evs : list nn_event) (outs : list nn_out) (sy : System (R := R) (V := V)).
Context (Hi : sys_inv evs outs sy) (Hmail : nn_mail sy = []) (Hsm : forall s, s ∈ server_ids g -> server_mail sy s = []).
Context (Hquiet : forall h, h ∈ head_bg_ids g -> quiet (sy_clients sy h)).

Lemma quiet_answered t : creates t evs <> [] -> replies t evs = num_servers g.
Proof.
  intros Hc. destruct (nn_history_table g tabs evs t (ctx_servers g Hg) (si_hist _ _ _ Hi)) as [_ _ _ Hr _].
  enough (num_servers g <= replies t evs) by lia. rewrite replies_answers, <- (ctx_server_ids g Hg).
  pose proof (submseteq_length (server_ids g) (answers t evs)) as Hl. enough (length (server_ids g) <= length (answers t evs))%nat by lia.
  apply Hl, NoDup_submseteq; [apply Hg|]. intros s Hs. destruct (si_server _ _ _ Hi s Hs) as [_ Hat]. specialize (Hat t).
  rewrite Hmail, app_nil_r, (Hsm s Hs) in Hat. destruct Hat as [E _ _ _|_ Hx _ _|_ _ Hx _]; [|by apply elem_of_nil in Hx|done].
  apply created_true in Hc. congruence.
Qed.

Lemma quiet_client h : h ∈ head_bg_ids g -> exists told, client_at h (length (plan h)) (length (plan h)) told (sy_clients sy h) /\
  cl_todo (sy_clients sy h) = [] /\ cl_waiting (sy_clients sy h) = false /\
  (told = false -> stream h outs = MCreateTableReply <$> ids h) /\ forall t, h ∈ creates t evs <-> t ∈ tabs.
Proof.
  intros Hh. destruct (si_client _ _ _ Hi h Hh) as (a & n & told & Hat & Hs & Hc). destruct (Hquiet h Hh) as (Q1 & Q2 & Q3).
  rewrite Hmail, app_nil_r in Hc. pose proof (plan_length h Hh) as Hlen.
  revert Hat Hs Q1 Q2 Q3. generalize (sy_clients sy h) as c. intros c Hat Hs Q1 Q2 Q3.
  destruct Hat as [n told ts q Hn Htold Hd|n t config ts q El Hd|n t config ap ts q El Hd|n t config told ts q El _ _]; cbn in *.
  - assert (n = length (plan h)) as ->.
    { pose proof (length_drop (plan h) n) as Hl. rewrite (Q3 eq_refl) in Hl. cbn in Hl. lia. }
    assert (Hids : take (length (plan h)) (ids h) = ids h) by (unfold ids; by rewrite <- (length_fmap fst), take_ge).
    exists told. split_and!; [by apply at_idle|by apply Q3|done| |].
    + intros ->. unfold phase_at in Q1. rewrite Hs, Hids. destruct Q1 as [_ ->]; [unfold create_loop; by case_bool_decide|]. by rewrite !app_nil_r.
    + intros t. by rewrite Hc, Hids, (ids_perm h Hh).
  - pose proof (phase_request h n t config Hh El) as Ep. cbn in Ep. rewrite Ep in Q1. by destruct Q1.
  - exfalso. destruct (take_ids h n t config Hh El) as (Et & Hnt & _). destruct Q1 as [_ ->]; [done|].
    assert (Hin : h ∈ creates t evs) by (apply Hc; rewrite Et; apply elem_of_app; right; by left).
    assert (Hm : MCreateTableReply t ∈ stream h outs).
    { apply (sent_reply evs outs (sy_nn sy) h (si_nn _ _ _ Hi)). split; [|done]. apply quiet_answered. intros E. rewrite E in Hin. by apply elem_of_nil in Hin. }
    rewrite Hs, app_nil_r in Hm. apply list_elem_of_fmap in Hm as (t' & [= <-] & Hx). done.
  - by specialize (Q2 eq_refl).
Qed.

Lemma quiet_complete : nn_complete g tabs evs.
Proof.
  unfold nn_complete. rewrite Forall_forall. intros t Ht.
  assert (Hall : head_bg_ids g ⊆ creates t evs).
  { intros h Hh. destruct (quiet_client h Hh) as (told & _ & _ & _ & _ & Hc). by apply Hc. }
  destruct (nn_history_table g tabs evs t (ctx_servers g Hg) (si_hist _ _ _ Hi)) as [Hnd Hsub _ _ _].
  pose proof (submseteq_length _ _ (NoDup_submseteq _ _ Hheads Hall)). pose proof (submseteq_length _ _ (NoDup_submseteq _ _ Hnd Hsub)).
  split; [lia|]. apply quiet_answered. intros E. rewrite E in *. pose proof (head_bg_ids_length g (proj1 Hclients)). cbn in *. lia.
Qed.

Lemma quiet_finished : sys_finished g tabs sy.
Proof.
  split_and!; [done| |].
  - intros h Hh. destruct (quiet_client h Hh) as (told & Hat & Ht & Hw & Hs & _).
    pose proof (sent_complete evs outs (sy_nn sy) h (si_nn _ _ _ Hi) Hh quiet_complete) as Hall.
    destruct told; [|rewrite (Hs eq_refl) in Hall; by apply list_elem_of_fmap in Hall as (? & ? & _)].
    assert (Hids : take (length (plan h)) (ids h) = ids h) by (unfold ids; by rewrite <- (length_fmap fst), take_ge).
    split_and!; [by inversion Hat; subst|done|done|].
    inversion Hat as [n told ts q _ _ Hd E1 E2 E3 E4| | |n t config told ts q El _ Hd E1 E2 E3 E4]; subst.
    + cbn. rewrite Hd, Hids. apply list_to_set_perm_L. by apply ids_perm.
    + by rewrite <- E4 in Hw.
  - intros s t Hs Ht. destruct (si_server _ _ _ Hi s Hs) as [_ Hat]. specialize (Hat t).
    assert (Hc : created t evs = true).
    { apply created_true. intros E. pose proof quiet_complete as Hall. unfold nn_complete in Hall. rewrite Forall_forall in Hall.
      destruct (Hall t Ht) as [Hl _]. rewrite E in Hl. pose proof (head_bg_ids_length g (proj1 Hclients)). cbn in Hl. lia. }
    rewrite (Hsm s Hs) in Hat. destruct Hat as [E|? Hx|? ? ? Htab]; [congruence|by apply elem_of_nil in Hx|done].
Qed.
End QUIET.

Lemma sys_progress evs outs sy : sys_inv evs outs sy -> (exists o, step sy o) \/ sys_finished g tabs sy.
Proof.
  intros Hi. destruct (nn_mail sy) as [|ev mail] eqn:Em; [|left; eexists; by apply (step_nn _ _ _ _ _ [] ev mail)].
  destruct (list_or (exists o, step sy o) (fun s => server_mail sy s = []) (server_ids g)) as [?|Hsm]; [|by left|].
  { intros s Hs. destruct (server_mail sy s) as [|[t i] m] eqn:E; [by right|left]. eexists. by eapply step_server. }
  destruct (list_or (exists o, step sy o) (fun h => quiet (sy_clients sy h)) (head_bg_ids g)) as [?|Hq]; [|by left|].
  { intros h Hh. by apply client_quiet. }
  right. by apply (quiet_finished evs outs).
Qed.

Lemma sys_reach_inv servers nn sy : create_table_map nn = ∅ -> tables (nn_server_obj nn) = ∅ ->
  (forall s, s ∈ server_ids g -> tables (servers s) = ∅) ->
  sys_reach g reg db init_thread plan servers nn sy -> exists evs outs, sys_inv evs outs sy.
Proof.
  intros Em Et Hs. induction 1 as [|sy sy' _ (evs & outs & Hi) Hst].
  - exists [], []. by apply sys_inv_start.
  - destruct (sys_step_inv evs outs sy _ Hi Hst) as (sy2 & evs' & outs' & [= <-] & Hi'). by exists evs', outs'.
Qed.
End PROPS.

(** *** What precedes *)
Lemma head_bg_ids_NoDup g : num_clients g <= 2147483 -> NoDup (head_bg_ids g).
Proof.
  intros Hc. unfold head_bg_ids.
  assert (Hrange : Forall (fun c => 0 <= c < 2147483) (seqZ 0 (num_clients g))).
  { rewrite Forall_forall. intros c Hin%elem_of_seqZ. lia. }
  pose proof (NoDup_seqZ 0 (num_clients g)) as Hnd. induction Hnd as [|c l Hn Hnd IH]; [apply NoDup_nil_2|].
  apply Forall_cons in Hrange as [Hc' Hrange]. rewrite fmap_cons. apply NoDup_cons. split; [|by apply IH].
  intros (c' & E & Hin)%list_elem_of_fmap. rewrite Forall_forall in Hrange. specialize (Hrange c' Hin).
  destruct (thread_ids_partition c 0 Hc') as [_ E1]; [int_lia|lia|]. destruct (thread_ids_partition c' 0 Hrange) as [_ E2]; [int_lia|lia|].
  congruence.
Qed.

Section HANDSHAKE.
Context (g : GlobalContext) (Hg : context_ok g).

(** The handshake of a background thread reads what the name node and the servers send it, and no more. *)
Lemma BgServerHandshake_spec (senders : list Z) rest : Z.of_nat (length senders) = num_servers g + 1 ->
  BgServerHandshake g ((MConnectServer, get_name_node_id) :: ((fun s => (MClientStart, s)) <$> senders) ++ rest)
    = Ret (get_name_node_id :: server_ids g, rest).
Proof.
  intros Hl. unfold BgServerHandshake. cbn [hd_error deref mbind outcome_bind tl]. rewrite (bool_decide_true (get_name_node_id = get_name_node_id)) by done. cbn [CHECK mbind outcome_bind].
  pose proof (ctx_server_ids g Hg) as Hs. rewrite bool_decide_true by lia. cbn [CHECK mbind outcome_bind]. rewrite <- Hs at 1.
  rewrite (send_to_all (server_ids g) (fun s => s)), list_fmap_id. cbn [mbind outcome_bind].
  replace (Z.to_nat (num_servers g + 1)) with (length senders) by lia.
  enough (E : forall l, recv_client_starts (length l) (((fun s => (MClientStart, s)) <$> l) ++ rest) = Ret rest) by by rewrite E.
  intros l. induction l as [|s l IH]; [done|exact IH].
Qed.

Lemma InitServer_empty {R V} `{!Num V} `{!AbstractRow R V} `{!HashOrder} `{!LevelDB} id conns (c : ServerContext R) outs :
  InitServer g id conns (SetUpServerContext g) = Ret (c, outs) -> tables (server_obj c) = ∅.
Proof.
  intros E. unfold InitServer in E. apply bind_Ret_inv in E as (c1 & E1 & E). apply bind_Ret_inv in E as (o & _ & [= <- _]).
  cbn. rewrite init_clients_tables.
  assert (Ha : forall l n c0 c2, accept_connections n l c0 = Ret c2 -> tables (server_obj c2) = tables (server_obj (c0 : ServerContext R))).
  { induction l as [|[m b] l IH]; intros n c0 c2 Ea; cbn in Ea; [by injection Ea as ->|].
    apply bind_Ret_inv in Ea as (client & _ & Ea). apply bind_Ret_inv in Ea as (cid & _ & Ea). apply bind_Ret_inv in Ea as (l' & _ & Ea).
    by rewrite (IH _ _ _ Ea). }
  by rewrite (Ha _ _ _ _ E1).
Qed.
End HANDSHAKE.

(** C9: the start-up cannot fail and cannot get stuck: when the name node and
    all servers have accepted their connections and the application of every
    client creates the same [num_tables] tables, in an order of its own, then
    in every state that the threads can reach, in every interleaving of their
    steps and of the messages that reach the name node, no step of a thread
    fails (every message is one its receiver waits for), and either some
    thread can take a step or all is done: every client has been told that all
    tables exist and has all of them, and so has every server. *)
Theorem start_up_never_stuck {R V} `{NumOk V} `{!AbstractRow R V} `{!HashOrder} `{!LevelDB}
    g (reg : ClassRegistry (RowClass R)) db init_thread tabs plan conns (nn : NameNodeContext R) outs (servers : Z -> Server R) sy :
  context_ok g -> 0 < num_clients g <= 2147483 -> num_servers g < 2 ^ 31 -> resume_clock g <= 0 ->
  consistency_model g = SSP \/ consistency_model g = SSPPush ->
  NoDup tabs -> Z.of_nat (length tabs) = num_tables g -> 0 < num_tables g ->
  (forall h, h ∈ head_bg_ids g -> (plan h).*1 ≡ₚ tabs) ->
  InitNameNode g conns (SetUpNameNodeContext g) = Ret (nn, outs) ->
  (forall s, s ∈ server_ids g -> exists conns c o, InitServer g s conns (SetUpServerContext g) = Ret (c, o) /\ servers s = server_obj c) ->
  sys_reach (V := V) g reg db init_thread plan servers nn sy ->
  (forall o, sys_step g reg db init_thread sy o -> exists sy', o = Ret sy') /\
  ((exists o, sys_step g reg db init_thread sy o) \/ sys_finished g tabs sy).
Proof.
  intros Hg Hc Hs Hr Hm Hnd Hl Hpos Hplan E Hsv Hreach. destruct (InitNameNode_empty _ _ _ _ E) as [Em Et].
  pose proof (head_bg_ids_NoDup g (proj2 Hc)) as Hheads. assert (Hc' : 0 < num_clients g < 2 ^ 31) by lia.
  assert (Hempty : forall s, s ∈ server_ids g -> tables (servers s) = ∅).
  { intros s Hin. destruct (Hsv s Hin) as (cs & c & o & Ei & ->). by apply (InitServer_empty g s cs c o). }
  destruct (sys_reach_inv (V := V) g Hg reg db init_thread tabs plan Hc' Hs Hr Hnd Hl Hpos Hheads Hm Hplan servers nn sy Em Et Hempty Hreach)
    as (evs & os & Hi).
  split.
  - intros o Ho. destruct (sys_step_inv g Hg reg db init_thread tabs plan Hc' Hs Hr Hnd Hl Hheads Hm Hplan evs os sy o Hi Ho)
      as (sy' & _ & _ & -> & _). by exists sy'.
  - apply (sys_progress g Hg reg db init_thread tabs plan Hc' Hnd Hl Hheads Hplan evs os sy Hi).
Qed.

(** *** Witness: the first client of two has asked for its table *)
Definition demo_config : ClientTableConfig := mkClientTableConfig (mkTableInfo 1 0 3) 10 10 10.
Definition demo_plan : Z -> list (Z * ClientTableConfig) := fun _ => [(5, demo_config)].
Definition demo_server_conns : list (connect_msg * Z) :=
  [(ClientConnect 0, 100); (ClientConnect 0, 101); (ClientConnect 1, 1100); (ClientConnect 0, 102); (ClientConnect 1, 1101); (ClientConnect 1, 1102)].
Definition demo_nn : outcome (NameNodeContext (DenseRow int32) * list nn_out) :=
  InitNameNode demo_context nn_conns (SetUpNameNodeContext demo_context).
Definition demo_server (s : Z) : outcome (ServerContext (DenseRow int32) * list server_out) :=
  InitServer demo_context s demo_server_conns (SetUpServerContext demo_context).

Lemma start_up_never_stuck_witness : exists (nn : NameNodeContext (DenseRow int32)) outs servers (sy : System (V := int32)),
  demo_nn = Ret (nn, outs) /\ sys_reach demo_context demo_reg (∅ : ldb) (fun h => h) demo_plan servers nn sy /\
  cl_waiting (sy_clients sy 100) = true /\
  (forall o, sys_step demo_context demo_reg (∅ : ldb) (fun h => h) sy o -> exists sy', o = Ret sy').
Proof.
  destruct demo_nn as [[nn outs]| |] eqn:E0; [|by vm_compute in E0..].
  set (servers := fun s => match demo_server s with Ret (c, _) => server_obj c | _ => Server_new end).
  set (sy0 := sys_start demo_context demo_plan servers nn (V := int32)).
  set (sy := with_client 100 (mkClient [] true [] (create_loop demo_context 0) ∅ [MBgCreateTable 5 demo_config] []) sy0).
  assert (Hreach : sys_reach demo_context demo_reg (∅ : ldb) (fun h => h) demo_plan servers nn sy).
  { apply (sys_reach_step _ _ _ _ _ _ _ sy0); [apply sys_reach_start|].
    apply (step_app_send demo_context demo_reg (∅ : ldb) (fun h => h) sy0 100 (sy_clients sy0 100) 5 demo_config []); [|done..].
    apply (bool_decide_unpack _). by vm_compute. }
  exists nn, outs, servers, sy. split_and!; [done|exact Hreach|done|].
  apply (start_up_never_stuck demo_context demo_reg (∅ : ldb) (fun h => h) [5] demo_plan nn_conns nn outs servers sy demo_context_ok);
    [done|done|done|by left|apply NoDup_singleton|done|done|done|exact E0| |exact Hreach].
  intros s Hin. assert (Hs : s = 1 \/ s = 1000).
  { apply elem_of_cons in Hin as [->|Hin]; [by left|]. apply list_elem_of_singleton in Hin. by right. }
  unfold servers. exists demo_server_conns. destruct Hs as [->| ->].
  - destruct (demo_server 1) as [[c o]| |] eqn:E; [|by vm_compute in E..]. by exists c, o.
  - destruct (demo_server 1000) as [[c o]| |] eqn:E; [|by vm_compute in E..]. by exists c, o.
Defined.
