(* ===== verification/LocalStore.v ===== *)
(** * The parameter server of a single process

    [petuum_ps_sn]: the client side without servers.  The process cache is the
    table itself; [LocalConsistencyController] creates the rows that are
    missing and [LocalOOCConsistencyController]
    ([petuum_ps_sn/consistency/]) keeps the rows that do not fit in a LevelDB
    database.  [ThreadTableSN] ([petuum_ps_sn/client/thread_table.cpp]) caches
    rows per thread, and [TableGroupSN] ([table_group.cpp]) with the contexts
    of [petuum_ps_sn/thread/context.hpp] counts the clocks. *)
From stdpp Require Import strings pretty.
From S2P Require Import Prelude Bytes Num VectorClock Context SparseRow OpLog ServerRow ClockLRU ProcessStorage OpLogMgr BgWorkers ThreadTable TableGroup.
Open Scope Z_scope.

(** ** Clocks *)

(** [ThreadContextSN::Info] *)
Record LocalThread := mkLocalThread { lt_id : Z; lt_clock : Z; lt_clock_ahead : Z }.
Definition LocalThread_new (thread_id : Z) : LocalThread := mkLocalThread thread_id 0 0.
Definition ThreadContextSN_Clock (t : LocalThread) : LocalThread := mkLocalThread (lt_id t) (i32 (lt_clock t + 1)) (lt_clock_ahead t).
Definition dec_clock_ahead (t : LocalThread) : LocalThread := mkLocalThread (lt_id t) (lt_clock t) (i32 (lt_clock_ahead t - 1)).
Definition set_clock_ahead (clock_ahead : Z) (t : LocalThread) : LocalThread := mkLocalThread (lt_id t) (lt_clock t) clock_ahead.

(** What [CheckWaitClock] does under the lock: it reads the minimum until the
    thread is not too far ahead. *)
Fixpoint wait_clock (staleness : Z) (min_clocks : list Z) (t : LocalThread) : outcome LocalThread :=
  match min_clocks with
  | [] => Undef
  | min_clock :: rest =>
      let clock_ahead := i32 (min_clock - lt_clock t) in
      if bool_decide (clock_ahead < i32 (- staleness)) then wait_clock staleness rest t else Ret (set_clock_ahead clock_ahead t)
  end.

(** [min_clocks] are the values [get_min_clock] returns, one after the other;
    [Undef] if the thread waits for more. *)
Definition CheckWaitClock (staleness : Z) (min_clocks : list Z) (t : LocalThread) : outcome LocalThread :=
  if bool_decide (lt_clock_ahead t >= i32 (- staleness)) then Ret t
  else
    match min_clocks with
    | [] => Undef
    | min_clock :: rest =>
        let clock_ahead := i32 (min_clock - lt_clock t) in
        if bool_decide (clock_ahead >= staleness) then Ret (set_clock_ahead clock_ahead t)
        else wait_clock staleness rest t
    end.

(** ** The rows of a table *)

(** What LevelDB offers besides [LevelDB]: [Get] and [Delete]. *)
Class LevelDBKV `{LevelDB} := {
  ldb_get : string -> list Z -> ldb -> option (list Z);
  ldb_delete : string -> list Z -> ldb -> ldb
}.
Class LevelDBKVOk `{LevelDBKV} := {
  ldb_get_put name k v d : ldb_get name k (ldb_put name k v d) = Some v;
  ldb_get_put_ne name k v k' d : k' <> k -> ldb_get name k' (ldb_put name k v d) = ldb_get name k' d;
  ldb_get_delete_ne name k k' d : k' <> k -> ldb_get name k' (ldb_delete name k d) = ldb_get name k' d
}.

(** A controller's rows: the process cache, and how a row that is not in it is
    put there ([CreateInsertRow], with an accessor to it). *)
Class RowStore (S R : Type) := {
  rs_storage : S -> ProcessStorage R;
  rs_with_storage : ProcessStorage R -> S -> S;
  rs_create_insert : Z -> S -> outcome S
}.

(** The process cache of a [ClientTableSN]. *)
Definition ClientTableSN_storage {R} (process_cache_capacity : Z) : ProcessStorage R :=
  ProcessStorage_new process_cache_capacity (GetLockPoolSize_capacity process_cache_capacity).

Section LOCAL.
Context {R V : Type} `{Num V} `{!AbstractRow R V} `{!HashOrder}.
Context (reg : ClassRegistry (RowClass R)) (row_type_ row_capacity_ : Z).

(** [CreateObject(row_type_)] and [Init(row_capacity_)] *)
Definition create_row : outcome R := c ← deref (CreateObject row_type_ reg); rc_init c row_capacity_.

(** *** [LocalConsistencyController] *)
Definition Local_CreateInsertRow (row_id : Z) (ps : ProcessStorage R) : outcome (ProcessStorage R) :=
  '(found, ps1) ← Find row_id ps;
  match found with
  | Some _ => Ret ps1
  | None =>
      r ← create_row;
      '(_, evicted, ps2) ← Insert true row_id (ClientRow_new 0 r) ps1;
      _ ← CHECK (bool_decide (fst <$> evicted = None));
      Ret ps2
  end.

Definition local_store : RowStore (ProcessStorage R) R := {|
  rs_storage ps := ps;
  rs_with_storage ps _ := ps;
  rs_create_insert := Local_CreateInsertRow
|}.

(** *** [LocalOOCConsistencyController] *)
Section OOC.
Context `{!LevelDB} `{!LevelDBKV}.
Context (ooc_path_prefix : string) (table_id : Z) (alloc : Z -> list Z).

Definition MakeOOCDBPath : string := (ooc_path_prefix +:+ "/" +:+ "table." +:+ pretty table_id)%string.

Record OOCStore := mkOOCStore {
  oc_storage : ProcessStorage R;
  oc_db : ldb;
  on_disk_row_index : gset Z
}.

(** The row read back from the database, or a new one. *)
Definition ooc_load (row_id : Z) (db : ldb) (index : gset Z) : outcome (R * ldb * gset Z) :=
  c ← deref (CreateObject row_type_ reg);
  if bool_decide (row_id ∈ index) then
    let key := cencode I32 row_id in
    value ← checked (ldb_get MakeOOCDBPath key db);
    r ← rc_deserialize c value;
    Ret (r, ldb_delete MakeOOCDBPath key db, index ∖ {[row_id]})
  else r ← rc_init c row_capacity_; Ret (r, db, index).

(** The evicted row is written to the database. *)
Definition ooc_save (evicted : option (Z * ClientRow R)) (db : ldb) (index : gset Z) : outcome (ldb * gset Z) :=
  match evicted with
  | None => Ret (db, index)
  | Some (evicted_row_id, row) =>
      value ← mem_write 0 (row_serialize (cr_data row)) (alloc (row_serialized_size (cr_data row)));
      Ret (ldb_put MakeOOCDBPath (cencode I32 evicted_row_id) value db, {[evicted_row_id]} ∪ index)
  end.

Definition OOC_CreateInsertRow (row_id : Z) (s : OOCStore) : outcome OOCStore :=
  '(found, ps1) ← Find row_id (oc_storage s);
  match found with
  | Some _ => Ret (mkOOCStore ps1 (oc_db s) (on_disk_row_index s))
  | None =>
      '(r, db1, index1) ← ooc_load row_id (oc_db s) (on_disk_row_index s);
      '(_, evicted, ps2) ← Insert true row_id (ClientRow_new 0 r) ps1;
      '(db2, index2) ← ooc_save evicted db1 index1;
      Ret (mkOOCStore ps2 db2 index2)
  end.

Definition ooc_store : RowStore OOCStore R := {|
  rs_storage := oc_storage;
  rs_with_storage ps s := mkOOCStore ps (oc_db s) (on_disk_row_index s);
  rs_create_insert := OOC_CreateInsertRow
|}.

Definition OOCStore_new (capacity : Z) (db : ldb) : OOCStore := mkOOCStore (ClientTableSN_storage capacity) db ∅.
End OOC.
End LOCAL.

(** ** Operations on a table *)

Section OPERATIONS.
Context {S R V : Type} `{!Num V} `{!AbstractRow R V} `{!HashOrder} `{!RowStore S R}.
Implicit Types (s : S).

(** An accessor to the row: it is found, or created and inserted. *)
Definition local_accessor (row_id : Z) s : outcome S :=
  '(found, ps) ← Find row_id (rs_storage s);
  match found with
  | Some _ => Ret (rs_with_storage ps s)
  | None => rs_create_insert row_id (rs_with_storage ps s)
  end.

(** The row an accessor refers to. *)
Definition accessed_row (row_id : Z) s : outcome R :=
  '(row, _) ← deref (storage_map (rs_storage s) !! row_id); Ret (cr_data row).

Definition local_release (row_id : Z) s : outcome S :=
  ps ← ReleaseAccessor row_id (rs_storage s); Ret (rs_with_storage ps s).

(** [Get]; the accessor keeps its reference until [local_release]. *)
Definition Local_Get (staleness : Z) (min_clocks : list Z) (row_id : Z) (t : LocalThread) s : outcome (R * LocalThread * S) :=
  t' ← CheckWaitClock staleness min_clocks t;
  s1 ← local_accessor row_id s;
  r ← accessed_row row_id s1;
  Ret (r, t', s1).

(** [Inc] and [BatchInc] *)
Definition local_write_row (row_id : Z) (f : R -> outcome R) s : outcome S :=
  s1 ← local_accessor row_id s;
  r ← accessed_row row_id s1;
  r' ← f r;
  ps ← set_row_data row_id r' (rs_storage s1);
  local_release row_id (rs_with_storage ps s1).

Definition Local_Inc (row_id column_id : Z) (delta : V) s : outcome S := local_write_row row_id (row_apply_inc column_id delta) s.
Definition Local_BatchInc (row_id : Z) (us : list (Z * V)) s : outcome S := local_write_row row_id (row_apply_batch_inc us) s.

(** *** [ThreadTableSN] *)
Record ThreadTableSN := mkThreadTableSN { sn_rows : gmap Z R; sn_oplogs : gmap Z (RowOpLog V) }.
Definition ThreadTableSN_new : ThreadTableSN := mkThreadTableSN ∅ ∅.

Definition SN_InsertRow (row_id : Z) (to_insert : R) (tt : ThreadTableSN) : outcome ThreadTableSN :=
  row ← match sn_oplogs tt !! row_id with
        | None => Ret to_insert
        | Some l => us ← RowOpLog_iterate l; row_apply_all us to_insert
        end;
  Ret (mkThreadTableSN (<[row_id := row]> (sn_rows tt)) (sn_oplogs tt)).

Definition sn_oplog (row_id : Z) (tt : ThreadTableSN) : RowOpLog V := default RowOpLog_new (sn_oplogs tt !! row_id).

Definition Local_ThreadInc (row_id column_id : Z) (delta : V) (tt : ThreadTableSN) : outcome ThreadTableSN :=
  let l := inc_row_oplog (R := R) (sn_oplog row_id tt) (column_id, delta) in
  rows ← apply_if_cached row_id (row_apply_inc column_id delta) (sn_rows tt);
  Ret (mkThreadTableSN rows (<[row_id := l]> (sn_oplogs tt))).

Definition Local_ThreadBatchInc (row_id : Z) (us : list (Z * V)) (tt : ThreadTableSN) : outcome ThreadTableSN :=
  let l := foldl (inc_row_oplog (R := R)) (sn_oplog row_id tt) us in
  rows ← apply_if_cached row_id (row_apply_batch_inc us) (sn_rows tt);
  Ret (mkThreadTableSN rows (<[row_id := l]> (sn_oplogs tt))).

(** [FlushCache] *)
Definition sn_flush_row (ps : ProcessStorage R) (e : Z * RowOpLog V) : outcome (ProcessStorage R) :=
  us ← RowOpLog_iterate e.2; update_found e.1 (row_apply_all us) ps.

Definition Local_FlushThreadCache (tt : ThreadTableSN) s : outcome (ThreadTableSN * S) :=
  ps ← foldM sn_flush_row (hash_order (sn_oplogs tt)) (rs_storage s);
  Ret (mkThreadTableSN ∅ ∅, rs_with_storage ps s).

(** [Clock]; [TableGroupSN::Clock] does not call it. *)
Definition Local_Clock (tt : ThreadTableSN) s : outcome (ThreadTableSN * S) := Local_FlushThreadCache tt s.

(** What [row_data_ptr_] of a [ThreadRowAccessor] points to: the thread's copy
    or the row in the process cache, which an eviction frees. *)
Inductive thread_row := ThreadCopy | ProcessRow.

Definition Local_ThreadGet (staleness : Z) (min_clocks : list Z) (row_id : Z) (t : LocalThread) (tt : ThreadTableSN) s
    : outcome (thread_row * LocalThread * ThreadTableSN * S) :=
  match sn_rows tt !! row_id with
  | Some _ => Ret (ThreadCopy, t, tt, s)
  | None =>
      t' ← CheckWaitClock staleness min_clocks t;
      s1 ← local_accessor row_id s;
      r ← accessed_row row_id s1;
      tt' ← SN_InsertRow row_id r tt;
      s2 ← local_release row_id s1;
      Ret (ProcessRow, t', tt', s2)
  end.

(** What the application reads through the accessor. *)
Definition read_thread_row (row : thread_row) (row_id : Z) (tt : ThreadTableSN) s : outcome R :=
  match row with
  | ThreadCopy => deref (sn_rows tt !! row_id)
  | ProcessRow => accessed_row row_id s
  end.
End OPERATIONS.
Arguments ThreadTableSN : clear implicits.

(** ** Table groups *)

(** The thread contexts and the shared clock; [tables_] is the tables' own. *)
Record TableGroupSN := mkTableGroupSN {
  lg_threads : gmap Z LocalThread;
  lg_num_registered : Z;
  lg_max_staleness : Z;
  lg_vector_clock : VectorClock
}.

Definition kInitThreadIDOffsetSN : Z := 100.

Definition TableGroupSN_new (table_access : bool) : TableGroupSN :=
  mkTableGroupSN {[kInitThreadIDOffsetSN := LocalThread_new kInitThreadIDOffsetSN]} 1 0
    (if table_access then AddClock kInitThreadIDOffsetSN 0 VectorClock_default else VectorClock_default).

Definition TableGroupSN_CreateTable (config : ClientTableConfig) (tg : TableGroupSN) : bool * TableGroupSN :=
  (true, mkTableGroupSN (lg_threads tg) (lg_num_registered tg)
           (Z.max (lg_max_staleness tg) (table_staleness (tc_table_info config))) (lg_vector_clock tg)).

Definition TableGroupSN_RegisterThread (tg : TableGroupSN) : Z * TableGroupSN :=
  let thread_id := i32 (kInitThreadIDOffsetSN + lg_num_registered tg) in
  (thread_id, mkTableGroupSN (<[thread_id := LocalThread_new thread_id]> (lg_threads tg)) (i32 (lg_num_registered tg + 1))
                (lg_max_staleness tg) (AddClock thread_id 0 (lg_vector_clock tg))).

(** The result tells whether the waiting threads are woken. *)
Definition TableGroupSN_Clock (thread_id : Z) (tg : TableGroupSN) : outcome (bool * TableGroupSN) :=
  t ← deref (lg_threads tg !! thread_id);
  let '(clock, vc) := Tick thread_id (lg_vector_clock tg) in
  Ret (bool_decide (clock <> 0),
       mkTableGroupSN (<[thread_id := dec_clock_ahead (ThreadContextSN_Clock t)]> (lg_threads tg)) (lg_num_registered tg)
         (lg_max_staleness tg) vc).

(** A read by a thread: [CheckWaitClock] with the thread's context. *)
Definition TableGroupSN_wait (staleness thread_id : Z) (min_clocks : list Z) (tg : TableGroupSN) : outcome TableGroupSN :=
  t ← deref (lg_threads tg !! thread_id);
  t' ← CheckWaitClock staleness min_clocks t;
  Ret (mkTableGroupSN (<[thread_id := t']> (lg_threads tg)) (lg_num_registered tg) (lg_max_staleness tg) (lg_vector_clock tg)).

Definition TableGroupSN_GlobalBarrier (thread_id : Z) (tg : TableGroupSN) : outcome TableGroupSN :=
  if decide (in_i32 (lg_max_staleness tg + 1)) then foldM (fun tg _ => snd <$> TableGroupSN_Clock thread_id tg) (seqZ 0 (lg_max_staleness tg + 1)) tg else Undef.
