(* ===== verification/LocalClocks.v ===== *)
(** * Staleness in a single process

    A thread remembers how far the slowest thread is ahead of it
    ([clock_ahead_] of [ThreadContextSN]) and looks at the shared clock only
    when that is not enough ([CheckWaitClock] of
    [petuum_ps_sn/consistency/local_consistency_controller.cpp]). *)
From stdpp Require Import strings.
From S2P Require Import Prelude Bytes Num VectorClock Context SparseRow ServerRow ClockLRU ProcessStorage ThreadTable TableGroup LocalStore.
Open Scope Z_scope.

(** The minima [CheckWaitClock] reads are minima of the shared clock at or
    before the time it returns. *)
Definition read_minima (min_clocks : list Z) (tg : TableGroupSN) : Prop :=
  Forall (fun m => 0 <= m <= get_min_clock (lg_vector_clock tg)) min_clocks.

(** Threads register before any clock ends (the barrier of [RegisterThread]);
    then they end clocks and read.  Clocks stay below 2^30. *)
Inductive local_reach : TableGroupSN -> Prop :=
  | local_start : local_reach (TableGroupSN_new true)
  | local_register tg : local_reach tg -> lg_num_registered tg < 2 ^ 30 ->
      (forall th t, lg_threads tg !! th = Some t -> lt_clock t = 0) -> local_reach (snd (TableGroupSN_RegisterThread tg))
  | local_clock tg th t woken tg' : local_reach tg -> lg_threads tg !! th = Some t -> lt_clock t < 2 ^ 30 ->
      TableGroupSN_Clock th tg = Ret (woken, tg') -> local_reach tg'
  | local_wait tg th staleness min_clocks tg' : local_reach tg -> 0 <= staleness < 2 ^ 30 -> read_minima min_clocks tg ->
      TableGroupSN_wait staleness th min_clocks tg = Ret tg' -> local_reach tg'.

Record local_inv (tg : TableGroupSN) : Prop := {
  li_vc : vc_ok (lg_vector_clock tg);
  li_min : 0 <= get_min_clock (lg_vector_clock tg);
  li_clock : forall th, vec_clock (lg_vector_clock tg) !! th = lt_clock <$> lg_threads tg !! th;
  li_range : forall th t, lg_threads tg !! th = Some t -> 0 <= lt_clock t <= 2 ^ 30;
  li_ahead : forall th t, lg_threads tg !! th = Some t ->
    - lt_clock t <= lt_clock_ahead t <= get_min_clock (lg_vector_clock tg) - lt_clock t;
  li_ids : 1 <= lg_num_registered tg /\
    forall th, is_Some (lg_threads tg !! th) -> kInitThreadIDOffsetSN <= th < kInitThreadIDOffsetSN + lg_num_registered tg
}.

(** The slowest thread is no faster than any thread. *)
Lemma min_le tg th t : local_inv tg -> lg_threads tg !! th = Some t -> get_min_clock (lg_vector_clock tg) <= lt_clock t.
Proof. intros [Hvc _ Hc _ _ _] Ht. apply (proj2 Hvc th). by rewrite Hc, Ht. Qed.

Lemma wait_clock_spec staleness mins t t' mx : 0 <= staleness < 2 ^ 30 -> 0 <= lt_clock t <= 2 ^ 30 -> mx <= lt_clock t ->
  Forall (fun m => 0 <= m <= mx) mins -> wait_clock staleness mins t = Ret t' ->
  lt_clock t' = lt_clock t /\ lt_id t' = lt_id t /\ - lt_clock t <= lt_clock_ahead t' <= mx - lt_clock t /\ lt_clock_ahead t' >= - staleness.
Proof.
  intros Hs Hc Hmx. induction 1 as [|m mins Hm _ IH]; cbn; [done|]. rewrite !i32_id by int_lia. case_bool_decide; [done|].
  intros [= <-]. cbn. lia.
Qed.

(** A wait that ends leaves the thread with a clock no more than [staleness] ahead. *)
Lemma CheckWaitClock_spec staleness mins t t' mx : 0 <= staleness < 2 ^ 30 -> 0 <= lt_clock t <= 2 ^ 30 -> mx <= lt_clock t ->
  - lt_clock t <= lt_clock_ahead t <= mx - lt_clock t -> Forall (fun m => 0 <= m <= mx) mins ->
  CheckWaitClock staleness mins t = Ret t' ->
  lt_clock t' = lt_clock t /\ lt_id t' = lt_id t /\ - lt_clock t <= lt_clock_ahead t' <= mx - lt_clock t /\ lt_clock_ahead t' >= - staleness.
Proof.
  intros Hs Hc Hmx Ha Hm. unfold CheckWaitClock. rewrite (i32_id (- staleness)) by int_lia. case_bool_decide; [intros [= <-]; lia|].
  destruct Hm as [|m mins Hm Hms]; [done|]. rewrite i32_id by int_lia. case_bool_decide; [intros [= <-]; cbn; lia|].
  by apply wait_clock_spec.
Qed.

Lemma local_inv_start : local_inv (TableGroupSN_new true).
Proof.
  constructor; cbn.
  - apply AddClock_first.
  - done.
  - intros th. destruct (decide (th = kInitThreadIDOffsetSN)) as [->|Hne].
    + rewrite ?lookup_insert_eq, ?lookup_singleton_eq. done.
    + rewrite ?lookup_insert_ne, ?lookup_singleton_ne, ?lookup_empty by done. done.
  - intros th t [_ <-]%lookup_singleton_Some. cbn. lia.
  - intros th t [_ <-]%lookup_singleton_Some. split; by vm_compute.
  - split; [lia|]. intros th [t [<- _]%lookup_singleton_Some]. split; by vm_compute.
Qed.

Lemma local_inv_register tg : local_inv tg -> lg_num_registered tg < 2 ^ 30 ->
  (forall th t, lg_threads tg !! th = Some t -> lt_clock t = 0) -> local_inv (snd (TableGroupSN_RegisterThread tg)).
Proof.
  intros Hi Hn Hz. pose proof Hi as [Hvc Hmin Hc Hr Ha [Hn1 Hids]]. unfold TableGroupSN_RegisterThread, kInitThreadIDOffsetSN in *. cbn [snd].
  rewrite !i32_id by int_lia. set (th := 100 + lg_num_registered tg).
  assert (Hfresh : lg_threads tg !! th = None).
  { destruct (lg_threads tg !! th) as [t|] eqn:E; [|done]. destruct (Hids th) as [_ Hlt]; [by eexists|]. unfold th in Hlt. lia. }
  assert (Hmin0 : get_min_clock (lg_vector_clock tg) = 0).
  { destruct (proj1 Hvc) as [i Ei]. rewrite Hc in Ei. destruct (lg_threads tg !! i) as [t|] eqn:E; [|done].
    injection Ei as Ei. unfold get_min_clock. rewrite <- Ei. by apply (Hz i). }
  assert (Hnew : get_min_clock (AddClock th 0 (lg_vector_clock tg)) = 0).
  { unfold get_min_clock, AddClock in *. cbn. rewrite Hmin0. by case_bool_decide. }
  constructor; cbn [lg_vector_clock lg_threads lg_num_registered]; rewrite ?Hnew.
  - apply AddClock_fresh; [done|unfold get_min_clock in Hmin; done|by rewrite Hc, Hfresh].
  - done.
  - intros i. cbn. destruct (decide (i = th)) as [->|Hne]; [by rewrite !lookup_insert_eq|by rewrite !lookup_insert_ne].
  - intros i t [[<- <-]|[_ E]]%lookup_insert_Some; [cbn; lia|by apply (Hr i)].
  - intros i t [[<- <-]|[_ E]]%lookup_insert_Some; [cbn; lia|]. rewrite <- Hmin0. by apply (Ha i).
  - unfold kInitThreadIDOffsetSN. split; [lia|]. intros i [t [[<- _]|[_ E]]%lookup_insert_Some]; [unfold th; lia|]. destruct (Hids i); [by eexists|lia].
Qed.

Lemma local_inv_clock tg th t woken tg' : local_inv tg -> lg_threads tg !! th = Some t -> lt_clock t < 2 ^ 30 ->
  TableGroupSN_Clock th tg = Ret (woken, tg') -> local_inv tg'.
Proof.
  intros Hi Ht Hlt E. pose proof Hi as [Hvc Hmin Hc Hr Ha [Hn1 Hids]]. unfold TableGroupSN_Clock in E. rewrite Ht in E. cbn [deref mbind outcome_bind] in E.
  pose proof (Hr th t Ht) as Hrt. pose proof (Ha th t Ht) as Hat. pose proof (min_le tg th t Hi Ht) as Hm. unfold get_min_clock in *.
  assert (Hcv : vec_clock (lg_vector_clock tg) !! th = Some (lt_clock t)) by by rewrite Hc, Ht.
  assert (Hnext : exists mn, snd (Tick th (lg_vector_clock tg)) = mkVectorClock (<[th := lt_clock t + 1]> (vec_clock (lg_vector_clock tg))) mn /\
    is_min (<[th := lt_clock t + 1]> (vec_clock (lg_vector_clock tg))) mn /\ min_clock (lg_vector_clock tg) <= mn).
  { destruct (Tick_cases th (lg_vector_clock tg) (lt_clock t) Hvc Hcv) as [(_ & Hm' & -> & Hmin')|[-> Hmin']]; [int_lia|int_lia|..]; cbn.
    - exists (lt_clock t + 1). split_and!; [done|done|lia].
    - eexists. by split_and!. }
  destruct Hnext as (mn & Hvc' & Hmin' & Hle). destruct (Tick th (lg_vector_clock tg)) as [clock vc']. cbn in Hvc'. subst vc'. injection E as _ <-.
  constructor; cbn [lg_vector_clock lg_threads lg_num_registered vec_clock]; unfold get_min_clock; cbn [min_clock]; unfold dec_clock_ahead, ThreadContextSN_Clock.
  - exact Hmin'.
  - lia.
  - intros i. destruct (decide (i = th)) as [->|Hne]; [rewrite !lookup_insert_eq; cbn; by rewrite i32_id by int_lia|].
    rewrite !lookup_insert_ne by done. apply Hc.
  - intros i t' [[<- <-]|[_ E]]%lookup_insert_Some; [cbn; rewrite i32_id by int_lia; lia|by apply (Hr i)].
  - intros i t' [[<- <-]|[_ E]]%lookup_insert_Some; [cbn; rewrite !i32_id by int_lia; lia|]. pose proof (Ha i t' E). lia.
  - split; [done|]. intros i [t' [[<- _]|[_ E]]%lookup_insert_Some]; apply Hids; by eexists.
Qed.

Lemma local_inv_wait tg th staleness mins tg' : local_inv tg -> 0 <= staleness < 2 ^ 30 -> read_minima mins tg ->
  TableGroupSN_wait staleness th mins tg = Ret tg' -> local_inv tg'.
Proof.
  intros Hi Hs Hm E. pose proof Hi as [Hvc Hmin Hc Hr Ha [Hn1 Hids]]. unfold TableGroupSN_wait in E.
  destruct (lg_threads tg !! th) as [t|] eqn:Ht; [|done]. cbn [deref mbind outcome_bind] in E. apply bind_Ret_inv in E as (t' & E & [= <-]).
  destruct (CheckWaitClock_spec staleness mins t t' _ Hs (Hr th t Ht) (min_le tg th t Hi Ht) (Ha th t Ht) Hm E) as (Ec & _ & Ha' & _).
  constructor; cbn [lg_vector_clock lg_threads lg_num_registered]; try done.
  - intros i. rewrite Hc. destruct (decide (i = th)) as [->|Hne]; [by rewrite lookup_insert_eq, Ht; cbn; rewrite Ec|by rewrite lookup_insert_ne].
  - intros i ti [[<- <-]|[_ Ei]]%lookup_insert_Some; [rewrite Ec; by apply (Hr th)|by apply (Hr i)].
  - intros i ti [[<- <-]|[_ Ei]]%lookup_insert_Some; [by rewrite Ec|by apply (Ha i)].
  - split; [done|]. intros i [ti [[<- _]|[_ Ei]]%lookup_insert_Some]; apply Hids; by eexists.
Qed.

Lemma local_reach_inv tg : local_reach tg -> local_inv tg.
Proof.
  induction 1; [apply local_inv_start|by apply local_inv_register|by eapply local_inv_clock|by eapply local_inv_wait].
Qed.

(** C20: in a single process a read never sees a clock too old: whenever the
    wait of a read ends, with its cached lead or after looking at the shared
    clock any number of times, every thread of the process has ended all
    clocks up to the reader's clock minus the staleness; and a reader that is
    within that bound does not wait. *)
Theorem local_reads_bounded_staleness tg th t staleness mins :
  local_reach tg -> lg_threads tg !! th = Some t -> 0 <= staleness < 2 ^ 30 -> read_minima mins tg ->
  (forall t', CheckWaitClock staleness mins t = Ret t' ->
     forall th2 t2, lg_threads tg !! th2 = Some t2 -> lt_clock t - staleness <= lt_clock t2) /\
  ((forall th2 t2, lg_threads tg !! th2 = Some t2 -> lt_clock t - staleness <= lt_clock t2) ->
   exists t', CheckWaitClock staleness [get_min_clock (lg_vector_clock tg); get_min_clock (lg_vector_clock tg)] t = Ret t').
Proof.
  intros Hreach Ht Hs Hm. pose proof (local_reach_inv tg Hreach) as Hi. pose proof Hi as [Hvc Hmin Hc Hr Ha _].
  pose proof (Hr th t Ht) as Hrt. pose proof (min_le tg th t Hi Ht) as Hle. split.
  - intros t' E th2 t2 Ht2.
    destruct (CheckWaitClock_spec staleness mins t t' _ Hs Hrt Hle (Ha th t Ht) Hm E) as (_ & _ & Ha' & Hst).
    pose proof (min_le tg th2 t2 Hi Ht2). lia.
  - intros Hall. destruct (proj1 Hvc) as [i Ei]. rewrite Hc in Ei. destruct (lg_threads tg !! i) as [ti|] eqn:Eti; [|done].
    injection Ei as Ei. specialize (Hall i ti Eti). unfold get_min_clock in *. unfold CheckWaitClock. rewrite (i32_id (- staleness)) by int_lia.
    case_bool_decide; [by eexists|]. rewrite i32_id by int_lia. case_bool_decide; [by eexists|]. cbn [wait_clock].
    rewrite !i32_id by int_lia. rewrite bool_decide_false by lia. by eexists.
Qed.

(** *** Witness: two threads, one a clock ahead *)
Definition demo_local : outcome TableGroupSN :=
  snd <$> TableGroupSN_Clock 100 (snd (TableGroupSN_RegisterThread (TableGroupSN_new true))).

Lemma local_reads_bounded_staleness_witness : exists tg t t', demo_local = Ret tg /\ lg_threads tg !! 100 = Some t /\
  CheckWaitClock 1 [] t = Ret t' /\ CheckWaitClock 0 [0; 0] t = Undef /\
  forall th2 t2, lg_threads tg !! th2 = Some t2 -> 0 <= lt_clock t2.
Proof.
  destruct demo_local as [tg| |] eqn:E; [|by vm_compute in E..]. exists tg.
  assert (Hreach : local_reach tg).
  { unfold demo_local in E. set (tg0 := snd (TableGroupSN_RegisterThread (TableGroupSN_new true))) in *.
    destruct (TableGroupSN_Clock 100 tg0) as [[w tg1]| |] eqn:Ec; [|done..]. injection E as <-.
    eapply (local_clock tg0 100 (mkLocalThread 100 0 0)); [|by vm_compute|by vm_compute|exact Ec].
    apply local_register; [apply local_start|by vm_compute|]. intros th t E. cbn in E. apply lookup_singleton_Some in E as [_ <-]. done. }
  assert (Et : lg_threads tg !! 100 = Some (mkLocalThread 100 1 (-1))) by (vm_compute in E; injection E as <-; by vm_compute).
  exists (mkLocalThread 100 1 (-1)), (mkLocalThread 100 1 (-1)). split_and!; [done|done|by vm_compute|by vm_compute|].
  destruct (local_reads_bounded_staleness tg 100 (mkLocalThread 100 1 (-1)) 1 [] Hreach Et) as [Hb _]; [lia|by constructor|].
  intros th2 t2 E2. exact (Hb _ eq_refl th2 t2 E2).
Defined.
