(* ===== verification/LocalProps.v ===== *)
(** * Rows kept on disk lose no update

    [LocalOOCConsistencyController] ([petuum_ps_sn/consistency/]) moves rows
    between the process cache and the database.  The application sees one
    table, a map from row ids to rows; the controller refines it. *)
From stdpp Require Import strings pretty.
From S2P Require Import Prelude Bytes Num DenseRow VectorClock Context SparseRow OpLog ServerRow Snapshot ClockLRU ProcessStorage OpLogMgr BgWorkers ThreadTable TableGroup LocalStore.
Open Scope Z_scope.

(** ** The table the application sees *)

(** The calls of [TableSN]: [Get] (the accessor is dropped), [Inc], [BatchInc]. *)
Inductive table_op (V : Type) :=
  | TGet
  | TInc (column_id : Z) (delta : V)
  | TBatchInc (updates : list (Z * V)).
Arguments TGet {V}.
Arguments TInc {V}.
Arguments TBatchInc {V}.

Section TABLE.
Context {R V : Type} `{!Num V} `{!AbstractRow R V} `{!AbstractRowOk R V} `{!HashOrder}.

Definition op_effect (op : table_op V) : R -> outcome R :=
  match op with
  | TGet => Ret
  | TInc column_id delta => row_apply_inc column_id delta
  | TBatchInc updates => row_apply_batch_inc updates
  end.

(** The call on a controller. *)
Definition op_call {S} `{!RowStore S R} (row_id : Z) (op : table_op V) (s : S) : outcome S :=
  match op with
  | TGet => s1 ← local_accessor row_id s; _ ← accessed_row row_id s1; local_release row_id s1
  | TInc column_id delta => Local_Inc row_id column_id delta s
  | TBatchInc updates => Local_BatchInc row_id updates s
  end.

Definition row_small (r : R) : Prop := row_ok r /\ blen (row_serialize r) < 2 ^ 31.

(** [m] is what a table whose rows start as [r0] holds after [ops]. *)
Inductive table_after (r0 : R) : list (Z * table_op V) -> gmap Z R -> Prop :=
  | table_empty : row_small r0 -> table_after r0 [] ∅
  | table_step ops m row_id op r : table_after r0 ops m -> 0 <= row_id < 2 ^ 31 ->
      op_effect op (default r0 (m !! row_id)) = Ret r -> row_small r ->
      table_after r0 (ops ++ [(row_id, op)]) (<[row_id := r]> m).

Lemma table_after_small r0 ops m id : table_after r0 ops m -> row_small (default r0 (m !! id)).
Proof.
  induction 1 as [|? m i ? r _ IH _ _ Hr]; [by rewrite lookup_empty|].
  destruct (decide (id = i)) as [->|]; [by rewrite lookup_insert_eq|by rewrite lookup_insert_ne].
Qed.

(** ** The controller *)

Section OOC.
Context `{!LevelDB} `{!LevelDBKV} `{!LevelDBKVOk}.
Context (reg : ClassRegistry (RowClass R)) (row_type_ row_capacity_ : Z) (cls : RowClass R) (r0 : R).
Context (Hcls : CreateObject row_type_ reg = Some cls) (Hinit : rc_init cls row_capacity_ = Ret r0).
Context (Hdes : rc_deserialize cls = row_deserialize).
Context (Heqv : forall r r' : R, row_eqv r r' -> r = r').
Context (prefix : string) (table_id : Z) (alloc : Z -> list Z) (Halloc : forall n, 0 <= n -> blen (alloc n) = n).
Context (cap : Z) (Hcap : 0 < cap).

Local Instance store : RowStore OOCStore R := ooc_store reg row_type_ row_capacity_ prefix table_id alloc.

Abbreviation key := (cencode I32).
Abbreviation path := (MakeOOCDBPath prefix table_id).

(** [s] holds the table [m]; an accessor to the row [held] is alive. *)
Record ooc_holds (m : gmap Z R) (bound : Z) (held : option Z) (s : OOCStore) : Prop := {
  oh_storage : ps_ok (oc_storage s);
  oh_cap : ps_capacity (oc_storage s) = cap;
  oh_hand : evict_hand (clock_lru (oc_storage s)) <= bound;
  oh_cached : forall id row slot, storage_map (oc_storage s) !! id = Some (row, slot) ->
    id < 2 ^ 31 /\ row = mkClientRow (if bool_decide (held = Some id) then 1 else 0) (default r0 (m !! id)) None /\
    id ∉ on_disk_row_index s;
  oh_disk : forall id, id ∈ on_disk_row_index s -> 0 <= id < 2 ^ 31 /\
    ldb_get path (key id) (oc_db s) = Some (row_serialize (default r0 (m !! id)));
  oh_none : forall id, is_Some (m !! id) -> is_Some (storage_map (oc_storage s) !! id) \/ id ∈ on_disk_row_index s;
  oh_held : forall id, held = Some id -> is_Some (storage_map (oc_storage s) !! id)
}.

Lemma row_bytes (r : R) : row_small r -> exists bs, mem_write 0 (row_serialize r) (alloc (row_serialized_size r)) = Ret bs /\
  bs = row_serialize r.
Proof.
  intros [Hok Hb]. rewrite <- (row_serialize_size r Hok Hb). set (x := row_serialize r).
  assert (Hx : 0 <= blen x) by (unfold blen; lia).
  destruct (mem_write_ok 0 x (alloc (blen x))) as [bs E]; [done|by rewrite Halloc|]. exists bs. split; [done|].
  pose proof (mem_read_write_same _ _ _ _ E) as Er. apply mem_write_Ret in E as (_ & _ & El).
  unfold mem_read in Er. case_bool_decide; [|done]. injection Er as Er. rewrite <- Er at 1.
  change (Z.to_nat 0) with 0%nat. rewrite drop_0, take_ge; [done|]. rewrite Halloc in El by done. unfold blen in *. lia.
Qed.

(** A row that is loaded. *)
Lemma ooc_load_spec m bound s id : ooc_holds m bound None s -> row_small (default r0 (m !! id)) ->
  storage_map (oc_storage s) !! id = None ->
  exists db, ooc_load reg row_type_ row_capacity_ prefix table_id id (oc_db s) (on_disk_row_index s) =
      Ret (default r0 (m !! id), db, on_disk_row_index s ∖ {[id]}) /\
    (forall id', id' ∈ on_disk_row_index s -> id' <> id -> ldb_get path (key id') db = ldb_get path (key id') (oc_db s)).
Proof.
  intros Hh Hsm Hn. unfold ooc_load. rewrite Hcls. cbn [deref mbind outcome_bind]. case_bool_decide as Hd.
  - destruct (oh_disk _ _ _ _ Hh id Hd) as [Hr E]. rewrite E. cbn [checked mbind outcome_bind].
    destruct Hsm as [Hok Hb]. destruct (row_round_trip _ Hok Hb) as (r' & E' & _ & ->%Heqv). rewrite Hdes, E'. cbn [mbind outcome_bind].
    eexists. split; [done|]. intros id' Hd' Hne. apply ldb_get_delete_ne.
    destruct (oh_disk _ _ _ _ Hh id' Hd'). intros ?%cencode_i32_inj; [done|unfold in_i32; lia..].
  - rewrite Hinit. cbn [mbind outcome_bind]. exists (oc_db s). split; [|done].
    destruct (m !! id) as [r|] eqn:E; [destruct (oh_none _ _ _ _ Hh id) as [[? ?]|?]; [by eexists|congruence|done]|].
    by rewrite difference_disjoint_L by set_solver.
Qed.

(** An evicted row is saved. *)
Lemma ooc_save_spec (evicted : option (Z * ClientRow R)) db index :
  (forall id row, evicted = Some (id, row) -> in_i32 id /\ row_small (cr_data row)) ->
  exists db', ooc_save prefix table_id alloc evicted db index =
      Ret (db', match evicted with Some (id, _) => {[id]} ∪ index | None => index end) /\
    (forall id, in_i32 id -> ldb_get path (key id) db' =
       match evicted with
       | Some (eid, row) => if bool_decide (id = eid) then Some (row_serialize (cr_data row)) else ldb_get path (key id) db
       | None => ldb_get path (key id) db
       end).
Proof.
  intros He. unfold ooc_save. destruct evicted as [[eid row]|]; [|by exists db].
  destruct (He eid row eq_refl) as [Heid Hsm]. destruct (row_bytes _ Hsm) as (bs & -> & ->). cbn [mbind outcome_bind].
  eexists. split; [done|]. intros id Hid. case_bool_decide as Hd; [subst; apply ldb_get_put|].
  apply ldb_get_put_ne. by intros ?%cencode_i32_inj.
Qed.

Lemma ooc_can_insert m bound s id : ooc_holds m bound None s -> bound + 5 * cap < 2 ^ 31 -> can_insert id (oc_storage s).
Proof.
  intros Hh Hb. pose proof (oh_hand _ _ _ _ Hh) as Hhand. pose proof (oh_cap _ _ _ _ Hh) as Hc. split; [lia|].
  intros _ Hn. rewrite (po_num _ _ (oh_storage _ _ _ _ Hh)), Hc in Hn.
  destruct (map_choose (storage_map (oc_storage s))) as (i & [row slot] & E).
  { intros E. rewrite E, map_size_empty in Hn. lia. }
  exists i, row, slot. split; [done|]. by destruct (oh_cached _ _ _ _ Hh _ _ _ E) as (_ & -> & _).
Qed.

(** A missing row is created. *)
Lemma OOC_CreateInsertRow_spec m bound s id : ooc_holds m bound None s -> (forall i, row_small (default r0 (m !! i))) ->
  0 <= id < 2 ^ 31 -> storage_map (oc_storage s) !! id = None -> bound + 5 * cap < 2 ^ 31 ->
  exists s', OOC_CreateInsertRow reg row_type_ row_capacity_ prefix table_id alloc id s = Ret s' /\
    ooc_holds m (bound + 3 * cap) (Some id) s'.
Proof.
  intros Hh Hsm Hid Hn Hb. pose proof Hh as [Hst Hc Hhand Hca Hdi Hno _].
  unfold OOC_CreateInsertRow, Find. rewrite Hn. cbn [mbind outcome_bind].
  destruct (ooc_load_spec m bound s id Hh (Hsm id) Hn) as (db1 & -> & Hdb1). cbn [mbind outcome_bind].
  destruct (ooc_can_insert m bound s id Hh Hb) as [Hh5 Hzero].
  destruct (Insert_total true (oc_storage s) id (ClientRow_new 0 (default r0 (m !! id))) Hst (proj1 Hid) Hh5)
    as (evicted & ps' & -> & [Hok' Hcap' [slot Hrow] Hev Hoth Hha] & _); [by rewrite Hn|done|].
  cbn [mbind outcome_bind]. rewrite Hn in Hrow. cbn in Hrow.
  assert (Hevr : forall eid row, evicted = Some (eid, row) -> 0 <= eid < 2 ^ 31 /\ cr_data row = default r0 (m !! eid) /\
    eid <> id /\ storage_map ps' !! eid = None).
  { intros eid row E. destruct (Hev eid row E) as (Hne & [es Ee] & _ & Hg). destruct (Hca _ _ _ Ee) as (Hlt & -> & _).
    destruct (po_map _ _ Hst _ _ _ Ee) as [? _]. by split_and!. }
  destruct (ooc_save_spec evicted db1 (on_disk_row_index s ∖ {[id]})) as (db2 & -> & Hdb2).
  { intros eid row E. destruct (Hevr eid row E) as (? & -> & _). split; [unfold in_i32; lia|apply Hsm]. }
  cbn [mbind outcome_bind]. eexists. split; [done|].
  assert (Hold : forall i, i <> id -> (exists row, evicted = Some (i, row)) \/ storage_map ps' !! i = storage_map (oc_storage s) !! i).
  { intros i Hne. destruct evicted as [[eid row]|]; cbn in *; [|by right; apply Hoth].
    destruct (decide (eid = i)) as [->|]; [left; by exists row|right; apply Hoth; congruence]. }
  assert (Hidx : forall i, (i ∈ match evicted with Some (eid, _) => {[eid]} ∪ on_disk_row_index s ∖ {[id]} | None => on_disk_row_index s ∖ {[id]} end)
      <-> (exists row, evicted = Some (i, row)) \/ (i ∈ on_disk_row_index s /\ i <> id)).
  { intros i. destruct evicted as [[eid row]|]; rewrite ?elem_of_union, elem_of_difference, ?elem_of_singleton.
    - split; [intros [->|?]; [left; by exists row|by right]|intros [[? [= -> _]]|?]; [by left|by right]].
    - split; [by right|by intros [[? ?]|?]]. }
  constructor; cbn [oc_storage oc_db on_disk_row_index]; [done|congruence|lia|..].
  - intros i row' slot' E. rewrite Hidx. destruct (decide (i = id)) as [->|Hne].
    { rewrite Hrow in E. injection E as <- <-. rewrite bool_decide_true by done. split_and!; [lia|done|].
      intros [[row Ee]|[_ ?]]; [|done]. by destruct (Hevr id row Ee) as (_ & _ & ? & _). }
    destruct (Hold i Hne) as [[row Ee]|Hsame]; [destruct (Hevr i row Ee) as (_ & _ & _ & ?); congruence|].
    rewrite Hsame in E. destruct (Hca _ _ _ E) as (Hlt & -> & Hni). rewrite (bool_decide_false (Some id = Some i)) by congruence.
    split_and!; [done|done|]. intros [[row Ee]|[? _]]; [|done]. destruct (Hevr i row Ee) as (_ & _ & _ & ?). congruence.
  - intros i [[row Ee]|[Hin Hne]]%Hidx.
    + destruct (Hevr i row Ee) as (Hr & Hdat & _). split; [done|]. rewrite Hdb2 by (unfold in_i32; lia).
      rewrite Ee, bool_decide_true by done. by rewrite Hdat.
    + destruct (Hdi i Hin) as [Hr E]. split; [done|]. rewrite Hdb2 by (unfold in_i32; lia).
      destruct evicted as [[eid row]|]; [|by rewrite Hdb1]. rewrite bool_decide_false; [by rewrite Hdb1|]. intros ->.
      destruct (Hev eid row eq_refl) as (_ & [es Ee] & _). by destruct (Hca _ _ _ Ee) as (_ & _ & ?).
  - intros i Hm. rewrite Hidx. destruct (decide (i = id)) as [->|Hne]; [left; by rewrite Hrow|].
    destruct (Hold i Hne) as [?|Hsame]; [by right; left|]. rewrite Hsame.
    destruct (Hno i Hm) as [?|?]; [by left|by right; right].
  - intros i [= <-]. by rewrite Hrow.
Qed.

(** A row of the cache changes in its slot. *)
Lemma ooc_replaced m m' bound held held' s id row slot r ps' : ooc_holds m bound held s ->
  storage_map (oc_storage s) !! id = Some (row, slot) -> (held = None \/ held = Some id) -> (held' = None \/ held' = Some id) ->
  row_replaced (oc_storage s) id (mkClientRow (if bool_decide (held' = Some id) then 1 else 0) (default r0 (m' !! id)) None) slot ps' ->
  (m' = m \/ m' = <[id := r]> m) ->
  ooc_holds m' bound held' (rs_with_storage ps' s).
Proof.
  intros [Hst Hc Hhand Hca Hdi Hno He] Es Hheld Hheld' [Hok Em Hcap' Hha] Hm.
  destruct (Hca _ _ _ Es) as (Hlt & _ & Hni).
  assert (Hother : forall i, i <> id -> m' !! i = m !! i) by (intros i Hne; destruct Hm as [->| ->]; [done|by rewrite lookup_insert_ne]).
  constructor; cbn [oc_storage oc_db on_disk_row_index rs_with_storage store ooc_store]; rewrite ?Em; [done|congruence|lia|..].
  - intros i row' slot' [[<- [= <- <-]]|[Hne E]]%lookup_insert_Some; [done|].
    destruct (Hca _ _ _ E) as (Hi & -> & Hd). rewrite Hother by done. split_and!; [done| |done].
    rewrite !bool_decide_false by (destruct Hheld, Hheld'; congruence). done.
  - intros i Hd. destruct (Hdi i Hd) as [Hr E]. rewrite Hother by (intros ->; done). done.
  - intros i Hi. destruct (decide (i = id)) as [->|Hne]; [left; by rewrite lookup_insert_eq|].
    rewrite lookup_insert_ne by done. apply Hno. by rewrite <- Hother.
  - intros i E. destruct Hheld' as [->| ->]; [done|]. injection E as ->. by rewrite lookup_insert_eq.
Qed.

(** An accessor to a row: one reference to it in the cache. *)
Lemma row_accessor_spec m bound s id : ooc_holds m bound None s -> (forall i, row_small (default r0 (m !! i))) ->
  0 <= id < 2 ^ 31 -> bound + 5 * cap < 2 ^ 31 ->
  exists s' slot, local_accessor id s = Ret s' /\ ooc_holds m (bound + 3 * cap) (Some id) s' /\
    storage_map (oc_storage s') !! id = Some (mkClientRow 1 (default r0 (m !! id)) None, slot).
Proof.
  intros Hh Hsm Hid Hb. enough (Hs : exists s', local_accessor id s = Ret s' /\ ooc_holds m (bound + 3 * cap) (Some id) s').
  { destruct Hs as (s' & E & Hh'). exists s'. destruct (oh_held _ _ _ _ Hh' id eq_refl) as [[row slot] El]. exists slot.
    split_and!; [done|done|]. rewrite El. destruct (oh_cached _ _ _ _ Hh' _ _ _ El) as (_ & -> & _). by rewrite bool_decide_true. }
  unfold local_accessor. cbn [rs_storage store ooc_store]. destruct (storage_map (oc_storage s) !! id) as [[row slot]|] eqn:El.
  - destruct (Find_found id (oc_storage s) row slot (oh_storage _ _ _ _ Hh) El) as (ps' & -> & Hr). cbn [mbind outcome_bind].
    eexists. split; [done|]. destruct (oh_cached _ _ _ _ Hh _ _ _ El) as (_ & -> & _).
    assert (Hh' : ooc_holds m (bound + 3 * cap) None s) by (destruct Hh; constructor; done || lia).
    apply (ooc_replaced m m _ None (Some id) s id _ slot r0 ps' Hh' El); [by left|by right| |by left].
    rewrite bool_decide_true by done. exact Hr.
  - unfold Find. rewrite El. cbn [mbind outcome_bind rs_create_insert rs_with_storage store ooc_store].
    replace (mkOOCStore _ _ _) with s by by destruct s. by apply OOC_CreateInsertRow_spec.
Qed.

Lemma ooc_release m bound s id : ooc_holds m bound (Some id) s ->
  exists s', local_release id s = Ret s' /\ ooc_holds m bound None s'.
Proof.
  intros Hh. destruct (oh_held _ _ _ _ Hh id eq_refl) as [[row slot] El]. unfold local_release. cbn [rs_storage store ooc_store].
  destruct (Release_found id _ row slot (oh_storage _ _ _ _ Hh) El) as (ps' & -> & Hr). cbn [mbind outcome_bind].
  eexists. split; [done|]. destruct (oh_cached _ _ _ _ Hh _ _ _ El) as (_ & -> & _). rewrite bool_decide_true in Hr by done.
  by apply (ooc_replaced m m bound (Some id) None s id _ slot r0 ps' Hh El); [right|left| |left].
Qed.

Lemma write_row_spec m bound s id f r : ooc_holds m bound None s -> (forall i, row_small (default r0 (m !! i))) ->
  0 <= id < 2 ^ 31 -> bound + 5 * cap < 2 ^ 31 -> f (default r0 (m !! id)) = Ret r ->
  exists s', local_write_row id f s = Ret s' /\ ooc_holds (<[id := r]> m) (bound + 3 * cap) None s'.
Proof.
  intros Hh Hsm Hid Hb Ef. destruct (row_accessor_spec m bound s id Hh Hsm Hid Hb) as (s1 & slot & E1 & Hh1 & El).
  unfold local_write_row. rewrite E1. cbn [mbind outcome_bind]. unfold accessed_row, set_row_data. cbn [rs_storage store ooc_store].
  rewrite El. cbn [deref mbind outcome_bind cr_data num_refs cr_clock]. rewrite Ef. cbn [mbind outcome_bind].
  apply ooc_release.
  eapply (ooc_replaced m _ _ (Some id) (Some id)); [exact Hh1|exact El|by right|by right| |by right].
  rewrite bool_decide_true, lookup_insert_eq by done. eapply with_row_replaced; [apply Hh1|exact El].
Qed.

Lemma op_call_spec m bound s id op r : ooc_holds m bound None s -> (forall i, row_small (default r0 (m !! i))) ->
  0 <= id < 2 ^ 31 -> bound + 5 * cap < 2 ^ 31 -> op_effect op (default r0 (m !! id)) = Ret r ->
  exists s', op_call id op s = Ret s' /\ ooc_holds (<[id := r]> m) (bound + 3 * cap) None s'.
Proof.
  intros Hh Hsm Hid Hb Ef. destruct op as [|c u|us]; [|by apply write_row_spec..]. cbn in Ef |- *. injection Ef as <-.
  destruct (row_accessor_spec m bound s id Hh Hsm Hid Hb) as (s1 & slot & E1 & Hh1 & El). rewrite E1. cbn [mbind outcome_bind].
  unfold accessed_row. cbn [rs_storage store ooc_store]. rewrite El. cbn [deref mbind outcome_bind]. apply ooc_release.
  destruct Hh1 as [? ? ? Hca Hdi Hno Hhe]. constructor; try done.
  - intros i row' slot' E. destruct (Hca i row' slot' E) as (? & -> & ?). split_and!; [done| |done].
    destruct (decide (i = id)) as [->|]; [by rewrite lookup_insert_eq|by rewrite lookup_insert_ne].
  - intros i Hi. destruct (Hdi i Hi) as [? E]. split; [done|].
    destruct (decide (i = id)) as [->|]; [by rewrite lookup_insert_eq|by rewrite lookup_insert_ne].
  - intros i Hi. destruct (decide (i = id)) as [->|]; [left; by apply Hhe|]. apply Hno. by rewrite lookup_insert_ne in Hi.
Qed.

Lemma ooc_new_holds db : row_small r0 -> cap < 2 ^ 29 -> ooc_holds ∅ 0 None (OOCStore_new cap db).
Proof.
  intros Hs Hc. constructor; cbn [OOCStore_new oc_storage oc_db on_disk_row_index]; try done.
  - apply ProcessStorage_new_ok; [lia|]. pose proof (lock_pool_size_bounds cap). lia.
  - intros id [? E]. by rewrite lookup_empty in E.
Qed.

(** The calls one after the other. *)
Definition run_calls {S} `{!RowStore S R} (ops : list (Z * table_op V)) (s : S) : outcome S :=
  foldM (fun s '(row_id, op) => op_call row_id op s) ops s.

Lemma run_calls_holds ops m db : table_after r0 ops m -> cap < 2 ^ 29 ->
  3 * cap * (Z.of_nat (length ops) + 2) < 2 ^ 31 ->
  exists s, run_calls ops (OOCStore_new cap db) = Ret s /\ ooc_holds m (3 * cap * Z.of_nat (length ops)) None s.
Proof.
  induction 1 as [|ops m id op r Ht IH Hid Ee Hsm]; intros Hc Hb.
  - eexists. split; [done|]. rewrite Z.mul_0_r. by apply ooc_new_holds.
  - rewrite length_app in *. cbn [length] in *. destruct IH as (s & E & Hh); [lia..|]. unfold run_calls.
    rewrite foldM_app. unfold run_calls in E. rewrite E. cbn [mbind outcome_bind foldM].
    destruct (op_call_spec m _ s id op r Hh) as (s' & -> & Hh'); [intros i; by eapply table_after_small|done|lia|done|].
    exists s'. split; [done|]. by replace (3 * cap * Z.of_nat (length ops + 1)) with (3 * cap * Z.of_nat (length ops) + 3 * cap) by lia.
Qed.

(** What a read returns then. *)
Lemma ooc_read m bound s id staleness min_clocks t t' : ooc_holds m bound None s -> (forall i, row_small (default r0 (m !! i))) ->
  0 <= id < 2 ^ 31 -> bound + 5 * cap < 2 ^ 31 -> CheckWaitClock staleness min_clocks t = Ret t' ->
  exists s', Local_Get staleness min_clocks id t s = Ret (default r0 (m !! id), t', s').
Proof.
  intros Hh Hsm Hid Hb Hw. destruct (row_accessor_spec m bound s id Hh Hsm Hid Hb) as (s1 & slot & E1 & Hh1 & El).
  exists s1. unfold Local_Get. rewrite Hw. cbn [mbind outcome_bind]. rewrite E1. cbn [mbind outcome_bind].
  unfold accessed_row. cbn [rs_storage store ooc_store]. by rewrite El.
Qed.
End OOC.
End TABLE.

(** C7: a table whose rows are kept on disk is the table the application
    sees: whatever sequence of reads and updates is performed, and however
    small the process cache is, the out-of-core controller carries it out, and
    a read of any row then returns the initial row with all updates to it,
    whether the row is cached, on disk, or never touched. *)
Theorem ooc_refines_table {R V} `{!Num V} `{!AbstractRow R V} `{!AbstractRowOk R V} `{!HashOrder}
    `{!LevelDB} `{!LevelDBKV} `{!LevelDBKVOk}
    (reg : ClassRegistry (RowClass R)) row_type row_capacity cls (r0 : R) prefix table_id alloc cap db ops m
    id staleness min_clocks t t' :
  CreateObject row_type reg = Some cls -> rc_init cls row_capacity = Ret r0 -> rc_deserialize cls = row_deserialize ->
  (forall r r' : R, row_eqv r r' -> r = r') -> (forall n, 0 <= n -> blen (alloc n) = n) ->
  0 < cap < 2 ^ 29 -> 3 * cap * (Z.of_nat (length ops) + 2) < 2 ^ 31 ->
  table_after (V := V) r0 ops m -> 0 <= id < 2 ^ 31 -> CheckWaitClock staleness min_clocks t = Ret t' ->
  let controller := ooc_store reg row_type row_capacity prefix table_id alloc in
  exists s s', run_calls ops (OOCStore_new cap db) = Ret s /\
    Local_Get staleness min_clocks id t s = Ret (default r0 (m !! id), t', s').
Proof.
  intros Hcls Hinit Hdes Heqv Ha Hc Hb Ht Hid Hw controller.
  destruct (run_calls_holds reg row_type row_capacity cls r0 Hcls Hinit Hdes Heqv prefix table_id alloc Ha cap (proj1 Hc)
    ops m db Ht (proj2 Hc) Hb) as (s & E & Hh). exists s.
  destruct (ooc_read reg row_type row_capacity cls r0 Hcls Hinit Hdes Heqv prefix table_id alloc Ha cap (proj1 Hc)
    m _ s id staleness min_clocks t t' Hh) as (s' & E'); [intros i; by eapply table_after_small|done|lia|done|].
  exists s'. split; [exact E|exact E'].
Qed.

(** *** Witness: three rows in a cache for one *)
#[export] Instance demo_kv : LevelDBKV := {
  ldb_get name k d := default ∅ ((d : gmap string (gmap (list Z) (list Z))) !! name) !! k;
  ldb_delete name k d := <[name := delete k (default ∅ ((d : gmap string (gmap (list Z) (list Z))) !! name))]> d
}.
#[export] Instance demo_kv_ok : LevelDBKVOk.
Proof.
  constructor; intros; cbn; rewrite lookup_insert_eq; cbn.
  - apply lookup_insert_eq.
  - by rewrite lookup_insert_ne.
  - by rewrite lookup_delete_ne.
Qed.

Definition demo_table_calls : list (Z * table_op int32) :=
  [(0, TInc 1 (to_int32 5)); (1, TBatchInc [(0, to_int32 7)]); (2, TGet); (0, TInc 1 (to_int32 6))].

Lemma ooc_refines_table_witness : exists s s' r,
  let controller := ooc_store demo_registry 0 3 "/tmp" 1 (fun n => replicate (Z.to_nat n) 0) in
  run_calls demo_table_calls (OOCStore_new 1 ∅) = Ret s /\
  Local_Get 0 [] 0 (LocalThread_new 100) s = Ret (r, LocalThread_new 100, s') /\ row_get r 1 = Ret (to_int32 11).
Proof.
  set (r0 := mkDenseRow [to_int32 0; to_int32 0; to_int32 0] 3).
  destruct (ooc_refines_table demo_registry 0 3 (mkRowClass row_init row_deserialize) r0 "/tmp" 1
    (fun n => replicate (Z.to_nat n) 0) 1 ∅ demo_table_calls
    (<[0 := mkDenseRow [to_int32 0; to_int32 11; to_int32 0] 3]> (<[2 := r0]> (<[1 := mkDenseRow [to_int32 7; to_int32 0; to_int32 0] 3]>
      (<[0 := mkDenseRow [to_int32 0; to_int32 5; to_int32 0] 3]> ∅)))) 0 0 [] (LocalThread_new 100) (LocalThread_new 100))
    as (s & s' & E & E').
  - reflexivity.
  - by vm_compute.
  - reflexivity.
  - by intros r r' E.
  - intros n Hn. unfold blen. rewrite length_replicate. lia.
  - lia.
  - cbn [length demo_table_calls]. lia.
  - assert (Hs : forall d, length d = 3%nat -> row_small (mkDenseRow d 3 : DenseRow int32)).
    { intros d Hd. split; [split; [cbn; lia|by vm_compute]|]. change (blen (v_array_bytes d) < 2 ^ 31). rewrite v_array_bytes_length, Hd. by vm_compute. }
    change demo_table_calls with (((([] ++ [(0, TInc 1 (to_int32 5))]) ++ [(1, TBatchInc [(0, to_int32 7)])]) ++ [(2, TGet)]) ++ [(0, TInc 1 (to_int32 6))]).
    repeat (apply table_step; [|lia|by vm_compute|by apply Hs]). constructor. by apply Hs.
  - lia.
  - reflexivity.
  - exists s, s'. eexists. split_and!; [exact E|exact E'|by vm_compute].
Defined.
