(* ===== verification/LocalThreads.v ===== *)
(** * The thread cache of the single-process server

    [ThreadTableSN] ([petuum_ps_sn/client/thread_table.cpp]) and the calls of
    [LocalConsistencyController] that go through it: what a thread reads, and
    what reaches the process cache when it is flushed. *)
From S2P Require Import Prelude Bytes Num Context SparseRow DenseRow AdditiveRow OpLog OpLogWire ServerRow Snapshot ClockLRU ProcessStorage ThreadTable OpLogMgr BgWorkers Consistency ThreadProps ThreadEquiv LocalStore.
Open Scope Z_scope.

(** A controller's rows are those of its process cache. *)
Class RowStoreOk {S R} (RS : RowStore S R) : Prop :=
  rs_storage_with ps (s : S) : rs_storage (rs_with_storage ps s) = ps.

Section LOCAL_THREADS.
Context {S R V : Type} `{NumOk V} `{!AbstractRow R V} `{!AbstractRowOk R V} `{!AdditiveRow R V}.
Context `{!HashOrder, !HashOrderOk} `{RS : !RowStore S R} `{!RowStoreOk RS}.
Implicit Types (s : S) (l : list (batch V)).

Definition local_thread_call (tt : ThreadTableSN R V) (c : update_call V) : outcome (ThreadTableSN R V) :=
  match c with
  | CallInc row_id column_id delta => Local_ThreadInc row_id column_id delta tt
  | CallBatchInc row_id us => Local_ThreadBatchInc row_id us tt
  end.

(** The same table without an index. *)
Definition as_thread (tt : ThreadTableSN R V) : ThreadTable R V := mkThreadTable [] (sn_rows tt) (sn_oplogs tt).
Definition of_thread (th : ThreadTable R V) : ThreadTableSN R V := mkThreadTableSN (tt_rows th) (tt_oplogs th).

Lemma local_call_thread tt c : local_thread_call tt c = of_thread <$> thread_call (as_thread tt) c.
Proof.
  destruct c as [r c u|r us]; cbn; unfold Local_ThreadInc, Local_ThreadBatchInc, SSP_ThreadInc, SSP_ThreadBatchInc, ThreadTable_Inc, ThreadTable_BatchInc;
    cbn [as_thread tt_rows]; by destruct (apply_if_cached r _ (sn_rows tt)).
Qed.

Lemma local_calls_spec cs tt : thread_accepts (updates_for (call_batch <$> cs)) (as_thread tt) ->
  exists tt', foldM local_thread_call cs tt = Ret tt' /\ thread_after (call_batch <$> cs) (as_thread tt) (as_thread tt').
Proof.
  revert tt. induction cs as [|c cs IH]; intros tt Ha.
  - exists tt. split; [done|]. by destruct (thread_calls_spec [] (as_thread tt) Ha) as (th & [= <-] & A).
  - rewrite fmap_cons in *. destruct (thread_call_spec (as_thread tt) c) as (th1 & E1 & A1).
    { by apply (thread_accepts_cons _ _ (as_thread tt) (as_thread tt) Ha). }
    assert (Hth : as_thread (of_thread th1) = th1) by (destruct th1, A1; cbn in *; by subst).
    destruct (IH (of_thread th1)) as (tt2 & E2 & A2); [rewrite Hth; by apply (thread_accepts_cons _ _ (as_thread tt) th1 Ha)|].
    exists tt2. cbn [foldM]. rewrite local_call_thread, E1. cbn [fmap outcome_fmap mbind outcome_bind]. split; [done|].
    rewrite Hth in A2. by eapply thread_after_cons.
Qed.

Lemma thread_new_accepts ups : thread_accepts ups (as_thread ThreadTableSN_new).
Proof. intros id r E. cbn in E. by rewrite lookup_empty in E. Qed.

(** [FlushCache] over the rows [es]. *)
Lemma sn_flush_rows (es : list (Z * RowOpLog V)) (ps : ProcessStorage R) :
  storage_ok ps -> accepts (updates_for (flushed_batch <$> es)) ps ->
  exists ps', foldM sn_flush_row es ps = Ret ps' /\ storage_after (updates_for (flushed_batch <$> es)) ps ps'.
Proof.
  revert ps. induction es as [|e es IH]; intros ps Hok Ha.
  - exists ps. split; [done|]. by apply storage_after_nil.
  - rewrite fmap_cons in *. set (b := flushed_batch e) in *.
    assert (Hsp : accepts (updates_for [b]) ps /\ accepts (updates_for (flushed_batch <$> es)) ps).
    { split; intros id row slot E; specialize (Ha id row slot E); unfold updates_for in *; rewrite row_updates_cons in Ha;
        apply Forall_app in Ha; tauto. }
    destruct Hsp as [Ha1 Ha2].
    destruct (update_found_spec e.1 (row_apply_all b.2) b.2 ps Hok) as (ps1 & E1 & A1).
    { intros row slot E. destruct (accepted_row b ps row slot Hok Ha1 E) as (r' & ? & _ & ?). by exists r'. }
    destruct (IH ps1) as (ps2 & E2 & A2); [apply A1|by eapply accepts_after|]. exists ps2. cbn [foldM].
    assert (E : sn_flush_row ps e = Ret ps1) by (unfold sn_flush_row; rewrite RowOpLog_iterate_spec; exact E1).
    rewrite E. cbn [mbind outcome_bind]. split; [exact E2|]. eapply storage_after_ext; [|exact (storage_after_app _ _ _ _ _ A1 A2)].
    intros id. symmetry. exact (row_updates_cons b _ id).
Qed.

(** A row put into the cache gets the updates the thread has not flushed. *)
Lemma SN_InsertRow_spec l tt row_id r : thread_after l (as_thread ThreadTableSN_new) (as_thread tt) ->
  row_ok r -> Forall (fun cu => ar_col r cu.1) (updates_for l row_id) ->
  exists r', SN_InsertRow row_id r tt = Ret (mkThreadTableSN (<[row_id := r']> (sn_rows tt)) (sn_oplogs tt)) /\
    row_after r (updates_for l row_id) r'.
Proof.
  intros Ha Hr Hc. destruct (InsertRow_spec l (as_thread ThreadTableSN_new) (as_thread tt) row_id r eq_refl Ha Hr Hc) as (r' & E & A). exists r'. split; [|done].
  unfold InsertRow, SN_InsertRow in *. cbn [as_thread tt_oplogs tt_rows tt_index] in E. apply bind_Ret_inv in E as (row & -> & E).
  cbn [mbind outcome_bind]. injection E as E. by rewrite E.
Qed.
End LOCAL_THREADS.

#[export] Instance local_store_ok {R V} `{!AbstractRow R V} `{!HashOrder} (reg : ClassRegistry (RowClass R)) row_type row_capacity :
  RowStoreOk (local_store reg row_type row_capacity).
Proof. done. Qed.
#[export] Instance ooc_store_ok {R V} `{!AbstractRow R V} `{!HashOrder} `{!LevelDB} `{!LevelDBKV} (reg : ClassRegistry (RowClass R))
    row_type row_capacity prefix table_id alloc : RowStoreOk (ooc_store reg row_type row_capacity prefix table_id alloc).
Proof. done. Qed.

(** What a flush of a thread's cache does in a single process: every row of
    the process cache has in each column its value plus the sum of the
    thread's updates to it, and the thread's cache is empty; but a row that is
    not in the process cache stays out of it, so the updates the thread made
    to it are gone. *)
Lemma local_flush_drops_uncached {S R V} `{NumOk V} `{!AbstractRow R V} `{!AbstractRowOk R V} `{!AdditiveRow R V}
    `{!HashOrder, !HashOrderOk} `{RS : !RowStore S R} `{!RowStoreOk RS} (calls : list (update_call V)) (s : S) :
  storage_ok (rs_storage s) -> Forall batch_ok (call_batch <$> calls) ->
  accepts (updates_for (call_batch <$> calls)) (rs_storage s) ->
  exists tt s', foldM local_thread_call calls ThreadTableSN_new = Ret tt /\
    Local_FlushThreadCache tt s = Ret (ThreadTableSN_new, s') /\
    storage_after (updates_for (call_batch <$> calls)) (rs_storage s) (rs_storage s') /\
    (forall id, storage_map (rs_storage s) !! id = None -> storage_map (rs_storage s') !! id = None).
Proof.
  intros Hok Hl Hacc. destruct (local_calls_spec calls ThreadTableSN_new (thread_new_accepts _)) as (tt & E & A).
  assert (Hh : holds (call_batch <$> calls) (as_thread tt)) by (apply (holds_after _ (as_thread ThreadTableSN_new)); [done|exact A]).
  destruct (sn_flush_rows (hash_order (sn_oplogs tt)) (rs_storage s) Hok) as (ps & Ef & Af).
  { exact (thread_updates_accepted _ (as_thread tt) _ Hh Hacc). }
  exists tt, (rs_with_storage ps s). split; [done|]. unfold Local_FlushThreadCache. rewrite Ef. cbn [mbind outcome_bind].
  rewrite (rs_storage_with ps s).
  assert (Hsum : storage_after (updates_for (call_batch <$> calls)) (rs_storage s) ps).
  { eapply storage_after_sum; [|exact Af]. intros id c. unfold updates_for.
    change (flushed_batch <$> hash_order (sn_oplogs tt)) with (flushed_batches (tt_oplogs (as_thread tt))).
    rewrite (thread_updates (R := R) _ _ id Hh). destruct (row_updates (call_batch <$> calls) id) as [us|]; cbn; [|done].
    apply coalesced_entries_sum. }
  split_and!; [done|done|]. intros id En. pose proof (sa_rows _ _ _ Hsum id) as Hid. rewrite En in Hid. by inversion Hid.
Qed.

(** The first read of a row through the thread cache does not show the
    thread its own updates: the accessor refers to the row in the process
    cache, while the copy with the updates, which every later read returns,
    is put aside. *)
Lemma local_thread_get_misses_own_updates {S R V} `{NumOk V} `{!AbstractRow R V} `{!AbstractRowOk R V} `{!AdditiveRow R V}
    `{!HashOrder} `{RS : !RowStore S R} `{!RowStoreOk RS} (calls : list (update_call V)) (s : S) row_id row slot staleness min_clocks t t' :
  storage_ok (rs_storage s) -> storage_map (rs_storage s) !! row_id = Some (row, slot) ->
  Forall (fun cu => ar_col (cr_data row) cu.1) (updates_for (call_batch <$> calls) row_id) ->
  CheckWaitClock staleness min_clocks t = Ret t' ->
  exists tt tt' s' r', foldM local_thread_call calls ThreadTableSN_new = Ret tt /\
    Local_ThreadGet staleness min_clocks row_id t tt s = Ret (ProcessRow, t', tt', s') /\
    read_thread_row ProcessRow row_id tt' s' = Ret (cr_data row) /\
    Local_ThreadGet staleness min_clocks row_id t' tt' s' = Ret (ThreadCopy, t', tt', s') /\
    read_thread_row ThreadCopy row_id tt' s' = Ret r' /\
    row_after (cr_data row) (updates_for (call_batch <$> calls) row_id) r'.
Proof.
  intros Hok El Hcol Hw. destruct (local_calls_spec calls ThreadTableSN_new (thread_new_accepts _)) as (tt & E & A).
  destruct (Find_found row_id _ row slot (so_ps _ Hok) El) as (ps1 & E1 & A1).
  destruct (Release_found row_id ps1 (IncRef row) slot (rr_ok _ _ _ _ _ A1) (row_replaced_at _ _ _ _ _ A1)) as (ps2 & E2 & A2).
  destruct (SN_InsertRow_spec _ tt row_id (cr_data row) A (so_rows _ Hok _ _ _ El) Hcol) as (r' & E3 & A3).
  assert (Hn : sn_rows tt !! row_id = None).
  { pose proof (tf_rows _ _ _ A row_id) as Hr. cbn [as_thread tt_rows ThreadTableSN_new sn_rows] in Hr. rewrite lookup_empty in Hr. by inversion Hr. }
  exists tt, (mkThreadTableSN (<[row_id := r']> (sn_rows tt)) (sn_oplogs tt)), (rs_with_storage ps2 (rs_with_storage ps1 s)), r'.
  split; [done|]. unfold Local_ThreadGet. cbn [sn_rows]. rewrite Hn, lookup_insert_eq, Hw. cbn [mbind outcome_bind].
  unfold local_accessor. rewrite E1. cbn [mbind outcome_bind]. unfold accessed_row, local_release. rewrite rs_storage_with, (row_replaced_at _ _ _ _ _ A1).
  cbn [deref mbind outcome_bind IncRef cr_data]. rewrite E3. cbn [mbind outcome_bind]. rewrite E2. cbn [mbind outcome_bind].
  split_and!; [done| |done| |done].
  - cbn [read_thread_row]. unfold accessed_row. rewrite rs_storage_with, (row_replaced_at _ _ _ _ _ A2). done.
  - cbn [read_thread_row sn_rows]. by rewrite lookup_insert_eq.
Qed.

(** *** Witnesses: row 3 is cached, row 4 is not *)
Definition demo_sparse_registry : ClassRegistry (RowClass (SparseRow int32)) :=
  AddCreator 0 (mkRowClass row_init row_deserialize) ClassRegistry_new.
#[local] Instance demo_local_store : RowStore (ProcessStorage (SparseRow int32)) (SparseRow int32) :=
  local_store demo_sparse_registry 0 4.

