(* ===== verification/MsgTracker.v ===== *)
(** * The message tracker

    [MsgTracker] ([petuum_ps/thread/msg_tracker.hpp], [msg_tracker.cpp]):
    sequence numbers, cumulative acknowledgements and a sliding window for
    the messages to and from each client, with rings of messages held back
    and of messages sent.  The rest of the server does not use it yet. *)
From stdpp Require Import functions.
From S2P Require Import Prelude.
Open Scope Z_scope.

(** ** Stored messages *)

(** A [NumberedMsg]: its two numbers, whether it lies in the stack buffer, and
    its other bytes. *)
Record NumberedMsg := mkNumberedMsg { seq_num : Z; ack_num : Z; use_stack_buff : bool; msg_body : list Z }.

(** [msg_ptr_] ([None] is null) and what is in [stack_mem_]. *)
Record MsgBuffer := mkMsgBuffer { msg_ptr : option NumberedMsg; stack_mem : option NumberedMsg }.
Definition MsgBuffer_new : MsgBuffer := mkMsgBuffer None None.

Definition AssignMsg (new_msg : NumberedMsg) (b : MsgBuffer) : MsgBuffer :=
  if use_stack_buff new_msg then mkMsgBuffer (msg_ptr b) (Some new_msg) else mkMsgBuffer (Some new_msg) (stack_mem b).

(** What a returned pointer refers to, and [should_free]. *)
Definition ReleaseMsg (b : MsgBuffer) : option NumberedMsg * bool * MsgBuffer :=
  match msg_ptr b with
  | Some _ => (None, true, mkMsgBuffer None (stack_mem b))
  | None => (stack_mem b, false, b)
  end.
Definition GetMsg (b : MsgBuffer) : option NumberedMsg :=
  match msg_ptr b with Some m => Some m | None => stack_mem b end.

(** ** Rings *)

(** [num_buffered_..._msgs_], [circ_..._buff_st_] (the next free slot),
    [circ_..._buff_end_] (the next slot to read), capacity and slots. *)
Record Ring := mkRing { num_buffered : Z; circ_st : Z; circ_end : Z; circ_capacity : Z; circ_buff : list MsgBuffer }.
Definition Ring_new (capacity : Z) : Ring := mkRing 0 0 0 capacity (replicate (Z.to_nat capacity) MsgBuffer_new).

(** [AddOneMsg] and [AddOneSentMsg] *)
Definition Ring_add (new_msg : NumberedMsg) (r : Ring) : outcome Ring :=
  _ ← CHECK (bool_decide (num_buffered r < circ_capacity r));
  slot ← vec_at (circ_buff r) (circ_st r);
  buff ← vec_set (circ_buff r) (circ_st r) (AssignMsg new_msg slot);
  Ret (mkRing (i32 (num_buffered r + 1)) (Z.rem (i32 (circ_st r + 1)) (circ_capacity r)) (circ_end r) (circ_capacity r) buff).

(** [GetOneMsg] *)
Definition GetOneMsg (r : Ring) : outcome (option NumberedMsg * bool * Ring) :=
  _ ← CHECK (bool_decide (num_buffered r > 0));
  slot ← vec_at (circ_buff r) (circ_end r);
  let '(msg, should_free, slot') := ReleaseMsg slot in
  buff ← vec_set (circ_buff r) (circ_end r) slot';
  Ret (msg, should_free,
       mkRing (i32 (num_buffered r - 1)) (circ_st r) (Z.rem (i32 (circ_end r + 1)) (circ_capacity r)) (circ_capacity r) buff).

(** [GetOneSentMsg] *)
Definition GetOneSentMsg (r : Ring) : outcome (option NumberedMsg * Ring) :=
  _ ← CHECK (bool_decide (num_buffered r > 0));
  slot ← vec_at (circ_buff r) (circ_end r);
  Ret (GetMsg slot,
       mkRing (i32 (num_buffered r - 1)) (circ_st r) (Z.rem (i32 (circ_end r + 1)) (circ_capacity r)) (circ_capacity r) (circ_buff r)).

(** One turn of the loop of [ReleasesNSentMsgs], which frees what [ReleaseMsg]
    returns (null for a message outside the stack buffer). *)
Definition release_sent (r : Ring) (_ : Z) : outcome Ring :=
  slot ← vec_at (circ_buff r) (circ_end r);
  buff ← vec_set (circ_buff r) (circ_end r) (snd (ReleaseMsg slot));
  Ret (mkRing (num_buffered r) (circ_st r) (Z.rem (i32 (circ_end r + 1)) (circ_capacity r)) (circ_capacity r) buff).
Definition ReleasesNSentMsgs (num_msgs : Z) (r : Ring) : outcome Ring :=
  r' ← foldM release_sent (seqZ 0 num_msgs) r;
  Ret (mkRing (i32 (num_buffered r' - num_msgs)) (circ_st r') (circ_end r') (circ_capacity r') (circ_buff r')).

Definition can_buffer_more_msgs (r : Ring) : bool := bool_decide (num_buffered r < circ_capacity r).

(** ** Clients *)

Record ClientInfo := mkClientInfo {
  send_seq_num : Z; send_ack_num : Z; recv_seq_num : Z; recv_ack_num : Z;
  circ_msg : Ring; circ_sent_msg : Ring
}.
Definition ClientInfo_new (circ_msg_buff_capacity circ_sent_msg_buff_capacity : Z) : ClientInfo :=
  mkClientInfo (u32 (-1)) (u32 (-1)) (u32 (-1)) (u32 (-1)) (Ring_new circ_msg_buff_capacity) (Ring_new circ_sent_msg_buff_capacity).
Definition set_rings (held sent : Ring) (c : ClientInfo) : ClientInfo :=
  mkClientInfo (send_seq_num c) (send_ack_num c) (recv_seq_num c) (recv_ack_num c) held sent.

Inductive MsgStatus := SEND_OK | RECV_OK | SEND_HOLD | SEND_REJ | RECV_OUTORDER | RECV_DUPLICATE | RECV_UNBLOCK | RECV_REPLY | RECV_ERR.
#[export] Instance msg_status_eq_dec : EqDecision MsgStatus.
Proof. solve_decision. Defined.

Section TRACKER.
Context (window_size : Z).

Definition ok_to_send (c : ClientInfo) : bool := negb (bool_decide (u32 (send_seq_num c - send_ack_num c) = window_size)).

(** The numbers of the next message. *)
Definition next_numbers (c : ClientInfo) : Z * Z * ClientInfo :=
  (send_seq_num c, recv_seq_num c,
   mkClientInfo (u32 (send_seq_num c + 1)) (send_ack_num c) (recv_seq_num c) (recv_seq_num c) (circ_msg c) (circ_sent_msg c)).

(** [PrepareSend] once the client is found; the message with its numbers. *)
Definition prepare_send (msg : NumberedMsg) (c : ClientInfo) : outcome (MsgStatus * NumberedMsg * ClientInfo) :=
  if ok_to_send c then
    let '(seq, ack, c') := next_numbers c in
    Ret (SEND_OK, mkNumberedMsg seq ack (use_stack_buff msg) (msg_body msg), c')
  else if can_buffer_more_msgs (circ_msg c) then
    r ← Ring_add msg (circ_msg c); Ret (SEND_HOLD, msg, set_rings r (circ_sent_msg c) c)
  else Ret (SEND_REJ, msg, c).

(** [CheckGetSendInfo] once the client is found; [None] leaves the results
    unassigned. *)
Definition check_send_info (c : ClientInfo) : MsgStatus * option (Z * Z) * ClientInfo :=
  if ok_to_send c then let '(seq, ack, c') := next_numbers c in (SEND_OK, Some (seq, ack), c')
  else (SEND_REJ, None, c).

(** [CheckRecv] once the client is found. *)
Definition check_recv (msg : NumberedMsg) (c : ClientInfo) : MsgStatus * ClientInfo :=
  if bool_decide (seq_num msg = u32 (recv_seq_num c + 1)) then
    let c' := mkClientInfo (send_seq_num c) (ack_num msg) (u32 (recv_seq_num c + 1)) (recv_ack_num c) (circ_msg c) (circ_sent_msg c) in
    (if bool_decide (u32 (recv_seq_num c' - recv_ack_num c') = window_size) then RECV_REPLY else RECV_OK, c')
  else if bool_decide (u32 (seq_num msg - recv_ack_num c) <= window_size) then (RECV_OUTORDER, c)
  else if bool_decide (u32 (recv_ack_num c - seq_num msg) <= window_size) then (RECV_DUPLICATE, c)
  else (RECV_ERR, c).

(** *** The map of clients

    [find] comes before the insertion of a new client, so for a new client
    the iterator that is used afterwards is the end of the map. *)
Definition MsgTracker : Type := gmap Z ClientInfo.
Definition find_client (client_id : Z) (t : MsgTracker) : outcome ClientInfo := deref (t !! client_id).

Definition PrepareSend (client_id : Z) (msg : NumberedMsg) (t : MsgTracker) : outcome (MsgStatus * NumberedMsg * MsgTracker) :=
  c ← find_client client_id t;
  '(status, msg', c') ← prepare_send msg c;
  Ret (status, msg', <[client_id := c']> t).

Definition CheckGetSendInfo (client_id : Z) (t : MsgTracker) : outcome (MsgStatus * option (Z * Z) * MsgTracker) :=
  c ← find_client client_id t;
  let '(status, numbers, c') := check_send_info c in
  Ret (status, numbers, <[client_id := c']> t).

Definition LogSentMsg (client_id : Z) (msg : NumberedMsg) (t : MsgTracker) : outcome MsgTracker :=
  c ← checked (t !! client_id);
  r ← Ring_add msg (circ_sent_msg c);
  Ret (<[client_id := set_rings (circ_msg c) r c]> t).

Definition CheckRecv (client_id : Z) (msg : NumberedMsg) (t : MsgTracker) : outcome (MsgStatus * MsgTracker) :=
  c ← find_client client_id t;
  let '(status, c') := check_recv msg c in
  Ret (status, <[client_id := c']> t).

(** *** Use *)
Inductive tracker_call :=
  | CallPrepareSend (client_id : Z) (msg : NumberedMsg) | CallCheckGetSendInfo (client_id : Z)
  | CallLogSentMsg (client_id : Z) (msg : NumberedMsg) | CallCheckRecv (client_id : Z) (msg : NumberedMsg).
Definition call_tracker (t : MsgTracker) (c : tracker_call) : outcome MsgTracker :=
  match c with
  | CallPrepareSend id msg => r ← PrepareSend id msg t; Ret r.2
  | CallCheckGetSendInfo id => r ← CheckGetSendInfo id t; Ret r.2
  | CallLogSentMsg id msg => LogSentMsg id msg t
  | CallCheckRecv id msg => r ← CheckRecv id msg t; Ret r.2
  end.

(** No call makes a client known that was not known before. *)
Lemma call_keeps_clients (t : gmap Z ClientInfo) c (t' : gmap Z ClientInfo) : call_tracker t c = Ret t' -> dom t' = (dom t : gset Z).
Proof.
  assert (Hins : forall id (i i' : ClientInfo), t !! id = Some i -> dom (<[id := i']> t) = (dom t : gset Z)).
  { intros id i i' E. apply elem_of_dom_2 in E. rewrite (dom_insert_L (D := gset Z)). set_solver. }
  destruct c; cbn; unfold PrepareSend, CheckGetSendInfo, LogSentMsg, CheckRecv, find_client, deref, checked, MsgTracker in *;
    (destruct (t !! client_id) as [i|] eqn:E; [|done]); cbn; intros Hr.
  - apply bind_Ret_inv in Hr as (r & Hr & [= <-]). apply bind_Ret_inv in Hr as ([[? ?] i'] & _ & [= <-]). by eapply Hins.
  - destruct (check_send_info i) as [[? ?] i']. injection Hr as <-. by eapply Hins.
  - apply bind_Ret_inv in Hr as (r & _ & [= <-]). by eapply Hins.
  - destruct (check_recv msg i) as [? i']. injection Hr as <-. by eapply Hins.
Qed.
(** A new tracker is undefined at the first call, or stops at it. *)
Lemma new_tracker_unusable c : call_tracker ∅ c = match c with CallLogSentMsg _ _ => CheckFail | _ => Undef end.
Proof. by destruct c. Qed.
End TRACKER.
