(* ===== verification/StradsPart.v ===== *)
(** * STRADS: partitions of the model and the roles of machines

    STRADS ([src/strads]) schedules the updates of a model of [modelsize]
    variables: schedulers choose variables, workers update them and one
    coordinator passes the messages on.  [dshard_make_finepartition] and
    [dshard_make_superpartition] ([ds/dshard.cpp]) and
    [sharedctx::make_scheduling_taskpartition], [find_role] and
    [prepare_machine] ([include/common.hpp]) divide the work.  All numbers are
    far below the 64-bit bounds. *)
From S2P Require Import Prelude.
Open Scope Z_scope.

(** [range]: both ends are included. *)
Record range := mkrange { rg_start : Z; rg_end : Z }.
Definition in_range (r : range) (k : Z) : Prop := rg_start r <= k <= rg_end r.

(** [m->second] through [operator[]]: a missing key gives a null pointer. *)
Definition at_part (tmap : gmap Z range) (i : Z) : outcome range := deref (tmap !! i).

(** [std::map::insert] keeps an existing entry. *)
Definition map_insert (i : Z) (r : range) (tmap : gmap Z range) : gmap Z range :=
  match tmap !! i with Some _ => tmap | None => <[i := r]> tmap end.

(** One turn of the loop both partitions use. *)
Definition fine_step (modelsize share remain : Z) (tmap : gmap Z range) (i : Z) : outcome (gmap Z range) :=
  start ← (if bool_decide (i = 0) then Ret 0 else r ← at_part tmap (i - 1); Ret (rg_end r + 1));
  let myshare := if bool_decide (i < remain) then share + 1 else share in
  let end_ := start + myshare - 1 in
  let end_' := if bool_decide (end_ >= modelsize) then modelsize - 1 else end_ in
  Ret (map_insert i (mkrange start end_') tmap).

Definition fine_partition (modelsize parts : Z) (tmap : gmap Z range) : outcome (gmap Z range) :=
  _ ← (if bool_decide (parts = 0) then Undef else Ret tt);
  foldM (fine_step modelsize (Z.quot modelsize parts) (Z.rem modelsize parts)) (seqZ 0 parts) tmap.

(** One machine gets the ranges of [per] consecutive parts. *)
Definition super_step (per : Z) (finemap supermap : gmap Z range) (i : Z) : outcome (gmap Z range) :=
  let start_thrd := i * per in
  let end_thrd := start_thrd + per - 1 in
  a ← at_part finemap start_thrd;
  b ← at_part finemap end_thrd;
  Ret (map_insert i (mkrange (rg_start a) (rg_end b)) supermap).

(** ** Data shards *)
Definition dshard_make_finepartition (modelsize partitions : Z) (tmap : gmap Z range) : outcome (gmap Z range) :=
  _ ← CHECK (bool_decide (size tmap = 0%nat));
  _ ← CHECK (bool_decide (partitions <> 0));
  fine_partition modelsize partitions tmap.

Definition dshard_make_superpartition (superpartcnt : Z) (finemap supermap : gmap Z range) : outcome (gmap Z range) :=
  _ ← CHECK (bool_decide (size supermap = 0%nat));
  _ ← CHECK (bool_decide (size finemap <> 0%nat));
  _ ← (if bool_decide (superpartcnt = 0) then Undef else Ret tt);
  _ ← CHECK (bool_decide (Z.of_nat (size finemap) mod u64 superpartcnt = 0));
  let fine_per_super := Z.of_nat (size finemap) / u64 superpartcnt in
  _ ← CHECK (bool_decide (fine_per_super >= 1));
  foldM (super_step fine_per_super finemap) (seqZ 0 superpartcnt) supermap.

(** ** Scheduling *)

(** [task_assignment] *)
Record task_assignment := mktask_assignment { schmach_tmap : gmap Z range; schthrd_tmap : gmap Z range }.

Definition make_scheduling_taskpartition (modelsize schedmach thrd_permach : Z) (t : task_assignment) : outcome task_assignment :=
  thrds ← fine_partition modelsize (schedmach * thrd_permach) (schthrd_tmap t);
  machs ← foldM (super_step thrd_permach thrds) (seqZ 0 schedmach) (schmach_tmap t);
  Ret (mktask_assignment machs thrds).

(** ** Roles *)
Inductive mach_role := mrole_worker | mrole_coordinator | mrole_scheduler.
#[export] Instance mach_role_eq_dec : EqDecision mach_role.
Proof. solve_decision. Defined.

(** [assert(mrole != mrole_unknown)] *)
Definition find_role (schedulers mpi_size dstnode : Z) : outcome mach_role :=
  let first_schedmach := mpi_size - schedulers - 1 in
  let first_coordinatormach := mpi_size - 1 in
  if bool_decide (dstnode = first_coordinatormach) then Ret mrole_coordinator
  else if bool_decide (dstnode < first_schedmach) then Ret mrole_worker
  else if bool_decide (dstnode >= first_schedmach) && bool_decide (dstnode < first_coordinatormach) then Ret mrole_scheduler
  else CheckFail.

(** What [prepare_machine] sets: the role, the number of the machine in its
    role, the first scheduler and worker ranks with their numbers, and the
    tasks. *)
Record machine := mkmachine {
  m_mrole : mach_role; m_mid : Z; m_first_schedmach : Z; m_sched_machines : Z; m_worker_machines : Z; m_tmap : task_assignment
}.

Definition prepare_machine (scheduling : bool) (schedulers thrds_per_scheduler modelsize mpi_size rank : Z) : outcome machine :=
  _ ← CHECK (bool_decide (rank < mpi_size));
  _ ← CHECK (if scheduling then bool_decide (schedulers > 0) else bool_decide (schedulers = 0));
  let first := mpi_size - schedulers - 1 in
  '(role, mid) ←
    (if bool_decide (rank = mpi_size - 1) then Ret (mrole_coordinator, rank - (mpi_size - 1))
     else if bool_decide (rank < first) then Ret (mrole_worker, rank - 0)
     else if bool_decide (rank >= first) && bool_decide (rank < mpi_size - 1) then Ret (mrole_scheduler, rank - first)
     else CheckFail);
  t ← make_scheduling_taskpartition modelsize schedulers thrds_per_scheduler (mktask_assignment ∅ ∅);
  Ret (mkmachine role mid first schedulers first t).

(** ** Where a part starts *)

Section PARTITION.
Context (modelsize parts : Z) (Hm : 0 <= modelsize) (Hp : 0 < parts).

Definition part_start (i : Z) : Z := i * (modelsize / parts) + Z.min i (modelsize mod parts).
Definition part (i : Z) : range := mkrange (part_start i) (part_start (i + 1) - 1).

Lemma part_start_step i : 0 <= i ->
  part_start (i + 1) = part_start i + (if bool_decide (i < modelsize mod parts) then modelsize / parts + 1 else modelsize / parts).
Proof. intros Hi. unfold part_start. case_bool_decide; lia. Qed.

Lemma part_start_0 : part_start 0 = 0.
Proof. unfold part_start. pose proof (Z.mod_pos_bound modelsize parts Hp). lia. Qed.

Lemma part_start_all : part_start parts = modelsize.
Proof.
  unfold part_start. pose proof (Z.mod_pos_bound modelsize parts Hp). pose proof (Z.div_mod modelsize parts). lia.
Qed.

Lemma part_start_mono i j : 0 <= i <= j -> part_start i <= part_start j.
Proof. intros. unfold part_start. pose proof (Z.div_pos modelsize parts Hm Hp). nia. Qed.

(** The parts below [n]. *)
Definition parts_below (n : Z) (tmap : gmap Z range) : Prop := forall i, tmap !! i = if bool_decide (0 <= i < n) then Some (part i) else None.

Lemma fine_partition_spec : exists tmap, fine_partition modelsize parts ∅ = Ret tmap /\ parts_below parts tmap.
Proof.
  unfold fine_partition. rewrite bool_decide_false by lia. cbn [mbind outcome_bind].
  rewrite Z.quot_div_nonneg, Z.rem_mod_nonneg by lia.
  assert (Hn : forall n, (n <= Z.to_nat parts)%nat ->
    exists tmap, foldM (fine_step modelsize (modelsize / parts) (modelsize mod parts)) (seqZ 0 (Z.of_nat n)) ∅ = Ret tmap /\
      parts_below (Z.of_nat n) tmap).
  { induction n as [|n IH]; intros Hn.
    - exists ∅. split; [done|]. intros i. rewrite bool_decide_false by lia. apply lookup_empty.
    - destruct IH as (tmap & E & Hb); [lia|]. rewrite seqZ_S, foldM_app. rewrite E. cbn [mbind outcome_bind foldM].
      replace (0 + Z.of_nat n) with (Z.of_nat n) by lia. unfold fine_step.
      assert (Es : (if bool_decide (Z.of_nat n = 0) then Ret 0 else r ← at_part tmap (Z.of_nat n - 1); Ret (rg_end r + 1))
        = Ret (part_start (Z.of_nat n))).
      { case_bool_decide as H0; [rewrite H0; by rewrite part_start_0|]. unfold at_part. rewrite Hb, bool_decide_true by lia.
        cbn [deref mbind outcome_bind part rg_end]. f_equal. replace (Z.of_nat n - 1 + 1) with (Z.of_nat n) by lia. lia. }
      rewrite Es. cbn [mbind outcome_bind].
      pose proof (part_start_mono (Z.of_nat n + 1) parts). rewrite part_start_all in *.
      replace (part_start (Z.of_nat n) + (if bool_decide (Z.of_nat n < modelsize mod parts) then modelsize / parts + 1 else modelsize / parts) - 1)
        with (part_start (Z.of_nat n + 1) - 1) by (rewrite part_start_step by lia; done).
      rewrite bool_decide_false by lia. eexists. split; [done|]. unfold map_insert. rewrite Hb, bool_decide_false by lia.
      intros i. destruct (decide (i = Z.of_nat n)) as [->|Hne]; [by rewrite lookup_insert_eq, bool_decide_true by lia|].
      rewrite lookup_insert_ne, Hb by done. apply (f_equal (fun b : bool => if b then Some (part i) else None)). apply bool_decide_ext. lia. }
  destruct (Hn (Z.to_nat parts)) as (tmap & E & Hb); [lia|]. rewrite Z2Nat.id in * by lia. by exists tmap.
Qed.

(** Every index is in exactly one part. *)
Lemma part_of k : 0 <= k < modelsize -> exists i, 0 <= i < parts /\ in_range (part i) k.
Proof.
  intros Hk. assert (Hn : forall n, (n <= Z.to_nat parts)%nat -> k < part_start (Z.of_nat n) ->
    exists i, 0 <= i < Z.of_nat n /\ in_range (part i) k).
  { induction n as [|n IH]; intros Hn Hlt; [change (Z.of_nat 0) with 0 in Hlt; rewrite part_start_0 in Hlt; lia|].
    destruct (decide (k < part_start (Z.of_nat n))) as [Hl|Hge].
    - destruct (IH ltac:(lia) Hl) as (i & Hi & Hin). exists i. split; [lia|done].
    - exists (Z.of_nat n). split; [lia|]. unfold in_range, part. cbn. replace (Z.of_nat n + 1) with (Z.of_nat (S n)) by lia. lia. }
  destruct (Hn (Z.to_nat parts)) as (i & Hi & Hin); [lia|rewrite Z2Nat.id by lia; rewrite part_start_all; lia|].
  exists i. split; [lia|done].
Qed.

Lemma part_unique i j k : 0 <= i -> 0 <= j -> in_range (part i) k -> in_range (part j) k -> i = j.
Proof.
  unfold in_range, part. cbn. intros Hi Hj H1 H2. destruct (Z.lt_trichotomy i j) as [Hlt|[->|Hlt]]; [|done|].
  - pose proof (part_start_mono (i + 1) j). lia.
  - pose proof (part_start_mono (j + 1) i). lia.
Qed.

(** Machines with [per] parts each. *)
Lemma super_partition_spec per machs tmap : 0 < per -> 0 <= machs -> machs * per = parts -> parts_below parts tmap ->
  exists supermap, foldM (super_step per tmap) (seqZ 0 machs) ∅ = Ret supermap /\
    forall i, supermap !! i = if bool_decide (0 <= i < machs) then Some (mkrange (part_start (i * per)) (part_start ((i + 1) * per) - 1)) else None.
Proof.
  intros Hper Hmachs Heq Hb. rewrite <- (Z2Nat.id machs) in Heq |- * by done. generalize dependent (Z.to_nat machs). clear machs Hmachs. intros n Heq.
  assert (Hn : forall k, (k <= n)%nat -> exists supermap, foldM (super_step per tmap) (seqZ 0 (Z.of_nat k)) ∅ = Ret supermap /\
    forall i, supermap !! i = if bool_decide (0 <= i < Z.of_nat k) then Some (mkrange (part_start (i * per)) (part_start ((i + 1) * per) - 1)) else None).
  { induction k as [|k IH]; intros Hk.
    - exists ∅. split; [done|]. intros i. rewrite bool_decide_false by lia. apply lookup_empty.
    - destruct IH as (supermap & E & Hs); [lia|]. rewrite seqZ_S, foldM_app. rewrite E. cbn [mbind outcome_bind foldM].
      replace (0 + Z.of_nat k) with (Z.of_nat k) by lia. assert (Z.of_nat k * per + per <= parts /\ 0 <= Z.of_nat k * per) as H by nia.
      unfold super_step, at_part. rewrite !Hb. destruct H as [Hle Hge].
      rewrite bool_decide_true by lia. rewrite bool_decide_true by lia.
      cbn [deref mbind outcome_bind part rg_start rg_end]. eexists. split; [done|].
      unfold map_insert. rewrite Hs, bool_decide_false by lia. intros i.
      destruct (decide (i = Z.of_nat k)) as [->|Hne].
      + rewrite lookup_insert_eq, bool_decide_true by lia.
        by replace ((Z.of_nat k + 1) * per) with (Z.of_nat k * per + per - 1 + 1) by lia.
      + rewrite lookup_insert_ne, Hs by done. erewrite bool_decide_ext; [done|lia]. }
  by apply Hn.
Qed.

(** Every index is with exactly one machine. *)
Lemma machine_of per machs k : 0 < per -> machs * per = parts -> 0 <= k < modelsize -> exists m, 0 <= m < machs /\
  part_start (m * per) <= k < part_start ((m + 1) * per) /\
  forall m', 0 <= m' -> part_start (m' * per) <= k < part_start ((m' + 1) * per) -> m' = m.
Proof.
  intros Hper Heq Hk. destruct (part_of k Hk) as (g & Hg & Hin). unfold in_range, part in Hin. cbn in Hin. exists (g / per).
  pose proof (Z.mul_div_le g per Hper). pose proof (Z.mul_succ_div_gt g per Hper). pose proof (Z.div_pos g per ltac:(lia) Hper).
  split; [split; [done|apply Z.div_lt_upper_bound; lia]|]. split.
  - pose proof (part_start_mono (g / per * per) g ltac:(nia)). pose proof (part_start_mono (g + 1) ((g / per + 1) * per) ltac:(nia)). lia.
  - intros m' Hm' Hin'. destruct (Z.lt_trichotomy m' (g / per)) as [Hl|[->|Hl]]; [|done|].
    + pose proof (part_start_mono ((m' + 1) * per) g ltac:(nia)). lia.
    + pose proof (part_start_mono (g + 1) (m' * per) ltac:(nia)). lia.
Qed.
End PARTITION.

(** ** The two divisions agree *)

Lemma parts_below_some modelsize parts n tmap i r : parts_below modelsize parts n tmap ->
  tmap !! i = Some r <-> 0 <= i < n /\ r = part modelsize parts i.
Proof.
  intros Hb. rewrite Hb. case_bool_decide as Hi; split; [by intros [= <-]|by intros [_ ->]|done|by intros [? _]].
Qed.

Lemma parts_below_size modelsize parts n tmap : 0 <= n -> parts_below modelsize parts n tmap -> Z.of_nat (size tmap) = n.
Proof.
  intros Hn Hb. rewrite <- size_dom. assert (Hd : dom tmap = list_to_set (seqZ 0 n)).
  { apply set_eq. intros i. rewrite elem_of_dom, elem_of_list_to_set, elem_of_seqZ, Hb. case_bool_decide; [|split; [by intros []|lia]].
    split; [lia|by eexists]. }
  rewrite Hd, size_list_to_set by apply NoDup_seqZ. rewrite length_seqZ. lia.
Qed.

(** The shards of [machs] machines with [per] threads each. *)
Lemma dshard_partition_spec modelsize machs per : 0 <= modelsize -> 0 < machs -> 0 < per -> machs * per < 2 ^ 31 ->
  exists tmap smap, fine_partition modelsize (machs * per) ∅ = Ret tmap /\ parts_below modelsize (machs * per) (machs * per) tmap /\
    foldM (super_step per tmap) (seqZ 0 machs) ∅ = Ret smap /\
    dshard_make_finepartition modelsize (machs * per) ∅ = Ret tmap /\ dshard_make_superpartition machs tmap ∅ = Ret smap /\
    forall i, smap !! i = if bool_decide (0 <= i < machs) then
      Some (mkrange (part_start modelsize (machs * per) (i * per)) (part_start modelsize (machs * per) ((i + 1) * per) - 1)) else None.
Proof.
  intros Hm Hs Ht Hlt. set (parts := machs * per) in *. assert (Hp : 0 < parts) by (unfold parts; nia).
  destruct (fine_partition_spec modelsize parts Hm Hp) as (tmap & E & Hb).
  destruct (super_partition_spec modelsize parts per machs tmap Ht ltac:(lia) eq_refl Hb) as (smap & Es & Hsm).
  pose proof (parts_below_size modelsize parts parts tmap ltac:(lia) Hb) as Hsz. exists tmap, smap. split_and!; [done..| | |done].
  - unfold dshard_make_finepartition. rewrite (bool_decide_true (parts <> 0)) by lia. exact E.
  - unfold dshard_make_superpartition. rewrite u64_id by int_lia. rewrite (bool_decide_true (size tmap <> 0%nat)) by lia.
    rewrite (bool_decide_false (machs = 0)) by lia. rewrite Hsz. unfold parts. rewrite (Z.mul_comm machs), Z.mod_mul, Z.div_mul by lia.
    rewrite (bool_decide_true (per >= 1)) by lia. exact Es.
Qed.

(** C37: every variable of the model is scheduled by exactly one thread: the
    threads' ranges cover [0, modelsize) without overlap, differ by at most
    one in length, and the range of a machine is that of its own threads; the
    data shards that are made for the same machines and threads have the same
    ranges, so a scheduler's shard holds the columns of its variables. *)
Theorem tasks_scheduled_once modelsize schedmach thrd : 0 <= modelsize -> 0 < schedmach -> 0 < thrd -> schedmach * thrd < 2 ^ 31 ->
  exists t, make_scheduling_taskpartition modelsize schedmach thrd (mktask_assignment ∅ ∅) = Ret t /\
    (forall g r, schthrd_tmap t !! g = Some r -> 0 <= g < schedmach * thrd /\ 0 <= rg_start r /\ rg_end r < modelsize /\
       modelsize / (schedmach * thrd) <= rg_end r - rg_start r + 1 <= modelsize / (schedmach * thrd) + 1) /\
    (forall k, 0 <= k < modelsize -> exists g r R,
       schthrd_tmap t !! g = Some r /\ in_range r k /\ schmach_tmap t !! (g / thrd) = Some R /\ in_range R k /\
       (forall g' r', schthrd_tmap t !! g' = Some r' -> in_range r' k -> g' = g) /\
       (forall m' R', schmach_tmap t !! m' = Some R' -> in_range R' k -> m' = g / thrd)) /\
    dshard_make_finepartition modelsize (schedmach * thrd) ∅ = Ret (schthrd_tmap t) /\
    dshard_make_superpartition schedmach (schthrd_tmap t) ∅ = Ret (schmach_tmap t).
Proof.
  intros Hm Hs Ht Hlt. destruct (dshard_partition_spec modelsize schedmach thrd Hm Hs Ht Hlt) as (tmap & smap & E & Hb & Es & Efine & Esuper & Hsm).
  set (parts := schedmach * thrd) in *. assert (Hp : 0 < parts) by (unfold parts; nia).
  exists (mktask_assignment smap tmap). unfold make_scheduling_taskpartition. cbn [schthrd_tmap schmach_tmap]. fold parts. rewrite E.
  cbn [mbind outcome_bind]. rewrite Es. cbn [mbind outcome_bind]. split; [done|]. split_and!; [| |done|done].
  - intros g r [Hg ->]%(parts_below_some _ _ _ _ _ _ Hb). split; [done|]. unfold part. cbn.
    pose proof (part_start_mono modelsize parts Hm Hp 0 g ltac:(lia)). rewrite part_start_0 in * by done.
    pose proof (part_start_mono modelsize parts Hm Hp (g + 1) parts ltac:(lia)). rewrite part_start_all in * by done.
    rewrite (part_start_step modelsize parts g) by lia. rewrite (part_start_step modelsize parts g) in * by lia. case_bool_decide; lia.
  - intros k Hk. destruct (part_of modelsize parts Hp k Hk) as (g & Hg & Hin).
    destruct (machine_of modelsize parts Hm Hp thrd schedmach k Ht eq_refl Hk) as (m & Hmr & Hmk & Huniq).
    assert (m = g / thrd) as ->.
    { symmetry. apply Huniq; [apply Z.div_pos; lia|]. destruct Hin as [H1 H2]. cbn in H1, H2. pose proof (Z.mul_div_le g thrd Ht).
      pose proof (Z.mul_succ_div_gt g thrd Ht). pose proof (Z.div_pos g thrd ltac:(lia) Ht).
      pose proof (part_start_mono modelsize parts Hm Hp (g / thrd * thrd) g ltac:(nia)).
      pose proof (part_start_mono modelsize parts Hm Hp (g + 1) ((g / thrd + 1) * thrd) ltac:(nia)). lia. }
    exists g, (part modelsize parts g), (mkrange (part_start modelsize parts (g / thrd * thrd)) (part_start modelsize parts ((g / thrd + 1) * thrd) - 1)).
    split_and!.
    + by apply (parts_below_some _ _ _ _ _ _ Hb).
    + done.
    + by rewrite Hsm, bool_decide_true by done.
    + unfold in_range. cbn. lia.
    + intros g' r' [Hg' ->]%(parts_below_some _ _ _ _ _ _ Hb) Hin'. apply (part_unique modelsize parts Hm Hp g' g k); lia || done.
    + intros m' R'. rewrite Hsm. case_bool_decide as Hm'; [|done]. intros [= <-] [H1 H2]. cbn in H1, H2. apply Huniq; lia.
Qed.

Lemma tasks_scheduled_once_witness : exists t, make_scheduling_taskpartition 11 2 2 (mktask_assignment ∅ ∅) = Ret t /\
  schthrd_tmap t !! 2 = Some (mkrange 6 8) /\ schmach_tmap t !! 1 = Some (mkrange 6 10) /\
  dshard_make_superpartition 2 (schthrd_tmap t) ∅ = Ret (schmach_tmap t).
Proof.
  destruct (tasks_scheduled_once 11 2 2) as (t & E & _ & _ & _ & Es); [lia..|]. exists t. split; [exact E|].
  split_and!; [| |exact Es]; vm_compute in E; injection E as <-; by vm_compute.
Defined.

(** The ranks: workers first, then schedulers, the coordinator last. *)
Lemma prepare_machine_spec schedulers thrds modelsize mpi_size rank : 0 <= modelsize -> 0 < schedulers -> 0 < thrds ->
  schedulers * thrds < 2 ^ 31 -> 0 <= rank < mpi_size -> schedulers < mpi_size ->
  exists mach, prepare_machine true schedulers thrds modelsize mpi_size rank = Ret mach /\
    find_role schedulers mpi_size rank = Ret (m_mrole mach) /\
    match m_mrole mach with
    | mrole_worker => rank = m_mid mach /\ 0 <= m_mid mach < m_worker_machines mach
    | mrole_scheduler => rank = m_worker_machines mach + m_mid mach /\ 0 <= m_mid mach < m_sched_machines mach
    | mrole_coordinator => rank = m_worker_machines mach + m_sched_machines mach /\ m_mid mach = 0
    end.
Proof.
  intros Hm Hs Ht Hlt Hr Hmpi. unfold prepare_machine, find_role. rewrite (bool_decide_true (rank < mpi_size)) by lia.
  rewrite (bool_decide_true (schedulers > 0)) by lia. cbn [CHECK mbind outcome_bind].
  destruct (fine_partition_spec modelsize (schedulers * thrds) Hm ltac:(nia)) as (tmap & E & Hb).
  destruct (super_partition_spec modelsize (schedulers * thrds) thrds schedulers tmap Ht ltac:(lia) eq_refl Hb) as (smap & Es & _).
  assert (Et : make_scheduling_taskpartition modelsize schedulers thrds (mktask_assignment ∅ ∅) = Ret (mktask_assignment smap tmap)).
  { unfold make_scheduling_taskpartition. cbn [schthrd_tmap schmach_tmap]. rewrite E. cbn [mbind outcome_bind]. by rewrite Es. }
  rewrite Et. repeat case_bool_decide; cbn [andb mbind outcome_bind]; try lia; eexists; (split; [done|]); (split; [done|]); cbn; lia.
Qed.
