(* ===== verification/StradsCmd.v ===== *)
(** * STRADS: commands the coordinator waits for

    [ppacketmgt] ([strads/include/common.hpp]): the coordinator sends a
    command to all workers or all schedulers and notes which of them have
    acknowledged it.  The loop of [coordinator_mach]
    ([coordinator/coordinator.cpp]) that waits for the data shards takes
    acknowledgements until no command is left. *)
From S2P Require Import Prelude.
Open Scope Z_scope.

Inductive machtype := m_coordinator | m_scheduler | m_worker.

Definition CMDSTATE_PENDING : Z := 16.
Definition CMDSTATE_DONE : Z := 32.
Definition MAX_MACHINES : Z := 32.

(** [mtype], [receivers] and [base] are kept for the log only. *)
Record cmdentry := mkcmdentry { ce_cmdid : Z; ce_machines : list Z; ce_pendingmach : Z; ce_complete : bool }.

(** [pm_erased_reads] is no field of the code: the commands whose entry
    [check_cmddone] has read through an iterator it had just erased.  Such a
    read is undefined; the model records it and goes on as when the memory of
    the erased node still holds the entry. *)
Record ppacketmgt := mkppacketmgt {
  syscmdpendq : gmap Z cmdentry; syscmddoneq : gmap Z cmdentry;
  pm_firstsched : Z; pm_schedmach : Z; pm_firstworker : Z; pm_workermach : Z; pm_cmdclock : Z;
  pm_erased_reads : list Z
}.
Definition ppacketmgt_new (firstsched schedmach firstworker workermach : Z) : ppacketmgt :=
  mkppacketmgt ∅ ∅ firstsched schedmach firstworker workermach 0 [].

Definition with_queues (pendq doneq : gmap Z cmdentry) (p : ppacketmgt) : ppacketmgt :=
  mkppacketmgt pendq doneq (pm_firstsched p) (pm_schedmach p) (pm_firstworker p) (pm_workermach p) (pm_cmdclock p) (pm_erased_reads p).

(** [insert] keeps an existing entry. *)
Definition queue_insert (cmdid : Z) (e : cmdentry) (q : gmap Z cmdentry) : gmap Z cmdentry :=
  match q !! cmdid with Some _ => q | None => <[cmdid := e]> q end.

(** [base] and [receivers] of a command. *)
Definition cmd_receivers (mtype : machtype) (p : ppacketmgt) : Z * Z :=
  match mtype with
  | m_worker => (pm_firstworker p, pm_workermach p)
  | m_scheduler => (pm_firstsched p, pm_schedmach p)
  | m_coordinator => (-1, -1)
  end.

Definition push_cmdq (cmdid : Z) (mtype : machtype) (p : ppacketmgt) : outcome ppacketmgt :=
  let '(base, receivers) := cmd_receivers mtype p in
  _ ← CHECK (bool_decide (base >= 0));
  _ ← CHECK (bool_decide (receivers > 0));
  machines ← foldM (fun ms i => vec_set ms (base + i) CMDSTATE_PENDING) (seqZ 0 receivers) (replicate (Z.to_nat MAX_MACHINES) 0);
  Ret (with_queues (queue_insert cmdid (mkcmdentry cmdid machines receivers false) (syscmdpendq p)) (syscmddoneq p) p).

Definition mark_oneack (cmdid src : Z) (p : ppacketmgt) : outcome ppacketmgt :=
  entry ← checked (syscmdpendq p !! cmdid);
  st ← vec_at (ce_machines entry) src;
  _ ← CHECK (bool_decide (st = CMDSTATE_PENDING));
  machines ← vec_set (ce_machines entry) src CMDSTATE_DONE;
  let pendingmach := ce_pendingmach entry - 1 in
  _ ← CHECK (bool_decide (pendingmach >= 0));
  if bool_decide (pendingmach = 0) then
    Ret (with_queues (delete cmdid (syscmdpendq p))
           (queue_insert cmdid (mkcmdentry (ce_cmdid entry) machines pendingmach true) (syscmddoneq p)) p)
  else Ret (with_queues (<[cmdid := mkcmdentry (ce_cmdid entry) machines pendingmach (ce_complete entry)]> (syscmdpendq p)) (syscmddoneq p) p).

Definition erased_read (cmdid : Z) (p : ppacketmgt) : ppacketmgt :=
  mkppacketmgt (syscmdpendq p) (syscmddoneq p) (pm_firstsched p) (pm_schedmach p) (pm_firstworker p) (pm_workermach p) (pm_cmdclock p)
    (pm_erased_reads p ++ [cmdid]).
Definition check_cmddone (cmdid : Z) (p : ppacketmgt) : bool * ppacketmgt :=
  match syscmddoneq p !! cmdid with
  | Some _ => (true, erased_read cmdid (with_queues (syscmdpendq p) (delete cmdid (syscmddoneq p)) p))
  | None => (false, p)
  end.

Definition get_cmdclock (p : ppacketmgt) : Z * ppacketmgt :=
  (pm_cmdclock p, mkppacketmgt (syscmdpendq p) (syscmddoneq p) (pm_firstsched p) (pm_schedmach p) (pm_firstworker p) (pm_workermach p)
                    (pm_cmdclock p + 1) (pm_erased_reads p)).

Definition get_syscmddoneq_size (p : ppacketmgt) : Z := Z.of_nat (size (syscmddoneq p)).
Definition get_syscmdpendq_size (p : ppacketmgt) : Z := Z.of_nat (size (syscmdpendq p)).

(** A command is sent: [get_cmdclock] and [push_cmdq]. *)
Definition send_command (mtype : machtype) (p : ppacketmgt) : outcome (Z * ppacketmgt) :=
  let '(cmdid, p1) := get_cmdclock p in p2 ← push_cmdq cmdid mtype p1; Ret (cmdid, p2).

(** An acknowledgement arrives at the coordinator; whether its command is done. *)
Definition take_ack (cmdid src : Z) (p : ppacketmgt) : outcome (bool * ppacketmgt) :=
  p1 ← mark_oneack cmdid src p; Ret (check_cmddone cmdid p1).

(** The loop ends. *)
Definition shards_loaded (p : ppacketmgt) : bool :=
  bool_decide (get_syscmddoneq_size p = 0) && bool_decide (get_syscmdpendq_size p = 0).

(** ** Runs

    [cmds] are the ranks each command was sent to, [acks] the
    acknowledgements taken so far. *)
Definition ranks_of (br : Z * Z) : list Z := seqZ br.1 br.2.

Inductive cmd_run (p0 : ppacketmgt) : gmap Z (list Z) -> gset (Z * Z) -> ppacketmgt -> Prop :=
  | run_start : cmd_run p0 ∅ ∅ p0
  | run_send cmds acks p mtype cmdid p' : cmd_run p0 cmds acks p -> send_command mtype p = Ret (cmdid, p') ->
      cmd_run p0 (<[cmdid := ranks_of (cmd_receivers mtype p)]> cmds) acks p'
  | run_ack cmds acks p cmdid src b p' : cmd_run p0 cmds acks p -> take_ack cmdid src p = Ret (b, p') ->
      cmd_run p0 cmds ({[(cmdid, src)]} ∪ acks) p'.

(** The acknowledgements a command lacks. *)
Definition missing (acks : gset (Z * Z)) (cmdid : Z) (rs : list Z) : list Z := filter (fun r => (cmdid, r) ∉ acks) rs.

(** ** The invariant *)

Record entry_ok (lacks : list Z) (e : cmdentry) : Prop := {
  eo_length : Z.of_nat (length (ce_machines e)) = MAX_MACHINES;
  eo_pending : forall r, 0 <= r -> ce_machines e !! Z.to_nat r = Some CMDSTATE_PENDING <-> r ∈ lacks;
  eo_count : ce_pendingmach e = Z.of_nat (length lacks)
}.

Record cmd_inv (cmds : gmap Z (list Z)) (acks : gset (Z * Z)) (p : ppacketmgt) : Prop := {
  ci_done : syscmddoneq p = ∅;
  ci_pend : forall cmdid, match cmds !! cmdid with
    | None => syscmdpendq p !! cmdid = None
    | Some rs => if decide (missing acks cmdid rs = []) then syscmdpendq p !! cmdid = None
                 else exists e, syscmdpendq p !! cmdid = Some e /\ entry_ok (missing acks cmdid rs) e
    end;
  ci_clock : forall cmdid rs, cmds !! cmdid = Some rs -> cmdid < pm_cmdclock p;
  ci_ranks : forall cmdid rs, cmds !! cmdid = Some rs -> NoDup rs /\ (forall r, r ∈ rs -> 0 <= r < MAX_MACHINES) /\ rs <> [];
  ci_acks : forall cmdid r, (cmdid, r) ∈ acks -> exists rs, cmds !! cmdid = Some rs /\ r ∈ rs;
  ci_erased : forall cmdid, cmdid ∈ pm_erased_reads p <-> exists rs, cmds !! cmdid = Some rs /\ missing acks cmdid rs = []
}.

Lemma mark_all base n ms ms' : 0 <= base ->
  foldM (fun ms i => vec_set ms (base + i) CMDSTATE_PENDING) (seqZ 0 (Z.of_nat n)) ms = Ret ms' ->
  length ms' = length ms /\ (0 < Z.of_nat n -> base + Z.of_nat n <= Z.of_nat (length ms)) /\
  forall r, 0 <= r -> ms' !! Z.to_nat r = if bool_decide (base <= r < base + Z.of_nat n) then Some CMDSTATE_PENDING else ms !! Z.to_nat r.
Proof.
  intros Hb. revert ms'. induction n as [|n IH]; intros ms' E.
  - injection E as <-. split_and!; [done|lia|]. intros r Hr. by rewrite bool_decide_false by lia.
  - rewrite seqZ_S, foldM_app in E. apply bind_Ret_inv in E as (m1 & E1 & E). destruct (IH m1 E1) as (Hl & _ & Hlk).
    cbn [foldM] in E. apply bind_Ret_inv in E as (m2 & E & [= <-]). unfold vec_set in E. case_bool_decide as Hr; [|done]. injection E as <-.
    rewrite length_insert. split_and!; [done|lia|]. intros r Hr0.
    destruct (decide (r = base + (0 + Z.of_nat n))) as [->|Hne].
    + rewrite list_lookup_insert_eq by lia. by rewrite bool_decide_true by lia.
    + rewrite list_lookup_insert_ne by lia. rewrite Hlk by done. erewrite bool_decide_ext; [done|lia].
Qed.

Lemma missing_nothing acks cmdid rs : (forall r, (cmdid, r) ∉ acks) -> missing acks cmdid rs = rs.
Proof.
  intros Hn. unfold missing. induction rs as [|r rs IH]; [done|]. rewrite filter_cons, decide_True by apply Hn. by rewrite IH.
Qed.

Lemma missing_other acks cmdid cmdid' src rs : cmdid' <> cmdid -> missing ({[(cmdid, src)]} ∪ acks) cmdid' rs = missing acks cmdid' rs.
Proof.
  intros Hne. apply list_filter_iff. intros r. rewrite elem_of_union, elem_of_singleton.
  split; [intros Hr Hin; apply Hr; by right|intros Hr [E|Hin]; [congruence|done]].
Qed.

Lemma missing_ack acks cmdid src rs : missing ({[(cmdid, src)]} ∪ acks) cmdid rs = filter (fun r => r <> src) (missing acks cmdid rs).
Proof.
  unfold missing. rewrite list_filter_filter. apply list_filter_iff. intros r. rewrite elem_of_union, elem_of_singleton.
  split; [intros Hr; split; [intros ->; apply Hr; by left|intros Hin; apply Hr; by right]|intros [Hne Hr] [E|Hin]; [congruence|done]].
Qed.

Lemma filter_one (l : list Z) x : NoDup l -> x ∈ l -> length l = S (length (filter (fun r => r <> x) l)).
Proof.
  induction l as [|y l IH]; [by intros _ ?%elem_of_nil|]. intros [Hy Hnd]%NoDup_cons Hin. rewrite filter_cons. case_decide as Hd.
  - apply elem_of_cons in Hin as [->|Hin]; [done|]. cbn. by rewrite <- IH.
  - assert (y = x) as -> by (destruct (decide (y = x)); [done|by destruct Hd]). cbn. rewrite filter_all; [done|]. by intros z Hz ->.
Qed.

Lemma missing_NoDup acks cmdid rs : NoDup rs -> NoDup (missing acks cmdid rs).
Proof. apply NoDup_filter. Qed.
Lemma missing_elem acks cmdid rs r : r ∈ missing acks cmdid rs <-> ((cmdid, r) ∉ acks) /\ r ∈ rs.
Proof. unfold missing. by rewrite list_elem_of_filter. Qed.

Lemma missing_none acks cmdid rs : missing acks cmdid rs = [] <-> forall src, src ∈ rs -> (cmdid, src) ∈ acks.
Proof.
  split.
  - intros Hm src Hin. destruct (decide ((cmdid, src) ∈ acks)) as [|Hna]; [done|]. assert (Hmi : src ∈ missing acks cmdid rs) by by apply missing_elem. rewrite Hm in Hmi. by apply elem_of_nil in Hmi.
  - intros Hall. unfold missing. apply filter_none. intros src Hin Hna. by apply Hna, Hall.
Qed.

Lemma cmd_inv_start a b c d : cmd_inv ∅ ∅ (ppacketmgt_new a b c d).
Proof.
  constructor; cbn; [done|intros i; by rewrite !lookup_empty|intros i rs E; by rewrite lookup_empty in E|intros i rs E; by rewrite lookup_empty in E|intros i r Hin; set_solver|].
  intros i. split; [by intros ?%elem_of_nil|]. intros (rs & E & _). by rewrite lookup_empty in E.
Qed.

Lemma cmd_inv_send cmds acks p mtype cmdid p' : cmd_inv cmds acks p -> send_command mtype p = Ret (cmdid, p') ->
  cmd_inv (<[cmdid := ranks_of (cmd_receivers mtype p)]> cmds) acks p'.
Proof.
  intros [Hd Hp Hc Hr Ha He] E. unfold send_command, get_cmdclock in E. apply bind_Ret_inv in E as (p2 & E & [= <- <-]).
  unfold push_cmdq in E.
  assert (Hrec : cmd_receivers mtype (mkppacketmgt (syscmdpendq p) (syscmddoneq p) (pm_firstsched p) (pm_schedmach p) (pm_firstworker p) (pm_workermach p)
    (pm_cmdclock p + 1) (pm_erased_reads p)) = cmd_receivers mtype p) by by destruct mtype.
  rewrite Hrec in E. destruct (cmd_receivers mtype p) as [base n] eqn:Er. apply bind_Ret_inv in E as (u1 & Hb%CHECK_Ret%bool_decide_eq_true & E).
  apply bind_Ret_inv in E as (u2 & Hn%CHECK_Ret%bool_decide_eq_true & E). apply bind_Ret_inv in E as (ms & Em & [= <-]).
  rewrite <- (Z2Nat.id n) in Em by lia. apply mark_all in Em as (Hl & Hle & Hlk); [|lia]. rewrite length_replicate, Z2Nat.id in * by lia.
  assert (Hfresh : cmds !! pm_cmdclock p = None).
  { destruct (cmds !! pm_cmdclock p) as [rs|] eqn:E; [|done]. specialize (Hc _ _ E). lia. }
  assert (Hmiss : missing acks (pm_cmdclock p) (seqZ base n) = seqZ base n).
  { apply missing_nothing. intros r Hin. destruct (Ha _ _ Hin) as (rs & E & _). congruence. }
  pose proof (Hp (pm_cmdclock p)) as Hpn. rewrite Hfresh in Hpn.
  constructor; cbn [with_queues syscmddoneq syscmdpendq pm_cmdclock pm_erased_reads]; unfold queue_insert; rewrite ?Hpn; unfold ranks_of; cbn [fst snd].
  - done.
  - intros i. destruct (decide (i = pm_cmdclock p)) as [->|Hne]; [|rewrite !lookup_insert_ne by done; apply Hp].
    rewrite !lookup_insert_eq, Hmiss. rewrite decide_False.
    + eexists. split; [done|]. constructor; cbn; [lia| |rewrite length_seqZ; lia]. intros r Hr0. rewrite Hlk by done.
      rewrite elem_of_seqZ. case_bool_decide as Hrange; [done|]. split; [|lia]. intros Hz. apply lookup_replicate in Hz as [? _]. done.
    + intros Hnil. pose proof (length_seqZ base n) as Hlen. rewrite Hnil in Hlen. cbn in Hlen. lia.
  - intros i rs [[<- <-]|[_ E]]%lookup_insert_Some; [lia|]. specialize (Hc _ _ E). lia.
  - intros i rs [[<- <-]|[_ E]]%lookup_insert_Some; [|by apply (Hr i)]. split_and!; [apply NoDup_seqZ| |].
    + intros r Hin%elem_of_seqZ. lia.
    + intros Hnil. pose proof (length_seqZ base n) as Hlen. rewrite Hnil in Hlen. cbn in Hlen. lia.
  - intros i r Hin. destruct (Ha i r Hin) as (rs & E & Hi). exists rs. split; [|done]. rewrite lookup_insert_ne; [done|]. congruence.
  - intros i. rewrite He. split; intros (rs & E & Hm); exists rs; (split; [|done]).
    + rewrite lookup_insert_ne; [done|]. congruence.
    + apply lookup_insert_Some in E as [[<- <-]|[_ E]]; [|done]. rewrite Hmiss in Hm. pose proof (length_seqZ base n) as Hlen. rewrite Hm in Hlen. cbn in Hlen. lia.
Qed.

(** An acknowledgement that is still missing is taken. *)
Lemma take_ack_missing cmds acks p cmdid rs src : cmd_inv cmds acks p -> cmds !! cmdid = Some rs -> src ∈ missing acks cmdid rs ->
  exists p', take_ack cmdid src p = Ret (bool_decide (missing acks cmdid rs = [src]), p') /\ cmd_inv cmds ({[(cmdid, src)]} ∪ acks) p' /\
    pm_erased_reads p' = pm_erased_reads p ++ (if bool_decide (missing acks cmdid rs = [src]) then [cmdid] else []).
Proof.
  intros [Hd Hp Hc Hr Ha Her] Hrs Hmiss. pose proof (Hp cmdid) as Hpc. rewrite Hrs in Hpc.
  rewrite decide_False in Hpc by (intros E; rewrite E in Hmiss; by apply elem_of_nil in Hmiss). destruct Hpc as (e & He & [Hl Hpe Hcnt]).
  destruct (Hr _ _ Hrs) as (Hnd & Hrange & _). pose proof Hmiss as [Hna Hin]%missing_elem. specialize (Hrange _ Hin).
  pose proof (filter_one _ src (missing_NoDup acks cmdid rs Hnd) Hmiss) as Hone. rewrite <- missing_ack in Hone.
  set (e' := mkcmdentry (ce_cmdid e) (<[Z.to_nat src := CMDSTATE_DONE]> (ce_machines e)) (ce_pendingmach e - 1) (ce_complete e)).
  assert (He' : entry_ok (missing ({[(cmdid, src)]} ∪ acks) cmdid rs) e').
  { constructor; cbn; [by rewrite length_insert| |lia]. intros r Hr0. rewrite missing_ack, list_elem_of_filter.
    destruct (decide (r = src)) as [->|Hne]; [rewrite list_lookup_insert_eq by lia; split; [done|by intros [? _]]|].
    rewrite list_lookup_insert_ne by lia. rewrite Hpe by done. tauto. }
  assert (Hinv : forall q, syscmddoneq q = ∅ -> pm_cmdclock q = pm_cmdclock p ->
    (forall i, i <> cmdid -> syscmdpendq q !! i = syscmdpendq p !! i) ->
    syscmdpendq q !! cmdid = (if decide (missing ({[(cmdid, src)]} ∪ acks) cmdid rs = []) then None else Some e') ->
    pm_erased_reads q = pm_erased_reads p ++ (if decide (missing ({[(cmdid, src)]} ∪ acks) cmdid rs = []) then [cmdid] else []) ->
    cmd_inv cmds ({[(cmdid, src)]} ∪ acks) q).
  { intros q Hq Hclk Hoth Hthis Hreads. constructor; [done| |by rewrite Hclk|done| |].
    - intros i. destruct (decide (i = cmdid)) as [->|Hne].
      + rewrite Hrs, Hthis. destruct (decide _); [done|]. by exists e'.
      + rewrite Hoth by done. pose proof (Hp i) as Hi. destruct (cmds !! i); [|done]. by rewrite missing_other by done.
    - intros i r [[= -> ->]%elem_of_singleton|Hi]%elem_of_union; [by exists rs|by apply Ha].
    - intros i. rewrite Hreads, elem_of_app, Her. destruct (decide (i = cmdid)) as [->|Hne].
      + split.
        * intros [(rs' & E & Hm)|Hin']; [|destruct (decide _) as [Hnil|_]; [by exists rs|by apply elem_of_nil in Hin']].
          assert (rs' = rs) as -> by congruence. rewrite Hm in Hmiss. by apply elem_of_nil in Hmiss.
        * intros (rs' & E & Hm). assert (rs' = rs) as -> by congruence. right. rewrite decide_True by done. by apply list_elem_of_singleton.
      + setoid_rewrite (missing_other acks cmdid i src); [|done]. split; [|by left]. intros [?|Hin']; [done|]. destruct (decide _); [apply list_elem_of_singleton in Hin'; done|by apply elem_of_nil in Hin']. }
  unfold take_ack, mark_oneack. rewrite He. cbn [checked mbind outcome_bind].
  rewrite (proj2 (vec_at_Ret _ _ CMDSTATE_PENDING)) by (split; [lia|apply Hpe; [lia|done]]). cbn [mbind outcome_bind].
  unfold CHECK at 1. rewrite (bool_decide_true (CMDSTATE_PENDING = CMDSTATE_PENDING)) by done. cbn [mbind outcome_bind]. unfold vec_set. rewrite (bool_decide_true (0 <= src < _)) by lia. cbn [mbind outcome_bind].
  unfold CHECK. rewrite (bool_decide_true (ce_pendingmach e - 1 >= 0)) by lia. cbn [mbind outcome_bind].
  destruct (decide (ce_pendingmach e - 1 = 0)) as [Hz|Hz].
  - rewrite (bool_decide_true (_ - 1 = 0)) by done. cbn [mbind outcome_bind]. unfold check_cmddone, queue_insert. rewrite Hd. cbn. rewrite lookup_empty, lookup_insert_eq.
    assert (Hnil : missing ({[(cmdid, src)]} ∪ acks) cmdid rs = []) by (apply length_zero_iff_nil; lia).
    eexists. rewrite bool_decide_true; [split; [done|split; [|done]]|].
    + apply Hinv; cbn; [by rewrite delete_insert_id|done|intros i Hi; by rewrite lookup_delete_ne| |]; [rewrite lookup_delete_eq, decide_True; done|by rewrite decide_True].
    + destruct (missing acks cmdid rs) as [|x [|? ?]] eqn:El; [by apply elem_of_nil in Hmiss| |cbn in *; lia].
      by apply list_elem_of_singleton in Hmiss as ->.
  - rewrite (bool_decide_false (_ - 1 = 0)) by done. cbn [mbind outcome_bind]. unfold check_cmddone. cbn. rewrite Hd, lookup_empty.
    eexists. rewrite bool_decide_false; [split; [done|split; [|by rewrite app_nil_r]]|].
    + assert (Hne : missing ({[(cmdid, src)]} ∪ acks) cmdid rs <> []) by (intros E; rewrite E in Hone; cbn in Hone; lia).
      apply Hinv; cbn; [done|done|intros i Hi; by rewrite lookup_insert_ne| |]; [by rewrite lookup_insert_eq, decide_False|by rewrite decide_False, app_nil_r].
    + intros E. rewrite E in Hcnt. cbn in Hcnt. lia.
Qed.

(** Any other acknowledgement stops the coordinator; a rank outside the array
    is read there. *)
Lemma take_ack_not_missing cmds acks p cmdid src : cmd_inv cmds acks p ->
  (forall rs, cmds !! cmdid = Some rs -> src ∉ missing acks cmdid rs) ->
  take_ack cmdid src p = CheckFail \/ (~ 0 <= src < MAX_MACHINES) /\ take_ack cmdid src p = Undef.
Proof.
  intros [_ Hp _ Hr _ _] Hnot. unfold take_ack, mark_oneack. pose proof (Hp cmdid) as Hpc.
  destruct (cmds !! cmdid) as [rs|] eqn:Hrs; [|left; by rewrite Hpc].
  destruct (decide _); [left; by rewrite Hpc|]. destruct Hpc as (e & -> & [Hl Hpe _]). specialize (Hnot _ eq_refl). cbn [checked mbind outcome_bind].
  destruct (decide (0 <= src < MAX_MACHINES)) as [Hs|Hs].
  - left. destruct (lookup_lt_is_Some_2 (ce_machines e) (Z.to_nat src)) as (st & Hst); [lia|].
    rewrite (proj2 (vec_at_Ret _ _ st)) by (split; [lia|done]). cbn [mbind outcome_bind]. unfold CHECK at 1.
    rewrite (bool_decide_false (st = _)); [done|]. intros ->. apply Hnot, Hpe; [lia|done].
  - right. split; [done|]. assert (vec_at (ce_machines e) src = Undef) as ->; [|done].
    unfold vec_at. case_bool_decide; [|done]. by rewrite lookup_ge_None_2 by lia.
Qed.

Lemma cmd_run_inv a b c d cmds acks p : cmd_run (ppacketmgt_new a b c d) cmds acks p -> cmd_inv cmds acks p.
Proof.
  induction 1 as [|cmds acks p mtype cmdid p' _ IH E|cmds acks p cmdid src b' p' _ IH E]; [apply cmd_inv_start|by eapply cmd_inv_send|].
  destruct (cmds !! cmdid) as [rs|] eqn:Hrs; [destruct (decide (src ∈ missing acks cmdid rs)) as [Hin|Hin]|].
  - destruct (take_ack_missing _ _ _ _ _ _ IH Hrs Hin) as (q & E' & Hq & _). rewrite E in E'. by injection E' as _ ->.
  - destruct (take_ack_not_missing _ _ _ cmdid src IH) as [E'|[_ E']]; [|congruence..]. intros rs' E'. congruence.
  - destruct (take_ack_not_missing _ _ _ cmdid src IH) as [E'|[_ E']]; [|congruence..]. intros rs' E'. congruence.
Qed.

(** The loop ends when every rank has acknowledged every command. *)
Lemma shards_loaded_iff cmds acks p : cmd_inv cmds acks p ->
  shards_loaded p = true <-> forall cmdid rs src, cmds !! cmdid = Some rs -> src ∈ rs -> (cmdid, src) ∈ acks.
Proof.
  intros [Hd Hp _ _ Ha _]. unfold shards_loaded, get_syscmddoneq_size, get_syscmdpendq_size. rewrite Hd, map_size_empty.
  rewrite (bool_decide_true (_ = 0)) by done. cbn [andb]. rewrite bool_decide_eq_true. split.
  - intros Hz cmdid rs src Hrs Hin. assert (Hem : syscmdpendq p = ∅) by (apply map_size_empty_iff; lia). specialize (Hp cmdid).
    rewrite Hrs, Hem in Hp. destruct (decide _) as [Hnil|_]; [|destruct Hp as (e & He & _); by rewrite lookup_empty in He].
    by apply (proj1 (missing_none acks cmdid rs)).
  - intros Hall. assert (Hem : syscmdpendq p = ∅); [|by rewrite Hem, map_size_empty]. apply map_empty. intros cmdid. specialize (Hp cmdid).
    destruct (cmds !! cmdid) as [rs|] eqn:Hrs; [|done]. rewrite decide_True in Hp; [done|].
    unfold missing. apply filter_none. intros src Hin Hna. apply Hna. by eapply Hall.
Qed.

(** C38: in every run of sent commands and taken acknowledgements, an acknowledgement from a rank a command was sent to
    and that has not acknowledged it is taken, and reports the command done exactly when it is the last one; a second
    acknowledgement, one from a rank the command was not sent to and one for an unknown command stop the coordinator;
    and the loop that loads the shards ends exactly when every rank has acknowledged every command.  With the last
    acknowledgement of a command the code frees its entry through an iterator it has just erased, which is undefined:
    [pm_erased_reads] has these commands, and the rest is for runs in which the erased entry can still be read. *)
Theorem command_done_when_all_acked firstsched schedmach firstworker workermach cmds acks p :
  cmd_run (ppacketmgt_new firstsched schedmach firstworker workermach) cmds acks p ->
  (forall cmdid rs src, cmds !! cmdid = Some rs -> src ∈ rs -> ((cmdid, src) ∉ acks) ->
     exists p', take_ack cmdid src p = Ret (bool_decide (missing acks cmdid rs = [src]), p') /\
       pm_erased_reads p' = pm_erased_reads p ++ (if bool_decide (missing acks cmdid rs = [src]) then [cmdid] else [])) /\
  (forall cmdid, cmdid ∈ pm_erased_reads p <-> exists rs, cmds !! cmdid = Some rs /\ forall src, src ∈ rs -> (cmdid, src) ∈ acks) /\
  (forall cmdid src, 0 <= src < MAX_MACHINES ->
     ((cmdid, src) ∈ acks \/ forall rs, cmds !! cmdid = Some rs -> src ∉ rs) -> take_ack cmdid src p = CheckFail) /\
  (shards_loaded p = true <-> forall cmdid rs src, cmds !! cmdid = Some rs -> src ∈ rs -> (cmdid, src) ∈ acks).
Proof.
  intros Hrun%cmd_run_inv. split_and!.
  - intros cmdid rs src Hrs Hin Hna. destruct (take_ack_missing _ _ _ cmdid rs src Hrun Hrs) as (p' & E & _ & Hreads); [by apply missing_elem|by exists p'].
  - intros cmdid. rewrite (ci_erased _ _ _ Hrun). split; intros (rs & Hrs & Hm); exists rs; (split; [done|]); by apply missing_none.
  - intros cmdid src Hs Hor. destruct (take_ack_not_missing _ _ _ cmdid src Hrun) as [E|[? _]]; [|done|lia].
    intros rs Hrs [Hna Hin]%missing_elem. destruct Hor as [?|Hor]; [done|by apply (Hor rs)].
  - by apply shards_loaded_iff.
Qed.

(** Two workers of ranks 2 and 3; the first has acknowledged command 0. *)
Lemma command_done_when_all_acked_witness :
  exists p, cmd_run (ppacketmgt_new 0 2 2 2) (<[0 := [2; 3]]> ∅) ({[(0, 2)]} ∪ ∅) p /\
    (exists p', take_ack 0 3 p = Ret (true, p')) /\ take_ack 0 2 p = CheckFail.
Proof.
  assert (exists p, cmd_run (ppacketmgt_new 0 2 2 2) (<[0 := [2; 3]]> ∅) ({[(0, 2)]} ∪ ∅) p) as (p & Hp).
  { change [2; 3] with (ranks_of (cmd_receivers m_worker (ppacketmgt_new 0 2 2 2))). eexists. eapply run_ack.
    - eapply run_send; [apply run_start|vm_compute; reflexivity].
    - vm_compute. reflexivity. }
  destruct (command_done_when_all_acked _ _ _ _ _ _ _ Hp) as (H1 & _ & H2 & _). exists p. split_and!; [done| |].
  - destruct (H1 0 [2; 3] 3) as (p' & E & _); [done|by apply elem_of_cons; right; left|set_solver|]. exists p'. rewrite E. do 2 f_equal.
  - apply H2; [done|]. left. set_solver.
Defined.
