(* ===== verification/StradsFloat.v ===== *)
(** * Double precision numbers

    What STRADS does with values of type [double], as a class of operations
    with the laws of IEEE 754 arithmetic the proofs use.  [f_leb] is the
    comparison [<=], false when one side is not a number; the other
    comparisons are defined from it.  Addition is neither associative nor
    exact, and no law says so.  An instance on integers lets the definitions
    run. *)
From S2P Require Import Prelude.
Open Scope Z_scope.

Class Float (F : Type) := {
  f_zero : F; f_one : F;
  f_max : F;              (* DBL_MAX *)
  f_lowest : F;           (* -100000000.0 *)
  f_tenth : F;            (* 0.1 *)
  f_hundredth : F;        (* 0.01 *)
  f_of_Z : Z -> F;
  f_add : F -> F -> F; f_sub : F -> F -> F; f_mul : F -> F -> F; f_div : F -> F -> F;
  f_sqrt : F -> F; f_abs : F -> F;
  f_leb : F -> F -> bool
}.

Definition f_ltb `{Float F} (a b : F) : bool := f_leb a b && negb (f_leb b a).
Definition f_eqb `{Float F} (a b : F) : bool := f_leb a b && f_leb b a.
(** [a] is not NaN. *)
Definition f_num `{Float F} (a : F) : Prop := f_leb a a = true.

Class FloatOk (F : Type) `{Float F} := {
  f_leb_trans a b c : f_leb a b = true -> f_leb b c = true -> f_leb a c = true;
  f_leb_total a b : f_num a -> f_num b -> f_leb a b = true \/ f_leb b a = true;
  f_leb_num a b : f_leb a b = true -> f_num a /\ f_num b;
  f_zero_num : f_num f_zero;
  f_mul_comm a b : f_mul a b = f_mul b a;
  f_abs_nonneg a : f_num a -> f_leb f_zero (f_abs a) = true;
  f_abs_le a b : f_leb f_zero a = true -> f_leb a b = true -> f_leb (f_abs a) b = true;
  f_lowest_neg a : f_leb f_zero a = true -> f_leb a f_lowest = false;
  f_lowest_le a : f_leb f_zero a = true -> f_leb f_lowest a = true;
  f_add_zero a b : f_leb a b = true -> f_leb (f_add f_zero a) b = true;
  f_zero_add a : f_leb f_zero a = true -> f_leb f_zero (f_add f_zero a) = true;
  f_sub_zero a : f_sub a f_zero = a;
  f_fraction a b : 0 <= a <= b -> 0 < b ->
    f_leb f_zero (f_div (f_of_Z a) (f_of_Z b)) = true /\ f_leb (f_div (f_of_Z a) (f_of_Z b)) f_one = true;
  f_mul_fraction a b : f_leb f_zero a = true -> f_leb a f_one = true -> f_leb f_zero b = true -> f_leb b f_max = true ->
    f_leb f_zero (f_mul a b) = true /\ f_leb (f_mul a b) b = true
}.

(** [f(0) + ... ] from the left, as a loop that adds to an accumulator does. *)
Definition f_sum `{Float F} (l : list F) : F := foldl f_add f_zero l.

Section FLOAT_LAWS.
Context `{FloatOk F}.

Lemma f_ltb_not_leb (a b : F) : f_num a -> f_num b -> f_ltb a b = negb (f_leb b a).
Proof.
  intros Ha Hb. unfold f_ltb. destruct (f_leb b a) eqn:E; [by rewrite andb_comm|]. rewrite andb_comm. cbn.
  destruct (f_leb_total a b Ha Hb) as [->|E']; [done|congruence].
Qed.

Lemma f_leb_r_num (a b : F) : f_leb a b = true -> f_num b.
Proof. intros E. by apply (f_leb_num a b). Qed.

#[export] Instance f_leb_le_trans : Transitive (fun a b : F => f_leb a b = true).
Proof. intros a b c. apply f_leb_trans. Qed.
End FLOAT_LAWS.

(** ** Integers as an instance *)
#[export] Instance Z_float : Float Z := {|
  f_zero := 0; f_one := 1; f_max := 2 ^ 1023; f_lowest := - 100000000; f_tenth := 1; f_hundredth := 1;
  f_of_Z := fun z => z; f_add := Z.add; f_sub := Z.sub; f_mul := Z.mul; f_div := Z.div;
  f_sqrt := Z.sqrt; f_abs := Z.abs; f_leb := Z.leb |}.

#[export] Instance Z_float_ok : FloatOk Z.
Proof.
  split; unfold f_num; cbn [f_zero f_one f_max f_lowest f_of_Z f_add f_sub f_mul f_div f_abs f_leb Z_float]; try (intros; lia).
  - intros a b ? ?. pose proof (Z.div_pos a b). pose proof (Z.div_le_mono a b b). rewrite Z_div_same in *; lia.
  - intros a b. rewrite !Z.leb_le. intros. nia.
Qed.

(** ** Exact arithmetic

    What a computation on real numbers would have; doubles have it up to
    rounding.  The theorems about the applications that are stated in it say
    which sums the program computes, not how they are rounded. *)
Class ExactFloat (F : Type) `{Float F} := {
  ef_ring : ring_theory f_zero f_one f_add f_mul f_sub (f_sub f_zero) eq;
  ef_eqb (a : F) : f_eqb a f_zero = true -> a = f_zero
}.

#[export] Instance Z_exact : ExactFloat Z.
Proof.
  split; [split; cbn; intros; lia|]. intros a. unfold f_eqb. cbn. lia.
Qed.

(** ** Real numbers

    What the theorems about the applications need beyond [ExactFloat]. *)
Class RealLaws (F : Type) `{ExactFloat F} := {
  rl_of_Z_add a b : f_of_Z (a + b) = f_add (f_of_Z a) (f_of_Z b);
  rl_of_Z_1 : f_of_Z 1 = f_one;
  rl_of_Z a : 0 <= a -> f_leb f_zero (f_of_Z a) = true;
  rl_add a b : f_leb f_zero a = true -> f_leb f_zero b = true -> f_leb f_zero (f_add a b) = true;
  rl_mul a b : f_leb f_zero a = true -> f_leb f_zero b = true -> f_leb f_zero (f_mul a b) = true;
  rl_div a b : f_leb f_zero a = true -> f_ltb f_zero b = true -> f_leb f_zero (f_div a b) = true;
  rl_div_zero b : f_div f_zero b = f_zero;
  rl_pos a b : f_leb f_zero a = true -> f_ltb f_zero b = true -> f_ltb f_zero (f_add a b) = true;
  rl_ltb_sub a b : f_ltb a b = false -> f_ltb (f_sub a b) f_zero = false
}.

#[export] Instance Z_real_laws : RealLaws Z.
Proof.
  split; unfold f_ltb; cbn; try lia; try nia.
  - intros a b Ha Hb. rewrite Z.leb_le. apply Z.div_pos; lia.
  - intros b. apply Zdiv_0_l.
Qed.

(** The sum of a list. *)
Definition rsum `{Float F} (l : list F) : F := foldr f_add f_zero l.

Section SUMS.
Context `{ExactFloat F}.
Add Ring F_ring : ef_ring.

Lemma rsum_cons (x : F) l : rsum (x :: l) = f_add x (rsum l).
Proof. done. Qed.
Lemma rsum_nil : rsum (@nil F) = f_zero.
Proof. done. Qed.

Lemma rsum_app l1 l2 : rsum (l1 ++ l2) = f_add (rsum l1) (rsum l2).
Proof. induction l1 as [|x l1 IH]; [rewrite app_nil_l, rsum_nil; ring|]. rewrite <- app_comm_cons, !rsum_cons, IH. ring. Qed.

Lemma foldl_add_rsum {A} (g : A -> F) l a : foldl (fun s x => f_add s (g x)) a l = f_add a (rsum (map g l)).
Proof. revert a. induction l as [|x l IH]; intros a; cbn [foldl map]; [rewrite rsum_nil; ring|]. rewrite IH, rsum_cons. ring. Qed.

Lemma rsum_concat (ls : list (list F)) : rsum (concat ls) = rsum (map rsum ls).
Proof. induction ls as [|l ls IH]; [done|]. cbn [concat map]. rewrite rsum_app, rsum_cons, IH. done. Qed.

Lemma rsum_map_add {A} (g h : A -> F) l : rsum (map (fun x => f_add (g x) (h x)) l) = f_add (rsum (map g l)) (rsum (map h l)).
Proof. induction l as [|x l IH]; cbn [map]; [rewrite rsum_nil; ring|]. rewrite !rsum_cons, IH. ring. Qed.

Lemma rsum_map_mul {A} (g : A -> F) c l : rsum (map (fun x => f_mul c (g x)) l) = f_mul c (rsum (map g l)).
Proof. induction l as [|x l IH]; cbn [map]; [rewrite rsum_nil; ring|]. rewrite !rsum_cons, IH. ring. Qed.

Lemma rsum_one (g : Z -> F) k l : NoDup l -> rsum (map (fun k' => if bool_decide (k' = k) then g k' else f_zero) l) = if bool_decide (k ∈ l) then g k else f_zero.
Proof.
  induction 1 as [|k' l Hk Hnd IH]; [done|]. cbn [map]. rewrite rsum_cons, IH. destruct (decide (k' = k)) as [->|Hne].
  - rewrite (bool_decide_true (k = k)), (bool_decide_false (k ∈ l)), (bool_decide_true (k ∈ k :: l)) by (done || by left). ring.
  - rewrite (bool_decide_false (k' = k)) by done. rewrite (bool_decide_ext (k ∈ k' :: l) (k ∈ l)); [ring|]. rewrite elem_of_cons. naive_solver.
Qed.

Lemma rsum_insert (l : list F) i x y : l !! i = Some x -> rsum (<[i := y]> l) = f_add (rsum l) (f_sub y x).
Proof.
  revert i. induction l as [|z l IH]; intros [|i] Hi; [done..|injection Hi as ->; cbn [insert list_insert]; rewrite !rsum_cons; ring|]. cbn in Hi.
  change (<[S i := y]> (z :: l)) with (z :: <[i := y]> l). rewrite !rsum_cons, (IH i) by done. ring.
Qed.
End SUMS.
