(* ===== verification/StradsCorr.v ===== *)
(** * STRADS: sparse columns and their correlation

    [spmat_vector] and [col_vspmat] ([strads/ds/spmat.hpp]) hold the input
    matrix by columns; [getcorr_pair_sparse_vmat]
    ([strads/scheduler/getcorr.cpp]) computes how much two columns depend on
    each other, which decides whether their variables may be updated at the
    same time. *)
From S2P Require Import Prelude StradsFloat.
Open Scope Z_scope.

Section CORR.
Context {F : Type} `{Float F}.

Record spmat_vector := mkspmat_vector { sv_idx : list Z; sv_val : list F }.
Definition spmat_vector_new : spmat_vector := mkspmat_vector [] [].

(** [size], with its assertion. *)
Definition spmat_vector_size (v : spmat_vector) : outcome Z :=
  _ ← CHECK (bool_decide (length (sv_idx v) = length (sv_val v))); Ret (Z.of_nat (length (sv_idx v))).

Definition spmat_vector_add (id : Z) (value : F) (v : spmat_vector) : spmat_vector :=
  mkspmat_vector (sv_idx v ++ [id]) (sv_val v ++ [value]).

(** The loop of [add_with_sorting]: the two iterators stand at the head of
    the lists; an iterator at the end is undefined to read. *)
Fixpoint sorted_insert (id : Z) (value : F) (idx : list Z) (val : list F) : outcome (list Z * list F) :=
  match idx, val with
  | i :: idx', x :: val' =>
      _ ← CHECK (bool_decide (i <> id));
      if bool_decide (id < i) then Ret (id :: i :: idx', value :: x :: val')
      else if bool_decide (idx' = []) then
        _ ← CHECK (bool_decide (length val' = 0%nat)); Ret ([i; id], [x; value])
      else '(idx2, val2) ← sorted_insert id value idx' val'; Ret (i :: idx2, x :: val2)
  | _, _ => Undef
  end.

Definition add_with_sorting (id : Z) (value : F) (v : spmat_vector) : outcome spmat_vector :=
  match sv_idx v with
  | [] => Ret (mkspmat_vector (sv_idx v ++ [id]) (sv_val v ++ [value]))
  | _ =>
      _ ← CHECK (bool_decide (length (sv_idx v) = length (sv_val v)));
      '(idx, val) ← sorted_insert id value (sv_idx v) (sv_val v); Ret (mkspmat_vector idx val)
  end.

(** ** Matrices by columns *)
Record col_vspmat := mkcol_vspmat { vm_size_n : Z; vm_size_m : Z; vm_cols : list spmat_vector }.
Definition col_vspmat_new (n m : Z) : col_vspmat := mkcol_vspmat n m (replicate (Z.to_nat m) spmat_vector_new).
Definition vm_col (i : Z) (c : col_vspmat) : outcome spmat_vector := vec_at (vm_cols c) i.

Definition vm_set (j : Z) (v : spmat_vector) (c : col_vspmat) : outcome col_vspmat :=
  cols ← vec_set (vm_cols c) j v; Ret (mkcol_vspmat (vm_size_n c) (vm_size_m c) cols).
Definition col_vspmat_add (i j : Z) (value : F) (c : col_vspmat) : outcome col_vspmat :=
  v ← vm_col j c; vm_set j (spmat_vector_add i value v) c.
Definition add_with_row_sorting (i j : Z) (value : F) (c : col_vspmat) : outcome col_vspmat :=
  v ← vm_col j c; v' ← add_with_sorting i value v; vm_set j v' c.

Definition allocatedentry (c : col_vspmat) : outcome Z :=
  foldM (fun alloc i => v ← vm_col i c; n ← spmat_vector_size v; Ret (alloc + n)) (seqZ 0 (vm_size_m c)) 0.

(** ** Correlation *)

(** The sum and the sum of squares of a column. *)
Definition sum_sqsum (val : list F) : F * F := foldl (fun s x => (f_add s.1 x, f_add s.2 (f_mul x x))) (f_zero, f_zero) val.

(** The loop over two columns at once.  [fuel] is the number of entries of
    both, and every turn leaves one behind. *)
Fixpoint merge_loop (fuel : nat) (xs ys : list (Z * F)) (xysum : F) : F :=
  match fuel with
  | O => xysum
  | S fuel' =>
    match xs, ys with
    | (i, x) :: xs', (j, y) :: ys' =>
        if bool_decide (i = j) then merge_loop fuel' xs' ys' (f_add xysum (f_mul x y))
        else if bool_decide (i > j) then merge_loop fuel' xs ys' xysum
        else merge_loop fuel' xs' ys xysum
    | _, _ => xysum
    end
  end.

Definition entries (v : spmat_vector) : list (Z * F) := zip (sv_idx v) (sv_val v).
Definition xysum (x y : spmat_vector) : F := merge_loop (length (sv_idx x) + length (sv_idx y)) (entries x) (entries y) f_zero.

Definition getcorr_pair_sparse_vmat (xcol ycol : spmat_vector) (nsamples : Z) : outcome F :=
  _ ← CHECK (bool_decide (length (sv_idx xcol) <> 0%nat));
  _ ← CHECK (bool_decide (length (sv_idx ycol) <> 0%nat));
  _ ← CHECK (bool_decide (length (sv_val xcol) = length (sv_idx xcol)));
  _ ← CHECK (bool_decide (length (sv_val ycol) = length (sv_idx ycol)));
  let '(xsum, xsqsum) := sum_sqsum (sv_val xcol) in
  let '(ysum, ysqsum) := sum_sqsum (sv_val ycol) in
  let n := f_of_Z nsamples in
  let divide := f_mul (f_sqrt (f_sub (f_mul n xsqsum) (f_mul xsum xsum))) (f_sqrt (f_sub (f_mul n ysqsum) (f_mul ysum ysum))) in
  _ ← CHECK (negb (f_eqb divide f_zero));
  Ret (f_abs (f_div (f_mul f_one (f_sub (f_mul n (xysum xcol ycol)) (f_mul xsum ysum))) divide)).

(** ** Sorted columns *)

(** What [add_with_sorting] keeps. *)
Record spmat_ok (v : spmat_vector) : Prop := {
  so_len : length (sv_idx v) = length (sv_val v);
  so_sorted : StronglySorted Z.lt (sv_idx v)
}.
Definition col_vspmat_ok (c : col_vspmat) : Prop := Z.of_nat (length (vm_cols c)) = vm_size_m c /\ Forall spmat_ok (vm_cols c).

(** The entries of a column by row. *)
Definition spmat_map (v : spmat_vector) : gmap Z F := list_to_map (entries v).

(** The products of the entries two columns have in the same row, in the
    order of the rows. *)
Definition products (xs ys : list (Z * F)) : list F :=
  omap (fun e => (fun y => f_mul e.2 y) <$> (list_to_map ys : gmap Z F) !! e.1) xs.

Lemma products_cons i x xs ys : products ((i, x) :: xs) ys =
  match (list_to_map ys : gmap Z F) !! i with Some y => f_mul x y :: products xs ys | None => products xs ys end.
Proof. unfold products. cbn. by destruct (list_to_map ys !! i). Qed.

Lemma products_skip xs j y ys : Forall (fun e => j < e.1) xs -> products xs ((j, y) :: ys) = products xs ys.
Proof.
  induction 1 as [|[i x] xs Hi _ IH]; [done|]. rewrite !products_cons, list_to_map_cons, lookup_insert_ne by (cbn in Hi; lia). by rewrite IH.
Qed.

Lemma merge_loop_products fuel xs ys acc : StronglySorted Z.lt xs.*1 -> StronglySorted Z.lt ys.*1 -> (length xs + length ys <= fuel)%nat ->
  merge_loop fuel xs ys acc = foldl f_add acc (products xs ys).
Proof.
  revert xs ys acc. induction fuel as [|fuel IH]; intros [|[i x] xs] ys acc Hx Hy Hf; try (cbn in Hf; lia); [done|done|].
  destruct ys as [|[j y] ys]; [cbn; clear; by induction xs|].
  rewrite fmap_cons in Hx. rewrite fmap_cons in Hy. pose proof Hx as [Hx' Hxi]%StronglySorted_inv. pose proof Hy as [Hy' Hyj]%StronglySorted_inv.
  rewrite Forall_fmap in Hxi. rewrite Forall_fmap in Hyj. cbn [length] in Hf. cbn [merge_loop].
  case_bool_decide as He; [|case_bool_decide as Hgt].
  - subst j. rewrite IH by (done || lia). rewrite products_cons, list_to_map_cons, lookup_insert_eq. cbn [foldl]. rewrite products_skip; [done|exact Hxi].
  - rewrite IH by (done || (cbn; lia)). rewrite products_skip; [done|]. constructor; [cbn; lia|].
    eapply Forall_impl; [exact Hxi|]. cbn. intros; lia.
  - rewrite IH by (done || (cbn; lia)). rewrite products_cons.
    assert ((list_to_map ((j, y) :: ys) : gmap Z F) !! i = None) as ->; [|done].
    apply not_elem_of_list_to_map_1. rewrite fmap_cons, not_elem_of_cons. split; [cbn; lia|].
    intros Hin. rewrite list_elem_of_fmap in Hin. destruct Hin as (e & -> & Hin). rewrite Forall_forall in Hyj. specialize (Hyj _ Hin). cbn in *. lia.
Qed.

Lemma merge_loop_comm `{!FloatOk F} fuel xs ys acc : merge_loop fuel xs ys acc = merge_loop fuel ys xs acc.
Proof.
  revert xs ys acc. induction fuel as [|fuel IH]; [done|]. intros [|[i x] xs] [|[j y] ys] acc; [done..|]. cbn [merge_loop].
  destruct (decide (i = j)) as [->|Hne]; [rewrite !bool_decide_true by done; by rewrite IH, f_mul_comm|].
  rewrite (bool_decide_false (i = j)), (bool_decide_false (j = i)) by congruence.
  destruct (decide (i > j)); [rewrite (bool_decide_true (i > j)), (bool_decide_false (j > i)) by lia|
    rewrite (bool_decide_false (i > j)), (bool_decide_true (j > i)) by lia]; apply IH.
Qed.

(** ** Insertion *)
Lemma entries_fst v : spmat_ok v -> (entries v).*1 = sv_idx v.
Proof. intros [Hl _]. unfold entries. apply fst_zip. lia. Qed.

Lemma sorted_insert_spec id value idx val : length idx = length val -> StronglySorted Z.lt idx -> idx <> [] ->
  if bool_decide (id ∈ idx) then sorted_insert id value idx val = CheckFail
  else exists idx' val', sorted_insert id value idx val = Ret (idx', val') /\ length idx' = length val' /\ StronglySorted Z.lt idx' /\
    idx' ≡ₚ id :: idx /\ (list_to_map (zip idx' val') : gmap Z F) = <[id := value]> (list_to_map (zip idx val)).
Proof.
  revert val. induction idx as [|i idx IH]; intros [|x val] Hl Hs Hne; try done. pose proof Hs as [Hs' Hi]%StronglySorted_inv.
  injection Hl as Hl. cbn [sorted_insert].
  destruct (decide (i = id)) as [->|Hid].
  { rewrite bool_decide_true by (by left). by rewrite (bool_decide_false (id <> id)) by auto. }
  rewrite (bool_decide_true (i <> id)) by done. cbn [CHECK mbind outcome_bind].
  destruct (decide (id < i)) as [Hlt|Hge].
  { rewrite (bool_decide_true (id < i)) by done. rewrite bool_decide_false.
    - exists (id :: i :: idx), (value :: x :: val). split_and!; [done|cbn; lia| |done|done].
      constructor; [done|]. constructor; [done|]. eapply Forall_impl; [exact Hi|]. cbn; intros; lia.
    - rewrite elem_of_cons. intros [?|Hin]; [done|]. rewrite Forall_forall in Hi. specialize (Hi _ Hin). lia. }
  rewrite (bool_decide_false (id < i)) by done. destruct idx as [|i' idx].
  - destruct val; [|done]. rewrite (bool_decide_true ([] = [])) by done. cbn. rewrite bool_decide_false by set_solver.
    exists [i; id], [x; value]. split_and!; [done|done| |by apply perm_swap|].
    + repeat constructor. lia.
    + cbn. rewrite insert_insert_ne by done. done.
  - rewrite (bool_decide_false (i' :: idx = [])) by done. specialize (IH val Hl Hs' ltac:(done)).
    rewrite (bool_decide_ext (id ∈ i :: i' :: idx) (id ∈ i' :: idx)) by set_solver.
    case_bool_decide as Hin; [by rewrite IH|]. destruct IH as (idx' & val' & -> & Hl' & Hs2 & Hp & Hm). cbn [mbind outcome_bind].
    exists (i :: idx'), (x :: val'). split_and!; [done|cbn; lia| |rewrite Hp; by apply perm_swap|].
    + constructor; [done|]. rewrite Hp. constructor; [lia|done].
    + cbn [zip zip_with list_to_map foldr fst snd]. unfold list_to_map in Hm |- *. cbn [zip zip_with foldr fst snd] in Hm |- *. rewrite Hm. by rewrite insert_insert_ne.
Qed.

Lemma add_with_sorting_spec id value v : spmat_ok v ->
  if bool_decide (id ∈ sv_idx v) then add_with_sorting id value v = CheckFail
  else exists v', add_with_sorting id value v = Ret v' /\ spmat_ok v' /\ spmat_map v' = <[id := value]> (spmat_map v) /\
    length (sv_idx v') = S (length (sv_idx v)).
Proof.
  intros [Hl Hs]. destruct v as [idx val]. unfold add_with_sorting, spmat_map, entries in *. cbn [sv_idx sv_val] in *.
  destruct idx as [|i idx].
  - destruct val; [|done]. rewrite bool_decide_false by set_solver. eexists. split; [done|]. split; [|done]. split; [done|]. repeat constructor.
  - rewrite (bool_decide_true (length _ = length _)) by done. cbn [CHECK mbind outcome_bind].
    pose proof (sorted_insert_spec id value _ _ Hl Hs ltac:(done)) as Hi. case_bool_decide; [by rewrite Hi|].
    destruct Hi as (idx' & val' & -> & Hl' & Hs' & Hp & Hm). cbn [mbind outcome_bind]. eexists. split; [done|]. split; [done|]. split; [done|].
    cbn [sv_idx]. by rewrite Hp.
Qed.

Lemma spmat_vector_size_ok v : spmat_ok v -> spmat_vector_size v = Ret (Z.of_nat (length (sv_idx v))).
Proof. intros [Hl _]. unfold spmat_vector_size. by rewrite bool_decide_true. Qed.

Lemma vm_col_ok c j : col_vspmat_ok c -> 0 <= j < vm_size_m c -> exists v, vm_col j c = Ret v /\ spmat_ok v.
Proof.
  intros [Hn Hok] Hj. destruct (lookup_lt_is_Some_2 (vm_cols c) (Z.to_nat j)) as (v & Hv); [lia|]. exists v.
  split; [apply vec_at_Ret; split; [lia|done]|]. by eapply Forall_lookup_1.
Qed.

Lemma vm_set_ok c j v : col_vspmat_ok c -> 0 <= j < vm_size_m c -> spmat_ok v ->
  exists c', vm_set j v c = Ret c' /\ col_vspmat_ok c' /\ vm_size_m c' = vm_size_m c /\ vm_col j c' = Ret v /\
    forall k, k <> j -> vm_col k c' = vm_col k c.
Proof.
  intros [Hn Hok] Hj Hv. unfold vm_set, vec_set. rewrite bool_decide_true by lia. cbn [mbind outcome_bind]. eexists. split; [done|].
  unfold vm_col. cbn. split_and!; [|done| |].
  - split; cbn; [by rewrite length_insert|]. by apply Forall_insert.
  - apply vec_at_Ret. split; [lia|]. rewrite list_lookup_insert_eq; [done|lia].
  - intros k Hk. unfold vec_at. case_bool_decide; [|done]. rewrite list_lookup_insert_ne by lia. done.
Qed.

(** A matrix whose columns are sorted without repeated rows stays one: adding an entry to a row the column does not have
    keeps every column sorted, adds just that entry and leaves the other columns alone; a row the column has is refused. *)
Lemma sorted_columns_kept c i j value : col_vspmat_ok c -> 0 <= j < vm_size_m c ->
  exists v, vm_col j c = Ret v /\
    if bool_decide (i ∈ sv_idx v) then add_with_row_sorting i j value c = CheckFail
    else exists c' v', add_with_row_sorting i j value c = Ret c' /\ col_vspmat_ok c' /\ vm_size_m c' = vm_size_m c /\
      vm_col j c' = Ret v' /\ spmat_map v' = <[i := value]> (spmat_map v) /\
      spmat_vector_size v' = Ret (Z.of_nat (length (sv_idx v)) + 1) /\ (forall k, k <> j -> vm_col k c' = vm_col k c).
Proof.
  intros Hc Hj. destruct (vm_col_ok c j Hc Hj) as (v & Hv & Hok). exists v. split; [done|].
  unfold add_with_row_sorting. rewrite Hv. cbn [mbind outcome_bind]. pose proof (add_with_sorting_spec i value v Hok) as Hadd.
  case_bool_decide; [by rewrite Hadd|]. destruct Hadd as (v' & -> & Hok' & Hm & Hlen). cbn [mbind outcome_bind].
  destruct (vm_set_ok c j v' Hc Hj Hok') as (c' & E & Hc' & Hsz & Hcol & Hoth). exists c', v'. split_and!; [done..| |done].
  rewrite spmat_vector_size_ok by done. f_equal. lia.
Qed.

(** The correlation of two sorted columns adds, in the order of the rows, the products of exactly the entries the columns
    have in common rows, and does not depend on which column comes first. *)
Lemma correlation_of_common_rows `{!FloatOk F} x y nsamples : spmat_ok x -> spmat_ok y ->
  xysum x y = f_sum (products (entries x) (entries y)) /\
  getcorr_pair_sparse_vmat x y nsamples = getcorr_pair_sparse_vmat y x nsamples.
Proof.
  intros Hx Hy. split.
  - unfold xysum, f_sum. apply merge_loop_products; [rewrite entries_fst by done; apply Hx|rewrite entries_fst by done; apply Hy|].
    unfold entries. rewrite !length_zip. lia.
  - unfold getcorr_pair_sparse_vmat. rewrite (so_len x Hx), (so_len y Hy), !(bool_decide_true (_ = _)) by done.
    destruct (sum_sqsum (sv_val x)) as [xs xq], (sum_sqsum (sv_val y)) as [ys yq].
    assert (xysum x y = xysum y x) as -> by (unfold xysum; rewrite merge_loop_comm; f_equal; apply Nat.add_comm).
    rewrite (f_mul_comm (f_sqrt (f_sub (f_mul (f_of_Z nsamples) xq) (f_mul xs xs)))), (f_mul_comm xs ys).
    unfold CHECK. destruct (bool_decide (length (sv_val x) <> 0%nat)), (bool_decide (length (sv_val y) <> 0%nat)); done.
Qed.
End CORR.

Arguments spmat_vector : clear implicits.
Arguments col_vspmat : clear implicits.

