(* ===== verification/StradsSched.v ===== *)
(** * STRADS: what a scheduler thread chooses

    [wsamplerctx] and the loop of [scheduler_thread]
    ([strads/scheduler/scheduler.hpp], [scheduler.cpp]).  A scheduler thread
    owns a range of the variables, keeps a weight for each, draws variables
    at random in proportion to the weights and drops those that depend too
    much on one already chosen.  [rands i] is the [i]-th number the C function
    [rand] returns during a call. *)
From S2P Require Import Prelude StradsFloat StradsCorr.
Open Scope Z_scope.

Inductive matrix_type := cmspt | rmspt | cvspt | rvspt | rvdt | d2dmat.
#[export] Instance matrix_type_eq_dec : EqDecision matrix_type.
Proof. solve_decision. Defined.

Inductive samplingcmd_type := m_weight_update | m_init_weight_update | m_make_phase | m_bw_change | m_restart_weight_update.

Definition RAND_MAX : Z := 2147483647.

Section SCHED.
Context {F : Type} `{Float F}.

(** What the schedulers use of a [dshardctx]. *)
Record dshardctx := mkdshardctx { ds_type : matrix_type; ds_c_start : Z; ds_c_end : Z; ds_rows : Z; ds_cm_vmat : col_vspmat F }.

Record wsamplerctx := mkwsamplerctx {
  ws_gid : Z; ws_start : Z; ws_end : Z; ws_len : Z; ws_maxset : Z; ws_infthreshold : F;
  ws_bw : F; ws_totalw : F; ws_nzelement : Z; ws_weights : list F; ws_restart_flag : bool; ws_restart_cnt : Z
}.

Definition wsamplerctx_new (gid start end_ maxset : Z) (bw infthreshold : F) : outcome wsamplerctx :=
  _ ← CHECK (bool_decide (end_ > start));
  let len := end_ - start + 1 in
  Ret (mkwsamplerctx gid start end_ len maxset infthreshold bw f_zero 0 (replicate (Z.to_nat len) f_zero) false 0).

Definition ws_with_weights (weights : list F) (totalw : F) (nz : Z) (w : wsamplerctx) : wsamplerctx :=
  mkwsamplerctx (ws_gid w) (ws_start w) (ws_end w) (ws_len w) (ws_maxset w) (ws_infthreshold w) (ws_bw w) totalw nz weights
    (ws_restart_flag w) (ws_restart_cnt w).
Definition ws_with_bw (bw : F) (w : wsamplerctx) : wsamplerctx :=
  mkwsamplerctx (ws_gid w) (ws_start w) (ws_end w) (ws_len w) (ws_maxset w) (ws_infthreshold w) bw (ws_totalw w) (ws_nzelement w)
    (ws_weights w) (ws_restart_flag w) (ws_restart_cnt w).
Definition ws_with_restart (flag : bool) (cnt : Z) (w : wsamplerctx) : wsamplerctx :=
  mkwsamplerctx (ws_gid w) (ws_start w) (ws_end w) (ws_len w) (ws_maxset w) (ws_infthreshold w) (ws_bw w) (ws_totalw w) (ws_nzelement w)
    (ws_weights w) flag cnt.

(** ** Weights *)

(** [weight_change]: [size] pairs of a global id and a new weight;
    [maxlistsize] is [size] in every command. *)
Definition weight_change := list (Z * F).

Definition update_one (start end_ len : Z) (s : list F * F) (c : Z * F) : outcome (list F * F) :=
  let '(weights, totalw) := s in
  let '(changedid, signed_w) := c in
  _ ← CHECK (bool_decide (changedid >= start));
  _ ← CHECK (bool_decide (changedid <= end_));
  let new_w := f_abs signed_w in
  let localidx := changedid - start in
  _ ← CHECK (bool_decide (localidx >= 0));
  _ ← CHECK (bool_decide (localidx <= len));
  old ← vec_at weights localidx;
  let diff := f_sub new_w (f_abs old) in
  weights' ← vec_set weights localidx new_w;
  Ret (weights', f_add totalw diff).

Definition nonzero (w : F) : bool := negb (f_eqb w f_zero).
Definition count_nonzero (weights : list F) : Z := Z.of_nat (length (filter (fun w => nonzero w = true) weights)).

Definition update_weight (wchange : weight_change) (w : wsamplerctx) : outcome wsamplerctx :=
  _ ← CHECK (bool_decide (Z.of_nat (length wchange) <= ws_len w));
  '(weights, _) ← foldM (update_one (ws_start w) (ws_end w) (ws_len w)) wchange (ws_weights w, ws_totalw w);
  Ret (ws_with_weights weights (f_sum weights) (count_nonzero weights) w).

(** ** Sampling *)

(** [util_get_double_random], [r] what [rand] returns. *)
Definition util_get_double_random (lower upper : F) (r : Z) : F :=
  let normalized := f_div (f_of_Z r) (f_of_Z RAND_MAX) in f_add lower (f_mul normalized (f_sub upper lower)).

(** [std::list::sort], which is stable. *)
Fixpoint sort_insert (x : F) (l : list F) : list F :=
  match l with [] => [x] | y :: l' => if f_ltb y x then y :: sort_insert x l' else x :: y :: l' end.
Definition sort_rndpoints (rndlist : list F) : list F := foldr sort_insert [] (map f_abs rndlist).

(** The base weight. *)
Definition tuned_bw (w : wsamplerctx) : F :=
  if bool_decide (ws_nzelement w > 10) && negb (f_eqb (ws_totalw w) f_zero) then
    let nzshare := f_div (ws_totalw w) (f_mul f_one (f_of_Z (ws_nzelement w))) in
    let bw := f_mul nzshare f_hundredth in
    if f_eqb bw f_zero then f_tenth else bw
  else f_tenth.

Fixpoint skip_points (here : F) (pts : list F) : list F :=
  match pts with [] => [] | p :: pts' => if f_leb p here then skip_points here pts' else pts end.

(** The search for the variables the points fall into, from index [i]: [acc]
    is the sum of the weights before it, [pts] the points not yet found and
    [n] the number of samples; the buffer of samples has [maxset] slots. *)
Fixpoint sample_loop (bw : F) (len maxset : Z) (i : Z) (weights : list F) (acc : F) (pts : list F) (n : Z) : outcome (list Z) :=
  match weights with
  | [] => Ret []
  | w :: weights' =>
      p ← deref (head pts);
      let here := f_add (f_add acc w) (f_mul (f_of_Z (i + 1)) bw) in
      if f_leb p here then
        _ ← CHECK (bool_decide (n <= len));
        _ ← (if bool_decide (n < maxset) then Ret tt else Undef);
        let pts' := skip_points here pts in
        if bool_decide (length pts' = 0%nat) then Ret [i]
        else r ← sample_loop bw len maxset (i + 1) weights' (f_add acc w) pts' (n + 1); Ret (i :: r)
      else sample_loop bw len maxset (i + 1) weights' (f_add acc w) pts n
  end.

(** [_sort]: by decreasing weight, weights of zero last. *)
Fixpoint max_scan (i : nat) (space : list (Z * F)) (max : F) (maxpos : option nat) : option nat :=
  match space with
  | [] => maxpos
  | (_, w) :: space' => if f_ltb max w then max_scan (S i) space' w (Some i) else max_scan (S i) space' max maxpos
  end.

Fixpoint select_loop (turns : nat) (space : list (Z * F)) : outcome (list Z) :=
  match turns with
  | O => Ret []
  | S turns' =>
      maxpos ← checked (max_scan 0 space f_lowest None);
      e ← deref (space !! maxpos);
      r ← select_loop turns' (<[maxpos := (e.1, f_lowest)]> space);
      Ret (e.1 :: r)
  end.

Definition ws_sort (weights : list F) (samples : list Z) : outcome (list Z) :=
  '(zerolist, space) ← foldM (fun s lid =>
      w ← vec_at weights lid;
      Ret (if f_eqb w f_zero then (s.1 ++ [lid], s.2) else (s.1, s.2 ++ [(lid, w)]))) samples ([], []);
  sorted ← select_loop (length space) space;
  Ret (sorted ++ zerolist).

Definition maxrange (w : wsamplerctx) : F := f_add (ws_totalw w) (f_mul (ws_bw w) (f_of_Z (ws_len w))).

(** The result is the sampled global ids. *)
Definition do_sampling (setsize : Z) (rands : Z -> Z) (w : wsamplerctx) : outcome (list Z * wsamplerctx) :=
  _ ← CHECK (bool_decide (setsize < ws_len w));
  let w' := ws_with_bw (tuned_bw w) w in
  let rndpts := sort_rndpoints (map (fun i => util_get_double_random f_zero (maxrange w') (rands i)) (seqZ 0 setsize)) in
  tmpsamples ← sample_loop (ws_bw w') (ws_len w') (ws_maxset w') 0 (ws_weights w') f_zero rndpts 0;
  sorted ← ws_sort (ws_weights w') tmpsamples;
  Ret (map (fun lid => lid + ws_start w') sorted, w').

(** ** Interference *)

(** How much variable [g1] depends on [g2]; after the second restart a
    variable of weight zero is taken to depend on none. *)
Definition infdegree (d : dshardctx) (w : wsamplerctx) (g1 g2 : Z) : outcome F :=
  weight1 ← vec_at (ws_weights w) (g1 - ws_start w);
  weight2 ← vec_at (ws_weights w) (g2 - ws_start w);
  let corr := (x ← vm_col g1 (ds_cm_vmat d); y ← vm_col g2 (ds_cm_vmat d); getcorr_pair_sparse_vmat x y (ds_rows d)) in
  if ws_restart_flag w then if nonzero weight1 && nonzero weight2 then corr else Ret f_zero else corr.

(** Whether [g] conflicts with one of the chosen. *)
Fixpoint conflict_loop (d : dshardctx) (w : wsamplerctx) (size rvidxsize g : Z) (rvidx : list Z) : outcome bool :=
  match rvidx with
  | [] => Ret false
  | r :: rvidx' =>
      _ ← CHECK (bool_decide (rvidxsize < size));
      _ ← CHECK (bool_decide (r >= ws_start w));
      _ ← CHECK (bool_decide (r <= ws_end w));
      degree ← infdegree d w g r;
      if f_leb (ws_infthreshold w) degree then Ret true else conflict_loop d w size rvidxsize g rvidx'
  end.

Fixpoint check_loop (d : dshardctx) (w : wsamplerctx) (size : Z) (samples rvidx : list Z) : outcome (list Z) :=
  match samples with
  | [] => Ret rvidx
  | g :: samples' =>
      _ ← CHECK (bool_decide (g <= ws_end w));
      _ ← CHECK (bool_decide (g >= ws_start w));
      conflict ← conflict_loop d w size (Z.of_nat (length rvidx)) g rvidx;
      let rvidx' := if (conflict : bool) then rvidx else rvidx ++ [g] in
      if bool_decide (Z.of_nat (length rvidx') >= size) then Ret rvidx' else check_loop d w size samples' rvidx'
  end.

(** [samples] are the first [size] entries of the buffer; with none the code
    writes outside an array of length zero. *)
Definition check_interference (samples : list Z) (d : dshardctx) (w : wsamplerctx) : outcome (list Z) :=
  _ ← CHECK (bool_decide (u64 (ws_start w) >= ds_c_start d));
  _ ← CHECK (bool_decide (u64 (ws_end w) <= ds_c_end d));
  _ ← CHECK (bool_decide (ds_type d = cvspt));
  match samples with
  | [] => Undef
  | g :: samples' => check_loop d w (Z.of_nat (length samples)) samples' [g]
  end.

(** ** The thread *)
Record sampling_cmd := mksampling_cmd { sc_type : samplingcmd_type; sc_winfo : weight_change }.

(** [gidxlist[0] == m_start] and [gidxlist[size - 1] == m_end]. *)
Definition covers_range (wchange : weight_change) (w : wsamplerctx) : outcome unit :=
  a ← deref (head wchange); _ ← CHECK (bool_decide (a.1 = ws_start w));
  b ← deref (last wchange); CHECK (bool_decide (b.1 = ws_end w)).

(** The first command and a restart check only when there is a shard. *)
Definition check_if_shard (check : list Z -> dshardctx -> wsamplerctx -> outcome (list Z)) (dshard : option dshardctx) (selected : list Z)
    (w : wsamplerctx) : outcome (list Z) :=
  remain ← match dshard with None => Ret selected | Some d => check selected d w end;
  _ ← CHECK (bool_decide (Z.of_nat (length remain) <= ws_maxset w)); Ret remain.

(** One turn of the loop of [scheduler_thread]: the next state and the phase
    put in the queue for the coordinator.  [user_check] is the check of the
    application. *)
Definition scheduler_thread (user_check : list Z -> dshardctx -> wsamplerctx -> outcome (list Z)) (dshard : option dshardctx)
    (rands : Z -> Z) (cmd : sampling_cmd) (w : wsamplerctx) : outcome (wsamplerctx * option (list Z)) :=
  match sc_type cmd with
  | m_init_weight_update =>
      _ ← covers_range (sc_winfo cmd) w;
      w1 ← update_weight (sc_winfo cmd) w;
      '(selected, w2) ← do_sampling (ws_maxset w1) rands w1;
      _ ← CHECK (bool_decide (Z.of_nat (length selected) <= ws_maxset w2));
      _ ← check_if_shard user_check dshard selected w2;
      Ret (w2, None)
  | m_restart_weight_update =>
      _ ← covers_range (sc_winfo cmd) w;
      w1 ← update_weight (sc_winfo cmd) w;
      let cnt := ws_restart_cnt w1 + 1 in
      _ ← CHECK (negb (bool_decide (cnt = 2) && ws_restart_flag w1));
      let w1' := ws_with_restart (if bool_decide (cnt = 2) then true else ws_restart_flag w1) cnt w1 in
      _ ← CHECK (bool_decide (cnt < 3));
      '(selected, w2) ← do_sampling (ws_maxset w1') rands w1';
      _ ← CHECK (bool_decide (Z.of_nat (length selected) <= ws_maxset w2));
      remain ← check_if_shard check_interference dshard selected w2;
      Ret (w2, Some remain)
  | m_weight_update =>
      w1 ← update_weight (sc_winfo cmd) w;
      '(selected, w2) ← do_sampling (ws_maxset w1) rands w1;
      remain ← match dshard with None => Undef | Some d => check_interference selected d w2 end;
      Ret (w2, Some remain)
  | m_bw_change => Ret (w, None)
  | m_make_phase => CheckFail
  end.
End SCHED.

Arguments dshardctx : clear implicits.
Arguments wsamplerctx : clear implicits.
Arguments weight_change : clear implicits.
Arguments sampling_cmd : clear implicits.
