(* ===== verification/StradsSample.v ===== *)
(** * STRADS: sampling follows the weights

    What [do_sampling] of [StradsSched] returns: the variables whose slot of
    the range of weights a random point falls into, heaviest first. *)
From S2P Require Import Prelude StradsFloat StradsCorr StradsSched.
Open Scope Z_scope.

Section SAMPLE.
Context {F : Type} `{FloatOk F}.

Definition leF (a b : F) : Prop := f_leb a b = true.

#[local] Instance leF_trans : Transitive leF.
Proof. intros a b c. apply f_leb_trans. Qed.

(** ** The points *)
Lemma sort_insert_perm (x : F) l : sort_insert x l ≡ₚ x :: l.
Proof. induction l as [|y l IH]; [done|]. cbn. destruct (f_ltb y x); [|done]. rewrite IH. apply perm_swap. Qed.

Lemma sort_insert_sorted (x : F) l : f_num x -> Forall f_num l -> StronglySorted leF l -> StronglySorted leF (sort_insert x l).
Proof.
  intros Hx. induction l as [|y l IH]; intros Hn Hs; cbn; [by repeat constructor|].
  apply Forall_cons in Hn as [Hy Hn]. apply StronglySorted_inv in Hs as [Hs Hyl].
  destruct (f_ltb y x) eqn:E.
  - constructor; [by apply IH|]. rewrite sort_insert_perm. constructor; [|done]. by apply andb_true_iff in E as [? _].
  - rewrite f_ltb_not_leb in E by done. apply negb_false_iff in E. constructor; [by constructor|]. constructor; [done|].
    eapply Forall_impl; [exact Hyl|]. intros z Hz. by trans y.
Qed.

Lemma sort_rndpoints_perm (l : list F) : sort_rndpoints l ≡ₚ map f_abs l.
Proof. unfold sort_rndpoints. induction (map f_abs l) as [|x l' IH]; [done|]. cbn. by rewrite sort_insert_perm, IH. Qed.

Lemma sort_rndpoints_sorted (l : list F) : Forall f_num (map f_abs l) -> StronglySorted leF (sort_rndpoints l).
Proof.
  unfold sort_rndpoints. induction (map f_abs l) as [|x l' IH]; intros Hn; [constructor|]. apply Forall_cons in Hn as [Hx Hn]. cbn.
  apply sort_insert_sorted; [done| |by apply IH]. clear -Hn. induction l' as [|y l' IH]; [done|]. cbn. apply Forall_cons in Hn as [Hy Hn].
  rewrite sort_insert_perm. constructor; [done|]. by apply IH.
Qed.

(** ** The slots *)

(** The variable whose slot the point [p] falls into: the first whose slot
    does not end before it. *)
Fixpoint find_slot (bw : F) (i : Z) (weights : list F) (acc : F) (p : F) : option Z :=
  match weights with
  | [] => None
  | w :: weights' =>
      if f_leb p (f_add (f_add acc w) (f_mul (f_of_Z (i + 1)) bw)) then Some i else find_slot bw (i + 1) weights' (f_add acc w) p
  end.

Lemma find_slot_bounds bw i weights acc p k : find_slot bw i weights acc p = Some k -> i <= k < i + Z.of_nat (length weights).
Proof.
  revert i acc. induction weights as [|w weights IH]; intros i acc E; [done|]. cbn [find_slot] in E. cbn [length].
  destruct (f_leb _ _); [injection E as <-; lia|]. apply IH in E. lia.
Qed.

Lemma skip_points_spec here (pts : list F) : StronglySorted leF pts -> exists pre, pts = pre ++ skip_points here pts /\
  Forall (fun p => f_leb p here = true) pre /\ Forall (fun p => f_leb p here = false) (skip_points here pts).
Proof.
  induction pts as [|p pts IH]; intros Hs; [by exists []|]. cbn. destruct (f_leb p here) eqn:E.
  - apply StronglySorted_inv in Hs as [Hs _]. destruct (IH Hs) as (pre & Hp & H1 & H2). exists (p :: pre). cbn. rewrite <- Hp.
    split_and!; [done|by constructor|done].
  - exists []. split_and!; [done|done|]. constructor; [done|]. apply StronglySorted_inv in Hs as [_ Hp].
    eapply Forall_impl; [exact Hp|]. cbn. intros q Hq. destruct (f_leb q here) eqn:E'; [|done]. rewrite <- E. symmetry. by eapply f_leb_trans.
Qed.

Record sample_spec (bw : F) (i : Z) (weights : list F) (acc : F) (pts : list F) (r : list Z) : Prop := {
  ss_slots : forall k, k ∈ r <-> exists p, p ∈ pts /\ find_slot bw i weights acc p = Some k;
  ss_sorted : StronglySorted Z.lt r;
  ss_length : (length r <= length pts)%nat;
  ss_some : r <> []
}.

Lemma sample_loop_spec bw len maxset i weights acc pts n : StronglySorted leF pts -> pts <> [] ->
  (forall p, p ∈ pts -> is_Some (find_slot bw i weights acc p)) -> 0 <= n <= i -> n + Z.of_nat (length pts) <= maxset ->
  i + Z.of_nat (length weights) <= len ->
  exists r, sample_loop bw len maxset i weights acc pts n = Ret r /\ sample_spec bw i weights acc pts r.
Proof.
  revert i acc pts n. induction weights as [|w weights IH]; intros i acc pts n Hs Hne Hin Hn Hm Hl.
  { destruct pts as [|p pts]; [done|]. destruct (Hin p) as [? [=]]. by left. }
  cbn [length] in Hl. destruct pts as [|p pts]; [done|]. cbn [sample_loop head deref mbind outcome_bind].
  set (here := f_add (f_add acc w) (f_mul (f_of_Z (i + 1)) bw)).
  destruct (skip_points_spec here (p :: pts) Hs) as (pre & Hpts & Hpre & Hsk).
  assert (Hslot : forall q, find_slot bw i (w :: weights) acc q = if f_leb q here then Some i else find_slot bw (i + 1) weights (f_add acc w) q) by done.
  rewrite Forall_forall in Hpre. rewrite Forall_forall in Hsk.
  assert (Hmore : forall q, q ∈ p :: pts -> f_leb q here = false -> is_Some (find_slot bw (i + 1) weights (f_add acc w) q)).
  { intros q Hq E. specialize (Hin q Hq). by rewrite Hslot, E in Hin. }
  destruct (f_leb p here) eqn:E.
  - unfold CHECK. rewrite (bool_decide_true (n <= len)) by lia. cbn [mbind outcome_bind].
    rewrite (bool_decide_true (n < maxset)) by (cbn [length] in Hm; lia). cbn [mbind outcome_bind].
    case_bool_decide as Hlen.
    + apply length_zero_iff_nil in Hlen. rewrite Hlen, app_nil_r in Hpts. subst pre. exists [i]. split; [done|]. constructor.
      * intros k. rewrite list_elem_of_singleton. split.
        -- intros ->. exists p. rewrite Hslot, E. split; [by left|done].
        -- intros (q & Hq & Eq). rewrite Hslot, (Hpre q Hq) in Eq. congruence.
      * repeat constructor.
      * cbn. lia.
      * done.
    + set (pts' := skip_points here (p :: pts)) in *.
      assert (Hsub : forall q, q ∈ pts' -> q ∈ p :: pts) by (intros q Hq; rewrite Hpts; apply elem_of_app; by right).
      assert (Hlt : (S (length pts') <= length (p :: pts))%nat).
      { destruct pre as [|x pre]; [|rewrite Hpts, length_app; cbn [length]; lia].
        assert (Hp : p ∈ [] ++ pts') by (rewrite <- Hpts; by left). rewrite (Hsk p Hp) in E. done. }
      destruct (IH (i + 1) (f_add acc w) pts' (n + 1)) as (r & -> & [Hr Hrs Hrl Hrn]).
      * rewrite Hpts in Hs. by apply StronglySorted_app_iff in Hs as (_ & ? & _).
      * by intros Enil; rewrite Enil in Hlen.
      * intros q Hq. apply Hmore; [by apply Hsub|by apply Hsk].
      * lia.
      * lia.
      * lia.
      * cbn [mbind outcome_bind]. exists (i :: r). split; [done|]. constructor.
        -- intros k. rewrite elem_of_cons, Hr. split.
           ++ intros [->|(q & Hq & Eq)]; [exists p; rewrite Hslot, E; split; [by left|done]|].
              exists q. rewrite Hslot, (Hsk q Hq). split; [by apply Hsub|done].
           ++ intros (q & Hq & Eq). rewrite Hslot in Eq. rewrite Hpts in Hq. apply elem_of_app in Hq as [Hq|Hq].
              ** rewrite (Hpre q Hq) in Eq. left. congruence.
              ** rewrite (Hsk q Hq) in Eq. right. by exists q.
        -- constructor; [done|]. apply Forall_forall. intros k (q & _ & Eq)%Hr. apply find_slot_bounds in Eq. lia.
        -- cbn [length] in *. lia.
        -- done.
  - assert (Hall : skip_points here (p :: pts) = p :: pts) by (cbn; by rewrite E).
    rewrite Hall in Hsk.
    destruct (IH (i + 1) (f_add acc w) (p :: pts) n) as (r & -> & [Hr Hrs Hrl Hrn]); [done|done| |lia|done|lia|].
    + intros q Hq. apply Hmore; [done|by apply Hsk].
    + exists r. split; [done|]. constructor; [|done..]. intros k. rewrite Hr. split.
      * intros (q & Hq & Eq). exists q. by rewrite Hslot, (Hsk q Hq).
      * intros (q & Hq & Eq). exists q. by rewrite Hslot, (Hsk q Hq) in Eq.
Qed.

(** ** The order of the samples *)
Definition lid_weight (weights : list F) (lid : Z) (w : F) : Prop := 0 <= lid /\ weights !! Z.to_nat lid = Some w.
Definition heavier (weights : list F) (a b : Z) : Prop := exists wa wb, lid_weight weights a wa /\ lid_weight weights b wb /\ leF wb wa.

Lemma max_scan_spec i (space : list (Z * F)) max mp : f_num max -> Forall (fun e => f_num e.2) space ->
  (max_scan i space max mp = mp /\ Forall (fun e => leF e.2 max) space) \/
  exists j e, max_scan i space max mp = Some (i + j)%nat /\ space !! j = Some e /\ f_ltb max e.2 = true /\ Forall (fun e' => leF e'.2 e.2) space.
Proof.
  revert i max mp. induction space as [|[k w] space IH]; intros i max mp Hm Hn; [by left|].
  apply Forall_cons in Hn as [Hw Hn]. cbn in Hw. cbn [max_scan]. destruct (f_ltb max w) eqn:E.
  - right. pose proof E as [Hle _]%andb_true_iff. destruct (IH (S i) w (Some i) Hw Hn) as [[-> Hall]|(j & e & -> & Hj & Hlt & Hall)].
    + exists 0%nat, (k, w). split_and!; [by rewrite Nat.add_0_r|done|done|]. constructor; [done|done].
    + exists (S j), e. pose proof Hlt as [Hwe _]%andb_true_iff. split_and!; [by rewrite Nat.add_succ_r|done| |].
      * rewrite f_ltb_not_leb in Hlt |- *; [|done|by eapply f_leb_r_num|done|by eapply f_leb_r_num]. apply negb_true_iff in Hlt. apply negb_true_iff.
        destruct (f_leb e.2 max) eqn:E'; [|done]. rewrite <- Hlt. symmetry. by eapply f_leb_trans.
      * constructor; [done|done].
  - rewrite f_ltb_not_leb in E by done. apply negb_false_iff in E.
    destruct (IH (S i) max mp Hm Hn) as [[-> Hall]|(j & e & -> & Hj & Hlt & Hall)].
    + left. split; [done|]. by constructor.
    + right. exists (S j), e. split_and!; [by rewrite Nat.add_succ_r|done|done|]. constructor; [|done].
      apply andb_true_iff in Hlt as [? _]. cbn. by trans max.
Qed.

(** The entries not yet taken. *)
Definition live (space : list (Z * F)) : list (Z * F) := filter (fun e => f_leb f_zero e.2 = true) space.

Lemma live_take space j e : space !! j = Some e -> leF f_zero e.2 -> live space ≡ₚ e :: live (<[j := (e.1, f_lowest)]> space).
Proof.
  intros Hj He. unfold live. rewrite <- (take_drop_middle space j e Hj) at 1. rewrite insert_take_drop by (by eapply lookup_lt_Some).
  rewrite !filter_app, !filter_cons. rewrite decide_True by done. rewrite decide_False.
  - by rewrite Permutation_middle.
  - cbn. intros E. assert (f_leb f_lowest f_lowest = true) as E' by (apply (f_leb_num f_zero f_lowest E)).
    by rewrite (f_lowest_neg f_lowest E) in E'.
Qed.

Lemma select_loop_spec turns space : length (live space) = turns -> Forall (fun e => leF f_zero e.2 \/ e.2 = f_lowest) space ->
  exists es, select_loop turns space = Ret es.*1 /\ es ≡ₚ live space /\ StronglySorted (fun a b => leF b.2 a.2) es.
Proof.
  revert space. induction turns as [|turns IH]; intros space Hl Hall.
  { exists []. split_and!; [done| |constructor]. apply length_zero_iff_nil in Hl. by rewrite Hl. }
  assert (Hlow : f_num f_lowest) by (apply (f_leb_num f_lowest f_zero); apply f_lowest_le, f_zero_num).
  assert (Hnum : Forall (fun e => f_num e.2) space).
  { eapply Forall_impl; [exact Hall|]. intros e [He|He]; [by eapply f_leb_r_num|by rewrite He]. }
  cbn [select_loop]. destruct (max_scan_spec 0 space f_lowest None Hlow Hnum) as [[_ Hle]|(j & e & -> & Hj & Hlt & Hmax)].
  { exfalso. destruct (live space) as [|e l] eqn:El; [done|]. assert (e ∈ live space) as [He Hin]%list_elem_of_filter by (rewrite El; by left).
    rewrite Forall_forall in Hle. specialize (Hle e Hin). unfold leF in Hle. by rewrite (f_lowest_neg _ He) in Hle. }
  cbn [checked mbind outcome_bind Nat.add]. rewrite Hj. cbn [deref mbind outcome_bind].
  assert (He : leF f_zero e.2).
  { rewrite Forall_lookup in Hall. destruct (Hall j e Hj) as [?|He]; [done|]. rewrite He in Hlt. unfold f_ltb in Hlt. by rewrite andb_negb_r in Hlt. }
  pose proof (live_take space j e Hj He) as Hperm.
  destruct (IH (<[j := (e.1, f_lowest)]> space)) as (es & -> & Hes & Hs).
  - rewrite Hperm in Hl. by injection Hl.
  - apply Forall_insert; [done|by right].
  - cbn [mbind outcome_bind]. exists (e :: es). split_and!; [done|by rewrite Hperm, Hes|]. constructor; [done|].
    apply Forall_forall. intros e' Hin. rewrite Forall_forall in Hmax. apply Hmax.
    assert (e' ∈ live space) as Hlive by (rewrite Hperm; right; by rewrite <- Hes). by apply list_elem_of_filter in Hlive as [_ ?].
Qed.

Definition zero_lid (weights : list F) (lid : Z) : Prop := exists w, lid_weight weights lid w /\ leF w f_zero.

Lemma ws_split_spec weights samples zs0 sp0 :
  (forall lid, lid ∈ samples -> 0 <= lid < Z.of_nat (length weights)) ->
  exists zs sp, foldM (fun s lid =>
      w ← vec_at weights lid; Ret (if f_eqb w f_zero then (s.1 ++ [lid], s.2) else (s.1, s.2 ++ [(lid, w)]))) samples (zs0, sp0) =
      Ret (zs0 ++ zs, sp0 ++ sp) /\ samples ≡ₚ sp.*1 ++ zs /\ Forall (zero_lid weights) zs /\
      Forall (fun e => lid_weight weights e.1 e.2) sp.
Proof.
  revert zs0 sp0. induction samples as [|lid samples IH]; intros zs0 sp0 Hin.
  { exists [], []. by rewrite !app_nil_r. }
  destruct (lookup_lt_is_Some_2 weights (Z.to_nat lid)) as (w & Hw). { specialize (Hin lid ltac:(by left)). lia. }
  assert (0 <= lid) by (specialize (Hin lid ltac:(by left)); lia). cbn [foldM].
  rewrite (proj2 (vec_at_Ret weights lid w)) by done. cbn [mbind outcome_bind fst snd].
  assert (Hin' : forall l, l ∈ samples -> 0 <= l < Z.of_nat (length weights)) by (intros; apply Hin; by right).
  destruct (f_eqb w f_zero) eqn:E.
  - destruct (IH (zs0 ++ [lid]) sp0 Hin') as (zs & sp & -> & Hp & Hz & Hsp). exists (lid :: zs), sp. rewrite <- app_assoc.
    split_and!; [done| | |done]; [by rewrite Hp, Permutation_middle|]. constructor; [|done]. exists w. split; [done|].
    by apply andb_true_iff in E as [? _].
  - destruct (IH zs0 (sp0 ++ [(lid, w)]) Hin') as (zs & sp & -> & Hp & Hz & Hsp). exists zs, ((lid, w) :: sp). rewrite <- app_assoc.
    split_and!; [done|by rewrite Hp|done|]. constructor; [done|done].
Qed.

(** [_sort] orders the samples by weight. *)
Lemma ws_sort_spec weights samples : Forall (leF f_zero) weights ->
  (forall lid, lid ∈ samples -> 0 <= lid < Z.of_nat (length weights)) ->
  exists r, ws_sort weights samples = Ret r /\ r ≡ₚ samples /\ StronglySorted (heavier weights) r.
Proof.
  intros Hw Hin. unfold ws_sort. destruct (ws_split_spec weights samples [] [] Hin) as (zs & sp & -> & Hp & Hz & Hsp).
  cbn [mbind outcome_bind app]. rewrite Forall_forall in Hw.
  assert (Hnn : forall lid w, lid_weight weights lid w -> leF f_zero w) by (intros lid w [_ E]; apply Hw; by eapply list_elem_of_lookup_2).
  assert (Hlive : live sp = sp).
  { apply filter_all. intros e He. rewrite Forall_forall in Hsp. by eapply Hnn, Hsp. }
  destruct (select_loop_spec (length sp) sp) as (es & -> & Hes & Hs).
  - by rewrite Hlive.
  - eapply Forall_impl; [exact Hsp|]. intros e He. left. exact (Hnn e.1 e.2 He).
  - rewrite Hlive in Hes. cbn [mbind outcome_bind]. exists (es.*1 ++ zs). split_and!; [done|by rewrite Hes, Hp|].
    rewrite <- Hes in Hsp. rewrite Forall_forall in Hsp. rewrite Forall_forall in Hz. apply StronglySorted_app_iff. split_and!.
    + clear -Hs Hsp. induction Hs as [|e es Hs IH He]; [constructor|]. rewrite fmap_cons. constructor; [apply IH; intros; apply Hsp; by right|].
      apply Forall_fmap, Forall_forall. intros e' Hin. cbn. rewrite Forall_forall in He. exists e.2, e'.2.
      split_and!; [apply Hsp; by left|apply Hsp; by right|by apply He].
    + assert (Hzz : forall a b, a ∈ zs -> b ∈ zs -> heavier weights a b).
      { intros a b (wa & Ha & Ha0)%Hz (wb & Hb & Hb0)%Hz. exists wa, wb. split_and!; [done..|]. trans f_zero; [done|by eapply Hnn]. }
      clear -Hzz. induction zs as [|z zs IH]; constructor; [apply IH; intros; apply Hzz; by right|].
      apply Forall_forall. intros b Hb. apply Hzz; [by left|by right].
    + intros a b (e & -> & He)%list_elem_of_fmap (wb & Hb & Hb0)%Hz. exists e.2, wb.
      split_and!; [by apply Hsp|done|]. trans f_zero; [done|]. by eapply Hnn, Hsp.
Qed.

(** ** The sampler *)
Record ws_ok (w : wsamplerctx F) : Prop := {
  wo_range : ws_start w < ws_end w;
  wo_len : ws_len w = ws_end w - ws_start w + 1;
  wo_weights : Z.of_nat (length (ws_weights w)) = ws_len w;
  wo_nonneg : Forall (leF f_zero) (ws_weights w)
}.
(** A command changes weights of the range of the thread. *)
Record change_ok (w : wsamplerctx F) (c : weight_change F) : Prop := {
  co_size : Z.of_nat (length c) <= ws_len w;
  co_range : forall g v, (g, v) ∈ c -> ws_start w <= g <= ws_end w /\ f_num v
}.
(** The weights after a command. *)
Definition changed_weights (start : Z) (c : weight_change F) (weights : list F) : list F :=
  foldl (fun ws e => <[Z.to_nat (e.1 - start) := f_abs e.2]> ws) weights c.

Lemma update_all_spec start end_ len c weights totalw : (forall g v, (g, v) ∈ c -> start <= g <= end_ /\ f_num v) ->
  len = end_ - start + 1 -> Z.of_nat (length weights) = len -> Forall (leF f_zero) weights ->
  exists t, foldM (update_one start end_ len) c (weights, totalw) = Ret (changed_weights start c weights, t) /\
    length (changed_weights start c weights) = length weights /\ Forall (leF f_zero) (changed_weights start c weights).
Proof.
  revert weights totalw. induction c as [|[g v] c IH]; intros weights totalw Hc Hlen Hl Hw; [by exists totalw|].
  destruct (Hc g v) as [Hg Hv]; [by left|]. cbn [foldM update_one]. unfold CHECK.
  rewrite (bool_decide_true (g >= start)) by lia. rewrite (bool_decide_true (g <= end_)) by lia.
  rewrite (bool_decide_true (g - start >= 0)) by lia. rewrite (bool_decide_true (g - start <= len)) by lia. cbn [mbind outcome_bind].
  destruct (lookup_lt_is_Some_2 weights (Z.to_nat (g - start))) as (old & Hold); [lia|].
  rewrite (proj2 (vec_at_Ret weights (g - start) old)) by (split; [lia|done]). cbn [mbind outcome_bind].
  unfold vec_set. rewrite (bool_decide_true (0 <= g - start < _)) by lia. cbn [mbind outcome_bind changed_weights foldl fst snd].
  destruct (IH (<[Z.to_nat (g - start) := f_abs v]> weights) (f_add totalw (f_sub (f_abs v) (f_abs old)))) as (t & E & Hl' & Hw').
  - intros g' v' Hin. apply Hc. by right.
  - done.
  - by rewrite length_insert.
  - apply Forall_insert; [done|]. by apply f_abs_nonneg.
  - exists t. rewrite E. rewrite length_insert in Hl'. done.
Qed.

Lemma update_weight_spec c w : ws_ok w -> change_ok w c ->
  let weights := changed_weights (ws_start w) c (ws_weights w) in
  update_weight c w = Ret (ws_with_weights weights (f_sum weights) (count_nonzero weights) w) /\
  ws_ok (ws_with_weights weights (f_sum weights) (count_nonzero weights) w).
Proof.
  intros [Hr Hlen Hl Hw] [Hs Hc]. unfold update_weight, CHECK. rewrite bool_decide_true by done. cbn [mbind outcome_bind].
  destruct (update_all_spec _ _ _ c (ws_weights w) (ws_totalw w) Hc Hlen Hl Hw) as (t & -> & Hl' & Hw'). cbn [mbind outcome_bind].
  split; [done|]. constructor; cbn; [done|done|lia|done].
Qed.

Lemma find_slot_last bw i weights acc p : weights <> [] ->
  leF p (f_add (foldl f_add acc weights) (f_mul (f_of_Z (i + Z.of_nat (length weights))) bw)) -> is_Some (find_slot bw i weights acc p).
Proof.
  revert i acc. induction weights as [|w weights IH]; intros i acc Hne Hle; [done|]. cbn [find_slot]. destruct (f_leb p _) eqn:E; [by eexists|].
  destruct weights as [|w' weights].
  - cbn [length foldl] in Hle. unfold leF in Hle. change (Z.of_nat 1) with 1 in Hle. congruence.
  - apply IH; [done|]. cbn [foldl] in Hle |- *. cbn [length] in Hle |- *.
    replace (i + 1 + Z.of_nat (S (length weights))) with (i + Z.of_nat (S (S (length weights)))) by lia. done.
Qed.

(** ** A whole sampling *)
Lemma random_point_bounds m r : 0 <= r <= RAND_MAX -> leF f_zero m -> leF m f_max ->
  leF f_zero (util_get_double_random f_zero m r) /\ leF (util_get_double_random f_zero m r) m.
Proof.
  intros Hr Hge0 Hmax. unfold util_get_double_random. rewrite f_sub_zero. destruct (f_fraction r RAND_MAX Hr ltac:(done)) as [Hn0 Hn1].
  destruct (f_mul_fraction _ m Hn0 Hn1 Hge0 Hmax) as [? ?]. split; [by apply f_zero_add|by apply f_add_zero].
Qed.

(** The [i]-th random point. *)
Definition point (w : wsamplerctx F) (rands : Z -> Z) (i : Z) : F := f_abs (util_get_double_random f_zero (maxrange w) (rands i)).

Record sampled (w : wsamplerctx F) (setsize : Z) (rands : Z -> Z) (gs : list Z) : Prop := {
  sd_some : gs <> [];
  sd_length : Z.of_nat (length gs) <= setsize;
  sd_NoDup : NoDup gs;
  sd_range : forall g, g ∈ gs -> ws_start w <= g <= ws_end w;
  sd_sorted : StronglySorted (fun a b => heavier (ws_weights w) (a - ws_start w) (b - ws_start w)) gs;
  sd_slots : forall g, g ∈ gs <-> exists i, 0 <= i < setsize /\
    find_slot (ws_bw w) 0 (ws_weights w) f_zero (point w rands i) = Some (g - ws_start w)
}.

Lemma sample_points_spec w setsize rands : ws_ok w -> ws_totalw w = f_sum (ws_weights w) -> 1 <= setsize <= ws_maxset w ->
  (forall i, 0 <= rands i <= RAND_MAX) -> leF f_zero (maxrange w) -> leF (maxrange w) f_max ->
  let pts := sort_rndpoints (map (fun i => util_get_double_random f_zero (maxrange w) (rands i)) (seqZ 0 setsize)) in
  exists r, sample_loop (ws_bw w) (ws_len w) (ws_maxset w) 0 (ws_weights w) f_zero pts 0 = Ret r /\
    sample_spec (ws_bw w) 0 (ws_weights w) f_zero (map (point w rands) (seqZ 0 setsize)) r.
Proof.
  intros [Hr Hlen Hl Hw] Htot Hs Hrand Hge0 Hmax pts.
  assert (Hpts : pts ≡ₚ map (point w rands) (seqZ 0 setsize)) by (unfold pts; rewrite sort_rndpoints_perm; by rewrite map_map).
  assert (Hpl : length pts = Z.to_nat setsize) by (rewrite Hpts, length_map; apply length_seqZ).
  assert (Hpt : forall i, leF f_zero (point w rands i) /\ leF (point w rands i) (maxrange w)).
  { intros i. destruct (random_point_bounds (maxrange w) (rands i) (Hrand i) Hge0 Hmax) as [Ha Hb].
    split; [by apply f_abs_nonneg, (f_leb_r_num f_zero)|by apply f_abs_le]. }
  destruct (sample_loop_spec (ws_bw w) (ws_len w) (ws_maxset w) 0 (ws_weights w) f_zero pts 0) as (r & E & [Hk Hso Hll Hne]).
  - apply sort_rndpoints_sorted. rewrite map_map. apply Forall_fmap, Forall_forall. intros i _. cbn. by eapply f_leb_r_num, Hpt.
  - intros En. rewrite En in Hpl. cbn in Hpl. lia.
  - intros p Hp. rewrite Hpts in Hp. apply list_elem_of_fmap in Hp as (i & -> & _). apply find_slot_last.
    + intros En. rewrite En in Hl. cbn in Hl. lia.
    + cbn [Z.add]. rewrite Hl, f_mul_comm. change (foldl f_add f_zero (ws_weights w)) with (f_sum (ws_weights w)). rewrite <- Htot. apply Hpt.
  - lia.
  - lia.
  - lia.
  - exists r. split; [done|]. constructor; [|done|by rewrite <- Hpts|done]. intros k. rewrite Hk. by setoid_rewrite Hpts.
Qed.

Lemma do_sampling_spec w setsize rands : let w' := ws_with_bw (tuned_bw w) w in
  ws_ok w -> ws_totalw w = f_sum (ws_weights w) -> 1 <= setsize <= ws_maxset w -> setsize < ws_len w ->
  (forall i, 0 <= rands i <= RAND_MAX) -> leF f_zero (maxrange w') -> leF (maxrange w') f_max ->
  exists gs, do_sampling setsize rands w = Ret (gs, w') /\ sampled w' setsize rands gs.
Proof.
  intros w' Hok Htot Hs Hlt Hrand Hge0 Hmax. unfold do_sampling, CHECK. rewrite bool_decide_true by done. cbn [mbind outcome_bind].
  fold w'. assert (Hok' : ws_ok w') by (destruct Hok; by constructor).
  destruct (sample_points_spec w' setsize rands Hok' Htot Hs Hrand Hge0 Hmax) as (r & -> & [Hk Hso Hll Hne]). cbn [mbind outcome_bind].
  assert (Hin : forall k, k ∈ r -> 0 <= k < Z.of_nat (length (ws_weights w'))).
  { intros k (p & _ & E)%Hk. apply find_slot_bounds in E. lia. }
  destruct (ws_sort_spec (ws_weights w') r (wo_nonneg _ Hok') Hin) as (r' & -> & Hp & Hsort). cbn [mbind outcome_bind].
  eexists. split; [done|]. rewrite length_map, length_seqZ in Hll. destruct Hok' as [Hr Hlen Hl Hw]. constructor.
  - intros En. apply map_eq_nil in En. subst r'. symmetry in Hp. by apply Permutation_nil_r in Hp.
  - rewrite length_map, Hp. lia.
  - apply NoDup_fmap; [intros a b; lia|]. rewrite Hp. clear -Hso. induction Hso as [|a l Hs IH Ha]; constructor; [|done].
    intros Hin. rewrite Forall_forall in Ha. specialize (Ha _ Hin). lia.
  - intros g (k & -> & Hk')%list_elem_of_fmap. rewrite Hp in Hk'. specialize (Hin _ Hk'). lia.
  - clear -Hsort. induction Hsort as [|a l Hs IH Ha]; [constructor|]. cbn [map]. constructor; [done|]. apply Forall_fmap.
    eapply Forall_impl; [exact Ha|]. intros b Hb. cbn. by rewrite !Z.add_simpl_r.
  - intros g. rewrite list_elem_of_fmap. split.
    + intros (k & -> & Hkr). rewrite Hp, Hk in Hkr. destruct Hkr as (p & Hpin & E). apply list_elem_of_fmap in Hpin as (i & -> & Hi%elem_of_seqZ).
      exists i. split; [lia|]. rewrite E. f_equal. lia.
    + intros (i & Hi & E). exists (g - ws_start w'). split; [lia|]. rewrite Hp, Hk. exists (point w' rands i). split; [|done].
      apply list_elem_of_fmap. exists i. split; [done|]. apply elem_of_seqZ. lia.
Qed.

(** C35: after a change of weights within the range of a thread, a sampling of at most [maxset] variables returns at least one
    and no variable twice, all of the range and in the order of decreasing weight: exactly the variables into whose slot of
    the range of weights one of the random points falls. *)
Theorem sampling_follows_weights w c rands : ws_ok w -> change_ok w c -> 1 <= ws_maxset w < ws_len w ->
  (forall i, 0 <= rands i <= RAND_MAX) ->
  let weights := changed_weights (ws_start w) c (ws_weights w) in
  exists w1, update_weight c w = Ret w1 /\ ws_ok w1 /\ ws_weights w1 = weights /\ ws_totalw w1 = f_sum weights /\
    let w2 := ws_with_bw (tuned_bw w1) w1 in
    (leF f_zero (maxrange w2) -> leF (maxrange w2) f_max ->
     exists gs, do_sampling (ws_maxset w1) rands w1 = Ret (gs, w2) /\ sampled w2 (ws_maxset w) rands gs).
Proof.
  intros Hok Hc Hm Hrand weights. destruct (update_weight_spec c w Hok Hc) as [E Hok1]. eexists. split; [exact E|]. split; [done|].
  split; [done|]. split; [done|]. intros w2 Hge0 Hmax.
  apply do_sampling_spec; [done|done|cbn; lia|cbn; lia|done..].
Qed.
End SAMPLE.

(** Four variables of weights 3, 1, 2 and 1 and two points; base weight 1:
    the slots end at 4, 6, 9 and 11. *)
Lemma sampling_follows_weights_witness : let w := mkwsamplerctx 0 10 13 4 2 1 1 0 0 [0; 0; 0; 0] false 0 in
  exists w1 gs, update_weight [(10, 3); (11, 1); (12, -2); (13, 1)] w = Ret w1 /\
    do_sampling 2 (fun i => if bool_decide (i = 0) then RAND_MAX else 0) w1 = Ret (gs, w1) /\ length gs = 2%nat.
Proof.
  set (w := mkwsamplerctx 0 10 13 4 2 1 1 0 0 [0; 0; 0; 0] false 0). intros w'.
  destruct (sampling_follows_weights w [(10, 3); (11, 1); (12, -2); (13, 1)] (fun i => if bool_decide (i = 0) then RAND_MAX else 0))
    as (w1 & E & Hok & Hw & Ht & Hs).
  - constructor; [done..|]. repeat constructor.
  - constructor; [done|]. intros g v Hin. cbn in Hin.
    rewrite !elem_of_cons, elem_of_nil in Hin. destruct Hin as [[= -> ->]|[[= -> ->]|[[= -> ->]|[[= -> ->]|[]]]]]; (split; [cbn; lia|done]).
  - done.
  - intros i. cbn. case_bool_decide; done.
  - exists w1. vm_compute in E. injection E as <-. destruct Hs as (gs & E' & _); [done|done|]. vm_compute in E'. injection E' as <-.
    eexists. split_and!; vm_compute; reflexivity.
Defined.
