(* ===== verification/StradsPhase.v ===== *)
(** * STRADS: phases are free of conflicts

    What a scheduler thread ([scheduler_thread] in [StradsSched]) sends to the
    coordinator: of the variables it has sampled, heaviest first, those that
    do not depend too much on one it has kept before.  They are updated at
    the same time by the workers. *)
From S2P Require Import Prelude StradsFloat StradsCorr StradsSched StradsSample.
Open Scope Z_scope.

Section PHASE.
Context {F : Type} `{FloatOk F}.

Section GREEDY.
Context (d : dshardctx F) (w : wsamplerctx F).

(** [g] and [r] may, or may not, be updated at the same time. *)
Definition independent (g r : Z) : Prop := exists dg, infdegree d w g r = Ret dg /\ f_leb (ws_infthreshold w) dg = false.
Definition dependent (g r : Z) : Prop := exists dg, infdegree d w g r = Ret dg /\ f_leb (ws_infthreshold w) dg = true.
Definition in_thread (g : Z) : Prop := ws_start w <= g <= ws_end w.

(** The shard has the columns of the thread and no correlation of two of
    them is undefined. *)
Record shard_ok : Prop := {
  sh_start : u64 (ws_start w) >= ds_c_start d;
  sh_end : u64 (ws_end w) <= ds_c_end d;
  sh_type : ds_type d = cvspt;
  sh_corr : forall g r, in_thread g -> in_thread r ->
    exists x y c, vm_col g (ds_cm_vmat d) = Ret x /\ vm_col r (ds_cm_vmat d) = Ret y /\ getcorr_pair_sparse_vmat x y (ds_rows d) = Ret c
}.

Lemma infdegree_defined g r : ws_ok w -> shard_ok -> in_thread g -> in_thread r -> exists dg, infdegree d w g r = Ret dg.
Proof.
  intros [_ Hlen Hl _] [_ _ _ Hc] Hg Hr. unfold in_thread in *. unfold infdegree.
  destruct (lookup_lt_is_Some_2 (ws_weights w) (Z.to_nat (g - ws_start w))) as (w1 & H1); [lia|].
  destruct (lookup_lt_is_Some_2 (ws_weights w) (Z.to_nat (r - ws_start w))) as (w2 & H2); [lia|].
  rewrite (proj2 (vec_at_Ret _ (g - ws_start w) w1)) by (split; [lia|done]). rewrite (proj2 (vec_at_Ret _ (r - ws_start w) w2)) by (split; [lia|done]).
  destruct (Hc g r Hg Hr) as (x & y & c & -> & -> & Hcorr). cbn [mbind outcome_bind]. rewrite Hcorr.
  destruct (ws_restart_flag w); [destruct (_ && _)|]; by eexists.
Qed.

Context (Hok : ws_ok w) (Hsh : shard_ok).

Lemma conflict_loop_spec size n g rvidx : n < size -> in_thread g -> Forall in_thread rvidx ->
  exists b, conflict_loop d w size n g rvidx = Ret b /\
    if b : bool then Exists (dependent g) rvidx else Forall (independent g) rvidx.
Proof.
  intros Hn Hg. induction 1 as [|r rvidx Hr _ IH]; [by exists false|]. cbn [conflict_loop]. unfold CHECK.
  rewrite (bool_decide_true (n < size)) by done. unfold in_thread in Hr.
  rewrite (bool_decide_true (r >= _)) by lia. rewrite (bool_decide_true (r <= _)) by lia. cbn [mbind outcome_bind].
  destruct (infdegree_defined g r Hok Hsh Hg Hr) as (dg & E). rewrite E. cbn [mbind outcome_bind]. destruct (f_leb _ dg) eqn:El.
  - exists true. split; [done|]. left. by exists dg.
  - destruct IH as ([] & -> & IH); [exists true|exists false]; (split; [done|]); [by right|]. constructor; [by exists dg|done].
Qed.

(** What the check keeps of the samples, when samples come in the order
    [R]. *)
Record greedy (R : Z -> Z -> Prop) (samples rvidx out : list Z) : Prop := {
  gr_sub : exists kept, out = rvidx ++ kept /\ kept `sublist_of` samples;
  gr_independent : StronglySorted (fun a b => independent b a) out;
  gr_dropped : forall g, g ∈ samples -> g ∈ out \/ exists r, r ∈ out /\ R r g /\ dependent g r
}.

Lemma check_loop_spec (R : Z -> Z -> Prop) size samples rvidx : Z.of_nat (length rvidx) + Z.of_nat (length samples) <= size ->
  Forall in_thread samples -> Forall in_thread rvidx -> StronglySorted (fun a b => independent b a) rvidx ->
  (forall r g, r ∈ rvidx -> g ∈ samples -> R r g) -> StronglySorted R samples ->
  exists out, check_loop d w size samples rvidx = Ret out /\ greedy R samples rvidx out.
Proof.
  revert rvidx. induction samples as [|g samples IH]; intros rvidx Hsz Hs Hr Hind HR HsR.
  { exists rvidx. split; [done|]. constructor; [exists []; by rewrite app_nil_r|done|]. by intros g ?%elem_of_nil. }
  apply Forall_cons in Hs as [Hg Hs]. apply StronglySorted_inv in HsR as [HsR HgR]. cbn [length] in Hsz. cbn [check_loop]. unfold CHECK.
  pose proof Hg as Hg'. unfold in_thread in Hg'. rewrite (bool_decide_true (g <= _)) by lia. rewrite (bool_decide_true (g >= _)) by lia.
  cbn [mbind outcome_bind]. destruct (conflict_loop_spec size (Z.of_nat (length rvidx)) g rvidx) as (b & -> & Hb); [lia|done|done|].
  cbn [mbind outcome_bind]. destruct b.
  - rewrite bool_decide_false by lia. destruct (IH rvidx) as (out & -> & [(kept & Hout & Hsub) Hi Hdr]); [lia|done|done|done| |done|].
    { intros r g' ? ?. apply HR; [done|by right]. }
    exists out. split; [done|]. constructor; [exists kept; split; [done|by apply sublist_cons]|done|].
    intros g' [->|Hin]%elem_of_cons; [|by apply Hdr]. right. apply Exists_exists in Hb as (r & Hin & Hdep). exists r.
    split_and!; [rewrite Hout; apply elem_of_app; by left|apply HR; [done|by left]|done].
  - assert (Hind' : StronglySorted (fun a b => independent b a) (rvidx ++ [g])).
    { apply StronglySorted_app_iff. split_and!; [done|by repeat constructor|]. intros a b Ha ->%list_elem_of_singleton.
      rewrite Forall_forall in Hb. by apply Hb. }
    case_bool_decide as Hfull.
    + rewrite length_app in Hfull. cbn [length] in Hfull. destruct samples; [|cbn [length] in Hsz; lia]. eexists. split; [done|].
      constructor; [exists [g]; split; [done|done]|done|]. intros g' ->%list_elem_of_singleton. left. apply elem_of_app. right. by left.
    + destruct (IH (rvidx ++ [g])) as (out & -> & [(kept & Hout & Hsub) Hi Hdr]); [rewrite length_app; cbn [length]; lia|done| |done| |done|].
      * apply Forall_app. split; [done|]. by constructor.
      * intros r g' [Hin| ->%list_elem_of_singleton]%elem_of_app Hin'; [apply HR; [done|by right]|]. rewrite Forall_forall in HgR. by apply HgR.
      * exists out. split; [done|]. constructor; [|done|].
        -- exists (g :: kept). rewrite Hout, <- app_assoc. split; [done|by apply sublist_skip].
        -- intros g' [->|Hin]%elem_of_cons; [|by apply Hdr]. left. rewrite Hout. apply elem_of_app. left. apply elem_of_app. right. by left.
Qed.

Lemma check_interference_spec (R : Z -> Z -> Prop) g samples : Forall in_thread (g :: samples) -> StronglySorted R (g :: samples) ->
  exists out, check_interference (g :: samples) d w = Ret out /\ greedy R samples [g] out.
Proof.
  intros Hin HR. destruct Hsh as [Hs He Ht _]. unfold check_interference, CHECK.
  rewrite (bool_decide_true (u64 (ws_start w) >= _)) by done. rewrite (bool_decide_true (u64 (ws_end w) <= _)) by done.
  rewrite (bool_decide_true (ds_type d = _)) by done. cbn [mbind outcome_bind]. apply Forall_cons in Hin as [Hg Hin].
  apply StronglySorted_inv in HR as [HR HgR]. apply check_loop_spec; [cbn [length]; lia|done|by constructor|by repeat constructor| |done].
  intros r g' ->%list_elem_of_singleton Hg'. rewrite Forall_forall in HgR. by apply HgR.
Qed.
End GREEDY.

(** ** A command *)

(** The sampler with the weights and the flag of a command, and when the
    samples are drawn. *)
Definition with_command (cmd : sampling_cmd F) (w : wsamplerctx F) : wsamplerctx F :=
  let weights := changed_weights (ws_start w) (sc_winfo cmd) (ws_weights w) in
  let w1 := ws_with_weights weights (f_sum weights) (count_nonzero weights) w in
  match sc_type cmd with
  | m_restart_weight_update =>
      ws_with_restart (if bool_decide (ws_restart_cnt w + 1 = 2) then true else ws_restart_flag w) (ws_restart_cnt w + 1) w1
  | _ => w1
  end.
Definition after_command (cmd : sampling_cmd F) (w : wsamplerctx F) : wsamplerctx F :=
  ws_with_bw (tuned_bw (with_command cmd w)) (with_command cmd w).

(** The commands that make a phase: a weight update, and the first two
    restarts with the weights of the whole range. *)
Definition makes_phase (cmd : sampling_cmd F) (w : wsamplerctx F) : Prop :=
  match sc_type cmd with
  | m_weight_update => True
  | m_restart_weight_update => covers_range (sc_winfo cmd) w = Ret tt /\ ws_restart_cnt w < 2 /\ ws_restart_flag w = false
  | _ => False
  end.

Record phase_ok (d : dshardctx F) (w : wsamplerctx F) (rands : Z -> Z) (phase : list Z) : Prop := {
  ph_sampled : exists gs, sampled w (ws_maxset w) rands gs /\ phase `sublist_of` gs /\ head phase = head gs /\
    forall g, g ∈ gs -> g ∈ phase \/ exists r, r ∈ phase /\
      heavier (ws_weights w) (r - ws_start w) (g - ws_start w) /\ dependent d w g r;
  ph_some : phase <> [];
  ph_length : Z.of_nat (length phase) <= ws_maxset w;
  ph_NoDup : NoDup phase;
  ph_range : Forall (in_thread w) phase;
  ph_independent : StronglySorted (fun a b => independent d w b a) phase
}.

Lemma checked_samples_ok d w rands gs : ws_ok w -> shard_ok d w -> sampled w (ws_maxset w) rands gs ->
  exists phase, check_interference gs d w = Ret phase /\ phase_ok d w rands phase.
Proof.
  intros Hok Hsh Hgs. pose proof Hgs as [Hsome Hlen Hnd Hr Hs _]. destruct gs as [|g gs]; [done|].
  destruct (check_interference_spec d w Hok Hsh (fun a b => heavier (ws_weights w) (a - ws_start w) (b - ws_start w)) g gs)
    as (phase & E & [(kept & Hk & Hsub) Hind Hdr]).
  { apply Forall_forall. apply Hr. }
  { done. }
  assert (Hsub' : phase `sublist_of` g :: gs) by (rewrite Hk; by apply sublist_skip).
  exists phase. split; [done|]. constructor.
  - exists (g :: gs). split_and!; [done|done|by rewrite Hk|]. intros g' [->|Hin]%elem_of_cons; [left; rewrite Hk; by left|by apply Hdr].
  - by rewrite Hk.
  - apply sublist_length in Hsub'. lia.
  - by eapply sublist_NoDup.
  - apply Forall_forall. intros g' Hin. apply Hr. by eapply elem_of_sublist.
  - done.
Qed.

Lemma with_command_ok cmd w : ws_ok w -> change_ok w (sc_winfo cmd) ->
  ws_ok (with_command cmd w) /\ ws_totalw (with_command cmd w) = f_sum (ws_weights (with_command cmd w)).
Proof.
  intros Hok Hc. destruct (update_weight_spec _ w Hok Hc) as [_ [Hr Hlen Hl Hw]]. unfold with_command. destruct (sc_type cmd); done.
Qed.

Lemma after_command_ok cmd w : ws_ok w -> change_ok w (sc_winfo cmd) -> ws_ok (after_command cmd w).
Proof. intros Hok Hc. destruct (with_command_ok cmd w Hok Hc) as [[? ? ? ?] _]. by constructor. Qed.

Lemma command_samples cmd w rands : ws_ok w -> change_ok w (sc_winfo cmd) -> 1 <= ws_maxset w < ws_len w ->
  (forall i, 0 <= rands i <= RAND_MAX) -> leF f_zero (maxrange (after_command cmd w)) -> leF (maxrange (after_command cmd w)) f_max ->
  exists gs, do_sampling (ws_maxset w) rands (with_command cmd w) = Ret (gs, after_command cmd w) /\
    sampled (after_command cmd w) (ws_maxset w) rands gs.
Proof.
  intros Hok Hc Hm Hrand Hge Hmax. destruct (with_command_ok cmd w Hok Hc) as [Hok1 Ht].
  assert (Hmx : ws_maxset (with_command cmd w) = ws_maxset w) by (unfold with_command; by destruct (sc_type cmd)).
  assert (Hln : ws_len (with_command cmd w) = ws_len w) by (unfold with_command; by destruct (sc_type cmd)).
  apply do_sampling_spec; [done|done|lia|lia|done..].
Qed.

(** C33: a weight update, and each of the first two restarts, makes a phase of at least one and at most [maxset] variables of
    the range of the thread, none twice, in the order of the sampling and with the heaviest sample first: no two of them
    depend on each other as much as the threshold, and every sampled variable left out depends that much on one in the phase
    that is at least as heavy. *)
Theorem phase_is_free_of_conflicts user_check d w cmd rands : ws_ok w -> change_ok w (sc_winfo cmd) -> 1 <= ws_maxset w < ws_len w ->
  (forall i, 0 <= rands i <= RAND_MAX) -> makes_phase cmd w ->
  let w' := after_command cmd w in
  leF f_zero (maxrange w') -> leF (maxrange w') f_max -> shard_ok d w' ->
  exists phase, scheduler_thread user_check (Some d) rands cmd w = Ret (w', Some phase) /\ ws_ok w' /\ phase_ok d w' rands phase.
Proof.
  intros Hok Hc Hm Hrand Hmk w' Hge Hmax Hsh. pose proof (after_command_ok cmd w Hok Hc) as Hok'. fold w' in Hok'.
  destruct (update_weight_spec _ w Hok Hc) as [Eu _]. destruct (command_samples cmd w rands Hok Hc Hm Hrand Hge Hmax) as (gs & Eg & Hgs).
  fold w' in Eg, Hgs. assert (Hmx : ws_maxset w' = ws_maxset w) by (unfold w', after_command, with_command; by destruct (sc_type cmd)).
  rewrite <- Hmx in Hgs. destruct (checked_samples_ok d w' rands gs Hok' Hsh Hgs) as (phase & Ep & Hph). exists phase. split; [|done].
  unfold makes_phase, scheduler_thread, with_command in *. destruct (sc_type cmd); try done.
  - rewrite Eu. cbn [mbind outcome_bind ws_maxset ws_with_weights] in Eg |- *. rewrite Eg. cbn [mbind outcome_bind]. by rewrite Ep.
  - destruct Hmk as (-> & Hcnt & Hflag). cbn [mbind outcome_bind]. rewrite Eu. cbn [mbind outcome_bind ws_maxset ws_with_weights ws_restart_flag
      ws_restart_cnt ws_with_restart] in Eg |- *.
    rewrite Hflag in Eg |- *. rewrite andb_false_r. cbn [negb]. unfold CHECK. rewrite (bool_decide_true (_ < 3)) by lia. cbn [mbind outcome_bind].
    rewrite Eg. cbn [mbind outcome_bind]. rewrite (bool_decide_true (Z.of_nat (length gs) <= _)) by (apply Hgs). cbn [mbind outcome_bind].
    unfold check_if_shard, CHECK. rewrite Ep. cbn [mbind outcome_bind].
    rewrite (bool_decide_true (Z.of_nat (length phase) <= _)) by (apply Hph). done.
Qed.
End PHASE.

(** Three variables of weights 5, 4 and 1; the points fall into the slots of
    the first and the last, whose columns have their entry in the same row. *)
Lemma phase_is_free_of_conflicts_witness :
  let w := mkwsamplerctx 0 0 2 3 2 2 1 0 0 [0; 0; 0] false 0 in
  let d := mkdshardctx cvspt 0 2 3 (mkcol_vspmat 3 3 [mkspmat_vector [0] [1]; mkspmat_vector [1] [1]; mkspmat_vector [0] [1]]) in
  let cmd := mksampling_cmd m_weight_update [(0, 5); (1, -4); (2, 1)] in
  let rands := fun i => if bool_decide (i = 0) then RAND_MAX else 0 in
  exists w', scheduler_thread (fun gs _ _ => Ret gs) (Some d) rands cmd w = Ret (w', Some [0]) /\ phase_ok d w' rands [0].
Proof.
  intros w d cmd rands. destruct (phase_is_free_of_conflicts (fun gs _ _ => Ret gs) d w cmd rands) as (phase & E & _ & Hph).
  - constructor; [done..|]. repeat constructor.
  - constructor; [done|]. intros g v Hin. cbn in Hin.
    rewrite !elem_of_cons, elem_of_nil in Hin. destruct Hin as [[= -> ->]|[[= -> ->]|[[= -> ->]|[]]]]; (split; [cbn; lia|done]).
  - done.
  - intros i. unfold rands. case_bool_decide; done.
  - done.
  - vm_compute. done.
  - vm_compute. done.
  - constructor; [vm_compute; done|vm_compute; done|done|]. intros g r Hg Hr. unfold in_thread in Hg, Hr. cbn in Hg, Hr.
    assert (Hg' : g = 0 \/ g = 1 \/ g = 2) by lia. assert (Hr' : r = 0 \/ r = 1 \/ r = 2) by lia.
    destruct Hg' as [->|[->| ->]], Hr' as [->|[->| ->]]; (do 3 eexists; split_and!; [reflexivity|reflexivity|vm_compute; reflexivity]).
  - exists (after_command cmd w). vm_compute in E. injection E as <-. split; [vm_compute; reflexivity|done].
Defined.
