(* ===== verification/StradsStart.v ===== *)
(** * STRADS: the coordinator gives the schedulers their weights

    [_scheduler_start_remote] ([strads/coordinator/coordinator.cpp]) sends
    every scheduler machine the weights of its range in chunks, and
    [process_sched_system_cmd] ([strads/scheduler/scheduler.cpp]) puts them
    together and hands them to the threads. *)
From S2P Require Import Prelude StradsFloat StradsCorr StradsPart StradsSched.
Open Scope Z_scope.

(** [com/comm.hpp]; [sizeof(schedhead)] is 48 and [sizeof(idval_pair)] 16. *)
Definition USER_MSG_SIZE : Z := 16 * 1024 - 72.
Definition sizeof_schedhead : Z := 48.
Definition sizeof_idval_pair : Z := 16.
Definition MAX_ZMQ_HWM : Z := 2000.
Definition MAX_SCHEDULER_THREAD : Z := 256.

Section START.
Context {F : Type} `{Float F}.

(** The messages of type [SYSTEM_SCHEDULING]; [entrycnt] is the number of
    pairs. *)
Inductive sched_msg :=
  | SchedStart (restart : bool) (sched_mid taskcnt start end_ chunks : Z)
  | SchedInitval (sched_mid : Z) (pairs : list (Z * F))
  | SchedUW (sched_mid sched_thrdgid : Z) (pairs : list (Z * F))
  | SchedPhase (sched_mid sched_thrdgid : Z) (ids : list Z)
  | SchedStartAck (taskcnt : Z).

(** ** The coordinator *)
Definition entry_per_chunk : Z := Z.quot (USER_MSG_SIZE - sizeof_schedhead) (2 * sizeof_idval_pair).

(** The pairs of a chunk that starts at [base]; the number of pairs sent. *)
Fixpoint fill_chunk (turns : nat) (weights : list F) (base ei progress taskcnt : Z) : outcome (list (Z * F) * Z) :=
  match turns with
  | O => Ret ([], progress)
  | S turns' =>
      v ← vec_at weights (base + ei);
      let progress' := progress + 1 in
      if bool_decide (progress' = taskcnt) then Ret ([(base + ei, v)], progress')
      else '(r, p) ← fill_chunk turns' weights base (ei + 1) progress' taskcnt; Ret ((base + ei, v) :: r, p)
  end.

Definition send_chunk (weights : list F) (mid start taskcnt : Z) (s : list sched_msg * Z) (ci : Z) : outcome (list sched_msg * Z) :=
  '(pairs, progress) ← fill_chunk (Z.to_nat entry_per_chunk) weights (start + ci * entry_per_chunk) 0 s.2 taskcnt;
  Ret (s.1 ++ [SchedInitval mid pairs], progress).

(** What is sent to machine [mid], and the number of tasks its
    acknowledgement has to carry. *)
Definition scheduler_start_remote (rflag : bool) (weights : list F) (t : task_assignment) (mid : Z) : outcome (list sched_msg * Z) :=
  p ← checked (schmach_tmap t !! mid);
  let taskcnt := rg_end p - rg_start p + 1 in
  let chunks := Z.quot taskcnt entry_per_chunk + (if bool_decide (Z.rem taskcnt entry_per_chunk = 0) then 0 else 1) in
  _ ← CHECK (bool_decide (entry_per_chunk * chunks >= taskcnt));
  _ ← CHECK (negb (bool_decide (chunks > MAX_ZMQ_HWM - 10)));
  '(msgs, _) ← foldM (send_chunk weights mid (rg_start p) taskcnt) (seqZ 0 chunks) ([], 0);
  Ret (SchedStart rflag mid taskcnt (rg_start p) (rg_end p) chunks :: msgs, taskcnt).

(** The answer of the machine. *)
Definition check_start_ack (taskcnt : Z) (m : sched_msg) : outcome unit :=
  match m with SchedStartAck rtaskcnt => CHECK (bool_decide (rtaskcnt = taskcnt)) | _ => CheckFail end.

Definition send_weight_update (schedmid gthrdid : Z) (idvalp : list (Z * F)) : outcome sched_msg :=
  _ ← CHECK (bool_decide (Z.of_nat (length idvalp) * sizeof_idval_pair <= USER_MSG_SIZE - sizeof_schedhead));
  Ret (SchedUW schedmid gthrdid idvalp).

(** ** The scheduler machine *)

(** The chunks are read from [inbox] into an array of [cap] entries; the
    machine waits ([None]) while there is no message. *)
Fixpoint recv_chunks (chunks : nat) (mid cap : Z) (inbox : list sched_msg) (got : list (Z * F)) :
    outcome (option (list (Z * F) * list sched_msg)) :=
  match chunks with
  | O => Ret (Some (got, inbox))
  | S chunks' =>
    match inbox with
    | [] => Ret None
    | SchedInitval m pairs :: inbox' =>
        _ ← CHECK (bool_decide (m = mid));
        if bool_decide (Z.of_nat (length got + length pairs) <= cap) then recv_chunks chunks' mid cap inbox' (got ++ pairs) else Undef
    | _ => CheckFail
    end
  end.

(** The pairs at [idx] and after it that a thread gets. *)
Fixpoint read_pairs (turns : nat) (idvalp : list (Z * F)) (idx : Z) : outcome (list (Z * F)) :=
  match turns with
  | O => Ret []
  | S turns' => e ← vec_at idvalp idx; r ← read_pairs turns' idvalp (idx + 1); Ret (e :: r)
  end.

(** One turn of the loop over the threads of the machine. *)
Definition give_thread (type : samplingcmd_type) (t : task_assignment) (basepartno : Z) (idvalp : list (Z * F))
    (s : list (Z * sampling_cmd F) * Z) (i : Z) : outcome (list (Z * sampling_cmd F) * Z) :=
  r ← at_part (schthrd_tmap t) (basepartno + i);
  let n := rg_end r - rg_start r + 1 in
  pairs ← read_pairs (Z.to_nat n) idvalp s.2;
  _ ← (if bool_decide (i < MAX_SCHEDULER_THREAD) then Ret tt else Undef);
  Ret (s.1 ++ [(i, mksampling_cmd type pairs)], s.2 + Z.of_nat (length pairs)).

(** What a message does: the commands put into the queues of threads, the
    messages left and the answer. *)
Definition sched_result : Type := list (Z * sampling_cmd F) * list sched_msg * option sched_msg.

Definition process_start (restart : bool) (mid taskcnt start end_ chunks : Z) (t : task_assignment) (sched_mid thrds : Z)
    (inbox : list sched_msg) : outcome (option sched_result) :=
  _ ← CHECK (bool_decide (end_ <> 0));
  p ← checked (schmach_tmap t !! sched_mid);
  _ ← CHECK (bool_decide (rg_start p = start));
  _ ← CHECK (bool_decide (rg_end p = end_));
  let cap := end_ - start + 1 in
  o ← recv_chunks (Z.to_nat chunks) sched_mid cap inbox [];
  match o with
  | None => Ret None
  | Some (got, inbox') =>
      let progress := Z.of_nat (length got) in
      _ ← CHECK (bool_decide (progress = taskcnt));
      _ ← foldM (fun _ i => e ← vec_at got i; CHECK (bool_decide (e.1 = start + i))) (seqZ 0 taskcnt) tt;
      let idvalp := got ++ replicate (Z.to_nat (cap - progress)) (0, f_zero) in
      _ ← CHECK (bool_decide (sched_mid >= 0));
      let type := if restart then m_restart_weight_update else m_init_weight_update in
      '(cmds, idx) ← foldM (give_thread type t (sched_mid * thrds) idvalp) (seqZ 0 thrds) ([], 0);
      _ ← CHECK (bool_decide (idx = progress));
      Ret (Some (cmds, inbox', Some (SchedStartAck taskcnt)))
  end.

(** [sched_mid] and [thrds] are the machine and its number of threads. *)
Definition process_sched_system_cmd (t : task_assignment) (sched_mid thrds : Z) (m : sched_msg) (inbox : list sched_msg) :
    outcome (option sched_result) :=
  match m with
  | SchedStart restart mid taskcnt start end_ chunks => process_start restart mid taskcnt start end_ chunks t sched_mid thrds inbox
  | SchedUW _ gthrdid pairs =>
      let lthrdid := gthrdid - sched_mid * thrds in
      if bool_decide (0 <= lthrdid < thrds) then Ret (Some ([(lthrdid, mksampling_cmd m_weight_update pairs)], inbox, None)) else Undef
  | _ => CheckFail
  end.

(** ** Chunks *)

(** The weights of [n] variables from [a] on, with their ids. *)
Definition pairs_of (weights : list F) (a : Z) (n : nat) : list (Z * F) := zip (seqZ a (Z.of_nat n)) (take n (drop (Z.to_nat a) weights)).

Lemma pairs_of_S weights a n v : 0 <= a -> weights !! Z.to_nat a = Some v -> pairs_of weights a (S n) = (a, v) :: pairs_of weights (a + 1) n.
Proof.
  intros Ha Hv. unfold pairs_of. rewrite seqZ_cons by lia. rewrite (drop_S _ _ _ Hv). cbn [take zip zip_with]. f_equal.
  replace (Z.pred (Z.of_nat (S n))) with (Z.of_nat n) by lia. by replace (Z.to_nat (a + 1)) with (S (Z.to_nat a)) by lia.
Qed.

Lemma length_pairs_of weights a n : 0 <= a -> a + Z.of_nat n <= Z.of_nat (length weights) -> length (pairs_of weights a n) = n.
Proof. intros Ha Hn. unfold pairs_of. rewrite length_zip, length_seqZ, length_take, length_drop. lia. Qed.

Lemma pairs_of_app weights a n m : 0 <= a -> a + Z.of_nat n <= Z.of_nat (length weights) ->
  pairs_of weights a (n + m) = pairs_of weights a n ++ pairs_of weights (a + Z.of_nat n) m.
Proof.
  revert a. induction n as [|n IH]; intros a Ha Hn; [by rewrite Z.add_0_r|].
  destruct (lookup_lt_is_Some_2 weights (Z.to_nat a)) as (v & Hv); [lia|]. cbn [Nat.add]. rewrite !(pairs_of_S _ _ _ v) by done. cbn [app]. f_equal.
  rewrite IH by lia. by replace (a + 1 + Z.of_nat n) with (a + Z.of_nat (S n)) by lia.
Qed.

Lemma pairs_of_lookup weights a n j : 0 <= a -> a + Z.of_nat n <= Z.of_nat (length weights) -> (j < n)%nat ->
  exists v, weights !! Z.to_nat (a + Z.of_nat j) = Some v /\ pairs_of weights a n !! j = Some (a + Z.of_nat j, v).
Proof.
  intros Ha Hn Hj. destruct (lookup_lt_is_Some_2 weights (Z.to_nat (a + Z.of_nat j))) as (v & Hv); [lia|]. exists v. split; [done|].
  replace n with (j + S (n - S j))%nat by lia. rewrite pairs_of_app by lia. rewrite lookup_app_r by (rewrite length_pairs_of; lia).
  rewrite length_pairs_of by lia. rewrite Nat.sub_diag. by rewrite (pairs_of_S _ _ _ v) by (done || lia).
Qed.

Lemma fill_chunk_spec turns weights base ei progress taskcnt : 0 <= base + ei -> progress < taskcnt ->
  base + ei + (taskcnt - progress) <= Z.of_nat (length weights) ->
  fill_chunk turns weights base ei progress taskcnt =
    Ret (pairs_of weights (base + ei) (Nat.min turns (Z.to_nat (taskcnt - progress))), progress + Z.min (Z.of_nat turns) (taskcnt - progress)).
Proof.
  revert ei progress. induction turns as [|turns IH]; intros ei progress Ha Hp Hl.
  { cbn. f_equal. f_equal. lia. }
  destruct (lookup_lt_is_Some_2 weights (Z.to_nat (base + ei))) as (v & Hv); [lia|]. cbn [fill_chunk].
  rewrite (proj2 (vec_at_Ret weights _ v)) by done. cbn [mbind outcome_bind].
  replace (Nat.min (S turns) (Z.to_nat (taskcnt - progress))) with (S (Nat.min turns (Z.to_nat (taskcnt - (progress + 1))))) by lia.
  rewrite (pairs_of_S _ _ _ v) by done. case_bool_decide as Hd.
  - replace (Z.to_nat (taskcnt - (progress + 1))) with 0%nat by lia. rewrite Nat.min_0_r. f_equal. f_equal. lia.
  - rewrite IH by lia. cbn [mbind outcome_bind]. replace (base + (ei + 1)) with (base + ei + 1) by lia. f_equal. f_equal. lia.
Qed.

Lemma entry_per_chunk_pos : 0 < entry_per_chunk.
Proof. done. Qed.

(** The first [c] chunks hold the first [c * entry_per_chunk] tasks. *)
Lemma send_chunks_spec weights mid start taskcnt c : 0 <= start -> start + taskcnt <= Z.of_nat (length weights) ->
  (c = 0%nat \/ (Z.of_nat c - 1) * entry_per_chunk < taskcnt) -> 0 <= taskcnt ->
  exists ps, foldM (send_chunk weights mid start taskcnt) (seqZ 0 (Z.of_nat c)) ([], 0) =
    Ret (map (SchedInitval mid) ps, Z.min (Z.of_nat c * entry_per_chunk) taskcnt) /\ length ps = c /\
    concat ps = pairs_of weights start (Z.to_nat (Z.min (Z.of_nat c * entry_per_chunk) taskcnt)).
Proof.
  intros Hs Hl Hc Ht. pose proof entry_per_chunk_pos as Hpos. induction c as [|c IH].
  { exists []. split_and!; [cbn; f_equal; f_equal; lia|done|]. by replace (Z.to_nat _) with 0%nat by lia. }
  destruct IH as (ps & E & Hps & Hcat); [destruct c; [by left|right; nia]|]. rewrite seqZ_S, foldM_app, E. cbn [mbind outcome_bind foldM Z.add].
  assert (Hcc : Z.of_nat c * entry_per_chunk < taskcnt) by nia. rewrite Z.min_l in * by lia.
  unfold send_chunk at 1. cbn [fst snd]. rewrite fill_chunk_spec by lia. cbn [mbind outcome_bind]. rewrite Z.add_0_r.
  set (q := pairs_of weights _ _). exists (ps ++ [q]). split_and!.
  - rewrite map_app. cbn [map]. f_equal. f_equal. lia.
  - rewrite length_app. cbn. lia.
  - rewrite concat_app. cbn [concat]. rewrite Hcat, app_nil_r. unfold q.
    replace (start + (0 + Z.of_nat c) * entry_per_chunk) with (start + Z.of_nat (Z.to_nat (Z.of_nat c * entry_per_chunk))) by lia.
    rewrite <- pairs_of_app by lia. f_equal. lia.
Qed.

Lemma recv_chunks_spec ps mid cap rest got : Z.of_nat (length got + length (concat ps)) <= cap ->
  recv_chunks (length ps) mid cap (map (SchedInitval mid) ps ++ rest) got = Ret (Some (got ++ concat ps, rest)).
Proof.
  revert got. induction ps as [|q ps IH]; intros got Hcap; [cbn; by rewrite app_nil_r|]. cbn [concat] in Hcap. rewrite length_app in Hcap.
  cbn [length map app recv_chunks]. unfold CHECK. rewrite (bool_decide_true (mid = mid)) by done. cbn [mbind outcome_bind].
  rewrite bool_decide_true by lia. rewrite IH by (rewrite length_app; lia). cbn [concat]. by rewrite app_assoc.
Qed.

Lemma read_pairs_spec weights start total idx n : 0 <= start -> start + Z.of_nat total <= Z.of_nat (length weights) -> 0 <= idx ->
  idx + Z.of_nat n <= Z.of_nat total -> read_pairs n (pairs_of weights start total) idx = Ret (pairs_of weights (start + idx) n).
Proof.
  intros Hs Hl. revert idx. induction n as [|n IH]; intros idx Hi Hn; [done|]. cbn [read_pairs].
  destruct (pairs_of_lookup weights start total (Z.to_nat idx)) as (v & Hv & Hlk); [lia|lia|lia|]. rewrite Z2Nat.id in Hv, Hlk by lia.
  rewrite (proj2 (vec_at_Ret _ idx _)) by (split; [lia|exact Hlk]). cbn [mbind outcome_bind]. rewrite IH by lia. cbn [mbind outcome_bind].
  rewrite (pairs_of_S _ _ _ v) by (done || lia). by rewrite Z.add_assoc.
Qed.

Lemma ids_contiguous weights a total n : 0 <= a -> a + Z.of_nat total <= Z.of_nat (length weights) -> (n <= total)%nat ->
  foldM (fun _ i => e ← vec_at (pairs_of weights a total) i; CHECK (bool_decide (e.1 = a + i))) (seqZ 0 (Z.of_nat n)) tt = Ret tt.
Proof.
  intros Ha Hl. induction n as [|n IH]; intros Hn; [done|]. rewrite seqZ_S, foldM_app, IH by lia. rewrite Z.add_0_l. cbn [mbind outcome_bind foldM].
  destruct (pairs_of_lookup weights a total n) as (v & Hv & Hlk); [lia..|].
  rewrite (proj2 (vec_at_Ret _ (Z.of_nat n) _)) by (split; [lia|rewrite Nat2Z.id; exact Hlk]). cbn [mbind outcome_bind fst].
  by rewrite bool_decide_true.
Qed.

Lemma pairs_of_elem weights a n g v : 0 <= a -> a + Z.of_nat n <= Z.of_nat (length weights) ->
  (g, v) ∈ pairs_of weights a n <-> a <= g < a + Z.of_nat n /\ weights !! Z.to_nat g = Some v.
Proof.
  intros Ha Hl. split.
  - intros (j & Hj)%list_elem_of_lookup. pose proof (lookup_lt_Some _ _ _ Hj) as Hlt. rewrite length_pairs_of in Hlt by lia.
    destruct (pairs_of_lookup weights a n j) as (v' & Hv & Hlk); [lia..|]. rewrite Hlk in Hj. injection Hj as <- <-. split; [lia|done].
  - intros [Hg Hv]. destruct (pairs_of_lookup weights a n (Z.to_nat (g - a))) as (v' & Hv' & Hlk); [lia..|].
    rewrite Z2Nat.id in Hv', Hlk by lia. replace (a + (g - a)) with g in Hv', Hlk by lia. rewrite Hv in Hv'. injection Hv' as <-.
    by eapply list_elem_of_lookup_2.
Qed.

(** ** The threads *)

Lemma assignment_spec modelsize schedmach thrd : 0 <= modelsize -> 0 < schedmach -> 0 < thrd ->
  let parts := schedmach * thrd in
  exists t, make_scheduling_taskpartition modelsize schedmach thrd (mktask_assignment ∅ ∅) = Ret t /\
    (forall g, 0 <= g < parts -> schthrd_tmap t !! g = Some (part modelsize parts g)) /\
    (forall m, 0 <= m < schedmach ->
       schmach_tmap t !! m = Some (mkrange (part_start modelsize parts (m * thrd)) (part_start modelsize parts ((m + 1) * thrd) - 1))).
Proof.
  intros Hm Hs Ht parts. destruct (fine_partition_spec modelsize parts Hm ltac:(unfold parts; nia)) as (tmap & E & Hb).
  destruct (super_partition_spec modelsize parts thrd schedmach tmap Ht ltac:(lia) eq_refl Hb) as (smap & Es & Hsm).
  exists (mktask_assignment smap tmap). unfold make_scheduling_taskpartition. cbn [schthrd_tmap schmach_tmap]. fold parts. rewrite E.
  cbn [mbind outcome_bind]. rewrite Es. split_and!; [done| |].
  - intros g Hg. rewrite Hb. by rewrite bool_decide_true.
  - intros m Hmm. rewrite Hsm. by rewrite bool_decide_true.
Qed.

Section MACHINE.
Context (modelsize schedmach thrd : Z) (Hm : 0 <= modelsize) (Hs : 0 < schedmach) (Ht : 0 < thrd).
Let parts : Z := schedmach * thrd.
Context (t : task_assignment) (Hthrd : forall g, 0 <= g < parts -> schthrd_tmap t !! g = Some (part modelsize parts g)).
Context (weights : list F) (Hw : Z.of_nat (length weights) = modelsize).

(** The command of thread [i] of machine [mid]. *)
Definition thread_cmd (type : samplingcmd_type) (g : Z) : sampling_cmd F :=
  mksampling_cmd type (pairs_of weights (part_start modelsize parts g)
    (Z.to_nat (part_start modelsize parts (g + 1) - part_start modelsize parts g))).

Lemma part_start_bounds g : 0 <= g <= parts -> 0 <= part_start modelsize parts g <= modelsize.
Proof.
  intros Hg. assert (Hp : 0 < parts) by (unfold parts; nia).
  pose proof (part_start_mono modelsize parts Hm Hp 0 g ltac:(lia)). rewrite (part_start_0 modelsize parts Hp) in *.
  pose proof (part_start_mono modelsize parts Hm Hp g parts ltac:(lia)). rewrite (part_start_all modelsize parts Hp) in *. lia.
Qed.

Lemma give_threads_spec type mid idvalp total n : 0 <= mid < schedmach -> (Z.of_nat n <= thrd) -> thrd <= MAX_SCHEDULER_THREAD ->
  let start := part_start modelsize parts (mid * thrd) in
  idvalp = pairs_of weights start total -> start + Z.of_nat total = part_start modelsize parts ((mid + 1) * thrd) ->
  foldM (give_thread type t (mid * thrd) idvalp) (seqZ 0 (Z.of_nat n)) ([], 0) =
    Ret (map (fun i => (i, thread_cmd type (mid * thrd + i))) (seqZ 0 (Z.of_nat n)), part_start modelsize parts (mid * thrd + Z.of_nat n) - start).
Proof.
  intros Hmid Hn Hmax start Hid Htot. assert (Hp : 0 < parts) by (unfold parts; nia).
  assert (Hm0 : 0 <= mid * thrd) by nia. assert (Hm1 : (mid + 1) * thrd <= parts) by (apply Z.mul_le_mono_nonneg_r; lia).
  assert (Hm2 : (mid + 1) * thrd = mid * thrd + thrd) by lia.
  induction n as [|n IH]; [cbn; f_equal; f_equal; unfold start; rewrite Z.add_0_r; lia|].
  rewrite seqZ_S, foldM_app, IH by lia. rewrite !Z.add_0_l. cbn [mbind outcome_bind foldM]. unfold give_thread at 1, at_part. cbn [fst snd].
  assert (Hg : 0 <= mid * thrd + Z.of_nat n < parts) by lia. rewrite Hthrd by done. cbn [deref mbind outcome_bind].
  unfold part. cbn [rg_start rg_end].
  set (a := part_start modelsize parts (mid * thrd + Z.of_nat n)). set (b := part_start modelsize parts (mid * thrd + Z.of_nat n + 1)).
  assert (Hab : a <= b) by (apply part_start_mono; unfold a, b; lia).
  assert (Hsa : start <= a) by (apply part_start_mono; lia).
  assert (Hbe : b <= start + Z.of_nat total) by (rewrite Htot; apply part_start_mono; lia).
  pose proof (part_start_bounds (mid * thrd) ltac:(lia)) as Hsb. fold start in Hsb.
  pose proof (part_start_bounds ((mid + 1) * thrd) ltac:(lia)) as Heb. rewrite <- Htot in Heb.
  subst idvalp. replace (b - 1 - a + 1) with (b - a) by lia. rewrite read_pairs_spec by lia. cbn [mbind outcome_bind].
  rewrite bool_decide_true by lia. cbn [mbind outcome_bind]. f_equal. f_equal.
  - rewrite map_app. cbn [map]. f_equal. f_equal. f_equal. unfold thread_cmd. fold a b. f_equal. f_equal. lia.
  - rewrite length_pairs_of by lia. replace (mid * thrd + Z.of_nat (S n)) with (mid * thrd + Z.of_nat n + 1) by lia. fold b. lia.
Qed.

Lemma thread_size g : 0 <= g < parts -> modelsize / parts <= part_start modelsize parts (g + 1) - part_start modelsize parts g <= modelsize / parts + 1.
Proof. intros Hg. rewrite part_start_step by lia. case_bool_decide; lia. Qed.

Lemma machine_size mid n : 0 <= mid < schedmach -> 0 <= Z.of_nat n <= thrd ->
  part_start modelsize parts (mid * thrd + Z.of_nat n) - part_start modelsize parts (mid * thrd) <= Z.of_nat n * (modelsize / parts + 1) /\
  Z.of_nat n * (modelsize / parts) <= part_start modelsize parts (mid * thrd + Z.of_nat n) - part_start modelsize parts (mid * thrd).
Proof.
  intros Hmid Hn. assert ((mid + 1) * thrd <= parts) by (apply Z.mul_le_mono_nonneg_r; lia). assert (0 <= mid * thrd) by nia.
  induction n as [|n IH]; [rewrite Z.add_0_r; lia|].
  specialize (IH ltac:(lia)). pose proof (thread_size (mid * thrd + Z.of_nat n) ltac:(lia)) as Hsz.
  replace (mid * thrd + Z.of_nat (S n)) with (mid * thrd + Z.of_nat n + 1) by lia. lia.
Qed.

(** A thread of at least two tasks accepts its command. *)
Lemma thread_cmd_ok type g maxset (bw infthr : F) : 0 <= g < parts -> 2 <= modelsize / parts ->
  exists r w, schthrd_tmap t !! g = Some r /\ wsamplerctx_new g (rg_start r) (rg_end r) maxset bw infthr = Ret w /\
    covers_range (sc_winfo (thread_cmd type g)) w = Ret tt /\ Z.of_nat (length (sc_winfo (thread_cmd type g))) = ws_len w /\
    forall k v, (k, v) ∈ sc_winfo (thread_cmd type g) <-> in_range r k /\ weights !! Z.to_nat k = Some v.
Proof.
  intros Hg H2. pose proof (thread_size g Hg) as Hsz. pose proof (part_start_bounds g ltac:(lia)) as Hb.
  pose proof (part_start_bounds (g + 1) ltac:(lia)) as Hb'. exists (part modelsize parts g). unfold part, wsamplerctx_new, thread_cmd, covers_range.
  cbn [rg_start rg_end sc_winfo]. set (a := part_start modelsize parts g) in *. set (b := part_start modelsize parts (g + 1)) in *.
  unfold CHECK at 1. rewrite bool_decide_true by lia. cbn [mbind outcome_bind]. eexists. split; [by apply Hthrd|]. split; [done|].
  cbn [ws_start ws_end ws_len]. assert (Hlen : length (pairs_of weights a (Z.to_nat (b - a))) = Z.to_nat (b - a)) by (apply length_pairs_of; lia).
  split_and!.
  - rewrite head_lookup. destruct (pairs_of_lookup weights a (Z.to_nat (b - a)) 0) as (v & _ & ->); [lia..|]. cbn [deref mbind outcome_bind fst].
    rewrite last_lookup, Hlen. destruct (pairs_of_lookup weights a (Z.to_nat (b - a)) (pred (Z.to_nat (b - a)))) as (v' & _ & ->); [lia..|].
    cbn [deref mbind outcome_bind fst]. unfold CHECK. rewrite (bool_decide_true (a + Z.of_nat 0 = a)) by lia. cbn [mbind outcome_bind].
    rewrite bool_decide_true by lia. done.
  - rewrite Hlen. lia.
  - intros k v. rewrite pairs_of_elem by lia. unfold in_range. cbn [rg_start rg_end]. split; intros [? ?]; (split; [lia|done]).
Qed.

(** ** One machine *)
Context (mid : Z) (Hmid : 0 <= mid < schedmach) (Hmax : thrd <= MAX_SCHEDULER_THREAD).
Let start : Z := part_start modelsize parts (mid * thrd).
Let fin : Z := part_start modelsize parts ((mid + 1) * thrd).
Context (Hmach : schmach_tmap t !! mid = Some (mkrange start (fin - 1))).
Context (H2 : 2 <= modelsize / parts) (Hbig : thrd * (modelsize / parts + 1) <= (MAX_ZMQ_HWM - 10) * entry_per_chunk).
Definition chunk_count (taskcnt : Z) : Z :=
  Z.quot taskcnt entry_per_chunk + (if bool_decide (Z.rem taskcnt entry_per_chunk = 0) then 0 else 1).

Lemma machine_bounds : 0 <= mid * thrd /\ mid * thrd + thrd = (mid + 1) * thrd /\ (mid + 1) * thrd <= parts /\ 0 <= start /\
  2 <= fin - start <= (MAX_ZMQ_HWM - 10) * entry_per_chunk /\ fin <= modelsize.
Proof.
  assert (Hm0 : 0 <= mid * thrd) by nia. assert (Hm1 : (mid + 1) * thrd <= parts) by (apply Z.mul_le_mono_nonneg_r; lia).
  pose proof (machine_size mid (Z.to_nat thrd) Hmid ltac:(lia)) as [Hsz1 Hsz2]. rewrite Z2Nat.id in Hsz1, Hsz2 by lia.
  replace (mid * thrd + thrd) with ((mid + 1) * thrd) in Hsz1, Hsz2 by lia. fold start fin in Hsz1, Hsz2.
  pose proof (part_start_bounds (mid * thrd) ltac:(lia)). pose proof (part_start_bounds ((mid + 1) * thrd) ltac:(lia)).
  split_and!; unfold start, fin in *; try lia; nia.
Qed.

Lemma chunk_count_spec n : 0 < n -> n <= chunk_count n * entry_per_chunk /\ (chunk_count n - 1) * entry_per_chunk < n /\ 0 < chunk_count n.
Proof.
  intros Hn. pose proof entry_per_chunk_pos as Hepc. unfold chunk_count. rewrite Z.quot_div_nonneg, Z.rem_mod_nonneg by lia.
  pose proof (Z.div_mod n entry_per_chunk ltac:(lia)) as Hdm. pose proof (Z.mod_pos_bound n entry_per_chunk Hepc). case_bool_decide; nia.
Qed.

Lemma machine_sent rflag : exists ps, scheduler_start_remote rflag weights t mid =
    Ret (SchedStart rflag mid (fin - start) start (fin - 1) (chunk_count (fin - start)) :: map (SchedInitval mid) ps, fin - start) /\
  length ps = Z.to_nat (chunk_count (fin - start)) /\ concat ps = pairs_of weights start (Z.to_nat (fin - start)).
Proof.
  destruct machine_bounds as (_ & _ & _ & Hs0 & Hsize & Hfin). pose proof entry_per_chunk_pos as Hepc.
  destruct (chunk_count_spec (fin - start) ltac:(lia)) as (Hch1 & Hch2 & Hch3).
  destruct (send_chunks_spec weights mid start (fin - start) (Z.to_nat (chunk_count (fin - start)))) as (ps & Eps & Hlps & Hcat);
    [lia|lia|right; lia|lia|]. rewrite Z2Nat.id in Eps, Hcat by lia. rewrite Z.min_r in Eps, Hcat by lia. exists ps. split; [|done].
  unfold scheduler_start_remote. rewrite Hmach. cbn [checked mbind outcome_bind rg_start rg_end].
  replace (fin - 1 - start + 1) with (fin - start) by lia. fold (chunk_count (fin - start)). unfold CHECK.
  rewrite (bool_decide_true (_ >= fin - start)) by lia. rewrite (bool_decide_false (_ > MAX_ZMQ_HWM - 10)) by nia. cbn [mbind outcome_bind negb].
  by rewrite Eps.
Qed.

Lemma machine_received rflag ps rest : length ps = Z.to_nat (chunk_count (fin - start)) ->
  concat ps = pairs_of weights start (Z.to_nat (fin - start)) ->
  process_start rflag mid (fin - start) start (fin - 1) (chunk_count (fin - start)) t mid thrd (map (SchedInitval mid) ps ++ rest) =
  Ret (Some (map (fun i => (i, thread_cmd (if rflag then m_restart_weight_update else m_init_weight_update) (mid * thrd + i))) (seqZ 0 thrd),
             rest, Some (SchedStartAck (fin - start)))).
Proof.
  intros Hlps Hcat. destruct machine_bounds as (Hm0 & Hme & _ & Hs0 & Hsize & Hfin). set (type := if rflag then _ else _).
  unfold process_start, CHECK. rewrite (bool_decide_true (fin - 1 <> 0)) by lia. cbn [mbind outcome_bind].
  rewrite Hmach. cbn [checked mbind outcome_bind rg_start rg_end]. rewrite !(bool_decide_true (_ = _)) by done.
  cbn [mbind outcome_bind]. assert (Hgl : length (pairs_of weights start (Z.to_nat (fin - start))) = Z.to_nat (fin - start)) by (apply length_pairs_of; lia).
  rewrite <- Hlps, recv_chunks_spec by (rewrite Hcat, Hgl; cbn [length]; lia). cbn [mbind outcome_bind app]. rewrite Hcat, Hgl.
  rewrite Z2Nat.id by lia. rewrite (bool_decide_true (fin - start = fin - start)) by done. cbn [mbind outcome_bind].
  pose proof (ids_contiguous weights start (Z.to_nat (fin - start)) (Z.to_nat (fin - start)) Hs0) as Hids. rewrite Z2Nat.id in Hids by lia.
  unfold CHECK in Hids. rewrite Hids by lia. cbn [mbind outcome_bind]. replace (fin - 1 - start + 1 - (fin - start)) with 0 by lia.
  cbn [replicate Z.to_nat]. rewrite app_nil_r, (bool_decide_true (mid >= 0)) by lia. cbn [mbind outcome_bind].
  pose proof (give_threads_spec type mid _ (Z.to_nat (fin - start)) (Z.to_nat thrd) Hmid ltac:(lia) Hmax eq_refl) as Hgive.
  rewrite !Z2Nat.id, Hme in Hgive by lia. fold start fin in Hgive. fold type. rewrite Hgive by lia. cbn [mbind outcome_bind].
  by rewrite (bool_decide_true (fin - start = fin - start)).
Qed.
End MACHINE.

(** C34: the coordinator's messages to a scheduler machine are taken without a failed check and none is left over: every thread of
    the machine gets one command, which holds exactly the weights of the variables of its range and which its sampler accepts as
    covering the range, and the coordinator accepts the answer. *)
Theorem start_gives_threads_their_weights modelsize schedmach thrd mid weights rflag rest maxset (bw infthr : F) :
  0 < schedmach -> 0 < thrd <= MAX_SCHEDULER_THREAD -> 0 <= mid < schedmach -> Z.of_nat (length weights) = modelsize ->
  2 <= modelsize / (schedmach * thrd) -> thrd * (modelsize / (schedmach * thrd) + 1) <= (MAX_ZMQ_HWM - 10) * entry_per_chunk ->
  exists t first others taskcnt cmds, make_scheduling_taskpartition modelsize schedmach thrd (mktask_assignment ∅ ∅) = Ret t /\
    scheduler_start_remote rflag weights t mid = Ret (first :: others, taskcnt) /\
    process_sched_system_cmd t mid thrd first (others ++ rest) = Ret (Some (cmds, rest, Some (SchedStartAck taskcnt))) /\
    check_start_ack taskcnt (SchedStartAck taskcnt) = Ret tt /\
    cmds.*1 = seqZ 0 thrd /\
    forall i cmd, (i, cmd) ∈ cmds ->
      sc_type cmd = (if rflag then m_restart_weight_update else m_init_weight_update) /\
      exists r w, schthrd_tmap t !! (mid * thrd + i) = Some r /\
        wsamplerctx_new (mid * thrd + i) (rg_start r) (rg_end r) maxset bw infthr = Ret w /\
        covers_range (sc_winfo cmd) w = Ret tt /\ Z.of_nat (length (sc_winfo cmd)) = ws_len w /\
        forall k v, (k, v) ∈ sc_winfo cmd <-> in_range r k /\ weights !! Z.to_nat k = Some v.
Proof.
  intros Hs [Ht Htm] Hmid Hw H2 Hbig. assert (Hm : 0 <= modelsize) by lia.
  destruct (assignment_spec modelsize schedmach thrd Hm Hs Ht) as (t & Et & Hthrd & Hmach). specialize (Hmach mid Hmid).
  destruct (machine_sent modelsize schedmach thrd Hm Hs Ht t weights Hw mid Hmid Hmach H2 Hbig rflag) as (ps & Esent & Hlps & Hcat).
  pose proof (machine_received modelsize schedmach thrd Hm Hs Ht t Hthrd weights Hw mid Hmid Htm Hmach H2 Hbig rflag ps rest Hlps Hcat) as Erecv.
  do 5 eexists. split; [exact Et|]. split; [exact Esent|]. split; [exact Erecv|]. split; [|split].
  - unfold check_start_ack. by rewrite bool_decide_true.
  - rewrite <- list_fmap_compose. cbn. clear. generalize (seqZ 0 thrd). intros l. induction l as [|i l IH]; [done|]. cbn. by rewrite IH.
  - intros i cmd (j & [= -> ->] & Hj%elem_of_seqZ)%list_elem_of_fmap. split; [done|].
    apply (thread_cmd_ok modelsize schedmach thrd Hm Hs Ht t Hthrd weights Hw); [nia|done].
Qed.
End START.
Arguments sched_msg : clear implicits.

(** Two machines of two threads share nine variables; machine 1 gets the
    variables 5 to 8. *)
Lemma start_gives_threads_their_weights_witness : exists t first others,
  scheduler_start_remote true [0; 10; 20; 30; 40; 50; 60; 70; 80] t 1 = Ret (first :: others, 4) /\
  process_sched_system_cmd t 1 2 first others =
    Ret (Some ([(0, mksampling_cmd m_restart_weight_update [(5, 50); (6, 60)]); (1, mksampling_cmd m_restart_weight_update [(7, 70); (8, 80)])],
      [], Some (SchedStartAck 4))).
Proof.
  destruct (start_gives_threads_their_weights 9 2 2 1 [0; 10; 20; 30; 40; 50; 60; 70; 80] true [] 1 (1 : Z) (1 : Z))
    as (t & first & others & taskcnt & cmds & Et & Es & Er & _); [done|done|done|done|done|done|].
  vm_compute in Et. injection Et as <-. rewrite app_nil_r in Er.
  lazymatch type of Es with scheduler_start_remote _ _ ?t _ = _ => exists t, first, others end.
  vm_compute in Es. injection Es as <- <- <-. split; vm_compute; reflexivity.
Defined.
