(* ===== verification/StradsLoop.v ===== *)
(** * STRADS: the coordinator and the schedulers together

    The main loops of [coordinator_mach] ([strads/coordinator/
    coordinator.cpp]) and [scheduler_mach] ([strads/scheduler/
    scheduler.cpp]) with the threads of [StradsSched] and the messages on
    their way.  A thread sends a phase, the coordinator has it updated and
    sends the new weights back to that thread; after [switch_iter]
    iterations the coordinator takes the phase of every thread and restarts
    the schedulers. *)
From S2P Require Import Prelude StradsFloat StradsCorr StradsPart StradsSched StradsStart.
Open Scope Z_scope.

Section LOOP.
Context {F : Type} `{Float F}.

(** A scheduler thread with its two queues; an entry of [m_outq] is the list
    of ids of a command [m_make_phase]. *)
Record sthread := mksthread { th_ws : wsamplerctx F; th_inq : list (sampling_cmd F); th_outq : list (list Z) }.

(** A scheduler machine: messages from and to the coordinator, [rclock] and
    [sthrds]. *)
Record smach := mksmach { sm_inbox : list (sched_msg F); sm_out : list (sched_msg F); sm_rclock : Z; sm_threads : list sthread }.

Definition put_entry_inq (cmd : sampling_cmd F) (th : sthread) : sthread := mksthread (th_ws th) (th_inq th ++ [cmd]) (th_outq th).
Definition get_entry_outq (th : sthread) : option (list Z * sthread) :=
  match th_outq th with [] => None | ids :: q => Some (ids, mksthread (th_ws th) (th_inq th) q) end.

Definition queue_cmds (cmds : list (Z * sampling_cmd F)) (threads : list sthread) : outcome (list sthread) :=
  foldM (fun ths c => th ← vec_at ths c.1; vec_set ths c.1 (put_entry_inq c.2 th)) cmds threads.

(** The loop that looks for a phase from thread [rclock] on; it ends with the
    last thread. *)
Fixpoint scan_outqs (turns : nat) (thrds rclock : Z) (threads : list sthread) : outcome (Z * list sthread * option (Z * list Z)) :=
  match turns with
  | O => Undef
  | S turns' =>
      th ← vec_at threads rclock;
      match get_entry_outq th with
      | Some (ids, th') =>
          threads' ← vec_set threads rclock th';
          Ret (Z.rem (rclock + 1) thrds, threads', Some (ws_gid (th_ws th), ids))
      | None => if bool_decide (Z.rem (rclock + 1) thrds = 0) then Ret (0, threads, None) else scan_outqs turns' thrds (rclock + 1) threads
      end
  end.

(** A phase found is sent to the coordinator. *)
Definition send_phase (sched_mid thrds : Z) (sm : smach) : outcome smach :=
  '(rclock, threads, o) ← scan_outqs (Z.to_nat thrds) thrds (sm_rclock sm) (sm_threads sm);
  Ret (mksmach (sm_inbox sm)
         (match o with Some (gid, ids) => sm_out sm ++ [SchedPhase sched_mid gid ids] | None => sm_out sm end) rclock threads).

(** One turn of the loop of [scheduler_mach]; [None] while it waits within
    the handler. *)
Definition scheduler_mach_turn (t : task_assignment) (sched_mid thrds : Z) (sm : smach) : outcome (option smach) :=
  match sm_inbox sm with
  | [] => sm' ← send_phase sched_mid thrds sm; Ret (Some sm')
  | msg :: inbox =>
      o ← process_sched_system_cmd t sched_mid thrds msg inbox;
      match o with
      | None => Ret None
      | Some (cmds, inbox', ack) =>
          threads ← queue_cmds cmds (sm_threads sm);
          let sm1 := mksmach inbox' (match ack with Some a => sm_out sm ++ [a] | None => sm_out sm end) (sm_rclock sm) threads in
          match msg with
          | SchedStart false _ _ _ _ _ => Ret (Some sm1)
          | _ => sm' ← send_phase sched_mid thrds sm1; Ret (Some sm')
          end
      end
  end.

(** ** The coordinator *)

Inductive coord_mode :=
  | Working
  | Flushing (m toflush : Z)   (* polls machine [m] *)
  | Starting (m : Z)           (* sends the weights to machine [m] *)
  | WaitAck (m taskcnt : Z)    (* waits for its acknowledgement *)
  | Finished.                  (* [exit(0)] *)

#[global] Instance coord_mode_eq_dec : EqDecision coord_mode.
Proof. solve_decision. Defined.

(** [co_starts] counts the restarts, for which [co_weights] are sent;
    [m_idvalp_buf] keeps the pairs sent last. *)
Record coord := mkcoord {
  co_mode : coord_mode; co_rclock : Z; co_iteration : Z; co_starts : Z; co_weights : list F; co_idvalp_buf : list (Z * F)
}.
Definition with_mode (m : coord_mode) (co : coord) : coord :=
  mkcoord m (co_rclock co) (co_iteration co) (co_starts co) (co_weights co) (co_idvalp_buf co).

Record config := mkconfig {
  schedmachs : Z; thrds_per_sched : Z; maxset : Z; m_iter : Z; switch_iter : Z;
  (* what the code of the application does with a phase: the value of entry i and whether it returns a message with entries *)
  user_values : Z -> list Z -> (Z -> F) * bool;
  (* the weights of [set_initial_priority] *)
  initial_priority : list F
}.

Record strads := mkstrads { st_machs : list smach; st_coord : coord }.

Definition send_to_scheduler (m : Z) (msgs : list (sched_msg F)) (machs : list smach) : outcome (list smach) :=
  sm ← vec_at machs m; vec_set machs m (mksmach (sm_inbox sm ++ msgs) (sm_out sm) (sm_rclock sm) (sm_threads sm)).

(** [pull_entry_inq] on the port of machine [m]. *)
Definition pull_entry_inq (m : Z) (machs : list smach) : outcome (option (sched_msg F) * list smach) :=
  sm ← vec_at machs m;
  match sm_out sm with
  | [] => Ret (None, machs)
  | msg :: out => machs' ← vec_set machs m (mksmach (sm_inbox sm) out (sm_rclock sm) (sm_threads sm)); Ret (Some msg, machs')
  end.

(** The pairs of the next weight update overwrite the first ones of the
    buffer. *)
Definition fill_idvalp_buf (c : config) (iteration : Z) (ids : list Z) (buf : list (Z * F)) : outcome (list (Z * F)) :=
  let '(value, nonempty) := user_values c iteration ids in
  if (nonempty : bool) then
    foldM (fun b i => id ← vec_at ids i;
             vec_set b i (id, if bool_decide (iteration > switch_iter c) then value i else f_zero)) (seqZ 0 (Z.of_nat (length ids))) buf
  else Ret buf.

(** A phase is worked off: the weight update, the iterations and what comes
    next. *)
Definition work_phase (c : config) (msg : sched_msg F) (machs : list smach) (co : coord) : outcome strads :=
  match msg with
  | SchedPhase mid gid ids =>
      buf ← fill_idvalp_buf c (co_iteration co) ids (co_idvalp_buf co);
      _ ← (if bool_decide (Z.of_nat (length ids) <= Z.of_nat (length buf)) then Ret tt else Undef);
      uw ← send_weight_update mid gid (take (length ids) buf);
      machs' ← send_to_scheduler mid [uw] machs;
      let iteration := co_iteration co + 1 in
      let mode := if bool_decide (iteration = m_iter c) then Finished
                  else if bool_decide (iteration = switch_iter c) then Flushing 0 0 else Working in
      Ret (mkstrads machs' (mkcoord mode (Z.rem (co_rclock co + 1) (schedmachs c)) iteration (co_starts co) (co_weights co) buf))
  | _ => CheckFail
  end.

(** One turn of the loop the coordinator is in. *)
Definition coordinator_turn (c : config) (t : task_assignment) (s : strads) : outcome strads :=
  let co := st_coord s in
  match co_mode co with
  | Working =>
      '(o, machs) ← pull_entry_inq (co_rclock co) (st_machs s);
      match o with
      | Some msg => work_phase c msg machs co
      | None => Ret (mkstrads machs (mkcoord Working (Z.rem (co_rclock co + 1) (schedmachs c)) (co_iteration co) (co_starts co) (co_weights co)
                                      (co_idvalp_buf co)))
      end
  | Flushing m toflush =>
      '(o, machs) ← pull_entry_inq m (st_machs s);
      let toflush' := match o with Some _ => toflush + 1 | None => toflush end in
      if bool_decide (m + 1 < schedmachs c) then Ret (mkstrads machs (with_mode (Flushing (m + 1) toflush') co))
      else if bool_decide (toflush' = schedmachs c * thrds_per_sched c) then
        Ret (mkstrads machs (mkcoord (Starting 0) (co_rclock co) (co_iteration co) (co_starts co + 1) (initial_priority c) (co_idvalp_buf co)))
      else Ret (mkstrads machs (with_mode (Flushing 0 toflush') co))
  | Starting m =>
      '(msgs, taskcnt) ← scheduler_start_remote true (co_weights co) t m;
      machs ← send_to_scheduler m msgs (st_machs s);
      Ret (mkstrads machs (with_mode (WaitAck m taskcnt) co))
  | WaitAck m taskcnt =>
      '(o, machs) ← pull_entry_inq m (st_machs s);
      match o with
      | None => Ret (mkstrads machs co)
      | Some msg =>
          _ ← check_start_ack taskcnt msg;
          Ret (mkstrads machs (with_mode (if bool_decide (m + 1 < schedmachs c) then Starting (m + 1) else Working) co))
      end
  | Finished => Ret s
  end.

(** ** The start *)

(** A thread after the first start, which gives it weights of zero. *)
Definition new_thread (c : config) (t : task_assignment) (user_check : list Z -> dshardctx F -> wsamplerctx F -> outcome (list Z))
    (rands : Z -> Z -> Z) (bw infthreshold : F) (modelsize gid : Z) : outcome sthread :=
  r ← at_part (schthrd_tmap t) gid;
  w ← wsamplerctx_new gid (rg_start r) (rg_end r) (maxset c) bw infthreshold;
  let zeros := pairs_of (replicate (Z.to_nat modelsize) f_zero) (rg_start r) (Z.to_nat (rg_end r + 1 - rg_start r)) in
  '(w', _) ← scheduler_thread user_check None (rands gid) (mksampling_cmd m_init_weight_update zeros) w;
  Ret (mksthread w' [] []).

(** The coordinator starts the schedulers again before its first
    iteration. *)
Definition boot (c : config) (t : task_assignment) (user_check : list Z -> dshardctx F -> wsamplerctx F -> outcome (list Z))
    (rands : Z -> Z -> Z) (bw infthreshold : F) (modelsize : Z) : outcome strads :=
  machs ← mapM (fun m =>
    threads ← mapM (fun i => new_thread c t user_check rands bw infthreshold modelsize (m * thrds_per_sched c + i)) (seqZ 0 (thrds_per_sched c));
    Ret (mksmach [] [] 0 threads)) (seqZ 0 (schedmachs c));
  Ret (mkstrads machs (mkcoord (Starting 0) 0 0 0 (replicate (Z.to_nat modelsize) f_zero) (replicate (Z.to_nat (maxset c)) (0, f_zero)))).

(** ** Interleavings *)

(** A thread takes a command from its queue. *)
Definition thread_turn (user_check : list Z -> dshardctx F -> wsamplerctx F -> outcome (list Z)) (d : dshardctx F) (rands : Z -> Z)
    (th : sthread) : outcome sthread :=
  match th_inq th with
  | [] => Ret th
  | cmd :: q =>
      '(w, o) ← scheduler_thread user_check (Some d) rands cmd (th_ws th);
      Ret (mksthread w q (th_outq th ++ match o with Some ids => [ids] | None => [] end))
  end.

Inductive strads_step (c : config) (t : task_assignment) (user_check : list Z -> dshardctx F -> wsamplerctx F -> outcome (list Z))
    (d : Z -> dshardctx F) : strads -> strads -> Prop :=
  | step_coordinator s s' : coordinator_turn c t s = Ret s' -> strads_step c t user_check d s s'
  | step_machine s m sm sm' : 0 <= m -> st_machs s !! Z.to_nat m = Some sm -> scheduler_mach_turn t m (thrds_per_sched c) sm = Ret (Some sm') ->
      strads_step c t user_check d s (mkstrads (<[Z.to_nat m := sm']> (st_machs s)) (st_coord s))
  | step_thread s m sm i th th' rands : 0 <= m -> st_machs s !! Z.to_nat m = Some sm -> sm_threads sm !! i = Some th ->
      thread_turn user_check (d m) rands th = Ret th' ->
      strads_step c t user_check d s
        (mkstrads (<[Z.to_nat m := mksmach (sm_inbox sm) (sm_out sm) (sm_rclock sm) (<[i := th']> (sm_threads sm))]> (st_machs s)) (st_coord s)).
End LOOP.

Arguments sthread : clear implicits.
Arguments smach : clear implicits.
Arguments coord : clear implicits.
Arguments config : clear implicits.
Arguments strads : clear implicits.
