(* ===== verification/StradsLoopProps.v ===== *)
(** * STRADS: one phase per thread

    What holds in every interleaving of the coordinator, the scheduler
    machines and their threads ([StradsLoop]): every thread has exactly one
    phase, update or command under way, so nobody reads a message it does not
    wait for and the coordinator has all phases back before it restarts the
    schedulers. *)

From S2P Require Import Prelude StradsPart StradsFloat StradsCorr StradsSched StradsSample StradsPhase StradsStart StradsLoop.
Open Scope Z_scope.

(** ** STRADS: what the steps of a scheduler thread return

    Whatever a thread ([scheduler_thread] in [StradsSched]) draws and drops,
    when it returns its phase lies in its range and is no longer than
    [maxset]; and sums over the positions of a list, with which
    [StradsLoopProps] counts the messages under way. *)
(** ** What a thread returns *)
Section RETURNS.
Context {F : Type} `{FloatOk F}.

Lemma sample_loop_Ret bw len maxset i weights (acc : F) pts n r : sample_loop bw len maxset i weights acc pts n = Ret r ->
  Forall (fun k => i <= k < i + Z.of_nat (length weights)) r /\ (n <= maxset -> n + Z.of_nat (length r) <= maxset).
Proof.
  revert i acc pts n r. induction weights as [|w weights IH]; intros i acc pts n r E; cbn [sample_loop] in E.
  { injection E as <-. split; [constructor|cbn; lia]. }
  assert (Hwk : forall l, Forall (fun k => i + 1 <= k < i + 1 + Z.of_nat (length weights)) l ->
    Forall (fun k => i <= k < i + Z.of_nat (length (w :: weights))) l).
  { intros l Hl. eapply Forall_impl; [exact Hl|]. cbn [length]. intros; lia. }
  apply bind_Ret_inv in E as (p & _ & E). destruct (f_leb p _).
  - apply bind_Ret_inv in E as (u & _ & E). apply bind_Ret_inv in E as (u' & Hn & E). destruct (decide (n < maxset)) as [Hm|Hm]; [|by rewrite bool_decide_false in Hn by done].
    case_bool_decide; [injection E as <-; split; [repeat constructor; cbn [length]; lia|cbn [length]; lia]|].
    apply bind_Ret_inv in E as (r' & E & [= <-]). apply IH in E as [E1 E2]. split; [|cbn [length]; lia].
    constructor; [cbn [length]; lia|]. by apply Hwk.
  - apply IH in E as [E1 E2]. split; [by apply Hwk|done].
Qed.

Lemma select_loop_Ret turns (space : list (Z * F)) r : select_loop turns space = Ret r ->
  length r = turns /\ forall k, k ∈ r -> k ∈ space.*1.
Proof.
  revert space r. induction turns as [|turns IH]; intros space r E; cbn [select_loop] in E.
  { injection E as <-. split; [done|]. by intros k ?%elem_of_nil. }
  apply bind_Ret_inv in E as (p & _ & E). apply bind_Ret_inv in E as (e & He & E). apply bind_Ret_inv in E as (r' & E & [= <-]).
  destruct (space !! p) as [e'|] eqn:Hp; [|done]. injection He as ->. apply IH in E as [Hl Hin]. split; [cbn; lia|].
  assert (Hfst : (<[p := (e.1, f_lowest)]> space).*1 = space.*1).
  { rewrite list_fmap_insert. cbn. apply list_insert_id. by rewrite list_lookup_fmap, Hp. }
  rewrite Hfst in Hin. intros k [->|Hk]%elem_of_cons; [|by apply Hin]. apply list_elem_of_fmap. exists e. split; [done|]. by eapply list_elem_of_lookup_2.
Qed.

Lemma ws_sort_Ret (weights : list F) samples r : (forall lid, lid ∈ samples -> 0 <= lid < Z.of_nat (length weights)) ->
  ws_sort weights samples = Ret r -> length r = length samples /\ forall k, k ∈ r -> k ∈ samples.
Proof.
  intros Hin E. unfold ws_sort in E. destruct (ws_split_spec weights samples [] [] Hin) as (zs & sp & Es & Hp & _). rewrite Es in E.
  cbn [mbind outcome_bind app] in E. apply bind_Ret_inv in E as (s & E & [= <-]). apply select_loop_Ret in E as [Hl Hk].
  split; [rewrite Hp, !length_app, length_fmap; lia|]. intros k [Hs|Hz]%elem_of_app; rewrite Hp; apply elem_of_app; [left; by apply Hk|by right].
Qed.

Lemma do_sampling_Ret setsize rands (w : wsamplerctx F) gs w' : ws_ok w -> 0 <= ws_maxset w -> do_sampling setsize rands w = Ret (gs, w') ->
  w' = ws_with_bw (tuned_bw w) w /\ setsize < ws_len w /\ Forall (in_thread w) gs /\ Z.of_nat (length gs) <= ws_maxset w.
Proof.
  intros [_ Hlen Hl _] Hm E. unfold do_sampling in E. apply bind_Ret_inv in E as (u & Hs%CHECK_Ret%bool_decide_eq_true & E).
  apply bind_Ret_inv in E as (tmp & Et & E). apply bind_Ret_inv in E as (srt & Er & [= <- <-]).
  apply sample_loop_Ret in Et as [Hk Hn]. cbn [ws_with_bw ws_weights ws_maxset ws_start] in *. rewrite Forall_forall in Hk.
  apply ws_sort_Ret in Er as [Hl' Hin]; [|intros lid Hlid; specialize (Hk _ Hlid); lia].
  split_and!; [done|done| |rewrite length_map; lia]. apply Forall_fmap, Forall_forall. intros k Hkin. cbn. apply Hin, Hk in Hkin. unfold in_thread. lia.
Qed.

Lemma check_loop_Ret (d : dshardctx F) w size samples rvidx out (P : Z -> Prop) : check_loop d w size samples rvidx = Ret out ->
  Forall P samples -> Forall P rvidx -> Forall P out /\ (length out <= length rvidx + length samples)%nat.
Proof.
  revert rvidx. induction samples as [|g samples IH]; intros rvidx E Hs Hr; cbn [check_loop] in E.
  { injection E as <-. split; [done|lia]. }
  apply Forall_cons in Hs as [Hg Hs]. apply bind_Ret_inv in E as (u1 & _ & E). apply bind_Ret_inv in E as (u2 & _ & E).
  apply bind_Ret_inv in E as (b & _ & E).
  assert (Hr' : Forall P (if b then rvidx else rvidx ++ [g])) by (destruct b; [done|apply Forall_app; split; [done|by constructor]]).
  assert (Hlen : (length (if b then rvidx else rvidx ++ [g]) <= S (length rvidx))%nat) by (destruct b; [|rewrite length_app]; cbn; lia).
  cbv zeta in E. case_bool_decide; [injection E as <-; split; [done|cbn [length]; lia]|]. apply IH in E as [E1 E2]; [|done|done].
  split; [done|cbn [length]; lia].
Qed.

Lemma check_interference_Ret (d : dshardctx F) w samples out (P : Z -> Prop) : check_interference samples d w = Ret out ->
  Forall P samples -> Forall P out /\ (length out <= length samples)%nat.
Proof.
  intros E Hs. unfold check_interference in E. do 3 (apply bind_Ret_inv in E as (? & _ & E)). destruct samples as [|g samples]; [done|].
  apply Forall_cons in Hs as [Hg Hs]. eapply check_loop_Ret in E as [E1 E2]; [|done|by constructor]. split; [done|cbn [length] in *; lia].
Qed.

(** A command that makes a phase and returns leaves the sampler as
    [after_command] says, with a phase of the range of the thread. *)
Lemma scheduler_thread_Ret user_check d rands cmd (w w' : wsamplerctx F) o : ws_ok w -> change_ok w (sc_winfo cmd) -> 0 <= ws_maxset w ->
  sc_type cmd = m_weight_update \/ sc_type cmd = m_restart_weight_update ->
  scheduler_thread user_check (Some d) rands cmd w = Ret (w', o) ->
  w' = after_command cmd w /\ exists phase, o = Some phase /\ Forall (in_thread w) phase /\ Z.of_nat (length phase) <= ws_maxset w < ws_len w.
Proof.
  intros Hok Hc Hm Hty E. destruct (update_weight_spec _ w Hok Hc) as [Eu Hok1]. unfold scheduler_thread, after_command, with_command in *.
  destruct Hty as [Hty|Hty]; rewrite Hty in *.
  - rewrite Eu in E. cbn [mbind outcome_bind] in E. apply bind_Ret_inv in E as ([gs w2] & Es & E).
    apply do_sampling_Ret in Es as (-> & Hlt & Hr & Hl); [|done|done]. cbn in E. apply bind_Ret_inv in E as (ph & Ep & [= <- <-]). split; [done|].
    eapply check_interference_Ret in Ep as [Hp Hpl]; [|exact Hr]. exists ph. split_and!; [done|exact Hp|cbn in *; lia|done].
  - apply bind_Ret_inv in E as (u & _ & E). rewrite Eu in E. cbn [mbind outcome_bind] in E. apply bind_Ret_inv in E as (u1 & _ & E).
    apply bind_Ret_inv in E as (u2 & _ & E). apply bind_Ret_inv in E as ([gs w2] & Es & E).
    apply do_sampling_Ret in Es as (-> & Hlt & Hr & Hl); [|destruct Hok1; by constructor|done]. apply bind_Ret_inv in E as (u3 & _ & E).
    apply bind_Ret_inv in E as (ph & Ep & [= <- <-]). unfold check_if_shard in Ep. apply bind_Ret_inv in Ep as (ph' & Ep & E).
    apply bind_Ret_inv in E as (u4 & _ & [= <-]). split; [done|]. eapply check_interference_Ret in Ep as [Hp Hpl]; [|exact Hr].
    exists ph'. split_and!; [done|exact Hp|cbn in *; lia|done].
Qed.
End RETURNS.

(** ** Sums over positions *)
Definition isum {A} (f : nat -> A -> nat) (l : list A) : nat := sum_list (imap f l).

Lemma isum_cons {A} (f : nat -> A -> nat) z l : isum f (z :: l) = (f 0%nat z + isum (f ∘ S) l)%nat.
Proof. done. Qed.

Lemma isum_insert {A} (f : nat -> A -> nat) l i x y : l !! i = Some x -> (isum f (<[i := y]> l) + f i x = isum f l + f i y)%nat.
Proof.
  revert f i. induction l as [|z l IH]; intros f i Hx; [done|]. destruct i as [|i].
  - injection Hx as <-. change (<[0%nat := y]> (z :: l)) with (y :: l). rewrite !isum_cons. lia.
  - change (<[S i := y]> (z :: l)) with (z :: <[i := y]> l). rewrite !isum_cons. specialize (IH (f ∘ S) i Hx).
    change ((f ∘ S) i x) with (f (S i) x) in IH. change ((f ∘ S) i y) with (f (S i) y) in IH. lia.
Qed.

Lemma isum_same {A} (f : nat -> A -> nat) l i x y : l !! i = Some x -> f i y = f i x -> isum f (<[i := y]> l) = isum f l.
Proof. intros Hx E. pose proof (isum_insert f l i x y Hx). lia. Qed.

Lemma isum_const {A} (f : nat -> A -> nat) l k : (forall i x, l !! i = Some x -> f i x = k) -> isum f l = (k * length l)%nat.
Proof.
  revert f. induction l as [|z l IH]; intros f Hf; [by rewrite Nat.mul_0_r|]. rewrite isum_cons, (Hf 0%nat z), (IH (f ∘ S)) by (done || intros i x Hx; by apply (Hf (S i))).
  cbn [length]. lia.
Qed.

Lemma isum_zero {A} (f : nat -> A -> nat) l : isum f l = 0%nat -> forall i x, l !! i = Some x -> f i x = 0%nat.
Proof.
  revert f. induction l as [|z l IH]; intros f Hs i x Hx; [done|]. rewrite isum_cons in Hs. destruct i as [|i].
  - injection Hx as <-. lia.
  - apply (IH (f ∘ S)); [lia|done].
Qed.

Lemma isum_ext {A} (f g : nat -> A -> nat) l l' : length l = length l' ->
  (forall i x x', l !! i = Some x -> l' !! i = Some x' -> f i x = g i x') -> isum f l = isum g l'.
Proof.
  revert f g l'. induction l as [|z l IH]; intros f g [|z' l'] Hl Hf; try done. rewrite !isum_cons, (Hf 0%nat z z') by done. f_equal.
  apply IH; [by injection Hl|]. intros i x x' Hx Hx'. by apply (Hf (S i)).
Qed.

Lemma isum_plus_one {A} (f : nat -> A -> nat) l i x : l !! i = Some x ->
  isum (fun i' th => (f i' th + (if bool_decide (i' = i) then 1 else 0))%nat) l = S (isum f l).
Proof.
  revert f i. induction l as [|z l IH]; intros f i Hx; [done|]. rewrite !isum_cons. destruct i as [|i].
  - assert (E : isum ((fun i' th => (f i' th + (if bool_decide (i' = 0%nat) then 1 else 0))%nat) ∘ S) l = isum (f ∘ S) l).
    { apply isum_ext; [done|]. intros j y y' Ey Ey'. rewrite Ey in Ey'. injection Ey' as <-. unfold compose. rewrite bool_decide_false by done. lia. }
    rewrite E, bool_decide_true by done. lia.
  - assert (E : isum ((fun i' th => (f i' th + (if bool_decide (i' = S i) then 1 else 0))%nat) ∘ S) l =
      isum (fun i' th => ((f ∘ S) i' th + (if bool_decide (i' = i) then 1 else 0))%nat) l).
    { apply isum_ext; [done|]. intros j y y' Ey Ey'. rewrite Ey in Ey'. injection Ey' as <-. unfold compose. by rewrite (bool_decide_ext (S j = S i) (j = i)) by lia. }
    rewrite E, (IH (f ∘ S) i Hx), bool_decide_false by done. lia.
Qed.

Section PROTOCOL.
Context {F : Type} `{FloatOk F}.
Context (c : config F) (modelsize : Z) (t : task_assignment).
Let Sm : Z := schedmachs c.
Let T : Z := thrds_per_sched c.
Let parts : Z := Sm * T.

(** ** What is under way for a thread *)

Definition ids_in (g k : Z) : Prop := part_start modelsize parts g <= k < part_start modelsize parts (g + 1).

(** The sampler of thread [g]. *)
Record fits (g : Z) (w : wsamplerctx F) : Prop := {
  ft_ok : ws_ok w;
  ft_gid : ws_gid w = g;
  ft_start : ws_start w = part_start modelsize parts g;
  ft_end : ws_end w = part_start modelsize parts (g + 1) - 1;
  ft_maxset : ws_maxset w = maxset c;
  ft_flag : ws_restart_cnt w < 2 -> ws_restart_flag w = false
}.

Definition is_restart (cmd : sampling_cmd F) : bool := match sc_type cmd with m_restart_weight_update => true | _ => false end.
Definition restarts (cmds : list (sampling_cmd F)) : Z := Z.of_nat (length (filter (fun cmd => is_restart cmd = true) cmds)).

Lemma restarts_cons cmd cmds : restarts (cmd :: cmds) = (if is_restart cmd then 1 else 0) + restarts cmds.
Proof. unfold restarts. rewrite filter_cons. destruct (is_restart cmd); [rewrite decide_True by done; cbn [length]; lia|by rewrite decide_False]. Qed.

Lemma restarts_nonneg cmds : 0 <= restarts cmds.
Proof. unfold restarts. lia. Qed.

Definition cmd_ok (w : wsamplerctx F) (cmd : sampling_cmd F) : Prop :=
  change_ok w (sc_winfo cmd) /\
  (sc_type cmd = m_weight_update \/ sc_type cmd = m_restart_weight_update /\ covers_range (sc_winfo cmd) w = Ret tt).
Definition ids_ok (g : Z) (ids : list Z) : Prop :=
  Forall (ids_in g) ids /\ Z.of_nat (length ids) <= maxset c < part_start modelsize parts (g + 1) - part_start modelsize parts g.

(** [n] is the number of restarts the thread has taken or will take from its
    queue. *)
Record tinv (n g : Z) (th : sthread F) : Prop := {
  ti_fits : fits g (th_ws th);
  ti_count : ws_restart_cnt (th_ws th) + restarts (th_inq th) = n;
  ti_cmds : Forall (cmd_ok (th_ws th)) (th_inq th);
  ti_phases : Forall (ids_ok g) (th_outq th)
}.

Lemma cmd_ok_same w w' cmd : ws_start w' = ws_start w -> ws_end w' = ws_end w -> ws_len w' = ws_len w -> cmd_ok w cmd -> cmd_ok w' cmd.
Proof.
  intros Es Ee El [[Hsz Hr] Hty]. split; [constructor; [by rewrite El|rewrite Es, Ee; done]|].
  destruct Hty as [?|[? Hc]]; [by left|right]. split; [done|]. unfold covers_range in *. by rewrite Es, Ee.
Qed.

(** A thread that takes a command. *)
Lemma thread_turn_spec user_check d rands n g th th' : 0 <= maxset c -> n <= 2 -> tinv n g th -> thread_turn user_check d rands th = Ret th' ->
  tinv n g th' /\ (th_inq th = [] /\ th' = th \/
    exists cmd ids, th_inq th = cmd :: th_inq th' /\ th_outq th' = th_outq th ++ [ids]).
Proof.
  intros Hmax Hn Hti E. pose proof Hti as [[Hok Hg Hs He Hm Hflag] Hcnt Hcmds Hph]. unfold thread_turn in E. destruct (th_inq th) as [|cmd q] eqn:Eq.
  { injection E as <-. split; [done|by left]. }
  apply bind_Ret_inv in E as ([w o] & E & [= <-]). apply Forall_cons in Hcmds as [[Hc Hty] Hq].
  apply scheduler_thread_Ret in E as (-> & ids & -> & Hids & Hlen); [|done|done|lia|by destruct Hty as [?|[? _]]; auto].
  split; [|right; exists cmd, ids; done].
  assert (Hsame : let w' := after_command cmd (th_ws th) in ws_gid w' = ws_gid (th_ws th) /\ ws_start w' = ws_start (th_ws th) /\
    ws_end w' = ws_end (th_ws th) /\ ws_len w' = ws_len (th_ws th) /\ ws_maxset w' = ws_maxset (th_ws th)).
  { unfold after_command, with_command. by destruct (sc_type cmd). }
  destruct Hsame as (Sg & Ss & Se & Sl & Smx). constructor; cbn [th_ws th_inq th_outq].
  - constructor; [by apply after_command_ok|congruence..|]. rewrite restarts_cons in Hcnt. pose proof (restarts_nonneg q).
    unfold is_restart, after_command, with_command in *. destruct Hty as [Ht|[Ht _]]; rewrite Ht in Hcnt |- *; cbn; [done|].
    intros Hlt. rewrite bool_decide_false by lia. apply Hflag. lia.
  - rewrite restarts_cons in Hcnt. unfold is_restart, after_command, with_command in *.
    destruct Hty as [Ht|[Ht _]]; rewrite Ht in Hcnt |- *; cbn; lia.
  - eapply Forall_impl; [exact Hq|]. intros cmd' Hcmd. by eapply cmd_ok_same.
  - apply Forall_app. split; [done|]. constructor; [|done]. destruct Hok as [? Hlen' ? ?]. split; [|rewrite Hlen', Hs, He, Hm in Hlen; lia].
    eapply Forall_impl; [exact Hids|]. unfold in_thread, ids_in. intros k. lia.
Qed.

(** ** Machines *)

Definition count {A} (p : A -> bool) (l : list A) : nat := length (filter (fun x => p x = true) l).
Lemma count_app {A} (p : A -> bool) l1 l2 : count p (l1 ++ l2) = (count p l1 + count p l2)%nat.
Proof. unfold count. by rewrite filter_app, length_app. Qed.
Lemma count_cons {A} (p : A -> bool) x l : count p (x :: l) = ((if p x then 1 else 0) + count p l)%nat.
Proof. unfold count. rewrite filter_cons. destruct (p x); [by rewrite decide_True|by rewrite decide_False]. Qed.

Definition is_uw (g : Z) (msg : sched_msg F) : bool := match msg with SchedUW _ g' _ => bool_decide (g' = g) | _ => false end.
Definition is_phase (g : Z) (msg : sched_msg F) : bool := match msg with SchedPhase _ g' _ => bool_decide (g' = g) | _ => false end.

(** What is under way for thread [i] of machine [m]. *)
Definition tokens (m : Z) (sm : smach F) (i : nat) (th : sthread F) : nat :=
  (count (is_uw (m * T + Z.of_nat i)) (sm_inbox sm) + length (th_inq th) + length (th_outq th) +
   count (is_phase (m * T + Z.of_nat i)) (sm_out sm))%nat.
Definition mtokens (m : Z) (sm : smach F) : nat := isum (tokens m sm) (sm_threads sm).

Definition of_machine (m g : Z) : Prop := m * T <= g < m * T + T.
Definition uw_ok (m : Z) (msg : sched_msg F) : Prop :=
  match msg with
  | SchedUW _ g pairs => of_machine m g /\ Forall (fun e => ids_in g e.1 /\ f_num e.2) pairs /\
      Z.of_nat (length pairs) <= part_start modelsize parts (g + 1) - part_start modelsize parts g
  | _ => False
  end.
Definition phase_msg_ok (m : Z) (msg : sched_msg F) : Prop :=
  match msg with SchedPhase mid g ids => mid = m /\ of_machine m g /\ ids_ok g ids | _ => False end.

Record threads_ok (n m : Z) (threads : list (sthread F)) : Prop := {
  tk_length : Z.of_nat (length threads) = T;
  tk_inv : forall i th, threads !! i = Some th -> tinv n (m * T + Z.of_nat i) th
}.
Record minv (n m : Z) (sm : smach F) : Prop := {
  mi_threads : threads_ok n m (sm_threads sm);
  mi_inbox : Forall (uw_ok m) (sm_inbox sm);
  mi_out : Forall (phase_msg_ok m) (sm_out sm);
  mi_rclock : 0 <= sm_rclock sm < T
}.

(** The same number of tokens for every thread. *)
Definition same_tokens (m : Z) (sm sm' : smach F) : Prop :=
  length (sm_threads sm') = length (sm_threads sm) /\
  forall i th th', sm_threads sm !! i = Some th -> sm_threads sm' !! i = Some th' -> tokens m sm' i th' = tokens m sm i th.

Lemma same_tokens_mtokens m sm sm' : same_tokens m sm sm' -> mtokens m sm' = mtokens m sm.
Proof. intros [Hl Hs]. apply isum_ext; [done|]. intros i x x' Hx Hx'. by apply Hs. Qed.

Lemma same_tokens_trans m sm sm' sm'' : same_tokens m sm sm' -> same_tokens m sm' sm'' -> same_tokens m sm sm''.
Proof.
  intros [Hl Hs] [Hl' Hs']. split; [congruence|]. intros i th th'' E E''.
  destruct (lookup_lt_is_Some_2 (sm_threads sm') i) as (th' & E'); [rewrite Hl; by eapply lookup_lt_Some|]. rewrite (Hs' i th' th'') by done. by apply Hs.
Qed.

Lemma threads_ok_insert n m threads i th th' : threads_ok n m threads -> threads !! i = Some th -> tinv n (m * T + Z.of_nat i) th' ->
  threads_ok n m (<[i := th']> threads).
Proof.
  intros [Hl Hi] E Ht. split; [by rewrite length_insert|]. intros j thj [(-> & <- & _)|(_ & Ej)]%list_lookup_insert_Some; [done|by apply Hi].
Qed.

Lemma scan_outqs_spec n m threads turns rclock : threads_ok n m threads -> 0 <= rclock < T -> T - rclock <= Z.of_nat turns ->
  exists rclock' threads' o, scan_outqs turns T rclock threads = Ret (rclock', threads', o) /\ 0 <= rclock' < T /\
    match o with
    | None => threads' = threads
    | Some (gid, ids) => exists i th q, threads !! i = Some th /\ th_outq th = ids :: q /\ gid = ws_gid (th_ws th) /\
        threads' = <[i := mksthread (th_ws th) (th_inq th) q]> threads
    end.
Proof.
  intros Ht. revert rclock. induction turns as [|turns IH]; intros rclock Hr Hf; [lia|]. cbn [scan_outqs]. pose proof (tk_length _ _ _ Ht) as Hl.
  destruct (lookup_lt_is_Some_2 threads (Z.to_nat rclock)) as (th & Hth); [lia|].
  rewrite (proj2 (vec_at_Ret threads rclock th)) by (split; [lia|done]). cbn [mbind outcome_bind]. unfold get_entry_outq.
  rewrite Z.rem_mod_nonneg by lia. destruct (th_outq th) as [|ids q] eqn:Eq.
  - destruct (decide (rclock + 1 = T)) as [E|E].
    + rewrite E, Z.mod_same by lia. rewrite (bool_decide_true (0 = 0)) by done. exists 0, threads, None. split_and!; [done|lia|lia|done].
    + rewrite Z.mod_small by lia. rewrite bool_decide_false by lia. apply IH; lia.
  - unfold vec_set. rewrite bool_decide_true by lia. cbn [mbind outcome_bind].
    eexists _, _, (Some (ws_gid (th_ws th), ids)). split; [done|]. pose proof (Z.mod_pos_bound (rclock + 1) T ltac:(lia)). split; [done|].
    by exists (Z.to_nat rclock), th, q.
Qed.

Lemma send_phase_spec n m sm : minv n m sm ->
  exists sm' suffix, send_phase m T sm = Ret sm' /\ minv n m sm' /\ sm_inbox sm' = sm_inbox sm /\ sm_out sm' = sm_out sm ++ suffix /\ same_tokens m sm sm'.
Proof.
  intros [Ht Hi Ho Hr]. unfold send_phase.
  destruct (scan_outqs_spec n m (sm_threads sm) (Z.to_nat T) (sm_rclock sm) Ht Hr ltac:(lia)) as (rc & ths & o & -> & Hrc & Hspec).
  cbn [mbind outcome_bind]. destruct o as [[gid ids]|].
  - destruct Hspec as (i & th & q & Eth & Eq & -> & ->). pose proof (tk_inv _ _ _ Ht i th Eth) as [Hfit Hcnt Hcmds Hph]. rewrite Eq in Hph.
    apply Forall_cons in Hph as [Hids Hq]. pose proof (ft_gid _ _ Hfit) as Hg. pose proof (lookup_lt_Some _ _ _ Eth) as Hlt. pose proof (tk_length _ _ _ Ht) as Hl.
    eexists _, [_]. split; [done|]. split; [|split; [done|split; [done|]]].
    + constructor; cbn; [|done| |done].
      * eapply threads_ok_insert; [done|done|]. by constructor.
      * apply Forall_app. split; [done|]. constructor; [|done]. rewrite Hg. split; [done|]. split; [unfold of_machine; lia|done].
    + split; [apply length_insert|]. intros j thj thj' Ej Ej'. cbn [sm_threads] in Ej'. unfold tokens. cbn [sm_out sm_inbox]. rewrite count_app, count_cons. cbn [is_phase]. rewrite Hg.
      apply list_lookup_insert_Some in Ej' as [(-> & <- & _)|(Hne & Ej')].
      * rewrite Eth in Ej. injection Ej as <-. rewrite Eq, bool_decide_true by done. cbn [th_inq th_outq length]. change (count _ []) with 0%nat. lia.
      * rewrite Ej in Ej'. injection Ej' as <-. rewrite bool_decide_false by lia. change (count _ []) with 0%nat. lia.
  - subst ths. eexists _, []. split; [done|]. rewrite app_nil_r. split; [by constructor|]. split; [done|]. split; [done|]. split; [done|].
    intros j thj thj' Ej Ej'. cbn in Ej'. rewrite Ej in Ej'. by injection Ej' as <-.
Qed.

(** A command put into the queue of a thread. *)
Lemma put_entry_tinv n g th cmd : tinv n g th -> cmd_ok (th_ws th) cmd -> tinv (n + (if is_restart cmd then 1 else 0)) g (put_entry_inq cmd th).
Proof.
  intros [Hf Hc Hcm Hp] Hcmd. constructor; cbn; [done| |by apply Forall_app; split; [|constructor]|done].
  unfold restarts in *. rewrite filter_app, length_app. fold (restarts [cmd]). rewrite Nat2Z.inj_add. fold (restarts [cmd]). rewrite restarts_cons.
  change (restarts []) with 0. lia.
Qed.

Lemma uw_cmd_ok g w pairs : fits g w -> Forall (fun e => ids_in g e.1 /\ f_num e.2) pairs ->
  Z.of_nat (length pairs) <= part_start modelsize parts (g + 1) - part_start modelsize parts g ->
  cmd_ok w (mksampling_cmd m_weight_update pairs).
Proof.
  intros [[? Hlen ? ?] Hg Hs He _ _] Hp Hl. split; [|by left]. constructor; cbn; [lia|]. rewrite Forall_forall in Hp.
  intros k v Hin. destruct (Hp _ Hin) as [Hk Hv]. unfold ids_in in Hk. cbn in *. split; [lia|done].
Qed.

(** A turn of a machine with updates only never fails or waits, and no
    thread's token is lost or doubled. *)
Lemma machine_turn_spec n m sm : 0 <= m -> minv n m sm ->
  exists sm' suffix, scheduler_mach_turn t m T sm = Ret (Some sm') /\ minv n m sm' /\ sm_out sm' = sm_out sm ++ suffix /\ same_tokens m sm sm'.
Proof.
  intros Hm Hinv. unfold scheduler_mach_turn. destruct (sm_inbox sm) as [|msg inbox] eqn:Ein.
  { destruct (send_phase_spec n m sm Hinv) as (sm' & suf & -> & Hi & _ & Ho & Hs). cbn [mbind outcome_bind]. by exists sm', suf. }
  destruct Hinv as [Ht Hi Ho Hr]. rewrite Ein in Hi. apply Forall_cons in Hi as [Hmsg Hi].
  destruct msg as [| |mid g pairs| |]; try done. destruct Hmsg as (Hg & Hpairs & Hlen). unfold of_machine in Hg. pose proof (tk_length _ _ _ Ht) as Hl.
  cbn [process_sched_system_cmd]. rewrite bool_decide_true by lia. cbn [mbind outcome_bind].
  destruct (lookup_lt_is_Some_2 (sm_threads sm) (Z.to_nat (g - m * T))) as (th & Hth); [lia|].
  assert (Hgi : m * T + Z.of_nat (Z.to_nat (g - m * T)) = g) by lia.
  unfold queue_cmds. cbn [foldM fst snd]. rewrite (proj2 (vec_at_Ret _ _ th)) by (split; [lia|done]). cbn [mbind outcome_bind]. unfold vec_set.
  rewrite bool_decide_true by lia. cbn [mbind outcome_bind]. pose proof (tk_inv _ _ _ Ht _ _ Hth) as Hti. rewrite Hgi in Hti.
  set (cmd := mksampling_cmd m_weight_update pairs).
  assert (Hput : tinv n g (put_entry_inq cmd th)).
  { rewrite <- (Z.add_0_r n). apply (put_entry_tinv n g th cmd Hti). eapply uw_cmd_ok; [apply Hti|done|done]. }
  set (sm1 := mksmach inbox (sm_out sm) (sm_rclock sm) (<[Z.to_nat (g - m * T) := put_entry_inq cmd th]> (sm_threads sm))).
  assert (Hinv1 : minv n m sm1).
  { constructor; cbn; [|done..]. eapply threads_ok_insert; [done|done|by rewrite Hgi]. }
  destruct (send_phase_spec n m sm1 Hinv1) as (sm' & suf & -> & Hi' & _ & Ho' & Hs). cbn [mbind outcome_bind].
  exists sm', suf. split_and!; [done|done|done|]. eapply same_tokens_trans; [|exact Hs]. split; [apply length_insert|].
  intros j thj thj' Ej Ej'. unfold sm1 in Ej'. cbn [sm_threads] in Ej'. unfold tokens. rewrite Ein. cbn [sm_inbox sm_out sm1]. rewrite count_cons. cbn [is_uw].
  apply list_lookup_insert_Some in Ej' as [(<- & <- & _)|(Hne & Ej')].
  - rewrite Hth in Ej. injection Ej as <-. rewrite bool_decide_true by lia. cbn [put_entry_inq th_inq th_outq]. rewrite length_app. cbn [length]. lia.
  - rewrite Ej in Ej'. injection Ej' as <-. rewrite bool_decide_false by lia. lia.
Qed.

(** A turn of a thread of the machine. *)
Lemma machine_thread_spec n m sm i th th' user_check d rands : 0 <= maxset c -> n <= 2 -> minv n m sm -> sm_threads sm !! i = Some th ->
  thread_turn user_check d rands th = Ret th' ->
  let sm' := mksmach (sm_inbox sm) (sm_out sm) (sm_rclock sm) (<[i := th']> (sm_threads sm)) in minv n m sm' /\ same_tokens m sm sm'.
Proof.
  intros Hmx Hn [Ht Hi Ho Hr] Hth E sm'. pose proof (tk_inv _ _ _ Ht _ _ Hth) as Hti.
  destruct (thread_turn_spec _ _ _ _ _ _ _ Hmx Hn Hti E) as [Hti' Hq]. split.
  - constructor; cbn; [|done..]. by eapply threads_ok_insert.
  - split; [apply length_insert|]. intros j thj thj' Ej Ej'. cbn [sm' sm_threads] in Ej'. unfold tokens. cbn [sm' sm_inbox sm_out].
    apply list_lookup_insert_Some in Ej' as [(<- & <- & _)|(Hne & Ej')].
    + rewrite Hth in Ej. injection Ej as <-. destruct Hq as [[_ ->]|(cmd & ids & -> & ->)]; [done|]. rewrite length_app. cbn [length]. lia.
    + rewrite Ej in Ej'. by injection Ej' as <-.
Qed.

(** ** What the coordinator takes and sends *)

(** A phase taken from a machine. *)
Lemma pull_spec n m sm msg out : minv n m sm -> sm_out sm = msg :: out ->
  exists g ids i th, msg = SchedPhase m g ids /\ g = m * T + Z.of_nat i /\ sm_threads sm !! i = Some th /\ ids_ok g ids /\
    let sm' := mksmach (sm_inbox sm) out (sm_rclock sm) (sm_threads sm) in
    minv n m sm' /\ tokens m sm i th = S (tokens m sm' i th) /\
    forall j thj, j <> i -> sm_threads sm !! j = Some thj -> tokens m sm' j thj = tokens m sm j thj.
Proof.
  intros [Ht Hi Ho Hr] Eo. rewrite Eo in Ho. apply Forall_cons in Ho as [Hmsg Ho]. destruct msg as [| | |mid g ids|]; try done.
  destruct Hmsg as (-> & Hg & Hids). unfold of_machine in Hg. pose proof (tk_length _ _ _ Ht) as Hl.
  destruct (lookup_lt_is_Some_2 (sm_threads sm) (Z.to_nat (g - m * T))) as (th & Hth); [lia|]. exists g, ids, (Z.to_nat (g - m * T)), th.
  split; [done|]. split; [lia|]. split; [done|]. split; [done|]. intros sm'. split; [by constructor|]. unfold tokens. rewrite Eo. cbn [sm' sm_inbox sm_out].
  split.
  - rewrite count_cons. cbn [is_phase]. rewrite bool_decide_true by lia. lia.
  - intros j thj Hne Hj. rewrite count_cons. cbn [is_phase]. rewrite bool_decide_false by lia. lia.
Qed.

(** An update sent to a machine. *)
Lemma send_uw_spec n m sm mid g pairs i th : minv n m sm -> uw_ok m (SchedUW mid g pairs) -> g = m * T + Z.of_nat i -> sm_threads sm !! i = Some th ->
  let sm' := mksmach (sm_inbox sm ++ [SchedUW mid g pairs]) (sm_out sm) (sm_rclock sm) (sm_threads sm) in
  minv n m sm' /\ tokens m sm' i th = S (tokens m sm i th) /\
  forall j thj, j <> i -> sm_threads sm !! j = Some thj -> tokens m sm' j thj = tokens m sm j thj.
Proof.
  intros [Ht Hi Ho Hr] Huw Hg Hth sm'. split; [|split].
  - constructor; cbn; [done| |done|done]. apply Forall_app. split; [done|]. by constructor.
  - unfold tokens. cbn [sm' sm_inbox sm_out]. rewrite count_app, count_cons. cbn [is_uw]. rewrite bool_decide_true by done.
    change (count _ []) with 0%nat. lia.
  - intros j thj Hne Hj. unfold tokens. cbn [sm' sm_inbox sm_out]. rewrite count_app, count_cons. cbn [is_uw]. rewrite bool_decide_false by lia.
    change (count _ []) with 0%nat. lia.
Qed.

(** ** Starting a machine *)
Context (Hmx : 0 <= maxset c) (HS : 0 < Sm) (HT : 0 < T <= MAX_SCHEDULER_THREAD) (H2 : 2 <= modelsize / parts)
  (Hbig : T * (modelsize / parts + 1) <= (MAX_ZMQ_HWM - 10) * entry_per_chunk)
  (Et : make_scheduling_taskpartition modelsize Sm T (mktask_assignment ∅ ∅) = Ret t).

Lemma modelsize_nonneg : 0 <= modelsize.
Proof.
  assert (0 < parts) by (unfold parts; nia). destruct (decide (0 <= modelsize)); [done|].
  pose proof (Z.div_lt_upper_bound modelsize parts 0 ltac:(lia) ltac:(lia)). lia.
Qed.

Lemma assigned : (forall g, 0 <= g < parts -> schthrd_tmap t !! g = Some (part modelsize parts g)) /\
  (forall m, 0 <= m < Sm ->
     schmach_tmap t !! m = Some (mkrange (part_start modelsize parts (m * T)) (part_start modelsize parts ((m + 1) * T) - 1))).
Proof.
  destruct (assignment_spec modelsize Sm T modelsize_nonneg HS ltac:(lia)) as (t' & Et' & H1 & H3).
  rewrite Et in Et'. injection Et' as <-. done.
Qed.

(** Nothing is under way. *)
Definition idle (n m : Z) (sm : smach F) : Prop := minv n m sm /\ forall i th, sm_threads sm !! i = Some th -> tokens m sm i th = 0%nat.
(** Every thread has one token. *)
Definition running (n m : Z) (sm : smach F) : Prop := minv n m sm /\ forall i th, sm_threads sm !! i = Some th -> tokens m sm i th = 1%nat.

Definition with_out (out : list (sched_msg F)) (sm : smach F) : smach F := mksmach (sm_inbox sm) out (sm_rclock sm) (sm_threads sm).

(** The messages of the coordinator wait at the machine. *)
Record notified (n m cnt : Z) (weights : list F) (sm : smach F) : Prop := {
  nt_threads : threads_ok n m (sm_threads sm);
  nt_empty : forall i th, sm_threads sm !! i = Some th -> th_inq th = [] /\ th_outq th = [];
  nt_inbox : scheduler_start_remote true weights t m = Ret (sm_inbox sm, cnt);
  nt_out : sm_out sm = [];
  nt_rclock : 0 <= sm_rclock sm < T
}.
(** The machine has its weights and the coordinator not yet its answer. *)
Definition acked (n m cnt : Z) (sm : smach F) : Prop :=
  sm_inbox sm = [] /\ exists out, sm_out sm = SchedStartAck cnt :: out /\ running n m (with_out out sm).

Lemma count_zero {A} (p : A -> bool) l x : x ∈ l -> p x = true -> count p l <> 0%nat.
Proof.
  intros Hin Hp. unfold count. assert (x ∈ filter (fun x => p x = true) l) as Hf by (by apply list_elem_of_filter).
  destruct (filter _ l); [by apply elem_of_nil in Hf|done].
Qed.

Lemma idle_empty n m sm : idle n m sm -> sm_inbox sm = [] /\ sm_out sm = [] /\
  forall i th, sm_threads sm !! i = Some th -> th_inq th = [] /\ th_outq th = [].
Proof.
  intros [[Ht Hi Ho Hr] Hz]. pose proof (tk_length _ _ _ Ht) as Hl.
  assert (Hth : forall g, of_machine m g -> exists th, sm_threads sm !! Z.to_nat (g - m * T) = Some th /\ m * T + Z.of_nat (Z.to_nat (g - m * T)) = g).
  { intros g Hg. unfold of_machine in Hg. destruct (lookup_lt_is_Some_2 (sm_threads sm) (Z.to_nat (g - m * T))) as (th & Hth); [lia|]. exists th. split; [done|lia]. }
  split_and!.
  - destruct (sm_inbox sm) as [|msg l] eqn:E; [done|]. apply Forall_cons in Hi as [Hmsg _]. destruct msg as [| |mid g pairs| |]; try done.
    destruct Hmsg as (Hg & _). destruct (Hth g Hg) as (th & Eth & Eg). specialize (Hz _ _ Eth). unfold tokens in Hz. rewrite Eg, E in Hz.
    pose proof (count_zero (is_uw g) (SchedUW mid g pairs :: l) (SchedUW mid g pairs)) as Hc. specialize (Hc ltac:(by left) ltac:(cbn; by apply bool_decide_eq_true)). lia.
  - destruct (sm_out sm) as [|msg l] eqn:E; [done|]. apply Forall_cons in Ho as [Hmsg _]. destruct msg as [| | |mid g ids|]; try done.
    destruct Hmsg as (_ & Hg & _). destruct (Hth g Hg) as (th & Eth & Eg). specialize (Hz _ _ Eth). unfold tokens in Hz. rewrite Eg, E in Hz.
    pose proof (count_zero (is_phase g) (SchedPhase mid g ids :: l) (SchedPhase mid g ids)) as Hc. specialize (Hc ltac:(by left) ltac:(cbn; by apply bool_decide_eq_true)). lia.
  - intros i th E. specialize (Hz _ _ E). unfold tokens in Hz. split; apply length_zero_iff_nil; lia.
Qed.

Lemma idle_intro n m sm : threads_ok n m (sm_threads sm) -> 0 <= sm_rclock sm < T -> sm_inbox sm = [] -> sm_out sm = [] ->
  (forall i th, sm_threads sm !! i = Some th -> th_inq th = [] /\ th_outq th = []) -> idle n m sm.
Proof.
  intros Ht Hr Hi Ho He. split; [constructor; [done|by rewrite Hi|by rewrite Ho|done]|]. intros i th E. unfold tokens. rewrite Hi, Ho.
  destruct (He i th E) as [-> ->]. done.
Qed.

(** The weights are sent to an idle machine. *)
Lemma notify_spec n m weights sm : 0 <= m < Sm -> Z.of_nat (length weights) = modelsize -> idle n m sm ->
  exists msgs cnt, scheduler_start_remote true weights t m = Ret (msgs, cnt) /\
    notified n m cnt weights (mksmach (sm_inbox sm ++ msgs) (sm_out sm) (sm_rclock sm) (sm_threads sm)).
Proof.
  intros Hm Hw Hid. destruct (idle_empty n m sm Hid) as (Ei & Eo & Ee). destruct Hid as [[Ht Hi Ho Hr] _]. destruct assigned as [Hthrd Hmach].
  destruct (machine_sent modelsize Sm T modelsize_nonneg HS ltac:(lia) t weights Hw m Hm (Hmach m Hm) H2 Hbig true) as (ps & E & _ & _).
  do 2 eexists. split; [exact E|]. constructor; cbn; [done|done|by rewrite Ei|done|done].
Qed.

Lemma queue_all (f : Z -> sampling_cmd F) (threads : list (sthread F)) k : (k <= length threads)%nat -> exists threads',
  queue_cmds (map (fun i => (i, f i)) (seqZ 0 (Z.of_nat k))) threads = Ret threads' /\ length threads' = length threads /\
  forall i th, threads !! i = Some th -> threads' !! i = Some (if bool_decide (i < k)%nat then put_entry_inq (f (Z.of_nat i)) th else th).
Proof.
  induction k as [|k IH]; intros Hk.
  { exists threads. split; [done|]. split; [done|]. intros i th E. by rewrite bool_decide_false by lia. }
  destruct (IH ltac:(lia)) as (ths & E & Hl & Hlk). unfold queue_cmds in *. rewrite seqZ_S, map_app, foldM_app, E. rewrite Z.add_0_l. cbn [mbind outcome_bind map foldM fst snd].
  destruct (lookup_lt_is_Some_2 threads k) as (th & Hth); [lia|]. pose proof (Hlk k th Hth) as Hk'. rewrite bool_decide_false in Hk' by lia.
  rewrite (proj2 (vec_at_Ret ths (Z.of_nat k) th)) by (split; [lia|by rewrite Nat2Z.id]). cbn [mbind outcome_bind]. unfold vec_set. rewrite bool_decide_true by lia.
  cbn [mbind outcome_bind]. eexists. split; [done|]. rewrite length_insert. split; [done|]. intros i thi Ei. rewrite Nat2Z.id.
  destruct (decide (i = k)) as [->|Hne].
  - rewrite list_lookup_insert_eq by lia. rewrite Hth in Ei. injection Ei as <-. by rewrite bool_decide_true by lia.
  - rewrite list_lookup_insert_ne by done. rewrite (Hlk i thi Ei). f_equal. by rewrite (bool_decide_ext (i < k)%nat (i < S k)%nat) by lia.
Qed.

Lemma thread_cmd_accepted weights g w : Z.of_nat (length weights) = modelsize -> Forall f_num weights -> 0 <= g < parts -> fits g w ->
  cmd_ok w (thread_cmd modelsize Sm T weights m_restart_weight_update g).
Proof.
  intros Hw Hnum Hg [[_ Hlen _ _] _ Hs He _ _]. destruct assigned as [Hthrd _].
  destruct (thread_cmd_ok modelsize Sm T modelsize_nonneg HS ltac:(lia) t Hthrd weights Hw m_restart_weight_update g 1 f_zero f_zero Hg H2)
    as (r & w0 & Er & Ew & Hcov & Hl & Hpairs).
  rewrite Hthrd in Er by done. injection Er as <-. unfold wsamplerctx_new in Ew. apply bind_Ret_inv in Ew as (u & _ & [= <-]). cbn in Hl.
  eapply (cmd_ok_same (mkwsamplerctx _ _ _ _ _ _ _ _ _ _ _ _)); [..|split; [|right; split; [done|exact Hcov]]]; cbn; [done|done|lia|].
  constructor; cbn; [lia|]. intros k v Hin. apply Hpairs in Hin as [Hk Hv]. unfold in_range in Hk. cbn in Hk. split; [done|].
  rewrite Forall_forall in Hnum. apply Hnum. by eapply list_elem_of_lookup_2.
Qed.

(** A turn of a notified machine. *)
Lemma notified_turn n m cnt weights sm : 0 <= m < Sm -> Z.of_nat (length weights) = modelsize -> Forall f_num weights ->
  notified n m cnt weights sm -> exists sm', scheduler_mach_turn t m T sm = Ret (Some sm') /\ acked (n + 1) m cnt sm'.
Proof.
  intros Hm Hw Hnum [Ht He Hi Ho Hr]. destruct assigned as [Hthrd Hmach]. pose proof (tk_length _ _ _ Ht) as Hl.
  destruct (machine_sent modelsize Sm T modelsize_nonneg HS ltac:(lia) t weights Hw m Hm (Hmach m Hm) H2 Hbig true) as (ps & Es & Hlps & Hcat).
  pose proof (machine_received modelsize Sm T modelsize_nonneg HS ltac:(lia) t Hthrd weights Hw m Hm ltac:(lia) (Hmach m Hm) H2 Hbig true ps [] Hlps Hcat) as Er.
  rewrite Hi in Es. injection Es as Es Hcnt. unfold scheduler_mach_turn. rewrite Es. cbn [process_sched_system_cmd]. rewrite app_nil_r in Er. rewrite Er.
  cbn [mbind outcome_bind]. rewrite <- Hcnt.
  set (f i := thread_cmd modelsize Sm T weights m_restart_weight_update (m * T + i)).
  destruct (queue_all f (sm_threads sm) (Z.to_nat T) ltac:(lia)) as (ths & Eq & Hlt & Hlk). rewrite Z2Nat.id in Eq by lia.
  cbv iota. unfold f in Eq. rewrite Eq. cbn [mbind outcome_bind]. fold f in Hlk. rewrite Ho. cbn [app]. set (sm1 := mksmach [] [SchedStartAck cnt] (sm_rclock sm) ths).
  assert (Hths : forall i th, ths !! i = Some th -> exists th0, sm_threads sm !! i = Some th0 /\ th = put_entry_inq (f (Z.of_nat i)) th0).
  { intros i th E. destruct (lookup_lt_is_Some_2 (sm_threads sm) i) as (th0 & E0); [rewrite <- Hlt; by eapply lookup_lt_Some|]. exists th0. split; [done|].
    pose proof (Hlk i th0 E0) as E'. rewrite E in E'. injection E' as ->. rewrite bool_decide_true; [done|]. pose proof (lookup_lt_Some _ _ _ E0). lia. }
  assert (Hok1 : threads_ok (n + 1) m ths).
  { split; [lia|]. intros i th E. destruct (Hths i th E) as (th0 & E0 & ->). pose proof (tk_inv _ _ _ Ht i th0 E0) as Hti. pose proof (lookup_lt_Some _ _ _ E0) as Hlt0.
    apply (put_entry_tinv n _ th0 (f (Z.of_nat i)) Hti). apply thread_cmd_accepted; [done|done| |apply Hti].
    assert ((m + 1) * T <= Sm * T) by (apply Z.mul_le_mono_nonneg_r; lia). assert (0 <= m * T) by (apply Z.mul_nonneg_nonneg; lia). unfold parts. lia. }
  assert (Hscan : exists rc, send_phase m T sm1 = Ret (mksmach [] [SchedStartAck cnt] rc ths) /\ 0 <= rc < T).
  { unfold send_phase. destruct (scan_outqs_spec (n + 1) m ths (Z.to_nat T) (sm_rclock sm) Hok1 Hr ltac:(lia)) as (rc & ths' & o & E & Hrc & Hspec).
    cbn [sm1 sm_rclock sm_threads] in E |- *. rewrite E. cbn [mbind outcome_bind]. destruct o as [[gid ids]|].
    - exfalso. destruct Hspec as (i & th & q & Eth & Eqq & _). destruct (Hths i th Eth) as (th0 & E0 & ->). cbn in Eqq. destruct (He i th0 E0) as [_ Eo]. by rewrite Eo in Eqq.
    - subst ths'. by exists rc. }
  destruct Hscan as (rc & -> & Hrc). cbn [mbind outcome_bind]. eexists. split; [done|]. split; [done|]. exists []. split; [done|]. split.
  - by constructor.
  - intros i th E. destruct (Hths i th E) as (th0 & E0 & ->). destruct (He i th0 E0) as [Ei Eo]. unfold tokens. cbn [with_out sm_inbox sm_out put_entry_inq th_inq th_outq].
    rewrite Ei, Eo. done.
Qed.

Lemma acked_turn n m cnt sm : 0 <= m -> acked n m cnt sm -> exists sm', scheduler_mach_turn t m T sm = Ret (Some sm') /\ acked n m cnt sm'.
Proof.
  intros Hm (Ei & out & Eo & Hrun & Htok). destruct (send_phase_spec n m _ Hrun) as (sm' & suf & E & Hinv & Ei' & Eo' & Hs).
  unfold scheduler_mach_turn. rewrite Ei. unfold send_phase in E |- *. cbn [with_out sm_rclock sm_threads sm_out sm_inbox] in *.
  apply bind_Ret_inv in E as ([[rc ths] o] & Esc & [= <-]). rewrite Esc. cbn [mbind outcome_bind]. eexists. split; [done|].
  split; [done|]. cbn [sm_out] in Eo'. exists (out ++ suf). rewrite Eo. split; [rewrite <- Eo'; by destruct o as [[gid ids]|]|].
  cbn [with_out sm_inbox sm_rclock sm_threads]. rewrite Eo' in Hinv, Hs. split; [done|]. intros i th E. destruct Hs as [Hl Hs]. cbn [sm_threads with_out] in Hl, Hs.
  destruct (lookup_lt_is_Some_2 (sm_threads sm) i) as (th0 & E0); [rewrite <- Hl; by eapply lookup_lt_Some|].
  pose proof (Hs i th0 th E0 E) as Htk. unfold with_out. cbn [sm_inbox sm_out sm_rclock sm_threads]. rewrite Htk. by apply Htok.
Qed.

(** ** The invariant *)

Lemma same_tokens_running n m sm sm' : minv n m sm' -> same_tokens m sm sm' -> forall k,
  (forall i th, sm_threads sm !! i = Some th -> tokens m sm i th = k) -> minv n m sm' /\ forall i th, sm_threads sm' !! i = Some th -> tokens m sm' i th = k.
Proof.
  intros Hinv [Hl Hs] k Hk. split; [done|]. intros i th E.
  destruct (lookup_lt_is_Some_2 (sm_threads sm) i) as (th0 & E0); [rewrite <- Hl; by eapply lookup_lt_Some|]. rewrite (Hs i th0 th E0 E). by eapply Hk.
Qed.

Definition mach_inv (mode : coord_mode) (starts : Z) (weights : list F) (m : Z) (sm : smach F) : Prop :=
  match mode with
  | Working => running (starts + 1) m sm
  | Flushing _ _ => minv 1 m sm
  | Starting j => if bool_decide (m < j) then running (starts + 1) m sm else idle starts m sm
  | WaitAck j cnt =>
      if bool_decide (m < j) then running (starts + 1) m sm
      else if bool_decide (m = j) then notified starts m cnt weights sm \/ acked (starts + 1) m cnt sm
      else idle starts m sm
  | Finished => True
  end.

Definition total_tokens (machs : list (smach F)) : Z := Z.of_nat (isum (fun i => mtokens (Z.of_nat i)) machs).

Definition mode_ok (s : strads F) : Prop :=
  match co_mode (st_coord s) with
  | Flushing j k => 0 <= j < Sm /\ co_starts (st_coord s) = 0 /\ switch_iter c <= co_iteration (st_coord s) /\ total_tokens (st_machs s) = Sm * T - k
  | Starting j | WaitAck j _ => 0 <= j < Sm
  | _ => True
  end.

Record coord_ok (co : coord F) : Prop := {
  cok_rclock : 0 <= co_rclock co < Sm;
  cok_buf : Z.of_nat (length (co_idvalp_buf co)) = maxset c;
  cok_starts : 0 <= co_starts co <= 1;
  cok_switch : co_starts co = 1 -> switch_iter c <= co_iteration co;
  cok_weights : Z.of_nat (length (co_weights co)) = modelsize;
  cok_num : Forall f_num (co_weights co)
}.

Record ginv (s : strads F) : Prop := {
  gi_length : Z.of_nat (length (st_machs s)) = Sm;
  gi_coord : coord_ok (st_coord s);
  gi_mode : mode_ok s;
  gi_machs : forall m sm, st_machs s !! m = Some sm ->
    mach_inv (co_mode (st_coord s)) (co_starts (st_coord s)) (co_weights (st_coord s)) (Z.of_nat m) sm
}.

(** A turn of a machine keeps what holds of it. *)
Lemma mach_inv_turn mode starts weights m sm : 0 <= m < Sm -> Z.of_nat (length weights) = modelsize -> Forall f_num weights ->
  mode <> Finished -> mach_inv mode starts weights m sm ->
  exists sm', scheduler_mach_turn t m T sm = Ret (Some sm') /\ mach_inv mode starts weights m sm' /\
    match mode with Flushing _ _ => mtokens m sm' = mtokens m sm | _ => True end.
Proof.
  intros Hm Hw Hnum Hmode Hinv.
  assert (Hrun : forall n k, (minv n m sm /\ forall i th, sm_threads sm !! i = Some th -> tokens m sm i th = k) ->
    exists sm', scheduler_mach_turn t m T sm = Ret (Some sm') /\ minv n m sm' /\ forall i th, sm_threads sm' !! i = Some th -> tokens m sm' i th = k).
  { intros n k [Hi Hk]. destruct (machine_turn_spec n m sm ltac:(lia) Hi) as (sm' & suf & E & Hi' & _ & Hs). exists sm'. split; [done|].
    by eapply same_tokens_running. }
  destruct mode as [|j k|j|j cnt|]; cbn [mach_inv] in *; [| | | |done].
  - destruct (Hrun _ _ Hinv) as (sm' & E & Hi). by exists sm'.
  - destruct (machine_turn_spec 1 m sm ltac:(lia) Hinv) as (sm' & suf & E & Hi' & _ & Hs). exists sm'. split_and!; [done|done|].
    by apply same_tokens_mtokens.
  - case_bool_decide; destruct (Hrun _ _ Hinv) as (sm' & E & Hi); by exists sm'.
  - case_bool_decide; [destruct (Hrun _ _ Hinv) as (sm' & E & Hi); by exists sm'|].
    case_bool_decide; [|destruct (Hrun _ _ Hinv) as (sm' & E & Hi); by exists sm'].
    destruct Hinv as [Hn|Ha].
    + destruct (notified_turn starts m cnt weights sm Hm Hw Hnum Hn) as (sm' & E & Ha). exists sm'. split_and!; [done|by right|done].
    + destruct (acked_turn (starts + 1) m cnt sm ltac:(lia) Ha) as (sm' & E & Ha'). exists sm'. split_and!; [done|by right|done].
Qed.

(** So does a turn of a thread. *)
Lemma mach_inv_thread mode starts weights m sm i th th' user_check d rands : 0 <= starts <= 1 -> mach_inv mode starts weights m sm ->
  sm_threads sm !! i = Some th -> thread_turn user_check d rands th = Ret th' ->
  let sm' := mksmach (sm_inbox sm) (sm_out sm) (sm_rclock sm) (<[i := th']> (sm_threads sm)) in
  mach_inv mode starts weights m sm' /\ match mode with Flushing _ _ => mtokens m sm' = mtokens m sm | _ => True end.
Proof.
  intros Hst Hinv Hth E sm'.
  assert (Hrun : forall n k, n <= 2 -> (minv n m sm /\ forall i th, sm_threads sm !! i = Some th -> tokens m sm i th = k) ->
    minv n m sm' /\ forall i th, sm_threads sm' !! i = Some th -> tokens m sm' i th = k).
  { intros n k Hn [Hi Hk]. destruct (machine_thread_spec n m sm i th th' _ _ _ Hmx Hn Hi Hth E) as [Hi' Hs]. by eapply same_tokens_running. }
  destruct mode as [|j k|j|j cnt|]; cbn [mach_inv] in *; [| | | |done].
  - split; [|done]. apply Hrun; [lia|done].
  - destruct (machine_thread_spec 1 m sm i th th' _ _ _ Hmx ltac:(lia) Hinv Hth E) as [Hi' Hs]. split; [done|by apply same_tokens_mtokens].
  - split; [|done]. case_bool_decide; apply Hrun; (lia || done).
  - split; [|done]. case_bool_decide; [apply Hrun; (lia || done)|]. case_bool_decide; [|apply Hrun; (lia || done)].
    destruct Hinv as [Hn|(Ei & out & Eo & Hr & Htk)].
    + left. destruct (nt_empty _ _ _ _ _ Hn i th Hth) as [Eq _]. unfold thread_turn in E. rewrite Eq in E. injection E as <-.
      unfold sm'. rewrite list_insert_id by done. by destruct sm.
    + right. split; [done|]. exists out. split; [done|].
      destruct (machine_thread_spec (starts + 1) m (with_out out sm) i th th' _ _ _ Hmx ltac:(lia) Hr Hth E) as [Hi' Hs].
      eapply same_tokens_running; [exact Hi'|exact Hs|done].
Qed.

(** ** Turns of the coordinator *)
Context (Hmsg : maxset c * sizeof_idval_pair <= USER_MSG_SIZE - sizeof_schedhead)
  (Hprio : Z.of_nat (length (initial_priority c)) = modelsize) (Hprionum : Forall f_num (initial_priority c))
  (Huser : forall it ids, (user_values c it ids).2 = true /\ forall i, f_num ((user_values c it ids).1 i)).

Lemma machs_insert (P : nat -> smach F -> Prop) (machs : list (smach F)) m sm' : (forall k sm, k <> m -> machs !! k = Some sm -> P k sm) -> P m sm' ->
  forall k sm, <[m := sm']> machs !! k = Some sm -> P k sm.
Proof. intros Ho Hm k sm [(-> & <- & _)|(Hne & E)]%list_lookup_insert_Some; [done|by apply Ho]. Qed.

Lemma mach_at s m : ginv s -> 0 <= m < Sm -> exists sm, vec_at (st_machs s) m = Ret sm /\ st_machs s !! Z.to_nat m = Some sm /\
  mach_inv (co_mode (st_coord s)) (co_starts (st_coord s)) (co_weights (st_coord s)) m sm.
Proof.
  intros [Hl _ _ Hi] Hm. destruct (lookup_lt_is_Some_2 (st_machs s) (Z.to_nat m)) as (sm & E); [lia|]. exists sm.
  split; [apply vec_at_Ret; split; [lia|done]|]. split; [done|]. specialize (Hi _ _ E). by rewrite Z2Nat.id in Hi by lia.
Qed.

Lemma vec_set_mach machs m (sm : smach F) : Z.of_nat (length machs) = Sm -> 0 <= m < Sm -> vec_set machs m sm = Ret (<[Z.to_nat m := sm]> machs).
Proof. intros Hl Hm. unfold vec_set. by rewrite bool_decide_true by lia. Qed.

Lemma pull_at machs m sm : Z.of_nat (length machs) = Sm -> 0 <= m < Sm -> machs !! Z.to_nat m = Some sm ->
  pull_entry_inq m machs = Ret (match sm_out sm with [] => (None, machs)
    | msg :: out => (Some msg, <[Z.to_nat m := with_out out sm]> machs) end).
Proof.
  intros Hl Hm E. unfold pull_entry_inq. rewrite (proj2 (vec_at_Ret machs m sm)) by (split; [lia|done]). cbn [mbind outcome_bind].
  destruct (sm_out sm); [done|]. by rewrite vec_set_mach.
Qed.

Lemma fill_spec it ids buf : Z.of_nat (length ids) <= Z.of_nat (length buf) -> exists buf', fill_idvalp_buf c it ids buf = Ret buf' /\
  length buf' = length buf /\ forall e, e ∈ take (length ids) buf' -> e.1 ∈ ids /\ f_num e.2.
Proof.
  intros Hl. unfold fill_idvalp_buf. destruct (Huser it ids) as [Hne Hnum]. destruct (user_values c it ids) as [value b]. cbn in Hne, Hnum. subst b.
  assert (Hk : forall k, (k <= length ids)%nat -> exists buf',
    foldM (fun b i => id ← vec_at ids i; vec_set b i (id, if bool_decide (it > switch_iter c) then value i else f_zero)) (seqZ 0 (Z.of_nat k)) buf = Ret buf' /\
    length buf' = length buf /\ forall j e, (j < k)%nat -> buf' !! j = Some e -> e.1 ∈ ids /\ f_num e.2).
  { induction k as [|k IH]; intros Hk; [exists buf; split; [done|]; split; [done|]; intros j e ?; lia|].
    destruct (IH ltac:(lia)) as (b & E & Hb & He). rewrite seqZ_S, foldM_app, E, Z.add_0_l. cbn [mbind outcome_bind foldM].
    destruct (lookup_lt_is_Some_2 ids k) as (id & Hid); [lia|]. rewrite (proj2 (vec_at_Ret ids (Z.of_nat k) id)) by (split; [lia|by rewrite Nat2Z.id]).
    cbn [mbind outcome_bind]. unfold vec_set. rewrite (bool_decide_true (0 <= Z.of_nat k < _)) by lia. cbn [mbind outcome_bind]. eexists. split; [done|].
    rewrite length_insert, Nat2Z.id. split; [done|]. intros j e Hj [(<- & <- & _)|(Hne & Ej)]%list_lookup_insert_Some; [|apply (He j); [lia|done]].
    cbn. split; [by eapply list_elem_of_lookup_2|]. case_bool_decide; [done|apply f_zero_num]. }
  destruct (Hk (length ids) ltac:(lia)) as (buf' & E & Hb & He). exists buf'. split; [done|]. split; [done|].
  intros e (j & Ej)%list_elem_of_lookup. apply lookup_take_Some in Ej as [Ej Hj]. by apply (He j).
Qed.

(** A phase is taken, worked off and answered. *)
Lemma working_phase_spec s m sm msg out : ginv s -> co_mode (st_coord s) = Working -> m = co_rclock (st_coord s) ->
  st_machs s !! Z.to_nat m = Some sm -> sm_out sm = msg :: out ->
  exists s', work_phase c msg (<[Z.to_nat m := with_out out sm]> (st_machs s)) (st_coord s) = Ret s' /\ ginv s'.
Proof.
  intros Hg Hmode Hm Esm Eout. pose proof Hg as [Hl [Hrc Hbuf Hst Hsw Hw Hnum] _ Hi].
  assert (Hm' : 0 <= m < Sm) by lia. pose proof (Hi _ _ Esm) as Hmi. rewrite Hmode, Z2Nat.id in Hmi by lia. destruct Hmi as [Hinv Htok].
  destruct (pull_spec _ m sm msg out Hinv Eout) as (g & ids & i & th & -> & Hgi & Eth & Hids & Hinv' & Htk & Hoth).
  fold (with_out out sm) in Hinv', Htk, Hoth. cbn [work_phase]. destruct Hids as [Hids Hlen].
  destruct (fill_spec (co_iteration (st_coord s)) ids (co_idvalp_buf (st_coord s))) as (buf & -> & Hbl & Hbe); [lia|]. cbn [mbind outcome_bind].
  rewrite (bool_decide_true (_ <= Z.of_nat (length buf))) by lia. cbn [mbind outcome_bind]. unfold send_weight_update, CHECK.
  unfold sizeof_idval_pair in *. rewrite (bool_decide_true (_ <= USER_MSG_SIZE - _)) by (rewrite length_take; lia). cbn [mbind outcome_bind].
  set (machs1 := <[Z.to_nat m := with_out out sm]> (st_machs s)).
  assert (Hl1 : Z.of_nat (length machs1) = Sm) by (unfold machs1; by rewrite length_insert).
  assert (Hat : machs1 !! Z.to_nat m = Some (with_out out sm)) by (unfold machs1; apply list_lookup_insert_eq; lia).
  unfold send_to_scheduler. rewrite (proj2 (vec_at_Ret machs1 m _)) by (split; [lia|exact Hat]). cbn [mbind outcome_bind].
  rewrite vec_set_mach by done. cbn [mbind outcome_bind]. unfold machs1. rewrite list_insert_insert_eq.
  assert (Huw : uw_ok m (SchedUW m g (take (length ids) buf))).
  { split; [unfold of_machine; pose proof (lookup_lt_Some _ _ _ Eth); pose proof (tk_length _ _ _ (mi_threads _ _ _ Hinv)); lia|].
    split; [|rewrite length_take; lia]. apply Forall_forall. intros e He. destruct (Hbe e He) as [Hin Hn]. split; [|done].
    rewrite Forall_forall in Hids. by apply Hids. }
  destruct (send_uw_spec _ m (with_out out sm) m g _ i th Hinv' Huw Hgi Eth) as (Hinv2 & Htk2 & Hoth2).
  set (sm2 := mksmach _ _ _ (sm_threads (with_out out sm))) in *.
  assert (Hrun2 : running (co_starts (st_coord s) + 1) m sm2).
  { split; [exact Hinv2|]. intros j thj Ej. destruct (decide (j = i)) as [->|Hne].
    - change (sm_threads sm2) with (sm_threads sm) in Ej. rewrite Eth in Ej. injection Ej as <-. rewrite Htk2. rewrite <- Htk. by apply Htok.
    - rewrite (Hoth2 j thj Hne Ej), (Hoth j thj Hne Ej). by apply Htok. }
  set (mode := if bool_decide (_ = m_iter c) then Finished else _).
  assert (Hall : forall k sk, <[Z.to_nat m := sm2]> (st_machs s) !! k = Some sk -> running (co_starts (st_coord s) + 1) (Z.of_nat k) sk).
  { apply machs_insert; [|by rewrite Z2Nat.id by lia]. intros k sk _ Ek. pose proof (Hi _ _ Ek) as Hk. by rewrite Hmode in Hk. }
  eexists. split; [done|]. constructor; cbn [st_machs st_coord co_mode co_starts co_weights].
  - by rewrite length_insert.
  - constructor; cbn; [rewrite Z.rem_mod_nonneg by lia; apply Z.mod_pos_bound; lia|lia|done|lia|done|done].
  - unfold mode_ok. cbn [st_coord co_mode st_machs co_starts]. unfold mode. case_bool_decide; [done|]. case_bool_decide as Hsi; [|done].
    split; [lia|]. split; [lia|]. split; [cbn; lia|]. unfold total_tokens. rewrite (isum_const _ _ (Z.to_nat T)); [rewrite length_insert; lia|].
    intros k sk Ek. destruct (Hall k sk Ek) as [Hik Hkt]. unfold mtokens. rewrite (isum_const _ _ 1%nat) by (intros; by apply Hkt).
    pose proof (tk_length _ _ _ (mi_threads _ _ _ Hik)). lia.
  - unfold mode. intros k sk Ek. pose proof (Hall k sk Ek) as Hr. case_bool_decide; [done|]. case_bool_decide as Hsi; [|done].
    destruct Hr as [Hr _]. cbn [mach_inv]. by replace 1 with (co_starts (st_coord s) + 1) by lia.
Qed.

Lemma working_turn s : ginv s -> co_mode (st_coord s) = Working -> exists s', coordinator_turn c t s = Ret s' /\ ginv s'.
Proof.
  intros Hg Hmode. pose proof Hg as [Hl Hco _ Hi]. pose proof Hco as [Hrc Hbuf Hst Hsw Hw Hnum].
  destruct (mach_at s (co_rclock (st_coord s)) Hg Hrc) as (sm & _ & Esm & _). unfold coordinator_turn. rewrite Hmode, (pull_at _ _ sm) by done.
  destruct (sm_out sm) as [|msg out] eqn:Eout; cbn [mbind outcome_bind].
  - eexists. split; [done|]. constructor; cbn; [done| |done|intros k sk Ek; pose proof (Hi _ _ Ek) as Hk; by rewrite Hmode in Hk].
    constructor; cbn; [rewrite Z.rem_mod_nonneg by lia; apply Z.mod_pos_bound; lia|done..].
  - by apply (working_phase_spec s _ sm).
Qed.

Lemma idle_of_tokens n m sm : minv n m sm -> mtokens m sm = 0%nat -> idle n m sm.
Proof. intros Hi Hz. split; [done|]. intros i th E. by apply (isum_zero _ _ Hz). Qed.

Lemma flushing_turn s j k : ginv s -> co_mode (st_coord s) = Flushing j k -> exists s', coordinator_turn c t s = Ret s' /\ ginv s'.
Proof.
  intros Hg Hmode. pose proof Hg as [Hl Hco Hmo Hi]. unfold mode_ok in Hmo. rewrite Hmode in Hmo. destruct Hmo as (Hj & Hs0 & Hit & Htot).
  destruct (mach_at s j Hg Hj) as (sm & _ & Esm & Hmi). rewrite Hmode in Hmi. cbn [mach_inv] in Hmi.
  assert (Hpull : exists o machs, pull_entry_inq j (st_machs s) = Ret (o, machs) /\ Z.of_nat (length machs) = Sm /\
    total_tokens machs = Sm * T - (match o with Some _ => k + 1 | None => k end) /\ forall m sk, machs !! m = Some sk -> minv 1 (Z.of_nat m) sk).
  { rewrite (pull_at _ _ sm) by done. destruct (sm_out sm) as [|msg out] eqn:Eout.
    - eexists _, _. split; [done|]. split; [done|]. split; [done|]. intros m sk Ek. pose proof (Hi _ _ Ek) as Hk. by rewrite Hmode in Hk.
    - destruct (pull_spec 1 j sm msg out Hmi Eout) as (g & ids & i & th & _ & Hgi & Eth & _ & Hinv' & Htk & Hoth). fold (with_out out sm) in *.
      eexists _, _. split; [done|]. rewrite length_insert. split; [done|]. split.
      + assert (Hmt : mtokens j sm = S (mtokens j (with_out out sm))).
        { unfold mtokens. change (sm_threads (with_out out sm)) with (sm_threads sm).
          assert (Hex : isum (tokens j sm) (sm_threads sm) = isum (fun i' th' => (tokens j (with_out out sm) i' th' + (if bool_decide (i' = i) then 1 else 0))%nat) (sm_threads sm)).
          { apply isum_ext; [done|]. intros i' x x' Ex Ex'. rewrite Ex in Ex'. injection Ex' as <-. destruct (decide (i' = i)) as [->|Hne].
            - rewrite Eth in Ex. injection Ex as <-. rewrite bool_decide_true by done. lia.
            - rewrite bool_decide_false by done. rewrite (Hoth i' x Hne Ex). lia. }
          rewrite Hex. by apply isum_plus_one with (x := th). }
        unfold total_tokens in *. pose proof (isum_insert (fun i => mtokens (Z.of_nat i)) (st_machs s) (Z.to_nat j) sm (with_out out sm) Esm) as Hsum.
        cbv beta in Hsum. rewrite Z2Nat.id in Hsum by lia. lia.
      + apply machs_insert; [|by rewrite Z2Nat.id by lia]. intros m sk _ Ek. pose proof (Hi _ _ Ek) as Hk. by rewrite Hmode in Hk. }
  destruct Hpull as (o & machs & E & Hl' & Htot' & Hi'). unfold coordinator_turn. rewrite Hmode, E. cbn [mbind outcome_bind].
  set (k' := match o with Some _ => k + 1 | None => k end) in *. destruct Hco as [Hrc Hbuf Hst Hsw Hw Hnum].
  case_bool_decide as Hnext; [|case_bool_decide as Hend].
  - eexists. split; [done|]. constructor; cbn; [done|by constructor| |done]. split; [fold Sm in Hnext; lia|]. by split_and!.
  - eexists. split; [done|]. fold Sm T in Hend. assert (Hz : isum (fun i => mtokens (Z.of_nat i)) machs = 0%nat) by (unfold total_tokens in Htot'; lia).
    constructor; cbn; [done| |unfold mode_ok; cbn; lia|].
    + constructor; cbn; [done|done|lia| |done|done]. intros _. exact Hit.
    + intros m sk Ek. rewrite bool_decide_false by lia. rewrite Hs0. apply idle_of_tokens; [by apply Hi'|]. by apply (isum_zero _ _ Hz).
  - eexists. split; [done|]. constructor; cbn; [done|by constructor| |done]. split; [lia|]. by split_and!.
Qed.
Lemma starting_turn s j : ginv s -> co_mode (st_coord s) = Starting j -> exists s', coordinator_turn c t s = Ret s' /\ ginv s'.
Proof.
  intros Hg Hmode. pose proof Hg as [Hl Hco Hmo Hi]. unfold mode_ok in Hmo. rewrite Hmode in Hmo. destruct Hco as [Hrc Hbuf Hst Hsw Hw Hnum].
  destruct (mach_at s j Hg Hmo) as (sm & Eat & Esm & Hmi). rewrite Hmode in Hmi. cbn [mach_inv] in Hmi. rewrite bool_decide_false in Hmi by lia.
  destruct (notify_spec _ j (co_weights (st_coord s)) sm Hmo Hw Hmi) as (msgs & cnt & E & Hn).
  unfold coordinator_turn. rewrite Hmode, E. cbn [mbind outcome_bind]. unfold send_to_scheduler. rewrite Eat. cbn [mbind outcome_bind].
  rewrite vec_set_mach by done. cbn [mbind outcome_bind]. eexists. split; [done|]. constructor; cbn; [by rewrite length_insert|by constructor|done|].
  apply machs_insert.
  - intros k sk Hne Ek. pose proof (Hi _ _ Ek) as Hk. rewrite Hmode in Hk. cbn [mach_inv] in Hk |- *.
    case_bool_decide as Hk'; [done|]. rewrite (bool_decide_false (Z.of_nat k = j)) by lia. done.
  - rewrite Z2Nat.id by lia. rewrite bool_decide_false by lia. rewrite bool_decide_true by done. by left.
Qed.

Lemma waiting_turn s j cnt : ginv s -> co_mode (st_coord s) = WaitAck j cnt -> exists s', coordinator_turn c t s = Ret s' /\ ginv s'.
Proof.
  intros Hg Hmode. pose proof Hg as [Hl Hco Hmo Hi]. unfold mode_ok in Hmo. rewrite Hmode in Hmo. pose proof Hco as [Hrc Hbuf Hst Hsw Hw Hnum].
  destruct (mach_at s j Hg Hmo) as (sm & Eat & Esm & Hmi). rewrite Hmode in Hmi. cbn [mach_inv] in Hmi.
  rewrite bool_decide_false, bool_decide_true in Hmi by lia. unfold coordinator_turn. rewrite Hmode, (pull_at _ _ sm) by done. destruct Hmi as [Hn|Ha].
  { rewrite (nt_out _ _ _ _ _ Hn). cbn [mbind outcome_bind]. eexists. split; [done|]. destruct s as [machs co]. exact Hg. }
  destruct Ha as (Ei & out & Eo & Hrun). rewrite Eo. cbn [mbind outcome_bind check_start_ack]. unfold CHECK. rewrite (bool_decide_true (cnt = cnt)) by done.
  cbn [mbind outcome_bind]. eexists. split; [done|].
  assert (Hrest : forall k sk, <[Z.to_nat j := with_out out sm]> (st_machs s) !! k = Some sk ->
    if bool_decide (Z.of_nat k < j + 1) then running (co_starts (st_coord s) + 1) (Z.of_nat k) sk else idle (co_starts (st_coord s)) (Z.of_nat k) sk).
  { apply machs_insert; [|by rewrite Z2Nat.id, bool_decide_true by lia]. intros k sk Hne Ek. pose proof (Hi _ _ Ek) as Hk. rewrite Hmode in Hk. cbn [mach_inv] in Hk.
    destruct (decide (Z.of_nat k < j)); [rewrite bool_decide_true in Hk by done; by rewrite bool_decide_true by lia|].
    rewrite !bool_decide_false in Hk by lia. by rewrite bool_decide_false by lia. }
  constructor; cbn [st_machs st_coord with_mode co_mode co_starts co_weights]; [by rewrite length_insert|by constructor| |].
  - unfold mode_ok. cbn. case_bool_decide as Hn; [change (schedmachs c) with Sm in Hn; lia|done].
  - intros k sk Ek. specialize (Hrest k sk Ek). pose proof (lookup_lt_Some _ _ _ Ek) as Hlk. rewrite length_insert in Hlk.
    destruct (decide (j + 1 < schedmachs c)) as [Hn|Hn]; [by rewrite (bool_decide_true (j + 1 < _)) by done|].
    rewrite (bool_decide_false (j + 1 < _)) by done. fold Sm in Hn. by rewrite bool_decide_true in Hrest by lia.
Qed.

(** The coordinator's turn never fails. *)
Lemma coordinator_turn_spec s : ginv s -> exists s', coordinator_turn c t s = Ret s' /\ ginv s'.
Proof.
  intros Hg. destruct (co_mode (st_coord s)) as [|j k|j|j cnt|] eqn:Hmode.
  - by apply working_turn.
  - by eapply flushing_turn.
  - by eapply starting_turn.
  - by eapply waiting_turn.
  - exists s. unfold coordinator_turn. by rewrite Hmode.
Qed.

(** A machine replaced by one of which the same holds. *)
Lemma ginv_insert s m sm sm' : ginv s -> 0 <= m -> st_machs s !! Z.to_nat m = Some sm ->
  mach_inv (co_mode (st_coord s)) (co_starts (st_coord s)) (co_weights (st_coord s)) m sm' ->
  match co_mode (st_coord s) with Flushing _ _ => mtokens m sm' = mtokens m sm | _ => True end ->
  ginv (mkstrads (<[Z.to_nat m := sm']> (st_machs s)) (st_coord s)).
Proof.
  intros [Hl Hco Hmo Hi] Hm Esm Hmi Htk. constructor; cbn [st_machs st_coord]; [by rewrite length_insert|done| |].
  - unfold mode_ok in *. cbn [st_coord st_machs]. destruct (co_mode (st_coord s)); try done. destruct Hmo as (Hj & Hs0 & Hit & Htot). split_and!; [lia..|done|done|].
    unfold total_tokens in *. rewrite (isum_same _ _ _ sm); [done|done|]. by rewrite Z2Nat.id.
  - apply machs_insert; [intros k sk _; apply Hi|by rewrite Z2Nat.id].
Qed.

Lemma ginv_step user_check d s s' : ginv s -> strads_step c t user_check d s s' -> ginv s'.
Proof.
  intros Hg Hs. destruct Hs as [s s' E|s m sm sm' Hm Esm E|s m sm i th th' rands Hm Esm Eth E].
  - destruct (coordinator_turn_spec s Hg) as (s2 & E2 & Hg2). rewrite E in E2. by injection E2 as <-.
  - pose proof Hg as [Hl Hco _ Hi]. pose proof (Hi _ _ Esm) as Hmi. rewrite Z2Nat.id in Hmi by done. pose proof (lookup_lt_Some _ _ _ Esm).
    destruct (decide (co_mode (st_coord s) = Finished)) as [Ef|Ef]; [apply (ginv_insert s m sm); rewrite ?Ef; done|].
    destruct (mach_inv_turn _ _ _ m sm ltac:(lia) (cok_weights _ Hco) (cok_num _ Hco) Ef Hmi) as (sm2 & E2 & Hmi2 & Htk). fold T in E. rewrite E in E2.
    injection E2 as <-. by apply (ginv_insert s m sm).
  - pose proof Hg as [Hl Hco _ Hi]. pose proof (Hi _ _ Esm) as Hmi. rewrite Z2Nat.id in Hmi by done.
    destruct (mach_inv_thread _ _ _ m sm i th th' _ _ _ (cok_starts _ Hco) Hmi Eth E) as [Hmi2 Htk]. by apply (ginv_insert s m sm).
Qed.

(** ** The start *)

Lemma new_thread_tinv user_check rands (bw infthr : F) g th : 0 <= g < parts -> new_thread c t user_check rands bw infthr modelsize g = Ret th ->
  tinv 0 g th /\ th_inq th = [] /\ th_outq th = [].
Proof.
  intros Hg E. destruct assigned as [Hthrd _]. unfold new_thread, at_part in E. rewrite Hthrd in E by done. cbn [deref mbind outcome_bind part rg_start rg_end] in E.
  apply bind_Ret_inv in E as (w & Ew & E). apply bind_Ret_inv in E as ([w' o] & E & [= <-]).
  set (weights := replicate (Z.to_nat modelsize) f_zero) in *. pose proof modelsize_nonneg as Hms.
  assert (Hlw : Z.of_nat (length weights) = modelsize) by (unfold weights; rewrite length_replicate; lia).
  assert (Hnum : Forall f_num weights) by (apply Forall_replicate; apply f_zero_num).
  assert (Hfit : fits g w /\ ws_restart_cnt w = 0).
  { unfold wsamplerctx_new in Ew. apply bind_Ret_inv in Ew as (u & Hlt%CHECK_Ret%bool_decide_eq_true & [= <-]). split; [|done].
    constructor; try done. constructor; cbn; [lia|done|rewrite length_replicate; lia|apply Forall_replicate, f_zero_num]. }
  destruct Hfit as [Hfit Hcnt]. pose proof (thread_cmd_accepted weights g w Hlw Hnum Hg Hfit) as [Hch _].
  unfold thread_cmd in Hch. cbn [sc_winfo] in Hch. fold parts in Hch.
  replace (part_start modelsize parts (g + 1) - 1 + 1 - part_start modelsize parts g) with (part_start modelsize parts (g + 1) - part_start modelsize parts g) in E by lia.
  destruct (update_weight_spec _ w (ft_ok _ _ Hfit) Hch) as [Eu Hok1]. unfold scheduler_thread in E. cbn [sc_type sc_winfo] in E.
  apply bind_Ret_inv in E as (u1 & _ & E). rewrite Eu in E. cbn [mbind outcome_bind] in E. apply bind_Ret_inv in E as ([gs w2] & Es & E).
  apply bind_Ret_inv in E as (u2 & _ & E). apply bind_Ret_inv in E as (u3 & _ & [= <- <-]). destruct Hfit as [Hok Hgid Hs He Hm Hfl].
  apply do_sampling_Ret in Es as (-> & _); [|done|cbn; by rewrite Hm]. split; [|done]. constructor; cbn [th_ws th_inq th_outq]; [|cbn; rewrite Hcnt; done|constructor|constructor].
  constructor; cbn; [destruct Hok1; by constructor|done..].
Qed.

Lemma boot_ginv user_check rands (bw infthr : F) s : boot c t user_check rands bw infthr modelsize = Ret s -> ginv s.
Proof.
  intros E. pose proof modelsize_nonneg as Hms. unfold boot in E. apply bind_Ret_inv in E as (machs & E & [= <-]). apply mapM_seqZ in E as [Hl Hm].
  fold Sm in Hl, Hm. constructor; cbn [st_machs st_coord co_mode co_starts co_weights].
  - lia.
  - constructor; cbn; [lia|rewrite length_replicate; lia|lia|lia|rewrite length_replicate; lia|apply Forall_replicate, f_zero_num].
  - cbn. lia.
  - intros m sm Em. pose proof (lookup_lt_Some _ _ _ Em) as Hlt. specialize (Hm m sm Em). apply bind_Ret_inv in Hm as (ths & E & [= <-]).
    fold T in E. apply mapM_seqZ in E as [Hlt' Hth]. cbn [mach_inv]. rewrite bool_decide_false by lia.
    assert (Hnew : forall i th, ths !! i = Some th -> tinv 0 (Z.of_nat m * T + Z.of_nat i) th /\ th_inq th = [] /\ th_outq th = []).
    { intros i th Ei. pose proof (lookup_lt_Some _ _ _ Ei) as Hi. eapply new_thread_tinv; [|by apply Hth].
      assert ((Z.of_nat m + 1) * T <= Sm * T) by (apply Z.mul_le_mono_nonneg_r; lia). assert (0 <= Z.of_nat m * T) by (apply Z.mul_nonneg_nonneg; lia). unfold parts. lia. }
    apply idle_intro; cbn; [|lia|done|done|intros i th Ei; apply (Hnew i th Ei)]. split; [lia|]. intros i th Ei. apply (Hnew i th Ei).
Qed.

Lemma ginv_reachable user_check d s s' : ginv s -> rtc (strads_step c t user_check d) s s' -> ginv s'.
Proof. intros Hg. induction 1 as [|s s1 s2 Hs _ IH]; [done|]. apply IH. by eapply ginv_step. Qed.

(** The commands in the queue of a thread are ones it makes a phase of. *)
Lemma mach_inv_threads mode starts weights m sm : 0 <= starts <= 1 -> mode <> Finished -> mach_inv mode starts weights m sm ->
  exists n, n <= 2 /\ threads_ok n m (sm_threads sm).
Proof.
  intros Hst Hne Hi. destruct mode as [|j k|j|j cnt|]; cbn [mach_inv] in Hi; [| | | |done].
  - exists (starts + 1). split; [lia|apply Hi].
  - exists 1. split; [lia|apply Hi].
  - case_bool_decide; [exists (starts + 1)|exists starts]; (split; [lia|apply Hi]).
  - case_bool_decide; [exists (starts + 1); split; [lia|apply Hi]|]. case_bool_decide; [|exists starts; split; [lia|apply Hi]].
    destruct Hi as [Hn|(_ & out & _ & Hr & _)]; [exists starts; split; [lia|apply Hn]|exists (starts + 1); split; [lia|apply Hr]].
Qed.

Lemma tinv_next n g th cmd q : n <= 2 -> tinv n g th -> th_inq th = cmd :: q -> ws_ok (th_ws th) /\ change_ok (th_ws th) (sc_winfo cmd) /\ makes_phase cmd (th_ws th).
Proof.
  intros Hn [Hfit Hc Hcm _] Eq. rewrite Eq in Hc, Hcm. apply Forall_cons in Hcm as [[Hch Hty] _]. split; [apply Hfit|]. split; [done|].
  unfold makes_phase. destruct Hty as [->|[Hty Hcov]]; [done|]. rewrite restarts_cons in Hc. unfold is_restart in Hc. rewrite Hty in Hc |- *.
  pose proof (restarts_nonneg q). split; [done|]. split; [lia|]. apply Hfit. lia.
Qed.
End PROTOCOL.

Section CLAIM.
Context {F : Type} `{FloatOk F}.

(** C32: in every interleaving of the coordinator, the scheduler machines and their threads, until the coordinator has all iterations,
    neither the coordinator nor a machine fails a check or waits for the rest of a message, each thread takes only commands
    that [phase_is_free_of_conflicts] is about, and while phases are worked off every thread has exactly one phase, update or
    command on its way. *)
Theorem one_phase_per_thread (c : config F) modelsize t user_check rands d (bw infthr : F) s0 s :
  let Sm := schedmachs c in let T := thrds_per_sched c in
  0 < Sm -> 0 < T <= MAX_SCHEDULER_THREAD -> 2 <= modelsize / (Sm * T) -> T * (modelsize / (Sm * T) + 1) <= (MAX_ZMQ_HWM - 10) * entry_per_chunk ->
  0 <= maxset c -> maxset c * sizeof_idval_pair <= USER_MSG_SIZE - sizeof_schedhead ->
  Z.of_nat (length (initial_priority c)) = modelsize -> Forall f_num (initial_priority c) ->
  (forall it ids, (user_values c it ids).2 = true /\ forall i, f_num ((user_values c it ids).1 i)) ->
  make_scheduling_taskpartition modelsize Sm T (mktask_assignment ∅ ∅) = Ret t ->
  boot c t user_check rands bw infthr modelsize = Ret s0 -> rtc (strads_step c t user_check d) s0 s -> co_mode (st_coord s) <> Finished ->
  (exists s', coordinator_turn c t s = Ret s') /\
  forall m sm, st_machs s !! m = Some sm ->
    (exists sm', scheduler_mach_turn t (Z.of_nat m) T sm = Ret (Some sm')) /\
    forall i th, sm_threads sm !! i = Some th ->
      (forall cmd q, th_inq th = cmd :: q -> ws_ok (th_ws th) /\ change_ok (th_ws th) (sc_winfo cmd) /\ makes_phase cmd (th_ws th)) /\
      (co_mode (st_coord s) = Working -> tokens c (Z.of_nat m) sm i th = 1%nat).
Proof.
  intros Sm T HS HT H2 Hbig Hmx Hmsg Hprio Hprionum Huser Et Eb Hrtc Hne.
  assert (Hg : ginv c modelsize t s) by (eapply ginv_reachable; [..|exact Hrtc]; try done; eapply boot_ginv; [..|exact Eb]; done).
  split. { destruct (coordinator_turn_spec c modelsize t) with (s := s) as (s' & E & _); try done. by exists s'. }
  intros m sm Em. pose proof Hg as [Hl [Hrc Hbuf Hst Hsw Hw Hnum] _ Hi]. pose proof (Hi _ _ Em) as Hmi. pose proof (lookup_lt_Some _ _ _ Em). split.
  - destruct (mach_inv_turn c modelsize t) with (3 := H2) (10 := Hmi) as (sm' & E & _); try done; [lia|]. by exists sm'.
  - intros i th Eth. split.
    + intros cmd q Eq. destruct (mach_inv_threads c modelsize t _ _ _ _ _ Hst Hne Hmi) as (n & Hn & Hth).
      eapply tinv_next; [exact Hn|by apply Hth|done].
    + intros Hmode. rewrite Hmode in Hmi. by apply Hmi.
Qed.
End CLAIM.

(** Two threads of a machine with three variables each: after the restart
    the first thread takes its command and the machine sends its phase. *)
Lemma one_phase_per_thread_witness :
  let c := mkconfig 1 2 1 100 3 (fun _ ids => (fun _ => 1, true)) (replicate 6 1) in
  exists t s s', coordinator_turn c t s = Ret s' /\ co_mode (st_coord s) = Working /\
    exists sm th, st_machs s = [sm] /\ sm_out sm = [SchedPhase 0 0 [0]] /\ sm_threads sm !! 0%nat = Some th /\ tokens c 0 sm 0 th = 1%nat.
Proof.
  intros c. set (or := fun A (a : A) (o : outcome A) => match o with Ret x => x | _ => a end).
  set (t := or _ (mktask_assignment ∅ ∅) (make_scheduling_taskpartition 6 1 2 (mktask_assignment ∅ ∅))).
  set (d := fun _ : Z => mkdshardctx cvspt 0 6 3 (mkcol_vspmat 3 6 (replicate 6 (mkspmat_vector [0] [1])))).
  set (check := fun (gs : list Z) (_ : dshardctx Z) (_ : wsamplerctx Z) => Ret gs).
  set (s0 := or _ (mkstrads [] (mkcoord Finished 0 0 0 [] [])) (boot c t check (fun _ _ => 0) 1 2 6)).
  set (coordinator := fun s => or _ s (coordinator_turn c t s)).
  set (no_machine := mksmach [] [] 0 [] : smach Z).
  set (machine := fun s => or _ None (scheduler_mach_turn t 0 2 (default no_machine (head (st_machs s))))).
  assert (Hmach : forall s sm, st_machs s = [default no_machine (head (st_machs s))] -> machine s = Some sm ->
    scheduler_mach_turn t 0 2 (default no_machine (head (st_machs s))) = Ret (Some sm) ->
    rtc (strads_step c t check d) s (mkstrads [sm] (st_coord s))).
  { intros s sm Es _ E. apply rtc_once. pose proof (step_machine c t check d s 0 _ sm ltac:(done) ltac:(rewrite Es; reflexivity) E) as Hs. by rewrite Es in Hs. }
  assert (Hthread : forall sm co th ths th', sm_threads sm = th :: ths -> thread_turn check (d 0) (fun _ => 0) th = Ret th' ->
    rtc (strads_step c t check d) (mkstrads [sm] co) (mkstrads [mksmach (sm_inbox sm) (sm_out sm) (sm_rclock sm) (th' :: ths)] co)).
  { intros sm co th ths th' Et E. apply rtc_once.
    pose proof (step_thread c t check d (mkstrads [sm] co) 0 sm 0 th th' (fun _ => 0) ltac:(done) ltac:(reflexivity) ltac:(by rewrite Et) E) as Hs.
    by rewrite Et in Hs. }
  assert (Hco : forall s s', coordinator_turn c t s = Ret s' -> rtc (strads_step c t check d) s s').
  { intros s s' E. by apply rtc_once, step_coordinator. }
  set (s1 := coordinator s0). set (m2 := default no_machine (machine s1)). set (s2 := mkstrads [m2] (st_coord s1)).
  set (s3 := coordinator s2). set (m3 := default no_machine (head (st_machs s3))).
  set (no_thread := mksthread (mkwsamplerctx 0 0 0 0 0 0 0 0 0 [] false 0) [] [] : sthread Z).
  set (th := default no_thread (head (sm_threads m3))). set (th' := or _ no_thread (thread_turn check (d 0) (fun _ => 0) th)).
  set (m4 := mksmach (sm_inbox m3) (sm_out m3) (sm_rclock m3) (th' :: tail (sm_threads m3))). set (s4 := mkstrads [m4] (st_coord s3)).
  set (m5 := default no_machine (machine s4)). set (s5 := mkstrads [m5] (st_coord s4)).
  assert (Hrun : rtc (strads_step c t check d) s0 s5).
  { transitivity s1; [apply Hco; vm_compute; reflexivity|]. transitivity s2; [apply Hmach; vm_compute; reflexivity|].
    transitivity s3; [apply Hco; vm_compute; reflexivity|].
    transitivity s4; [|apply Hmach; vm_compute; reflexivity].
    replace s3 with (mkstrads [m3] (st_coord s3)) by (vm_compute; reflexivity). apply (Hthread m3 _ th); vm_compute; reflexivity. }
  destruct (one_phase_per_thread c 6 t check (fun _ _ => 0) d 1 2 s0 s5) as [(s' & E) Hall].
  - done.
  - done.
  - done.
  - done.
  - done.
  - done.
  - done.
  - repeat constructor.
  - intros it ids. split; [done|]. done.
  - vm_compute. reflexivity.
  - vm_compute. reflexivity.
  - exact Hrun.
  - vm_compute. done.
  - exists t, s5, s'. split; [exact E|]. split; [vm_compute; reflexivity|].
    destruct (Hall 0%nat m5 eq_refl) as [_ Htok]. exists m5, (default no_thread (sm_threads m5 !! 0%nat)). split; [done|]. split; [vm_compute; reflexivity|].
    split; [vm_compute; reflexivity|]. apply (Htok 0%nat); vm_compute; reflexivity.
Defined.
