(* ===== verification/StradsShard.v ===== *)
(** * STRADS: matrices and the data shards of a machine

    The matrices of [strads/ds/spmat.hpp], the shard of the input a machine
    keeps ([dshardctx] in [ds/dshard.hpp]) and how it is read from a file
    ([ds/binaryio.cpp]).  The build defines [TEST_ATOMIC] and
    [COL_SORT_INPUT] ([strads/CMakeLists.txt]).  Indices are [uint64_t]. *)
From S2P Require Import Prelude StradsFloat StradsCorr StradsSched.
From stdpp Require Import strings.
Open Scope Z_scope.

Section SHARD.
Context {F : Type} `{Float F}.

(** ** Matrices *)

(** [row_spmat] and [col_spmat]: a vector of rows, or of columns, each a
    map. *)
Record row_spmat := mkrow_spmat { rs_size_n : Z; rs_size_m : Z; rs_rows : list (gmap Z F) }.
Definition row_spmat_new (n m : Z) : row_spmat := mkrow_spmat n m (replicate (Z.to_nat n) ∅).
Definition row_spmat_set (i j : Z) (v : F) (a : row_spmat) : outcome row_spmat :=
  r ← vec_at (rs_rows a) i; rows ← vec_set (rs_rows a) i (<[j := v]> r); Ret (mkrow_spmat (rs_size_n a) (rs_size_m a) rows).
Definition row_spmat_get (i j : Z) (a : row_spmat) : outcome F :=
  r ← vec_at (rs_rows a) i; Ret (match r !! j with Some v => v | None => f_zero end).

Record col_spmat := mkcol_spmat { cs_size_n : Z; cs_size_m : Z; cs_cols : list (gmap Z F) }.
Definition col_spmat_new (n m : Z) : col_spmat := mkcol_spmat n m (replicate (Z.to_nat m) ∅).
Definition col_spmat_set (i j : Z) (v : F) (a : col_spmat) : outcome col_spmat :=
  r ← vec_at (cs_cols a) j; cols ← vec_set (cs_cols a) j (<[i := v]> r); Ret (mkcol_spmat (cs_size_n a) (cs_size_m a) cols).
Definition col_spmat_get (i j : Z) (a : col_spmat) : outcome F :=
  r ← vec_at (cs_cols a) j; Ret (match r !! i with Some v => v | None => f_zero end).

(** [row_vspmat]: a vector of sparse rows; [col_vspmat] is in
    [StradsCorr]. *)
Record row_vspmat := mkrow_vspmat { rv_size_n : Z; rv_size_m : Z; rv_rows : list (spmat_vector F) }.
Definition row_vspmat_new (n m : Z) : row_vspmat := mkrow_vspmat n m (replicate (Z.to_nat n) spmat_vector_new).
Definition row_vspmat_add (i j : Z) (v : F) (a : row_vspmat) : outcome row_vspmat :=
  r ← vec_at (rv_rows a) i; rows ← vec_set (rv_rows a) i (spmat_vector_add j v r); Ret (mkrow_vspmat (rv_size_n a) (rv_size_m a) rows).
Definition add_with_col_sorting (i j : Z) (v : F) (a : row_vspmat) : outcome row_vspmat :=
  r ← vec_at (rv_rows a) i; r' ← add_with_sorting j v r; rows ← vec_set (rv_rows a) i r'; Ret (mkrow_vspmat (rv_size_n a) (rv_size_m a) rows).

(** [dense2dmat]; without [resize] there is no memory. *)
Record dense2dmat := mkdense2dmat { dm_samples_n : Z; dm_cols_n : Z; dm_mem : list (list F) }.
Definition dense2dmat_new : dense2dmat := mkdense2dmat 0 0 [].
Definition dense2dmat_resize (n m : Z) : dense2dmat := mkdense2dmat n m (replicate (Z.to_nat n) (replicate (Z.to_nat m) f_zero)).
Definition dense2dmat_set (i j : Z) (v : F) (a : dense2dmat) : outcome dense2dmat :=
  r ← vec_at (dm_mem a) i; r' ← vec_set r j v; mem ← vec_set (dm_mem a) i r'; Ret (mkdense2dmat (dm_samples_n a) (dm_cols_n a) mem).

(** [cas_array::resize] and [zero_fill]. *)
Definition cas_array_resize (sz : Z) : list F := replicate (Z.to_nat sz) f_zero.
Definition cas_array_zero_fill (sz : Z) (a : list F) : outcome (list F) :=
  _ ← CHECK (bool_decide (Z.of_nat (length a) <> 0)); _ ← CHECK (bool_decide (sz = Z.of_nat (length a))); Ret (replicate (length a) f_zero).

(** ** Shards *)

(** [rangectx]; both ends are included. *)
Record rangectx := mkrangectx { r_start : Z; r_end : Z; r_len : Z; c_start : Z; c_end : Z; c_len : Z }.

(** [mini_dshardctx]: what the coordinator sends. *)
Record mini_dshardctx := mkmini { mi_rows : Z; mi_cols : Z; mi_type : matrix_type; mi_fn : string; mi_range : rangectx; mi_alias : string }.

Record shard := mkshard {
  shd_rows : Z; shd_cols : Z; shd_type : matrix_type; shd_fn : string; shd_alias : string; shd_range : rangectx;
  m_rm_mat : row_spmat; m_cm_mat : col_spmat; m_rm_vmat : row_vspmat; m_cm_vmat : col_vspmat F; m_dmat : dense2dmat; m_atomic : list F
}.

Definition shard_new (s : mini_dshardctx) : shard :=
  let n := mi_rows s in let m := mi_cols s in
  mkshard n m (mi_type s) (mi_fn s) (mi_alias s) (mi_range s) (row_spmat_new n m) (col_spmat_new n m) (row_vspmat_new n m) (col_vspmat_new n m)
    dense2dmat_new [].

Definition with_rm_mat (a : row_spmat) (d : shard) : shard :=
  mkshard (shd_rows d) (shd_cols d) (shd_type d) (shd_fn d) (shd_alias d) (shd_range d) a (m_cm_mat d) (m_rm_vmat d) (m_cm_vmat d) (m_dmat d) (m_atomic d).
Definition with_cm_mat (a : col_spmat) (d : shard) : shard :=
  mkshard (shd_rows d) (shd_cols d) (shd_type d) (shd_fn d) (shd_alias d) (shd_range d) (m_rm_mat d) a (m_rm_vmat d) (m_cm_vmat d) (m_dmat d) (m_atomic d).
Definition with_rm_vmat (a : row_vspmat) (d : shard) : shard :=
  mkshard (shd_rows d) (shd_cols d) (shd_type d) (shd_fn d) (shd_alias d) (shd_range d) (m_rm_mat d) (m_cm_mat d) a (m_cm_vmat d) (m_dmat d) (m_atomic d).
Definition with_cm_vmat (a : col_vspmat F) (d : shard) : shard :=
  mkshard (shd_rows d) (shd_cols d) (shd_type d) (shd_fn d) (shd_alias d) (shd_range d) (m_rm_mat d) (m_cm_mat d) (m_rm_vmat d) a (m_dmat d) (m_atomic d).
Definition with_dmat (a : dense2dmat) (atomic : list F) (d : shard) : shard :=
  mkshard (shd_rows d) (shd_cols d) (shd_type d) (shd_fn d) (shd_alias d) (shd_range d) (m_rm_mat d) (m_cm_mat d) (m_rm_vmat d) (m_cm_vmat d) a atomic.

(** What the schedulers use of a shard. *)
Definition scheduler_view (d : shard) : dshardctx F :=
  mkdshardctx (shd_type d) (c_start (shd_range d)) (c_end (shd_range d)) (shd_rows d) (m_cm_vmat d).

(** ** Files *)

(** The fields of [pbfheader] the code uses. *)
Record pbfheader := mkpbfheader { fh_maxrow : Z; fh_maxcol : Z; fh_row_s : Z; fh_row_end : Z; fh_col_s : Z; fh_col_end : Z; fh_nonzero : Z }.
Record nzentry := mknzentry { nz_row : Z; nz_col : Z; nz_val : F }.
Definition sizeof_nzentry : Z := 24.

(** A file: the header, the entries and [pf_rest] bytes that are not a whole
    entry. *)
Record pbfile := mkpbfile { pf_header : pbfheader; pf_entries : list nzentry; pf_rest : Z }.

Definition PBFIO_ENTRY_TO_READ : Z := 1024 * 1024.

Definition range_sanity_check (fh : pbfheader) (r : rangectx) : outcome unit :=
  _ ← CHECK (bool_decide (fh_row_s fh <= r_start r));
  _ ← CHECK (bool_decide (fh_row_end fh >= r_end r));
  _ ← CHECK (bool_decide (fh_col_s fh <= c_start r));
  CHECK (bool_decide (fh_col_end fh >= fh_col_end fh)).

(** An entry goes to the matrix of the type of the shard. *)
Definition store (sorted : bool) (row col : Z) (v : F) (d : shard) : outcome shard :=
  match shd_type d with
  | rmspt => a ← row_spmat_set row col v (m_rm_mat d); Ret (with_rm_mat a d)
  | cmspt => a ← col_spmat_set row col v (m_cm_mat d); Ret (with_cm_mat a d)
  | d2dmat =>
      a ← dense2dmat_set row col v (m_dmat d);
      _ ← CHECK (bool_decide (col = 0));
      atomic ← vec_set (m_atomic d) row v;
      Ret (with_dmat a atomic d)
  | rvspt => a ← row_vspmat_add row col v (m_rm_vmat d); Ret (with_rm_vmat a d)
  | cvspt => a ← (if sorted then add_with_row_sorting row col v (m_cm_vmat d) else col_vspmat_add row col v (m_cm_vmat d)); Ret (with_cm_vmat a d)
  | rvdt => CheckFail
  end.

(** The row and the column of an entry: from 1 on in a matlab file, and the
    columns renamed by [m_model_permute]. *)
Definition entry_position (matlabflag : bool) (permute : option (list Z)) (type : matrix_type) (e : nzentry) : outcome (Z * Z) :=
  let tmprow := if matlabflag then u64 (nz_row e - 1) else nz_row e in
  let tmpcol := if matlabflag then u64 (nz_col e - 1) else nz_col e in
  match permute with
  | Some col_permute_map =>
      if bool_decide (type <> d2dmat) then c ← vec_at col_permute_map tmpcol; Ret (tmprow, u64 c) else Ret (tmprow, tmpcol)
  | None => Ret (tmprow, tmpcol)
  end.

Definition in_rangectx (r : rangectx) (row col : Z) : bool :=
  bool_decide (row >= r_start r) && bool_decide (row <= r_end r) && bool_decide (col >= c_start r) && bool_decide (col <= c_end r).

(** An entry outside the matrix ends the process. *)
Definition load_entry (sorted matlabflag : bool) (permute : option (list Z)) (fh : pbfheader) (d : shard) (e : nzentry) : outcome shard :=
  '(row, col) ← entry_position matlabflag permute (shd_type d) e;
  _ ← CHECK (bool_decide (row < fh_maxrow fh));
  _ ← CHECK (bool_decide (col < fh_maxcol fh));
  if in_rangectx (shd_range d) row col then store sorted row col (nz_val e) d else Ret d.

(** The loop: [pbfio_read_bytes] reads the bytes from [cpos] after the header
    on into a buffer of [toread] entries, all of them unless the file ends.
    [fuel] is more than the number of entries. *)
Definition read_bytes (f : pbfile) (cpos toread : Z) : Z :=
  Z.min (toread * sizeof_nzentry) (Z.of_nat (length (pf_entries f)) * sizeof_nzentry + pf_rest f - cpos).

Fixpoint read_loop (fuel : nat) (load : shard -> nzentry -> outcome shard) (f : pbfile) (toread cpos : Z) (d : shard) : outcome shard :=
  match fuel with
  | O => Undef
  | S fuel' =>
      let readbytes := read_bytes f cpos toread in
      _ ← CHECK (bool_decide (readbytes mod sizeof_nzentry = 0));
      d' ← foldM load (take (Z.to_nat (readbytes / sizeof_nzentry)) (drop (Z.to_nat (cpos / sizeof_nzentry)) (pf_entries f))) d;
      if bool_decide (readbytes <> toread * sizeof_nzentry) then Ret d' else read_loop fuel' load f toread (cpos + readbytes) d'
  end.

Definition partialread_with (sorted matlabflag : bool) (permute : option (list Z)) (files : gmap string pbfile) (d : shard) : outcome shard :=
  f ← checked (files !! shd_fn d);
  _ ← range_sanity_check (pf_header f) (shd_range d);
  read_loop (2 + length (pf_entries f)) (load_entry sorted matlabflag permute (pf_header f)) f PBFIO_ENTRY_TO_READ 0 d.

(** The four readers; two of them take [m_apply_permute_col] and
    [m_model_permute] of the context. *)
Definition iohandler_spmat_pbfio_partialread (matlabflag : bool) := partialread_with false matlabflag None.
Definition iohandler_spmat_pbfio_partialread_sortedorder (matlabflag : bool) := partialread_with true matlabflag None.
Definition iohandler_spmat_pbfio_partialread_ctx (matlabflag permute_flag : bool) (model_permute : list Z) :=
  partialread_with false matlabflag (if permute_flag then Some model_permute else None).
Definition iohandler_spmat_pbfio_partialread_sortedorder_ctx (matlabflag permute_flag : bool) (model_permute : list Z) :=
  partialread_with true matlabflag (if permute_flag then Some model_permute else None).

(** [iohandler_spmat_pbfio_read_size]: rows, columns and entries. *)
Definition iohandler_spmat_pbfio_read_size (files : gmap string pbfile) (fn : string) : outcome (Z * Z * Z) :=
  f ← checked (files !! fn); Ret (fh_maxrow (pf_header f), fh_maxcol (pf_header f), fh_nonzero (pf_header f)).
End SHARD.

Arguments row_spmat : clear implicits.
Arguments col_spmat : clear implicits.
Arguments row_vspmat : clear implicits.
Arguments dense2dmat : clear implicits.
Arguments shard : clear implicits.
Arguments nzentry : clear implicits.
Arguments pbfile : clear implicits.
