(* ===== verification/StradsShardProps.v ===== *)
(** * STRADS: what a shard holds

    A shard read from a file ([StradsShard]) holds the entries of the file
    that lie in its range, whatever its matrix type and however the file is
    cut into reads. *)
From S2P Require Import Prelude StradsFloat StradsCorr StradsSched StradsShard.
From stdpp Require Import strings.
Open Scope Z_scope.

Section READS.
Context {F : Type} `{Float F}.

(** The loop over reads of [toread] entries is one loop over the entries; a
    file with an incomplete entry is refused. *)
Lemma read_loop_spec fuel load (f : pbfile F) toread k (d : shard F) : 0 < toread -> (k <= length (pf_entries f))%nat -> pf_rest f = 0 ->
  (length (pf_entries f) - k < fuel)%nat ->
  read_loop fuel load f toread (Z.of_nat k * sizeof_nzentry) d = foldM load (drop k (pf_entries f)) d.
Proof.
  intros Ht. revert k d. induction fuel as [|fuel IH]; intros k d Hk Hr Hf; [lia|]. cbn [read_loop]. unfold read_bytes. rewrite Hr.
  unfold sizeof_nzentry in *. set (n := Z.min toread (Z.of_nat (length (pf_entries f)) - Z.of_nat k)).
  replace (Z.min (toread * 24) (Z.of_nat (length (pf_entries f)) * 24 + 0 - Z.of_nat k * 24)) with (n * 24) by lia.
  rewrite Z.mod_mul, !Z.div_mul by done. rewrite (bool_decide_true (0 = 0)) by done. cbn [CHECK mbind outcome_bind]. rewrite Nat2Z.id.
  destruct (decide (n = toread)) as [En|En].
  - rewrite (bool_decide_false (n * 24 <> _)) by lia. rewrite <- (take_drop (Z.to_nat n) (drop k (pf_entries f))) at 2. rewrite drop_drop, foldM_app.
    destruct (foldM load _ d) as [d'| |]; [|done..]. cbn [mbind outcome_bind]. replace (Z.of_nat k * 24 + n * 24) with (Z.of_nat (k + Z.to_nat n) * 24) by lia.
    apply IH; lia.
  - rewrite (bool_decide_true (n * 24 <> _)) by lia. rewrite take_ge by (rewrite length_drop; lia). by destruct (foldM load _ d).
Qed.

Lemma read_loop_rest fuel load (f : pbfile F) toread k (d d' : shard F) : 0 < toread -> (k <= length (pf_entries f))%nat -> 0 < pf_rest f < sizeof_nzentry ->
  read_loop fuel load f toread (Z.of_nat k * sizeof_nzentry) d <> Ret d'.
Proof.
  intros Ht. revert k d. induction fuel as [|fuel IH]; intros k d Hk Hr E; [done|]. cbn [read_loop] in E. unfold read_bytes, sizeof_nzentry in *.
  destruct (decide (toread <= Z.of_nat (length (pf_entries f)) - Z.of_nat k)) as [Hle|Hgt].
  - rewrite Z.min_l in E by lia. rewrite Z.mod_mul in E by done. rewrite (bool_decide_true (0 = 0)) in E by done. cbn [CHECK mbind outcome_bind] in E.
    apply bind_Ret_inv in E as (d1 & _ & E). rewrite (bool_decide_false (toread * 24 <> _)) in E by lia.
    replace (Z.of_nat k * 24 + toread * 24) with (Z.of_nat (k + Z.to_nat toread) * 24) in E by lia. apply IH in E; [done|lia|done].
  - rewrite Z.min_r in E by lia. apply bind_Ret_inv in E as (u & Hm%CHECK_Ret%bool_decide_eq_true & _).
    replace (Z.of_nat (length (pf_entries f)) * 24 + pf_rest f - Z.of_nat k * 24)
      with (pf_rest f + (Z.of_nat (length (pf_entries f)) - Z.of_nat k) * 24) in Hm by lia.
    rewrite Z.mod_add, Z.mod_small in Hm by lia. lia.
Qed.
End READS.

Section STORE.
Context {F : Type} `{Float F}.

(** ** What is at a position *)
Definition stored (d : shard F) (i j : Z) : option F :=
  match shd_type d with
  | rmspt => outcome_to_option (vec_at (rs_rows (m_rm_mat d)) i) ≫= fun r => r !! j
  | cmspt => outcome_to_option (vec_at (cs_cols (m_cm_mat d)) j) ≫= fun r => r !! i
  | rvspt => outcome_to_option (vec_at (rv_rows (m_rm_vmat d)) i) ≫= fun r => spmat_map r !! j
  | cvspt => outcome_to_option (vec_at (vm_cols (m_cm_vmat d)) j) ≫= fun r => spmat_map r !! i
  | d2dmat => outcome_to_option (vec_at (dm_mem (m_dmat d)) i) ≫= fun r => outcome_to_option (vec_at r j)
  | rvdt => None
  end.

Definition same_length (v : spmat_vector F) : Prop := length (sv_idx v) = length (sv_val v).

(** The matrix of the type of the shard has the size of the shard; a dense
    one has one column, which the atomic array repeats. *)
Definition shard_wf (sorted : bool) (d : shard F) : Prop :=
  match shd_type d with
  | rmspt => Z.of_nat (length (rs_rows (m_rm_mat d))) = shd_rows d
  | cmspt => Z.of_nat (length (cs_cols (m_cm_mat d))) = shd_cols d
  | rvspt => Z.of_nat (length (rv_rows (m_rm_vmat d))) = shd_rows d /\ Forall same_length (rv_rows (m_rm_vmat d))
  | cvspt => vm_size_m (m_cm_vmat d) = shd_cols d /\ Z.of_nat (length (vm_cols (m_cm_vmat d))) = shd_cols d /\
      Forall (if sorted then spmat_ok else same_length) (vm_cols (m_cm_vmat d))
  | d2dmat => shd_cols d = 1 /\ Z.of_nat (length (m_atomic d)) = shd_rows d /\ dm_mem (m_dmat d) = map (fun x => [x]) (m_atomic d)
  | rvdt => False
  end.

(** What reading does not change. *)
Definition same_frame (d d' : shard F) : Prop :=
  shd_rows d' = shd_rows d /\ shd_cols d' = shd_cols d /\ shd_type d' = shd_type d /\ shd_range d' = shd_range d.

Lemma same_frame_refl d : same_frame d d.
Proof. done. Qed.
Lemma same_frame_trans d d' d'' : same_frame d d' -> same_frame d' d'' -> same_frame d d''.
Proof. intros (? & ? & ? & ?) (? & ? & ? & ?). repeat split; congruence. Qed.

(** A line of a matrix changed at one place. *)
Lemma line_update {A} (get : A -> Z -> option F) (l : list A) a b r r' v : vec_at l a = Ret r ->
  (forall k, get r' k = if decide (k = b) then Some v else get r k) ->
  exists l', vec_set l a r' = Ret l' /\ l' = <[Z.to_nat a := r']> l /\
    forall i k, (outcome_to_option (vec_at l' i) ≫= fun x => get x k) =
      if decide (i = a /\ k = b) then Some v else (outcome_to_option (vec_at l i) ≫= fun x => get x k).
Proof.
  intros [Ha El]%vec_at_Ret Hg. pose proof (lookup_lt_Some _ _ _ El) as Hlt. unfold vec_set. rewrite bool_decide_true by lia.
  eexists. split; [done|]. split; [done|]. intros i k. destruct (decide (i = a)) as [->|Hne].
  - rewrite (proj2 (vec_at_Ret (<[Z.to_nat a := r']> l) a r')) by (split; [done|by apply list_lookup_insert_eq]).
    rewrite (proj2 (vec_at_Ret l a r)) by done. cbn. rewrite Hg. destruct (decide (k = b)) as [->|Hk]; [by rewrite decide_True|rewrite decide_False; [done|naive_solver]].
  - rewrite decide_False by naive_solver. f_equal. unfold vec_at. case_bool_decide; [|done]. by rewrite list_lookup_insert_ne by lia.
Qed.

Lemma vec_at_bounds {A} (l : list A) n i : Z.of_nat (length l) = n -> 0 <= i < n -> exists x, vec_at l i = Ret x.
Proof.
  intros Hl Hi. destruct (lookup_lt_is_Some_2 l (Z.to_nat i)) as (x & Hx); [lia|]. exists x. apply vec_at_Ret. split; [lia|done].
Qed.

Lemma spmat_add_map id v (r : spmat_vector F) k : same_length r -> spmat_map r !! id = None ->
  spmat_map (spmat_vector_add id v r) !! k = if decide (k = id) then Some v else spmat_map r !! k.
Proof.
  intros Hl Hn. unfold spmat_map, entries, spmat_vector_add in *. cbn [sv_idx sv_val]. rewrite zip_with_app by done. cbn [zip zip_with].
  rewrite list_to_map_snoc by (by apply not_elem_of_list_to_map in Hn). destruct (decide (k = id)) as [->|Hk]; [by rewrite lookup_insert_eq|by rewrite lookup_insert_ne].
Qed.

Lemma spmat_map_None id (r : spmat_vector F) : same_length r -> spmat_map r !! id = None -> id ∉ sv_idx r.
Proof. intros Hl Hn%not_elem_of_list_to_map. unfold entries in Hn. by rewrite fst_zip in Hn by (rewrite Hl; lia). Qed.

Lemma add_sorting_map id v (r : spmat_vector F) : spmat_ok r -> spmat_map r !! id = None ->
  exists r', add_with_sorting id v r = Ret r' /\ spmat_ok r' /\ forall k, spmat_map r' !! k = if decide (k = id) then Some v else spmat_map r !! k.
Proof.
  intros Hok Hn. pose proof (add_with_sorting_spec id v r Hok) as Ha. rewrite bool_decide_false in Ha by (apply spmat_map_None; [apply Hok|done]).
  destruct Ha as (r' & E & Hok' & Hm & _). exists r'. split; [done|]. split; [done|]. intros k. rewrite Hm.
  destruct (decide (k = id)) as [->|Hk]; [by rewrite lookup_insert_eq|by rewrite lookup_insert_ne].
Qed.

Lemma store_spec sorted i j v d : shard_wf sorted d -> 0 <= i < shd_rows d -> 0 <= j < shd_cols d ->
  (shd_type d = rvspt \/ shd_type d = cvspt -> stored d i j = None) ->
  exists d', store sorted i j v d = Ret d' /\ shard_wf sorted d' /\ same_frame d d' /\
    forall a b, stored d' a b = if decide (a = i /\ b = j) then Some v else stored d a b.
Proof.
  intros Hwf Hi Hj Hn. unfold store, shard_wf, stored in *. destruct (shd_type d) eqn:Et; [| | | |done|].
  - (* cmspt *)
    destruct (vec_at_bounds _ _ j Hwf Hj) as (r & Er). unfold col_spmat_set. rewrite Er. cbn [mbind outcome_bind].
    destruct (line_update (fun (x : gmap Z F) k => x !! k) _ j i r (<[i := v]> r) v Er) as (l' & -> & El & Hs).
    { intros k. destruct (decide (k = i)) as [->|Hk]; [by rewrite lookup_insert_eq|by rewrite lookup_insert_ne]. }
    cbn [mbind outcome_bind]. eexists. split; [done|]. cbn. rewrite Et. split; [by rewrite El, length_insert|]. split; [done|].
    intros a b. rewrite Hs. repeat destruct (decide _); naive_solver.
  - (* rmspt *)
    destruct (vec_at_bounds _ _ i Hwf Hi) as (r & Er). unfold row_spmat_set. rewrite Er. cbn [mbind outcome_bind].
    destruct (line_update (fun (x : gmap Z F) k => x !! k) _ i j r (<[j := v]> r) v Er) as (l' & -> & El & Hs).
    { intros k. destruct (decide (k = j)) as [->|Hk]; [by rewrite lookup_insert_eq|by rewrite lookup_insert_ne]. }
    cbn [mbind outcome_bind]. eexists. split; [done|]. cbn. rewrite Et. split; [by rewrite El, length_insert|]. split; [done|].
    intros a b. apply Hs.
  - (* cvspt *)
    destruct Hwf as (Hsz & Hl & Hf). destruct (vec_at_bounds _ _ j Hl Hj) as (r & Er). specialize (Hn ltac:(by right)). rewrite Er in Hn. cbn in Hn.
    assert (Hr : (if sorted then spmat_ok else same_length) r) by (apply vec_at_Ret in Er as [_ Er]; by eapply Forall_lookup_1).
    assert (Hadd : exists r', (if sorted then add_with_sorting i v r else Ret (spmat_vector_add i v r)) = Ret r' /\
      (if sorted then spmat_ok else same_length) r' /\ forall k, spmat_map r' !! k = if decide (k = i) then Some v else spmat_map r !! k).
    { destruct sorted; [by apply add_sorting_map|]. eexists. split; [done|]. split; [|intros k; by apply spmat_add_map].
      unfold same_length in *. cbn. rewrite !length_app. cbn. lia. }
    destruct Hadd as (r' & Ea & Hr' & Hm).
    destruct (line_update (fun x k => spmat_map x !! k) _ j i r r' v Er Hm) as (l' & Eset & El & Hs).
    assert (E : (if sorted then add_with_row_sorting i j v (m_cm_vmat d) else col_vspmat_add i j v (m_cm_vmat d)) =
      Ret (mkcol_vspmat (vm_size_n (m_cm_vmat d)) (vm_size_m (m_cm_vmat d)) l')).
    { unfold add_with_row_sorting, col_vspmat_add, vm_col, vm_set. rewrite Er. destruct sorted; cbn [mbind outcome_bind];
        [rewrite Ea; cbn [mbind outcome_bind]|injection Ea as ->]; rewrite Eset; done. }
    rewrite E. cbn [mbind outcome_bind]. eexists. split; [done|]. cbn. rewrite Et. split; [|split; [done|]].
    + split; [done|]. split; [by rewrite El, length_insert|]. rewrite El. by apply Forall_insert.
    + intros a b. rewrite Hs. repeat destruct (decide _); naive_solver.
  - (* rvspt *)
    destruct Hwf as (Hl & Hf). destruct (vec_at_bounds _ _ i Hl Hi) as (r & Er). specialize (Hn ltac:(by left)). rewrite Er in Hn. cbn in Hn.
    assert (Hr : same_length r) by (apply vec_at_Ret in Er as [_ Er]; by eapply Forall_lookup_1).
    destruct (line_update (fun x k => spmat_map x !! k) _ i j r (spmat_vector_add j v r) v Er) as (l' & Eset & El & Hs).
    { intros k. by apply spmat_add_map. }
    unfold row_vspmat_add. rewrite Er. cbn [mbind outcome_bind]. rewrite Eset. cbn [mbind outcome_bind]. eexists. split; [done|]. cbn. rewrite Et.
    split; [|split; [done|intros a b; apply Hs]]. split; [by rewrite El, length_insert|]. rewrite El. apply Forall_insert; [done|].
    unfold same_length in *. cbn. rewrite !length_app. cbn. lia.
  - (* d2dmat *)
    destruct Hwf as (Hc & Hl & Hmem). assert (j = 0) as -> by lia.
    destruct (lookup_lt_is_Some_2 (m_atomic d) (Z.to_nat i)) as (x & Ex); [lia|].
    assert (Er : vec_at (dm_mem (m_dmat d)) i = Ret [x]).
    { apply vec_at_Ret. split; [lia|]. rewrite Hmem, list_lookup_fmap, Ex. done. }
    unfold dense2dmat_set. rewrite Er. cbn [mbind outcome_bind]. change (vec_set [x] 0 v) with (Ret [v]). cbn [mbind outcome_bind].
    destruct (line_update (fun x k => outcome_to_option (vec_at x k)) _ i 0 [x] [v] v Er) as (l' & Eset & El & Hs).
    { intros k. destruct (decide (k = 0)) as [->|Hk]; [done|]. unfold vec_at. case_bool_decide; [|done].
      destruct (Z.to_nat k) as [|k'] eqn:Ek; [lia|done]. }
    rewrite Eset. cbn [mbind outcome_bind]. rewrite (bool_decide_true (0 = 0)) by done. cbn [CHECK mbind outcome_bind]. unfold vec_set.
    rewrite bool_decide_true by lia. cbn [mbind outcome_bind]. eexists. split; [done|]. cbn. rewrite Et. split; [|split; [done|intros a b; apply Hs]].
    split; [done|]. split; [by rewrite length_insert|]. by rewrite El, Hmem, list_fmap_insert.
Qed.
End STORE.

Section FILE.
Context {F : Type} `{Float F}.

(** Where an entry of a file with indices from 0 on belongs. *)
Definition place (permute : option (list Z)) (type : matrix_type) (e : nzentry F) : Z * Z :=
  (nz_row e, match permute with
             | Some map => if decide (type = d2dmat) then nz_col e else default 0 (map !! Z.to_nat (nz_col e))
             | None => nz_col e
             end).

(** The columns of a dense matrix are not renamed. *)
Definition permute_ok (type : matrix_type) (cols : Z) (permute : option (list Z)) : Prop :=
  match permute with Some map => type = d2dmat \/ map ≡ₚ seqZ 0 cols | None => True end.
Definition entry_in (fh : pbfheader) (e : nzentry F) : Prop := 0 <= nz_row e < fh_maxrow fh /\ 0 <= nz_col e < fh_maxcol fh.

Lemma permute_lookup map cols c : map ≡ₚ seqZ 0 cols -> 0 <= c < cols -> exists x, map !! Z.to_nat c = Some x /\ 0 <= x < cols.
Proof.
  intros Hp Hc. destruct (lookup_lt_is_Some_2 map (Z.to_nat c)) as (x & Hx); [rewrite Hp, length_seqZ; lia|]. exists x. split; [done|].
  apply list_elem_of_lookup_2 in Hx. rewrite Hp in Hx. apply elem_of_seqZ in Hx. lia.
Qed.

Lemma permute_inj map cols a b : map ≡ₚ seqZ 0 cols -> 0 <= a < cols -> 0 <= b < cols ->
  default 0 (map !! Z.to_nat a) = default 0 (map !! Z.to_nat b) -> a = b.
Proof.
  intros Hp Ha Hb E. destruct (permute_lookup map cols a Hp Ha) as (x & Hx & _), (permute_lookup map cols b Hp Hb) as (y & Hy & _).
  rewrite Hx, Hy in E. cbn in E. subst y. assert (Hnd : NoDup map) by (rewrite Hp; apply NoDup_seqZ).
  pose proof (NoDup_lookup map _ _ x Hnd Hx Hy). lia.
Qed.

Lemma entry_position_place permute type cols fh e : permute_ok type cols permute -> cols = fh_maxcol fh -> cols <= 2 ^ 64 -> entry_in fh e ->
  entry_position false permute type e = Ret (place permute type e) /\ 0 <= (place permute type e).2 < cols.
Proof.
  intros Hp Hc H64 [Hr Hcol]. unfold entry_position, place. destruct permute as [map|]; cbn [snd]; [|split; [done|lia]].
  destruct (decide (type = d2dmat)) as [->|Ht]; [rewrite bool_decide_false by (intros Hd; by apply Hd); split; [done|cbn; lia]|].
  rewrite bool_decide_true by done. destruct Hp as [Hp|Hp]; [done|].
  destruct (permute_lookup map cols (nz_col e) Hp ltac:(lia)) as (x & Hx & Hx').
  rewrite (proj2 (vec_at_Ret map (nz_col e) x)) by (split; [lia|done]). rewrite Hx. cbn. rewrite u64_id by int_lia. done.
Qed.

Lemma place_inj permute type fh e e' : permute_ok type (fh_maxcol fh) permute -> entry_in fh e -> entry_in fh e' ->
  place permute type e = place permute type e' -> nz_row e = nz_row e' /\ nz_col e = nz_col e'.
Proof.
  intros Hp [_ He] [_ He']. unfold place. destruct permute as [map|]; [|by intros [= -> ->]]. destruct (decide (type = d2dmat)); [by intros [= -> ->]|].
  intros [= -> E]. split; [done|]. destruct Hp as [Hp|Hp]; [done|]. by eapply permute_inj.
Qed.

(** The entries of a range, by their place. *)
Definition part_of_file (permute : option (list Z)) (type : matrix_type) (r : rangectx) (es : list (nzentry F)) : gmap (Z * Z) F :=
  list_to_map (map (fun e => (place permute type e, nz_val e))
    (filter (fun e => in_rangectx r (place permute type e).1 (place permute type e).2 = true) es)).

Lemma part_of_file_cons permute type r e es : part_of_file permute type r (e :: es) =
  if in_rangectx r (place permute type e).1 (place permute type e).2 then <[place permute type e := nz_val e]> (part_of_file permute type r es)
  else part_of_file permute type r es.
Proof.
  unfold part_of_file. rewrite filter_cons. destruct (in_rangectx r _ _); [by rewrite decide_True|by rewrite decide_False].
Qed.

Lemma part_of_file_Some permute type r es p v : NoDup (map (place permute type) es) ->
  part_of_file permute type r es !! p = Some v <-> exists e, e ∈ es /\ place permute type e = p /\ nz_val e = v /\ in_rangectx r p.1 p.2 = true.
Proof.
  intros Hnd. unfold part_of_file. rewrite <- elem_of_list_to_map.
  - rewrite list_elem_of_fmap. setoid_rewrite list_elem_of_filter. split.
    + intros (e & [= -> ->] & Hin & He). by exists e.
    + intros (e & He & <- & <- & Hin). by exists e.
  - rewrite <- list_fmap_compose. cbn. eapply sublist_NoDup; [exact Hnd|]. apply fmap_sublist, sublist_filter.
Qed.

(** A loop over entries at different places leaves all of the range in the
    shard, and nothing else. *)
Lemma load_entries_spec sorted permute fh es d : shard_wf sorted d -> permute_ok (shd_type d) (fh_maxcol fh) permute -> fh_maxcol fh <= 2 ^ 64 ->
  fh_maxrow fh = shd_rows d -> fh_maxcol fh = shd_cols d -> Forall (entry_in fh) es ->
  NoDup (map (place permute (shd_type d)) es) -> (shd_type d <> d2dmat -> forall e, e ∈ es -> stored d (place permute (shd_type d) e).1 (place permute (shd_type d) e).2 = None) ->
  exists d', foldM (load_entry sorted false permute fh) es d = Ret d' /\ shard_wf sorted d' /\ same_frame d d' /\
    forall i j, stored d' i j = match part_of_file permute (shd_type d) (shd_range d) es !! (i, j) with Some v => Some v | None => stored d i j end.
Proof.
  intros Hwf Hp H64 Hrows Hcols Hes. revert d Hwf Hp Hrows Hcols. induction Hes as [|e es He Hes IH]; intros d Hwf Hp Hrows Hcols Hnd Hnew.
  { exists d. split_and!; [done..|]. intros i j. change (part_of_file _ _ _ []) with (∅ : gmap (Z * Z) F). by rewrite lookup_empty. }
  cbn [map] in Hnd. apply NoDup_cons in Hnd as [Hnin Hnd]. cbn [foldM].
  destruct (entry_position_place permute (shd_type d) _ fh e Hp eq_refl H64 He) as [Epos Hpos]. pose proof He as [Hrow _].
  set (p := place permute (shd_type d) e) in *. assert (Hp1 : p.1 = nz_row e) by done.
  unfold load_entry at 2. rewrite Epos. cbn [mbind outcome_bind]. rewrite (surjective_pairing p). cbv iota beta.
  rewrite (bool_decide_true (p.1 < _)) by lia. rewrite (bool_decide_true (p.2 < _)) by lia. cbn [CHECK mbind outcome_bind].
  assert (Hne : forall e', e' ∈ es -> place permute (shd_type d) e' <> p).
  { intros e' Hin E. apply Hnin. rewrite <- E. by apply list_elem_of_fmap_2. }
  destruct (in_rangectx (shd_range d) p.1 p.2) eqn:Ein.
  - destruct (store_spec sorted p.1 p.2 (nz_val e) d Hwf) as (d1 & -> & Hwf1 & Hf1 & Hs1); [lia|lia| |].
    { intros Ht. apply Hnew; [destruct Ht; congruence|by left]. }
    pose proof Hf1 as (Fr & Fc & Ft & Fg). cbn [mbind outcome_bind]. rewrite <- Ft in Hnd.
    destruct (IH d1) as (d' & E & Hwf' & Hf' & Hs'); [done|by rewrite Ft|congruence|congruence|done| |].
    { intros Ht e' Hin. rewrite Ft in Ht |- *. rewrite Hs1. rewrite decide_False; [by apply Hnew; [|by right]|].
      intros [E1 E2]. apply (Hne e' Hin). rewrite (surjective_pairing p), (surjective_pairing (place _ _ e')). congruence. }
    exists d'. split_and!; [done|done|by eapply same_frame_trans|]. intros i j. rewrite Hs', Hs1, Ft, Fg, part_of_file_cons. fold p. rewrite Ein.
    destruct (decide ((i, j) = p)) as [<-|Hij].
    + rewrite lookup_insert_eq. destruct (part_of_file _ _ _ es !! (i, j)) as [v|] eqn:Epart; [|by rewrite decide_True].
      rewrite Ft in Hnd. apply part_of_file_Some in Epart as (e' & Hin & E' & _); [|done]. by destruct (Hne e' Hin).
    + rewrite lookup_insert_ne by done. destruct (_ !! (i, j)); [done|]. rewrite decide_False; [done|]. intros [-> ->]. by rewrite <- surjective_pairing in Hij.
  - cbn [mbind outcome_bind]. destruct (IH d) as (d' & E & Hwf' & Hf' & Hs'); [done..| |].
    { intros Ht e' Hin. apply Hnew; [done|by right]. }
    exists d'. split_and!; [done..|]. intros i j. rewrite Hs', part_of_file_cons. fold p. by rewrite Ein.
Qed.

(** A file read into a shard. *)
Lemma partialread_spec sorted permute files f d : files !! shd_fn d = Some f -> pf_rest f = 0 -> shard_wf sorted d ->
  range_sanity_check (pf_header f) (shd_range d) = Ret tt -> permute_ok (shd_type d) (shd_cols d) permute -> shd_cols d <= 2 ^ 64 ->
  fh_maxrow (pf_header f) = shd_rows d -> fh_maxcol (pf_header f) = shd_cols d -> Forall (entry_in (pf_header f)) (pf_entries f) ->
  NoDup (map (place permute (shd_type d)) (pf_entries f)) ->
  (shd_type d <> d2dmat -> forall i j, stored d i j = None) ->
  exists d', partialread_with sorted false permute files d = Ret d' /\ shard_wf sorted d' /\ same_frame d d' /\
    forall i j, stored d' i j = match part_of_file permute (shd_type d) (shd_range d) (pf_entries f) !! (i, j) with Some v => Some v | None => stored d i j end.
Proof.
  intros Ef Hr Hwf Hsan Hp H64 Hrows Hcols Hes Hnd Hnew. unfold partialread_with. rewrite Ef. cbn [checked mbind outcome_bind]. rewrite Hsan. cbn [mbind outcome_bind].
  pose proof (read_loop_spec (2 + length (pf_entries f)) (load_entry sorted false permute (pf_header f)) f PBFIO_ENTRY_TO_READ 0 d) as E.
  change (Z.of_nat 0 * sizeof_nzentry) with 0 in E. rewrite E by (done || lia). rewrite drop_0.
  apply load_entries_spec; try done; [by rewrite Hcols|by rewrite Hcols|]. intros Ht e _. by apply Hnew.
Qed.
End FILE.
