(* ===== verification/StradsLoad.v ===== *)
(** * STRADS: distributing the input

    How the coordinator divides a matrix over the machines
    ([_load_dshard_remote] and [_ending_dshardloading] in [strads/coordinator/
    coordinator.cpp]) and what a worker or scheduler does with the commands
    ([process_common_system_cmd] in [src/common.cpp]), with the order of the
    columns that all machines share ([make_model_permute] in [include/
    common.hpp], [util_permute_fixedorder] in [src/utility.cpp]) and the
    shards the functions of the application get ([bind_func_param] in [pi/
    sysparam.hpp]). *)
From S2P Require Import Prelude StradsFloat StradsPart StradsCmd StradsCorr StradsSched StradsShard.
From stdpp Require Import strings.
Open Scope Z_scope.

(** ** The order of the columns

    [rands i] is the [i]-th number [rand] returns after [srand(0x123412)]. *)

Definition util_permute_fixedorder (rands : Z -> Z) (vlist : list Z) : outcome (list Z) :=
  let length := Z.of_nat (length vlist) in
  _ ← CHECK (bool_decide (length < RAND_MAX));
  l ← random_shuffle rands 0 vlist;
  random_shuffle rands (length - 1) l.

(** It prints the first and the last five entries. *)
Definition make_model_permute (rands : Z -> Z) (modelsize : Z) : outcome (list Z) :=
  _ ← CHECK (bool_decide (modelsize <= RAND_MAX));
  l ← util_permute_fixedorder rands (seqZ 0 modelsize);
  _ ← foldM (fun _ i => vec_at l i) (seqZ 0 5 ++ seqZ (modelsize - 5) 5) 0;
  Ret l.

Section LOAD.
Context {F : Type} `{Float F}.

(** ** The coordinator *)

Definition IN_MEMORY_DS_STRING : string := "gen-model".

(** [userfn_entity]: an input of the application. *)
Record userfn_entity := mkuserfn { m_strfn : string; m_strtype : string; m_stralias : string; m_strpscheme : string; m_mtype : machtype }.

(** The machines of [prepare_machine] and their threads. *)
Record cluster := mkcluster {
  cl_workers : Z; cl_schedulers : Z; cl_thrds_per_worker : Z; cl_thrds_per_scheduler : Z; cl_thrds_per_coordinator : Z;
  cl_samples : Z (* [FLAGS_samples] *)
}.
Definition get_tosend_machinecnt (c : cluster) (mtype : machtype) : Z :=
  match mtype with m_worker => cl_workers c | m_scheduler => cl_schedulers c | m_coordinator => 1 end.
Definition get_totalthreads_formachtype (c : cluster) (mtype : machtype) : Z :=
  match mtype with
  | m_worker => cl_workers c * cl_thrds_per_worker c
  | m_scheduler => cl_schedulers c * cl_thrds_per_scheduler c
  | m_coordinator => 1 * cl_thrds_per_coordinator c
  end.

Definition type_of_string (s : string) : option matrix_type :=
  if bool_decide (s = "rmspt") then Some rmspt else if bool_decide (s = "rvspt") then Some rvspt
  else if bool_decide (s = "cmspt") then Some cmspt else if bool_decide (s = "cvspt") then Some cvspt
  else if bool_decide (s = "d2dmat") then Some d2dmat else None.

(** What the threads get of the rows or of the columns; only for a dense
    matrix is "NO" an answer. *)
Definition make_parts (type : matrix_type) (pscheme : string) (rows cols finepartitions : Z) : outcome (gmap Z range) :=
  if bool_decide (pscheme = "row") then dshard_make_finepartition rows finepartitions ∅
  else if bool_decide (pscheme = "col") then dshard_make_finepartition cols finepartitions ∅
  else if bool_decide (type = d2dmat) && bool_decide (pscheme = "NO") then Ret ∅
  else CheckFail.

(** The rows and the columns of machine [k]. *)
Definition machine_range (pscheme : string) (rows cols : Z) (finemap : gmap Z range) (k : Z) : outcome rangectx :=
  if bool_decide (pscheme = "row") then
    r ← at_part finemap k;
    let s := u64 (rg_start r) in let e := u64 (rg_end r) in
    Ret (mkrangectx s e (u64 (e - s + 1)) 0 (u64 (cols - 1)) (u64 (u64 (cols - 1) - 0 + 1)))
  else if bool_decide (pscheme = "col") then
    r ← at_part finemap k;
    let s := u64 (rg_start r) in let e := u64 (rg_end r) in
    Ret (mkrangectx 0 (u64 (rows - 1)) (u64 (u64 (rows - 1) - 0 + 1)) s e (u64 (e - s + 1)))
  else CheckFail.

(** The message for each machine. *)
Definition load_dshard_remote (c : cluster) (files : gmap string (pbfile F)) (fne : userfn_entity) : outcome (list mini_dshardctx) :=
  '(rows, cols) ← (if bool_decide (m_strfn fne <> IN_MEMORY_DS_STRING) then '(r, cl, _) ← iohandler_spmat_pbfio_read_size files (m_strfn fne); Ret (r, cl)
                   else Ret (cl_samples c, 1));
  type ← checked (type_of_string (m_strtype fne));
  let machines := get_tosend_machinecnt c (m_mtype fne) in
  tmap ← make_parts type (m_strpscheme fne) rows cols (get_totalthreads_formachtype c (m_mtype fne));
  finemap ← dshard_make_superpartition machines tmap ∅;
  _ ← CHECK (match m_mtype fne with m_coordinator => false | _ => true end);
  foldM (fun msgs k => r ← machine_range (m_strpscheme fne) rows cols finemap k;
           Ret (msgs ++ [mkmini rows cols type (m_strfn fne) r (m_stralias fne)])) (seqZ 0 machines) [].

(** ** A worker or scheduler *)

Record func_params := mkfunc_params { fp_alias : string; fp_dshard : option (shard F) }.
Record userfunc_entity := mkuserfunc { m_strfuncname : string; m_func_paramap : list func_params }.

Definition bind_func_param (alias : string) (d : shard F) (funcmap : list userfunc_entity) : list userfunc_entity :=
  map (fun ent => mkuserfunc (m_strfuncname ent)
         (map (fun fe => if bool_decide (fp_alias fe = alias) then mkfunc_params (fp_alias fe) (Some d) else fe) (m_func_paramap ent))) funcmap.

Record loader := mkloader {
  ld_mrole : mach_role; ld_rank : Z; ld_apply_permute_col : bool; ld_model_permute : list Z;
  ld_shardmap : gmap string (shard F); ld_funcmap : list userfunc_entity
}.

(** [std::map::insert] keeps a shard registered before. *)
Definition register_shard (d : shard F) (ctx : loader) : loader :=
  mkloader (ld_mrole ctx) (ld_rank ctx) (ld_apply_permute_col ctx) (ld_model_permute ctx)
    (match ld_shardmap ctx !! shd_alias d with Some _ => ld_shardmap ctx | None => <[shd_alias d := d]> (ld_shardmap ctx) end) (ld_funcmap ctx).
Definition with_funcmap (funcmap : list userfunc_entity) (ctx : loader) : loader :=
  mkloader (ld_mrole ctx) (ld_rank ctx) (ld_apply_permute_col ctx) (ld_model_permute ctx) (ld_shardmap ctx) funcmap.

Definition get_dshard_with_alias (alias : string) (ctx : loader) : option (shard F) := ld_shardmap ctx !! alias.

Inductive load_msg := DshardEnd (cmdid : Z) | Dshard (cmdid : Z) (mshard : mini_dshardctx).

(** The shard a command asks for. *)
Definition load_shard (files : gmap string (pbfile F)) (ctx : loader) (mshard : mini_dshardctx) : outcome (shard F) :=
  let d := shard_new mshard in
  let d1 := if bool_decide (shd_type d = d2dmat) then with_dmat (dense2dmat_resize (shd_rows d) (shd_cols d)) (cas_array_resize (shd_rows d)) d else d in
  if bool_decide (shd_fn d1 <> IN_MEMORY_DS_STRING) then
    if bool_decide (ld_mrole ctx = mrole_scheduler) && bool_decide (shd_alias d1 = "Acol") then
      _ ← CHECK (bool_decide (shd_type d1 = cvspt));
      iohandler_spmat_pbfio_partialread_sortedorder_ctx false (ld_apply_permute_col ctx) (ld_model_permute ctx) files d1
    else iohandler_spmat_pbfio_partialread_ctx false (ld_apply_permute_col ctx) (ld_model_permute ctx) files d1
  else atomic ← cas_array_zero_fill (shd_rows d1) (m_atomic d1); Ret (with_dmat (m_dmat d1) atomic d1).

(** The next state, the acknowledgement (command and rank) and whether the
    machine leaves the loop. *)
Definition process_common_system_cmd (files : gmap string (pbfile F)) (msg : load_msg) (ctx : loader) : outcome (loader * (Z * Z) * bool) :=
  match msg with
  | DshardEnd cmdid => Ret (ctx, (cmdid, ld_rank ctx), true)
  | Dshard cmdid mshard =>
      d ← load_shard files ctx mshard;
      let ctx1 := register_shard d ctx in
      Ret (with_funcmap (bind_func_param (shd_alias d) d (ld_funcmap ctx1)) ctx1, (cmdid, ld_rank ctx), false)
  end.

(** The first loop of [worker_mach] and [scheduler_mach] over the messages
    that have arrived: the acknowledgements and whether it has ended, the
    rest of the messages left. *)
Fixpoint load_loop (files : gmap string (pbfile F)) (msgs : list load_msg) (ctx : loader) : outcome (loader * list (Z * Z) * bool * list load_msg) :=
  match msgs with
  | [] => Ret (ctx, [], false, [])
  | msg :: msgs' =>
      '(ctx', ack, tflag) ← process_common_system_cmd files msg ctx;
      if (tflag : bool) then Ret (ctx', [ack], true, msgs')
      else '(ctx2, acks, ended, rest) ← load_loop files msgs' ctx'; Ret (ctx2, ack :: acks, ended, rest)
  end.
End LOAD.

Arguments func_params : clear implicits.
Arguments userfunc_entity : clear implicits.
Arguments loader : clear implicits.
