(* ===== verification/StradsLoadProps.v ===== *)
(** * STRADS: every entry of the input is on one machine

    The shards the machines load on the commands of the coordinator
    ([StradsLoad]) are a partition of the matrix in the file. *)
From S2P Require Import Prelude StradsFloat StradsPart StradsCmd StradsCorr StradsSched StradsShard StradsShardProps StradsLoad.
From stdpp Require Import strings.
Open Scope Z_scope.

(** ** The order of the columns *)

(** With at least five variables all machines number the columns by the same
    permutation, since they draw the same numbers. *)
Lemma make_model_permute_spec rands modelsize : (forall n, 0 <= rands n) -> 5 <= modelsize < RAND_MAX ->
  exists perm, make_model_permute rands modelsize = Ret perm /\ perm ≡ₚ seqZ 0 modelsize.
Proof.
  intros Hr Hm. unfold make_model_permute, util_permute_fixedorder. rewrite (bool_decide_true (modelsize <= _)) by lia. cbn [CHECK mbind outcome_bind].
  rewrite length_seqZ, Z2Nat.id by lia. rewrite (bool_decide_true (modelsize < _)) by lia. cbn [CHECK mbind outcome_bind].
  destruct (random_shuffle_spec rands 0 (seqZ 0 modelsize) Hr) as (l1 & -> & Hp1). cbn [mbind outcome_bind].
  destruct (random_shuffle_spec rands (modelsize - 1) l1 Hr) as (l2 & -> & Hp2). cbn [mbind outcome_bind].
  assert (Hl : Z.of_nat (length l2) = modelsize) by (rewrite Hp2, Hp1, length_seqZ; lia).
  assert (Hprint : forall idx acc, Forall (fun i => 0 <= i < modelsize) idx -> exists r, foldM (fun _ i => vec_at l2 i) idx acc = Ret r).
  { intros idx. induction idx as [|i idx IH]; intros acc His; [by exists acc|]. apply Forall_cons in His as [Hi His]. cbn [foldM].
    destruct (vec_at_bounds l2 modelsize i Hl Hi) as (x & ->). cbn [mbind outcome_bind]. by apply IH. }
  destruct (Hprint (seqZ 0 5 ++ seqZ (modelsize - 5) 5) 0) as (r & E).
  { apply Forall_app. split; apply Forall_forall; intros i Hi%elem_of_seqZ; lia. }
  rewrite E. cbn [mbind outcome_bind]. exists l2. split; [done|]. by rewrite Hp2.
Qed.

Lemma make_model_permute_perm rands modelsize perm : (forall n, 0 <= rands n) -> make_model_permute rands modelsize = Ret perm -> perm ≡ₚ seqZ 0 modelsize.
Proof.
  intros Hr E. unfold make_model_permute, util_permute_fixedorder in E. apply bind_Ret_inv in E as (u & _ & E). apply bind_Ret_inv in E as (l & E1 & E).
  apply bind_Ret_inv in E as (r & _ & [= <-]). apply bind_Ret_inv in E1 as (u' & _ & E1). apply bind_Ret_inv in E1 as (l1 & E2 & E1).
  destruct (random_shuffle_spec rands 0 (seqZ 0 modelsize) Hr) as (l1' & E2' & Hp1). rewrite E2 in E2'. injection E2' as <-.
  destruct (random_shuffle_spec rands (Z.of_nat (length (seqZ 0 modelsize)) - 1) l1 Hr) as (l2 & E3 & Hp2). rewrite E1 in E3. injection E3 as <-. by rewrite Hp2.
Qed.

Section LOAD.
Context {F : Type} `{Float F}.

(** ** Ranges of machines *)

Section RANGES.
Context (machines thr rows cols : Z) (Hmach : 0 < machines) (Hthr : 0 < thr) (Hmt : machines * thr < 2 ^ 31)
  (Hrows : 0 < rows < 2 ^ 63) (Hcols : 0 < cols < 2 ^ 63).
Let parts : Z := machines * thr.

(** The number of rows or columns that are divided. *)
Definition divided (pscheme : string) : Z := if bool_decide (pscheme = "row") then rows else cols.
Definition bound (pscheme : string) (k : Z) : Z := part_start (divided pscheme) parts (k * thr).
(** The range of machine [k]. *)
Definition range_of (pscheme : string) (k : Z) : rangectx :=
  let s := bound pscheme k in let e := bound pscheme (k + 1) - 1 in
  if bool_decide (pscheme = "row") then mkrangectx s e (u64 (e - s + 1)) 0 (cols - 1) (u64 (cols - 1 - 0 + 1))
  else mkrangectx 0 (rows - 1) (u64 (rows - 1 - 0 + 1)) s e (u64 (e - s + 1)).

Lemma divided_bounds pscheme : 0 < divided pscheme < 2 ^ 63.
Proof. unfold divided. by case_bool_decide. Qed.

Lemma part_start_pos m i : 0 < m -> 0 < i -> 0 < part_start m parts i.
Proof.
  intros Hm Hi. assert (Hp : 0 < parts) by (unfold parts; nia). unfold part_start. pose proof (Z.div_mod m parts ltac:(lia)). pose proof (Z.mod_pos_bound m parts Hp).
  pose proof (Z.div_pos m parts ltac:(lia) Hp). nia.
Qed.

Lemma bound_bounds pscheme k : 0 <= k < machines -> 0 <= bound pscheme k /\ 0 < bound pscheme (k + 1) <= divided pscheme /\ bound pscheme k <= bound pscheme (k + 1).
Proof.
  intros Hk. pose proof (divided_bounds pscheme) as Hd. assert (Hp : 0 < parts) by (unfold parts; nia). unfold bound.
  pose proof (part_start_mono (divided pscheme) parts ltac:(lia) Hp 0 (k * thr) ltac:(nia)). rewrite part_start_0 in * by done.
  pose proof (part_start_mono (divided pscheme) parts ltac:(lia) Hp ((k + 1) * thr) parts ltac:(unfold parts; nia)). rewrite part_start_all in * by done.
  pose proof (part_start_pos (divided pscheme) ((k + 1) * thr) ltac:(lia) ltac:(nia)).
  pose proof (part_start_mono (divided pscheme) parts ltac:(lia) Hp (k * thr) ((k + 1) * thr) ltac:(nia)). lia.
Qed.

Lemma in_range_of pscheme k i j : 0 <= k < machines -> 0 <= i < rows -> 0 <= j < cols ->
  in_rangectx (range_of pscheme k) i j = true <->
  bound pscheme k <= (if bool_decide (pscheme = "row") then i else j) < bound pscheme (k + 1).
Proof.
  intros Hk Hi Hj. unfold in_rangectx, range_of. cbv zeta. destruct (bool_decide (pscheme = "row")); cbn [r_start r_end c_start c_end];
    rewrite !andb_true_iff, !bool_decide_eq_true; lia.
Qed.

(** Every position is in the range of exactly one machine. *)
Lemma one_machine pscheme i j : 0 <= i < rows -> 0 <= j < cols ->
  exists k, 0 <= k < machines /\ in_rangectx (range_of pscheme k) i j = true /\
    forall k', 0 <= k' < machines -> in_rangectx (range_of pscheme k') i j = true -> k' = k.
Proof.
  intros Hi Hj. set (x := if bool_decide (pscheme = "row") then i else j). pose proof (divided_bounds pscheme) as Hd.
  assert (Hx : 0 <= x < divided pscheme) by (unfold x, divided; case_bool_decide; lia).
  destruct (machine_of (divided pscheme) parts ltac:(lia) ltac:(unfold parts; nia) thr machines x Hthr eq_refl Hx) as (k & Hk & Hin & Hu).
  exists k. split; [done|]. split; [by apply in_range_of|]. intros k' Hk' Hin'. apply in_range_of in Hin'; [|done..]. apply Hu; [lia|done].
Qed.

Lemma collect_map {A B} (g : Z -> outcome A) (g' : Z -> A) (h : A -> B) l acc : (forall k, k ∈ l -> g k = Ret (g' k)) ->
  foldM (fun msgs k => r ← g k; Ret (msgs ++ [h r])) l acc = Ret (acc ++ map (fun k => h (g' k)) l).
Proof.
  revert acc. induction l as [|k l IH]; intros acc Hg; [by rewrite app_nil_r|]. cbn [foldM map]. rewrite (Hg k) by (by left). cbn [mbind outcome_bind].
  rewrite IH by (intros k' Hk'; apply Hg; by right). by rewrite <- app_assoc.
Qed.

(** The messages of the coordinator. *)
Lemma load_dshard_remote_spec c files fne (f : pbfile F) type : files !! m_strfn fne = Some f -> m_strfn fne <> IN_MEMORY_DS_STRING ->
  fh_maxrow (pf_header f) = rows -> fh_maxcol (pf_header f) = cols -> type_of_string (m_strtype fne) = Some type ->
  m_strpscheme fne = "row" \/ m_strpscheme fne = "col" -> m_mtype fne <> m_coordinator ->
  get_tosend_machinecnt c (m_mtype fne) = machines -> get_totalthreads_formachtype c (m_mtype fne) = machines * thr ->
  load_dshard_remote c files fne =
    Ret (map (fun k => mkmini rows cols type (m_strfn fne) (range_of (m_strpscheme fne) k) (m_stralias fne)) (seqZ 0 machines)).
Proof.
  intros Ef Hfn Er Ec Et Hsch Hmt' Em Eth. unfold load_dshard_remote. rewrite bool_decide_true by done. unfold iohandler_spmat_pbfio_read_size. rewrite Ef.
  cbn [checked mbind outcome_bind]. rewrite Er, Ec, Et. cbn [checked mbind outcome_bind]. rewrite Em, Eth.
  pose proof (divided_bounds (m_strpscheme fne)) as Hd.
  destruct (dshard_partition_spec (divided (m_strpscheme fne)) machines thr ltac:(lia) Hmach Hthr Hmt) as (tmap & smap & _ & _ & _ & Efine & Esuper & Hsm).
  assert (Eparts : make_parts type (m_strpscheme fne) rows cols (machines * thr) = Ret tmap).
  { unfold make_parts, divided in *. destruct Hsch as [E|E]; rewrite E in *; exact Efine. }
  rewrite Eparts. cbn [mbind outcome_bind]. rewrite Esuper. cbn [mbind outcome_bind].
  assert (Hc : CHECK (match m_mtype fne with m_coordinator => false | _ => true end) = Ret tt) by (by destruct (m_mtype fne)).
  rewrite Hc. cbn [mbind outcome_bind]. rewrite (collect_map _ (range_of (m_strpscheme fne)) (fun r => mkmini rows cols type (m_strfn fne) r (m_stralias fne))); [done|].
  intros k Hk%elem_of_seqZ. destruct (bound_bounds (m_strpscheme fne) k ltac:(lia)) as (H1 & H2 & H3).
  unfold machine_range, at_part. rewrite Hsm, (bool_decide_true (0 <= k < machines)) by lia. cbn [deref mbind outcome_bind rg_start rg_end]. fold parts.
  change (part_start _ parts (k * thr)) with (bound (m_strpscheme fne) k). change (part_start _ parts ((k + 1) * thr)) with (bound (m_strpscheme fne) (k + 1)).
  change (2 ^ 63) with 9223372036854775808 in *. rewrite (u64_id (bound _ k)), (u64_id (bound _ (k + 1) - 1)), (u64_id (cols - 1)), (u64_id (rows - 1)) by int_lia. unfold range_of.
  destruct Hsch as [->| ->]; done.
Qed.
End RANGES.

(** ** The shard of a machine *)

(** The matrices of a new shard are empty. *)
Definition fresh_shard (mini : mini_dshardctx) : shard F :=
  let d := shard_new mini in
  if bool_decide (shd_type d = d2dmat) then with_dmat (dense2dmat_resize (shd_rows d) (shd_cols d)) (cas_array_resize (shd_rows d)) d else d.

Lemma vec_at_replicate {A} n (x y : A) i : vec_at (replicate n x) i = Ret y -> y = x.
Proof. by intros [_ [-> _]%lookup_replicate]%vec_at_Ret. Qed.

Lemma fresh_shard_spec sorted mini : 0 <= mi_rows mini -> 0 <= mi_cols mini -> mi_type mini <> rvdt -> (mi_type mini = d2dmat -> mi_cols mini = 1) ->
  shard_wf sorted (fresh_shard mini) /\
  forall i j v, stored (fresh_shard mini) i j = Some v -> mi_type mini = d2dmat /\ v = f_zero.
Proof.
  intros Hr Hc Ht Hd. assert (Hl : forall A n (x : A), 0 <= n -> Z.of_nat (length (replicate (Z.to_nat n) x)) = n) by (intros; rewrite length_replicate; lia).
  assert (Hempty : forall A (get : A -> Z -> option F) n x i k v, (forall k, get x k = None) ->
    (outcome_to_option (vec_at (replicate n x) i) ≫= fun y => get y k) <> Some v).
  { intros A get n x i k v Hx. destruct (vec_at (replicate n x) i) as [y| |] eqn:E; [|done..]. apply vec_at_replicate in E as ->. cbn. by rewrite Hx. }
  assert (Hsp : forall k, spmat_map (spmat_vector_new : spmat_vector F) !! k = None) by done.
  unfold fresh_shard. cbv zeta. change (shd_type (shard_new mini)) with (mi_type mini).
  destruct (decide (mi_type mini = d2dmat)) as [E|E]; [rewrite bool_decide_true by done|rewrite bool_decide_false by done].
  - unfold shard_wf, stored. cbn [shard_new with_dmat shd_type shd_rows shd_cols m_dmat m_atomic dense2dmat_resize dm_mem]. rewrite E. split.
    + split_and!; [by apply Hd|by apply Hl|]. rewrite (Hd E). unfold cas_array_resize. by rewrite fmap_replicate.
    + intros i j v Hs. split; [done|]. destruct (vec_at (replicate _ (replicate _ _)) i) as [y| |] eqn:Ey; [|done..]. apply vec_at_replicate in Ey as ->.
      cbn [outcome_to_option mbind option_bind] in Hs. destruct (vec_at _ j) as [y| |] eqn:Ey; [|done..]. apply vec_at_replicate in Ey as ->. by injection Hs.
  - unfold shard_wf, stored. cbn [shard_new shd_type shd_rows shd_cols m_rm_mat m_cm_mat m_rm_vmat m_cm_vmat row_spmat_new rs_rows col_spmat_new cs_cols
      row_vspmat_new rv_rows col_vspmat_new vm_cols vm_size_m]. destruct (mi_type mini); [| | | |done|done].
    + split; [by apply Hl|]. intros i j v Hs. exfalso. by eapply (Hempty (gmap Z F) (fun r k => r !! k)) in Hs.
    + split; [by apply Hl|]. intros i j v Hs. exfalso. by eapply (Hempty (gmap Z F) (fun r k => r !! k)) in Hs.
    + split; [|intros i j v Hs; exfalso; by eapply (Hempty _ (fun r k => spmat_map r !! k)) in Hs]. split_and!; [done|by apply Hl|].
      apply Forall_replicate. destruct sorted; [split; [done|constructor]|done].
    + split; [|intros i j v Hs; exfalso; by eapply (Hempty _ (fun r k => spmat_map r !! k)) in Hs]. split; [by apply Hl|]. by apply Forall_replicate.
Qed.

(** Whether a machine sorts the columns of a shard. *)
Definition sorts (ctx : loader F) (alias : string) : Prop := ld_mrole ctx = mrole_scheduler /\ alias = "Acol".
#[export] Instance sorts_dec ctx alias : Decision (sorts ctx alias).
Proof. unfold sorts. apply _. Defined.

Definition permute_of (ctx : loader F) : option (list Z) := if ld_apply_permute_col ctx then Some (ld_model_permute ctx) else None.

Lemma load_shard_spec files ctx mini f : files !! mi_fn mini = Some f -> mi_fn mini <> IN_MEMORY_DS_STRING -> pf_rest f = 0 ->
  0 <= mi_rows mini -> 0 <= mi_cols mini <= 2 ^ 64 -> mi_type mini <> rvdt -> (mi_type mini = d2dmat -> mi_cols mini = 1) ->
  (sorts ctx (mi_alias mini) -> mi_type mini = cvspt) ->
  range_sanity_check (pf_header f) (mi_range mini) = Ret tt -> permute_ok (mi_type mini) (mi_cols mini) (permute_of ctx) ->
  fh_maxrow (pf_header f) = mi_rows mini -> fh_maxcol (pf_header f) = mi_cols mini -> Forall (entry_in (pf_header f)) (pf_entries f) ->
  NoDup (map (place (permute_of ctx) (mi_type mini)) (pf_entries f)) ->
  exists d, load_shard files ctx mini = Ret d /\ shd_range d = mi_range mini /\ shd_type d = mi_type mini /\
    (sorts ctx (mi_alias mini) -> col_vspmat_ok (m_cm_vmat d)) /\
    (forall i j v, part_of_file (permute_of ctx) (mi_type mini) (mi_range mini) (pf_entries f) !! (i, j) = Some v -> stored d i j = Some v) /\
    (forall i j v, stored d i j = Some v ->
       part_of_file (permute_of ctx) (mi_type mini) (mi_range mini) (pf_entries f) !! (i, j) = Some v \/ mi_type mini = d2dmat /\ v = f_zero).
Proof.
  intros Ef Hfn Hrest Hr Hc Ht Hd Hsort Hsan Hp Hrows Hcols Hes Hnd. set (sorted := bool_decide (sorts ctx (mi_alias mini))).
  destruct (fresh_shard_spec sorted mini Hr ltac:(lia) Ht Hd) as [Hwf Hnew].
  assert (Hframe : shd_fn (fresh_shard mini) = mi_fn mini /\ shd_type (fresh_shard mini) = mi_type mini /\ shd_range (fresh_shard mini) = mi_range mini /\
    shd_rows (fresh_shard mini) = mi_rows mini /\ shd_cols (fresh_shard mini) = mi_cols mini /\ shd_alias (fresh_shard mini) = mi_alias mini).
  { unfold fresh_shard. cbv zeta. destruct (bool_decide (_ = d2dmat)); done. }
  destruct Hframe as (Xf & Xt & Xr & Xn & Xm & Xa).
  destruct (partialread_spec sorted (permute_of ctx) files f (fresh_shard mini)) as (d & E & Hwf' & (_ & Fm & Ft & Fr) & Hs); rewrite ?Xf, ?Xt, ?Xr, ?Xn, ?Xm; try done; [lia| |].
  { intros Hnd2 i j. destruct (stored (fresh_shard mini) i j) as [v|] eqn:Es; [|done]. apply Hnew in Es as [Es _]. done. }
  rewrite Xt, Xr in *. rewrite Xm in Fm. exists d. split_and!; [|done|done| | |].
  - unfold load_shard. cbv zeta. fold (fresh_shard mini). rewrite Xf, Xa, Xt. rewrite (bool_decide_true (mi_fn mini <> _)) by done.
    unfold iohandler_spmat_pbfio_partialread_sortedorder_ctx, iohandler_spmat_pbfio_partialread_ctx. fold (permute_of ctx). rewrite <- bool_decide_and.
    change (bool_decide (ld_mrole ctx = mrole_scheduler /\ mi_alias mini = "Acol")) with sorted. unfold sorted in *.
    case_bool_decide as Hso; [|done]. rewrite bool_decide_true by (by apply Hsort). cbn [CHECK mbind outcome_bind]. done.
  - intros Hso. unfold shard_wf in Hwf'. rewrite Ft, (Hsort Hso) in Hwf'. unfold sorted in Hwf'. rewrite bool_decide_true in Hwf' by done.
    destruct Hwf' as (H1 & H2 & H3). split; [congruence|done].
  - intros i j v Hv. by rewrite Hs, Hv.
  - intros i j v Hv. rewrite Hs in Hv. destruct (_ !! (i, j)) as [v'|] eqn:Ep; [injection Hv as ->; by left|]. right. by eapply Hnew.
Qed.

(** ** The machines together *)

Lemma list_of_choice {A} (P : nat -> A -> Prop) n : (forall k, (k < n)%nat -> exists a, P k a) ->
  exists l, length l = n /\ forall k a, l !! k = Some a -> P k a.
Proof.
  induction n as [|n IH]; intros Hp; [by exists []|]. destruct IH as (l & Hl & Hk); [intros k Hk; apply Hp; lia|]. destruct (Hp n ltac:(lia)) as (a & Ha).
  exists (l ++ [a]). split; [rewrite length_app; cbn; lia|]. intros k b [E|[Hle E]]%lookup_app_Some; [by apply Hk|].
  apply list_lookup_singleton_Some in E as [E <-]. by replace k with n by lia.
Qed.

(** C23: the machines that are told to load a file load it without a failure, and their shards are a partition of its matrix:
    every entry is, under the renaming of the columns that all machines share, in the shard of exactly one machine, and a shard
    holds nothing else; the columns of a scheduler's shard "Acol" are sorted. *)
Theorem shards_partition_the_matrix c files fne (f : pbfile F) machines thr type rands modelsize perm flag (ctxs : list (loader F)) :
  let rows := fh_maxrow (pf_header f) in let cols := fh_maxcol (pf_header f) in
  files !! m_strfn fne = Some f -> m_strfn fne <> IN_MEMORY_DS_STRING -> pf_rest f = 0 ->
  type_of_string (m_strtype fne) = Some type -> (type = d2dmat -> cols = 1) ->
  m_strpscheme fne = "row" \/ m_strpscheme fne = "col" -> m_mtype fne <> m_coordinator ->
  get_tosend_machinecnt c (m_mtype fne) = machines -> get_totalthreads_formachtype c (m_mtype fne) = machines * thr ->
  0 < machines -> 0 < thr -> machines * thr < 2 ^ 31 -> 0 < rows < 2 ^ 63 -> 0 < cols < 2 ^ 63 ->
  fh_row_s (pf_header f) = 0 -> rows - 1 <= fh_row_end (pf_header f) -> fh_col_s (pf_header f) = 0 ->
  Forall (entry_in (pf_header f)) (pf_entries f) -> NoDup (map (fun e => (nz_row e, nz_col e)) (pf_entries f)) ->
  (forall n, 0 <= rands n) -> make_model_permute rands modelsize = Ret perm -> (type <> d2dmat -> flag = true -> modelsize = cols) ->
  Z.of_nat (length ctxs) = machines ->
  Forall (fun ctx => ld_apply_permute_col ctx = flag /\ ld_model_permute ctx = perm /\ (sorts ctx (m_stralias fne) -> type = cvspt)) ctxs ->
  let permute := if flag then Some perm else None in
  exists minis shards, load_dshard_remote c files fne = Ret minis /\ length minis = length ctxs /\ length shards = length ctxs /\
    (forall k ctx mini d, ctxs !! k = Some ctx -> minis !! k = Some mini -> shards !! k = Some d ->
       load_shard files ctx mini = Ret d /\ (sorts ctx (m_stralias fne) -> col_vspmat_ok (m_cm_vmat d))) /\
    (forall e, e ∈ pf_entries f -> let p := place permute type e in
       exists k d, shards !! k = Some d /\ stored d p.1 p.2 = Some (nz_val e) /\
         forall k' d', shards !! k' = Some d' -> k' <> k -> in_rangectx (shd_range d') p.1 p.2 = false) /\
    (forall k d i j v, shards !! k = Some d -> stored d i j = Some v ->
       (exists e, e ∈ pf_entries f /\ place permute type e = (i, j) /\ nz_val e = v /\ in_rangectx (shd_range d) i j = true) \/
       type = d2dmat /\ v = f_zero).
Proof.
  intros rows cols Ef Hfn Hrest Et Hd Hsch Hmt Em Eth Hmach Hthr Hlt Hrows Hcols Hrs Hre Hcs Hes Hnd Hrand Eperm Hflag Hlen Hctxs permute.
  pose proof (make_model_permute_perm rands modelsize perm Hrand Eperm) as Hperm.
  assert (Hok : permute_ok type cols permute).
  { unfold permute. destruct flag; [|done]. cbn. destruct (decide (type = d2dmat)); [by left|right]. by rewrite <- Hflag. }
  assert (Hplace : forall e, e ∈ pf_entries f -> entry_position false permute type e = Ret (place permute type e) /\ 0 <= (place permute type e).2 < cols).
  { intros e He. apply (entry_position_place _ _ _ (pf_header f)); [done|done|lia|]. rewrite Forall_forall in Hes. by apply Hes. }
  assert (Hndp : NoDup (map (place permute type) (pf_entries f))).
  { clear -Hes Hnd Hok. subst cols. induction Hes as [|e es He Hes IH]; [constructor|]. cbn [map] in *. apply NoDup_cons in Hnd as [Hnin Hnd]. constructor; [|by apply IH].
    intros (e' & Ee & Hin)%list_elem_of_fmap. rewrite Forall_forall in Hes. destruct (place_inj permute type (pf_header f) e e' Hok He (Hes _ Hin) Ee) as [E1 E2].
    apply Hnin. rewrite E1, E2. by apply (list_elem_of_fmap_2 (fun e => (nz_row e, nz_col e))). }
  set (range k := range_of machines thr rows cols (m_strpscheme fne) k).
  set (mini k := mkmini rows cols type (m_strfn fne) (range k) (m_stralias fne)).
  assert (Hload : forall k, (k < length ctxs)%nat -> exists d, forall ctx, ctxs !! k = Some ctx -> load_shard files ctx (mini (Z.of_nat k)) = Ret d /\
    shd_range d = range (Z.of_nat k) /\ (sorts ctx (m_stralias fne) -> col_vspmat_ok (m_cm_vmat d)) /\
    (forall i j v, part_of_file permute type (range (Z.of_nat k)) (pf_entries f) !! (i, j) = Some v -> stored d i j = Some v) /\
    (forall i j v, stored d i j = Some v -> part_of_file permute type (range (Z.of_nat k)) (pf_entries f) !! (i, j) = Some v \/ type = d2dmat /\ v = f_zero)).
  { intros k Hk. destruct (lookup_lt_is_Some_2 ctxs k Hk) as (ctx & Ectx). pose proof (Forall_lookup_1 _ _ _ _ Hctxs Ectx) as (Xf & Xp & Xs).
    assert (Hpo : permute_of ctx = permute) by (unfold permute_of, permute; by rewrite Xf, Xp).
    destruct (bound_bounds machines thr rows cols Hmach Hthr Hlt Hrows Hcols (m_strpscheme fne) (Z.of_nat k) ltac:(lia)) as (B1 & B2 & B3).
    destruct (load_shard_spec files ctx (mini (Z.of_nat k)) f) as (d & E & Er & _ & Hso & H1 & H2); cbn [mini mi_fn mi_rows mi_cols mi_type mi_alias mi_range]; rewrite ?Hpo; try done; [lia|lia|..].
    - intros ->. unfold type_of_string in Et. repeat case_bool_decide; done.
    - unfold range_sanity_check, range, range_of. cbv zeta. unfold divided in B2. rewrite Hrs, Hcs. unfold CHECK.
      destruct (bool_decide (m_strpscheme fne = "row")); cbn [r_start r_end c_start]; rewrite !bool_decide_true by lia; done.
    - cbn [mini mi_alias mi_type mi_range] in *. rewrite Hpo in H1, H2. exists d. intros ctx' E'. rewrite Ectx in E'. injection E' as <-. split_and!; done. }
  destruct (list_of_choice _ _ Hload) as (shards & Hsl & Hsh). exists (map mini (seqZ 0 machines)), shards. split_and!.
  - by apply (load_dshard_remote_spec machines thr rows cols Hmach Hthr Hlt Hrows Hcols c files fne f type).
  - rewrite length_map, length_seqZ. lia.
  - done.
  - intros k ctx m d Ectx Emini Ed. rewrite list_lookup_fmap in Emini. apply fmap_Some in Emini as (x & [-> Hx]%lookup_seqZ & ->).
    destruct (Hsh k d Ed ctx Ectx) as (E & _ & Hso & _). rewrite Z.add_0_l. done.
  - intros e He p. destruct (Hplace e He) as [_ Hp2]. pose proof (proj1 (Forall_forall _ _) Hes e He) as [Hp1 _]. fold p in Hp2.
    destruct (one_machine machines thr rows cols Hmach Hthr Hrows Hcols (m_strpscheme fne) p.1 p.2) as (k & Hk & Hin & Hu); [exact Hp1|exact Hp2|].
    fold (range k) in Hin. destruct (lookup_lt_is_Some_2 shards (Z.to_nat k)) as (d & Ed); [lia|].
    destruct (lookup_lt_is_Some_2 ctxs (Z.to_nat k)) as (ctx & Ectx); [lia|]. destruct (Hsh _ _ Ed ctx Ectx) as (_ & Er & _ & Hst & _).
    rewrite Z2Nat.id in Hst by lia. exists (Z.to_nat k), d. split_and!; [done| |].
    + apply Hst. rewrite <- surjective_pairing. apply part_of_file_Some; [done|]. by exists e.
    + intros k' d' Ed' Hne. destruct (lookup_lt_is_Some_2 ctxs k') as (ctx' & Ectx'); [rewrite <- Hsl; by eapply lookup_lt_Some|].
      destruct (Hsh _ _ Ed' ctx' Ectx') as (_ & -> & _). destruct (in_rangectx (range (Z.of_nat k')) p.1 p.2) eqn:Ein; [|done]. exfalso. apply Hne.
      rewrite <- (Hu (Z.of_nat k')); [by rewrite Nat2Z.id|pose proof (lookup_lt_Some _ _ _ Ed'); lia|done].
  - intros k d i j v Ed Hv. destruct (lookup_lt_is_Some_2 ctxs k) as (ctx & Ectx); [rewrite <- Hsl; by eapply lookup_lt_Some|].
    destruct (Hsh _ _ Ed ctx Ectx) as (_ & -> & _ & _ & Hst). apply Hst in Hv as [Hv|Hv]; [left|by right].
    apply part_of_file_Some in Hv as (e & He & Epl & Ev & Hin); [|done]. by exists e.
Qed.
End LOAD.

(** Two schedulers with three and two of five columns; the file has rows 2
    and 0 of column 0, which all machines call column 3. *)
Lemma shards_partition_the_matrix_witness :
  let f := mkpbfile (mkpbfheader 3 5 0 2 0 4 4) [mknzentry 2 0 7; mknzentry 0 0 5; mknzentry 1 4 6; mknzentry 0 3 9] 0 in
  let files := ({["A" := f]} : gmap string (pbfile Z)) in let c := mkcluster 1 2 1 2 1 0 in
  exists perm minis shards, make_model_permute (fun _ => 0) 5 = Ret perm /\
    load_dshard_remote c files (mkuserfn "A" "cvspt" "Acol" "col" m_scheduler) = Ret minis /\
    length shards = 2%nat /\ exists k d, shards !! k = Some d /\ stored d 2 (default 0 (perm !! 0%nat)) = Some 7.
Proof.
  intros f files c. set (perm := match make_model_permute (fun _ => 0) 5 with Ret p => p | _ => [] end).
  assert (Ep : make_model_permute (fun _ => 0) 5 = Ret perm) by (vm_compute; reflexivity). set (fne := mkuserfn "A" "cvspt" "Acol" "col" m_scheduler).
  destruct (shards_partition_the_matrix c files fne f 2 2 cvspt (fun _ => 0) 5 perm true
    [mkloader mrole_scheduler 1 true perm ∅ []; mkloader mrole_scheduler 2 true perm ∅ []]) as (minis & shards & E & _ & Hl & _ & Hin & _).
  - reflexivity.
  - discriminate.
  - reflexivity.
  - reflexivity.
  - discriminate.
  - right. reflexivity.
  - discriminate.
  - reflexivity.
  - reflexivity.
  - lia.
  - lia.
  - lia.
  - cbn. lia.
  - cbn. lia.
  - reflexivity.
  - cbn. lia.
  - reflexivity.
  - repeat constructor; cbn; lia.
  - apply (bool_decide_eq_true _). vm_compute. reflexivity.
  - intros n. lia.
  - exact Ep.
  - reflexivity.
  - reflexivity.
  - repeat constructor.
  - exists perm, minis, shards. split; [exact Ep|]. split; [exact E|]. split; [exact Hl|].
    destruct (Hin (mknzentry 2 0 7) ltac:(by left)) as (k & d & Ed & Hs & _). exists k, d. split; [exact Ed|]. exact Hs.
Defined.
