(* ===== verification/StradsLoading.v ===== *)
(** * STRADS: the loading of the inputs ends

    [coordinator_mach] ([strads/coordinator/coordinator.cpp]) sends the
    commands of all inputs and two that end the loading, then takes
    acknowledgements until no command is left; the machines work off the
    messages in their order ([StradsLoad]).  The acknowledgements of different
    machines arrive in any order. *)
From S2P Require Import Prelude StradsFloat StradsPart StradsCmd StradsCorr StradsSched StradsShard StradsLoad.
From stdpp Require Import strings.
Open Scope Z_scope.

#[global] Instance machtype_eq_dec : EqDecision machtype.
Proof. solve_decision. Defined.

Section LOADING.
Context {F : Type} `{Float F}.

(** A command with the message for each machine of its type. *)
Record command := mkcommand { cm_id : Z; cm_mtype : machtype; cm_msgs : list load_msg }.

(** [_load_dshard_coordinator_local]; [uninit] is the range the constructor
    leaves uninitialised. *)
Definition load_dshard_coordinator_local (uninit : rangectx) (modelsize : Z) (fne : userfn_entity) (ctx : loader F) : outcome (loader F) :=
  _ ← CHECK (bool_decide (m_strfn fne = IN_MEMORY_DS_STRING));
  _ ← CHECK (bool_decide (modelsize > 0));
  _ ← CHECK (bool_decide (m_strtype fne = "d2dmat"));
  let d := with_dmat (dense2dmat_resize 1 modelsize) [] (shard_new (mkmini 1 modelsize d2dmat (m_strfn fne) uninit (m_stralias fne))) in
  Ret (with_funcmap (bind_func_param (shd_alias d) d (ld_funcmap ctx)) (register_shard d ctx)).

(** The coordinator: its commands so far and its own shards. *)
Record loading := mkloading { lg_cmdmgt : ppacketmgt; lg_commands : list command; lg_ctx : loader F }.

Definition load_input (c : cluster) (files : gmap string (pbfile F)) (uninit : rangectx) (modelsize : Z) (s : loading) (fne : userfn_entity) : outcome loading :=
  match m_mtype fne with
  | m_coordinator => ctx ← load_dshard_coordinator_local uninit modelsize fne (lg_ctx s); Ret (mkloading (lg_cmdmgt s) (lg_commands s) ctx)
  | mtype =>
      minis ← load_dshard_remote c files fne;
      '(cmdid, p) ← send_command mtype (lg_cmdmgt s);
      Ret (mkloading p (lg_commands s ++ [mkcommand cmdid mtype (map (Dshard cmdid) minis)]) (lg_ctx s))
  end.

Definition end_command (c : cluster) (mtype : machtype) (s : loading) : outcome loading :=
  '(cmdid, p) ← send_command mtype (lg_cmdmgt s);
  Ret (mkloading p (lg_commands s ++ [mkcommand cmdid mtype (replicate (Z.to_nat (get_tosend_machinecnt c mtype)) (DshardEnd cmdid))]) (lg_ctx s)).
Definition ending_dshardloading (c : cluster) (s : loading) : outcome loading := s1 ← end_command c m_worker s; end_command c m_scheduler s1.

Definition load_inputs (c : cluster) (files : gmap string (pbfile F)) (uninit : rangectx) (modelsize : Z) (fnmap : list userfn_entity) (s : loading) : outcome loading :=
  s1 ← foldM (load_input c files uninit modelsize) fnmap s; ending_dshardloading c s1.

(** What arrives at machine [k] of a type. *)
Definition inbox (mtype : machtype) (k : nat) (cmds : list command) : list load_msg :=
  omap (fun cm => if bool_decide (cm_mtype cm = mtype) then cm_msgs cm !! k else None) cmds.

(** The loop of the coordinator over the acknowledgements. *)
Definition take_acks (acks : list (Z * Z)) (p : ppacketmgt) : outcome ppacketmgt :=
  foldM (fun p a => '(_, p') ← take_ack a.1 a.2 p; Ret p') acks p.

(** ** A machine *)

Definition ids_of (mtype : machtype) (cmds : list command) : list Z := map cm_id (filter (fun cm => cm_mtype cm = mtype) cmds).

(** Loading a shard depends on the role and the order of the columns only. *)
Lemma load_shard_ctx files (ctx ctx' : loader F) mini : ld_mrole ctx' = ld_mrole ctx -> ld_apply_permute_col ctx' = ld_apply_permute_col ctx ->
  ld_model_permute ctx' = ld_model_permute ctx -> load_shard files ctx' mini = load_shard files ctx mini.
Proof. intros E1 E2 E3. unfold load_shard. by rewrite E1, E2, E3. Qed.

Lemma load_loop_spec files mtype k cmds last (ctx : loader F) : Forall (fun cm => cm_mtype cm = mtype -> exists mini d, cm_msgs cm !! k = Some (Dshard (cm_id cm) mini) /\ load_shard files ctx mini = Ret d) cmds ->
  exists ctx', load_loop files (inbox mtype k cmds ++ [DshardEnd last]) ctx =
    Ret (ctx', map (fun id => (id, ld_rank ctx)) (ids_of mtype cmds ++ [last]), true, []).
Proof.
  revert ctx. induction cmds as [|cm cmds IH]; intros ctx Hf; [by exists ctx|]. apply Forall_cons in Hf as [Hcm Hf]. unfold inbox, ids_of in *. cbn [omap list_omap]. rewrite filter_cons.
  destruct (decide (cm_mtype cm = mtype)) as [E|E]; [rewrite bool_decide_true by done|rewrite bool_decide_false by done; by apply IH].
  destruct (Hcm E) as (mini & d & -> & Ed). cbn [app map load_loop process_common_system_cmd]. rewrite Ed. cbn [mbind outcome_bind].
  set (ctx1 := with_funcmap _ _). destruct (IH ctx1) as (ctx' & E').
  { eapply Forall_impl; [exact Hf|]. intros cm' Hc Et. destruct (Hc Et) as (mini' & d' & H1 & H2). exists mini', d'. split; [done|]. rewrite <- H2. by apply load_shard_ctx. }
  exists ctx'. rewrite E'. done.
Qed.

(** ** The commands sent *)

(** Commands as [StradsCmd] records them. *)
Definition sent_to (p : ppacketmgt) (cm : command) : list Z := ranks_of (cmd_receivers (cm_mtype cm) p).

Record sent_ok (c : cluster) (p0 : ppacketmgt) (sent : gmap Z (list Z)) (s : loading) : Prop := {
  sn_inv : cmd_inv sent ∅ (lg_cmdmgt s);
  sn_receivers : forall mtype, cmd_receivers mtype (lg_cmdmgt s) = cmd_receivers mtype p0;
  sn_sent : forall id rs, sent !! id = Some rs <-> exists cm, cm ∈ lg_commands s /\ cm_id cm = id /\ sent_to p0 cm = rs;
  sn_ids : NoDup (map cm_id (lg_commands s));
  sn_types : Forall (fun cm => cm_mtype cm <> m_coordinator) (lg_commands s)
}.

Lemma send_receivers mtype p id p' : send_command mtype p = Ret (id, p') -> forall mt, cmd_receivers mt p' = cmd_receivers mt p.
Proof.
  intros E mt. unfold send_command, get_cmdclock, push_cmdq in E. apply bind_Ret_inv in E as (p2 & E & [= _ <-]).
  destruct (cmd_receivers mtype _) as [base n]. do 2 (apply bind_Ret_inv in E as (? & _ & E)). apply bind_Ret_inv in E as (ms & _ & [= <-]). by destruct mt.
Qed.

Lemma send_id mtype p id p' : send_command mtype p = Ret (id, p') -> id = pm_cmdclock p.
Proof. intros E. unfold send_command, get_cmdclock in E. apply bind_Ret_inv in E as (p2 & _ & [= <- _]). done. Qed.

Lemma sent_ok_send c p0 sent s mtype id p' msgs ctx : sent_ok c p0 sent s -> mtype <> m_coordinator -> send_command mtype (lg_cmdmgt s) = Ret (id, p') ->
  exists sent', sent_ok c p0 sent' (mkloading p' (lg_commands s ++ [mkcommand id mtype msgs]) ctx).
Proof.
  intros [Hi Hr Hs Hnd Ht] Hm E. pose proof (cmd_inv_send _ _ _ _ _ _ Hi E) as Hi'. pose proof (send_id _ _ _ _ E) as Hid.
  assert (Hnew : forall cm, cm ∈ lg_commands s -> cm_id cm <> id).
  { intros cm Hin Heq. pose proof (proj2 (Hs (cm_id cm) (sent_to p0 cm)) ltac:(by exists cm)) as Hc. apply (ci_clock _ _ _ Hi) in Hc. lia. }
  eexists. constructor; cbn [lg_cmdmgt lg_commands]; [exact Hi'| | | |].
  - intros mt. rewrite (send_receivers _ _ _ _ E). apply Hr.
  - intros id' rs. rewrite lookup_insert_Some, Hs, Hr. split.
    + intros [[<- <-]|[Hne (cm & Hin & <- & <-)]]; [exists (mkcommand id mtype msgs)|exists cm]; (split; [apply elem_of_app|done]); [right; by left|by left].
    + intros (cm & [Hin| ->%list_elem_of_singleton]%elem_of_app & <- & <-); [right; split; [intros Heq; by apply (Hnew cm)|by exists cm]|by left].
  - rewrite map_app. apply NoDup_app. split_and!; [done| |by apply NoDup_singleton]. intros x (cm & -> & Hin)%list_elem_of_fmap Hx. cbn in Hx.
    apply list_elem_of_singleton in Hx. by apply (Hnew cm Hin).
  - apply Forall_app. split; [done|by constructor].
Qed.

(** The commands of the inputs hold a message for every machine. *)
Definition loads_ok (c : cluster) (cmds : list command) : Prop :=
  Forall (fun cm => exists minis, cm_msgs cm = map (Dshard (cm_id cm)) minis /\ length minis = Z.to_nat (get_tosend_machinecnt c (cm_mtype cm))) cmds.

Lemma load_dshard_remote_length c (files : gmap string (pbfile F)) fne minis : load_dshard_remote c files fne = Ret minis ->
  length minis = Z.to_nat (get_tosend_machinecnt c (m_mtype fne)).
Proof.
  intros E. unfold load_dshard_remote in E. apply bind_Ret_inv in E as ([rows cols] & _ & E). do 4 (apply bind_Ret_inv in E as (? & _ & E)).
  rewrite <- (length_seqZ 0). revert E. generalize (seqZ 0 (get_tosend_machinecnt c (m_mtype fne))). intros l.
  assert (Hl : forall acc, foldM (fun msgs k => r ← machine_range (m_strpscheme fne) rows cols x1 k; Ret (msgs ++ [mkmini rows cols x (m_strfn fne) r (m_stralias fne)])) l acc = Ret minis ->
    length minis = (length acc + length l)%nat).
  { induction l as [|k l IH]; intros acc E; [injection E as <-; cbn; lia|]. cbn [foldM] in E. apply bind_Ret_inv in E as (m1 & E1 & E).
    apply bind_Ret_inv in E1 as (r & _ & [= <-]). apply IH in E. rewrite E, length_app. cbn [length]. lia. }
  intros E. by apply Hl in E.
Qed.

Lemma load_inputs_sent c files uninit modelsize fnmap s s' p0 sent :
  sent_ok c p0 sent s -> loads_ok c (lg_commands s) -> foldM (load_input c files uninit modelsize) fnmap s = Ret s' ->
  exists sent', sent_ok c p0 sent' s' /\ loads_ok c (lg_commands s').
Proof.
  revert s sent. induction fnmap as [|fne fnmap IH]; intros s sent Hs Hl E; [injection E as <-; by exists sent|].
  cbn [foldM] in E. apply bind_Ret_inv in E as (s1 & E1 & E). unfold load_input in E1.
  assert (Hremote : forall mtype, m_mtype fne = mtype -> mtype <> m_coordinator -> (minis ← load_dshard_remote c files fne; '(cmdid, p) ← send_command mtype (lg_cmdmgt s);
    Ret (mkloading p (lg_commands s ++ [mkcommand cmdid mtype (map (Dshard cmdid) minis)]) (lg_ctx s))) = Ret s1 -> exists sent', sent_ok c p0 sent' s' /\ loads_ok c (lg_commands s')).
  { intros mtype Emt Hm E2. apply bind_Ret_inv in E2 as (minis & Em & E2). apply bind_Ret_inv in E2 as ([id p] & Ep & [= <-]).
    destruct (sent_ok_send c p0 sent s mtype id p (map (Dshard id) minis) (lg_ctx s) Hs Hm Ep) as (sent1 & Hs1). apply (IH _ sent1 Hs1); [|done].
    apply Forall_app. split; [done|]. constructor; [|done]. exists minis. split; [done|]. cbn. rewrite <- Emt. by eapply load_dshard_remote_length. }
  destruct (m_mtype fne) eqn:Et; [|by eapply (Hremote m_scheduler)|by eapply (Hremote m_worker)].
  apply bind_Ret_inv in E1 as (ctx & _ & [= <-]). apply (IH (mkloading (lg_cmdmgt s) (lg_commands s) ctx) sent); [|done|done]. destruct Hs. by constructor.
Qed.

(** ** Acknowledgements *)

Lemma take_acks_spec sent acks p order : cmd_inv sent acks p -> NoDup order -> (forall a, a ∈ order -> a ∉ acks /\ exists rs, sent !! a.1 = Some rs /\ a.2 ∈ rs) ->
  exists p', take_acks order p = Ret p' /\ cmd_inv sent (list_to_set order ∪ acks) p'.
Proof.
  revert acks p. induction order as [|[id src] order IH]; intros acks p Hi Hnd Hin.
  { exists p. split; [done|]. by rewrite list_to_set_nil, (left_id_L ∅ (∪)). }
  apply NoDup_cons in Hnd as [Hn Hnd]. destruct (Hin (id, src) ltac:(by left)) as (Hna & rs & Hrs & Hsrc). cbn in Hrs, Hsrc.
  destruct (take_ack_missing _ _ _ id rs src Hi Hrs) as (p1 & E & Hi1 & _); [by apply missing_elem|].
  destruct (IH _ p1 Hi1 Hnd) as (p' & E' & Hi').
  { intros a Ha. destruct (Hin a ltac:(by right)) as (Ha1 & Ha2). split; [|done]. intros [->%elem_of_singleton|?]%elem_of_union; done. }
  exists p'. split; [unfold take_acks in *; cbn [foldM fst snd]; rewrite E; cbn [mbind outcome_bind]; exact E'|].
  rewrite list_to_set_cons. by rewrite (assoc_L (∪)), (comm_L (∪) (list_to_set order)) in Hi'.
Qed.

Lemma send_positive mtype p id p' : send_command mtype p = Ret (id, p') -> 0 < (cmd_receivers mtype p).2.
Proof.
  intros E. unfold send_command, get_cmdclock, push_cmdq in E. apply bind_Ret_inv in E as (p2 & E & _).
  replace (cmd_receivers mtype (mkppacketmgt _ _ _ _ _ _ _ _)) with (cmd_receivers mtype p) in E by (by destruct mtype).
  destruct (cmd_receivers mtype p) as [base n]. apply bind_Ret_inv in E as (u1 & _ & E). apply bind_Ret_inv in E as (u2 & Hn%CHECK_Ret%bool_decide_eq_true & _). cbn. lia.
Qed.

(** All commands sent: those of the inputs, then the two that end the
    loading. *)
Lemma load_inputs_spec c files uninit modelsize fnmap s p0 ctx0 : let s0 := mkloading p0 [] ctx0 in cmd_inv ∅ ∅ p0 ->
  load_inputs c files uninit modelsize fnmap s0 = Ret s -> exists sent cmds idw ids,
    sent_ok c p0 sent s /\ loads_ok c cmds /\ 0 < (cmd_receivers m_worker p0).2 /\ 0 < (cmd_receivers m_scheduler p0).2 /\
    lg_commands s = cmds ++ [mkcommand idw m_worker (replicate (Z.to_nat (cl_workers c)) (DshardEnd idw));
                             mkcommand ids m_scheduler (replicate (Z.to_nat (cl_schedulers c)) (DshardEnd ids))].
Proof.
  intros s0 Hi E. unfold load_inputs, ending_dshardloading, end_command in E. apply bind_Ret_inv in E as (s1 & E1 & E).
  apply bind_Ret_inv in E as (s2 & E2 & E). apply bind_Ret_inv in E2 as ([idw pw] & Ew & [= <-]). cbn [lg_cmdmgt lg_commands lg_ctx] in E.
  apply bind_Ret_inv in E as ([ids ps] & Es & [= <-]).
  destruct (load_inputs_sent c files uninit modelsize fnmap s0 s1 p0 ∅) as (sent1 & Hs1 & Hl1); [|constructor|done|].
  { constructor; [done|done| |constructor|constructor]. intros id rs. rewrite lookup_empty. split; [done|]. by intros (cm & ?%elem_of_nil & _). }
  pose proof (send_positive _ _ _ _ Ew) as Hpw. rewrite (sn_receivers _ _ _ _ Hs1) in Hpw.
  destruct (sent_ok_send c p0 sent1 s1 m_worker idw pw (replicate (Z.to_nat (cl_workers c)) (DshardEnd idw)) (lg_ctx s1) Hs1 ltac:(done) Ew) as (sent2 & Hs2).
  pose proof (send_positive _ _ _ _ Es) as Hps. pose proof (sn_receivers _ _ _ _ Hs2) as Hr2. cbn [lg_cmdmgt] in Hr2. rewrite Hr2 in Hps.
  destruct (sent_ok_send c p0 sent2 _ m_scheduler ids ps (replicate (Z.to_nat (cl_schedulers c)) (DshardEnd ids)) (lg_ctx s1) Hs2 ltac:(done) Es) as (sent3 & Hs3).
  exists sent3, (lg_commands s1), idw, ids. cbn [lg_commands] in Hs3 |- *. rewrite <- app_assoc in *. split_and!; done.
Qed.

Lemma inbox_app mtype k cmds cmds' : inbox mtype k (cmds ++ cmds') = inbox mtype k cmds ++ inbox mtype k cmds'.
Proof. apply omap_app. Qed.
Lemma ids_of_app mtype cmds cmds' : ids_of mtype (cmds ++ cmds') = ids_of mtype cmds ++ ids_of mtype cmds'.
Proof. unfold ids_of. by rewrite filter_app, map_app. Qed.

Lemma inbox_elem mtype k cmds cm msg : cm ∈ cmds -> cm_mtype cm = mtype -> cm_msgs cm !! k = Some msg -> msg ∈ inbox mtype k cmds.
Proof. intros Hin Ht Hm. apply list_elem_of_omap. exists cm. split; [done|]. by rewrite bool_decide_true. Qed.

Lemma length_inbox mtype k cmds : Forall (fun cm => cm_mtype cm = mtype -> is_Some (cm_msgs cm !! k)) cmds ->
  length (inbox mtype k cmds) = length (ids_of mtype cmds).
Proof.
  unfold inbox, ids_of. induction 1 as [|cm cmds Hc _ IH]; [done|]. cbn [omap list_omap]. rewrite filter_cons.
  destruct (decide (cm_mtype cm = mtype)) as [E|E]; [rewrite bool_decide_true by done|by rewrite bool_decide_false by done].
  destruct (Hc E) as (msg & ->). cbn [length map]. by rewrite IH.
Qed.

Lemma ids_of_elem mtype cmds id : id ∈ ids_of mtype cmds <-> exists cm, cm ∈ cmds /\ cm_mtype cm = mtype /\ cm_id cm = id.
Proof.
  unfold ids_of. rewrite list_elem_of_fmap. setoid_rewrite list_elem_of_filter. split; [intros (cm & -> & Ht & Hin)|intros (cm & Hin & Ht & <-)]; by exists cm.
Qed.

Lemma receivers_count c a b mtype : mtype <> m_coordinator ->
  (cmd_receivers mtype (ppacketmgt_new a (cl_schedulers c) b (cl_workers c))).2 = get_tosend_machinecnt c mtype.
Proof. by destruct mtype. Qed.

(** C36: when the commands of the inputs have been sent and every machine can load its shards, every machine works off all its
    messages and leaves the loop with one acknowledgement for each; in whatever order these arrive at the coordinator it
    takes them without a failed check, and its loop ends with the last one and not before.  This is for runs in which
    [check_cmddone] still finds the entries it has just erased, which the code relies on and the language does not
    promise: the commands of which it has read an erased entry are those all machines have acknowledged. *)
Theorem loading_ends c files uninit modelsize fnmap s firstsched firstworker ctx0 (ctxs : machtype -> nat -> loader F) :
  let p0 := ppacketmgt_new firstsched (cl_schedulers c) firstworker (cl_workers c) in
  load_inputs c files uninit modelsize fnmap (mkloading p0 [] ctx0) = Ret s ->
  (forall mtype k, ld_rank (ctxs mtype k) = (cmd_receivers mtype p0).1 + Z.of_nat k) ->
  (forall mtype k id mini, Dshard id mini ∈ inbox mtype k (lg_commands s) -> exists d, load_shard files (ctxs mtype k) mini = Ret d) ->
  exists acks : machtype -> nat -> list (Z * Z),
    (forall mtype k, mtype <> m_coordinator -> Z.of_nat k < get_tosend_machinecnt c mtype ->
       exists ctx', load_loop files (inbox mtype k (lg_commands s)) (ctxs mtype k) = Ret (ctx', acks mtype k, true, []) /\
         length (acks mtype k) = length (inbox mtype k (lg_commands s))) /\
    forall order, NoDup order ->
      (forall a, a ∈ order <-> exists mtype k, mtype <> m_coordinator /\ Z.of_nat k < get_tosend_machinecnt c mtype /\ a ∈ acks mtype k) ->
      forall n, exists p, take_acks (take n order) (lg_cmdmgt s) = Ret p /\ shards_loaded p = bool_decide (length order <= n)%nat /\
        forall cm, cm ∈ lg_commands s -> cm_id cm ∈ pm_erased_reads p <-> forall src, src ∈ sent_to p0 cm -> (cm_id cm, src) ∈ take n order.
Proof.
  intros p0 E Hrank Hload. destruct (load_inputs_spec _ _ _ _ _ _ _ _ (cmd_inv_start _ _ _ _) E) as (sent & cmds & idw & ids & Hs & Hl & Hw & Hsc & Ecmds).
  fold p0 in Hs, Hw, Hsc. exists (fun mtype k => map (fun id => (id, ld_rank (ctxs mtype k))) (ids_of mtype (lg_commands s))). split.
  - intros mtype k Hm Hk.
    assert (Hmini : Forall (fun cm => cm_mtype cm = mtype -> exists mini d, cm_msgs cm !! k = Some (Dshard (cm_id cm) mini) /\ load_shard files (ctxs mtype k) mini = Ret d) cmds).
    { unfold loads_ok in Hl. rewrite Forall_forall in Hl |- *. intros cm Hin Et. destruct (Hl cm Hin) as (minis & Em & Hlen). rewrite Et in Hlen.
      destruct (lookup_lt_is_Some_2 minis k) as (mini & Emini); [lia|]. assert (El : cm_msgs cm !! k = Some (Dshard (cm_id cm) mini)) by (by rewrite Em, list_lookup_fmap, Emini).
      destruct (Hload mtype k (cm_id cm) mini) as (d & Ed); [|by exists mini, d]. eapply inbox_elem; [|exact Et|exact El]. rewrite Ecmds. apply elem_of_app. by left. }
    assert (Hend : exists last, inbox mtype k (lg_commands s) = inbox mtype k cmds ++ [DshardEnd last] /\ ids_of mtype (lg_commands s) = ids_of mtype cmds ++ [last]).
    { rewrite Ecmds, inbox_app, ids_of_app. unfold inbox at 2, ids_of at 2. cbn [omap list_omap cm_mtype cm_msgs].
      destruct mtype; [done| |]; cbn [get_tosend_machinecnt] in Hk.
      - exists ids. change (bool_decide (m_worker = m_scheduler)) with false. change (bool_decide (m_scheduler = m_scheduler)) with true. cbv iota.
        by rewrite lookup_replicate_2 by lia.
      - exists idw. change (bool_decide (m_worker = m_worker)) with true. change (bool_decide (m_scheduler = m_worker)) with false. cbv iota.
        by rewrite lookup_replicate_2 by lia. }
    destruct Hend as (last & -> & ->). destruct (load_loop_spec files mtype k cmds last (ctxs mtype k) Hmini) as (ctx' & El). exists ctx'. split; [exact El|].
    rewrite length_map, !length_app, length_inbox; [done|]. eapply Forall_impl; [exact Hmini|]. intros cm Hc Et. destruct (Hc Et) as (mini & d & -> & _). done.
  - intros order Hnd Hord n.
    assert (Hacks : forall a, a ∈ order <-> exists rs, sent !! a.1 = Some rs /\ a.2 ∈ rs).
    { intros [id src]. rewrite Hord. setoid_rewrite list_elem_of_fmap. cbn [fst snd]. split.
      - intros (mtype & k & Hm & Hk & (id' & [= -> ->] & Hin)). apply ids_of_elem in Hin as (cm & Hin & Et & <-). exists (sent_to p0 cm).
        split; [apply (sn_sent _ _ _ _ Hs); by exists cm|]. unfold sent_to, ranks_of. rewrite Et, elem_of_seqZ, Hrank. fold p0.
        pose proof (receivers_count c firstsched firstworker mtype Hm) as Hcnt. fold p0 in Hcnt. lia.
      - intros (rs & Hrs & Hin). apply (sn_sent _ _ _ _ Hs) in Hrs as (cm & Hcm & <- & <-). pose proof (proj1 (Forall_forall _ _) (sn_types _ _ _ _ Hs) cm Hcm) as Ht.
        unfold sent_to, ranks_of in Hin. apply elem_of_seqZ in Hin. pose proof (receivers_count c firstsched firstworker (cm_mtype cm) Ht) as Hcnt. fold p0 in Hcnt.
        exists (cm_mtype cm), (Z.to_nat (src - (cmd_receivers (cm_mtype cm) p0).1)). split; [done|]. split; [lia|]. exists (cm_id cm).
        split; [rewrite Hrank; fold p0; f_equal; lia|]. apply ids_of_elem. by exists cm. }
    destruct (take_acks_spec sent ∅ (lg_cmdmgt s) (take n order) (sn_inv _ _ _ _ Hs)) as (p & Ep & Hp).
    { eapply sublist_NoDup; [exact Hnd|apply sublist_take]. }
    { intros a Ha. split; [set_solver|]. apply Hacks. by eapply elem_of_sublist, sublist_take. }
    exists p. split; [exact Ep|]. split.
    2: { intros cm Hcm. assert (Ecm : sent !! cm_id cm = Some (sent_to p0 cm)) by (apply (sn_sent _ _ _ _ Hs); by exists cm). rewrite (ci_erased _ _ _ Hp). setoid_rewrite missing_none. split.
      - intros (rs & Hrs & Hall) src Hin. assert (rs = sent_to p0 cm) as -> by congruence. specialize (Hall src Hin). by rewrite union_empty_r_L, elem_of_list_to_set in Hall.
      - intros Hall. exists (sent_to p0 cm). split; [done|]. intros src Hin. rewrite union_empty_r_L, elem_of_list_to_set. by apply Hall. }
    apply eq_true_iff_eq. rewrite (shards_loaded_iff _ _ _ Hp), bool_decide_eq_true. split.
    + intros Hall. destruct (decide (length order <= n)%nat) as [|Hgt]; [done|exfalso]. destruct (lookup_lt_is_Some_2 order n) as (a & Ea); [lia|].
      pose proof (list_elem_of_lookup_2 _ _ _ Ea) as Hin. apply Hacks in Hin as (rs & Hrs & Hin). specialize (Hall _ _ _ Hrs Hin). rewrite <- surjective_pairing in Hall.
      rewrite union_empty_r_L, elem_of_list_to_set, elem_of_take in Hall. destruct Hall as (i & Ei & Hi). pose proof (NoDup_lookup _ _ _ _ Hnd Ea Ei). lia.
    + intros Hle id rs src Hrs Hin. rewrite take_ge by done. rewrite union_empty_r_L, elem_of_list_to_set. apply Hacks. by exists rs.
Qed.
End LOADING.

(** A file goes to two schedulers; with the ends of the loading the worker
    acknowledges once and the schedulers twice each. *)
Lemma loading_ends_witness :
  let f := mkpbfile (mkpbfheader 3 5 0 2 0 4 2) [mknzentry 2 0 7; mknzentry 1 4 6] 0 in let files := ({["A" := f]} : gmap string (pbfile Z)) in
  let c := mkcluster 1 2 1 2 1 0 in let fnmap := [mkuserfn "A" "cvspt" "Acol" "col" m_scheduler] in let ctx0 := mkloader mrole_coordinator 3 false [] ∅ [] in
  exists s p, load_inputs c files (mkrangectx 0 0 0 0 0 0) 5 fnmap (mkloading (ppacketmgt_new 1 2 0 1) [] ctx0) = Ret s /\
    take_acks [(1, 0); (0, 2); (2, 2); (0, 1); (2, 1)] (lg_cmdmgt s) = Ret p /\ shards_loaded p = true.
Proof.
  intros f files c fnmap ctx0.
  destruct (load_inputs c files (mkrangectx 0 0 0 0 0 0) 5 fnmap (mkloading (ppacketmgt_new 1 2 0 1) [] ctx0)) as [s| |] eqn:E; [|vm_compute in E; discriminate E..].
  set (ctxs := fun mtype (k : nat) => mkloader (match mtype with m_worker => mrole_worker | _ => mrole_scheduler end)
    ((cmd_receivers mtype (ppacketmgt_new 1 2 0 1)).1 + Z.of_nat k) false [] ∅ [] : loader Z).
  destruct (loading_ends c files (mkrangectx 0 0 0 0 0 0) 5 fnmap s 1 0 ctx0 ctxs) as (acks & Hloop & Hord).
  - exact E.
  - intros [| |] k; reflexivity.
  - vm_compute in E. injection E as <-. intros [| |] [|[|k]] id mini Hin;
      (match type of Hin with _ ∈ ?l => let l' := eval vm_compute in l in change (Dshard id mini ∈ l') in Hin end);
      rewrite ?elem_of_cons, ?elem_of_nil in Hin; repeat (destruct Hin as [Hin|Hin]); try contradiction; try discriminate Hin;
      injection Hin as -> ->; eexists; reflexivity.
  - assert (Hw : acks m_worker 0%nat = [(1, 0)]).
    { destruct (Hloop m_worker 0%nat ltac:(done) ltac:(done)) as (ctx' & El & _). vm_compute in E. injection E as <-. vm_compute in El. by injection El as _ <-. }
    assert (Hs1 : acks m_scheduler 0%nat = [(0, 1); (2, 1)]).
    { destruct (Hloop m_scheduler 0%nat ltac:(done) ltac:(done)) as (ctx' & El & _). vm_compute in E. injection E as <-. vm_compute in El. by injection El as _ <-. }
    assert (Hs2 : acks m_scheduler 1%nat = [(0, 2); (2, 2)]).
    { destruct (Hloop m_scheduler 1%nat ltac:(done) ltac:(done)) as (ctx' & El & _). vm_compute in E. injection E as <-. vm_compute in El. by injection El as _ <-. }
    clear E Hloop. destruct (Hord [(1, 0); (0, 2); (2, 2); (0, 1); (2, 1)]) with (n := 5%nat) as (p & Ep & Hp & _).
    + apply (bool_decide_eq_true _). vm_compute. reflexivity.
    + intros a. rewrite !elem_of_cons, elem_of_nil. split.
      * intros [->|[->|[->|[->|[->|[]]]]]]; [exists m_worker, 0%nat; rewrite Hw|exists m_scheduler, 1%nat; rewrite Hs2|exists m_scheduler, 1%nat; rewrite Hs2|
          exists m_scheduler, 0%nat; rewrite Hs1|exists m_scheduler, 0%nat; rewrite Hs1]; (split; [done|split; [done|rewrite !elem_of_cons; tauto]]).
      * intros (mtype & k & Hm & Hk & Hin). destruct mtype; [exfalso; apply Hm; reflexivity| |]; cbn in Hk.
        -- assert (Hk' : k = 0%nat \/ k = 1%nat) by lia. destruct Hk' as [->| ->]; [rewrite Hs1 in Hin|rewrite Hs2 in Hin]; rewrite !elem_of_cons, elem_of_nil in Hin; tauto.
        -- assert (k = 0%nat) as -> by lia. rewrite Hw in Hin. rewrite !elem_of_cons, elem_of_nil in Hin. tauto.
    + exists s, p. split; [reflexivity|]. split; [exact Ep|]. exact Hp.
Defined.
