(* ===== verification/StradsCas.v ===== *)
(** * STRADS: the array of atomic doubles

    [cas_array] ([strads/include/cas_array.hpp]): threads update the elements
    of an array by compare-and-swap in a loop.  The loops of any number of
    threads, interleaved at every access to memory, have the effect of the
    updates done one at a time, and together they always make progress. *)
From S2P Require Import Prelude StradsFloat.
Open Scope Z_scope.

Section CAS.
(** [F] are the bit patterns of doubles, which the swap compares. *)
Context {F : Type} `{Float F} `{!EqDecision F}.

Inductive cas_op := cas_put (idx : Z) (delta : F) | cas_add (idx : Z) (delta : F) | cas_mul (idx : Z) (fact : F) | cas_max (idx : Z) (delta : F).
Definition op_idx (op : cas_op) : Z := match op with cas_put i _ | cas_add i _ | cas_mul i _ | cas_max i _ => i end.

(** [newval]; [std::max] keeps its first argument unless it is less. *)
Definition newval (op : cas_op) (prev : F) : F :=
  match op with
  | cas_put _ delta => delta
  | cas_add _ delta => f_add prev delta
  | cas_mul _ fact => f_mul prev fact
  | cas_max _ delta => if f_ltb prev delta then delta else prev
  end.

(** [CAS]: whether it succeeds, and the array after it. *)
Definition CAS (idx : Z) (oldv newv : F) (arr : list F) : outcome (bool * list F) :=
  v ← vec_at arr idx;
  if decide (v = oldv) then arr' ← vec_set arr idx newv; Ret (true, arr') else Ret (false, arr).

(** A thread with the calls it makes; [Some prev] between the read and the
    swap of the first of them. *)
Record cas_thread := mkcas_thread { ct_calls : list cas_op; ct_prev : option F }.

(** One access of a thread to the array; the call it completes, if any. *)
Definition cas_turn (th : cas_thread) (arr : list F) : outcome (list F * cas_thread * option cas_op) :=
  match ct_calls th with
  | [] => Ret (arr, th, None)
  | op :: calls =>
      match ct_prev th with
      | None =>
          _ ← CHECK (bool_decide (op_idx op < Z.of_nat (length arr)));
          prev ← vec_at arr (op_idx op); Ret (arr, mkcas_thread (op :: calls) (Some prev), None)
      | Some prev =>
          '(ok, arr') ← CAS (op_idx op) prev (newval op prev) arr;
          Ret (if (ok : bool) then (arr', mkcas_thread calls None, Some op) else (arr', mkcas_thread (op :: calls) None, None))
      end
  end.

(** Interleavings, with the calls completed and the threads that made them in
    the order of their swaps. *)
Inductive cas_run : list F * list cas_thread -> list (nat * cas_op) -> nat -> list F * list cas_thread -> Prop :=
  | cas_stop s : cas_run s [] 0 s
  | cas_step arr ths arr' th th' done_ i tr n s' : ths !! i = Some th -> ct_calls th <> [] -> cas_turn th arr = Ret (arr', th', done_) ->
      cas_run (arr', <[i := th']> ths) tr n s' ->
      cas_run (arr, ths) (match done_ with Some op => (i, op) :: tr | None => tr end) (S n) s'.

(** ** The specification: a call takes effect at once *)
Definition apply_op (arr : list F) (op : cas_op) : list F :=
  match arr !! Z.to_nat (op_idx op) with Some v => <[Z.to_nat (op_idx op) := newval op v]> arr | None => arr end.

Definition calls_ok (n : nat) (th : cas_thread) : Prop := Forall (fun op => 0 <= op_idx op < Z.of_nat n) (ct_calls th).

Lemma length_apply_op arr op : length (apply_op arr op) = length arr.
Proof. unfold apply_op. destruct (_ !! _); [apply length_insert|done]. Qed.

(** What a turn does: a completed call, or nothing that others see. *)
Lemma cas_turn_spec th arr : calls_ok (length arr) th -> exists arr' th' done_, cas_turn th arr = Ret (arr', th', done_) /\ length arr' = length arr /\
  calls_ok (length arr) th' /\
  match done_ with
  | Some op => arr' = apply_op arr op /\ ct_calls th = op :: ct_calls th' /\ ct_prev th' = None
  | None => arr' = arr /\ ct_calls th' = ct_calls th
  end.
Proof.
  intros Hok. unfold cas_turn, calls_ok in *. destruct (ct_calls th) as [|op calls] eqn:Ec; [exists arr, th, None; by rewrite Ec|].
  apply Forall_cons in Hok as [Hop Hok]. destruct (lookup_lt_is_Some_2 arr (Z.to_nat (op_idx op))) as (v & Hv); [lia|].
  assert (Eat : vec_at arr (op_idx op) = Ret v) by (apply vec_at_Ret; split; [lia|done]). destruct (ct_prev th) as [prev|].
  - unfold CAS. rewrite Eat. cbn [mbind outcome_bind]. destruct (decide (v = prev)) as [->|Hne].
    + unfold vec_set. rewrite bool_decide_true by lia. cbn [mbind outcome_bind]. exists (<[Z.to_nat (op_idx op) := newval op prev]> arr), (mkcas_thread calls None), (Some op).
      rewrite length_insert. split_and!; [done..|unfold apply_op; by rewrite Hv|done|done].
    + cbn [mbind outcome_bind]. exists arr, (mkcas_thread (op :: calls) None), None. split_and!; [done..|by constructor|done|done].
  - rewrite bool_decide_true by lia. cbn [CHECK mbind outcome_bind]. rewrite Eat. cbn [mbind outcome_bind].
    exists arr, (mkcas_thread (op :: calls) (Some v)), None. split_and!; [done..|by constructor|done|done].
Qed.

(** The calls of thread [i] in a trace. *)
Definition calls_of (i : nat) (tr : list (nat * cas_op)) : list cas_op := omap (fun e => if decide (e.1 = i) then Some e.2 else None) tr.

(** A turn that completes no call leaves the thread nearer to one. *)
Definition distance (arr : list F) (th : cas_thread) : nat :=
  match ct_calls th, ct_prev th with
  | [], _ => 0
  | _, None => 1
  | op :: _, Some prev => if decide (arr !! Z.to_nat (op_idx op) = Some prev) then 0 else 2
  end.

Lemma distance_le arr th : (distance arr th <= 2)%nat.
Proof. unfold distance. destruct (ct_calls th), (ct_prev th); [lia..| |lia]. destruct (decide _); lia. Qed.

Lemma cas_turn_distance th arr arr' th' : calls_ok (length arr) th -> ct_calls th <> [] -> cas_turn th arr = Ret (arr', th', None) ->
  arr' = arr /\ distance arr th = S (distance arr th').
Proof.
  intros Hok Hne E. unfold cas_turn, calls_ok, distance in *. destruct (ct_calls th) as [|op calls]; [done|]. apply Forall_cons in Hok as [Hop _].
  destruct (ct_prev th) as [prev|].
  - unfold CAS in E. apply bind_Ret_inv in E as ([ok arr1] & Ec & E). apply bind_Ret_inv in Ec as (v & [_ Hv]%vec_at_Ret & Ec).
    destruct (decide (v = prev)) as [->|Hnp]; [apply bind_Ret_inv in Ec as (a & _ & [= <- <-]); done|]. injection Ec as <- <-. injection E as <- <-.
    split; [done|]. cbn. rewrite decide_False by congruence. done.
  - apply bind_Ret_inv in E as (u & _ & E). apply bind_Ret_inv in E as (v & [_ Hv]%vec_at_Ret & [= <- <-]). split; [done|]. cbn. by rewrite decide_True.
Qed.

Lemma sum_list_insert (l : list nat) i x y : l !! i = Some x -> (sum_list (<[i := y]> l) + x = sum_list l + y)%nat.
Proof.
  revert i. induction l as [|z l IH]; intros [|i] Hi; try done; [injection Hi as ->; cbn; lia|]. cbn in Hi. specialize (IH i Hi).
  change (sum_list (<[S i := y]> (z :: l))) with (z + sum_list (<[i := y]> l))%nat. change (sum_list (z :: l)) with (z + sum_list l)%nat. lia.
Qed.

(** Turns that complete no call only use up the threads' distances. *)
Lemma cas_run_progress s tr n s' : cas_run s tr n s' -> Forall (calls_ok (length s.1)) s.2 -> tr = [] -> (n <= sum_list (map (distance s.1) s.2))%nat.
Proof.
  induction 1 as [s|arr ths arr1 th th1 d i tr n s2 Eth Hne Et Hr IH]; intros Hok Htr; [lia|]. cbn [fst snd] in *.
  pose proof (Forall_lookup_1 _ _ _ _ Hok Eth) as Hth. destruct (cas_turn_spec th arr Hth) as (arr2 & th2 & d2 & E & Hl & Hok1 & _). rewrite Et in E.
  injection E as <- <- <-. destruct d as [op|]; [done|]. destruct (cas_turn_distance th arr arr1 th1 Hth Hne Et) as [-> Hd].
  assert (Hok2 : Forall (calls_ok (length arr)) (<[i := th1]> ths)) by by apply Forall_insert. specialize (IH Hok2 Htr).
  change (map (distance arr) (<[i := th1]> ths)) with (distance arr <$> <[i := th1]> ths) in IH. rewrite list_fmap_insert in IH.
  pose proof (sum_list_insert (distance arr <$> ths) i (distance arr th) (distance arr th1)) as Hsum. rewrite list_lookup_fmap, Eth in Hsum. specialize (Hsum eq_refl).
  change (map (distance arr) ths) with (distance arr <$> ths). lia.
Qed.

Lemma sum_distance_le arr ths : (sum_list (map (distance arr) ths) <= 2 * length ths)%nat.
Proof.
  induction ths as [|th ths IH]; [done|]. cbn [map length].
  change (sum_list (distance arr th :: map (distance arr) ths)) with (distance arr th + sum_list (map (distance arr) ths))%nat. pose proof (distance_le arr th). lia.
Qed.

(** C39: in every interleaving of threads that update the array, the array is what the completed calls make of it one at a time, in
    an order in which each thread's calls are in the order it makes them, and what is left of a thread's calls is not yet
    visible; no access is outside the array; and among any threads at most two turns each pass before some call is
    completed. *)
Theorem cas_updates_linearizable arr ths tr n arr' ths' : Forall (calls_ok (length arr)) ths ->
  cas_run (arr, ths) tr n (arr', ths') ->
  arr' = foldl apply_op arr (map snd tr) /\
  (forall i th, ths !! i = Some th -> exists th', ths' !! i = Some th' /\ ct_calls th = calls_of i tr ++ ct_calls th') /\
  (forall i th', ths' !! i = Some th' -> exists r, cas_turn th' arr' = Ret r) /\
  (forall tr2 n2 s2, cas_run (arr', ths') tr2 n2 s2 -> (2 * length ths < n2)%nat -> tr2 <> []).
Proof.
  intros Hok. remember (arr, ths) as s eqn:Es. remember (arr', ths') as s' eqn:Es'. intros Hrun. revert arr ths Es Hok.
  induction Hrun as [s|arr0 ths0 arr1 th th1 d i tr n s2 Eth Hne Et Hr IH]; intros arr ths Es Hok.
  - rewrite Es in Es'. injection Es' as -> ->. subst s. split_and!; [done|intros i th E; by exists th| |].
    + intros i th E. destruct (cas_turn_spec th arr') as (a & t & d & E' & _); [by eapply Forall_lookup_1|]. by eexists.
    + intros tr2 n2 s2 Hr Hn ->. pose proof (cas_run_progress _ _ _ _ Hr Hok eq_refl) as Hle. cbn [fst snd] in Hle. pose proof (sum_distance_le arr' ths'). lia.
  - injection Es as -> ->. pose proof (Forall_lookup_1 _ _ _ _ Hok Eth) as Hth. destruct (cas_turn_spec th arr Hth) as (arr2 & th2 & d2 & E & Hl & Hok1 & Hd).
    rewrite Et in E. injection E as <- <- <-.
    destruct (IH Es' arr1 (<[i := th1]> ths) eq_refl) as (Harr & Hcalls & Hturn & Hpr); [rewrite Hl; by apply Forall_insert|]. rewrite length_insert in Hpr.
    split_and!; [| |done|done].
    + destruct d as [op|]; [destruct Hd as [-> _]; exact Harr|destruct Hd as [-> _]; exact Harr].
    + intros j thj Ej. destruct (decide (j = i)) as [->|Hji].
      * rewrite Eth in Ej. injection Ej as <-. destruct (Hcalls i th1) as (th' & E' & Ec); [apply list_lookup_insert_eq; by eapply lookup_lt_Some|].
        exists th'. split; [done|]. destruct d as [op|]; [destruct Hd as (_ & -> & _)|destruct Hd as (_ & <-); done].
        unfold calls_of in *. cbn [omap list_omap]. rewrite decide_True by done. cbn [app]. by rewrite Ec.
      * destruct (Hcalls j thj) as (th' & E' & Ec); [by rewrite list_lookup_insert_ne|]. exists th'. split; [done|]. rewrite Ec.
        destruct d as [op|]; [|done]. unfold calls_of. cbn [omap list_omap fst]. by rewrite decide_False.
Qed.
End CAS.

Arguments cas_op : clear implicits.
Arguments cas_thread : clear implicits.

(** Both threads read 10; the second swaps first, the first fails and repeats
    its loop. *)
Lemma cas_updates_linearizable_witness :
  let th1 := mkcas_thread [cas_add 0 5] None in let th2 := mkcas_thread [cas_mul 0 3] None in
  exists arr, cas_run ([10], [th1; th2]) [(1%nat, cas_mul 0 3); (0%nat, cas_add 0 5)] 6 (arr, [mkcas_thread [] None; mkcas_thread [] None]) /\ arr = [35].
Proof.
  intros th1 th2.
  assert (Hrun : cas_run ([10], [th1; th2]) [(1%nat, cas_mul 0 3); (0%nat, cas_add 0 5)] 6 ([35], [mkcas_thread [] None; mkcas_thread [] None])).
  { eapply (cas_step _ _ _ _ _ None 0%nat); [reflexivity|done|vm_compute; reflexivity|]. eapply (cas_step _ _ _ _ _ None 1%nat); [reflexivity|done|vm_compute; reflexivity|].
    eapply (cas_step _ _ _ _ _ (Some (cas_mul 0 3)) 1%nat); [reflexivity|done|vm_compute; reflexivity|].
    eapply (cas_step _ _ _ _ _ None 0%nat); [reflexivity|done|vm_compute; reflexivity|]. eapply (cas_step _ _ _ _ _ None 0%nat); [reflexivity|done|vm_compute; reflexivity|].
    eapply (cas_step _ _ _ _ _ (Some (cas_add 0 5)) 0%nat); [reflexivity|done|vm_compute; reflexivity|]. apply cas_stop. }
  destruct (cas_updates_linearizable [10] [th1; th2] _ _ _ _ ltac:(repeat constructor; cbn; lia) Hrun) as (E & _).
  exists [35]. split; [exact Hrun|]. rewrite E. reflexivity.
Defined.
