(* ===== verification/StradsLasso.v ===== *)
(** * STRADS: the lasso application

    [lassofunc] ([strads/app/dlasso/vuserfuncs.hpp]): what the coordinator and
    the workers do with a phase, and the main loop of a worker
    ([worker_mach], [strads/worker/worker_atomic.cpp]).  The coordinator has
    the coefficients, a worker the rows of the input in its range and their
    residuals. *)
From S2P Require Import Prelude StradsFloat StradsCorr StradsSched StradsShard StradsCas.
From stdpp Require Import strings.
Open Scope Z_scope.

(** ** Messages

    The members of [usermsg_one] and [usermsg_two]
    ([strads/include/messageclass.hpp]) are lists of these. *)
Section MESSAGES.
Context {F : Type}.
Record task := mktask { t_idx : Z; t_value : F }.
Record status := mkstatus { s_idx : Z; s_value : F }.
Record result := mkresult { r_idx : Z; psum : F; sqpsum : F; diff : F }.

(** [sysmsg_one<uload<task>>]: a phase from a scheduler. *)
Record taskmsg := mktaskmsg { entrycnt : Z; sched_mid : Z; sched_thrdgid : Z; umember1 : list task }.
End MESSAGES.
Arguments task : clear implicits.
Arguments status : clear implicits.
Arguments result : clear implicits.
Arguments taskmsg : clear implicits.

(** Sizes on a 64-bit machine: [mbuffer], the classes of messages and their
    entries. *)
Definition sizeof_mbuffer : Z := 16 * 1024 - 8.
Definition usermsg_one_blen {A} (size_of : Z) (u : list A) : Z := 64 + Z.of_nat (length u) * size_of.
Definition usermsg_two_blen {A B} (size_a size_b : Z) (u : list A) (v : list B) : Z := 88 + Z.of_nat (length u) * size_a + Z.of_nat (length v) * size_b.
Definition sizeof_task : Z := 16.
Definition sizeof_result : Z := 32.

(** [uload::operator[]] *)
Definition uload_at {A} (l : list A) (i : Z) : outcome A := _ ← CHECK (bool_decide (i < Z.of_nat (length l))); vec_at l i.
Definition uload_set {A} (l : list A) (i : Z) (x : A) : outcome (list A) := _ ← CHECK (bool_decide (i < Z.of_nat (length l))); vec_set l i x.

Section LASSO.
Context {F : Type} `{Float F}.

(** The shards of a machine by alias; [findshard] asserts that there is
    one. *)
Definition findshard (alias : string) (shards : gmap string (shard F)) : outcome (shard F) := checked (shards !! alias).

(** [m_dmat.m_mem[0]] *)
Definition dmat_row0 (d : shard F) : outcome (list F) := vec_at (dm_mem (m_dmat d)) 0.
Definition set_dmat_row0 (row : list F) (d : shard F) : outcome (shard F) :=
  mem ← vec_set (dm_mem (m_dmat d)) 0 row; Ret (with_dmat (mkdense2dmat (dm_samples_n (m_dmat d)) (dm_cols_n (m_dmat d)) mem) (m_atomic d) d).

(** ** At a worker *)

(** The loop over a column: the range of the shard and the sums. *)
Definition work_entry (r : rangectx) (atomic : list F) (coeff : F) (s : F * F) (e : Z * F) : outcome (F * F) :=
  let '(tmprow, tmpval) := e in
  _ ← CHECK (negb (bool_decide (tmprow < r_start r)));
  _ ← CHECK (negb (bool_decide (tmprow > r_end r)));
  res ← vec_at atomic tmprow;
  Ret (f_add s.1 (f_add (f_mul (f_mul coeff tmpval) tmpval) (f_mul tmpval res)), f_add s.2 (f_mul tmpval tmpval)).

Definition column_of (d : shard F) (vid : Z) : outcome (list (Z * F)) :=
  ccol ← vm_col (u64 vid) (m_cm_vmat d); _ ← spmat_vector_size ccol; Ret (entries ccol).

(** [do_work]; [junk] is in the fields the worker leaves. *)
Definition do_work (junk : F) (tasks : list (task F)) (shards : gmap string (shard F)) : outcome (list (result F)) :=
  shardA ← findshard "Arowcol" shards;
  shardRes ← findshard "Yrow" shards;
  mapM (fun t =>
    ccol ← column_of shardA (t_idx t);
    '(thsum, xsq) ← foldM (work_entry (shd_range shardA) (m_atomic shardRes) (t_value t)) ccol (f_zero, f_zero);
    Ret (mkresult (t_idx t) thsum xsq junk)) tasks.

(** [cas_array::add] with nobody else there. *)
Definition atomic_add (idx : Z) (delta : F) (atomic : list F) : outcome (list F) :=
  _ ← CHECK (bool_decide (idx < Z.of_nat (length atomic)));
  v ← vec_at atomic idx; vec_set atomic idx (f_add v delta).

Definition update_column (delta : F) (ccol : list (Z * F)) (atomic : list F) : outcome (list F) :=
  foldM (fun a e => atomic_add e.1 (f_mul e.2 delta) a) ccol atomic.

Definition update_status (sts : list (status F)) (shards : gmap string (shard F)) : outcome (gmap string (shard F)) :=
  shardA ← findshard "Arowcol" shards;
  shardRes ← findshard "Yrow" shards;
  atomic ← foldM (fun a st => if f_eqb (s_value st) f_zero then Ret a else ccol ← column_of shardA (s_idx st); update_column (s_value st) ccol a)
    sts (m_atomic shardRes);
  Ret (<["Yrow" := with_dmat (m_dmat shardRes) atomic shardRes]> shards).

(** [do_obj_calc]: the sum of the squares over the range. *)
Definition do_obj_calc (shards : gmap string (shard F)) : outcome F :=
  resdshard ← findshard "Yrow" shards;
  let r := shd_range resdshard in
  foldM (fun s i => x ← vec_at (m_atomic resdshard) i; Ret (f_add s (f_mul x x))) (seqZ (r_start r) (r_end r + 1 - r_start r)) f_zero.

Inductive worker_msg := UserUpdate (tasks : list (task F)) (sts : list (status F)) | UserProgressCheck (junk : result F).

(** A turn of the loop of [worker_mach]: the reply and the shards. *)
Definition worker_turn (junk : F) (msg : worker_msg) (shards : gmap string (shard F)) : outcome (list (result F) * gmap string (shard F)) :=
  match msg with
  | UserProgressCheck j => pobjsum ← do_obj_calc shards; Ret ([mkresult (-1) (psum j) pobjsum (diff j)], shards)
  | UserUpdate tasks sts =>
      shards' ← update_status sts shards;
      resmsg ← do_work junk tasks shards';
      _ ← CHECK (bool_decide (usermsg_one_blen sizeof_result resmsg + 64 < sizeof_mbuffer));
      Ret (resmsg, shards')
  end.

(** ** At the coordinator *)

(** [dispatch_scheduling]: the message for the workers and the new
    [pretmsg]. *)
Definition dispatch_scheduling (tm : taskmsg F) (pretmsg : option (list (result F))) (shards : gmap string (shard F)) :
    outcome (list (task F) * list (status F) * list (result F)) :=
  shardcoeff ← findshard "coeffRow" shards;
  beta ← dmat_row0 shardcoeff;
  tasks ← mapM (fun i => t ← uload_at (umember1 tm) i; b ← vec_at beta (t_idx t); Ret (mktask (t_idx t) b)) (seqZ 0 (entrycnt tm));
  let sts := match pretmsg with None => [] | Some l => map (fun r => mkstatus (r_idx r) (diff r)) l end in
  ret ← mapM (fun i => t ← uload_at (umember1 tm) i; Ret (mkresult (t_idx t) f_zero f_zero f_zero)) (seqZ 0 (entrycnt tm));
  _ ← CHECK (bool_decide (usermsg_two_blen sizeof_task sizeof_task tasks sts + 64 < sizeof_mbuffer));
  Ret (tasks, sts, ret).

(** [do_msgcombiner] on the replies in the order of the workers. *)
Definition combine_reply (retmsg reply : list (result F)) : outcome (list (result F)) :=
  foldM (fun ret i =>
    a ← uload_at ret i; b ← uload_at reply i;
    _ ← CHECK (bool_decide (r_idx a = r_idx b));
    uload_set ret i (mkresult (r_idx a) (f_add (psum a) (psum b)) (f_add (sqpsum a) (sqpsum b)) (diff a))) (seqZ 0 (Z.of_nat (length reply))) retmsg.
Definition do_msgcombiner (replies : list (list (result F))) (retmsg : list (result F)) : outcome (list (result F)) := foldM combine_reply replies retmsg.

(** [_soft_threshold] *)
Definition soft_threshold (sum lambda : F) : F :=
  if f_leb f_zero sum then (if f_ltb lambda sum then f_sub sum lambda else f_zero)
  else (if f_ltb sum (f_sub f_zero lambda) then f_add sum lambda else f_zero).

(** [do_aggregate]: an entry of the message with [beta] and [betadiff]. *)
Definition aggregate_entry (lambda : F) (s : list (result F) * list F * list F) (i : Z) : outcome (list (result F) * list F * list F) :=
  let '(ret, beta, betadiff) := s in
  r ← uload_at ret i;
  let id := r_idx r in
  let tmp := soft_threshold (psum r) (f_div lambda (f_of_Z 2)) in
  let newcoeff := f_div tmp (sqpsum r) in
  b ← vec_at beta id;
  betadiff' ← vec_set betadiff id (f_sub b newcoeff);
  ret' ← uload_set ret i (mkresult id (psum r) (sqpsum r) (f_sub b newcoeff));
  beta' ← vec_set beta id newcoeff;
  Ret (ret', beta', betadiff').

Definition do_aggregate (lambda : F) (retmsg : list (result F)) (shards : gmap string (shard F)) : outcome (list (result F) * gmap string (shard F)) :=
  shardcoeff ← findshard "coeffRow" shards;
  beta ← dmat_row0 shardcoeff;
  shardcoeffdiff ← findshard "coeffdiff" shards;
  betadiff ← dmat_row0 shardcoeffdiff;
  '(ret, beta', betadiff') ← foldM (aggregate_entry lambda) (seqZ 0 (Z.of_nat (length retmsg))) (retmsg, beta, betadiff);
  d ← set_dmat_row0 beta' shardcoeff;
  dd ← set_dmat_row0 betadiff' shardcoeffdiff;
  Ret (ret, <["coeffdiff" := dd]> (<["coeffRow" := d]> shards)).

Definition update_weight (retmsg : list (result F)) (tm : taskmsg F) : outcome (taskmsg F) :=
  _ ← CHECK (bool_decide (length retmsg = length (umember1 tm)));
  _ ← CHECK (bool_decide (Z.of_nat (length retmsg) = entrycnt tm));
  u ← foldM (fun u i =>
        t ← uload_at u i; r ← uload_at retmsg i;
        _ ← CHECK (bool_decide (t_idx t = r_idx r));
        uload_set u i (mktask (t_idx t) (diff r))) (seqZ 0 (entrycnt tm)) (umember1 tm);
  Ret (mktaskmsg (entrycnt tm) (sched_mid tm) (sched_thrdgid tm) u).

(** ** A phase

    The coordinator sends the message to every worker and waits for all the
    replies; the workers are independent of each other, and one works off
    its messages in their order. *)
Record lasso := mklasso { ls_coord : gmap string (shard F); ls_pretmsg : option (list (result F)); ls_workers : list (gmap string (shard F)) }.

Definition phase (junk lambda : F) (tm : taskmsg F) (s : lasso) : outcome (lasso * taskmsg F) :=
  '(tasks, sts, ret) ← dispatch_scheduling tm (ls_pretmsg s) (ls_coord s);
  rs ← mapM (worker_turn junk (UserUpdate tasks sts)) (ls_workers s);
  ret1 ← do_msgcombiner (map fst rs) ret;
  '(ret2, coord) ← do_aggregate lambda ret1 (ls_coord s);
  tm' ← update_weight ret2 tm;
  Ret (mklasso coord (Some ret2) (map snd rs), tm').

(** Several phases and the messages they leave. *)
Definition phases (junk lambda : F) (tms : list (taskmsg F)) (s : lasso) : outcome (lasso * list (taskmsg F)) :=
  foldM (fun acc tm => '(s', tm') ← phase junk lambda tm acc.1; Ret (s', acc.2 ++ [tm'])) tms (s, []).

(** ** The objective *)

(** [get_object], [do_msgcombiner_obj] and [do_object_aggregate]: [objmsg]
    is what its memory holds; the value printed and the coefficients that are
    not zero. *)
Definition do_msgcombiner_obj (replies : list (list (result F))) (objmsg : F) : outcome F :=
  foldM (fun s reply => _ ← CHECK (bool_decide (length reply = 1%nat)); r ← uload_at reply 0; Ret (f_add s (sqpsum r))) replies objmsg.

Definition do_object_aggregate (lambda : F) (modelsize : Z) (sum : F) (shards : gmap string (shard F)) : outcome (F * Z) :=
  shardcoeff ← findshard "coeffRow" shards;
  beta ← dmat_row0 shardcoeff;
  '(betasum, nzcnt) ← foldM (fun s i => b ← vec_at beta i; Ret (f_add s.1 (f_abs b), if f_eqb b f_zero then s.2 else s.2 + 1)) (seqZ 0 modelsize) (f_zero, 0);
  let objvalue := f_add sum (f_mul lambda betasum) in
  _ ← CHECK (f_leb objvalue objvalue);
  Ret (f_div objvalue (f_of_Z 2), nzcnt).

Definition objective (lambda objmsg : F) (junk : result F) (modelsize : Z) (s : lasso) : outcome (F * Z) :=
  rs ← mapM (worker_turn objmsg (UserProgressCheck junk)) (ls_workers s);
  psum ← do_msgcombiner_obj (map fst rs) objmsg;
  do_object_aggregate lambda modelsize psum (ls_coord s).

(** ** For the schedulers

    [set_initial_priority], the weights of a restart. *)
Definition set_initial_priority (mpcnt : Z) (prioritylist : list F) (shards : gmap string (shard F)) : outcome (list F) :=
  coeffshard ← findshard "coeffRow" shards;
  beta ← dmat_row0 coeffshard;
  foldM (fun l mi => b ← vec_at beta mi; vec_set l mi b) (seqZ 0 mpcnt) prioritylist.

(** The application's [check_interference], which a scheduler thread calls
    after the first command. *)
Fixpoint user_conflict_loop (d : dshardctx F) (infthreshold : F) (size rvidxsize g : Z) (rvidx : list Z) : outcome bool :=
  match rvidx with
  | [] => Ret false
  | r :: rvidx' =>
      _ ← CHECK (bool_decide (rvidxsize < size));
      x ← vm_col g (ds_cm_vmat d); y ← vm_col r (ds_cm_vmat d);
      infdegree ← getcorr_pair_sparse_vmat x y (ds_rows d);
      if f_leb infthreshold infdegree then Ret true else user_conflict_loop d infthreshold size rvidxsize g rvidx'
  end.

Fixpoint user_check_loop (d : dshardctx F) (infthreshold : F) (size : Z) (samples rvidx : list Z) : outcome (list Z) :=
  match samples with
  | [] => Ret rvidx
  | g :: samples' =>
      conflict ← user_conflict_loop d infthreshold size (Z.of_nat (length rvidx)) g rvidx;
      let rvidx' := if (conflict : bool) then rvidx else rvidx ++ [g] in
      if bool_decide (Z.of_nat (length rvidx') >= size) then Ret rvidx' else user_check_loop d infthreshold size samples' rvidx'
  end.

Definition user_check_interference (samples : list Z) (d : dshardctx F) (w : wsamplerctx F) : outcome (list Z) :=
  _ ← CHECK (bool_decide (ds_type d = cvspt));
  match samples with
  | [] => Undef
  | g :: samples' => user_check_loop d (ws_infthreshold w) (Z.of_nat (length samples)) samples' [g]
  end.
End LASSO.

Arguments lasso : clear implicits.
Arguments worker_msg : clear implicits.
