(* ===== verification/StradsLassoProps.v ===== *)
(** * STRADS: the lasso application computes block coordinate descent

    The workers' residuals lag one phase behind the coefficients of the
    coordinator, and the messages of a phase bring what is missing: with exact
    arithmetic the phases compute what one machine with the whole input
    would. *)
From S2P Require Import Prelude StradsFloat StradsCorr StradsSched StradsShard StradsCas StradsLasso.
From stdpp Require Import strings.
Open Scope Z_scope.

Lemma vec_at_Some {A} (l : list A) i x : 0 <= i -> l !! Z.to_nat i = Some x -> vec_at l i = Ret x.
Proof. intros Hi Hx. by apply vec_at_Ret. Qed.

(** A loop that replaces the entries of a list one after the other. *)
Lemma foldM_update {A} (f : list A -> Z -> outcome (list A)) (l k : list A) n : n = Z.of_nat (length l) -> length k = length l ->
  (forall i l' x y, l' !! i = Some x -> l !! i = Some x -> k !! i = Some y -> length l' = length l -> f l' (Z.of_nat i) = Ret (<[i := y]> l')) ->
  foldM f (seqZ 0 n) l = Ret k.
Proof.
  intros -> Hlen Hf. destruct (foldM_seqZ_inv f (fun n l' => l' = take n k ++ drop n l) (length l) l) as (l' & E & Hl'); [done| |].
  - intros i l' Hi ->. destruct (lookup_lt_is_Some_2 l i Hi) as (x & Hx). destruct (lookup_lt_is_Some_2 k i ltac:(lia)) as (y & Hy).
    assert (Hti : length (take i k) = i) by (rewrite length_take; lia).
    assert (Hxi : (take i k ++ drop i l) !! i = Some x) by (rewrite lookup_app_r, Hti, Nat.sub_diag, lookup_drop, Nat.add_0_r by lia; done).
    exists (<[i := y]> (take i k ++ drop i l)). split; [apply (Hf i _ x y Hxi Hx Hy); rewrite length_app, Hti, length_drop; lia|].
    rewrite (take_S_r _ _ _ Hy), <- app_assoc. rewrite (drop_S l x i Hx). rewrite insert_app_r_alt, Hti, Nat.sub_diag by lia. done.
  - rewrite E, Hl'. rewrite <- Hlen at 1. by rewrite take_ge, drop_ge, app_nil_r by lia.
Qed.

Lemma uload_at_nat {A} (l : list A) i x : l !! i = Some x -> uload_at l (Z.of_nat i) = Ret x.
Proof. intros Hx. pose proof (lookup_lt_Some _ _ _ Hx). unfold uload_at. rewrite bool_decide_true by lia. by apply vec_at_nat. Qed.
Lemma uload_set_nat {A} (l : list A) i x : (i < length l)%nat -> uload_set l (Z.of_nat i) x = Ret (<[i := x]> l).
Proof. intros Hi. unfold uload_set. rewrite bool_decide_true by lia. by apply vec_set_nat. Qed.

Section SPEC.
Context {F : Type} `{Float F}.

(** ** Block coordinate descent on one machine

    The input by columns, each a list of rows and values. *)
Definition row_sum (col : list (Z * F)) (r : Z) : F := rsum (map snd (filter (fun e => e.1 = r) col)).

(** The columns of all workers' shards together. *)
Definition full_col (colss : list (list (list (Z * F)))) (j : nat) : list (Z * F) := concat (map (fun cols => default [] (cols !! j)) colss).

(** Row [r] of the product of the input and the coefficients. *)
Definition predict (colss : list (list (list (Z * F)))) (beta : list F) (r : Z) : F :=
  rsum (imap (fun j b => f_mul b (row_sum (full_col colss j) r)) beta).

(** The new coefficient [j] when all the others are kept; [res] is the
    residual. *)
Definition coordinate (lambda : F) (col : list (Z * F)) (b : F) (res : Z -> F) : F :=
  f_div (soft_threshold (rsum (map (fun e => f_add (f_mul (f_mul b e.2) e.2) (f_mul e.2 (res e.1))) col)) (f_div lambda (f_of_Z 2)))
        (rsum (map (fun e => f_mul e.2 e.2) col)).

Definition coef (beta : list F) (j : Z) : F := default f_zero (beta !! Z.to_nat j).

(** The coefficients [ids] are all computed from [beta]: the new coefficients
    and by how much each has changed. *)
Definition block_step (lambda : F) (colss : list (list (list (Z * F)))) (y : Z -> F) (beta : list F) (ids : list Z) : list F * list F :=
  foldl (fun s j =>
    let new := coordinate lambda (full_col colss (Z.to_nat j)) (coef beta j) (fun r => f_sub (y r) (predict colss beta r)) in
    (<[Z.to_nat j := new]> s.1, s.2 ++ [f_sub (coef s.1 j) new])) (beta, []) ids.

(** ** The states that represent coefficients *)

(** A worker with the columns [cols] of its rows and residuals [res]. *)
Record worker_ok (cols : list (list (Z * F))) (res : Z -> F) (lo hi : Z) (w : gmap string (shard F)) : Prop := {
  wo_shards : exists dA dY, w !! "Arowcol"%string = Some dA /\ w !! "Yrow"%string = Some dY /\
    map entries (vm_cols (m_cm_vmat dA)) = cols /\ Forall (fun v => length (sv_idx v) = length (sv_val v)) (vm_cols (m_cm_vmat dA)) /\
    r_start (shd_range dA) = lo /\ r_end (shd_range dA) = hi /\ r_start (shd_range dY) = lo /\ r_end (shd_range dY) = hi /\ 0 <= lo /\ hi < Z.of_nat (length (m_atomic dY)) /\
    (forall r, lo <= r <= hi -> m_atomic dY !! Z.to_nat r = Some (res r));
  wo_rows : Forall (Forall (fun e => lo <= e.1 <= hi)) cols
}.

(** What the coordinator has changed and the workers do not know yet. *)
Definition pending (pret : option (list (result F))) : list (Z * F) := match pret with None => [] | Some l => map (fun r => (r_idx r, diff r)) l end.
Definition pending_sum (colss : list (list (list (Z * F)))) (p : list (Z * F)) (r : Z) : F :=
  rsum (map (fun e => f_mul e.2 (row_sum (full_col colss (Z.to_nat e.1)) r)) p).

(** Rows [lo] to [hi] of the worker are in the columns of no other. *)
Definition disjoint_rows (colss : list (list (list (Z * F)))) (ranges : list (Z * Z)) : Prop :=
  forall k k' lo hi cols, ranges !! k = Some (lo, hi) -> colss !! k' = Some cols -> k <> k' -> Forall (Forall (fun e => ~ (lo <= e.1 <= hi))) cols.

Definition row0_is (row : list F) (o : option (shard F)) : Prop := exists d rows, o = Some d /\ dm_mem (m_dmat d) = row :: rows.

Record lasso_ok (colss : list (list (list (Z * F)))) (ranges : list (Z * Z)) (y : Z -> F) (beta : list F) (s : lasso F) : Prop := {
  lo_beta : row0_is beta (ls_coord s !! "coeffRow"%string);
  lo_betadiff : exists bd, length bd = length beta /\ row0_is bd (ls_coord s !! "coeffdiff"%string);
  lo_small : Z.of_nat (length beta) <= 2 ^ 31;
  lo_cols : Forall (fun cols => length cols = length beta) colss;
  lo_disjoint : disjoint_rows colss ranges;
  lo_pending : Forall (fun e => 0 <= e.1 < Z.of_nat (length beta)) (pending (ls_pretmsg s));
  lo_size : (length (pending (ls_pretmsg s)) <= 500)%nat;
  lo_lens : length ranges = length colss;
  lo_workers : Forall2 (fun cr w => worker_ok cr.1 (fun r => f_sub (f_sub (y r) (predict colss beta r)) (pending_sum colss (pending (ls_pretmsg s)) r))
      cr.2.1 cr.2.2 w) (zip colss ranges) (ls_workers s)
}.

(** A phase the schedulers may send. *)
Definition phase_ok (m : nat) (tm : taskmsg F) : Prop :=
  entrycnt tm = Z.of_nat (length (umember1 tm)) /\ (length (umember1 tm) <= 500)%nat /\ Forall (fun t => 0 <= t_idx t < Z.of_nat m) (umember1 tm).

Definition ids_of (tm : taskmsg F) : list Z := map t_idx (umember1 tm).
End SPEC.

Section EXACT.
Context {F : Type} `{EF : ExactFloat F}.
Add Ring F_ring_lasso : ef_ring.

(** ** Workers *)

Lemma row_sum_cons (e : Z * F) col r : row_sum (e :: col) r = f_add (if decide (e.1 = r) then e.2 else f_zero) (row_sum col r).
Proof. unfold row_sum. rewrite filter_cons. destruct (decide (e.1 = r)); cbn [map]; [apply rsum_cons|ring]. Qed.
Lemma row_sum_app (c1 c2 : list (Z * F)) r : row_sum (c1 ++ c2) r = f_add (row_sum c1 r) (row_sum c2 r).
Proof. unfold row_sum. by rewrite filter_app, map_app, rsum_app. Qed.
Lemma row_sum_none (col : list (Z * F)) r : Forall (fun e => e.1 <> r) col -> row_sum col r = f_zero.
Proof. induction 1 as [|e col He _ IH]; [done|]. rewrite row_sum_cons, IH. destruct (decide (e.1 = r)); [done|ring]. Qed.

(** Of the rows of one worker the other columns hold nothing. *)
Lemma row_sum_full (colss : list (list (list (Z * F)))) ranges k cols lo hi j r : disjoint_rows colss ranges ->
  colss !! k = Some cols -> ranges !! k = Some (lo, hi) -> lo <= r <= hi -> row_sum (full_col colss j) r = row_sum (default [] (cols !! j)) r.
Proof.
  intros Hd Hc Hr Hin. unfold full_col. rewrite <- (take_drop_middle colss k cols Hc) at 1. rewrite map_app, concat_app. cbn [map concat]. rewrite !row_sum_app.
  assert (Hz : forall l : list (list (list (Z * F))), (forall c, c ∈ l -> exists k', colss !! k' = Some c /\ k' <> k) ->
    row_sum (concat (map (fun cols => default [] (cols !! j)) l)) r = f_zero).
  { intros l Hl. apply row_sum_none, Forall_concat, Forall_map, Forall_forall. intros c Hcin. destruct (Hl c Hcin) as (k' & Hk' & Hne).
    pose proof (Hd k k' lo hi c Hr Hk' ltac:(done)) as Hc'. destruct (c !! j) as [col|] eqn:Ej; cbn; [|constructor].
    eapply Forall_impl; [exact (Forall_lookup_1 _ _ _ _ Hc' Ej)|]. cbn. intros e He Heq. subst r. tauto. }
  rewrite !Hz; [ring| |].
  - intros c (i & Hi)%list_elem_of_lookup. exists (S k + i)%nat. rewrite <- lookup_drop. split; [done|lia].
  - intros c (i & Hi)%list_elem_of_lookup. exists i. apply lookup_take_Some in Hi as [Hi Hlt]. split; [done|lia].
Qed.

Lemma work_entries_ok r atomic coeff (res : Z -> F) col s : Forall (fun e => r_start r <= e.1 <= r_end r) col -> 0 <= r_start r ->
  (forall i, r_start r <= i <= r_end r -> atomic !! Z.to_nat i = Some (res i)) ->
  foldM (work_entry r atomic coeff) col s =
  Ret (f_add s.1 (rsum (map (fun e => f_add (f_mul (f_mul coeff e.2) e.2) (f_mul e.2 (res e.1))) col)), f_add s.2 (rsum (map (fun e => f_mul e.2 e.2) col))).
Proof.
  intros Hcol Hlo Hres. revert s. induction Hcol as [|[row v] col Hrow _ IH]; intros s; cbn [foldM map].
  - destruct s as [a b]. cbn [fst snd]. rewrite rsum_nil. do 2 f_equal; ring.
  - cbn [fst] in Hrow.
    assert (Ew : work_entry r atomic coeff s (row, v) = Ret (f_add s.1 (f_add (f_mul (f_mul coeff v) v) (f_mul v (res row))), f_add s.2 (f_mul v v))).
    { unfold work_entry. rewrite !bool_decide_false by lia. cbn [negb CHECK mbind outcome_bind].
      by rewrite (vec_at_Some _ row _ ltac:(lia) (Hres row Hrow)). }
    rewrite Ew. cbn [mbind outcome_bind]. rewrite IH. cbn [fst snd]. rewrite !rsum_cons. do 2 f_equal; ring.
Qed.

Lemma atomic_add_ok r delta (atomic : list F) v : 0 <= r -> atomic !! Z.to_nat r = Some v -> atomic_add r delta atomic = Ret (<[Z.to_nat r := f_add v delta]> atomic).
Proof.
  intros Hr Hv. pose proof (lookup_lt_Some _ _ _ Hv). unfold atomic_add. rewrite bool_decide_true by lia. cbn [CHECK mbind outcome_bind].
  rewrite (vec_at_Some _ _ _ Hr Hv). cbn [mbind outcome_bind]. unfold vec_set. by rewrite bool_decide_true by lia.
Qed.

Lemma update_column_ok lo hi delta col atomic (res : Z -> F) : 0 <= lo -> Forall (fun e => lo <= e.1 <= hi) col ->
  (forall r, lo <= r <= hi -> atomic !! Z.to_nat r = Some (res r)) ->
  exists atomic', update_column delta col atomic = Ret atomic' /\ length atomic' = length atomic /\
    (forall r, lo <= r <= hi -> atomic' !! Z.to_nat r = Some (f_add (res r) (f_mul delta (row_sum col r)))).
Proof.
  intros Hlo Hcol. revert atomic res. induction Hcol as [|[row v] col Hrow _ IH]; intros atomic res Hres.
  - exists atomic. split_and!; [done..|]. intros r Hr. rewrite (Hres r Hr). f_equal. unfold row_sum. cbn. ring.
  - cbn [fst] in Hrow. unfold update_column. cbn [foldM fst snd]. rewrite (atomic_add_ok row _ _ _ ltac:(lia) (Hres row Hrow)). cbn [mbind outcome_bind].
    destruct (IH (<[Z.to_nat row := f_add (res row) (f_mul v delta)]> atomic) (fun r => f_add (res r) (f_mul delta (if decide (row = r) then v else f_zero))))
      as (a' & E & Hl & Ha').
    + intros r Hr. destruct (decide (row = r)) as [<-|Hne].
      * rewrite list_lookup_insert_eq by (eapply lookup_lt_Some, Hres; lia). f_equal. ring.
      * rewrite list_lookup_insert_ne by lia. rewrite (Hres r Hr). f_equal. ring.
    + exists a'. split; [exact E|]. rewrite length_insert in Hl. split; [done|]. intros r Hr. rewrite (Ha' r Hr), row_sum_cons. cbn [fst snd]. f_equal. ring.
Qed.

Lemma column_of_ok (d : shard F) cols vid : map entries (vm_cols (m_cm_vmat d)) = cols ->
  Forall (fun v => length (sv_idx v) = length (sv_val v)) (vm_cols (m_cm_vmat d)) -> 0 <= vid < Z.of_nat (length cols) -> Z.of_nat (length cols) <= 2 ^ 31 ->
  column_of d vid = Ret (default [] (cols !! Z.to_nat vid)).
Proof.
  intros <- Hlen Hvid Hm. rewrite length_map in *. destruct (lookup_lt_is_Some_2 (vm_cols (m_cm_vmat d)) (Z.to_nat vid)) as (c & Hc); [lia|].
  unfold column_of, vm_col. rewrite u64_id by (unfold in_u64; lia). rewrite (vec_at_Some _ vid _ ltac:(lia) Hc). cbn [mbind outcome_bind].
  unfold spmat_vector_size. rewrite bool_decide_true by (exact (Forall_lookup_1 _ _ _ _ Hlen Hc)). cbn [CHECK mbind outcome_bind].
  change (map entries (vm_cols (m_cm_vmat d))) with (entries <$> vm_cols (m_cm_vmat d)). by rewrite list_lookup_fmap, Hc.
Qed.

Definition res_after (cols : list (list (Z * F))) (res : Z -> F) (sts : list (status F)) (r : Z) : F :=
  f_add (res r) (rsum (map (fun st => f_mul (s_value st) (row_sum (default [] (cols !! Z.to_nat (s_idx st))) r)) sts)).

Lemma update_status_loop (d : shard F) cols lo hi sts atomic (res : Z -> F) : 0 <= lo -> map entries (vm_cols (m_cm_vmat d)) = cols ->
  Forall (fun v => length (sv_idx v) = length (sv_val v)) (vm_cols (m_cm_vmat d)) -> Z.of_nat (length cols) <= 2 ^ 31 ->
  Forall (Forall (fun e => lo <= e.1 <= hi)) cols -> Forall (fun st => 0 <= s_idx st < Z.of_nat (length cols)) sts ->
  (forall r, lo <= r <= hi -> atomic !! Z.to_nat r = Some (res r)) ->
  exists atomic', foldM (fun a st => if f_eqb (s_value st) f_zero then Ret a else ccol ← column_of d (s_idx st); update_column (s_value st) ccol a)
      sts atomic = Ret atomic' /\ length atomic' = length atomic /\
    (forall r, lo <= r <= hi -> atomic' !! Z.to_nat r = Some (res_after cols res sts r)).
Proof.
  intros Hlo Hcols Hlen Hm Hrows Hsts. revert atomic res. induction Hsts as [|st sts Hst _ IH]; intros atomic res Hres.
  - exists atomic. split_and!; [done..|]. intros r Hr. rewrite (Hres r Hr). unfold res_after. cbn [map]. rewrite rsum_nil. f_equal. ring.
  - cbn [foldM].
    assert (Hst' : exists a, (if f_eqb (s_value st) f_zero then Ret atomic else ccol ← column_of d (s_idx st); update_column (s_value st) ccol atomic) = Ret a /\
      length a = length atomic /\ forall r, lo <= r <= hi -> a !! Z.to_nat r = Some (res_after cols res [st] r)).
    { destruct (f_eqb (s_value st) f_zero) eqn:Ez.
      - exists atomic. split_and!; [done..|]. intros r Hr. rewrite (Hres r Hr). unfold res_after. cbn [map]. rewrite rsum_cons, rsum_nil, (ef_eqb _ Ez). f_equal. ring.
      - rewrite (column_of_ok d cols) by done. cbn [mbind outcome_bind].
        destruct (update_column_ok lo hi (s_value st) (default [] (cols !! Z.to_nat (s_idx st))) atomic res Hlo) as (a & E & Hl & Ha); [|done|].
        + destruct (cols !! Z.to_nat (s_idx st)) eqn:Ec; cbn; [by eapply Forall_lookup_1|constructor].
        + exists a. split_and!; [done..|]. intros r Hr. rewrite (Ha r Hr). unfold res_after. cbn [map]. rewrite rsum_cons, rsum_nil. f_equal. ring. }
    destruct Hst' as (a & -> & Hl & Ha). cbn [mbind outcome_bind]. destruct (IH a (res_after cols res [st]) Ha) as (a' & E & Hl' & Ha').
    exists a'. split; [done|]. split; [by rewrite Hl'|]. intros r Hr. rewrite (Ha' r Hr). unfold res_after. cbn [map]. rewrite !rsum_cons, rsum_nil. f_equal. ring.
Qed.

(** What a worker contributes to a coefficient. *)
Definition part_num (cols : list (list (Z * F))) (res : Z -> F) (t : task F) : F :=
  rsum (map (fun e => f_add (f_mul (f_mul (t_value t) e.2) e.2) (f_mul e.2 (res e.1))) (default [] (cols !! Z.to_nat (t_idx t)))).
Definition part_den (cols : list (list (Z * F))) (t : task F) : F :=
  rsum (map (fun e => f_mul e.2 e.2) (default [] (cols !! Z.to_nat (t_idx t)))).

Lemma worker_turn_ok junk cols res lo hi w tasks sts : worker_ok cols res lo hi w -> Z.of_nat (length cols) <= 2 ^ 31 ->
  Forall (fun st => 0 <= s_idx st < Z.of_nat (length cols)) sts -> Forall (fun t => 0 <= t_idx t < Z.of_nat (length cols)) tasks -> (length tasks <= 500)%nat ->
  exists w', worker_turn junk (UserUpdate tasks sts) w =
      Ret (map (fun t => mkresult (t_idx t) (part_num cols (res_after cols res sts) t) (part_den cols t) junk) tasks, w') /\
    worker_ok cols (res_after cols res sts) lo hi w'.
Proof.
  intros [(dA & dY & HA & HY & Hcols & Hlen & Hlo & Hhi & HloY & HhiY & Hlo0 & Hhi0 & Hres) Hrows] Hm Hsts Htasks Hn.
  destruct (update_status_loop dA cols lo hi sts (m_atomic dY) res) as (a & E & Hl & Ha); [done..|].
  set (dY' := with_dmat (m_dmat dY) a dY). set (w' := <["Yrow"%string := dY']> w).
  assert (HA' : w' !! "Arowcol"%string = Some dA) by (unfold w'; by rewrite lookup_insert_ne).
  assert (HY' : w' !! "Yrow"%string = Some dY') by (unfold w'; by rewrite lookup_insert_eq).
  exists w'. split.
  - cbn [worker_turn]. unfold update_status, findshard. rewrite HA, HY. cbn [checked mbind outcome_bind]. rewrite E. cbn [mbind outcome_bind]. fold dY' w'.
    unfold do_work, findshard. rewrite HA', HY'. cbn [checked mbind outcome_bind].
    rewrite (mapM_pure _ (fun t => mkresult (t_idx t) (part_num cols (res_after cols res sts) t) (part_den cols t) junk)).
    + cbn [mbind outcome_bind]. rewrite bool_decide_true; [done|]. unfold usermsg_one_blen, sizeof_result, sizeof_mbuffer. rewrite length_map. lia.
    + intros t Ht. rewrite Forall_forall in Htasks. rewrite (column_of_ok dA cols) by auto. cbn [mbind outcome_bind].
      rewrite (work_entries_ok _ _ _ (res_after cols res sts)); [|rewrite Hlo, Hhi|lia|rewrite Hlo, Hhi; exact Ha].
      * cbn [mbind outcome_bind fst snd]. unfold part_num, part_den. do 2 f_equal; ring.
      * destruct (cols !! Z.to_nat (t_idx t)) eqn:Ec; cbn; [by eapply Forall_lookup_1|constructor].
  - constructor; [|done]. exists dA, dY'. split_and!; try done. unfold dY'. cbn [m_atomic with_dmat]. by rewrite Hl.
Qed.

(** ** The coordinator *)

Lemma combine_reply_ok tasks (a b p q : task F -> F) d junk :
  combine_reply (map (fun t => mkresult (t_idx t) (a t) (b t) d) tasks) (map (fun t => mkresult (t_idx t) (p t) (q t) junk) tasks) =
  Ret (map (fun t => mkresult (t_idx t) (f_add (a t) (p t)) (f_add (b t) (q t)) d) tasks).
Proof.
  unfold combine_reply. apply foldM_update; [by rewrite !length_map|by rewrite !length_map|].
  intros i l' x y Hl Hx Hy Hlen. pose proof (lookup_lt_Some _ _ _ Hl) as Hlt.
  change (map ?f tasks) with (f <$> tasks) in *. rewrite list_lookup_fmap in Hx, Hy. destruct (tasks !! i) as [t|] eqn:Et; [|done].
  injection Hx as <-. injection Hy as <-. rewrite (uload_at_nat _ _ _ Hl). cbn [mbind outcome_bind].
  rewrite (uload_at_nat _ i (mkresult (t_idx t) (p t) (q t) junk)) by (rewrite list_lookup_fmap, Et; done). cbn [mbind outcome_bind r_idx psum sqpsum diff].
  rewrite bool_decide_true by done. cbn [CHECK mbind outcome_bind]. by apply uload_set_nat.
Qed.

Lemma do_msgcombiner_ok {A} tasks (ws : list A) (p q : A -> task F -> F) junk d (a b : task F -> F) :
  do_msgcombiner (map (fun w => map (fun t => mkresult (t_idx t) (p w t) (q w t) junk) tasks) ws) (map (fun t => mkresult (t_idx t) (a t) (b t) d) tasks) =
  Ret (map (fun t => mkresult (t_idx t) (f_add (a t) (rsum (map (fun w => p w t) ws))) (f_add (b t) (rsum (map (fun w => q w t) ws))) d) tasks).
Proof.
  revert a b. induction ws as [|w ws IH]; intros a b; cbn [map].
  - cbn [do_msgcombiner foldM]. f_equal. apply map_ext. intros t. rewrite rsum_nil. f_equal; ring.
  - unfold do_msgcombiner. cbn [foldM]. rewrite combine_reply_ok. cbn [mbind outcome_bind].
    unfold do_msgcombiner in IH. rewrite (IH (fun t => f_add (a t) (p w t)) (fun t => f_add (b t) (q w t))). f_equal. apply map_ext. intros t.
    rewrite !rsum_cons. f_equal; ring.
Qed.

(** The coefficients and the differences after the entries of a message. *)
Definition agg_new (lambda : F) (r : result F) : F := f_div (soft_threshold (psum r) (f_div lambda (f_of_Z 2))) (sqpsum r).
Definition agg_fold (lambda : F) (rs : list (result F)) (beta : list F) : list F * list F :=
  foldl (fun s r => (<[Z.to_nat (r_idx r) := agg_new lambda r]> s.1, s.2 ++ [f_sub (coef s.1 (r_idx r)) (agg_new lambda r)])) (beta, []) rs.
Definition with_diff (r : result F) (d : F) : result F := mkresult (r_idx r) (psum r) (sqpsum r) d.

Lemma agg_fold_snoc lambda rs r beta : agg_fold lambda (rs ++ [r]) beta =
  (<[Z.to_nat (r_idx r) := agg_new lambda r]> (agg_fold lambda rs beta).1, (agg_fold lambda rs beta).2 ++ [f_sub (coef (agg_fold lambda rs beta).1 (r_idx r)) (agg_new lambda r)]).
Proof. unfold agg_fold. by rewrite foldl_app. Qed.

Lemma agg_fold_lengths lambda rs beta : length (agg_fold lambda rs beta).1 = length beta /\ length (agg_fold lambda rs beta).2 = length rs.
Proof.
  induction rs as [|r rs IH] using rev_ind; [done|]. rewrite agg_fold_snoc. cbn [fst snd]. rewrite length_insert, !length_app. cbn. destruct IH as [-> ->]. done.
Qed.

Lemma aggregate_loop_ok lambda rs beta bd : length bd = length beta -> Forall (fun r => 0 <= r_idx r < Z.of_nat (length beta)) rs ->
  exists bd', foldM (aggregate_entry lambda) (seqZ 0 (Z.of_nat (length rs))) (rs, beta, bd) =
    Ret (zip_with with_diff rs (agg_fold lambda rs beta).2, (agg_fold lambda rs beta).1, bd') /\ length bd' = length beta.
Proof.
  intros Hbd Hrs.
  destruct (foldM_seqZ_inv (aggregate_entry lambda) (fun k s => let a := agg_fold lambda (take k rs) beta in
    s.1.1 = zip_with with_diff (take k rs) a.2 ++ drop k rs /\ s.1.2 = a.1 /\ length s.2 = length beta) (length rs) (rs, beta, bd)) as ([[r1 b1] d1] & E & H1); [done| |].
  - intros k [[ret b] d] Hk (Hret & Hb & Hd). cbn [fst snd] in Hret, Hb, Hd. destruct (lookup_lt_is_Some_2 rs k Hk) as (r & Hr).
    destruct (agg_fold_lengths lambda (take k rs) beta) as [Hl1 Hl2].
    assert (Hlz : length (zip_with with_diff (take k rs) (agg_fold lambda (take k rs) beta).2) = k) by (rewrite length_zip_with, Hl2, length_take; lia).
    assert (Hlr : ret !! k = Some r) by (rewrite Hret, lookup_app_r, Hlz, Nat.sub_diag, lookup_drop, Nat.add_0_r by lia; done).
    pose proof (lookup_lt_Some _ _ _ Hlr) as Hkr. pose proof (Forall_lookup_1 _ _ _ _ Hrs Hr) as Hid. cbn beta in Hid.
    destruct (lookup_lt_is_Some_2 b (Z.to_nat (r_idx r))) as (x & Hx); [rewrite Hb, Hl1; lia|].
    exists (<[k := with_diff r (f_sub x (agg_new lambda r))]> ret, <[Z.to_nat (r_idx r) := agg_new lambda r]> b, <[Z.to_nat (r_idx r) := f_sub x (agg_new lambda r)]> d).
    split.
    + unfold aggregate_entry. rewrite (uload_at_nat _ _ _ Hlr). cbn [mbind outcome_bind]. rewrite (vec_at_Some b (r_idx r) x) by (done || lia). cbn [mbind outcome_bind].
      rewrite (vec_set_in d) by lia. cbn [mbind outcome_bind]. rewrite uload_set_nat by done. cbn [mbind outcome_bind].
      rewrite (vec_set_in b) by (rewrite Hb, Hl1; lia). done.
    + cbn [fst snd]. rewrite (take_S_r _ _ _ Hr), agg_fold_snoc. cbn [fst snd]. split_and!; [|by rewrite Hb|by rewrite length_insert].
      rewrite zip_with_app by (rewrite Hl2, length_take; lia). rewrite Hret, (drop_S rs r k Hr). rewrite insert_app_r_alt, Hlz, Nat.sub_diag by lia.
      rewrite <- app_assoc. cbn. unfold coef. by rewrite <- Hb, Hx.
  - cbn [fst snd] in H1. rewrite firstn_all, drop_all, app_nil_r in H1. destruct H1 as (-> & -> & Hd). by exists d1.
Qed.

Lemma set_dmat_row0_ok (d : shard F) row rows row' : dm_mem (m_dmat d) = row :: rows ->
  exists d', set_dmat_row0 row' d = Ret d' /\ dm_mem (m_dmat d') = row' :: rows.
Proof.
  intros E. unfold set_dmat_row0. rewrite E. change (vec_set (row :: rows) 0 row') with (vec_set (row :: rows) (Z.of_nat 0) row').
  rewrite vec_set_nat by (cbn; lia). cbn. eexists. done.
Qed.

Lemma do_aggregate_ok lambda rs beta bd (shards : gmap string (shard F)) : row0_is beta (shards !! "coeffRow"%string) -> row0_is bd (shards !! "coeffdiff"%string) ->
  length bd = length beta -> Forall (fun r => 0 <= r_idx r < Z.of_nat (length beta)) rs ->
  exists bd' shards', do_aggregate lambda rs shards = Ret (zip_with with_diff rs (agg_fold lambda rs beta).2, shards') /\ length bd' = length beta /\
    row0_is (agg_fold lambda rs beta).1 (shards' !! "coeffRow"%string) /\ row0_is bd' (shards' !! "coeffdiff"%string).
Proof.
  intros (d & rows & Ed & Er) (dd & drows & Edd & Edr) Hbd Hrs. destruct (aggregate_loop_ok lambda rs beta bd Hbd Hrs) as (bd' & El & Hl).
  destruct (set_dmat_row0_ok d beta rows (agg_fold lambda rs beta).1 Er) as (d' & Ed' & Er').
  destruct (set_dmat_row0_ok dd bd drows bd' Edr) as (dd' & Edd' & Edr').
  exists bd', (<["coeffdiff"%string := dd']> (<["coeffRow"%string := d']> shards)). split_and!; [|done| |].
  - unfold do_aggregate, findshard, dmat_row0. rewrite Ed, Edd. cbn [checked mbind outcome_bind]. rewrite Er, Edr. cbn [vec_at bool_decide mbind outcome_bind deref].
    change (vec_at (beta :: rows) 0) with (Ret beta). change (vec_at (bd :: drows) 0) with (Ret bd). cbn [mbind outcome_bind]. rewrite El. cbn [mbind outcome_bind].
    rewrite Ed', Edd'. done.
  - exists d', rows. by rewrite lookup_insert_ne, lookup_insert_eq.
  - exists dd', drows. by rewrite lookup_insert_eq.
Qed.

Lemma update_weight_ok (rs : list (result F)) (tm : taskmsg F) : entrycnt tm = Z.of_nat (length (umember1 tm)) -> map r_idx rs = ids_of tm ->
  update_weight rs tm = Ret (mktaskmsg (entrycnt tm) (sched_mid tm) (sched_thrdgid tm) (map (fun r => mktask (r_idx r) (diff r)) rs)).
Proof.
  intros Hcnt Hids. assert (Hl : length rs = length (umember1 tm)) by (rewrite <- (length_map r_idx), Hids; unfold ids_of; by rewrite length_map).
  unfold update_weight. rewrite !bool_decide_true by lia. cbn [CHECK mbind outcome_bind].
  rewrite (foldM_update _ (umember1 tm) (map (fun r => mktask (r_idx r) (diff r)) rs)); [done|done|by rewrite length_map|].
  intros i l' x y Hx' Hx Hy Hlen. pose proof (lookup_lt_Some _ _ _ Hx'). change (map ?f rs) with (f <$> rs) in Hy. rewrite list_lookup_fmap in Hy.
  destruct (rs !! i) as [r|] eqn:Er; [|done]. injection Hy as <-. rewrite (uload_at_nat _ _ _ Hx'), (uload_at_nat _ _ _ Er). cbn [mbind outcome_bind].
  assert (Hid : t_idx x = r_idx r).
  { unfold ids_of in Hids. apply (f_equal (fun l => l !! i)) in Hids. change (map ?f rs) with (f <$> rs) in Hids. change (map t_idx (umember1 tm)) with (t_idx <$> umember1 tm) in Hids.
    rewrite !list_lookup_fmap, Er, Hx in Hids. by injection Hids. }
  rewrite bool_decide_true by done. cbn [CHECK mbind outcome_bind]. rewrite Hid. by apply uload_set_nat.
Qed.

Lemma mapM_seqZ_total {B} (f : Z -> outcome B) (k : list B) n : n = Z.of_nat (length k) ->
  (forall i y, k !! i = Some y -> f (Z.of_nat i) = Ret y) -> mapM f (seqZ 0 n) = Ret k.
Proof.
  intros -> Hf. apply mapM_total. apply Forall2_same_length_lookup. split; [rewrite length_seqZ; lia|].
  intros i x y Hx%lookup_seqZ Hy. destruct Hx as [-> _]. rewrite Z.add_0_l. auto.
Qed.

Lemma dispatch_ok (tm : taskmsg F) pret beta (shards : gmap string (shard F)) : row0_is beta (shards !! "coeffRow"%string) -> phase_ok (length beta) tm ->
  (length (pending pret) <= 500)%nat ->
  dispatch_scheduling tm pret shards =
    Ret (map (fun j => mktask j (coef beta j)) (ids_of tm), map (fun e => mkstatus e.1 e.2) (pending pret), map (fun j => mkresult j f_zero f_zero f_zero) (ids_of tm)).
Proof.
  intros (d & rows & Ed & Er) (Hcnt & Hn & Hids) Hp. unfold dispatch_scheduling, findshard, dmat_row0. rewrite Ed. cbn [checked mbind outcome_bind]. rewrite Er.
  change (vec_at (beta :: rows) 0) with (Ret beta). cbn [mbind outcome_bind].
  assert (Hat : forall i t, map t_idx (umember1 tm) !! i = Some t -> exists t', umember1 tm !! i = Some t' /\ t = t_idx t').
  { intros i t Ht. change (map t_idx (umember1 tm)) with (t_idx <$> umember1 tm) in Ht. apply list_lookup_fmap_Some in Ht as (t' & -> & Ht'). by exists t'. }
  rewrite (mapM_seqZ_total _ (map (fun j => mktask j (coef beta j)) (ids_of tm))); [|unfold ids_of; by rewrite !length_map|].
  - cbn [mbind outcome_bind]. rewrite (mapM_seqZ_total _ (map (fun j => mkresult j f_zero f_zero f_zero) (ids_of tm))); [|unfold ids_of; by rewrite !length_map|].
    + cbn [mbind outcome_bind].
      replace (match pret with Some l => map (fun r => mkstatus (r_idx r) (diff r)) l | None => [] end) with (map (fun e => mkstatus e.1 e.2) (pending pret)).
      * rewrite bool_decide_true; [done|]. unfold usermsg_two_blen, sizeof_task, sizeof_mbuffer, ids_of. rewrite !length_map. lia.
      * destruct pret as [l|]; [|done]. cbn [pending]. rewrite map_map. done.
    + intros i r Hr. change (map ?f (ids_of tm)) with (f <$> ids_of tm) in Hr. apply list_lookup_fmap_Some in Hr as (j & -> & Hj). destruct (Hat i j Hj) as (t & Ht & ->).
      by rewrite (uload_at_nat _ _ _ Ht).
  - intros i r Hr. change (map ?f (ids_of tm)) with (f <$> ids_of tm) in Hr. apply list_lookup_fmap_Some in Hr as (j & -> & Hj). destruct (Hat i j Hj) as (t & Ht & ->).
    rewrite (uload_at_nat _ _ _ Ht). cbn [mbind outcome_bind]. pose proof (Forall_lookup_1 _ _ _ _ Hids Ht) as Hb. cbn beta in Hb.
    destruct (lookup_lt_is_Some_2 beta (Z.to_nat (t_idx t))) as (b & Eb); [lia|]. rewrite (vec_at_Some beta (t_idx t) b) by (done || lia). unfold coef. by rewrite Eb.
Qed.

(** ** Coefficients and residuals *)

Lemma predict_insert colss (beta : list F) j b r : 0 <= j < Z.of_nat (length beta) ->
  predict colss (<[Z.to_nat j := b]> beta) r = f_add (predict colss beta r) (f_mul (f_sub b (coef beta j)) (row_sum (full_col colss (Z.to_nat j)) r)).
Proof.
  intros Hj. unfold predict, coef. destruct (lookup_lt_is_Some_2 beta (Z.to_nat j)) as (x & Hx); [lia|]. rewrite Hx. cbn [default].
  set (g := fun (j : nat) (b : F) => f_mul b (row_sum (full_col colss j) r)).
  assert (imap g (<[Z.to_nat j := b]> beta) = <[Z.to_nat j := g (Z.to_nat j) b]> (imap g beta)) as ->.
  { apply list_eq. intros i. rewrite list_lookup_imap. destruct (decide (i = Z.to_nat j)) as [->|Hne].
    - rewrite !list_lookup_insert_eq by (rewrite ?length_imap; lia). done.
    - rewrite !list_lookup_insert_ne by done. by rewrite list_lookup_imap. }
  rewrite (rsum_insert _ _ (g (Z.to_nat j) x)) by (by rewrite list_lookup_imap, Hx). unfold g. cbn. ring.
Qed.

Lemma block_step_snoc lambda colss y (beta : list F) ids j : block_step lambda colss y beta (ids ++ [j]) =
  let new := coordinate lambda (full_col colss (Z.to_nat j)) (coef beta j) (fun r => f_sub (y r) (predict colss beta r)) in
  let s := block_step lambda colss y beta ids in (<[Z.to_nat j := new]> s.1, s.2 ++ [f_sub (coef s.1 j) new]).
Proof. unfold block_step. by rewrite foldl_app. Qed.

Lemma block_step_lengths lambda colss y (beta : list F) ids :
  length (block_step lambda colss y beta ids).1 = length beta /\ length (block_step lambda colss y beta ids).2 = length ids.
Proof.
  induction ids as [|j ids [IH1 IH2]] using rev_ind; [done|]. rewrite block_step_snoc. cbn [fst snd]. rewrite length_insert, !length_app. cbn. by rewrite IH1, IH2.
Qed.

(** What a phase changes in the products is what it leaves pending. *)
Lemma predict_block_step lambda colss y (beta : list F) ids r : Forall (fun j => 0 <= j < Z.of_nat (length beta)) ids ->
  f_add (predict colss (block_step lambda colss y beta ids).1 r) (pending_sum colss (zip ids (block_step lambda colss y beta ids).2) r) = predict colss beta r.
Proof.
  induction ids as [|j ids IH] using rev_ind; intros Hids; [unfold pending_sum; cbn [zip zip_with map block_step foldl fst]; rewrite rsum_nil; ring|].
  apply Forall_app in Hids as [Hids Hj]. apply Forall_cons in Hj as [Hj _]. specialize (IH Hids). destruct (block_step_lengths lambda colss y beta ids) as [Hl1 Hl2].
  rewrite block_step_snoc. cbn [fst snd]. rewrite predict_insert by (rewrite Hl1; lia). rewrite zip_with_app by (by rewrite Hl2). unfold pending_sum in *. rewrite map_app, rsum_app.
  cbn [zip zip_with map fst snd]. rewrite rsum_cons, rsum_nil. rewrite <- IH. ring.
Qed.

Lemma agg_fold_block_step lambda colss y (beta : list F) ids (g : Z -> result F) :
  (forall j, j ∈ ids -> r_idx (g j) = j /\ agg_new lambda (g j) = coordinate lambda (full_col colss (Z.to_nat j)) (coef beta j) (fun r => f_sub (y r) (predict colss beta r))) ->
  agg_fold lambda (map g ids) beta = block_step lambda colss y beta ids.
Proof.
  induction ids as [|j ids IH] using rev_ind; intros Hg; [done|]. rewrite map_app. cbn [map]. rewrite agg_fold_snoc, block_step_snoc.
  rewrite IH by (intros i Hi; apply Hg, elem_of_app; by left). destruct (Hg j) as [-> ->]; [apply elem_of_app; right; by left|]. done.
Qed.

Lemma worker_ok_ext cols (res res' : Z -> F) lo hi w : (forall r, lo <= r <= hi -> res r = res' r) -> worker_ok cols res lo hi w -> worker_ok cols res' lo hi w.
Proof.
  intros He [(dA & dY & HA & HY & Hcols & Hlen & Hlo & Hhi & HloY & HhiY & Hlo0 & Hhi0 & Hres) Hrows]. constructor; [|done].
  exists dA, dY. split_and!; try done. intros r Hr. rewrite (Hres r Hr). f_equal. auto.
Qed.

Lemma part_num_ext cols (res res' : Z -> F) lo hi t : (forall r, lo <= r <= hi -> res r = res' r) -> Forall (Forall (fun e => lo <= e.1 <= hi)) cols ->
  part_num cols res t = part_num cols res' t.
Proof.
  intros He Hrows. unfold part_num. f_equal. apply map_ext_in. intros e Hin%list_elem_of_In. rewrite He; [done|].
  destruct (cols !! Z.to_nat (t_idx t)) as [col|] eqn:Ec; [|by apply elem_of_nil in Hin]. pose proof (Forall_lookup_1 _ _ _ _ Hrows Ec) as Hc.
  cbn in Hin. rewrite Forall_forall in Hc. by apply Hc.
Qed.

(** The workers after the message of a phase know the coefficients the
    coordinator has sent. *)
Lemma workers_turn_ok junk colss ranges y (beta : list F) p tasks ws : Z.of_nat (length beta) <= 2 ^ 31 -> Forall (fun cols => length cols = length beta) colss ->
  disjoint_rows colss ranges -> length ranges = length colss -> Forall (fun e => 0 <= e.1 < Z.of_nat (length beta)) p ->
  Forall (fun t => 0 <= t_idx t < Z.of_nat (length beta)) tasks -> (length tasks <= 500)%nat ->
  Forall2 (fun cr w => worker_ok cr.1 (fun r => f_sub (f_sub (y r) (predict colss beta r)) (pending_sum colss p r)) cr.2.1 cr.2.2 w) (zip colss ranges) ws ->
  let res := fun r => f_sub (y r) (predict colss beta r) in
  exists rs, mapM (worker_turn junk (UserUpdate tasks (map (fun e => mkstatus e.1 e.2) p))) ws = Ret rs /\
    map fst rs = map (fun cols => map (fun t => mkresult (t_idx t) (part_num cols res t) (part_den cols t) junk) tasks) colss /\
    Forall2 (fun cr w => worker_ok cr.1 res cr.2.1 cr.2.2 w) (zip colss ranges) (map snd rs).
Proof.
  intros Hm Hcols Hdis Hlr Hp Htasks Hn Hws res.
  replace (map (fun cols => map (fun t => mkresult (t_idx t) (part_num cols res t) (part_den cols t) junk) tasks) colss)
    with (map (fun cr => map (fun t => mkresult (t_idx t) (part_num cr.1 res t) (part_den cr.1 t) junk) tasks) (zip colss ranges)).
  2: { rewrite <- (map_map fst (fun cols => map (fun t => mkresult (t_idx t) (part_num cols res t) (part_den cols t) junk) tasks)). f_equal.
       change (map fst (zip colss ranges)) with ((zip colss ranges).*1). apply fst_zip. lia. }
  assert (Hin : forall cr, cr ∈ zip colss ranges -> exists k, colss !! k = Some cr.1 /\ ranges !! k = Some cr.2).
  { intros [c r] (k & Hk)%list_elem_of_lookup. apply lookup_zip_Some in Hk as [Hc Hr]. by exists k. }
  induction Hws as [|cr w crs ws Hw _ IH]; [by exists []|].
  destruct (Hin cr ltac:(by left)) as (k & Hk & Hr). destruct IH as (rs & E & Efst & Hrs); [intros cr' Hcr'; apply Hin; by right|].
  destruct cr as [cols [lo hi]]. cbn [fst snd] in *. pose proof (Forall_lookup_1 _ _ _ _ Hcols Hk) as Hlc. cbn beta in Hlc.
  destruct (worker_turn_ok junk cols _ lo hi w tasks (map (fun e => mkstatus e.1 e.2) p) Hw) as (w' & Ew & Hw').
  { by rewrite Hlc. }
  { rewrite Hlc. apply Forall_map. exact Hp. }
  { by rewrite Hlc. }
  { done. }
  assert (Hres : forall r, lo <= r <= hi -> res_after cols (fun r => f_sub (f_sub (y r) (predict colss beta r)) (pending_sum colss p r)) (map (fun e => mkstatus e.1 e.2) p) r = res r).
  { intros r Hrr. unfold res_after, res, pending_sum. rewrite map_map. cbn [s_value s_idx].
    rewrite (map_ext (fun e : Z * F => f_mul e.2 (row_sum (full_col colss (Z.to_nat e.1)) r)) (fun e => f_mul e.2 (row_sum (default [] (cols !! Z.to_nat e.1)) r))); [ring|].
    intros e. by rewrite (row_sum_full colss ranges k cols lo hi) by done. }
  exists ((map (fun t => mkresult (t_idx t) (part_num cols res t) (part_den cols t) junk) tasks, w') :: rs). split_and!.
  - change (mapM ?f (w :: ws)) with (y0 ← f w; k0 ← mapM f ws; Ret (y0 :: k0)). rewrite Ew, E. cbn [mbind outcome_bind]. do 2 f_equal. f_equal.
    apply map_ext. intros t. f_equal. eapply part_num_ext; [exact Hres|]. apply Hw.
  - cbn [map fst]. by rewrite Efst.
  - cbn [map snd]. constructor; [|done]. cbn [fst snd]. eapply worker_ok_ext; [exact Hres|done].
Qed.

Lemma pending_with_diff (rs : list (result F)) (ds : list F) : pending (Some (zip_with with_diff rs ds)) = zip (map r_idx rs) ds.
Proof. cbn [pending]. revert ds. induction rs as [|r rs IH]; intros [|d ds]; cbn; [done..|]. by rewrite <- IH. Qed.

(** Sums over the workers are sums over whole columns. *)
Lemma part_sums lambda colss y (beta : list F) j :
  agg_new lambda (mkresult j (f_add f_zero (rsum (map (fun cols => part_num cols (fun r => f_sub (y r) (predict colss beta r)) (mktask j (coef beta j))) colss)))
                             (f_add f_zero (rsum (map (fun cols => part_den cols (mktask j (coef beta j))) colss))) f_zero) =
  coordinate lambda (full_col colss (Z.to_nat j)) (coef beta j) (fun r => f_sub (y r) (predict colss beta r)).
Proof.
  unfold agg_new, coordinate, full_col. cbn [psum sqpsum]. unfold part_num, part_den. cbn [t_idx t_value]. rewrite !concat_map, !rsum_concat, !map_map.
  f_equal; [f_equal; ring|ring].
Qed.

(** A phase is a step of block coordinate descent on the whole input. *)
Lemma phase_ok_step junk lambda colss ranges y (beta : list F) tm s : lasso_ok colss ranges y beta s -> phase_ok (length beta) tm ->
  exists s', phase junk lambda tm s =
    Ret (s', mktaskmsg (entrycnt tm) (sched_mid tm) (sched_thrdgid tm) (zip_with mktask (ids_of tm) (block_step lambda colss y beta (ids_of tm)).2)) /\
    lasso_ok colss ranges y (block_step lambda colss y beta (ids_of tm)).1 s' /\
    pending (ls_pretmsg s') = zip (ids_of tm) (block_step lambda colss y beta (ids_of tm)).2.
Proof.
  intros [Hbeta (bd & Hbd & Hbdr) Hm Hcols Hdis Hpend Hsize Hlens Hws] Hph. pose proof Hph as (Hcnt & Hn & Hids).
  set (ids := ids_of tm) in *. set (tasks := map (fun j => mktask j (coef beta j)) ids).
  assert (Hids' : Forall (fun j => 0 <= j < Z.of_nat (length beta)) ids) by (unfold ids, ids_of; by apply Forall_map).
  assert (Hli : length ids = length (umember1 tm)) by (unfold ids, ids_of; by rewrite length_map).
  destruct (block_step_lengths lambda colss y beta ids) as [Hl1 Hl2].
  destruct (workers_turn_ok junk colss ranges y beta (pending (ls_pretmsg s)) tasks (ls_workers s)) as (rs & Ers & Efst & Hws'); [done..|unfold tasks; by apply Forall_map|
    unfold tasks; rewrite length_map; lia|done|].
  set (res := fun r => f_sub (y r) (predict colss beta r)) in *.
  set (ret := map (fun j => mkresult j (f_add f_zero (rsum (map (fun cols => part_num cols res (mktask j (coef beta j))) colss)))
                             (f_add f_zero (rsum (map (fun cols => part_den cols (mktask j (coef beta j))) colss))) f_zero) ids).
  assert (Eret : do_msgcombiner (map fst rs) (map (fun j => mkresult j f_zero f_zero f_zero) ids) = Ret ret).
  { rewrite Efst. pose proof (do_msgcombiner_ok tasks colss (fun cols => part_num cols res) part_den junk f_zero (fun _ => f_zero) (fun _ => f_zero)) as E.
    unfold tasks in E. rewrite !map_map in E. cbn [t_idx] in E. unfold tasks. exact E. }
  assert (Eagg : agg_fold lambda ret beta = block_step lambda colss y beta ids).
  { apply agg_fold_block_step. intros j _. split; [done|]. apply part_sums. }
  assert (Hidx : map r_idx ret = ids) by (unfold ret; rewrite map_map; cbn [r_idx]; apply map_id).
  destruct (do_aggregate_ok lambda ret beta bd (ls_coord s) Hbeta Hbdr Hbd) as (bd' & coord' & Ea & Hbd' & Hb' & Hbdr').
  { rewrite <- Hidx in Hids'. by apply Forall_map in Hids'. }
  rewrite Eagg in Ea, Hb'. set (ds := (block_step lambda colss y beta ids).2) in *. set (ret2 := zip_with with_diff ret ds) in *.
  assert (Hidx2 : map r_idx ret2 = ids).
  { unfold ret2. assert (Hlr : length ds = length ret) by (rewrite Hl2, <- Hidx; by rewrite length_map). rewrite <- Hidx. clear -Hlr. revert Hlr.
    generalize ds. induction ret as [|r l IH]; intros [|d l2] Hl; cbn in *; [done..|]. f_equal. apply IH. lia. }
  exists (mklasso coord' (Some ret2) (map snd rs)). split_and!; [| |unfold ret2; cbn [ls_pretmsg]; by rewrite pending_with_diff, Hidx].
  - unfold phase. rewrite (dispatch_ok tm _ beta) by done. fold ids. fold tasks. cbn [mbind outcome_bind]. rewrite Ers. cbn [mbind outcome_bind].
    rewrite Eret. cbn [mbind outcome_bind]. rewrite Ea. cbn [mbind outcome_bind]. rewrite (update_weight_ok ret2 tm) by done. cbn [mbind outcome_bind].
    do 3 f_equal. unfold ret2. rewrite <- Hidx. clear -Hl2. generalize ds. induction ret as [|r l IH]; intros [|d l2]; cbn; [done..|]. f_equal. apply IH.
  - constructor; cbn [ls_coord ls_pretmsg ls_workers]; [done|exists bd'; by rewrite Hl1|by rewrite Hl1|by rewrite Hl1|done| | |done|].
    + unfold ret2. rewrite pending_with_diff, Hidx, Hl1. apply Forall_forall. intros e (i & Hi)%list_elem_of_lookup. destruct e as [j d].
      apply lookup_zip_Some in Hi as [Hj _]. exact (Forall_lookup_1 _ _ _ _ Hids' Hj).
    + unfold ret2. rewrite pending_with_diff, length_zip_with, Hidx. lia.
    + eapply Forall2_impl; [exact Hws'|]. intros cr w Hw. eapply worker_ok_ext; [|exact Hw]. intros r _. unfold res, ret2.
      rewrite pending_with_diff, Hidx, <- (predict_block_step lambda colss y beta ids r Hids'). fold ds. ring.
Qed.

Lemma mktasks ids (ds : list F) : length ds = length ids -> map t_value (zip_with mktask ids ds) = ds /\ map t_idx (zip_with mktask ids ds) = ids.
Proof.
  revert ds. induction ids as [|j ids IH]; intros [|d ds] Hl; cbn in *; [done..|]. injection Hl as Hl. destruct (IH ds Hl) as [-> ->]. done.
Qed.

(** The coefficients after some phases and how each phase changes them. *)
Definition descent (lambda : F) (colss : list (list (list (Z * F)))) (y : Z -> F) (beta : list F) (idss : list (list Z)) : list F * list (list F) :=
  foldl (fun s ids => let b := block_step lambda colss y s.1 ids in (b.1, s.2 ++ [b.2])) (beta, []) idss.

(** C31: with exact arithmetic the coordinator and the workers compute block coordinate descent: from a state that represents the
    coefficients [beta], whatever the phases, no assertion fails, and after each phase the coefficients are those one machine
    with the whole input computes, each chosen variable's from all residuals at the start of the phase; the message that goes
    back to the scheduler has the changes; and the workers' residuals are those of the coefficients, less what the next
    phase brings. *)
Theorem lasso_is_block_descent junk lambda colss ranges y (beta : list F) tms s : lasso_ok colss ranges y beta s -> Forall (phase_ok (length beta)) tms ->
  exists s' tms', phases junk lambda tms s = Ret (s', tms') /\
    lasso_ok colss ranges y (descent lambda colss y beta (map ids_of tms)).1 s' /\
    map (fun tm => map t_value (umember1 tm)) tms' = (descent lambda colss y beta (map ids_of tms)).2 /\
    map ids_of tms' = map ids_of tms.
Proof.
  intros Hok. induction tms as [|tm tms IH] using rev_ind; intros Htms; [by exists s, []|]. apply Forall_app in Htms as [Htms Htm].
  apply Forall_cons in Htm as [Htm _]. destruct (IH Htms) as (s1 & tms1 & E & Hok1 & Hv & Hi).
  assert (Hlen : forall idss, length (descent lambda colss y beta idss).1 = length beta).
  { clear. intros idss. induction idss as [|ids idss IH] using rev_ind; [done|]. unfold descent in *. rewrite foldl_app. cbn [foldl fst]. by rewrite (proj1 (block_step_lengths _ _ _ _ _)). }
  destruct (phase_ok_step junk lambda colss ranges y _ tm s1 Hok1) as (s2 & E2 & Hok2 & _); [by rewrite Hlen|].
  destruct (block_step_lengths lambda colss y (descent lambda colss y beta (map ids_of tms)).1 (ids_of tm)) as [_ Hl].
  eexists s2, _. split; [unfold phases; rewrite foldM_app; unfold phases in E; rewrite E; cbn [foldM mbind outcome_bind fst snd]; rewrite E2; reflexivity|].
  rewrite !map_app. cbn [map umember1]. unfold descent in *. rewrite foldl_app. cbn [foldl fst snd]. split; [exact Hok2|]. rewrite Hv, Hi. split; f_equal; f_equal.
  - by apply mktasks.
  - unfold ids_of at 1. cbn [umember1]. by apply mktasks.
Qed.

(** ** The objective *)

Lemma do_obj_calc_ok cols (res : Z -> F) lo hi w : worker_ok cols res lo hi w ->
  do_obj_calc w = Ret (rsum (map (fun r => f_mul (res r) (res r)) (seqZ lo (hi + 1 - lo)))).
Proof.
  intros [(dA & dY & HA & HY & Hcols & Hlen & Hlo & Hhi & HloY & HhiY & Hlo0 & Hhi0 & Hres) Hrows].
  unfold do_obj_calc, findshard. rewrite HY. cbn [checked mbind outcome_bind]. rewrite HloY, HhiY.
  rewrite (foldM_pure _ (fun s i => f_add s (f_mul (res i) (res i)))).
  - rewrite (foldl_add_rsum (fun i => f_mul (res i) (res i))). f_equal. ring.
  - intros s r Hr%elem_of_seqZ. rewrite (vec_at_Some _ r (res r)); [done|lia|apply Hres; lia].
Qed.

Definition loss (ranges : list (Z * Z)) (res : Z -> F) : F :=
  rsum (map (fun lh => rsum (map (fun r => f_mul (res r) (res r)) (seqZ lh.1 (lh.2 + 1 - lh.1)))) ranges).
Definition nonzeros (beta : list F) : Z := Z.of_nat (length (filter (fun b => f_eqb b f_zero = false) beta)).

Lemma objective_sum_ok objmsg junk crs (res : Z -> F) ws : Forall2 (fun (cr : list (list (Z * F)) * (Z * Z)) w => worker_ok cr.1 res cr.2.1 cr.2.2 w) crs ws ->
  (rs ← mapM (worker_turn objmsg (UserProgressCheck junk)) ws; do_msgcombiner_obj (map fst rs) objmsg) = Ret (f_add objmsg (loss (map snd crs) res)).
Proof.
  intros Hws. rewrite (mapM_total _ _ (zip_with (fun cr w => ([mkresult (-1) (psum junk) (rsum (map (fun r => f_mul (res r) (res r)) (seqZ cr.2.1 (cr.2.2 + 1 - cr.2.1)))) (diff junk)], w)) crs ws)).
  - cbn [mbind outcome_bind]. generalize objmsg as acc. induction Hws as [|cr w crs ws Hw _ IH]; intros acc; cbn [zip_with map].
    + unfold loss, do_msgcombiner_obj. cbn [map foldM]. rewrite rsum_nil. f_equal. ring.
    + unfold do_msgcombiner_obj in *. cbn [foldM fst length uload_at]. rewrite bool_decide_true by done. cbn [CHECK mbind outcome_bind].
      rewrite (uload_at_nat _ 0%nat (mkresult (-1) (psum junk) (rsum (map (fun r => f_mul (res r) (res r)) (seqZ cr.2.1 (cr.2.2 + 1 - cr.2.1)))) (diff junk))) by done.
      cbn [mbind outcome_bind sqpsum]. rewrite IH. unfold loss. cbn [map]. rewrite rsum_cons. f_equal. ring.
  - induction Hws as [|cr w crs ws Hw _ IH]; cbn [zip_with]; constructor; [|done]. unfold worker_turn. by rewrite (do_obj_calc_ok _ _ _ _ _ Hw).
Qed.

Lemma do_object_aggregate_ok lambda sum (beta : list F) (shards : gmap string (shard F)) : row0_is beta (shards !! "coeffRow"%string) ->
  f_num (f_add sum (f_mul lambda (rsum (map f_abs beta)))) ->
  do_object_aggregate lambda (Z.of_nat (length beta)) sum shards = Ret (f_div (f_add sum (f_mul lambda (rsum (map f_abs beta)))) (f_of_Z 2), nonzeros beta).
Proof.
  intros (d & rows & Ed & Er) Hnum. unfold do_object_aggregate, findshard, dmat_row0. rewrite Ed. cbn [checked mbind outcome_bind]. rewrite Er.
  change (vec_at (beta :: rows) 0) with (Ret beta). cbn [mbind outcome_bind].
  destruct (foldM_seqZ_inv (fun s i => b ← vec_at beta i; Ret (f_add s.1 (f_abs b), if f_eqb b f_zero then s.2 else s.2 + 1))
    (fun k s => s = (rsum (map f_abs (take k beta)), nonzeros (take k beta))) (length beta) (f_zero, 0)) as (s & E & Hs); [done| |].
  - intros k s Hk ->. destruct (lookup_lt_is_Some_2 beta k Hk) as (b & Hb). rewrite (vec_at_nat _ _ _ Hb). cbn [mbind outcome_bind fst snd]. eexists. split; [reflexivity|].
    rewrite (take_S_r _ _ _ Hb), map_app, rsum_app. unfold nonzeros. rewrite filter_app, length_app. cbn [map]. rewrite rsum_cons, rsum_nil. cbn [filter list_filter].
    destruct (f_eqb b f_zero); [rewrite decide_False by done|rewrite decide_True by done]; cbn [length]; f_equal; try ring; lia.
  - rewrite E, Hs. cbn [mbind outcome_bind]. rewrite firstn_all, Hnum. done.
Qed.

(** C40: the objective the coordinator prints after a phase mixes two models: the residuals are those of the coefficients before
    the phase, the penalty is of the coefficients after it; and what happens to be in the memory of the fresh message is
    added to it. *)
Theorem objective_mixes_two_models junk lambda colss ranges y (beta : list F) tm s s' tm' objmsg jr :
  lasso_ok colss ranges y beta s -> phase_ok (length beta) tm -> phase junk lambda tm s = Ret (s', tm') ->
  let beta' := (block_step lambda colss y beta (ids_of tm)).1 in
  let value := f_add (f_add objmsg (loss ranges (fun r => f_sub (y r) (predict colss beta r)))) (f_mul lambda (rsum (map f_abs beta'))) in
  f_num value -> objective lambda objmsg jr (Z.of_nat (length beta)) s' = Ret (f_div value (f_of_Z 2), nonzeros beta').
Proof.
  intros Hok Htm E beta' value Hnum. destruct (phase_ok_step junk lambda colss ranges y beta tm s Hok Htm) as (s1 & E1 & Hok1 & Ep).
  rewrite E in E1. injection E1 as <- _. fold beta' in Hok1. destruct Hok1 as [Hbeta _ _ _ _ _ _ Hlens Hws].
  assert (Hids : Forall (fun j => 0 <= j < Z.of_nat (length beta)) (ids_of tm)) by (apply Forall_map, Htm).
  assert (Hres : Forall2 (fun (cr : list (list (Z * F)) * (Z * Z)) w => worker_ok cr.1 (fun r => f_sub (y r) (predict colss beta r)) cr.2.1 cr.2.2 w) (zip colss ranges) (ls_workers s')).
  { eapply Forall2_impl; [exact Hws|]. intros cr w Hw. eapply worker_ok_ext; [|exact Hw]. intros r _.
    rewrite Ep, <- (predict_block_step lambda colss y beta (ids_of tm) r Hids). fold beta'. ring. }
  pose proof (objective_sum_ok objmsg jr _ _ _ Hres) as Es. apply bind_Ret_inv in Es as (rs & Ers & Es).
  assert (Er : map snd (zip colss ranges) = ranges) by (change (map snd (zip colss ranges)) with ((zip colss ranges).*2); apply snd_zip; lia). rewrite Er in Es.
  unfold objective. rewrite Ers. cbn [mbind outcome_bind]. rewrite Es. cbn [mbind outcome_bind].
  assert (Hl : length beta' = length beta) by apply block_step_lengths. rewrite <- Hl. by apply do_object_aggregate_ok.
Qed.
End EXACT.

(** ** An example

    Four samples on two workers, two coefficients. *)
Definition demo_shard (alias : string) (lo hi : Z) (cols : list (spmat_vector Z)) (dmat : list (list Z)) (atomic : list Z) : shard Z :=
  let r := mkrangectx lo hi (hi + 1 - lo) 0 1 2 in
  with_dmat (mkdense2dmat 4 2 dmat) atomic (with_cm_vmat (mkcol_vspmat 4 2 cols) (shard_new (mkmini 4 2 cvspt "file" r alias))).
Definition demo_lasso_worker (lo hi : Z) (cols : list (spmat_vector Z)) (atomic : list Z) : gmap string (shard Z) :=
  <["Arowcol"%string := demo_shard "Arowcol" lo hi cols [] []]> {["Yrow"%string := demo_shard "Yrow" lo hi [] [] atomic]}.
Definition demo_lasso : lasso Z :=
  mklasso (<["coeffRow"%string := demo_shard "coeffRow" 0 0 [] [[0; 0]] []]> {["coeffdiff"%string := demo_shard "coeffdiff" 0 0 [] [[0; 0]] []]}) None
    [demo_lasso_worker 0 1 [mkspmat_vector [0] [1]; mkspmat_vector [1; 0] [1; 3]] [10; 20; 0; 0];
     demo_lasso_worker 2 3 [mkspmat_vector [2] [2]; mkspmat_vector [3] [1]] [0; 0; 30; 40]].
Definition demo_colss : list (list (list (Z * Z))) := [[[(0, 1)]; [(1, 1); (0, 3)]]; [[(2, 2)]; [(3, 1)]]].
Definition demo_y (r : Z) : Z := default 0 ([10; 20; 30; 40] !! Z.to_nat r).
Definition demo_phase (ids : list Z) : taskmsg Z := mktaskmsg (Z.of_nat (length ids)) 0 0 (map (fun j => mktask j 0) ids).

Lemma demo_lasso_ok : lasso_ok demo_colss [(0, 1); (2, 3)] demo_y [0; 0] demo_lasso.
Proof.
  constructor; cbn [demo_lasso ls_coord ls_pretmsg ls_workers pending].
  - eexists _, _. split; [vm_compute; reflexivity|reflexivity].
  - exists [0; 0]. split; [done|]. eexists _, _. split; [vm_compute; reflexivity|reflexivity].
  - cbn. lia.
  - by repeat constructor.
  - intros [|[|k]] [|[|k']] lo hi cols Hr Hc Hne; cbn in Hr, Hc; simplify_eq; repeat constructor; cbn; lia.
  - constructor.
  - cbn. lia.
  - done.
  - constructor; [|constructor; [|constructor]].
    + constructor; [|repeat constructor; cbn; lia]. eexists _, _. split_and!; try (vm_compute; reflexivity); [vm_compute; repeat constructor|cbn; lia|].
      cbn [fst snd]. intros r Hr. assert (r = 0 \/ r = 1) as [-> | ->] by lia; reflexivity.
    + constructor; [|repeat constructor; cbn; lia]. eexists _, _. split_and!; try (vm_compute; reflexivity); [vm_compute; repeat constructor|cbn; lia|].
      cbn [fst snd]. intros r Hr. assert (r = 2 \/ r = 3) as [-> | ->] by lia; reflexivity.
Qed.

Lemma demo_phase_ok ids : (length ids <= 500)%nat -> Forall (fun j => 0 <= j < 2) ids -> phase_ok 2 (demo_phase ids).
Proof. intros Hl Hids. split_and!; cbn [demo_phase entrycnt umember1]; [by rewrite length_map|by rewrite length_map|by apply Forall_map]. Qed.

Lemma lasso_is_block_descent_witness : exists s' tms', phases 7 2 [demo_phase [0; 1]; demo_phase [1]] demo_lasso = Ret (s', tms') /\
  row0_is [13; 4] (ls_coord s' !! "coeffRow"%string) /\ map (fun tm => map t_value (umember1 tm)) tms' = [[-13; -8]; [4]].
Proof.
  destruct (lasso_is_block_descent 7 2 demo_colss [(0, 1); (2, 3)] demo_y [0; 0] [demo_phase [0; 1]; demo_phase [1]] demo_lasso demo_lasso_ok) as (s' & tms' & E & Hok & Hv & _).
  { constructor; [|constructor; [|constructor]]; (apply demo_phase_ok; [cbn; lia|repeat constructor; lia]). }
  exists s', tms'. split; [exact E|]. split; [|rewrite Hv; vm_compute; reflexivity].
  exact (lo_beta _ _ _ _ _ Hok).
Defined.

(** The residuals are still the samples, the penalty is of [13; 8]. *)
Lemma objective_mixes_two_models_witness : exists s' tm', phase 7 2 (demo_phase [0; 1]) demo_lasso = Ret (s', tm') /\
  objective 2 0 (mkresult 0 0 0 0) 2 s' = Ret ((0 + (10 * 10 + 20 * 20 + 30 * 30 + 40 * 40) + 2 * (13 + 8)) / 2, 2).
Proof.
  assert (Hph : phase_ok (length [0; 0]) (demo_phase [0; 1])) by (apply demo_phase_ok; [cbn; lia|repeat constructor; lia]).
  destruct (phase_ok_step 7 2 _ _ _ _ (demo_phase [0; 1]) _ demo_lasso_ok Hph) as (s' & E & _).
  eexists s', _. split; [exact E|].
  exact (objective_mixes_two_models 7 2 demo_colss [(0, 1); (2, 3)] demo_y [0; 0] (demo_phase [0; 1]) demo_lasso s' _ 0 (mkresult 0 0 0 0) demo_lasso_ok Hph E eq_refl).
Defined.
