(* ===== verification/Dnn.v ===== *)
(** * Neural network: training

    The fully connected network of [apps/dnn/src/dnn] ([dnn.cpp], [util.cpp])
    with logistic hidden layers and a softmax: forward and backward
    propagation, a step on a mini batch, the training loop of a worker.  What
    a worker sends to the tables is a trace; what it reads and draws is a
    parameter.  A buffer the code overwrites as a whole is a new list here. *)
From S2P Require Import Prelude StradsFloat.
Open Scope Z_scope.

(** The exponential function and the logarithm of the C library. *)
Class ExpLog (F : Type) := { f_exp : F -> F; f_log : F -> F }.

Section DNN.
Context {F : Type} `{Float F} `{!ExpLog F}.
(** The literals [1e-10] and [a / b]. *)
Context (f_tiny : F) (f_frac : Z -> Z -> F).

Definition f_opp (x : F) : F := f_sub f_zero x.

(** ** Vectors ([util.cpp]) *)
Definition logistic (x : F) : F := f_div f_one (f_add f_one (f_exp (f_opp x))).
Definition activate_logistic (x : list F) (dim : Z) : outcome (list F) := mapM (fun i => a ← vec_at x i; Ret (logistic a)) (seqZ 0 dim).
Definition matrix_vector_multiply (W : list (list F)) (a : list F) (dim1 dim2 : Z) : outcome (list F) :=
  mapM (fun i => row ← vec_at W i; foldM (fun sum j => w ← vec_at row j; x ← vec_at a j; Ret (f_add sum (f_mul w x))) (seqZ 0 dim2) f_zero) (seqZ 0 dim1).
Definition copy_vec (b : list F) (dim : Z) : outcome (list F) := mapM (vec_at b) (seqZ 0 dim).
Definition add_vector (a b : list F) (dim : Z) : outcome (list F) := mapM (fun i => x ← vec_at a i; y ← vec_at b i; Ret (f_add x y)) (seqZ 0 dim).
Definition log_sum (log_a log_b : F) : F :=
  if f_ltb log_a log_b then f_add log_b (f_log (f_add f_one (f_exp (f_sub log_a log_b))))
  else f_add log_a (f_log (f_add f_one (f_exp (f_sub log_b log_a)))).
Definition log_sum_vec (logvec : list F) (D : Z) : outcome F :=
  sum ← vec_at logvec 0; foldM (fun sum i => x ← vec_at logvec i; Ret (log_sum sum x)) (seqZ 1 (D - 1)) sum.
Definition not_tiny (x : F) : F := if f_ltb (f_abs x) f_tiny then f_tiny else x.
Definition log2ori (vec : list F) (D : Z) : outcome (list F) :=
  vec1 ← mapM (fun i => x ← vec_at vec i; Ret (not_tiny x)) (seqZ 0 D);
  lsum ← log_sum_vec vec1 D;
  mapM (fun i => x ← vec_at vec1 i; Ret (f_exp (f_sub x lsum))) (seqZ 0 D).

(** ** The network *)
Record dnn := mkdnn {
  num_layers : Z; num_units_ineach_layer : list Z; num_epochs : Z; stepsize : F; num_worker_threads : Z; size_minibatch : Z;
  input_features : list (list F); output_labels : list Z; num_train_data : Z; dnn_staleness : Z; dnn_client_id : Z;
  num_smps_evaluate : Z; num_iters_evaluate : Z
}.
Context (net : dnn).
Definition units (l : Z) : outcome Z := vec_at (num_units_ineach_layer net) l.
Abbreviation matrix := (list (list F)).

Definition forward_activation (index_lower_layer : Z) (local_weights : matrix) (local_bias visible : list F) : outcome (list F) :=
  num_units_hidden ← units (index_lower_layer + 1);
  num_units_visible ← units index_lower_layer;
  hidden ← matrix_vector_multiply local_weights visible num_units_hidden num_units_visible;
  hidden' ← add_vector hidden local_bias num_units_hidden;
  if bool_decide (index_lower_layer < num_layers net - 2) then activate_logistic hidden' num_units_hidden
  else if bool_decide (index_lower_layer = num_layers net - 2) then log2ori hidden' num_units_hidden
  else Ret hidden'.

(** [z[0]] is the input; the loop appends [z[i]]. *)
Definition forward_layer (local_weights : list matrix) (local_biases : list (list F)) (z : list (list F)) (i : Z) : outcome (list (list F)) :=
  W ← vec_at local_weights (i - 1); b ← vec_at local_biases (i - 1); visible ← vec_at z (i - 1);
  hidden ← forward_activation (i - 1) W b visible;
  Ret (z ++ [hidden]).
Definition forward (idx_data : Z) (local_weights : list matrix) (local_biases : list (list F)) : outcome (list (list F)) :=
  x ← vec_at (input_features net) idx_data; n ← units 0; z0 ← copy_vec x n;
  foldM (forward_layer local_weights local_biases) (seqZ 1 (num_layers net - 1)) [z0].

Definition compute_error_output_layer (activation_output_layer : list F) (idx_data : Z) : outcome (list F) :=
  num_units_output_layer ← units (num_layers net - 1);
  label ← vec_at (output_labels net) idx_data;
  mapM (fun k => a ← vec_at activation_output_layer k; Ret (if bool_decide (label = k) then f_sub a f_one else a)) (seqZ 0 num_units_output_layer).

Definition backward_error_computation (index_lower_index : Z) (local_weights : matrix) (activation error_higher_layer : list F) : outcome (list F) :=
  num_j ← units (index_lower_index + 1);
  num_k ← units (index_lower_index + 2);
  error ← foldM (fun error k =>
      mapM (fun j => e ← vec_at error j; row ← vec_at local_weights k; w ← vec_at row j; h ← vec_at error_higher_layer k; Ret (f_add e (f_mul w h))) (seqZ 0 num_j))
    (seqZ 0 num_k) (replicate (Z.to_nat num_j) f_zero);
  mapM (fun j => e ← vec_at error j; a ← vec_at activation j; Ret (f_mul e (f_mul a (f_sub f_one a)))) (seqZ 0 num_j).

(** The errors from [delta[l]] on; the loop goes down. *)
Definition backward_layer (local_weights : list matrix) (z delta : list (list F)) (l : Z) : outcome (list (list F)) :=
  W ← vec_at local_weights (l + 1); activation ← vec_at z (l + 1); higher ← vec_at delta 0;
  lower ← backward_error_computation l W activation higher;
  Ret (lower :: delta).
Definition backward (idx_data : Z) (local_weights : list matrix) (z : list (list F)) : outcome (list (list F)) :=
  out ← vec_at z (num_layers net - 1);
  d ← compute_error_output_layer out idx_data;
  foldM (backward_layer local_weights z) (rev (seqZ 0 (num_layers net - 2))) [d].

(** [m[j][i] += d[j] * x[i]] *)
Definition accumulate_weights (m : matrix) (d x : list F) (dim1 dim2 : Z) : outcome matrix :=
  mapM (fun j => row ← vec_at m j; mapM (fun i => w ← vec_at row i; dj ← vec_at d j; xi ← vec_at x i; Ret (f_add w (f_mul dj xi))) (seqZ 0 dim2)) (seqZ 0 dim1).

Definition gradients := (list matrix * list (list F))%type.
Definition compute_gradient_single_data (local_weights : list matrix) (local_biases : list (list F)) (g : gradients) (idx_data : Z) : outcome gradients :=
  z ← forward idx_data local_weights local_biases;
  delta ← backward idx_data local_weights z;
  delta_weights ← mapM (fun l => dim1 ← units (l + 1); dim2 ← units l; m ← vec_at g.1 l; d ← vec_at delta l; x ← vec_at z l; accumulate_weights m d x dim1 dim2)
    (seqZ 0 (num_layers net - 1));
  delta_biases ← mapM (fun l => dim ← units l; b ← vec_at g.2 (l - 1); d ← vec_at delta (l - 1); add_vector b d dim) (seqZ 1 (num_layers net - 1));
  Ret (delta_weights, delta_biases).

(** ** A mini batch *)
Inductive dnn_event :=
  | WeightInc (l row : Z) (batch : list (Z * F)) | BiasInc (l : Z) (batch : list (Z * F))
  | DnnClock | DnnBarrier | PrintDnnLoss (loss : F) | SaveModel.

(** Rows of the tables after what the worker has done, and what it draws. *)
Record dnn_env := mkdnn_env {
  de_weights : list dnn_event -> Z -> Z -> list F;     (* table, row *)
  de_biases : list dnn_event -> Z -> list F;
  de_rand : nat -> Z;                                  (* [rand()] for the mini batches *)
  de_init_rand : nat -> Z                              (* [rand()] for the initial parameters *)
}.
Context (env : dnn_env).

Definition zero_gradients : outcome gradients :=
  w ← mapM (fun l => dim1 ← units (l + 1); dim2 ← units l; Ret (replicate (Z.to_nat dim1) (replicate (Z.to_nat dim2) f_zero))) (seqZ 0 (num_layers net - 1));
  b ← mapM (fun l => dim ← units (l + 1); Ret (replicate (Z.to_nat dim) f_zero)) (seqZ 0 (num_layers net - 1));
  Ret (w, b).

(** The local copy of the parameters, a row after the other in the order of
    the permutation. *)
Definition fetch_row (tr : list dnn_event) (l dim2 : Z) (perm : list Z) (m : matrix) (j : Z) : outcome matrix :=
  rnd_idx ← vec_at perm j; row ← copy_vec (de_weights env tr l rnd_idx) dim2; vec_set m rnd_idx row.
Definition fetch_weights (tr : list dnn_event) (perms : list (list Z)) (local_weights : list matrix) : outcome (list matrix) :=
  mapM (fun l => dim1 ← units (l + 1); dim2 ← units l; perm ← vec_at perms l; m ← vec_at local_weights l; foldM (fetch_row tr l dim2 perm) (seqZ 0 dim1) m)
    (seqZ 0 (num_layers net - 1)).
Definition fetch_biases (tr : list dnn_event) (perm : list Z) (local_biases : list (list F)) : outcome (list (list F)) :=
  foldM (fun bs l => rnd_idx ← vec_at perm l; dim ← units (rnd_idx + 1); b ← copy_vec (de_biases env tr rnd_idx) dim; vec_set bs rnd_idx b)
    (seqZ 0 (num_layers net - 1)) local_biases.

Definition scaled (coeff_update : F) (row : list F) (dim : Z) : outcome (list (Z * F)) := mapM (fun i => x ← vec_at row i; Ret (i, f_mul coeff_update x)) (seqZ 0 dim).
Definition coeff_update : F := f_div (f_opp (stepsize net)) (f_of_Z (size_minibatch net)).
Definition weight_updates (perms : list (list Z)) (delta_weights : list matrix) : outcome (list dnn_event) :=
  evs ← mapM (fun l => dim1 ← units (l + 1); dim2 ← units l; perm ← vec_at perms l; m ← vec_at delta_weights l;
      mapM (fun j => rnd_idx ← vec_at perm j; row ← vec_at m rnd_idx; b ← scaled coeff_update row dim2; Ret (WeightInc l rnd_idx b)) (seqZ 0 dim1))
    (seqZ 0 (num_layers net - 1));
  Ret (concat evs).
Definition bias_updates (perm : list Z) (delta_biases : list (list F)) : outcome (list dnn_event) :=
  mapM (fun l => rnd_idx ← vec_at perm l; dim ← units (rnd_idx + 1); d ← vec_at delta_biases rnd_idx; b ← scaled coeff_update d dim; Ret (BiasInc rnd_idx b))
    (seqZ 0 (num_layers net - 1)).

Record train_state := mktrain { ts_weights : list matrix; ts_biases : list (list F); ts_trace : list dnn_event }.
Definition sgd_mini_batch (idxes_batch : list Z) (rand_idxes_weight : list (list Z)) (rand_idxes_bias : list Z) (s : train_state) : outcome train_state :=
  g0 ← zero_gradients;
  W ← fetch_weights (ts_trace s) rand_idxes_weight (ts_weights s);
  B ← fetch_biases (ts_trace s) rand_idxes_bias (ts_biases s);
  g ← foldM (fun g i => idx ← vec_at idxes_batch i; compute_gradient_single_data W B g idx) (seqZ 0 (size_minibatch net)) g0;
  ws ← weight_updates rand_idxes_weight g.1;
  bs ← bias_updates rand_idxes_bias g.2;
  Ret (mktrain W B (ts_trace s ++ ws ++ bs)).

(** ** The loss *)
Definition compute_cross_entropy_loss (output : list F) (idx_data : Z) : outcome F :=
  label ← vec_at (output_labels net) idx_data;
  o ← vec_at output label;
  Ret (f_sub f_zero (f_log (not_tiny o))).

(** [draws] are the numbers from [rand] of this call. *)
Definition evaluated (draws : nat -> Z) (smp : Z) : bool :=
  negb (f_ltb (f_div (f_of_Z (num_smps_evaluate net)) (f_of_Z (num_train_data net))) (f_frac (Z.rem (draws (Z.to_nat smp)) 100000) 100000)).
Definition loss_step (draws : nat -> Z) (weights : list matrix) (biases : list (list F)) (s : F * Z) (smp : Z) : outcome (F * Z) :=
  if evaluated draws smp then
    z ← forward smp weights biases; out ← vec_at z (num_layers net - 1); l ← compute_cross_entropy_loss out smp;
    Ret (f_add s.1 l, s.2 + 1)
  else Ret s.
Definition compute_loss (draws : nat -> Z) (weights : list matrix) (biases : list (list F)) : outcome F :=
  '(loss, cnt) ← foldM (loss_step draws weights biases) (seqZ 0 (num_train_data net)) (f_zero, 0);
  Ret (f_div loss (f_of_Z cnt)).

(** ** Training *)

(** The generator is seeded anew before each draw for a permutation:
    [shuffles n] are the draws for the [n]-th one. *)
Definition permutations (shuffles : nat -> Z -> Z) : outcome (list (list Z) * list Z) :=
  ws ← mapM (fun l => dim ← units (l + 1); random_shuffle (shuffles (Z.to_nat l)) 0 (seqZ 0 dim)) (seqZ 0 (num_layers net - 1));
  bs ← random_shuffle (shuffles (Z.to_nat (num_layers net - 1))) 0 (seqZ 0 (num_layers net - 1));
  Ret (ws, bs).
Definition rand_init_vec_int (first : nat) (dim max_int : Z) : outcome (list Z) :=
  mapM (fun i => if bool_decide (max_int = 0) then Undef else Ret (Z.rem (de_rand env (first + Z.to_nat i)) max_int)) (seqZ 0 dim).

Definition read_parameters (tr : list dnn_event) : outcome (list matrix * list (list F)) :=
  w ← mapM (fun l => dim1 ← units (l + 1); dim2 ← units l; mapM (fun j => copy_vec (de_weights env tr l j) dim2) (seqZ 0 dim1)) (seqZ 0 (num_layers net - 1));
  b ← mapM (fun l => dim ← units (l + 1); copy_vec (de_biases env tr l) dim) (seqZ 0 (num_layers net - 1));
  Ret (w, b).

(** Iteration [it] (from 1) of a thread; [draws it] are the numbers [rand]
    gives to an evaluation after it.  The remainder by zero is undefined. *)
Definition train_iteration (thread_id : Z) (draws : Z -> nat -> Z) (perms : list (list Z) * list Z) (s : train_state) (it : Z) : outcome train_state :=
  idxes_batch ← rand_init_vec_int (Z.to_nat ((it - 1) * size_minibatch net)) (size_minibatch net) (num_train_data net);
  s1 ← sgd_mini_batch idxes_batch perms.1 perms.2 s;
  let s2 := mktrain (ts_weights s1) (ts_biases s1) (ts_trace s1 ++ [DnnClock]) in
  if bool_decide (num_iters_evaluate net = 0) then Undef
  else if bool_decide (Z.rem it (num_iters_evaluate net) = 0 /\ dnn_client_id net = 0 /\ thread_id = 0) then
    '(W, B) ← read_parameters (ts_trace s2);
    loss ← compute_loss (draws it) W B;
    Ret (mktrain W B (ts_trace s2 ++ [PrintDnnLoss loss]))
  else Ret s2.
Definition train (thread_id : Z) (shuffles : nat -> Z -> Z) (draws : Z -> nat -> Z) (tr : list dnn_event) : outcome (list dnn_event) :=
  if bool_decide (num_worker_threads net = 0 \/ size_minibatch net = 0) then Undef
  else
    let inner_iter := Z.quot (Z.quot (num_train_data net) (num_worker_threads net)) (size_minibatch net) in
    g0 ← zero_gradients;
    perms ← permutations shuffles;
    s ← foldM (train_iteration thread_id draws perms) (seqZ 1 (num_epochs net * inner_iter)) (mktrain g0.1 g0.2 tr);
    Ret (ts_trace s).

(** [randfloat ()] of the [n]-th draw. *)
Definition randfloat (n : nat) : F := f_frac (Z.rem (de_init_rand env n) 1001 * 2 - 1000) 10000.
(** The batch of a row is sent after each of its entries. *)
Definition init_weight_row (l j num_cols : Z) (first : nat) : list dnn_event :=
  map (fun k => WeightInc l j (map (fun k' => (k', randfloat (first + Z.to_nat k'))) (seqZ 0 (k + 1)))) (seqZ 0 num_cols).
Definition init_layer (s : list dnn_event * nat) (l : Z) : outcome (list dnn_event * nat) :=
  num_rows ← units (l + 1); num_cols ← units l;
  let first_bias := (s.2 + Z.to_nat num_rows * Z.to_nat num_cols)%nat in
  Ret (s.1 ++ concat (map (fun j => init_weight_row l j num_cols (s.2 + Z.to_nat j * Z.to_nat num_cols)) (seqZ 0 num_rows)) ++
       [BiasInc l (map (fun j => (j, randfloat (first_bias + Z.to_nat j))) (seqZ 0 num_rows))],
       (first_bias + Z.to_nat num_rows)%nat).
Definition init_paras : outcome (list dnn_event) :=
  s ← foldM init_layer (seqZ 0 (num_layers net - 1)) ([], O); Ret s.1.

Definition run (thread_id : Z) (shuffles : nat -> Z -> Z) (draws : Z -> nat -> Z) : outcome (list dnn_event) :=
  let stale_clocks := replicate (Z.to_nat (dnn_staleness net)) DnnClock in
  let first := bool_decide (dnn_client_id net = 0 /\ thread_id = 0) in
  init ← (if first then init_paras else Ret []);
  tr ← train thread_id shuffles draws (stale_clocks ++ init ++ [DnnBarrier]);
  Ret (tr ++ stale_clocks ++ (if first then [SaveModel] else [])).
End DNN.

Arguments dnn : clear implicits.
Arguments dnn_event : clear implicits.
Arguments dnn_env : clear implicits.
Arguments train_state : clear implicits.
