(* ===== verification/DnnProps.v ===== *)
(** * Neural network: a step goes against the gradient

    Backward propagation computes the derivative of the cross-entropy loss:
    what a mini batch sends to the tables is the step size times the
    derivative of the mean of the losses of its examples, with real numbers
    in place of floating-point ones ([RealCalculus]). *)
From Stdlib Require Import Reals Lra FunctionalExtensionality ClassicalEpsilon.
From S2P Require Import Prelude StradsFloat Dnn.
Open Scope Z_scope.

(** ** Loops *)
Lemma foldM_from_inv {S} (f : S -> Z -> outcome S) (P : nat -> S -> Prop) i n s : P O s ->
  (forall k s, (k < n)%nat -> P k s -> exists s', f s (i + Z.of_nat k) = Ret s' /\ P (Datatypes.S k) s') ->
  exists s', foldM f (seqZ i (Z.of_nat n)) s = Ret s' /\ P n s'.
Proof.
  intros Hs Hf. induction n as [|n IH]; [by exists s|]. destruct IH as (s1 & E & H1); [intros k s1 Hk; apply Hf; lia|].
  destruct (Hf n s1 ltac:(lia) H1) as (s2 & E2 & H2). exists s2. split; [|done].
  rewrite seqZ_S, foldM_app, E. cbn. by rewrite E2.
Qed.
Lemma foldM_down_inv {S} (f : S -> Z -> outcome S) (P : nat -> S -> Prop) n s : P n s ->
  (forall k s, (k < n)%nat -> P (Datatypes.S k) s -> exists s', f s (Z.of_nat k) = Ret s' /\ P k s') ->
  exists s', foldM f (rev (seqZ 0 (Z.of_nat n))) s = Ret s' /\ P O s'.
Proof.
  revert s. induction n as [|n IH]; intros s Hs Hf; [by exists s|]. destruct (Hf n s ltac:(lia) Hs) as (s1 & E1 & H1).
  rewrite seqZ_S, Z.add_0_l, rev_app_distr. cbn [rev app foldM]. rewrite E1. cbn [mbind outcome_bind]. apply IH; [done|]. intros k s2 Hk. apply Hf. lia.
Qed.

(** ** Vectors as functions *)
Definition vecf {A} (n : Z) (f : Z -> A) : list A := map f (seqZ 0 n).
Lemma vecf_length {A} n (f : Z -> A) : length (vecf n f) = Z.to_nat n.
Proof. unfold vecf. by rewrite length_map, length_seqZ. Qed.
Lemma vecf_at {A} n (f : Z -> A) k : 0 <= k < n -> vec_at (vecf n f) k = Ret (f k).
Proof. intros Hk. apply vec_at_Ret. split; [lia|]. unfold vecf. change (map f ?l) with (f <$> l). rewrite list_lookup_fmap, lookup_seqZ_lt by lia. cbn. by rewrite Z.add_0_l, Z2Nat.id by lia. Qed.
Lemma vecf_ext {A} n (f g : Z -> A) : (forall k, 0 <= k < n -> f k = g k) -> vecf n f = vecf n g.
Proof. intros E. apply map_ext_in. intros k Hk%list_elem_of_In%elem_of_seqZ. apply E. lia. Qed.
Lemma mapM_vecf {A} n (f : Z -> outcome A) g : (forall k, 0 <= k < n -> f k = Ret (g k)) -> mapM f (seqZ 0 n) = Ret (vecf n g).
Proof. intros E. apply mapM_pure. intros k Hk%elem_of_seqZ. apply E. lia. Qed.
Lemma vecf_replicate {A} n (x : A) : replicate (Z.to_nat n) x = vecf n (fun _ => x).
Proof. unfold vecf. rewrite <- (length_seqZ 0 n) at 1. generalize (seqZ 0 n). intros l. induction l as [|k l IH]; [done|]. cbn. by rewrite IH. Qed.
Lemma vecf_S {A} (f : Z -> A) n : vecf (Z.of_nat (S n)) f = vecf (Z.of_nat n) f ++ [f (Z.of_nat n)].
Proof. unfold vecf. by rewrite seqZ_S, map_app. Qed.

(** ** Sums *)
Section SUM.
Context {F : Type} `{ExactFloat F}.
Add Ring F_ring_sum : ef_ring.
Definition sumz (n : Z) (f : Z -> F) : F := rsum (vecf n f).
Lemma sumz_ext n f g : (forall k, 0 <= k < n -> f k = g k) -> sumz n f = sumz n g.
Proof. intros E. unfold sumz. by rewrite (vecf_ext n f g E). Qed.
Lemma sumz_add n f g : sumz n (fun k => f_add (f k) (g k)) = f_add (sumz n f) (sumz n g).
Proof. apply rsum_map_add. Qed.
Lemma sumz_mul n c f : sumz n (fun k => f_mul c (f k)) = f_mul c (sumz n f).
Proof. apply (rsum_map_mul f c). Qed.
Lemma sumz_zero n : sumz n (fun _ => f_zero) = f_zero.
Proof. unfold sumz, vecf. induction (seqZ 0 n) as [|k l IH]; [done|]. cbn [map]. rewrite rsum_cons, IH. ring. Qed.
Lemma sumz_S (f : Z -> F) n : sumz (Z.of_nat (S n)) f = f_add (sumz (Z.of_nat n) f) (f (Z.of_nat n)).
Proof. unfold sumz. rewrite vecf_S, rsum_app, rsum_cons, rsum_nil. ring. Qed.
Lemma sumz_swap n m (f : Z -> Z -> F) : sumz n (fun i => sumz m (fun j => f i j)) = sumz m (fun j => sumz n (fun i => f i j)).
Proof.
  assert (Hg : forall l, rsum (map (fun i => sumz m (fun j => f i j)) l) = sumz m (fun j => rsum (map (fun i => f i j) l))).
  { induction l as [|i l IH]; cbn [map]; [symmetry; apply sumz_zero|]. rewrite rsum_cons, IH, <- sumz_add. apply sumz_ext. intros j _. by rewrite rsum_cons. }
  apply Hg.
Qed.
Lemma foldM_sum (f : Z -> outcome F) g n : (forall k, 0 <= k < n -> f k = Ret (g k)) -> foldM (fun s k => x ← f k; Ret (f_add s x)) (seqZ 0 n) f_zero = Ret (sumz n g).
Proof.
  intros E. rewrite (foldM_pure _ (fun s k => f_add s (g k))).
  - rewrite (foldl_add_rsum g). unfold sumz, vecf. f_equal. ring.
  - intros s k Hk%elem_of_seqZ. by rewrite E by lia.
Qed.
End SUM.

(** ** The network as functions *)
Section NET.
Context {F : Type} `{ExactFloat F} `{!ExpLog F}.
Context (f_tiny : F) (net : dnn F) (L : nat) (u : Z -> Z).

(** [L] layers, the [l]-th with [u l] units. *)
Record net_ok : Prop := {
  no_layers : num_layers net = Z.of_nat L;
  no_two : (2 <= L)%nat;
  no_units : num_units_ineach_layer net = vecf (Z.of_nat L) u;
  no_pos l : 0 < u l
}.
Context (Hnet : net_ok).

Definition weights_list (W : Z -> Z -> Z -> F) : list (list (list F)) := vecf (Z.of_nat L - 1) (fun l => vecf (u (l + 1)) (fun j => vecf (u l) (W l j))).
Definition biases_list (B : Z -> Z -> F) : list (list F) := vecf (Z.of_nat L - 1) (fun l => vecf (u (l + 1)) (B l)).

Definition lsum (D : Z) (v : Z -> F) : F := foldl (fun s i => log_sum s (v i)) (v 0) (seqZ 1 (D - 1)).
Definition softmax (D : Z) (a : Z -> F) (k : Z) : F := f_exp (f_sub (not_tiny f_tiny (a k)) (lsum D (fun k => not_tiny f_tiny (a k)))).

Section PARAMETERS.
Context (W : Z -> Z -> Z -> F) (B : Z -> Z -> F).
(** What goes into the units of layer [l + 1], and what comes out. *)
Definition pre (z : Z -> F) (l k : Z) : F := f_add (sumz (u l) (fun j => f_mul (W l k j) (z j))) (B l k).
Definition act (l : Z) (a : Z -> F) : Z -> F := if bool_decide (l < Z.of_nat L - 2) then fun k => logistic (a k) else softmax (u (l + 1)) a.
Fixpoint zn (x : Z -> F) (n : nat) : Z -> F := match n with O => x | S n' => act (Z.of_nat n') (pre (zn x n') (Z.of_nat n')) end.

(** The errors, from the output down: [deltan m] belongs to layer
    [L - 1 - m]. *)
Fixpoint deltan (x : Z -> F) (label : Z) (m : nat) : Z -> F :=
  match m with
  | O => fun k => if bool_decide (label = k) then f_sub (zn x (L - 1) k) f_one else zn x (L - 1) k
  | S m' => fun j => let l := Z.of_nat (L - 1 - m) in let a := zn x (L - 1 - m) j in
      f_mul (sumz (u (l + 1)) (fun k => f_mul (W l k j) (deltan x label m' k))) (f_mul a (f_sub f_one a))
  end.

Lemma units_at l : 0 <= l < Z.of_nat L -> units net l = Ret (u l).
Proof. intros Hl. unfold units. rewrite (no_units Hnet). by apply vecf_at. Qed.
Lemma row_of (l : list F) n : Z.of_nat (length l) >= n -> copy_vec l n = Ret (vecf n (fun k => nth (Z.to_nat k) l f_zero)).
Proof.
  intros Hl. unfold copy_vec. apply mapM_vecf. intros k Hk. apply vec_at_Ret. split; [lia|]. rewrite nth_lookup. destruct (lookup_lt_is_Some_2 l (Z.to_nat k) ltac:(lia)) as (x & ->). done.
Qed.

Lemma log2ori_spec a D : 0 < D -> log2ori f_tiny (vecf D a) D = Ret (vecf D (softmax D a)).
Proof.
  intros HD. unfold log2ori. rewrite (mapM_vecf D _ (fun k => not_tiny f_tiny (a k))) by (intros k Hk; by rewrite vecf_at). cbn [mbind outcome_bind].
  unfold log_sum_vec. rewrite vecf_at by lia. cbn [mbind outcome_bind]. rewrite (foldM_pure _ (fun s i => log_sum s (not_tiny f_tiny (a i)))).
  - cbn [mbind outcome_bind]. apply mapM_vecf. intros k Hk. by rewrite vecf_at.
  - intros s i Hi%elem_of_seqZ. by rewrite vecf_at by lia.
Qed.

Lemma forward_activation_spec l z : 0 <= l < Z.of_nat L - 1 ->
  forward_activation f_tiny net l (vecf (u (l + 1)) (fun j => vecf (u l) (W l j))) (vecf (u (l + 1)) (B l)) (vecf (u l) z) = Ret (vecf (u (l + 1)) (act l (pre z l))).
Proof.
  intros Hl. unfold forward_activation. rewrite !units_at by lia. cbn [mbind outcome_bind]. unfold matrix_vector_multiply.
  rewrite (mapM_vecf _ _ (fun k => sumz (u l) (fun j => f_mul (W l k j) (z j)))).
  2: { intros k Hk. rewrite vecf_at by done. cbn [mbind outcome_bind]. rewrite <- (foldM_sum (fun j => Ret (f_mul (W l k j) (z j))) (fun j => f_mul (W l k j) (z j))) by done.
       assert (E : forall idx s, Forall (fun j => 0 <= j < u l) idx -> foldM (fun sum j => w ← vec_at (vecf (u l) (W l k)) j; x ← vec_at (vecf (u l) z) j; Ret (f_add sum (f_mul w x))) idx s =
         foldM (fun s j => x ← Ret (f_mul (W l k j) (z j)); Ret (f_add s x)) idx s).
       { intros idx. induction idx as [|j idx IH]; intros s Hi; [done|]. apply Forall_cons in Hi as [Hj Hi]. cbn [foldM]. rewrite !vecf_at by done. cbn [mbind outcome_bind]. by apply IH. }
       apply E, Forall_forall. intros j Hj%elem_of_seqZ. lia. }
  cbn [mbind outcome_bind]. unfold add_vector. rewrite (mapM_vecf _ _ (pre z l)) by (intros k Hk; by rewrite !vecf_at). cbn [mbind outcome_bind].
  rewrite (no_layers Hnet). unfold act. case_bool_decide as Hh.
  - unfold activate_logistic. apply mapM_vecf. intros k Hk. by rewrite vecf_at.
  - rewrite bool_decide_true by lia. apply log2ori_spec. apply (no_pos Hnet).
Qed.

Lemma forward_spec idx input : input_features net !! Z.to_nat idx = Some input -> 0 <= idx -> Z.of_nat (length input) >= u 0 ->
  let x k := nth (Z.to_nat k) input f_zero in
  forward f_tiny net idx (weights_list W) (biases_list B) = Ret (vecf (Z.of_nat L) (fun l => vecf (u l) (zn x (Z.to_nat l)))).
Proof.
  intros Hin Hidx Hlen x. pose proof (no_two Hnet) as HL. unfold forward. rewrite (proj2 (vec_at_Ret _ idx input)) by done. cbn [mbind outcome_bind].
  rewrite units_at by lia. cbn [mbind outcome_bind]. rewrite row_of by done. cbn [mbind outcome_bind]. rewrite (no_layers Hnet). replace (Z.of_nat L - 1) with (Z.of_nat (L - 1)) by lia.
  destruct (foldM_from_inv (forward_layer f_tiny net (weights_list W) (biases_list B)) (fun n z => z = vecf (Z.of_nat (S n)) (fun l => vecf (u l) (zn x (Z.to_nat l)))) 1 (L - 1) [vecf (u 0) x]) as (z & E & Hz).
  - done.
  - intros n z Hn ->. eexists. split; [|done]. unfold forward_layer. replace (1 + Z.of_nat n - 1) with (Z.of_nat n) by lia. unfold weights_list, biases_list. rewrite !vecf_at by lia. cbn [mbind outcome_bind].
    rewrite forward_activation_spec by lia. cbn [mbind outcome_bind]. rewrite Nat2Z.id, (vecf_S _ (S n)). do 3 f_equal. replace (Z.of_nat n + 1) with (Z.of_nat (S n)) by lia. rewrite Nat2Z.id. done.
  - etransitivity; [exact E|]. rewrite Hz. by replace (S (L - 1)) with L by lia.
Qed.

Lemma backward_error_spec l a e : 0 <= l < Z.of_nat L - 2 ->
  backward_error_computation net l (vecf (u (l + 2)) (fun k => vecf (u (l + 1)) (W (l + 1) k))) (vecf (u (l + 1)) a) (vecf (u (l + 2)) e) =
    Ret (vecf (u (l + 1)) (fun j => f_mul (sumz (u (l + 2)) (fun k => f_mul (W (l + 1) k j) (e k))) (f_mul (a j) (f_sub f_one (a j))))).
Proof.
  intros Hl. pose proof (no_pos Hnet (l + 2)) as Hpos. unfold backward_error_computation. rewrite !units_at by lia. cbn [mbind outcome_bind]. rewrite vecf_replicate.
  assert (Hk : u (l + 2) = Z.of_nat (Z.to_nat (u (l + 2)))) by lia. rewrite Hk at 1.
  match goal with |- context [foldM ?f (seqZ 0 ?cnt) ?s] =>
    destruct (foldM_from_inv f (fun n err => err = vecf (u (l + 1)) (fun j => sumz (Z.of_nat n) (fun k => f_mul (W (l + 1) k j) (e k)))) 0 (Z.to_nat (u (l + 2))) s) as (err & E & He) end.
  - done.
  - intros k err Hlt ->. eexists. split; [|done]. rewrite Z.add_0_l. apply mapM_vecf. intros j Hj. rewrite !vecf_at by lia. cbn [mbind outcome_bind]. rewrite !vecf_at by lia. cbn [mbind outcome_bind].
    f_equal. by rewrite sumz_S.
  - rewrite E. cbn [mbind outcome_bind]. rewrite He, <- Hk. apply mapM_vecf. intros j Hj. by rewrite !vecf_at.
Qed.

Definition delta_at (x : Z -> F) (label l : Z) : Z -> F := deltan x label (Z.to_nat (Z.of_nat L - 2 - l)).
Lemma backward_spec idx label x : output_labels net !! Z.to_nat idx = Some label -> 0 <= idx ->
  backward net idx (weights_list W) (vecf (Z.of_nat L) (fun l => vecf (u l) (zn x (Z.to_nat l)))) = Ret (vecf (Z.of_nat L - 1) (fun l => vecf (u (l + 1)) (delta_at x label l))).
Proof.
  intros Hlab Hidx. pose proof (no_two Hnet) as HL. unfold backward. rewrite (no_layers Hnet), vecf_at by lia. cbn [mbind outcome_bind].
  unfold compute_error_output_layer. rewrite (no_layers Hnet), units_at by lia. cbn [mbind outcome_bind]. rewrite (proj2 (vec_at_Ret _ idx label)) by done. cbn [mbind outcome_bind].
  rewrite (mapM_vecf _ _ (deltan x label 0)).
  2: { intros k Hk. rewrite vecf_at by done. cbn [mbind outcome_bind deltan]. by replace (Z.to_nat (Z.of_nat L - 1)) with (L - 1)%nat by lia. }
  cbn [mbind outcome_bind]. replace (Z.of_nat L - 2) with (Z.of_nat (L - 2)) by lia.
  set (g := fun l => vecf (u (l + 1)) (delta_at x label l)).
  destruct (foldM_down_inv (backward_layer net (weights_list W) (vecf (Z.of_nat L) (fun l => vecf (u l) (zn x (Z.to_nat l)))))
    (fun n ds => ds = map g (seqZ (Z.of_nat n) (Z.of_nat L - 1 - Z.of_nat n))) (L - 2) [vecf (u (Z.of_nat L - 1)) (deltan x label 0)]) as (ds & E & Hds).
  - rewrite seqZ_cons, seqZ_nil by lia. cbn [map]. unfold g, delta_at. replace (Z.of_nat (L - 2) + 1) with (Z.of_nat L - 1) by lia. by replace (Z.to_nat (Z.of_nat L - 2 - Z.of_nat (L - 2))) with 0%nat by lia.
  - intros n ds Hn ->. eexists. split; [|done]. unfold backward_layer. unfold weights_list. rewrite !vecf_at by lia. cbn [mbind outcome_bind].
    assert (Eg : g (Z.of_nat (S n)) = vecf (u (Z.of_nat n + 2)) (delta_at x label (Z.of_nat (S n)))) by (unfold g; by replace (Z.of_nat (S n) + 1) with (Z.of_nat n + 2) by lia).
    replace (Z.of_nat L - 1 - Z.of_nat n) with (Z.succ (Z.of_nat L - 1 - Z.of_nat (S n))) by lia.
    rewrite (seqZ_cons (Z.of_nat n)), Z.pred_succ, <- Nat2Z.inj_succ by lia. cbn [map].
    assert (Eh : vec_at (map g (seqZ (Z.of_nat (S n)) (Z.of_nat L - 1 - Z.of_nat (S n)))) 0 = Ret (g (Z.of_nat (S n)))) by (rewrite seqZ_cons by lia; done).
    rewrite Eh. cbn [mbind outcome_bind]. rewrite Eg. replace (Z.of_nat n + 1 + 1) with (Z.of_nat n + 2) by lia. rewrite backward_error_spec by lia. cbn [mbind outcome_bind].
    do 2 f_equal. unfold g, delta_at. apply vecf_ext. intros j Hj. replace (Z.to_nat (Z.of_nat L - 2 - Z.of_nat n)) with (S (Z.to_nat (Z.of_nat L - 2 - Z.of_nat (S n)))) by lia. cbn [deltan].
    replace (L - 1 - S (Z.to_nat (Z.of_nat L - 2 - Z.of_nat (S n))))%nat with (S n) by lia. replace (Z.to_nat (Z.of_nat n + 1)) with (S n) by lia.
    replace (Z.of_nat (S n) + 1) with (Z.of_nat n + 2) by lia. replace (Z.of_nat (S n)) with (Z.of_nat n + 1) by lia. done.
  - etransitivity; [exact E|]. rewrite Hds. unfold vecf. by replace (Z.of_nat L - 1 - Z.of_nat 0) with (Z.of_nat L - 1) by lia.
Qed.

(** *** The gradient of an example *)
Definition grad_W (x : Z -> F) (label l j i : Z) : F := f_mul (delta_at x label l j) (zn x (Z.to_nat l) i).
Definition grad_B (x : Z -> F) (label l j : Z) : F := delta_at x label l j.

Lemma map_seqZ_shift {A} (h : Z -> A) n : map (fun l => h (l - 1)) (seqZ 1 n) = vecf n h.
Proof. unfold vecf. change 1 with (1 + 0) at 2. rewrite <- fmap_add_seqZ. change (Z.add 1 <$> ?l) with (map (Z.add 1) l). rewrite map_map. apply map_ext. intros l. f_equal. lia. Qed.

Lemma compute_gradient_spec GW GB idx input label : let x k := nth (Z.to_nat k) input f_zero in
  input_features net !! Z.to_nat idx = Some input -> output_labels net !! Z.to_nat idx = Some label -> 0 <= idx -> Z.of_nat (length input) >= u 0 ->
  compute_gradient_single_data f_tiny net (weights_list W) (biases_list B) (weights_list GW, biases_list GB) idx =
    Ret (weights_list (fun l j i => f_add (GW l j i) (grad_W x label l j i)), biases_list (fun l j => f_add (GB l j) (grad_B x label l j))).
Proof.
  intros x Hin Hlab Hidx Hlen. pose proof (no_two Hnet) as HL. unfold compute_gradient_single_data. rewrite (forward_spec idx input Hin Hidx Hlen). cbn [mbind outcome_bind].
  fold x. rewrite (backward_spec idx label x Hlab Hidx). cbn [mbind outcome_bind fst snd]. rewrite (no_layers Hnet).
  rewrite (mapM_vecf _ _ (fun l => vecf (u (l + 1)) (fun j => vecf (u l) (fun i => f_add (GW l j i) (grad_W x label l j i))))).
  - cbn [mbind outcome_bind]. rewrite (mapM_pure _ (fun l => vecf (u (l - 1 + 1)) (fun j => f_add (GB (l - 1) j) (grad_B x label (l - 1) j)))).
    + cbn [mbind outcome_bind]. do 2 f_equal. apply (map_seqZ_shift (fun l => vecf (u (l + 1)) (fun j => f_add (GB l j) (grad_B x label l j)))).
    + intros l Hl%elem_of_seqZ. rewrite units_at by lia. cbn [mbind outcome_bind]. unfold biases_list. rewrite !vecf_at by lia. cbn [mbind outcome_bind]. unfold add_vector.
      replace (l - 1 + 1) with l by lia. apply mapM_vecf. intros j Hj. by rewrite !vecf_at.
  - intros l Hl. rewrite !units_at by lia. cbn [mbind outcome_bind]. unfold weights_list. rewrite !vecf_at by lia. cbn [mbind outcome_bind]. unfold accumulate_weights.
    apply mapM_vecf. intros j Hj. rewrite !vecf_at by done. cbn [mbind outcome_bind]. apply mapM_vecf. intros i Hi. by rewrite !vecf_at.
Qed.
End PARAMETERS.
End NET.

(** ** Derivatives *)

(** What the proof needs of real functions: [has_d x x'] says that [x], which
    may depend on something, changes with the rate [x']. *)
Class RealCalculus (F : Type) `{ExactFloat F} `{!ExpLog F} := {
  pos : F -> Prop;
  has_d : F -> F -> Prop;
  rc_pos_one : pos f_one;
  rc_pos_add a b : pos a -> pos b -> pos (f_add a b);
  rc_pos_exp a : pos (f_exp a);
  rc_div a b : pos b -> f_mul (f_div a b) b = a;
  rc_cancel a b c : pos c -> f_mul a c = f_mul b c -> a = b;
  rc_exp_add a b : f_exp (f_add a b) = f_mul (f_exp a) (f_exp b);
  rc_exp_log a : pos a -> f_exp (f_log a) = a;
  rc_log_exp a : f_log (f_exp a) = a;
  rc_d_zero : has_d f_zero f_zero;
  rc_d_one : has_d f_one f_zero;
  rc_d_add x x' y y' : has_d x x' -> has_d y y' -> has_d (f_add x y) (f_add x' y');
  rc_d_sub x x' y y' : has_d x x' -> has_d y y' -> has_d (f_sub x y) (f_sub x' y');
  rc_d_mul x x' y y' : has_d x x' -> has_d y y' -> has_d (f_mul x y) (f_add (f_mul x' y) (f_mul x y'));
  rc_d_div x x' y y' : pos y -> has_d x x' -> has_d y y' -> has_d (f_div x y) (f_div (f_sub (f_mul x' y) (f_mul x y')) (f_mul y y));
  rc_d_exp x x' : has_d x x' -> has_d (f_exp x) (f_mul (f_exp x) x');
  rc_d_log x x' : pos x -> has_d x x' -> has_d (f_log x) (f_div x' x)
}.

Section CALCULUS.
Context {F : Type} `{RC : RealCalculus F}.
Add Ring F_ring_calc : ef_ring.

Lemma has_d_eq x x' x'' : has_d x x' -> x' = x'' -> has_d x x''.
Proof. by intros Hd <-. Qed.
Lemma has_d_sumz n (f f' : Z -> F) : (forall k, 0 <= k < n -> has_d (f k) (f' k)) -> has_d (sumz n f) (sumz n f').
Proof.
  intros Hd. unfold sumz, vecf. assert (Hf : Forall (fun k => has_d (f k) (f' k)) (seqZ 0 n)) by (apply Forall_forall; intros k Hk%elem_of_seqZ; apply Hd; lia).
  induction Hf as [|k l Hk _ IH]; [exact rc_d_zero|]. cbn [map]. rewrite !rsum_cons. by apply rc_d_add.
Qed.
Lemma pos_mul_exp_log (a b : F) : pos a -> pos b -> pos (f_mul a b).
Proof. intros Ha Hb. rewrite <- (rc_exp_log a Ha), <- (rc_exp_log b Hb), <- rc_exp_add. apply rc_pos_exp. Qed.
Lemma div_unique (a b c : F) : pos b -> f_mul c b = a -> f_div a b = c.
Proof. intros Hb E. apply (rc_cancel _ _ b Hb). by rewrite rc_div. Qed.

(** *** The logistic function *)
Lemma logistic_d (a a' : F) : has_d a a' -> has_d (logistic a) (f_mul (f_mul (logistic a) (f_sub f_one (logistic a))) a').
Proof.
  intros Ha. unfold logistic. set (q := f_add f_one (f_exp (f_opp a))). assert (Hq : pos q) by (apply rc_pos_add; [apply rc_pos_one|apply rc_pos_exp]).
  assert (Dq : has_d q (f_opp (f_mul (f_exp (f_opp a)) a'))).
  { eapply has_d_eq; [apply rc_d_add; [apply rc_d_one|apply rc_d_exp, rc_d_sub; [apply rc_d_zero|exact Ha]]|]. unfold f_opp. ring. }
  eapply has_d_eq; [apply rc_d_div; [exact Hq|apply rc_d_one|exact Dq]|]. apply div_unique; [by apply pos_mul_exp_log|].
  set (s := f_div f_one q). assert (Es : f_mul s q = f_one) by (by apply rc_div).
  transitivity (f_mul (f_mul (f_mul s q) (f_sub q (f_mul s q))) a'); [ring|]. rewrite Es. unfold q, f_opp. ring.
Qed.

(** *** Softmax and cross entropy *)
Lemma exp_sub (a b : F) : f_mul (f_exp (f_sub a b)) (f_exp b) = f_exp a.
Proof. rewrite <- rc_exp_add. f_equal. ring. Qed.
Lemma exp_log_sum (a b : F) : f_exp (log_sum a b) = f_add (f_exp a) (f_exp b).
Proof.
  unfold log_sum. destruct (f_ltb a b); rewrite rc_exp_add, rc_exp_log by (apply rc_pos_add; [apply rc_pos_one|apply rc_pos_exp]).
  - transitivity (f_add (f_exp b) (f_mul (f_exp (f_sub a b)) (f_exp b))); [ring|]. rewrite exp_sub. ring.
  - transitivity (f_add (f_exp a) (f_mul (f_exp (f_sub b a)) (f_exp a))); [ring|]. by rewrite exp_sub.
Qed.
Lemma exp_lsum D (v : Z -> F) : 0 < D -> f_exp (lsum D v) = sumz D (fun k => f_exp (v k)).
Proof.
  intros HD. unfold lsum, sumz, vecf. assert (E : seqZ 0 D = 0 :: seqZ 1 (D - 1)) by (rewrite seqZ_cons by lia; f_equal; f_equal; lia).
  rewrite E. clear E. cbn [map]. rewrite rsum_cons.
  generalize (v 0). induction (seqZ 1 (D - 1)) as [|k l IH]; intros s; cbn [foldl map]; [rewrite rsum_nil; ring|]. rewrite IH, exp_log_sum, rsum_cons. ring.
Qed.
Lemma sumz_pos D (v : Z -> F) : 0 < D -> pos (sumz D (fun k => f_exp (v k))).
Proof. intros HD. rewrite <- (exp_lsum D v HD). apply rc_pos_exp. Qed.

(** The weighted sum of the rates is the rate of the logarithm of the sum. *)
Lemma lsum_d D (v v' : Z -> F) : 0 < D -> (forall k, 0 <= k < D -> has_d (v k) (v' k)) -> has_d (lsum D v) (sumz D (fun k => f_mul (f_exp (f_sub (v k) (lsum D v))) (v' k))).
Proof.
  intros HD Hv. set (S := sumz D (fun k => f_exp (v k))). assert (HS : pos S) by (by apply sumz_pos). assert (El : lsum D v = f_log S) by (unfold S; rewrite <- exp_lsum, rc_log_exp by done; done).
  rewrite El at 1. eapply has_d_eq; [apply rc_d_log; [exact HS|apply (has_d_sumz D _ (fun k => f_mul (f_exp (v k)) (v' k))); intros k Hk; by apply rc_d_exp, Hv]|].
  apply div_unique; [exact HS|]. rewrite <- (exp_lsum D v HD : _ = S).
  transitivity (sumz D (fun k => f_mul (f_exp (lsum D v)) (f_mul (f_exp (f_sub (v k) (lsum D v))) (v' k)))); [rewrite sumz_mul; ring|].
  apply sumz_ext. intros k Hk. rewrite <- (exp_sub (v k) (lsum D v)). ring.
Qed.
Lemma sumz_one D label (g : Z -> F) : 0 <= label < D -> sumz D (fun k => if bool_decide (label = k) then g k else f_zero) = g label.
Proof.
  intros Hl. unfold sumz, vecf. rewrite <- (map_ext (fun k => if bool_decide (k = label) then g k else f_zero)) by (intros k; by rewrite (bool_decide_ext (k = label) (label = k))).
  rewrite (rsum_one g) by apply NoDup_seqZ. rewrite bool_decide_true; [done|]. apply elem_of_seqZ. lia.
Qed.
(** The loss at the output, [log sum exp a - a_label]. *)
Lemma output_loss_d D label (a a' : Z -> F) : 0 <= label < D -> (forall k, 0 <= k < D -> has_d (a k) (a' k)) ->
  has_d (f_sub (lsum D a) (a label)) (sumz D (fun k => f_mul (let p := f_exp (f_sub (a k) (lsum D a)) in if bool_decide (label = k) then f_sub p f_one else p) (a' k))).
Proof.
  intros Hl Ha. eapply has_d_eq; [apply rc_d_sub; [apply lsum_d; [lia|exact Ha]|by apply Ha]|].
  rewrite <- (sumz_one D label a' Hl). transitivity (sumz D (fun k => f_add (f_mul (f_exp (f_sub (a k) (lsum D a))) (a' k)) (f_mul (f_sub f_zero f_one) (if bool_decide (label = k) then a' k else f_zero)))).
  - rewrite sumz_add, sumz_mul. ring.
  - apply sumz_ext. intros k Hk. cbv zeta. case_bool_decide; ring.
Qed.
End CALCULUS.

(** ** Back propagation *)
Section BACKPROP.
Context {F : Type} `{RC : RealCalculus F}.
Add Ring F_ring_back : ef_ring.
Context (f_tiny : F) (net : dnn F) (L : nat) (u : Z -> Z) (Hnet : net_ok net L u).
Context (W W' : Z -> Z -> Z -> F) (B B' : Z -> Z -> F).
Context (dW : forall l k j, has_d (W l k j) (W' l k j)) (dB : forall l k, has_d (B l k) (B' l k)).

(** The rate of a function whose derivatives by the parameters are [G] and
    [H] when the parameters change with the rates [W'] and [B']. *)
Definition layer_rate (G : Z -> Z -> Z -> F) (H : Z -> Z -> F) (l : Z) : F :=
  f_add (sumz (u (l + 1)) (fun k => sumz (u l) (fun j => f_mul (G l k j) (W' l k j)))) (sumz (u (l + 1)) (fun k => f_mul (H l k) (B' l k))).
Definition rate_of (G : Z -> Z -> Z -> F) (H : Z -> Z -> F) : F := sumz (Z.of_nat L - 1) (layer_rate G H).

Context (x : Z -> F) (label : Z) (dx : forall j, has_d (x j) f_zero) (Hlabel : 0 <= label < u (Z.of_nat L - 1)).
Abbreviation Z_ n := (zn f_tiny L u W B x n).
Abbreviation A_ n := (pre u W B (Z_ n) (Z.of_nat n)).
Abbreviation D_ := (u (Z.of_nat L - 1)).
Context (unclamped : forall k, 0 <= k < D_ -> not_tiny f_tiny (A_ (L - 2) k) = A_ (L - 2) k).

(** The rates of the units. *)
Definition pre_rate (zd : Z -> F) (n : nat) (k : Z) : F :=
  f_add (sumz (u (Z.of_nat n)) (fun j => f_add (f_mul (W' (Z.of_nat n) k j) (Z_ n j)) (f_mul (W (Z.of_nat n) k j) (zd j)))) (B' (Z.of_nat n) k).
Fixpoint z_rate (n : nat) : Z -> F :=
  match n with O => fun _ => f_zero | S n' => fun k => f_mul (f_mul (Z_ n k) (f_sub f_one (Z_ n k))) (pre_rate (z_rate n') n' k) end.
Abbreviation A'_ n := (pre_rate (z_rate n) n).

Lemma pre_d n (zd : Z -> F) : (forall j, has_d (Z_ n j) (zd j)) -> forall k, has_d (A_ n k) (pre_rate zd n k).
Proof. intros Hz k. apply rc_d_add; [|apply dB]. apply has_d_sumz. intros j _. by apply rc_d_mul. Qed.
Lemma z_d n : (n <= L - 2)%nat -> forall j, has_d (Z_ n j) (z_rate n j).
Proof.
  induction n as [|n IH]; intros Hn j; [apply dx|]. cbn [zn z_rate]. unfold act. rewrite bool_decide_true by lia. apply logistic_d. apply pre_d. apply IH. lia.
Qed.

Lemma lsum_ext D (v w : Z -> F) : 0 < D -> (forall k, 0 <= k < D -> v k = w k) -> lsum D v = lsum D w.
Proof.
  intros HD E. unfold lsum. rewrite (E 0) by lia. assert (Hf : Forall (fun k => v k = w k) (seqZ 1 (D - 1))) by (apply Forall_forall; intros k Hk%elem_of_seqZ; apply E; lia).
  generalize (w 0). induction Hf as [|k l Hk _ IH]; intros s; [done|]. cbn [foldl]. rewrite Hk. apply IH.
Qed.

Definition loss_of : F := f_sub (lsum D_ (A_ (L - 2))) (A_ (L - 2) label).
Lemma output_unit k : 0 <= k < D_ -> Z_ (L - 1) k = f_exp (f_sub (A_ (L - 2) k) (lsum D_ (A_ (L - 2)))).
Proof.
  intros Hk. pose proof (no_two _ _ _ Hnet). replace (L - 1)%nat with (S (L - 2)) by lia. cbn [zn]. unfold act. rewrite bool_decide_false by lia. unfold softmax.
  replace (Z.of_nat (L - 2) + 1) with (Z.of_nat L - 1) by lia. rewrite unclamped by done. f_equal. f_equal. apply lsum_ext; [lia|]. exact unclamped.
Qed.

(** The errors of a layer times the rates into it. *)
Definition error_rate (n : nat) : F := sumz (u (Z.of_nat n + 1)) (fun k => f_mul (delta_at f_tiny L u W B x label (Z.of_nat n) k) (A'_ n k)).

Lemma loss_top : has_d loss_of (error_rate (L - 2)).
Proof.
  pose proof (no_two _ _ _ Hnet). eapply has_d_eq; [apply (output_loss_d D_ label (A_ (L - 2)) (A'_ (L - 2)) Hlabel); intros k Hk; apply pre_d, z_d; lia|].
  unfold error_rate. replace (Z.of_nat (L - 2) + 1) with (Z.of_nat L - 1) by lia. apply sumz_ext. intros k Hk. unfold delta_at. replace (Z.to_nat (Z.of_nat L - 2 - Z.of_nat (L - 2))) with 0%nat by lia.
  cbn [deltan]. by rewrite output_unit.
Qed.

(** A layer's share of the rate, and what goes on to the layer below. *)
Lemma error_rate_step n : (n <= L - 2)%nat -> error_rate n = f_add (layer_rate (grad_W f_tiny L u W B x label) (grad_B f_tiny L u W B x label) (Z.of_nat n))
    (match n with O => f_zero | S n' => error_rate n' end).
Proof.
  intros Hn. unfold error_rate at 1, layer_rate, pre_rate, grad_W, grad_B. rewrite Nat2Z.id. set (d := delta_at f_tiny L u W B x label (Z.of_nat n)). set (l := Z.of_nat n).
  transitivity (f_add (f_add (sumz (u (l + 1)) (fun k => sumz (u l) (fun j => f_mul (f_mul (d k) (Z_ n j)) (W' l k j)))) (sumz (u (l + 1)) (fun k => f_mul (d k) (B' l k))))
    (sumz (u (l + 1)) (fun k => sumz (u l) (fun j => f_mul (f_mul (W l k j) (d k)) (z_rate n j))))).
  { rewrite <- !sumz_add. apply sumz_ext. intros k _. transitivity (f_add (f_add (sumz (u l) (fun j => f_mul (d k) (f_add (f_mul (W' l k j) (Z_ n j)) (f_mul (W l k j) (z_rate n j))))) f_zero) (f_mul (d k) (B' l k))).
    { rewrite sumz_mul. ring. }
    transitivity (f_add (sumz (u l) (fun j => f_add (f_mul (f_mul (d k) (Z_ n j)) (W' l k j)) (f_mul (f_mul (W l k j) (d k)) (z_rate n j)))) (f_mul (d k) (B' l k))).
    { rewrite (sumz_ext (u l) (fun j => f_mul (d k) _) (fun j => f_add (f_mul (f_mul (d k) (Z_ n j)) (W' l k j)) (f_mul (f_mul (W l k j) (d k)) (z_rate n j)))) by (intros; ring). ring. }
    rewrite sumz_add. ring. }
  f_equal. destruct n as [|n].
  - transitivity (sumz (u (l + 1)) (fun _ => f_zero)); [|apply sumz_zero]. apply sumz_ext. intros k _. transitivity (sumz (u l) (fun _ => f_zero)); [|apply sumz_zero]. apply sumz_ext. intros j _. cbn [z_rate]. ring.
  - rewrite sumz_swap. unfold error_rate. replace (Z.of_nat n + 1) with l by (unfold l; lia). apply sumz_ext. intros j Hj.
    transitivity (f_mul (sumz (u (l + 1)) (fun k => f_mul (W l k j) (d k))) (z_rate (S n) j)).
    { rewrite (sumz_ext (u (l + 1)) _ (fun k => f_mul (z_rate (S n) j) (f_mul (W l k j) (d k)))) by (intros; ring). rewrite sumz_mul. ring. }
    cbn [z_rate]. unfold delta_at. replace (Z.to_nat (Z.of_nat L - 2 - Z.of_nat n)) with (S (Z.to_nat (Z.of_nat L - 2 - l))) by (unfold l; lia). cbn [deltan].
    replace (L - 1 - S (Z.to_nat (Z.of_nat L - 2 - l)))%nat with (S n) by (unfold l; lia). fold l. unfold d, delta_at. fold l. ring.
Qed.
Lemma error_rate_sum n : (n <= L - 2)%nat -> error_rate n = sumz (Z.of_nat (S n)) (layer_rate (grad_W f_tiny L u W B x label) (grad_B f_tiny L u W B x label)).
Proof.
  induction n as [|n IH]; intros Hn; rewrite error_rate_step by done; rewrite sumz_S; [|rewrite IH by lia; ring]. change (sumz (Z.of_nat 0) ?f) with (f_zero : F). ring.
Qed.

Lemma example_loss_d : has_d loss_of (rate_of (grad_W f_tiny L u W B x label) (grad_B f_tiny L u W B x label)).
Proof.
  pose proof (no_two _ _ _ Hnet). eapply has_d_eq; [apply loss_top|]. rewrite error_rate_sum by lia. unfold rate_of. by replace (Z.of_nat (S (L - 2))) with (Z.of_nat L - 1) by lia.
Qed.
End BACKPROP.

(** ** A mini batch *)

(** Loops along a permutation of the indices. *)
Section PERMUTED.
Context {A : Type}.
Lemma vecf_set n (f : Z -> A) i x : 0 <= i < n -> vec_set (vecf n f) i x = Ret (vecf n (fun k => if bool_decide (k = i) then x else f k)).
Proof.
  intros Hi. rewrite vec_set_in by (rewrite vecf_length; lia). f_equal. apply list_eq. intros m. destruct (decide (m < Z.to_nat n)%nat) as [Hm|Hm].
  - assert (E : forall f' : Z -> A, vecf n f' !! m = Some (f' (Z.of_nat m))).
    { intros f'. unfold vecf. change (map f' ?l) with (f' <$> l). rewrite list_lookup_fmap, lookup_seqZ_lt by lia. cbn. by rewrite Z.add_0_l. }
    rewrite E. case_bool_decide as Em.
    + subst i. rewrite Nat2Z.id. apply list_lookup_insert_eq. by rewrite vecf_length.
    + rewrite list_lookup_insert_ne by lia. apply E.
  - rewrite !lookup_ge_None_2 by (rewrite ?length_insert, vecf_length; lia). done.
Qed.
Lemma scatter n (perm : list Z) (f0 g : Z -> A) (step : list A -> Z -> outcome (list A)) : perm ≡ₚ seqZ 0 n ->
  (forall m k x, perm !! k = Some x -> step m (Z.of_nat k) = vec_set m x (g x)) -> foldM step (seqZ 0 n) (vecf n f0) = Ret (vecf n g).
Proof.
  intros Hp Hs. pose proof (Permutation_length Hp) as Hlen. rewrite length_seqZ in Hlen. destruct (decide (n <= 0)) as [Hn|Hn]; [unfold vecf; by rewrite seqZ_nil by lia|].
  assert (Hin : forall x, x ∈ perm <-> 0 <= x < n) by (intros x; rewrite Hp, elem_of_seqZ; lia).
  destruct (foldM_from_inv step (fun k m => m = vecf n (fun i => if bool_decide (i ∈ take k perm) then g i else f0 i)) 0 (Z.to_nat n) (vecf n f0)) as (m & E & Hm).
  - done.
  - intros k m Hk ->. destruct (lookup_lt_is_Some_2 perm k ltac:(lia)) as (x & Hx). rewrite Z.add_0_l, (Hs _ k x Hx), vecf_set by (apply Hin; by eapply list_elem_of_lookup_2).
    eexists. split; [reflexivity|]. apply vecf_ext. intros i Hi. rewrite (take_S_r _ _ x Hx). destruct (decide (i = x)) as [->|Hix].
    + by rewrite (bool_decide_true (x = x)), bool_decide_true by (rewrite ?elem_of_app, ?list_elem_of_singleton; auto).
    + rewrite (bool_decide_false (i = x)) by done. rewrite (bool_decide_ext (i ∈ take k perm ++ [x]) (i ∈ take k perm)); [done|]. rewrite elem_of_app, list_elem_of_singleton. tauto.
  - rewrite Z2Nat.id in E by lia. rewrite E, Hm. f_equal. apply vecf_ext. intros i Hi. rewrite bool_decide_true; [done|]. rewrite take_ge by lia. by apply Hin.
Qed.
Lemma mapM_along n (perm : list Z) (h : Z -> A) f : length perm = Z.to_nat n -> (forall k x, perm !! k = Some x -> f (Z.of_nat k) = Ret (h x)) -> mapM f (seqZ 0 n) = Ret (map h perm).
Proof.
  intros Hlen Hf. rewrite (mapM_vecf n f (fun k => h (nth (Z.to_nat k) perm 0))).
  - f_equal. unfold vecf. change (map ?f ?l) with (f <$> l). apply list_eq. intros k. rewrite !list_lookup_fmap. destruct (decide (k < length perm)%nat) as [Hk|Hk].
    + rewrite lookup_seqZ_lt by lia. destruct (lookup_lt_is_Some_2 perm k Hk) as (x & Hx). rewrite Hx, Z.add_0_l. cbn [fmap option_fmap option_map]. by rewrite Nat2Z.id, (nth_lookup_Some _ _ _ _ Hx).
    + by rewrite lookup_seqZ_ge, lookup_ge_None_2 by lia.
  - intros k Hk. destruct (lookup_lt_is_Some_2 perm (Z.to_nat k) ltac:(lia)) as (x & Hx). rewrite <- (Z2Nat.id k) at 1 by lia. by rewrite (Hf _ x Hx), (nth_lookup_Some _ _ _ _ Hx).
Qed.
End PERMUTED.

(** The derivatives of a batch by the parameters, summed over it. *)
Section MINI_BATCH.
Context {F : Type} `{RC : RealCalculus F}.
Add Ring F_ring_batch : ef_ring.
Context (f_tiny : F) (net : dnn F) (L : nat) (u : Z -> Z) (Hnet : net_ok net L u).

Definition input_of (idx k : Z) : F := nth (Z.to_nat k) (nth (Z.to_nat idx) (input_features net) []) f_zero.
Definition label_of (idx : Z) : Z := nth (Z.to_nat idx) (output_labels net) 0.
(** An example with as many features as the network has inputs, and a label
    among its outputs. *)
Definition example_ok (idx : Z) : Prop :=
  0 <= idx < Z.of_nat (length (input_features net)) /\ idx < Z.of_nat (length (output_labels net)) /\
  Z.of_nat (length (nth (Z.to_nat idx) (input_features net) [])) >= u 0 /\ 0 <= label_of idx < u (Z.of_nat L - 1).

Lemma example_lookups idx : example_ok idx ->
  input_features net !! Z.to_nat idx = Some (nth (Z.to_nat idx) (input_features net) []) /\ output_labels net !! Z.to_nat idx = Some (label_of idx).
Proof.
  intros ((X1 & X2) & X3 & _). unfold label_of. rewrite !nth_lookup.
  destruct (lookup_lt_is_Some_2 (input_features net) (Z.to_nat idx) ltac:(lia)) as (x & ->). destruct (lookup_lt_is_Some_2 (output_labels net) (Z.to_nat idx) ltac:(lia)) as (y & ->). done.
Qed.

(** *** The loss of an example, as the code computes it *)
Definition example_loss (W : Z -> Z -> Z -> F) (B : Z -> Z -> F) (idx : Z) : outcome F :=
  z ← forward f_tiny net idx (weights_list L u W) (biases_list L u B); out ← vec_at z (num_layers net - 1); compute_cross_entropy_loss f_tiny net out idx.
(** Neither [log2ori] nor the loss replaces a value by [f_tiny]. *)
Definition not_clamped (W : Z -> Z -> Z -> F) (B : Z -> Z -> F) (idx : Z) : Prop :=
  (forall k, 0 <= k < u (Z.of_nat L - 1) -> let a := pre u W B (zn f_tiny L u W B (input_of idx) (L - 2)) (Z.of_nat (L - 2)) k in not_tiny f_tiny a = a) /\
  (let o := zn f_tiny L u W B (input_of idx) (L - 1) (label_of idx) in not_tiny f_tiny o = o).

Lemma example_loss_value W B idx : example_ok idx -> not_clamped W B idx -> example_loss W B idx = Ret (loss_of f_tiny L u W B (input_of idx) (label_of idx)).
Proof.
  intros Hok [U1 U2]. destruct (example_lookups idx Hok) as [Ei El]. destruct Hok as (Hi & _ & Hlen & Hlab). pose proof (no_two _ _ _ Hnet). unfold example_loss.
  assert (E : forward f_tiny net idx (weights_list L u W) (biases_list L u B) = Ret (vecf (Z.of_nat L) (fun l => vecf (u l) (zn f_tiny L u W B (input_of idx) (Z.to_nat l)))))
    by apply (forward_spec f_tiny net L u Hnet W B idx _ Ei (proj1 Hi) Hlen).
  rewrite E. cbn [mbind outcome_bind]. rewrite (no_layers _ _ _ Hnet), vecf_at by lia. cbn [mbind outcome_bind].
  unfold compute_cross_entropy_loss. rewrite (proj2 (vec_at_Ret _ idx _) (conj (proj1 Hi) El)). cbn [mbind outcome_bind]. rewrite vecf_at by done. cbn [mbind outcome_bind]. f_equal.
  replace (Z.to_nat (Z.of_nat L - 1)) with (L - 1)%nat by lia. cbv zeta in U2. rewrite U2, (output_unit f_tiny net L u Hnet W B (input_of idx) U1) by done.
  rewrite rc_log_exp. unfold loss_of. ring.
Qed.

(** *** The sums over the batch *)
Definition batch_W (W : Z -> Z -> Z -> F) (B : Z -> Z -> F) (batch : list Z) (l j i : Z) : F := rsum (map (fun idx => grad_W f_tiny L u W B (input_of idx) (label_of idx) l j i) batch).
Definition batch_B (W : Z -> Z -> Z -> F) (B : Z -> Z -> F) (batch : list Z) (l j : Z) : F := rsum (map (fun idx => grad_B f_tiny L u W B (input_of idx) (label_of idx) l j) batch).

Lemma weights_list_ext (W1 W2 : Z -> Z -> Z -> F) : (forall l j i, W1 l j i = W2 l j i) -> weights_list L u W1 = weights_list L u W2.
Proof. intros E. apply vecf_ext. intros l _. apply vecf_ext. intros j _. apply vecf_ext. intros i _. apply E. Qed.
Lemma biases_list_ext (B1 B2 : Z -> Z -> F) : (forall l j, B1 l j = B2 l j) -> biases_list L u B1 = biases_list L u B2.
Proof. intros E. apply vecf_ext. intros l _. apply vecf_ext. intros j _. apply E. Qed.

Lemma batch_gradients W B batch n : Forall example_ok batch -> n = Z.of_nat (length batch) ->
  foldM (fun g i => idx ← vec_at batch i; compute_gradient_single_data f_tiny net (weights_list L u W) (biases_list L u B) g idx) (seqZ 0 n)
    (weights_list L u (fun _ _ _ => f_zero), biases_list L u (fun _ _ => f_zero)) = Ret (weights_list L u (batch_W W B batch), biases_list L u (batch_B W B batch)).
Proof.
  intros Hok ->. match goal with |- foldM ?f _ ?s = _ =>
    destruct (foldM_from_inv f (fun k g => g = (weights_list L u (batch_W W B (take k batch)), biases_list L u (batch_B W B (take k batch)))) 0 (length batch) s) as (g & E & Hg) end.
  - done.
  - intros k g Hk ->. destruct (lookup_lt_is_Some_2 batch k Hk) as (idx & Hidx). rewrite Z.add_0_l, (vec_at_nat _ _ _ Hidx). cbn [mbind outcome_bind].
    pose proof (proj1 (Forall_lookup _ _) Hok _ _ Hidx) as Ho. destruct (example_lookups idx Ho) as [Ei El]. destruct Ho as (Hi & _ & Hlen & _).
    eexists. split; [apply (compute_gradient_spec f_tiny net L u Hnet W B _ _ idx _ _ Ei El ltac:(lia) Hlen)|]. fold (input_of idx). rewrite (take_S_r _ _ _ Hidx).
    f_equal; [apply weights_list_ext|apply biases_list_ext]; intros; unfold batch_W, batch_B; rewrite map_app, rsum_app; cbn [map]; rewrite rsum_cons, rsum_nil; ring.
  - rewrite E, Hg, take_ge by lia. done.
Qed.

Lemma layer_rate_add (W' : Z -> Z -> Z -> F) (B' : Z -> Z -> F) G1 H1 G2 H2 l :
  layer_rate u W' B' (fun l j i => f_add (G1 l j i) (G2 l j i)) (fun l j => f_add (H1 l j) (H2 l j)) l = f_add (layer_rate u W' B' G1 H1 l) (layer_rate u W' B' G2 H2 l).
Proof.
  unfold layer_rate. transitivity (f_add (sumz (u (l + 1)) (fun k => f_add (sumz (u l) (fun j => f_mul (G1 l k j) (W' l k j))) (sumz (u l) (fun j => f_mul (G2 l k j) (W' l k j)))))
    (sumz (u (l + 1)) (fun k => f_add (f_mul (H1 l k) (B' l k)) (f_mul (H2 l k) (B' l k))))).
  - f_equal; apply sumz_ext; intros k _; [|ring]. rewrite <- sumz_add. apply sumz_ext. intros j _. ring.
  - rewrite !sumz_add. ring.
Qed.
Lemma layer_rate_zero (W' : Z -> Z -> Z -> F) (B' : Z -> Z -> F) l : layer_rate u W' B' (fun _ _ _ => f_zero) (fun _ _ => f_zero) l = f_zero.
Proof.
  unfold layer_rate. rewrite (sumz_ext _ _ (fun _ => f_zero)).
  - rewrite (sumz_ext _ (fun k => f_mul f_zero _) (fun _ => f_zero)) by (intros; ring). rewrite sumz_zero. ring.
  - intros k _. rewrite (sumz_ext _ _ (fun _ => f_zero)) by (intros; ring). apply sumz_zero.
Qed.

Lemma batch_loss_d W W' B B' batch : (forall l k j, has_d (W l k j) (W' l k j)) -> (forall l k, has_d (B l k) (B' l k)) ->
  (forall idx j, has_d (input_of idx j) f_zero) -> Forall example_ok batch -> Forall (not_clamped W B) batch ->
  exists losses, mapM (example_loss W B) batch = Ret losses /\ has_d (rsum losses) (rate_of L u W' B' (batch_W W B batch) (batch_B W B batch)).
Proof.
  intros dW dB dx Hok Hun. exists (map (fun idx => loss_of f_tiny L u W B (input_of idx) (label_of idx)) batch). split.
  - apply mapM_pure. intros idx Hin. apply example_loss_value; [by eapply Forall_forall in Hok|by eapply Forall_forall in Hun].
  - induction batch as [|idx batch IH].
    + cbn [map]. eapply has_d_eq; [apply rc_d_zero|]. unfold rate_of. symmetry. rewrite <- (sumz_zero (Z.of_nat L - 1)). apply sumz_ext. intros l _. apply layer_rate_zero.
    + apply Forall_cons in Hok as [Ho Hok], Hun as [Hu Hun]. cbn [map]. rewrite rsum_cons. eapply has_d_eq; [apply rc_d_add; [|by apply IH]|].
      * apply (example_loss_d f_tiny net L u Hnet W W' B B' dW dB _ (label_of idx) (dx idx)); [apply Ho|apply Hu].
      * unfold rate_of. rewrite <- sumz_add. apply sumz_ext. intros l _. rewrite <- layer_rate_add. reflexivity.
Qed.

(** *** What the step does *)
Context (env : dnn_env F).
(** The parameters in the tables after a trace. *)
Definition table_W (tr : list (dnn_event F)) (l j i : Z) : F := nth (Z.to_nat i) (de_weights env tr l j) f_zero.
Definition table_B (tr : list (dnn_event F)) (l j : Z) : F := nth (Z.to_nat j) (de_biases env tr l) f_zero.
Definition rows_long (tr : list (dnn_event F)) : Prop :=
  forall l, 0 <= l < Z.of_nat L - 1 -> (forall j, 0 <= j < u (l + 1) -> Z.of_nat (length (de_weights env tr l j)) >= u l) /\ Z.of_nat (length (de_biases env tr l)) >= u (l + 1).
Definition orders_ok (orders : list (list Z)) (order : list Z) : Prop :=
  length orders = (L - 1)%nat /\ (forall l o, orders !! l = Some o -> o ≡ₚ seqZ 0 (u (Z.of_nat l + 1))) /\ order ≡ₚ seqZ 0 (Z.of_nat L - 1).
(** What a step sends, for the sums [G] and [H]. *)
Definition sent_steps (orders : list (list Z)) (order : list Z) (G : Z -> Z -> Z -> F) (H : Z -> Z -> F) : list (dnn_event F) :=
  concat (map (fun l => map (fun j => WeightInc l j (map (fun i => (i, f_mul (coeff_update net) (G l j i))) (seqZ 0 (u l)))) (nth (Z.to_nat l) orders [])) (seqZ 0 (Z.of_nat L - 1))) ++
  map (fun l => BiasInc l (map (fun j => (j, f_mul (coeff_update net) (H l j))) (seqZ 0 (u (l + 1))))) order.

Lemma orders_at orders order l : orders_ok orders order -> 0 <= l < Z.of_nat L - 1 ->
  vec_at orders l = Ret (nth (Z.to_nat l) orders []) /\ nth (Z.to_nat l) orders [] ≡ₚ seqZ 0 (u (l + 1)).
Proof.
  intros (Hlen & Ho & _) Hl. destruct (lookup_lt_is_Some_2 orders (Z.to_nat l) ltac:(lia)) as (o & E). rewrite (nth_lookup_Some _ _ _ _ E). split; [apply vec_at_Ret; split; [lia|done]|].
  pose proof (Ho _ _ E) as Hp. by rewrite Z2Nat.id in Hp by lia.
Qed.
Lemma order_in n (o : list Z) k x : o ≡ₚ seqZ 0 n -> o !! k = Some x -> 0 <= x < n /\ vec_at o (Z.of_nat k) = Ret x.
Proof. intros Hp Hx. split; [|by apply vec_at_nat]. apply list_elem_of_lookup_2 in Hx. rewrite Hp, elem_of_seqZ in Hx. lia. Qed.
Lemma order_length n (o : list Z) : o ≡ₚ seqZ 0 n -> length o = Z.to_nat n.
Proof. intros Hp. by rewrite (Permutation_length Hp), length_seqZ. Qed.

Lemma zero_gradients_spec : zero_gradients net = Ret (weights_list L u (fun _ _ _ => f_zero), biases_list L u (fun _ _ => f_zero)).
Proof.
  unfold zero_gradients. rewrite (no_layers _ _ _ Hnet). rewrite (mapM_vecf _ _ (fun l => vecf (u (l + 1)) (fun _ => vecf (u l) (fun _ => f_zero)))).
  - cbn [mbind outcome_bind]. rewrite (mapM_vecf _ _ (fun l => vecf (u (l + 1)) (fun _ => f_zero))); [done|]. intros l Hl. rewrite (units_at _ L u) by (done || lia). cbn [mbind outcome_bind]. by rewrite vecf_replicate.
  - intros l Hl. rewrite !(units_at _ L u) by (done || lia). cbn [mbind outcome_bind]. by rewrite !vecf_replicate.
Qed.

Lemma fetch_weights_spec tr orders order W0 : orders_ok orders order -> rows_long tr -> fetch_weights net env tr orders (weights_list L u W0) = Ret (weights_list L u (table_W tr)).
Proof.
  intros Ho Hw. unfold fetch_weights. rewrite (no_layers _ _ _ Hnet). apply mapM_vecf. intros l Hl. rewrite !(units_at _ L u) by (done || lia). cbn [mbind outcome_bind].
  destruct (orders_at _ _ l Ho Hl) as [-> Hp]. cbn [mbind outcome_bind]. unfold weights_list. rewrite vecf_at by done. cbn [mbind outcome_bind]. apply (scatter _ _ _ _ _ Hp).
  intros m k x Hx. destruct (order_in _ _ k x Hp Hx) as [Hx' E]. unfold fetch_row. rewrite E. cbn [mbind outcome_bind]. by rewrite row_of by (apply (Hw l Hl), Hx').
Qed.
Lemma fetch_biases_spec tr orders order B0 : orders_ok orders order -> rows_long tr -> fetch_biases net env tr order (biases_list L u B0) = Ret (biases_list L u (table_B tr)).
Proof.
  intros (_ & _ & Hp) Hb. unfold fetch_biases. rewrite (no_layers _ _ _ Hnet). apply (scatter _ _ _ _ _ Hp).
  intros m k x Hx. destruct (order_in _ _ k x Hp Hx) as [Hx' E]. rewrite E. cbn [mbind outcome_bind]. rewrite (units_at _ L u) by (done || lia). cbn [mbind outcome_bind]. by rewrite row_of by apply (Hb x Hx').
Qed.

Lemma scaled_spec c (f : Z -> F) n : scaled c (vecf n f) n = Ret (map (fun i => (i, f_mul c (f i))) (seqZ 0 n)).
Proof. unfold scaled. apply (mapM_vecf n _ (fun i => (i, f_mul c (f i)))). intros i Hi. by rewrite vecf_at. Qed.
Lemma updates_spec orders order G H1 : orders_ok orders order ->
  exists ws bs, weight_updates net orders (weights_list L u G) = Ret ws /\ bias_updates net order (biases_list L u H1) = Ret bs /\ ws ++ bs = sent_steps orders order G H1.
Proof.
  intros Ho. do 2 eexists. split; [|split; [|reflexivity]].
  - unfold weight_updates. rewrite (no_layers _ _ _ Hnet).
    rewrite (mapM_vecf _ _ (fun l => map (fun j => WeightInc l j (map (fun i => (i, f_mul (coeff_update net) (G l j i))) (seqZ 0 (u l)))) (nth (Z.to_nat l) orders []))); [done|].
    intros l Hl. rewrite !(units_at _ L u) by (done || lia). cbn [mbind outcome_bind]. destruct (orders_at _ _ l Ho Hl) as [-> Hp]. cbn [mbind outcome_bind]. unfold weights_list. rewrite vecf_at by done. cbn [mbind outcome_bind].
    apply mapM_along; [by apply order_length|]. intros k x Hx. destruct (order_in _ _ k x Hp Hx) as [Hx' E]. rewrite E. cbn [mbind outcome_bind]. rewrite vecf_at by done. cbn [mbind outcome_bind]. by rewrite scaled_spec.
  - destruct Ho as (_ & _ & Hp). unfold bias_updates. rewrite (no_layers _ _ _ Hnet). apply (mapM_along _ order (fun l => BiasInc l (map (fun j => (j, f_mul (coeff_update net) (H1 l j))) (seqZ 0 (u (l + 1)))))); [by apply order_length|].
    intros k x Hx. destruct (order_in _ _ k x Hp Hx) as [Hx' E]. rewrite E. cbn [mbind outcome_bind]. rewrite (units_at _ L u) by (done || lia). cbn [mbind outcome_bind]. unfold biases_list. rewrite vecf_at by done. cbn [mbind outcome_bind]. by rewrite scaled_spec.
Qed.

Lemma sgd_mini_batch_spec batch orders order W0 B0 tr : size_minibatch net = Z.of_nat (length batch) -> Forall example_ok batch -> orders_ok orders order -> rows_long tr ->
  sgd_mini_batch f_tiny net env batch orders order (mktrain (weights_list L u W0) (biases_list L u B0) tr) =
    Ret (mktrain (weights_list L u (table_W tr)) (biases_list L u (table_B tr))
      (tr ++ sent_steps orders order (batch_W (table_W tr) (table_B tr) batch) (batch_B (table_W tr) (table_B tr) batch))).
Proof.
  intros Hn Hok Ho Hr. unfold sgd_mini_batch. rewrite zero_gradients_spec. cbn [mbind outcome_bind ts_weights ts_biases ts_trace].
  rewrite (fetch_weights_spec tr _ _ W0 Ho Hr). cbn [mbind outcome_bind]. rewrite (fetch_biases_spec tr _ _ B0 Ho Hr). cbn [mbind outcome_bind]. rewrite (batch_gradients _ _ batch _ Hok Hn). cbn [mbind outcome_bind fst snd].
  destruct (updates_spec orders order (batch_W (table_W tr) (table_B tr) batch) (batch_B (table_W tr) (table_B tr) batch) Ho) as (ws & bs & -> & E & <-). cbn [mbind outcome_bind]. by rewrite E.
Qed.

(** C30: a step on a mini batch goes against the gradient of the loss, with real numbers in place of floating-point ones: for every order of
    the rows, [sgd_mini_batch] copies the tables, and there are factors [G] and [H] such that it sends, for every row of a table once, the
    step size over the size of the batch times minus the row's factors; and whenever the parameters in the tables depend differentiably on
    something, the sum of the losses the code computes for the examples of the batch changes with the rate that [G] and [H] give: they are
    the derivatives of that sum by the weights and the biases.  This holds where nothing is clamped to [1e-10]. *)
Theorem mini_batch_step_is_gradient batch orders order W0 B0 tr : size_minibatch net = Z.of_nat (length batch) -> Forall example_ok batch -> orders_ok orders order -> rows_long tr ->
  exists G H, sgd_mini_batch f_tiny net env batch orders order (mktrain (weights_list L u W0) (biases_list L u B0) tr) =
      Ret (mktrain (weights_list L u (table_W tr)) (biases_list L u (table_B tr)) (tr ++ sent_steps orders order G H)) /\
    forall W' B', (forall l k j, has_d (table_W tr l k j) (W' l k j)) -> (forall l k, has_d (table_B tr l k) (B' l k)) -> (forall idx j, has_d (input_of idx j) f_zero) ->
      Forall (not_clamped (table_W tr) (table_B tr)) batch ->
      exists losses, mapM (example_loss (table_W tr) (table_B tr)) batch = Ret losses /\ has_d (rsum losses) (rate_of L u W' B' G H).
Proof.
  intros Hn Hok Ho Hr. do 2 eexists. split; [by apply sgd_mini_batch_spec|]. intros W' B' dW dB dx Hun. by apply batch_loss_d.
Qed.
End MINI_BATCH.

(** ** The initial parameters

    Each row's batch is sent again with every entry that joins it, so what
    the table gets for a column grows with the number of columns after it. *)
Section INITIAL.
Context {F : Type} `{ExactFloat F}.
Add Ring F_ring_initial : ef_ring.
Definition column_sum (k : Z) (evs : list (dnn_event F)) : F :=
  rsum (map (fun ev => match ev with WeightInc _ _ b => rsum (map (fun p => if bool_decide (p.1 = k) then p.2 else f_zero) b) | _ => f_zero end) evs).
Lemma initial_column_sum f_frac env l j num_cols first k : 0 <= k < num_cols ->
  column_sum k (init_weight_row f_frac env l j num_cols first) = rsum (replicate (Z.to_nat (num_cols - k)) (randfloat f_frac env (first + Z.to_nat k))).
Proof.
  intros Hk. unfold column_sum, init_weight_row. rewrite map_map. set (r := fun k' => randfloat f_frac env (first + Z.to_nat k')).
  rewrite (map_ext_in _ (fun n => if bool_decide (k <= n) then r k else f_zero)).
  2: { intros n Hn%list_elem_of_In%elem_of_seqZ. rewrite map_map. rewrite (rsum_one r) by apply NoDup_seqZ. rewrite (bool_decide_ext (k ∈ seqZ 0 (n + 1)) (k <= n)); [done|]. rewrite elem_of_seqZ. lia. }
  replace num_cols with (k + (num_cols - k)) at 1 by lia. rewrite seqZ_app by lia. rewrite map_app, rsum_app, Z.add_0_l.
  rewrite (map_ext_in _ (fun _ => f_zero)) by (intros n Hn%list_elem_of_In%elem_of_seqZ; by rewrite bool_decide_false by lia). rewrite (sumz_zero k : rsum (map _ _) = _).
  rewrite (map_ext_in _ (fun _ => r k)) by (intros n Hn%list_elem_of_In%elem_of_seqZ; by rewrite bool_decide_true by lia).
  assert (E : forall q : list Z, map (fun _ => r k) q = replicate (length q) (r k)) by (intros q; induction q as [|z q IH]; cbn; by rewrite ?IH).
  rewrite E, length_seqZ. unfold r. ring.
Qed.
End INITIAL.

(** ** Functions of a real variable

    Parameters that move with a variable: values and comparisons are those at
    [0], where the comparison of equal values looks at the whole line (so that
    equal functions are equal), and rates are derivatives at [0]. *)
Definition curve := R -> R.
Definition curve_leb (a b : curve) : bool :=
  if Rlt_dec (a 0%R) (b 0%R) then true
  else if Req_EM_T (a 0%R) (b 0%R) then (if excluded_middle_informative (forall t, (a t <= b t)%R) then true else false) else false.
#[export] Instance curve_float : Float curve := {
  f_zero := fun _ => 0%R; f_one := fun _ => 1%R; f_max := fun _ => 0%R; f_lowest := fun _ => 0%R; f_tenth := fun _ => (/ 10)%R; f_hundredth := fun _ => (/ 100)%R;
  f_of_Z n := fun _ => IZR n; f_add a b := fun t => (a t + b t)%R; f_sub a b := fun t => (a t - b t)%R; f_mul a b := fun t => (a t * b t)%R;
  f_div a b := fun t => (a t / b t)%R; f_sqrt a := fun t => sqrt (a t); f_abs a := fun t => Rabs (a t); f_leb := curve_leb
}.
Lemma curve_leb_true (a b : curve) : curve_leb a b = true -> (a 0%R < b 0%R)%R \/ a 0%R = b 0%R /\ forall t, (a t <= b t)%R.
Proof. unfold curve_leb. destruct (Rlt_dec _ _); [by left|]. destruct (Req_EM_T _ _); [|done]. destruct (excluded_middle_informative _); [by right|done]. Qed.
#[export] Instance curve_exact : ExactFloat curve.
Proof.
  split; [split; intros; apply functional_extensionality; intros t; cbn; ring|].
  intros a E. unfold f_eqb in E. apply andb_true_iff in E as [E1%curve_leb_true E2%curve_leb_true]. cbn in E1, E2. apply functional_extensionality. intros t.
  destruct E1 as [E1|[E1 H1]], E2 as [E2|[E2 H2]]; try lra. specialize (H1 t). specialize (H2 t). cbn. lra.
Qed.
#[export] Instance curve_exp_log : ExpLog curve := { f_exp a := fun t => exp (a t); f_log a := fun t => ln (a t) }.
#[export] Instance curve_calculus : RealCalculus curve.
Proof.
  refine {| pos := fun a : curve => forall t, (0 < a t)%R; has_d := fun a a' : curve => derivable_pt_lim a 0%R (a' 0%R) |}; cbn; intros.
  - lra.
  - specialize (H t). specialize (H0 t). lra.
  - apply exp_pos.
  - apply functional_extensionality. intros t. specialize (H t). field. lra.
  - apply functional_extensionality. intros t. specialize (H t). apply (f_equal (fun f => f t)) in H0. cbn in H0. apply (Rmult_eq_reg_r (c t)); lra.
  - apply functional_extensionality. intros t. apply exp_plus.
  - apply functional_extensionality. intros t. by apply exp_ln.
  - apply functional_extensionality. intros t. apply ln_exp.
  - apply derivable_pt_lim_const.
  - apply derivable_pt_lim_const.
  - by apply derivable_pt_lim_plus.
  - by apply derivable_pt_lim_minus.
  - by apply derivable_pt_lim_mult.
  - specialize (H 0%R). assert (y 0%R <> 0%R) by lra.
    replace ((x' 0 * y 0 - x 0 * y' 0) / (y 0 * y 0))%R with ((x' 0 * y 0 - y' 0 * x 0) / Rsqr (y 0))%R by (unfold Rsqr; field; done). by apply derivable_pt_lim_div.
  - apply (derivable_pt_lim_comp x exp); [done|apply derivable_pt_lim_exp].
  - specialize (H 0%R). replace (x' 0 / x 0)%R with (/ x 0 * x' 0)%R by (field; lra). apply (derivable_pt_lim_comp x ln); [done|by apply derivable_pt_lim_ln].
Defined.

Lemma not_tiny_curve (t a : curve) : (t 0 < Rabs (a 0))%R -> not_tiny t a = a.
Proof.
  intros Ht. unfold not_tiny, f_ltb. destruct (f_leb (f_abs a) t) eqn:E; [|done]. apply curve_leb_true in E. cbn in E. destruct E as [E|[E _]]; lra.
Qed.
Lemma logistic_curve_pos (a : curve) t : (0 < logistic a t)%R.
Proof. cbn. pose proof (exp_pos (0 - a t)). apply Rdiv_lt_0_compat; lra. Qed.
Lemma has_d_nth (l l' : list curve) n : Forall2 has_d l l' -> has_d (nth n l f_zero) (nth n l' f_zero).
Proof. intros Hl. revert n. induction Hl as [|x x' l l' Hx _ IH]; intros [|n]; cbn [nth]; [apply rc_d_zero|apply rc_d_zero|done|apply IH]. Qed.

(** *** Example

    A network with two hidden connections and two outputs, all of whose
    parameters are one more than the variable. *)
Definition demo_tiny : curve := fun _ => (/ 10000000000)%R.
Definition demo_units (l : Z) : Z := if bool_decide (l = 2) then 2 else 1.
Definition demo_net : dnn curve := mkdnn 3 [1; 1; 2] 1 f_one 1 1 [[f_one]] [1] 1 0 0 1 1.
Definition demo_variable : curve := fun t => (1 + t)%R.
Definition demo_env : dnn_env curve := mkdnn_env (fun _ _ _ => [demo_variable]) (fun _ _ => [demo_variable; demo_variable]) (fun _ => 0) (fun _ => 0).
Definition demo_rate_W (_ _ i : Z) : curve := nth (Z.to_nat i) [f_one] f_zero.
Definition demo_rate_B (_ j : Z) : curve := nth (Z.to_nat j) [f_one; f_one] f_zero.
Definition demo_params_W (_ _ _ : Z) : curve := f_zero.
Definition demo_params_B (_ _ : Z) : curve := f_zero.

Lemma demo_net_ok : net_ok demo_net 3 demo_units.
Proof. split; [done|lia|done|]. intros l. unfold demo_units. case_bool_decide; lia. Qed.
Lemma demo_orders_ok : orders_ok 3 demo_units [[0]; [1; 0]] [1; 0].
Proof.
  split; [done|]. assert (E : [1; 0] ≡ₚ seqZ 0 2) by (change (seqZ 0 2) with [0; 1]; constructor). split; [|exact E].
  intros [|[|l]] o Ho; cbn in Ho; simplify_eq; [done|exact E].
Qed.
Lemma demo_batch_ok : Forall (example_ok demo_net 3 demo_units) [0].
Proof. apply Forall_singleton. repeat split; vm_compute; done. Qed.
Lemma demo_rows : rows_long 3 demo_units demo_env [].
Proof. intros l Hl. split; [intros j _|]; unfold demo_units; cbn [demo_env de_weights de_biases length]; case_bool_decide; lia. Qed.
Lemma demo_variable_d : has_d demo_variable f_one.
Proof. pose proof (derivable_pt_lim_plus (fct_cte 1) id 0 0 1 (derivable_pt_lim_const 1 0) (derivable_pt_lim_id 0)) as Hd. rewrite Rplus_0_l in Hd. exact Hd. Qed.

(** The inputs of both outputs are the same function, which is more than 1 at
    [0], and the outputs are one half. *)
Abbreviation demo_W := (table_W demo_env []).
Abbreviation demo_B := (table_B demo_env []).
Definition demo_hidden : curve := zn demo_tiny 3 demo_units demo_W demo_B (input_of demo_net 0) 1 0.
Definition demo_logit : curve := f_add (f_add f_zero (f_mul demo_variable demo_hidden)) demo_variable.
Lemma demo_pre k : 0 <= k < 2 -> pre demo_units demo_W demo_B (zn demo_tiny 3 demo_units demo_W demo_B (input_of demo_net 0) 1) 1 k = demo_logit.
Proof.
  intros Hk. assert (Hk2 : k = 0 \/ k = 1) by lia. unfold pre, demo_logit. f_equal.
  - change (demo_units 1) with 1. unfold sumz, vecf. change (seqZ 0 1) with [0]. cbn [map]. rewrite rsum_cons, rsum_nil. fold demo_hidden.
    change (demo_W 1 k 0) with demo_variable. apply functional_extensionality. intros t. cbn. ring.
  - destruct Hk2 as [-> | ->]; done.
Qed.
Lemma demo_logit_large : (1 < demo_logit 0)%R.
Proof.
  assert (Hh : (0 < demo_hidden 0)%R) by apply logistic_curve_pos. change (demo_logit 0%R) with (0 + (1 + 0) * demo_hidden 0 + (1 + 0))%R. lra.
Qed.
Lemma demo_not_clamped : not_clamped demo_tiny demo_net 3 demo_units demo_W demo_B 0.
Proof.
  pose proof demo_logit_large as Hl. assert (Ht : forall k, 0 <= k < 2 -> not_tiny demo_tiny (pre demo_units demo_W demo_B (zn demo_tiny 3 demo_units demo_W demo_B (input_of demo_net 0) 1) 1 k) = demo_logit).
  { intros k Hk. rewrite demo_pre by done. apply not_tiny_curve. unfold demo_tiny. rewrite Rabs_pos_eq; lra. }
  split.
  - change (Z.of_nat (3 - 2)) with 1. change (3 - 2)%nat with 1%nat. change (demo_units (Z.of_nat 3 - 1)) with 2. intros k Hk. cbv zeta. rewrite Ht by done. by rewrite demo_pre.
  - assert (Eo : zn demo_tiny 3 demo_units demo_W demo_B (input_of demo_net 0) (3 - 1) (label_of demo_net 0) = f_exp (f_sub demo_logit (lsum 2 (fun _ => demo_logit)))).
    { change (label_of demo_net 0) with 1. change (3 - 1)%nat with 2%nat. cbn [zn]. unfold act. change (Z.of_nat 1) with 1. rewrite bool_decide_false by lia. unfold softmax. change (demo_units (1 + 1)) with 2.
      rewrite Ht by lia. do 2 f_equal. apply lsum_ext; [lia|]. exact Ht. }
    cbv zeta. rewrite Eo. apply not_tiny_curve. pose proof (exp_lsum 2 (fun _ => demo_logit) ltac:(lia)) as El. pose proof (exp_sub demo_logit (lsum 2 (fun _ => demo_logit))) as Es. rewrite El in Es.
    set (o := f_exp (f_sub demo_logit _)) in *. assert (Hs : sumz 2 (fun _ => f_exp demo_logit) = f_add (f_exp demo_logit) (f_exp demo_logit)).
    { unfold sumz, vecf. change (seqZ 0 2) with [0; 1]. cbn [map]. rewrite !rsum_cons, rsum_nil. apply functional_extensionality. intros t. cbn. ring. }
    rewrite Hs in Es. apply (f_equal (fun f => f 0%R)) in Es.
    change (o 0 * (exp (demo_logit 0) + exp (demo_logit 0)) = exp (demo_logit 0))%R in Es. pose proof (exp_pos (demo_logit 0%R)) as He. 
    assert (Ho : o 0%R = (/ 2)%R) by (apply (Rmult_eq_reg_r (2 * exp (demo_logit 0%R))); [|lra]; lra).
    rewrite Ho. unfold demo_tiny. rewrite Rabs_pos_eq; lra.
Qed.

Lemma mini_batch_step_is_gradient_witness : exists s G H,
  sgd_mini_batch demo_tiny demo_net demo_env [0] [[0]; [1; 0]] [1; 0] (mktrain (weights_list 3 demo_units demo_params_W) (biases_list 3 demo_units demo_params_B) []) = Ret s /\
  ts_trace s = sent_steps demo_net 3 demo_units [[0]; [1; 0]] [1; 0] G H /\
  exists losses, mapM (example_loss demo_tiny demo_net 3 demo_units (table_W demo_env []) (table_B demo_env [])) [0] = Ret losses /\
    has_d (rsum losses) (rate_of 3 demo_units demo_rate_W demo_rate_B G H).
Proof.
  destruct (mini_batch_step_is_gradient demo_tiny demo_net 3 demo_units demo_net_ok demo_env [0] [[0]; [1; 0]] [1; 0] demo_params_W demo_params_B [] eq_refl demo_batch_ok demo_orders_ok demo_rows) as (G & H & E & Hd).
  eexists _, G, H. split; [exact E|]. split; [reflexivity|]. apply Hd.
  - intros l k j. apply has_d_nth. constructor; [apply demo_variable_d|constructor].
  - intros l k. apply has_d_nth. repeat (constructor; [apply demo_variable_d|]). constructor.
  - intros idx j. unfold input_of. destruct (Z.to_nat idx) as [|[|n]], (Z.to_nat j) as [|[|m]]; cbn [nth demo_net input_features]; apply rc_d_one || apply rc_d_zero.
  - apply Forall_singleton. exact demo_not_clamped.
Defined.
