(* ===== verification/MfLoader.v ===== *)
(** * Matrix factorization: the loaders

    What [apps/matrixfact/src/matrixloader.hpp] gives the workers: the
    interface [AbstractMatrixLoader] as a class with the promises its comment
    makes, and the two loaders that implement it, one with the matrix in
    memory and one that streams blocks of a file. *)
From stdpp Require Import gmap.
From S2P Require Import Prelude.
Open Scope Z_scope.

(** An entry: row, column and value. *)
Abbreviation entry F := (Z * Z * F)%type.

(** ** The interface *)
Class MatrixLoader (L F : Type) := {
  getNextEl : Z -> L -> outcome (entry F * bool * L);
  getN : L -> Z;
  getM : L -> Z;
  getNNZ : L -> Z
}.

(** A worker goes through its own entries, over and over, and is told the
    last one; workers do not disturb each other. *)
Class MatrixLoaderOk (L F : Type) `{!MatrixLoader L F} := {
  ml_entries : L -> Z -> list (entry F);
  ml_at : L -> Z -> nat -> Prop;                (* the worker's next entry *)
  ml_next s w n e : ml_at s w n -> ml_entries s w !! n = Some e ->
    let last := bool_decide (S n = length (ml_entries s w)) in
    exists s', getNextEl w s = Ret (e, last, s') /\ ml_at s' w (if last then O else S n) /\
      ml_entries s' = ml_entries s /\ (forall w' n', w' <> w -> ml_at s w' n' -> ml_at s' w' n') /\
      getN s' = getN s /\ getM s' = getM s /\ getNNZ s' = getNNZ s
}.

(** ** The whole matrix in memory *)
Section STANDARD.
Context {F : Type}.

Record StandardMatrixLoader := mkstandard {
  N_ : Z; M_ : Z; X_row : list Z; X_col : list Z; X_val : list F; num_workers_ : Z; worker_next_el_pos_ : list Z
}.

(** [input] are the triples [>>] reads before it fails. *)
Definition push_entry (s : Z * Z * list Z * list Z * list F) (e : entry F) : Z * Z * list Z * list Z * list F :=
  let '(n, m, rows, cols, vals) := s in
  let '(row, col, val) := e in
  (if bool_decide (row + 1 > n) then row + 1 else n, if bool_decide (col + 1 > m) then col + 1 else m, rows ++ [row], cols ++ [col], vals ++ [val]).
Definition readSparseMatrix (input : list (entry F)) (l : StandardMatrixLoader) : StandardMatrixLoader :=
  let '(n, m, rows, cols, vals) := foldl push_entry (0, 0, [], [], []) input in
  mkstandard n m rows cols vals (num_workers_ l) (worker_next_el_pos_ l).

Definition StandardMatrixLoader_new (input : list (entry F)) (num_workers : Z) : StandardMatrixLoader :=
  readSparseMatrix input (mkstandard 0 0 [] [] [] num_workers (seqZ 0 num_workers)).

Definition standard_getNNZ (l : StandardMatrixLoader) : Z := Z.of_nat (length (X_row l)).
Definition set_next_el_pos (pos : list Z) (l : StandardMatrixLoader) : StandardMatrixLoader :=
  mkstandard (N_ l) (M_ l) (X_row l) (X_col l) (X_val l) (num_workers_ l) pos.
Definition standard_getNextEl (worker_id : Z) (l : StandardMatrixLoader) : outcome (entry F * bool * StandardMatrixLoader) :=
  data_id ← vec_at (worker_next_el_pos_ l) worker_id;
  row ← vec_at (X_row l) data_id;
  col ← vec_at (X_col l) data_id;
  val ← vec_at (X_val l) data_id;
  let next := u64 (data_id + num_workers_ l) in
  let last_el := bool_decide (next >= u64 (standard_getNNZ l)) in
  pos ← vec_set (worker_next_el_pos_ l) worker_id (if last_el then u64 worker_id else next);
  Ret ((row, col, val), last_el, set_next_el_pos pos l).

#[export] Instance standard_loader : MatrixLoader StandardMatrixLoader F := {
  getNextEl := standard_getNextEl; getN := N_; getM := M_; getNNZ := standard_getNNZ
}.
End STANDARD.
Arguments StandardMatrixLoader : clear implicits.

(** ** Blocks of a file *)
Section DISK.
Context {F : Type}.
(** What [>>] reads from the data file, beginning at an offset, up to the
    failure at its end: entries, each with the position behind it. *)
Context (text_from : Z -> list (entry F * Z)).

Record DiskMatrixLoader := mkdisk {
  disk_N_ : Z; disk_M_ : Z; nnz_ : Z; data_block_offsets_ : list Z;
  worker_ifstreams_ : gset Z;
  block_X_row_ : gmap Z (list Z); block_X_col_ : gmap Z (list Z); block_X_val_ : gmap Z (list F);
  disk_num_workers_ : Z; worker_cur_block_ : gmap Z Z; disk_next_el_pos_ : gmap Z Z
}.

(** [offsets] is what the offsets file holds behind the three numbers. *)
Definition DiskMatrixLoader_new (n m nnz : Z) (offsets : list Z) (num_workers : Z) : DiskMatrixLoader :=
  mkdisk n m nnz offsets ∅ ∅ ∅ ∅ num_workers ∅ ∅.

(** The entries pushed before the loop breaks. *)
Fixpoint read_block (stop : option Z) (text : list (entry F * Z)) : list (entry F) :=
  match text with
  | [] => []
  | (e, pos) :: rest => match stop with
      | Some next => if bool_decide (pos >= next) then [] else e :: read_block stop rest
      | None => e :: read_block stop rest
      end
  end.

Definition loadBlock (worker_id block_id : Z) (l : DiskMatrixLoader) : outcome DiskMatrixLoader :=
  if bool_decide (worker_id ∈ worker_ifstreams_ l) then
    offset ← vec_at (data_block_offsets_ l) block_id;
    stop ← (if bool_decide (block_id < Z.of_nat (length (data_block_offsets_ l)) - 1)
            then next ← vec_at (data_block_offsets_ l) (block_id + 1); Ret (Some next) else Ret None);
    let es := read_block stop (text_from offset) in
    Ret (mkdisk (disk_N_ l) (disk_M_ l) (nnz_ l) (data_block_offsets_ l) (worker_ifstreams_ l)
      (<[worker_id := map (fun e => e.1.1) es]> (block_X_row_ l)) (<[worker_id := map (fun e => e.1.2) es]> (block_X_col_ l))
      (<[worker_id := map snd es]> (block_X_val_ l)) (disk_num_workers_ l) (worker_cur_block_ l) (disk_next_el_pos_ l))
  else Undef.

Definition set_place (worker_id block pos : Z) (l : DiskMatrixLoader) : DiskMatrixLoader :=
  mkdisk (disk_N_ l) (disk_M_ l) (nnz_ l) (data_block_offsets_ l) (worker_ifstreams_ l) (block_X_row_ l) (block_X_col_ l) (block_X_val_ l)
    (disk_num_workers_ l) (<[worker_id := block]> (worker_cur_block_ l)) (<[worker_id := pos]> (disk_next_el_pos_ l)).
Definition open_stream (worker_id : Z) (l : DiskMatrixLoader) : DiskMatrixLoader :=
  mkdisk (disk_N_ l) (disk_M_ l) (nnz_ l) (data_block_offsets_ l) ({[worker_id]} ∪ worker_ifstreams_ l) (block_X_row_ l) (block_X_col_ l) (block_X_val_ l)
    (disk_num_workers_ l) (worker_cur_block_ l) (disk_next_el_pos_ l).
Definition initWorker (worker_id : Z) (l : DiskMatrixLoader) : outcome DiskMatrixLoader :=
  loadBlock worker_id worker_id (set_place worker_id worker_id 0 (open_stream worker_id l)).

Definition disk_getNextEl (worker_id : Z) (l : DiskMatrixLoader) : outcome (entry F * bool * DiskMatrixLoader) :=
  let data_id := default 0 (disk_next_el_pos_ l !! worker_id) in
  let cur := default 0 (worker_cur_block_ l !! worker_id) in
  row ← vec_at (default [] (block_X_row_ l !! worker_id)) data_id;
  col ← vec_at (default [] (block_X_col_ l !! worker_id)) data_id;
  val ← vec_at (default [] (block_X_val_ l !! worker_id)) data_id;
  let next := data_id + 1 in
  if bool_decide (next >= Z.of_nat (length (default [] (block_X_row_ l !! worker_id)))) then
    let block := u64 (cur + disk_num_workers_ l) in
    let last_el := bool_decide (block >= Z.of_nat (length (data_block_offsets_ l))) in
    let block' := if last_el then worker_id else block in
    l' ← loadBlock worker_id block' (set_place worker_id block' 0 l);
    Ret ((row, col, val), last_el, l')
  else Ret ((row, col, val), false, set_place worker_id cur next l).

End DISK.
Arguments DiskMatrixLoader : clear implicits.

(** The data file of a loader that streams it. *)
Class DataFile (F : Type) := text_from : Z -> list (entry F * Z).
#[export] Instance disk_loader {F} `{!DataFile F} : MatrixLoader (DiskMatrixLoader F) F := {
  getNextEl := disk_getNextEl text_from; getN := disk_N_; getM := disk_M_; getNNZ := nnz_
}.

(** ** Matrix factorization: the loaders keep their promises

    Both loaders implement the interface of [MfLoader], and with both the
    entries of the workers together are the matrix. *)

(** ** Every [P]-th index below [n], beginning with [w] *)
Definition stride_count (P n w : Z) : Z := (n - w + P - 1) / P.
Definition strided (P n w : Z) : list Z := map (fun k => w + k * P) (seqZ 0 (stride_count P n w)).

Lemma stride_count_spec P n w k : 0 < P -> 0 <= k -> k < stride_count P n w <-> w + k * P < n.
Proof.
  intros HP Hk. unfold stride_count. pose proof (Z.div_mod (n - w + P - 1) P ltac:(lia)). pose proof (Z.mod_pos_bound (n - w + P - 1) P HP).
  set (q := (n - w + P - 1) / P) in *. nia.
Qed.
Lemma strided_lookup P n w k i : 0 < P -> strided P n w !! k = Some i <-> i = w + Z.of_nat k * P /\ i < n.
Proof.
  intros HP. unfold strided. change (map ?f ?l) with (f <$> l). rewrite list_lookup_fmap. destruct (decide (Z.of_nat k < stride_count P n w)) as [Hk|Hk].
  - rewrite lookup_seqZ_lt by lia. cbn [fmap option_fmap option_map]. rewrite Z.add_0_l. apply stride_count_spec in Hk; [|done|lia]. split; [intros [= <-]; lia|]. by intros [-> _].
  - rewrite lookup_seqZ_ge by lia. split; [done|]. intros [-> Hi]. exfalso. apply Hk. apply stride_count_spec; [done|lia|done].
Qed.
Lemma elem_of_strided P n w i : 0 < P -> 0 <= w < P -> i ∈ strided P n w <-> w <= i < n /\ i mod P = w.
Proof.
  intros HP Hw. rewrite list_elem_of_lookup. setoid_rewrite (strided_lookup P n w _ i HP). split.
  - intros (k & -> & Hi). split; [nia|]. rewrite Z.mod_add by lia. by apply Z.mod_small.
  - intros (Hi & Hm). exists (Z.to_nat (i / P)). pose proof (Z.div_mod i P ltac:(lia)). pose proof (Z.div_pos i P ltac:(lia) HP). rewrite Z2Nat.id by done. lia.
Qed.
Lemma strided_NoDup P n w : 0 < P -> NoDup (strided P n w).
Proof.
  intros HP. apply NoDup_alt. intros k k' i (-> & _)%strided_lookup (E & _)%strided_lookup; [|done..]. nia.
Qed.
Lemma strided_length P n w : 0 < P -> length (strided P n w) = Z.to_nat (stride_count P n w).
Proof. intros _. unfold strided. by rewrite length_map, length_seqZ. Qed.
Lemma strided_last P n w k : 0 < P -> w + Z.of_nat k * P < n -> bool_decide (S k = length (strided P n w)) = bool_decide (w + Z.of_nat (S k) * P >= n).
Proof.
  intros HP Hk. apply bool_decide_ext. rewrite strided_length by done. pose proof (stride_count_spec P n w (Z.of_nat k) HP ltac:(lia)). pose proof (stride_count_spec P n w (Z.of_nat (S k)) HP ltac:(lia)). lia.
Qed.

(** Together the workers have every index once. *)
Lemma strided_partition P n : 0 < P -> concat (map (strided P n) (seqZ 0 P)) ≡ₚ seqZ 0 n.
Proof.
  intros HP. apply NoDup_Permutation.
  - assert (Hg : forall l, NoDup l -> Forall (fun w => 0 <= w < P) l -> NoDup (concat (map (strided P n) l))).
    { induction l as [|w l IH]; intros Hnd Hl; [constructor|]. apply NoDup_cons in Hnd as [Hw Hnd]. apply Forall_cons in Hl as [Hr Hl]. cbn [map concat].
      apply NoDup_app. split_and!; [by apply strided_NoDup| |by apply IH]. intros i Hi (l' & Hi' & Hl')%list_elem_of_In%in_concat.
      apply in_map_iff in Hi' as (w' & <- & Hw'%list_elem_of_In). apply list_elem_of_In in Hl'.
      assert (0 <= w' < P) by (rewrite Forall_forall in Hl; by apply Hl).
      apply elem_of_strided in Hi as [_ Hi]; [|done..]. apply elem_of_strided in Hl' as [_ Hl']; [|done..]. congruence. }
    apply Hg; [apply NoDup_seqZ|]. apply Forall_forall. intros w Hw%elem_of_seqZ. lia.
  - apply NoDup_seqZ.
  - intros i. rewrite elem_of_seqZ, list_elem_of_In, in_concat. split.
    + intros (l & (w & <- & Hw%list_elem_of_In%elem_of_seqZ)%in_map_iff & Hi%list_elem_of_In). apply elem_of_strided in Hi; lia.
    + intros Hi. pose proof (Z.mod_pos_bound i P HP) as Hm. exists (strided P n (i mod P)). split.
      * apply in_map, list_elem_of_In, elem_of_seqZ. lia.
      * apply list_elem_of_In, elem_of_strided; [done|done|]. split; [|done]. pose proof (Z.mod_le i P ltac:(lia) HP). lia.
Qed.

(** ** Selecting entries by their index *)
Definition select {A} (l : list A) (idx : list Z) : list A := omap (fun i => l !! Z.to_nat i) idx.

Lemma select_lookup {A} (l : list A) idx k : Forall (fun i => 0 <= i < Z.of_nat (length l)) idx -> select l idx !! k = (i ← idx !! k; l !! Z.to_nat i).
Proof.
  unfold select. intros Hf. revert k. induction Hf as [|i idx Hi Hf IH]; intros k; [done|]. destruct (lookup_lt_is_Some_2 l (Z.to_nat i) ltac:(lia)) as (x & Hx).
  cbn [omap list_omap]. rewrite Hx. destruct k as [|k]; cbn; [by rewrite Hx|apply IH].
Qed.
Lemma select_length {A} (l : list A) idx : Forall (fun i => 0 <= i < Z.of_nat (length l)) idx -> length (select l idx) = length idx.
Proof.
  unfold select. induction 1 as [|i idx Hi Hf IH]; [done|]. destruct (lookup_lt_is_Some_2 l (Z.to_nat i) ltac:(lia)) as (x & Hx). cbn [omap list_omap]. rewrite Hx. cbn. by rewrite IH.
Qed.
Lemma select_all {A} (l : list A) : select l (seqZ 0 (Z.of_nat (length l))) = l.
Proof.
  apply list_eq. intros k. rewrite select_lookup by (apply Forall_forall; intros i Hi%elem_of_seqZ; lia).
  destruct (decide (k < length l)%nat) as [Hk|Hk].
  - rewrite lookup_seqZ_lt by lia. cbn. by rewrite Z.add_0_l, Nat2Z.id.
  - rewrite lookup_seqZ_ge by lia. by rewrite lookup_ge_None_2 by lia.
Qed.
Lemma select_concat {A} (l : list A) idxs : select l (concat idxs) = concat (map (select l) idxs).
Proof. unfold select. induction idxs as [|idx idxs IH]; [done|]. cbn [concat map]. by rewrite omap_app, IH. Qed.

(** ** The loader in memory *)
Section STANDARD.
Context {F : Type}.

Definition matrix (s : StandardMatrixLoader F) : list (entry F) := zip (zip (X_row s) (X_col s)) (X_val s).
Definition standard_entries (s : StandardMatrixLoader F) (w : Z) : list (entry F) := select (matrix s) (strided (num_workers_ s) (Z.of_nat (length (matrix s))) w).

Record standard_ok (s : StandardMatrixLoader F) : Prop := {
  so_cols : length (X_col s) = length (X_row s);
  so_vals : length (X_val s) = length (X_row s);
  so_workers : 0 < num_workers_ s;
  so_pos : Z.of_nat (length (worker_next_el_pos_ s)) = num_workers_ s;
  so_small : standard_getNNZ s + num_workers_ s < 2 ^ 64
}.
Definition standard_at (s : StandardMatrixLoader F) (w : Z) (n : nat) : Prop :=
  standard_ok s /\ 0 <= w < num_workers_ s /\ worker_next_el_pos_ s !! Z.to_nat w = Some (w + Z.of_nat n * num_workers_ s).

Lemma matrix_length s : standard_ok s -> Z.of_nat (length (matrix s)) = standard_getNNZ s.
Proof. intros [H1 H2 _ _ _]. unfold matrix, standard_getNNZ. rewrite !length_zip. lia. Qed.
Lemma strided_range (l : list (entry F)) P w : 0 < P -> 0 <= w < P -> Forall (fun i => 0 <= i < Z.of_nat (length l)) (strided P (Z.of_nat (length l)) w).
Proof. intros HP Hw. apply Forall_forall. intros i Hi%elem_of_strided; [lia|done..]. Qed.

Lemma standard_next s w n e : standard_at s w n -> standard_entries s w !! n = Some e ->
  let last := bool_decide (S n = length (standard_entries s w)) in
  exists s', standard_getNextEl w s = Ret (e, last, s') /\ standard_at s' w (if last then O else S n) /\ standard_entries s' = standard_entries s /\
    (forall w' n', w' <> w -> standard_at s w' n' -> standard_at s' w' n') /\ N_ s' = N_ s /\ M_ s' = M_ s /\ standard_getNNZ s' = standard_getNNZ s.
Proof.
  intros (Hok & Hw & Hpos) He. pose proof Hok as [H1 H2 HP Hlen Hsmall]. set (P := num_workers_ s) in *. pose proof (strided_range (matrix s) P w HP Hw) as Hr.
  unfold standard_entries in He. fold P in He. rewrite select_lookup in He by done.
  destruct (strided P (Z.of_nat (length (matrix s))) w !! n) as [i|] eqn:Ei; [|done]. cbn [mbind option_bind] in He. apply strided_lookup in Ei as [-> Hi]; [|done].
  assert (Hlast : bool_decide (S n = length (standard_entries s w)) = bool_decide (w + Z.of_nat (S n) * P >= standard_getNNZ s)).
  { unfold standard_entries. fold P. by rewrite select_length, (strided_last P _ w n HP Hi), (matrix_length s Hok) by done. }
  cbv zeta. rewrite Hlast. rewrite (matrix_length s Hok) in Hi. clear Hlast Hr. set (i := w + Z.of_nat n * P) in *. assert (Hi0 : 0 <= i) by (unfold i; nia).
  destruct e as [[row col] val]. unfold matrix in He. apply lookup_zip_Some in He as [(Hrow & Hcol)%lookup_zip_Some Hval]. cbn [fst snd] in Hrow, Hcol, Hval.
  unfold standard_getNextEl. rewrite (proj2 (vec_at_Ret _ w i)) by (split; [lia|done]). cbn [mbind outcome_bind].
  rewrite (proj2 (vec_at_Ret (X_row s) i row)), (proj2 (vec_at_Ret (X_col s) i col)), (proj2 (vec_at_Ret (X_val s) i val)) by (split; [lia|done]). cbn [mbind outcome_bind].
  fold P. rewrite (u64_id (i + P)), (u64_id (standard_getNNZ s)), (u64_id w) by (unfold in_u64, i in *; lia).
  rewrite vec_set_in by lia. cbn [mbind outcome_bind]. replace (w + Z.of_nat (S n) * P) with (i + P) by (unfold i; lia).
  eexists. split; [reflexivity|]. set (s' := set_next_el_pos _ s).
  assert (Hok' : standard_ok s') by (constructor; try done; cbn; by rewrite length_insert). split_and!; try done.
  - split; [done|]. split; [done|]. unfold s'. cbn [worker_next_el_pos_ set_next_el_pos]. rewrite list_lookup_insert_eq by lia. f_equal. case_bool_decide; cbn [num_workers_ set_next_el_pos]; fold P; unfold i; lia.
  - intros w' n' Hne (_ & Hw' & Hpos'). split; [done|]. split; [done|]. unfold s'. cbn [worker_next_el_pos_ set_next_el_pos]. rewrite list_lookup_insert_ne by (cbn in Hw'; lia). done.
Qed.

#[export] Instance standard_loader_ok : MatrixLoaderOk (StandardMatrixLoader F) F := {
  ml_entries := standard_entries; ml_at := standard_at; ml_next := standard_next
}.

(** The constructor keeps the input, and every worker begins with its first
    entry. *)
Lemma push_entries_spec (input : list (entry F)) n m (rows cols : list Z) (vals : list F) : length cols = length rows -> length vals = length rows ->
  let '(n', m', rows', cols', vals') := foldl push_entry (n, m, rows, cols, vals) input in
  length cols' = length rows' /\ length vals' = length rows' /\ zip (zip rows' cols') vals' = zip (zip rows cols) vals ++ input.
Proof.
  revert n m rows cols vals. induction input as [|[[row col] val] input IH]; intros n m rows cols vals H1 H2; [cbn; by rewrite app_nil_r|].
  cbn [foldl push_entry]. specialize (IH (if bool_decide (row + 1 > n) then row + 1 else n) (if bool_decide (col + 1 > m) then col + 1 else m) (rows ++ [row]) (cols ++ [col]) (vals ++ [val])).
  destruct (foldl _ _ _) as [[[[n' m'] rows'] cols'] vals']. destruct IH as (I1 & I2 & I3); [rewrite !length_app; cbn; lia..|]. split_and!; [done..|].
  rewrite I3. rewrite !zip_with_app by (rewrite ?length_zip; lia). by rewrite <- app_assoc.
Qed.
Lemma standard_new (input : list (entry F)) P : 0 < P -> Z.of_nat (length input) + P < 2 ^ 64 ->
  let s := StandardMatrixLoader_new input P in matrix s = input /\ num_workers_ s = P /\ standard_getNNZ s = Z.of_nat (length input) /\ forall w, 0 <= w < P -> standard_at s w 0.
Proof.
  intros HP Hsmall s. unfold s, StandardMatrixLoader_new, readSparseMatrix. pose proof (push_entries_spec input 0 0 [] [] [] eq_refl eq_refl) as Hp.
  destruct (foldl _ _ _) as [[[[n m] rows] cols] vals]. destruct Hp as (H1 & H2 & H3). cbn [zip_with app] in H3.
  assert (Hnnz : Z.of_nat (length rows) = Z.of_nat (length input)) by (rewrite <- H3, !length_zip; lia).
  split_and!; [done|done|done|]. intros w Hw. split; [|split; [done|]].
  - constructor; cbn [X_row X_col X_val num_workers_ worker_next_el_pos_]; try done; [rewrite length_seqZ; lia|]. unfold standard_getNNZ. cbn [X_row]. lia.
  - cbn [worker_next_el_pos_ num_workers_]. rewrite lookup_seqZ_lt by lia. f_equal. lia.
Qed.

(** The workers' entries together are the matrix. *)
Lemma standard_partition s : 0 < num_workers_ s -> concat (map (standard_entries s) (seqZ 0 (num_workers_ s))) ≡ₚ matrix s.
Proof.
  intros HP. unfold standard_entries. rewrite <- (map_map (strided _ _) (select (matrix s))), <- select_concat.
  rewrite <- (select_all (matrix s)) at 3. unfold select. by rewrite strided_partition.
Qed.
End STANDARD.

(** ** The loader of blocks *)
Section DISK.
Context {F : Type} `{!DataFile F}.
Abbreviation disk := (DiskMatrixLoader F).

Definition num_blocks (s : disk) : Z := Z.of_nat (length (data_block_offsets_ s)).
Definition disk_block (s : disk) (b : Z) : list (entry F) :=
  match data_block_offsets_ s !! Z.to_nat b with
  | Some offset => read_block (data_block_offsets_ s !! Z.to_nat (b + 1)) (text_from offset)
  | None => []
  end.
Definition my_blocks (s : disk) (w : Z) : list (list (entry F)) := map (disk_block s) (strided (disk_num_workers_ s) (num_blocks s) w).
Definition disk_entries (s : disk) (w : Z) : list (entry F) := concat (my_blocks s w).

Definition holds_block (s : disk) (w : Z) (es : list (entry F)) : Prop :=
  block_X_row_ s !! w = Some (map (fun e => e.1.1) es) /\ block_X_col_ s !! w = Some (map (fun e => e.1.2) es) /\ block_X_val_ s !! w = Some (map snd es).

(** The worker is at entry [j] of its [k]-th block. *)
Definition at_block (s : disk) (w : Z) (n : nat) : Prop := exists k j es,
  my_blocks s w !! k = Some es /\ holds_block s w es /\ worker_cur_block_ s !! w = Some (w + Z.of_nat k * disk_num_workers_ s) /\
  disk_next_el_pos_ s !! w = Some (Z.of_nat j) /\ (j < length es)%nat /\ n = (length (concat (take k (my_blocks s w))) + j)%nat.
Record disk_at (s : disk) (w : Z) (n : nat) : Prop := {
  da_workers : 0 < disk_num_workers_ s;
  da_w : 0 <= w < disk_num_workers_ s;
  da_small : num_blocks s + disk_num_workers_ s < 2 ^ 64;
  da_open : w ∈ worker_ifstreams_ s;
  da_blocks : Forall (fun es => es <> []) (my_blocks s w);
  da_at : at_block s w n
}.

Definition loaded (w b : Z) (s : disk) : disk :=
  mkdisk (disk_N_ s) (disk_M_ s) (nnz_ s) (data_block_offsets_ s) (worker_ifstreams_ s)
    (<[w := map (fun e => e.1.1) (disk_block s b)]> (block_X_row_ s)) (<[w := map (fun e => e.1.2) (disk_block s b)]> (block_X_col_ s))
    (<[w := map snd (disk_block s b)]> (block_X_val_ s)) (disk_num_workers_ s) (worker_cur_block_ s) (disk_next_el_pos_ s).
Lemma loadBlock_spec w b s : w ∈ worker_ifstreams_ s -> 0 <= b < num_blocks s -> loadBlock text_from w b s = Ret (loaded w b s).
Proof.
  unfold num_blocks. intros Hw Hb. unfold loadBlock, loaded, disk_block. rewrite bool_decide_true by done.
  destruct (lookup_lt_is_Some_2 (data_block_offsets_ s) (Z.to_nat b) ltac:(lia)) as (off & Hoff). rewrite (proj2 (vec_at_Ret _ b off)) by (split; [lia|done]). cbn [mbind outcome_bind]. rewrite Hoff.
  case_bool_decide as Hl.
  - destruct (lookup_lt_is_Some_2 (data_block_offsets_ s) (Z.to_nat (b + 1)) ltac:(lia)) as (next & Hnext). rewrite (proj2 (vec_at_Ret _ (b + 1) next)) by (split; [lia|done]).
    cbn [mbind outcome_bind]. by rewrite Hnext.
  - cbn [mbind outcome_bind]. by rewrite (lookup_ge_None_2 (data_block_offsets_ s) (Z.to_nat (b + 1))) by lia.
Qed.
Lemma loaded_holds w b s : holds_block (loaded w b s) w (disk_block s b).
Proof. unfold holds_block, loaded. cbn. by rewrite !lookup_insert_eq. Qed.

Lemma my_blocks_lookup s w k es : 0 < disk_num_workers_ s -> my_blocks s w !! k = Some es <->
  w + Z.of_nat k * disk_num_workers_ s < num_blocks s /\ es = disk_block s (w + Z.of_nat k * disk_num_workers_ s).
Proof.
  intros HP. unfold my_blocks. change (map ?f ?l) with (f <$> l). rewrite list_lookup_fmap_Some. split.
  - intros (b & -> & (-> & Hb)%strided_lookup); done.
  - intros [Hb ->]. eexists. split; [done|]. by apply strided_lookup.
Qed.

(** The entry, and how much there is behind it. *)
Lemma concat_at {A} (bs : list (list A)) k es j e : bs !! k = Some es -> es !! j = Some e -> concat bs !! (length (concat (take k bs)) + j)%nat = Some e /\
  length (concat bs) = (length (concat (take (S k) bs)) + length (concat (drop (S k) bs)))%nat /\ length (concat (take (S k) bs)) = (length (concat (take k bs)) + length es)%nat.
Proof.
  intros Hk Hj. assert (E : concat bs = concat (take k bs) ++ es ++ concat (drop (S k) bs)) by (rewrite <- (take_drop_middle bs k es Hk) at 1; by rewrite concat_app).
  split_and!.
  - rewrite E, lookup_app_r by lia. replace (length (concat (take k bs)) + j - length (concat (take k bs)))%nat with j by lia.
    by apply lookup_app_l_Some.
  - rewrite <- (take_drop (S k) bs) at 1. by rewrite concat_app, length_app.
  - rewrite (take_S_r _ _ _ Hk), concat_app, length_app. cbn [concat]. rewrite app_nil_r. done.
Qed.

(** Two loaders that agree on the file and on a worker. *)
Definition same_file (s s' : disk) : Prop :=
  data_block_offsets_ s' = data_block_offsets_ s /\ disk_num_workers_ s' = disk_num_workers_ s /\ worker_ifstreams_ s' = worker_ifstreams_ s.
Lemma my_blocks_same s s' : same_file s s' -> my_blocks s' = my_blocks s.
Proof. intros (E1 & E2 & _). unfold my_blocks, num_blocks, disk_block. by rewrite E1, E2. Qed.
Lemma disk_at_frame s s' w n : same_file s s' -> block_X_row_ s' !! w = block_X_row_ s !! w -> block_X_col_ s' !! w = block_X_col_ s !! w ->
  block_X_val_ s' !! w = block_X_val_ s !! w -> worker_cur_block_ s' !! w = worker_cur_block_ s !! w -> disk_next_el_pos_ s' !! w = disk_next_el_pos_ s !! w ->
  disk_at s w n -> disk_at s' w n.
Proof.
  intros Hf Er Ec Ev Eb Ep [D1 D2 D3 D4 D5 (k & j & es & A1 & A2 & A3 & A4 & A5 & A6)]. pose proof (my_blocks_same s s' Hf) as Em. destruct Hf as (E1 & E2 & E3).
  constructor; rewrite ?Em, ?E2, ?E3; unfold num_blocks; rewrite ?E1; try done. exists k, j, es. unfold holds_block. by rewrite Em, Er, Ec, Ev, Eb, Ep, E2.
Qed.

Lemma disk_move s w k j es : 0 < disk_num_workers_ s -> 0 <= w < disk_num_workers_ s -> num_blocks s + disk_num_workers_ s < 2 ^ 64 -> w ∈ worker_ifstreams_ s ->
  Forall (fun es => es <> []) (my_blocks s w) -> my_blocks s w !! k = Some es -> holds_block s w es -> (j < length es)%nat ->
  disk_at (set_place w (w + Z.of_nat k * disk_num_workers_ s) (Z.of_nat j) s) w (length (concat (take k (my_blocks s w))) + j).
Proof.
  intros D1 D2 D3 D4 D5 Hk Hes Hj. pose proof (my_blocks_same s (set_place w (w + Z.of_nat k * disk_num_workers_ s) (Z.of_nat j) s) ltac:(done)) as Em.
  constructor; rewrite ?Em; try done. exists k, j, es. rewrite Em. split_and!; try done; [apply Hes..| |]; cbn; by rewrite lookup_insert_eq.
Qed.

(** Loading a block puts the worker at its beginning. *)
Lemma disk_load s w k : 0 < disk_num_workers_ s -> 0 <= w < disk_num_workers_ s -> num_blocks s + disk_num_workers_ s < 2 ^ 64 -> w ∈ worker_ifstreams_ s ->
  Forall (fun es => es <> []) (my_blocks s w) -> w + Z.of_nat k * disk_num_workers_ s < num_blocks s ->
  exists s', loadBlock text_from w (w + Z.of_nat k * disk_num_workers_ s) (set_place w (w + Z.of_nat k * disk_num_workers_ s) 0 s) = Ret s' /\
    disk_at s' w (length (concat (take k (my_blocks s w)))) /\ same_file s s' /\ (forall w' n', w' <> w -> disk_at s w' n' -> disk_at s' w' n') /\
    disk_N_ s' = disk_N_ s /\ disk_M_ s' = disk_M_ s /\ nnz_ s' = nnz_ s.
Proof.
  intros D1 D2 D3 D4 D5 Hk. set (b := w + Z.of_nat k * disk_num_workers_ s) in *. set (s1 := set_place w b 0 s). exists (loaded w b s1).
  assert (Hf : same_file s (loaded w b s1)) by done. pose proof (my_blocks_same s _ Hf) as Em.
  assert (Hb : my_blocks s w !! k = Some (disk_block s b)) by (by apply my_blocks_lookup).
  split; [apply loadBlock_spec; [done|unfold b in *; change (num_blocks s1) with (num_blocks s); nia]|]. split; [|split; [done|split; [|done]]].
  - constructor; rewrite ?Em; try done. exists k, 0%nat, (disk_block s b). rewrite Em. split; [exact Hb|]. split; [apply (loaded_holds w b s1)|].
    split; [cbn; by rewrite lookup_insert_eq|]. split; [cbn; by rewrite lookup_insert_eq|]. split; [|lia].
    destruct (disk_block s b) eqn:E; [|cbn; lia]. by eapply Forall_lookup_1 in D5.
  - intros w' n' Hne. apply disk_at_frame; try done; cbn; by rewrite lookup_insert_ne by done.
Qed.

Lemma disk_next s w n e : disk_at s w n -> disk_entries s w !! n = Some e ->
  let last := bool_decide (S n = length (disk_entries s w)) in
  exists s', disk_getNextEl text_from w s = Ret (e, last, s') /\ disk_at s' w (if last then O else S n) /\ disk_entries s' = disk_entries s /\
    (forall w' n', w' <> w -> disk_at s w' n' -> disk_at s' w' n') /\ disk_N_ s' = disk_N_ s /\ disk_M_ s' = disk_M_ s /\ nnz_ s' = nnz_ s.
Proof.
  intros [D1 D2 D3 D4 D5 (k & j & es & Hk & Hes & Hcur & Hpos & Hj & ->)] He. destruct (lookup_lt_is_Some_2 es j Hj) as ([[row col] val] & Hej).
  destruct (concat_at (my_blocks s w) k es j _ Hk Hej) as (Hat & Hlen & Htake). unfold disk_entries in He. rewrite Hat in He. injection He as <-.
  pose proof Hes as (Er & Ec & Ev). pose proof (proj1 (my_blocks_lookup s w k es D1) Hk) as [Hb Ees]. set (P := disk_num_workers_ s) in *.
  assert (Hsk : forall es', my_blocks s w !! S k = Some es' <-> _) by (intros; apply my_blocks_lookup; exact D1). fold P in Hsk.
  unfold disk_getNextEl. rewrite Hpos, Hcur, Er, Ec, Ev. cbn [default from_option id].
  rewrite (vec_at_nat (map (fun e => e.1.1) es) j row), (vec_at_nat (map (fun e => e.1.2) es) j col), (vec_at_nat (map snd es) j val) by (change (map ?f ?l) with (f <$> l); by rewrite list_lookup_fmap, Hej).
  cbn [mbind outcome_bind]. rewrite length_map. cbv zeta. unfold disk_entries. fold P. destruct (decide (S j = length es)) as [Hend|Hmid].
  - rewrite (bool_decide_true (Z.of_nat j + 1 >= _)) by lia. rewrite (u64_id (w + Z.of_nat k * P + P)) by (unfold in_u64, num_blocks, P in *; nia). fold (num_blocks s).
    replace (w + Z.of_nat k * P + P) with (w + Z.of_nat (S k) * P) by lia.
    destruct (decide (w + Z.of_nat (S k) * P < num_blocks s)) as [Hmore|Hlast].
    + rewrite (bool_decide_false (w + Z.of_nat (S k) * P >= _)) by lia. destruct (disk_load s w (S k) D1 D2 D3 D4 D5 Hmore) as (s' & E & Hs' & Hf & Hframe & Hrest). fold P in E. rewrite E.
      cbn [mbind outcome_bind]. exists s'. rewrite Htake in Hs'.
      assert (Hne : (length (concat (drop (S k) (my_blocks s w))) <> 0)%nat).
      { pose proof (proj2 (Hsk _) (conj Hmore eq_refl)) as Hn. rewrite (drop_S _ _ _ Hn). cbn [concat]. rewrite length_app. pose proof (Forall_lookup_1 _ _ _ _ D5 Hn) as Hn0. cbn beta in Hn0.
        destruct (disk_block s (w + Z.of_nat (S k) * P)); [done|cbn; lia]. }
      rewrite bool_decide_false by lia. split; [done|]. split; [by replace (S (length (concat (take k (my_blocks s w))) + j)) with (length (concat (take k (my_blocks s w))) + length es)%nat by lia|].
      split; [by rewrite (my_blocks_same s s' Hf)|]. split; [done|]. done.
    + rewrite (bool_decide_true (w + Z.of_nat (S k) * P >= _)) by lia. destruct (disk_load s w 0 D1 D2 D3 D4 D5 ltac:(fold P; nia)) as (s' & E & Hs' & Hf & Hframe & Hrest).
      replace (w + Z.of_nat 0 * disk_num_workers_ s) with w in E by lia. rewrite E. cbn [mbind outcome_bind]. exists s'.
      assert (Hno : drop (S k) (my_blocks s w) = []).
      { apply drop_ge, Nat.nlt_ge. intros Hn. destruct (lookup_lt_is_Some_2 _ _ Hn) as (es' & [? _]%Hsk). done. }
      rewrite Hno in Hlen. cbn [concat length] in Hlen. rewrite bool_decide_true by lia. split; [done|]. split; [exact Hs'|].
      split; [by rewrite (my_blocks_same s s' Hf)|]. done.
  - rewrite (bool_decide_false (Z.of_nat j + 1 >= _)) by lia. rewrite bool_decide_false by lia. eexists. split; [reflexivity|].
    replace (Z.of_nat j + 1) with (Z.of_nat (S j)) by lia. split; [|split; [done|split; [|done]]].
    + rewrite <- Nat.add_succ_r. apply (disk_move s w k (S j) es); [done..|lia].
    + intros w' n' Hne. apply disk_at_frame; try done; cbn; by rewrite lookup_insert_ne by done.
Qed.

#[export] Instance disk_loader_ok : MatrixLoaderOk (DiskMatrixLoader F) F := {
  ml_entries := disk_entries; ml_at := disk_at; ml_next := disk_next
}.

Lemma initWorker_spec s w : 0 < disk_num_workers_ s -> 0 <= w < disk_num_workers_ s -> num_blocks s + disk_num_workers_ s < 2 ^ 64 -> w < num_blocks s ->
  Forall (fun es => es <> []) (my_blocks s w) ->
  exists s', initWorker text_from w s = Ret s' /\ disk_at s' w 0 /\ disk_entries s' = disk_entries s /\ (forall w' n', w' <> w -> disk_at s w' n' -> disk_at s' w' n').
Proof.
  intros D1 D2 D3 Hw D5. set (s0 := open_stream w s). assert (Hopen : w ∈ worker_ifstreams_ s0) by (cbn; set_solver).
  destruct (disk_load s0 w 0 D1 D2 D3 Hopen D5) as (s' & E & Hs' & Hf & Hframe & _); [cbn; unfold num_blocks in *; cbn; lia|].
  replace (w + Z.of_nat 0 * disk_num_workers_ s0) with w in E by lia. exists s'. split; [exact E|]. split; [exact Hs'|]. split.
  - unfold disk_entries. by rewrite (my_blocks_same s0 s' Hf).
  - intros w' n' Hne [A1 A2 A3 A4 A5 A6]. apply Hframe; [done|]. constructor; try done. cbn. set_solver.
Qed.

(** Each offset but the first is where the block before it ends. *)
Definition offsets_ok (offsets : list Z) : Prop := forall b off next, offsets !! b = Some off -> offsets !! S b = Some next ->
  exists es, text_from off = es ++ text_from next /\ Forall (fun e => e.2 < next) es /\ Forall (fun e => e.2 >= next) (text_from next).

Lemma read_block_stop next (l rest : list (entry F * Z)) : Forall (fun e => e.2 < next) l -> Forall (fun e => e.2 >= next) rest -> read_block (Some next) (l ++ rest) = l.*1.
Proof.
  intros Hl Hr. induction Hl as [|[e pos] l He _ IH].
  - destruct Hr as [|[e pos] rest He _]; [done|]. cbn in *. by rewrite bool_decide_true.
  - cbn in *. rewrite bool_decide_false by lia. by rewrite IH.
Qed.
Lemma read_block_all (l : list (entry F * Z)) : read_block None l = l.*1.
Proof. induction l as [|[e pos] l IH]; [done|]. cbn. by rewrite IH. Qed.

Lemma blocks_concat s : offsets_ok (data_block_offsets_ s) -> forall b off, data_block_offsets_ s !! b = Some off ->
  concat (map (disk_block s) (seqZ (Z.of_nat b) (num_blocks s - Z.of_nat b))) = (text_from off).*1.
Proof.
  intros Hok b. unfold num_blocks. remember (length (data_block_offsets_ s) - b)%nat as m eqn:Em. revert b Em. induction m as [|m IH]; intros b Em off Hoff; apply lookup_lt_Some in Hoff as Hb; [lia|].
  rewrite seqZ_cons by lia. cbn [map concat]. assert (Ed : disk_block s (Z.of_nat b) = read_block (data_block_offsets_ s !! S b) (text_from off)).
  { unfold disk_block. rewrite Nat2Z.id, Hoff. by replace (Z.to_nat (Z.of_nat b + 1)) with (S b) by lia. }
  rewrite Ed. destruct (data_block_offsets_ s !! S b) as [next|] eqn:En.
  - destruct (Hok b off next Hoff En) as (es & E & He & Hn). rewrite E, (read_block_stop next es (text_from next) He Hn), fmap_app. f_equal.
    rewrite <- (IH (S b) ltac:(lia) next En). do 3 f_equal; lia.
  - apply lookup_ge_None in En. rewrite read_block_all. replace (Z.pred _) with 0 by lia. cbn. by rewrite app_nil_r.
Qed.

(** The workers' entries together are those of the file. *)
Lemma disk_partition s off : 0 < disk_num_workers_ s -> offsets_ok (data_block_offsets_ s) -> data_block_offsets_ s !! 0%nat = Some off ->
  concat (map (disk_entries s) (seqZ 0 (disk_num_workers_ s))) ≡ₚ (text_from off).*1.
Proof.
  intros HP Hok Hoff. rewrite <- (blocks_concat s Hok 0 off Hoff). replace (num_blocks s - Z.of_nat 0) with (num_blocks s) by lia.
  rewrite <- (strided_partition (disk_num_workers_ s) (num_blocks s) HP). generalize (seqZ 0 (disk_num_workers_ s)). induction l as [|w l IH]; [done|].
  cbn [map concat]. unfold disk_entries at 1, my_blocks at 1. by rewrite map_app, concat_app, IH.
Qed.
End DISK.
