(* ===== verification/MfSolver.v ===== *)
(** * Matrix factorization: the solver

    What a worker thread does ([apps/matrixfact/src/matrixfact.cpp]): it adds
    its share of the initial values, then goes through its entries once in
    every iteration and sends the gradient steps.  What it sends and when it
    synchronises is a trace; what it reads is a parameter.  Single and double
    precision are one type, with the operations of [Float]. *)
From stdpp Require Import gmap.
From S2P Require Import Prelude StradsFloat MfLoader.
Open Scope Z_scope.

Section SOLVER.
Context {L F : Type} `{Float F} `{!MatrixLoader L F}.
(** [pow] of the C library. *)
Context (f_pow : F -> F -> F).

(** The flags. *)
Record mf_config := mkmf {
  cf_K : Z; cf_num_clients : Z; cf_num_worker_threads : Z; cf_client_id : Z; cf_num_iterations : Z; cf_staleness : Z; cf_ps_resume_clock : Z;
  cf_lambda : F; cf_init_step_size : F; cf_step_size_offset : F; cf_step_size_pow : F
}.
Context (cfg : mf_config).

Inductive mf_event :=
  | LBatchInc (i : Z) (batch : list (Z * F)) | RBatchInc (j : Z) (batch : list (Z * F))
  | LossInc (col : Z) (v : F)
  | MfClock | MfGlobalBarrier
  | PrintLoss (loss : F) | OutputToDisk.

(** The rows the worker sees after what it has done; an accessor refers to
    the row in the cache, so the loop that computes the product ([0]) and the
    one that computes the gradients ([1]) may find different values. *)
Record mf_env := mkmf_env {
  me_L : nat -> list mf_event -> Z -> list F;
  me_R : nat -> list mf_event -> Z -> list F;
  me_loss : list mf_event -> list F;
  me_dist : nat -> F                              (* draws of the generator *)
}.
Context (env : mf_env).

Definition get_total_num_workers : Z := cf_num_clients cfg * cf_num_worker_threads cfg.
Definition get_global_worker_id (local_thread_id : Z) : Z := cf_client_id cfg * cf_num_worker_threads cfg + local_thread_id.

Definition f_two : F := f_of_Z 2.
Definition f_neg (x : F) : F := f_sub f_zero x.

Definition dot (l r : list F) : outcome F :=
  foldM (fun s k => a ← vec_at l k; b ← vec_at r k; Ret (f_add s (f_mul a b))) (seqZ 0 (cf_K cfg)) f_zero.
(** [-2 * (Xij - LiRj) * b + lambda * 2 * a] *)
Definition gradient (err a b : F) : F := f_add (f_mul (f_mul (f_neg f_two) err) b) (f_mul (f_mul (cf_lambda cfg) f_two) a).
Definition step_updates (err step_size : F) (l r : list F) : outcome (list (Z * F)) :=
  mapM (fun k => a ← vec_at l k; b ← vec_at r k; Ret (k, f_mul (f_neg (gradient err a b)) step_size)) (seqZ 0 (cf_K cfg)).

(** The indexes come as [int64_t] and are taken as [int]: the model is for
    matrices with at most [2^31] rows and columns. *)
Definition sgd_element (e : entry F) (step_size : F) (id : Z) (tr : list mf_event) : outcome (list mf_event) :=
  let '(i, j, Xij) := e in
  LiRj ← dot (me_L env 0 tr i) (me_R env 0 tr j);
  let err := f_sub Xij LiRj in
  let tr1 := tr ++ [LossInc id (f_pow err f_two)] in
  Li_update ← step_updates err step_size (me_L env 1 tr1 i) (me_R env 1 tr1 j);
  Rj_update ← step_updates err step_size (me_R env 1 tr1 j) (me_L env 1 tr1 i);
  Ret (tr1 ++ [LBatchInc i Li_update; RBatchInc j Rj_update]).

(** The rows get their draws in order. *)
Definition init_row (first : nat) : list (Z * F) :=
  map (fun k => (k, f_div (me_dist env (first + Z.to_nat k)) (f_of_Z get_total_num_workers))) (seqZ 0 (cf_K cfg)).
Definition init_mf (s : L) : list mf_event :=
  let K := Z.to_nat (cf_K cfg) in
  map (fun i => LBatchInc i (init_row (Z.to_nat i * K))) (seqZ 0 (getN s)) ++
  map (fun j => RBatchInc j (init_row ((Z.to_nat (getN s) + Z.to_nat j) * K))) (seqZ 0 (getM s)).

Fixpoint sgd_loop (fuel : nat) (step_size : F) (id : Z) (st : L * list mf_event) : outcome (L * list mf_event) :=
  match fuel with
  | O => Undef
  | S fuel' =>
      '(e, last_el, s) ← getNextEl id st.1;
      tr ← sgd_element e step_size id st.2;
      if (last_el : bool) then Ret (s, tr) else sgd_loop fuel' step_size id (s, tr)
  end.

Definition step_size_at (iter : Z) : F :=
  f_mul (cf_init_step_size cfg) (f_pow (f_add (cf_step_size_offset cfg) (f_of_Z iter)) (f_neg (cf_step_size_pow cfg))).

Definition iteration (id : Z) (st : L * list mf_event) (iter : Z) : outcome (L * list mf_event) :=
  if bool_decide (iter < cf_ps_resume_clock cfg - cf_staleness cfg - 1) then Ret (st.1, st.2 ++ [MfClock])
  else
    old ← vec_at (me_loss env st.2) id;
    '(s, tr) ← sgd_loop (Z.to_nat (getNNZ st.1)) (step_size_at iter) id (st.1, st.2 ++ [LossInc id (f_neg old)]);
    tr' ← (if bool_decide (id = 0) then
             loss ← foldM (fun l t => x ← vec_at (me_loss env tr) t; Ret (f_add l x)) (seqZ 0 get_total_num_workers) f_zero;
             Ret (tr ++ [PrintLoss loss])
           else Ret tr);
    Ret (s, tr' ++ [MfClock]).

Definition solve_mf (local_thread_id : Z) (s : L) : outcome (L * list mf_event) :=
  let id := get_global_worker_id local_thread_id in
  let tr := (if bool_decide (cf_ps_resume_clock cfg = 0) then init_mf s else []) ++ [MfGlobalBarrier] in
  st ← foldM (iteration id) (seqZ 0 (cf_num_iterations cfg)) (s, tr);
  Ret (st.1, st.2 ++ [MfGlobalBarrier] ++ (if bool_decide (id = 0) then [OutputToDisk] else [])).
End SOLVER.

Arguments mf_config : clear implicits.
Arguments mf_event : clear implicits.
Arguments mf_env : clear implicits.
