(* ===== verification/MfProps.v ===== *)
(** * Matrix factorization: what the workers compute

    For every loader that keeps the promises of [MatrixLoaderOk] a worker
    sends one gradient step for each of its entries in every iteration; a
    single worker that reads what it has sent computes stochastic gradient
    descent on the regularised squared error. *)
From stdpp Require Import gmap.
From S2P Require Import Prelude StradsFloat MfLoader MfSolver.
Open Scope Z_scope.

(** ** The loop over a worker's entries *)
Section LOOP.
Context {L F : Type} `{Float F} `{MO : MatrixLoaderOk L F}.
Context (f_pow : F -> F -> F) (cfg : mf_config F) (env : mf_env F).

Lemma sgd_loop_spec (I : list (entry F) -> list (mf_event F) -> Prop) step id es : 
  (forall seen e tr, I seen tr -> e ∈ es -> exists tr', sgd_element f_pow cfg env e step id tr = Ret tr' /\ I (seen ++ [e]) tr') ->
  forall fuel s n tr, ml_at s id n -> ml_entries s id = es -> (n < length es)%nat -> (length es - n <= fuel)%nat -> I (take n es) tr ->
  exists s' tr', sgd_loop f_pow cfg env fuel step id (s, tr) = Ret (s', tr') /\ ml_at s' id 0 /\ ml_entries s' = ml_entries s /\ getNNZ s' = getNNZ s /\ I es tr'.
Proof.
  intros Hel fuel. induction fuel as [|fuel IH]; intros s n tr Hat Hes Hn Hf Htr; [lia|]. destruct (lookup_lt_is_Some_2 es n Hn) as (e & He).
  destruct (ml_next s id n e Hat) as (s' & E & Hat' & Hes' & _ & _ & _ & Hnnz); [by rewrite Hes|]. rewrite Hes in E, Hat'.
  cbn [sgd_loop fst snd]. rewrite E. cbn [mbind outcome_bind]. destruct (Hel (take n es) e tr Htr) as (tr' & E' & Htr'); [by eapply list_elem_of_lookup_2|]. rewrite E'. cbn [mbind outcome_bind].
  rewrite <- (take_S_r _ _ _ He) in Htr'. destruct (decide (S n = length es)) as [Hlast|Hmore].
  - rewrite bool_decide_true in Hat' |- * by done. exists s', tr'. rewrite firstn_all2 in Htr' by lia. done.
  - rewrite bool_decide_false in Hat' |- * by done. destruct (IH s' (S n) tr' Hat') as (s2 & tr2 & E2 & H1 & H2 & H3 & H4); [by rewrite Hes'|lia..|done|].
    exists s2, tr2. split; [done|]. split; [done|]. split; [congruence|]. split; [congruence|done].
Qed.

(** ** Rows that are long enough *)
Lemma vec_at_long (l : list F) k : 0 <= k < cf_K cfg -> cf_K cfg <= Z.of_nat (length l) -> vec_at l k = Ret (nth (Z.to_nat k) l f_zero).
Proof.
  intros Hk Hl. apply vec_at_Ret. split; [lia|]. rewrite nth_lookup. destruct (lookup_lt_is_Some_2 l (Z.to_nat k) ltac:(lia)) as (x & ->). done.
Qed.
Definition dotf (l r : Z -> F) : F := foldl (fun s k => f_add s (f_mul (l k) (r k))) f_zero (seqZ 0 (cf_K cfg)).
Definition updates_of (err step : F) (l r : Z -> F) : list (Z * F) := map (fun k => (k, f_mul (f_neg (gradient cfg err (l k) (r k))) step)) (seqZ 0 (cf_K cfg)).
Definition row_at (l : list F) (k : Z) : F := nth (Z.to_nat k) l f_zero.

Lemma dot_spec l r : cf_K cfg <= Z.of_nat (length l) -> cf_K cfg <= Z.of_nat (length r) -> dot cfg l r = Ret (dotf (row_at l) (row_at r)).
Proof. intros Hl Hr. unfold dot. apply foldM_pure. intros s k Hk%elem_of_seqZ. by rewrite !vec_at_long by lia. Qed.
Lemma step_updates_spec err step l r : cf_K cfg <= Z.of_nat (length l) -> cf_K cfg <= Z.of_nat (length r) ->
  step_updates cfg err step l r = Ret (updates_of err step (row_at l) (row_at r)).
Proof. intros Hl Hr. unfold step_updates. apply mapM_pure. intros k Hk%elem_of_seqZ. by rewrite !vec_at_long by lia. Qed.

Record rows_ok : Prop := {
  ro_L n tr i : cf_K cfg <= Z.of_nat (length (me_L env n tr i));
  ro_R n tr j : cf_K cfg <= Z.of_nat (length (me_R env n tr j));
  ro_loss tr : get_total_num_workers cfg <= Z.of_nat (length (me_loss env tr))
}.

Lemma sgd_element_spec i j x step id tr : rows_ok ->
  let err := f_sub x (dotf (row_at (me_L env 0 tr i)) (row_at (me_R env 0 tr j))) in
  let tr1 := tr ++ [LossInc id (f_pow err f_two)] in
  let l := row_at (me_L env 1 tr1 i) in let r := row_at (me_R env 1 tr1 j) in
  sgd_element f_pow cfg env (i, j, x) step id tr = Ret (tr1 ++ [LBatchInc i (updates_of err step l r); RBatchInc j (updates_of err step r l)]).
Proof. intros [R1 R2 R3]. unfold sgd_element. rewrite dot_spec by done. cbn [mbind outcome_bind]. rewrite step_updates_spec by done. cbn [mbind outcome_bind]. by rewrite step_updates_spec by done. Qed.
End LOOP.

(** ** What a trace steps at *)
Section TRACE.
Context {F : Type}.
Definition L_rows (tr : list (mf_event F)) : list Z := omap (fun ev => match ev with LBatchInc i _ => Some i | _ => None end) tr.
Definition R_rows (tr : list (mf_event F)) : list Z := omap (fun ev => match ev with RBatchInc j _ => Some j | _ => None end) tr.
Definition mf_clocks (tr : list (mf_event F)) : nat := length (omap (fun ev => match ev with MfClock => Some tt | _ => None end) tr).

(** The trace goes on from [tr] with steps at the entries and some clocks. *)
Definition goes_on (tr tr' : list (mf_event F)) (es : list (entry F)) (clocks : nat) : Prop :=
  exists evs, tr' = tr ++ evs /\ L_rows evs = map (fun e => e.1.1) es /\ R_rows evs = map (fun e => e.1.2) es /\ mf_clocks evs = clocks.
Lemma goes_on_refl tr : goes_on tr tr [] 0.
Proof. exists []. by rewrite app_nil_r. Qed.
Lemma goes_on_trans tr1 tr2 tr3 es1 es2 n1 n2 : goes_on tr1 tr2 es1 n1 -> goes_on tr2 tr3 es2 n2 -> goes_on tr1 tr3 (es1 ++ es2) (n1 + n2).
Proof.
  intros (a & -> & A1 & A2 & A3) (b & -> & B1 & B2 & B3). exists (a ++ b). unfold L_rows, R_rows, mf_clocks in *. rewrite !omap_app, !map_app, length_app, <- app_assoc. split_and!; congruence.
Qed.
Lemma goes_on_events tr evs es n : L_rows evs = map (fun e => e.1.1) es -> R_rows evs = map (fun e => e.1.2) es -> mf_clocks evs = n -> goes_on tr (tr ++ evs) es n.
Proof. intros. by exists evs. Qed.
End TRACE.

Section VISITS.
Context {L F : Type} `{Float F} `{MO : MatrixLoaderOk L F}.
Context (f_pow : F -> F -> F) (cfg : mf_config F) (env : mf_env F).

Definition skipped (iter : Z) : bool := bool_decide (iter < cf_ps_resume_clock cfg - cf_staleness cfg - 1).
(** A worker at the start of its entries. *)
Record worker_ready (id : Z) (es : list (entry F)) (s : L) : Prop := {
  wr_at : ml_at s id 0;
  wr_entries : ml_entries s id = es;
  wr_some : es <> [];
  wr_nnz : Z.of_nat (length es) <= getNNZ s
}.

Lemma iteration_visits id es s tr iter : rows_ok cfg env -> worker_ready id es s -> 0 <= id < get_total_num_workers cfg ->
  exists s' tr', iteration f_pow cfg env id (s, tr) iter = Ret (s', tr') /\ worker_ready id es s' /\ goes_on tr tr' (if skipped iter then [] else es) 1.
Proof.
  intros Hrows [Hat Hes Hne Hnnz] Hid. unfold iteration, skipped. cbn [fst snd]. destruct (bool_decide (iter < _)).
  { exists s, (tr ++ [MfClock]). split; [done|]. split; [done|]. by apply goes_on_events. }
  pose proof (ro_loss cfg env Hrows) as Hloss. destruct (lookup_lt_is_Some_2 (me_loss env tr) (Z.to_nat id)) as (old & Hold); [specialize (Hloss tr); lia|].
  rewrite (proj2 (vec_at_Ret _ id old)) by (split; [lia|done]). cbn [mbind outcome_bind]. set (tr0 := tr ++ [LossInc id (f_neg old)]).
  assert (Hlen : (0 < length es)%nat) by (destruct es; [done|cbn; lia]).
  destruct (sgd_loop_spec f_pow cfg env (fun seen tr' => goes_on tr tr' seen 0) (step_size_at f_pow cfg iter) id es) with (fuel := Z.to_nat (getNNZ s)) (s := s) (n := 0%nat) (tr := tr0)
    as (s' & tr1 & -> & Hat' & Hes' & Hnnz' & Hgo); try done; [|lia|by apply goes_on_events|].
  { intros seen [[i j] x] tr' Hgo _. rewrite sgd_element_spec by done. eexists. split; [done|]. rewrite <- app_assoc. change 0%nat with (0 + 0)%nat. eapply goes_on_trans; [exact Hgo|]. by apply goes_on_events. }
  cbn [mbind outcome_bind]. assert (Hr : worker_ready id es s') by (constructor; congruence).
  destruct (decide (id = 0)) as [->|Hz].
  - rewrite bool_decide_true by done. rewrite (foldM_pure _ (fun l t => f_add l (nth (Z.to_nat t) (me_loss env tr1) f_zero))).
    + cbn [mbind outcome_bind]. rewrite <- app_assoc. eexists s', _. split; [done|]. split; [done|]. rewrite <- (app_nil_r es). change 1%nat with (0 + 1)%nat. eapply goes_on_trans; [exact Hgo|]. by apply goes_on_events.
    + intros l t Ht%elem_of_seqZ. rewrite (proj2 (vec_at_Ret _ t (nth (Z.to_nat t) (me_loss env tr1) f_zero))); [done|]. split; [lia|]. rewrite nth_lookup.
      destruct (lookup_lt_is_Some_2 (me_loss env tr1) (Z.to_nat t)) as (x & ->); [specialize (Hloss tr1); lia|done].
  - rewrite bool_decide_false by done. cbn [mbind outcome_bind]. eexists s', _. split; [done|]. split; [done|]. rewrite <- (app_nil_r es). change 1%nat with (0 + 1)%nat. eapply goes_on_trans; [exact Hgo|]. by apply goes_on_events.
Qed.

Lemma iterations_visit id es iters s tr : rows_ok cfg env -> worker_ready id es s -> 0 <= id < get_total_num_workers cfg ->
  exists s' tr', foldM (iteration f_pow cfg env id) iters (s, tr) = Ret (s', tr') /\ worker_ready id es s' /\
    goes_on tr tr' (concat (map (fun iter => if skipped iter then [] else es) iters)) (length iters).
Proof.
  intros Hrows Hr Hid. revert s tr Hr. induction iters as [|iter iters IH]; intros s tr Hr; [exists s, tr; split; [done|]; split; [done|]; apply goes_on_refl|].
  destruct (iteration_visits id es s tr iter Hrows Hr Hid) as (s1 & tr1 & E1 & Hr1 & Hg1). destruct (IH s1 tr1 Hr1) as (s2 & tr2 & E2 & Hr2 & Hg2).
  exists s2, tr2. cbn [foldM]. rewrite E1. cbn [mbind outcome_bind map concat length]. split; [done|]. split; [done|]. eapply (goes_on_trans _ _ _ _ _ 1); done.
Qed.

(** The trace before the first iteration. *)
Definition before_iterations (s : L) : list (mf_event F) := (if bool_decide (cf_ps_resume_clock cfg = 0) then init_mf cfg env s else []) ++ [MfGlobalBarrier].

Lemma solve_mf_visits t es s : let id := get_global_worker_id cfg t in
  rows_ok cfg env -> worker_ready id es s -> 0 <= id < get_total_num_workers cfg ->
  exists s' tr, solve_mf f_pow cfg env t s = Ret (s', tr) /\ worker_ready id es s' /\
    goes_on (before_iterations s) tr (concat (map (fun iter => if skipped iter then [] else es) (seqZ 0 (cf_num_iterations cfg)))) (Z.to_nat (cf_num_iterations cfg)).
Proof.
  intros id Hrows Hr Hid. unfold solve_mf. fold id. fold (before_iterations s).
  destruct (iterations_visit id es (seqZ 0 (cf_num_iterations cfg)) s (before_iterations s) Hrows Hr Hid) as (s' & tr & -> & Hr' & Hg). cbn [mbind outcome_bind fst snd].
  exists s'. eexists. split; [done|]. split; [done|]. rewrite length_seqZ in Hg. rewrite <- (app_nil_r (concat _)), <- (Nat.add_0_r (Z.to_nat _)).
  eapply goes_on_trans; [exact Hg|]. case_bool_decide; by apply goes_on_events.
Qed.
End VISITS.

(** ** All workers together *)
Definition with_client {F} (c : Z) (cfg : mf_config F) : mf_config F :=
  mkmf (cf_K cfg) (cf_num_clients cfg) (cf_num_worker_threads cfg) c (cf_num_iterations cfg) (cf_staleness cfg) (cf_ps_resume_clock cfg)
    (cf_lambda cfg) (cf_init_step_size cfg) (cf_step_size_offset cfg) (cf_step_size_pow cfg).

(** Thread [t] of client [c] is one of the workers. *)
Lemma worker_id_range {F} (cfg : mf_config F) c t : 0 <= c < cf_num_clients cfg -> 0 <= t < cf_num_worker_threads cfg ->
  0 <= get_global_worker_id (with_client c cfg) t < get_total_num_workers (with_client c cfg).
Proof. intros Hc Ht. unfold get_global_worker_id, get_total_num_workers. cbn. nia. Qed.

Section STANDARD_READY.
Context {F : Type} `{Float F}.
Lemma standard_ready (input : list (entry F)) P w : 0 < P -> P <= Z.of_nat (length input) -> Z.of_nat (length input) + P < 2 ^ 64 -> 0 <= w < P ->
  let s := StandardMatrixLoader_new input P in worker_ready w (standard_entries s w) s.
Proof.
  intros HP Hle Hsmall Hw s. destruct (standard_new input P HP Hsmall) as (Em & EP & Ennz & Hat). fold s in Em, EP, Ennz, Hat.
  assert (Hl : Z.of_nat (length (standard_entries s w)) = Z.of_nat (Z.to_nat (stride_count P (Z.of_nat (length input)) w))).
  { unfold standard_entries. rewrite EP, Em, select_length, strided_length by (done || by apply strided_range). done. }
  pose proof (stride_count_spec P (Z.of_nat (length input)) w 0 HP ltac:(lia)). pose proof (stride_count_spec P (Z.of_nat (length input)) w (Z.of_nat (length input)) HP ltac:(lia)).
  constructor; [by apply Hat|done| |].
  - intros E. rewrite E in Hl. cbn in Hl. lia.
  - change (getNNZ s) with (standard_getNNZ s). rewrite Ennz. nia.
Qed.
End STANDARD_READY.

(** C29: in every iteration the workers of all clients together send one gradient step for every entry of the matrix and none twice: with the
    matrix in memory, at least one entry per worker and rows as long as the factorization's rank, [solve_mf] of every thread of every client
    neither fails nor runs forever; the entries it steps at are, in every iteration that is not skipped when resuming, all of its share in
    order, the shares of all workers are together the matrix, and it clocks once in each iteration. *)
Theorem workers_cover_matrix {F : Type} `{Float F} f_pow (cfg : mf_config F) (env : Z -> Z -> mf_env F) (input : list (entry F)) :
  let P := get_total_num_workers cfg in
  0 < P -> P <= Z.of_nat (length input) -> Z.of_nat (length input) + P < 2 ^ 64 -> (forall c t, rows_ok (with_client c cfg) (env c t)) ->
  exists share, concat (map share (seqZ 0 P)) ≡ₚ input /\
    forall c t, 0 <= c < cf_num_clients cfg -> 0 <= t < cf_num_worker_threads cfg ->
      let s := StandardMatrixLoader_new input P in
      let steps := concat (map (fun iter => if skipped cfg iter then [] else share (get_global_worker_id (with_client c cfg) t)) (seqZ 0 (cf_num_iterations cfg))) in
      exists s' tr, solve_mf f_pow (with_client c cfg) (env c t) t s = Ret (s', tr) /\
        goes_on (before_iterations (with_client c cfg) (env c t) s) tr steps (Z.to_nat (cf_num_iterations cfg)).
Proof.
  intros P HP Hle Hsmall Hrows. set (s := StandardMatrixLoader_new input P). exists (standard_entries s). destruct (standard_new input P HP Hsmall) as (Em & EP & _ & _). fold s in Em, EP. split.
  - pose proof (standard_partition s) as Hp. rewrite EP, Em in Hp. by apply Hp.
  - intros c t Hc Ht s0 steps. pose proof (worker_id_range cfg c t Hc Ht) as Hid. set (w := get_global_worker_id (with_client c cfg) t) in *.
    destruct (solve_mf_visits f_pow (with_client c cfg) (env c t) t (standard_entries s w) s0 (Hrows c t) (standard_ready input P w HP Hle Hsmall Hid) Hid) as (s' & tr & E & _ & Hg).
    by exists s', tr.
Qed.

(** The same for the loader of blocks: when each worker has blocks and none
    of them is empty, the shares are the entries of the file. *)
Lemma workers_cover_file {F : Type} `{Float F} `{!DataFile F} f_pow (cfg : mf_config F) env (s : DiskMatrixLoader F) off t :
  let id := get_global_worker_id cfg t in let P := get_total_num_workers cfg in
  0 < P -> disk_num_workers_ s = P -> offsets_ok (data_block_offsets_ s) -> data_block_offsets_ s !! 0%nat = Some off -> nnz_ s = Z.of_nat (length (text_from off)) ->
  0 <= id < P -> disk_at s id 0 -> rows_ok cfg env ->
  concat (map (disk_entries s) (seqZ 0 P)) ≡ₚ (text_from off).*1 /\
  exists s' tr, solve_mf f_pow cfg env t s = Ret (s', tr) /\
    goes_on (before_iterations cfg env s) tr (concat (map (fun iter => if skipped cfg iter then [] else disk_entries s id) (seqZ 0 (cf_num_iterations cfg)))) (Z.to_nat (cf_num_iterations cfg)).
Proof.
  intros id P HP EP Hok Hoff Hnnz Hid Hat Hrows. pose proof (disk_partition s off) as Hp. rewrite EP in Hp. specialize (Hp HP Hok Hoff). split; [done|].
  assert (Hr : worker_ready id (disk_entries s id) s).
  { constructor; [done|done| |].
    - intros E. destruct (da_at _ _ _ Hat) as (k & j & es & Hk & _ & _ & _ & Hj & _). destruct (lookup_lt_is_Some_2 es j Hj) as (e & He).
      destruct (concat_at _ k es j e Hk He) as [Hl _]. unfold disk_entries in E. by rewrite E in Hl.
    - change (getNNZ s) with (nnz_ s). rewrite Hnnz, <- (length_fmap fst (text_from off)), <- Hp.
      assert (Hin : id ∈ seqZ 0 P) by (apply elem_of_seqZ; lia). apply list_elem_of_split in Hin as (l1 & l2 & ->). rewrite map_app, concat_app, length_app. cbn [map concat]. rewrite length_app. lia. }
  destruct (solve_mf_visits f_pow cfg env t (disk_entries s id) s Hrows Hr Hid) as (s' & tr & E & _ & Hg). by exists s', tr.
Qed.

(** A worker beyond the number of entries reads behind the vectors. *)
Lemma too_many_workers_undefined {F : Type} (input : list (entry F)) P w : 0 < P -> Z.of_nat (length input) + P < 2 ^ 64 -> Z.of_nat (length input) <= w < P ->
  standard_getNextEl w (StandardMatrixLoader_new input P) = Undef.
Proof.
  intros HP Hsmall Hw. destruct (standard_new input P HP Hsmall) as (_ & _ & Ennz & Hat). destruct (Hat w ltac:(lia)) as (_ & _ & Hpos). set (s := StandardMatrixLoader_new input P) in *.
  unfold standard_getNextEl. rewrite (proj2 (vec_at_Ret _ w w)) by (split; [lia|by rewrite Hpos, Z.mul_0_l, Z.add_0_r]). cbn [mbind outcome_bind].
  unfold standard_getNNZ in Ennz. assert (E : vec_at (X_row s) w = Undef) by (unfold vec_at; by rewrite bool_decide_true, lookup_ge_None_2 by lia). by rewrite E.
Qed.

(** ** Stochastic gradient descent *)
Section DESCENT.
Context {F : Type} `{RL : RealLaws F}.
Add Ring F_ring_mf : ef_ring.
Context (f_pow : F -> F -> F) (pow_two : forall x, f_pow x f_two = f_mul x x).
Context (cfg : mf_config F).
Abbreviation K := (cf_K cfg).

(** The factors, [L i k] and [R j k]. *)
Abbreviation factor := (Z -> Z -> F).
Definition upd (f : Z -> F) (k : Z) (v : F) : Z -> F := fun k' => if bool_decide (k' = k) then v else f k'.
Definition sum_k (f : Z -> F) : F := rsum (map f (seqZ 0 K)).

(** The error of the product at an entry, and the regularised squared error. *)
Definition err_at (m : factor * factor) (e : entry F) : F := f_sub e.2 (sum_k (fun k => f_mul (m.1 e.1.1 k) (m.2 e.1.2 k))).
Definition element_loss (x : F) (l r : Z -> F) : F :=
  let err := f_sub x (sum_k (fun k => f_mul (l k) (r k))) in
  f_add (f_mul err err) (f_mul (cf_lambda cfg) (f_add (sum_k (fun k => f_mul (l k) (l k))) (sum_k (fun k => f_mul (r k) (r k))))).

(** [d] is the derivative of the polynomial [f] at [v]. *)
Definition is_derivative (f : F -> F) (v d : F) : Prop := exists c, forall t, f (f_add v t) = f_add (f_add (f v) (f_mul d t)) (f_mul c (f_mul t t)).

(** A step against the gradient at an entry. *)
Definition descends (step : F) (e : entry F) (m m' : factor * factor) : Prop :=
  let '(i, j, x) := e in
  (forall i' k, i' <> i \/ ~ 0 <= k < K -> m'.1 i' k = m.1 i' k) /\ (forall j' k, j' <> j \/ ~ 0 <= k < K -> m'.2 j' k = m.2 j' k) /\
  forall k, 0 <= k < K ->
    (exists d, is_derivative (fun v => element_loss x (upd (m.1 i) k v) (m.2 j)) (m.1 i k) d /\ m'.1 i k = f_sub (m.1 i k) (f_mul step d)) /\
    (exists d, is_derivative (fun v => element_loss x (m.1 i) (upd (m.2 j) k v)) (m.2 j k) d /\ m'.2 j k = f_sub (m.2 j k) (f_mul step d)).

(** Descent along a list of entries; [errs] is the sum of the squared errors
    on the way. *)
Inductive sgd (step : F) : list (entry F) -> factor * factor -> factor * factor -> F -> Prop :=
  | sgd_nil m m' : (forall i k, m'.1 i k = m.1 i k) -> (forall j k, m'.2 j k = m.2 j k) -> sgd step [] m m' f_zero
  | sgd_snoc es e m m1 m2 errs : sgd step es m m1 errs -> descends step e m1 m2 -> sgd step (es ++ [e]) m m2 (f_add errs (f_mul (err_at m1 e) (err_at m1 e))).

(** *** The code's gradient is the derivative *)
Lemma sum_k_split k : 0 <= k < K -> exists l1 l2, k ∉ l1 /\ k ∉ l2 /\ forall g, sum_k g = f_add (f_add (rsum (map g l1)) (g k)) (rsum (map g l2)).
Proof.
  intros Hk. pose proof (NoDup_seqZ 0 K) as Hnd. assert (Hin : k ∈ seqZ 0 K) by (apply elem_of_seqZ; lia). apply list_elem_of_split in Hin as (l1 & l2 & E).
  rewrite E in Hnd. apply NoDup_app in Hnd as (_ & H12 & Hnd). apply NoDup_cons in Hnd as [H2 _]. exists l1, l2. split; [intros Hin; apply (H12 k Hin); by left|]. split; [done|].
  intros g. unfold sum_k. rewrite E, map_app, rsum_app. cbn [map]. rewrite rsum_cons. ring.
Qed.
Lemma upd_same f k v : upd f k v k = v.
Proof. unfold upd. by rewrite bool_decide_true. Qed.
Lemma map_upd (g : F -> Z -> F) f k v l : k ∉ l -> map (fun k' => g (upd f k v k') k') l = map (fun k' => g (f k') k') l.
Proof. intros Hk. apply map_ext_in. intros k' Hk'%list_elem_of_In. unfold upd. rewrite bool_decide_false; [done|]. by intros ->. Qed.
Lemma f_two_eq : f_two = f_add f_one f_one.
Proof. unfold f_two. change 2 with (1 + 1). by rewrite rl_of_Z_add, rl_of_Z_1. Qed.

Lemma gradient_is_derivative x l r k : 0 <= k < K ->
  is_derivative (fun v => element_loss x (upd l k v) r) (l k) (gradient cfg (f_sub x (sum_k (fun k => f_mul (l k) (r k)))) (l k) (r k)).
Proof.
  intros Hk. destruct (sum_k_split k Hk) as (l1 & l2 & Hk1 & Hk2 & Hs). exists (f_add (f_mul (r k) (r k)) (cf_lambda cfg)). intros t. unfold element_loss, gradient, f_neg.
  rewrite !(Hs (fun k' => f_mul (upd l k _ k') (r k'))), !(Hs (fun k' => f_mul (upd l k _ k') (upd l k _ k'))), (Hs (fun k => f_mul (l k) (r k))), !upd_same.
  rewrite !(map_upd (fun v k' => f_mul v (r k'))), !(map_upd (fun v _ => f_mul v v)) by done. rewrite f_two_eq. ring.
Qed.
Lemma sum_k_ext f g : (forall k, 0 <= k < K -> f k = g k) -> sum_k f = sum_k g.
Proof. intros E. unfold sum_k. f_equal. apply map_ext_in. intros k Hk%list_elem_of_In%elem_of_seqZ. apply E. lia. Qed.
(** The two factors play the same part. *)
Lemma element_loss_sym x l r : element_loss x l r = element_loss x r l.
Proof. unfold element_loss. rewrite (sum_k_ext (fun k => f_mul (l k) (r k)) (fun k => f_mul (r k) (l k))) by (intros; ring). ring. Qed.
Lemma gradient_is_derivative_R x l r k : 0 <= k < K ->
  is_derivative (fun v => element_loss x l (upd r k v)) (r k) (gradient cfg (f_sub x (sum_k (fun k => f_mul (l k) (r k)))) (r k) (l k)).
Proof.
  intros Hk. destruct (gradient_is_derivative x r l k Hk) as (c & Hc). exists c. intros t. rewrite !(element_loss_sym x l). rewrite Hc.
  by rewrite (sum_k_ext (fun k => f_mul (l k) (r k)) (fun k => f_mul (r k) (l k))) by (intros; ring).
Qed.

(** *** The tables a trace makes *)
Definition batch_val (k : Z) (b : list (Z * F)) : F := rsum (map (fun e => if bool_decide (e.1 = k) then e.2 else f_zero) b).
Definition event_L (i k : Z) (ev : mf_event F) : F := match ev with LBatchInc i' b => if bool_decide (i' = i) then batch_val k b else f_zero | _ => f_zero end.
Definition event_R (j k : Z) (ev : mf_event F) : F := match ev with RBatchInc j' b => if bool_decide (j' = j) then batch_val k b else f_zero | _ => f_zero end.
Definition event_loss (t : Z) (ev : mf_event F) : F := match ev with LossInc t' v => if bool_decide (t' = t) then v else f_zero | _ => f_zero end.
Definition sent_L i k (tr : list (mf_event F)) : F := rsum (map (event_L i k) tr).
Definition sent_R j k (tr : list (mf_event F)) : F := rsum (map (event_R j k) tr).
Definition sent_loss t (tr : list (mf_event F)) : F := rsum (map (event_loss t) tr).
Definition tables (tr : list (mf_event F)) : factor * factor := (fun i k => sent_L i k tr, fun j k => sent_R j k tr).
Definition printed (tr : list (mf_event F)) : list F := omap (fun ev => match ev with PrintLoss l => Some l | _ => None end) tr.

(** What the worker reads is what it has sent. *)
Definition reads_own_steps (env : mf_env F) : Prop :=
  (forall n tr i, me_L env n tr i = map (fun k => sent_L i k tr) (seqZ 0 K)) /\ (forall n tr j, me_R env n tr j = map (fun k => sent_R j k tr) (seqZ 0 K)) /\
  (forall tr, me_loss env tr = map (fun t => sent_loss t tr) (seqZ 0 (get_total_num_workers cfg))).

Lemma batch_val_seq (g : Z -> F) k : batch_val k (map (fun k' => (k', g k')) (seqZ 0 K)) = if bool_decide (0 <= k < K) then g k else f_zero.
Proof. unfold batch_val. rewrite map_map. cbn [fst snd]. rewrite (rsum_one g) by apply NoDup_seqZ. rewrite (bool_decide_ext (k ∈ seqZ 0 K) (0 <= k < K)); [done|]. rewrite elem_of_seqZ. lia. Qed.

Lemma row_at_map (g : Z -> F) n k : 0 <= k < n -> row_at (map g (seqZ 0 n)) k = g k.
Proof.
  intros Hk. unfold row_at. rewrite nth_lookup. change (map ?f ?l) with (f <$> l). rewrite list_lookup_fmap, lookup_seqZ_lt by lia. cbn. by rewrite Z.add_0_l, Z2Nat.id by lia.
Qed.
Lemma dotf_sum l r : dotf cfg l r = sum_k (fun k => f_mul (l k) (r k)).
Proof. unfold dotf. rewrite (foldl_add_rsum (fun k => f_mul (l k) (r k))). unfold sum_k. ring. Qed.
Lemma reads_rows_ok env : reads_own_steps env -> rows_ok cfg env.
Proof. intros (H1 & H2 & H3). constructor; intros; rewrite ?H1, ?H2, ?H3, length_map, length_seqZ; lia. Qed.

Lemma sent_steps tr i j id v b c : let tr' := (tr ++ [LossInc id v]) ++ [LBatchInc i b; RBatchInc j c] in
  (forall i' k, sent_L i' k tr' = f_add (sent_L i' k tr) (if bool_decide (i = i') then batch_val k b else f_zero)) /\
  (forall j' k, sent_R j' k tr' = f_add (sent_R j' k tr) (if bool_decide (j = j') then batch_val k c else f_zero)) /\
  sent_loss id tr' = f_add (sent_loss id tr) v /\ printed tr' = printed tr.
Proof.
  intros tr'. unfold tr', sent_L, sent_R, sent_loss, printed. rewrite !omap_app, !map_app, !rsum_app. cbn [map event_L event_R event_loss omap list_omap app]. rewrite (bool_decide_true (id = id)) by done.
  split_and!; intros; rewrite ?map_app, ?rsum_app; cbn [map event_L event_R event_loss]; rewrite ?rsum_cons, ?rsum_nil, ?app_nil_r; try ring. done.
Qed.

Lemma sgd_element_descends env e step id tr : reads_own_steps env ->
  exists tr', sgd_element f_pow cfg env e step id tr = Ret tr' /\ descends step e (tables tr) (tables tr') /\
    sent_loss id tr' = f_add (sent_loss id tr) (f_mul (err_at (tables tr) e) (err_at (tables tr) e)) /\ printed tr' = printed tr.
Proof.
  intros Hr. destruct e as [[i j] x]. rewrite (sgd_element_spec f_pow cfg env i j x step id tr (reads_rows_ok env Hr)). destruct Hr as (RL1 & RR1 & _). eexists. split; [reflexivity|].
  rewrite !RL1, !RR1. set (l := fun k => sent_L i k tr). set (r := fun k => sent_R j k tr).
  assert (Ed : dotf cfg (row_at (map l (seqZ 0 K))) (row_at (map r (seqZ 0 K))) = sum_k (fun k => f_mul (l k) (r k))) by (rewrite dotf_sum; apply sum_k_ext; intros k Hk; by rewrite !row_at_map).
  rewrite Ed. set (err := f_sub x _). rewrite pow_two.
  assert (E1 : forall id' v i' k, sent_L i' k (tr ++ [LossInc id' v]) = sent_L i' k tr) by (intros; unfold sent_L; rewrite map_app, rsum_app; cbn; ring).
  assert (E2 : forall id' v j' k, sent_R j' k (tr ++ [LossInc id' v]) = sent_R j' k tr) by (intros; unfold sent_R; rewrite map_app, rsum_app; cbn; ring).
  rewrite (map_ext _ l (fun k => E1 _ _ i k)), (map_ext _ r (fun k => E2 _ _ j k)).
  destruct (sent_steps tr i j id (f_mul err err) (updates_of cfg err step (row_at (map l (seqZ 0 K))) (row_at (map r (seqZ 0 K)))) (updates_of cfg err step (row_at (map r (seqZ 0 K))) (row_at (map l (seqZ 0 K))))) as (S1 & S2 & S3 & S4).
  split; [|split; [exact S3|exact S4]].
  assert (Hb : forall a b k, batch_val k (updates_of cfg err step (row_at (map a (seqZ 0 K))) (row_at (map b (seqZ 0 K)))) = if bool_decide (0 <= k < K) then f_mul (f_neg (gradient cfg err (a k) (b k))) step else f_zero).
  { intros a b k. unfold updates_of. rewrite (batch_val_seq (fun k => f_mul (f_neg (gradient cfg err (row_at (map a (seqZ 0 K)) k) (row_at (map b (seqZ 0 K)) k))) step)). case_bool_decide; [by rewrite !row_at_map|done]. }
  unfold descends, tables. cbn [fst snd]. split_and!.
  - intros i' k Hno. rewrite S1, Hb. destruct (decide (i = i')) as [->|Hne]; [|rewrite bool_decide_false by done; ring]. rewrite (bool_decide_true (i' = i')), bool_decide_false by (done || (destruct Hno; [done|done])). ring.
  - intros j' k Hno. rewrite S2, Hb. destruct (decide (j = j')) as [->|Hne]; [|rewrite bool_decide_false by done; ring]. rewrite (bool_decide_true (j' = j')), bool_decide_false by (done || (destruct Hno; [done|done])). ring.
  - intros k Hk. rewrite S1, S2, !Hb, (bool_decide_true (i = i)), (bool_decide_true (j = j)), (bool_decide_true (0 <= k < K)) by done. split.
    + exists (gradient cfg err (l k) (r k)). split; [exact (gradient_is_derivative x l r k Hk)|]. unfold f_neg, l. ring.
    + exists (gradient cfg err (r k) (l k)). split; [exact (gradient_is_derivative_R x l r k Hk)|]. unfold f_neg, r. ring.
Qed.

(** *** Iterations of a single worker *)
Context {L : Type} `{MO : MatrixLoaderOk L F}.
Context (single : get_total_num_workers cfg = 1) (fresh : cf_ps_resume_clock cfg = 0) (stale : 0 <= cf_staleness cfg).

(** Iterations of descent, each with its step size and the squared errors. *)
Fixpoint epochs (iters : list Z) (es : list (entry F)) (m m' : factor * factor) (losses : list F) : Prop :=
  match iters, losses with
  | [], [] => (forall i k, m'.1 i k = m.1 i k) /\ (forall j k, m'.2 j k = m.2 j k)
  | iter :: iters', loss :: losses' => exists m1, sgd (step_size_at f_pow cfg iter) es m m1 loss /\ epochs iters' es m1 m' losses'
  | _, _ => False
  end.

(** Events that leave the factors alone. *)
Lemma tables_app tr evs : Forall (fun ev => match ev with LBatchInc _ _ | RBatchInc _ _ => False | _ => True end) evs ->
  (forall i k, (tables (tr ++ evs)).1 i k = (tables tr).1 i k) /\ (forall j k, (tables (tr ++ evs)).2 j k = (tables tr).2 j k).
Proof.
  intros Hev. unfold tables, sent_L, sent_R. cbn [fst snd]. setoid_rewrite map_app. setoid_rewrite rsum_app.
  assert (E : (forall i k, rsum (map (event_L i k) evs) = f_zero) /\ (forall j k, rsum (map (event_R j k) evs) = f_zero)).
  { induction Hev as [|ev evs He _ [IH1 IH2]]; [done|]. split; intros; cbn [map]; rewrite rsum_cons, ?IH1, ?IH2; destruct ev; cbn; try done; ring. }
  destruct E as [E1 E2]. split; intros; rewrite ?E1, ?E2; ring.
Qed.
Lemma sgd_start step es m0 m m' errs : (forall i k, m.1 i k = m0.1 i k) -> (forall j k, m.2 j k = m0.2 j k) -> sgd step es m m' errs -> sgd step es m0 m' errs.
Proof.
  intros E1 E2. induction 1 as [m m' M1 M2|es e m m1 m2 errs _ IH Hd]; [constructor; intros; rewrite ?M1, ?M2; done|]. econstructor; [by apply IH|done].
Qed.
Lemma sgd_end step es m m' m'' errs : es <> [] -> (forall i k, m''.1 i k = m'.1 i k) -> (forall j k, m''.2 j k = m'.2 j k) -> sgd step es m m' errs -> sgd step es m m'' errs.
Proof.
  intros Hne E1 E2 Hs. destruct Hs as [m m' M1 M2|es e m m1 m2 errs Hs Hd]; [done|]. apply (sgd_snoc step es e m m1); [done|].
  destruct e as [[i j] x]. destruct Hd as (D1 & D2 & D3). split_and!; intros; rewrite ?E1, ?E2; [by apply D1|by apply D2|by apply D3].
Qed.

Lemma iteration_descends env es s tr iter : reads_own_steps env -> worker_ready 0 es s -> 0 <= iter ->
  exists s' tr' loss, iteration f_pow cfg env 0 (s, tr) iter = Ret (s', tr') /\ worker_ready 0 es s' /\
    sgd (step_size_at f_pow cfg iter) es (tables tr) (tables tr') loss /\ printed tr' = printed tr ++ [loss].
Proof.
  intros Hr [Hat Hes Hne Hnnz] Hi. unfold iteration. rewrite bool_decide_false by lia. cbn [fst snd]. pose proof Hr as (_ & _ & RLoss).
  assert (Hloss : forall tr, vec_at (me_loss env tr) 0 = Ret (sent_loss 0 tr)) by (intros tr'; rewrite RLoss, single; done).
  rewrite Hloss. cbn [mbind outcome_bind]. set (tr0 := tr ++ [LossInc 0 (f_neg (sent_loss 0 tr))]). set (step := step_size_at f_pow cfg iter).
  assert (Hlen : (0 < length es)%nat) by (destruct es; [done|cbn; lia]).
  assert (Hz0 : sent_loss 0 tr0 = f_zero) by (unfold tr0, sent_loss; rewrite map_app, rsum_app; cbn [map event_loss]; rewrite rsum_cons, rsum_nil, (bool_decide_true (0 = 0)) by done; unfold f_neg; ring).
  assert (Hp0 : printed tr0 = printed tr) by (unfold tr0, printed; rewrite omap_app; cbn; by rewrite app_nil_r).
  destruct (sgd_loop_spec f_pow cfg env (fun seen tr' => sgd step seen (tables tr0) (tables tr') (sent_loss 0 tr') /\ printed tr' = printed tr) step 0 es)
    with (fuel := Z.to_nat (getNNZ s)) (s := s) (n := 0%nat) (tr := tr0) as (s' & tr1 & -> & Hat' & Hes' & Hnnz' & Hsgd & Hprint); try done; [|lia|split; [|done]; rewrite Hz0; by constructor|].
  { intros seen e tr' [Hs Hp] _. destruct (sgd_element_descends env e step 0 tr' Hr) as (tr2 & E & Hd & El & Ep). exists tr2. split; [exact E|]. split; [|congruence].
    rewrite El. by apply (sgd_snoc step seen e _ (tables tr')). }
  cbn [mbind outcome_bind]. rewrite (bool_decide_true (0 = 0)), single by done. change (seqZ 0 1) with [0]. cbn [foldM]. rewrite Hloss. cbn [mbind outcome_bind].
  rewrite <- app_assoc. eexists s', _, (sent_loss 0 tr1). split; [reflexivity|]. split; [constructor; congruence|]. cbn [app]. split.
  - destruct (tables_app tr1 [PrintLoss (f_add f_zero (sent_loss 0 tr1)); MfClock] ltac:(by repeat constructor)) as [T1 T2].
    destruct (tables_app tr [LossInc 0 (f_neg (sent_loss 0 tr))] ltac:(by repeat constructor)) as [T3 T4].
    apply (sgd_end step es _ (tables tr1)); [done..|]. by apply (sgd_start step es _ (tables tr0)).
  - unfold printed in *. rewrite omap_app, Hprint. cbn. do 2 f_equal. ring.
Qed.

Lemma iterations_descend env es iters : reads_own_steps env -> Forall (fun iter => 0 <= iter) iters -> forall s tr, worker_ready 0 es s ->
  exists s' tr' losses, foldM (iteration f_pow cfg env 0) iters (s, tr) = Ret (s', tr') /\ worker_ready 0 es s' /\
    epochs iters es (tables tr) (tables tr') losses /\ printed tr' = printed tr ++ losses.
Proof.
  intros Hr Hi. induction Hi as [|iter iters Hi _ IH]; intros s tr Hw; [exists s, tr, []; by rewrite app_nil_r|].
  destruct (iteration_descends env es s tr iter Hr Hw Hi) as (s1 & tr1 & loss & E1 & Hw1 & Hs1 & Hp1). destruct (IH s1 tr1 Hw1) as (s2 & tr2 & losses & E2 & Hw2 & Hs2 & Hp2).
  exists s2, tr2, (loss :: losses). cbn [foldM]. rewrite E1. cbn [mbind outcome_bind]. split; [done|]. split; [done|]. split; [by exists (tables tr1)|]. rewrite Hp2, Hp1, <- app_assoc. done.
Qed.

(** *** The initial factors *)
Lemma sent_L_init (b : Z -> list (Z * F)) n i k : 0 <= i < n -> sent_L i k (map (fun i => LBatchInc i (b i)) (seqZ 0 n)) = batch_val k (b i) /\ sent_R i k (map (fun i => RBatchInc i (b i)) (seqZ 0 n)) = batch_val k (b i).
Proof.
  intros Hi. unfold sent_L, sent_R. rewrite !map_map. cbn [event_L event_R]. rewrite (rsum_one (fun i => batch_val k (b i))) by apply NoDup_seqZ. rewrite bool_decide_true; [done|]. apply elem_of_seqZ. lia.
Qed.
Lemma sent_other (b : Z -> list (Z * F)) l i k : sent_L i k (map (fun i => RBatchInc i (b i)) l) = f_zero /\ sent_R i k (map (fun i => LBatchInc i (b i)) l) = f_zero.
Proof. unfold sent_L, sent_R. induction l as [|x l [IH1 IH2]]; [done|]. cbn [map]. rewrite !rsum_cons, IH1, IH2. cbn. split; ring. Qed.
Lemma init_tables env (s : L) : let m := tables (before_iterations cfg env s) in
  (forall i k, 0 <= i < getN s -> 0 <= k < K -> m.1 i k = f_div (me_dist env (Z.to_nat i * Z.to_nat K + Z.to_nat k)) (f_of_Z 1)) /\
  (forall j k, 0 <= j < getM s -> 0 <= k < K -> m.2 j k = f_div (me_dist env ((Z.to_nat (getN s) + Z.to_nat j) * Z.to_nat K + Z.to_nat k)) (f_of_Z 1)).
Proof.
  unfold before_iterations. rewrite bool_decide_true by exact fresh.
  destruct (tables_app (init_mf cfg env s) [MfGlobalBarrier] ltac:(by repeat constructor)) as [T1 T2].
  assert (Hb : forall n k, 0 <= k < K -> batch_val k (init_row cfg env n) = f_div (me_dist env (n + Z.to_nat k)) (f_of_Z 1)).
  { intros n k Hk. unfold init_row. rewrite single, (batch_val_seq (fun k => f_div (me_dist env (n + Z.to_nat k)) (f_of_Z 1))). by rewrite bool_decide_true. }
  split; intros i k Hi Hk; rewrite ?T1, ?T2; unfold tables, init_mf; cbn [fst snd].
  - unfold sent_L at 1. rewrite map_app, rsum_app. fold (sent_L i k). change (rsum (map (event_L i k) ?l)) with (sent_L i k l).
    rewrite (proj1 (sent_L_init (fun i => init_row cfg env (Z.to_nat i * Z.to_nat K)) (getN s) i k Hi)), (proj1 (sent_other (fun j => init_row cfg env ((Z.to_nat (getN s) + Z.to_nat j) * Z.to_nat K)) _ i k)), Hb by done. ring.
  - unfold sent_R at 1. rewrite map_app, rsum_app. change (rsum (map (event_R i k) ?l)) with (sent_R i k l).
    rewrite (proj2 (sent_L_init (fun j => init_row cfg env ((Z.to_nat (getN s) + Z.to_nat j) * Z.to_nat K)) (getM s) i k Hi)), (proj2 (sent_other (fun i => init_row cfg env (Z.to_nat i * Z.to_nat K)) _ i k)), Hb by done. ring.
Qed.

Lemma printed_init env (s : L) : printed (before_iterations cfg env s) = [].
Proof.
  unfold before_iterations, init_mf, printed. rewrite bool_decide_true by exact fresh. rewrite !omap_app. cbn. rewrite app_nil_r.
  assert (E : forall {A} (g : A -> mf_event F) l, (forall x, match g x with PrintLoss _ => False | _ => True end) -> omap (fun ev => match ev with PrintLoss v => Some v | _ => None end) (map g l) = []).
  { intros A g l Hg. induction l as [|x l IH]; [done|]. cbn. specialize (Hg x). by destruct (g x). }
  by rewrite !E.
Qed.
Lemma epochs_end iters es m m' m'' losses : (forall i k, m''.1 i k = m'.1 i k) -> (forall j k, m''.2 j k = m'.2 j k) -> epochs iters es m m' losses -> epochs iters es m m'' losses.
Proof.
  intros E1 E2. revert m losses. induction iters as [|iter iters IH]; intros m [|loss losses] Hep; try done.
  - destruct Hep as [H1' H2']. split; intros; [by rewrite E1|by rewrite E2].
  - destruct Hep as (m1 & Hs & Hep). exists m1. split; [done|]. by apply IH.
Qed.

(** C28: a single worker computes stochastic gradient descent: for every loader that keeps the promises of the interface, with exact
    arithmetic and reads that return what the worker has sent, [solve_mf] begins with the draws of the generator in both factors and goes, in
    every iteration, once through the entries of the matrix; at each entry it moves the two rows against the derivative of the entry's
    regularised squared error, both taken at the values before the step, by the iteration's step size, and changes nothing else; and the
    loss it prints after an iteration is the sum of the squared errors met on the way. *)
Theorem one_worker_is_sgd env es s : cf_client_id cfg = 0 -> reads_own_steps env -> worker_ready 0 es s ->
  exists s' tr m0, solve_mf f_pow cfg env 0 s = Ret (s', tr) /\
    (forall i k, 0 <= i < getN s -> 0 <= k < K -> m0.1 i k = f_div (me_dist env (Z.to_nat i * Z.to_nat K + Z.to_nat k)) (f_of_Z 1)) /\
    (forall j k, 0 <= j < getM s -> 0 <= k < K -> m0.2 j k = f_div (me_dist env ((Z.to_nat (getN s) + Z.to_nat j) * Z.to_nat K + Z.to_nat k)) (f_of_Z 1)) /\
    epochs (seqZ 0 (cf_num_iterations cfg)) es m0 (tables tr) (printed tr).
Proof.
  intros Hc Hr Hw. destruct (init_tables env s) as [I1 I2]. set (m0 := tables (before_iterations cfg env s)) in *.
  assert (Hid : get_global_worker_id cfg 0 = 0) by (unfold get_global_worker_id; rewrite Hc; lia). unfold solve_mf. rewrite Hid. fold (before_iterations cfg env s).
  destruct (iterations_descend env es (seqZ 0 (cf_num_iterations cfg)) Hr ltac:(apply Forall_forall; intros x Hx%elem_of_seqZ; lia) s (before_iterations cfg env s) Hw) as (s' & tr & losses & -> & _ & Hep & Hp).
  cbn [mbind outcome_bind fst snd]. rewrite (bool_decide_true (0 = 0)) by done. eexists s', _, m0. split; [reflexivity|]. split; [exact I1|]. split; [exact I2|].
  rewrite printed_init, app_nil_l in Hp. rewrite <- Hp in Hep. destruct (tables_app tr [MfGlobalBarrier; OutputToDisk] ltac:(by repeat constructor)) as [T1 T2].
  assert (Ep : printed (tr ++ [MfGlobalBarrier; OutputToDisk]) = printed tr) by (unfold printed; rewrite omap_app; apply app_nil_r).
  cbn [app]. rewrite Ep. by apply (epochs_end _ es _ (tables tr)).
Qed.
End DESCENT.

(** ** Examples *)
Definition demo_pow (x _ : Z) : Z := x * x.
Definition demo_input : list (entry Z) := [(0, 0, 2); (1, 0, 3); (1, 1, 5)].
Definition demo_mf (clients : Z) : mf_config Z := mkmf 1 clients 1 0 2 0 0 1 1 0 1.
Definition demo_mf_env (cfg : mf_config Z) : mf_env Z :=
  mkmf_env (fun _ tr i => map (fun k => sent_L i k tr) (seqZ 0 (cf_K cfg))) (fun _ tr j => map (fun k => sent_R j k tr) (seqZ 0 (cf_K cfg)))
    (fun tr => map (fun t => sent_loss t tr) (seqZ 0 (get_total_num_workers cfg))) (fun n => Z.of_nat n + 1).

Lemma workers_cover_matrix_witness : exists share, concat (map share [0; 1]) ≡ₚ demo_input /\
  exists s' tr, solve_mf demo_pow (with_client 1 (demo_mf 2)) (demo_mf_env (with_client 1 (demo_mf 2))) 0 (StandardMatrixLoader_new demo_input 2) = Ret (s', tr) /\
    goes_on (before_iterations (with_client 1 (demo_mf 2)) (demo_mf_env (with_client 1 (demo_mf 2))) (StandardMatrixLoader_new demo_input 2)) tr (share 1 ++ share 1 ++ []) 2.
Proof.
  destruct (workers_cover_matrix demo_pow (demo_mf 2) (fun c _ => demo_mf_env (with_client c (demo_mf 2))) demo_input ltac:(done) ltac:(done) ltac:(done)
    ltac:(intros c t; by apply reads_rows_ok)) as (share & Hp & Hall).
  exists share. split; [exact Hp|]. exact (Hall 1 0 ltac:(done) ltac:(done)).
Defined.

Lemma one_worker_is_sgd_witness : exists s' tr m0, solve_mf demo_pow (demo_mf 1) (demo_mf_env (demo_mf 1)) 0 (StandardMatrixLoader_new demo_input 1) = Ret (s', tr) /\
  m0.1 1 0 = 2 /\ m0.2 1 0 = 4 /\ epochs demo_pow (demo_mf 1) [0; 1] demo_input m0 (tables tr) (printed tr).
Proof.
  assert (Hpow : forall x : Z, demo_pow x f_two = f_mul x x) by done. assert (H1 : 0 <= 1 < 2) by done. assert (H0 : 0 <= 0 < 1) by done. pose proof (standard_ready demo_input 1 0 ltac:(done) ltac:(done) ltac:(done) ltac:(done)) as Hready.
  destruct (one_worker_is_sgd demo_pow Hpow (demo_mf 1) eq_refl eq_refl ltac:(done) (demo_mf_env (demo_mf 1)) demo_input (StandardMatrixLoader_new demo_input 1)
    eq_refl (conj (fun _ _ _ => eq_refl) (conj (fun _ _ _ => eq_refl) (fun _ => eq_refl))) Hready) as (s' & tr & m0 & E & HL & HR & Hep).
  exists s', tr, m0. split; [exact E|]. split; [exact (HL 1 0 H1 H0)|]. split; [exact (HR 1 0 H1 H0)|exact Hep].
Defined.
