(* ===== verification/LdaDoc.v ===== *)
(** * LDA: documents and how a thread goes through them

    A document ([apps/lda/src/lda_doc.hpp]) with its bytes in the database,
    the division of the corpus over the threads
    ([abstract_doc_loader.cpp]), the loader that keeps a thread's part in
    memory ([in_memory_doc_loader.cpp]) and the bookkeeping of work units
    ([workload_manager.hpp]). *)

From S2P Require Import Prelude Bytes.
Open Scope Z_scope.

(** ** Documents *)

(** Word and topic of each token; [num_topics_] is 0 until the topics are
    initialised. *)
Record LDADoc := mkdoc { tokens_ : list Z; token_topics_ : list Z; num_topics_ : Z }.
Definition LDADoc_new : LDADoc := mkdoc [] [] 0.

Definition AppendWord (word_id count : Z) (d : LDADoc) : LDADoc :=
  mkdoc (tokens_ d ++ replicate (Z.to_nat count) word_id) (token_topics_ d ++ replicate (Z.to_nat count) (-1)) (num_topics_ d).

(** [one_K_rng] is what the generator gives for the tokens. *)
Definition RandomInitTopics (one_K_rng : nat -> Z) (num_topics : Z) (d : LDADoc) : outcome LDADoc :=
  topics ← foldM (fun ts i => vec_set ts i (one_K_rng (Z.to_nat i))) (seqZ 0 (blen (tokens_ d))) (token_topics_ d);
  Ret (mkdoc (tokens_ d) topics num_topics).

Definition GetNumTokens (d : LDADoc) : Z := blen (tokens_ d).

(** The iterator is a position. *)
Definition it_IsEnd (d : LDADoc) (curr : Z) : bool := bool_decide (curr = blen (tokens_ d)).
Definition it_Word (d : LDADoc) (curr : Z) : outcome Z := vec_at (tokens_ d) curr.
Definition it_Topic (d : LDADoc) (curr : Z) : outcome Z := vec_at (token_topics_ d) curr.
Definition it_SetTopic (new_topic curr : Z) (d : LDADoc) : outcome LDADoc :=
  topics ← vec_set (token_topics_ d) curr new_topic; Ret (mkdoc (tokens_ d) topics (num_topics_ d)).

(** *** Bytes *)
Definition SerializedSize (d : LDADoc) : Z :=
  if bool_decide (num_topics_ d = 0) then csize I32 + csize U64 + blen (tokens_ d) * csize I32 else csize I32 + csize U64 + blen (tokens_ d) * 2 * csize I32.

Definition int32_array (l : list Z) : list Z := concat (map (cencode I32) l).

Definition Serialize (d : LDADoc) (buf : list Z) : outcome (list Z) :=
  buf1 ← mem_write 0 (cencode I32 (num_topics_ d)) buf;
  buf2 ← mem_write (csize I32) (cencode U64 (blen (tokens_ d))) buf1;
  buf3 ← mem_write (csize I32 + csize U64) (int32_array (tokens_ d)) buf2;
  if bool_decide (num_topics_ d > 0)
  then mem_write (csize I32 + csize U64 + blen (tokens_ d) * csize I32) (int32_array (token_topics_ d)) buf3 else Ret buf3.

Fixpoint read_array (n : nat) (off : Z) (buf : list Z) : outcome (list Z) :=
  match n with
  | O => Ret []
  | S n' => bs ← mem_read off (csize I32) buf; l ← read_array n' (off + csize I32) buf; Ret (cdecode I32 bs :: l)
  end.

(** [resize] keeps what a vector has and appends zeros. *)
Definition resize0 (n : nat) (l : list Z) : list Z := take n l ++ replicate (n - length l) 0.

Definition Deserialize (buf : list Z) (d : LDADoc) : outcome LDADoc :=
  nt ← mem_read 0 (csize I32) buf;
  let num_topics := cdecode I32 nt in
  n ← mem_read (csize I32) (csize U64) buf;
  let num_tokens := Z.to_nat (cdecode U64 n) in
  tokens ← read_array num_tokens (csize I32 + csize U64) buf;
  if bool_decide (num_topics > 0) then
    topics ← read_array num_tokens (csize I32 + csize U64 + Z.of_nat num_tokens * csize I32) buf; Ret (mkdoc tokens topics num_topics)
  else Ret (mkdoc tokens (resize0 num_tokens (token_topics_ d)) num_topics).

(** ** The corpus over the threads *)

(** [partition_doc_id_begin_] and [partition_doc_id_end_]. *)
Record master := mkmaster { num_partitions_ : Z; doc_id_begin_ : Z; doc_id_end_ : Z; num_docs_ : Z; partition_ranges : list (Z * Z) }.

Definition partition_range (num_docs num_partitions doc_id_begin doc_id_end i : Z) : Z * Z :=
  let num_docs_per_partition := Z.quot num_docs num_partitions in
  let b := i * num_docs_per_partition + doc_id_begin in
  (b, if bool_decide (i = num_partitions - 1) then doc_id_end else b + num_docs_per_partition).

Definition AbstractMasterDocLoader_new (num_docs num_partitions doc_id_begin doc_id_end : Z) : master :=
  mkmaster num_partitions doc_id_begin doc_id_end num_docs
    (map (partition_range num_docs num_partitions doc_id_begin doc_id_end) (seqZ 0 num_partitions)).

(** The loop of [InMemoryMasterDocLoader] over the values of the database;
    [rng] are the generators of the documents in their order. *)
Definition read_doc (num_topics : Z) (rng : nat -> Z) (value : list Z) : outcome LDADoc :=
  d ← Deserialize value LDADoc_new;
  if bool_decide (num_topics_ d <> num_topics) then RandomInitTopics rng num_topics d else Ret d.

Record reading := mkreading { rd_doc_id : Z; rd_curr : Z; rd_parts : list (list LDADoc) }.

Definition read_step (m : master) (num_topics : Z) (s : reading) (e : list Z * (nat -> Z)) : outcome reading :=
  r ← vec_at (partition_ranges m) (rd_curr s);
  let curr := if bool_decide (rd_doc_id s = r.2) then rd_curr s + 1 else rd_curr s in
  part ← vec_at (rd_parts s) curr;
  d ← read_doc num_topics e.2 e.1;
  parts ← vec_set (rd_parts s) curr (part ++ [d]);
  Ret (mkreading (rd_doc_id s + 1) curr parts).

Definition InMemoryMasterDocLoader_new (m : master) (num_topics : Z) (db : list (list Z * (nat -> Z))) : outcome (list (list LDADoc)) :=
  s ← foldM (read_step m num_topics) db (mkreading (doc_id_begin_ m) 0 (replicate (Z.to_nat (num_partitions_ m)) []));
  _ ← CHECK (bool_decide (num_docs_ m = rd_doc_id s - doc_id_begin_ m));
  Ret (rd_parts s).

(** ** A thread's documents

    [GetOneDoc] returns a pointer to the document, here its position. *)
Record doc_loader := mkdoc_loader { partition_docs_ : list LDADoc; curr_ : Z }.
Definition loader_new (docs : list LDADoc) : doc_loader := mkdoc_loader docs 0.
Definition loader_IsEnd (l : doc_loader) : bool := bool_decide (curr_ l = blen (partition_docs_ l)).
Definition loader_GetOneDoc (l : doc_loader) : outcome (Z * doc_loader) :=
  _ ← CHECK (negb (loader_IsEnd l)); Ret (curr_ l, mkdoc_loader (partition_docs_ l) (curr_ l + 1)).
Definition loader_Restart (l : doc_loader) : doc_loader := mkdoc_loader (partition_docs_ l) 0.
Definition loader_GetNumDocs (l : doc_loader) : Z := blen (partition_docs_ l).
(** A document changed through its pointer. *)
Definition loader_set_doc (i : Z) (d : LDADoc) (l : doc_loader) : outcome doc_loader :=
  docs ← vec_set (partition_docs_ l) i d; Ret (mkdoc_loader docs (curr_ l)).

(** *** Single precision

    A [float] as a fraction; the result of a conversion or a division of
    [int]s is rounded to 24 bits, to the nearest and in a tie to the even one.
    Exponents of such results do not leave the range of the type. *)
Definition float32 := (Z * Z)%type.
Definition round_half_even (n d : Z) : Z :=
  let q := n / d in
  match Z.compare (2 * (n mod d)) d with Lt => q | Gt => q + 1 | Eq => if Z.even q then q else q + 1 end.
(** The exponent of the last bit of [n / d]. *)
Definition f32_exponent (n d : Z) : Z :=
  let e := Z.log2 n - Z.log2 d in
  if bool_decide (n * 2 ^ Z.log2 d < d * 2 ^ Z.log2 n) then e - 24 else e - 23.
Definition f32_round_pos (n d : Z) : float32 :=
  let e := f32_exponent n d in
  if bool_decide (0 <= e) then (round_half_even n (d * 2 ^ e) * 2 ^ e, 1) else (round_half_even (n * 2 ^ (- e)) d, 2 ^ (- e)).
Definition f32_round (n d : Z) : float32 :=
  if bool_decide (n = 0) then (0, 1)
  else let '(m, q) := f32_round_pos (Z.abs n) d in (Z.sgn n * m, q).
Definition f32_of_Z (n : Z) : float32 := f32_round n 1.
(** The divisor is not zero. *)
Definition f32_div (x y : float32) : float32 := f32_round (Z.sgn y.1 * (x.1 * y.2)) (x.2 * Z.abs y.1).
Definition f32_ceil (x : float32) : Z := - (- x.1 / x.2).

(** [std::ceil(static_cast<float>(a) / b)], and as an [int]; the conversion of
    a value that is not one is undefined. *)
Definition ceil_of_floats (a b : Z) : Z := f32_ceil (f32_div (f32_of_Z a) (f32_of_Z b)).
Definition ceil_to_int (a b : Z) : outcome Z :=
  if bool_decide (b = 0) then Undef else if decide (in_i32 (ceil_of_floats a b)) then Ret (ceil_of_floats a b) else Undef.
(** The ceiling without rounding. *)
Definition ceil_div (a b : Z) : Z := - (- a / b).
(** The product of two [int]s. *)
Definition int_mul (a b : Z) : outcome Z := if decide (in_i32 (a * b)) then Ret (a * b) else Undef.

(** *** Work units *)
Record workload := mkworkload {
  doc_loader_ : doc_loader; num_docs_per_work_unit_ : Z; num_docs_per_clock_ : Z; num_iters_this_work_unit_ : Z; num_docs_this_work_unit_ : Z
}.

Definition WorkloadManager_new (l : doc_loader) (num_iters_per_work_unit num_clocks_per_work_unit : Z) : outcome workload :=
  n ← int_mul num_iters_per_work_unit (loader_GetNumDocs l);
  per_clock ← ceil_to_int n num_clocks_per_work_unit;
  Ret (mkworkload l n per_clock 1 0).

Definition IsEndOfWorkUnit (w : workload) : bool := bool_decide (num_docs_this_work_unit_ w = num_docs_per_work_unit_ w).
Definition IsEndOfAnIter (w : workload) : bool := loader_IsEnd (doc_loader_ w).
Definition GetOneDoc (w : workload) : outcome (Z * workload) :=
  _ ← CHECK (negb (IsEndOfWorkUnit w));
  let '(l, iters) := if loader_IsEnd (doc_loader_ w) then (loader_Restart (doc_loader_ w), num_iters_this_work_unit_ w + 1)
                     else (doc_loader_ w, num_iters_this_work_unit_ w) in
  '(i, l') ← loader_GetOneDoc l;
  Ret (i, mkworkload l' (num_docs_per_work_unit_ w) (num_docs_per_clock_ w) iters (num_docs_this_work_unit_ w + 1)).
(** The remainder by zero is undefined. *)
Definition NeedToClock (w : workload) : outcome bool :=
  if bool_decide (num_docs_per_clock_ w = 0) then Undef
  else Ret (bool_decide (Z.rem (num_docs_this_work_unit_ w) (num_docs_per_clock_ w) = 0) && bool_decide (num_docs_this_work_unit_ w <> 0)).
Definition RestartWorkUnit (w : workload) : workload :=
  mkworkload (loader_Restart (doc_loader_ w)) (num_docs_per_work_unit_ w) (num_docs_per_clock_ w) 1 0.
Definition workload_set_doc (i : Z) (d : LDADoc) (w : workload) : outcome workload :=
  l ← loader_set_doc i d (doc_loader_ w);
  Ret (mkworkload l (num_docs_per_work_unit_ w) (num_docs_per_clock_ w) (num_iters_this_work_unit_ w) (num_docs_this_work_unit_ w)).

(** ** LDA: documents in the database, the division of the corpus, work units

    Properties of [LdaDoc]: a document written and read again is the same;
    the loaders of the threads have each document once; a work unit visits
    every document as often as it should and clocks in between. *)

#[export] Instance LDADoc_eq_dec : EqDecision LDADoc.
Proof. solve_decision. Defined.

(** ** Rounding

    Below [2^24] the ceiling of the rounded quotient is that of the quotient. *)
Lemma round_half_even_exact n d : 0 < d -> round_half_even (n * d) d = n.
Proof. intros Hd. unfold round_half_even. rewrite Z.mod_mul, Z.div_mul by lia. destruct d; done. Qed.
Lemma round_half_even_le n d k : 0 < d -> n <= k * d -> round_half_even n d <= k.
Proof.
  intros Hd Hn. unfold round_half_even. pose proof (Z.div_mod n d ltac:(lia)). pose proof (Z.mod_pos_bound n d Hd).
  destruct (Z.compare_spec (2 * (n mod d)) d); [destruct (Z.even _)|..]; nia.
Qed.
Lemma round_half_even_gt n d k : 0 < d -> (2 * k + 1) * d < 2 * n -> k < round_half_even n d.
Proof.
  intros Hd Hn. unfold round_half_even. pose proof (Z.div_mod n d ltac:(lia)). pose proof (Z.mod_pos_bound n d Hd).
  destruct (Z.compare_spec (2 * (n mod d)) d); [destruct (Z.even _)|..]; nia.
Qed.
Lemma ceil_div_unique a b c : 0 < b -> (c - 1) * b < a <= c * b -> ceil_div a b = c.
Proof. intros Hb Hc. unfold ceil_div. assert (E : - a / b = - c) by (symmetry; apply (Z.div_unique _ _ _ (c * b - a)); lia). lia. Qed.

(** A quotient below [2^24] has a last bit of at most 1, and 24 bits. *)
Lemma f32_exponent_bound n d : 0 < n -> 0 < d -> n < 2 ^ 24 * d -> f32_exponent n d <= 0 /\ 2 ^ 23 * d <= n * 2 ^ (- f32_exponent n d).
Proof.
  intros Hn Hd Hlt. unfold f32_exponent. pose proof (Z.log2_spec n Hn) as [Hn1 Hn2]. pose proof (Z.log2_spec d Hd) as [Hd1 Hd2].
  pose proof (Z.log2_nonneg n) as Ln. pose proof (Z.log2_nonneg d) as Ld. set (a := Z.log2 n) in *. set (b := Z.log2 d) in *. rewrite Z.pow_succ_r in Hn2, Hd2 by lia.
  assert (Hab : forall e, 0 <= e -> 2 ^ a <= 2 ^ (b + e) -> a <= b + e) by (intros e He Hp; apply (Z.pow_le_mono_r_iff 2); lia).
  case_bool_decide as Hc.
  - assert (Ha : a - b - 24 <= 0).
    { apply Z.nlt_ge. intros Hgt. assert (Hp : 2 ^ (b + 25) <= 2 ^ a) by (apply Z.pow_le_mono_r; lia). rewrite Z.pow_add_r in Hp by lia. lia. }
    split; [lia|]. assert (E : 2 ^ (- (a - b - 24)) * 2 ^ a = 2 ^ 24 * 2 ^ b) by (rewrite <- !Z.pow_add_r by lia; f_equal; lia).
    set (s := 2 ^ (- (a - b - 24))) in *. assert (0 < 2 ^ a) by (by apply Z.pow_pos_nonneg). assert (0 < s) by (apply Z.pow_pos_nonneg; lia). nia.
  - assert (Ha : a - b - 23 <= 0).
    { apply Z.nlt_ge. intros Hgt. assert (Hp : 2 ^ (b + 24) <= 2 ^ a) by (apply Z.pow_le_mono_r; lia). rewrite Z.pow_add_r in Hp by lia. assert (0 < 2 ^ b) by (by apply Z.pow_pos_nonneg). nia. }
    split; [lia|]. assert (E : 2 ^ (- (a - b - 23)) * 2 ^ a = 2 ^ 23 * 2 ^ b) by (rewrite <- !Z.pow_add_r by lia; f_equal; lia).
    set (s := 2 ^ (- (a - b - 23))) in *. assert (0 < 2 ^ a) by (by apply Z.pow_pos_nonneg). assert (0 < s) by (apply Z.pow_pos_nonneg; lia). nia.
Qed.
Lemma f32_round_small n d : 0 < n -> 0 < d -> n < 2 ^ 24 * d ->
  exists s, 0 < s /\ f32_round n d = (round_half_even (n * s) d, s) /\ 2 ^ 23 * d <= n * s.
Proof.
  intros Hn Hd Hlt. destruct (f32_exponent_bound n d Hn Hd Hlt) as [He Hs]. exists (2 ^ (- f32_exponent n d)). split; [apply Z.pow_pos_nonneg; lia|]. split; [|done].
  unfold f32_round. rewrite bool_decide_false, Z.abs_eq, Z.sgn_pos by lia. unfold f32_round_pos. case_bool_decide as H0; rewrite Z.mul_1_l; [|done].
  replace (f32_exponent n d) with 0 by lia. by rewrite !Z.mul_1_r.
Qed.

Lemma f32_of_Z_small n : 0 <= n < 2 ^ 24 -> exists s, 0 < s /\ f32_of_Z n = (n * s, s).
Proof.
  intros Hn. destruct (decide (n = 0)) as [->|Hn0]; [by exists 1|]. destruct (f32_round_small n 1) as (s & Hs & E & _); [lia..|]. exists s. split; [done|]. unfold f32_of_Z. rewrite E.
  f_equal. rewrite <- (Z.mul_1_r (n * s)) at 1. by apply round_half_even_exact.
Qed.

Lemma ceil_of_floats_small a b : 0 <= a < 2 ^ 24 -> 0 < b < 2 ^ 24 -> ceil_of_floats a b = ceil_div a b.
Proof.
  intros Ha Hb. unfold ceil_of_floats. destruct (f32_of_Z_small a Ha) as (sa & Hsa & ->). destruct (f32_of_Z_small b ltac:(lia)) as (sb & Hsb & ->). unfold f32_div. cbn [fst snd].
  rewrite Z.sgn_pos, Z.abs_eq, Z.mul_1_l by nia. destruct (decide (a = 0)) as [->|Ha0]; [by rewrite !Z.mul_0_l|].
  destruct (f32_round_small (a * sa * sb) (sa * (b * sb))) as (s & Hs & -> & Hbits); [nia..|]. unfold f32_ceil. cbn [fst snd]. fold (ceil_div (round_half_even (a * sa * sb * s) (sa * (b * sb))) s).
  set (t := sa * sb). assert (Ht : 0 < t) by (unfold t; nia). replace (a * sa * sb * s) with (a * s * t) in * by (unfold t; lia). replace (sa * (b * sb)) with (b * t) in * by (unfold t; lia).
  replace (a * sa * sb * s) with (a * s * t) in Hbits by (unfold t; lia).
  set (c := ceil_div a b). assert (Hc : (c - 1) * b < a <= c * b).
  { unfold c, ceil_div. pose proof (Z.div_mod (- a) b ltac:(lia)). pose proof (Z.mod_pos_bound (- a) b ltac:(lia)). nia. }
  apply ceil_div_unique; [done|]. split.
  - apply round_half_even_gt; [nia|]. assert (Hbit : 2 ^ 23 * b <= a * s) by nia. assert (Hc1 : 1 <= c) by nia.
    assert (Hd : b < 2 * s \/ c = 1) by (destruct (decide (c = 1)); [by right|left; nia]).
    assert (H2 : (2 * ((c - 1) * s) + 1) * b < 2 * (a * s)); [|nia]. destruct Hd as [Hd| ->]; nia.
  - apply round_half_even_le; nia.
Qed.
Lemma ceil_to_int_small a b : 0 <= a < 2 ^ 24 -> 0 < b < 2 ^ 24 -> ceil_to_int a b = Ret (ceil_div a b).
Proof.
  intros Ha Hb. unfold ceil_to_int. rewrite bool_decide_false, ceil_of_floats_small by lia. rewrite decide_True; [done|].
  unfold ceil_div. pose proof (Z.div_mod (- a) b ltac:(lia)). pose proof (Z.mod_pos_bound (- a) b ltac:(lia)). unfold in_i32. nia.
Qed.
(** Above, the quotient is rounded: a period that is longer than the work unit,
    and too few batches. *)
Lemma ceil_of_floats_too_large : ceil_to_int 100000005 1 = Ret 100000008.
Proof. by vm_compute. Qed.
Lemma ceil_of_floats_too_small : ceil_to_int 100000004 4000 = Ret 25000 /\ ceil_div 100000004 4000 = 25001.
Proof. by vm_compute. Qed.

(** ** Bytes *)
Definition doc_wf (d : LDADoc) : Prop :=
  Forall in_i32 (tokens_ d) /\ Forall in_i32 (token_topics_ d) /\ length (token_topics_ d) = length (tokens_ d) /\
  0 <= num_topics_ d < 2 ^ 31 /\ blen (tokens_ d) < 2 ^ 64.

(** The bytes of a document, and what a new document reads from them. *)
Definition doc_bytes (d : LDADoc) : list Z :=
  cencode I32 (num_topics_ d) ++ cencode U64 (blen (tokens_ d)) ++ int32_array (tokens_ d) ++
  (if bool_decide (num_topics_ d > 0) then int32_array (token_topics_ d) else []).
Definition stored (d : LDADoc) : LDADoc :=
  mkdoc (tokens_ d) (if bool_decide (num_topics_ d > 0) then token_topics_ d else replicate (length (tokens_ d)) 0) (num_topics_ d).

Lemma blen_int32_array l : blen (int32_array l) = blen l * 4.
Proof.
  unfold blen. induction l as [|x l IH]; [done|]. cbn [int32_array map concat]. rewrite length_app. pose proof (blen_cencode I32 x) as Hc.
  unfold blen in Hc. cbn [csize] in Hc. fold (int32_array l). cbn [length]. lia.
Qed.

Lemma doc_bytes_size d : doc_wf d -> blen (doc_bytes d) = SerializedSize d.
Proof.
  intros (_ & _ & Hl & Hn & _). unfold doc_bytes, SerializedSize. rewrite !blen_app, !blen_cencode, blen_int32_array. cbn [csize].
  case_bool_decide; case_bool_decide; try lia; rewrite ?blen_int32_array; unfold blen; cbn [length]; lia.
Qed.

Lemma SerializedSize_pos d : 12 <= SerializedSize d.
Proof. unfold SerializedSize, blen. cbn [csize]. case_bool_decide; lia. Qed.

(** Writing behind what has been written. *)
Lemma mem_write_next p r bs off : off = blen p -> blen bs <= blen r -> mem_write off bs (p ++ r) = Ret ((p ++ bs) ++ drop (length bs) r).
Proof.
  intros -> Hr. rewrite <- (take_drop (length bs) r) at 1. rewrite <- app_assoc. apply mem_write_seg. unfold blen in *. rewrite length_take. lia.
Qed.

Lemma Serialize_spec d buf : doc_wf d -> SerializedSize d <= blen buf ->
  Serialize d buf = Ret (doc_bytes d ++ drop (Z.to_nat (SerializedSize d)) buf).
Proof.
  intros Hwf Hb. rewrite <- (doc_bytes_size d Hwf) in Hb |- *. unfold doc_bytes in *.
  set (h1 := cencode I32 (num_topics_ d)) in *. set (h2 := cencode U64 (blen (tokens_ d))) in *. set (h3 := int32_array (tokens_ d)) in *.
  destruct (bool_decide (num_topics_ d > 0)) eqn:Ek.
  all: rewrite !blen_app in Hb; assert (E1 : blen h1 = 4) by apply blen_cencode; assert (E2 : blen h2 = 8) by apply blen_cencode.
  all: assert (E3 : blen h3 = blen (tokens_ d) * 4) by apply blen_int32_array; assert (0 <= blen h3) by (unfold blen; lia).
  all: assert (Hdrop : forall n (l : list Z), blen (drop n l) = Z.max 0 (blen l - Z.of_nat n)) by (intros; unfold blen; rewrite length_drop; lia).
  all: unfold Serialize; rewrite Ek; fold h1 h2 h3; cbn [csize]; rewrite (mem_write_next [] buf h1) by (done || (unfold blen in *; lia)); cbn [mbind outcome_bind app].
  all: rewrite (mem_write_next h1) by (rewrite ?Hdrop; unfold blen in *; lia); cbn [mbind outcome_bind].
  all: rewrite (mem_write_next (h1 ++ h2)) by (rewrite ?blen_app, ?Hdrop; unfold blen in *; lia); cbn [mbind outcome_bind].
  all: rewrite !drop_drop, blen_nat, !length_app.
  - rewrite (mem_write_next ((h1 ++ h2) ++ h3)) by (rewrite ?blen_app, ?Hdrop; unfold blen in *; lia).
    rewrite !drop_drop, <- !app_assoc. repeat f_equal; lia.
  - rewrite <- !app_assoc. cbn [app length]. repeat f_equal; lia.
Qed.

Lemma read_array_spec l : forall p r, Forall in_i32 l -> read_array (length l) (blen p) (p ++ int32_array l ++ r) = Ret l.
Proof.
  induction l as [|x l IH]; intros p r Hl; [done|]. apply Forall_cons in Hl as [Hx Hl]. cbn [length read_array int32_array map concat].
  rewrite <- (app_assoc (cencode I32 x)), mem_read_seg' by (done || by rewrite blen_cencode). cbn [mbind outcome_bind].
  rewrite (app_assoc p). replace (blen p + csize I32) with (blen (p ++ cencode I32 x)) by (rewrite blen_app, blen_cencode; done).
  fold (int32_array l). rewrite IH by done. cbn [mbind outcome_bind]. by rewrite cdecode_cencode.
Qed.

Lemma Deserialize_bytes d r : doc_wf d -> Deserialize (doc_bytes d ++ r) LDADoc_new = Ret (stored d).
Proof.
  intros (Ht & Hp & Hl & Hn & Hb). unfold Deserialize, doc_bytes, stored. set (h1 := cencode I32 _). set (h2 := cencode U64 _).
  assert (E1 : blen h1 = 4) by apply blen_cencode. assert (E2 : blen h2 = 8) by apply blen_cencode. rewrite <- !app_assoc. cbn [csize].
  assert (R1 : forall x, mem_read 0 4 (h1 ++ x) = Ret h1) by (intros x; apply (mem_read_seg' [] h1); [done|lia]).
  rewrite R1. cbn [mbind outcome_bind]. rewrite (mem_read_seg' h1 h2) by lia. cbn [mbind outcome_bind].
  unfold h1, h2. rewrite !cdecode_cencode by (cbn; unfold in_i32, in_u64, blen in *; lia). fold h1 h2. rewrite blen_nat.
  replace (4 + 8) with (blen (h1 ++ h2)) by (rewrite blen_app; lia). rewrite (app_assoc h1 h2), read_array_spec by done. cbn [mbind outcome_bind].
  case_bool_decide as Hk; [|cbn; unfold resize0; by rewrite take_nil, Nat.sub_0_r]. rewrite (app_assoc (h1 ++ h2)).
  replace (_ + _ * 4) with (blen ((h1 ++ h2) ++ int32_array (tokens_ d))) by (rewrite (blen_app (h1 ++ h2)), blen_int32_array; unfold blen; lia).
  rewrite <- Hl, read_array_spec by done. cbn [mbind outcome_bind]. by destruct d.
Qed.

(** *** Initial topics *)
Lemma RandomInitTopics_spec rng k d : length (token_topics_ d) = length (tokens_ d) ->
  RandomInitTopics rng k d = Ret (mkdoc (tokens_ d) (map rng (seq 0 (length (tokens_ d)))) k).
Proof.
  intros Hl. unfold RandomInitTopics, blen. set (n := length (tokens_ d)) in *.
  destruct (foldM_seqZ_inv (fun ts i => vec_set ts i (rng (Z.to_nat i))) (fun j ts => ts = map rng (seq 0 j) ++ drop j (token_topics_ d)) n (token_topics_ d))
    as (ts & -> & ->); [done| |].
  - intros j ts Hj ->. destruct (lookup_lt_is_Some_2 (token_topics_ d) j) as (x & Hx); [lia|]. eexists. split; [|done].
    unfold vec_set. rewrite length_app, length_map, length_seq, length_drop, bool_decide_true by lia. rewrite !Nat2Z.id, (drop_S _ _ _ Hx).
    rewrite insert_app_r_alt by (rewrite length_map, length_seq; lia). rewrite length_map, length_seq, Nat.sub_diag, seq_S, map_app, <- app_assoc. done.
  - cbn [mbind outcome_bind]. rewrite drop_ge by lia. by rewrite app_nil_r.
Qed.
