(* ===== verification/LdaSampler.v ===== *)
(** * LDA: the sampler

    [FastDocSampler] ([apps/lda/src/fast_doc_sampler.hpp], [.cpp]): the topic
    of each token of a document is drawn from its conditional distribution,
    whose mass is kept in three buckets.  The row of the summary table is the
    one in the thread cache, which [ThreadInc] updates ([ThreadTable]). *)
From S2P Require Import Prelude Bytes StradsFloat LdaDoc.
Open Scope Z_scope.

(** ** The standard library on arrays *)

(** [std::lower_bound] needs the smaller elements to come first. *)
Definition count_less (l : list Z) (v : Z) : nat := length (filter (fun x => x < v) l).
Definition lower_bound (l : list Z) (v : Z) : outcome Z :=
  let i := count_less l v in
  if bool_decide (Forall (fun x => x < v) (take i l) /\ Forall (fun x => v <= x) (drop i l)) then Ret (Z.of_nat i) else Undef.

(** [memmove] of [n] elements within an array; a negative number is a huge
    [size_t]. *)
Definition memmove (dst src n : Z) (a : list Z) : outcome (list Z) :=
  if bool_decide (0 <= dst /\ 0 <= src /\ 0 <= n /\ dst + n <= blen a /\ src + n <= blen a)
  then Ret (take (Z.to_nat dst) a ++ take (Z.to_nat n) (drop (Z.to_nat src) a) ++ drop (Z.to_nat (dst + n)) a) else Undef.

Section SAMPLER.
Context {F : Type} `{Float F}.

(** [K_], [alpha_], [beta_] and [beta_sum_]. *)
Record params := mkparams { K_ : Z; alpha_ : F; beta_ : F; beta_sum_ : F }.

(** The topics in [nonzero_q_terms_topic_] are stored as [real_t], which holds
    them exactly. *)
Record FastDocSampler := mksampler {
  s_sum_ : F; r_sum_ : F; q_sum_ : F;
  q_coeff_ : list F; nonzero_q_terms_ : list F; nonzero_q_terms_topic_ : list Z; num_nonzero_q_terms_ : Z;
  doc_topic_vec_ : list Z; nonzero_doc_topic_idx_ : list Z; num_nonzero_doc_topic_idx_ : Z;
  summary_row : list Z
}.

(** [array] is what [new int32_t\[K_\]] leaves in the array. *)
Definition FastDocSampler_new (p : params) (array row : list Z) : FastDocSampler :=
  let zeros := replicate (Z.to_nat (K_ p)) f_zero in
  mksampler f_zero f_zero f_zero zeros zeros (replicate (Z.to_nat (K_ p)) 0) 0 (replicate (Z.to_nat (K_ p)) 0) array 0 row.

Definition set_sums (s r : F) (a : FastDocSampler) : FastDocSampler :=
  mksampler s r (q_sum_ a) (q_coeff_ a) (nonzero_q_terms_ a) (nonzero_q_terms_topic_ a) (num_nonzero_q_terms_ a) (doc_topic_vec_ a) (nonzero_doc_topic_idx_ a)
    (num_nonzero_doc_topic_idx_ a) (summary_row a).
Definition set_q_coeff (q : list F) (a : FastDocSampler) : FastDocSampler :=
  mksampler (s_sum_ a) (r_sum_ a) (q_sum_ a) q (nonzero_q_terms_ a) (nonzero_q_terms_topic_ a) (num_nonzero_q_terms_ a) (doc_topic_vec_ a) (nonzero_doc_topic_idx_ a)
    (num_nonzero_doc_topic_idx_ a) (summary_row a).
Definition set_q_terms (sum : F) (terms : list F) (topics : list Z) (n : Z) (a : FastDocSampler) : FastDocSampler :=
  mksampler (s_sum_ a) (r_sum_ a) sum (q_coeff_ a) terms topics n (doc_topic_vec_ a) (nonzero_doc_topic_idx_ a) (num_nonzero_doc_topic_idx_ a) (summary_row a).
Definition set_doc_topics (vec idx : list Z) (n : Z) (a : FastDocSampler) : FastDocSampler :=
  mksampler (s_sum_ a) (r_sum_ a) (q_sum_ a) (q_coeff_ a) (nonzero_q_terms_ a) (nonzero_q_terms_topic_ a) (num_nonzero_q_terms_ a) vec idx n (summary_row a).
Definition set_summary_row (row : list Z) (a : FastDocSampler) : FastDocSampler :=
  mksampler (s_sum_ a) (r_sum_ a) (q_sum_ a) (q_coeff_ a) (nonzero_q_terms_ a) (nonzero_q_terms_topic_ a) (num_nonzero_q_terms_ a) (doc_topic_vec_ a)
    (nonzero_doc_topic_idx_ a) (num_nonzero_doc_topic_idx_ a) row.

(** The row of the thread cache after a refresh. *)
Definition RefreshCachedSummaryRow (row : list Z) (a : FastDocSampler) : FastDocSampler := set_summary_row row a.

(** What the sampler sends to the tables. *)
Inductive update :=
  | SummaryInc (topic delta : Z)
  | WordTopicBatchInc (word : Z) (batch : list (Z * Z)).

(** ** Before a document *)

Definition ComputeDocTopicVector (p : params) (d : LDADoc) (a : FastDocSampler) : outcome FastDocSampler :=
  vec ← foldM (fun vec i => topic ← it_Topic d i; n ← vec_at vec topic; vec_set vec topic (i32 (n + 1)))
    (seqZ 0 (GetNumTokens d)) (replicate (length (doc_topic_vec_ a)) 0);
  Ret (set_doc_topics vec (nonzero_doc_topic_idx_ a) (num_nonzero_doc_topic_idx_ a) a).

Definition denominator (p : params) (a : FastDocSampler) (k : Z) : outcome F := n ← vec_at (summary_row a) k; Ret (f_add (f_of_Z n) (beta_sum_ p)).

Definition aux_step (p : params) (a : FastDocSampler) (k : Z) : outcome FastDocSampler :=
  denom ← denominator p a k;
  n ← vec_at (doc_topic_vec_ a) k;
  q ← vec_set (q_coeff_ a) k (f_div (f_add (alpha_ p) (f_of_Z n)) denom);
  let s := f_add (s_sum_ a) (f_div (f_mul (alpha_ p) (beta_ p)) denom) in
  if bool_decide (n <> 0) then
    let r := f_add (r_sum_ a) (f_div (f_mul (f_of_Z n) (beta_ p)) denom) in
    idx ← vec_set (nonzero_doc_topic_idx_ a) (num_nonzero_doc_topic_idx_ a) k;
    Ret (set_doc_topics (doc_topic_vec_ a) idx (num_nonzero_doc_topic_idx_ a + 1) (set_q_coeff q (set_sums s r a)))
  else Ret (set_q_coeff q (set_sums s (r_sum_ a) a)).

Definition ComputeAuxVariables (p : params) (a : FastDocSampler) : outcome FastDocSampler :=
  foldM (aux_step p) (seqZ 0 (K_ p)) (set_doc_topics (doc_topic_vec_ a) (nonzero_doc_topic_idx_ a) 0 (set_sums f_zero f_zero a)).

(** ** A draw *)

(** The loops that take the terms off the sample until it is not positive;
    [terms] are the topics with their terms. *)
Fixpoint scan_terms (terms : list (Z * F)) (sample : F) : option Z :=
  match terms with
  | [] => None
  | (topic, term) :: terms' => let sample' := f_sub sample term in if f_leb sample' f_zero then Some topic else scan_terms terms' sample'
  end.

Definition q_bucket (a : FastDocSampler) (sample : F) : outcome Z :=
  terms ← mapM (fun i => t ← vec_at (nonzero_q_terms_ a) i; k ← vec_at (nonzero_q_terms_topic_ a) i; Ret (k, t)) (seqZ 0 (num_nonzero_q_terms_ a));
  match scan_terms terms sample with Some k => Ret k | None => vec_at (nonzero_q_terms_topic_ a) (num_nonzero_q_terms_ a - 1) end.

Definition r_bucket (p : params) (a : FastDocSampler) (sample : F) : outcome Z :=
  terms ← mapM (fun i => k ← vec_at (nonzero_doc_topic_idx_ a) i; n ← vec_at (doc_topic_vec_ a) k; denom ← denominator p a k; Ret (k, f_div (f_of_Z n) denom))
    (seqZ 0 (num_nonzero_doc_topic_idx_ a));
  match scan_terms terms sample with Some k => Ret k | None => vec_at (nonzero_doc_topic_idx_ a) (num_nonzero_doc_topic_idx_ a - 1) end.

Definition s_bucket (p : params) (a : FastDocSampler) (sample : F) : outcome Z :=
  terms ← mapM (fun k => denom ← denominator p a k; Ret (k, f_div f_one denom)) (seqZ 0 (K_ p));
  match scan_terms terms sample with Some k => Ret k | None => Ret (K_ p - 1) end.

(** [dart] is the number from the generator. *)
Definition Sample (p : params) (dart : F) (a : FastDocSampler) : outcome Z :=
  let total_mass := f_add (f_add (q_sum_ a) (r_sum_ a)) (s_sum_ a) in
  let sample := f_mul dart total_mass in
  if f_ltb sample (q_sum_ a) then q_bucket a sample
  else
    let sample1 := f_sub sample (q_sum_ a) in
    if f_ltb sample1 (r_sum_ a) then r_bucket p a (f_div sample1 (beta_ p))
    else s_bucket p a (f_div (f_sub sample1 (r_sum_ a)) (f_mul (alpha_ p) (beta_ p))).

(** ** A token *)

(** The sums and the coefficient when the count of a topic changes by
    [delta], one or minus one; [by_] is the change of a real number. *)
Definition adjust_buckets (p : params) (topic delta : Z) (a : FastDocSampler) : outcome FastDocSampler :=
  let by_ := fun x => if bool_decide (delta = 1) then f_add x f_one else f_sub x f_one in
  denom ← denominator p a topic;
  n ← vec_at (doc_topic_vec_ a) topic;
  let ab := f_mul (alpha_ p) (beta_ p) in
  let s := f_add (f_sub (s_sum_ a) (f_div ab denom)) (f_div ab (by_ denom)) in
  let r := f_add (f_sub (r_sum_ a) (f_div (f_mul (f_of_Z n) (beta_ p)) denom)) (f_div (f_mul (f_of_Z (i32 (n + delta))) (beta_ p)) (by_ denom)) in
  q ← vec_set (q_coeff_ a) topic (f_div (by_ (f_add (alpha_ p) (f_of_Z n))) (by_ denom));
  Ret (set_q_coeff q (set_sums s r a)).

(** The counts of the document; the array is kept sorted. *)
Definition remove_doc_topic (topic : Z) (a : FastDocSampler) : outcome FastDocSampler :=
  n ← vec_at (doc_topic_vec_ a) topic;
  vec ← vec_set (doc_topic_vec_ a) topic (i32 (n - 1));
  let num := num_nonzero_doc_topic_idx_ a in
  if bool_decide (i32 (n - 1) = 0) then
    zero_idx ← lower_bound (take (Z.to_nat num) (nonzero_doc_topic_idx_ a)) topic;
    idx ← memmove zero_idx (zero_idx + 1) (num - zero_idx - 1) (nonzero_doc_topic_idx_ a);
    Ret (set_doc_topics vec idx (num - 1) a)
  else Ret (set_doc_topics vec (nonzero_doc_topic_idx_ a) num a).

Definition add_doc_topic (topic : Z) (a : FastDocSampler) : outcome FastDocSampler :=
  n ← vec_at (doc_topic_vec_ a) topic;
  vec ← vec_set (doc_topic_vec_ a) topic (i32 (n + 1));
  let num := num_nonzero_doc_topic_idx_ a in
  if bool_decide (i32 (n + 1) = 1) then
    insert_idx ← lower_bound (take (Z.to_nat num) (nonzero_doc_topic_idx_ a)) topic;
    idx ← memmove (insert_idx + 1) insert_idx (num - insert_idx) (nonzero_doc_topic_idx_ a);
    idx' ← vec_set idx insert_idx topic;
    Ret (set_doc_topics vec idx' (num + 1) a)
  else Ret (set_doc_topics vec (nonzero_doc_topic_idx_ a) num a).

(** [ThreadInc] on the summary row, of which the thread cache has a copy. *)
Definition summary_ThreadInc (topic delta : Z) (a : FastDocSampler) : outcome FastDocSampler :=
  n ← vec_at (summary_row a) topic; row ← vec_set (summary_row a) topic (i32 (n + delta)); Ret (set_summary_row row a).

(** The mass of the q bucket over the row of the word. *)
Definition q_term (old_topic : Z) (a : FastDocSampler) (e : Z * Z) : outcome FastDocSampler :=
  let '(topic, count) := e in
  c ← vec_at (q_coeff_ a) topic;
  let term := f_mul c (f_of_Z (if bool_decide (topic = old_topic) then i32 (count - 1) else count)) in
  terms ← vec_set (nonzero_q_terms_ a) (num_nonzero_q_terms_ a) term;
  topics ← vec_set (nonzero_q_terms_topic_ a) (num_nonzero_q_terms_ a) topic;
  Ret (set_q_terms (f_add (q_sum_ a) term) terms topics (num_nonzero_q_terms_ a + 1) a).

Definition compute_q (old_topic : Z) (word_topic_row : list (Z * Z)) (a : FastDocSampler) : outcome FastDocSampler :=
  foldM (q_term old_topic) word_topic_row (set_q_terms f_zero (nonzero_q_terms_ a) (nonzero_q_terms_topic_ a) 0 a).

(** The turn of the loop at position [it]; [word_topic_row] are the entries of
    the row [Get] finds. *)
Definition sample_token (p : params) (word_topic_row : list (Z * Z)) (dart : F) (it : Z) (s : FastDocSampler * LDADoc * list update) :
    outcome (FastDocSampler * LDADoc * list update) :=
  let '(a, d, out) := s in
  old_topic ← it_Topic d it;
  _ ← CHECK (bool_decide (old_topic < K_ p));
  a1 ← adjust_buckets p old_topic (-1) a;
  a2 ← remove_doc_topic old_topic a1;
  a3 ← summary_ThreadInc old_topic (-1) a2;
  word ← it_Word d it;
  a4 ← compute_q old_topic word_topic_row a3;
  new_topic ← Sample p dart a4;
  _ ← CHECK (bool_decide (new_topic < K_ p));
  a5 ← adjust_buckets p new_topic 1 a4;
  a6 ← add_doc_topic new_topic a5;
  a7 ← summary_ThreadInc new_topic 1 a6;
  let out' := out ++ [SummaryInc old_topic (-1); SummaryInc new_topic 1] in
  if bool_decide (old_topic <> new_topic) then
    d' ← it_SetTopic new_topic it d;
    Ret (a7, d', out' ++ [WordTopicBatchInc word [(old_topic, -1); (new_topic, 1)]])
  else Ret (a7, d, out').

(** [word_topic_rows] and [darts] by position. *)
Definition SampleOneDoc (p : params) (word_topic_rows : Z -> list (Z * Z)) (darts : Z -> F) (d : LDADoc) (a : FastDocSampler) :
    outcome (FastDocSampler * LDADoc * list update) :=
  a1 ← ComputeDocTopicVector p d a;
  a2 ← ComputeAuxVariables p a1;
  foldM (fun s it => sample_token p (word_topic_rows it) (darts it) it s) (seqZ 0 (GetNumTokens d)) (a2, d, []).
End SAMPLER.

Arguments params : clear implicits.
Arguments FastDocSampler : clear implicits.
