(* ===== verification/LdaSamplerProps.v ===== *)
(** * LDA: the sampler keeps its counts and sums

    Whatever topics are drawn, the counts of the document, the sorted array of
    its topics, the sums of the buckets and the coefficients are what they
    would be if computed afresh, and the tables receive exactly the changes of
    the counts. *)
From S2P Require Import Prelude Bytes StradsFloat LdaDoc LdaSampler.
Open Scope Z_scope.

(** ** Counts *)
Section COUNTS.
Lemma vec_set_blen {A} (l : list A) i x : 0 <= i < blen l -> vec_set l i x = Ret (<[Z.to_nat i := x]> l).
Proof. intros Hi. unfold vec_set. by rewrite bool_decide_true. Qed.

Lemma filter_ext_in {A} (P Q : A -> Prop) `{!forall x, Decision (P x)} `{!forall x, Decision (Q x)} (l : list A) :
  (forall x, x ∈ l -> P x <-> Q x) -> filter P l = filter Q l.
Proof.
  induction l as [|x l IH]; intros Hl; [done|]. rewrite !filter_cons, IH by (intros y Hy; apply Hl; by right).
  specialize (Hl x ltac:(by left)). destruct (decide (P x)), (decide (Q x)); tauto.
Qed.

Definition cnt (k : Z) (l : list Z) : Z := Z.of_nat (length (filter (fun x => x = k) l)).

Lemma cnt_cons k x l : cnt k (x :: l) = (if decide (x = k) then 1 else 0) + cnt k l.
Proof. unfold cnt. rewrite filter_cons. destruct (decide (x = k)); cbn [length]; lia. Qed.
Lemma cnt_bounds k l : 0 <= cnt k l <= blen l.
Proof. unfold cnt, blen. pose proof (length_filter (fun x => x = k) l). lia. Qed.
Lemma cnt_perm k l l' : l ≡ₚ l' -> cnt k l = cnt k l'.
Proof. intros Hp. unfold cnt. by rewrite Hp. Qed.
Lemma cnt_pos k l : k ∈ l -> 0 < cnt k l.
Proof. intros (l1 & l2 & ->)%list_elem_of_split. unfold cnt. rewrite filter_app, length_app, filter_cons, decide_True by done. cbn. lia. Qed.

Definition counts (K : Z) (l : list Z) : list Z := map (fun k => cnt k l) (seqZ 0 K).

Lemma lookup_map_seqZ {A} (f : Z -> A) K k : 0 <= k < K -> map f (seqZ 0 K) !! Z.to_nat k = Some (f k).
Proof.
  intros Hk. change (map f (seqZ 0 K)) with (f <$> seqZ 0 K). rewrite list_lookup_fmap, lookup_seqZ_lt by lia. cbn. f_equal. f_equal. lia.
Qed.

Lemma map_seqZ_update {A} (f g : Z -> A) K k : 0 <= k < K -> (forall j, j <> k -> f j = g j) -> <[Z.to_nat k := g k]> (map f (seqZ 0 K)) = map g (seqZ 0 K).
Proof.
  intros Hk Hfg. apply list_eq. intros i. destruct (decide (i = Z.to_nat k)) as [->|Hne].
  - rewrite list_lookup_insert_eq by (rewrite length_map, length_seqZ; lia). by rewrite lookup_map_seqZ.
  - rewrite list_lookup_insert_ne by done. change (map ?h (seqZ 0 K)) with (h <$> seqZ 0 K). rewrite !list_lookup_fmap.
    destruct (seqZ 0 K !! i) as [j|] eqn:E; [|done]. apply lookup_seqZ in E as [-> Hj]. cbn. f_equal. apply Hfg. lia.
Qed.

(** The topics that occur, in order: those before, at and behind [k]. *)
Definition topics_of (K : Z) (l : list Z) : list Z := filter (fun k => 0 < cnt k l) (seqZ 0 K).
Definition nz_before (k : Z) (l : list Z) : list Z := filter (fun j => 0 < cnt j l) (seqZ 0 k).
Definition nz_behind (K k : Z) (l : list Z) : list Z := filter (fun j => 0 < cnt j l) (seqZ (k + 1) (K - k - 1)).

Lemma topics_of_split K k l : 0 <= k < K -> topics_of K l = nz_before k l ++ (if decide (0 < cnt k l) then [k] else []) ++ nz_behind K k l.
Proof.
  intros Hk. unfold topics_of, nz_before, nz_behind. replace K with (k + (1 + (K - k - 1))) at 1 by lia. rewrite seqZ_app, filter_app by lia. f_equal.
  rewrite Z.add_0_l, seqZ_app by lia. change (seqZ k 1) with [k]. cbn [app]. rewrite filter_cons. destruct (decide (0 < cnt k l)); done.
Qed.

Lemma nz_before_cons k l : nz_before k (k :: l) = nz_before k l.
Proof. unfold nz_before. apply filter_ext_in. intros j Hj%elem_of_seqZ. rewrite cnt_cons, decide_False by lia. done. Qed.
Lemma nz_behind_cons K k l : nz_behind K k (k :: l) = nz_behind K k l.
Proof. unfold nz_behind. apply filter_ext_in. intros j Hj%elem_of_seqZ. rewrite cnt_cons, decide_False by lia. done. Qed.

Lemma nz_before_lt k l : Forall (fun j => j < k) (nz_before k l).
Proof. apply Forall_forall. intros j Hj. unfold nz_before in Hj. apply list_elem_of_filter in Hj as [_ Hj%elem_of_seqZ]. lia. Qed.
Lemma nz_behind_gt K k l : Forall (fun j => k < j) (nz_behind K k l).
Proof. apply Forall_forall. intros j Hj. unfold nz_behind in Hj. apply list_elem_of_filter in Hj as [_ Hj%elem_of_seqZ]. lia. Qed.

Lemma lower_bound_at A B k : Forall (fun j => j < k) A -> Forall (fun j => k <= j) B -> lower_bound (A ++ B) k = Ret (blen A).
Proof.
  intros HA HB. unfold lower_bound.
  assert (Hc : count_less (A ++ B) k = length A).
  { unfold count_less. rewrite filter_app, length_app, filter_all, filter_none; [cbn; lia| |].
    - intros x Hx. rewrite Forall_forall in HB. specialize (HB x Hx). lia.
    - intros x Hx. rewrite Forall_forall in HA. by apply HA. }
  rewrite Hc, take_app_length, drop_app_length, bool_decide_true by done. done.
Qed.
End COUNTS.

Section INVARIANT.
Context {F : Type} `{RL : RealLaws F}.
Add Ring F_ring_lda : ef_ring.
Context (p : params F) (base : Z -> Z) (n : Z).
Abbreviation K := (K_ p).
Hypothesis base_ok : forall k, 0 <= k < K -> 0 <= base k /\ base k + n < 2 ^ 31.

(** Everything as it follows from the topics [l] of the document. *)
Definition den (l : list Z) (k : Z) : F := f_add (f_of_Z (base k + cnt k l)) (beta_sum_ p).
Definition s_term (l : list Z) (k : Z) : F := f_div (f_mul (alpha_ p) (beta_ p)) (den l k).
Definition r_term (l : list Z) (k : Z) : F := f_div (f_mul (f_of_Z (cnt k l)) (beta_ p)) (den l k).
Definition q_coeff (l : list Z) (k : Z) : F := f_div (f_add (alpha_ p) (f_of_Z (cnt k l))) (den l k).

Record aux_ok (l : list Z) (a : FastDocSampler F) : Prop := {
  ao_vec : doc_topic_vec_ a = counts K l;
  ao_row : summary_row a = map (fun k => base k + cnt k l) (seqZ 0 K);
  ao_s : s_sum_ a = rsum (map (s_term l) (seqZ 0 K));
  ao_r : r_sum_ a = rsum (map (r_term l) (seqZ 0 K));
  ao_q : q_coeff_ a = map (q_coeff l) (seqZ 0 K);
  ao_num : num_nonzero_doc_topic_idx_ a = blen (topics_of K l);
  ao_idx : exists rest, nonzero_doc_topic_idx_ a = topics_of K l ++ rest /\ blen (topics_of K l ++ rest) = K;
  ao_terms : blen (nonzero_q_terms_ a) = K /\ blen (nonzero_q_terms_topic_ a) = K
}.

Lemma of_Z_0 : f_of_Z 0 = f_zero.
Proof.
  assert (E : f_of_Z (0 + 0) = f_add (f_of_Z 0) (f_of_Z 0)) by apply rl_of_Z_add. rewrite Z.add_0_r in E.
  transitivity (f_sub (f_add (f_of_Z 0) (f_of_Z 0)) (f_of_Z 0)); [ring|]. rewrite <- E. ring.
Qed.
Lemma of_Z_m1 (x : F) : f_sub x f_one = f_add x (f_of_Z (-1)).
Proof.
  assert (E : f_of_Z (-1 + 1) = f_add (f_of_Z (-1)) f_one) by (rewrite rl_of_Z_add, rl_of_Z_1; done). change (-1 + 1) with 0 in E. rewrite of_Z_0 in E.
  transitivity (f_add (f_sub x f_one) (f_add (f_of_Z (-1)) f_one)); [rewrite <- E; ring|ring].
Qed.

Lemma rsum_seqZ_update (f g : Z -> F) k : 0 <= k < K -> (forall j, j <> k -> f j = g j) ->
  rsum (map g (seqZ 0 K)) = f_add (f_sub (rsum (map f (seqZ 0 K))) (f k)) (g k).
Proof.
  intros Hk Hfg. rewrite <- (map_seqZ_update f g K k Hk Hfg). rewrite (rsum_insert _ _ (f k)) by (by apply lookup_map_seqZ). ring.
Qed.

Lemma vec_at_map_seqZ {A} (f : Z -> A) k : 0 <= k < K -> vec_at (map f (seqZ 0 K)) k = Ret (f k).
Proof. intros Hk. apply vec_at_Ret. split; [lia|]. by apply lookup_map_seqZ. Qed.
Lemma vec_set_map_seqZ {A} (f : Z -> A) k x : 0 <= k < K -> vec_set (map f (seqZ 0 K)) k x = Ret (<[Z.to_nat k := x]> (map f (seqZ 0 K))).
Proof. intros Hk. unfold vec_set. rewrite bool_decide_true; [done|]. rewrite length_map, length_seqZ. lia. Qed.

Definition one_more (k delta : Z) (l l' : list Z) : Prop := cnt k l' = cnt k l + delta /\ (forall j, j <> k -> cnt j l = cnt j l') /\ blen l <= n /\ blen l' <= n.

Lemma adjust_buckets_ok l l' k delta a : aux_ok l a -> 0 <= k < K -> delta = 1 \/ delta = -1 -> one_more k delta l l' ->
  adjust_buckets p k delta a =
  Ret (set_q_coeff (map (q_coeff l') (seqZ 0 K)) (set_sums (rsum (map (s_term l') (seqZ 0 K))) (rsum (map (r_term l') (seqZ 0 K))) a)).
Proof.
  intros [Hvec Hrow Hs Hr Hq _ _ _] Hk Hdelta (Hck & Hcj & Hl & Hl'). destruct (base_ok k Hk) as [Hb0 Hb1]. pose proof (cnt_bounds k l). pose proof (cnt_bounds k l').
  assert (Hby : forall x, (if bool_decide (delta = 1) then f_add x f_one else f_sub x f_one) = f_add x (f_of_Z delta)).
  { intros x. destruct Hdelta as [-> | ->]; [by rewrite bool_decide_true, rl_of_Z_1|]. rewrite bool_decide_false by lia. apply of_Z_m1. }
  unfold adjust_buckets, denominator. rewrite Hrow, Hvec, Hq. unfold counts. rewrite !vec_at_map_seqZ by done. cbn [mbind outcome_bind]. rewrite !Hby.
  rewrite vec_set_map_seqZ by done. cbn [mbind outcome_bind]. rewrite i32_id by (unfold in_i32; lia). fold (den l k).
  assert (Hden : f_add (den l k) (f_of_Z delta) = den l' k) by (unfold den; rewrite Hck, Z.add_assoc, (rl_of_Z_add (base k + cnt k l)); ring).
  assert (Hdj : forall j, j <> k -> den l j = den l' j) by (intros j Hj; unfold den; by rewrite Hcj).
  rewrite Hden, <- Hck. f_equal. f_equal.
  - rewrite <- (map_seqZ_update (q_coeff l) (q_coeff l') K k Hk); [|intros j Hj; unfold q_coeff; by rewrite Hcj, Hdj]. f_equal.
    unfold q_coeff. f_equal. rewrite Hck, rl_of_Z_add. ring.
  - f_equal.
    + rewrite (rsum_seqZ_update (s_term l) (s_term l') k Hk); [by rewrite Hs|]. intros j Hj. unfold s_term. by rewrite Hdj.
    + rewrite (rsum_seqZ_update (r_term l) (r_term l') k Hk); [by rewrite Hr|]. intros j Hj. unfold r_term. by rewrite Hdj, Hcj.
Qed.

(** ** The sorted array *)

Lemma memmove_down (A B rest : list Z) k : memmove (blen A) (blen A + 1) (blen B) (A ++ k :: B ++ rest) = Ret ((A ++ B) ++ drop (length B) (k :: B ++ rest)).
Proof.
  unfold memmove, blen. rewrite bool_decide_true by (rewrite !length_app; cbn [length]; rewrite !length_app; lia). f_equal. rewrite <- app_assoc. f_equal.
  - rewrite Nat2Z.id. apply take_app_length.
  - f_equal.
    + replace (Z.to_nat (Z.of_nat (length A) + 1)) with (length (A ++ [k])) by (rewrite length_app; cbn; lia).
      rewrite (cons_middle k A (B ++ rest)), app_assoc, drop_app_length, Nat2Z.id, take_app_length. done.
    + replace (Z.to_nat (Z.of_nat (length A) + Z.of_nat (length B))) with ((length A + length B)%nat) by lia. by rewrite <- drop_drop, drop_app_length.
Qed.

Lemma memmove_up (A B rest : list Z) r : memmove (blen A + 1) (blen A) (blen B) (A ++ B ++ r :: rest) =
  Ret (A ++ take 1 (B ++ r :: rest) ++ B ++ rest).
Proof.
  unfold memmove, blen. rewrite bool_decide_true by (rewrite !length_app; cbn [length]; lia). f_equal.
  replace (Z.to_nat (Z.of_nat (length A) + 1)) with ((length A + 1)%nat) by lia. rewrite take_app_add. rewrite <- app_assoc. do 2 f_equal. f_equal.
  - rewrite !Nat2Z.id, drop_app_length. apply take_app_length.
  - replace (Z.to_nat (Z.of_nat (length A) + 1 + Z.of_nat (length B))) with ((length A + (length B + 1))%nat) by lia.
    rewrite <- !drop_drop, !drop_app_length. done.
Qed.

Lemma counts_update l l' k delta : 0 <= k < K -> one_more k delta l l' -> <[Z.to_nat k := cnt k l + delta]> (counts K l) = counts K l'.
Proof. intros Hk (Hck & Hcj & _). unfold counts. rewrite <- Hck. by apply (map_seqZ_update (fun k => cnt k l) (fun k => cnt k l')). Qed.

Lemma topics_of_same l l' k delta : 0 <= k < K -> one_more k delta l l' -> (0 < cnt k l <-> 0 < cnt k l') -> topics_of K l' = topics_of K l.
Proof.
  intros Hk (_ & Hcj & _) Hiff. unfold topics_of. apply filter_ext_in. intros j _. destruct (decide (j = k)) as [->|Hne]; [tauto|]. by rewrite Hcj.
Qed.

Lemma nz_sides_same l l' k delta : one_more k delta l l' -> nz_before k l' = nz_before k l /\ nz_behind K k l' = nz_behind K k l.
Proof.
  intros (_ & Hcj & _). unfold nz_before, nz_behind. split; apply filter_ext_in; intros j Hj%elem_of_seqZ; rewrite Hcj; lia.
Qed.

(** The sums of [a] are already those of [l'], its counts still those of
    [l]. *)
Record half_ok (l l' : list Z) (a : FastDocSampler F) : Prop := {
  ho_vec : doc_topic_vec_ a = counts K l;
  ho_row : summary_row a = map (fun k => base k + cnt k l) (seqZ 0 K);
  ho_s : s_sum_ a = rsum (map (s_term l') (seqZ 0 K));
  ho_r : r_sum_ a = rsum (map (r_term l') (seqZ 0 K));
  ho_q : q_coeff_ a = map (q_coeff l') (seqZ 0 K);
  ho_num : num_nonzero_doc_topic_idx_ a = blen (topics_of K l);
  ho_idx : exists rest, nonzero_doc_topic_idx_ a = topics_of K l ++ rest /\ blen (topics_of K l ++ rest) = K;
  ho_terms : blen (nonzero_q_terms_ a) = K /\ blen (nonzero_q_terms_topic_ a) = K
}.

Lemma finish_ok l l' k delta a vec idx : half_ok l l' a -> 0 <= k < K -> one_more k delta l l' -> vec = counts K l' ->
  (exists rest, idx = topics_of K l' ++ rest /\ blen (topics_of K l' ++ rest) = K) ->
  exists a', summary_ThreadInc k delta (set_doc_topics vec idx (blen (topics_of K l')) a) = Ret a' /\ aux_ok l' a' /\ q_sum_ a' = q_sum_ a /\
    nonzero_q_terms_ a' = nonzero_q_terms_ a /\ nonzero_q_terms_topic_ a' = nonzero_q_terms_topic_ a /\ num_nonzero_q_terms_ a' = num_nonzero_q_terms_ a.
Proof.
  intros [Hvec Hrow Hs Hr Hq Hnum _ Ht] Hk Hone -> Hidx. destruct (base_ok k Hk) as [Hb0 Hb1]. pose proof Hone as (Hck & Hcj & Hl & Hl').
  pose proof (cnt_bounds k l). pose proof (cnt_bounds k l').
  unfold summary_ThreadInc. cbn [summary_row set_doc_topics]. rewrite Hrow, vec_at_map_seqZ by done. cbn [mbind outcome_bind]. rewrite vec_set_map_seqZ by done. cbn [mbind outcome_bind].
  eexists. split; [reflexivity|]. split; [|done]. constructor; cbn; try done.
  rewrite i32_id by (unfold in_i32; lia). rewrite <- Z.add_assoc, <- Hck.
  apply (map_seqZ_update (fun k => base k + cnt k l) (fun k => base k + cnt k l')); [done|]. intros j Hj. by rewrite Hcj.
Qed.

(** A topic leaves the counts. *)
Lemma remove_ok l l' k a : half_ok l l' a -> 0 <= k < K -> one_more k (-1) l l' -> 0 < cnt k l ->
  exists a', (a1 ← remove_doc_topic k a; summary_ThreadInc k (-1) a1) = Ret a' /\ aux_ok l' a' /\ q_sum_ a' = q_sum_ a /\
    nonzero_q_terms_ a' = nonzero_q_terms_ a /\ nonzero_q_terms_topic_ a' = nonzero_q_terms_topic_ a /\ num_nonzero_q_terms_ a' = num_nonzero_q_terms_ a.
Proof.
  intros Ha Hk Hone Hpos. pose proof Ha as [Hvec Hrow Hs Hr Hq Hnum (rest & Hidx & Hlen) Ht]. destruct (base_ok k Hk) as [Hb0 Hb1]. pose proof Hone as (Hck & Hcj & Hl & Hl').
  pose proof (cnt_bounds k l). pose proof (cnt_bounds k l'). unfold remove_doc_topic. rewrite Hvec. unfold counts. rewrite vec_at_map_seqZ by done. cbn [mbind outcome_bind].
  rewrite vec_set_map_seqZ by done. cbn [mbind outcome_bind]. rewrite i32_id by (unfold in_i32; lia). fold (counts K l).
  pose proof (counts_update l l' k (-1) Hk Hone) as Ecu. change (cnt k l + -1) with (cnt k l - 1) in Ecu. rewrite Ecu.
  destruct (decide (cnt k l - 1 = 0)) as [Hz|Hnz].
  - rewrite bool_decide_true by done. destruct (nz_sides_same l l' k (-1) Hone) as [EA EB].
    set (A := nz_before k l) in *. set (B := nz_behind K k l) in *.
    assert (En : topics_of K l = A ++ k :: B) by (rewrite (topics_of_split K k l Hk), decide_True by lia; done).
    assert (En' : topics_of K l' = A ++ B) by (rewrite (topics_of_split K k l' Hk), decide_False, EA, EB by lia; done).
    rewrite Hnum, Hidx, blen_nat, take_app_length, En.
    rewrite lower_bound_at; [|apply nz_before_lt|constructor; [lia|eapply Forall_impl; [apply nz_behind_gt|cbn; lia]]]. cbn [mbind outcome_bind].
    replace (blen (A ++ k :: B) - blen A - 1) with (blen B) by (unfold blen; rewrite length_app; cbn [length]; lia).
    rewrite <- app_assoc. cbn [app]. rewrite memmove_down. cbn [mbind outcome_bind].
    replace (blen (A ++ k :: B) - 1) with (blen (topics_of K l')) by (rewrite En'; unfold blen; rewrite !length_app; cbn [length]; lia).
    apply (finish_ok l); [done..|]. rewrite En'. eexists. split; [reflexivity|]. rewrite En, <- app_assoc in Hlen. rewrite <- Hlen. unfold blen.
    rewrite !length_app, length_drop. cbn [length]. rewrite !length_app. lia.
  - rewrite bool_decide_false by done. cbn [mbind outcome_bind]. rewrite Hnum, <- (topics_of_same l l' k (-1) Hk Hone) by lia. apply (finish_ok l); [done..|].
    exists rest. rewrite (topics_of_same l l' k (-1) Hk Hone) by lia. done.
Qed.

(** A topic enters the counts. *)
Lemma add_ok l l' k a : half_ok l l' a -> 0 <= k < K -> one_more k 1 l l' ->
  exists a', (a1 ← add_doc_topic k a; summary_ThreadInc k 1 a1) = Ret a' /\ aux_ok l' a'.
Proof.
  intros Ha Hk Hone. pose proof Ha as [Hvec Hrow Hs Hr Hq Hnum (rest & Hidx & Hlen) Ht]. destruct (base_ok k Hk) as [Hb0 Hb1]. pose proof Hone as (Hck & Hcj & Hl & Hl').
  pose proof (cnt_bounds k l). pose proof (cnt_bounds k l'). unfold add_doc_topic. rewrite Hvec. unfold counts. rewrite vec_at_map_seqZ by done. cbn [mbind outcome_bind].
  rewrite vec_set_map_seqZ by done. cbn [mbind outcome_bind]. rewrite i32_id by (unfold in_i32; lia). fold (counts K l).
  rewrite (counts_update l l' k 1 Hk Hone). destruct (decide (cnt k l + 1 = 1)) as [Hz|Hnz].
  - rewrite bool_decide_true by done. destruct (nz_sides_same l l' k 1 Hone) as [EA EB].
    set (A := nz_before k l) in *. set (B := nz_behind K k l) in *.
    assert (En : topics_of K l = A ++ B) by (rewrite (topics_of_split K k l Hk), decide_False by lia; done).
    assert (En' : topics_of K l' = A ++ k :: B) by (rewrite (topics_of_split K k l' Hk), decide_True, EA, EB by lia; done).
    assert (Hroom : (length (topics_of K l') <= Z.to_nat K)%nat) by (unfold topics_of; etrans; [apply length_filter|]; rewrite length_seqZ; lia).
    destruct rest as [|r rest].
    { rewrite En', length_app in Hroom. rewrite En, app_nil_r in Hlen. unfold blen in Hlen. rewrite length_app in Hlen. cbn [length] in Hroom. lia. }
    rewrite Hnum, Hidx, blen_nat, take_app_length, En.
    rewrite lower_bound_at; [|apply nz_before_lt|eapply Forall_impl; [apply nz_behind_gt|cbn; lia]]. cbn [mbind outcome_bind].
    replace (blen (A ++ B) - blen A) with (blen B) by (unfold blen; rewrite length_app; lia).
    rewrite <- app_assoc, memmove_up. cbn [mbind outcome_bind].
    assert (Ht1 : exists x, take 1 (B ++ r :: rest) = [x]) by (destruct B as [|b B']; by eexists). destruct Ht1 as (x & ->).
    unfold vec_set. rewrite bool_decide_true by (unfold blen; rewrite !length_app; cbn [length]; lia). cbn [mbind outcome_bind].
    rewrite blen_nat, <- (Nat.add_0_r (length A)), insert_app_r. cbn [app insert list_insert].
    replace (blen (A ++ B) + 1) with (blen (topics_of K l')) by (rewrite En'; unfold blen; rewrite !length_app; cbn [length]; lia).
    destruct (finish_ok l l' k 1 a (counts K l') (A ++ k :: B ++ rest)) as (a' & E & Hok & _); [done..| |by exists a'].
    rewrite En'. exists rest. rewrite <- app_assoc. split; [done|]. rewrite <- Hlen, En. unfold blen. rewrite !length_app. cbn [length]. rewrite ?length_app. cbn [length]. lia.
  - rewrite bool_decide_false by done. cbn [mbind outcome_bind]. rewrite Hnum, <- (topics_of_same l l' k 1 Hk Hone) by lia.
    destruct (finish_ok l l' k 1 a (counts K l') (nonzero_doc_topic_idx_ a)) as (a' & E & Hok & _); [done..| |by exists a'].
    exists rest. rewrite (topics_of_same l l' k 1 Hk Hone) by lia. done.
Qed.

(** ** The draw *)

Lemma aux_half l l' k delta a : aux_ok l a -> 0 <= k < K -> delta = 1 \/ delta = -1 -> one_more k delta l l' ->
  exists a1, adjust_buckets p k delta a = Ret a1 /\ half_ok l l' a1 /\ nonzero_q_terms_topic_ a1 = nonzero_q_terms_topic_ a /\
    num_nonzero_q_terms_ a1 = num_nonzero_q_terms_ a.
Proof.
  intros Ha Hk Hd Hone. eexists. split; [by apply (adjust_buckets_ok l l')|]. split; [|done]. destruct Ha. by constructor.
Qed.

Definition row_ok (row : list (Z * Z)) : Prop := Forall (fun e => 0 <= e.1 < K) row /\ blen row <= K.

Lemma compute_q_ok l a row old_topic : aux_ok l a -> row_ok row -> exists a', compute_q old_topic row a = Ret a' /\ aux_ok l a' /\
  num_nonzero_q_terms_ a' = blen row /\ (exists rest, nonzero_q_terms_topic_ a' = map fst row ++ rest) /\ (row = [] -> q_sum_ a' = f_zero).
Proof.
  intros Ha [Hrow Hlen]. unfold compute_q.
  assert (Hgen : forall row2 done_ a1, aux_ok l a1 -> row = done_ ++ row2 -> num_nonzero_q_terms_ a1 = blen done_ -> (exists rest, nonzero_q_terms_topic_ a1 = map fst done_ ++ rest) ->
    exists a', foldM (q_term old_topic) row2 a1 = Ret a' /\ aux_ok l a' /\ num_nonzero_q_terms_ a' = blen row /\
      (exists rest, nonzero_q_terms_topic_ a' = map fst row ++ rest) /\ (row2 = [] -> q_sum_ a' = q_sum_ a1)).
  { induction row2 as [|[topic count] row2 IH]; intros done_ a1 Ha1 Er Hn (rest & Ht).
    - exists a1. rewrite app_nil_r in Er. subst done_. split_and!; [done..|by exists rest|done].
    - destruct Ha1 as [Hvec Hrw Hs Hr Hq Hnum Hidx [Hl1 Hl2]]. assert (Htop : 0 <= topic < K) by (rewrite Forall_forall in Hrow; apply (Hrow (topic, count)); set_solver).
      assert (Hd : blen done_ < K) by (rewrite Er in Hlen; unfold blen in *; rewrite length_app in Hlen; cbn in Hlen; lia).
      assert (Eq : exists x t, q_term old_topic a1 (topic, count) =
          Ret (set_q_terms x t (<[Z.to_nat (blen done_) := topic]> (nonzero_q_terms_topic_ a1)) (blen done_ + 1) a1) /\ blen t = K).
      { unfold q_term. rewrite Hq, vec_at_map_seqZ by done. cbn [mbind outcome_bind]. rewrite Hn, !vec_set_blen by (unfold blen in *; lia). cbn [mbind outcome_bind].
        do 2 eexists. split; [reflexivity|]. unfold blen in *. by rewrite length_insert. }
      destruct Eq as (x & t & Eq & Hlt). cbn [foldM]. rewrite Eq. cbn [mbind outcome_bind].
      set (a2 := set_q_terms x t (<[Z.to_nat (blen done_) := topic]> (nonzero_q_terms_topic_ a1)) (blen done_ + 1) a1).
      destruct (IH (done_ ++ [(topic, count)]) a2) as (a' & E & Ha' & Hn' & Ht' & _).
      + constructor; cbn; try done. unfold blen in *. by rewrite !length_insert.
      + by rewrite <- app_assoc.
      + cbn. unfold blen. rewrite length_app. cbn. lia.
      + cbn. rewrite Ht in Hl2 |- *. destruct rest as [|y rest]; [unfold blen in *; rewrite length_app, length_map in Hl2; cbn in Hl2; lia|].
        exists rest. rewrite blen_nat, <- (length_map fst), <- (Nat.add_0_r (length (map fst done_))), insert_app_r, map_app, <- app_assoc. done.
      + exists a'. split_and!; done. }
  destruct (Hgen row [] (set_q_terms f_zero (nonzero_q_terms_ a) (nonzero_q_terms_topic_ a) 0 a)) as (a' & E & H1 & H2 & H3 & H4); [destruct Ha; by constructor|done|done|by eexists|].
  exists a'. split_and!; [done..|]. intros Hnil. by rewrite (H4 Hnil).
Qed.

Lemma scan_terms_in (terms : list (Z * F)) sample k : scan_terms terms sample = Some k -> k ∈ map fst terms.
Proof.
  revert sample. induction terms as [|[t x] terms IH]; intros sample E; cbn in E; [done|]. cbn [map fst].
  destruct (f_leb (f_sub sample x) f_zero); [injection E as <-; by left|right; by eapply IH].
Qed.

Hypothesis beta_sum_pos : f_ltb f_zero (beta_sum_ p) = true.
Hypothesis priors_nonneg : f_leb f_zero (alpha_ p) = true /\ f_leb f_zero (beta_ p) = true.

Lemma leb_0_0 : f_leb f_zero f_zero = true.
Proof. rewrite <- of_Z_0 at 2. apply rl_of_Z. lia. Qed.

Lemma rsum_nonneg (l : list F) : Forall (fun x => f_leb f_zero x = true) l -> f_leb f_zero (rsum l) = true.
Proof. induction 1 as [|x l Hx _ IH]; [apply leb_0_0|]. rewrite rsum_cons. by apply rl_add. Qed.

Lemma den_pos l k : 0 <= k < K -> f_ltb f_zero (den l k) = true.
Proof. intros Hk. unfold den. apply rl_pos; [|done]. apply rl_of_Z. destruct (base_ok k Hk). pose proof (cnt_bounds k l). lia. Qed.

Lemma sums_nonneg l a : aux_ok l a -> f_leb f_zero (s_sum_ a) = true /\ f_leb f_zero (r_sum_ a) = true.
Proof.
  intros [_ _ -> -> _ _ _ _]. destruct priors_nonneg. split; apply rsum_nonneg, Forall_map, Forall_forall; intros k Hk%elem_of_seqZ.
  - apply rl_div; [by apply rl_mul|apply den_pos; lia].
  - apply rl_div; [|apply den_pos; lia]. apply rl_mul; [|done]. apply rl_of_Z. apply cnt_bounds.
Qed.

Lemma r_sum_zero l a : aux_ok l a -> topics_of K l = [] -> r_sum_ a = f_zero.
Proof.
  intros [_ _ _ -> _ _ _ _] Hn. assert (Hz : forall k, k ∈ seqZ 0 K -> r_term l k = f_zero).
  { intros k Hk. assert (cnt k l = 0) as E.
    { pose proof (cnt_bounds k l). destruct (decide (0 < cnt k l)) as [Hp|]; [|lia]. assert (Hin : k ∈ topics_of K l) by (unfold topics_of; by apply list_elem_of_filter).
      rewrite Hn in Hin. by apply elem_of_nil in Hin. }
    unfold r_term. rewrite E, of_Z_0. replace (f_mul f_zero (beta_ p)) with f_zero by ring. apply rl_div_zero. }
  revert Hz. generalize (seqZ 0 K). intros ks. induction ks as [|k ks IH]; intros Hz; [done|]. cbn [map]. rewrite rsum_cons, Hz by (by left).
  rewrite IH; [ring|]. intros j Hj. apply Hz. by right.
Qed.

Lemma nonneg_not_neg (x : F) : f_leb f_zero x = true -> f_ltb x f_zero = false.
Proof. intros E. unfold f_ltb. rewrite E. apply andb_false_r. Qed.

(** A bucket of [topics] draws one of them. *)
Lemma bucket_in (topics : list Z) (terms : list (Z * F)) sample (fallback : outcome Z) : map fst terms = topics -> (exists k, fallback = Ret k /\ k ∈ topics) ->
  exists k, match scan_terms terms sample with Some k => Ret k | None => fallback end = Ret k /\ k ∈ topics.
Proof.
  intros <- Hf. destruct (scan_terms terms sample) as [k|] eqn:E; [|done]. exists k. split; [done|]. by eapply scan_terms_in.
Qed.

Lemma prefix_at (l rest : list Z) i : 0 <= i < blen l -> exists x, vec_at (l ++ rest) i = Ret x /\ l !! Z.to_nat i = Some x /\ x ∈ l.
Proof.
  intros Hi. unfold blen in Hi. destruct (lookup_lt_is_Some_2 l (Z.to_nat i)) as (x & Hx); [lia|]. exists x. split_and!; [|done|by eapply list_elem_of_lookup_2].
  apply vec_at_Ret. split; [lia|]. rewrite lookup_app_l by (by eapply lookup_lt_Some). done.
Qed.

Lemma Sample_ok l a row dart : aux_ok l a -> 0 < K -> row_ok row -> num_nonzero_q_terms_ a = blen row ->
  (exists rest, nonzero_q_terms_topic_ a = map fst row ++ rest) -> (row = [] -> q_sum_ a = f_zero) -> f_leb f_zero dart = true ->
  exists k, Sample p dart a = Ret k /\ 0 <= k < K.
Proof.
  intros Ha HK [Hrow Hlen] Hn (rest & Ht) Hq0 Hdart. destruct (sums_nonneg l a Ha) as [Hs Hr]. pose proof Ha as [Hvec Hrw _ _ _ Hnum (irest & Hidx & Hil) [Hl1 Hl2]].
  assert (Hrange : forall topics, Forall (fun k => 0 <= k < K) topics -> forall o : outcome Z, (exists k, o = Ret k /\ k ∈ topics) -> exists k, o = Ret k /\ 0 <= k < K).
  { intros topics Hf o (k & E & Hk). exists k. split; [done|]. rewrite Forall_forall in Hf. by apply Hf. }
  unfold Sample. destruct (f_ltb (f_mul dart (f_add (f_add (q_sum_ a) (r_sum_ a)) (s_sum_ a))) (q_sum_ a)) eqn:E1.
  - destruct (decide (row = [])) as [->|Hne].
    { exfalso. rewrite (Hq0 eq_refl) in E1. rewrite nonneg_not_neg in E1; [done|]. apply rl_mul; [done|]. apply rl_add; [|done]. apply rl_add; [apply leb_0_0|done]. }
    apply (Hrange (map fst row)); [by apply Forall_map|]. unfold q_bucket. rewrite Hn.
    assert (Hterms : exists terms, mapM (fun i => t ← vec_at (nonzero_q_terms_ a) i; k ← vec_at (nonzero_q_terms_topic_ a) i; Ret (k, t)) (seqZ 0 (blen row)) = Ret terms /\ map fst terms = map fst row).
    { exists (zip (map fst row) (nonzero_q_terms_ a)). split.
      - apply mapM_total. apply Forall2_same_length_lookup. assert (Hz : length (zip (map fst row) (nonzero_q_terms_ a)) = length row) by (rewrite length_zip_with, length_map; unfold blen in *; lia).
        split; [rewrite Hz, length_seqZ; apply blen_nat|]. intros i x [k t] Hx%lookup_seqZ Hy. destruct Hx as [-> Hi]. apply lookup_zip_Some in Hy as [Hk Htt]. rewrite Z.add_0_l.
        rewrite (vec_at_nat (nonzero_q_terms_ a) i t) by done. cbn [mbind outcome_bind].
        rewrite Ht, (proj2 (vec_at_Ret (map fst row ++ rest) (Z.of_nat i) k)); [done|]. rewrite Nat2Z.id. split; [lia|]. by apply lookup_app_l_Some.
      - change (map fst (zip ?x ?y)) with ((zip x y).*1). apply fst_zip. rewrite length_map. unfold blen in *. lia. }
    destruct Hterms as (terms & -> & Hterms). cbn [mbind outcome_bind]. apply bucket_in; [done|]. rewrite Ht.
    assert (Hpos : 0 < blen row) by (destruct row; [done|unfold blen; cbn; lia]).
    destruct (prefix_at (map fst row) rest (blen row - 1)) as (x & Hx & _ & Hin); [unfold blen in *; rewrite length_map; lia|]. by exists x.
  - match goal with |- context [f_sub ?x (q_sum_ a)] => set (sample1 := f_sub x (q_sum_ a)) end. destruct (f_ltb sample1 (r_sum_ a)) eqn:E2.
    + assert (Hne : topics_of K l <> []).
      { intros Hnil. rewrite (r_sum_zero l a Ha Hnil) in E2. unfold sample1 in E2. rewrite rl_ltb_sub in E2; [done|exact E1]. }
      assert (Hin : Forall (fun k => 0 <= k < K) (topics_of K l)).
      { apply Forall_forall. intros k Hk. unfold topics_of in Hk. apply list_elem_of_filter in Hk as [_ Hk%elem_of_seqZ]. lia. }
      apply (Hrange (topics_of K l)); [exact Hin|]. unfold r_bucket. rewrite Hnum.
      rewrite (mapM_total _ _ (map (fun k => (k, f_div (f_of_Z (cnt k l)) (den l k))) (topics_of K l))).
      * cbn [mbind outcome_bind]. apply bucket_in; [rewrite map_map; apply map_id|]. rewrite Hidx.
        destruct (prefix_at (topics_of K l) irest (blen (topics_of K l) - 1)) as (x & Hx & _ & Hxi); [|by exists x].
        destruct (topics_of K l); [done|]. unfold blen. cbn [length]. lia.
      * apply Forall2_same_length_lookup. split; [rewrite length_seqZ, length_map; apply blen_nat|]. intros i x y Hx%lookup_seqZ Hy. destruct Hx as [-> Hi]. rewrite Z.add_0_l.
        change (map ?f (topics_of K l)) with (f <$> topics_of K l) in Hy. apply list_lookup_fmap_Some in Hy as (k & -> & Hk).
        rewrite Hidx, (proj2 (vec_at_Ret (topics_of K l ++ irest) (Z.of_nat i) k)) by (rewrite Nat2Z.id; split; [lia|by apply lookup_app_l_Some]). cbn [mbind outcome_bind].
        pose proof (Forall_lookup_1 _ _ _ _ Hin Hk) as Hkr. cbn beta in Hkr. unfold denominator. rewrite Hvec, Hrw. unfold counts. rewrite !vec_at_map_seqZ by done. done.
    + unfold s_bucket. rewrite (mapM_pure _ (fun k => (k, f_div f_one (den l k)))).
      * cbn [mbind outcome_bind]. match goal with |- context [scan_terms ?t ?x] => destruct (scan_terms t x) as [k|] eqn:Es end.
        -- exists k. split; [done|]. apply scan_terms_in in Es. rewrite map_map in Es. cbn [fst] in Es. rewrite map_id in Es. apply elem_of_seqZ in Es. lia.
        -- exists (K - 1). split; [done|lia].
      * intros k Hk%elem_of_seqZ. unfold denominator. rewrite Hrw, vec_at_map_seqZ by lia. done.
Qed.

(** ** A token *)

Lemma aux_ok_perm l l' a : l ≡ₚ l' -> aux_ok l a -> aux_ok l' a.
Proof.
  intros Hp [Hvec Hrow Hs Hr Hq Hnum Hidx Ht]. assert (Hc : forall k, cnt k l = cnt k l') by (intros k; by apply cnt_perm).
  assert (Hn : topics_of K l = topics_of K l') by (unfold topics_of; apply filter_ext_in; intros k _; by rewrite Hc).
  assert (Hd : forall k, den l k = den l' k) by (intros k; unfold den; by rewrite Hc).
  constructor; rewrite <- ?Hn; try done.
  - rewrite Hvec. unfold counts. apply map_ext. done.
  - rewrite Hrow. apply map_ext. intros k. by rewrite Hc.
  - rewrite Hs. f_equal. apply map_ext. intros k. unfold s_term. by rewrite Hd.
  - rewrite Hr. f_equal. apply map_ext. intros k. unfold r_term. by rewrite Hd, Hc.
  - rewrite Hq. apply map_ext. intros k. unfold q_coeff. by rewrite Hd, Hc.
Qed.
End INVARIANT.

(** What updates add up to. *)
Definition summary_delta (k : Z) (us : list update) : Z :=
  foldr (fun u s => match u with SummaryInc t d => if bool_decide (t = k) then d + s else s | WordTopicBatchInc _ _ => s end) 0 us.
Definition batch_delta (k : Z) (batch : list (Z * Z)) : Z := foldr (fun e s => if bool_decide (e.1 = k) then e.2 + s else s) 0 batch.
Definition word_delta (w k : Z) (us : list update) : Z :=
  foldr (fun u s => match u with WordTopicBatchInc w' b => if bool_decide (w' = w) then batch_delta k b + s else s | SummaryInc _ _ => s end) 0 us.

(** The tokens of word [w] with topic [k]. *)
Definition cnt2 (w k : Z) (d : LDADoc) : Z := Z.of_nat (length (filter (fun e => e = (w, k)) (zip (tokens_ d) (token_topics_ d)))).

Record doc_ok (K n : Z) (d : LDADoc) : Prop := {
  dc_len : length (token_topics_ d) = length (tokens_ d);
  dc_topics : Forall (fun k => 0 <= k < K) (token_topics_ d);
  dc_n : blen (tokens_ d) <= n
}.

Record updates_match (d d' : LDADoc) (us : list update) : Prop := {
  um_summary : forall k, summary_delta k us = cnt k (token_topics_ d') - cnt k (token_topics_ d);
  um_words : forall w k, word_delta w k us = cnt2 w k d' - cnt2 w k d
}.

Section UPDATES.
Lemma summary_delta_app k us us' : summary_delta k (us ++ us') = summary_delta k us + summary_delta k us'.
Proof. induction us as [|[t d|w b] us IH]; cbn; [done| |done]. change (foldr _ 0 ?l) with (summary_delta k l). rewrite IH. case_bool_decide; lia. Qed.
Lemma word_delta_app w k us us' : word_delta w k (us ++ us') = word_delta w k us + word_delta w k us'.
Proof. induction us as [|[t d|w' b] us IH]; cbn; [done|done|]. change (foldr _ 0 ?l) with (word_delta w k l). rewrite IH. case_bool_decide; lia. Qed.

Lemma updates_match_trans d d1 d2 us us' : updates_match d d1 us -> updates_match d1 d2 us' -> updates_match d d2 (us ++ us').
Proof. intros [H1 H2] [H3 H4]. split; intros; rewrite ?summary_delta_app, ?word_delta_app, ?H1, ?H2, ?H3, ?H4; lia. Qed.

Lemma insert_perm {A} (l : list A) i y : (i < length l)%nat -> <[i := y]> l ≡ₚ y :: delete i l.
Proof.
  intros Hi. rewrite (delete_Permutation (<[i := y]> l) i y) by (by apply list_lookup_insert_eq). f_equiv.
  rewrite !delete_take_drop, take_insert_ge, drop_insert_lt by lia. done.
Qed.

Lemma count_insert {A} `{EqDecision A} (l : list A) i x y z : l !! i = Some x ->
  Z.of_nat (length (filter (fun e => e = z) (<[i := y]> l))) = Z.of_nat (length (filter (fun e => e = z) l)) + (if decide (y = z) then 1 else 0) - (if decide (x = z) then 1 else 0).
Proof.
  intros Hx. rewrite insert_perm by (by eapply lookup_lt_Some). rewrite (delete_Permutation l i x Hx) at 2. rewrite !filter_cons.
  destruct (decide (y = z)), (decide (x = z)); cbn [length]; lia.
Qed.

(** A token goes from one topic to another. *)
Lemma updates_match_token d it w old new : length (token_topics_ d) = length (tokens_ d) -> tokens_ d !! it = Some w -> token_topics_ d !! it = Some old -> old <> new ->
  updates_match d (mkdoc (tokens_ d) (<[it := new]> (token_topics_ d)) (num_topics_ d))
    [SummaryInc old (-1); SummaryInc new 1; WordTopicBatchInc w [(old, -1); (new, 1)]].
Proof.
  intros Hlen Hw Ho Hne. split; cbn [token_topics_].
  - intros k. unfold cnt. rewrite (count_insert _ _ old) by done. cbn. repeat case_bool_decide; repeat destruct (decide _); subst; try done; lia.
  - intros w' k. unfold cnt2. cbn [tokens_ token_topics_].
    replace (zip (tokens_ d) (<[it := new]> (token_topics_ d))) with (<[it := (w, new)]> (zip (tokens_ d) (token_topics_ d))).
    + rewrite (count_insert _ _ (w, old)) by (apply lookup_zip_Some; done). cbn.
      repeat case_bool_decide; repeat destruct (decide _); simplify_eq; try done; lia.
    + rewrite insert_zip_with. by rewrite list_insert_id.
Qed.

Lemma updates_match_same d t : updates_match d d [SummaryInc t (-1); SummaryInc t 1].
Proof. split; intros; cbn; [case_bool_decide|]; lia. Qed.
End UPDATES.

Section DOCUMENT.
Context {F : Type} `{RL : RealLaws F}.
Add Ring F_ring_lda_doc : ef_ring.
Context (p : params F).
Abbreviation K := (K_ p).

(** The priors of a model. *)
Record priors_ok : Prop := {
  po_K : 0 < K;
  po_beta_sum : f_ltb f_zero (beta_sum_ p) = true;
  po_alpha : f_leb f_zero (alpha_ p) = true;
  po_beta : f_leb f_zero (beta_ p) = true
}.

Definition base_fits (base : Z -> Z) (n : Z) : Prop := forall k, 0 <= k < K -> 0 <= base k /\ base k + n < 2 ^ 31.

Lemma sample_token_ok base n row dart it a d out : priors_ok -> base_fits base n -> doc_ok K n d -> aux_ok p base (token_topics_ d) a ->
  row_ok p row -> f_leb f_zero dart = true -> (it < length (tokens_ d))%nat ->
  exists a' d' us, sample_token p row dart (Z.of_nat it) (a, d, out) = Ret (a', d', out ++ us) /\ aux_ok p base (token_topics_ d') a' /\ doc_ok K n d' /\
    tokens_ d' = tokens_ d /\ num_topics_ d' = num_topics_ d /\ updates_match d d' us.
Proof.
  intros [HK Hbs Hal Hbe] Hbase [Hlen Htop Hn] Ha Hrow Hdart Hit.
  destruct (lookup_lt_is_Some_2 (token_topics_ d) it) as (old & Hold); [lia|]. destruct (lookup_lt_is_Some_2 (tokens_ d) it Hit) as (w & Hw).
  pose proof (Forall_lookup_1 _ _ _ _ Htop Hold) as Hor. cbn beta in Hor. pose proof (delete_Permutation _ _ _ Hold) as Hperm.
  set (l := token_topics_ d) in *. set (rest := delete it l) in *.
  assert (Hlr : blen l = blen rest + 1) by (unfold blen; rewrite Hperm at 1; cbn [length]; lia).
  assert (Hln : blen l <= n) by (unfold blen in *; lia).
  assert (Hm1 : one_more n old (-1) l rest).
  { split_and!; [rewrite (cnt_perm old l (old :: rest) Hperm), cnt_cons, decide_True by done; lia| |done|lia].
    intros j Hj. rewrite (cnt_perm j l (old :: rest) Hperm), cnt_cons, decide_False by done. lia. }
  destruct (aux_half p base n Hbase l rest old (-1) a Ha Hor ltac:(by right) Hm1) as (a1 & E1 & Hh1 & _ & _).
  destruct (remove_ok p base n Hbase l rest old a1 Hh1 Hor Hm1) as (a3 & E2 & Ha3 & _); [apply cnt_pos; by eapply list_elem_of_lookup_2|].
  destruct (compute_q_ok p base n Hbase rest a3 row old Ha3 Hrow) as (a4 & E4 & Ha4 & Hn4 & Ht4 & Hq4).
  destruct (Sample_ok p base n Hbase Hbs (conj Hal Hbe) rest a4 row dart Ha4 HK Hrow Hn4 Ht4 Hq4 Hdart) as (new & E5 & Hnew).
  assert (Hm2 : one_more n new 1 rest (new :: rest)).
  { split_and!; [rewrite cnt_cons, decide_True by done; lia| |lia|unfold blen in *; cbn [length]; lia]. intros j Hj. rewrite cnt_cons, decide_False by done. lia. }
  destruct (aux_half p base n Hbase rest (new :: rest) new 1 a4 Ha4 Hnew ltac:(by left) Hm2) as (a5 & E6 & Hh5 & _ & _).
  destruct (add_ok p base n Hbase rest (new :: rest) new a5 Hh5 Hnew Hm2) as (a7 & E7 & Ha7).
  apply bind_Ret_inv in E2 as (a2 & E2 & E3). apply bind_Ret_inv in E7 as (a6 & E7 & E8).
  assert (Hrun : forall k : _ -> _ -> _ -> _ -> outcome (FastDocSampler F * LDADoc * list update),
    (old_topic ← it_Topic d (Z.of_nat it); _ ← CHECK (bool_decide (old_topic < K)); a1 ← adjust_buckets p old_topic (-1) a; a2 ← remove_doc_topic old_topic a1;
     a3 ← summary_ThreadInc old_topic (-1) a2; word ← it_Word d (Z.of_nat it); a4 ← compute_q old_topic row a3; new_topic ← Sample p dart a4;
     _ ← CHECK (bool_decide (new_topic < K)); a5 ← adjust_buckets p new_topic 1 a4; a6 ← add_doc_topic new_topic a5; a7 ← summary_ThreadInc new_topic 1 a6;
     k old_topic new_topic word a7) = k old new w a7).
  { intros k. unfold it_Topic, it_Word. rewrite (vec_at_nat (token_topics_ d) it old) by done. cbn [mbind outcome_bind].
    rewrite bool_decide_true by lia. cbn [CHECK mbind outcome_bind]. rewrite E1. cbn [mbind outcome_bind]. rewrite E2. cbn [mbind outcome_bind]. rewrite E3. cbn [mbind outcome_bind].
    rewrite (vec_at_nat (tokens_ d) it w) by done. cbn [mbind outcome_bind]. rewrite E4. cbn [mbind outcome_bind]. rewrite E5. cbn [mbind outcome_bind].
    rewrite bool_decide_true by lia. cbn [CHECK mbind outcome_bind]. rewrite E6. cbn [mbind outcome_bind]. rewrite E7. cbn [mbind outcome_bind]. by rewrite E8. }
  unfold sample_token. rewrite (Hrun (fun old_topic new_topic word a7 => let out' := out ++ [SummaryInc old_topic (-1); SummaryInc new_topic 1] in
    if bool_decide (old_topic <> new_topic) then
      d' ← it_SetTopic new_topic (Z.of_nat it) d; Ret (a7, d', out' ++ [WordTopicBatchInc word [(old_topic, -1); (new_topic, 1)]])
    else Ret (a7, d, out'))).
  clear Hrun. cbv zeta. destruct (decide (old = new)) as [<-|Hne].
  - rewrite bool_decide_false by tauto. exists a7, d, [SummaryInc old (-1); SummaryInc old 1]. split_and!; try done; [|apply updates_match_same].
    eapply aux_ok_perm; [|exact Ha7]. by symmetry.
  - rewrite bool_decide_true by done. unfold it_SetTopic, vec_set. rewrite bool_decide_true by (unfold l in *; lia). cbn [mbind outcome_bind]. rewrite Nat2Z.id, <- app_assoc.
    eexists a7, _, _. split; [reflexivity|]. split_and!; try done; cbn [token_topics_ tokens_].
    + eapply aux_ok_perm; [|exact Ha7]. symmetry. apply insert_perm. unfold l in *. lia.
    + constructor; cbn [token_topics_ tokens_]; [by rewrite length_insert|by apply Forall_insert|done].
    + by apply updates_match_token.
Qed.

(** ** Before the first token *)

Lemma counts_snoc l k : 0 <= k < K -> blen l + 1 < 2 ^ 31 -> (m ← vec_at (counts K l) k; vec_set (counts K l) k (i32 (m + 1))) = Ret (counts K (l ++ [k])).
Proof.
  intros Hk Hsmall. pose proof (cnt_bounds k l) as Hb. unfold counts. rewrite vec_at_map_seqZ by done. cbn [mbind outcome_bind]. rewrite vec_set_map_seqZ by done. f_equal.
  assert (Hc : forall j, cnt j (l ++ [k]) = cnt j l + (if decide (k = j) then 1 else 0)).
  { intros j. rewrite (cnt_perm j _ (k :: l)) by (by rewrite Permutation_app_comm). rewrite cnt_cons. lia. }
  rewrite i32_id by (unfold in_i32; lia). replace (cnt k l + 1) with (cnt k (l ++ [k])) by (rewrite Hc, decide_True by done; lia).
  apply (map_seqZ_update (fun k => cnt k l) (fun j => cnt j (l ++ [k]))); [done|]. intros j Hj. rewrite Hc, decide_False by done. lia.
Qed.
Lemma counts_nil : counts K [] = replicate (Z.to_nat K) 0.
Proof.
  unfold counts. apply list_eq. intros i. change (map ?f (seqZ 0 K)) with (f <$> seqZ 0 K). rewrite list_lookup_fmap.
  destruct (decide (i < Z.to_nat K)%nat) as [Hi|Hi]; [rewrite lookup_replicate_2 by done; by rewrite lookup_seqZ_lt by lia|].
  rewrite (lookup_ge_None_2 (replicate _ _)) by (rewrite length_replicate; lia). rewrite lookup_seqZ_ge by lia. done.
Qed.

Lemma doc_topic_vector_ok n d a : doc_ok K n d -> n < 2 ^ 31 -> length (doc_topic_vec_ a) = Z.to_nat K ->
  ComputeDocTopicVector p d a = Ret (set_doc_topics (counts K (token_topics_ d)) (nonzero_doc_topic_idx_ a) (num_nonzero_doc_topic_idx_ a) a).
Proof.
  intros [Hlen Htop Hn] Hsmall Hv. unfold ComputeDocTopicVector, GetNumTokens, blen.
  destruct (foldM_seqZ_inv (fun vec i => topic ← it_Topic d i; m ← vec_at vec topic; vec_set vec topic (i32 (m + 1)))
    (fun i vec => vec = counts K (take i (token_topics_ d))) (length (tokens_ d)) (replicate (length (doc_topic_vec_ a)) 0)) as (vec & E & Hvec).
  - by rewrite Hv, <- counts_nil.
  - intros i vec Hi ->. destruct (lookup_lt_is_Some_2 (token_topics_ d) i ltac:(lia)) as (k & Hk). pose proof (Forall_lookup_1 _ _ _ _ Htop Hk) as Hkr. cbn beta in Hkr.
    exists (counts K (take (S i) (token_topics_ d))). split; [|done]. unfold it_Topic.
    rewrite (vec_at_nat (token_topics_ d) i k) by done. cbn [mbind outcome_bind].
    rewrite (take_S_r _ _ _ Hk). apply counts_snoc; [done|]. unfold blen in *. rewrite length_take. lia.
  - rewrite E. cbn [mbind outcome_bind]. rewrite Hvec, take_ge by lia. done.
Qed.

Record aux_part (base : Z -> Z) (l : list Z) (k : Z) (a : FastDocSampler F) : Prop := {
  ap_vec : doc_topic_vec_ a = counts K l;
  ap_row : summary_row a = map (fun k => base k + cnt k l) (seqZ 0 K);
  ap_s : s_sum_ a = rsum (map (s_term p base l) (seqZ 0 k));
  ap_r : r_sum_ a = rsum (map (r_term p base l) (seqZ 0 k));
  ap_q : exists rest, q_coeff_ a = map (q_coeff p base l) (seqZ 0 k) ++ rest /\ blen (q_coeff_ a) = K;
  ap_num : num_nonzero_doc_topic_idx_ a = blen (topics_of k l);
  ap_idx : exists rest, nonzero_doc_topic_idx_ a = topics_of k l ++ rest /\ blen (topics_of k l ++ rest) = K;
  ap_terms : blen (nonzero_q_terms_ a) = K /\ blen (nonzero_q_terms_topic_ a) = K
}.

(** Writing behind a prefix of an array. *)
Lemma vec_set_next {A} (l rest : list A) x : blen l < blen (l ++ rest) ->
  exists rest', vec_set (l ++ rest) (blen l) x = Ret ((l ++ [x]) ++ rest') /\ blen ((l ++ [x]) ++ rest') = blen (l ++ rest).
Proof.
  intros Hl. destruct rest as [|y rest]; [rewrite app_nil_r in Hl; lia|]. exists rest. rewrite vec_set_blen by (unfold blen in *; lia).
  rewrite blen_nat, <- (Nat.add_0_r (length l)), insert_app_r, <- app_assoc. split; [done|]. unfold blen. by rewrite !length_app.
Qed.

Lemma blen_nonzero_le k l : 0 <= k -> blen (topics_of k l) <= k.
Proof. intros Hk. unfold blen, topics_of. pose proof (length_filter (fun k => 0 < cnt k l) (seqZ 0 k)) as Hf. rewrite length_seqZ in Hf. lia. Qed.

Lemma aux_step_ok base n l k a : base_fits base n -> blen l <= n -> 0 <= k < K -> aux_part base l k a -> exists a', aux_step p a k = Ret a' /\ aux_part base l (k + 1) a'.
Proof.
  intros Hbase Hl Hk [Hvec Hrow Hs Hr (qrest & Hq & Hql) Hnum (rest & Hidx & Hil) Ht].
  assert (Hseq : seqZ 0 (k + 1) = seqZ 0 k ++ [k]) by (rewrite seqZ_app by lia; done).
  assert (Hnz : topics_of (k + 1) l = topics_of k l ++ (if decide (0 < cnt k l) then [k] else [])).
  { unfold topics_of. rewrite Hseq, filter_app, filter_cons. destruct (decide _); done. }
  assert (Hbq : blen (map (q_coeff p base l) (seqZ 0 k)) = k) by (unfold blen; rewrite length_map, length_seqZ; lia).
  unfold aux_step, denominator. rewrite Hrow, Hvec. unfold counts. rewrite !vec_at_map_seqZ by done. cbn [mbind outcome_bind]. fold (den p base l k).
  destruct (vec_set_next (map (q_coeff p base l) (seqZ 0 k)) qrest (q_coeff p base l k)) as (qrest' & Eq & Hql'); [rewrite Hbq, <- Hq; lia|].
  rewrite Hbq, <- Hq in Eq. rewrite <- Hq, Hql in Hql'. unfold q_coeff at 1 in Eq. rewrite Eq. cbn [mbind outcome_bind].
  assert (Hmap : forall f : Z -> F, map f (seqZ 0 k) ++ [f k] = map f (seqZ 0 (k + 1))) by (intros f; by rewrite Hseq, map_app).
  rewrite Hmap. rewrite Hmap in Hql'.
  assert (Hsum : forall f : Z -> F, f_add (rsum (map f (seqZ 0 k))) (f k) = rsum (map f (seqZ 0 (k + 1)))).
  { intros f. rewrite <- Hmap, rsum_app, rsum_cons, rsum_nil. ring. }
  rewrite Hs. fold (s_term p base l k). rewrite Hsum. destruct (decide (cnt k l = 0)) as [Hz|Hz].
  - rewrite bool_decide_false by tauto. eexists. split; [reflexivity|]. rewrite decide_False, app_nil_r in Hnz by lia. rewrite <- Hnz in Hnum, Hidx, Hil.
    constructor; cbn; try done; [|by exists qrest'|by exists rest]. rewrite Hr, <- Hsum. unfold r_term at 3. rewrite Hz, of_Z_0.
    replace (f_mul f_zero (beta_ p)) with f_zero by ring. rewrite rl_div_zero. ring.
  - pose proof (cnt_bounds k l). rewrite bool_decide_true by done. rewrite decide_True in Hnz by lia.
    destruct (vec_set_next (topics_of k l) rest k) as (rest' & Ei & Hil'); [rewrite Hil; pose proof (blen_nonzero_le k l); lia|].
    rewrite Hidx, Hnum, Ei. cbn [mbind outcome_bind]. eexists. split; [reflexivity|]. constructor; cbn; try done.
    + rewrite Hr. fold (r_term p base l k). apply Hsum.
    + by exists qrest'.
    + rewrite Hnz. unfold blen. rewrite length_app. cbn. lia.
    + rewrite Hnz. exists rest'. split; [done|]. by rewrite Hil'.
Qed.

Lemma ComputeAuxVariables_ok base n l a : 0 < K -> base_fits base n -> blen l <= n -> doc_topic_vec_ a = counts K l ->
  summary_row a = map (fun k => base k + cnt k l) (seqZ 0 K) -> blen (q_coeff_ a) = K -> blen (nonzero_doc_topic_idx_ a) = K ->
  blen (nonzero_q_terms_ a) = K /\ blen (nonzero_q_terms_topic_ a) = K ->
  exists a', ComputeAuxVariables p a = Ret a' /\ aux_ok p base l a'.
Proof.
  intros HK Hbase Hl Hvec Hrow Hq Hidx Ht. unfold ComputeAuxVariables. replace K with (Z.of_nat (Z.to_nat K)) by lia.
  destruct (foldM_seqZ_inv (aux_step p) (fun k a => aux_part base l (Z.of_nat k) a) (Z.to_nat K) (set_doc_topics (doc_topic_vec_ a) (nonzero_doc_topic_idx_ a) 0 (set_sums f_zero f_zero a)))
    as (a' & E & Ha').
  - constructor; cbn; try done; [by exists (q_coeff_ a)|]. exists (nonzero_doc_topic_idx_ a). done.
  - intros k a1 Hk Ha1. destruct (aux_step_ok base n l (Z.of_nat k) a1 Hbase Hl ltac:(lia) Ha1) as (a2 & E2 & Ha2). exists a2. split; [done|].
    by replace (Z.of_nat (S k)) with (Z.of_nat k + 1) by lia.
  - exists a'. split; [done|]. rewrite Z2Nat.id in Ha' by lia. destruct Ha' as [H1 H2 H3 H4 (qrest & Hq1 & Hq2) H6 H7 H8]. constructor; try done.
    rewrite Hq1 in Hq2 |- *. destruct qrest; [by rewrite app_nil_r|]. unfold blen in Hq2. rewrite length_app, length_map, length_seqZ in Hq2. cbn in Hq2. lia.
Qed.

(** ** A document *)

(** The sampler before a document: its arrays, and a summary row that counts
    at least the tokens of the document. *)
Record sampler_ready (d : LDADoc) (a : FastDocSampler F) : Prop := {
  sr_doc : doc_ok K (blen (tokens_ d)) d;
  sr_small : blen (tokens_ d) < 2 ^ 31;
  sr_vec : blen (doc_topic_vec_ a) = K;
  sr_q : blen (q_coeff_ a) = K;
  sr_idx : blen (nonzero_doc_topic_idx_ a) = K;
  sr_terms : blen (nonzero_q_terms_ a) = K /\ blen (nonzero_q_terms_topic_ a) = K;
  sr_row : blen (summary_row a) = K;
  sr_counts : forall k n, summary_row a !! k = Some n -> cnt (Z.of_nat k) (token_topics_ d) <= n /\ n - cnt (Z.of_nat k) (token_topics_ d) + blen (tokens_ d) < 2 ^ 31
}.

Definition base_of (d : LDADoc) (row : list Z) (k : Z) : Z := default 0 (row !! Z.to_nat k) - cnt k (token_topics_ d).

Lemma base_of_row d row : blen row = K -> row = map (fun k => base_of d row k + cnt k (token_topics_ d)) (seqZ 0 K).
Proof.
  intros Hl. apply list_eq. intros i. change (map ?f (seqZ 0 K)) with (f <$> seqZ 0 K). rewrite list_lookup_fmap. unfold blen in Hl.
  destruct (decide (i < length row)%nat) as [Hi|Hi].
  - rewrite lookup_seqZ_lt by lia. destruct (lookup_lt_is_Some_2 row i Hi) as (n & Hn). cbn. unfold base_of. rewrite Z.add_0_l, Nat2Z.id, Hn. cbn. f_equal. lia.
  - rewrite lookup_ge_None_2 by lia. by rewrite lookup_seqZ_ge by lia.
Qed.

Lemma base_of_fits d a : sampler_ready d a -> base_fits (base_of d (summary_row a)) (blen (tokens_ d)).
Proof.
  intros [_ _ _ _ _ _ Hrow Hc] k Hk. unfold base_of, blen in *. destruct (lookup_lt_is_Some_2 (summary_row a) (Z.to_nat k)) as (m & Hm); [lia|].
  destruct (Hc _ _ Hm) as [H1 H2]. rewrite Z2Nat.id in H1, H2 by lia. rewrite Hm. cbn. lia.
Qed.

Lemma prepared_ok d a : 0 < K -> sampler_ready d a -> exists a1, (a1 ← ComputeDocTopicVector p d a; ComputeAuxVariables p a1) = Ret a1 /\
  aux_ok p (base_of d (summary_row a)) (token_topics_ d) a1.
Proof.
  intros HK Hr. pose proof (base_of_fits d a Hr) as Hfits. destruct Hr as [Hd Hs Hv Hq Hi Ht Hrow Hc]. rewrite (doc_topic_vector_ok _ d a Hd Hs); [|unfold blen in Hv; lia]. cbn [mbind outcome_bind].
  apply (ComputeAuxVariables_ok _ (blen (tokens_ d))); try done; [unfold blen; by rewrite (dc_len _ _ _ Hd)|]. cbn. by apply base_of_row.
Qed.

Lemma SampleOneDoc_ok rows darts d a : priors_ok -> sampler_ready d a -> (forall it, row_ok p (rows it)) -> (forall it, f_leb f_zero (darts it) = true) ->
  exists a' d' us, SampleOneDoc p rows darts d a = Ret (a', d', us) /\ aux_ok p (base_of d (summary_row a)) (token_topics_ d') a' /\
    doc_ok K (blen (tokens_ d)) d' /\ tokens_ d' = tokens_ d /\ num_topics_ d' = num_topics_ d /\ updates_match d d' us.
Proof.
  intros Hp Hr Hrows Hdarts. destruct (prepared_ok d a (po_K Hp) Hr) as (a1 & E & Ha1). apply bind_Ret_inv in E as (a0 & E0 & E1).
  unfold SampleOneDoc. rewrite E0. cbn [mbind outcome_bind]. rewrite E1. cbn [mbind outcome_bind]. unfold GetNumTokens, blen.
  destruct (foldM_seqZ_inv (fun s it => sample_token p (rows it) (darts it) it s) (fun _ s => let '(a', d', us) := s in
    aux_ok p (base_of d (summary_row a)) (token_topics_ d') a' /\ doc_ok K (blen (tokens_ d)) d' /\ tokens_ d' = tokens_ d /\ num_topics_ d' = num_topics_ d /\ updates_match d d' us)
    (length (tokens_ d)) (a1, d, [])) as ([[a' d'] us] & E & H'); [| |by exists a', d', us].
  - split_and!; [done|apply Hr|done|done|]. split; intros; cbn; lia.
  - intros it [[a2 d2] us] Hit (H1 & H2 & H3 & H4 & H5).
    destruct (sample_token_ok (base_of d (summary_row a)) (blen (tokens_ d)) (rows (Z.of_nat it)) (darts (Z.of_nat it)) it a2 d2 us Hp (base_of_fits d a Hr) H2 H1 (Hrows _) (Hdarts _))
      as (a3 & d3 & us3 & E3 & Ha3 & Hd3 & Ht3 & Hn3 & Hm3); [by rewrite H3|].
    exists (a3, d3, us ++ us3). split; [done|]. split_and!; [done|done|by rewrite Ht3|by rewrite Hn3|]. by eapply updates_match_trans.
Qed.

(** C26: whatever numbers the generator gives, sampling a document ends without a failure or an access outside an array, leaves the
    words alone and gives each token a topic of the model; and the sums of the buckets, the coefficients, the counts and
    the sorted array of topics, which it has kept up to date token by token, are exactly what it would compute afresh.
    This is so with exact arithmetic ([RealLaws]: with doubles the sums drift), for priors that are not negative ([priors_ok]), rows of
    words with at most one entry per topic of the model ([row_ok]) and a cached summary row that has at least the document's own tokens of each
    topic ([sampler_ready]); with a row that is too old a bucket may be empty. *)
Theorem sampling_keeps_sums rows darts d a : priors_ok -> sampler_ready d a -> (forall it, row_ok p (rows it)) -> (forall it, f_leb f_zero (darts it) = true) ->
  exists a' d' us a2, SampleOneDoc p rows darts d a = Ret (a', d', us) /\ tokens_ d' = tokens_ d /\ Forall (fun k => 0 <= k < K) (token_topics_ d') /\
    (a1 ← ComputeDocTopicVector p d' a'; ComputeAuxVariables p a1) = Ret a2 /\
    s_sum_ a2 = s_sum_ a' /\ r_sum_ a2 = r_sum_ a' /\ q_coeff_ a2 = q_coeff_ a' /\ doc_topic_vec_ a2 = doc_topic_vec_ a' /\
    num_nonzero_doc_topic_idx_ a2 = num_nonzero_doc_topic_idx_ a' /\
    take (Z.to_nat (num_nonzero_doc_topic_idx_ a2)) (nonzero_doc_topic_idx_ a2) = take (Z.to_nat (num_nonzero_doc_topic_idx_ a')) (nonzero_doc_topic_idx_ a').
Proof.
  intros Hp Hr Hrows Hdarts. destruct (SampleOneDoc_ok rows darts d a Hp Hr Hrows Hdarts) as (a' & d' & us & E & Ha' & Hd' & Ht & _ & _).
  pose proof Ha' as [H1 H2 H3 H4 H5 H6 (rest & H7 & H8) H9]. pose proof (po_K Hp) as HK.
  assert (Hbl : forall f : Z -> Z, blen (map f (seqZ 0 K)) = K) by (intros f; unfold blen; rewrite length_map, length_seqZ; lia).
  destruct (ComputeAuxVariables_ok (base_of d (summary_row a)) (blen (tokens_ d)) (token_topics_ d')
    (set_doc_topics (counts K (token_topics_ d')) (nonzero_doc_topic_idx_ a') (num_nonzero_doc_topic_idx_ a') a')) as (a2 & E2 & [G1 G2 G3 G4 G5 G6 (rest2 & G7 & G8) G9]);
    cbn; try done.
  - by apply base_of_fits.
  - unfold blen. rewrite (dc_len _ _ _ Hd'), Ht. lia.
  - rewrite H5. unfold blen. rewrite length_map, length_seqZ. lia.
  - by rewrite H7.
  - exists a', d', us, a2. split_and!; [done|done|apply Hd'| |congruence..|rewrite G7, H7, G6, H6, !blen_nat, !take_app_length; done].
    rewrite (doc_topic_vector_ok _ d' a' Hd'); [exact E2|apply Hr|]. rewrite H1. unfold counts. rewrite length_map, length_seqZ. lia.
Qed.

(** C27: the tables receive exactly the changes of the counts: the updates sampling a document sends add up, for each topic, to the
    change of the number of its tokens, in the summary row, in the copy of the row the sampler reads, and for each
    word and topic in the row of the word.  This is so with exact arithmetic ([RealLaws]) and under the conditions of
    [sampler_ready] and [row_ok] on the rows the sampler reads. *)
Theorem sampling_updates_counts rows darts d a : priors_ok -> sampler_ready d a -> (forall it, row_ok p (rows it)) -> (forall it, f_leb f_zero (darts it) = true) ->
  exists a' d' us, SampleOneDoc p rows darts d a = Ret (a', d', us) /\
    (forall k, summary_delta k us = cnt k (token_topics_ d') - cnt k (token_topics_ d)) /\
    (forall w k, word_delta w k us = cnt2 w k d' - cnt2 w k d) /\
    (forall k n, summary_row a !! k = Some n -> summary_row a' !! k = Some (n + summary_delta (Z.of_nat k) us)).
Proof.
  intros Hp Hr Hrows Hdarts. destruct (SampleOneDoc_ok rows darts d a Hp Hr Hrows Hdarts) as (a' & d' & us & E & Ha' & Hd' & Ht & _ & [Hs Hw]).
  exists a', d', us. split_and!; [done..|]. intros k n Hk. rewrite (ao_row _ _ _ _ Ha'), Hs. pose proof (lookup_lt_Some _ _ _ Hk) as Hlt. pose proof (sr_row d a Hr) as Hl. unfold blen in Hl.
  pose proof (lookup_map_seqZ (fun k => base_of d (summary_row a) k + cnt k (token_topics_ d')) K (Z.of_nat k) ltac:(lia)) as Hm. rewrite Nat2Z.id in Hm. rewrite Hm.
  unfold base_of. rewrite Nat2Z.id, Hk. cbn. f_equal. lia.
Qed.
End DOCUMENT.

(** ** An example

    Two topics and three tokens; the darts fall in different buckets. *)
Definition demo_params : params Z := mkparams 2 4 3 6.
Definition demo_doc : LDADoc := mkdoc [5; 7; 5] [0; 1; 0] 2.
Definition demo_rows (it : Z) : list (Z * Z) := if bool_decide (it = 1) then [(1, 1)] else [(0, 2); (1, 3)].
Definition demo_sampler : FastDocSampler Z := FastDocSampler_new demo_params [77; 99] [9; 6].

Lemma demo_ready : priors_ok demo_params /\ sampler_ready demo_params demo_doc demo_sampler /\ (forall it, row_ok demo_params (demo_rows it)).
Proof.
  split_and!; [split; cbn; lia || done| |].
  - split; [|reflexivity|reflexivity|reflexivity|reflexivity|split; reflexivity|reflexivity|].
    + split; [done|repeat (apply Forall_cons; split; [cbn; lia|]); constructor|done].
    + intros [|[|k]] n Hk; cbn in Hk; simplify_eq; vm_compute; (split; [discriminate|reflexivity]).
  - intros it. unfold demo_rows. case_bool_decide; (split; [|vm_compute; discriminate]); apply Forall_forall; intros e He; rewrite !elem_of_cons in He;
      destruct_or?; subst; cbn; try lia; by apply elem_of_nil in He.
Qed.

Lemma sampling_updates_counts_witness : exists a' d' us, SampleOneDoc demo_params demo_rows Z.abs demo_doc demo_sampler = Ret (a', d', us) /\
  (forall k, summary_delta k us = cnt k (token_topics_ d') - cnt k [0; 1; 0]) /\ summary_row a' !! 0%nat = Some (9 + summary_delta 0 us).
Proof.
  destruct demo_ready as (H1 & H2 & H3).
  destruct (sampling_updates_counts demo_params demo_rows Z.abs demo_doc demo_sampler H1 H2 H3 ltac:(intros it; cbn; lia)) as (a' & d' & us & E & Hs & _ & Hr).
  exists a', d', us. split; [exact E|]. split; [exact Hs|]. exact (Hr 0%nat 9 eq_refl).
Defined.

Lemma sampling_keeps_sums_witness : exists a' d' us, SampleOneDoc demo_params demo_rows Z.abs demo_doc demo_sampler = Ret (a', d', us) /\ Forall (fun k => 0 <= k < 2) (token_topics_ d').
Proof.
  destruct demo_ready as (H1 & H2 & H3).
  destruct (sampling_keeps_sums demo_params demo_rows Z.abs demo_doc demo_sampler H1 H2 H3 ltac:(intros it; cbn; lia)) as (a' & d' & us & a2 & E & _ & Hk & _).
  exists a', d', us. split; [exact E|exact Hk].
Defined.

