(* ===== verification/LdaEngine.v ===== *)
(** * LDA: the engine

    What a worker thread does ([LDAEngine::Start], [apps/lda/src/
    lda_engine.cpp]): it counts the topics of its documents into the tables,
    then samples them in work units, with clocks in between, and computes the
    likelihood.  What the thread sends to the tables and when it synchronises
    is a trace; what it reads from them is a parameter. *)
From stdpp Require Import gmap.
From S2P Require Import Prelude Bytes ServerRow StradsFloat LdaDoc LdaSampler.
Open Scope Z_scope.

(** ** LDA: the log-likelihood

    [LDAStats] ([apps/lda/src/lda_stats.cpp]) and [LogGamma] ([utils.cpp]):
    the likelihood of a document, of a range of words and of the summary row,
    with a table of values of the log-gamma function.  Single and double
    precision are one type, with the operations of [Float]. *)
Section STATS.
Context {F : Type} `{Float F}.
(** The logarithm of the C library, and the literal [m * 10^-e]. *)
Context (f_log : F -> F) (f_lit : Z -> Z -> F).

Definition cof : list F :=
  [f_lit 7618009172947146 14; f_lit (-8650532032941677) 14; f_lit 2401409824083091 14; f_lit (-1231739572450155) 15; f_lit 1208650973866179 18; f_lit (-5395239384953) 18].

Definition LogGamma (xx : F) : F :=
  let tmp1 := f_add xx (f_lit 55 1) in
  let tmp1' := f_sub tmp1 (f_mul (f_add xx (f_lit 5 1)) (f_log tmp1)) in
  let '(_, ser) := foldl (fun '(y, ser) cofj => let y' := f_add y f_one in (y', f_add ser (f_div cofj y'))) (xx, f_lit 1000000000190015 15) cof in
  f_sub (f_log (f_div (f_mul (f_lit 25066282746310005 16) ser) xx)) tmp1'.

Record LDAStats := mkstats {
  st_K_ : Z; st_V_ : Z; st_beta_ : F; st_beta_sum_ : F; st_alpha_ : F; st_alpha_sum_ : F;
  log_doc_normalizer_ : F; log_topic_normalizer_ : F;
  loggamma_alpha_offset_ : list F; loggamma_alpha_sum_offset_ : list F; loggamma_beta_offset_ : list F
}.
Definition kNumLogGammaAlpha_ : Z := 100000.
Definition kNumLogGammaAlphaSum_ : Z := 10000.
Definition kNumLogGammaBeta_ : Z := 1000000.

Definition loggamma_table (n : Z) (offset : F) : list F := map (fun i => LogGamma (f_add (f_of_Z i) offset)) (seqZ 0 n).

Definition LDAStats_new (K V : Z) (alpha beta : F) : outcome LDAStats :=
  _ ← CHECK (bool_decide (-1 <> V));
  let beta_sum := f_mul beta (f_of_Z V) in
  let alpha_sum := f_mul (f_of_Z K) alpha in
  Ret (mkstats K V beta beta_sum alpha alpha_sum
    (f_sub (LogGamma alpha_sum) (f_mul (f_of_Z K) (LogGamma alpha)))
    (f_mul (f_of_Z K) (f_sub (LogGamma beta_sum) (f_mul (f_of_Z V) (LogGamma beta))))
    (loggamma_table kNumLogGammaAlpha_ alpha) (loggamma_table kNumLogGammaAlphaSum_ alpha_sum) (loggamma_table kNumLogGammaBeta_ beta)).

Definition GetLogGammaAlphaOffset (s : LDAStats) (val : Z) : outcome F :=
  if bool_decide (val < kNumLogGammaAlpha_) then vec_at (loggamma_alpha_offset_ s) val else Ret (LogGamma (f_add (f_of_Z val) (st_alpha_ s))).
Definition GetLogGammaAlphaSumOffset (s : LDAStats) (val : Z) : outcome F :=
  if bool_decide (val < kNumLogGammaAlphaSum_) then vec_at (loggamma_alpha_sum_offset_ s) val else Ret (LogGamma (f_add (f_of_Z val) (st_alpha_sum_ s))).
Definition GetLogGammaBetaOffset (s : LDAStats) (val : Z) : outcome F :=
  if bool_decide (val < kNumLogGammaBeta_) then vec_at (loggamma_beta_offset_ s) val else Ret (LogGamma (f_add (f_of_Z val) (st_beta_ s))).

(** [CHECK_EQ(x, x)] *)
Definition check_not_nan (x : F) : outcome unit := CHECK (f_eqb x x).

Definition count_topic (d : LDADoc) (s : list Z * Z) (it : Z) : outcome (list Z * Z) :=
  topic ← it_Topic d it;
  n ← vec_at s.1 topic;
  vec ← vec_set s.1 topic (i32 (n + 1));
  Ret (vec, s.2 + 1).
Definition ComputeOneDocLLH (s : LDAStats) (d : LDADoc) : outcome F :=
  '(vec, num_words) ← foldM (count_topic d) (seqZ 0 (GetNumTokens d)) (replicate (Z.to_nat (st_K_ s)) 0, 0);
  llh ← foldM (fun llh k => n ← vec_at vec k; _ ← CHECK (bool_decide (0 <= n)); g ← GetLogGammaAlphaOffset s n; Ret (f_add llh g)) (seqZ 0 (st_K_ s)) (log_doc_normalizer_ s);
  g ← GetLogGammaAlphaSumOffset s num_words;
  let llh' := f_sub llh g in
  _ ← check_not_nan llh';
  _ ← CHECK (f_leb llh' f_zero);
  Ret llh'.

(** What [Inc] adds to the likelihood; [word_topic_row] are the entries of a
    word's row. *)
Definition word_entry (s : LDAStats) (llh : F) (e : Z * Z) : outcome F :=
  _ ← CHECK (bool_decide (0 <= e.2));
  g ← GetLogGammaBetaOffset s e.2;
  let llh' := f_add llh g in
  _ ← check_not_nan llh';
  Ret llh'.
Definition word_row_llh (s : LDAStats) (zero_entry_llh llh : F) (row : list (Z * Z)) : outcome F :=
  if bool_decide (blen row > 0) then
    llh' ← foldM (word_entry s) row llh;
    Ret (f_add llh' (f_mul (f_of_Z (st_K_ s - blen row)) zero_entry_llh))
  else Ret llh.
Definition ComputeWordLLH (s : LDAStats) (word_topic_row : Z -> list (Z * Z)) (word_idx_start word_idx_end : Z) : outcome F :=
  zero_entry_llh ← GetLogGammaBetaOffset s 0;
  llh ← foldM (fun llh w => word_row_llh s zero_entry_llh llh (word_topic_row w)) (seqZ word_idx_start (word_idx_end - word_idx_start)) f_zero;
  _ ← check_not_nan llh;
  Ret llh.
Definition ComputeWordLLHSummary (s : LDAStats) (summary_row : list Z) : outcome F :=
  llh ← foldM (fun llh k => n ← vec_at summary_row k; let llh' := f_sub llh (LogGamma (f_add (f_of_Z n) (st_beta_sum_ s))) in _ ← check_not_nan llh'; Ret llh')
              (seqZ 0 (st_K_ s)) (log_topic_normalizer_ s);
  _ ← check_not_nan llh;
  Ret llh.

(** ** The table gives the values of the function *)
Lemma loggamma_table_at n offset val : 0 <= val < n -> vec_at (loggamma_table n offset) val = Ret (LogGamma (f_add (f_of_Z val) offset)).
Proof.
  intros Hv. apply vec_at_Ret. split; [lia|]. unfold loggamma_table. change (map ?f ?l) with (f <$> l). rewrite list_lookup_fmap, lookup_seqZ_lt by lia.
  cbn [fmap option_fmap option_map]. by rewrite Z.add_0_l, Z2Nat.id by lia.
Qed.

Lemma offsets_exact K V alpha beta s val : LDAStats_new K V alpha beta = Ret s -> 0 <= val ->
  GetLogGammaAlphaOffset s val = Ret (LogGamma (f_add (f_of_Z val) alpha)) /\
  GetLogGammaAlphaSumOffset s val = Ret (LogGamma (f_add (f_of_Z val) (f_mul (f_of_Z K) alpha))) /\
  GetLogGammaBetaOffset s val = Ret (LogGamma (f_add (f_of_Z val) beta)).
Proof.
  intros E Hv. unfold LDAStats_new in E. inv_outcome. unfold GetLogGammaAlphaOffset, GetLogGammaAlphaSumOffset, GetLogGammaBetaOffset.
  cbn [loggamma_alpha_offset_ loggamma_alpha_sum_offset_ loggamma_beta_offset_ st_alpha_ st_alpha_sum_ st_beta_].
  split_and!; (destruct (bool_decide (val < _)) eqn:Eb; [apply bool_decide_eq_true in Eb; by apply loggamma_table_at|done]).
Qed.
End STATS.

Arguments LDAStats : clear implicits.

Section ENGINE.
Context {F : Type} `{Float F} `{!HashOrder}.
Context (f_log : F -> F) (f_lit : Z -> Z -> F).

Inductive engine_event :=
  | WordTopicBatch (word : Z) (batch : list (Z * Z))     (* word_topic_table.BatchInc *)
  | SummaryBatch (batch : list (Z * Z))                  (* summary_table.BatchInc(0, _) *)
  | SamplerUpdate (u : update)
  | LLHInc (row col : Z) (v : F)
  | GetAsync (word : Z) | WaitPendingAsyncGet
  | GlobalBarrier | BarrierWait | Clock.

(** The flags of the program and the thread's place among all. *)
Record engine_config := mkengine_config {
  ec_client_id : Z; ec_num_clients : Z; ec_thread_id : Z; ec_num_threads : Z;
  ec_num_work_units : Z; ec_compute_ll_interval : Z; ec_num_iters_per_work_unit : Z; ec_max_vocab_id : Z
}.
Context (cfg : engine_config) (p : params F) (stats : LDAStats F).

(** What the thread finds in the tables: the summary row at the [n]-th
    refresh or read, after the updates it has sent; the row of the word of
    the token at a position of the [n]-th document it samples; the rows for
    the likelihood; and what the generator and the clock give. *)
Record engine_env := mkengine_env {
  ee_summary : nat -> list engine_event -> list Z;
  ee_word_rows : nat -> Z -> list (Z * Z);
  ee_darts : nat -> Z -> F;
  ee_llh_rows : nat -> Z -> list (Z * Z);
  ee_seconds : nat -> F;
  ee_other_vocabs : gset Z
}.
Context (env : engine_env).

Record engine := mkengine { e_work : workload; e_sampler : FastDocSampler F; e_trace : list engine_event; e_refreshes : nat; e_sampled : nat }.
Definition set_work (w : workload) (e : engine) : engine := mkengine w (e_sampler e) (e_trace e) (e_refreshes e) (e_sampled e).
Definition emit (l : list engine_event) (e : engine) : engine := mkengine (e_work e) (e_sampler e) (e_trace e ++ l) (e_refreshes e) (e_sampled e).
Definition refresh (e : engine) : engine :=
  mkengine (e_work e) (RefreshCachedSummaryRow (ee_summary env (e_refreshes e) (e_trace e)) (e_sampler e)) (e_trace e) (S (e_refreshes e)) (e_sampled e).

(** ** Counting *)
Definition tally_state := (gmap Z (list (Z * Z)) * list (Z * Z))%type.
Definition tally_token (d : LDADoc) (s : tally_state) (it : Z) : outcome tally_state :=
  word ← it_Word d it;
  topic ← it_Topic d it;
  Ret (<[word := default [] (s.1 !! word) ++ [(topic, 1)]]> s.1, s.2 ++ [(topic, 1)]).
(** A document and the loader behind the workload. *)
Definition next_doc (w : workload) : outcome (Z * LDADoc * workload) :=
  '(i, w') ← GetOneDoc w; d ← vec_at (partition_docs_ (doc_loader_ w')) i; Ret (i, d, w').
(** The loops run until the end of an iteration; a turn takes a document. *)
Fixpoint tally_loop (fuel : nat) (w : workload) (s : tally_state) : outcome (workload * tally_state) :=
  match fuel with
  | O => Undef
  | S fuel' =>
      if IsEndOfAnIter w then Ret (w, s)
      else '(_, d, w') ← next_doc w; s' ← foldM (tally_token d) (seqZ 0 (GetNumTokens d)) s; tally_loop fuel' w' s'
  end.
(** One turn more than documents. *)
Definition iter_fuel (w : workload) : nat := S (length (partition_docs_ (doc_loader_ w))).

Definition tally (e : engine) : outcome engine :=
  '(w, (word_topic_updates, summary_updates)) ← tally_loop (iter_fuel (e_work e)) (e_work e) (∅, []);
  let local_vocabs := merge_sort Z.le (elements (dom word_topic_updates ∪ ee_other_vocabs env)) in
  Ret (emit (map (fun wb => WordTopicBatch wb.1 wb.2) (hash_order word_topic_updates) ++ [SummaryBatch summary_updates; GlobalBarrier; BarrierWait] ++
             (if bool_decide (ec_thread_id cfg = 0) then map GetAsync local_vocabs ++ [WaitPendingAsyncGet] else []) ++ [BarrierWait])
            (set_work w e)).

(** ** The likelihood *)

(** The words this thread computes. *)
Definition vocab_range : Z * Z :=
  let num_vocabs_per_thread := Z.quot (ec_max_vocab_id cfg) (ec_num_clients cfg * ec_num_threads cfg) in
  let vocab_id_start := (ec_client_id cfg * ec_num_threads cfg + ec_thread_id cfg) * num_vocabs_per_thread in
  (vocab_id_start,
   if bool_decide (ec_client_id cfg = ec_num_clients cfg - 1 /\ ec_thread_id cfg = ec_num_threads cfg - 1)
   then ec_max_vocab_id cfg + 1 else vocab_id_start + num_vocabs_per_thread).

Fixpoint llh_loop (fuel : nat) (w : workload) (doc_llh : F) : outcome (workload * F) :=
  match fuel with
  | O => Undef
  | S fuel' =>
      if IsEndOfAnIter w then Ret (w, doc_llh)
      else '(_, d, w') ← next_doc w; l ← ComputeOneDocLLH f_log f_lit stats d; llh_loop fuel' w' (f_add doc_llh l)
  end.

(** Columns of [table_columns.hpp]. *)
Definition kColIdxLLHTableIter : Z := 0.
Definition kColIdxLLHTableLLH : Z := 1.
Definition kColIdxLLHTableTime : Z := 2.

Definition ComputeLLH (work_unit ith_llh iter : Z) (e : engine) : outcome engine :=
  let n := Z.to_nat work_unit in
  '(w, doc_llh) ← llh_loop (iter_fuel (e_work e)) (RestartWorkUnit (e_work e)) f_zero;
  word_llh ← ComputeWordLLH f_log f_lit stats (ee_llh_rows env n) vocab_range.1 vocab_range.2;
  let e1 := emit [LLHInc ith_llh kColIdxLLHTableLLH doc_llh; LLHInc ith_llh kColIdxLLHTableLLH word_llh] (set_work w e) in
  if bool_decide (Z.rem ith_llh (ec_num_clients cfg) = ec_client_id cfg /\ ec_thread_id cfg = 0) then
    summary_llh ← ComputeWordLLHSummary f_log f_lit stats (ee_summary env (e_refreshes e1) (e_trace e1));
    Ret (emit [LLHInc ith_llh kColIdxLLHTableLLH summary_llh; LLHInc ith_llh kColIdxLLHTableIter (f_of_Z iter); LLHInc ith_llh kColIdxLLHTableTime (ee_seconds env n)] e1)
  else Ret e1.

(** ** Work units *)
Definition sample_next (e : engine) : outcome engine :=
  '(i, d, w) ← next_doc (e_work e);
  '(a, d', us) ← SampleOneDoc p (ee_word_rows env (e_sampled e)) (ee_darts env (e_sampled e)) d (e_sampler e);
  w' ← workload_set_doc i d' w;
  let e1 := mkengine w' a (e_trace e ++ map SamplerUpdate us) (e_refreshes e) (S (e_sampled e)) in
  b ← NeedToClock w';
  Ret (if (b : bool) then refresh (emit [Clock] e1) else e1).

Fixpoint sample_docs (fuel : nat) (e : engine) : outcome engine :=
  match fuel with
  | O => Undef
  | S fuel' => if IsEndOfWorkUnit (e_work e) then Ret e else e' ← sample_next e; sample_docs fuel' e'
  end.

(** The remainder by zero is undefined. *)
Definition llh_due (work_unit : Z) : outcome bool :=
  if bool_decide (ec_compute_ll_interval cfg = -1) then Ret false
  else if bool_decide (ec_compute_ll_interval cfg = 0) then Undef
  else Ret (bool_decide (Z.rem work_unit (ec_compute_ll_interval cfg) = 0)).

Definition do_work_unit (e : engine) (work_unit : Z) : outcome engine :=
  let e1 := refresh e in
  let e2 := set_work (RestartWorkUnit (e_work e1)) e1 in
  e3 ← sample_docs (S (Z.to_nat (num_docs_per_work_unit_ (e_work e2)))) e2;
  due ← llh_due work_unit;
  if (due : bool) then ComputeLLH work_unit (Z.quot work_unit (ec_compute_ll_interval cfg)) (work_unit * ec_num_iters_per_work_unit cfg) e3
  else Ret e3.

(** Up to printing the likelihood. *)
Definition Start (num_clocks_per_work_unit : Z) (array : list Z) (docs : list LDADoc) : outcome engine :=
  w ← WorkloadManager_new (loader_new docs) (ec_num_iters_per_work_unit cfg) num_clocks_per_work_unit;
  e ← tally (mkengine w (FastDocSampler_new p array []) [] 0 0);
  e' ← foldM do_work_unit (seqZ 1 (ec_num_work_units cfg)) e;
  Ret (emit [GlobalBarrier] e').
End ENGINE.

Arguments engine_event : clear implicits.
Arguments engine_env : clear implicits.
Arguments engine : clear implicits.
