(* ===== verification/LdaEngineProps.v ===== *)
(** * LDA: the tables count the topics

    What [LDAEngine::Start] sends to the tables adds up, after every number of
    work units, to the counts of the topics of the thread's documents; each
    document is sampled as often as the flags say and the clocks are regular. *)
From stdpp Require Import gmap.
From S2P Require Import Prelude Bytes StradsFloat ServerRow LdaDoc LdaSampler LdaSamplerProps LdaEngine.
Open Scope Z_scope.

(** ** Sums over the documents *)
Definition zsum (l : list Z) : Z := foldr Z.add 0 l.
Definition total_topic (k : Z) (ds : list LDADoc) : Z := zsum (map (fun d => cnt k (token_topics_ d)) ds).
Definition total_word (w k : Z) (ds : list LDADoc) : Z := zsum (map (cnt2 w k) ds).
Definition total_tokens (ds : list LDADoc) : Z := zsum (map (fun d => blen (tokens_ d)) ds).

Lemma zsum_app l l' : zsum (l ++ l') = zsum l + zsum l'.
Proof. unfold zsum. induction l as [|x l IH]; cbn in *; lia. Qed.
Lemma zsum_insert {A} (f : A -> Z) l i x y : l !! i = Some x -> zsum (map f (<[i := y]> l)) = zsum (map f l) - f x + f y.
Proof.
  revert i. induction l as [|z l IH]; intros [|i] Hi; try done; cbn in Hi.
  - injection Hi as ->. unfold zsum. cbn. lia.
  - specialize (IH i Hi). change (<[S i := y]> (z :: l)) with (z :: <[i := y]> l). unfold zsum in *. cbn [map foldr]. lia.
Qed.
Lemma zsum_split {A} (f : A -> Z) l i x : l !! i = Some x -> zsum (map f (take (S i) l)) = zsum (map f (take i l)) + f x.
Proof. intros Hi. rewrite (take_S_r _ _ _ Hi), map_app, zsum_app. change (zsum (map f [x])) with (f x + 0). lia. Qed.
Lemma zsum_le {A} (f g : A -> Z) l : (forall x, x ∈ l -> f x <= g x) -> zsum (map f l) <= zsum (map g l).
Proof.
  induction l as [|x l IH]; intros Hfg; [done|]. unfold zsum in *. cbn in *. pose proof (Hfg x ltac:(by left)).
  assert (foldr Z.add 0 (map f l) <= foldr Z.add 0 (map g l)) by (apply IH; intros y Hy; apply Hfg; by right). lia.
Qed.
(** One summand is at most the sum, with what the others could still add. *)
Lemma zsum_one {A} (f g : A -> Z) l i x : l !! i = Some x -> (forall y, y ∈ l -> 0 <= f y <= g y) ->
  f x <= zsum (map f l) /\ zsum (map f l) - f x + g x <= zsum (map g l).
Proof.
  intros Hi Hfg. rewrite <- (take_drop_middle l i x Hi) in Hfg |- *. rewrite !map_app, !zsum_app. cbn [map].
  set (l1 := take i l) in *. set (l2 := drop (S i) l) in *.
  assert (Hnn : forall l', (forall y, y ∈ l' -> 0 <= f y) -> 0 <= zsum (map f l')).
  { intros l'. induction l' as [|y l' IH]; intros Hp; [done|]. unfold zsum in *. cbn. pose proof (Hp y ltac:(by left)). assert (0 <= foldr Z.add 0 (map f l')) by (apply IH; intros z Hz; apply Hp; by right). lia. }
  pose proof (Hnn l1 (fun y Hy => proj1 (Hfg y ltac:(apply elem_of_app; by left)))) as N1.
  pose proof (Hnn l2 (fun y Hy => proj1 (Hfg y ltac:(apply elem_of_app; right; by right)))) as N2.
  pose proof (zsum_le f g l1 (fun y Hy => proj2 (Hfg y ltac:(apply elem_of_app; by left)))) as M1.
  pose proof (zsum_le f g l2 (fun y Hy => proj2 (Hfg y ltac:(apply elem_of_app; right; by right)))) as M2.
  unfold zsum in *. cbn [foldr]. lia.
Qed.

(** ** What a trace adds to the tables *)
Section TOTALS.
Context {F : Type}.
Definition event_summary (k : Z) (ev : engine_event F) : Z :=
  match ev with SummaryBatch b => batch_delta k b | SamplerUpdate u => summary_delta k [u] | _ => 0 end.
Definition event_word (w k : Z) (ev : engine_event F) : Z :=
  match ev with WordTopicBatch w' b => if bool_decide (w' = w) then batch_delta k b else 0 | SamplerUpdate u => word_delta w k [u] | _ => 0 end.
Definition sent_summary (k : Z) (tr : list (engine_event F)) : Z := zsum (map (event_summary k) tr).
Definition sent_word (w k : Z) (tr : list (engine_event F)) : Z := zsum (map (event_word w k) tr).
Definition clocks (tr : list (engine_event F)) : Z := zsum (map (fun ev => match ev with Clock => 1 | _ => 0 end) tr).

Lemma sent_summary_app k tr tr' : sent_summary k (tr ++ tr') = sent_summary k tr + sent_summary k tr'.
Proof. unfold sent_summary. by rewrite map_app, zsum_app. Qed.
Lemma sent_word_app w k tr tr' : sent_word w k (tr ++ tr') = sent_word w k tr + sent_word w k tr'.
Proof. unfold sent_word. by rewrite map_app, zsum_app. Qed.
Lemma clocks_app tr tr' : clocks (tr ++ tr') = clocks tr + clocks tr'.
Proof. unfold clocks. by rewrite map_app, zsum_app. Qed.

Lemma sent_sampler us : (forall k, sent_summary k (map SamplerUpdate us) = summary_delta k us) /\
  (forall w k, sent_word w k (map SamplerUpdate us) = word_delta w k us) /\ clocks (map SamplerUpdate us) = 0.
Proof.
  unfold sent_summary, sent_word, clocks. induction us as [|u us (IH1 & IH2 & IH3)]; [done|]. cbn [map]. unfold zsum in *. cbn [foldr]. split_and!.
  - intros k. rewrite IH1. cbn [event_summary]. change (u :: us) with ([u] ++ us). by rewrite summary_delta_app.
  - intros w k. rewrite IH2. cbn [event_word]. change (u :: us) with ([u] ++ us). by rewrite word_delta_app.
  - by rewrite IH3.
Qed.

(** Events that are no updates. *)
Definition silent (ev : engine_event F) : Prop := match ev with WordTopicBatch _ _ | SummaryBatch _ | SamplerUpdate _ | Clock => False | _ => True end.
Lemma sent_silent tr : Forall silent tr -> (forall k, sent_summary k tr = 0) /\ (forall w k, sent_word w k tr = 0) /\ clocks tr = 0.
Proof.
  unfold sent_summary, sent_word, clocks. induction 1 as [|ev tr Hev _ (IH1 & IH2 & IH3)]; [done|]. unfold zsum in *. cbn [map foldr].
  split_and!; intros; rewrite ?IH1, ?IH2, ?IH3; by destruct ev.
Qed.

Lemma sent_batches (l : list (Z * list (Z * Z))) : NoDup l.*1 ->
  (forall k, sent_summary k (map (fun wb => WordTopicBatch wb.1 wb.2) l) = 0) /\ clocks (map (fun wb => WordTopicBatch wb.1 wb.2) l) = 0 /\
  (forall w k b, (w, b) ∈ l -> sent_word w k (map (fun wb => WordTopicBatch wb.1 wb.2) l) = batch_delta k b) /\
  (forall w k, w ∉ l.*1 -> sent_word w k (map (fun wb => WordTopicBatch wb.1 wb.2) l) = 0).
Proof.
  unfold sent_summary, sent_word, clocks. induction l as [|[w0 b0] l IH]; intros Hnd.
  { split_and!; try done. by intros w k b ?%elem_of_nil. }
  rewrite fmap_cons in Hnd. apply NoDup_cons in Hnd as [Hn Hnd]. destruct (IH Hnd) as (I1 & I2 & I3 & I4). unfold zsum in *. cbn [map foldr event_summary event_word fst snd] in *.
  split_and!; [intros k; by rewrite I1|by rewrite I2| |].
  - intros w k b [[= -> ->]|Hin]%elem_of_cons.
    + rewrite bool_decide_true, I4 by done. lia.
    + rewrite bool_decide_false; [by rewrite (I3 w k b Hin)|]. intros ->. apply Hn. by apply (list_elem_of_fmap_2 fst) in Hin.
  - intros w k Hw. rewrite fmap_cons, elem_of_cons in Hw. rewrite I4 by tauto. rewrite bool_decide_false; [done|]. intros ->. apply Hw. by left.
Qed.
End TOTALS.

(** ** A thread's way through its documents *)

(** After [j] documents since the last restart. *)
Record at_doc (docs : list LDADoc) (j : Z) (total per_clock : Z) (w : workload) : Prop := {
  ad_docs : partition_docs_ (doc_loader_ w) = docs;
  ad_curr : 0 <= curr_ (doc_loader_ w) <= blen docs;
  ad_mod : 0 < blen docs -> curr_ (doc_loader_ w) mod blen docs = j mod blen docs;
  ad_j : num_docs_this_work_unit_ w = j;
  ad_total : num_docs_per_work_unit_ w = total;
  ad_clock : num_docs_per_clock_ w = per_clock
}.

Lemma at_doc_restart docs j total pc w : at_doc docs j total pc w -> at_doc docs 0 total pc (RestartWorkUnit w).
Proof. intros [H1 H2 H3 H4 H5 H6]. split; try done. cbn. unfold blen. lia. Qed.

Lemma next_doc_ok docs j total pc w : at_doc docs j total pc w -> 0 <= j < total -> 0 < blen docs ->
  exists d w', docs !! Z.to_nat (j mod blen docs) = Some d /\ next_doc w = Ret (j mod blen docs, d, w') /\ at_doc docs (j + 1) total pc w' /\
    curr_ (doc_loader_ w') = j mod blen docs + 1.
Proof.
  intros [H1 H2 H3 H4 H5 H6] Hj Hn. specialize (H3 Hn). pose proof (Z.mod_pos_bound j (blen docs) Hn) as Hm. set (n := blen docs) in *.
  destruct (lookup_lt_is_Some_2 docs (Z.to_nat (j mod n))) as (d & Hd); [unfold n, blen in *; lia|].
  assert (Hat : vec_at docs (j mod n) = Ret d) by (apply vec_at_Ret; split; [lia|done]).
  unfold next_doc, GetOneDoc, IsEndOfWorkUnit. rewrite H4, H5, bool_decide_false by lia. cbn [negb CHECK mbind outcome_bind].
  assert (Hend : loader_IsEnd (doc_loader_ w) = bool_decide (curr_ (doc_loader_ w) = n)) by (unfold loader_IsEnd; by rewrite H1).
  destruct (decide (curr_ (doc_loader_ w) = n)) as [E|E].
  - rewrite Hend, bool_decide_true by done. rewrite E, Z.mod_same in H3 by lia. unfold loader_GetOneDoc, loader_Restart, loader_IsEnd. cbn [partition_docs_ curr_].
    rewrite H1, bool_decide_false by (unfold n in *; lia). cbn [negb CHECK mbind outcome_bind doc_loader_ partition_docs_]. rewrite <- H3 in *. rewrite Hat. cbn [mbind outcome_bind].
    eexists d, _. split_and!; [done|done| |done]. split; cbn; try done; try lia.
    + fold n. intros _. rewrite (Z.add_mod j 1), <- H3, !Z.add_0_l, ?Z.mod_mod by lia. done.
  - rewrite Hend, bool_decide_false by done. rewrite Z.mod_small in H3 by lia. unfold loader_GetOneDoc. rewrite Hend, bool_decide_false by done.
    cbn [negb CHECK mbind outcome_bind doc_loader_ partition_docs_]. rewrite H1, H3, Hat. cbn [mbind outcome_bind].
    eexists d, _. split_and!; [done|done| |done]. split; cbn; try done; try lia.
    fold n. intros _. rewrite (Z.add_mod j 1), (Z.add_mod (j mod n) 1) by lia. by rewrite Z.mod_mod by lia.
Qed.

Lemma at_end docs j total pc w : at_doc docs j total pc w -> IsEndOfAnIter w = bool_decide (curr_ (doc_loader_ w) = blen docs).
Proof. intros [H1 _ _ _ _ _]. unfold IsEndOfAnIter, loader_IsEnd. by rewrite H1. Qed.

(** ** Counting *)
Lemma batch_delta_app k b b' : batch_delta k (b ++ b') = batch_delta k b + batch_delta k b'.
Proof. unfold batch_delta. induction b as [|e b IH]; [done|]. cbn [app foldr]. rewrite IH. case_bool_decide; lia. Qed.
Lemma batch_delta_one k t : batch_delta k [(t, 1)] = if decide (t = k) then 1 else 0.
Proof. unfold batch_delta. cbn. case_bool_decide; by case_decide. Qed.
Lemma cnt_snoc k l x : cnt k (l ++ [x]) = cnt k l + if decide (x = k) then 1 else 0.
Proof. rewrite (cnt_perm k _ (x :: l)), cnt_cons by (symmetry; apply Permutation_cons_append). lia. Qed.

(** The first [n] tokens of a document. *)
Definition doc_take (n : nat) (d : LDADoc) : LDADoc := mkdoc (take n (tokens_ d)) (take n (token_topics_ d)) (num_topics_ d).
Lemma cnt2_take w k d it wd t : tokens_ d !! it = Some wd -> token_topics_ d !! it = Some t ->
  cnt2 w k (doc_take (S it) d) = cnt2 w k (doc_take it d) + if decide (wd = w) then (if decide (t = k) then 1 else 0) else 0.
Proof.
  intros Hw Ht. unfold cnt2, doc_take. cbn [tokens_ token_topics_]. rewrite (take_S_r _ _ _ Hw), (take_S_r _ _ _ Ht).
  rewrite zip_with_app by (rewrite !length_take; apply lookup_lt_Some in Hw, Ht; lia). rewrite filter_app, length_app. cbn [zip_with]. rewrite filter_cons, filter_nil.
  destruct (decide ((wd, t) = (w, k))) as [[= -> ->]|Hne]; [rewrite !decide_True by done; cbn [length]; lia|]. cbn [length].
  destruct (decide (wd = w)) as [->|]; [|lia]. destruct (decide (t = k)) as [->|]; [done|lia].
Qed.

Definition tallied (docs : list LDADoc) (s : tally_state) : Prop :=
  (forall k, batch_delta k s.2 = total_topic k docs) /\ (forall w k, batch_delta k (default [] (s.1 !! w)) = total_word w k docs).

Lemma tally_doc_ok docs d s : length (token_topics_ d) = length (tokens_ d) -> tallied docs s ->
  exists s', foldM (tally_token d) (seqZ 0 (GetNumTokens d)) s = Ret s' /\ tallied (docs ++ [d]) s'.
Proof.
  intros Hl [H1 H2]. unfold GetNumTokens, blen.
  destruct (foldM_seqZ_inv (tally_token d) (fun it s' => (forall k, batch_delta k s'.2 = total_topic k docs + cnt k (take it (token_topics_ d))) /\
    forall w k, batch_delta k (default [] (s'.1 !! w)) = total_word w k docs + cnt2 w k (doc_take it d)) (length (tokens_ d)) s) as (s' & E & H3 & H4).
  - split; [intros k; change (cnt k (take 0 (token_topics_ d))) with 0; rewrite H1; lia|intros w k; change (cnt2 w k (doc_take 0 d)) with 0; rewrite H2; lia].
  - intros it s1 Hit [I1 I2]. destruct (lookup_lt_is_Some_2 (tokens_ d) it Hit) as (wd & Hw). destruct (lookup_lt_is_Some_2 (token_topics_ d) it) as (t & Ht); [lia|].
    assert (Ew : it_Word d (Z.of_nat it) = Ret wd) by (apply vec_at_Ret; rewrite Nat2Z.id; split; [lia|done]).
    assert (Et : it_Topic d (Z.of_nat it) = Ret t) by (apply vec_at_Ret; rewrite Nat2Z.id; split; [lia|done]).
    unfold tally_token. rewrite Ew, Et. cbn [mbind outcome_bind]. eexists. split; [done|]. cbn [fst snd]. split.
    + intros k. rewrite batch_delta_app, I1, batch_delta_one, (take_S_r _ _ _ Ht), cnt_snoc. lia.
    + intros w k. rewrite (cnt2_take w k d it wd t Hw Ht). destruct (decide (wd = w)) as [->|Hne].
      * rewrite lookup_insert_eq. change (default [] (Some ?x)) with x. rewrite batch_delta_app, batch_delta_one, I2. lia.
      * rewrite lookup_insert_ne, I2 by done. lia.
  - exists s'. split; [done|]. split.
    + intros k. rewrite H3, firstn_all2 by lia. unfold total_topic. rewrite map_app, zsum_app. cbn. lia.
    + intros w k. rewrite H4. unfold total_word. rewrite map_app, zsum_app. unfold doc_take. rewrite !firstn_all2 by lia. destruct d. cbn. lia.
Qed.

Lemma tally_loop_ok docs total pc fuel : forall c w s, at_doc docs (Z.of_nat c) total pc w -> curr_ (doc_loader_ w) = Z.of_nat c -> blen docs <= total ->
  Forall (fun d => length (token_topics_ d) = length (tokens_ d)) docs -> tallied (take c docs) s -> (length docs - c < fuel)%nat ->
  exists w' s', tally_loop fuel w s = Ret (w', s') /\ at_doc docs (blen docs) total pc w' /\ tallied docs s'.
Proof.
  induction fuel as [|fuel IH]; intros c w s Hw Hcur Hle Hd Hs Hf; [lia|]. cbn [tally_loop]. rewrite (at_end _ _ _ _ _ Hw), Hcur.
  pose proof (ad_curr _ _ _ _ _ Hw) as Hc. rewrite Hcur in Hc. case_bool_decide as Hend.
  - exists w, s. rewrite firstn_all2 in Hs by (unfold blen in Hend; lia). by rewrite <- Hend.
  - destruct (next_doc_ok docs (Z.of_nat c) total pc w Hw) as (d & w' & Hdoc & E & Hw' & Hcur'); [lia..|]. rewrite Z.mod_small, Nat2Z.id in * by lia.
    rewrite E. cbn [mbind outcome_bind]. destruct (tally_doc_ok (take c docs) d s) as (s' & E' & Hs'); [by eapply Forall_lookup_1 in Hd|done|].
    rewrite E'. cbn [mbind outcome_bind]. rewrite <- (take_S_r _ _ _ Hdoc) in Hs'.
    apply (IH (S c)); rewrite ?Nat2Z.inj_succ, <- ?Z.add_1_r; try done. apply lookup_lt_Some in Hdoc. lia.
Qed.

(** ** The likelihood of a document *)
Lemma count_topics_ok {F : Type} (p : params F) n d : doc_ok (K_ p) n d -> n < 2 ^ 31 ->
  foldM (count_topic d) (seqZ 0 (GetNumTokens d)) (replicate (Z.to_nat (K_ p)) 0, 0) = Ret (counts (K_ p) (token_topics_ d), blen (tokens_ d)).
Proof.
  intros [Hlen Htop Hn] Hsmall. unfold GetNumTokens, blen in *.
  destruct (foldM_seqZ_inv (count_topic d) (fun i s => s = (counts (K_ p) (take i (token_topics_ d)), Z.of_nat i)) (length (tokens_ d)) (replicate (Z.to_nat (K_ p)) 0, 0)) as (s & E & Hs).
  - by rewrite <- counts_nil.
  - intros i s Hi ->. destruct (lookup_lt_is_Some_2 (token_topics_ d) i ltac:(lia)) as (k & Hk). pose proof (Forall_lookup_1 _ _ _ _ Htop Hk) as Hkr. cbn beta in Hkr.
    eexists. split; [|done]. unfold count_topic, it_Topic. rewrite (vec_at_nat (token_topics_ d) i k) by done. cbn [mbind outcome_bind fst snd].
    pose proof (counts_snoc p (take i (token_topics_ d)) k Hkr ltac:(unfold blen; rewrite length_take; lia)) as E. rewrite (take_S_r _ _ _ Hk).
    destruct (vec_at (counts (K_ p) (take i (token_topics_ d))) k) as [m| |]; cbn [mbind outcome_bind] in E |- *; try done. rewrite E. cbn [mbind outcome_bind]. do 2 f_equal. lia.
  - by rewrite E, Hs, take_ge by lia.
Qed.

(** The logarithm of the Dirichlet-multinomial probability of the topics. *)
Lemma doc_llh_ok {F : Type} `{Float F} f_log f_lit (p : params F) V alpha beta s n d :
  LDAStats_new f_log f_lit (K_ p) V alpha beta = Ret s -> 0 <= K_ p -> doc_ok (K_ p) n d -> n < 2 ^ 31 ->
  let LG x := LogGamma f_log f_lit x in
  let llh := f_sub (foldl (fun l k => f_add l (LG (f_add (f_of_Z (cnt k (token_topics_ d))) alpha)))
                          (f_sub (LG (f_mul (f_of_Z (K_ p)) alpha)) (f_mul (f_of_Z (K_ p)) (LG alpha))) (seqZ 0 (K_ p)))
                   (LG (f_add (f_of_Z (blen (tokens_ d))) (f_mul (f_of_Z (K_ p)) alpha))) in
  ComputeOneDocLLH f_log f_lit s d = (_ ← check_not_nan llh; _ ← CHECK (f_leb llh f_zero); Ret llh).
Proof.
  intros Es HK Hd Hn LG llh. assert (EK : st_K_ s = K_ p /\ log_doc_normalizer_ s = f_sub (LG (f_mul (f_of_Z (K_ p)) alpha)) (f_mul (f_of_Z (K_ p)) (LG alpha))).
  { pose proof Es as Es'. unfold LDAStats_new in Es'. by inv_outcome. }
  destruct EK as [EK En]. unfold ComputeOneDocLLH. rewrite EK, En, (count_topics_ok p n d Hd Hn). cbn [mbind outcome_bind].
  rewrite (foldM_pure _ (fun l k => f_add l (LG (f_add (f_of_Z (cnt k (token_topics_ d))) alpha)))).
  - cbn [mbind outcome_bind]. destruct (offsets_exact f_log f_lit _ _ _ _ s (blen (tokens_ d)) Es ltac:(unfold blen; lia)) as (_ & -> & _). done.
  - intros l k Hk%elem_of_seqZ. unfold counts. rewrite vec_at_map_seqZ by lia. cbn [mbind outcome_bind]. pose proof (cnt_bounds k (token_topics_ d)) as [Hc _].
    rewrite bool_decide_true by done. cbn [CHECK mbind outcome_bind]. by destruct (offsets_exact f_log f_lit _ _ _ _ s (cnt k (token_topics_ d)) Es Hc) as (-> & _).
Qed.

(** ** Outcomes that are defined

    [o] returns what [P] says, or a check fails, and not if [ok]. *)
Definition ends {A} (ok : Prop) (P : A -> Prop) (o : outcome A) : Prop := match o with Ret x => P x | CheckFail => ~ ok | Undef => False end.
Lemma ends_bind {A B} ok (P : A -> Prop) (Q : B -> Prop) o f : ends ok P o -> (forall x, P x -> ends ok Q (f x)) -> ends ok Q (x ← o; f x).
Proof. intros Ho Hf. destruct o as [x| |]; cbn in *; [by apply Hf|done|done]. Qed.
Lemma ends_foldM {A S} ok (f : S -> A -> outcome S) l s : (forall s x, x ∈ l -> ends ok (fun _ => True) (f s x)) -> ends ok (fun _ => True) (foldM f l s).
Proof.
  revert s. induction l as [|x l IH]; intros s Hf; [done|]. cbn [foldM]. apply (ends_bind ok (fun _ => True)); [apply Hf; by left|]. intros s' _. apply IH. intros s1 y Hy. apply Hf. by right.
Qed.
Lemma ends_check ok b : (ok -> b = true) -> ends ok (fun _ => b = true) (CHECK b).
Proof. intros Hb. destruct b; [done|]. intros Hok. by specialize (Hb Hok). Qed.
(** Defined and, if [ok], not failing. *)
Lemma ends_strengthen {A} (ok : Prop) (P : A -> Prop) o : ends False P o -> (ok -> exists v, o = Ret v) -> ends ok P o.
Proof. intros Ho Hok. destruct o; [done| |done]. intros H. by destruct (Hok H). Qed.
Lemma ends_Ret {A} ok (P : A -> Prop) o x : o = Ret x -> P x -> ends ok P o.
Proof. by intros ->. Qed.

Section LLH.
Context {F : Type} `{Float F}.
Context (f_log : F -> F) (f_lit : Z -> Z -> F) (K V : Z) (alpha beta : F) (s : LDAStats F) (Es : LDAStats_new f_log f_lit K V alpha beta = Ret s).
Lemma beta_offset_ends val : 0 <= val -> ends False (fun _ => True) (GetLogGammaBetaOffset f_log f_lit s val).
Proof. intros Hv. by destruct (offsets_exact f_log f_lit _ _ _ _ s val Es Hv) as (_ & _ & ->). Qed.
Lemma not_nan_ends x : ends False (fun _ => True) (check_not_nan x).
Proof. unfold check_not_nan. destruct (f_eqb x x); cbn; tauto. Qed.
Lemma word_llh_ends rows a b : ends False (fun _ => True) (ComputeWordLLH f_log f_lit s rows a b).
Proof.
  unfold ComputeWordLLH. eapply ends_bind; [apply beta_offset_ends; lia|]. intros z _. eapply ends_bind; [|intros l _; eapply ends_bind; [apply not_nan_ends|done]].
  apply ends_foldM. intros l w _. unfold word_row_llh. case_bool_decide; [|done]. eapply ends_bind; [|done]. apply ends_foldM. intros l' e _. unfold word_entry.
  eapply ends_bind; [by apply ends_check|]. intros u Hu%bool_decide_eq_true. eapply ends_bind; [by apply beta_offset_ends|]. intros g _. eapply ends_bind; [apply not_nan_ends|done].
Qed.
Lemma summary_llh_ends (base : Z -> Z) : 0 <= K -> ends False (fun _ => True) (ComputeWordLLHSummary f_log f_lit s (map base (seqZ 0 K))).
Proof.
  intros HK. assert (EK : st_K_ s = K) by (unfold LDAStats_new in Es; by inv_outcome). unfold ComputeWordLLHSummary. rewrite EK.
  eapply ends_bind; [|intros l _; eapply ends_bind; [apply not_nan_ends|done]]. apply ends_foldM. intros l k Hk%elem_of_seqZ.
  assert (E : vec_at (map base (seqZ 0 K)) k = Ret (base k)).
  { apply vec_at_Ret. split; [lia|]. change (map ?f ?q) with (f <$> q). rewrite list_lookup_fmap, lookup_seqZ_lt by lia. cbn. f_equal. f_equal. lia. }
  rewrite E. cbn [mbind outcome_bind]. eapply ends_bind; [apply not_nan_ends|done].
Qed.
Lemma doc_llh_ends (p : params F) n d : K = K_ p -> 0 <= K -> doc_ok K n d -> n < 2 ^ 31 -> ends False (fun _ => True) (ComputeOneDocLLH f_log f_lit s d).
Proof.
  intros -> HK Hd Hn. rewrite (doc_llh_ok f_log f_lit p V alpha beta s n d Es HK Hd Hn). eapply ends_bind; [apply not_nan_ends|]. intros u _. by eapply ends_bind; [apply ends_check|].
Qed.
End LLH.

(** ** The engine *)
Section ENGINE.
Context {F : Type} `{RL : RealLaws F} `{!HashOrder, !HashOrderOk}.
Context (f_log : F -> F) (f_lit : Z -> Z -> F) (cfg : engine_config) (p : params F) (stats : LDAStats F) (env : engine_env F).
Abbreviation K := (K_ p).

(** A document whose words are those of [d0] and whose topics are of the model. *)
Definition same_words (d0 d : LDADoc) : Prop := tokens_ d = tokens_ d0 /\ doc_ok K (blen (tokens_ d)) d.

(** The summary row the thread reads has all its own updates and
    non-negative counts of the others that fit with its own. *)
Definition reads_own (tokens : Z) : Prop := forall n tr, exists base, (forall k, 0 <= k < K -> 0 <= base k /\ base k + tokens < 2 ^ 31) /\
  ee_summary env n tr = map (fun k => base k + sent_summary k tr) (seqZ 0 K).

Record env_ok (docs : list LDADoc) : Prop := {
  eo_priors : priors_ok p;
  eo_rows n it : row_ok p (ee_word_rows env n it);
  eo_darts n it : f_leb f_zero (ee_darts env n it) = true;
  eo_summary : reads_own (total_tokens docs);
  eo_small : total_tokens docs < 2 ^ 31;
  eo_docs : Forall (fun d => doc_ok K (blen (tokens_ d)) d) docs;
  eo_interval : ec_compute_ll_interval cfg <> 0;
  eo_stats : exists V alpha beta, LDAStats_new f_log f_lit K V alpha beta = Ret stats
}.

(** No likelihood is computed, or all pass their checks: they are numbers, and
    those of documents are not positive. *)
Definition likelihoods_pass (docs : list LDADoc) : Prop := ec_compute_ll_interval cfg = -1 \/
  (forall d0 d, d0 ∈ docs -> same_words d0 d -> exists v, ComputeOneDocLLH f_log f_lit stats d = Ret v) /\
  (forall n a b, exists v, ComputeWordLLH f_log f_lit stats (ee_llh_rows env n) a b = Ret v) /\
  (forall n tr, exists v, ComputeWordLLHSummary f_log f_lit stats (ee_summary env n tr) = Ret v).

Definition arrays_ok (a : FastDocSampler F) : Prop :=
  blen (doc_topic_vec_ a) = K /\ blen (q_coeff_ a) = K /\ blen (nonzero_doc_topic_idx_ a) = K /\ blen (nonzero_q_terms_ a) = K /\ blen (nonzero_q_terms_topic_ a) = K.

(** What holds after [j] documents of a work unit. *)
Record einv (docs0 : list LDADoc) (total pc : Z) (e : engine F) (j : Z) : Prop := {
  ei_at : at_doc (partition_docs_ (doc_loader_ (e_work e))) j total pc (e_work e);
  ei_same : Forall2 same_words docs0 (partition_docs_ (doc_loader_ (e_work e)));
  ei_summary k : sent_summary k (e_trace e) = total_topic k (partition_docs_ (doc_loader_ (e_work e)));
  ei_word w k : sent_word w k (e_trace e) = total_word w k (partition_docs_ (doc_loader_ (e_work e)));
  ei_arrays : arrays_ok (e_sampler e)
}.
(** The cached row is up to date with the thread's own updates. *)
Definition row_current (docs0 : list LDADoc) (e : engine F) : Prop := exists base, (forall k, 0 <= k < K -> 0 <= base k /\ base k + total_tokens docs0 < 2 ^ 31) /\
  summary_row (e_sampler e) = map (fun k => base k + sent_summary k (e_trace e)) (seqZ 0 K).

Lemma same_tokens docs0 docs : Forall2 same_words docs0 docs -> total_tokens docs = total_tokens docs0 /\ blen docs = blen docs0.
Proof.
  unfold total_tokens, blen. induction 1 as [|d0 d l0 l [E _] _ [IH1 IH2]]; [done|]. unfold zsum in *. cbn [map foldr length]. rewrite E, IH1. split; [done|lia].
Qed.

Lemma doc_of docs0 docs i d : Forall2 same_words docs0 docs -> docs !! i = Some d -> doc_ok K (blen (tokens_ d)) d.
Proof. intros Hf Hd. destruct (Forall2_lookup_r _ _ _ _ _ Hf Hd) as (d0 & _ & [_ Hok]). done. Qed.

Lemma ready docs0 total pc e j i d : einv docs0 total pc e j -> row_current docs0 e -> total_tokens docs0 < 2 ^ 31 ->
  partition_docs_ (doc_loader_ (e_work e)) !! i = Some d -> sampler_ready p d (e_sampler e).
Proof.
  intros [_ Hsame Hsum _ (A1 & A2 & A3 & A4 & A5)] (base & Hbase & Hrow) Hsmall Hd. set (docs := partition_docs_ _) in *. pose proof (doc_of _ _ _ _ Hsame Hd) as Hok.
  destruct (same_tokens _ _ Hsame) as [Etok _].
  assert (Hbound : forall k, cnt k (token_topics_ d) <= total_topic k docs /\ total_topic k docs - cnt k (token_topics_ d) + blen (tokens_ d) <= total_tokens docs).
  { intros k. apply (zsum_one (fun d => cnt k (token_topics_ d)) (fun d => blen (tokens_ d)) docs i d Hd). intros d' Hd'. apply list_elem_of_lookup in Hd' as (i' & Hi').
    pose proof (doc_of _ _ _ _ Hsame Hi') as [Hl _ _]. pose proof (cnt_bounds k (token_topics_ d')) as Hc. unfold blen in *. lia. }
  constructor; try done.
  - destruct (Hbound 0). pose proof (cnt_bounds 0 (token_topics_ d)). lia.
  - rewrite Hrow. unfold blen in *. rewrite length_map, length_seqZ. lia.
  - intros k n Hk. rewrite Hrow in Hk. change (map ?f ?l) with (f <$> l) in Hk. rewrite list_lookup_fmap in Hk. destruct (seqZ 0 K !! k) as [k'|] eqn:Ek; [|done].
    apply lookup_seqZ in Ek as [-> Hlt]. injection Hk as <-. rewrite Z.add_0_l, Hsum. destruct (Hbase (Z.of_nat k) ltac:(lia)). destruct (Hbound (Z.of_nat k)). lia.
Qed.

Lemma refresh_ok docs0 total pc e j : reads_own (total_tokens docs0) -> einv docs0 total pc e j -> einv docs0 total pc (refresh env e) j /\ row_current docs0 (refresh env e).
Proof.
  intros Hr [I1 I2 I3 I4 I5]. split; [by constructor|]. destruct (Hr (e_refreshes e) (e_trace e)) as (base & Hb & Er). by exists base.
Qed.

Lemma emit_silent docs0 total pc e j l : Forall silent l -> einv docs0 total pc e j -> einv docs0 total pc (emit l e) j /\ clocks (e_trace (emit l e)) = clocks (e_trace e).
Proof.
  intros Hl [I1 I2 I3 I4 I5]. destruct (sent_silent l Hl) as (S1 & S2 & S3). cbn [emit e_trace e_work e_sampler]. rewrite clocks_app, S3. split; [|lia]. constructor; try done; cbn [emit e_trace e_work e_sampler]; intros.
  - rewrite sent_summary_app, S1, I3. lia.
  - rewrite sent_word_app, S2, I4. lia.
Qed.

Lemma clock_emitted docs0 total pc e j : einv docs0 total pc e j -> einv docs0 total pc (emit [Clock] e) j /\ clocks (e_trace (emit [Clock] e)) = clocks (e_trace e) + 1.
Proof.
  intros [I1 I2 I3 I4 I5]. cbn [emit e_trace e_work e_sampler]. rewrite clocks_app. split; [|done]. constructor; try done; cbn [emit e_trace e_work e_sampler]; intros.
  - rewrite sent_summary_app, I3. change (sent_summary k [Clock]) with 0. lia.
  - rewrite sent_word_app, I4. change (sent_word w k [Clock]) with 0. lia.
Qed.

Lemma sample_next_ok docs0 total pc e j : env_ok docs0 -> einv docs0 total pc e j -> row_current docs0 e -> 0 <= j < total -> 0 < blen docs0 -> 0 < pc ->
  exists e', sample_next p env e = Ret e' /\ einv docs0 total pc e' (j + 1) /\ row_current docs0 e' /\ e_sampled e' = S (e_sampled e) /\
    clocks (e_trace e') = clocks (e_trace e) + if bool_decide (Z.rem (j + 1) pc = 0) then 1 else 0.
Proof.
  intros Henv Hinv Hrow Hj Hn Hpc. pose proof Hinv as [Hat Hsame Hsum Hword Harr]. destruct (same_tokens _ _ Hsame) as [_ Elen]. set (docs := partition_docs_ (doc_loader_ (e_work e))) in *.
  destruct (next_doc_ok docs j total pc (e_work e) Hat Hj ltac:(lia)) as (d & w & Hd & E & Hw & _). pose proof (ready docs0 total pc e j _ d Hinv Hrow (eo_small _ Henv) Hd) as Hready.
  destruct (SampleOneDoc_ok p (ee_word_rows env (e_sampled e)) (ee_darts env (e_sampled e)) d (e_sampler e) (eo_priors _ Henv) Hready (eo_rows _ Henv _) (eo_darts _ Henv _))
    as (a & d' & us & Es & Ha & Hd' & Et & En & [Um Uw]).
  set (i := j mod blen docs) in *. pose proof (Z.mod_pos_bound j (blen docs) ltac:(lia)) as Hi. fold i in Hi.
  unfold sample_next. rewrite E. cbn [mbind outcome_bind]. rewrite Es. cbn [mbind outcome_bind].
  unfold workload_set_doc, loader_set_doc, vec_set. rewrite (ad_docs _ _ _ _ _ Hw), bool_decide_true by (unfold blen in Hi; lia). cbn [mbind outcome_bind].
  set (docs' := <[Z.to_nat i := d']> docs). set (w' := mkworkload _ _ _ _ _). set (e1 := mkengine w' a _ _ _).
  assert (Edocs : blen docs' = blen docs) by (unfold docs', blen; by rewrite length_insert).
  assert (Hw' : at_doc docs' (j + 1) total pc w') by (destruct Hw as [W1 W2 W3 W4 W5 W6]; constructor; cbn; rewrite ?Edocs; done).
  unfold NeedToClock. rewrite (ad_clock _ _ _ _ _ Hw'), (ad_j _ _ _ _ _ Hw'), bool_decide_false, (bool_decide_true (j + 1 <> 0)), andb_true_r by lia. cbn [mbind outcome_bind].
  destruct (sent_sampler (F := F) us) as (S1 & S2 & S3). destruct Ha as [A1 A2 A3 A4 A5 A6 (rest & A7 & A8) A9].
  assert (Hcl1 : clocks (e_trace e1) = clocks (e_trace e)) by (cbn [e1 e_trace]; rewrite clocks_app, S3; lia).
  assert (Hinv1 : einv docs0 total pc e1 (j + 1)).
  { constructor; cbn [e1 e_work e_trace e_sampler w' doc_loader_ partition_docs_].
    - done.
    - destruct (Forall2_lookup_r _ _ _ _ _ Hsame Hd) as (d0 & Hd0 & [Ed0 _]). rewrite <- (list_insert_id docs0 _ _ Hd0). apply Forall2_insert; [done|].
      split; [congruence|]. by rewrite Et.
    - intros k. rewrite sent_summary_app, S1, Um, Hsum. unfold total_topic, docs'. rewrite (zsum_insert _ docs _ d d' Hd). lia.
    - intros w0 k. rewrite sent_word_app, S2, Uw, Hword. unfold total_word, docs'. rewrite (zsum_insert _ docs _ d d' Hd). lia.
    - unfold arrays_ok. rewrite A1, A5, A7, A8. pose proof (po_K p (eo_priors _ Henv)). unfold counts, blen. rewrite !length_map, !length_seqZ. split_and!; try lia; apply A9. }
  assert (Hrow1 : row_current docs0 e1).
  { destruct Hrow as (base & Hb & Er). exists base. split; [done|]. cbn [e1 e_sampler e_trace]. rewrite A2. apply map_ext_in. intros k Hk%list_elem_of_In%elem_of_seqZ.
    rewrite sent_summary_app, S1, Um. unfold base_of. rewrite Er. change (map ?f ?l) with (f <$> l). rewrite list_lookup_fmap, lookup_seqZ_lt by lia. cbn [fmap option_fmap option_map default from_option].
    unfold id. rewrite Z.add_0_l, Z2Nat.id by lia. lia. }
  case_bool_decide as Hclk.
  - destruct (clock_emitted _ _ _ _ _ Hinv1) as [I1 I2]. destruct (refresh_ok _ _ _ _ _ (eo_summary _ Henv) I1) as [I3 I4]. eexists. split; [done|]. split_and!; [done|done|done|].
    cbn [refresh e_trace]. lia.
  - eexists. split; [done|]. split_and!; try done. lia.
Qed.

Lemma div_succ j pc : 0 <= j -> 0 < pc -> (j + 1) / pc = j / pc + if bool_decide (Z.rem (j + 1) pc = 0) then 1 else 0.
Proof.
  intros Hj Hpc. rewrite Z.rem_mod_nonneg by lia. pose proof (Z.div_mod j pc ltac:(lia)) as E. pose proof (Z.mod_pos_bound j pc Hpc) as Hm.
  destruct (decide (j mod pc = pc - 1)) as [Em|Em].
  - assert (Ed : (j + 1) / pc = j / pc + 1) by (symmetry; apply (Z.div_unique _ _ _ 0); lia).
    rewrite bool_decide_true; [done|]. rewrite Z.mod_eq, Ed by lia. lia.
  - assert (Ed : (j + 1) / pc = j / pc) by (symmetry; apply (Z.div_unique _ _ _ (j mod pc + 1)); lia).
    rewrite bool_decide_false; [lia|]. rewrite Z.mod_eq, Ed by lia. lia.
Qed.

Lemma sample_docs_ok docs0 total pc fuel : forall e j, env_ok docs0 -> einv docs0 total pc e j -> row_current docs0 e -> 0 <= j <= total -> (0 < total -> 0 < blen docs0 /\ 0 < pc) ->
  (Z.to_nat (total - j) < fuel)%nat ->
  exists e', sample_docs p env fuel e = Ret e' /\ einv docs0 total pc e' total /\ e_sampled e' = (e_sampled e + Z.to_nat (total - j))%nat /\
    clocks (e_trace e') = clocks (e_trace e) + (total / pc - j / pc).
Proof.
  induction fuel as [|fuel IH]; intros e j Henv Hinv Hrow Hj Hpos Hf; [lia|]. cbn [sample_docs]. unfold IsEndOfWorkUnit. pose proof (ei_at _ _ _ _ _ Hinv) as Hat.
  rewrite (ad_j _ _ _ _ _ Hat), (ad_total _ _ _ _ _ Hat). case_bool_decide as Hend.
  - subst j. exists e. split_and!; [done..|lia|lia].
  - destruct (Hpos ltac:(lia)) as [Hn Hpc]. destruct (sample_next_ok docs0 total pc e j Henv Hinv Hrow ltac:(lia) Hn Hpc) as (e1 & -> & Hinv1 & Hrow1 & Hs1 & Hc1).
    cbn [mbind outcome_bind]. destruct (IH e1 (j + 1) Henv Hinv1 Hrow1 ltac:(lia) Hpos ltac:(lia)) as (e' & -> & He' & Hs' & Hc').
    exists e'. split_and!; [done..|lia|]. rewrite Hc', Hc1, (div_succ j pc) by lia. lia.
Qed.

(** The likelihoods of the rows and documents a thread meets. *)
Lemma likelihoods_end docs0 : env_ok docs0 -> ec_compute_ll_interval cfg <> -1 -> let ok := likelihoods_pass docs0 in
  (forall d0 d, d0 ∈ docs0 -> same_words d0 d -> ends ok (fun _ => True) (ComputeOneDocLLH f_log f_lit stats d)) /\
  (forall n a b, ends ok (fun _ => True) (ComputeWordLLH f_log f_lit stats (ee_llh_rows env n) a b)) /\
  (forall n tr, ends ok (fun _ => True) (ComputeWordLLHSummary f_log f_lit stats (ee_summary env n tr))).
Proof.
  intros Henv Hint ok. destruct (eo_stats _ Henv) as (V & alpha & beta & Es). pose proof (po_K p (eo_priors _ Henv)) as HK.
  split_and!.
  - intros d0 d Hin Hd. apply ends_strengthen; [|intros [?|(Hl & _)]; [done|by eapply Hl]]. destruct Hd as [Ed Hd].
    eapply (doc_llh_ends _ _ _ _ _ _ _ Es p (blen (tokens_ d)) d eq_refl); [lia|done|]. rewrite Ed. pose proof (eo_small _ Henv). apply list_elem_of_lookup in Hin as (i & Hi).
    pose proof (zsum_one (fun d => blen (tokens_ d)) (fun d => blen (tokens_ d)) docs0 i d0 Hi ltac:(intros; unfold blen; lia)) as [Hle _]. pose proof (eo_small _ Henv) as Hsm.
    unfold total_tokens in Hsm. cbn beta in *. lia.
  - intros n a b. apply ends_strengthen; [by eapply word_llh_ends|intros [?|(_ & Hl & _)]; [done|apply Hl]].
  - intros n tr. apply ends_strengthen; [|intros [?|(_ & _ & Hl)]; [done|apply Hl]]. destruct (eo_summary _ Henv n tr) as (base & _ & ->). eapply (summary_llh_ends _ _ _ _ _ _ _ Es). lia.
Qed.

Lemma llh_loop_ok docs0 docs total pc ok fuel : forall c w v, at_doc docs (Z.of_nat c) total pc w -> curr_ (doc_loader_ w) = Z.of_nat c -> blen docs <= total ->
  Forall2 same_words docs0 docs -> (forall d0 d, d0 ∈ docs0 -> same_words d0 d -> ends ok (fun _ => True) (ComputeOneDocLLH f_log f_lit stats d)) -> (length docs - c < fuel)%nat ->
  ends ok (fun r => at_doc docs (blen docs) total pc r.1) (llh_loop f_log f_lit stats fuel w v).
Proof.
  induction fuel as [|fuel IH]; intros c w v Hw Hcur Hle Hsame Hllh Hf; [lia|]. cbn [llh_loop]. rewrite (at_end _ _ _ _ _ Hw), Hcur.
  pose proof (ad_curr _ _ _ _ _ Hw) as Hc. rewrite Hcur in Hc. case_bool_decide as Hend; [cbn; by rewrite <- Hend|].
  destruct (next_doc_ok docs (Z.of_nat c) total pc w Hw) as (d & w' & Hdoc & E & Hw' & Hcur'); [lia..|]. rewrite Z.mod_small, Nat2Z.id in * by lia.
  rewrite E. cbn [mbind outcome_bind]. destruct (Forall2_lookup_r _ _ _ _ _ Hsame Hdoc) as (d0 & Hd0 & Hd). eapply ends_bind; [apply (Hllh d0 d); [by eapply list_elem_of_lookup_2|done]|]. intros v1 _.
  apply (IH (S c)); rewrite ?Nat2Z.inj_succ, <- ?Z.add_1_r; try done. apply lookup_lt_Some in Hdoc. lia.
Qed.

Lemma ComputeLLH_ok docs0 total pc e j u i it : env_ok docs0 -> ec_compute_ll_interval cfg <> -1 -> einv docs0 total pc e j -> blen docs0 <= total ->
  ends (likelihoods_pass docs0) (fun e' => einv docs0 total pc e' (blen docs0) /\ e_sampled e' = e_sampled e /\ clocks (e_trace e') = clocks (e_trace e)) (ComputeLLH f_log f_lit cfg stats env u i it e).
Proof.
  intros Henv Hint Hinv Hle. destruct (likelihoods_end _ Henv Hint) as (L1 & L2 & L3). pose proof Hinv as [Hat Hsame Hsum Hword Harr]. destruct (same_tokens _ _ Hsame) as [_ Elen].
  set (docs := partition_docs_ (doc_loader_ (e_work e))) in *. pose proof (at_doc_restart _ _ _ _ _ Hat) as Hat0. unfold ComputeLLH.
  eapply ends_bind; [apply (llh_loop_ok docs0 docs total pc _ (iter_fuel (e_work e)) 0 (RestartWorkUnit (e_work e)) f_zero Hat0 eq_refl ltac:(lia) Hsame L1); unfold iter_fuel; fold docs; lia|].
  intros [w v] Hw. cbn [fst] in Hw. eapply ends_bind; [apply L2|]. intros v2 _.
  assert (Hinv0 : einv docs0 total pc (set_work w e) (blen docs0)) by (constructor; cbn [set_work e_work e_trace e_sampler]; rewrite ?(ad_docs _ _ _ _ _ Hw), <- ?Elen; done).
  set (l1 := [LLHInc i kColIdxLLHTableLLH v; LLHInc i kColIdxLLHTableLLH v2]).
  destruct (emit_silent docs0 total pc (set_work w e) (blen docs0) l1 ltac:(by repeat constructor) Hinv0) as [Hinv1 Hc1]. set (e1 := emit l1 (set_work w e)) in *.
  case_bool_decide as Hhead; [|done]. eapply ends_bind; [apply L3|]. intros v3 _.
  set (l2 := [LLHInc i kColIdxLLHTableLLH v3; LLHInc i kColIdxLLHTableIter (f_of_Z it); LLHInc i kColIdxLLHTableTime (ee_seconds env (Z.to_nat u))]).
  destruct (emit_silent docs0 total pc e1 (blen docs0) l2 ltac:(by repeat constructor) Hinv1) as [Hinv2 Hc2]. cbn [ends]. by rewrite Hc2, Hc1.
Qed.

Lemma do_work_unit_ok docs0 total pc e j u : env_ok docs0 -> einv docs0 total pc e j -> 0 <= total -> blen docs0 <= total -> (0 < total -> 0 < blen docs0 /\ 0 < pc) ->
  ends (likelihoods_pass docs0) (fun e' => exists j', einv docs0 total pc e' j' /\ e_sampled e' = (e_sampled e + Z.to_nat total)%nat /\ clocks (e_trace e') = clocks (e_trace e) + total / pc)
    (do_work_unit f_log f_lit cfg p stats env e u).
Proof.
  intros Henv Hinv Htot Hle Hpos. destruct (refresh_ok _ _ _ _ _ (eo_summary _ Henv) Hinv) as [Hinv1 Hrow1]. unfold do_work_unit. set (e1 := refresh env e) in *.
  set (e2 := set_work (RestartWorkUnit (e_work e1)) e1). assert (Hinv2 : einv docs0 total pc e2 0).
  { destruct Hinv1 as [I1 I2 I3 I4 I5]. constructor; try done. by apply (at_doc_restart _ j). }
  rewrite (ad_total _ _ _ _ _ (ei_at _ _ _ _ _ Hinv2)).
  destruct (sample_docs_ok docs0 total pc (S (Z.to_nat total)) e2 0 Henv Hinv2 Hrow1 ltac:(lia) Hpos ltac:(lia)) as (e3 & -> & Hinv3 & Hs3 & Hc3). cbn [mbind outcome_bind].
  rewrite Z.sub_0_r in Hs3. rewrite Zdiv_0_l, Z.sub_0_r in Hc3. change (e_sampled e2) with (e_sampled e) in Hs3. change (e_trace e2) with (e_trace e) in Hc3.
  unfold llh_due. destruct (decide (ec_compute_ll_interval cfg = -1)) as [Hi|Hi].
  - rewrite bool_decide_true by done. cbn [mbind outcome_bind ends]. by exists total.
  - rewrite (bool_decide_false (_ = -1)), (bool_decide_false (_ = 0)) by (done || apply (eo_interval _ Henv)). cbn [mbind outcome_bind]. case_bool_decide; [|by exists total].
    pose proof (ComputeLLH_ok docs0 total pc e3 total u (Z.quot u (ec_compute_ll_interval cfg)) (u * ec_num_iters_per_work_unit cfg) Henv Hi Hinv3 Hle) as Hend.
    destruct (ComputeLLH _ _ _ _ _ _ _ _ _) as [e4| |]; [|done..]. destruct Hend as (Hinv4 & Hs4 & Hc4). exists (blen docs0). by rewrite Hs4, Hc4.
Qed.

Lemma hash_tally (m : gmap Z (list (Z * Z))) :
  let l : list (engine_event F) := map (fun wb => WordTopicBatch wb.1 wb.2) (hash_order m) in
  (forall k, sent_summary k l = 0) /\ clocks l = 0 /\ forall w k, sent_word w k l = batch_delta k (default [] (m !! w)).
Proof.
  assert (Hnd : NoDup (hash_order m).*1) by (rewrite hash_order_perm; apply NoDup_fst_map_to_list). destruct (sent_batches (F := F) (hash_order m) Hnd) as (S1 & S2 & S3 & S4).
  split_and!; [done..|]. intros w k. destruct (m !! w) as [b|] eqn:Eb.
  - apply S3. rewrite hash_order_perm. by apply elem_of_map_to_list.
  - rewrite S4; [done|]. intros (e & -> & Hin)%list_elem_of_fmap. rewrite hash_order_perm in Hin. destruct e as [w b]. apply elem_of_map_to_list in Hin. cbn in Eb. congruence.
Qed.

Lemma tally_ok docs0 total pc a w : env_ok docs0 -> at_doc docs0 0 total pc w -> curr_ (doc_loader_ w) = 0 -> blen docs0 <= total -> arrays_ok a ->
  exists e, tally cfg env (mkengine w a [] 0 0) = Ret e /\ einv docs0 total pc e (blen docs0) /\ clocks (e_trace e) = 0 /\ e_sampled e = 0%nat.
Proof.
  intros Henv Hw Hcur Hle Ha. pose proof (eo_docs _ Henv) as Hdocs.
  destruct (tally_loop_ok docs0 total pc (iter_fuel w) 0 w (∅, [])) as (w' & [m sb] & E & Hw' & Ht1 & Ht2); try done.
  { eapply Forall_impl; [exact Hdocs|]. by intros d []. }
  { unfold iter_fuel. rewrite (ad_docs _ _ _ _ _ Hw). lia. }
  unfold tally. cbn [e_work]. rewrite E. cbn [mbind outcome_bind fst snd] in *. destruct (hash_tally m) as (S1 & S2 & S3).
  set (batches := map _ (hash_order m)) in *. set (asyncs := if bool_decide (ec_thread_id cfg = 0) then _ else _).
  set (rest := [GlobalBarrier; BarrierWait] ++ asyncs ++ [BarrierWait]).
  assert (Hrest : Forall silent rest).
  { unfold rest. repeat (apply Forall_cons; split; [done|]). apply Forall_app. split; [|by repeat constructor]. unfold asyncs. case_bool_decide; [|constructor].
    apply Forall_app. split; [|by repeat constructor]. apply Forall_forall. by intros ev (? & -> & _)%list_elem_of_fmap. }
  destruct (sent_silent rest Hrest) as (R1 & R2 & R3).
  exists (emit (batches ++ [SummaryBatch sb] ++ rest) (set_work w' (mkengine w a [] 0 0))). split; [done|]. cbn [emit set_work e_trace e_sampled e_work e_sampler app].
  split_and!; [constructor; cbn [emit set_work e_trace e_sampled e_work e_sampler app]|..]; rewrite ?(ad_docs _ _ _ _ _ Hw'); try done.
  - apply Forall_Forall2_diag. eapply Forall_impl; [exact Hdocs|]. by intros d Hd.
  - intros k. rewrite sent_summary_app, S1. change (SummaryBatch sb :: rest) with ([SummaryBatch sb] ++ rest). rewrite sent_summary_app, R1, <- Ht1.
    change (sent_summary k [SummaryBatch sb]) with (batch_delta k sb + 0). lia.
  - intros w0 k. rewrite sent_word_app, S3. change (SummaryBatch sb :: rest) with ([SummaryBatch sb] ++ rest). rewrite sent_word_app, R2, Ht2.
    change (sent_word w0 k [SummaryBatch sb]) with 0. lia.
  - rewrite clocks_app, S2. change (SummaryBatch sb :: rest) with ([SummaryBatch sb] ++ rest). rewrite clocks_app, R3. done.
Qed.

Lemma work_units_ok docs0 total pc : env_ok docs0 -> 0 <= total -> blen docs0 <= total -> (0 < total -> 0 < blen docs0 /\ 0 < pc) ->
  forall us e j, einv docs0 total pc e j ->
  ends (likelihoods_pass docs0) (fun e' => exists j', einv docs0 total pc e' j' /\
    e_sampled e' = (e_sampled e + length us * Z.to_nat total)%nat /\ clocks (e_trace e') = clocks (e_trace e) + blen us * (total / pc))
    (foldM (do_work_unit f_log f_lit cfg p stats env) us e).
Proof.
  intros Henv Ht Hle Hpos us. induction us as [|u us IH]; intros e j He; [exists j; split_and!; [done|cbn; lia|unfold blen; cbn; lia]|].
  cbn [foldM]. eapply ends_bind; [by eapply do_work_unit_ok|]. intros e1 (j1 & He1 & Hs1 & Hc1). pose proof (IH e1 j1 He1) as Hend.
  destruct (foldM _ us e1) as [e2| |]; [|done..]. destruct Hend as (j2 & He2 & Hs2 & Hc2).
  exists j2. split_and!; [done|rewrite Hs2, Hs1; cbn [length]; lia|]. rewrite Hc2, Hc1. unfold blen. cbn [length]. lia.
Qed.

(** C24: what a thread sends to the tables adds up to the topics of its documents: for documents with topics of the model, rows that contain
    the thread's own updates, at least one iteration and clock in a work unit, and fewer than [2^24] documents and clocks in it, [Start] is
    defined and does not run forever, and a check fails only if a likelihood fails one of its own; otherwise its documents keep
    their words and have topics of the model; for every topic, and for every word and topic, the counts it put in the tables at the start
    and the changes it sent while sampling add up to the numbers of its final documents; in every work unit each document is sampled once
    in each iteration; and the thread clocks once for every [num_docs_per_clock_] documents.  Weights are computed exactly ([RealLaws]). *)
Theorem engine_tables_count num_clocks array docs : let total := ec_num_iters_per_work_unit cfg * blen docs in
  env_ok docs -> 0 < ec_num_iters_per_work_unit cfg -> 0 < num_clocks < 2 ^ 24 -> total < 2 ^ 24 -> 0 <= ec_num_work_units cfg -> blen array = K ->
  (Start f_log f_lit cfg p stats env num_clocks array docs = CheckFail /\ ~ likelihoods_pass docs) \/
  exists e docs', Start f_log f_lit cfg p stats env num_clocks array docs = Ret e /\ docs' = partition_docs_ (doc_loader_ (e_work e)) /\
    Forall2 same_words docs docs' /\
    (forall k, sent_summary k (e_trace e) = total_topic k docs') /\
    (forall w k, sent_word w k (e_trace e) = total_word w k docs') /\
    Z.of_nat (e_sampled e) = ec_num_work_units cfg * total /\
    clocks (e_trace e) = ec_num_work_units cfg * (total / ceil_div total num_clocks).
Proof.
  intros total Henv Hit Hcl Hsmall Hun Harr. assert (Hn : 0 <= blen docs) by (unfold blen; lia).
  assert (Htot : 0 <= total) by (unfold total; nia). assert (Hle : blen docs <= total) by (unfold total; nia).
  assert (Hpos : 0 < total -> 0 < blen docs /\ 0 < ceil_div total num_clocks).
  { intros Ht. split; [unfold total in Ht; nia|]. unfold ceil_div. pose proof (Z.div_lt_upper_bound (- total) num_clocks 0 ltac:(lia) ltac:(lia)). lia. }
  set (w := mkworkload (loader_new docs) total (ceil_div total num_clocks) 1 0).
  assert (Ew : WorkloadManager_new (loader_new docs) (ec_num_iters_per_work_unit cfg) num_clocks = Ret w).
  { unfold WorkloadManager_new, int_mul. change (loader_GetNumDocs (loader_new docs)) with (blen docs). fold total. rewrite decide_True by (unfold in_i32; lia). cbn [mbind outcome_bind].
    by rewrite ceil_to_int_small by lia. }
  unfold Start. rewrite Ew. cbn [mbind outcome_bind].
  assert (Hw : at_doc docs 0 total (ceil_div total num_clocks) w) by (split; cbn; try done; lia).
  assert (Ha : arrays_ok (FastDocSampler_new p array [])).
  { pose proof (po_K p (eo_priors _ Henv)). unfold arrays_ok, blen. cbn. rewrite !length_replicate. split_and!; try lia; done. }
  destruct (tally_ok docs total _ _ w Henv Hw eq_refl Hle Ha) as (e0 & -> & Hinv & Hc & Hs). cbn [mbind outcome_bind].
  pose proof (work_units_ok docs total _ Henv Htot Hle Hpos (seqZ 1 (ec_num_work_units cfg)) e0 _ Hinv) as Hend.
  destruct (foldM _ _ e0) as [e| |]; [|by left|done]. right. destruct Hend as (j & He & Hs' & Hc'). cbn [mbind outcome_bind].
  destruct (emit_silent docs total _ e j [GlobalBarrier] ltac:(by repeat constructor) He) as [[_ Hsame Hsum Hword _] Hclk].
  exists (emit [GlobalBarrier] e), (partition_docs_ (doc_loader_ (e_work e))). split_and!; try done.
  - cbn [emit e_sampled]. rewrite Hs', Hs, length_seqZ. lia.
  - rewrite Hclk, Hc', Hc. unfold blen at 1. rewrite length_seqZ, Z2Nat.id by lia. lia.
Qed.
End ENGINE.

(** ** The words of the likelihood *)

(** The ranges of all threads of all clients partition the words: every word
    up to the largest is in the range of one thread. *)
Lemma vocab_ranges_partition (clients threads max_id w : Z) : 0 < clients -> 0 < threads -> 0 <= max_id ->
  let range c t := vocab_range (mkengine_config c clients t threads 0 0 0 max_id) in
  let holds c t := 0 <= c < clients /\ 0 <= t < threads /\ (range c t).1 <= w < (range c t).2 in
  0 <= w <= max_id -> (exists c t, holds c t) /\ forall c t c' t', holds c t -> holds c' t' -> c = c' /\ t = t'.
Proof.
  intros Hc Ht Hm range holds Hw. set (n := clients * threads). assert (Hn : 0 < n) by (unfold n; nia).
  set (q := Z.quot max_id n). assert (Hq : 0 <= q /\ q * n <= max_id) by (unfold q; rewrite Z.quot_div_nonneg by lia; pose proof (Z.div_pos max_id n); pose proof (Z.mul_div_le max_id n Hn); lia).
  (* the threads in one row *)
  assert (Hh : forall c t, holds c t <-> 0 <= c < clients /\ 0 <= t < threads /\ (c * threads + t) * q <= w /\ (c * threads + t < n - 1 -> w < (c * threads + t + 1) * q)).
  { intros c t. unfold holds, range, vocab_range. cbn [ec_client_id ec_num_clients ec_thread_id ec_num_threads ec_max_vocab_id fst snd]. fold n q.
    split; (intros (H1 & H2 & H3); split; [done|]; split; [done|]); revert H3; case_bool_decide as E; intros H3.
    - destruct E as [-> ->]. split; [lia|]. unfold n. nia.
    - split; [lia|]. intros _. nia.
    - destruct E as [-> ->]. lia.
    - destruct H3 as [H3 H4]. split; [done|]. assert (c * threads + t < n - 1) by (unfold n; nia). specialize (H4 ltac:(done)). nia. }
  split.
  - set (i := if decide (w < (n - 1) * q) then w / q else n - 1).
    assert (Hi : 0 <= i < n /\ i * q <= w /\ (i < n - 1 -> w < (i + 1) * q)).
    { unfold i. case_decide as E; [|split_and!; lia || nia]. assert (Hq0 : 0 < q) by nia. pose proof (Z.div_mod w q ltac:(lia)). pose proof (Z.mod_pos_bound w q Hq0).
      pose proof (Z.div_pos w q ltac:(lia) Hq0). assert (w / q < n - 1) by (apply Z.div_lt_upper_bound; lia). split_and!; try lia; intros; nia. }
    exists (i / threads), (i mod threads). apply Hh. pose proof (Z.div_mod i threads ltac:(lia)) as E. pose proof (Z.mod_pos_bound i threads Ht).
    pose proof (Z.div_pos i threads ltac:(lia) Ht). assert (i / threads < clients) by (apply Z.div_lt_upper_bound; unfold n in *; lia).
    replace (i / threads * threads + i mod threads) with i by lia. split_and!; try lia; apply Hi.
  - intros c t c' t' (H1 & H2 & H3 & H4)%Hh (H1' & H2' & H3' & H4')%Hh. assert (Ei : c * threads + t = c' * threads + t').
    { assert (c * threads + t <= n - 1) by (unfold n; nia). assert (c' * threads + t' <= n - 1) by (unfold n; nia).
      destruct (Z.lt_trichotomy (c * threads + t) (c' * threads + t')) as [Hl|[Hl|Hl]]; [|done|].
      - specialize (H4 ltac:(lia)). nia.
      - specialize (H4' ltac:(lia)). nia. }
    apply (Z.div_mod_unique threads); lia.
Qed.

(** ** An example *)

(** Two documents, two work units of two iterations; the likelihood is
    computed after each, with a log-gamma function that is constant. *)
Definition demo_docs : list LDADoc := [demo_doc; mkdoc [7] [1] 2].
Definition demo_log (_ : Z) : Z := 1.
Definition demo_lit (_ _ : Z) : Z := 0.
Definition demo_cfg : engine_config := mkengine_config 0 1 0 1 2 1 2 7.
Definition demo_stats : LDAStats Z :=
  mkstats 2 8 3 (3 * 8) 4 (2 * 4)
    (f_sub (LogGamma demo_log demo_lit (2 * 4)) (f_mul 2 (LogGamma demo_log demo_lit 4)))
    (f_mul 2 (f_sub (LogGamma demo_log demo_lit (3 * 8)) (f_mul 8 (LogGamma demo_log demo_lit 3))))
    (loggamma_table demo_log demo_lit kNumLogGammaAlpha_ 4) (loggamma_table demo_log demo_lit kNumLogGammaAlphaSum_ (2 * 4)) (loggamma_table demo_log demo_lit kNumLogGammaBeta_ 3).
(** The other threads have counted 7 and 5 tokens. *)
Definition demo_env : engine_env Z :=
  mkengine_env (fun _ tr => map (fun k => (if bool_decide (k = 0) then 7 else 5) + sent_summary k tr) (seqZ 0 2))
    (fun _ => demo_rows) (fun n it => Z.abs (it + Z.of_nat n)) (fun _ w => [(1, 2)]) (fun n => Z.of_nat n) {[9]}.

Lemma demo_stats_new : LDAStats_new demo_log demo_lit 2 8 4 3 = Ret demo_stats.
Proof. unfold LDAStats_new. rewrite bool_decide_true by done. reflexivity. Qed.
Lemma demo_LogGamma x : LogGamma demo_log demo_lit x = 1.
Proof. unfold LogGamma, demo_log, demo_lit. destruct (foldl _ _ _) as [y ser]. cbn. lia. Qed.
Lemma demo_beta n : 0 <= n -> GetLogGammaBetaOffset demo_log demo_lit demo_stats n = Ret 1.
Proof. intros Hn. destruct (offsets_exact demo_log demo_lit _ _ _ _ demo_stats n demo_stats_new Hn) as (_ & _ & ->). by rewrite demo_LogGamma. Qed.
Lemma Z_not_nan (x : Z) : check_not_nan x = Ret tt.
Proof. unfold check_not_nan, f_eqb. cbn. by rewrite Z.leb_refl. Qed.

Lemma demo_word_llh a b : exists v, ComputeWordLLH demo_log demo_lit demo_stats (ee_llh_rows demo_env 0) a b = Ret v.
Proof.
  unfold ComputeWordLLH. rewrite demo_beta by done. cbn [mbind outcome_bind]. rewrite (foldM_pure _ (fun l _ => l + 1 + 1)).
  - cbn [mbind outcome_bind]. rewrite Z_not_nan. eauto.
  - intros l w _. unfold word_row_llh, demo_env, ee_llh_rows. rewrite bool_decide_true by done. unfold word_entry. cbn [foldM fst snd].
    rewrite bool_decide_true by done. cbn [CHECK mbind outcome_bind]. rewrite demo_beta by done. cbn [mbind outcome_bind]. by rewrite Z_not_nan.
Qed.
Lemma demo_summary_llh n tr : exists v, ComputeWordLLHSummary demo_log demo_lit demo_stats (ee_summary demo_env n tr) = Ret v.
Proof.
  unfold ComputeWordLLHSummary. rewrite (foldM_pure _ (fun l _ => l - 1)).
  - cbn [mbind outcome_bind]. rewrite Z_not_nan. eauto.
  - intros l k Hk%elem_of_seqZ. cbn [st_K_ demo_stats] in Hk. unfold demo_env, ee_summary. rewrite (vec_at_map_seqZ demo_params) by (cbn; lia). cbn [mbind outcome_bind].
    rewrite demo_LogGamma, Z_not_nan. done.
Qed.
Lemma demo_doc_llh d0 d : d0 ∈ demo_docs -> same_words demo_params d0 d -> exists v, ComputeOneDocLLH demo_log demo_lit demo_stats d = Ret v.
Proof.
  intros Hin [Ew Hd]. rewrite (doc_llh_ok demo_log demo_lit demo_params 8 4 3 demo_stats _ d demo_stats_new ltac:(done) Hd).
  - rewrite !demo_LogGamma, Z_not_nan. cbn [K_ demo_params]. change (seqZ 0 2) with [0; 1]. cbn [foldl]. rewrite !demo_LogGamma. cbn [mbind outcome_bind]. eauto.
  - rewrite Ew. unfold demo_docs in Hin. rewrite !elem_of_cons in Hin. destruct Hin as [->|[->|Hin]]; [by vm_compute..|]. by apply elem_of_nil in Hin.
Qed.

Lemma demo_env_ok : env_ok demo_log demo_lit demo_cfg demo_params demo_stats demo_env demo_docs.
Proof.
  destruct demo_ready as (H1 & _ & H3). split; try done.
  - intros n it. cbn. apply Z.leb_le. lia.
  - intros n tr. exists (fun k => if bool_decide (k = 0) then 7 else 5). split; [|done]. intros k _. case_bool_decide; by vm_compute.
  - repeat (apply Forall_cons; split; [|]); [..|constructor]; (split; [done|repeat (apply Forall_cons; split; [cbn; lia|]); constructor|done]).
  - exists 8, 4, 3. exact demo_stats_new.
Qed.
Lemma demo_likelihoods_pass : likelihoods_pass demo_log demo_lit demo_cfg demo_params demo_stats demo_env demo_docs.
Proof. right. split_and!; [exact demo_doc_llh|intros n; exact demo_word_llh|exact demo_summary_llh]. Qed.

#[local] Instance demo_order : HashOrder := fun A m => map_to_list m.
#[local] Instance demo_order_ok : HashOrderOk.
Proof. by intros A m. Qed.

Lemma engine_tables_count_witness :
  exists e, Start demo_log demo_lit demo_cfg demo_params demo_stats demo_env 2 [9; 6] demo_docs = Ret e /\
    (forall k, sent_summary k (e_trace e) = total_topic k (partition_docs_ (doc_loader_ (e_work e)))) /\ e_sampled e = 8%nat /\ clocks (e_trace e) = 4.
Proof.
  destruct (engine_tables_count demo_log demo_lit demo_cfg demo_params demo_stats demo_env 2 [9; 6] demo_docs demo_env_ok ltac:(done) ltac:(done) ltac:(done) ltac:(done) ltac:(done))
    as [[_ Hno]|(e & docs' & E & Ed & _ & Hs & _ & Hn & Hc)]; [by destruct (Hno demo_likelihoods_pass)|].
  exists e. split; [exact E|]. split; [rewrite <- Ed; exact Hs|]. split; [apply Nat2Z.inj; exact Hn|exact Hc].
Defined.
