(* ===== verification/LdaStream.v ===== *)
(** * LDA: documents streamed from disk

    A corpus that does not fit into memory: a reader thread
    ([apps/lda/src/disk_stream_reader.cpp]) sends batches of documents to the
    worker threads, takes them back when they have been sampled and writes
    them to the database before it reads the next batch of the worker; a
    worker's loader ([disk_stream_doc_loader.cpp]) hands out the documents of
    its batches one by one.  Batches are sent as pointers, so the heap is part
    of the state. *)
From S2P Require Import Prelude Bytes LdaDoc.
Open Scope Z_scope.

(** ** Batches *)
Record DocBatch := mkbatch { is_last_batch_ : bool; doc_id_ : list Z; doc_ptr_ : list LDADoc }.
Definition DocBatch_new : DocBatch := mkbatch false [] [].
Definition AddDoc (doc_id : Z) (new_doc : LDADoc) (b : DocBatch) : DocBatch := mkbatch (is_last_batch_ b) (doc_id_ b ++ [doc_id]) (doc_ptr_ b ++ [new_doc]).
Definition batch_GetNumDocs (b : DocBatch) : Z := blen (doc_ptr_ b).
Definition SetIsLastBatch (val : bool) (b : DocBatch) : DocBatch := mkbatch val (doc_id_ b) (doc_ptr_ b).
Definition GetDocID (idx : Z) (b : DocBatch) : outcome Z := vec_at (doc_id_ b) idx.
Definition GetDocPtr (idx : Z) (b : DocBatch) : outcome LDADoc := vec_at (doc_ptr_ b) idx.
(** A document changed through its pointer. *)
Definition batch_set_doc (idx : Z) (d : LDADoc) (b : DocBatch) : outcome DocBatch :=
  docs ← vec_set (doc_ptr_ b) idx d; Ret (mkbatch (is_last_batch_ b) (doc_id_ b) docs).

(** ** The database

    Keys are the four bytes of a number and are compared as numbers
    ([ldb_comparator.hpp]). *)
Definition Compare (a b : Z) : Z := if bool_decide (a < b) then -1 else if bool_decide (a > b) then 1 else 0.

(** [DB::Write] of a batch of [Put]s; the entries an iterator goes through
    from [SeekToFirst], which are those of the moment it is created. *)
Class IntDB := {
  idb : Type;
  idb_write : list (Z * list Z) -> idb -> idb;
  idb_get : Z -> idb -> option (list Z);
  idb_scan : idb -> list (Z * list Z)
}.
Class IntDBOk `{IntDB} := {
  idb_scan_sorted d : StronglySorted (fun a b => Compare a b < 0) (idb_scan d).*1;
  idb_scan_get d k v : (k, v) ∈ idb_scan d <-> idb_get k d = Some v;
  idb_write_nil d k : idb_get k (idb_write [] d) = idb_get k d;
  idb_write_snoc puts k v d k' : idb_get k' (idb_write (puts ++ [(k, v)]) d) = if bool_decide (Compare k k' = 0) then Some v else idb_get k' (idb_write puts d)
}.

Section STREAM.
Context `{!IntDB}.
(** An address that is not in use, and what a fresh allocation holds. *)
Context (new_addr : gset Z -> Z) (new_mem : Z -> list Z).

(** ** The reader *)
Record DiskStreamReaderConfig := mkreader_config { num_partitions : Z; batch_size : Z; doc_id_begin : Z; num_docs : Z }.
Context (c : DiskStreamReaderConfig).

(** [Start] computes the numbers of batches first, which overflow and division
    by zero leave undefined. *)
Definition batches_defined : outcome Z := n ← int_mul (batch_size c) (num_partitions c); ceil_to_int (num_docs c) n.
Definition num_batches_per_partition : Z := ceil_of_floats (num_docs c) (batch_size c * num_partitions c).
Definition num_remained_docs : Z := Z.rem (num_docs c) (batch_size c * num_partitions c).
Definition last_batch_size : Z := Z.quot num_remained_docs (num_partitions c).
Definition last_partition_last_batch_size : Z := num_remained_docs - last_batch_size * (num_partitions c - 1).

Definition this_batch_size (i partition_id : Z) : Z :=
  if bool_decide (i < num_batches_per_partition - 1) then batch_size c
  else if bool_decide (partition_id < num_partitions c - 1) then last_batch_size
  else last_partition_last_batch_size.

Definition read_one (s : DocBatch * list (Z * list Z) * Z) (_ : Z) : outcome (DocBatch * list (Z * list Z) * Z) :=
  let '(b, it, doc_counter) := s in
  match it with
  | [] => CheckFail
  | (doc_id, doc_data) :: it' =>
      _ ← CHECK (bool_decide (doc_id_begin c + doc_counter = doc_id));
      new_doc ← Deserialize doc_data LDADoc_new;
      Ret (AddDoc doc_id new_doc b, it', doc_counter + 1)
  end.
Definition CreateDocBatch (n : Z) (it : list (Z * list Z)) (doc_counter : Z) : outcome (DocBatch * list (Z * list Z) * Z) :=
  foldM read_one (seqZ 0 n) (DocBatch_new, it, doc_counter).

(** [mem_buf_] has [buf_size_] bytes; [total_size] is an [int]. *)
Definition add_size (b : DocBatch) (total_size i : Z) : outcome Z :=
  d ← GetDocPtr i b;
  if decide (in_i32 (total_size + SerializedSize d)) then Ret (total_size + SerializedSize d) else Undef.
Definition write_one (b : DocBatch) (s : list (Z * list Z) * list Z * Z) (i : Z) : outcome (list (Z * list Z) * list Z * Z) :=
  let '(puts, mem_buf, mem_buf_tmp) := s in
  doc_id ← GetDocID i b;
  d ← GetDocPtr i b;
  tail_ ← Serialize d (drop (Z.to_nat mem_buf_tmp) mem_buf);
  let mem_buf' := take (Z.to_nat mem_buf_tmp) mem_buf ++ tail_ in
  value ← mem_read mem_buf_tmp (SerializedSize d) mem_buf';
  Ret (puts ++ [(doc_id, value)], mem_buf', mem_buf_tmp + SerializedSize d).
Definition BatchWriteAndDeleteDocs (b : DocBatch) (mem_buf : list Z) (db : idb) : outcome (list Z * idb) :=
  total_size ← foldM (add_size b) (seqZ 0 (batch_GetNumDocs b)) 0;
  let mem_buf1 := if bool_decide (blen mem_buf < total_size) then new_mem total_size else mem_buf in
  '(puts, mem_buf2, _) ← foldM (write_one b) (seqZ 0 (batch_GetNumDocs b)) ([], mem_buf1, 0);
  Ret (mem_buf2, idb_write puts db).

(** Where the reader is: at [GetContinueMsg], in the loops before, in and
    after a pass, or done. *)
Inductive reader_at := AwaitCmd (first : bool) | Flushing (p : Z) | Delivering (i p : Z) | Finishing (p : Z) | Exited.
Record DiskStreamReader := mkreader {
  db_ : idb; it_ : list (Z * list Z); doc_counter_ : Z; outstanding_batch_ : list bool; mem_buf_ : list Z; r_at : reader_at
}.

(** ** A worker's loader *)
Record PartitionDocLoader := mkpartition_loader {
  pl_num_docs_ : Z; pl_num_topics_ : Z; one_data_pass_ : bool; num_tokens_ : Z; doc_batch_ptr_ : Z; doc_batch_iter_ : Z
}.
Definition PartitionDocLoader_new (num_docs num_topics : Z) : PartitionDocLoader := mkpartition_loader num_docs num_topics false 0 0 0.

(** A worker before the constructor's [Restart], waiting in
    [FetchNextDocBatch] called by [Restart] or by [GetOneDoc], between calls,
    or after the destructor. *)
Inductive worker_at := Starting | FetchingRestart | FetchingGet | Between | Gone.
(** With the passes it makes after the current one. *)
Record worker := mkworker { w_loader : PartitionDocLoader; w_at : worker_at; w_left : nat }.

(** ** The threads and what is on its way between them

    Commands with their sender; batches on their way to each partition;
    batches on their way back with their senders. *)
Record stream := mkstream {
  st_heap : gmap Z DocBatch; st_cmds : list (Z * Z); st_mail : list (list Z); st_returned : list (Z * Z);
  st_reader : DiskStreamReader; st_workers : list worker
}.
Definition set_heap (h : gmap Z DocBatch) (s : stream) : stream := mkstream h (st_cmds s) (st_mail s) (st_returned s) (st_reader s) (st_workers s).
Definition set_reader (r : DiskStreamReader) (s : stream) : stream := mkstream (st_heap s) (st_cmds s) (st_mail s) (st_returned s) r (st_workers s).
Definition set_returned (l : list (Z * Z)) (s : stream) : stream := mkstream (st_heap s) (st_cmds s) (st_mail s) l (st_reader s) (st_workers s).
Definition set_mail (l : list (list Z)) (s : stream) : stream := mkstream (st_heap s) (st_cmds s) l (st_returned s) (st_reader s) (st_workers s).
Definition set_cmds (l : list (Z * Z)) (s : stream) : stream := mkstream (st_heap s) l (st_mail s) (st_returned s) (st_reader s) (st_workers s).
Definition set_worker (p : nat) (w : worker) (s : stream) : stream := mkstream (st_heap s) (st_cmds s) (st_mail s) (st_returned s) (st_reader s) (<[p := w]> (st_workers s)).

Definition reader_goto (a : reader_at) (r : DiskStreamReader) : DiskStreamReader := mkreader (db_ r) (it_ r) (doc_counter_ r) (outstanding_batch_ r) (mem_buf_ r) a.

(** ** The reader's turns

    A turn ends at the next message or batch; [None] when there is nothing to
    receive.  Messages of one sender arrive in the order they were sent. *)
Definition pick_message (k : nat) (l : list (Z * Z)) : option ((Z * Z) * list (Z * Z)) :=
  m ← l !! k; if forallb (fun m' => negb (m'.1 =? m.1)) (take k l) then Some (m, take k l ++ drop (S k) l) else None.

(** The body of the loop of [ClearOutstandingBatch]. *)
Definition take_back (k : nat) (s : stream) : outcome (option stream) :=
  match pick_message k (st_returned s) with
  | None => Ret None
  | Some ((sender_id, doc_batch), rest) =>
      let r := st_reader s in
      outs ← vec_set (outstanding_batch_ r) sender_id false;
      b ← deref (st_heap s !! doc_batch);
      '(mem, db) ← BatchWriteAndDeleteDocs b (mem_buf_ r) (db_ r);
      Ret (Some (set_heap (delete doc_batch (st_heap s)) (set_returned rest (set_reader (mkreader db (it_ r) (doc_counter_ r) outs mem (r_at r)) s))))
  end.

Definition ClearOutstandingBatch (partition_id : Z) (k : nat) (then_ : outcome (option stream)) (s : stream) : outcome (option stream) :=
  o ← vec_at (outstanding_batch_ (st_reader s)) partition_id;
  if (o : bool) then take_back k s else then_.

(** The turn of the inner loop of a pass. *)
Definition deliver_batch (i partition_id : Z) (s : stream) : outcome (option stream) :=
  let r := st_reader s in
  '(b, it, doc_counter) ← CreateDocBatch (this_batch_size i partition_id) (it_ r) (doc_counter_ r);
  let b' := if bool_decide (i = num_batches_per_partition - 1) then SetIsLastBatch true b else b in
  let doc_batch := new_addr ({[0]} ∪ dom (st_heap s)) in
  ps ← vec_at (st_mail s) partition_id;
  mail ← vec_set (st_mail s) partition_id (ps ++ [doc_batch]);
  outs ← vec_set (outstanding_batch_ r) partition_id true;
  Ret (Some (set_heap (<[doc_batch := b']> (st_heap s)) (set_mail mail (set_reader (mkreader (db_ r) it doc_counter outs (mem_buf_ r) (Delivering i (partition_id + 1))) s)))).

(** [Start] after [EstablishConnections]. *)
Definition reader_turn (k : nat) (s : stream) : outcome (option stream) :=
  let r := st_reader s in
  let goto a := Ret (Some (set_reader (reader_goto a r) s)) in
  match r_at r with
  | AwaitCmd first =>
      match st_cmds s with
      | [] => Ret None
      | (sender_id, cont) :: cmds =>
          _ ← CHECK (bool_decide (1 = sender_id));
          _ ← CHECK (negb first || bool_decide (0 = cont));
          let outs := if first then replicate (length (outstanding_batch_ r)) false else outstanding_batch_ r in
          let a := if bool_decide (cont >= 0) then Flushing 0 else Finishing 0 in
          Ret (Some (set_cmds cmds (set_reader (mkreader (db_ r) (it_ r) (doc_counter_ r) outs (mem_buf_ r) a) s)))
      end
  | Flushing p =>
      if bool_decide (p < num_partitions c) then ClearOutstandingBatch p k (goto (Flushing (p + 1))) s
      else Ret (Some (set_reader (mkreader (db_ r) (idb_scan (db_ r)) 0 (outstanding_batch_ r) (mem_buf_ r) (Delivering 0 0)) s))
  | Delivering i p =>
      if bool_decide (i < num_batches_per_partition) then
        if bool_decide (p < num_partitions c) then ClearOutstandingBatch p k (deliver_batch i p s) s
        else goto (Delivering (i + 1) 0)
      else goto (AwaitCmd false)
  | Finishing p =>
      if bool_decide (p < num_partitions c) then ClearOutstandingBatch p k (goto (Finishing (p + 1))) s else goto Exited
  | Exited => Ret None
  end.

(** The senders of the first messages on the bus for documents, in the order
    they arrive. *)
Definition connect (conn : list bool) (sender_id : Z) : outcome (list bool) :=
  already ← vec_at conn sender_id;
  _ ← CHECK (negb already);
  vec_set conn sender_id true.
Definition EstablishConnections (cmd_sender : Z) (senders : list Z) : outcome unit :=
  _ ← CHECK (bool_decide (1 = cmd_sender));
  conn ← foldM connect senders (replicate (Z.to_nat (num_partitions c)) false);
  CHECK (forallb id conn).

(** ** The workers' turns *)
Definition ReturnCurrentDocBatch (p : nat) (l : PartitionDocLoader) (s : stream) : stream :=
  set_returned (st_returned s ++ [(Z.of_nat p, doc_batch_ptr_ l)]) s.
Definition send_cmd (p : nat) (cont : Z) (s : stream) : stream :=
  if decide (p = 0%nat) then set_cmds (st_cmds s ++ [(1, cont)]) s else s.
Definition fetched (ptr : Z) (l : PartitionDocLoader) : PartitionDocLoader :=
  mkpartition_loader (pl_num_docs_ l) (pl_num_topics_ l) (one_data_pass_ l) (num_tokens_ l) ptr 0.

Definition current_batch (l : PartitionDocLoader) (s : stream) : outcome DocBatch :=
  _ ← CHECK (negb (bool_decide (doc_batch_ptr_ l = 0))); deref (st_heap s !! doc_batch_ptr_ l).
Definition stream_IsEnd (l : PartitionDocLoader) (s : stream) : outcome bool :=
  b ← current_batch l s; Ret (is_last_batch_ b && bool_decide (doc_batch_iter_ l = batch_GetNumDocs b)).

(** Up to [FetchNextDocBatch]. *)
Definition Restart (p : nat) (l : PartitionDocLoader) (s : stream) : outcome (PartitionDocLoader * stream) :=
  '(l', s') ← (if bool_decide (doc_batch_ptr_ l <> 0) then
                 e ← stream_IsEnd l s;
                 _ ← CHECK e;
                 Ret (mkpartition_loader (pl_num_docs_ l) (pl_num_topics_ l) true (num_tokens_ l) (doc_batch_ptr_ l) (doc_batch_iter_ l),
                      ReturnCurrentDocBatch p l s)
               else Ret (l, s));
  Ret (l', send_cmd p (if bool_decide (doc_batch_ptr_ l = 0) then 0 else 1) s').

(** The end of [GetOneDoc]: the document and the loader. *)
Definition current_doc (rng : nat -> Z) (l : PartitionDocLoader) (b : DocBatch) : outcome (LDADoc * PartitionDocLoader) :=
  d ← GetDocPtr (doc_batch_iter_ l) b;
  d' ← (if bool_decide (num_topics_ d <> pl_num_topics_ l) then RandomInitTopics rng (pl_num_topics_ l) d else Ret d);
  Ret (d', mkpartition_loader (pl_num_docs_ l) (pl_num_topics_ l) (one_data_pass_ l)
             (if one_data_pass_ l then num_tokens_ l else num_tokens_ l + GetNumTokens d') (doc_batch_ptr_ l) (doc_batch_iter_ l + 1)).

(** What a worker does with a document it gets, [work], before it asks for the
    next: the number of the document, what it got and what it left. *)
Record visit := mkvisit { v_part : nat; v_doc : Z; v_got : LDADoc; v_left : LDADoc }.
Definition visit_doc (p : nat) (rng : nat -> Z) (work : LDADoc -> LDADoc) (left : nat) (l : PartitionDocLoader) (s : stream) : outcome (option visit * stream) :=
  b ← current_batch l s;
  '(d, l') ← current_doc rng l b;
  b' ← batch_set_doc (doc_batch_iter_ l) (work d) b;
  doc_id ← GetDocID (doc_batch_iter_ l) b;
  Ret (Some (mkvisit p doc_id d (work d)), set_worker p (mkworker l' Between left) (set_heap (<[doc_batch_ptr_ l := b']> (st_heap s)) s)).

(** A worker visits the documents until [IsEnd], restarts as often as it has
    passes left, and ends with the destructor. *)
Definition worker_turn (p : nat) (rng : nat -> Z) (work : LDADoc -> LDADoc) (s : stream) : outcome (option (option visit * stream)) :=
  match st_workers s !! p with
  | None => Ret None
  | Some w =>
      let l := w_loader w in
      let quietly l' a left s' := Ret (Some (None, set_worker p (mkworker l' a left) s')) in
      match w_at w with
      | Starting => '(l', s') ← Restart p l s; quietly l' FetchingRestart (w_left w) s'
      | FetchingRestart | FetchingGet =>
          ps ← vec_at (st_mail s) (Z.of_nat p);
          match ps with
          | [] => Ret None
          | ptr :: ps' =>
              mail ← vec_set (st_mail s) (Z.of_nat p) ps';
              match w_at w with
              | FetchingGet => r ← visit_doc p rng work (w_left w) (fetched ptr l) (set_mail mail s); Ret (Some r)
              | _ => quietly (fetched ptr l) Between (w_left w) (set_mail mail s)
              end
          end
      | Between =>
          e ← stream_IsEnd l s;
          if (e : bool) then
            match w_left w with
            | S n => '(l', s') ← Restart p l s; quietly l' FetchingRestart n s'
            | O => quietly l Gone 0%nat (ReturnCurrentDocBatch p l (send_cmd p (-1) s))
            end
          else
            b ← current_batch l s;
            if bool_decide (doc_batch_iter_ l = batch_GetNumDocs b) then quietly l FetchingGet (w_left w) (ReturnCurrentDocBatch p l s)
            else r ← visit_doc p rng work (w_left w) l s; Ret (Some r)
      | Gone => Ret None
      end
  end.

(** *** Start and runs *)
Definition GetPartitionDocLoader (m : master) (num_topics partition_id : Z) : outcome PartitionDocLoader :=
  r ← vec_at (partition_ranges m) partition_id; Ret (PartitionDocLoader_new (r.2 - r.1) num_topics).
Definition stream_start (m : master) (num_topics : Z) (passes : nat) (db : idb) : outcome stream :=
  ls ← mapM (GetPartitionDocLoader m num_topics) (seqZ 0 (num_partitions c));
  _ ← batches_defined;
  Ret (mkstream ∅ [] (replicate (Z.to_nat (num_partitions c)) []) []
         (mkreader db [] 0 (replicate (Z.to_nat (num_partitions c)) false) (new_mem 1024) (AwaitCmd true))
         (map (fun l => mkworker l Starting (pred passes)) ls)).

(** A worker changes topics only; generators give topics of the model. *)
Definition keeps_words (work : LDADoc -> LDADoc) : Prop := forall d, Forall in_i32 (token_topics_ d) ->
  tokens_ (work d) = tokens_ d /\ num_topics_ (work d) = num_topics_ d /\ length (token_topics_ (work d)) = length (token_topics_ d) /\
  Forall in_i32 (token_topics_ (work d)).

Inductive stream_run (num_topics : Z) (s0 : stream) : list visit -> stream -> Prop :=
  | run_stop : stream_run num_topics s0 [] s0
  | run_reader tr s k s' : stream_run num_topics s0 tr s -> reader_turn k s = Ret (Some s') -> stream_run num_topics s0 tr s'
  | run_worker tr s p rng work v s' : stream_run num_topics s0 tr s -> (forall n, 0 <= rng n < num_topics) -> keeps_words work ->
      worker_turn p rng work s = Ret (Some (v, s')) -> stream_run num_topics s0 (tr ++ option_list v) s'.
End STREAM.

(** What the constructor of [DiskStreamMasterDocLoader] gives the reader. *)
Definition reader_config (m : master) (batch_size : Z) : DiskStreamReaderConfig :=
  mkreader_config (num_partitions_ m) batch_size (doc_id_begin_ m) (doc_id_end_ m - doc_id_begin_ m).
