(* ===== verification/LdaStreamPlan.v ===== *)
(** * LDA: which documents a batch has

    The arithmetic of the reader of [LdaStream]: the batches of a pass are
    consecutive ranges of documents, every document is in exactly one of
    them; and the loops that read and write a batch. *)
From S2P Require Import Prelude Bytes LdaDoc LdaStream.
Open Scope Z_scope.

Section PLAN.
Context (c : DiskStreamReaderConfig).
Abbreviation P := (num_partitions c).
Abbreviation B := (batch_size c).
Abbreviation N := (num_batches_per_partition c).

(** The last batch of every partition has documents, and the numbers are small
    enough for the [float] quotient. *)
Definition config_ok : Prop := 0 < B /\ 0 < P /\ 0 <= num_docs c /\ P <= Z.rem (num_docs c) (B * P) /\ num_docs c < 2 ^ 24 /\ B * P < 2 ^ 24.

(** Where the batch [i] of partition [p] starts, and its documents. *)
Definition batch_start (i p : Z) : Z := if bool_decide (i < N - 1) then (i * P + p) * B else (N - 1) * P * B + p * last_batch_size c.
Definition batch_ids (i p : Z) : list Z := seqZ (doc_id_begin c + batch_start i p) (this_batch_size c i p).
(** What a partition gets in a pass. *)
Definition plan (p : Z) : list Z := i ← seqZ 0 N; batch_ids i p.
(** The documents read before the turn [i], [p] of the loops. *)
Definition read_before (i p : Z) : Z :=
  if bool_decide (i < N) then if bool_decide (p < P) then batch_start i p else if bool_decide (i + 1 < N) then batch_start (i + 1) 0 else num_docs c
  else num_docs c.

Context (Hc : config_ok).

Lemma batches_are_defined : batches_defined c = Ret N.
Proof.
  destruct Hc as (HB & HP & Hn & _ & Hsd & Hsb). unfold batches_defined, int_mul. rewrite decide_True by (unfold in_i32; nia). cbn [mbind outcome_bind].
  rewrite ceil_to_int_small by nia. unfold num_batches_per_partition. by rewrite ceil_of_floats_small by nia.
Qed.
Lemma batches_eq : N = num_docs c / (B * P) + 1 /\ 1 <= N /\ num_docs c = (N - 1) * P * B + num_remained_docs c /\ num_remained_docs c < B * P.
Proof.
  destruct Hc as (HB & HP & Hn & Hr & Hsd & Hsb). unfold num_batches_per_partition. rewrite ceil_of_floats_small by nia. unfold ceil_div, num_remained_docs. rewrite Z.rem_mod_nonneg in * by nia.
  pose proof (Z.div_mod (num_docs c) (B * P) ltac:(nia)) as E. pose proof (Z.mod_pos_bound (num_docs c) (B * P) ltac:(nia)) as Hm.
  assert (0 <= num_docs c / (B * P)) by (apply Z.div_pos; nia).
  assert (E2 : - num_docs c / (B * P) = - (num_docs c / (B * P)) - 1) by (symmetry; apply (Z.div_unique _ _ _ (B * P - num_docs c mod (B * P))); nia).
  rewrite E2. split_and!; nia.
Qed.

Lemma last_eq : num_remained_docs c = last_batch_size c * P + Z.rem (num_remained_docs c) P /\ 1 <= last_batch_size c /\ last_batch_size c < B /\
  0 <= Z.rem (num_remained_docs c) P < P /\ last_partition_last_batch_size c = last_batch_size c + Z.rem (num_remained_docs c) P.
Proof.
  destruct batches_eq as (_ & _ & _ & Hlt). destruct Hc as (HB & HP & Hn & Hr & _). fold (num_remained_docs c) in Hr.
  pose proof (Z.quot_rem' (num_remained_docs c) P) as E. pose proof (Z.rem_bound_pos (num_remained_docs c) P ltac:(lia) HP) as Hm.
  unfold last_partition_last_batch_size, last_batch_size in *. set (q := Z.quot _ _) in *. split_and!; try nia.
Qed.

Lemma batch_size_bounds i p : 0 < this_batch_size c i p < B + P.
Proof.
  destruct last_eq as (_ & H1 & H2 & H3 & H4). destruct Hc as (HB & HP & _). unfold this_batch_size. case_bool_decide; [lia|]. case_bool_decide; lia.
Qed.

Lemma read_before_start i p : 0 <= i < N -> 0 <= p < P -> read_before i p = batch_start i p.
Proof. intros Hi Hp. unfold read_before. by rewrite !bool_decide_true by lia. Qed.

Lemma read_before_next i p : 0 <= i < N -> 0 <= p < P -> batch_start i p + this_batch_size c i p = read_before i (p + 1).
Proof.
  intros Hi Hp. destruct batches_eq as (_ & HN & En & _). destruct last_eq as (El & _ & _ & Hm & Ell).
  unfold read_before, batch_start, this_batch_size. rewrite (bool_decide_true (i < N)) by lia.
  destruct (decide (p = P - 1)) as [->|Hp1].
  - rewrite (bool_decide_false (P - 1 + 1 < P)), (bool_decide_false (P - 1 < P - 1)) by lia.
    destruct (decide (i = N - 1)) as [->|Hi1]; repeat case_bool_decide; try lia. replace (N - 1) with (i + 1) by lia. lia.
  - rewrite (bool_decide_true (p + 1 < P)), (bool_decide_true (p < P - 1)) by lia. case_bool_decide; lia.
Qed.

Lemma read_before_0 : read_before 0 0 = 0.
Proof.
  destruct batches_eq as (_ & HN & _). destruct Hc as (_ & HP & _). rewrite read_before_start by lia.
  unfold batch_start. case_bool_decide; [lia|]. replace (N - 1) with 0 by lia. lia.
Qed.

Lemma read_before_row i : 0 <= i < N -> read_before i P = read_before (i + 1) 0.
Proof.
  intros Hi. destruct Hc as (_ & HP & _). unfold read_before. rewrite bool_decide_true, bool_decide_false by lia.
  case_bool_decide; [|done]. by rewrite bool_decide_true by lia.
Qed.

Lemma read_before_end : read_before N 0 = num_docs c.
Proof. unfold read_before. by rewrite bool_decide_false by lia. Qed.

(** The batch a document is in. *)
Definition batch_of (x : Z) : Z * Z :=
  let y := x - doc_id_begin c in
  if bool_decide (y < (N - 1) * P * B) then (y / (P * B), y mod (P * B) / B)
  else (N - 1, Z.min (P - 1) ((y - (N - 1) * P * B) / last_batch_size c)).

Lemma batch_of_ids x i p : 0 <= i < N -> 0 <= p < P -> x ∈ batch_ids i p -> batch_of x = (i, p).
Proof.
  intros Hi Hp [Hx1 Hx2]%elem_of_seqZ. destruct last_eq as (El & H1 & H2 & Hm & Ell). destruct Hc as (HB & HP & _).
  unfold batch_of. unfold batch_start, this_batch_size in *. case_bool_decide as Hi1.
  - assert (Hy : i * (P * B) + p * B <= x - doc_id_begin c < i * (P * B) + p * B + B) by lia.
    assert (Hin : p * B + B <= P * B) by nia. rewrite bool_decide_true by nia.
    assert (Ei : (x - doc_id_begin c) / (P * B) = i) by (symmetry; apply (Z.div_unique _ _ _ (x - doc_id_begin c - i * (P * B))); nia).
    rewrite Ei, Z.mod_eq, Ei by nia. f_equal. symmetry. apply (Z.div_unique _ _ _ (x - doc_id_begin c - i * (P * B) - p * B)); nia.
  - rewrite bool_decide_false by nia. replace i with (N - 1) by lia. f_equal. set (y := x - doc_id_begin c - (N - 1) * P * B).
    case_bool_decide as Hp1.
    + assert (E : y / last_batch_size c = p) by (symmetry; apply (Z.div_unique _ _ _ (y - p * last_batch_size c)); unfold y; lia). rewrite E. lia.
    + assert (p = P - 1) as -> by lia. assert (P - 1 <= y / last_batch_size c) by (apply Z.div_le_lower_bound; unfold y; lia). lia.
Qed.

Lemma ids_of_batch x : doc_id_begin c <= x < doc_id_begin c + num_docs c ->
  exists i p, 0 <= i < N /\ 0 <= p < P /\ x ∈ batch_ids i p.
Proof.
  intros Hx. destruct batches_eq as (_ & HN & En & Hlt). destruct last_eq as (El & H1 & H2 & Hm & Ell). destruct Hc as (HB & HP & _).
  set (y := x - doc_id_begin c). destruct (decide (y < (N - 1) * P * B)) as [Hy|Hy].
  - assert (Hi : 0 <= y / (P * B) < N - 1) by (split; [apply Z.div_pos; unfold y; nia|apply Z.div_lt_upper_bound; nia]).
    pose proof (Z.mod_pos_bound y (P * B) ltac:(nia)) as Hmod. pose proof (Z.div_mod y (P * B) ltac:(nia)) as E.
    assert (Hp : 0 <= y mod (P * B) / B < P) by (split; [apply Z.div_pos; lia|apply Z.div_lt_upper_bound; nia]).
    pose proof (Z.div_mod (y mod (P * B)) B ltac:(lia)) as E2. pose proof (Z.mod_pos_bound (y mod (P * B)) B HB) as Hmod2.
    exists (y / (P * B)), (y mod (P * B) / B). split_and!; try lia. apply elem_of_seqZ. unfold batch_start, this_batch_size.
    rewrite bool_decide_true by lia. set (i := y / (P * B)) in *. set (p := y mod (P * B) / B) in *. unfold y in *. nia.
  - set (z := y - (N - 1) * P * B). pose proof (Z.div_mod z (last_batch_size c) ltac:(lia)) as E. pose proof (Z.mod_pos_bound z (last_batch_size c) ltac:(lia)) as Hmod.
    assert (0 <= z / last_batch_size c) by (apply Z.div_pos; unfold z; lia).
    exists (N - 1), (Z.min (P - 1) (z / last_batch_size c)). split_and!; try lia. apply elem_of_seqZ. unfold batch_start, this_batch_size.
    rewrite bool_decide_false by lia. set (q := z / last_batch_size c) in *. unfold z, y in *.
    destruct (Z.min_spec (P - 1) q) as [[Hq ->]|[Hq ->]]; case_bool_decide; nia.
Qed.

Lemma batch_ids_range x i p : 0 <= i < N -> 0 <= p < P -> x ∈ batch_ids i p -> doc_id_begin c <= x < doc_id_begin c + num_docs c.
Proof.
  intros Hi Hp [Hx1 Hx2]%elem_of_seqZ. destruct batches_eq as (_ & HN & En & _). destruct last_eq as (El & H1 & _ & Hm & Ell). destruct Hc as (HB & HP & _).
  unfold batch_start, this_batch_size in *. case_bool_decide; [|case_bool_decide]; nia.
Qed.
(** Batches delivered before the turn [i], [q] have documents read before it. *)
Lemma batch_before x i' p i q : 0 <= i' < N -> 0 <= p < P -> 0 <= i <= N -> 0 <= q <= P -> (i = N -> q = 0) -> i' < i \/ (i' = i /\ p < q) -> x ∈ batch_ids i' p ->
  x < doc_id_begin c + read_before i q.
Proof.
  intros Hi' Hp Hi Hq HN Hlt Hx. pose proof (batch_ids_range x i' p Hi' Hp Hx) as Hr. apply elem_of_seqZ in Hx as [_ Hx].
  destruct batches_eq as (_ & H1 & En & _). destruct last_eq as (El & Hl & Hl2 & Hm & Ell). destruct Hc as (HB & HP & _).
  unfold read_before. case_bool_decide as Hi1; [|lia]. case_bool_decide as Hq1.
  - unfold batch_start, this_batch_size in *. destruct (decide (i = i')) as [->|Hne].
    + assert (p < q) by lia. repeat case_bool_decide; nia.
    + assert (i' < i) by lia. assert ((i' + 1) * P <= i * P) by nia. repeat case_bool_decide; nia.
  - case_bool_decide as Hi2; [|lia]. unfold batch_start, this_batch_size in *. assert ((i' + 1) * P <= (i + 1) * P) by nia. repeat case_bool_decide; nia.
Qed.

Lemma elem_of_plan x p : x ∈ plan p <-> exists i, 0 <= i < N /\ x ∈ batch_ids i p.
Proof.
  unfold plan. rewrite list_elem_of_bind. split.
  - intros (i & Hx & Hi%elem_of_seqZ). exists i. split; [lia|done].
  - intros (i & Hi & Hx). exists i. split; [done|]. apply elem_of_seqZ. lia.
Qed.

(** A pass goes through every document once. *)
Lemma plans_permutation : (p ← seqZ 0 P; plan p) ≡ₚ seqZ (doc_id_begin c) (num_docs c).
Proof.
  apply NoDup_Permutation; [|apply NoDup_seqZ|].
  - apply NoDup_bind; [|intros p Hp%elem_of_seqZ; apply NoDup_bind; [|intros; apply NoDup_seqZ|apply NoDup_seqZ]|apply NoDup_seqZ].
    + intros p p' x Hp%elem_of_seqZ Hp'%elem_of_seqZ (i & Hi & Hx)%elem_of_plan (i' & Hi' & Hx')%elem_of_plan.
      pose proof (batch_of_ids x i p Hi ltac:(lia) Hx) as E. rewrite (batch_of_ids x i' p' Hi' ltac:(lia) Hx') in E. by injection E.
    + intros i i' x Hi%elem_of_seqZ Hi'%elem_of_seqZ Hx Hx'.
      pose proof (batch_of_ids x i p ltac:(lia) ltac:(lia) Hx) as E. rewrite (batch_of_ids x i' p ltac:(lia) ltac:(lia) Hx') in E. by injection E.
  - intros x. rewrite list_elem_of_bind, elem_of_seqZ. split.
    + intros (p & (i & Hi & Hx)%elem_of_plan & Hp%elem_of_seqZ). apply (batch_ids_range x i p); [done|lia|done].
    + intros Hx. destruct (ids_of_batch x Hx) as (i & p & Hi & Hp & Hin). exists p. split; [apply elem_of_plan; by exists i|apply elem_of_seqZ; lia].
Qed.

(** ** Reading a batch *)
Lemma CreateDocBatch_spec (C : Z -> LDADoc) it k n : 0 <= n -> it.*1 = seqZ (doc_id_begin c + k) (num_docs c - k) -> n <= num_docs c - k ->
  Forall (fun e => Deserialize e.2 LDADoc_new = Ret (C e.1)) it ->
  exists it', CreateDocBatch c n it k = Ret (mkbatch false (seqZ (doc_id_begin c + k) n) (C <$> seqZ (doc_id_begin c + k) n), it', k + n) /\
    it'.*1 = seqZ (doc_id_begin c + (k + n)) (num_docs c - (k + n)) /\ Forall (fun e => Deserialize e.2 LDADoc_new = Ret (C e.1)) it'.
Proof.
  intros Hn Hit Hle Hd. unfold CreateDocBatch. rewrite <- (Z2Nat.id n) in Hle |- * by done. set (m := Z.to_nat n) in *.
  destruct (foldM_seqZ_inv (read_one c) (fun j s => exists it', s = (mkbatch false (seqZ (doc_id_begin c + k) (Z.of_nat j)) (C <$> seqZ (doc_id_begin c + k) (Z.of_nat j)), it', k + Z.of_nat j) /\
    it'.*1 = seqZ (doc_id_begin c + (k + Z.of_nat j)) (num_docs c - (k + Z.of_nat j)) /\ Forall (fun e => Deserialize e.2 LDADoc_new = Ret (C e.1)) it')
    m (DocBatch_new, it, k)) as (s' & -> & it' & -> & H1 & H2); [| |by exists it'].
  - exists it. rewrite !Z.add_0_r. done.
  - intros j s Hj (it' & -> & H1 & H2). rewrite seqZ_cons in H1 by lia. destruct it' as [|[id v] it']; [done|]. injection H1 as -> H1.
    apply Forall_cons in H2 as [Hv H2]. cbn [read_one fst snd] in *. rewrite bool_decide_true by lia. cbn [CHECK mbind outcome_bind]. rewrite Hv. cbn [mbind outcome_bind].
    eexists. split; [done|]. exists it'. split_and!; [|etrans; [exact H1|f_equal; lia]|done].
    rewrite seqZ_S, fmap_app, Nat2Z.inj_succ. unfold AddDoc. cbn. rewrite Z.add_assoc.
    by replace (k + Z.of_nat j + 1) with (k + Z.succ (Z.of_nat j)) by lia.
Qed.
End PLAN.

(** ** Writing a batch *)
Definition sizes (ds : list LDADoc) : Z := foldr Z.add 0 (map SerializedSize ds).

Lemma sizes_app ds ds' : sizes (ds ++ ds') = sizes ds + sizes ds'.
Proof. unfold sizes. induction ds as [|d ds IH]; cbn in *; lia. Qed.
Lemma sizes_nonneg ds : 0 <= sizes ds.
Proof. unfold sizes. induction ds as [|d ds IH]; cbn in *; [done|]. pose proof (SerializedSize_pos d). lia. Qed.
Lemma sizes_take ds j : sizes (take j ds) <= sizes ds.
Proof. rewrite <- (take_drop j ds) at 2. rewrite sizes_app. pose proof (sizes_nonneg (drop j ds)). lia. Qed.

Lemma sizes_S ds j d : ds !! j = Some d -> sizes (take (S j) ds) = sizes (take j ds) + SerializedSize d.
Proof. intros Hd. rewrite (take_S_r _ _ _ Hd), sizes_app. change (sizes [d]) with (SerializedSize d + 0). lia. Qed.

(** The entries written for a batch. *)
Definition batch_puts (b : DocBatch) : list (Z * list Z) := zip (doc_id_ b) (doc_bytes <$> doc_ptr_ b).

Lemma batch_write_spec `{!IntDB} new_mem b mem_buf db : (forall n, 0 <= n -> blen (new_mem n) = n) -> Forall doc_wf (doc_ptr_ b) ->
  length (doc_id_ b) = length (doc_ptr_ b) -> sizes (doc_ptr_ b) < 2 ^ 31 ->
  exists mem_buf', BatchWriteAndDeleteDocs new_mem b mem_buf db = Ret (mem_buf', idb_write (batch_puts b) db).
Proof.
  intros Hmem Hwf Hl Hs. set (ds := doc_ptr_ b) in *. set (n := length ds) in *.
  unfold BatchWriteAndDeleteDocs. change (batch_GetNumDocs b) with (Z.of_nat n).
  destruct (foldM_seqZ_inv (add_size b) (fun j t => t = sizes (take j ds)) n 0) as (t & -> & ->); [done| |].
  { intros j t Hj ->. destruct (lookup_lt_is_Some_2 ds j Hj) as (d & Hd). unfold add_size, GetDocPtr. fold ds. rewrite (vec_at_nat _ _ _ Hd). cbn [mbind outcome_bind].
    pose proof (sizes_S ds j d Hd) as E.
    rewrite <- E. rewrite decide_True; [by eexists|]. pose proof (sizes_take ds (S j)). pose proof (sizes_nonneg (take (S j) ds)). int_lia. }
  rewrite (firstn_all2 ds) by lia. cbn [mbind outcome_bind]. set (mem1 := if bool_decide _ then _ else _).
  assert (Hm1 : sizes ds <= blen mem1) by (unfold mem1; case_bool_decide; [rewrite Hmem by apply sizes_nonneg; lia|lia]).
  destruct (foldM_seqZ_inv (write_one b) (fun j s => exists m, s = (zip (take j (doc_id_ b)) (doc_bytes <$> take j ds), m, sizes (take j ds)) /\ blen m = blen mem1)
    n ([], mem1, 0)) as (s' & -> & m & -> & Hm); [by exists mem1| |].
  - intros j s Hj (m & -> & Hm). destruct (lookup_lt_is_Some_2 ds j Hj) as (d & Hd). destruct (lookup_lt_is_Some_2 (doc_id_ b) j ltac:(lia)) as (id & Hid).
    pose proof (sizes_S ds j d Hd) as E.
    pose proof (sizes_take ds (S j)) as Hle. pose proof (sizes_nonneg (take j ds)) as H0. pose proof (Forall_lookup_1 _ _ _ _ Hwf Hd) as Hdw.
    pose proof (SerializedSize_pos d) as Hpos. pose proof (doc_bytes_size d Hdw) as Hsz.
    unfold write_one, GetDocID, GetDocPtr. fold ds. rewrite (vec_at_nat _ _ _ Hid), (vec_at_nat _ _ _ Hd). cbn [mbind outcome_bind].
    set (off := sizes (take j ds)) in *. assert (Ht : blen (take (Z.to_nat off) m) = off) by (unfold blen in *; rewrite length_take; lia).
    rewrite (Serialize_spec d) by (done || (unfold blen in *; rewrite length_drop; lia)). cbn [mbind outcome_bind].
    rewrite mem_read_seg' by lia. cbn [mbind outcome_bind]. eexists. split; [done|].
    exists (take (Z.to_nat off) m ++ doc_bytes d ++ drop (Z.to_nat (SerializedSize d)) (drop (Z.to_nat off) m)). split.
    + rewrite E, (take_S_r _ _ _ Hd), (take_S_r _ _ _ Hid), fmap_app, zip_with_app by (rewrite length_fmap, !length_take; lia). done.
    + rewrite !blen_app, Ht, Hsz. unfold blen in *. rewrite !length_drop. lia.
  - cbn [mbind outcome_bind]. exists m. unfold batch_puts. fold ds. by rewrite !firstn_all2 by lia.
Qed.

(** ** The database *)
Section DATABASE.
Context `{!IntDB, !IntDBOk}.

Lemma Compare_0 a b : Compare a b = 0 -> a = b.
Proof. unfold Compare. repeat case_bool_decide; lia. Qed.
Lemma Compare_refl a : Compare a a = 0.
Proof. unfold Compare. repeat case_bool_decide; lia. Qed.
Lemma Compare_neg a b : Compare a b < 0 -> a < b.
Proof. unfold Compare. repeat case_bool_decide; lia. Qed.
Lemma Compare_lt a b : a < b -> Compare a b < 0.
Proof. unfold Compare. intros. by rewrite bool_decide_true. Qed.

Lemma idb_write_other puts d k : k ∉ puts.*1 -> idb_get k (idb_write puts d) = idb_get k d.
Proof.
  induction puts as [|[k' v] puts IH] using rev_ind; intros Hk; [apply idb_write_nil|]. rewrite fmap_app, elem_of_app in Hk.
  rewrite idb_write_snoc, bool_decide_false; [apply IH; tauto|]. intros ->%Compare_0. apply Hk. right. by left.
Qed.

Lemma idb_write_in puts d k v : NoDup puts.*1 -> (k, v) ∈ puts -> idb_get k (idb_write puts d) = Some v.
Proof.
  induction puts as [|[k' v'] puts IH] using rev_ind; intros Hnd Hin; [by apply elem_of_nil in Hin|].
  rewrite fmap_app in Hnd. apply NoDup_app in Hnd as (Hnd & Hk & _). rewrite idb_write_snoc. apply elem_of_app in Hin as [Hin|[= -> ->]%list_elem_of_singleton].
  - rewrite bool_decide_false; [by apply IH|]. intros E%Compare_0. apply (Hk k); [by apply (list_elem_of_fmap_2 fst) in Hin|rewrite <- E; by left].
  - by rewrite bool_decide_true by apply Compare_refl.
Qed.

Lemma StronglySorted_seqZ n : forall m, StronglySorted (fun a b => Compare a b < 0) (seqZ m (Z.of_nat n)).
Proof.
  induction n as [|n IH]; intros m; [constructor|]. rewrite seqZ_cons by lia. constructor.
  - replace (Z.pred _) with (Z.of_nat n) by lia. apply IH.
  - apply Forall_forall. intros x Hx%elem_of_seqZ. apply Compare_lt. lia.
Qed.

(** A database with the numbers of a range is gone through in their order. *)
Lemma scan_range d m n : 0 <= n -> (forall k, is_Some (idb_get k d) <-> m <= k < m + n) -> (idb_scan d).*1 = seqZ m n.
Proof.
  intros Hn Hget. rewrite <- (Z2Nat.id n) in * by done. apply (StronglySorted_unique_strong (fun a b => Compare a b < 0)).
  - intros x y _ _ Hx%Compare_neg Hy%Compare_neg. lia.
  - apply idb_scan_sorted.
  - apply StronglySorted_seqZ.
  - assert (Hnd : NoDup (idb_scan d).*1).
    { pose proof (idb_scan_sorted d) as Hs. induction Hs as [|x l _ IH Hx]; [constructor|]. constructor; [|done].
      intros Hin. rewrite Forall_forall in Hx. specialize (Hx x Hin). apply Compare_neg in Hx. lia. }
    apply NoDup_Permutation; [done|apply NoDup_seqZ|]. intros k. rewrite elem_of_seqZ, <- Hget. rewrite list_elem_of_fmap. split.
    + intros ([k' v] & -> & Hin%idb_scan_get). by exists v.
    + intros [v Hv%idb_scan_get]. by exists (k, v).
Qed.
End DATABASE.
