(* ===== verification/LdaStreamSteps.v ===== *)
(** * LDA: every turn of the reader and the workers keeps the invariant

    An invariant and that it is kept, turn by turn. *)
From stdpp Require Import functions.
From S2P Require Import Prelude Bytes LdaDoc LdaStream LdaStreamPlan.
Open Scope Z_scope.

(** ** LDA: the reader and the workers, an invariant

    What holds in every state of [LdaStream]: each partition has at most one
    batch between the reader and its worker, and it is known where; the
    documents outside the outstanding batches are in the database.  Every
    turn keeps it. *)
(** Where the batch of a partition is: nowhere, on its way to the worker,
    with the worker who has visited [v] of its documents, or on its way back. *)
Inductive place := Nowhere | Mailed (x : Z) | Held (x : Z) (v : nat) | Back (x : Z).
Definition place_ptr (l : place) : option Z := match l with Nowhere => None | Mailed x | Held x _ | Back x => Some x end.
Definition place_mail (l : place) : list Z := match l with Mailed x => [x] | _ => [] end.
Definition is_out (l : place) : bool := match l with Nowhere => false | _ => true end.
Definition visited (l : place) (len : nat) : nat := match l with Held _ v => v | Back _ => len | _ => 0 end.
(** The batches sent when the worker's next one is number [t]. *)
Definition sent_of (l : place) (t : nat) : nat := match l with Mailed _ | Held _ _ => S t | _ => t end.

Section INV.
Context `{!IntDB, !IntDBOk} (new_addr : gset Z -> Z) (new_mem : Z -> list Z).
Context (c : DiskStreamReaderConfig) (K : Z) (T : nat) (L : Z).
Abbreviation P := (num_partitions c).
Abbreviation N := (num_batches_per_partition c).
Definition np : nat := Z.to_nat P.
Definition nb : nat := Z.to_nat N.

(** The documents of the batch with number [n] of partition [p]. *)
Definition nth_ids (n p : nat) : list Z := batch_ids c (Z.of_nat (n mod nb)) (Z.of_nat p).
Definition commands : list Z := 0 :: replicate (pred T) 1 ++ [-1].
Definition in_corpus (id : Z) : Prop := doc_id_begin c <= id < doc_id_begin c + num_docs c.

Definition batch_is (C : Z -> LDADoc) (n p : nat) (l : place) (b : DocBatch) : Prop :=
  doc_id_ b = nth_ids n p /\ doc_ptr_ b = C <$> nth_ids n p /\ is_last_batch_ b = bool_decide (n mod nb = pred nb)%nat /\
  (visited l (length (nth_ids n p)) <= length (nth_ids n p))%nat /\
  Forall (fun d => num_topics_ d = K) (take (visited l (length (nth_ids n p))) (C <$> nth_ids n p)).

Definition place_ok (heap : gmap Z DocBatch) (C : Z -> LDADoc) (snt p : nat) (l : place) : Prop :=
  match place_ptr l with
  | None => True
  | Some x => exists b, heap !! x = Some b /\ x <> 0 /\ (0 < snt)%nat /\ batch_is C (pred snt) p l b
  end.

(** A worker that is about to visit batch [t]. *)
Definition worker_ok (w : worker) (l : place) (t : nat) : Prop :=
  pl_num_topics_ (w_loader w) = K /\
  match w_at w with
  | Starting => t = 0%nat /\ S (w_left w) = T /\ doc_batch_ptr_ (w_loader w) = 0 /\ match l with Nowhere | Mailed _ => True | _ => False end
  | FetchingRestart => (t mod nb = 0)%nat /\ (w_left w + t / nb + 1 = T)%nat /\ match l with Held _ _ => False | _ => True end
  | FetchingGet => (t mod nb <> 0)%nat /\ (w_left w + t / nb + 1 = T)%nat /\ match l with Held _ _ => False | _ => True end
  | Between => (w_left w + t / nb + 1 = T)%nat /\ l = Held (doc_batch_ptr_ (w_loader w)) (Z.to_nat (doc_batch_iter_ (w_loader w))) /\ 0 <= doc_batch_iter_ (w_loader w)
  | Gone => t = (T * nb)%nat /\ match l with Nowhere | Back _ => True | _ => False end
  end.

Definition part_ok (heap : gmap Z DocBatch) (C : Z -> LDADoc) (p snt : nat) (mail : list Z) (out : bool) (w : worker) (l : place) (t : nat) : Prop :=
  worker_ok w l t /\ snt = sent_of l t /\ mail = place_mail l /\ out = is_out l /\ place_ok heap C snt p l.

(** Batches sent to partition [p] and commands taken, when [kr] passes are
    complete. *)
Definition sent (a : reader_at) (kr p : nat) : nat :=
  match a with
  | AwaitCmd _ | Flushing _ => kr * nb
  | Delivering i q => kr * nb + Z.to_nat i + (if bool_decide (Z.of_nat p < q) then 1 else 0)
  | Finishing _ | Exited => T * nb
  end.
Definition consumed (a : reader_at) (kr : nat) : nat :=
  match a with AwaitCmd _ => kr | Flushing _ | Delivering _ _ => S kr | Finishing _ | Exited => S T end.
(** The commands the first worker has sent. *)
Definition ordered (a : worker_at) (t : nat) : nat :=
  match a with Starting => 0 | Gone => S T | _ => S (t / nb) end.

Definition none_out (outs : list bool) (f : nat -> Prop) : Prop := forall p, (p < np)%nat -> f p -> outs !! p = Some false.

Definition reader_ok (C : Z -> LDADoc) (r : DiskStreamReader) (kr : nat) : Prop :=
  let outs := outstanding_batch_ r in
  match r_at r with
  | AwaitCmd first => first = bool_decide (kr = 0%nat) /\ (kr <= T)%nat /\ (kr = 0%nat -> none_out outs (fun _ => True))
  | Flushing q => (kr < T)%nat /\ 0 <= q <= P /\ none_out outs (fun p => Z.of_nat p < q)
  | Delivering i q => (kr < T)%nat /\ 0 <= i <= N /\ 0 <= q <= P /\ (i = N -> q = 0) /\ (i = 0 -> none_out outs (fun p => q <= Z.of_nat p)) /\
      doc_counter_ r = read_before c i q /\ (it_ r).*1 = seqZ (doc_id_begin c + read_before c i q) (num_docs c - read_before c i q) /\
      Forall (fun e => Deserialize e.2 LDADoc_new = Ret (C e.1)) (it_ r)
  | Finishing q => 0 <= q <= P /\ none_out outs (fun p => Z.of_nat p < q)
  | Exited => none_out outs (fun _ => True)
  end.

(** The documents of an outstanding batch. *)
Definition away (a : reader_at) (kr : nat) (ls : nat -> place) (id : Z) : Prop :=
  exists p, (p < np)%nat /\ ls p <> Nowhere /\ id ∈ nth_ids (pred (sent a kr p)) p.

Definition db_ok (C : Z -> LDADoc) (db : idb) (out : Z -> Prop) : Prop := forall id,
  (is_Some (idb_get id db) <-> in_corpus id) /\ (in_corpus id -> ~ out id -> exists v, idb_get id db = Some v /\ Deserialize v LDADoc_new = Ret (C id)).

Definition docs_ok (C : Z -> LDADoc) : Prop := forall id, in_corpus id -> doc_wf (C id) /\ blen (tokens_ (C id)) <= L.

(** Batches on their way back. *)
Definition returned_ok (ret : list (Z * Z)) (ls : nat -> place) : Prop :=
  NoDup ret /\ forall m, m ∈ ret <-> exists p, (p < np)%nat /\ m.1 = Z.of_nat p /\ ls p = Back m.2.

Definition heap_ok (heap : gmap Z DocBatch) (ls : nat -> place) : Prop :=
  (forall p q x, (p < np)%nat -> (q < np)%nat -> place_ptr (ls p) = Some x -> place_ptr (ls q) = Some x -> p = q) /\
  (forall x b, heap !! x = Some b -> exists p, (p < np)%nat /\ place_ptr (ls p) = Some x).

Definition cmds_ok (cmds : list (Z * Z)) (a : reader_at) (kr : nat) (w0 : worker) (t0 : nat) : Prop :=
  (consumed a kr <= ordered (w_at w0) t0)%nat /\ cmds = map (pair 1) (drop (consumed a kr) (take (ordered (w_at w0) t0) commands)).

(** What a worker gets of the document [d], and a visit of the corpus. *)
Definition got_ok (d got : LDADoc) : Prop :=
  tokens_ got = tokens_ d /\ num_topics_ got = K /\ length (token_topics_ got) = length (tokens_ d) /\
  (num_topics_ d = K -> got = d) /\ (num_topics_ d <> K -> Forall (fun t => 0 <= t < K) (token_topics_ got)).
Definition visit_ok (C : Z -> LDADoc) (v : visit) : Prop := got_ok (C (v_doc v)) (v_got v) /\ tokens_ (v_left v) = tokens_ (v_got v).

(** The documents a worker has visited. *)
Definition seen (ts : nat -> nat) (ls : nat -> place) (p : nat) : list Z :=
  (n ← seq 0 (ts p); nth_ids n p) ++ match ls p with Held _ v => take v (nth_ids (ts p) p) | _ => [] end.

Record sinv (s : stream) (C : Z -> LDADoc) (ls : nat -> place) (ts : nat -> nat) (kr : nat) : Prop := mksinv {
  si_lengths : length (st_workers s) = np /\ length (st_mail s) = np /\ length (outstanding_batch_ (st_reader s)) = np;
  si_parts p : (p < np)%nat -> exists mail out w, st_mail s !! p = Some mail /\ outstanding_batch_ (st_reader s) !! p = Some out /\ st_workers s !! p = Some w /\
    part_ok (st_heap s) C p (sent (r_at (st_reader s)) kr p) mail out w (ls p) (ts p);
  si_returned : returned_ok (st_returned s) ls;
  si_heap : heap_ok (st_heap s) ls;
  si_cmds : exists w0, st_workers s !! 0%nat = Some w0 /\ cmds_ok (st_cmds s) (r_at (st_reader s)) kr w0 (ts 0%nat);
  si_reader : reader_ok C (st_reader s) kr;
  si_db : db_ok C (db_ (st_reader s)) (away (r_at (st_reader s)) kr ls);
  si_docs : docs_ok C
}.
End INV.

Section STEPS.
Context `{!IntDB, !IntDBOk} (new_addr : gset Z -> Z) (new_mem : Z -> list Z).
Context (Haddr : forall X, new_addr X ∉ X) (Hmem : forall n, 0 <= n -> blen (new_mem n) = n).
Context (c : DiskStreamReaderConfig) (K : Z) (T : nat) (L : Z).
Context (Hc : config_ok c) (HK : 0 < K < 2 ^ 31) (HT : (0 < T)%nat) (HL : (batch_size c + num_partitions c) * (12 + 8 * L) < 2 ^ 31).
Abbreviation P := (num_partitions c).
Abbreviation N := (num_batches_per_partition c).
Abbreviation np := (np c).
Abbreviation nb := (nb c).
Abbreviation nth_ids := (nth_ids c).
Abbreviation worker_ok := (worker_ok c K T).
Abbreviation place_ok := (place_ok c K).
Abbreviation part_ok := (part_ok c K T).
Abbreviation sent := (sent c T).
Abbreviation consumed := (consumed T).
Abbreviation ordered := (ordered c T).
Abbreviation cmds_ok := (cmds_ok c T).
Abbreviation away := (away c T).
Abbreviation sinv := (sinv c K T L).

Lemma np_eq : Z.of_nat np = P /\ (0 < np)%nat.
Proof. destruct Hc as (_ & HP & _). unfold LdaStreamSteps.np. lia. Qed.
Lemma nb_eq : Z.of_nat nb = N /\ (0 < nb)%nat.
Proof. destruct (batches_eq c Hc) as (_ & HN & _). unfold LdaStreamSteps.nb. lia. Qed.

Lemma nth_index n : 0 <= Z.of_nat (n mod nb) < N.
Proof. destruct nb_eq as [E Hnb]. pose proof (Nat.mod_upper_bound n nb ltac:(lia)). lia. Qed.
Lemma part_index p : (p < np)%nat -> 0 <= Z.of_nat p < P.
Proof. destruct np_eq as [E _]. lia. Qed.
Hint Resolve nth_index part_index : core.

Lemma nth_ids_corpus n p x : (p < np)%nat -> x ∈ nth_ids n p -> in_corpus c x.
Proof. intros Hp Hx. apply (batch_ids_range c Hc x _ _ (nth_index n) (part_index p Hp) Hx). Qed.
Lemma nth_ids_inj n m p q x : (p < np)%nat -> (q < np)%nat -> x ∈ nth_ids n p -> x ∈ nth_ids m q -> p = q.
Proof.
  intros Hp Hq Hx Hx'. pose proof (batch_of_ids c Hc x _ _ (nth_index n) (part_index p Hp) Hx) as E.
  rewrite (batch_of_ids c Hc x _ _ (nth_index m) (part_index q Hq) Hx') in E. injection E as _ E. lia.
Qed.
Lemma nth_ids_NoDup n p : NoDup (nth_ids n p).
Proof. apply NoDup_seqZ. Qed.
Lemma nth_ids_length n p : (0 < length (nth_ids n p))%nat /\ Z.of_nat (length (nth_ids n p)) < batch_size c + P.
Proof.
  pose proof (batch_size_bounds c Hc (Z.of_nat (n mod nb)) (Z.of_nat p)). unfold LdaStreamSteps.nth_ids, batch_ids. rewrite length_seqZ. lia.
Qed.

(** The batch partition [p] was sent last in a pass. *)
Lemma mod_row a i : (i < nb)%nat -> ((a * nb + i) mod nb = i)%nat.
Proof. intros Hi. rewrite Nat.add_comm, Nat.Div0.mod_add. by apply Nat.mod_small. Qed.
Lemma div_row a i : (i < nb)%nat -> ((a * nb + i) / nb = a)%nat.
Proof. intros Hi. rewrite Nat.add_comm, Nat.div_add, Nat.div_small by lia. lia. Qed.

(** ** Frames *)
Lemma place_ok_frame heap heap' C C' snt p l : place_ok heap C snt p l ->
  (forall x, place_ptr l = Some x -> heap' !! x = heap !! x) -> (l <> Nowhere -> forall id, id ∈ nth_ids (pred snt) p -> C' id = C id) -> place_ok heap' C' snt p l.
Proof.
  unfold LdaStreamSteps.place_ok. destruct (place_ptr l) as [x|] eqn:El; [|done]. intros (b & Hb & Hx & Hs & Hbatch) Hh HC. exists b.
  assert (E : C' <$> nth_ids (pred snt) p = C <$> nth_ids (pred snt) p).
  { apply list_fmap_ext. intros i id Hid. apply HC; [by intros ->|]. by apply list_elem_of_lookup_2 in Hid. }
  split_and!; [by rewrite Hh|done..|]. unfold batch_is in *. by rewrite E.
Qed.

Lemma fn_same {A B} `{EqDecision A} (f : A -> B) p x q : <[p := x]> f q = if decide (p = q) then x else f q.
Proof. done. Qed.

Lemma sinv_sent s C ls ts kr p : sinv s C ls ts kr -> (p < np)%nat -> sent (r_at (st_reader s)) kr p = sent_of (ls p) (ts p).
Proof. intros Hs Hp. by destruct (si_parts _ _ _ _ _ _ _ _ _ Hs p Hp) as (mail & out & w & _ & _ & _ & _ & E & _). Qed.

Lemma sinv_out s C ls ts kr p : sinv s C ls ts kr -> (p < np)%nat -> outstanding_batch_ (st_reader s) !! p = Some (is_out (ls p)).
Proof. intros Hs Hp. destruct (si_parts _ _ _ _ _ _ _ _ _ Hs p Hp) as (mail & out & w & _ & E & _ & _ & _ & _ & -> & _). done. Qed.

(** Documents of outstanding batches have been read before. *)
Lemma away_read s C ls ts kr i q id : sinv s C ls ts kr -> r_at (st_reader s) = Delivering i q ->
  away (r_at (st_reader s)) kr ls id -> id < doc_id_begin c + read_before c i q.
Proof.
  intros Hs Ea (p & Hp & Hl & Hid). pose proof (si_reader _ _ _ _ _ _ _ _ _ Hs) as Hr. unfold reader_ok in Hr. rewrite Ea in *.
  destruct Hr as (_ & Hi & Hq & HiN & Hz & _). pose proof (sinv_out _ _ _ _ _ _ Hs Hp) as Ho. destruct nb_eq as [En Hnb].
  unfold LdaStreamSteps.sent in Hid. case_bool_decide as Hpq.
  - assert (i < N) by (destruct (decide (i = N)); [lia|lia]).
    replace (pred _) with (kr * nb + Z.to_nat i)%nat in Hid by lia. unfold LdaStreamSteps.nth_ids in Hid. rewrite mod_row, Z2Nat.id in Hid by lia.
    apply (batch_before c Hc id i (Z.of_nat p)); try done; [lia|auto|lia].
  - destruct (decide (i = 0)) as [->|Hi0].
    { rewrite (Hz eq_refl p Hp) in Ho by lia. by destruct (ls p). }
    replace (pred _) with (kr * nb + Z.to_nat (i - 1))%nat in Hid by lia. unfold LdaStreamSteps.nth_ids in Hid. rewrite mod_row, Z2Nat.id in Hid by lia.
    apply (batch_before c Hc id (i - 1) (Z.of_nat p)); try done; [lia|auto|lia].
Qed.
(** ** A worker's turn, seen by the others *)
Lemma worker_update s C ls ts kr p w w' l' t' heap' C' cmds' ret' : sinv s C ls ts kr -> (p < np)%nat -> st_workers s !! p = Some w ->
  worker_ok w' l' t' -> sent_of l' t' = sent_of (ls p) (ts p) -> is_out l' = is_out (ls p) -> place_ptr l' = place_ptr (ls p) ->
  place_ok heap' C' (sent_of l' t') p l' ->
  (forall x, place_ptr (ls p) <> Some x -> heap' !! x = st_heap s !! x) ->
  (forall id, C' id <> C id -> ls p <> Nowhere /\ id ∈ nth_ids (pred (sent_of l' t')) p) -> docs_ok c L C' ->
  returned_ok c ret' (<[p := l']> ls) ->
  (p = 0%nat -> cmds_ok cmds' (r_at (st_reader s)) kr w' t') -> (p <> 0%nat -> cmds' = st_cmds s) ->
  sinv (mkstream heap' cmds' (<[p := place_mail l']> (st_mail s)) ret' (st_reader s) (<[p := w']> (st_workers s))) C' (<[p := l']> ls) (<[p := t']> ts) kr.
Proof.
  intros Hs Hp Ew Hw Hsent Hout Hptr Hplace Hheap HC Hdocs Hret Hc0 Hc1. pose proof (sinv_sent _ _ _ _ _ _ Hs Hp) as Hsp.
  assert (Hput : forall id, C' id <> C id -> away (r_at (st_reader s)) kr ls id).
  { intros id Hid. destruct (HC id Hid) as [Hn Hin]. exists p. rewrite Hsp, <- Hsent. done. }
  pose proof (si_lengths _ _ _ _ _ _ _ _ _ Hs) as (Lw & Lm & Lo). constructor; cbn [st_workers st_mail st_reader st_heap st_returned st_cmds].
  - by rewrite !length_insert.
  - intros q Hq. destruct (decide (p = q)) as [<-|Hne].
    + exists (place_mail l'), (is_out (ls p)), w'. rewrite !list_lookup_insert_eq by lia. rewrite (sinv_out _ _ _ _ _ _ Hs Hp), !fn_same, !decide_True by done.
      split_and!; [done..|]. unfold LdaStreamSteps.part_ok. rewrite Hsp, <- Hsent, Hout. done.
    + destruct (si_parts _ _ _ _ _ _ _ _ _ Hs q Hq) as (mail & out & w2 & E1 & E2 & E3 & H1 & H2 & H3 & H4 & H5). exists mail, out, w2.
      rewrite !list_lookup_insert_ne, !fn_same, !decide_False by done. split_and!; [done..|]. split_and!; try done.
      eapply place_ok_frame; [exact H5| |].
      * intros x Hx. apply Hheap. intros Hx'. destruct (si_heap _ _ _ _ _ _ _ _ _ Hs) as [Hinj _]. by apply Hne, (Hinj p q x).
      * intros Hl id Hid. destruct (decide (C' id = C id)) as [|Hid']; [done|]. destruct (HC id Hid') as [_ Hin]. exfalso. apply Hne.
        by apply (nth_ids_inj _ _ _ _ id Hp Hq Hin Hid).
  - done.
  - destruct (si_heap _ _ _ _ _ _ _ _ _ Hs) as [Hinj Hdom]. split.
    + intros q q' x Hq Hq'. rewrite !fn_same. intros E1 E2. apply (Hinj q q' x Hq Hq'); [destruct (decide (p = q)) as [<-|]|destruct (decide (p = q')) as [<-|]]; congruence.
    + intros x b Hb. destruct (decide (place_ptr (ls p) = Some x)) as [Ex|Ex].
      * exists p. rewrite fn_same, decide_True by done. split; [done|congruence].
      * rewrite Hheap in Hb by done. destruct (Hdom x b Hb) as (q & Hq & Eq). exists q. rewrite fn_same. split; [done|]. destruct (decide (p = q)) as [<-|]; congruence.
  - destruct (si_cmds _ _ _ _ _ _ _ _ _ Hs) as (w0 & E0 & Hcmds). destruct (decide (p = 0%nat)) as [->|Hne].
    + exists w'. rewrite list_lookup_insert_eq, fn_same, decide_True by (done || lia). auto.
    + exists w0. rewrite list_lookup_insert_ne, fn_same, decide_False by done. rewrite (Hc1 Hne). done.
  - pose proof (si_reader _ _ _ _ _ _ _ _ _ Hs) as Hr. unfold reader_ok in *. destruct (r_at (st_reader s)) as [|q|i q| |] eqn:Ea; try done.
    destruct Hr as (H1 & H2 & H3 & H4 & H5 & H6 & H7 & H8). split_and!; try done; [lia..|]. rewrite Forall_forall in H8 |- *. intros e He. rewrite (H8 e He). f_equal.
    destruct (decide (C' e.1 = C e.1)) as [|Hid]; [done|]. apply Hput in Hid. rewrite <- Ea in Hid. apply (away_read _ _ _ _ _ _ _ _ Hs Ea) in Hid.
    assert (He1 : e.1 ∈ (it_ (st_reader s)).*1) by by apply list_elem_of_fmap_2. rewrite H7 in He1. apply elem_of_seqZ in He1. lia.
  - intros id. destruct (si_db _ _ _ _ _ _ _ _ _ Hs id) as [Hd1 Hd2]. split; [done|]. intros Hid Hn.
    assert (Hn' : ~ away (r_at (st_reader s)) kr ls id).
    { intros (q & Hq & Hl & Hin). apply Hn. exists q. rewrite fn_same. split_and!; [done| |done]. destruct (decide (p = q)) as [<-|]; [|done].
      intros ->. cbn in Hout. by destruct (ls p). }
    destruct (decide (C' id = C id)) as [->|Hid']; [by apply Hd2|]. by apply Hput in Hid'.
  - done.
Qed.

Lemma current_doc_ok rng l b v d : pl_num_topics_ l = K -> doc_batch_iter_ l = Z.of_nat v -> doc_ptr_ b !! v = Some d -> doc_wf d -> (forall n, 0 <= rng n < K) ->
  exists got l', current_doc rng l b = Ret (got, l') /\ got_ok K d got /\ doc_wf got /\ pl_num_topics_ l' = K /\
    doc_batch_ptr_ l' = doc_batch_ptr_ l /\ doc_batch_iter_ l' = Z.of_nat (S v).
Proof.
  intros HlK Hv Hd (W1 & W2 & W3 & W4 & W5) Hrng. unfold current_doc, GetDocPtr. rewrite Hv, (vec_at_nat _ _ _ Hd). cbn [mbind outcome_bind]. rewrite HlK.
  case_bool_decide as Hk; cbn [mbind outcome_bind].
  - rewrite RandomInitTopics_spec by done. cbn [mbind outcome_bind]. eexists _, _. split; [done|].
    assert (Hin : Forall (fun t => 0 <= t < K) (map rng (seq 0 (length (tokens_ d))))) by (apply Forall_forall; intros t (n & -> & _)%list_elem_of_fmap; apply Hrng).
    unfold got_ok, doc_wf. cbn. rewrite length_map, length_seq. split_and!; try done; try lia.
    eapply Forall_impl; [exact Hin|]. intros t Ht. unfold in_i32. cbn in Ht. lia.
  - eexists _, _. split; [done|]. unfold got_ok, doc_wf. cbn. split_and!; try done; lia.
Qed.

Lemma held_batch s C ls ts kr p x v : sinv s C ls ts kr -> (p < np)%nat -> ls p = Held x v ->
  exists b, st_heap s !! x = Some b /\ x <> 0 /\ batch_is c K C (ts p) p (Held x v) b.
Proof.
  intros Hs Hp El. destruct (si_parts _ _ _ _ _ _ _ _ _ Hs p Hp) as (mail & out & w & _ & _ & _ & _ & E & _ & _ & Hpl). rewrite E, El in Hpl.
  destruct Hpl as (b & H1 & H2 & _ & H3). by exists b.
Qed.

Lemma part_mail s C ls ts kr p : sinv s C ls ts kr -> (p < np)%nat -> st_mail s !! p = Some (place_mail (ls p)).
Proof. intros Hs Hp. destruct (si_parts _ _ _ _ _ _ _ _ _ Hs p Hp) as (mail & out & w & E & _ & _ & _ & _ & -> & _). done. Qed.
Lemma part_worker s C ls ts kr p w : sinv s C ls ts kr -> (p < np)%nat -> st_workers s !! p = Some w -> worker_ok w (ls p) (ts p).
Proof. intros Hs Hp Ew. destruct (si_parts _ _ _ _ _ _ _ _ _ Hs p Hp) as (mail & out & w' & _ & _ & E & Hw & _). congruence. Qed.
Lemma part_cmds s C ls ts kr w : sinv s C ls ts kr -> st_workers s !! 0%nat = Some w -> cmds_ok (st_cmds s) (r_at (st_reader s)) kr w (ts 0%nat).
Proof. intros Hs Ew. destruct (si_cmds _ _ _ _ _ _ _ _ _ Hs) as (w0 & E & Hcm). congruence. Qed.

(** Batches that are not on their way back keep it so. *)
Lemma returned_keep ret ls p l : returned_ok c ret ls -> match ls p with Back _ => False | _ => True end -> match l with Back _ => False | _ => True end ->
  returned_ok c ret (<[p := l]> ls).
Proof.
  intros [Hnd Hr] H1 H2. split; [done|]. intros m. rewrite Hr. split; intros (q & Hq & Em & El); exists q; rewrite fn_same in *.
  - split_and!; try done. destruct (decide (p = q)) as [<-|]; [by rewrite El in H1|done].
  - split_and!; try done. destruct (decide (p = q)) as [<-|]; [by rewrite El in H2|done].
Qed.

Lemma visit_doc_ok s C ls ts kr p w rng work x v : sinv s C ls ts kr -> (p < np)%nat -> st_workers s !! p = Some w -> w_at w = Between -> ls p = Held x v ->
  (v < length (nth_ids (ts p) p))%nat -> (forall n, 0 <= rng n < K) -> keeps_words work ->
  exists vis s', visit_doc p rng work (w_left w) (w_loader w) s = Ret (Some vis, s') /\ v_part vis = p /\ nth_ids (ts p) p !! v = Some (v_doc vis) /\ visit_ok K C vis /\
    sinv s' (<[v_doc vis := v_left vis]> C) (<[p := Held x (S v)]> ls) (<[p := ts p]> ts) kr.
Proof.
  intros Hs Hp Ew Ea El Hv Hrng Hwork. destruct (held_batch _ _ _ _ _ _ _ _ Hs Hp El) as (b & Hb & Hx & Bi & Bp & Bl & Bv & Bk).
  pose proof (part_worker _ _ _ _ _ _ _ Hs Hp Ew) as Hw. unfold LdaStreamSteps.worker_ok in Hw. rewrite Ea, El in Hw. destruct Hw as (HwK & Hleft & [= Ex Ev] & Hit).
  destruct (lookup_lt_is_Some_2 _ _ Hv) as (id & Hid). assert (Hd : doc_ptr_ b !! v = Some (C id)) by (by rewrite Bp, list_lookup_fmap, Hid).
  assert (Hidc : in_corpus c id) by (apply (nth_ids_corpus (ts p) p id Hp); by apply list_elem_of_lookup_2 in Hid).
  destruct (si_docs _ _ _ _ _ _ _ _ _ Hs id Hidc) as [Hwf HLid]. assert (Hiter : doc_batch_iter_ (w_loader w) = Z.of_nat v) by lia.
  destruct (current_doc_ok rng (w_loader w) b v (C id) HwK Hiter Hd Hwf Hrng) as (got & l' & Ecur & Hgot & Hgwf & Hl'K & Hl'p & Hl'i).
  destruct (Hwork got) as (Wt & Wn & Wl & Wi); [by destruct Hgwf as (_ & ? & _)|]. destruct Hgwf as (G1 & G2 & G3 & G4 & G5). destruct Hgot as (O1 & O2 & O3 & O4 & O5).
  set (b' := mkbatch (is_last_batch_ b) (doc_id_ b) (<[v := work got]> (doc_ptr_ b))).
  exists (mkvisit p id got (work got)), (mkstream (<[x := b']> (st_heap s)) (st_cmds s) (<[p := place_mail (Held x (S v))]> (st_mail s)) (st_returned s) (st_reader s) (<[p := mkworker l' Between (w_left w)]> (st_workers s))).
  cbn [v_part v_doc v_left v_got]. split_and!; [|done..|].
  - unfold visit_doc, current_batch. rewrite <- Ex, bool_decide_false by done. cbn [CHECK negb mbind outcome_bind]. rewrite Hb. cbn [deref mbind outcome_bind]. rewrite Ecur. cbn [mbind outcome_bind].
    unfold batch_set_doc, vec_set. rewrite Hiter, bool_decide_true by (apply lookup_lt_Some in Hd; lia). cbn [mbind outcome_bind]. unfold GetDocID. rewrite Bi, (vec_at_nat _ _ _ Hid).
    cbn [mbind outcome_bind]. rewrite Nat2Z.id, (list_insert_id (st_mail s)) by (rewrite (part_mail _ _ _ _ _ _ Hs Hp), El; done). unfold b'. by rewrite Bi.
  - apply (worker_update s C ls ts kr p w); try done; rewrite ?El; try done.
    + unfold LdaStreamSteps.worker_ok. cbn. rewrite Hl'p, Hl'i, Nat2Z.id. split_and!; try done; by rewrite Ex.
    + exists b'. cbn [sent_of pred]. rewrite lookup_insert_eq. split_and!; [done..|lia|]. unfold batch_is, b'. cbn [visited doc_id_ doc_ptr_ is_last_batch_] in *.
      assert (Efm : <[id := work got]> C <$> nth_ids (ts p) p = <[v := work got]> (C <$> nth_ids (ts p) p)).
      { apply list_eq. intros j. rewrite list_lookup_fmap. destruct (decide (j = v)) as [->|Hj].
        - rewrite Hid, list_lookup_insert_eq by (by rewrite length_fmap). cbn. by rewrite fn_same, decide_True.
        - rewrite list_lookup_insert_ne, list_lookup_fmap by done. destruct (nth_ids (ts p) p !! j) as [id'|] eqn:Ej; [|done]. cbn. rewrite fn_same, decide_False; [done|].
          intros <-. by apply Hj, (NoDup_lookup _ _ _ _ (nth_ids_NoDup _ _) Ej Hid). }
      rewrite Efm, Bp. split_and!; try done. rewrite (take_S_r _ _ (work got)) by (rewrite list_lookup_insert_eq; [done|by rewrite length_fmap]).
      rewrite take_insert_ge by lia. apply Forall_app; split; [done|]. apply Forall_singleton. by rewrite Wn.
    + intros y Hy. rewrite lookup_insert_ne; [done|]. intros ->. by apply Hy.
    + intros id' Hid'. rewrite fn_same in Hid'. destruct (decide (id = id')) as [<-|]; [|done]. split; [done|]. by apply list_elem_of_lookup_2 in Hid.
    + intros id' Hid'. rewrite fn_same. destruct (decide (id = id')) as [<-|]; [|by apply (si_docs _ _ _ _ _ _ _ _ _ Hs)].
      unfold doc_wf. rewrite Wt, Wn, Wl, O1, O2, O3. destruct Hwf as (F1 & _ & _ & _ & F5). split_and!; try done; lia.
    + apply returned_keep; [apply (si_returned _ _ _ _ _ _ _ _ _ Hs)|by rewrite El|done].
    + intros ->. pose proof (part_cmds _ _ _ _ _ _ Hs Ew) as Hcm. unfold LdaStreamSteps.cmds_ok in *. by rewrite Ea in Hcm.
Qed.

(** *** Commands *)
Lemma commands_lookup j x : commands T !! j = Some x -> x = if decide (j = 0)%nat then 0 else if decide (j = T) then -1 else 1.
Proof.
  unfold commands. destruct j as [|j]; [by intros [= <-]|]. intros Hx. change ((replicate (pred T) 1 ++ [-1]) !! j = Some x) in Hx. cbn. destruct (decide (S j = T)) as [Ej|Ej].
  - rewrite lookup_app_r, length_replicate in Hx by (rewrite length_replicate; lia). replace (_ - _)%nat with 0%nat in Hx by lia. by injection Hx as <-.
  - destruct (decide (j < pred T)%nat) as [Hj|Hj].
    + rewrite lookup_app_l in Hx by (by rewrite length_replicate). by apply lookup_replicate in Hx as [-> _].
    + rewrite lookup_app_r, length_replicate in Hx by (rewrite length_replicate; lia). destruct (j - pred T)%nat as [|j'] eqn:E; [lia|done].
Qed.
Lemma commands_length : length (commands T) = S T.
Proof. unfold commands. cbn. rewrite length_app, length_replicate. cbn. lia. Qed.

Lemma cmds_same cmds a kr w t w' t' : cmds_ok cmds a kr w t -> ordered (w_at w') t' = ordered (w_at w) t -> cmds_ok cmds a kr w' t'.
Proof. unfold LdaStreamSteps.cmds_ok. by intros Hcm ->. Qed.

Lemma cmds_snoc cmds a kr w t w' t' x : cmds_ok cmds a kr w t -> ordered (w_at w') t' = S (ordered (w_at w) t) -> (ordered (w_at w) t <= T)%nat ->
  x = (if decide (ordered (w_at w) t = 0)%nat then 0 else if decide (ordered (w_at w) t = T) then -1 else 1) -> cmds_ok (cmds ++ [(1, x)]) a kr w' t'.
Proof.
  unfold LdaStreamSteps.cmds_ok. intros [Hle ->] -> HleT Hx. split; [lia|]. set (n := ordered (w_at w) t) in *.
  destruct (lookup_lt_is_Some_2 (commands T) n) as (y & Hy); [rewrite commands_length; lia|]. rewrite (take_S_r _ _ _ Hy), drop_app_le.
  - rewrite map_app. cbn. do 3 f_equal. rewrite Hx. symmetry. by apply commands_lookup.
  - rewrite length_take, commands_length. lia.
Qed.

Lemma mod_succ t : (if decide (t mod nb = pred nb)%nat then S t mod nb = 0 /\ S t / nb = S (t / nb) else S t mod nb <> 0 /\ S t / nb = t / nb)%nat.
Proof.
  destruct nb_eq as [_ Hnb]. pose proof (Nat.div_mod_eq t nb) as E. pose proof (Nat.mod_upper_bound t nb ltac:(lia)) as Hm.
  set (a := (t / nb)%nat) in *. set (m := (t mod nb)%nat) in *. destruct (decide _) as [Em|Em].
  - replace (S t) with (S a * nb + 0)%nat by nia. by rewrite mod_row, div_row by lia.
  - replace (S t) with (a * nb + S m)%nat by nia. rewrite mod_row, div_row by lia. split; [lia|done].
Qed.

(** *** The other turns of a worker *)
Lemma fetch_ok s C ls ts kr p w x : sinv s C ls ts kr -> (p < np)%nat -> st_workers s !! p = Some w -> w_at w = FetchingRestart \/ w_at w = FetchingGet -> ls p = Mailed x ->
  sinv (mkstream (st_heap s) (st_cmds s) (<[p := []]> (st_mail s)) (st_returned s) (st_reader s)
         (<[p := mkworker (fetched x (w_loader w)) Between (w_left w)]> (st_workers s))) C (<[p := Held x 0]> ls) (<[p := ts p]> ts) kr.
Proof.
  intros Hs Hp Ew Ea El. pose proof (part_worker _ _ _ _ _ _ _ Hs Hp Ew) as Hw.
  assert (Hw2 : pl_num_topics_ (w_loader w) = K /\ (w_left w + ts p / nb + 1 = T)%nat).
  { unfold LdaStreamSteps.worker_ok in Hw. destruct Ea as [Ea|Ea]; rewrite Ea in Hw; tauto. }
  change ([] : list Z) with (place_mail (Held x 0)). apply (worker_update s C ls ts kr p w); try done; rewrite ?El; try done.
  - unfold LdaStreamSteps.worker_ok. cbn. split_and!; try done; apply Hw2.
  - destruct (si_parts _ _ _ _ _ _ _ _ _ Hs p Hp) as (mail & out & w' & _ & _ & _ & _ & E & _ & _ & Hpl). by rewrite E, El in Hpl.
  - apply (si_docs _ _ _ _ _ _ _ _ _ Hs).
  - apply returned_keep; [apply (si_returned _ _ _ _ _ _ _ _ _ Hs)|by rewrite El|done].
  - intros ->. apply (cmds_same _ _ _ w (ts 0%nat)); [by apply (part_cmds _ _ _ _ _ _ Hs)|]. by destruct Ea as [-> | ->].
Qed.

Lemma return_ok s C ls ts kr p w x v cmds' w' : sinv s C ls ts kr -> (p < np)%nat -> st_workers s !! p = Some w -> w_at w = Between -> ls p = Held x v ->
  v = length (nth_ids (ts p) p) -> worker_ok w' (Back x) (S (ts p)) ->
  (p = 0%nat -> cmds_ok cmds' (r_at (st_reader s)) kr w' (S (ts p))) -> (p <> 0%nat -> cmds' = st_cmds s) ->
  sinv (mkstream (st_heap s) cmds' (st_mail s) (st_returned s ++ [(Z.of_nat p, x)]) (st_reader s) (<[p := w']> (st_workers s)))
    C (<[p := Back x]> ls) (<[p := S (ts p)]> ts) kr.
Proof.
  intros Hs Hp Ew Ea El Hv Hw' Hc0 Hc1. destruct (held_batch _ _ _ _ _ _ _ _ Hs Hp El) as (b & Hb & Hx & Bi & Bp & Bl & Bv & Bk). destruct (si_returned _ _ _ _ _ _ _ _ _ Hs) as [Hnd Hr].
  assert (Em : st_mail s = <[p := place_mail (Back x)]> (st_mail s)) by (rewrite list_insert_id; [done|]; by rewrite (part_mail _ _ _ _ _ _ Hs Hp), El).
  rewrite Em. apply (worker_update s C ls ts kr p w); try done; rewrite ?El; try done.
  - exists b. cbn [sent_of pred]. split_and!; [done..|lia|]. unfold batch_is. cbn [visited] in *. subst v. split_and!; done.
  - apply (si_docs _ _ _ _ _ _ _ _ _ Hs).
  - split.
    + apply NoDup_app. split_and!; [done| |apply NoDup_singleton]. intros m Hm ->%list_elem_of_singleton. apply Hr in Hm as (q & Hq & Eq & Elq). cbn in Eq, Elq.
      assert (q = p) by lia. subst q. congruence.
    + intros m. rewrite elem_of_app, list_elem_of_singleton, Hr. split.
      * intros [(q & Hq & Eq & Elq)| ->]; [|exists p; by rewrite fn_same, decide_True]. exists q. rewrite fn_same. split_and!; [done..|].
        destruct (decide (p = q)) as [<-|]; [congruence|done].
      * intros (q & Hq & Eq & Elq). rewrite fn_same in Elq. destruct (decide (p = q)) as [<-|]; [|left; by exists q]. right. destruct m. cbn in *. congruence.
Qed.

Lemma start_ok s C ls ts kr p w cmds' w' : sinv s C ls ts kr -> (p < np)%nat -> st_workers s !! p = Some w -> w_at w = Starting -> worker_ok w' (ls p) (ts p) ->
  (p = 0%nat -> cmds_ok cmds' (r_at (st_reader s)) kr w' (ts p)) -> (p <> 0%nat -> cmds' = st_cmds s) ->
  sinv (mkstream (st_heap s) cmds' (st_mail s) (st_returned s) (st_reader s) (<[p := w']> (st_workers s))) C (<[p := ls p]> ls) (<[p := ts p]> ts) kr.
Proof.
  intros Hs Hp Ew Ea Hw' Hc0 Hc1. pose proof (part_worker _ _ _ _ _ _ _ Hs Hp Ew) as Hw. unfold LdaStreamSteps.worker_ok in Hw. rewrite Ea in Hw. destruct Hw as (_ & _ & _ & _ & Hl).
  assert (Em : st_mail s = <[p := place_mail (ls p)]> (st_mail s)) by (rewrite list_insert_id; [done|]; by rewrite (part_mail _ _ _ _ _ _ Hs Hp)).
  rewrite Em. apply (worker_update s C ls ts kr p w); try done.
  - destruct (si_parts _ _ _ _ _ _ _ _ _ Hs p Hp) as (mail & out & w2 & _ & _ & _ & _ & E & _ & _ & Hpl). by rewrite <- E.
  - apply (si_docs _ _ _ _ _ _ _ _ _ Hs).
  - apply returned_keep; [apply (si_returned _ _ _ _ _ _ _ _ _ Hs)|by destruct (ls p)|by destruct (ls p)].
Qed.

(** *** Every turn of a worker *)
Abbreviation seen := (seen c).

(** What a turn of [p] may do to the corpus and to what has been seen. *)
Definition turn_effect (p : nat) (v : option visit) (C C' : Z -> LDADoc) (ls ls' : nat -> place) (ts ts' : nat -> nat) : Prop :=
  match v with
  | None => C' = C /\ forall q, seen ts' ls' q = seen ts ls q
  | Some vis => v_part vis = p /\ visit_ok K C vis /\ C' = <[v_doc vis := v_left vis]> C /\
      forall q, seen ts' ls' q = seen ts ls q ++ if decide (p = q) then [v_doc vis] else []
  end.

Lemma effect_quiet p l' t' C ls ts : seen (<[p := t']> ts) (<[p := l']> ls) p = seen ts ls p -> turn_effect p None C C ls (<[p := l']> ls) ts (<[p := t']> ts).
Proof.
  intros Hp. split; [done|]. intros q. destruct (decide (p = q)) as [<-|Hne]; [done|]. unfold LdaStreamSteps.seen. by rewrite !fn_same, !decide_False.
Qed.

Lemma visit_effect p x v vis C ls ts : ls p = Held x v -> v_part vis = p -> nth_ids (ts p) p !! v = Some (v_doc vis) -> visit_ok K C vis ->
  turn_effect p (Some vis) C (<[v_doc vis := v_left vis]> C) ls (<[p := Held x (S v)]> ls) ts (<[p := ts p]> ts).
Proof.
  intros El Hvp Hid Hok. split_and!; [done..|]. intros q. unfold LdaStreamSteps.seen. rewrite !fn_same. destruct (decide (p = q)) as [<-|Hne]; [|by rewrite app_nil_r].
  by rewrite El, (take_S_r _ _ _ Hid), app_assoc.
Qed.

Lemma seen_returned p x v ls ts : ls p = Held x v -> v = length (nth_ids (ts p) p) -> seen (<[p := S (ts p)]> ts) (<[p := Back x]> ls) p = seen ts ls p.
Proof.
  intros El ->. unfold LdaStreamSteps.seen. rewrite !fn_same, !decide_True, El by done. rewrite firstn_all, app_nil_r, seq_S, bind_app. cbn. by rewrite app_nil_r.
Qed.

Definition turn_kept (s : stream) (C : Z -> LDADoc) ls ts kr p (r : outcome (option (option visit * stream))) : Prop :=
  exists v s' C' ls' ts', r = Ret (Some (v, s')) /\ sinv s' C' ls' ts' kr /\ turn_effect p v C C' ls ls' ts ts'.

Lemma Starting_turn s C ls ts kr p w rng work : sinv s C ls ts kr -> (p < np)%nat -> st_workers s !! p = Some w -> w_at w = Starting ->
  turn_kept s C ls ts kr p (worker_turn p rng work s).
Proof.
  intros Hs Hp Ew Ea. pose proof (part_worker _ _ _ _ _ _ _ Hs Hp Ew) as Hw. unfold LdaStreamSteps.worker_ok in Hw. rewrite Ea in Hw. destruct Hw as (HK1 & Ht & Hl & Hptr & Hpl).
  unfold worker_turn. rewrite Ew, Ea. unfold Restart. rewrite Hptr, (bool_decide_false (0 <> 0)) by lia. cbn [mbind outcome_bind]. rewrite bool_decide_true by done.
  set (cmds' := if decide (p = 0%nat) then st_cmds s ++ [(1, 0)] else st_cmds s).
  exists None, (mkstream (st_heap s) cmds' (st_mail s) (st_returned s) (st_reader s) (<[p := mkworker (w_loader w) FetchingRestart (w_left w)]> (st_workers s))), C, (<[p := ls p]> ls), (<[p := ts p]> ts).
  split_and!.
  - unfold send_cmd, cmds'. by destruct (decide (p = 0%nat)).
  - apply (start_ok s C ls ts kr p w); try done.
    + unfold LdaStreamSteps.worker_ok. cbn. rewrite Ht. destruct nb_eq as [_ Hnb]. rewrite Nat.Div0.mod_0_l, Nat.Div0.div_0_l. split_and!; try done; [lia|by destruct (ls p)].
    + intros ->. unfold cmds'. rewrite decide_True by done. apply (cmds_snoc _ _ _ w (ts 0%nat)); [by apply (part_cmds _ _ _ _ _ _ Hs)|..]; rewrite ?Ea; cbn; [|lia|done].
      rewrite Ht. by rewrite Nat.Div0.div_0_l.
    + intros Hne. unfold cmds'. by rewrite decide_False.
  - apply effect_quiet. unfold LdaStreamSteps.seen. by rewrite !fn_same, !decide_True.
Qed.

Lemma mail_read s C ls ts kr p : sinv s C ls ts kr -> (p < np)%nat -> vec_at (st_mail s) (Z.of_nat p) = Ret (place_mail (ls p)) /\
  forall l, vec_set (st_mail s) (Z.of_nat p) l = Ret (<[p := l]> (st_mail s)).
Proof.
  intros Hs Hp. split; [by apply vec_at_nat, (part_mail _ _ _ _ _ _ Hs)|]. intros l. destruct (si_lengths _ _ _ _ _ _ _ _ _ Hs) as (_ & Hm & _).
  unfold vec_set. by rewrite bool_decide_true, Nat2Z.id by lia.
Qed.

Lemma Fetching_turn s C ls ts kr p w rng work x : sinv s C ls ts kr -> (p < np)%nat -> st_workers s !! p = Some w -> w_at w = FetchingRestart \/ w_at w = FetchingGet ->
  ls p = Mailed x -> (forall n, 0 <= rng n < K) -> keeps_words work -> turn_kept s C ls ts kr p (worker_turn p rng work s).
Proof.
  intros Hs Hp Ew Ea El Hrng Hwork. destruct (mail_read _ _ _ _ _ _ Hs Hp) as [Em1 Em2]. rewrite El in Em1. pose proof (fetch_ok _ _ _ _ _ _ _ _ Hs Hp Ew Ea El) as Hs1.
  unfold worker_turn. rewrite Ew. destruct Ea as [Ea|Ea]; rewrite Ea, Em1; cbn [place_mail mbind outcome_bind]; rewrite Em2; cbn [mbind outcome_bind].
  - eexists None, _, C, _, _. split_and!; [done|exact Hs1|]. apply effect_quiet. unfold LdaStreamSteps.seen. by rewrite !fn_same, !decide_True, El.
  - set (w1 := mkworker (fetched x (w_loader w)) Between (w_left w)) in *. set (s1 := mkstream _ _ _ _ _ _) in Hs1.
    assert (Ew1 : st_workers s1 !! p = Some w1) by (apply list_lookup_insert_eq; destruct (si_lengths _ _ _ _ _ _ _ _ _ Hs) as (-> & _); done).
    assert (El1 : <[p := Held x 0]> ls p = Held x 0) by (by rewrite fn_same, decide_True).
    assert (Et1 : <[p := ts p]> ts p = ts p) by (by rewrite fn_same, decide_True).
    destruct (visit_doc_ok s1 C _ _ kr p w1 rng work x 0 Hs1 Hp Ew1 eq_refl El1) as (vis & s2 & E & H1 & H2 & H3 & H4); [rewrite Et1; apply nth_ids_length|done..|].
    assert (Eq : visit_doc p rng work (w_left w) (fetched x (w_loader w)) (set_mail (<[p := []]> (st_mail s)) s) = visit_doc p rng work (w_left w1) (w_loader w1) s1).
    { unfold visit_doc, current_batch. cbn. destruct (negb _); [|done]. cbn. destruct (st_heap s !! x); [|done]. cbn. destruct (current_doc _ _ _) as [[? ?]| |]; [|done..]. cbn.
      destruct (batch_set_doc _ _ _); [|done..]. cbn. destruct (GetDocID _ _); [|done..]. cbn. unfold set_worker, set_heap. cbn. by rewrite list_insert_insert_eq. }
    rewrite Eq, E. cbn [mbind outcome_bind]. eexists (Some vis), s2, _, _, _. split_and!; [done|exact H4|].
    pose proof (visit_effect p x 0 vis C (<[p := Held x 0]> ls) (<[p := ts p]> ts) El1 H1 H2 H3) as (F1 & F2 & F3 & F4). split_and!; [done..|].
    intros q. rewrite F4. f_equal. unfold LdaStreamSteps.seen. rewrite !fn_same. destruct (decide (p = q)) as [<-|]; [|done]. by rewrite El.
Qed.

Lemma held_end s C ls ts kr p x v l b : sinv s C ls ts kr -> (p < np)%nat -> ls p = Held x v -> st_heap s !! x = Some b -> batch_is c K C (ts p) p (Held x v) b -> x <> 0 ->
  doc_batch_ptr_ l = x -> doc_batch_iter_ l = Z.of_nat v ->
  current_batch l s = Ret b /\ bool_decide (doc_batch_iter_ l = batch_GetNumDocs b) = bool_decide (v = length (nth_ids (ts p) p)) /\
  stream_IsEnd l s = Ret (bool_decide (ts p mod nb = pred nb)%nat && bool_decide (v = length (nth_ids (ts p) p))) /\ (v <= length (nth_ids (ts p) p))%nat.
Proof.
  intros Hs Hp El Hb (Bi & Bp & Bl & Bv & _) Hx Ep Ei.
  assert (E1 : current_batch l s = Ret b).
  { unfold current_batch. rewrite Ep, bool_decide_false by done. cbn. by rewrite Hb. }
  assert (E2 : bool_decide (doc_batch_iter_ l = batch_GetNumDocs b) = bool_decide (v = length (nth_ids (ts p) p))).
  { unfold batch_GetNumDocs, blen. rewrite Bp, length_fmap, Ei. apply bool_decide_ext. lia. }
  split_and!; [done..| |done]. unfold stream_IsEnd. rewrite E1. cbn [mbind outcome_bind]. by rewrite E2, Bl.
Qed.

Lemma Between_turn s C ls ts kr p w rng work : sinv s C ls ts kr -> (p < np)%nat -> st_workers s !! p = Some w -> w_at w = Between ->
  (forall n, 0 <= rng n < K) -> keeps_words work -> turn_kept s C ls ts kr p (worker_turn p rng work s).
Proof.
  intros Hs Hp Ew Ea Hrng Hwork. pose proof (part_worker _ _ _ _ _ _ _ Hs Hp Ew) as Hw. unfold LdaStreamSteps.worker_ok in Hw. rewrite Ea in Hw. destruct Hw as (HwK & Hleft & El & Hit).
  set (x := doc_batch_ptr_ (w_loader w)) in *. set (v := Z.to_nat (doc_batch_iter_ (w_loader w))) in *. destruct (held_batch _ _ _ _ _ _ _ _ Hs Hp El) as (b & Hb & Hx & Hbat).
  destruct (held_end _ _ _ _ _ _ _ _ (w_loader w) _ Hs Hp El Hb Hbat Hx eq_refl ltac:(lia)) as (E1 & E2 & E3 & Hv). pose proof (mod_succ (ts p)) as Hmod.
  assert (Hseen : v = length (nth_ids (ts p) p) -> turn_effect p None C C ls (<[p := Back x]> ls) ts (<[p := S (ts p)]> ts)).
  { intros Hvl. by apply effect_quiet, (seen_returned p x v). }
  assert (Hcm : p = 0%nat -> cmds_ok (st_cmds s) (r_at (st_reader s)) kr w (ts 0%nat)) by (intros ->; by apply (part_cmds _ _ _ _ _ _ Hs)).
  unfold worker_turn. rewrite Ew, Ea, E3. cbn [mbind outcome_bind]. destruct (decide (v = length (nth_ids (ts p) p))) as [Hvl|Hvl].
  2:{ rewrite (bool_decide_false (v = _)), andb_false_r by done. rewrite E1. cbn [mbind outcome_bind]. rewrite E2, (bool_decide_false (v = _)) by done.
    destruct (visit_doc_ok s C ls ts kr p w rng work x v Hs Hp Ew Ea El) as (vis & s' & -> & H1 & H2 & H3 & H4); [lia|done..|]. cbn [mbind outcome_bind].
    eexists (Some vis), s', _, _, _. split_and!; [done|exact H4|]. by apply visit_effect. }
  rewrite (bool_decide_true (v = _)), andb_true_r by done. destruct (decide (ts p mod nb = pred nb)%nat) as [Hl|Hl].
  - rewrite (bool_decide_true (_ mod _ = _)%nat) by done. destruct Hmod as [Hm1 Hm2]. destruct (w_left w) as [|n] eqn:Eleft.
    + set (cmds' := if decide (p = 0%nat) then st_cmds s ++ [(1, -1)] else st_cmds s).
      eexists None, (mkstream (st_heap s) cmds' (st_mail s) (st_returned s ++ [(Z.of_nat p, x)]) (st_reader s) (<[p := mkworker (w_loader w) Gone 0]> (st_workers s))), C, _, _.
      split_and!; [unfold send_cmd, cmds'; by destruct (decide (p = 0%nat))| |by apply Hseen].
      apply (return_ok s C ls ts kr p w x v); try done.
      * unfold LdaStreamSteps.worker_ok. cbn. split_and!; try done. pose proof (Nat.div_mod_eq (S (ts p)) nb). nia.
      * intros ->. unfold cmds'. rewrite decide_True by done. apply (cmds_snoc _ _ _ w (ts 0%nat)); rewrite ?Ea; cbn; [by apply Hcm|lia|lia|].
        repeat case_decide; lia.
      * intros Hne. unfold cmds'. by rewrite decide_False.
    + unfold Restart. fold x. rewrite (bool_decide_true (x <> 0)), E3 by done. cbn [mbind outcome_bind].
      rewrite (bool_decide_true (_ mod _ = _)%nat), (bool_decide_true (v = _)) by done. cbn [andb CHECK mbind outcome_bind]. rewrite (bool_decide_false (x = 0)) by done.
      set (cmds' := if decide (p = 0%nat) then st_cmds s ++ [(1, 1)] else st_cmds s). set (l' := mkpartition_loader _ _ _ _ _ _).
      eexists None, (mkstream (st_heap s) cmds' (st_mail s) (st_returned s ++ [(Z.of_nat p, x)]) (st_reader s) (<[p := mkworker l' FetchingRestart n]> (st_workers s))), C, _, _.
      split_and!; [unfold send_cmd, cmds'; by destruct (decide (p = 0%nat))| |by apply Hseen].
      apply (return_ok s C ls ts kr p w x v); try done.
      * unfold LdaStreamSteps.worker_ok. cbn. split_and!; try done. lia.
      * intros ->. unfold cmds'. rewrite decide_True by done. apply (cmds_snoc _ _ _ w (ts 0%nat)); rewrite ?Ea; cbn; [by apply Hcm|lia|lia|].
        repeat case_decide; lia.
      * intros Hne. unfold cmds'. by rewrite decide_False.
  - rewrite (bool_decide_false (_ mod _ = _)%nat) by done. destruct Hmod as [Hm1 Hm2]. rewrite E1. cbn [mbind outcome_bind]. rewrite E2, (bool_decide_true (v = _)) by done.
    eexists None, (mkstream (st_heap s) (st_cmds s) (st_mail s) (st_returned s ++ [(Z.of_nat p, x)]) (st_reader s) (<[p := mkworker (w_loader w) FetchingGet (w_left w)]> (st_workers s))), C, _, _.
    split_and!; [done| |by apply Hseen]. apply (return_ok s C ls ts kr p w x v); try done.
    + unfold LdaStreamSteps.worker_ok. cbn. split_and!; try done. lia.
    + intros ->. apply (cmds_same _ _ _ w (ts 0%nat)); [by apply Hcm|]. rewrite Ea. cbn. lia.
Qed.

(** A worker's turn keeps the invariant; a worker that cannot turn is done or
    waits for a batch. *)
Lemma stream_worker_turn_ok s C ls ts kr p w rng work : sinv s C ls ts kr -> (p < np)%nat -> st_workers s !! p = Some w -> (forall n, 0 <= rng n < K) -> keeps_words work ->
  turn_kept s C ls ts kr p (worker_turn p rng work s) \/
  (worker_turn p rng work s = Ret None /\ (w_at w = Gone \/ ((w_at w = FetchingRestart \/ w_at w = FetchingGet) /\ place_mail (ls p) = []))).
Proof.
  intros Hs Hp Ew Hrng Hwork. pose proof (part_worker _ _ _ _ _ _ _ Hs Hp Ew) as Hw. unfold LdaStreamSteps.worker_ok in Hw.
  assert (Hfetch : w_at w = FetchingRestart \/ w_at w = FetchingGet -> turn_kept s C ls ts kr p (worker_turn p rng work s) \/
    (worker_turn p rng work s = Ret None /\ place_mail (ls p) = [])).
  { intros Ea. destruct (place_mail (ls p)) as [|y l] eqn:Em.
    - right. split; [|done]. unfold worker_turn. rewrite Ew. destruct (mail_read _ _ _ _ _ _ Hs Hp) as [E _]. rewrite Em in E. by destruct Ea as [-> | ->]; rewrite E.
    - left. destruct (ls p) as [|x|x v|x] eqn:El; try done. by apply (Fetching_turn s C ls ts kr p w rng work x). }
  destruct (w_at w) eqn:Ea.
  - left. by apply (Starting_turn s C ls ts kr p w).
  - destruct Hfetch as [?|[? ?]]; [by left|by left|right]. split; [done|]. right. split; [by left|done].
  - destruct Hfetch as [?|[? ?]]; [by right|by left|right]. split; [done|]. right. split; [by right|done].
  - left. by apply (Between_turn s C ls ts kr p w).
  - right. split; [|by left]. unfold worker_turn. by rewrite Ew, Ea.
Qed.
End STEPS.
