(* ===== verification/LdaStreamReads.v ===== *)
(** * LDA: every turn of the reader keeps the invariant

    The invariant of [LdaStreamSteps] for the turns of the reader: taking a
    batch back, delivering one, and moving on. *)
From stdpp Require Import functions.
From S2P Require Import Prelude Bytes LdaDoc LdaStream LdaStreamPlan LdaStreamSteps.
Open Scope Z_scope.

Section READS.
Context `{!IntDB, !IntDBOk} (new_addr : gset Z -> Z) (new_mem : Z -> list Z).
Context (Haddr : forall X, new_addr X ∉ X) (Hmem : forall n, 0 <= n -> blen (new_mem n) = n).
Context (c : DiskStreamReaderConfig) (K : Z) (T : nat) (L : Z).
Context (Hc : config_ok c) (HK : 0 < K < 2 ^ 31) (HT : (0 < T)%nat) (HL : (batch_size c + num_partitions c) * (12 + 8 * L) < 2 ^ 31).
Abbreviation P := (num_partitions c).
Abbreviation N := (num_batches_per_partition c).
Abbreviation np := (np c).
Abbreviation nb := (nb c).
Abbreviation nth_ids := (nth_ids c).
Abbreviation sent := (sent c T).
Abbreviation cmds_ok := (cmds_ok c T).
Abbreviation away := (away c T).
Abbreviation sinv := (sinv c K T L).

(** ** Moving on *)
Lemma reader_move s C ls ts kr cmds' r' kr' : sinv s C ls ts kr -> outstanding_batch_ r' = outstanding_batch_ (st_reader s) -> db_ r' = db_ (st_reader s) ->
  (forall p, (p < np)%nat -> sent (r_at r') kr' p = sent (r_at (st_reader s)) kr p) -> reader_ok c T C r' kr' ->
  (forall w0, st_workers s !! 0%nat = Some w0 -> cmds_ok cmds' (r_at r') kr' w0 (ts 0%nat)) ->
  sinv (mkstream (st_heap s) cmds' (st_mail s) (st_returned s) r' (st_workers s)) C ls ts kr'.
Proof.
  intros Hs Eo Ed Esent Hr Hcm. constructor; cbn [st_heap st_mail st_returned st_reader st_workers st_cmds]; rewrite ?Eo, ?Ed; try (by destruct Hs).
  - intros p Hp. rewrite Esent by done. by apply (si_parts _ _ _ _ _ _ _ _ _ Hs).
  - destruct (si_cmds _ _ _ _ _ _ _ _ _ Hs) as (w0 & E0 & _). exists w0. auto.
  - intros id. destruct (si_db _ _ _ _ _ _ _ _ _ Hs id) as [H1 H2]. split; [done|]. intros Hid Hn. apply H2; [done|]. intros (p & Hp & Hl & Hin).
    apply Hn. exists p. rewrite Esent by done. done.
Qed.

Lemma cmds_at s C ls ts kr a kr' w0 : sinv s C ls ts kr -> st_workers s !! 0%nat = Some w0 -> consumed T a kr' = consumed T (r_at (st_reader s)) kr ->
  cmds_ok (st_cmds s) a kr' w0 (ts 0%nat).
Proof. intros Hs E0 Ec. pose proof (part_cmds c K T L _ _ _ _ _ _ Hs E0) as Hcm. unfold LdaStreamSteps.cmds_ok in *. by rewrite Ec. Qed.

(** Nothing is outstanding: the database has the whole corpus. *)
Lemma db_complete s C ls ts kr : sinv s C ls ts kr -> (forall p, (p < np)%nat -> ls p = Nowhere) -> forall id, in_corpus c id ->
  exists v, idb_get id (db_ (st_reader s)) = Some v /\ Deserialize v LDADoc_new = Ret (C id).
Proof. intros Hs Hn id Hid. apply (si_db _ _ _ _ _ _ _ _ _ Hs id); [done|]. intros (p & Hp & Hl & _). by apply Hl, Hn. Qed.

Lemma not_out s C ls ts kr p : sinv s C ls ts kr -> (p < np)%nat -> outstanding_batch_ (st_reader s) !! p = Some false -> ls p = Nowhere.
Proof. intros Hs Hp E. rewrite (sinv_out c K T L _ _ _ _ _ _ Hs Hp) in E. by destruct (ls p). Qed.

(** ** Taking a batch back *)
Lemma pick_perm k l m rest : pick_message k l = Some (m, rest) -> l ≡ₚ m :: rest.
Proof.
  unfold pick_message. destruct (l !! k) as [m'|] eqn:E; [|done]. cbn. destruct (forallb _ _); [|done]. intros [= -> <-].
  rewrite <- (take_drop_middle l k m E) at 1. by rewrite Permutation_middle.
Qed.

Lemma none_out_less outs f p : none_out c outs f -> none_out c (<[p := false]> outs) f.
Proof.
  intros Hn q Hq Hf. specialize (Hn q Hq Hf). destruct (decide (p = q)) as [->|Hne]; [|by rewrite list_lookup_insert_ne].
  apply list_lookup_insert_eq. by apply lookup_lt_Some in Hn.
Qed.

Lemma sizes_le ds : Forall (fun d => blen (tokens_ d) <= L) ds -> sizes ds <= Z.of_nat (length ds) * (12 + 8 * L).
Proof.
  induction 1 as [|d ds Hd _ IH]; [done|]. cbv beta in Hd. change (sizes (d :: ds)) with (SerializedSize d + sizes ds). cbn [length].
  assert (SerializedSize d <= 12 + 8 * L) by (unfold SerializedSize, blen in *; cbn [csize]; case_bool_decide; lia).
  rewrite Nat2Z.inj_succ, Z.mul_succ_l. lia.
Qed.

Lemma batch_docs s C ls ts kr n p : sinv s C ls ts kr -> (p < np)%nat -> Forall (fun d => doc_wf d /\ blen (tokens_ d) <= L) (C <$> nth_ids n p).
Proof.
  intros Hs Hp. apply Forall_fmap, Forall_forall. intros id Hid. apply (si_docs _ _ _ _ _ _ _ _ _ Hs). by apply (nth_ids_corpus c T Hc HT n p).
Qed.

(** The database after a batch has been written back. *)
Lemma db_take_back s C ls ts kr p x b : sinv s C ls ts kr -> (p < np)%nat -> ls p = Back x ->
  doc_id_ b = nth_ids (pred (sent (r_at (st_reader s)) kr p)) p -> doc_ptr_ b = C <$> nth_ids (pred (sent (r_at (st_reader s)) kr p)) p ->
  Forall (fun d => num_topics_ d = K) (C <$> nth_ids (pred (sent (r_at (st_reader s)) kr p)) p) ->
  db_ok c C (idb_write (batch_puts b) (db_ (st_reader s))) (away (r_at (st_reader s)) kr (<[p := Nowhere]> ls)).
Proof.
  intros Hs Hp El Bi Bp Bk. set (ids := nth_ids _ p) in *. pose proof (batch_docs _ _ _ _ _ (pred (sent (r_at (st_reader s)) kr p)) p Hs Hp) as Hdocs. fold ids in Hdocs.
  assert (Ekeys : (batch_puts b).*1 = ids) by (unfold batch_puts; rewrite Bi, Bp; apply fst_zip; by rewrite !length_fmap).
  assert (Hin : forall id, id ∈ ids -> exists v, idb_get id (idb_write (batch_puts b) (db_ (st_reader s))) = Some v /\ Deserialize v LDADoc_new = Ret (C id)).
  { intros id Hid. exists (doc_bytes (C id)). split.
    - apply idb_write_in; [rewrite Ekeys; apply (nth_ids_NoDup c)|]. unfold batch_puts. rewrite Bi, Bp. apply list_elem_of_lookup in Hid as (j & Hj).
      apply list_elem_of_lookup. exists j. apply lookup_zip_Some. by rewrite !list_lookup_fmap, Hj.
    - assert (Hd : C id ∈ C <$> ids) by (apply list_elem_of_fmap; by exists id). rewrite Forall_forall in Hdocs, Bk.
      rewrite <- (app_nil_r (doc_bytes (C id))), Deserialize_bytes by apply (Hdocs _ Hd). unfold stored. rewrite bool_decide_true by (rewrite (Bk _ Hd); lia).
      by destruct (C id). }
  intros id. destruct (si_db _ _ _ _ _ _ _ _ _ Hs id) as [D1 D2]. destruct (decide (id ∈ ids)) as [Hid|Hid].
  - destruct (Hin id Hid) as (v & Ev & Edes). split; [|intros _ _; by exists v]. rewrite Ev. split; [|by exists v]. intros _. by apply (nth_ids_corpus c T Hc HT _ _ _ Hp Hid).
  - rewrite idb_write_other by (by rewrite Ekeys). split; [done|]. intros Hc1 Hn. apply D2; [done|]. intros (q & Hq & Hlq & Hinq). apply Hn. exists q. rewrite fn_same.
    split_and!; [done| |done]. destruct (decide (p = q)) as [<-|]; done.
Qed.

Lemma take_back_ok s C ls ts kr k : sinv s C ls ts kr -> take_back new_mem k s = Ret None /\ pick_message k (st_returned s) = None \/
  exists s' p, take_back new_mem k s = Ret (Some s') /\ (p < np)%nat /\ sinv s' C (<[p := Nowhere]> ls) ts kr /\ (exists x, ls p = Back x).
Proof.
  intros Hs. unfold take_back. destruct (pick_message k (st_returned s)) as [[[sender x] rest]|] eqn:Epick; [right|by left]. apply pick_perm in Epick as Hperm.
  destruct (si_returned _ _ _ _ _ _ _ _ _ Hs) as [Hnd Hret]. destruct (proj1 (Hret (sender, x))) as (p & Hp & Esend & El); [rewrite Hperm; by left|]. cbn in Esend, El. subst sender.
  destruct (si_parts _ _ _ _ _ _ _ _ _ Hs p Hp) as (mail & out & w & Em & Eo & Ew & Hw & Esent & -> & _ & Hpl). unfold place_ok in Hpl. rewrite El in Hpl. cbn [place_ptr] in Hpl.
  destruct Hpl as (b & Hb & Hx & Hpos & Bi & Bp & _ & _ & Bk). destruct (si_lengths _ _ _ _ _ _ _ _ _ Hs) as (Lw & Lm & Lo).
  unfold vec_set. rewrite bool_decide_true, Nat2Z.id by lia. cbn [mbind outcome_bind]. rewrite Hb. cbn [deref mbind outcome_bind].
  cbn [visited] in Bk. rewrite take_ge in Bk by (by rewrite length_fmap). pose proof (batch_docs _ _ _ _ _ (pred (sent (r_at (st_reader s)) kr p)) p Hs Hp) as Hdocs.
  set (ids := nth_ids (pred (sent (r_at (st_reader s)) kr p)) p) in *.
  destruct (batch_write_spec new_mem b (mem_buf_ (st_reader s)) (db_ (st_reader s)) Hmem) as (mem & ->).
  { rewrite Bp. eapply Forall_impl; [exact Hdocs|]. by intros d [? _]. }
  { by rewrite Bi, Bp, length_fmap. }
  { rewrite Bp. eapply Z.le_lt_trans; [apply sizes_le; eapply Forall_impl; [exact Hdocs|]; by intros d [_ ?]|]. rewrite length_fmap.
    pose proof (nth_ids_length c T Hc HT (pred (sent (r_at (st_reader s)) kr p)) p) as [Hl1 Hl2]. fold ids in Hl1, Hl2.
    assert (0 <= L).
    { destruct ids as [|id ids']; [cbn in Hl1; lia|]. apply Forall_cons in Hdocs as [[_ Hd] _]. unfold blen in Hd. lia. } nia. }
  cbn [mbind outcome_bind]. eexists _, p. split_and!; [done|done| |by exists x].
  assert (Hreturned : returned_ok c rest (<[p := Nowhere]> ls)).
  { rewrite Hperm in Hnd. apply NoDup_cons in Hnd as [Hnin Hnd]. split; [done|]. intros m. split.
    - intros Hm. destruct (proj1 (Hret m)) as (q & Hq & Eq & Elq); [rewrite Hperm; by right|]. exists q. rewrite fn_same. split_and!; [done..|].
      destruct (decide (p = q)) as [<-|]; [|done]. exfalso. apply Hnin. destruct m as [m1 m2]. cbn in *. congruence.
    - intros (q & Hq & Eq & Elq). rewrite fn_same in Elq. destruct (decide (p = q)) as [<-|Hne]; [done|].
      assert (Hin : m ∈ st_returned s) by (apply Hret; by exists q). rewrite Hperm in Hin. apply elem_of_cons in Hin as [->|]; [|done]. cbn in Eq. lia. }
  destruct (si_heap _ _ _ _ _ _ _ _ _ Hs) as [Hinj Hdom].
  constructor; cbn [st_heap st_mail st_returned st_reader st_workers st_cmds set_heap set_returned set_reader db_ outstanding_batch_ r_at].
  - by rewrite length_insert.
  - intros q Hq. destruct (decide (p = q)) as [<-|Hne].
    + exists (place_mail (ls p)), false, w. rewrite list_lookup_insert_eq, fn_same, decide_True by (done || lia). rewrite El. rewrite El in Em, Hw, Esent. split_and!; [done..|].
      split_and!; [|done..]. unfold worker_ok in *. destruct (w_at w); try tauto. destruct Hw as (_ & _ & Hw & _). done.
    + destruct (si_parts _ _ _ _ _ _ _ _ _ Hs q Hq) as (mail & out2 & w2 & E1 & E2 & E3 & H1 & H2 & H3 & H4 & H5). exists mail, out2, w2.
      rewrite list_lookup_insert_ne, !fn_same, !decide_False by done. split_and!; [done..|]. split_and!; try done. eapply place_ok_frame; [exact H5| |done].
      intros y Hy. apply lookup_delete_ne. intros ->. apply Hne, (Hinj p q y); [done..|by rewrite El|done].
  - done.
  - split.
    + intros q q' y Hq Hq'. rewrite !fn_same. repeat case_decide; try done. by apply Hinj.
    + intros y b' [Hy Hb']%lookup_delete_Some. destruct (Hdom y b' Hb') as (q & Hq & Eq). exists q. rewrite fn_same. split; [done|].
      destruct (decide (p = q)) as [<-|]; [|done]. rewrite El in Eq. by injection Eq.
  - destruct (si_cmds _ _ _ _ _ _ _ _ _ Hs) as (w0 & E0 & Hcm). by exists w0.
  - pose proof (si_reader _ _ _ _ _ _ _ _ _ Hs) as Hr. unfold reader_ok in *. cbn [r_at outstanding_batch_ doc_counter_ it_].
    destruct (r_at (st_reader s)) as [first|q|i q|q|].
    + destruct Hr as (R1 & R2 & R3). do 2 (split; [done|]). intros Ek. by apply none_out_less, R3.
    + destruct Hr as (R1 & R2 & R3). do 2 (split; [done|]). by apply none_out_less.
    + destruct Hr as (R1 & R2 & R3 & R4 & R5 & R6). do 4 (split; [done|]). split; [|done]. intros Ei. by apply none_out_less, R5.
    + destruct Hr as [R1 R2]. split; [done|]. by apply none_out_less.
    + by apply none_out_less.
  - apply (db_take_back s C ls ts kr p x b); try done.
  - apply (si_docs _ _ _ _ _ _ _ _ _ Hs).
Qed.

(** ** Delivering a batch *)
Lemma sent_delivering i q kr p : sent (Delivering i q) kr p = (kr * nb + Z.to_nat i + (if bool_decide (Z.of_nat p < q)%Z then 1 else 0))%nat.
Proof. done. Qed.

Lemma deliver_ok s C ls ts kr i q : sinv s C ls ts kr -> r_at (st_reader s) = Delivering i q -> i < N -> q < P ->
  outstanding_batch_ (st_reader s) !! Z.to_nat q = Some false ->
  exists s' x, deliver_batch new_addr c i q s = Ret (Some s') /\ sinv s' C (<[Z.to_nat q := Mailed x]> ls) ts kr.
Proof.
  intros Hs Ea Hi Hq Eo. set (p := Z.to_nat q) in *. destruct (np_eq c T Hc HT) as [Enp _]. destruct (nb_eq c T Hc HT) as [Enb Hnb].
  pose proof (si_reader _ _ _ _ _ _ _ _ _ Hs) as Hr. unfold reader_ok in Hr. rewrite Ea in Hr. destruct Hr as (Rk & Ri & Rq & _ & Rz & Rc & Rit & Rd).
  assert (Hp : (p < np)%nat) by (unfold p; lia). assert (Epq : Z.of_nat p = q) by (unfold p; lia). pose proof (not_out _ _ _ _ _ p Hs Hp Eo) as El.
  destruct (si_parts _ _ _ _ _ _ _ _ _ Hs p Hp) as (mail & out & w & Em & Eo2 & Ew & Hw & Esent & Email & _ & _). rewrite El in Hw, Email, Esent. cbn [place_mail sent_of] in Email, Esent. subst mail.
  rewrite Ea, sent_delivering, bool_decide_false in Esent by lia. destruct (si_lengths _ _ _ _ _ _ _ _ _ Hs) as (Lw & Lm & Lo). destruct (si_heap _ _ _ _ _ _ _ _ _ Hs) as [Hinj Hdom].
  pose proof (batch_size_bounds c Hc i q) as Hsz. pose proof (read_before_next c Hc i q ltac:(lia) ltac:(lia)) as Enext. rewrite <- (read_before_start c i q) in Enext by lia.
  assert (Hend : read_before c i (q + 1) <= num_docs c).
  { assert (Hx : doc_id_begin c + batch_start c i q + this_batch_size c i q - 1 ∈ batch_ids c i q) by (apply elem_of_seqZ; lia).
    apply (batch_ids_range c Hc) in Hx; [|lia..]. rewrite (read_before_start c i q) in Enext by lia. lia. }
  assert (Eids : nth_ids (kr * nb + Z.to_nat i) p = seqZ (doc_id_begin c + read_before c i q) (this_batch_size c i q)).
  { unfold LdaStreamSteps.nth_ids. rewrite mod_row, Z2Nat.id, Epq by lia. unfold batch_ids. by rewrite read_before_start by lia. }
  destruct (CreateDocBatch_spec c C (it_ (st_reader s)) (read_before c i q) (this_batch_size c i q) ltac:(lia) Rit ltac:(lia) Rd) as (it' & Ecr & Eit & Fit).
  rewrite Enext in Ecr, Eit. set (x := new_addr ({[0]} ∪ dom (st_heap s))). pose proof (Haddr ({[0]} ∪ dom (st_heap s))) as Hfresh. fold x in Hfresh.
  assert (Hx0 : x <> 0) by (clear -Hfresh; set_solver). assert (Hxh : st_heap s !! x = None) by (apply not_elem_of_dom; clear -Hfresh; set_solver).
  unfold deliver_batch. rewrite Rc, Ecr. cbn [mbind outcome_bind]. fold x.
  assert (Eat : vec_at (st_mail s) q = Ret []) by (apply vec_at_Ret; split; [lia|done]). rewrite Eat. cbn [mbind outcome_bind].
  assert (Eset : forall A (l : list A) y, length l = np -> vec_set l q y = Ret (<[p := y]> l)) by (intros A l y Hl; unfold vec_set; by rewrite bool_decide_true by lia).
  rewrite !Eset by done. cbn [mbind outcome_bind app]. set (b0 := mkbatch false _ _). set (b := if bool_decide (i = N - 1) then SetIsLastBatch true b0 else b0).
  eexists _, x. split; [done|].
  assert (Esent' : forall p', (p' < np)%nat -> sent (Delivering i (q + 1)) kr p' = if decide (p = p') then S (kr * nb + Z.to_nat i) else sent (Delivering i q) kr p').
  { intros p' Hp'. rewrite !sent_delivering. destruct (decide (p = p')) as [<-|Hne]; [rewrite bool_decide_true by lia; lia|]. f_equal. by rewrite (bool_decide_ext (Z.of_nat p' < q + 1) (Z.of_nat p' < q)) by lia. }
  constructor; cbn [st_heap st_mail st_returned st_reader st_workers st_cmds set_heap set_mail set_reader db_ outstanding_batch_ r_at].
  - by rewrite !length_insert.
  - intros p' Hp'. rewrite Esent' by done. destruct (decide (p = p')) as [<-|Hne].
    + exists [x], true, w. rewrite !list_lookup_insert_eq, fn_same, decide_True by (done || lia). split_and!; [done..|]. split_and!; [|cbn; lia|done|done|].
      * unfold worker_ok in *. destruct (w_at w); destruct Hw as (HwK & Hw); (split; [done|]).
        -- by destruct Hw as (? & ? & ? & _).
        -- by destruct Hw as (? & ? & _).
        -- by destruct Hw as (? & ? & _).
        -- by destruct Hw as (_ & Hw & _).
        -- destruct Hw as [Hw _]. exfalso. assert (Z.to_nat i < nb)%nat by lia. assert (S kr * nb <= T * nb)%nat by (apply Nat.mul_le_mono_r; lia). lia.
      * exists b. cbn [pred]. rewrite lookup_insert_eq. split_and!; [done..|lia|]. unfold batch_is. rewrite Eids, mod_row by lia.
        assert (Elast : is_last_batch_ b = bool_decide (Z.to_nat i = pred nb)).
        { unfold b. rewrite (bool_decide_ext (Z.to_nat i = pred nb) (i = N - 1)) by lia. by case_bool_decide. }
        rewrite Elast. unfold b, b0. split_and!; [by destruct (bool_decide (i = N - 1))|by destruct (bool_decide (i = N - 1))|done|cbn; lia|cbn; constructor].
    + destruct (si_parts _ _ _ _ _ _ _ _ _ Hs p' Hp') as (mail & out2 & w2 & E1 & E2 & E3 & H1 & H2 & H3 & H4 & H5). exists mail, out2, w2. rewrite Ea in *.
      rewrite !list_lookup_insert_ne, !fn_same, !decide_False by done. split_and!; [done..|]. split_and!; try done. eapply place_ok_frame; [exact H5| |done].
      intros y Hy. apply lookup_insert_ne. intros <-. unfold place_ok in H5. rewrite Hy in H5. destruct H5 as (b' & Hb' & _). congruence.
  - apply returned_keep; [apply (si_returned _ _ _ _ _ _ _ _ _ Hs)|by rewrite El|done].
  - split.
    + intros p1 p2 y Hp1 Hp2. rewrite !fn_same. intros E1 E2. assert (Hold : forall p', (p' < np)%nat -> place_ptr (ls p') = Some x -> False).
      { intros p' Hp' E. destruct (si_parts _ _ _ _ _ _ _ _ _ Hs p' Hp') as (? & ? & ? & _ & _ & _ & _ & _ & _ & _ & H5). unfold place_ok in H5. rewrite E in H5. destruct H5 as (b' & Hb' & _). congruence. }
      destruct (decide (p = p1)) as [<-|], (decide (p = p2)) as [<-|]; [done| | |by apply (Hinj p1 p2 y)]; exfalso; [injection E1 as <-; by apply (Hold p2)|injection E2 as <-; by apply (Hold p1)].
    + intros y b' Hy. destruct (decide (x = y)) as [<-|Hne]; [exists p; by rewrite fn_same, decide_True|]. rewrite lookup_insert_ne in Hy by done. destruct (Hdom y b' Hy) as (p' & Hp' & Ep').
      exists p'. rewrite fn_same. split; [done|]. destruct (decide (p = p')) as [<-|]; [by rewrite El in Ep'|done].
  - destruct (si_cmds _ _ _ _ _ _ _ _ _ Hs) as (w0 & E0 & Hcm). rewrite Ea in Hcm. by exists w0.
  - unfold reader_ok. cbn [r_at outstanding_batch_ doc_counter_ it_]. do 3 (split; [done || lia|]). split; [lia|]. split; [|done].
    intros -> p' Hp' Hle. rewrite list_lookup_insert_ne by lia. apply (Rz eq_refl); [done|lia].
  - intros id. destruct (si_db _ _ _ _ _ _ _ _ _ Hs id) as [D1 D2]. split; [done|]. intros Hid Hn. apply D2; [done|]. intros (p' & Hp' & Hl & Hin). apply Hn. exists p'.
    rewrite Esent', fn_same by done. rewrite Ea in Hin. destruct (decide (p = p')) as [<-|]; done.
  - apply (si_docs _ _ _ _ _ _ _ _ _ Hs).
Qed.

(** ** Every turn of the reader *)
Abbreviation seen := (seen c).

Lemma seen_moved ls ts p l q : match ls p with Held _ _ => False | _ => True end -> match l with Held _ _ => False | _ => True end -> seen ts (<[p := l]> ls) q = seen ts ls q.
Proof. intros H1 H2. unfold LdaStreamSteps.seen. f_equal. rewrite fn_same. destruct (decide (p = q)) as [<-|]; [by destruct l, (ls p)|done]. Qed.

(** What a turn of the reader keeps. *)
Definition reader_kept (C : Z -> LDADoc) (ls : nat -> place) (ts : nat -> nat) (r : outcome (option stream)) : Prop :=
  exists s' ls' kr', r = Ret (Some s') /\ sinv s' C ls' ts kr' /\ forall q, seen ts ls' q = seen ts ls q.

(** [ClearOutstandingBatch] waits, takes a batch, or goes on. *)
Lemma clear_ok s C ls ts kr k q then_ : sinv s C ls ts kr -> 0 <= q < P ->
  (outstanding_batch_ (st_reader s) !! Z.to_nat q = Some false -> reader_kept C ls ts then_) ->
  reader_kept C ls ts (ClearOutstandingBatch new_mem q k then_ s) \/
  (ClearOutstandingBatch new_mem q k then_ s = Ret None /\ pick_message k (st_returned s) = None /\ ls (Z.to_nat q) <> Nowhere).
Proof.
  intros Hs Hq Hthen. destruct (np_eq c T Hc HT) as [Enp _]. assert (Hp : (Z.to_nat q < np)%nat) by lia. pose proof (sinv_out c K T L _ _ _ _ _ _ Hs Hp) as Eo.
  unfold ClearOutstandingBatch. assert (Eat : vec_at (outstanding_batch_ (st_reader s)) q = Ret (is_out (ls (Z.to_nat q)))) by (apply vec_at_Ret; split; [lia|done]).
  rewrite Eat. cbn [mbind outcome_bind]. destruct (is_out (ls (Z.to_nat q))) eqn:El; [|left; by apply Hthen].
  destruct (take_back_ok s C ls ts kr k Hs) as [[E1 E2]|(s' & p & E & Hp' & Hs' & x & Elp)]; [right; split_and!; [done..|by intros E; rewrite E in El]|left].
  exists s', (<[p := Nowhere]> ls), kr. split_and!; [done..|]. intros q'. apply seen_moved; [by rewrite Elp|done].
Qed.

Lemma none_out_next outs q : (forall p, (p < np)%nat -> Z.of_nat p < q -> outs !! p = Some false) -> outs !! Z.to_nat q = Some false -> none_out c outs (fun p => Z.of_nat p < q + 1).
Proof. intros Hn Ho p Hp Hlt. destruct (decide (Z.of_nat p < q)) as [H1|H1]; [by apply Hn|]. by replace p with (Z.to_nat q) by lia. Qed.

Lemma AwaitCmd_turn s C ls ts kr k first : sinv s C ls ts kr -> r_at (st_reader s) = AwaitCmd first -> st_cmds s <> [] ->
  reader_kept C ls ts (reader_turn new_addr new_mem c k s).
Proof.
  intros Hs Ea Hne. pose proof (si_reader _ _ _ _ _ _ _ _ _ Hs) as Hr. unfold reader_ok in Hr. rewrite Ea in Hr. destruct Hr as (Ef & Hk & Hnone).
  destruct (si_cmds _ _ _ _ _ _ _ _ _ Hs) as (w0 & E0 & Hle & Ecm). rewrite Ea in Hle, Ecm. cbn [LdaStreamSteps.consumed] in *. set (n := ordered c T (w_at w0) (ts 0%nat)) in *.
  assert (Hn : (kr < n)%nat).
  { destruct (decide (n = kr)) as [E|]; [|lia]. rewrite E, drop_ge in Ecm; [done|]. rewrite length_take. lia. }
  assert (Hcmd : exists y, commands T !! kr = Some y /\ drop kr (take n (commands T)) = y :: drop (S kr) (take n (commands T))).
  { destruct (lookup_lt_is_Some_2 (commands T) kr) as (y & Hy); [rewrite commands_length by lia; lia|]. exists y. split; [done|]. apply drop_S. by rewrite lookup_take_lt. }
  destruct Hcmd as (y & Hy & Edrop). rewrite Edrop in Ecm. cbn [map] in Ecm. apply (commands_lookup T HT) in Hy.
  unfold reader_turn. rewrite Ea, Ecm. rewrite (bool_decide_true (1 = 1)) by done. cbn [CHECK mbind outcome_bind].
  assert (Hfirst : negb first || bool_decide (0 = y) = true).
  { rewrite Ef. destruct (decide (kr = 0%nat)) as [->|Hk0]; [by rewrite Hy|]. by rewrite bool_decide_false. }
  rewrite Hfirst. cbn [CHECK mbind outcome_bind]. set (outs := if first then _ else _). set (a := if bool_decide _ then _ else _).
  assert (Eouts : outs = outstanding_batch_ (st_reader s)).
  { unfold outs. destruct first; [|done]. symmetry in Ef. apply bool_decide_eq_true in Ef. specialize (Hnone Ef). destruct (si_lengths _ _ _ _ _ _ _ _ _ Hs) as (_ & _ & Lo). apply list_eq. intros p.
    destruct (decide (p < np)%nat) as [Hp|Hp]; [rewrite (Hnone p Hp I); apply lookup_replicate; lia|]. rewrite !lookup_ge_None_2; [done|lia|rewrite length_replicate; lia]. }
  assert (Ha : (kr < T)%nat /\ a = Flushing 0 \/ kr = T /\ a = Finishing 0).
  { unfold a. rewrite Hy. destruct (decide (kr = 0%nat)); [left; split; [lia|done]|]. destruct (decide (kr = T)); [by right|left; split; [lia|done]]. }
  rewrite Eouts. clearbody a. set (r' := mkreader _ _ _ _ _ a). exists (mkstream (st_heap s) (map (pair 1) (drop (S kr) (take n (commands T)))) (st_mail s) (st_returned s) r' (st_workers s)), ls, kr.
  split_and!; [done| |done]. destruct Hc as (_ & HP & _). apply (reader_move s C ls ts kr); try done; unfold r'; cbn [r_at].
  - intros p Hp. rewrite Ea. by destruct Ha as [[? ->]|[-> ->]].
  - unfold reader_ok. cbn [r_at outstanding_batch_]. destruct Ha as [[? ->]|[? ->]]; split_and!; try done; try lia; intros p Hp Hlt; lia.
  - intros w1 E1. rewrite E0 in E1. injection E1 as <-. unfold LdaStreamSteps.cmds_ok. fold n. assert (Ea2 : consumed T a kr = S kr) by (by destruct Ha as [[? ->]|[-> ->]]). by rewrite Ea2.
Qed.

Lemma Flushing_turn s C ls ts kr k q : sinv s C ls ts kr -> r_at (st_reader s) = Flushing q ->
  reader_kept C ls ts (reader_turn new_addr new_mem c k s) \/
  (reader_turn new_addr new_mem c k s = Ret None /\ 0 <= q < P /\ pick_message k (st_returned s) = None /\ ls (Z.to_nat q) <> Nowhere).
Proof.
  intros Hs Ea. pose proof (si_reader _ _ _ _ _ _ _ _ _ Hs) as Hr. unfold reader_ok in Hr. rewrite Ea in Hr. destruct Hr as (Hk & Hq & Hnone). destruct (np_eq c T Hc HT) as [Enp _].
  unfold reader_turn. rewrite Ea. case_bool_decide as HqP.
  - destruct (clear_ok s C ls ts kr k q (Ret (Some (set_reader (reader_goto (Flushing (q + 1)) (st_reader s)) s))) Hs ltac:(lia)) as [H1|(H1 & H2 & H3)]; [|by left|by right; split_and!; [done|lia..|done|done]].
    intros Ho. eexists _, ls, kr. split_and!; [done| |done]. apply (reader_move s C ls ts kr); try done; cbn [r_at reader_goto].
    + intros p Hp. by rewrite Ea.
    + unfold reader_ok. cbn. split_and!; [done|lia..|]. by apply none_out_next.
    + intros w0 E0. apply (cmds_at s C ls ts kr); [done..|]. by rewrite Ea.
  - left. eexists _, ls, kr. split_and!; [done| |done]. assert (Hall : forall p, (p < np)%nat -> ls p = Nowhere).
    { intros p Hp. apply (not_out s C ls ts kr); [done..|]. apply Hnone; [done|lia]. }
    apply (reader_move s C ls ts kr); try done; cbn [r_at].
    + intros p Hp. rewrite Ea. cbn. rewrite bool_decide_false by lia. lia.
    + destruct (batches_eq c Hc) as (_ & HN & _). unfold reader_ok. cbn [r_at outstanding_batch_ doc_counter_ it_]. rewrite (read_before_0 c Hc).
      destruct Hc as (_ & HP & Hnd & _). split_and!; try done; try lia.
      * intros _ p Hp _. apply Hnone; [done|lia].
      * rewrite Z.add_0_r, Z.sub_0_r. apply scan_range; [done|]. intros id. apply (si_db _ _ _ _ _ _ _ _ _ Hs id).
      * apply Forall_forall. intros [id v] Hin%idb_scan_get. destruct (db_complete s C ls ts kr Hs Hall id) as (v' & Ev' & Hd); [apply (si_db _ _ _ _ _ _ _ _ _ Hs id); by exists v|]. cbn. congruence.
    + intros w0 E0. apply (cmds_at s C ls ts kr); [done..|]. by rewrite Ea.
Qed.

Lemma Delivering_turn s C ls ts kr k i q : sinv s C ls ts kr -> r_at (st_reader s) = Delivering i q ->
  reader_kept C ls ts (reader_turn new_addr new_mem c k s) \/
  (reader_turn new_addr new_mem c k s = Ret None /\ 0 <= q < P /\ pick_message k (st_returned s) = None /\ ls (Z.to_nat q) <> Nowhere).
Proof.
  intros Hs Ea. pose proof (si_reader _ _ _ _ _ _ _ _ _ Hs) as Hr. unfold reader_ok in Hr. rewrite Ea in Hr. destruct Hr as (Hk & Hi & Hq & HiN & Hz & Hcnt & Hit & Hdec).
  destruct (np_eq c T Hc HT) as [Enp _]. destruct (nb_eq c T Hc HT) as [Enb Hnb]. unfold reader_turn. rewrite Ea. case_bool_decide as HiN'; [case_bool_decide as HqP|].
  - destruct (clear_ok s C ls ts kr k q (deliver_batch new_addr c i q s) Hs ltac:(lia)) as [H1|(H1 & H2 & H3)]; [|by left|by right; split_and!; [done|lia..|done|done]].
    intros Ho. destruct (deliver_ok s C ls ts kr i q Hs Ea HiN' HqP Ho) as (s' & x & E & Hs'). eexists s', _, kr. split_and!; [done..|].
    intros q'. apply seen_moved; [|done]. by rewrite (not_out s C ls ts kr (Z.to_nat q) Hs ltac:(lia) Ho).
  - left. eexists _, ls, kr. split_and!; [done| |done]. assert (q = P) as -> by lia. apply (reader_move s C ls ts kr); try done; cbn [r_at reader_goto].
    + intros p Hp. rewrite Ea, !sent_delivering, bool_decide_false, bool_decide_true by lia. lia.
    + unfold reader_ok. cbn [r_at reader_goto outstanding_batch_ doc_counter_ it_]. rewrite <- (read_before_row c Hc) by lia. split_and!; try done; lia.
    + intros w0 E0. apply (cmds_at s C ls ts kr); [done..|]. by rewrite Ea.
  - left. eexists _, ls, (S kr). assert (i = N) as -> by lia. rewrite (HiN eq_refl) in *. split_and!; [done| |done]. apply (reader_move s C ls ts kr); try done; cbn [r_at reader_goto].
    + intros p Hp. rewrite Ea, sent_delivering, bool_decide_false by lia. cbn. unfold LdaStreamSteps.nb. lia.
    + intros w0 E0. apply (cmds_at s C ls ts kr); [done..|]. by rewrite Ea.
Qed.

Lemma Finishing_turn s C ls ts kr k q : sinv s C ls ts kr -> r_at (st_reader s) = Finishing q ->
  reader_kept C ls ts (reader_turn new_addr new_mem c k s) \/
  (reader_turn new_addr new_mem c k s = Ret None /\ 0 <= q < P /\ pick_message k (st_returned s) = None /\ ls (Z.to_nat q) <> Nowhere).
Proof.
  intros Hs Ea. pose proof (si_reader _ _ _ _ _ _ _ _ _ Hs) as Hr. unfold reader_ok in Hr. rewrite Ea in Hr. destruct Hr as (Hq & Hnone). destruct (np_eq c T Hc HT) as [Enp _].
  unfold reader_turn. rewrite Ea. case_bool_decide as HqP.
  - destruct (clear_ok s C ls ts kr k q (Ret (Some (set_reader (reader_goto (Finishing (q + 1)) (st_reader s)) s))) Hs ltac:(lia)) as [H1|(H1 & H2 & H3)]; [|by left|by right; split_and!; [done|lia..|done|done]].
    intros Ho. eexists _, ls, kr. split_and!; [done| |done]. apply (reader_move s C ls ts kr); try done; cbn [r_at reader_goto].
    + intros p Hp. by rewrite Ea.
    + unfold reader_ok. cbn. split_and!; [lia..|]. by apply none_out_next.
    + intros w0 E0. apply (cmds_at s C ls ts kr); [done..|]. by rewrite Ea.
  - left. eexists _, ls, kr. split_and!; [done| |done]. apply (reader_move s C ls ts kr); try done; cbn [r_at reader_goto].
    + intros p Hp. by rewrite Ea.
    + unfold reader_ok. cbn. intros p Hp _. apply Hnone; [done|lia].
    + intros w0 E0. apply (cmds_at s C ls ts kr); [done..|]. by rewrite Ea.
Qed.
End READS.
