(* ===== verification/LdaStreamProps.v ===== *)
(** * LDA: streaming is going through a corpus in memory

    However the reader and the workers of [LdaStream] interleave, the workers
    see one corpus: every document is visited once in a pass, by the worker
    whose partition has it, as the last visit left it; and they end. *)
From stdpp Require Import functions.
From S2P Require Import Prelude Bytes Num SparseRow LdaDoc LdaStream LdaStreamPlan LdaStreamSteps LdaStreamReads.
Open Scope Z_scope.

#[export] Instance worker_at_eq_dec : EqDecision worker_at.
Proof. solve_decision. Defined.

(** ** The specification: a corpus in memory that visits change *)
Inductive corpus_run (K : Z) (C0 : Z -> LDADoc) : list visit -> (Z -> LDADoc) -> Prop :=
  | corpus_stop : corpus_run K C0 [] C0
  | corpus_visit tr C v : corpus_run K C0 tr C -> visit_ok K C v -> corpus_run K C0 (tr ++ [v]) (<[v_doc v := v_left v]> C).

(** The documents a worker visits, in order. *)
Definition visits_of (p : nat) (tr : list visit) : list Z := omap (fun v => if decide (v_part v = p) then Some (v_doc v) else None) tr.

Definition finished {H : IntDB} (s : stream) : Prop := r_at (st_reader s) = Exited /\ Forall (fun w => w_at w = Gone) (st_workers s).

Lemma bind_ext_in {A B} (f g : A -> list B) l : (forall x, x ∈ l -> f x = g x) -> l ≫= f = l ≫= g.
Proof.
  induction l as [|x l IH]; intros Hf; [done|]. cbn. rewrite Hf by (by left). f_equal. apply IH. intros y Hy. apply Hf. by right.
Qed.

Section PROPS.
Context `{!IntDB, !IntDBOk} (new_addr : gset Z -> Z) (new_mem : Z -> list Z).
Context (Haddr : forall X, new_addr X ∉ X) (Hmem : forall n, 0 <= n -> blen (new_mem n) = n).
Context (c : DiskStreamReaderConfig) (K : Z) (T : nat) (L : Z).
Context (Hc : config_ok c) (HK : 0 < K < 2 ^ 31) (HT : (0 < T)%nat) (HL : (batch_size c + num_partitions c) * (12 + 8 * L) < 2 ^ 31).
Abbreviation P := (num_partitions c).
Abbreviation N := (num_batches_per_partition c).
Abbreviation np := (np c).
Abbreviation nb := (nb c).
Abbreviation nth_ids := (nth_ids c).
Abbreviation sinv := (sinv c K T L).
Abbreviation seen := (seen c).

(** ** Runs *)
Lemma reader_turn_ok s C ls ts kr k : sinv s C ls ts kr -> reader_kept c K T L C ls ts (reader_turn new_addr new_mem c k s) \/ reader_turn new_addr new_mem c k s = Ret None.
Proof.
  intros Hs. destruct (r_at (st_reader s)) as [first|q|i q|q|] eqn:Ea.
  - destruct (st_cmds s) eqn:Ecm; [right; unfold reader_turn; by rewrite Ea, Ecm|left]. eapply AwaitCmd_turn; try done. by rewrite Ecm.
  - destruct (Flushing_turn new_addr new_mem Hmem c K T L Hc HK HT HL s C ls ts kr k q Hs Ea) as [?|[? _]]; [by left|by right].
  - destruct (Delivering_turn new_addr new_mem Haddr Hmem c K T L Hc HK HT HL s C ls ts kr k i q Hs Ea) as [?|[? _]]; [by left|by right].
  - destruct (Finishing_turn new_addr new_mem Hmem c K T L Hc HK HT HL s C ls ts kr k q Hs Ea) as [?|[? _]]; [by left|by right].
  - right. unfold reader_turn. by rewrite Ea.
Qed.

Lemma visits_of_snoc p tr v : visits_of p (tr ++ [v]) = visits_of p tr ++ if decide (v_part v = p) then [v_doc v] else [].
Proof. unfold visits_of. rewrite omap_app. cbn. by destruct (decide _). Qed.

Lemma run_inv s0 C0 ls0 ts0 tr s : sinv s0 C0 ls0 ts0 0%nat -> (forall p, seen ts0 ls0 p = []) -> stream_run new_addr new_mem c K s0 tr s ->
  exists C ls ts kr, sinv s C ls ts kr /\ corpus_run K C0 tr C /\ forall p, visits_of p tr = seen ts ls p.
Proof.
  intros Hs0 Hno. induction 1 as [|tr s k s' _ IH E|tr s p rng work v s' _ IH Hrng Hwork E].
  - exists C0, ls0, ts0, 0%nat. split_and!; [done|constructor|by intros p; rewrite Hno].
  - destruct IH as (C & ls & ts & kr & Hs & Hcr & Hv). destruct (reader_turn_ok s C ls ts kr k Hs) as [(s2 & ls2 & kr2 & E2 & Hs2 & Hseen)|E2]; [|congruence].
    rewrite E in E2. injection E2 as <-. exists C, ls2, ts, kr2. split_and!; [done..|]. intros p. by rewrite Hseen.
  - destruct IH as (C & ls & ts & kr & Hs & Hcr & Hv). destruct (st_workers s !! p) as [w|] eqn:Ew; [|by unfold worker_turn in E; rewrite Ew in E].
    assert (Hp : (p < np)%nat) by (apply lookup_lt_Some in Ew; destruct (si_lengths _ _ _ _ _ _ _ _ _ Hs) as (<- & _); done).
    destruct (stream_worker_turn_ok c K T L Hc HK HT s C ls ts kr p w rng work Hs Hp Ew Hrng Hwork) as [(v2 & s2 & C2 & ls2 & ts2 & E2 & Hs2 & Heff)|[E2 _]]; [|congruence].
    rewrite E in E2. injection E2 as <- <-. exists C2, ls2, ts2, kr. destruct v as [vis|]; cbn [turn_effect] in Heff.
    + destruct Heff as (Hvp & Hok & -> & Hseen). split_and!; [done|by constructor|]. intros q. etrans; [apply visits_of_snoc|]. by rewrite Hseen, Hv, Hvp.
    + destruct Heff as [-> Hseen]. change (option_list None) with (@nil visit). rewrite app_nil_r. split_and!; [done..|]. intros q. by rewrite Hseen.
Qed.

(** ** How far a worker is *)
Lemma number_bound s C ls ts kr p : sinv s C ls ts kr -> (p < np)%nat -> (ts p <= T * nb)%nat /\ match ls p with Held _ _ => (ts p < T * nb)%nat | _ => True end.
Proof.
  intros Hs Hp. destruct (nb_eq c T Hc HT) as [_ Hnb]. destruct (si_parts _ _ _ _ _ _ _ _ _ Hs p Hp) as (mail & out & w & _ & _ & _ & Hw & _).
  unfold worker_ok in Hw. destruct Hw as [_ Hw]. pose proof (Nat.div_mod_eq (ts p) nb) as E. pose proof (Nat.mod_upper_bound (ts p) nb ltac:(lia)) as Hm.
  assert (Hdiv : (ts p / nb < T)%nat -> (ts p < T * nb)%nat) by nia.
  destruct (w_at w); [destruct Hw as (Ht & _ & _ & Hl)|destruct Hw as (_ & Ht & Hl)|destruct Hw as (_ & Ht & Hl)|destruct Hw as (Ht & Hl & _)|destruct Hw as (Ht & Hl)]; try (rewrite Hl); destruct (ls p); try done; split; try done; try lia; apply Nat.lt_le_incl || idtac; apply Hdiv; lia.
Qed.

Lemma plan_rows p n : concat (replicate n (plan c p)) = (k ← seq 0 (n * nb); batch_ids c (Z.of_nat (k mod nb)) p).
Proof.
  assert (Erow : forall a, (k ← seq (a * nb) nb; batch_ids c (Z.of_nat (k mod nb)) p) = plan c p).
  { intros a. unfold plan. destruct (nb_eq c T Hc HT) as [Enb _]. rewrite <- Enb. unfold seqZ. rewrite Nat2Z.id. rewrite <- (Nat.add_0_r (a * nb)), <- fmap_add_seq.
    rewrite !list_fmap_bind. apply bind_ext_in. intros k Hk%elem_of_seq. cbn. f_equal. rewrite mod_row by lia. lia. }
  induction n as [|n IH]; [done|]. replace (S n) with (n + 1)%nat by lia. rewrite replicate_add, concat_app, IH. cbn [replicate concat]. rewrite app_nil_r.
  replace ((n + 1) * nb)%nat with (n * nb + nb)%nat by lia. rewrite seq_app, bind_app. f_equal. symmetry. apply (Erow n).
Qed.

Lemma seen_prefix s C ls ts kr p : sinv s C ls ts kr -> (p < np)%nat -> seen ts ls p `prefix_of` concat (replicate T (plan c (Z.of_nat p))).
Proof.
  intros Hs Hp. rewrite plan_rows. destruct (number_bound _ _ _ _ _ _ Hs Hp) as [Ht Hl]. unfold LdaStreamSteps.seen, LdaStreamSteps.nth_ids.
  assert (Hsplit : forall t, (t <= T * nb)%nat -> seq 0 (T * nb) = seq 0 t ++ seq t (T * nb - t)) by (intros t Hle; rewrite <- seq_app; f_equal; lia).
  destruct (ls p) as [| |x v|]; try (rewrite app_nil_r, (Hsplit (ts p)), bind_app by done; by apply prefix_app_r).
  rewrite (Hsplit (ts p)), bind_app by done. apply prefix_app. replace (T * nb - ts p)%nat with (S (T * nb - ts p - 1)) by lia. cbn. eexists. by rewrite app_assoc, take_drop.
Qed.

(** ** Progress *)
Lemma pick_first (l : list (Z * Z)) m : m ∈ l -> (forall m', m' ∈ l -> m'.1 = m.1 -> m' = m) -> NoDup l -> exists k r, pick_message k l = Some r.
Proof.
  intros (k & Hk)%list_elem_of_lookup Hu Hnd. exists k. unfold pick_message. rewrite Hk. cbn.
  assert (E : forallb (fun m' => negb (m'.1 =? m.1)) (take k l) = true); [|by rewrite E; eexists].
  apply forallb_forall. intros m' Hin%list_elem_of_In. apply negb_true_iff, Z.eqb_neq. intros Em.
  apply list_elem_of_lookup in Hin as (j & Hj). apply lookup_take_Some in Hj as [Hj Hlt].
  assert (m' = m) as -> by (apply Hu; [by apply list_elem_of_lookup_2 in Hj|done]). rewrite (NoDup_lookup l j k m Hnd Hj Hk) in Hlt. lia.
Qed.

(** A worker whose batch is not on its way back can turn unless it is done. *)
Definition can_turn (s : stream) : Prop :=
  (exists k s', reader_turn new_addr new_mem c k s = Ret (Some s')) \/
  (exists p, forall rng work, (forall n, 0 <= rng n < K) -> keeps_words work -> exists r, worker_turn p rng work s = Ret (Some r)).

Lemma worker_can s C ls ts kr p w : sinv s C ls ts kr -> (p < np)%nat -> st_workers s !! p = Some w ->
  ~ (w_at w = Gone \/ ((w_at w = FetchingRestart \/ w_at w = FetchingGet) /\ place_mail (ls p) = [])) -> can_turn s.
Proof.
  intros Hs Hp Ew Hnot. right. exists p. intros rng work Hrng Hwork.
  destruct (stream_worker_turn_ok c K T L Hc HK HT s C ls ts kr p w rng work Hs Hp Ew Hrng Hwork) as [(v2 & s2 & _ & _ & _ & E2 & _)|[_ Hr]]; [by eexists|done].
Qed.

(** What a reader that waits for partition [q] waits for comes. *)
Lemma awaited_comes s C ls ts kr q : sinv s C ls ts kr -> 0 <= q < P -> ls (Z.to_nat q) <> Nowhere -> (forall k, pick_message k (st_returned s) = None) -> can_turn s.
Proof.
  intros Hs Hq Hl Hpick. destruct (np_eq c T Hc HT) as [Enp _]. assert (Hp : (Z.to_nat q < np)%nat) by lia. set (p := Z.to_nat q) in *.
  destruct (si_parts _ _ _ _ _ _ _ _ _ Hs p Hp) as (mail & out & w & _ & _ & Ew & [HwK Hw] & _). destruct (si_returned _ _ _ _ _ _ _ _ _ Hs) as [Hnd Hret].
  destruct (ls p) as [|x|x v|x] eqn:El; [done| | |].
  - apply (worker_can s C ls ts kr p w Hs Hp Ew). rewrite El. intros [Eg|[_ Em]]; [|done]. rewrite Eg in Hw. by destruct Hw.
  - apply (worker_can s C ls ts kr p w Hs Hp Ew). intros [Eg|[[Eg|Eg] _]]; rewrite Eg in Hw; by destruct_and? Hw.
  - exfalso. destruct (pick_first (st_returned s) (Z.of_nat p, x)) as (k & r & E); [apply Hret; by exists p| |done|by rewrite Hpick in E].
    intros [m1 m2] Hm Em. apply Hret in Hm as (p' & Hp' & Ep' & El'). cbn in *. assert (p' = p) as -> by lia. rewrite El in El'. by injection El' as <-; subst.
Qed.

Lemma picks_or (l : list (Z * Z)) : (exists k r, pick_message k l = Some r) \/ (forall k, pick_message k l = None).
Proof.
  destruct (list_exist_dec (fun k => is_Some (pick_message k l)) (seq 0 (length l))) as [Hex|Hno]; [intros; apply _| |].
  - left. destruct Hex as (k & _ & r & E). by exists k, r.
  - right. intros k. destruct (pick_message k l) as [r|] eqn:E; [|done]. exfalso. apply Hno. exists k. split; [|by exists r]. apply elem_of_seq.
    unfold pick_message in E. destruct (l !! k) eqn:El; [|done]. apply lookup_lt_Some in El. lia.
Qed.

Lemma waiting_can_turn s C ls ts kr : sinv s C ls ts kr ->
  ((exists k, reader_kept c K T L C ls ts (reader_turn new_addr new_mem c k s)) \/
   (exists q, 0 <= q < P /\ ls (Z.to_nat q) <> Nowhere /\ forall k, pick_message k (st_returned s) = None)) -> can_turn s.
Proof.
  intros Hs [(k & s' & _ & _ & E & _)|(q & Hq & Hl & Hp)]; [left; by exists k, s'|by eapply awaited_comes].
Qed.

Lemma turn_or_wait s C ls ts kr q0 : sinv s C ls ts kr ->
  (forall k, reader_kept c K T L C ls ts (reader_turn new_addr new_mem c k s) \/
    (reader_turn new_addr new_mem c k s = Ret None /\ 0 <= q0 < P /\ pick_message k (st_returned s) = None /\ ls (Z.to_nat q0) <> Nowhere)) -> can_turn s.
Proof.
  intros Hs Hk. apply (waiting_can_turn s C ls ts kr Hs). destruct (picks_or (st_returned s)) as [(k & r & Ek)|Hno].
  - left. exists k. destruct (Hk k) as [?|(_ & _ & E & _)]; [done|congruence].
  - destruct (Hk 0%nat) as [?|(_ & Hq & _ & Hl)]; [left; by exists 0%nat|right; by exists q0].
Qed.

Lemma exited_finished s C ls ts kr : sinv s C ls ts kr -> r_at (st_reader s) = Exited -> can_turn s \/ finished s.
Proof.
  intros Hs Ea. destruct (decide (Forall (fun w => w_at w = Gone) (st_workers s))) as [Hg|Hg]; [by right|left].
  apply not_Forall_Exists, Exists_exists in Hg as (w & (p & Ew)%list_elem_of_lookup & Hng); [|apply _]. destruct (si_lengths _ _ _ _ _ _ _ _ _ Hs) as (Lw & _).
  assert (Hp : (p < np)%nat) by (apply lookup_lt_Some in Ew; lia). apply (worker_can s C ls ts kr p w Hs Hp Ew). intros [?|[Hat _]]; [done|].
  pose proof (si_reader _ _ _ _ _ _ _ _ _ Hs) as Hr. unfold reader_ok in Hr. rewrite Ea in Hr. pose proof (not_out _ _ _ _ _ _ _ _ _ _ Hs Hp (Hr p Hp I)) as El.
  pose proof (sinv_sent c K T L _ _ _ _ _ _ Hs Hp) as Es. rewrite Ea, El in Es. cbn in Es. pose proof (part_worker c K T L _ _ _ _ _ _ _ Hs Hp Ew) as [_ Hw].
  destruct (nb_eq c T Hc HT) as [_ Hnb]. destruct Hat as [Hat|Hat]; rewrite Hat in Hw; destruct Hw as (_ & Hw & _); rewrite <- Es, Nat.div_mul in Hw by lia; lia.
Qed.

Lemma progress s C ls ts kr : sinv s C ls ts kr -> can_turn s \/ finished s.
Proof.
  intros Hs. destruct (np_eq c T Hc HT) as [_ Hnp]. destruct (nb_eq c T Hc HT) as [_ Hnb]. destruct (r_at (st_reader s)) as [first|q|i q|q|] eqn:Ea.
  - left. destruct (st_cmds s) as [|m l] eqn:Ecm.
    2:{ apply (waiting_can_turn s C ls ts kr Hs). left. exists 0%nat. eapply AwaitCmd_turn; try done. by rewrite Ecm. }
    destruct (si_cmds _ _ _ _ _ _ _ _ _ Hs) as (w0 & E0 & Hle & Hcm). rewrite Ea, Ecm in *. cbn [LdaStreamSteps.consumed] in *.
    apply (worker_can s C ls ts kr 0 w0 Hs Hnp E0). pose proof (part_worker c K T L _ _ _ _ _ _ _ Hs Hnp E0) as [_ Hw].
    pose proof (si_reader _ _ _ _ _ _ _ _ _ Hs) as Hr. unfold reader_ok in Hr. rewrite Ea in Hr. destruct Hr as (_ & Hk & _).
    symmetry in Hcm. apply (f_equal length) in Hcm. rewrite length_map, length_drop, length_take, (commands_length T HT) in Hcm. cbn [length] in Hcm.
    pose proof (sinv_sent c K T L _ _ _ _ _ _ Hs Hnp) as Es. rewrite Ea in Es. cbn [LdaStreamSteps.sent] in Es. intros [Hg|[Hat Hmail]].
    + rewrite Hg in *. cbn [LdaStreamSteps.ordered] in *. lia.
    + assert (Et : sent_of (ls 0%nat) (ts 0%nat) = ts 0%nat) by (destruct Hat as [Hat|Hat]; rewrite Hat in Hw; destruct Hw as (_ & _ & Hl); by destruct (ls 0%nat)).
      rewrite Et in Es. assert (Hord : LdaStreamSteps.ordered c T (w_at w0) (ts 0%nat) = S kr).
      { destruct Hat as [-> | ->]; cbn; by rewrite <- Es, Nat.div_mul by lia. }
      lia.
  - left. apply (turn_or_wait s C ls ts kr q Hs). intros k. by apply (Flushing_turn new_addr new_mem Hmem c K T L Hc HK HT HL s C ls ts kr k q).
  - left. apply (turn_or_wait s C ls ts kr q Hs). intros k. by apply (Delivering_turn new_addr new_mem Haddr Hmem c K T L Hc HK HT HL s C ls ts kr k i q).
  - left. apply (turn_or_wait s C ls ts kr q Hs). intros k. by apply (Finishing_turn new_addr new_mem Hmem c K T L Hc HK HT HL s C ls ts kr k q).
  - by eapply exited_finished.
Qed.

(** ** The end *)
Lemma finished_complete s C ls ts kr : sinv s C ls ts kr -> finished s -> st_heap s = ∅ /\
  (forall p, (p < np)%nat -> seen ts ls p = concat (replicate T (plan c (Z.of_nat p)))) /\
  (forall id, in_corpus c id -> exists v, idb_get id (db_ (st_reader s)) = Some v /\ Deserialize v LDADoc_new = Ret (C id)).
Proof.
  intros Hs [Ea Hg]. pose proof (si_reader _ _ _ _ _ _ _ _ _ Hs) as Hr. unfold reader_ok in Hr. rewrite Ea in Hr.
  assert (Hn : forall p, (p < np)%nat -> ls p = Nowhere) by (intros p Hp; apply (not_out _ _ _ _ _ _ _ _ _ _ Hs Hp (Hr p Hp I))). split_and!.
  - apply map_empty. intros x. destruct (st_heap s !! x) as [b|] eqn:Eb; [|done]. destruct (si_heap _ _ _ _ _ _ _ _ _ Hs) as [_ Hdom].
    destruct (Hdom x b Eb) as (p & Hp & E). by rewrite Hn in E.
  - intros p Hp. pose proof (sinv_sent c K T L _ _ _ _ _ _ Hs Hp) as Es. rewrite Ea, Hn in Es by done. cbn in Es.
    rewrite plan_rows. unfold LdaStreamSteps.seen, LdaStreamSteps.nth_ids. by rewrite Hn, app_nil_r, <- Es.
  - eapply db_complete; [exact Hs|done].
Qed.

(** ** The start *)
Lemma stream_plan_length p : 0 <= p < P -> blen (plan c p) = (N - 1) * batch_size c + this_batch_size c (N - 1) p.
Proof.
  intros Hp. destruct (batches_eq c Hc) as (_ & HN & _). assert (Hrow : forall n, Z.of_nat n <= N - 1 -> blen (i ← seqZ 0 (Z.of_nat n); batch_ids c i p) = Z.of_nat n * batch_size c).
  { induction n as [|n IH]; intros Hn; [done|]. rewrite seqZ_S, bind_app, blen_app, IH by lia. cbn [mbind list_bind]. rewrite app_nil_r.
    unfold batch_ids, this_batch_size. rewrite Z.add_0_l, bool_decide_true by lia. destruct Hc as (HB & _). unfold blen. rewrite length_seqZ. lia. }
  unfold plan. replace N with (Z.of_nat (S (Z.to_nat (N - 1)))) at 1 by lia. rewrite seqZ_S, bind_app, blen_app, Hrow by lia. cbn [mbind list_bind]. rewrite app_nil_r.
  rewrite Z.add_0_l, !Z2Nat.id by lia. f_equal. unfold batch_ids, blen. rewrite length_seqZ. pose proof (batch_size_bounds c Hc (N - 1) p). lia.
Qed.

Lemma range_length p : 0 <= p < P -> let r := partition_range (num_docs c) P (doc_id_begin c) (doc_id_begin c + num_docs c) p in r.2 - r.1 = blen (plan c p).
Proof.
  intros Hp. rewrite stream_plan_length by done. destruct (batches_eq c Hc) as (_ & HN & En & _). destruct (last_eq c Hc) as (El & H1 & _ & Hm & Ell). destruct Hc as (HB & HP & Hnd & _).
  assert (Eq : Z.quot (num_docs c) P = (N - 1) * batch_size c + last_batch_size c).
  { rewrite Z.quot_div_nonneg by lia. symmetry. apply (Z.div_unique _ _ _ (Z.rem (num_remained_docs c) P)); [lia|]. nia. }
  unfold partition_range, this_batch_size. cbn [fst snd]. rewrite Eq, (bool_decide_false (N - 1 < N - 1)) by lia. destruct (decide (p = P - 1)) as [->|Hp1].
  - rewrite bool_decide_true, bool_decide_false by lia. nia.
  - rewrite bool_decide_false, bool_decide_true by lia. lia.
Qed.

(** The database has the corpus [C0]. *)
Definition holds (C0 : Z -> LDADoc) (db : idb) : Prop := forall id,
  (is_Some (idb_get id db) <-> in_corpus c id) /\
  (in_corpus c id -> exists v, idb_get id db = Some v /\ Deserialize v LDADoc_new = Ret (C0 id) /\ doc_wf (C0 id) /\ blen (tokens_ (C0 id)) <= L).

Lemma start_inv m C0 db : partition_ranges m = map (partition_range (num_docs c) P (doc_id_begin c) (doc_id_begin c + num_docs c)) (seqZ 0 P) -> holds C0 db ->
  exists s0, stream_start new_mem c m K T db = Ret s0 /\ sinv s0 C0 (fun _ => Nowhere) (fun _ => 0%nat) 0%nat /\
    forall p w, st_workers s0 !! p = Some w -> pl_num_docs_ (w_loader w) = blen (plan c (Z.of_nat p)).
Proof.
  intros Em Hdb. destruct (np_eq c T Hc HT) as [Enp Hnp]. destruct (nb_eq c T Hc HT) as [Enb Hnb].
  set (ld p := PartitionDocLoader_new (blen (plan c p)) K).
  assert (Els : mapM (GetPartitionDocLoader m K) (seqZ 0 P) = Ret (map ld (seqZ 0 P))).
  { apply mapM_pure. intros p Hp%elem_of_seqZ. unfold GetPartitionDocLoader, ld. rewrite Em.
    assert (Eat : vec_at (map (partition_range (num_docs c) P (doc_id_begin c) (doc_id_begin c + num_docs c)) (seqZ 0 P)) p = Ret (partition_range (num_docs c) P (doc_id_begin c) (doc_id_begin c + num_docs c) p)).
    { apply vec_at_Ret. split; [lia|]. change (map ?f ?l) with (f <$> l). rewrite list_lookup_fmap, lookup_seqZ_lt by lia. cbn. do 2 f_equal. lia. }
    rewrite Eat. cbn [mbind outcome_bind]. by rewrite range_length by lia. }
  unfold stream_start. rewrite Els. cbn [mbind outcome_bind]. rewrite (batches_are_defined c Hc). cbn [mbind outcome_bind]. set (s0 := mkstream _ _ _ _ _ _).
  assert (Ew : forall p, (p < np)%nat -> st_workers s0 !! p = Some (mkworker (ld (Z.of_nat p)) Starting (pred T))).
  { intros p Hp. cbn. change (map ?f ?l) with (f <$> l). rewrite !list_lookup_fmap, lookup_seqZ_lt by lia. cbn. do 3 f_equal. }
  assert (Hlen : length (st_workers s0) = np) by (cbn; rewrite !length_map, length_seqZ; done). exists s0. split_and!; [done| |].
  2:{ intros p w E. assert (Hp : (p < np)%nat) by (apply lookup_lt_Some in E; lia). rewrite Ew in E by done. by injection E as <-. }
  constructor; cbn [st_heap st_mail st_returned st_reader st_cmds r_at outstanding_batch_ db_ s0].
  - split_and!; [done|cbn; by rewrite length_replicate..].
  - intros p Hp. exists [], false, (mkworker (ld (Z.of_nat p)) Starting (pred T)). split_and!; [by apply lookup_replicate_2|by apply lookup_replicate_2|by apply Ew|].
    split_and!; try done. unfold worker_ok. cbn. split_and!; try done. lia.
  - split; [constructor|]. intros q. split; [by intros ?%elem_of_nil|]. by intros (? & _ & _ & ?).
  - split; [done|]. intros x b. by rewrite lookup_empty.
  - exists (mkworker (ld 0) Starting (pred T)). split; [by apply (Ew 0%nat)|]. done.
  - unfold reader_ok. cbn. split_and!; [by rewrite bool_decide_true|lia|]. intros _ p Hp _. by apply lookup_replicate_2.
  - intros id. destruct (Hdb id) as [H1 H2]. split; [done|]. intros Hid _. destruct (H2 Hid) as (v & E1 & E2 & _). by exists v.
  - intros id Hid. destruct (Hdb id) as [_ H2]. by destruct (H2 Hid) as (v & _ & _ & ?).
Qed.
End PROPS.

(** ** Streaming is going through the corpus *)

(** C25: whatever the interleaving of the reader and the workers, no check
    fails and no freed or missing batch is used; the visits are visits of one
    corpus in memory, where each document is as its last visitor left it; each
    worker visits the documents of its plan in order, as many as its loader
    counts, and the plans together have every document once; in every state a
    thread can go on unless all have ended, and then every worker has made its
    passes, no batch is left in memory and the database holds the corpus as
    the last visits left it.  This is for corpora whose last batches all have
    documents and for fewer than [2^24] documents, in memory and in a round of
    batches ([config_ok]); [whole_batches_undefined] is about others. *)
Theorem streaming_keeps_corpus `{!IntDB, !IntDBOk} (new_addr : gset Z -> Z) (new_mem : Z -> list Z) (parts first docs batch num_topics L : Z) (passes : nat)
    (C0 : Z -> LDADoc) (db : idb) :
  let m := AbstractMasterDocLoader_new docs parts first (first + docs) in
  let c := reader_config m batch in
  (forall X, new_addr X ∉ X) -> (forall n, 0 <= n -> blen (new_mem n) = n) ->
  config_ok c -> 0 < num_topics < 2 ^ 31 -> (0 < passes)%nat -> (batch + parts) * (12 + 8 * L) < 2 ^ 31 -> holds c L C0 db ->
  (p ← seqZ 0 parts; plan c p) ≡ₚ seqZ first docs /\
  exists s0, stream_start new_mem c m num_topics passes db = Ret s0 /\
    (forall p w, st_workers s0 !! p = Some w -> pl_num_docs_ (w_loader w) = blen (plan c (Z.of_nat p))) /\
    forall tr s, stream_run new_addr new_mem c num_topics s0 tr s ->
      (forall k, exists r, reader_turn new_addr new_mem c k s = Ret r) /\
      (forall p rng work, (forall n, 0 <= rng n < num_topics) -> keeps_words work -> exists r, worker_turn p rng work s = Ret r) /\
      (forall p, Z.of_nat p < parts -> visits_of p tr `prefix_of` concat (replicate passes (plan c (Z.of_nat p)))) /\
      (can_turn new_addr new_mem c num_topics s \/ finished s) /\
      exists C, corpus_run num_topics C0 tr C /\
        (finished s -> st_heap s = ∅ /\ (forall p, Z.of_nat p < parts -> visits_of p tr = concat (replicate passes (plan c (Z.of_nat p)))) /\
           forall id, first <= id < first + docs -> exists v, idb_get id (db_ (st_reader s)) = Some v /\ Deserialize v LDADoc_new = Ret (C id)).
Proof.
  intros m c Haddr Hmem Hc HK HT HL Hdb. assert (Edocs : num_docs c = docs) by (cbn; lia). split; [rewrite <- Edocs; apply (plans_permutation c Hc)|].
  destruct (start_inv new_mem c num_topics passes L Hc HT m C0 db) as (s0 & E0 & Hs0 & Hw0); [cbn; by rewrite Z.add_simpl_l|done|].
  exists s0. split_and!; [done..|]. intros tr s Hrun.
  destruct (run_inv new_addr new_mem Haddr Hmem c num_topics passes L Hc HK HT HL s0 C0 _ _ tr s Hs0 (fun _ => eq_refl) Hrun) as (C & ls & ts & kr & Hs & Hcr & Hv).
  assert (Hp : forall p, Z.of_nat p < parts -> (p < np c)%nat) by (intros p Hlt; unfold np; cbn; lia). split_and!.
  - intros k. destruct (reader_turn_ok new_addr new_mem Haddr Hmem c num_topics passes L Hc HK HT HL s C ls ts kr k Hs) as [(s' & _ & _ & E & _)|E]; by eexists.
  - intros p rng work Hrng Hwork. destruct (st_workers s !! p) as [w|] eqn:Ew; [|exists None; unfold worker_turn; by rewrite Ew].
    assert (Hpn : (p < np c)%nat) by (apply lookup_lt_Some in Ew; destruct (si_lengths _ _ _ _ _ _ _ _ _ Hs) as (<- & _); done).
    destruct (stream_worker_turn_ok c num_topics passes L Hc HK HT s C ls ts kr p w rng work Hs Hpn Ew Hrng Hwork) as [(v & s' & _ & _ & _ & E & _)|[E _]]; by eexists.
  - intros p Hlt. rewrite Hv. by eapply seen_prefix; [..|exact Hs|apply Hp].
  - by eapply progress; [..|exact Hs].
  - exists C. split; [done|]. intros Hf. destruct (finished_complete c num_topics passes L Hc HT s C ls ts kr Hs Hf) as (H1 & H2 & H3). split_and!; [done| |].
    + intros p Hlt. rewrite Hv. by apply H2, Hp.
    + intros id Hid. apply H3. unfold in_corpus. rewrite Edocs. done.
Qed.

(** *** Witness: a database as a map, six documents, two workers *)
#[export] Instance demo_db : IntDB := {
  idb := gmap Z (list Z);
  idb_write puts d := foldl (fun d e => <[e.1 := e.2]> d) d puts;
  idb_get k d := d !! k;
  idb_scan d := sorted_entries d
}.

Lemma entries_increase (d : gmap Z (list Z)) : StronglySorted (fun a b => Compare a b < 0) (sorted_entries d).*1.
Proof.
  pose proof (sorted_entries_sorted d) as Hs. pose proof (sorted_entries_NoDup d) as Hnd.
  induction Hs as [|e l _ IH Hall]; [constructor|]. rewrite fmap_cons in Hnd |- *. apply NoDup_cons in Hnd as [Hn Hnd]. constructor; [by apply IH|].
  apply Forall_fmap, Forall_forall. intros e' He'. rewrite Forall_forall in Hall. specialize (Hall e' He'). unfold key_le in Hall. apply Compare_lt.
  assert (e.1 <> e'.1) by (intros E; apply Hn; rewrite E; by apply list_elem_of_fmap_2). lia.
Qed.

#[export] Instance demo_db_ok : IntDBOk.
Proof.
  constructor.
  - apply entries_increase.
  - apply sorted_entries_lookup.
  - done.
  - intros puts k v d k'. cbn. rewrite foldl_app. cbn. case_bool_decide as E; [apply Compare_0 in E as ->; apply lookup_insert_eq|].
    apply lookup_insert_ne. intros ->. apply E, Compare_refl.
Qed.

Definition demo_corpus (id : Z) : LDADoc := mkdoc [id; 7] [0; 0] 0.
Definition demo_docs_db : gmap Z (list Z) := list_to_map (map (fun id => (id, doc_bytes (demo_corpus id))) (seqZ 10 6)).
Definition demo_fresh (X : gset Z) : Z := fresh X.
Definition demo_mem (n : Z) : list Z := replicate (Z.to_nat n) 255.

Lemma demo_holds : holds (reader_config (AbstractMasterDocLoader_new 6 2 10 16) 2) 2 demo_corpus demo_docs_db.
Proof.
  assert (Hid : forall id, 10 <= id < 16 -> id = 10 \/ id = 11 \/ id = 12 \/ id = 13 \/ id = 14 \/ id = 15) by lia.
  intros id. unfold in_corpus. cbn [doc_id_begin num_docs reader_config doc_id_begin_ doc_id_end_ AbstractMasterDocLoader_new]. split.
  - split.
    + intros [v Hv]. change (demo_docs_db !! id = Some v) in Hv. apply elem_of_list_to_map_2 in Hv. apply list_elem_of_fmap in Hv as (id' & [= -> ->] & Hin%elem_of_seqZ). lia.
    + intros H%Hid. destruct_or! H; subst id; by eexists.
  - intros H%Hid. destruct_or! H; subst id; (eexists; split; [reflexivity|]; split; [vm_compute; reflexivity|]; split; [|done]; unfold doc_wf; cbn;
      split_and!; try lia; repeat (apply Forall_cons; split; [unfold in_i32; lia|]); try constructor; unfold blen; cbn; lia).
Qed.

Lemma streaming_keeps_corpus_witness :
  let m := AbstractMasterDocLoader_new 6 2 10 16 in
  let c := reader_config m 2 in
  exists s0, stream_start demo_mem c m 3 2 demo_docs_db = Ret s0 /\ (can_turn demo_fresh demo_mem c 3 s0 \/ finished s0).
Proof.
  pose proof (streaming_keeps_corpus demo_fresh demo_mem 2 10 6 2 3 2 2 demo_corpus demo_docs_db (fun X => is_fresh X)
    (fun n Hn => ltac:(unfold blen, demo_mem; rewrite length_replicate; lia)) ltac:(vm_compute; repeat split; discriminate) ltac:(lia) ltac:(lia) ltac:(lia) demo_holds) as (_ & s0 & E & _ & Hrun).
  destruct (Hrun [] s0 (run_stop _ _ _ _ _)) as (_ & _ & _ & H4 & _). exists s0. by split.
Defined.

(** ** Corpora that divide into whole batches

    Without [config_ok]: when the last batch would be a whole one its size
    comes out as 0, and a worker that asks for the next document takes the
    first of an empty batch. *)
Definition turn_of {H : IntDB} (c : DiskStreamReaderConfig) (num_topics : Z) (t : option nat) (e : list visit * stream) : option (list visit * stream) :=
  match t with
  | None => match reader_turn demo_fresh demo_mem c 0 e.2 with Ret (Some s') => Some (e.1, s') | _ => None end
  | Some p => match worker_turn p (fun _ => 1) (fun d => d) e.2 with Ret (Some (v, s')) => Some (e.1 ++ option_list v, s') | _ => None end
  end.
Definition turns {H : IntDB} (c : DiskStreamReaderConfig) (num_topics : Z) (l : list (option nat)) (s : stream) : option (list visit * stream) :=
  foldl (fun e t => e ≫= turn_of c num_topics t) (Some ([], s)) l.

Lemma turns_run {H : IntDB} c num_topics l s tr s' : 1 < num_topics -> turns c num_topics l s = Some (tr, s') -> stream_run demo_fresh demo_mem c num_topics s tr s'.
Proof.
  intros Hk. unfold turns. revert tr s'. induction l as [|t l IH] using rev_ind; intros tr s'; [intros [= <- <-]; constructor|]. rewrite foldl_app. cbn.
  destruct (foldl _ _ l) as [[tr1 s1]|]; [|done]. specialize (IH tr1 s1 eq_refl). cbn. destruct t as [p|]; cbn.
  - destruct (worker_turn _ _ _ _) as [[[v s2]|]| |] eqn:E; try done. intros [= <- <-]. by apply (run_worker _ _ _ _ _ tr1 s1 p (fun _ => 1) (fun d => d)).
  - destruct (reader_turn _ _ _ _ _) as [[s2|]| |] eqn:E; try done. intros [= <- <-]. by apply (run_reader _ _ _ _ _ tr1 s1 0).
Qed.

(** Two documents, batches of one, one partition. *)
Lemma whole_batches_undefined : exists s0 tr s,
  let m := AbstractMasterDocLoader_new 2 1 10 12 in
  let c := reader_config m 1 in
  stream_start demo_mem c m 3 1 demo_docs_db = Ret s0 /\ stream_run demo_fresh demo_mem c 3 s0 tr s /\ map v_doc tr = [10] /\
  worker_turn 0 (fun _ => 1) (fun d => d) s = Undef.
Proof.
  set (c := reader_config (AbstractMasterDocLoader_new 2 1 10 12) 1).
  destruct (@stream_start demo_db demo_mem c (AbstractMasterDocLoader_new 2 1 10 12) 3 1 demo_docs_db) as [s0| |] eqn:E0; [|discriminate E0..].
  set (l := [Some 0%nat; None; None; None; None; Some 0%nat; Some 0%nat; Some 0%nat; None; None; None]).
  injection E0 as E0. destruct (turns c 3 l s0) as [[tr s]|] eqn:E; [|subst s0; vm_compute in E; discriminate E].
  exists s0, tr, s. split; [by rewrite <- E0|]. split; [by apply (turns_run c 3 l)|]. subst s0. vm_compute in E. injection E as <- <-. by vm_compute.
Qed.
